(* ===== verification/_CoqProject ===== *)
-Q . S2P
Prelude.v
Rmap.v
Clist.v
Proc.v
Clock.v
Dll.v
Mem.v
Bio.v
Bcache.v
Blockio.v
Alloc.v
Bmap.v
Dinode.v
Trunc.v
Itrunc.v
Rwip.v
Tailq.v
Icache.v
Prot.v
Dir.v
Dirent.v
Dirsys.v
Descrip.v
Fileinv.v
Fdesc.v
Fsys.v
Sched.v
Sig.v
Fork.v
Plist.v
Life.v
Birth.v
Sleep.v
Log.v
