(* ===== verification/Prelude.v ===== *)
(** * A verification of the RetroBSD kernel

    RetroBSD is a 2.11BSD kernel for a 32-bit MIPS microcontroller.  This
    library models the parts of sys/kernel and sys/pic32 that carry its own
    logic as Rocq functions, one function for each C function (and one for
    each of its loops), and proves what makes them correct.

    ** How the code is modelled

    - Integers are [Z]; the wrap-around of a C type is written where the code
      computes ([u8], [u16], [u32], [s8], [s16], [s32] below).
    - A table is a list, a pointer into it an index, NULL is [None]; an access
      outside a table is the result [Fault], a call of panic() is [Panic], and
      the theorems show that neither happens.  Code that works with addresses
      (character queues, memory routines, buffer lists) keeps them as numbers.
    - Code between splx pairs runs without interruption, so each such function
      is one step; where the code sleeps the model is cut at the sleep, and
      the theorems are about all orders in which the steps can come.
    - Loops that are not structural carry a counter.  It is never the reason
      for a result: every theorem shows that the function returns with the
      counter the model passes.  The counters are one more than the length of
      the table or list that is walked: the map array (Rmap), the blocks of a
      queue (Clist), the process table (Proc, Sched), the callouts (Clock),
      the NBUF buffers in a hash chain or on a free list and one turn for each
      delayed write (Bio), NICFREE turns for bad blocks (Alloc), four levels
      of indirection (Bmap), one turn for each block of a request and three more
      (Rwip), the NINODE inodes in a hash chain and three turns of iget over a
      mount point (Icache), 31 turns to lower u_lastfile and three attempts
      of ino_lock (Descrip), four turns for each process and three more for the
      choice of a process id (Fork), the bytes of a directory (Dir), four
      turns of logwrt and one for each byte of logread (Log).

    ** The files

    - [Prelude]: machine integers, flag words, the result type [res], arrays,
      lists linked through a table.
    - [Rmap]: resource maps (subr_rmap.c): malloc, mfree, malloc3 on the array
      of segments, against the set of free units.
    - [Clist]: character queues (tty_subr.c) on 32-byte blocks by address,
      against plain character sequences.
    - [Proc]: the process table (proc.h, kern_proc.c), setpri.
    - [Clock]: hardclock, softclock and the callout list (kern_clock.c),
      against a list of pending calls with their remaining ticks.
    - [Dll], [Mem]: circular lists; the memory and string routines, insque and
      remque, and the user copies of machdep.c.
    - [Bio], [Bcache]: the buffer cache (ufs_bio.c, buf.h, binit, rdstrategy);
      Bio is the code, Bcache its invariant and the proof that the cache is a
      store of blocks.
    - [Blockio]: the class [BlockIO] of block operations and its laws
      [BlockIOSpec]; the cache is an instance.  The file system code above is
      written and proved against the class.
    - [Alloc]: the free list of blocks (ufs_alloc.c: balloc, free, ifree).
    - [Bmap]: the blocks of a file (ufs_bmap.c), as trees of blocks.
    - [Dinode]: inodes on the disk (inode.h, iupdat, the reading part of iget).
    - [Trunc], [Itrunc]: truncation (ufs_inode.c: itrunc, indirtrunc,
      trsingle); Trunc is the code and the blocks of one tree, Itrunc the whole
      file and its bytes.
    - [Rwip]: reading and writing files (kern_subr.c: uiomove; sys_inode.c:
      rwip, rdwri) between the caller's memory and the blocks of a file.
    - [Tailq], [Icache]: the table of inodes (ufs_inode.c: iget, igrab, iput,
      irele, iflush, ihinit, the locks): its hash chains, its free list and the
      inodes on the disk behind it.
    - [Prot]: users, permissions and attributes (kern_prot.c, kern_prot2.c,
      ufs_fio.c, the attributes of ufs_syscalls.c): setuid, setgid, setgroups,
      access, ufs_setattr and utimes.
    - [Dir], [Dirent], [Dirsys]: directories (dir.h, ufs_namei.c: the search of
      namei in one directory, direnter, dirremove, dirrewrite, dirempty).  Dir
      is the code on the bytes of a directory, Dirent the records of one block
      and their compaction, Dirsys the directory as a set of names.
    - [Descrip]: file descriptors (kern_descrip.c), open files, advisory locks
      (ino_lock, ino_unlock), copen, pipe and the descriptor loops of fork,
      exec and exit, on the class [InodeLayer] of inode operations, and the
      processes that call them.  [Fileinv] has the invariant and the locks,
      [Fdesc] the operations, [Fsys] all processes together.
    - [Sched]: the run queue and the sleep queues (kern_synch.c): wakeup,
      setrun, unsleep, setrq, remrq, swtch.
    - [Sig]: signals (kern_sig.c, kern_sig2.c): psignal, issignal, postsig,
      kill and the calls on actions and masks, on the queues of Sched.
    - [Sleep]: tsleep, endtsleep, sleep, schedcpu, on Sched, Clock and Sig.
    - [Fork]: fork, exit and wait (kern_fork.c, kern_exit.c) on the process
      table and the queues of Sched, and the choice of process ids.  [Plist]
      has the lists and hash chains a process is moved between, [Life] the
      invariant and exit, [Birth] fork and wait.
    - [Log]: the log of kernel messages (subr_log.c).

    ** What the theorems show

    - Refinements: the concrete structures behave as their plain models under
      every sequence of operations from start-up: character queues, callouts,
      the buffer cache, the free list of blocks; malloc and mfree on the set
      of free units.
    - Invariants: the tree of blocks of a file under bmap, the reference
      counts of open files under all calls of all processes, the types of the
      tables, signal masks that never hold SIGKILL or SIGSTOP; the lists and
      hash chains of processes under fork, exit and wait, with every process
      but the first a child of a living one.
    - Safety and liveness: locks exclude each other, no wakeup for a lock is
      lost, a tsleep ends by its channel or its timeout, bflush leaves nothing
      unwritten in buffers nobody holds, psignal follows the rules of signals
      for every disposition and state, user copies stay in user memory; no call gives an ordinary
      user an id that was not theirs, and attributes of a file change only for
      those who may.
    - Directories: search, direnter and dirremove on the bytes of the blocks
      are lookup, insertion and removal of one name in a set of names; a
      failed write of a new block leaves the set as it was.
    - The behaviour of each operation on every branch, errors included, where
      a caller relies on it, and the places where the code does not do what
      its comments say.

    ** What is not modelled

    The walk along a path name and its cache of names, mounting, exec, the copy
    of the image in fork, vfork, swapping, pipes beyond their descriptors,
    select, the line discipline and the device drivers; resource usage and the
    time of day; console output; the C library, the commands and the tools,
    which do not take part in the kernel.  Of modelled parts: printed messages,
    statistics counters, and the register switch of setjmp and longjmp.
    Disk transfers complete at once in the model, as they do in the disk
    drivers of this kernel, which poll.  The fields of a dead process that
    struct proc keeps in a union with p_pri, p_cpu, p_time and p_nice are fields
    of their own, and no theorem speaks of the latter after exit; the counter
    runrun, which is only compared with 0, does not wrap; of a process that waits
    for a lock, a signal that comes between its wakeup and its turn to run is
    not a step. *)
From Stdlib Require Export Sorted.
From stdpp Require Export prelude gmap list strings.
#[global] Open Scope Z_scope.

(** ** Machine integers

    The kernel runs on a 32-bit MIPS: [int], [long] and pointers are 32 bits
    wide, [char] is a signed byte.  An integer is a [Z] kept in range by the
    wrap-around functions below, written where the C code computes. *)
Definition u8 (z : Z) : Z := z mod 2 ^ 8.
Definition u16 (z : Z) : Z := z mod 2 ^ 16.
Definition u32 (z : Z) : Z := z mod 2 ^ 32.
Definition s8 (z : Z) : Z := (z + 2 ^ 7) mod 2 ^ 8 - 2 ^ 7.
Definition s16 (z : Z) : Z := (z + 2 ^ 15) mod 2 ^ 16 - 2 ^ 15.
Definition s32 (z : Z) : Z := (z + 2 ^ 31) mod 2 ^ 32 - 2 ^ 31.

Lemma u8_small z : 0 <= z < 256 -> u8 z = z.
Proof. intros. apply Z.mod_small. lia. Qed.
Lemma u32_small z : 0 <= z < 4294967296 -> u32 z = z.
Proof. intros. apply Z.mod_small. lia. Qed.
Lemma s8_small z : -128 <= z < 128 -> s8 z = z.
Proof. intros. unfold s8. rewrite Z.mod_small; lia. Qed.
Lemma s16_small z : -32768 <= z < 32768 -> s16 z = z.
Proof. intros. unfold s16. rewrite Z.mod_small; lia. Qed.
Lemma s32_small z : -2147483648 <= z < 2147483648 -> s32 z = z.
Proof. intros. unfold s32. rewrite Z.mod_small; lia. Qed.
Lemma u8_bound z : 0 <= u8 z < 256.
Proof. unfold u8. pose proof (Z.mod_pos_bound z (2 ^ 8)). lia. Qed.
Lemma u32_bound z : 0 <= u32 z < 4294967296.
Proof. unfold u32. pose proof (Z.mod_pos_bound z (2 ^ 32)). lia. Qed.
Lemma s8_bound z : -128 <= s8 z < 128.
Proof. unfold s8. pose proof (Z.mod_pos_bound (z + 2 ^ 7) (2 ^ 8)). lia. Qed.
Lemma s32_bound z : -2147483648 <= s32 z < 2147483648.
Proof. unfold s32. pose proof (Z.mod_pos_bound (z + 2 ^ 31) (2 ^ 32)). lia. Qed.

(** [norm_int] removes the wrap-arounds whose argument is provably in range. *)
Ltac norm_int :=
  repeat match goal with
  | |- context [u32 ?x] => rewrite (u32_small x) by lia
  | |- context [s32 ?x] => rewrite (s32_small x) by lia
  | |- context [u8 ?x] => rewrite (u8_small x) by lia
  | |- context [s8 ?x] => rewrite (s8_small x) by lia
  | |- context [s16 ?x] => rewrite (s16_small x) by lia
  end.

(** ** Flag words

    [p->p_flag & M], [|= M] and [&= ~M] on words of flags. *)
Definition flag_on (w m : Z) : bool := negb (Z.land w m =? 0).
Definition flag_set (w m : Z) : Z := Z.lor w m.
Definition flag_clr (w m : Z) : Z := Z.land w (Z.lnot m).

Lemma flag_on_land w m : flag_on w m = false <-> Z.land w m = 0.
Proof. unfold flag_on. rewrite negb_false_iff. apply Z.eqb_eq. Qed.

Lemma flag_on_set_same w m : m <> 0 -> flag_on (flag_set w m) m = true.
Proof.
  intros Hm. unfold flag_on, flag_set. rewrite negb_true_iff, Z.eqb_neq.
  rewrite Z.land_lor_distr_l, Z.land_diag. intros H%Z.lor_eq_0_iff. lia.
Qed.

Lemma flag_on_set_other w m n :
  Z.land m n = 0 -> flag_on (flag_set w m) n = flag_on w n.
Proof.
  intros H. unfold flag_on, flag_set.
  by rewrite Z.land_lor_distr_l, H, Z.lor_0_r.
Qed.

Lemma flag_on_clr_same w m : flag_on (flag_clr w m) m = false.
Proof.
  apply flag_on_land. unfold flag_clr.
  by rewrite <- Z.land_assoc, (Z.land_comm (Z.lnot m)), Z.land_lnot_diag, Z.land_0_r.
Qed.

Lemma flag_on_clr_other w m n :
  Z.land m n = 0 -> flag_on (flag_clr w m) n = flag_on w n.
Proof.
  intros H. unfold flag_on, flag_clr.
  replace (Z.land (Z.land w (Z.lnot m)) n) with (Z.land w n); [done|].
  rewrite <- Z.land_assoc. f_equal. apply Z.bits_inj'. intros k Hk.
  rewrite Z.land_spec, Z.lnot_spec by done.
  assert (Z.testbit (Z.land m n) k = false) as E by (rewrite H; apply Z.bits_0).
  rewrite Z.land_spec in E. destruct (Z.testbit m k), (Z.testbit n k); done.
Qed.

Lemma flag_on_clr_sub w m n : Z.land m n = n -> flag_on (flag_clr w m) n = false.
Proof.
  intros H. apply flag_on_land. unfold flag_clr. rewrite <- H, <- Z.land_assoc, (Z.land_assoc (Z.lnot m)).
  by rewrite (Z.land_comm (Z.lnot m)), Z.land_lnot_diag, Z.land_0_l, Z.land_0_r.
Qed.

Lemma flag_on_mask w m n : Z.land m n = n -> flag_on (Z.land m w) n = flag_on w n.
Proof. intros H. unfold flag_on. by rewrite <- Z.land_assoc, (Z.land_comm w), Z.land_assoc, H, Z.land_comm. Qed.
Lemma flag_on_mask_0 w m n : Z.land m n = 0 -> flag_on (Z.land m w) n = false.
Proof. intros H. apply flag_on_land. by rewrite <- Z.land_assoc, (Z.land_comm w), Z.land_assoc, H. Qed.

Create Rewrite HintDb kflags.
#[export] Hint Rewrite flag_on_set_same flag_on_clr_same
  flag_on_set_other flag_on_clr_other using (by vm_compute) : kflags.

(** ** Results of kernel code

    [Ok] is a normal return, [Panic] a call of panic(), [Fault] an access
    outside an array or through a pointer that points nowhere, which C leaves
    undefined. *)
Inductive res (A : Type) : Type :=
  | Ok (a : A)
  | Panic (msg : string)
  | Fault.
Arguments Ok {A} _.
Arguments Panic {A} _.
Arguments Fault {A}.

#[export] Instance res_ret : MRet res := @Ok.
#[export] Instance res_bind : MBind res := fun A B f m =>
  match m with Ok a => f a | Panic s => Panic s | Fault => Fault end.
#[export] Instance res_eq_dec `{EqDecision A} : EqDecision (res A).
Proof. solve_decision. Defined.

Lemma res_bind_assoc {A B C} (m : res A) (f : A -> res B) (g : B -> res C) :
  (m ≫= f) ≫= g = m ≫= (fun a => f a ≫= g).
Proof. by destruct m. Qed.

(** [a[i]] and [a[i] = x] on a C array, which fault outside its bounds. *)
Definition rd {A} (m : list A) (i : nat) : res A :=
  match m !! i with Some e => Ok e | None => Fault end.
Definition wr {A} (m : list A) (i : nat) (e : A) : res (list A) :=
  if decide (i < length m)%nat then Ok (<[i:=e]> m) else Fault.

Lemma rd_Some {A} (m : list A) i e : m !! i = Some e -> rd m i = Ok e.
Proof. intros H. unfold rd. by rewrite H. Qed.
Lemma wr_lt {A} (m : list A) i e : (i < length m)%nat -> wr m i e = Ok (<[i := e]> m).
Proof. intros H. unfold wr. by rewrite decide_True by done. Qed.
Lemma wr_Some {A} (m : list A) i e0 e : m !! i = Some e0 -> wr m i e = Ok (<[i := e]> m).
Proof. intros H. apply wr_lt. by eapply lookup_lt_Some. Qed.

Lemma rd_middle {A} (l1 l2 : list A) e : rd (l1 ++ e :: l2) (length l1) = Ok e.
Proof. unfold rd. by rewrite list_lookup_middle. Qed.
Lemma wr_middle {A} (l1 l2 : list A) e e' :
  wr (l1 ++ e :: l2) (length l1) e' = Ok (l1 ++ e' :: l2).
Proof.
  unfold wr. rewrite decide_True by (rewrite length_app; simpl; lia).
  f_equal. rewrite insert_app_r_alt by lia. by rewrite Nat.sub_diag.
Qed.
Lemma rd_middle' {A} (l1 l2 : list A) e n :
  n = length l1 -> rd (l1 ++ e :: l2) n = Ok e.
Proof. intros ->. apply rd_middle. Qed.
Lemma wr_middle' {A} (l1 l2 : list A) e e' n :
  n = length l1 -> wr (l1 ++ e :: l2) n e' = Ok (l1 ++ e' :: l2).
Proof. intros ->. apply wr_middle. Qed.
Lemma rd_next {A} (l1 l2 : list A) x y : rd (l1 ++ x :: y :: l2) (S (length l1)) = Ok y.
Proof.
  change (x :: y :: l2) with ([x] ++ y :: l2). rewrite app_assoc.
  apply rd_middle'. rewrite length_app. simpl. lia.
Qed.
Lemma length_snoc {A} (l : list A) x : S (length l) = length (l ++ [x]).
Proof. rewrite length_app. simpl. lia. Qed.
Lemma app_snoc {A} (l1 l2 : list A) x : l1 ++ x :: l2 = (l1 ++ [x]) ++ l2.
Proof. by rewrite <- app_assoc. Qed.
Lemma list_filter_all {A} (P : A -> Prop) `{forall x, Decision (P x)} (l : list A) :
  Forall P l -> filter P l = l.
Proof. induction 1; [done|]. by rewrite filter_cons_True, IHForall. Qed.
Lemma rd_Fault {A} (m : list A) i : (length m <= i)%nat -> rd m i = Fault.
Proof. intros H. unfold rd. by rewrite lookup_ge_None_2. Qed.
Lemma wr_Fault {A} (m : list A) i e : (length m <= i)%nat -> wr m i e = Fault.
Proof. intros H. unfold wr. by rewrite decide_False by lia. Qed.

Lemma elem_of_concat_2 {A} (x : A) l ls : x ∈ l -> l ∈ ls -> x ∈ concat ls.
Proof. intros Hx. induction 1; simpl; set_solver. Qed.
Lemma elem_of_drop_take {A} (l : list A) i j x :
  l !! j = Some x -> i <> j -> x ∈ take i l ++ drop (S i) l.
Proof.
  intros Hj Hij. apply elem_of_app. destruct (decide (j < i)%nat).
  - left. apply list_elem_of_lookup_2 with j. by rewrite lookup_take_lt.
  - right. apply list_elem_of_lookup_2 with (j - S i)%nat. rewrite lookup_drop. rewrite <- Hj. f_equal. lia.
Qed.

(** ** Linked lists in a table

    [chain next m h js]: from [h] the links [next] lead through the entries
    [js] of the table [m] and then end. *)
Section Chain.
Context {A : Type} (next : A -> option nat).
Implicit Types (m : list A) (h : option nat) (js l : list nat).

Fixpoint chain m h js : Prop :=
  match js with
  | [] => h = None
  | i :: js => h = Some i /\ exists e, m !! i = Some e /\ chain m (next e) js
  end.

Lemma chain_frame m m' h js :
  (forall i, i ∈ js -> m' !! i = m !! i) -> chain m h js -> chain m' h js.
Proof.
  revert h. induction js as [|i js IH]; intros h Hl; simpl; [done|].
  intros (->&p&Hi&Hp). split; [done|]. exists p. rewrite Hl by apply list_elem_of_here.
  split; [done|]. apply IH; [|done]. intros j Hj. apply Hl. by apply list_elem_of_further.
Qed.
Lemma chain_insert m h js i e : i ∉ js -> chain m h js -> chain (<[i := e]> m) h js.
Proof. intros Hi. apply chain_frame. intros j Hj. rewrite list_lookup_insert_ne; [done|]. by intros ->. Qed.
Lemma chain_same m h js i e e' :
  m !! i = Some e -> next e' = next e -> chain m h js -> chain (<[i := e']> m) h js.
Proof.
  intros Hi Hn. revert h. induction js as [|j js IH]; intros h; simpl; [done|].
  intros (->&ej&Hj&Hc). split; [done|]. destruct (decide (i = j)) as [->|].
  - simplify_eq. exists e'. rewrite list_lookup_insert_eq by (by eapply lookup_lt_Some).
    rewrite Hn. auto.
  - exists ej. rewrite list_lookup_insert_ne by done. auto.
Qed.
Lemma chain_lookup m h js i : chain m h js -> i ∈ js -> is_Some (m !! i).
Proof.
  revert h. induction js as [|j js IH]; intros h; simpl; [set_solver|].
  intros (_&p&Hj&Hp) [->|Hi]%elem_of_cons; [by eexists|by eapply IH].
Qed.
Lemma chain_length m h js : chain m h js -> NoDup js -> (length js <= length m)%nat.
Proof.
  intros Hp Hnd. rewrite <- (length_seq (length m) 0). apply submseteq_length, NoDup_submseteq; [done|].
  intros i Hi. destruct (chain_lookup _ _ _ _ Hp Hi) as [p Hl]. apply elem_of_seq.
  apply lookup_lt_Some in Hl. lia.
Qed.
Lemma chain_head m h js : chain m h js -> h = head js.
Proof. destruct js; simpl; [done|]. by intros [-> _]. Qed.
Lemma chain_det m h js js' : chain m h js -> chain m h js' -> js = js'.
Proof.
  revert h js'. induction js as [|i js IH]; intros h [|j js']; simpl; [done|..].
  - intros -> [? _]. done.
  - intros [-> _] ?. done.
  - intros (->&e&Hi&Hc) (E&e'&Hj&Hc'). simplify_eq. f_equal. by eapply IH.
Qed.
Lemma chain_split m h l1 l2 :
  chain m h (l1 ++ l2) ->
  exists h2, chain m h2 l2 /\ match last l1 with
    | None => h2 = h
    | Some i => exists e, m !! i = Some e /\ next e = h2
    end.
Proof.
  revert h. induction l1 as [|i l1 IH]; intros h; simpl; [eauto|].
  intros (->&e&Hi&Hc). destruct (IH _ Hc) as (h2&Hc2&Hl). exists h2. split; [done|].
  rewrite last_cons. destruct (last l1); [done|]. subst. eauto.
Qed.

(** Redirecting the link of the last entry of [l1]. *)
Lemma chain_redirect m h l1 i l2 l2' e e' :
  chain m h (l1 ++ i :: l2) -> NoDup (l1 ++ [i]) -> m !! i = Some e ->
  chain m (next e') l2' -> i ∉ l2' ->
  chain (<[i := e']> m) h (l1 ++ i :: l2').
Proof.
  revert h. induction l1 as [|j l1 IH]; intros h; simpl.
  - intros (->&_&_&_) _ Hi Hl2 Hn. split; [done|]. exists e'.
    rewrite list_lookup_insert_eq by (by eapply lookup_lt_Some). split; [done|]. by apply chain_insert.
  - intros (->&ej&Hj&Hc) [Hnj Hnd]%NoDup_cons Hi Hl2 Hn. split; [done|]. exists ej.
    rewrite list_lookup_insert_ne by set_solver. split; [done|]. by apply IH.
Qed.
End Chain.

(** [case_bool] splits on the first boolean test of the goal or of a
    hypothesis and turns it into the proposition it decides. *)
Ltac bool_to_prop :=
  repeat match goal with
  | H : (_ =? _)%Z = true |- _ => apply Z.eqb_eq in H
  | H : (_ =? _)%Z = false |- _ => apply Z.eqb_neq in H
  | H : (_ <? _)%Z = true |- _ => apply Z.ltb_lt in H
  | H : (_ <? _)%Z = false |- _ => apply Z.ltb_ge in H
  | H : (_ <=? _)%Z = true |- _ => apply Z.leb_le in H
  | H : (_ <=? _)%Z = false |- _ => apply Z.leb_gt in H
  | H : (_ && _)%bool = true |- _ => apply andb_true_iff in H; destruct H
  | H : (_ || _)%bool = false |- _ => apply orb_false_iff in H; destruct H
  | H : negb _ = true |- _ => apply negb_true_iff in H
  | H : negb _ = false |- _ => apply negb_false_iff in H
  end.
Ltac case_if :=
  match goal with
  | |- context [if ?b then _ else _] =>
      let E := fresh "E" in destruct b eqn:E; bool_to_prop
  | H : context [if ?b then _ else _] |- _ =>
      let E := fresh "E" in destruct b eqn:E; bool_to_prop
  end.
