(* ===== verification/Rmap.v ===== *)
(** Resource maps (sys/kernel/subr_rmap.c, sys/include/map.h).

    A map is an array of segments [(m_size, m_addr)] in address order, ended
    by an entry of size 0.  The functions below walk the array by index the
    way the code walks it by pointer; an access outside the array is [Fault].
    The abstract view of a map is the set of units its segments cover. *)
From S2P Require Import Prelude.

Module Rmap.

Record mapent := Mapent { m_size : Z; m_addr : Z }.

#[export] Instance mapent_eq_dec : EqDecision mapent.
Proof. solve_decision. Defined.

(** [struct map]: the array and the index of [m_limit] in it. *)
Record map := Map { m_map : list mapent; m_limit : nat }.

(** [struct map swapmap[1]]: [m_limit] is [&swapent[SMAPSIZ]]. *)
Definition SMAPSIZ : nat := 10.
Definition swapmap : map :=
  Map (replicate SMAPSIZ (Mapent 0 0)) SMAPSIZ.

(** [for (ep = bp;; ++ep) { *ep = *++bp; if (!bp->m_size) break; }] *)
Fixpoint shift_left (fuel : nat) (m : list mapent) (ep bp : nat)
    : res (list mapent) :=
  match fuel with
  | O => Fault
  | S fuel =>
      let bp := S bp in
      e ← rd m bp;
      m ← wr m ep e;
      b ← rd m bp;
      if m_size b =? 0 then Ok m else shift_left fuel m (S ep) bp
  end.

Fixpoint malloc_loop (fuel : nat) (m : list mapent) (bp : nat) (size : Z)
    : res (list mapent * Z) :=
  match fuel with
  | O => Fault
  | S fuel =>
      e ← rd m bp;
      if m_size e =? 0 then Ok (m, 0)
      else if size <=? m_size e then
        let addr := m_addr e in
        let sz := u32 (m_size e - size) in
        if negb (sz =? 0) then
          m ← wr m bp (Mapent sz (u32 (m_addr e + size)));
          Ok (m, addr)
        else
          m ← wr m bp (Mapent sz (m_addr e));
          m ← shift_left (length m) m bp bp;
          Ok (m, addr)
      else malloc_loop fuel m (S bp) size
  end.

(** size_t malloc(mp, size) *)
Definition malloc (mp : map) (size : Z) : res (map * Z) :=
  if size =? 0 then Panic "malloc: size = 0"
  else
    '(m, addr) ← malloc_loop (S (length (m_map mp))) (m_map mp) 0 size;
    Ok (Map m (m_limit mp), addr).

(** [while (bp->m_size && bp->m_addr <= addr) ++bp;] *)
Fixpoint mfree_locate (fuel : nat) (m : list mapent) (bp : nat) (addr : Z)
    : res nat :=
  match fuel with
  | O => Fault
  | S fuel =>
      e ← rd m bp;
      if negb (m_size e =? 0) && (m_addr e <=? addr)
      then mfree_locate fuel m (S bp) addr
      else Ok bp
  end.

(** [for (start = bp; bp->m_size; ++bp);] *)
Fixpoint mfree_end (fuel : nat) (m : list mapent) (bp : nat) : res nat :=
  match fuel with
  | O => Fault
  | S fuel =>
      e ← rd m bp;
      if m_size e =? 0 then Ok bp else mfree_end fuel m (S bp)
  end.

(** [for (ep = bp - 1; ep >= start; *bp-- = *ep--);], with [n] the number of
    entries from [start] to [ep]. *)
Fixpoint shift_right (n : nat) (m : list mapent) (start : nat)
    : res (list mapent) :=
  match n with
  | O => Ok m
  | S n =>
      e ← rd m (start + n)%nat;
      m ← wr m (S (start + n)) e;
      shift_right n m start
  end.

(** The new entry of mfree at [start], or the report of a map overflow. *)
Definition mfree_insert (mp : map) (start : nat) (size addr : Z)
    : res (map * bool) :=
  let m := m_map mp in
  bp ← mfree_end (S (length m)) m start;
  let bp := S bp in
  if (m_limit mp <? bp)%nat then Ok (mp, true)
  else
    m ← shift_right (bp - start) m start;
    m ← wr m start (Mapent size addr);
    Ok (Map m (m_limit mp), false).

(** void mfree(mp, size, addr); the result says whether the segment was lost
    to a map overflow. *)
Definition mfree (mp : map) (size addr : Z) : res (map * bool) :=
  if size =? 0 then Ok (mp, false)
  else if addr =? 0 then Panic "mfree: addr = 0"
  else
    let m := m_map mp in
    bp ← mfree_locate (S (length m)) m 0 addr;
    b ← rd m bp;
    let abut_right := negb (m_size b =? 0) && (m_addr b <=? u32 (addr + size)) in
    let left :=
      match bp with
      | O => None
      | S ep =>
          match m !! ep with
          | Some e => if addr <=? u32 (m_addr e + m_size e) then Some (ep, e) else None
          | None => None
          end
      end in
    match left with
    | Some (ep, e) =>
        let sz := u32 (m_size e + size) in
        m ← wr m ep (Mapent sz (m_addr e));
        if abut_right then
          m ← wr m ep (Mapent (u32 (sz + m_size b)) (m_addr e));
          m ← shift_left (length m) m bp bp;
          Ok (Map m (m_limit mp), false)
        else Ok (Map m (m_limit mp), false)
    | None =>
        if abut_right then
          m ← wr m bp (Mapent (u32 (m_size b + size)) addr);
          Ok (Map m (m_limit mp), false)
        else
          mfree_insert mp bp size addr
    end.

(** ** malloc3 *)

Record madd3 := Madd3
  { madd : list (option nat); mremap : option nat; mfound : nat }.

(** The body of the inner loop of the search, at index [next]; [true] is the
    jump to [resolve]. *)
Definition malloc3_try (sizes : list Z) (next bp : nat) (m : list mapent)
    (st : madd3) : res (list mapent * madd3 * bool) :=
  e ← rd m bp;
  ma ← rd (madd st) next;
  sz ← rd sizes next;
  match ma with
  | None =>
      if sz <=? m_size e then
        let left := u32 (m_size e - sz) in
        m ← wr m bp (Mapent left (m_addr e));
        let remap := match mremap st with
                     | None => if left =? 0 then Some bp else None
                     | r => r
                     end in
        let found := S (mfound st) in
        Ok (m, Madd3 (<[next := Some bp]> (madd st)) remap found, bool_decide (found = 3%nat))
      else Ok (m, st, false)
  | Some _ => Ok (m, st, false)
  end.

(** [for (next = 0; next < 3; ++next)], over the indices in [nexts]. *)
Fixpoint malloc3_inner (sizes : list Z) (nexts : list nat) (bp : nat)
    (m : list mapent) (st : madd3) : res (list mapent * madd3 * bool) :=
  match nexts with
  | [] => Ok (m, st, false)
  | next :: nexts =>
      '(m, st, stop) ← malloc3_try sizes next bp m st;
      if stop : bool then Ok (m, st, true)
      else malloc3_inner sizes nexts bp m st
  end.

(** [for (found = 0, bp = mp->m_map; bp->m_size; ++bp)] *)
Fixpoint malloc3_search (fuel : nat) (sizes : list Z) (bp : nat)
    (m : list mapent) (st : madd3) : res (list mapent * madd3 * bool) :=
  match fuel with
  | O => Fault
  | S fuel =>
      e ← rd m bp;
      if m_size e =? 0 then Ok (m, st, false)
      else
        '(m, st, stop) ← malloc3_inner sizes [0; 1; 2]%nat bp m st;
        if stop : bool then Ok (m, st, true)
        else malloc3_search fuel sizes (S bp) m st
  end.

(** [if (madd[next]) madd[next]->m_size += sizes[next];] for each [next]. *)
Fixpoint malloc3_restore (mas : list (option nat)) (sizes : list Z)
    (m : list mapent) : res (list mapent) :=
  match mas, sizes with
  | ma :: mas, sz :: sizes =>
      match ma with
      | Some bp =>
          e ← rd m bp;
          m ← wr m bp (Mapent (u32 (m_size e + sz)) (m_addr e));
          malloc3_restore mas sizes m
      | None => malloc3_restore mas sizes m
      end
  | _, _ => Ok m
  end.

(** [a[next] = bp->m_addr; bp->m_addr += sizes[next];] for each [next]. *)
Fixpoint malloc3_resolve (mas : list (option nat)) (sizes : list Z)
    (m : list mapent) : res (list mapent * list Z) :=
  match mas, sizes with
  | ma :: mas, sz :: sizes =>
      match ma with
      | Some bp =>
          e ← rd m bp;
          m ← wr m bp (Mapent (m_size e) (u32 (m_addr e + sz)));
          '(m, a) ← malloc3_resolve mas sizes m;
          Ok (m, m_addr e :: a)
      | None => Fault
      end
  | _, _ => Ok (m, [])
  end.

(** [for (bp = remap + 1;; ++bp) if (bp->m_size || !bp->m_addr)
    { *remap++ = *bp; if (!bp->m_addr) break; }] *)
Fixpoint malloc3_compact (fuel : nat) (m : list mapent) (remap bp : nat)
    : res (list mapent) :=
  match fuel with
  | O => Fault
  | S fuel =>
      e ← rd m bp;
      if negb (m_size e =? 0) || (m_addr e =? 0) then
        m ← wr m remap e;
        b ← rd m bp;
        if m_addr b =? 0 then Ok m
        else malloc3_compact fuel m (S remap) (S bp)
      else malloc3_compact fuel m remap (S bp)
  end.

(** size_t malloc3(mp, d_size, s_size, u_size, a): the map, [a] and the
    returned value. *)
Definition malloc3 (mp : map) (d_size s_size u_size : Z)
    : res (map * list Z * Z) :=
  let sizes := [d_size; s_size; u_size] in
  let st := Madd3 [None; None; None] None 0 in
  '(m, st, stop) ← malloc3_search (S (length (m_map mp))) sizes 0 (m_map mp) st;
  if stop : bool then
    '(m, a) ← malloc3_resolve (madd st) sizes m;
    m ← match mremap st with
        | Some remap => malloc3_compact (length m) m remap (S remap)
        | None => Ok m
        end;
    a2 ← rd a 2;
    Ok (Map m (m_limit mp), a, a2)
  else
    m ← malloc3_restore (madd st) sizes m;
    Ok (Map m (m_limit mp), [], 0).

(** ** Well-formed maps and the units they cover *)

(** Segments in address order above [lo], not empty, inside the 32-bit
    address space, with a gap between neighbours. *)
Fixpoint segs_wf (lo : Z) (l : list mapent) : Prop :=
  match l with
  | [] => True
  | e :: l =>
      lo < m_addr e /\ 0 < m_size e /\ m_addr e + m_size e < 2 ^ 32 /\
      segs_wf (m_addr e + m_size e) l
  end.

#[export] Instance segs_wf_dec lo l : Decision (segs_wf lo l).
Proof. revert lo. induction l; intros lo; simpl; apply _. Defined.

(** The end of the last segment of [l], [lo] if there is none. *)
Fixpoint seg_end (lo : Z) (l : list mapent) : Z :=
  match l with [] => lo | e :: l => seg_end (m_addr e + m_size e) l end.

Definition within (x : Z) (e : mapent) : Prop := m_addr e <= x < m_addr e + m_size e.
Definition covers (l : list mapent) (x : Z) : Prop := Exists (within x) l.

Definition map_rep (mp : map) (l : list mapent) : Prop :=
  segs_wf 0 l /\ exists rest, m_map mp = l ++ Mapent 0 0 :: rest.

Lemma segs_wf_app lo l1 l2 :
  segs_wf lo (l1 ++ l2) <-> segs_wf lo l1 /\ segs_wf (seg_end lo l1) l2.
Proof.
  revert lo. induction l1 as [|e l1 IH]; intros lo; simpl; [tauto|].
  rewrite IH. tauto.
Qed.
Lemma seg_end_app lo l1 l2 : seg_end lo (l1 ++ l2) = seg_end (seg_end lo l1) l2.
Proof. revert lo. induction l1; intros lo; simpl; auto. Qed.
Lemma segs_wf_weaken lo lo' l : lo' <= lo -> segs_wf lo l -> segs_wf lo' l.
Proof. destruct l; simpl; [done|]. intros ? (?&?&?&?). repeat split; [lia..|done]. Qed.
Lemma seg_end_ge lo l : segs_wf lo l -> lo <= seg_end lo l.
Proof.
  revert lo. induction l as [|e l IH]; intros lo; simpl; [lia|].
  intros (?&?&?&?%IH). lia.
Qed.
Lemma covers_cons e l x : covers (e :: l) x <-> within x e \/ covers l x.
Proof. apply Exists_cons. Qed.
Lemma covers_app l1 l2 x : covers (l1 ++ l2) x <-> covers l1 x \/ covers l2 x.
Proof. apply Exists_app. Qed.
Lemma covers_nil x : covers [] x <-> False.
Proof. apply Exists_nil. Qed.
Lemma covers_gt lo l x : segs_wf lo l -> covers l x -> lo < x.
Proof.
  revert lo. induction l as [|e l IH]; intros lo; simpl.
  - by rewrite covers_nil.
  - intros (?&?&?&Hl) [Hx|Hx]%covers_cons; unfold within in *; [lia|].
    specialize (IH _ Hl Hx). lia.
Qed.
Lemma covers_lt lo l x : segs_wf lo l -> covers l x -> x < seg_end lo l.
Proof.
  revert lo. induction l as [|e l IH]; intros lo; simpl.
  - by rewrite covers_nil.
  - intros (?&?&?&Hl) [Hx|Hx]%covers_cons; [|by apply IH].
    pose proof (seg_end_ge _ _ Hl). unfold within in *. lia.
Qed.

(** The coalesced form is canonical: the units determine the segments. *)
Lemma covers_inj lo l1 l2 :
  segs_wf lo l1 -> segs_wf lo l2 ->
  (forall x, covers l1 x <-> covers l2 x) -> l1 = l2.
Proof.
  revert lo l2. induction l1 as [|e1 l1 IH]; intros lo [|e2 l2]; simpl; intros H1 H2 Hc.
  - done.
  - exfalso. apply (covers_nil (m_addr e2)), Hc, covers_cons. unfold within. lia.
  - exfalso. apply (covers_nil (m_addr e1)), Hc, covers_cons. unfold within. lia.
  - destruct H1 as (?&?&?&H1), H2 as (?&?&?&H2).
    assert (forall x, covers l1 x -> m_addr e1 + m_size e1 < x) as G1 by (intros; by eapply covers_gt).
    assert (forall x, covers l2 x -> m_addr e2 + m_size e2 < x) as G2 by (intros; by eapply covers_gt).
    assert (forall x, within x e1 \/ covers l1 x <-> within x e2 \/ covers l2 x) as Hc'.
    { intros x. by rewrite <- !covers_cons. }
    unfold within in Hc'.
    assert (m_addr e1 = m_addr e2) as Ea.
    { destruct (proj1 (Hc' (m_addr e1)) ltac:(lia)) as [?|Hx%G2],
        (proj2 (Hc' (m_addr e2)) ltac:(lia)) as [?|Hy%G1]; lia. }
    assert (m_size e1 = m_size e2) as Es.
    { destruct (Z.lt_trichotomy (m_size e1) (m_size e2)) as [?|[?|?]]; [|done|].
      - destruct (proj2 (Hc' (m_addr e1 + m_size e1)) ltac:(lia)) as [?|Hx%G1]; lia.
      - destruct (proj1 (Hc' (m_addr e2 + m_size e2)) ltac:(lia)) as [?|Hx%G2]; lia. }
    assert (e1 = e2) as -> by (destruct e1, e2; simpl in *; congruence).
    f_equal. apply (IH (m_addr e2 + m_size e2)); [congruence|done|].
    intros x. specialize (Hc' x).
    split; intros Hx; [pose proof (G1 _ Hx) | pose proof (G2 _ Hx)];
      destruct Hc' as [Ha Hb]; [destruct (Ha (or_intror Hx))|destruct (Hb (or_intror Hx))]; auto; lia.
Qed.

(** ** malloc *)

Lemma shift_left_spec l2 : forall l1 x rest fuel,
  Forall (fun e => m_size e <> 0) l2 -> (length l2 < fuel)%nat ->
  shift_left fuel (l1 ++ x :: l2 ++ Mapent 0 0 :: rest) (length l1) (length l1) =
  Ok (l1 ++ l2 ++ Mapent 0 0 :: Mapent 0 0 :: rest).
Proof.
  induction l2 as [|e l2 IH]; intros l1 x rest [|fuel] Hne Hf; simpl in *; try lia;
    rewrite rd_next; simpl; rewrite wr_middle; simpl; rewrite rd_next; simpl; [done|].
  apply Forall_cons_1 in Hne as [He Hne].
  destruct (Z.eqb_spec (m_size e) 0); [done|].
  rewrite (app_snoc l1), (length_snoc l1 e), IH by (done || lia). by rewrite <- app_assoc.
Qed.

Lemma segs_wf_sizes lo l : segs_wf lo l -> Forall (fun e => m_size e <> 0) l.
Proof.
  revert lo. induction l as [|e l IH]; intros lo; simpl; [constructor|].
  intros (?&?&?&?%IH). constructor; [lia|done].
Qed.

(** First fit on the list of segments. *)
Fixpoint first_fit (size : Z) (l : list mapent) : list mapent * Z :=
  match l with
  | [] => ([], 0)
  | e :: l =>
      if size <=? m_size e then
        (if m_size e =? size then l
         else Mapent (m_size e - size) (m_addr e + size) :: l, m_addr e)
      else let '(l', a) := first_fit size l in (e :: l', a)
  end.

Lemma malloc_loop_first_fit size l : forall lo l1 rest fuel,
  0 < size -> segs_wf lo l -> 0 <= lo -> (length l < fuel)%nat ->
  exists rest',
    malloc_loop fuel (l1 ++ l ++ Mapent 0 0 :: rest) (length l1) size =
    Ok (l1 ++ (first_fit size l).1 ++ Mapent 0 0 :: rest', (first_fit size l).2) /\
    (length (first_fit size l).1 <= length l)%nat /\
    length ((first_fit size l).1 ++ rest') = length (l ++ rest).
Proof.
  induction l as [|e l IH]; intros lo l1 rest [|fuel] Hs Hwf Hlo Hf; simpl in *; try lia.
  - rewrite rd_middle. simpl. eexists. split; [done|]. simpl. lia.
  - destruct Hwf as (?&?&?&Hwf). rewrite rd_middle. simpl.
    destruct (Z.eqb_spec (m_size e) 0); [lia|].
    destruct (Z.leb_spec size (m_size e)).
    + norm_int. destruct (Z.eqb_spec (m_size e - size) 0), (Z.eqb_spec (m_size e) size); try lia; simpl.
      * rewrite wr_middle. simpl.
        rewrite shift_left_spec; [|by eapply segs_wf_sizes|rewrite !length_app; simpl; rewrite length_app; simpl; lia].
        simpl. eexists. split; [done|]. rewrite !length_app. simpl. lia.
      * rewrite wr_middle. simpl. eexists. split; [done|]. rewrite !length_app. simpl. lia.
    + edestruct (IH (m_addr e + m_size e) (l1 ++ [e]) rest fuel) as (rest'&E&Hl&Hr); [done..|lia|lia|].
      rewrite (length_snoc l1 e), app_snoc, E.
      destruct (first_fit size l) as [l' a]. simpl in *. exists rest'.
      rewrite <- app_assoc. split; [done|lia].
Qed.

Lemma first_fit_wf size l : forall lo,
  0 < size -> segs_wf lo l -> segs_wf lo (first_fit size l).1.
Proof.
  induction l as [|e l IH]; intros lo Hs; simpl; [done|].
  intros (?&?&?&Hwf). destruct (Z.leb_spec size (m_size e)); simpl.
  - destruct (Z.eqb_spec (m_size e) size); simpl.
    + eapply segs_wf_weaken; [|done]. lia.
    + repeat split; [lia..|]. by replace (m_addr e + size + (m_size e - size)) with (m_addr e + m_size e) by lia.
  - specialize (IH _ Hs Hwf). destruct (first_fit size l); simpl in *. auto.
Qed.

Lemma first_fit_none size l :
  (first_fit size l).2 = 0 -> Forall (fun e => m_addr e <> 0) l ->
  (first_fit size l).1 = l /\ Forall (fun e => m_size e < size) l.
Proof.
  induction l as [|e l IH]; simpl; [done|].
  intros Ha [He Hl]%Forall_cons_1. destruct (Z.leb_spec size (m_size e)); simpl in *; [done|].
  destruct (first_fit size l) as [l' a]. simpl in *.
  destruct (IH Ha Hl) as [-> ?]. split; [done|]. by constructor.
Qed.

Lemma first_fit_some size l : forall lo,
  0 < size -> segs_wf lo l -> 0 <= lo -> (first_fit size l).2 <> 0 ->
  let a := (first_fit size l).2 in
  lo < a /\ (exists l1 e l2, l = l1 ++ e :: l2 /\ m_addr e = a /\ size <= m_size e /\
    Forall (fun e => m_size e < size) l1) /\
  (forall x, a <= x < a + size -> covers l x) /\
  (forall x, covers (first_fit size l).1 x <-> covers l x /\ ~ (a <= x < a + size)).
Proof.
  induction l as [|e l IH]; intros lo Hs Hwf Hlo; simpl; [done|].
  destruct Hwf as (?&?&?&Hwf). destruct (Z.leb_spec size (m_size e)); simpl.
  - intros _. split; [lia|]. split; [by exists [], e, l|].
    assert (forall x, covers l x -> m_addr e + m_size e < x) as G by (intros; by eapply covers_gt).
    split; intros x; [intros; apply covers_cons; unfold within; lia|].
    specialize (G x). destruct (Z.eqb_spec (m_size e) size);
      rewrite ?covers_cons; unfold within; simpl; intuition lia.
  - specialize (IH (m_addr e + m_size e) Hs Hwf ltac:(lia)).
    destruct (first_fit size l) as [l' a]. simpl in *. intros Ha.
    destruct (IH Ha) as (?&(l1&e'&l2&->&?&?&?)&Hin&Hout). split; [lia|].
    split; [by exists (e :: l1), e', l2; eauto|].
    split; intros x; rewrite !covers_cons; [eauto|].
    rewrite Hout. unfold within. intuition lia.
Qed.

Lemma segs_wf_addrs lo l : 0 <= lo -> segs_wf lo l -> Forall (fun e => m_addr e <> 0) l.
Proof.
  revert lo. induction l as [|e l IH]; intros lo ?; simpl; [constructor|].
  intros (?&?&?&?%IH); [constructor; [lia|done]|lia].
Qed.

Lemma malloc_first_fit mp l size :
  map_rep mp l -> 0 < size ->
  exists mp', malloc mp size = Ok (mp', (first_fit size l).2) /\
    map_rep mp' (first_fit size l).1 /\ m_limit mp' = m_limit mp /\
    (length (first_fit size l).1 <= length l)%nat /\ length (m_map mp') = length (m_map mp).
Proof.
  intros [Hwf [rest E]] Hs. unfold malloc. destruct (Z.eqb_spec size 0); [lia|].
  destruct (malloc_loop_first_fit size l 0 [] rest (S (length (m_map mp)))) as (rest'&E'&Hl&Hr);
    [done..|rewrite E, length_app; lia|].
  rewrite !app_nil_l, <- E in E'. cbn [length] in E'. rewrite E'. simpl. eexists. split; [done|].
  split; [split; [by apply first_fit_wf|simpl; eauto]|]. split; [done|]. split; [done|].
  simpl. rewrite E, !length_app in *. simpl. lia.
Qed.

(** ** mfree *)

Lemma mfree_locate_spec addr l : forall lo l0 rest fuel,
  segs_wf lo l -> (length l < fuel)%nat ->
  exists l1 l2, l = l1 ++ l2 /\
    mfree_locate fuel (l0 ++ l ++ Mapent 0 0 :: rest) (length l0) addr =
      Ok (length l0 + length l1)%nat /\
    Forall (fun e => m_addr e <= addr) l1 /\
    match l2 with [] => True | e :: _ => addr < m_addr e end.
Proof.
  induction l as [|e l IH]; intros lo l0 rest [|fuel] Hwf Hf; simpl in *; try lia.
  - rewrite rd_middle. simpl. exists [], []. rewrite Nat.add_0_r. auto.
  - destruct Hwf as (?&?&?&Hwf). rewrite rd_middle. simpl.
    destruct (Z.eqb_spec (m_size e) 0); [lia|]. simpl.
    destruct (Z.leb_spec (m_addr e) addr).
    + destruct (IH _ (l0 ++ [e]) rest fuel Hwf ltac:(lia)) as (l1&l2&->&E&?&?).
      exists (e :: l1), l2. rewrite (length_snoc l0 e), app_snoc, E.
      rewrite length_app. simpl. repeat split; [f_equal; lia|by constructor|done].
    + exists [], (e :: l). rewrite Nat.add_0_r. auto.
Qed.

Lemma mfree_end_spec l : forall l0 rest fuel,
  Forall (fun e => m_size e <> 0) l -> (length l < fuel)%nat ->
  mfree_end fuel (l0 ++ l ++ Mapent 0 0 :: rest) (length l0) =
    Ok (length l0 + length l)%nat.
Proof.
  induction l as [|e l IH]; intros l0 rest [|fuel] Hne Hf; simpl in *; try lia;
    rewrite rd_middle; simpl; [by rewrite Nat.add_0_r|].
  apply Forall_cons_1 in Hne as [He Hne].
  destruct (Z.eqb_spec (m_size e) 0); [done|].
  rewrite (length_snoc l0 e), app_snoc, IH by (done || lia).
  rewrite length_app. simpl. f_equal. lia.
Qed.

(** The [n] entries from [start] move one slot up, over the slot after them. *)
Lemma shift_right_spec l2 : forall l1 x rest,
  exists y, shift_right (length l2) (l1 ++ l2 ++ x :: rest) (length l1) =
    Ok (l1 ++ y :: l2 ++ rest).
Proof.
  induction l2 as [|e l2 IH] using rev_ind; intros l1 x rest; simpl; [eauto|].
  rewrite length_app, Nat.add_comm. simpl.
  rewrite <- (app_assoc l2). simpl.
  rewrite (app_assoc l1 l2), <- length_app, rd_middle. simpl.
  rewrite (app_snoc (l1 ++ l2)), (length_snoc (l1 ++ l2) e), wr_middle. simpl.
  rewrite <- (app_assoc (l1 ++ l2)), <- (app_assoc l1 l2). simpl.
  destruct (IH l1 e (e :: rest)) as [y E]. exists y. rewrite E.
  by rewrite <- (app_assoc l2).
Qed.

(** The segment returned does not overlap the neighbours [l1] and [l2]. *)
Lemma free_gap lo l1 l2 size addr :
  0 < size -> segs_wf lo (l1 ++ l2) -> lo < addr ->
  Forall (fun e => m_addr e <= addr) l1 ->
  match l2 with [] => True | e :: _ => addr < m_addr e end ->
  (forall x, addr <= x < addr + size -> ~ covers (l1 ++ l2) x) ->
  seg_end lo l1 <= addr /\
  match l2 with [] => True | e :: _ => addr + size <= m_addr e end.
Proof.
  intros Hs [H1 H2]%segs_wf_app Hlo Hl1 Hl2 Hd. split.
  - destruct l1 as [|e l1 _] using rev_ind; simpl; [lia|].
    rewrite seg_end_app. simpl. apply Forall_app in Hl1 as [_ [He _]%Forall_cons_1].
    destruct (Z.le_gt_cases (m_addr e + m_size e) addr); [done|].
    exfalso. apply (Hd addr); [lia|]. rewrite !covers_app, covers_cons. unfold within. lia.
  - destruct l2 as [|e l2]; [done|]. destruct H2 as (?&?&?&?).
    destruct (Z.le_gt_cases (addr + size) (m_addr e)); [done|].
    exfalso. apply (Hd (m_addr e)); [lia|]. rewrite covers_app, covers_cons. unfold within. lia.
Qed.

(** The list of segments after a return between [l1] and [l2]. *)
Definition join_right (s : mapent) (l2 : list mapent) : list mapent :=
  match l2 with
  | e :: l2' =>
      if m_addr s + m_size s =? m_addr e
      then Mapent (m_size s + m_size e) (m_addr s) :: l2' else s :: l2
  | [] => [s]
  end.
Definition join (l1 : list mapent) (s : mapent) (l2 : list mapent) : list mapent :=
  match last l1 with
  | Some e =>
      if m_addr e + m_size e =? m_addr s
      then take (pred (length l1)) l1 ++ join_right (Mapent (m_size e + m_size s) (m_addr e)) l2
      else l1 ++ join_right s l2
  | None => join_right s l2
  end.

Lemma join_snoc l1 e s l2 :
  join (l1 ++ [e]) s l2 =
  if m_addr e + m_size e =? m_addr s
  then l1 ++ join_right (Mapent (m_size e + m_size s) (m_addr e)) l2
  else (l1 ++ [e]) ++ join_right s l2.
Proof.
  unfold join. rewrite last_snoc, length_app. simpl.
  replace (pred (length l1 + 1)) with (length l1) by lia. by rewrite take_app_length.
Qed.

Lemma join_right_wf lo s l2 :
  lo < m_addr s -> 0 < m_size s -> m_addr s + m_size s < 2 ^ 32 ->
  segs_wf (m_addr s) l2 ->
  match l2 with [] => True | e :: _ => m_addr s + m_size s <= m_addr e end ->
  segs_wf lo (join_right s l2) /\
  (forall x, covers (join_right s l2) x <-> covers l2 x \/ within x s).
Proof.
  intros ??? Hwf Hl2. destruct l2 as [|e l2]; simpl.
  - split; [done|]. intros x. rewrite covers_cons. tauto.
  - destruct Hwf as (?&?&?&Hwf).
    destruct (Z.eqb_spec (m_addr s + m_size s) (m_addr e)); simpl; split.
    + repeat split; [lia..|]. by replace (m_addr s + _) with (m_addr e + m_size e) by lia.
    + intros x. rewrite !covers_cons. unfold within. simpl. intuition lia.
    + repeat split; [lia..|done].
    + intros x. rewrite !covers_cons. unfold within. simpl. intuition lia.
Qed.

Lemma join_wf l1 s l2 :
  0 < m_addr s -> 0 < m_size s -> m_addr s + m_size s < 2 ^ 32 ->
  segs_wf 0 (l1 ++ l2) -> seg_end 0 l1 <= m_addr s ->
  match l2 with [] => True | e :: _ => m_addr s + m_size s <= m_addr e end ->
  segs_wf 0 (join l1 s l2) /\
  (forall x, covers (join l1 s l2) x <-> covers (l1 ++ l2) x \/ within x s).
Proof.
  intros ??? [H1 H2]%segs_wf_app He Hl2.
  assert (segs_wf (m_addr s) l2) as H2'.
  { destruct l2 as [|e2 l2]; [done|]. destruct H2 as (?&?&?&?). repeat split; [lia..|done]. }
  destruct l1 as [|e l1 _] using rev_ind.
  - unfold join. simpl in *. by apply join_right_wf.
  - rewrite join_snoc, seg_end_app in *. simpl in *.
    apply segs_wf_app in H1 as [H1 (?&?&?&_)].
    destruct (Z.eqb_spec (m_addr e + m_size e) (m_addr s)).
    + destruct (join_right_wf (seg_end 0 l1) (Mapent (m_size e + m_size s) (m_addr e)) l2) as [W C];
        simpl; [lia..| |destruct l2; [done|lia]|].
      { eapply segs_wf_weaken; [|done]. lia. }
      split; [by apply segs_wf_app|]. intros x.
      rewrite !covers_app, C, covers_cons, covers_nil. unfold within. simpl. intuition lia.
    + destruct (join_right_wf (m_addr e + m_size e) s l2) as [W C]; [lia..|done|done|].
      split; [rewrite !segs_wf_app, seg_end_app; simpl; tauto|]. intros x.
      rewrite !covers_app, C. tauto.
Qed.

Lemma mfree_insert_spec lo mp l1 l2 rest size addr :
  m_map mp = l1 ++ l2 ++ Mapent 0 0 :: rest -> segs_wf lo l2 ->
  mfree_insert mp (length l1) size addr =
  if (m_limit mp <? S (length (l1 ++ l2)))%nat then Ok (mp, true)
  else match rest with
       | [] => Fault
       | _ :: rest =>
           Ok (Map (l1 ++ Mapent size addr :: l2 ++ Mapent 0 0 :: rest) (m_limit mp), false)
       end.
Proof.
  intros E Hwf. unfold mfree_insert. rewrite E.
  rewrite mfree_end_spec by first [by eapply segs_wf_sizes | rewrite !length_app; lia].
  cbn [mbind res_bind]. rewrite (length_app l1 l2).
  destruct (_ <? _)%nat; [done|].
  replace (S (length l1 + length l2) - length l1)%nat with (length (l2 ++ [Mapent 0 0]))
    by (rewrite length_app; simpl; lia).
  destruct rest as [|x rest].
  - rewrite length_app, Nat.add_comm. simpl. rewrite app_assoc, rd_middle' by (by rewrite length_app).
    simpl. rewrite wr_Fault; [done|]. rewrite !length_app. simpl. lia.
  - rewrite (app_snoc l2 (x :: rest)). destruct (shift_right_spec (l2 ++ [Mapent 0 0]) l1 x rest) as [y ->].
    simpl. rewrite wr_middle. simpl. by rewrite <- app_assoc.
Qed.

Lemma mfree_join mp l1 l2 rest size addr :
  0 < size -> 0 < addr -> addr + size < 2 ^ 32 ->
  segs_wf 0 (l1 ++ l2) -> m_map mp = l1 ++ l2 ++ Mapent 0 0 :: rest ->
  mfree_locate (S (length (m_map mp))) (m_map mp) 0 addr = Ok (length l1) ->
  seg_end 0 l1 <= addr ->
  match l2 with [] => True | e :: _ => addr + size <= m_addr e end ->
  (S (length (l1 ++ l2)) <= m_limit mp)%nat -> rest <> [] ->
  exists rest', mfree mp size addr =
    Ok (Map (join l1 (Mapent size addr) l2 ++ Mapent 0 0 :: rest') (m_limit mp), false).
Proof.
  intros Hs Ha Hlt [H1 H2]%segs_wf_app E El He Hl2 Hlim Hrest.
  unfold mfree. destruct (Z.eqb_spec size 0), (Z.eqb_spec addr 0); [lia..|].
  rewrite El. cbn [mbind res_bind].
  assert (exists b, rd (m_map mp) (length l1) = Ok b /\
    b = match l2 with [] => Mapent 0 0 | e :: _ => e end) as (b&->&Eb).
  { rewrite E. destruct l2; simpl; rewrite rd_middle; eauto. }
  cbn [mbind res_bind].
  assert (negb (m_size b =? 0) && (m_addr b <=? u32 (addr + size)) =
    match l2 with [] => false | e :: _ => addr + size =? m_addr e end) as ->.
  { norm_int. destruct l2 as [|e l2]; subst b; [done|]. destruct H2 as (?&?&?&?).
    destruct (Z.eqb_spec (m_size e) 0), (Z.leb_spec (m_addr e) (addr + size)),
      (Z.eqb_spec (addr + size) (m_addr e)); simpl; lia. }
  pose proof (mfree_insert_spec (seg_end 0 l1) mp l1 l2 rest size addr E H2) as Ei.
  destruct (Nat.ltb_spec (m_limit mp) (S (length (l1 ++ l2)))); [lia|].
  destruct rest as [|x rest]; [done|].
  destruct l1 as [|e l1 _] using rev_ind; unfold join.
  - simpl in *. destruct l2 as [|e2 l2]; simpl in *; [rewrite Ei; eauto|].
    destruct (Z.eqb_spec (addr + size) (m_addr e2)); [|rewrite Ei; eauto].
    subst b. destruct H2 as (?&?&?&?). norm_int. rewrite E. simpl.
    rewrite Z.add_comm. eauto.
  - fold (join (l1 ++ [e]) (Mapent size addr) l2). rewrite join_snoc, seg_end_app in *.
    apply segs_wf_app in H1 as [H1 (?&?&?&_)]. simpl in *.
    assert (0 <= seg_end 0 l1) by (by apply seg_end_ge).
    rewrite length_app, Nat.add_comm in *. simpl in *.
    assert (m_map mp !! length l1 = Some e) as ->.
    { rewrite E, <- app_assoc. simpl. by rewrite list_lookup_middle. }
    norm_int. rewrite E, <- app_assoc in *. simpl in *.
    destruct (Z.leb_spec addr (m_addr e + m_size e)), (Z.eqb_spec (m_addr e + m_size e) addr); try lia.
    + norm_int. rewrite wr_middle. simpl. destruct l2 as [|e2 l2]; simpl; [eexists; by rewrite <- app_assoc|].
      replace (m_addr e + (m_size e + size)) with (addr + size) by lia.
      destruct (Z.eqb_spec (addr + size) (m_addr e2)); [|eexists; by rewrite <- app_assoc].
      destruct H2 as (?&?&?&?). subst b. norm_int.
      rewrite wr_middle. simpl. rewrite (app_snoc l1), (length_snoc l1 (Mapent (m_size e + size + m_size e2) (m_addr e))).
      rewrite shift_left_spec; [|by eapply segs_wf_sizes|rewrite !length_app; simpl; rewrite length_app; lia].
      simpl. eexists. by rewrite <- !app_assoc.
    + destruct l2 as [|e2 l2]; simpl.
      * rewrite Ei. eexists. by rewrite <- !app_assoc.
      * destruct (Z.eqb_spec (addr + size) (m_addr e2)).
        -- destruct H2 as (?&?&?&?). subst b. norm_int.
           rewrite (app_snoc l1), (length_snoc l1 e), wr_middle. simpl.
           rewrite (Z.add_comm (m_size e2)). eexists. by rewrite <- !app_assoc.
        -- rewrite Ei. eexists. by rewrite <- !app_assoc.
Qed.

(** A segment that touches no neighbour needs a slot of its own. *)
Lemma mfree_noabut mp l1 l2 rest size addr :
  0 < size -> 0 < addr -> addr + size < 2 ^ 32 ->
  segs_wf 0 (l1 ++ l2) -> m_map mp = l1 ++ l2 ++ Mapent 0 0 :: rest ->
  mfree_locate (S (length (m_map mp))) (m_map mp) 0 addr = Ok (length l1) ->
  seg_end 0 l1 < addr ->
  match l2 with [] => True | e :: _ => addr + size < m_addr e end ->
  mfree mp size addr = mfree_insert mp (length l1) size addr.
Proof.
  intros Hs Ha Hlt [H1 H2]%segs_wf_app E El He Hl2.
  unfold mfree. destruct (Z.eqb_spec size 0), (Z.eqb_spec addr 0); [lia..|].
  rewrite El. cbn [mbind res_bind].
  assert (exists b, rd (m_map mp) (length l1) = Ok b /\
    b = match l2 with [] => Mapent 0 0 | e :: _ => e end) as (b&->&Eb).
  { rewrite E. destruct l2; simpl; rewrite rd_middle; eauto. }
  cbn [mbind res_bind].
  assert (negb (m_size b =? 0) && (m_addr b <=? u32 (addr + size)) = false) as ->.
  { norm_int. destruct l2 as [|e l2]; subst b; [done|].
    destruct (Z.eqb_spec (m_size e) 0), (Z.leb_spec (m_addr e) (addr + size)); simpl; lia. }
  destruct l1 as [|e l1 _] using rev_ind; [done|].
  rewrite seg_end_app in He. apply segs_wf_app in H1 as [H1 (?&?&?&_)]. simpl in *.
  assert (0 <= seg_end 0 l1) by (by apply seg_end_ge).
  rewrite length_app, Nat.add_comm. simpl.
  assert (m_map mp !! length l1 = Some e) as ->.
  { rewrite E, <- app_assoc. simpl. by rewrite list_lookup_middle. }
  norm_int. by destruct (Z.leb_spec addr (m_addr e + m_size e)); [lia|].
Qed.

(** [addr .. addr + size] meets no segment of [l], not even at its ends. *)
Definition apart (l : list mapent) (size addr : Z) : Prop :=
  Forall (fun e => m_addr e + m_size e < addr \/ addr + size < m_addr e) l.

Lemma apart_locate addr size lo l1 l2 :
  0 < size -> segs_wf lo (l1 ++ l2) -> lo < addr -> apart (l1 ++ l2) size addr ->
  Forall (fun e => m_addr e <= addr) l1 ->
  match l2 with [] => True | e :: _ => addr < m_addr e end ->
  seg_end lo l1 < addr /\ match l2 with [] => True | e :: _ => addr + size < m_addr e end.
Proof.
  unfold apart. intros Hs. revert lo. induction l1 as [|e l1 IH]; intros lo; simpl.
  - intros Hwf Hlo Hap _ H2. split; [done|]. destruct l2 as [|e l2]; [done|].
    apply Forall_cons_1 in Hap as [? _]. destruct Hwf as (?&?&?&?). lia.
  - intros (?&?&?&Hwf) Hlo [Ha Hap]%Forall_cons_1 [He Hl1]%Forall_cons_1 Hl2.
    apply IH; try done. lia.
Qed.

Lemma mfree_apart mp l rest size addr :
  segs_wf 0 l -> m_map mp = l ++ Mapent 0 0 :: rest ->
  0 < size -> 0 < addr -> addr + size < 2 ^ 32 -> apart l size addr ->
  mfree mp size addr =
  if (m_limit mp <? S (length l))%nat then Ok (mp, true)
  else match rest with
       | [] => Fault
       | _ :: rest => Ok (Map (filter (fun e => m_addr e <= addr) l ++ Mapent size addr ::
           filter (fun e => ~ m_addr e <= addr) l ++ Mapent 0 0 :: rest) (m_limit mp), false)
       end.
Proof.
  intros Hwf E Hs Ha Hlt Hap.
  destruct (mfree_locate_spec addr l 0 [] rest (S (length (m_map mp))) Hwf) as (l1&l2&->&El&H1&H2).
  { rewrite E, length_app. lia. }
  rewrite app_nil_l, <- E in El. simpl in El.
  destruct (apart_locate addr size 0 l1 l2) as [G1 G2]; try done.
  pose proof (proj1 (segs_wf_app _ _ _) Hwf) as [_ W2].
  rewrite (mfree_noabut mp l1 l2 rest); try done; [|by rewrite E, <- app_assoc].
  rewrite (mfree_insert_spec (seg_end 0 l1) mp l1 l2 rest) by (try done; by rewrite E, <- app_assoc).
  assert (Forall (fun e => addr < m_addr e) l2) as H3.
  { destruct l2 as [|e l2]; [done|]. simpl in W2. destruct W2 as (?&?&?&W2).
    constructor; [done|]. apply Forall_lookup. intros i e' Hi. 
    assert (covers l2 (m_addr e')) as Hc.
    { apply Exists_exists. exists e'. split; [by eapply list_elem_of_lookup_2|].
      apply segs_wf_sizes in W2 as Hz. clear -W2 Hi. revert i Hi W2.
      generalize (m_addr e + m_size e). induction l2 as [|e2 l2 IH]; intros lo [|i] Hi W2; simplify_eq/=;
        destruct W2 as (?&?&?&W2); [unfold within; lia|by eapply IH]. }
    pose proof (covers_gt _ _ _ W2 Hc). lia. }
  rewrite !filter_app, (list_filter_all _ l1), (list_filter_all (fun e => ~ m_addr e <= addr) l2) by
    first [done | eapply Forall_impl; [done|]; simpl; lia].
  assert (filter (fun e => m_addr e <= addr) l2 = []) as ->.
  { clear -H3. induction H3 as [|? ? ? ? IH]; [done|]. rewrite filter_cons_False; [done|lia]. }
  assert (filter (fun e => ~ m_addr e <= addr) l1 = []) as ->.
  { clear -H1. induction H1 as [|? ? ? ? IH]; [done|]. rewrite filter_cons_False; [done|tauto]. }
  rewrite app_nil_r. destruct rest; done.
Qed.

(** ** malloc3 *)

(** Units of the requests [szs] that [mas] places in slot [i]. *)
Fixpoint used (mas : list (option nat)) (szs : list Z) (i : nat) : Z :=
  match mas, szs with
  | ma :: mas, sz :: szs => (if decide (ma = Some i) then sz else 0) + used mas szs i
  | _, _ => 0
  end.

Definition grow (mas : list (option nat)) (szs : list Z) (i : nat) (e : mapent) : mapent :=
  Mapent (m_size e + used mas szs i) (m_addr e).
Definition advance (mas : list (option nat)) (szs : list Z) (i : nat) (e : mapent) : mapent :=
  Mapent (m_size e) (m_addr e + used mas szs i).

Definition in_slots (n : nat) (mas : list (option nat)) : Prop :=
  Forall (fun ma => match ma with Some i => (i < n)%nat | None => True end) mas.

Lemma used_nonneg mas szs i : Forall (Z.le 0) szs -> 0 <= used mas szs i.
Proof.
  revert szs. induction mas as [|ma mas IH]; intros [|sz szs]; simpl; try lia.
  intros [? ?%IH]%Forall_cons_1. case_decide; lia.
Qed.

Lemma malloc3_restore_spec mas : forall szs m,
  Forall (Z.le 0) szs -> in_slots (length m) mas ->
  (forall i e, Some i ∈ mas -> m !! i = Some e ->
    0 <= m_size e /\ m_size e + used mas szs i < 2 ^ 32) ->
  malloc3_restore mas szs m = Ok (imap (grow mas szs) m).
Proof.
  induction mas as [|ma mas IH]; intros [|sz szs] m Hsz Hin Hb; simpl;
    try (f_equal; symmetry; rewrite <- (list_fmap_id m) at 2; rewrite <- imap_const;
         apply imap_ext; intros ? [] _; unfold grow; simpl; f_equal; lia).
  apply Forall_cons_1 in Hsz as [Hsz0 Hsz]. apply Forall_cons_1 in Hin as [Hin0 Hin].
  pose proof (fun i => used_nonneg mas szs i Hsz) as Hu. destruct ma as [bp|].
  - destruct (lookup_lt_is_Some_2 m bp Hin0) as [e He]. unfold rd. rewrite He. simpl.
    unfold wr. rewrite decide_True by done. simpl.
    destruct (Hb _ _ (list_elem_of_here _ _) He) as [? Hlt]. simpl in Hlt. rewrite decide_True in Hlt by done.
    pose proof (Hu bp). norm_int.
    rewrite IH; [f_equal| done | by rewrite length_insert |].
    + apply list_eq. intros i. rewrite !list_lookup_imap.
      destruct (decide (i = bp)) as [->|Hne].
      * rewrite list_lookup_insert_eq by done. rewrite He. simpl. unfold grow. simpl.
        rewrite decide_True by done. do 2 f_equal. lia.
      * rewrite list_lookup_insert_ne by done. destruct (m !! i); [|done]. simpl.
        unfold grow. simpl. rewrite decide_False by congruence. done.
    + intros i e' Hel. destruct (decide (i = bp)) as [->|Hne].
      * rewrite list_lookup_insert_eq by done. intros [= <-]. simpl. lia.
      * rewrite list_lookup_insert_ne by done.
        intros Hi%(Hb _ _ (list_elem_of_further _ _ _ Hel)). simpl in Hi.
        rewrite decide_False in Hi by congruence. lia.
  - rewrite IH; [by apply f_equal, imap_ext|done..|].
    intros i e Hel He. apply (Hb i e); [by apply list_elem_of_further|done].
Qed.

Lemma malloc3_resolve_spec mas : forall szs m,
  Forall (Z.le 0) szs -> length mas = length szs ->
  Forall (fun ma => exists i, ma = Some i /\ (i < length m)%nat) mas ->
  (forall i e, Some i ∈ mas -> m !! i = Some e ->
    0 <= m_addr e /\ m_addr e + used mas szs i < 2 ^ 32) ->
  exists a, malloc3_resolve mas szs m = Ok (imap (advance mas szs) m, a) /\
    length a = length szs /\
    forall k i e, mas !! k = Some (Some i) -> m !! i = Some e ->
      a !! k = Some (m_addr e + used (take k mas) (take k szs) i).
Proof.
  induction mas as [|ma mas IH]; intros [|sz szs] m Hsz Hlen Hin Hb; simpl; try done.
  - exists []. split; [|done]. do 2 f_equal. symmetry. rewrite <- (list_fmap_id m) at 2.
    rewrite <- imap_const. apply imap_ext. intros ? [] _. unfold advance. simpl. f_equal; lia.
  - apply Forall_cons_1 in Hsz as [Hsz0 Hsz]. apply Forall_cons_1 in Hin as [(bp&->&Hbp) Hin].
    pose proof (fun i => used_nonneg mas szs i Hsz) as Hu.
    destruct (lookup_lt_is_Some_2 m bp Hbp) as [e He]. unfold rd. rewrite He. simpl.
    unfold wr. rewrite decide_True by done. simpl.
    destruct (Hb _ _ (list_elem_of_here _ _) He) as [? Hlt]. simpl in Hlt. rewrite decide_True in Hlt by done.
    pose proof (Hu bp). norm_int.
    destruct (IH szs (<[bp:=Mapent (m_size e) (m_addr e + sz)]> m)) as (a&->&Hla&Ha);
      [done|simpl in *; lia|by rewrite length_insert| |].
    { intros i e' Hel. destruct (decide (i = bp)) as [->|Hne].
      - rewrite list_lookup_insert_eq by done. intros [= <-]. simpl. lia.
      - rewrite list_lookup_insert_ne by done.
        intros Hi%(Hb _ _ (list_elem_of_further _ _ _ Hel)). simpl in Hi.
        rewrite decide_False in Hi by congruence. lia. }
    exists (m_addr e :: a). simpl. split; [|split; [lia|]].
    + do 2 f_equal. apply list_eq. intros i. rewrite !list_lookup_imap.
      destruct (decide (i = bp)) as [->|Hne].
      * rewrite list_lookup_insert_eq by done. rewrite He. simpl. unfold advance. simpl.
        rewrite decide_True by done. do 2 f_equal. lia.
      * rewrite list_lookup_insert_ne by done. destruct (m !! i); [|done]. simpl.
        unfold advance. simpl. rewrite decide_False by congruence. done.
    + intros [|k] i e' Hk Hi; simpl in *.
      * simplify_eq. f_equal. lia.
      * destruct (decide (i = bp)) as [->|Hne].
        -- erewrite Ha; [|done|by rewrite list_lookup_insert_eq]. simplify_eq. simpl.
           rewrite decide_True by done. f_equal. lia.
        -- erewrite Ha; [|done|by rewrite list_lookup_insert_ne].
           by rewrite decide_False by congruence.
Qed.

Definition cut (mas : list (option nat)) (szs : list Z) (i : nat) (e : mapent) : mapent :=
  Mapent (m_size e - used mas szs i) (m_addr e).

Lemma used_insert mas : forall szs next sz bp i,
  mas !! next = Some None -> szs !! next = Some sz ->
  used (<[next:=Some bp]> mas) szs i =
  used mas szs i + (if decide (i = bp) then sz else 0).
Proof.
  induction mas as [|ma mas IH]; intros [|s szs] [|next] sz bp i; simpl; try done.
  - intros [= ->] [= ->]. repeat case_decide; simplify_eq; lia.
  - intros ??. erewrite IH by done. lia.
Qed.
Lemma used_none mas szs i : Some i ∉ mas -> used mas szs i = 0.
Proof.
  revert szs. induction mas as [|ma mas IH]; intros [|sz szs]; simpl; try done.
  intros Hn. apply not_elem_of_cons in Hn as [??].
  rewrite decide_False by congruence. by rewrite IH.
Qed.

(** Invariant of the search: [m] is the original array [m0] less what the
    requests placed so far take; they lie in slots below [n]. *)
Record search_inv (szs : list Z) (m0 : list mapent) (n : nat)
    (m : list mapent) (st : madd3) : Prop := SearchInv {
  si_len : length (madd st) = length szs;
  si_cut : m = imap (cut (madd st) szs) m0;
  si_slots : in_slots n (madd st);
  si_le : forall i e, Some i ∈ madd st -> m0 !! i = Some e ->
    0 <= m_size e < 2 ^ 32 /\ used (madd st) szs i <= m_size e;
  si_remap : match mremap st with
    | None => forall i e, (i < n)%nat -> m !! i = Some e -> m_size e <> 0
    | Some r => (r < n)%nat /\ (exists e, m !! r = Some e /\ m_size e = 0) /\
        forall i e, (i < r)%nat -> m !! i = Some e -> m_size e <> 0
    end;
  si_found : mfound st = length (filter is_Some (madd st)) }.

Lemma filter_is_Some_insert mas : forall next (bp : nat),
  mas !! next = Some None ->
  length (filter is_Some (<[next:=Some bp]> mas)) = S (length (filter is_Some mas)).
Proof.
  induction mas as [|ma mas IH]; intros [|next] bp; simpl; try done.
  - intros [= ->]. rewrite !filter_cons.
    by repeat case_decide.
  - intros ?. rewrite !filter_cons. case_decide; simpl; by rewrite IH.
Qed.

Lemma malloc3_try_inv szs m0 bp e0 m st next :
  Forall (fun z => 0 <= z < 2 ^ 32) szs -> search_inv szs m0 (S bp) m st ->
  m0 !! bp = Some e0 -> 0 < m_size e0 < 2 ^ 32 -> (next < length szs)%nat ->
  mfound st <> 3%nat ->
  exists m' st' stop, malloc3_try szs next bp m st = Ok (m', st', stop) /\
    search_inv szs m0 (S bp) m' st' /\ (stop = true <-> mfound st' = 3%nat).
Proof.
  intros Hsz [Hlen Hcut Hslots Hle Hremap Hfound] He0 Hpos Hnext Hn3.
  assert (m !! bp = Some (cut (madd st) szs bp e0)) as Hm
    by (by rewrite Hcut, list_lookup_imap, He0).
  destruct (lookup_lt_is_Some_2 szs next Hnext) as [sz Hszn].
  destruct (lookup_lt_is_Some_2 (madd st) next ltac:(lia)) as [ma Hma].
  unfold malloc3_try, rd. rewrite Hm, Hma, Hszn. simpl.
  destruct ma as [i|]; [by eexists _, _, _; split_and!|].
  destruct (Z.leb_spec sz (m_size e0 - used (madd st) szs bp)); [|by eexists _, _, _; split_and!].
  pose proof (Forall_lookup_1 _ _ _ _ Hsz Hszn) as Hsz0. simpl in Hsz0.
  assert (Forall (Z.le 0) szs) as Hnn by (eapply Forall_impl; [done|]; simpl; lia).
  pose proof (used_nonneg (madd st) szs bp Hnn). norm_int.
  assert (Hlt := lookup_lt_Some _ _ _ Hm).
  unfold wr. rewrite decide_True by done. simpl.
  eexists _, _, _. split; [done|]. split; [|simpl; apply bool_decide_eq_true].
  set (m' := <[bp:=_]> m).
  assert (forall i e, (i < bp)%nat -> m' !! i = Some e -> m !! i = Some e) as Hlo.
  { intros i e ?. unfold m'. by rewrite list_lookup_insert_ne by lia. }
  constructor; simpl.
  - by rewrite length_insert.
  - apply list_eq. intros i. unfold m'. rewrite list_lookup_imap.
    destruct (decide (i = bp)) as [->|Hne].
    + rewrite list_lookup_insert_eq, He0 by done. simpl. unfold cut.
      rewrite (used_insert _ _ _ sz) by done. rewrite decide_True by done.
      do 2 f_equal. lia.
    + rewrite list_lookup_insert_ne, Hcut, list_lookup_imap by done.
      destruct (m0 !! i); [|done]. simpl. unfold cut.
      rewrite (used_insert _ _ _ sz) by done. rewrite decide_False by done.
      do 2 f_equal. lia.
  - apply Forall_insert; [done|lia].
  - intros i e Hin Hi. rewrite (used_insert _ _ _ sz) by done. case_decide as Hd.
    + subst. simplify_eq. lia.
    + rewrite Z.add_0_r. apply Hle; [|done].
      apply list_elem_of_lookup in Hin as [j Hj]. apply list_elem_of_lookup. exists j.
      destruct (decide (j = next)) as [->|]; [|by rewrite list_lookup_insert_ne in Hj].
      rewrite list_lookup_insert_eq in Hj by (by eapply lookup_lt_Some). congruence.
  - destruct (mremap st) as [r|].
    + destruct Hremap as (?&(e&He&?)&Hr). split; [done|]. split.
      * destruct (decide (r = bp)) as [->|]; [|exists e; split; [|done]; unfold m'; by rewrite list_lookup_insert_ne].
        unfold m'. rewrite list_lookup_insert_eq by done. eexists. split; [done|]. simpl.
        rewrite Hm in He. simplify_eq. simpl in *. lia.
      * intros i e' ??. eapply Hr; [done|]. apply Hlo; [lia|done].
    + destruct (Z.eqb_spec (m_size e0 - used (madd st) szs bp - sz) 0).
      * split; [lia|]. split; [unfold m'; rewrite list_lookup_insert_eq by done; eauto|].
        intros i e' ? ?%Hlo; [|lia]. eapply Hremap; [|done]. lia.
      * intros i e' ?. destruct (decide (i = bp)) as [->|].
        -- unfold m'. rewrite list_lookup_insert_eq by done. intros [= <-]. done.
        -- intros ?%Hlo; [|lia]. eapply Hremap; [|done]. lia.
  - by rewrite Hfound, filter_is_Some_insert.
Qed.

(** Request [next] was refused by slot [i] for each pair in [P]. *)
Definition tried (szs : list Z) (P : nat -> nat -> Prop) (m : list mapent) (st : madd3) : Prop :=
  forall next i sz e, P next i -> madd st !! next = Some None ->
    szs !! next = Some sz -> m !! i = Some e -> m_size e < sz.

Lemma malloc3_try_tried szs P m0 bp m st next m' st' stop :
  Forall (fun z => 0 <= z < 2 ^ 32) szs ->
  (forall e, m !! bp = Some e -> 0 <= m_size e < 2 ^ 32) -> search_inv szs m0 (S bp) m st ->
  malloc3_try szs next bp m st = Ok (m', st', stop) -> tried szs P m st ->
  tried szs (fun n i => P n i \/ (n = next /\ i = bp)) m' st'.
Proof.
  intros Hsz Hb Hinv E Ht. unfold malloc3_try, rd in E.
  destruct (m !! bp) as [e|] eqn:He; [simpl in E|done].
  destruct (madd st !! next) as [ma|] eqn:Hma; [simpl in E|done].
  destruct (szs !! next) as [sz|] eqn:Hszn; [simpl in E|done].
  pose proof (Forall_lookup_1 _ _ _ _ Hsz Hszn) as Hsz0. simpl in Hsz0.
  specialize (Hb _ eq_refl).
  destruct ma as [i|]; [simplify_eq; intros n i' sz' e' [?|[-> ->]] ???; [by eapply Ht|congruence]|].
  destruct (Z.leb_spec sz (m_size e)).
  - rewrite u32_small in E by lia. unfold wr in E.
    rewrite decide_True in E by (by eapply lookup_lt_Some). simpl in E. simplify_eq.
    intros n i' sz' e' HP Hn Hz Hi. simpl in *.
    assert (n <> next).
    { intros ->. rewrite list_lookup_insert_eq in Hn by (by eapply lookup_lt_Some). congruence. }
    destruct HP as [HP|[? _]]; [|done]. rewrite list_lookup_insert_ne in Hn by done.
    destruct (decide (i' = bp)) as [->|]; [|rewrite list_lookup_insert_ne in Hi by done; by eapply Ht].
    rewrite list_lookup_insert_eq in Hi by (by eapply lookup_lt_Some). simplify_eq. simpl.
    enough (m_size e < sz') by lia. by eapply Ht.
  - simplify_eq. intros n i' sz' e' [?|[-> ->]] ???; [by eapply Ht|]. simplify_eq. lia.
Qed.

Lemma search_inv_size szs m0 bp m st e0 :
  search_inv szs m0 (S bp) m st -> Forall (fun z => 0 <= z < 2 ^ 32) szs ->
  m0 !! bp = Some e0 -> 0 < m_size e0 < 2 ^ 32 ->
  forall e, m !! bp = Some e -> 0 <= m_size e < 2 ^ 32.
Proof.
  intros [_ Hcut _ Hle _ _] Hsz He0 ? e He. rewrite Hcut, list_lookup_imap, He0 in He.
  simpl in He. simplify_eq. simpl.
  pose proof (used_nonneg (madd st) szs bp ltac:(eapply Forall_impl; [done|]; simpl; lia)).
  destruct (decide (Some bp ∈ madd st)) as [Hin|Hin]; [destruct (Hle _ _ Hin He0); lia|].
  rewrite used_none by done. lia.
Qed.

Lemma malloc3_inner_inv szs m0 bp e0 P nexts : forall m st,
  Forall (fun z => 0 <= z < 2 ^ 32) szs -> search_inv szs m0 (S bp) m st ->
  m0 !! bp = Some e0 -> 0 < m_size e0 < 2 ^ 32 ->
  Forall (fun n => n < length szs)%nat nexts -> tried szs P m st -> mfound st <> 3%nat ->
  exists m' st' stop, malloc3_inner szs nexts bp m st = Ok (m', st', stop) /\
    search_inv szs m0 (S bp) m' st' /\ (stop = true <-> mfound st' = 3%nat) /\
    (stop = false -> tried szs (fun n i => P n i \/ (n ∈ nexts /\ i = bp)) m' st').
Proof.
  revert P. induction nexts as [|next nexts IH]; intros P m st Hsz Hinv He0 Hpos Hn Ht Hn3; simpl.
  - eexists _, _, _. split; [done|]. split; [done|]. split; [done|].
    intros _ n i sz e [HP|[Hel _]]; [by apply Ht|]. by apply not_elem_of_nil in Hel.
  - apply Forall_cons_1 in Hn as [Hn0 Hn].
    destruct (malloc3_try_inv szs m0 bp e0 m st next) as (m1&st1&stop&E&Hinv1&Hf); [done..|].
    rewrite E. simpl. destruct stop; [by eexists _, _, _; split_and!|].
    destruct (IH _ m1 st1 Hsz Hinv1 He0 Hpos Hn
      (malloc3_try_tried _ _ _ _ _ _ _ _ _ _ Hsz (search_inv_size _ _ _ _ _ _ Hinv Hsz He0 Hpos) Hinv E Ht)
      ltac:(intros ?%Hf; done))
      as (m2&st2&stop2&E2&Hinv2&Hf2&Ht2).
    rewrite E2. eexists _, _, _. split; [done|]. split; [done|]. split; [done|].
    intros Hs. specialize (Ht2 Hs). intros n i sz e HP. apply Ht2.
    rewrite elem_of_cons in HP. tauto.
Qed.

#[local] Arguments malloc3_inner : simpl never.

Lemma search_inv_mono szs m0 n n' m st :
  search_inv szs m0 n m st -> (n <= n')%nat ->
  (forall i e, (n <= i < n')%nat -> m0 !! i = Some e -> m_size e <> 0) ->
  search_inv szs m0 n' m st.
Proof.
  intros [Hlen Hcut Hslots Hle Hremap Hfound] Hn Hnz. constructor; [done|done| |done| |done].
  - eapply Forall_impl; [done|]. intros [i|]; simpl; lia.
  - destruct (mremap st) as [r|].
    + destruct Hremap as (?&?&?). split; [lia|done].
    + intros i e Hi Hm. destruct (decide (i < n)%nat) as [Hd|Hd]; [by eapply Hremap|].
      rewrite Hcut, list_lookup_imap in Hm. destruct (m0 !! i) as [e0|] eqn:He0; [|done].
      simpl in Hm. simplify_eq. simpl. rewrite used_none.
      * rewrite Z.sub_0_r. eapply Hnz; [|done]. lia.
      * intros Hin. unfold in_slots in Hslots. rewrite Forall_forall in Hslots.
        specialize (Hslots _ Hin). simpl in Hslots. lia.
Qed.

Lemma search_inv_above szs m0 n m st i :
  search_inv szs m0 n m st -> (n <= i)%nat -> m !! i = m0 !! i.
Proof.
  intros [_ -> Hslots _ _ _] Hi. rewrite list_lookup_imap.
  destruct (m0 !! i) as [[]|]; [|done]. simpl. unfold cut. simpl. rewrite used_none.
  - by rewrite Z.sub_0_r.
  - intros Hin. unfold in_slots in Hslots. rewrite Forall_forall in Hslots.
    specialize (Hslots _ Hin). simpl in Hslots. lia.
Qed.

Lemma malloc3_search_inv d s u m0 rest l2 : forall lo l1 m st fuel,
  let szs := [d; s; u] in
  Forall (fun z => 0 <= z < 2 ^ 32) szs -> m0 = l1 ++ l2 ++ Mapent 0 0 :: rest ->
  0 <= lo -> segs_wf lo l2 -> search_inv szs m0 (length l1) m st ->
  tried szs (fun _ i => i < length l1)%nat m st -> mfound st <> 3%nat -> (length l2 < fuel)%nat ->
  exists m' st' stop, malloc3_search fuel szs (length l1) m st = Ok (m', st', stop) /\
    search_inv szs m0 (length (l1 ++ l2)) m' st' /\ (stop = true <-> mfound st' = 3%nat) /\
    (stop = false -> tried szs (fun n i => n < 3 /\ i < length (l1 ++ l2))%nat m' st').
Proof.
  induction l2 as [|e l2 IH]; intros lo l1 m st [|fuel] szs Hsz Hm0 Hlo Hwf Hinv Ht Hn3 Hf;
    simpl in *; try lia; unfold rd;
    pose proof (search_inv_above _ _ _ _ _ (length l1) Hinv (le_n _)) as Hl;
    rewrite Hm0, list_lookup_middle in Hl by done; rewrite Hl; simpl.
  - rewrite app_nil_r. eexists _, _, _. split; [done|]. split; [done|]. split; [done|].
    intros _ n i sz e' [_ Hi]. by apply (Ht n i sz e').
  - destruct Hwf as (?&?&?&Hwf). destruct (Z.eqb_spec (m_size e) 0); [lia|].
    assert (m0 !! length l1 = Some e) as He by (rewrite Hm0; by apply list_lookup_middle).
    assert (search_inv szs m0 (S (length l1)) m st) as Hinv'.
    { eapply search_inv_mono; [done|lia|]. intros i e' ??.
      assert (i = length l1) as -> by lia. congruence. }
    destruct (malloc3_inner_inv szs m0 (length l1) e (fun _ i => i < length l1)%nat [0;1;2]%nat m st)
      as (m1&st1&stop&E&Hinv1&Hf1&Ht1); [done..|lia|repeat constructor; simpl; lia|done|done|].
    rewrite E. simpl. destruct stop.
    + eexists _, _, _. split; [done|]. split; [|done].
      eapply search_inv_mono; [done|rewrite length_app; simpl; lia|].
      intros i e' [Hi1 Hi2] Hi. rewrite Hm0, app_snoc, app_assoc in Hi.
      rewrite lookup_app_l in Hi by (rewrite !length_app in *; simpl in *; lia).
      rewrite lookup_app_r in Hi by (rewrite !length_app in *; simpl in *; lia).
      apply list_elem_of_lookup_2 in Hi.
      pose proof (segs_wf_sizes _ _ Hwf) as Hs. rewrite Forall_forall in Hs. by apply Hs.
    + rewrite (length_snoc l1 e), (app_snoc l1 l2 e).
      apply (IH (m_addr e + m_size e)); [done|by rewrite Hm0, <- app_assoc|lia|done| | |by intros ?%Hf1|lia].
      * by rewrite <- length_snoc.
      * intros k i sz e' Hi. rewrite <- length_snoc in Hi.
        intros Hn Hz Hi'. eapply (Ht1 eq_refl k i sz e'); [|done..].
        destruct (decide (i = length l1)); [right|left; lia]. split; [|done].
        assert (k < 3)%nat by (apply lookup_lt_Some in Hz; simpl in Hz; lia).
        destruct k as [|[|[|]]]; [set_solver..|lia].
Qed.

Abbreviation nz := (fun e => m_size e <> 0).

Lemma malloc3_compact_spec rest l2 : forall l1 g gap fuel,
  Forall (fun e => m_addr e <> 0) l2 -> (length l2 < fuel)%nat ->
  exists rest',
    malloc3_compact fuel (l1 ++ (g :: gap) ++ l2 ++ Mapent 0 0 :: rest)
      (length l1) (S (length l1 + length gap)) =
    Ok (l1 ++ filter nz l2 ++ Mapent 0 0 :: rest').
Proof.
  induction l2 as [|e l2 IH]; intros l1 g gap [|fuel] Ha Hf; simpl in *; try lia.
  - rewrite (app_snoc l1), app_assoc, rd_middle'
      by (rewrite <- length_app, !length_app; simpl; lia).
    simpl. rewrite <- !app_assoc. simpl. rewrite wr_middle. simpl.
    rewrite (app_snoc l1), app_assoc, rd_middle'
      by (rewrite !length_app; simpl; lia).
    simpl. rewrite <- !app_assoc. simpl. eauto.
  - apply Forall_cons_1 in Ha as [He Ha].
    rewrite (app_snoc l1), app_assoc, rd_middle' by (rewrite !length_app; simpl; lia).
    simpl. rewrite filter_cons. destruct (Z.eqb_spec (m_size e) 0) as [E0|E0]; simpl.
    + destruct (Z.eqb_spec (m_addr e) 0); [done|]. rewrite decide_False by (by intros []).
      destruct (IH l1 g (gap ++ [e]) fuel Ha ltac:(lia)) as [rest' E].
      exists rest'. rewrite <- E. rewrite length_app. simpl. rewrite <- !app_assoc. simpl.
      f_equal. lia.
    + rewrite decide_True by done. rewrite <- !app_assoc. simpl. rewrite wr_middle. simpl.
      rewrite (app_snoc l1), app_assoc, rd_middle' by (rewrite !length_app; simpl; lia).
      simpl. destruct (Z.eqb_spec (m_addr e) 0); [done|].
      assert (exists g' gap', gap ++ [e] = g' :: gap') as (g'&gap'&Eg) by (destruct gap; eauto).
      destruct (IH (l1 ++ [e]) g' gap' fuel Ha ltac:(lia)) as [rest' E].
      exists rest'. rewrite <- !app_assoc in *. simpl in *. rewrite <- E.
      apply (f_equal length) in Eg as Eg'. rewrite length_app in Eg'. simpl in Eg'.
      rewrite length_app. simpl.
      replace (S (length l1 + 1 + length gap')) with (S (S (length l1 + length gap))) by lia.
      replace (S (length l1)) with (length l1 + 1)%nat by lia.
      by rewrite (app_snoc gap), Eg.
Qed.

(** What is left of slot [i] once the requests are placed. *)
Definition remain (mas : list (option nat)) (szs : list Z) (i : nat) (e : mapent) : mapent :=
  Mapent (m_size e - used mas szs i) (m_addr e + used mas szs i).

Lemma covers_filter_nz l x :
  Forall (fun e => 0 <= m_size e) l -> covers (filter nz l) x <-> covers l x.
Proof.
  induction l as [|e l IH]; [done|]. intros [? ?%IH]%Forall_cons_1.
  rewrite filter_cons. case_decide as Hd; rewrite ?covers_cons; [tauto|].
  unfold within. assert (m_size e = 0) by (destruct (decide (m_size e = 0)); [done|contradiction]).
  intuition lia.
Qed.

Lemma remain_wf mas szs l : forall lo n,
  (forall i e, l !! i = Some e -> 0 <= used mas szs (n + i) <= m_size e) -> segs_wf lo l ->
  segs_wf lo (filter nz (imap (fun i => remain mas szs (n + i)) l)) /\
  forall x, covers (imap (fun i => remain mas szs (n + i)) l) x <->
    covers l x /\ ~ exists i e, l !! i = Some e /\ m_addr e <= x < m_addr e + used mas szs (n + i).
Proof.
  induction l as [|e l IH]; intros lo n Hu Hwf; simpl.
  - split; [done|]. intros x. rewrite covers_nil. tauto.
  - destruct Hwf as (?&?&?&Hwf). pose proof (Hu 0%nat e eq_refl) as Hu0.
    rewrite Nat.add_0_r in Hu0.
    destruct (IH (m_addr e + m_size e) (S n)) as [IHw IHc]; [|done|].
    { intros i e' Hi. specialize (Hu (S i) e' Hi). by rewrite Nat.add_succ_r in Hu. }
    rewrite (imap_ext _ (fun i => remain mas szs (S n + i)))
      by (intros; simpl; by rewrite Nat.add_succ_r).
    split.
    + rewrite filter_cons, Nat.add_0_r. case_decide as Hd; simpl in *.
      * repeat split; [lia..|]. by replace (m_addr e + _ + _) with (m_addr e + m_size e) by lia.
      * eapply segs_wf_weaken; [|done]. lia.
    + intros x. rewrite !covers_cons, IHc, Nat.add_0_r. unfold within, remain. simpl.
      pose proof (covers_gt _ _ x Hwf) as Hgt. split.
      * intros [Hx|[Hx Hn]].
        -- split; [lia|]. intros ([|i]&e'&Hi&Hx'); simpl in *.
           ++ simplify_eq. rewrite Nat.add_0_r in Hx'. lia.
           ++ assert (covers l x) as ?%Hgt; [|lia]. specialize (Hu (S i) e' Hi).
              apply Exists_exists. exists e'. split; [by eapply list_elem_of_lookup_2|].
              unfold within. lia.
        -- split; [tauto|]. intros ([|i]&e'&Hi&Hx'); simpl in *.
           ++ simplify_eq. rewrite Nat.add_0_r in Hx'. specialize (Hgt Hx). lia.
           ++ apply Hn. exists i, e'. rewrite Nat.add_succ_r in Hx'. done.
      * intros [[Hx|Hx] Hn].
        -- left. split; [|lia]. apply Z.nlt_ge. intros Hlt. apply Hn.
           exists 0%nat, e. rewrite Nat.add_0_r. split; [done|lia].
        -- right. split; [done|]. intros (i&e'&Hi&Hx'). apply Hn.
           exists (S i), e'. rewrite Nat.add_succ_r. done.
Qed.

Lemma segs_wf_order l : forall lo i j ei ej,
  segs_wf lo l -> (i < j)%nat -> l !! i = Some ei -> l !! j = Some ej ->
  m_addr ei + m_size ei < m_addr ej.
Proof.
  induction l as [|e l IH]; intros lo [|i] [|j] ei ej Hwf Hij; simpl; try lia; try done;
    destruct Hwf as (?&?&?&Hwf); intros Hi Hj.
  - simplify_eq. apply (covers_gt _ _ _ Hwf). apply Exists_exists. exists ej.
    split; [by eapply list_elem_of_lookup_2|]. unfold within.
    apply list_elem_of_lookup_2, list_elem_of_split in Hj as (k1&k2&->).
    apply segs_wf_app in Hwf as [_ (?&?&?&?)]. lia.
  - eapply IH; [done| |done..]. lia.
Qed.
Lemma segs_wf_lookup l : forall lo i e,
  segs_wf lo l -> l !! i = Some e -> lo < m_addr e /\ 0 < m_size e /\ m_addr e + m_size e < 2 ^ 32.
Proof.
  intros lo i e Hwf Hi. apply list_elem_of_lookup_2, list_elem_of_split in Hi as (k1&k2&->).
  apply segs_wf_app in Hwf as [H1 (?&?&?&?)]. pose proof (seg_end_ge _ _ H1). lia.
Qed.

Definition in_range (a size x : Z) : Prop := a <= x < a + size.

(** Three requests placed in slots [i0], [i1], [i2] of [l] lie in [l], do not
    overlap, and are together what the slots lost. *)
Lemma three_ranges l d s u i0 i1 i2 e0 e1 e2 :
  let mas := [Some i0; Some i1; Some i2] in let szs := [d; s; u] in
  let a0 := m_addr e0 in
  let a1 := m_addr e1 + used (take 1 mas) (take 1 szs) i1 in
  let a2 := m_addr e2 + used (take 2 mas) (take 2 szs) i2 in
  segs_wf 0 l -> 0 <= d -> 0 <= s -> 0 <= u ->
  l !! i0 = Some e0 -> l !! i1 = Some e1 -> l !! i2 = Some e2 ->
  used mas szs i0 <= m_size e0 -> used mas szs i1 <= m_size e1 -> used mas szs i2 <= m_size e2 ->
  (forall x, in_range a0 d x -> covers l x /\ ~ in_range a1 s x /\ ~ in_range a2 u x) /\
  (forall x, in_range a1 s x -> covers l x /\ ~ in_range a2 u x) /\
  (forall x, in_range a2 u x -> covers l x) /\
  (forall x, (exists i e, l !! i = Some e /\ m_addr e <= x < m_addr e + used mas szs i) <->
    in_range a0 d x \/ in_range a1 s x \/ in_range a2 u x).
Proof.
  simpl. intros Hwf Hd Hs Hu H0 H1 H2.
  assert (forall i e x, l !! i = Some e -> m_addr e <= x < m_addr e + m_size e -> covers l x) as Hc.
  { intros i e x Hi ?. apply Exists_exists. exists e. split; [by eapply list_elem_of_lookup_2|done]. }
  assert (forall i j ei ej, l !! i = Some ei -> l !! j = Some ej -> i <> j ->
    m_addr ei + m_size ei < m_addr ej \/ m_addr ej + m_size ej < m_addr ei) as Ho.
  { intros i j ei ej Hi Hj Hne. destruct (decide (i < j)%nat).
    - left. by eapply segs_wf_order.
    - right. eapply segs_wf_order; [done| |done..]. lia. }
  pose proof (Ho _ _ _ _ H0 H1) as O01. pose proof (Ho _ _ _ _ H0 H2) as O02.
  pose proof (Ho _ _ _ _ H1 H2) as O12.
  rewrite !(decide_True (P := _ = _)) by done.
  intros U0 U1 U2.
  repeat case_decide; simplify_eq; unfold in_range;
    repeat match goal with
    | H : Some ?i <> Some ?j |- _ => assert (i <> j) by congruence; clear H
    end;
    repeat match goal with
    | H : ?i <> ?i -> _ |- _ => clear H
    | H : ?i <> ?j -> _, H' : ?i <> ?j |- _ => specialize (H H')
    end;
    (split; [intros x Hx; split; [(match goal with H : l !! _ = Some _ |- _ => apply (Hc _ _ x H); lia end)|lia]|]);
    (split; [intros x Hx; split; [(match goal with H : l !! _ = Some _ |- _ => apply (Hc _ _ x H); lia end)|lia]|]);
    (split; [intros x Hx; (match goal with H : l !! _ = Some _ |- _ => apply (Hc _ _ x H); lia end)|]);
    (intros x; split; [intros (i&e&Hi&Hx); repeat case_decide; simplify_eq; lia|]);
    intros [Hx|[Hx|Hx]];
    match goal with H : l !! ?i = Some ?e |- _ =>
      exists i, e; split; [exact H|]; repeat case_decide; simplify_eq; lia end.
Qed.

Lemma malloc3_start m0 n szs :
  length szs = 3%nat -> (forall i e, (i < n)%nat -> m0 !! i = Some e -> m_size e <> 0) ->
  search_inv szs m0 n m0 (Madd3 [None; None; None] None 0).
Proof.
  intros Hl Hnz. constructor; simpl; [done| |by repeat constructor|set_solver|done|done].
  apply list_eq. intros i. rewrite list_lookup_imap. destruct (m0 !! i) as [[]|]; [|done].
  simpl. unfold cut. rewrite used_none by set_solver. by rewrite Z.sub_0_r.
Qed.

Lemma all_placed mas :
  length mas = 3%nat -> length (filter is_Some mas) = 3%nat ->
  exists i0 i1 i2 : nat, mas = [Some i0; Some i1; Some i2].
Proof.
  destruct mas as [|o0 [|o1 [|o2 [|]]]]; try done. intros _.
  rewrite !filter_cons, filter_nil. destruct o0, o1, o2; repeat case_decide; simpl; try done; eauto;
  repeat match goal with H : is_Some None |- _ => by destruct H end.
Qed.

(** The search found a slot for each request: what resolve and compact leave. *)
Lemma malloc3_placed mp l d s u m st :
  let szs := [d; s; u] in
  map_rep mp l -> Forall (fun z => 0 <= z < 2 ^ 32) szs ->
  search_inv szs (m_map mp) (length l) m st -> mfound st = 3%nat ->
  exists i0 i1 i2 e0 e1 e2 a2 m',
    let mas := [Some i0; Some i1; Some i2] in
    madd st = mas /\ l !! i0 = Some e0 /\ l !! i1 = Some e1 /\ l !! i2 = Some e2 /\
    a2 = m_addr e2 + used (take 2 mas) (take 2 szs) i2 /\
    malloc3_resolve mas szs m =
      Ok (m', [m_addr e0; m_addr e1 + used (take 1 mas) (take 1 szs) i1; a2]) /\
    m' = imap (remain mas szs) (m_map mp) /\
    (forall i e, l !! i = Some e -> 0 <= used mas szs i <= m_size e).
Proof.
  intros szs [Hwf [rest E]] Hsz [Hlen Hcut Hslots Hle Hremap Hfound] Hf.
  destruct (all_placed (madd st)) as (i0&i1&i2&Em); [done|lia|].
  rewrite Em in *. unfold in_slots in Hslots. rewrite !Forall_cons in Hslots.
  destruct Hslots as (L0&L1&L2&_).
  destruct (lookup_lt_is_Some_2 l i0 L0) as [e0 H0], (lookup_lt_is_Some_2 l i1 L1) as [e1 H1],
    (lookup_lt_is_Some_2 l i2 L2) as [e2 H2].
  assert (forall i e, l !! i = Some e -> m_map mp !! i = Some e) as Hl.
  { intros i e Hi. rewrite E. by apply lookup_app_l_Some. }
  assert (Forall (Z.le 0) szs) as Hnn by (eapply Forall_impl; [done|]; simpl; lia).
  assert (forall i e, l !! i = Some e -> 0 <= used [Some i0; Some i1; Some i2] szs i <= m_size e) as Hu.
  { intros i e Hi. split; [by apply used_nonneg|].
    destruct (decide (Some i ∈ [Some i0; Some i1; Some i2])) as [Hin|Hin]; [by eapply Hle; eauto|].
    rewrite used_none by done. apply (segs_wf_lookup _ _ _ _ Hwf) in Hi. lia. }
  destruct (malloc3_resolve_spec [Some i0; Some i1; Some i2] szs m Hnn eq_refl) as (a&Er&Hla&Ha).
  { rewrite Hcut, length_imap, E, length_app. repeat constructor; eexists; (split; [done|]); lia. }
  { intros i e Hin Hi. rewrite Hcut, list_lookup_imap in Hi.
    assert (i < length l)%nat as Hil by (set_solver).
    destruct (lookup_lt_is_Some_2 l i Hil) as [e' He']. rewrite (Hl _ _ He') in Hi.
    simpl in Hi. simplify_eq. simpl. specialize (Hu _ _ He').
    apply (segs_wf_lookup _ _ _ _ Hwf) in He'. simpl in *. lia. }
  exists i0, i1, i2, e0, e1, e2. eexists _, _.
  split; [done|]. split; [done|]. split; [done|]. split; [done|]. split; [done|].
  split; [rewrite Er; f_equal|split; [|done]].
  - f_equal. apply list_eq. intros k. destruct (decide (k < 3)%nat) as [Hk|Hk].
    + assert (forall i e, l !! i = Some e -> m !! i = Some (cut [Some i0; Some i1; Some i2] szs i e)) as Hm.
      { intros i e Hi. by rewrite Hcut, list_lookup_imap, (Hl _ _ Hi). }
      destruct k as [|[|[|k]]]; [| | |lia].
      * rewrite (Ha 0%nat _ _ eq_refl (Hm _ _ H0)). simpl. f_equal. lia.
      * by rewrite (Ha 1%nat _ _ eq_refl (Hm _ _ H1)).
      * by rewrite (Ha 2%nat _ _ eq_refl (Hm _ _ H2)).
    + rewrite !lookup_ge_None_2; [done|simpl; lia|rewrite Hla; simpl; lia].
  - rewrite Hcut. apply list_eq. intros i. rewrite !list_lookup_imap.
    destruct (m_map mp !! i); done.
Qed.

Lemma malloc3_compact_remap mp l mas szs m st :
  map_rep mp l -> Forall (Z.le 0) szs -> m = imap (cut mas szs) (m_map mp) ->
  (forall i e, l !! i = Some e -> 0 <= used mas szs i <= m_size e) ->
  in_slots (length l) mas ->
  (match mremap st with
    | None => forall i e, (i < length l)%nat -> m !! i = Some e -> m_size e <> 0
    | Some r => (r < length l)%nat /\ (exists e, m !! r = Some e /\ m_size e = 0) /\
        forall i e, (i < r)%nat -> m !! i = Some e -> m_size e <> 0
    end) ->
  exists rest',
    match mremap st with
    | Some remap => malloc3_compact (length (imap (remain mas szs) (m_map mp)))
                      (imap (remain mas szs) (m_map mp)) remap (S remap)
    | None => Ok (imap (remain mas szs) (m_map mp))
    end = Ok (filter nz (imap (remain mas szs) l) ++ Mapent 0 0 :: rest').
Proof.
  intros [Hwf [rest E]] Hnn Hcut Hu Hslots Hremap.
  assert (forall i, (length l <= i)%nat -> used mas szs i = 0) as Hz.
  { intros i Hi. apply used_none. intros Hin. unfold in_slots in Hslots.
    rewrite Forall_forall in Hslots. specialize (Hslots _ Hin). simpl in Hslots. lia. }
  assert (exists rest', imap (remain mas szs) (m_map mp) = imap (remain mas szs) l ++ Mapent 0 0 :: rest') as [rest' Em].
  { rewrite E, imap_app. simpl. unfold remain at 2. simpl. rewrite Nat.add_0_r, Hz by lia. eauto. }
  assert (forall i e, (imap (remain mas szs) l) !! i = Some e ->
    exists e', m !! i = Some e' /\ m_size e' = m_size e) as Hsame.
  { intros i e. rewrite list_lookup_imap. destruct (l !! i) as [e0|] eqn:Hi; [|done].
    intros [= <-]. exists (cut mas szs i e0). split; [|done].
    rewrite Hcut, E, list_lookup_imap. by rewrite (lookup_app_l_Some _ _ _ _ Hi). }
  rewrite Em. set (lr := imap (remain mas szs) l) in *.
  destruct (mremap st) as [r|].
  - destruct Hremap as (Hr&(e&He&He0)&Hpre).
    destruct (lookup_lt_is_Some_2 lr r) as [er Her]; [unfold lr; by rewrite length_imap|].
    destruct (Hsame _ _ Her) as (e'&He'&Hs). assert (m_size er = 0) by congruence.
    rewrite <- (take_drop_middle lr r er Her).
    assert (length (take r lr) = r) as Htk by (rewrite length_take; unfold lr; rewrite length_imap; lia).
    assert (Forall nz (take r lr)) as Hnz.
    { apply Forall_lookup. intros i e'' Hi. apply lookup_take_Some in Hi as [Hi ?].
      destruct (Hsame _ _ Hi) as (e3&?&<-). by eapply Hpre. }
    destruct (malloc3_compact_spec rest' (drop (S r) lr) (take r lr) er []
      (length ((take r lr ++ er :: drop (S r) lr) ++ Mapent 0 0 :: rest'))) as [rest2 Ec].
    { apply Forall_lookup. intros i e'' Hi. rewrite lookup_drop in Hi. unfold lr in Hi.
      rewrite list_lookup_imap in Hi. destruct (l !! (S r + i)%nat) as [e3|] eqn:H3; [|done].
      simpl in Hi. simplify_eq. simpl. specialize (Hu _ _ H3).
      apply (segs_wf_lookup _ _ _ _ Hwf) in H3. simpl in *. lia. }
    { rewrite !length_app. simpl. lia. }
    exists rest2. rewrite <- app_assoc, <- app_comm_cons. simpl in Ec. rewrite Htk, Nat.add_0_r in Ec.
    rewrite <- app_assoc in Ec. simpl in Ec. rewrite Ec.
    rewrite filter_app, filter_cons, decide_False by (by intros []).
    rewrite (list_filter_all _ (take r lr)) by done. by rewrite <- app_assoc.
  - exists rest'. rewrite list_filter_all; [done|]. apply Forall_lookup.
    intros i e Hi. destruct (Hsame _ _ Hi) as (e'&?&<-). eapply Hremap; [|done].
    apply lookup_lt_Some in Hi. unfold lr in Hi. by rewrite length_imap in Hi.
Qed.

(** The search failed: the sizes taken are given back. *)
Lemma malloc3_failed mp l d s u m st :
  map_rep mp l -> Forall (fun z => 0 <= z < 2 ^ 32) [d; s; u] ->
  search_inv [d; s; u] (m_map mp) (length l) m st ->
  (m ← malloc3_restore (madd st) [d; s; u] m; Ok (Map m (m_limit mp), @nil Z, 0)) = Ok (mp, [], 0).
Proof.
  intros [Hwf [rest E]] Hsz [Hlen Hcut Hslots Hle _ _].
  assert (Forall (Z.le 0) [d; s; u]) as Hnn by (eapply Forall_impl; [done|]; simpl; lia).
  rewrite malloc3_restore_spec; [|done| |].
  - cbn [mbind res_bind]. do 3 f_equal. destruct mp as [mm lim]; simpl in *. f_equal.
    rewrite Hcut. apply list_eq. intros i. rewrite !list_lookup_imap.
    destruct (mm !! i) as [[sz a]|]; [|done]. simpl. unfold grow, cut. simpl.
    do 2 f_equal. lia.
  - rewrite Hcut, length_imap, E, length_app. eapply Forall_impl; [done|].
    intros [i|]; simpl; lia.
  - intros i e Hin Hi. rewrite Hcut, list_lookup_imap in Hi.
    destruct (m_map mp !! i) as [e0|] eqn:He0; [|done]. simpl in Hi. simplify_eq. simpl.
    destruct (Hle i e0 Hin He0). lia.
Qed.

(** The search failed: the request left over was refused by every segment. *)
Lemma malloc3_refused mp l d s u m st :
  map_rep mp l -> Forall (fun z => 0 <= z < 2 ^ 32) [d; s; u] ->
  search_inv [d; s; u] (m_map mp) (length l) m st -> mfound st <> 3%nat ->
  tried [d; s; u] (fun n i => n < 3 /\ i < length l)%nat m st ->
  Forall (fun e => m_size e < d + s + u) l.
Proof.
  intros [Hwf [rest E]] Hsz [Hlen Hcut _ _ _ Hfound] Hnf Ht.
  rewrite !Forall_cons in Hsz. destruct Hsz as (?&?&?&_).
  assert (exists n, (n < 3)%nat /\ madd st !! n = Some None) as (n&Hn&Hnone).
  { rewrite Hfound in Hnf. destruct (madd st) as [|[|] [|[|] [|[|] [|]]]]; try done;
      first [by exists 0%nat; split; [lia|]|by exists 1%nat; split; [lia|]|by exists 2%nat; split; [lia|]]. }
  apply Forall_lookup. intros i e Hi.
  assert (m !! i = Some (cut (madd st) [d; s; u] i e)) as Hm.
  { rewrite Hcut, list_lookup_imap, E. by rewrite (lookup_app_l_Some _ _ _ _ Hi). }
  assert (exists sz, [d; s; u] !! n = Some sz /\ used (madd st) [d; s; u] i + sz <= d + s + u) as (sz&Hsz&Hle).
  { destruct (madd st) as [|o0 [|o1 [|o2 [|]]]]; try done.
    destruct n as [|[|[|]]]; simpl in *; simplify_eq;
      eexists; (split; [done|]); repeat case_decide; simplify_eq; lia. }
  pose proof (Ht n i sz _ (conj Hn (lookup_lt_Some _ _ _ Hi)) Hnone Hsz Hm) as Hlt.
  simpl in Hlt. lia.
Qed.

(** ** The theorems *)

(** (C5) malloc refines the abstract allocator: on a well-formed map it
    returns the base of the first segment that is large enough and takes
    exactly the [size] units from there out of the map; it returns 0, with
    the segments unchanged, only if no segment is large enough. *)
Theorem malloc_spec mp l size :
  map_rep mp l -> 0 < size ->
  exists mp' l' a, malloc mp size = Ok (mp', a) /\ map_rep mp' l' /\
    ((a = 0 /\ l' = l /\ Forall (fun e => m_size e < size) l) \/
     (0 < a /\ (exists l1 e l2, l = l1 ++ e :: l2 /\ m_addr e = a /\ size <= m_size e /\
        Forall (fun e => m_size e < size) l1) /\
      (forall x, in_range a size x -> covers l x) /\
      (forall x, covers l' x <-> covers l x /\ ~ in_range a size x))).
Proof.
  intros Hrep Hs. destruct (malloc_first_fit mp l size Hrep Hs) as (mp'&E&Hrep'&_).
  destruct Hrep as [Hwf _]. eexists _, _, _. split; [done|]. split; [done|].
  destruct (decide ((first_fit size l).2 = 0)) as [H0|H0].
  - left. split; [done|]. apply first_fit_none; [done|]. by eapply segs_wf_addrs.
  - right. destruct (first_fit_some size l 0 Hs Hwf ltac:(lia) H0) as (?&?&?&?). done.
Qed.

Definition map1 : map := Map [Mapent 4 10; Mapent 6 20; Mapent 0 0; Mapent 0 0; Mapent 0 0] 4.
Lemma map1_rep : map_rep map1 [Mapent 4 10; Mapent 6 20].
Proof. split; [by repeat split|by eexists]. Qed.

Lemma malloc_spec_witness :
  exists mp' l' a, malloc map1 5 = Ok (mp', a) /\ map_rep mp' l' /\
    ((a = 0 /\ l' = [Mapent 4 10; Mapent 6 20] /\ Forall (fun e => m_size e < 5) [Mapent 4 10; Mapent 6 20]) \/
     (0 < a /\ (exists l1 e l2, [Mapent 4 10; Mapent 6 20] = l1 ++ e :: l2 /\ m_addr e = a /\ 5 <= m_size e /\
        Forall (fun e => m_size e < 5) l1) /\
      (forall x, in_range a 5 x -> covers [Mapent 4 10; Mapent 6 20] x) /\
      (forall x, covers l' x <-> covers [Mapent 4 10; Mapent 6 20] x /\ ~ in_range a 5 x))).
Proof. apply (malloc_spec map1 _ 5 map1_rep). lia. Defined.

Lemma mfree_returns mp l size addr :
  map_rep mp l -> 0 < size -> 0 < addr -> addr + size < 2 ^ 32 ->
  (forall x, in_range addr size x -> ~ covers l x) ->
  (S (length l) <= m_limit mp)%nat -> (S (length l) < length (m_map mp))%nat ->
  exists mp' l', mfree mp size addr = Ok (mp', false) /\ map_rep mp' l' /\
    (forall x, covers l' x <-> covers l x \/ in_range addr size x).
Proof.
  intros [Hwf [rest E]] Hs Ha Hlt Hd Hlim Hroom.
  destruct (mfree_locate_spec addr l 0 [] rest (S (length (m_map mp))) Hwf) as (l1&l2&->&El&H1&H2).
  { rewrite E, length_app. lia. }
  destruct (free_gap 0 l1 l2 size addr Hs Hwf Ha H1 H2 Hd) as [G1 G2].
  rewrite app_nil_l, <- E in El. simpl in El.
  destruct (mfree_join mp l1 l2 rest size addr) as [rest' Em]; try done.
  { by rewrite E, <- app_assoc. }
  { intros ->. rewrite E, !length_app in Hroom. simpl in Hroom. lia. }
  destruct (join_wf l1 (Mapent size addr) l2) as [W C]; try done.
  eexists _, _. split; [done|]. split; [split; [done|by eexists]|]. intros x. apply C.
Qed.

(** (C4) mfree returns exactly the freed units to the map and keeps it sorted
    and coalesced, whether the segment joins a neighbour on the left, on the
    right, on both sides or on none, when the map has a free slot. *)
Theorem mfree_spec mp l size addr :
  map_rep mp l -> 0 < size -> 0 < addr -> addr + size < 2 ^ 32 ->
  (forall x, in_range addr size x -> ~ covers l x) ->
  (S (length l) <= m_limit mp)%nat -> (S (length l) < length (m_map mp))%nat ->
  exists mp' l', mfree mp size addr = Ok (mp', false) /\ map_rep mp' l' /\
    (forall x, covers l' x <-> covers l x \/ in_range addr size x).
Proof. apply mfree_returns. Qed.

Lemma mfree_spec_witness :
  exists mp' l', mfree map1 6 14 = Ok (mp', false) /\ map_rep mp' l' /\
    (forall x, covers l' x <-> covers [Mapent 4 10; Mapent 6 20] x \/ in_range 14 6 x).
Proof.
  apply (mfree_spec map1 _ 6 14 map1_rep); [lia|lia|lia| |simpl; lia|simpl; lia].
  intros x Hx. unfold in_range in Hx. rewrite !covers_cons, covers_nil.
  unfold within. simpl. lia.
Defined.

(** Freeing what malloc returned restores the segments of the map. *)
Theorem malloc_mfree_roundtrip mp l size mp' a :
  map_rep mp l -> 0 < size -> malloc mp size = Ok (mp', a) -> a <> 0 ->
  (S (length l) <= m_limit mp)%nat -> (S (length l) < length (m_map mp))%nat ->
  exists mp'', mfree mp' size a = Ok (mp'', false) /\ map_rep mp'' l.
Proof.
  intros Hrep Hs E Ha Hlim Hroom.
  destruct (malloc_first_fit mp l size Hrep Hs) as (mp1&E1&Hrep1&Hl1&Hl2&Hl3).
  rewrite E in E1. simplify_eq. destruct Hrep as [Hwf _].
  destruct (first_fit_some size l 0 Hs Hwf ltac:(lia) Ha) as (Ha0&(l1&e&l2&El&Ea&He&_)&Hin&Hc).
  assert ((first_fit size l).2 + size < 2 ^ 32) as Hlt.
  { rewrite El in Hwf. apply segs_wf_app in Hwf as [_ (?&?&?&_)]. lia. }
  destruct (mfree_returns mp1 (first_fit size l).1 size (first_fit size l).2)
    as (mp2&l'&E2&Hrep2&Hc2); [done..| |lia|lia|].
  { intros x Hx. rewrite Hc. tauto. }
  exists mp2. split; [done|]. replace l with l'; [done|]. destruct Hrep2 as [Hwf2 _].
  apply (covers_inj 0); [done..|]. intros x. rewrite Hc2, Hc. unfold in_range.
  specialize (Hin x). destruct (decide ((first_fit size l).2 <= x < (first_fit size l).2 + size)); tauto.
Qed.

Lemma malloc_mfree_roundtrip_witness :
  exists mp'', mfree (Map [Mapent 4 10; Mapent 1 25; Mapent 0 0; Mapent 0 0; Mapent 0 0] 4) 5 20 =
    Ok (mp'', false) /\ map_rep mp'' [Mapent 4 10; Mapent 6 20].
Proof.
  apply (malloc_mfree_roundtrip map1 _ 5 _ 20 map1_rep); [lia|done|lia|simpl; lia|simpl; lia].
Defined.

(** (C11) malloc3 is all or nothing.  Either it returns 0 with the map as it
    was, and then no segment could hold the three requests together; or it
    returns three ranges that lie in the free space and do not overlap, and
    the map that is left covers the free units outside them. *)
Theorem malloc3_spec mp l d s u :
  map_rep mp l -> Forall (fun z => 0 <= z < 2 ^ 32) [d; s; u] ->
  (malloc3 mp d s u = Ok (mp, [], 0) /\ Forall (fun e => m_size e < d + s + u) l) \/
  (exists mp' l' a0 a1 a2, malloc3 mp d s u = Ok (mp', [a0; a1; a2], a2) /\
    map_rep mp' l' /\ 0 < a2 /\
    (forall x, in_range a0 d x -> covers l x /\ ~ in_range a1 s x /\ ~ in_range a2 u x) /\
    (forall x, in_range a1 s x -> covers l x /\ ~ in_range a2 u x) /\
    (forall x, in_range a2 u x -> covers l x) /\
    (forall x, covers l' x <->
      covers l x /\ ~ in_range a0 d x /\ ~ in_range a1 s x /\ ~ in_range a2 u x)).
Proof.
  intros Hrep Hsz. pose proof Hrep as [Hwf [rest E]].
  assert (Forall (Z.le 0) [d; s; u]) as Hnn by (eapply Forall_impl; [done|]; simpl; lia).
  destruct (malloc3_search_inv d s u (m_map mp) rest l 0 [] (m_map mp)
    (Madd3 [None; None; None] None 0) (S (length (m_map mp)))) as (m&st&stop&Es&Hinv&Hf&Ht);
    [done..|by apply malloc3_start; [|simpl; lia]|intros ???? Hlt; simpl in Hlt; lia|done
    |rewrite E, length_app; simpl; lia|].
  unfold malloc3. rewrite app_nil_l in *. cbn [length] in Es. rewrite Es. cbn [mbind res_bind].
  destruct stop.
  - right. destruct (malloc3_placed mp l d s u m st Hrep Hsz Hinv (proj1 Hf eq_refl))
      as (i0&i1&i2&e0&e1&e2&a2&m'&Em&H0&H1&H2&Ea2&Er&Em'&Hu).
    destruct Hinv as [Hlen Hcut Hslots Hle Hremap Hfound].
    rewrite Em in *. rewrite Er. cbn [mbind res_bind].
    destruct (malloc3_compact_remap mp l _ [d; s; u] m st Hrep Hnn Hcut Hu Hslots Hremap) as [rest' Ec].
    subst m'. rewrite Ec. cbn [mbind res_bind rd lookup list_lookup].
    destruct (remain_wf [Some i0; Some i1; Some i2] [d; s; u] l 0 0 Hu Hwf) as [W C].
    rewrite !Forall_cons in Hnn. destruct Hnn as (?&?&?&_).
    destruct (three_ranges l d s u i0 i1 i2 e0 e1 e2) as (R0&R1&R2&R3); try done; try (by apply Hu).
    eexists _, _, _, _, _. split; [done|]. split; [split; [done|by eexists]|].
    split; [subst a2; pose proof (segs_wf_lookup _ _ _ _ Hwf H2);
      pose proof (used_nonneg [Some i0; Some i1] [d; s] i2 ltac:(by repeat constructor)); simpl in *; lia|].
    split; [subst a2; apply R0|]. split; [subst a2; apply R1|]. split; [subst a2; apply R2|].
    intros x. rewrite covers_filter_nz.
    + rewrite C, R3. subst a2. tauto.
    + apply Forall_lookup. intros i e Hi. rewrite list_lookup_imap in Hi.
      destruct (l !! i) eqn:Hli; [|done]. simpl in Hi. simplify_eq. simpl. specialize (Hu _ _ Hli). simpl in Hu. lia.
  - left. split; [by eapply malloc3_failed|]. eapply malloc3_refused; [done..| |by apply Ht]. by intros ?%Hf.
Qed.

Lemma malloc3_spec_witness :
  (malloc3 map1 4 1 5 = Ok (map1, [], 0) /\ Forall (fun e => m_size e < 4 + 1 + 5) [Mapent 4 10; Mapent 6 20]) \/
  (exists mp' l' a0 a1 a2, malloc3 map1 4 1 5 = Ok (mp', [a0; a1; a2], a2) /\
    map_rep mp' l' /\ 0 < a2 /\
    (forall x, in_range a0 4 x -> covers [Mapent 4 10; Mapent 6 20] x /\ ~ in_range a1 1 x /\ ~ in_range a2 5 x) /\
    (forall x, in_range a1 1 x -> covers [Mapent 4 10; Mapent 6 20] x /\ ~ in_range a2 5 x) /\
    (forall x, in_range a2 5 x -> covers [Mapent 4 10; Mapent 6 20] x) /\
    (forall x, covers l' x <-> covers [Mapent 4 10; Mapent 6 20] x /\
      ~ in_range a0 4 x /\ ~ in_range a1 1 x /\ ~ in_range a2 5 x)).
Proof. apply (malloc3_spec map1 _ 4 1 5 map1_rep). repeat constructor; lia. Defined.

(** When every slot up to the limit is in use, a segment that touches no
    other is dropped with the overflow message, the map is left as it was;
    and an array that ends at the limit itself, as [swapent] does, is
    written one entry past its end by the insertion before that. *)
Theorem mfree_full mp l size addr :
  map_rep mp l -> 0 < size -> 0 < addr -> addr + size < 2 ^ 32 -> apart l size addr ->
  (m_limit mp = length l -> mfree mp size addr = Ok (mp, true)) /\
  (m_limit mp = S (length l) -> m_limit mp = length (m_map mp) -> mfree mp size addr = Fault).
Proof.
  intros [Hwf [rest E]] Hs Ha Hlt Hap. rewrite (mfree_apart mp l rest); try done. split.
  - intros ->. by destruct (Nat.ltb_spec (length l) (S (length l))); [|lia].
  - intros -> Hlen. rewrite Nat.ltb_irrefl. rewrite E, length_app in Hlen. simpl in Hlen.
    destruct rest; [done|]. simpl in Hlen. lia.
Qed.

(** The swap map with [SMAPSIZ - 1] segments. *)
Definition swap_segs : list mapent := (fun i => Mapent 1 (Z.of_nat (10 * S i))) <$> seq 0 9.
Definition swapmap9 : map := Map (swap_segs ++ [Mapent 0 0]) SMAPSIZ.

Lemma mfree_full_witness :
  (m_limit swapmap9 = length swap_segs -> mfree swapmap9 1 5 = Ok (swapmap9, true)) /\
  (m_limit swapmap9 = S (length swap_segs) -> m_limit swapmap9 = length (m_map swapmap9) ->
   mfree swapmap9 1 5 = Fault).
Proof.
  apply (mfree_full swapmap9 swap_segs 1 5); [|lia|lia|lia|].
  - split; [by vm_compute|by eexists].
  - unfold apart. repeat (constructor; [right; vm_compute; done|]). constructor.
Defined.

End Rmap.
