(* ===== verification/Clist.v ===== *)
(** Character queues of the terminal drivers (sys/kernel/tty_subr.c,
    sys/include/clist.h, cinit of sys/kernel/init_main.c).

    A queue is a chain of 32-byte blocks taken from a free list; a block is a
    link and 28 characters, and the code finds the block of a character by
    masking the character's address.  The model keeps the addresses: a
    pointer is its [Z] address, a block lives at its 32-aligned base, and a
    character access outside the 28 characters of a block, or a link access
    at an address where there is no block, is [Fault].  The operations run
    between spltty() and splx(), so each is one function of the state. *)
From S2P Require Import Prelude.

Module Clist.

Definition CBLOCK : Z := 32.
Definition CBSIZE : Z := CBLOCK - 4.
Definition CROUND : Z := CBLOCK - 1.
Definition NCLIST : Z := 32.

Record cblock := Cblock { c_next : Z; c_info : list Z }.
Record clist := Clist { c_cc : Z; c_cf : Z; c_cl : Z }.

(** The blocks by address, the free list with its character count, the flag
    of a driver waiting for blocks and the number of wakeups sent to it. *)
Record cstate := Cstate
  { blocks : gmap Z cblock; cfreelist : Z; cfreecount : Z;
    cwaiting : Z; wakeups : nat }.

Definition set_blocks (s : cstate) (b : gmap Z cblock) : cstate :=
  Cstate b (cfreelist s) (cfreecount s) (cwaiting s) (wakeups s).

(** [(int)a & ~CROUND] and [(int)a & CROUND] *)
Definition block_of (a : Z) : Z := Z.land a (Z.lnot CROUND).
Definition off (a : Z) : Z := Z.land a CROUND.

(** [bp->c_info]: the address of the first character of a block. *)
Definition info (bp : Z) : Z := bp + 4.

Definition get_block (s : cstate) (bp : Z) : res cblock :=
  match blocks s !! bp with Some b => Ok b | None => Fault end.
Definition get_next (s : cstate) (bp : Z) : res Z :=
  b ← get_block s bp; Ok (c_next b).
Definition set_next (s : cstate) (bp v : Z) : res cstate :=
  b ← get_block s bp; Ok (set_blocks s (<[bp := Cblock v (c_info b)]> (blocks s))).

(** [*a] and [*a = c] for a character pointer. *)
Definition ldc (s : cstate) (a : Z) : res Z :=
  b ← get_block s (block_of a);
  if off a <? 4 then Fault else rd (c_info b) (Z.to_nat (off a - 4)).
Definition stc (s : cstate) (a c : Z) : res cstate :=
  b ← get_block s (block_of a);
  if off a <? 4 then Fault
  else
    i ← wr (c_info b) (Z.to_nat (off a - 4)) (s8 c);
    Ok (set_blocks s (<[block_of a := Cblock (c_next b) i]> (blocks s))).

(** [if (cwaiting) { wakeup (&cwaiting); cwaiting = 0; }] *)
Definition wake (s : cstate) : cstate :=
  if cwaiting s =? 0 then s
  else Cstate (blocks s) (cfreelist s) (cfreecount s) 0 (S (wakeups s)).

(** [bp->c_next = cfreelist; cfreelist = bp; cfreecount += CBSIZE;] *)
Definition push_free (s : cstate) (bp : Z) : res cstate :=
  s ← set_next s bp (cfreelist s);
  Ok (Cstate (blocks s) bp (cfreecount s + CBSIZE) (cwaiting s) (wakeups s)).

Definition getc (s : cstate) (p : clist) : res (cstate * clist * Z) :=
  if c_cc p <=? 0 then Ok (s, Clist 0 0 0, -1)
  else
    c ← ldc s (c_cf p);
    let c := Z.land c 255 in
    let cf := c_cf p + 1 in
    let cc := c_cc p - 1 in
    if cc <=? 0 then
      s ← push_free s (block_of (cf - 1));
      Ok (wake s, Clist cc 0 0, c)
    else if off cf =? 0 then
      let bp := cf - CBLOCK in
      n ← get_next s bp;
      s ← push_free s bp;
      Ok (wake s, Clist cc (info n) (c_cl p), c)
    else Ok (s, Clist cc cf (c_cl p), c).

(** bcopy from and to characters of the blocks. *)
Fixpoint copy_out (s : cstate) (a : Z) (n : nat) : res (list Z) :=
  match n with
  | O => Ok []
  | S n => c ← ldc s a; cs ← copy_out s (a + 1) n; Ok (c :: cs)
  end.
Fixpoint copy_in (s : cstate) (a : Z) (cs : list Z) : res cstate :=
  match cs with
  | [] => Ok s
  | c :: cs => s ← stc s a c; copy_in s (a + 1) cs
  end.

(** The loop [while (cc)] of q_to_b; the result is what was copied to [cp]. *)
Fixpoint q_to_b_loop (fuel : nat) (s : cstate) (q : clist) (cc : Z)
    : res (cstate * clist * list Z) :=
  match fuel with
  | O => Fault
  | S fuel =>
      if cc =? 0 then Ok (s, q, [])
      else
        let nc := CBLOCK - off (c_cf q) in
        let nc := Z.min nc cc in
        let nc := Z.min nc (c_cc q) in
        bs ← copy_out s (c_cf q) (Z.to_nat nc);
        let q := Clist (c_cc q - nc) (c_cf q + nc) (c_cl q) in
        let cc := cc - nc in
        if c_cc q <=? 0 then
          s ← push_free s (block_of (c_cf q - 1));
          Ok (wake s, Clist (c_cc q) 0 0, bs)
        else if off (c_cf q) =? 0 then
          let bp := c_cf q - CBLOCK in
          n ← get_next s bp;
          s ← push_free s bp;
          '(s, q, bs') ← q_to_b_loop fuel (wake s) (Clist (c_cc q) (info n) (c_cl q)) cc;
          Ok (s, q, bs ++ bs')
        else
          '(s, q, bs') ← q_to_b_loop fuel s q cc;
          Ok (s, q, bs ++ bs')
  end.

(** int q_to_b (q, cp, cc): the characters moved; their number is returned. *)
Definition q_to_b (s : cstate) (q : clist) (cc : Z) : res (cstate * clist * list Z) :=
  if cc <=? 0 then Ok (s, q, [])
  else if c_cc q <=? 0 then Ok (s, Clist 0 0 0, [])
  else q_to_b_loop (S (Z.to_nat cc)) s q cc.

(** [while (p < end) { if ( *p & flag) break; p++; }]: the characters before
    the first flagged one. *)
Fixpoint ndqb_scan (s : cstate) (p flag : Z) (n : nat) : res Z :=
  match n with
  | O => Ok 0
  | S n =>
      c ← ldc s p;
      if flag_on c flag then Ok 0
      else k ← ndqb_scan s (p + 1) flag n; Ok (k + 1)
  end.

Definition ndqb (s : cstate) (q : clist) (flag : Z) : res Z :=
  if c_cc q <=? 0 then Ok (- c_cc q)
  else
    let cc := Z.land (c_cf q + CBSIZE) (Z.lnot CROUND) - c_cf q in
    let cc := if c_cc q <? cc then c_cc q else cc in
    if flag =? 0 then Ok cc else ndqb_scan s (c_cf q) flag (Z.to_nat cc).

Fixpoint ndflush_loop (fuel : nat) (s : cstate) (q : clist) (cc : Z)
    : res (cstate * clist) :=
  match fuel with
  | O => Fault
  | S fuel =>
      if (0 <? cc) && negb (c_cc q =? 0) then
        let bp := block_of (c_cf q) in
        let end_ := if bp =? block_of (c_cl q - 1) then c_cl q else bp + CBLOCK in
        let rem := end_ - c_cf q in
        if rem <=? cc then
          n ← get_next s bp;
          s ← push_free s bp;
          ndflush_loop fuel (wake s) (Clist (c_cc q - rem) (info n) (c_cl q)) (cc - rem)
        else
          let q := Clist (c_cc q - cc) (c_cf q + cc) (c_cl q) in
          if c_cc q <=? 0 then
            s ← push_free s bp; Ok (wake s, q)
          else Ok (s, q)
      else Ok (s, q)
  end.

Definition ndflush (s : cstate) (q : clist) (cc : Z) : res (cstate * clist) :=
  if c_cc q <=? 0 then Ok (s, q)
  else
    '(s, q) ← ndflush_loop (S (Z.to_nat cc)) s q cc;
    Ok (s, if c_cc q <=? 0 then Clist 0 0 0 else q).

(** [cfreelist = bp->c_next; cfreecount -= CBSIZE; bp->c_next = NULL;] *)
Definition pop_free (s : cstate) (bp : Z) : res cstate :=
  n ← get_next s bp;
  set_next (Cstate (blocks s) n (cfreecount s - CBSIZE) (cwaiting s) (wakeups s)) bp 0.

(** The first block of an empty queue: its first character, [None] if there
    is no free block. *)
Definition first_block (s : cstate) : res (cstate * option Z) :=
  let bp := cfreelist s in
  if bp =? 0 then Ok (s, None)
  else s ← pop_free s bp; Ok (s, Some (info bp)).

(** A block after the full block that ends at [cp]. *)
Definition next_block (s : cstate) (cp : Z) : res (cstate * option Z) :=
  let bp := cp - CBLOCK in
  s ← set_next s bp (cfreelist s);
  if cfreelist s =? 0 then Ok (s, None)
  else
    bp ← get_next s bp;
    s ← pop_free s bp;
    Ok (s, Some (info bp)).

Definition putc (s : cstate) (c : Z) (p : clist) : res (cstate * clist * Z) :=
  if (c_cl p =? 0) || (c_cc p <? 0) then
    '(s, cp) ← first_block s;
    match cp with
    | None => Ok (s, p, -1)
    | Some cp => s ← stc s cp c; Ok (s, Clist (c_cc p + 1) cp (cp + 1), 0)
    end
  else if off (c_cl p) =? 0 then
    '(s, cp) ← next_block s (c_cl p);
    match cp with
    | None => Ok (s, p, -1)
    | Some cp => s ← stc s cp c; Ok (s, Clist (c_cc p + 1) (c_cf p) (cp + 1), 0)
    end
  else
    s ← stc s (c_cl p) c;
    Ok (s, Clist (c_cc p + 1) (c_cf p) (c_cl p + 1), 0).

(** The loop [while (cc)] of b_to_q on what is left of the buffer: the state,
    [cq] and the characters not moved. *)
Fixpoint b_to_q_loop (fuel : nat) (s : cstate) (cs : list Z) (cq : Z)
    : res (cstate * Z * list Z) :=
  match fuel with
  | O => Fault
  | S fuel =>
      match cs with
      | [] => Ok (s, cq, [])
      | _ :: _ =>
          '(s, cq') ← (if off cq =? 0 then next_block s cq else Ok (s, Some cq));
          match cq' with
          | None => Ok (s, cq, cs)
          | Some cq =>
              let nc := Z.to_nat (Z.min (Z.of_nat (length cs)) (CBLOCK - off cq)) in
              s ← copy_in s cq (take nc cs);
              b_to_q_loop fuel s (drop nc cs) (cq + Z.of_nat nc)
          end
      end
  end.

(** int b_to_q (cp, cc, q), [cs] the [cc] characters at [cp]; the returned
    count is the length of what is left. *)
Definition b_to_q (s : cstate) (cs : list Z) (q : clist) : res (cstate * clist * list Z) :=
  match cs with
  | [] => Ok (s, q, [])
  | _ :: _ =>
      if (c_cl q =? 0) || (c_cc q <? 0) then
        '(s, cq) ← first_block s;
        match cq with
        | None => Ok (s, Clist (c_cc q) (c_cf q) (c_cl q), cs)
        | Some cf =>
            '(s, cq, rest) ← b_to_q_loop (S (length cs)) s cs cf;
            Ok (s, Clist (c_cc q + Z.of_nat (length cs - length rest)) cf cq, rest)
        end
      else
        '(s, cq, rest) ← b_to_q_loop (S (length cs)) s cs (c_cl q);
        Ok (s, Clist (c_cc q + Z.of_nat (length cs - length rest)) (c_cf q) cq, rest)
  end.

Definition nextc (s : cstate) (p : clist) (cp : Z) : res Z :=
  if c_cc p =? 0 then Ok 0
  else
    let cp := cp + 1 in
    if cp =? c_cl p then Ok 0
    else if off cp =? 0 then n ← get_next s (cp - CBLOCK); Ok (info n)
    else Ok cp.

(** [while (bp->c_next != target) bp = bp->c_next;] *)
Fixpoint find_prev (fuel : nat) (s : cstate) (bp target : Z) : res Z :=
  match fuel with
  | O => Fault
  | S fuel =>
      n ← get_next s bp;
      if n =? target then Ok bp else find_prev fuel s n target
  end.

Definition unputc (s : cstate) (p : clist) : res (cstate * clist * Z) :=
  if c_cc p <=? 0 then Ok (s, p, -1)
  else
    let cl := c_cl p - 1 in
    c ← ldc s cl;
    let cc := c_cc p - 1 in
    if cc <=? 0 then
      s ← push_free s (block_of cl);
      Ok (s, Clist cc 0 0, c)
    else if off cl =? 4 then
      let cl := block_of cl in
      obp ← find_prev (S (size (blocks s))) s (block_of (c_cf p)) cl;
      bp ← get_next s obp;
      s ← push_free s bp;
      s ← set_next s obp 0;
      Ok (s, Clist cc (c_cf p) (obp + CBLOCK), c)
    else Ok (s, Clist cc (c_cf p) cl, c).

(** [while (from->c_cc > 0) { c = q_to_b(from, bbuf, sizeof bbuf);
    (void) b_to_q(bbuf, c, to); }] *)
Fixpoint catq_loop (fuel : nat) (s : cstate) (from to : clist)
    : res (cstate * clist * clist) :=
  match fuel with
  | O => Fault
  | S fuel =>
      if 0 <? c_cc from then
        '(s, from, bbuf) ← q_to_b s from (CBSIZE * 4);
        '(s, to, _) ← b_to_q s bbuf to;
        catq_loop fuel s from to
      else Ok (s, from, to)
  end.

Definition catq (s : cstate) (from to : clist) : res (cstate * clist * clist) :=
  if c_cc to =? 0 then Ok (s, Clist 0 0 0, from)
  else catq_loop (S (Z.to_nat (c_cc from))) s from to.

(** [for (cp = ccp; cp <= &cfree[NCLIST - 1]; cp++)] *)
Fixpoint cinit_loop (fuel : nat) (s : cstate) (cp last : Z) : res cstate :=
  match fuel with
  | O => Fault
  | S fuel =>
      if cp <=? last then
        s ← push_free s cp;
        cinit_loop fuel s (cp + CBLOCK) last
      else Ok s
  end.

(** cinit(), with [cfree] the address of the array of blocks. *)
Definition cinit (s : cstate) (cfree : Z) : res cstate :=
  let ccp := block_of (cfree + CROUND) in
  cinit_loop (S (Z.to_nat NCLIST)) s ccp (cfree + CBLOCK * (NCLIST - 1)).

(** ** Addresses *)

Lemma off_mod a : off a = a mod 32.
Proof. unfold off, CROUND, CBLOCK. change (32 - 1) with (Z.ones 5). by rewrite Z.land_ones by lia. Qed.
Lemma block_of_eq a : block_of a = a - a mod 32.
Proof.
  unfold block_of, CROUND, CBLOCK. change (32 - 1) with (Z.ones 5).
  rewrite <- Z.ldiff_land, Z.ldiff_ones_r, Z.shiftl_mul_pow2, Z.shiftr_div_pow2 by lia.
  change (2 ^ 5) with 32. pose proof (Z.div_mod a 32). lia.
Qed.

(** [x] is the base of the block that holds the character at [a]. *)
Definition in_block (x a : Z) : Prop := x mod 32 = 0 /\ x + 4 <= a < x + 32.

Lemma in_block_off x a : in_block x a -> off a = a - x.
Proof.
  intros [H1 H2]. rewrite off_mod. replace a with ((a - x) + x) at 1 by lia.
  rewrite Zplus_mod, H1, Z.add_0_r, Zmod_mod. apply Z.mod_small. lia.
Qed.
Lemma in_block_base x a : in_block x a -> block_of a = x.
Proof. intros H. pose proof (in_block_off x a H) as E. rewrite off_mod in E. rewrite block_of_eq. lia. Qed.
Lemma off_end x : x mod 32 = 0 -> off (x + 32) = 0.
Proof. intros H. rewrite off_mod, Zplus_mod, H. done. Qed.
Lemma in_block_inj x y a : in_block x a -> in_block y a -> x = y.
Proof. intros H1%in_block_base H2%in_block_base. congruence. Qed.
Lemma in_block_info x : x mod 32 = 0 -> in_block x (info x).
Proof. unfold in_block, info. lia. Qed.

(** Index of the character [a] of block [x] in [c_info]. *)
Definition idx (x a : Z) : nat := Z.to_nat (a - x - 4).

Lemma ldc_in s x blk a :
  blocks s !! x = Some blk -> in_block x a -> ldc s a = rd (c_info blk) (idx x a).
Proof.
  intros Hb Ha. unfold ldc, get_block. rewrite (in_block_base x a), Hb by done. cbn [mbind res_bind].
  rewrite (in_block_off x a Ha). destruct Ha as [_ Ha]. destruct (Z.ltb_spec (a - x) 4); [lia|done].
Qed.
Lemma stc_in s x blk a c :
  blocks s !! x = Some blk -> in_block x a -> length (c_info blk) = 28%nat ->
  stc s a c = Ok (set_blocks s (<[x := Cblock (c_next blk) (<[idx x a := s8 c]> (c_info blk))]> (blocks s))).
Proof.
  intros Hb Ha Hl. unfold stc, get_block. rewrite (in_block_base x a), Hb by done. cbn [mbind res_bind].
  rewrite (in_block_off x a Ha). destruct Ha as [_ Ha]. destruct (Z.ltb_spec (a - x) 4); [lia|].
  unfold wr. rewrite decide_True by lia. done.
Qed.

(** ** Chains of blocks *)

(** Every block is aligned and has its 28 characters. *)
Definition blocks_wf (b : gmap Z cblock) : Prop :=
  forall x blk, b !! x = Some blk -> 0 < x /\ x mod 32 = 0 /\ length (c_info blk) = 28%nat.

(** The free list starts at [p] and holds the blocks [l]. *)
Fixpoint fchain (b : gmap Z cblock) (p : Z) (l : list Z) : Prop :=
  match l with
  | [] => p = 0
  | x :: l => p = x /\ exists blk, b !! x = Some blk /\ fchain b (c_next blk) l
  end.

(** From the character [cf] through all blocks of [l], which are used to
    their end, to the character [cf']; [bs] are the characters on the way. *)
Fixpoint path (b : gmap Z cblock) (cf : Z) (l : list Z) (cf' : Z) (bs : list Z) : Prop :=
  match l with
  | [] => cf = cf' /\ bs = []
  | x :: l => exists blk bs', in_block x cf /\ b !! x = Some blk /\ c_next blk mod 32 = 0 /\
      bs = drop (idx x cf) (c_info blk) ++ bs' /\ path b (info (c_next blk)) l cf' bs'
  end.

(** A chain in which [bs] lies from [cf] up to [cl]; the last block may be
    empty. *)
Definition segment (b : gmap Z cblock) (cf cl : Z) (ch : list Z) (bs : list Z) : Prop :=
  exists l x cf' blk bs1, ch = l ++ [x] /\ path b cf l cf' bs1 /\ in_block x cf' /\
    cf' <= cl <= x + 32 /\ b !! x = Some blk /\ c_next blk = 0 /\
    bs = bs1 ++ take (Z.to_nat (cl - cf')) (drop (idx x cf') (c_info blk)).

(** The queue [q] holds the characters [bs], in the blocks [ch]. *)
Definition qrep (b : gmap Z cblock) (q : clist) (ch : list Z) (bs : list Z) : Prop :=
  c_cc q = Z.of_nat (length bs) /\
  match bs with
  | [] => c_cf q = 0 /\ c_cl q = 0 /\ ch = []
  | _ :: _ => segment b (c_cf q) (c_cl q) ch bs /\ off (c_cl q) <> 4
  end.

Definition frep (s : cstate) (fl : list Z) : Prop :=
  fchain (blocks s) (cfreelist s) fl /\ cfreecount s = CBSIZE * Z.of_nat (length fl) /\
  blocks_wf (blocks s).

Lemma fchain_frame b b' p l :
  (forall x, x ∈ l -> b' !! x = b !! x) -> fchain b p l -> fchain b' p l.
Proof.
  revert p. induction l as [|x l IH]; intros p Hb; simpl; [done|].
  intros (->&blk&Hx&Hl). split; [done|]. exists blk. rewrite Hb by apply list_elem_of_here.
  split; [done|]. apply IH; [|done]. intros y Hy. apply Hb. by apply list_elem_of_further.
Qed.
Lemma path_frame b b' cf l cf' bs :
  (forall x, x ∈ l -> b' !! x = b !! x) -> path b cf l cf' bs -> path b' cf l cf' bs.
Proof.
  revert cf bs. induction l as [|x l IH]; intros cf bs Hb; simpl; [done|].
  intros (blk&bs'&?&Hx&?&->&Hl). exists blk, bs'. rewrite Hb by apply list_elem_of_here.
  repeat split; try done; try (by apply H). apply IH; [|done]. intros y Hy. apply Hb. by apply list_elem_of_further.
Qed.
Lemma segment_frame b b' cf cl ch bs :
  (forall x, x ∈ ch -> b' !! x = b !! x) -> segment b cf cl ch bs -> segment b' cf cl ch bs.
Proof.
  intros Hb (l&x&cf'&blk&bs1&->&Hp&?&?&Hx&?&->). exists l, x, cf', blk, bs1.
  rewrite Hb by set_solver. repeat split; try done; try (by apply H); try lia.
  eapply path_frame; [|done]. set_solver.
Qed.
Lemma qrep_frame b b' q ch bs :
  (forall x, x ∈ ch -> b' !! x = b !! x) -> qrep b q ch bs -> qrep b' q ch bs.
Proof.
  intros Hb [? H]. split; [done|]. destruct bs; [done|]. destruct H as [H ?].
  split; [by eapply segment_frame|done].
Qed.

(** ** Moving blocks to and from the free list *)

(** The blocks of [fl] and [ch] are now those of [fl'] and [ch'], and no
    other block was touched. *)
Definition moved (s : cstate) (fl ch : list Z) (s' : cstate) (fl' ch' : list Z) : Prop :=
  fl' ++ ch' ≡ₚ fl ++ ch /\
  forall x, x ∉ fl ++ ch -> blocks s' !! x = blocks s !! x.

Lemma moved_refl s fl ch : moved s fl ch s fl ch.
Proof. done. Qed.
Lemma moved_trans s fl ch s1 fl1 ch1 s2 fl2 ch2 :
  moved s fl ch s1 fl1 ch1 -> moved s1 fl1 ch1 s2 fl2 ch2 -> moved s fl ch s2 fl2 ch2.
Proof.
  intros [P1 F1] [P2 F2]. split; [by etrans|]. intros x Hx.
  rewrite F2, F1; [done..|]. by rewrite P1.
Qed.
Lemma moved_nodup s fl ch s' fl' ch' :
  moved s fl ch s' fl' ch' -> NoDup (fl ++ ch) -> NoDup (fl' ++ ch').
Proof. intros [P _]. by rewrite P. Qed.
#[local] Hint Resolve moved_refl moved_trans moved_nodup : core.

Lemma nodup_notin (fl ch : list Z) x : NoDup (fl ++ x :: ch) -> x ∉ fl.
Proof. intros (_&Hd&_)%NoDup_app Hx. eapply Hd; [done|apply list_elem_of_here]. Qed.
Lemma frep_wake s fl : frep (wake s) fl <-> frep s fl.
Proof. unfold wake, frep. by case_if. Qed.
Lemma blocks_wake s : blocks (wake s) = blocks s.
Proof. unfold wake. by case_if. Qed.

Lemma blocks_wf_insert b x blk v i :
  blocks_wf b -> b !! x = Some blk -> length i = length (c_info blk) ->
  blocks_wf (<[x := Cblock v i]> b).
Proof.
  intros Hb Hx Hl y blk'. rewrite lookup_insert. case_decide as E; [|apply Hb].
  intros. simplify_eq. simpl. rewrite Hl. by apply Hb.
Qed.

Lemma set_next_eq s x blk v :
  blocks s !! x = Some blk ->
  set_next s x v = Ok (set_blocks s (<[x := Cblock v (c_info blk)]> (blocks s))).
Proof. intros Hx. unfold set_next, get_block. by rewrite Hx. Qed.

Lemma push_free_spec s fl x blk :
  frep s fl -> blocks s !! x = Some blk -> x ∉ fl ->
  exists s', push_free s x = Ok s' /\ frep s' (x :: fl) /\
    blocks s' = <[x := Cblock (cfreelist s) (c_info blk)]> (blocks s).
Proof.
  intros (Hf&Hc&Hw) Hx Hn. unfold push_free, set_next, get_block. rewrite Hx. simpl.
  eexists. split; [done|]. split; [|done]. split; [|split]; simpl.
  - split; [done|]. eexists. rewrite lookup_insert_eq. split; [done|]. simpl.
    eapply fchain_frame; [|done]. intros y Hy. rewrite lookup_insert_ne; [done|set_solver].
  - rewrite Hc. lia.
  - by eapply blocks_wf_insert.
Qed.

(** Taking the first block of the free list. *)
Lemma pop_free_spec s fl x :
  frep s (x :: fl) -> NoDup (x :: fl) ->
  cfreelist s = x /\ exists s' blk, pop_free s x = Ok s' /\ frep s' fl /\ blocks s !! x = Some blk /\
    blocks s' = <[x := Cblock 0 (c_info blk)]> (blocks s).
Proof.
  intros ((E&blk&Hx&Hf)&Hc&Hw) [Hn _]%NoDup_cons. split; [done|].
  unfold pop_free, get_next, set_next, get_block. rewrite Hx. simpl. rewrite Hx. simpl.
  eexists _, _. split; [done|]. split; [|done]. split; [|split]; simpl.
  - eapply fchain_frame; [|done]. intros y Hy. rewrite lookup_insert_ne; [done|set_solver].
  - rewrite Hc. simpl. unfold CBSIZE, CBLOCK. lia.
  - by eapply blocks_wf_insert.
Qed.

Lemma frep_nil s : frep s [] -> cfreelist s = 0.
Proof. by intros (?&_). Qed.
Lemma frep_cons s x fl : frep s (x :: fl) -> cfreelist s = x /\ x <> 0.
Proof. intros ((?&blk&Hx&_)&_&Hw). apply Hw in Hx. split; [done|lia]. Qed.

(** ** The front of a queue *)

Lemma drop_take_drop' {A} (l : list A) n m i :
  drop n (take m (drop i l)) = take (m - n) (drop (i + n) l).
Proof.
  destruct (decide (n <= m)%nat).
  - replace m with (n + (m - n))%nat at 1 by lia. by rewrite <- take_drop_commute, drop_drop.
  - replace (m - n)%nat with 0%nat by lia. rewrite drop_ge; [done|]. rewrite length_take. lia.
Qed.

Lemma segment_front b cf cl ch bs :
  blocks_wf b -> segment b cf cl ch bs ->
  exists x blk ch', ch = x :: ch' /\ in_block x cf /\ b !! x = Some blk /\
    ((ch' = [] /\ c_next blk = 0 /\ cf <= cl <= x + 32 /\
      bs = take (Z.to_nat (cl - cf)) (drop (idx x cf) (c_info blk))) \/
     (ch' <> [] /\ c_next blk mod 32 = 0 /\ exists bs', bs = drop (idx x cf) (c_info blk) ++ bs' /\
      segment b (info (c_next blk)) cl ch' bs')).
Proof.
  intros Hw (l&x&cf'&blk&bs1&->&Hp&Hi&Hcl&Hx&Hn&->).
  destruct l as [|y l]; simpl in Hp.
  - destruct Hp as [-> ->]. exists x, blk, []. split; [done|]. split; [done|]. split; [done|]. by left.
  - destruct Hp as (blk'&bs'&Hy&Hby&Hn'&->&Hp). exists y, blk', (l ++ [x]).
    split; [done|]. split; [done|]. split; [done|]. right. split; [by destruct l|].
    split; [done|]. eexists. rewrite <- app_assoc. split; [done|]. by exists l, x, cf', blk, bs'.
Qed.

Lemma segment_single b x cf cl blk :
  b !! x = Some blk -> in_block x cf -> cf <= cl <= x + 32 -> c_next blk = 0 ->
  segment b cf cl [x] (take (Z.to_nat (cl - cf)) (drop (idx x cf) (c_info blk))).
Proof. intros ????. by exists [], x, cf, blk, []. Qed.

Lemma segment_cons b x cf cl blk ch bs :
  b !! x = Some blk -> in_block x cf -> c_next blk mod 32 = 0 ->
  segment b (info (c_next blk)) cl ch bs ->
  segment b cf cl (x :: ch) (drop (idx x cf) (c_info blk) ++ bs).
Proof.
  intros Hx Hi Hn (l&y&cf'&blk'&bs1&->&?&?&?&?&?&->).
  exists (x :: l), y, cf', blk', (drop (idx x cf) (c_info blk) ++ bs1).
  rewrite <- app_assoc. repeat split; try done; try lia; try (by apply H0). by exists blk, bs1.
Qed.

Lemma segment_next b cf cl ch bs :
  segment b cf cl ch bs -> exists x ch', ch = x :: ch' /\ in_block x cf.
Proof.
  intros (l&x&cf'&blk&bs1&->&Hp&Hi&_). destruct l as [|y l]; simpl in Hp.
  - destruct Hp as [-> _]. by eexists _, _.
  - destruct Hp as (?&?&?&_). by eexists _, _.
Qed.

Lemma segment_next_aligned b z cl ch bs :
  segment b (info z) cl ch bs -> z mod 32 = 0 -> exists ch', ch = z :: ch'.
Proof.
  intros (x&ch'&->&Hi)%segment_next Hz. exists ch'. f_equal.
  eapply in_block_inj; [done|]. by apply in_block_info.
Qed.

Lemma segment_nonempty b z cl ch bs :
  blocks_wf b -> segment b (info z) cl ch bs -> z mod 32 = 0 -> off cl <> 4 -> bs <> [].
Proof.
  intros Hw Hs Hz Hcl ->. destruct (segment_front _ _ _ _ _ Hw Hs) as (x&blk&ch'&->&Hi&Hx&Hcase).
  assert (x = z) as -> by (eapply in_block_inj; [done|by apply in_block_info]).
  destruct (Hw _ _ Hx) as (?&_&Hlen). pose proof Hi as [_ Hr]. unfold info in *.
  destruct Hcase as [(->&_&Hc&E%(f_equal length))|(_&_&bs'&E%(f_equal length)&_)].
  - rewrite length_take, length_drop, Hlen in E. unfold idx in E. simpl in E.
    apply Hcl. assert (cl = z + 4) as -> by lia. by rewrite (in_block_off z) by done; lia.
  - rewrite length_app, length_drop, Hlen in E. unfold idx in E. simpl in E. lia.
Qed.

Lemma copy_out_spec s x blk a n :
  blocks s !! x = Some blk -> x mod 32 = 0 -> length (c_info blk) = 28%nat ->
  x + 4 <= a -> a + Z.of_nat n <= x + 32 ->
  copy_out s a n = Ok (take n (drop (idx x a) (c_info blk))).
Proof.
  intros Hx Hal Hl. revert a. induction n as [|n IH]; intros a H1 H2; [done|]. cbn [copy_out].
  rewrite (ldc_in s x blk) by (done || (split; [done|lia])).
  assert (idx x a < length (c_info blk))%nat as Hlt by (unfold idx; lia).
  apply lookup_lt_is_Some_2 in Hlt as [c Hc]. unfold rd. rewrite Hc. cbn [mbind res_bind].
  rewrite IH by lia. cbn [mbind res_bind]. rewrite (drop_S _ _ _ Hc). simpl.
  do 4 f_equal. unfold idx. lia.
Qed.

(** What getc and an iteration of q_to_b do after [nc] characters were read. *)
Definition advance (s : cstate) (q : clist) (nc : Z) : res (cstate * clist) :=
  if c_cc q - nc <=? 0 then
    s ← push_free s (block_of (c_cf q + nc - 1)); Ok (wake s, Clist (c_cc q - nc) 0 0)
  else if off (c_cf q + nc) =? 0 then
    n ← get_next s (c_cf q + nc - CBLOCK);
    s ← push_free s (c_cf q + nc - CBLOCK);
    Ok (wake s, Clist (c_cc q - nc) (info n) (c_cl q))
  else Ok (s, Clist (c_cc q - nc) (c_cf q + nc) (c_cl q)).

(** Characters of the first block before [c_cf]. *)
Definition start (q : clist) : Z := if c_cf q =? 0 then 0 else off (c_cf q) - 4.

Lemma in_block_start x q : in_block x (c_cf q) -> 0 < x -> start q = c_cf q - x - 4.
Proof.
  intros H Hx. unfold start. pose proof (in_block_off _ _ H). destruct H. case_if; lia.
Qed.

(** Ownership before and after freeing the first block. *)
Lemma moved_push s fl x ch s' v i :
  blocks s' = <[x := Cblock v i]> (blocks s) -> moved s fl (x :: ch) s' (x :: fl) ch.
Proof.
  intros Hb. split; [simpl; by rewrite Permutation_middle|].
  intros y Hy. rewrite Hb, lookup_insert_ne; [done|]. set_solver.
Qed.

Lemma advance_last s fl x blk q nc :
  frep s fl -> x ∉ fl -> blocks s !! x = Some blk -> in_block x (c_cf q) ->
  0 < nc -> c_cf q + nc <= x + 32 -> c_cc q <= nc ->
  exists s', advance s q nc = Ok (s', Clist (c_cc q - nc) 0 0) /\ frep s' (x :: fl) /\
    moved s fl [x] s' (x :: fl) [].
Proof.
  intros Hf Hn Hx Hi Hnc Hend Hle. unfold advance.
  destruct (Z.leb_spec (c_cc q - nc) 0); [|lia].
  rewrite (in_block_base x) by (destruct Hi; split; [done|lia]).
  destruct (push_free_spec s fl x blk Hf Hx Hn) as (s'&->&Hf'&Hb). cbn [mbind res_bind].
  exists (wake s'). split; [done|]. split; [by apply frep_wake|].
  eapply moved_push. by rewrite blocks_wake.
Qed.

Lemma advance_boundary s fl x blk ch q bs nc :
  frep s fl -> NoDup (fl ++ x :: ch) -> blocks s !! x = Some blk -> in_block x (c_cf q) ->
  nc < c_cc q -> c_cf q + nc = x + 32 ->
  segment (blocks s) (info (c_next blk)) (c_cl q) ch bs ->
  exists s', advance s q nc = Ok (s', Clist (c_cc q - nc) (info (c_next blk)) (c_cl q)) /\
    frep s' (x :: fl) /\ moved s fl (x :: ch) s' (x :: fl) ch /\
    segment (blocks s') (info (c_next blk)) (c_cl q) ch bs.
Proof.
  intros Hf Hnd Hx Hi Hlt Hend Hseg. unfold advance.
  destruct (Z.leb_spec (c_cc q - nc) 0); [lia|]. rewrite Hend, off_end by apply Hi. simpl.
  replace (x + 32 - CBLOCK) with x by (unfold CBLOCK; lia).
  unfold get_next, get_block. rewrite Hx. cbn [mbind res_bind].
  destruct (push_free_spec s fl x blk) as (s'&->&Hf'&Hb); [done..|by eapply nodup_notin|].
  apply NoDup_app in Hnd as (_&_&[Hnx _]%NoDup_cons).
  cbn [mbind res_bind]. exists (wake s'). split; [done|]. split; [by apply frep_wake|].
  split; [eapply moved_push; by rewrite blocks_wake|].
  eapply segment_frame; [|done]. intros y Hy. rewrite blocks_wake, Hb, lookup_insert_ne; [done|].
  by intros ->.
Qed.

Lemma qrep_nonempty b q ch bs :
  qrep b q ch bs -> 0 < c_cc q -> bs <> [] /\ segment b (c_cf q) (c_cl q) ch bs /\ off (c_cl q) <> 4.
Proof. intros [Hc H] Hp. destruct bs; [simpl in *; lia|]. by split. Qed.

Lemma segment_qrep b cc cf cl ch bs :
  segment b cf cl ch bs -> off cl <> 4 -> cc = Z.of_nat (length bs) -> bs <> [] ->
  qrep b (Clist cc cf cl) ch bs.
Proof. intros ????. by destruct bs. Qed.

(** Reading [nc] characters of the first block and advancing past them. *)
Lemma consume s fl q ch bs nc :
  frep s fl -> qrep (blocks s) q ch bs -> NoDup (fl ++ ch) ->
  0 < nc <= CBLOCK - off (c_cf q) -> nc <= c_cc q ->
  copy_out s (c_cf q) (Z.to_nat nc) = Ok (take (Z.to_nat nc) bs) /\
  exists s' q' fl' ch', advance s q nc = Ok (s', q') /\ frep s' fl' /\
    qrep (blocks s') q' ch' (drop (Z.to_nat nc) bs) /\ moved s fl ch s' fl' ch' /\
    28 * Z.of_nat (length fl) + nc + start q <= 28 * Z.of_nat (length fl') + start q'.
Proof.
  intros Hf Hq Hnd Hnc Hle. pose proof Hf as (_&_&Hw). pose proof (proj1 Hq) as Hcc.
  destruct (qrep_nonempty _ _ _ _ Hq) as (Hne&Hseg&Hoff); [lia|].
  destruct (segment_front _ _ _ _ _ Hw Hseg) as (x&blk&ch'&->&Hi&Hx&Hcase).
  destruct (Hw _ _ Hx) as (Hx0&Hal&Hlen). rewrite (in_block_off x) in Hnc by done.
  pose proof (in_block_start x q Hi Hx0) as Hst. pose proof Hi as [_ Hr].
  assert (length (drop (idx x (c_cf q)) (c_info blk)) = Z.to_nat (x + 32 - c_cf q)) as Hld.
  { rewrite length_drop, Hlen. unfold idx. lia. }
  unfold CBLOCK in *. rewrite (copy_out_spec s x blk) by (done || lia).
  destruct Hcase as [(->&Hn0&Hcl&->)|(Hch&Hna&bs'&->&Hseg')].
  - rewrite length_take, Hld in Hcc. rewrite take_take, Nat.min_l by lia. split; [done|].
    destruct (decide (nc = c_cc q)) as [->|Hlt].
    + destruct (advance_last s fl x blk q (c_cc q)) as (s'&->&Hf'&Hm); try done; [by eapply nodup_notin|lia..|].
      eexists _, _, _, _. split; [done|]. split; [done|]. split; [|split; [done|]].
      * rewrite drop_ge by (rewrite length_take, Hld; lia). split; simpl; [lia|done].
      * simpl. unfold start at 2. simpl. lia.
    + assert (0 < c_cl q - c_cf q - nc) by lia.
      unfold advance. destruct (Z.leb_spec (c_cc q - nc) 0); [lia|].
      assert (in_block x (c_cf q + nc)) as Hi' by (split; [done|lia]).
      rewrite (in_block_off x) by done. destruct (Z.eqb_spec (c_cf q + nc - x) 0); [lia|].
      eexists _, _, _, _. split; [done|]. split; [done|]. split; [|split; [done|]].
      * rewrite drop_take_drop'. replace (Z.to_nat (c_cl q - c_cf q) - Z.to_nat nc)%nat
          with (Z.to_nat (c_cl q - (c_cf q + nc))) by lia.
        replace (idx x (c_cf q) + Z.to_nat nc)%nat with (idx x (c_cf q + nc)) by (unfold idx; lia).
        apply segment_qrep; [apply segment_single; try done; lia|done| |].
        -- rewrite length_take, length_drop, Hlen. unfold idx. lia.
        -- intros E%(f_equal length). rewrite length_take, length_drop, Hlen in E. unfold idx in E. simpl in E. lia.
      * rewrite (in_block_start x (Clist _ (c_cf q + nc) _)); simpl; [lia|done..].
  - assert (bs' <> []) as Hbs'.
    { by eapply segment_nonempty. }
    rewrite take_app_le by lia. split; [done|]. rewrite length_app, Hld in Hcc.
    assert (0 < length bs')%nat by (destruct bs'; simpl; [done|lia]).
    rewrite drop_app_le by lia. rewrite drop_drop.
    destruct (decide (c_cf q + nc = x + 32)) as [E|E].
    + destruct (advance_boundary s fl x blk ch' q bs' nc) as (s'&->&Hf'&Hm&Hs'); try done; [lia|].
      eexists _, _, _, _. split; [done|]. split; [done|]. split; [|split; [done|]].
      * rewrite drop_ge by (rewrite Hlen; unfold idx; lia). simpl. apply segment_qrep; try done. lia.
      * simpl. destruct (segment_next_aligned _ _ _ _ _ Hs' Hna) as [ch1 ->].
        rewrite (in_block_start (c_next blk) (Clist _ _ _)); simpl; [unfold info; lia|by apply in_block_info|].
        destruct (segment_front (blocks s) _ _ _ _ Hw Hseg') as (y&blk'&?&?&?&Hy&_).
        simplify_eq. by destruct (Hw _ _ Hy).
    + unfold advance. destruct (Z.leb_spec (c_cc q - nc) 0); [lia|].
      assert (in_block x (c_cf q + nc)) as Hi' by (split; [done|lia]).
      rewrite (in_block_off x) by done. destruct (Z.eqb_spec (c_cf q + nc - x) 0); [lia|].
      eexists _, _, _, _. split; [done|]. split; [done|]. split; [|split; [done|]].
      * replace (idx x (c_cf q) + Z.to_nat nc)%nat with (idx x (c_cf q + nc)) by (unfold idx; lia).
        apply segment_qrep; [by apply segment_cons|done| |by intros [_ ?]%app_eq_nil].
        rewrite length_app, length_drop, Hlen. unfold idx. simpl. lia.
      * rewrite (in_block_start x (Clist _ (c_cf q + nc) _)); simpl; [lia|done..].
Qed.

Lemma getc_advance s p :
  0 < c_cc p ->
  getc s p = (c ← ldc s (c_cf p); '(s, q) ← advance s p 1; Ok (s, q, Z.land c 255)).
Proof.
  intros H. unfold getc, advance. destruct (Z.leb_spec (c_cc p) 0); [lia|].
  destruct (ldc _ _); [|done..]. cbn [mbind res_bind].
  repeat case_if; try done; [by destruct (push_free _ _)|].
  destruct (get_next _ _); [|done..]. cbn [mbind res_bind]. by destruct (push_free _ _).
Qed.

Lemma q_to_b_loop_advance fuel s q cc :
  cc <> 0 ->
  q_to_b_loop (S fuel) s q cc =
  let nc := Z.min (Z.min (CBLOCK - off (c_cf q)) cc) (c_cc q) in
  bs ← copy_out s (c_cf q) (Z.to_nat nc);
  '(s, q') ← advance s q nc;
  if c_cc q' <=? 0 then Ok (s, q', bs)
  else '(s, q, bs') ← q_to_b_loop fuel s q' (cc - nc); Ok (s, q, bs ++ bs').
Proof.
  intros H. cbn [q_to_b_loop]. destruct (Z.eqb_spec cc 0); [done|].
  set (nc := Z.min _ (c_cc q)). cbv zeta. destruct (copy_out _ _ _); [|done..].
  unfold advance. cbn [mbind res_bind c_cc c_cf c_cl].
  destruct (c_cc q - nc <=? 0) eqn:E.
  - destruct (push_free _ _); [|done..]. cbn [mbind res_bind c_cc]. by rewrite E.
  - destruct (off (c_cf q + nc) =? 0); cbn [mbind res_bind c_cc]; [|by rewrite E].
    destruct (get_next _ _); [|done..]. cbn [mbind res_bind].
    destruct (push_free _ _); [|done..]. cbn [mbind res_bind c_cc]. by rewrite E.
Qed.

(** The state after a queue operation, seen from the queue it works on. *)
Definition local (s : cstate) (fl ch : list Z) (s' : cstate) (q' : clist) (bs' : list Z) : Prop :=
  exists fl' ch', frep s' fl' /\ qrep (blocks s') q' ch' bs' /\ moved s fl ch s' fl' ch'.

Lemma land_255 c : Z.land c 255 = u8 c.
Proof. change 255 with (Z.ones 8). by rewrite Z.land_ones by lia. Qed.

Lemma getc_local s fl p ch c bs :
  frep s fl -> qrep (blocks s) p ch (c :: bs) -> NoDup (fl ++ ch) ->
  exists s' p', getc s p = Ok (s', p', u8 c) /\ local s fl ch s' p' bs.
Proof.
  intros Hf Hq Hnd. pose proof (proj1 Hq) as Hcc. simpl in Hcc.
  destruct (qrep_nonempty _ _ _ _ Hq) as (_&Hseg&_); [lia|].
  destruct (segment_next _ _ _ _ _ Hseg) as (x&_&_&Hi).
  pose proof (in_block_off _ _ Hi). pose proof Hi as [_ ?]. unfold CBLOCK in *.
  destruct (consume s fl p ch (c :: bs) 1 Hf Hq Hnd) as (Hc&s'&q'&fl'&ch'&Ha&?&?&?&_);
    [unfold CBLOCK; lia|lia|].
  rewrite getc_advance by lia. simpl in Hc. destruct (ldc s (c_cf p)) eqn:E; simplify_eq/=.
  rewrite Ha. simpl. rewrite land_255. eexists _, _. split; [done|]. by exists fl', ch'.
Qed.

Lemma q_to_b_loop_local fuel : forall s fl q ch bs cc,
  frep s fl -> qrep (blocks s) q ch bs -> NoDup (fl ++ ch) ->
  0 <= cc -> bs <> [] -> (Z.to_nat cc < fuel)%nat ->
  exists s' q' fl' ch', q_to_b_loop fuel s q cc = Ok (s', q', take (Z.to_nat cc) bs) /\
    frep s' fl' /\ qrep (blocks s') q' ch' (drop (Z.to_nat cc) bs) /\ moved s fl ch s' fl' ch' /\
    28 * Z.of_nat (length fl) + Z.min cc (Z.of_nat (length bs)) + start q <=
    28 * Z.of_nat (length fl') + start q'.
Proof.
  induction fuel as [|fuel IH]; intros s fl q ch bs cc Hf Hq Hnd Hcc Hne Hfuel; [lia|].
  destruct (decide (cc = 0)) as [->|Hcc0].
  { simpl. eexists _, _, _, _. split; [done|]. do 3 (split; [done|]). lia. }
  rewrite q_to_b_loop_advance by done. cbv zeta.
  pose proof (proj1 Hq) as Hlen. assert (0 < length bs)%nat by (destruct bs; simpl; [done|lia]).
  destruct (qrep_nonempty _ _ _ _ Hq) as (_&Hseg&_); [lia|].
  destruct (segment_next _ _ _ _ _ Hseg) as (x&_&_&Hi).
  pose proof (in_block_off _ _ Hi). pose proof Hi as [_ ?].
  set (nc := Z.min _ (c_cc q)).
  assert (0 < nc <= cc) as Hnc by (unfold CBLOCK in *; lia).
  destruct (consume s fl q ch bs nc Hf Hq Hnd) as (->&s1&q1&fl1&ch1&->&Hf1&Hq1&Hm1&Hst1);
    [unfold CBLOCK in *; lia|lia|].
  cbn [mbind res_bind]. pose proof (proj1 Hq1) as Hlen1. rewrite length_drop in Hlen1.
  destruct (Z.leb_spec (c_cc q1) 0) as [Hz|Hz].
  - assert (length bs = Z.to_nat nc) as El by lia.
    rewrite !take_ge by lia. eexists _, _, _, _. split; [done|]. split; [done|].
    rewrite drop_ge in Hq1 by lia. rewrite drop_ge by lia. split; [done|]. split; [done|]. lia.
  - destruct (IH s1 fl1 q1 ch1 (drop (Z.to_nat nc) bs) (cc - nc))
      as (s2&q2&fl2&ch2&->&Hf2&Hq2&Hm2&Hst2); try done; try lia.
    { eauto. } { intros E%(f_equal length). rewrite length_drop in E. simpl in E. lia. }
    cbn [mbind res_bind]. eexists _, _, _, _. split; [|split; [done|split; [|split; [by eauto|]]]].
    + do 2 f_equal. replace (Z.to_nat cc) with (Z.to_nat nc + Z.to_nat (cc - nc))%nat by lia.
      by rewrite take_take_drop.
    + rewrite drop_drop in Hq2. by replace (Z.to_nat cc) with (Z.to_nat nc + Z.to_nat (cc - nc))%nat by lia.
    + rewrite length_drop in Hst2. lia.
Qed.

Lemma q_to_b_local s fl q ch bs cc :
  frep s fl -> qrep (blocks s) q ch bs -> NoDup (fl ++ ch) -> 0 <= cc ->
  exists s' q' fl' ch', q_to_b s q cc = Ok (s', q', take (Z.to_nat cc) bs) /\
    frep s' fl' /\ qrep (blocks s') q' ch' (drop (Z.to_nat cc) bs) /\ moved s fl ch s' fl' ch' /\
    28 * Z.of_nat (length fl) + Z.min cc (Z.of_nat (length bs)) <=
    28 * Z.of_nat (length fl') + (if decide (drop (Z.to_nat cc) bs = []) then 0 else 27).
Proof.
  intros Hf Hq Hnd Hcc. unfold q_to_b. pose proof (proj1 Hq) as Hlen.
  destruct (Z.leb_spec cc 0).
  { replace cc with 0 by lia. eexists _, _, _, _. split; [done|]. split; [done|]. split; [done|].
    split; [done|]. case_decide; lia. }
  destruct bs as [|b bs].
  { simpl in Hlen. destruct (Z.leb_spec (c_cc q) 0); [|lia]. destruct Hq as [_ (Hcf&Hcl&->)].
    rewrite take_nil, drop_nil. eexists _, _, _, _. split; [done|]. split; [done|].
    split; [by split|]. split; [done|]. simpl. lia. }
  simpl in Hlen. destruct (Z.leb_spec (c_cc q) 0); [lia|].
  destruct (q_to_b_loop_local (S (Z.to_nat cc)) s fl q ch (b :: bs) cc)
    as (s'&q'&fl'&ch'&->&Hf'&Hq'&Hm&Hst); try done; [lia|].
  eexists _, _, _, _. split; [done|]. split; [done|]. split; [done|]. split; [done|].
  assert (0 <= start q).
  { destruct (qrep_nonempty _ _ _ _ Hq) as (_&Hseg&_); [lia|].
    destruct (segment_next _ _ _ _ _ Hseg) as (x&_&_&Hi).
    unfold start. rewrite (in_block_off x) by done. destruct Hi. case_if; lia. }
  destruct Hq' as [_ Hq']. destruct (drop (Z.to_nat cc) (b :: bs)) eqn:Ed.
  - destruct Hq' as (Hcf&_). unfold start in Hst at 2. rewrite Hcf in Hst. simpl in Hst.
    rewrite decide_True by done. simpl. lia.
  - rewrite decide_False by done. destruct Hq' as [Hseg' _].
    destruct (segment_next _ _ _ _ _ Hseg') as (y&_&_&Hi').
    unfold start in Hst at 2. rewrite (in_block_off y) in Hst by done.
    destruct Hi'. simpl in *. case_if; lia.
Qed.

Lemma path_end b cf l cf' bs :
  path b cf l cf' bs -> (l = [] /\ cf = cf') \/ exists z, z mod 32 = 0 /\ cf' = info z.
Proof.
  revert cf bs. induction l as [|x l IH]; intros cf bs; simpl; [intros [-> _]; by left|].
  intros (blk&bs'&_&_&Hn&_&Hp). right. destruct (IH _ _ Hp) as [[_ <-]|?]; eauto.
Qed.

(** The last character of a queue lies in the last block of its chain. *)
Lemma segment_last b cf cl ch bs :
  segment b cf cl ch bs -> off cl <> 4 -> bs <> [] ->
  exists l x, ch = l ++ [x] /\ in_block x (cl - 1).
Proof.
  intros (l&x&cf'&blk&bs1&->&Hp&Hi&Hcl&Hx&Hn&->) Hoff Hne. exists l, x. split; [done|].
  assert (cl <> cf') as Hlt.
  { intros ->. destruct (path_end _ _ _ _ _ Hp) as [[-> ->]|(z&Hz&->)].
    - destruct Hp as [_ ->]. rewrite Z.sub_diag in Hne. done.
    - apply Hoff. rewrite (in_block_off z) by (by apply in_block_info). unfold info. lia. }
  destruct Hi. split; [done|lia].
Qed.

Lemma segment_length_single b x cf cl bs :
  blocks_wf b -> segment b cf cl [x] bs -> Z.of_nat (length bs) = cl - cf.
Proof.
  intros Hw Hs. destruct (segment_front _ _ _ _ _ Hw Hs) as (y&blk&?&E&[_ ?]&Hy&Hc).
  simplify_eq. destruct Hc as [(_&_&?&->)|[? _]]; [|done].
  destruct (Hw _ _ Hy) as (_&_&Hl). rewrite length_take, length_drop, Hl. unfold idx. lia.
Qed.

Lemma ndflush_loop_local fuel : forall s fl q ch bs cc,
  frep s fl -> qrep (blocks s) q ch bs -> NoDup (fl ++ ch) -> (Z.to_nat cc < fuel)%nat ->
  exists s' q' fl' ch', ndflush_loop fuel s q cc = Ok (s', q') /\ frep s' fl' /\
    qrep (blocks s') (if c_cc q' <=? 0 then Clist 0 0 0 else q') ch' (drop (Z.to_nat cc) bs) /\
    moved s fl ch s' fl' ch'.
Proof.
  induction fuel as [|fuel IH]; intros s fl q ch bs cc Hf Hq Hnd Hfuel; [lia|].
  pose proof (proj1 Hq) as Hlen. cbn [ndflush_loop].
  destruct bs as [|b0 bs0].
  { destruct Hq as [Hc (?&?&->)]. rewrite Hc. rewrite andb_false_r.
    eexists _, _, _, _. split; [done|]. split; [done|]. rewrite drop_nil, Hc. split; done. }
  destruct (Z.ltb_spec 0 cc) as [Hcc|Hcc]; cbn [andb]; simpl in Hlen; last first.
  { eexists _, _, _, _. split; [done|]. split; [done|]. replace (Z.to_nat cc) with 0%nat by lia.
    destruct (Z.leb_spec (c_cc q) 0); [lia|]. done. }
  destruct (Z.eqb_spec (c_cc q) 0); [lia|]. cbn [negb].
  destruct (qrep_nonempty _ _ _ _ Hq) as (Hne&Hseg&Hoff); [lia|].
  pose proof Hf as (_&_&Hw).
  destruct (segment_last _ _ _ _ _ Hseg Hoff Hne) as (l&z&Ech&Hz).
  destruct (segment_front _ _ _ _ _ Hw Hseg) as (x&blk&ch'&->&Hi&Hx&Hcase).
  rewrite (in_block_base x), (in_block_base z (c_cl q - 1)) by done.
  destruct (Hw _ _ Hx) as (Hx0&Hal&Hlb). pose proof Hi as [_ Hr]. pose proof (in_block_off x _ Hi) as Ho.
  set (rem := if x =? z then c_cl q - c_cf q else x + CBLOCK - c_cf q).
  replace ((if x =? z then c_cl q else x + CBLOCK) - c_cf q) with rem by (subst rem; by case_if).
  assert (rem <= x + 32 - c_cf q /\ 0 < rem <= c_cc q /\
    (ch' = [] -> rem = c_cc q) /\ (ch' <> [] -> rem = x + 32 - c_cf q /\ rem < c_cc q)) as (R1&R2&R3&R4).
  { rewrite Hlen. subst rem. destruct Hcase as [(->&_&?&_)|(Hch&Hna&bs'&E&Hs')].
    - assert (x = z) as <- by (destruct l; simplify_eq/=; [done|by destruct l]).
      pose proof (segment_length_single _ _ _ _ _ Hw Hseg) as El. simpl in El.
      rewrite Z.eqb_refl. repeat split; try lia; done.
    - assert (x <> z).
      { intros <-. destruct l as [|y l]; simplify_eq/=. apply NoDup_app in Hnd as (_&_&[Hn _]%NoDup_cons).
        set_solver. }
      assert (bs' <> []) by (by eapply segment_nonempty).
      assert (0 < length bs')%nat by (destruct bs'; simpl; [done|lia]).
      apply (f_equal length) in E. rewrite length_app, length_drop, Hlb in E. unfold idx in E. simpl in E.
      destruct (Z.eqb_spec x z); [done|]. unfold CBLOCK. repeat split; try lia; done. }
  clearbody rem.
  destruct (Z.leb_spec rem cc) as [Hrem|Hrem].
  - destruct (decide (ch' = [])) as [->|Hch].
    + unfold get_next, get_block. rewrite Hx. cbn [mbind res_bind].
      destruct (push_free_spec s fl x blk) as (s1&->&Hf1&Hb1); [done..|by eapply nodup_notin|].
      cbn [mbind res_bind]. specialize (R3 eq_refl). rewrite R3, Z.sub_diag.
      destruct fuel as [|fuel]; [lia|]. cbn [ndflush_loop c_cc]. rewrite andb_false_r.
      eexists _, _, _, _. split; [done|]. split; [by apply frep_wake|]. simpl.
      rewrite drop_ge by (simpl; lia). split; [by split|]. eapply moved_push. by rewrite blocks_wake.
    + destruct (R4 Hch) as [E Hlt]. destruct Hcase as [(->&_)|(_&Hna&bs'&Eb&Hs')]; [done|].
      destruct (advance_boundary s fl x blk ch' q bs' rem) as (s1&Ea&Hf1&Hm1&Hs1); try done; [lia|].
      unfold advance in Ea. destruct (Z.leb_spec (c_cc q - rem) 0); [lia|].
      replace (c_cf q + rem) with (x + 32) in Ea by lia. rewrite off_end in Ea by done. simpl in Ea.
      replace (x + 32 - CBLOCK) with x in Ea by (unfold CBLOCK; lia).
      destruct (get_next s x) as [nx| |]; try done. cbn [mbind res_bind] in *.
      destruct (push_free s x) as [s2| |]; try done. cbn [mbind res_bind] in *.
      injection Ea as <- Ei. unfold info in Ei. replace nx with (c_next blk) by lia.
      destruct (IH (wake s2) (x :: fl) (Clist (c_cc q - rem) (info (c_next blk)) (c_cl q)) ch' bs' (cc - rem))
        as (s3&q3&fl3&ch3&->&?&?&?); try done; [|by eauto|lia|].
      * apply segment_qrep; try done; [|by eapply segment_nonempty].
        apply (f_equal length) in Eb. rewrite length_app, length_drop, Hlb in Eb. unfold idx in Eb. simpl in Eb. lia.
      * eexists _, _, _, _. split; [done|]. split; [done|]. split; [|by eauto].
        rewrite Eb, drop_app_ge by (rewrite length_drop, Hlb; unfold idx; lia).
        replace (Z.to_nat cc - length (drop (idx x (c_cf q)) (c_info blk)))%nat with (Z.to_nat (cc - rem));
          [done|]. rewrite length_drop, Hlb. unfold idx. lia.
  - destruct (consume s fl q (x :: ch') (b0 :: bs0) cc Hf Hq Hnd) as (_&s1&q1&fl1&ch1&Ea&?&?&?&_);
      [rewrite Ho; unfold CBLOCK in *; lia|lia|].
    unfold advance in Ea. cbn [c_cc c_cf c_cl].
    destruct (Z.leb_spec (c_cc q - cc) 0); [lia|].
    rewrite (in_block_off x) in Ea by (split; [done|lia]).
    destruct (Z.eqb_spec (c_cf q + cc - x) 0); [lia|]. simplify_eq.
    eexists _, _, _, _. split; [done|]. split; [done|]. split; [|done]. cbn [c_cc].
    by destruct (Z.leb_spec (c_cc q - cc) 0); [lia|].
Qed.

Lemma ndflush_local s fl q ch bs cc :
  frep s fl -> qrep (blocks s) q ch bs -> NoDup (fl ++ ch) ->
  exists s' q', ndflush s q cc = Ok (s', q') /\ local s fl ch s' q' (drop (Z.to_nat cc) bs).
Proof.
  intros Hf Hq Hnd. unfold ndflush. pose proof (proj1 Hq) as Hlen.
  destruct bs as [|b bs].
  { rewrite Hlen. simpl. eexists _, _. split; [done|]. rewrite drop_nil. by exists fl, ch. }
  destruct (Z.leb_spec (c_cc q) 0); [simpl in Hlen; lia|].
  destruct (ndflush_loop_local (S (Z.to_nat cc)) s fl q ch (b :: bs) cc)
    as (s'&q'&fl'&ch'&->&?&?&?); try done; [lia|].
  eexists _, _. split; [done|]. by exists fl', ch'.
Qed.

(** ** The end of a queue *)

Lemma path_app b cf l1 l2 cf' bs :
  path b cf (l1 ++ l2) cf' bs <->
  exists c bs1 bs2, path b cf l1 c bs1 /\ path b c l2 cf' bs2 /\ bs = bs1 ++ bs2.
Proof.
  revert cf bs. induction l1 as [|x l1 IH]; intros cf bs; simpl.
  - split; [intros H; by exists cf, [], bs|]. by intros (c&bs1&bs2&(->&->)&H&->).
  - split.
    + intros (blk&bs'&?&?&?&->&(c&bs1&bs2&?&?&->)%IH). eexists c, _, bs2.
      split; [by exists blk, bs1|]. by rewrite <- app_assoc.
    + intros (c&bs1&bs2&(blk&bs'&?&?&?&->&?)&?&->). exists blk, (bs' ++ bs2).
      rewrite <- app_assoc. repeat split; try done; try (by apply H). apply IH. eauto 10.
Qed.

Lemma segment_block b cf cl ch bs :
  segment b cf cl ch bs -> off cl <> 0 -> exists l x, ch = l ++ [x] /\ in_block x cl.
Proof.
  intros (l&x&cf'&blk&bs1&->&Hp&Hi&Hcl&_) Hoff. exists l, x. split; [done|].
  destruct Hi as [Hal Hi]. split; [done|]. split; [lia|].
  destruct (decide (cl = x + 32)) as [->|]; [by rewrite off_end in Hoff by done|lia].
Qed.

Lemma snoc_inv {A} (l l' : list A) x x' : l ++ [x] = l' ++ [x'] -> l = l' /\ x = x'.
Proof. apply app_inj_tail. Qed.

(** Storing one character at [cl] in the last block. *)
Lemma stc_segment s fl cf cl l x bs c :
  frep s fl -> segment (blocks s) cf cl (l ++ [x]) bs -> NoDup (fl ++ l ++ [x]) -> in_block x cl ->
  exists s', stc s cl c = Ok s' /\ frep s' fl /\
    segment (blocks s') cf (cl + 1) (l ++ [x]) (bs ++ [s8 c]) /\
    moved s fl (l ++ [x]) s' fl (l ++ [x]).
Proof.
  intros Hf (l'&x'&cf'&blk&bs1&[<- <-]%snoc_inv&Hp&Hi&Hcl&Hx&Hn&->) Hnd Hin.
  pose proof Hf as (Hfc&Hcc&Hw). destruct (Hw _ _ Hx) as (Hx0&Hal&Hlen).
  rewrite (stc_in s x blk) by done.
  apply NoDup_app in Hnd as (_&Hd&Hnd). apply NoDup_app in Hnd as (_&Hdl&_).
  assert (x ∉ fl) as Hxf by (intros ?; eapply Hd; [done|set_solver]).
  assert (x ∉ l) as Hxl by (intros ?; eapply Hdl; [done|set_solver]).
  destruct Hin as [_ Hin]. destruct Hi as [_ Hi].
  eexists. split; [done|]. split; [|split].
  - split; [|split]; simpl.
    + eapply fchain_frame; [|done]. intros y Hy. rewrite lookup_insert_ne; [done|set_solver].
    + done.
    + eapply blocks_wf_insert; [done..|]. by rewrite length_insert.
  - exists l, x, cf'. eexists _, bs1. simpl. split; [done|]. split.
    { eapply path_frame; [|done]. intros y Hy. rewrite lookup_insert_ne; [done|set_solver]. }
    split; [done|]. split; [lia|]. rewrite lookup_insert_eq. split; [done|]. simpl. split; [done|].
    rewrite <- app_assoc. f_equal. rewrite drop_insert_ge by (unfold idx; lia).
    replace (idx x cl - idx x cf')%nat with (Z.to_nat (cl - cf')) by (unfold idx; lia).
    replace (Z.to_nat (cl + 1 - cf')) with (S (Z.to_nat (cl - cf'))) by lia.
    rewrite (take_S_r _ _ (s8 c)).
    + by rewrite take_insert_ge by lia.
    + rewrite list_lookup_insert_eq; [done|]. rewrite length_drop, Hlen. unfold idx. lia.
  - split; [done|]. intros y Hy. simpl. rewrite lookup_insert_ne; [done|]. set_solver.
Qed.

Lemma copy_in_segment cs : forall s fl cf cl l x bs,
  frep s fl -> segment (blocks s) cf cl (l ++ [x]) bs -> NoDup (fl ++ l ++ [x]) ->
  x mod 32 = 0 -> x + 4 <= cl -> cl + Z.of_nat (length cs) <= x + 32 ->
  exists s', copy_in s cl cs = Ok s' /\ frep s' fl /\
    segment (blocks s') cf (cl + Z.of_nat (length cs)) (l ++ [x]) (bs ++ (s8 <$> cs)) /\
    moved s fl (l ++ [x]) s' fl (l ++ [x]).
Proof.
  induction cs as [|c cs IH]; intros s fl cf cl l x bs Hf Hs Hnd Hal H1 H2; cbn [copy_in].
  - eexists. split; [done|]. split; [done|]. simpl. rewrite app_nil_r, Z.add_0_r. done.
  - simpl in H2. destruct (stc_segment s fl cf cl l x bs c) as (s1&->&Hf1&Hs1&Hm1); try done.
    { split; [done|lia]. }
    cbn [mbind res_bind]. destruct (IH s1 fl cf (cl + 1) l x (bs ++ [s8 c])) as (s2&->&Hf2&Hs2&Hm2);
      try done; try lia.
    eexists. split; [done|]. split; [done|]. split; [|by eauto].
    rewrite <- app_assoc in Hs2. cbn [app] in Hs2. rewrite fmap_cons. cbn [length].
    by replace (cl + Z.of_nat (S (length cs))) with (cl + 1 + Z.of_nat (length cs)) by lia.
Qed.

Lemma first_block_local s fl :
  frep s fl -> NoDup fl ->
  match fl with
  | [] => first_block s = Ok (s, None)
  | y :: fl' => exists s', first_block s = Ok (s', Some (info y)) /\ frep s' fl' /\
      segment (blocks s') (info y) (info y) [y] [] /\ moved s fl [] s' fl' [y]
  end.
Proof.
  intros Hf Hnd. unfold first_block. destruct fl as [|y fl].
  - by rewrite frep_nil.
  - destruct (pop_free_spec s fl y Hf Hnd) as (->&s'&blk&->&Hf'&Hy&Hb).
    destruct (frep_cons _ _ _ Hf) as [_ Hy0]. destruct (Z.eqb_spec y 0); [done|]. simpl.
    eexists. split; [done|]. split; [done|].
    assert (y mod 32 = 0) as Hal by (destruct Hf as (_&_&Hw); by destruct (Hw _ _ Hy) as (?&?&?)).
    split.
    + pose proof (segment_single (blocks s') y (info y) (info y) (Cblock 0 (c_info blk))) as H.
      rewrite Z.sub_diag in H.
      apply H; [by rewrite Hb, lookup_insert_eq|by apply in_block_info|unfold info; lia|done].
    + split; [by rewrite app_nil_r, Permutation_app_comm|].
      intros z Hz. rewrite Hb, lookup_insert_ne; [done|]. set_solver.
Qed.

(** Setting the link of the last block to the first free block and taking
    that block. *)
Lemma next_block_local s fl cf cl ch bs :
  frep s fl -> segment (blocks s) cf cl ch bs -> NoDup (fl ++ ch) -> off cl = 0 ->
  match fl with
  | [] => next_block s cl = Ok (s, None)
  | y :: fl' => exists s', next_block s cl = Ok (s', Some (info y)) /\ frep s' fl' /\
      segment (blocks s') cf (info y) (ch ++ [y]) bs /\ moved s fl ch s' fl' (ch ++ [y])
  end.
Proof.
  intros Hf (l&x&cf'&blk&bs1&->&Hp&Hi&Hcl&Hx&Hn&->) Hnd Hoff.
  pose proof Hf as (Hfc&Hcc&Hw). destruct (Hw _ _ Hx) as (Hx0&Hal&Hlen).
  assert (cl = x + 32) as ->.
  { destruct (decide (cl = x + 32)); [done|]. destruct Hi.
    rewrite (in_block_off x) in Hoff by (split; [done|lia]). lia. }
  unfold next_block. replace (x + 32 - CBLOCK) with x by (unfold CBLOCK; lia).
  rewrite (set_next_eq s x blk) by done. cbn [mbind res_bind].
  destruct fl as [|y fl].
  { pose proof (frep_nil s Hf) as E0. rewrite E0, insert_id by (rewrite Hx; destruct blk; simpl in *; by subst).
    simpl. rewrite E0. by destruct s. }
  destruct (frep_cons _ _ _ Hf) as [Ey Hy0]. rewrite Ey.
  destruct (Z.eqb_spec (cfreelist (set_blocks s (<[x:=Cblock y (c_info blk)]> (blocks s)))) 0) as [?|_];
    [simpl in *; lia|].
  assert (x ∉ y :: fl) as Hxf.
  { apply NoDup_app in Hnd as (_&Hd&_). intros Hin. eapply Hd; [done|]. set_solver. }
  assert (x ∉ l) as Hxl.
  { apply NoDup_app in Hnd as (_&_&(_&Hd&_)%NoDup_app). intros ?. eapply Hd; [done|]. set_solver. }
  assert (y ∉ l ++ [x]) as Hyl.
  { apply NoDup_app in Hnd as (_&Hd&_). apply Hd. apply list_elem_of_here. }
  set (s1 := set_blocks s (<[x:=Cblock y (c_info blk)]> (blocks s))).
  assert (frep s1 (y :: fl)) as Hf1.
  { split; [|split; [done|by eapply blocks_wf_insert]]. apply (fchain_frame (blocks s)); [|done].
    intros z Hz. unfold s1; simpl; rewrite lookup_insert_ne; [done|set_solver]. }
  unfold get_next, get_block. simpl. rewrite lookup_insert_eq. simpl.
  destruct (pop_free_spec s1 fl y Hf1) as (_&s2&blk2&->&Hf2&Hy2&Hb2).
  { by apply NoDup_app in Hnd as (?&_). }
  simpl. eexists. split; [done|]. split; [done|].
  simpl in Hy2. assert (x <> y) as Hxy by set_solver. rewrite lookup_insert_ne in Hy2 by done.
  destruct (Hw _ _ Hy2) as (_&Haly&Hleny).
  assert (forall z, z ∉ [x; y] -> blocks s2 !! z = blocks s !! z) as Hfr.
  { intros z Hz. rewrite Hb2. simpl. rewrite !lookup_insert_ne; [done|set_solver..]. }
  assert (blocks s2 !! x = Some (Cblock y (c_info blk))) as Hx2.
  { rewrite Hb2. simpl. by rewrite lookup_insert_ne, lookup_insert_eq. }
  split.
  - exists (l ++ [x]), y, (info y). eexists _, _. split; [done|]. split; [|split; [by apply in_block_info|]].
    + apply path_app. exists cf', bs1, (drop (idx x cf') (c_info blk)). split; [|split; [|done]].
      * eapply path_frame; [|done]. intros z Hz. apply Hfr. set_solver.
      * eexists _, []. split; [done|]. split; [done|]. simpl. by rewrite app_nil_r.
    + split; [unfold info; lia|]. split; [by rewrite Hb2, lookup_insert_eq|]. split; [done|].
      rewrite Z.sub_diag. simpl. rewrite app_nil_r. f_equal. rewrite take_ge; [done|].
      rewrite length_drop, Hlen. destruct Hi. unfold idx. lia.
  - split.
    + by rewrite (app_assoc fl), Permutation_app_comm.
    + intros z Hz. apply Hfr. set_solver.
Qed.

Lemma segment_cl_pos b cf cl ch bs : blocks_wf b -> segment b cf cl ch bs -> 0 < cl.
Proof.
  intros Hw (l&x&cf'&blk&bs1&_&_&[_ Hi]&?&Hx&_). destruct (Hw _ _ Hx). lia.
Qed.

Lemma off_after x cl : in_block x cl -> off (cl + 1) <> 4.
Proof.
  intros [Hal Hi]. destruct (decide (cl + 1 = x + 32)) as [->|]; [by rewrite off_end|].
  rewrite (in_block_off x) by (split; [done|lia]). lia.
Qed.

Lemma putc_local s fl p ch bs c :
  frep s fl -> qrep (blocks s) p ch bs -> NoDup (fl ++ ch) ->
  exists s' p' r, putc s c p = Ok (s', p', r) /\
    ((r = 0 /\ local s fl ch s' p' (bs ++ [s8 c])) \/ (r = -1 /\ s' = s /\ p' = p /\ fl = [])).
Proof.
  intros Hf Hq Hnd. pose proof (proj1 Hq) as Hlen. pose proof Hf as (_&_&Hw). unfold putc.
  destruct bs as [|b bs].
  - destruct Hq as [_ (Hcf&Hcl&->)]. rewrite Hcl. cbn [Z.eqb orb]. rewrite app_nil_r in Hnd.
    pose proof (first_block_local s fl Hf Hnd) as Hblk. destruct fl as [|y fl].
    { rewrite Hblk. cbn [mbind res_bind]. eexists _, _, _. split; [done|]. by right. }
    destruct Hblk as (s1&->&Hf1&Hs1&Hm1). cbn [mbind res_bind].
    destruct (stc_segment s1 fl (info y) (info y) [] y [] c) as (s2&->&Hf2&Hs2&Hm2); try done.
    { destruct Hm1 as [P _]. rewrite app_nil_l, P. by rewrite app_nil_r. }
    { destruct (segment_block _ _ _ _ _ Hs1) as (l&x&E&?).
      - destruct (segment_next _ _ _ _ _ Hs1) as (x&?&?&Hi). rewrite (in_block_off _ _ Hi). destruct Hi. lia.
      - by apply (snoc_inv [] l) in E as [_ <-]. }
    cbn [mbind res_bind]. eexists _, _, _. split; [done|]. left. split; [done|].
    exists fl, [y]. split; [done|]. split; [|by eauto]. simpl in Hlen.
    apply segment_qrep; [done| |simpl; lia|done].
    destruct (segment_next _ _ _ _ _ Hs1) as (x&?&?&Hi). by eapply off_after.
  - destruct (qrep_nonempty _ _ _ _ Hq) as (_&Hseg&Hoff); [simpl in Hlen; lia|].
    pose proof (segment_cl_pos _ _ _ _ _ Hw Hseg).
    destruct (Z.eqb_spec (c_cl p) 0); [lia|]. destruct (Z.ltb_spec (c_cc p) 0); [lia|]. cbn [orb].
    destruct (Z.eqb_spec (off (c_cl p)) 0) as [E0|E0].
    + pose proof (next_block_local s fl _ _ _ _ Hf Hseg Hnd E0) as Hblk. destruct fl as [|y fl].
      { rewrite Hblk. cbn [mbind res_bind]. eexists _, _, _. split; [done|]. by right. }
      destruct Hblk as (s1&->&Hf1&Hs1&Hm1). cbn [mbind res_bind].
      assert (in_block y (info y)) as Hi.
      { apply in_block_info. destruct Hf as ((_&blk&Hy&_)&_). by destruct (Hw _ _ Hy) as (_&?&_). }
      destruct (stc_segment s1 fl (c_cf p) (info y) ch y (b :: bs) c) as (s2&->&Hf2&Hs2&Hm2); eauto.
      cbn [mbind res_bind]. eexists _, _, _. split; [done|]. left. split; [done|].
      exists fl, (ch ++ [y]). split; [done|]. split; [|by eauto].
      apply segment_qrep; [done|by eapply off_after|rewrite length_app; simpl in *; lia|done].
    + destruct (segment_block _ _ _ _ _ Hseg E0) as (l&x&->&Hi).
      destruct (stc_segment s fl (c_cf p) (c_cl p) l x (b :: bs) c) as (s2&->&Hf2&Hs2&Hm2); eauto.
      cbn [mbind res_bind]. eexists _, _, _. split; [done|]. left. split; [done|].
      exists fl, (l ++ [x]). split; [done|]. split; [|done].
      apply segment_qrep; [done|by eapply off_after|rewrite length_app; simpl in *; lia|done].
Qed.

(** Free characters of the block that [cq] points into. *)
Definition room (cq : Z) : Z := if off cq =? 0 then 0 else CBLOCK - off cq.

(** One round of b_to_q once there is room in the last block. *)
Lemma copy_round s fl cf cq ch bs cs :
  frep s fl -> segment (blocks s) cf cq ch bs -> NoDup (fl ++ ch) -> off cq <> 0 -> cs <> [] ->
  let nc := Z.to_nat (Z.min (Z.of_nat (length cs)) (CBLOCK - off cq)) in
  (0 < nc)%nat /\ exists s', copy_in s cq (take nc cs) = Ok s' /\ frep s' fl /\
    segment (blocks s') cf (cq + Z.of_nat nc) ch (bs ++ (s8 <$> take nc cs)) /\
    moved s fl ch s' fl ch /\ off (cq + Z.of_nat nc) <> 4 /\
    ((nc < length cs)%nat -> off (cq + Z.of_nat nc) = 0 /\ Z.of_nat nc = room cq).
Proof.
  intros Hf Hs Hnd H0 Hne nc. destruct (segment_block _ _ _ _ _ Hs H0) as (l&x&->&Hi).
  pose proof (in_block_off _ _ Hi) as Ho. pose proof Hi as [Hal Hr].
  assert (0 < length cs)%nat by (destruct cs; simpl; [done|lia]).
  unfold CBLOCK in *. split; [lia|].
  assert (length (take nc cs) = nc) as El by (rewrite length_take; lia).
  destruct (copy_in_segment (take nc cs) s fl cf cq l x bs) as (s'&->&Hf'&Hs'&Hm'); try done; [lia|lia|].
  rewrite El in Hs'. eexists. split; [done|]. split; [done|]. split; [done|]. split; [done|].
  assert (off (cq + Z.of_nat nc) = if decide (cq + Z.of_nat nc = x + 32) then 0 else cq + Z.of_nat nc - x) as ->.
  { case_decide as E; [by rewrite E, off_end|]. apply in_block_off. split; [done|lia]. }
  unfold room, CBLOCK. case_decide; repeat split; try lia; destruct (Z.eqb_spec (off cq) 0); lia.
Qed.

Lemma b_to_q_loop_local fuel : forall s fl cf cq ch bs cs,
  frep s fl -> segment (blocks s) cf cq ch bs -> NoDup (fl ++ ch) -> (length cs < fuel)%nat ->
  (off cq <> 4 \/ cs <> []) ->
  exists s' cq' fl' ch' k, b_to_q_loop fuel s cs cq = Ok (s', cq', drop k cs) /\ frep s' fl' /\
    segment (blocks s') cf cq' ch' (bs ++ (s8 <$> take k cs)) /\ moved s fl ch s' fl' ch' /\
    off cq' <> 4 /\ (k <= length cs)%nat /\ ((k < length cs)%nat -> fl' = []) /\
    (Z.of_nat (length cs) <= CBSIZE * Z.of_nat (length fl) + room cq -> k = length cs) /\ (off cq <> 0 -> cs <> [] -> (0 < k)%nat).
Proof.
  induction fuel as [|fuel IH]; intros s fl cf cq ch bs cs Hf Hs Hnd Hfuel Hor; [lia|].
  cbn [b_to_q_loop]. destruct cs as [|c cs].
  { exists s, cq, fl, ch, 0%nat. split; [done|]. simpl. rewrite app_nil_r.
    destruct Hor; [|done]. split_and!; try done; intros; first [done|lia]. }
  assert (Hround : forall s1 fl1 ch1 cq1, frep s1 fl1 -> segment (blocks s1) cf cq1 ch1 bs ->
    moved s fl ch s1 fl1 ch1 -> off cq1 <> 0 -> (off cq = 0 -> off cq1 = 4 /\ S (length fl1) = length fl) ->
    (off cq <> 0 -> fl1 = fl /\ cq1 = cq) ->
    let nc := Z.to_nat (Z.min (Z.of_nat (length (c :: cs))) (CBLOCK - off cq1)) in
    exists s' cq' fl' ch' k,
      (s2 ← copy_in s1 cq1 (take nc (c :: cs)); b_to_q_loop fuel s2 (drop nc (c :: cs)) (cq1 + Z.of_nat nc)) =
      Ok (s', cq', drop k (c :: cs)) /\ frep s' fl' /\
      segment (blocks s') cf cq' ch' (bs ++ (s8 <$> take k (c :: cs))) /\ moved s fl ch s' fl' ch' /\
      off cq' <> 4 /\ (k <= length (c :: cs))%nat /\ ((k < length (c :: cs))%nat -> fl' = []) /\
      (Z.of_nat (length (c :: cs)) <= CBSIZE * Z.of_nat (length fl) + room cq -> k = length (c :: cs)) /\ (0 < k)%nat).
  { intros s1 fl1 ch1 cq1 Hf1 Hs1 Hm1 Hq1 Hz Hnz nc.
    assert (c :: cs <> []) as Hne by done. revert nc Hne Hfuel. generalize (c :: cs) as cs0.
    intros cs0 nc Hne Hfuel.
    destruct (copy_round s1 fl1 cf cq1 ch1 bs cs0) as (Hnc&s2&E2&Hf2&Hs2&Hm2&Ho4&Ho0); eauto.
    fold nc in Hnc, E2, Hs2, Ho4, Ho0. rewrite E2. cbn [mbind res_bind].
    destruct (IH s2 fl1 cf (cq1 + Z.of_nat nc) ch1 (bs ++ (s8 <$> take nc cs0)) (drop nc cs0))
      as (s3&cq3&fl3&ch3&k&->&Hf3&Hs3&Hm3&Ho&Hk&Hout&Hroom&_); eauto.
    { rewrite length_drop. lia. }
    rewrite length_drop in *.
    exists s3, cq3, fl3, ch3, (nc + k)%nat. rewrite drop_drop. split; [done|]. split; [done|].
    rewrite <- app_assoc, <- fmap_app, take_take_drop in Hs3. split; [done|]. split; [by eauto|].
    assert (nc <= length cs0)%nat by (subst nc; lia).
    split; [done|]. split; [lia|]. split; [intros; apply Hout; lia|]. split; [|lia].
    intros Hfit. assert (k = length cs0 - nc)%nat; [|lia]. apply Hroom.
    destruct (decide (nc < length cs0)%nat) as [Hlt|].
    - destruct (Ho0 Hlt) as [Ez En]. unfold room in *. rewrite Ez. cbn [Z.eqb].
      destruct (Z.eqb_spec (off cq1) 0); [done|]. unfold CBSIZE, CBLOCK in *.
      destruct (Z.eqb_spec (off cq) 0) as [E|E]; [destruct (Hz E); lia|].
      destruct (Hnz E) as [-> ->]. lia.
    - unfold room, CBSIZE, CBLOCK. case_if; [lia|]. pose proof (Z.mod_pos_bound (cq1 + Z.of_nat nc) 32).
      rewrite off_mod. lia. }
  destruct (Z.eqb_spec (off cq) 0) as [E0|E0].
  - pose proof (next_block_local s fl _ _ _ _ Hf Hs Hnd E0) as Hblk. destruct fl as [|y fl].
    { rewrite Hblk. cbn [mbind res_bind]. exists s, cq, [], ch, 0%nat. simpl. rewrite app_nil_r.
      split; [done|]. split_and!; try done; intros; first [done|lia|congruence
        |unfold room in *; rewrite E0 in *; simpl in *; lia]. }
    destruct Hblk as (s1&->&Hf1&Hs1&Hm1). cbn [mbind res_bind].
    assert (off (info y) = 4) as Ho.
    { destruct Hf as ((_&blk&Hy&_)&_&Hw). destruct (Hw _ _ Hy) as (_&?&_).
      rewrite (in_block_off y); [unfold info; lia|]. by apply in_block_info. }
    destruct (Hround s1 fl (ch ++ [y]) (info y)) as (s'&cq'&fl'&ch'&k&->&?&?&?&?&?&?&?&?);
      eauto; [by rewrite Ho|done|].
    exists s', cq', fl', ch', k. split_and!; done.
  - cbn [mbind res_bind]. destruct (Hround s fl ch cq) as (s'&cq'&fl'&ch'&k&->&?&?&?&?&?&?&?&?); eauto; [done|].
    exists s', cq', fl', ch', k. split_and!; done.
Qed.

Lemma b_to_q_local s fl q ch bs cs :
  frep s fl -> qrep (blocks s) q ch bs -> NoDup (fl ++ ch) ->
  exists s' q' fl' ch' k, b_to_q s cs q = Ok (s', q', drop k cs) /\ frep s' fl' /\
    qrep (blocks s') q' ch' (bs ++ (s8 <$> take k cs)) /\ moved s fl ch s' fl' ch' /\
    (k <= length cs)%nat /\ ((k < length cs)%nat -> fl' = []) /\
    (Z.of_nat (length cs) <= CBSIZE * Z.of_nat (length fl) -> k = length cs).
Proof.
  intros Hf Hq Hnd. pose proof (proj1 Hq) as Hlen. pose proof Hf as (_&_&Hw). unfold b_to_q.
  destruct cs as [|c cs].
  { exists s, q, fl, ch, 0%nat. simpl. rewrite app_nil_r. split_and!; try done; intros; lia. }
  destruct bs as [|b bs].
  - destruct Hq as [Hq0 (Hcf&Hcl&->)]. rewrite Hcl. cbn [Z.eqb orb].
    pose proof Hnd as Hnd1. rewrite app_nil_r in Hnd1.
    pose proof (first_block_local s fl Hf Hnd1) as Hblk. destruct fl as [|y fl].
    { rewrite Hblk. cbn [mbind res_bind]. exists s, q, [], [], 0%nat. simpl.
      split; [by rewrite <- Hcl; destruct q|]. split_and!; try done; intros; try lia. }
    destruct Hblk as (s1&->&Hf1&Hs1&Hm1). cbn [mbind res_bind].
    destruct (b_to_q_loop_local (S (length (c :: cs))) s1 fl (info y) (info y) [y] [] (c :: cs))
      as (s2&cq&fl2&ch2&k&->&Hf2&Hs2&Hm2&Ho&Hk&Hout&Hroom&Hpos); eauto.
    cbn [mbind res_bind]. exists s2. eexists. exists fl2, ch2, k. split; [done|]. split; [done|].
    assert (0 < k)%nat.
    { apply Hpos; [|done]. destruct (segment_next _ _ _ _ _ Hs1) as (x&?&?&Hi).
      rewrite (in_block_off _ _ Hi). destruct Hi. lia. }
    split; [|split; [by eauto|split; [done|split; [done|]]]].
    + apply segment_qrep; [done|done| |].
      * rewrite Hq0, length_app, length_fmap, length_take, length_drop. simpl in *. lia.
      * destruct k; [lia|done].
    + intros Hfit. apply Hroom. unfold room, CBSIZE, CBLOCK in *.
      destruct (segment_next _ _ _ _ _ Hs1) as (x&?&?&Hi). simplify_eq.
      rewrite (in_block_off _ _ Hi). unfold info. simpl in *. case_if; lia.
  - destruct (qrep_nonempty _ _ _ _ Hq) as (_&Hseg&Hoff); [simpl in Hlen; lia|].
    pose proof (segment_cl_pos _ _ _ _ _ Hw Hseg).
    destruct (Z.eqb_spec (c_cl q) 0); [lia|]. destruct (Z.ltb_spec (c_cc q) 0); [lia|]. cbn [orb].
    destruct (b_to_q_loop_local (S (length (c :: cs))) s fl (c_cf q) (c_cl q) ch (b :: bs) (c :: cs))
      as (s2&cq&fl2&ch2&k&->&Hf2&Hs2&Hm2&Ho&Hk&Hout&Hroom&Hpos); eauto.
    cbn [mbind res_bind]. exists s2. eexists. exists fl2, ch2, k. split; [done|]. split; [done|].
    split; [|split; [done|split; [done|split; [done|]]]].
    + apply segment_qrep; [done|done| |done].
      rewrite Hlen, length_app, length_fmap, length_take, length_drop. simpl in *. lia.
    + intros Hfit. apply Hroom. pose proof (Z.mod_pos_bound (c_cl q) 32). unfold room, CBLOCK.
      rewrite off_mod. case_if; lia.
Qed.

(** ** unputc *)

Lemma path_head b cf x l cf' bs : path b cf (x :: l) cf' bs -> in_block x cf.
Proof. by intros (?&?&?&_). Qed.

Lemma path_length_pos b cf l cf' bs :
  blocks_wf b -> path b cf l cf' bs -> l <> [] -> bs <> [].
Proof.
  intros Hw Hp Hl. destruct l as [|x l]; [done|].
  destruct Hp as (blk&bs'&[_ Hi]&Hx&_&->&_). destruct (Hw _ _ Hx) as (_&_&Hlen).
  intros [E%(f_equal length) _]%app_eq_nil. rewrite length_drop, Hlen in E. unfold idx in E. simpl in E. lia.
Qed.

Lemma find_prev_spec s x y cf bs l : forall z fuel,
  path (blocks s) cf (l ++ [y]) (info x) bs -> NoDup ((l ++ [y]) ++ [x]) ->
  in_block z cf -> (length l < fuel)%nat ->
  find_prev fuel s z x = Ok y.
Proof.
  revert cf bs. induction l as [|a l IH]; intros cf bs z [|fuel] Hp Hnd Hz Hf; simpl in Hf; try lia.
  - destruct Hp as (blk&bs'&Hy&Hby&_&_&Hp). destruct Hp as [E _]. unfold info in E.
    rewrite (in_block_inj z y cf) by done. cbn [find_prev]. unfold get_next, get_block. rewrite Hby.
    cbn [mbind res_bind]. by destruct (Z.eqb_spec (c_next blk) x); [|lia].
  - destruct Hp as (blk&bs'&Ha&Hba&Hn&_&Hp).
    rewrite (in_block_inj z a cf) by done. cbn [find_prev]. unfold get_next, get_block. rewrite Hba.
    cbn [mbind res_bind]. simpl in Hnd. apply NoDup_cons in Hnd as [_ Hnd].
    assert (in_block (c_next blk) (info (c_next blk))) as Hi by (by apply in_block_info).
    destruct (Z.eqb_spec (c_next blk) x) as [E1|_]; [exfalso; rewrite E1 in *|by eapply IH; [done..|lia]].
    apply NoDup_app in Hnd as (_&Hd&_). apply (Hd x); [|set_solver].
    destruct (l ++ [y]) as [|w l'] eqn:E; [by destruct l|]. apply path_head in Hp.
    rewrite (in_block_inj x w (info x)) by done. apply list_elem_of_here.
Qed.

Lemma nodup_size (b : gmap Z cblock) l :
  NoDup l -> (forall x, x ∈ l -> is_Some (b !! x)) -> (length l <= size b)%nat.
Proof.
  intros Hnd Hl. rewrite <- size_dom, <- (size_list_to_set (C := gset Z) l Hnd).
  apply subseteq_size. intros x Hx%elem_of_list_to_set. by apply elem_of_dom, Hl.
Qed.

Lemma path_blocks b cf l cf' bs x : path b cf l cf' bs -> x ∈ l -> is_Some (b !! x).
Proof.
  revert cf bs. induction l as [|a l IH]; intros cf bs; simpl; [set_solver|].
  intros (blk&bs'&_&Ha&_&_&Hp) [->|Hx]%elem_of_cons; [by eexists|by eapply IH].
Qed.

Lemma take_snoc_drop {A} (l : list A) n c l' :
  take (S n) l = l' ++ [c] -> (n < length l)%nat -> l' = take n l /\ l !! n = Some c.
Proof.
  intros E Hn. destruct (lookup_lt_is_Some_2 l n Hn) as [d Hd].
  rewrite (take_S_r _ _ d Hd) in E. apply snoc_inv in E as [<- <-]. done.
Qed.

(** The last character of a segment and the segment before it. *)
Lemma segment_snoc b cf cl ch bs c :
  blocks_wf b -> segment b cf cl ch (bs ++ [c]) -> off cl <> 4 ->
  exists l x cf' blk bs1, ch = l ++ [x] /\ path b cf l cf' bs1 /\ in_block x cf' /\
    cf' < cl <= x + 32 /\ b !! x = Some blk /\ c_next blk = 0 /\
    bs = bs1 ++ take (Z.to_nat (cl - 1 - cf')) (drop (idx x cf') (c_info blk)) /\
    c_info blk !! idx x (cl - 1) = Some c.
Proof.
  intros Hw Hs Hoff. destruct (segment_last _ _ _ _ _ Hs Hoff) as (l0&x0&E0&Hi0); [by destruct bs|].
  destruct Hs as (l&x&cf'&blk&bs1&->&Hp&Hi&Hcl&Hx&Hn&E). apply snoc_inv in E0 as [<- <-].
  exists l, x, cf', blk, bs1. destruct (Hw _ _ Hx) as (_&_&Hlen). destruct Hi as [Hal Hi].
  assert (cf' <> cl).
  { intros ->. destruct (path_end _ _ _ _ _ Hp) as [[-> ->]|(z&Hz&->)].
    - destruct Hp as [_ ->]. rewrite Z.sub_diag in E. by destruct bs.
    - apply Hoff. rewrite (in_block_off z) by (by apply in_block_info). unfold info. lia. }
  assert (Z.to_nat (cl - cf') = S (Z.to_nat (cl - 1 - cf'))) as Es by lia.
  set (n := Z.to_nat (cl - 1 - cf')) in *. rewrite Es in E.
  assert (n < length (drop (idx x cf') (c_info blk)))%nat as Hlt.
  { rewrite length_drop, Hlen. unfold idx. lia. }
  destruct (lookup_lt_is_Some_2 _ _ Hlt) as [d Hd].
  rewrite (take_S_r _ _ d Hd), app_assoc in E. apply snoc_inv in E as [-> ->].
  rewrite lookup_drop in Hd. replace (idx x cf' + n)%nat with (idx x (cl - 1)) in Hd by (unfold idx; lia).
  split_and!; try done; lia.
Qed.

Lemma unputc_local s fl p ch bs c :
  frep s fl -> qrep (blocks s) p ch (bs ++ [c]) -> NoDup (fl ++ ch) ->
  exists s' p', unputc s p = Ok (s', p', c) /\ local s fl ch s' p' bs.
Proof.
  intros Hf Hq Hnd. pose proof (proj1 Hq) as Hlen. rewrite length_app in Hlen. simpl in Hlen.
  pose proof Hf as (_&_&Hw).
  destruct (qrep_nonempty _ _ _ _ Hq) as (_&Hseg&Hoff); [lia|].
  destruct (segment_snoc _ _ _ _ _ _ Hw Hseg Hoff) as (l&x&cf'&blk&bs1&->&Hp&Hi&Hcl&Hx&Hn&->&Hc).
  destruct (Hw _ _ Hx) as (Hx0&Hal&Hlb). pose proof Hi as [_ Hr].
  assert (in_block x (c_cl p - 1)) as Hi1 by (split; [done|lia]).
  unfold unputc. destruct (Z.leb_spec (c_cc p) 0); [lia|].
  rewrite (ldc_in s x blk) by done. unfold rd. rewrite Hc. cbn [mbind res_bind].
  rewrite (in_block_off x (c_cl p - 1)), (in_block_base x (c_cl p - 1)) by done.
  set (n := Z.to_nat (c_cl p - 1 - cf')) in *.
  assert (length (take n (drop (idx x cf') (c_info blk))) = n) as Eln.
  { rewrite length_take, length_drop, Hlb. unfold idx. lia. }
  destruct (Z.leb_spec (c_cc p - 1) 0) as [Hz|Hz].
  { assert (bs1 = []) as -> by (destruct bs1; [done|rewrite length_app in Hlen; simpl in Hlen; lia]).
    assert (l = []) as -> by (destruct l; [done|by destruct (path_length_pos _ _ _ _ _ Hw Hp)]).
    destruct (push_free_spec s fl x blk) as (s1&->&Hf1&Hb1); [done..|by eapply nodup_notin|].
    cbn [mbind res_bind]. eexists _, _. split; [done|]. exists (x :: fl), []. split; [done|].
    assert (n = 0)%nat as -> by (rewrite length_app in Hlen; simpl in Hlen; lia).
    split; [|by eapply moved_push]. split; simpl; [simpl in Hlen; lia|done]. }
  destruct (Z.eqb_spec (c_cl p - 1 - x) 4) as [E4|E4]; last first.
  { eexists _, _. split; [done|]. exists fl, (l ++ [x]). split; [done|]. split; [|done].
    apply segment_qrep; [|rewrite (in_block_off x) by done; lia|rewrite Hlen; lia|].
    - exists l, x, cf', blk, bs1. split_and!; try done; lia.
    - intros E%(f_equal length). rewrite E in Hlen. simpl in Hlen. lia. }
  assert (n = 0)%nat as En by lia. rewrite En in *. cbn [take] in *. rewrite app_nil_r in *.
  destruct l as [|y l _] using rev_ind.
  { destruct Hp as [_ ->]. simpl in Hlen. lia. }
  destruct (path_end _ _ _ _ _ Hp) as [[E _]|(z&Hz1&E)]; [by destruct l|].
  assert (z = x) as ->.
  { subst cf'. apply (in_block_inj z x (info z)); [by apply in_block_info|done]. }
  assert (NoDup ((l ++ [y]) ++ [x])) as Hndl by (by apply NoDup_app in Hnd as (_&_&?)).
  destruct (segment_next _ _ _ _ _ Hseg) as (w&?&_&Hw1).
  rewrite (in_block_base w (c_cf p)) by done. subst cf'.
  rewrite (find_prev_spec s x y (c_cf p) bs1 l); try done; last first.
  { assert (length ((l ++ [y]) ++ [x]) <= size (blocks s))%nat as Hsz.
    { apply nodup_size; [done|]. intros a [Ha|Ha]%elem_of_app; [by eapply path_blocks|].
      apply list_elem_of_singleton in Ha as ->. by eexists. }
    rewrite !length_app in Hsz. simpl in Hsz. lia. }
  cbn [mbind res_bind]. apply path_app in Hp as (cy&bs2&bs3&Hp1&Hp2&->).
  destruct Hp2 as (blky&bs4&Hiy&Hby&Hny&->&Ex&->). unfold info in Ex.
  rewrite app_nil_r in *.
  assert (c_next blky = x) as Ey by lia. assert (x <> y) as Hxy.
  { apply NoDup_app in Hndl as (_&Hd&_). intros ->. eapply Hd; [|apply list_elem_of_here]. set_solver. }
  unfold get_next, get_block. rewrite Hby. cbn [mbind res_bind]. rewrite Ey.
  assert (x ∉ fl) as Hxf.
  { apply NoDup_app in Hnd as (_&Hd&_). intros Hin. eapply Hd; [done|]. set_solver. }
  assert (y ∉ fl) as Hyf.
  { apply NoDup_app in Hnd as (_&Hd&_). intros Hin. eapply Hd; [done|]. set_solver. }
  destruct (push_free_spec s fl x blk Hf Hx Hxf) as (s1&->&Hf1&Hb1). cbn [mbind res_bind].
  rewrite (set_next_eq s1 y blky) by (by rewrite Hb1, lookup_insert_ne). cbn [mbind res_bind].
  eexists _, _. split; [done|]. exists (x :: fl), (l ++ [y]).
  destruct (Hw _ _ Hby) as (Hy0&Haly&Hlby).
  split; [|split].
  - destruct Hf1 as (Hfc&Hcc&Hw1'). split; [|split; [done|]].
    + apply (fchain_frame (blocks s1)); [|done]. intros z Hz'. simpl. rewrite lookup_insert_ne; [done|set_solver].
    + eapply blocks_wf_insert; [done|by rewrite Hb1, lookup_insert_ne|done].
  - apply segment_qrep; [| |simpl; lia|].
    + exists l, y, cy. eexists _, bs2. split; [done|]. split.
      { eapply path_frame; [|done]. intros z Hz'. simpl. rewrite Hb1.
        apply NoDup_app in Hndl as (Hn1&Hd&_). apply NoDup_app in Hn1 as (_&Hd1&_).
        assert (z <> y) by (intros ->; eapply Hd1; [done|apply list_elem_of_here]).
        assert (z <> x) by (intros ->; apply (Hd x); [set_solver|apply list_elem_of_here]).
        by rewrite !lookup_insert_ne. }
      split; [done|]. destruct Hiy as [_ Hiy]. unfold CBLOCK. split; [lia|]. simpl. rewrite lookup_insert_eq.
      split; [done|]. split; [done|]. simpl. f_equal. rewrite take_ge; [done|].
      rewrite length_drop, Hlby. unfold idx. lia.
    + unfold CBLOCK. rewrite off_end by done. done.
    + intros E%(f_equal length). rewrite E in Hlen. simpl in Hlen. lia.
  - split.
    + rewrite (app_assoc fl (l ++ [y])), (Permutation_app_comm _ [x]). simpl. done.
    + intros z Hz'. simpl. rewrite Hb1. rewrite !lookup_insert_ne; [done|set_solver..].
Qed.

(** ** All queues together *)

Definition is_char (c : Z) : Prop := -128 <= c < 128.

(** The queues [qs] with their contents, and [n] free blocks: the chains and
    the free list share no block, and every block belongs to one of them. *)
Definition crep (s : cstate) (n : nat) (qs : list (clist * list Z)) : Prop :=
  exists fl chs, frep s fl /\ length fl = n /\
    Forall2 (fun q ch => qrep (blocks s) q.1 ch q.2 /\ Forall is_char q.2) qs chs /\
    NoDup (fl ++ concat chs) /\
    (forall x, is_Some (blocks s !! x) -> x ∈ fl ++ concat chs).

Lemma frep_blocks s fl x : frep s fl -> x ∈ fl -> is_Some (blocks s !! x).
Proof.
  intros (Hf&_). revert Hf. generalize (cfreelist s). induction fl as [|y fl IH]; intros p; simpl; [set_solver|].
  intros (->&blk&Hy&Hf) [->|Hx]%elem_of_cons; [by eexists|by eapply IH].
Qed.

Lemma perm_focus (fl ch : list Z) chs1 chs2 :
  fl ++ concat (chs1 ++ ch :: chs2) ≡ₚ (fl ++ ch) ++ concat (chs1 ++ chs2).
Proof. rewrite !concat_app. simpl. solve_Permutation. Qed.

(** The frame rule: an operation on one queue, specified from the blocks it
    owns, is an operation on all of them. *)
Lemma crep_focus s n qs i q bs :
  crep s n qs -> qs !! i = Some (q, bs) ->
  exists fl ch, frep s fl /\ length fl = n /\ qrep (blocks s) q ch bs /\ Forall is_char bs /\
    NoDup (fl ++ ch) /\
    forall s' fl' ch' q' bs', frep s' fl' -> qrep (blocks s') q' ch' bs' -> Forall is_char bs' ->
      moved s fl ch s' fl' ch' -> crep s' (length fl') (<[i := (q', bs')]> qs).
Proof.
  intros (fl&chs&Hf&<-&Hqs&Hnd&Hall) Hi.
  destruct (Forall2_lookup_l _ _ _ _ _ Hqs Hi) as (ch&Hch&[Hq Hc]). simpl in Hq, Hc.
  pose proof (take_drop_middle _ _ _ Hch) as Echs. pose proof (lookup_lt_Some _ _ _ Hch) as Hlt.
  rewrite <- Echs in Hnd, Hall. rewrite perm_focus in Hnd.
  exists fl, ch. split_and!; try done; [by apply NoDup_app in Hnd as (?&_)|].
  intros s' fl' ch' q' bs' Hf' Hq' Hc' [Hperm Hfr].
  exists fl', (<[i := ch']> chs). rewrite (insert_take_drop chs) by done.
  assert (forall x, x ∈ concat (take i chs ++ drop (S i) chs) -> blocks s' !! x = blocks s !! x) as Hout.
  { intros x Hx. apply Hfr. apply NoDup_app in Hnd as (_&Hd&_). intros Hin. by apply (Hd x). }
  split_and!; try done.
  - rewrite <- insert_take_drop by done. apply Forall2_lookup. intros j.
    rewrite Forall2_lookup in Hqs. specialize (Hqs j).
    destruct (decide (i = j)) as [<-|Hij].
    + rewrite !list_lookup_insert_eq; [|done|by eapply lookup_lt_Some]. by constructor.
    + rewrite !list_lookup_insert_ne by done.
      destruct (chs !! j) as [b|] eqn:Eb; inversion Hqs as [a ? [Ha Hb]|]; subst; constructor.
      split; [|done]. eapply qrep_frame; [|done]. intros x Hx. apply Hout.
      eapply elem_of_concat_2; [done|]. by eapply elem_of_drop_take.
  - by rewrite perm_focus, Hperm.
  - intros x Hx. rewrite perm_focus, Hperm, <- perm_focus.
    destruct (decide (x ∈ fl ++ ch)); [rewrite perm_focus; set_solver|]. apply Hall. by rewrite <- Hfr.
Qed.

Lemma s8_char c : is_char (s8 c).
Proof. apply s8_bound. Qed.
Lemma s8_chars cs : Forall is_char (s8 <$> cs).
Proof. apply Forall_fmap, Forall_true. intros c. apply s8_char. Qed.
Lemma s8_id cs : Forall is_char cs -> s8 <$> cs = cs.
Proof. induction 1 as [|c cs Hc _ IH]; [done|]. rewrite fmap_cons, IH, s8_small; done. Qed.
#[local] Hint Resolve s8_char s8_chars Forall_app_2 Forall_take Forall_drop : core.

Lemma getc_crep s n qs i p bs :
  crep s n qs -> qs !! i = Some (p, bs) ->
  exists s' p' n', getc s p = Ok (s', p', match bs with [] => -1 | c :: _ => u8 c end) /\
    crep s' n' (<[i := (p', tail bs)]> qs).
Proof.
  intros Hs Hi. destruct (crep_focus _ _ _ _ _ _ Hs Hi) as (fl&ch&Hf&Hn&Hq&Hc&Hnd&K).
  destruct bs as [|c bs].
  - unfold getc. destruct Hq as [Hcc (?&?&->)]. rewrite Hcc. simpl. eexists _, _, _. split; [done|].
    by eapply K.
  - destruct (getc_local s fl p ch c bs Hf Hq Hnd) as (s'&p'&->&fl'&ch'&?&?&?).
    eexists _, _, _. split; [done|]. eapply K; try done. by apply Forall_cons_1 in Hc as [_ ?].
Qed.

Lemma putc_crep s n qs i p bs c :
  crep s n qs -> qs !! i = Some (p, bs) ->
  exists s' p' r n', putc s c p = Ok (s', p', r) /\
    ((r = 0 /\ crep s' n' (<[i := (p', bs ++ [s8 c])]> qs)) \/
     (r = -1 /\ n = 0%nat /\ s' = s /\ p' = p)).
Proof.
  intros Hs Hi. destruct (crep_focus _ _ _ _ _ _ Hs Hi) as (fl&ch&Hf&Hn&Hq&Hc&Hnd&K).
  destruct (putc_local s fl p ch bs c Hf Hq Hnd) as (s'&p'&r&->&[(->&fl'&ch'&?&?&?)|(->&->&->&->)]).
  - eexists _, _, _, _. split; [done|]. left. split; [done|]. eapply K; eauto.
  - exists s, p, (-1), n. split; [done|]. by right.
Qed.

Lemma q_to_b_crep s n qs i q bs cc :
  crep s n qs -> qs !! i = Some (q, bs) -> 0 <= cc ->
  exists s' q' n', q_to_b s q cc = Ok (s', q', take (Z.to_nat cc) bs) /\
    crep s' n' (<[i := (q', drop (Z.to_nat cc) bs)]> qs) /\
    28 * Z.of_nat n + Z.min cc (Z.of_nat (length bs)) <=
    28 * Z.of_nat n' + (if decide (drop (Z.to_nat cc) bs = []) then 0 else 27).
Proof.
  intros Hs Hi Hcc. destruct (crep_focus _ _ _ _ _ _ Hs Hi) as (fl&ch&Hf&<-&Hq&Hc&Hnd&K).
  destruct (q_to_b_local s fl q ch bs cc Hf Hq Hnd Hcc) as (s'&q'&fl'&ch'&->&?&?&?&?).
  eexists _, _, _. split; [done|]. split; [eapply K; eauto|done].
Qed.

Lemma b_to_q_crep s n qs i q bs cs :
  crep s n qs -> qs !! i = Some (q, bs) ->
  exists s' q' n' k, b_to_q s cs q = Ok (s', q', drop k cs) /\
    crep s' n' (<[i := (q', bs ++ (s8 <$> take k cs))]> qs) /\
    (k <= length cs)%nat /\ ((k < length cs)%nat -> n' = 0%nat) /\
    (Z.of_nat (length cs) <= 28 * Z.of_nat n -> k = length cs).
Proof.
  intros Hs Hi. destruct (crep_focus _ _ _ _ _ _ Hs Hi) as (fl&ch&Hf&<-&Hq&Hc&Hnd&K).
  destruct (b_to_q_local s fl q ch bs cs Hf Hq Hnd) as (s'&q'&fl'&ch'&k&->&?&?&?&?&Hout&?).
  eexists _, _, _, k. split; [done|]. split; [eapply K; eauto|].
  split; [done|]. split; [|done]. intros Hk. by rewrite Hout.
Qed.

Lemma unputc_crep s n qs i p bs :
  crep s n qs -> qs !! i = Some (p, bs) ->
  exists s' p' n', unputc s p = Ok (s', p', List.last bs (-1)) /\
    crep s' n' (<[i := (p', removelast bs)]> qs).
Proof.
  intros Hs Hi. destruct (crep_focus _ _ _ _ _ _ Hs Hi) as (fl&ch&Hf&Hn&Hq&Hc&Hnd&K).
  destruct bs as [|c bs _] using rev_ind.
  - unfold unputc. destruct Hq as [Hcc (?&?&->)]. rewrite Hcc. simpl. eexists _, _, _. split; [done|].
    by eapply K.
  - rewrite last_last, removelast_last.
    destruct (unputc_local s fl p ch bs c Hf Hq Hnd) as (s'&p'&->&fl'&ch'&?&?&?).
    eexists _, _, _. split; [done|]. eapply K; try done. by apply Forall_app in Hc as [? _].
Qed.

Lemma ndflush_crep s n qs i q bs cc :
  crep s n qs -> qs !! i = Some (q, bs) ->
  exists s' q' n', ndflush s q cc = Ok (s', q') /\
    crep s' n' (<[i := (q', drop (Z.to_nat cc) bs)]> qs).
Proof.
  intros Hs Hi. destruct (crep_focus _ _ _ _ _ _ Hs Hi) as (fl&ch&Hf&<-&Hq&Hc&Hnd&K).
  destruct (ndflush_local s fl q ch bs cc Hf Hq Hnd) as (s'&q'&->&fl'&ch'&?&?&?).
  eexists _, _, _. split; [done|]. eapply K; eauto.
Qed.

Lemma crep_chars s n qs i q bs : crep s n qs -> qs !! i = Some (q, bs) -> Forall is_char bs.
Proof. intros Hs Hi. by destruct (crep_focus _ _ _ _ _ _ Hs Hi) as (?&?&_&_&_&?&_). Qed.

Lemma crep_count s n qs i q bs :
  crep s n qs -> qs !! i = Some (q, bs) -> c_cc q = Z.of_nat (length bs).
Proof. intros Hs Hi. by destruct (crep_focus _ _ _ _ _ _ Hs Hi) as (?&?&_&_&[? _]&_). Qed.

Lemma crep_empty s n qs i q :
  crep s n qs -> qs !! i = Some (q, []) -> q = Clist 0 0 0.
Proof.
  intros Hs Hi. destruct (crep_focus _ _ _ _ _ _ Hs Hi) as (?&?&_&_&[Hc (?&?&_)]&_).
  destruct q; simpl in *; subst. done.
Qed.

(** Moving characters between two queues never runs out of blocks: what
    q_to_b moves out of the first frees at least the blocks b_to_q needs. *)
Lemma catq_loop_crep fuel : forall s n qs i j from to bf bt,
  crep s n qs -> i <> j -> qs !! i = Some (from, bf) -> qs !! j = Some (to, bt) ->
  (length bf < fuel)%nat ->
  exists s' from' to' n', catq_loop fuel s from to = Ok (s', from', to') /\
    crep s' n' (<[i := (from', [])]> (<[j := (to', bt ++ bf)]> qs)).
Proof.
  induction fuel as [|fuel IH]; intros s n qs i j from to bf bt Hs Hij Hi Hj Hfuel; [lia|].
  cbn [catq_loop]. rewrite (crep_count _ _ _ _ _ _ Hs Hi).
  destruct (Z.ltb_spec 0 (Z.of_nat (length bf))) as [Hpos|Hpos]; last first.
  { destruct bf; [|simpl in Hpos; lia]. eexists _, _, _, _. split; [done|].
    rewrite app_nil_r, (list_insert_id qs j), (list_insert_id qs i) by done. done. }
  destruct (q_to_b_crep s n qs i from bf (CBSIZE * 4) Hs Hi) as (s1&f1&n1&->&Hs1&Hn1); [done|].
  cbn [mbind res_bind]. set (bb := take (Z.to_nat (CBSIZE * 4)) bf) in *.
  set (br := drop (Z.to_nat (CBSIZE * 4)) bf) in *.
  assert (length bb = Nat.min 112 (length bf)) as Elb by (subst bb; by rewrite length_take).
  assert (length br = length bf - 112)%nat as Elr by (subst br; by rewrite length_drop).
  destruct (b_to_q_crep s1 n1 _ j to bt bb Hs1) as (s2&t2&n2&k&->&Hs2&_&_&Hk).
  { by rewrite list_lookup_insert_ne. }
  rewrite take_ge in Hs2; last first.
  { rewrite Hk; [lia|]. unfold CBSIZE, CBLOCK in Hn1.
    destruct (decide (br = [])) as [E|E]; [lia|].
    assert (0 < length br)%nat by (destruct br; simpl; [done|lia]). lia. }
  rewrite s8_id in Hs2 by (apply Forall_take; exact (crep_chars _ _ _ _ _ _ Hs Hi)).
  cbn [mbind res_bind].
  destruct (IH s2 n2 _ i j f1 t2 br (bt ++ bb) Hs2 Hij) as (s3&f3&t3&n3&->&Hs3).
  { rewrite list_lookup_insert_ne, list_lookup_insert_eq by (done || by eapply lookup_lt_Some). done. }
  { rewrite list_lookup_insert_eq; [done|]. rewrite length_insert. by eapply lookup_lt_Some. }
  { lia. }
  eexists _, _, _, _. split; [done|]. rewrite <- app_assoc in Hs3. unfold bb, br in Hs3.
  rewrite take_drop, (list_insert_insert_eq _ j) in Hs3.
  by rewrite (list_insert_insert_ne _ j i), (list_insert_insert_eq _ i) in Hs3.
Qed.

(** ** Looking at a queue without taking characters *)

(** The characters a driver sees when it walks a queue with nextc. *)
Fixpoint nextc_all (fuel : nat) (s : cstate) (p : clist) (cp : Z) : res (list Z) :=
  match fuel with
  | O => Fault
  | S fuel =>
      if cp =? 0 then Ok []
      else
        c ← ldc s cp;
        cp ← nextc s p cp;
        cs ← nextc_all fuel s p cp;
        Ok (c :: cs)
  end.

Lemma nextc_step s p cp ch c bs :
  blocks_wf (blocks s) -> segment (blocks s) cp (c_cl p) ch (c :: bs) -> NoDup ch ->
  off (c_cl p) <> 4 -> c_cc p <> 0 ->
  0 < cp /\ ldc s cp = Ok c /\ exists cp', nextc s p cp = Ok cp' /\
    match bs with
    | [] => cp' = 0
    | _ => exists ch', segment (blocks s) cp' (c_cl p) ch' bs /\ NoDup ch'
    end.
Proof.
  intros Hw Hs Hnd Hoff Hcc.
  destruct (segment_last _ _ _ _ _ Hs Hoff) as (l&y&El&Hy); [done|].
  destruct (segment_front _ _ _ _ _ Hw Hs) as (x&blk&ch'&->&Hi&Hx&Hcase).
  destruct (Hw _ _ Hx) as (Hx0&Hal&Hlen). pose proof Hi as [_ Hr].
  assert (idx x cp < length (c_info blk))%nat as Hlt by (unfold idx; lia).
  destruct (lookup_lt_is_Some_2 _ _ Hlt) as [d Hd].
  assert (idx x (cp + 1) = S (idx x cp)) as Eidx by (unfold idx; lia).
  split; [lia|]. rewrite (ldc_in s x blk) by done. unfold rd, nextc. rewrite Hd.
  destruct (Z.eqb_spec (c_cc p) 0); [done|].
  destruct Hcase as [(->&Hn&Hcl&E)|(Hch&Hna&bs'&E&Hs')].
  - assert (cp < c_cl p) by (destruct (decide (cp = c_cl p)) as [E1|]; [rewrite E1, Z.sub_diag in E; done|lia]).
    rewrite (drop_S _ _ _ Hd) in E.
    replace (Z.to_nat (c_cl p - cp)) with (S (Z.to_nat (c_cl p - (cp + 1)))) in E by lia.
    simpl in E. injection E as -> Eb. split; [done|].
    destruct (Z.eqb_spec (cp + 1) (c_cl p)) as [E1|E1].
    + eexists. split; [done|]. rewrite Eb, E1, Z.sub_diag. done.
    + assert (in_block x (cp + 1)) as Hi1 by (split; [done|lia]).
      rewrite (in_block_off x) by done. destruct (Z.eqb_spec (cp + 1 - x) 0); [lia|].
      eexists. split; [done|]. destruct bs as [|b bs].
      * apply (f_equal length) in Eb. rewrite length_take, length_drop, Hlen in Eb. unfold idx in Eb. simpl in Eb. lia.
      * exists [x]. split; [|done]. rewrite Eb, <- Eidx. apply segment_single; try done. lia.
  - assert (x <> y) as Hxy.
    { intros ->. destruct l as [|z l]; simplify_eq/=. apply NoDup_cons in Hnd as [Hn _]. set_solver. }
    rewrite (drop_S _ _ _ Hd) in E. simpl in E. injection E as -> ->. split; [done|].
    assert (cp + 1 <> c_cl p).
    { intros E1. apply Hxy. apply (in_block_inj x y cp); [done|]. by replace cp with (c_cl p - 1) by lia. }
    destruct (Z.eqb_spec (cp + 1) (c_cl p)); [done|].
    pose proof (segment_nonempty _ _ _ _ _ Hw Hs' Hna Hoff) as Hne'. pose proof Hnd as [_ Hnd']%NoDup_cons.
    destruct (decide (cp + 1 = x + 32)) as [E1|E1].
    + rewrite E1, off_end by done. simpl. replace (x + 32 - CBLOCK) with x by (unfold CBLOCK; lia).
      unfold get_next, get_block. rewrite Hx. simpl. eexists. split; [done|].
      rewrite drop_ge by (rewrite Hlen; unfold idx; lia). simpl. destruct bs'; [done|]. eauto.
    + assert (in_block x (cp + 1)) as Hi1 by (split; [done|lia]).
      rewrite (in_block_off x) by done. destruct (Z.eqb_spec (cp + 1 - x) 0); [lia|].
      eexists. split; [done|]. rewrite <- Eidx.
      assert (segment (blocks s) (cp + 1) (c_cl p) (x :: ch') (drop (idx x (cp + 1)) (c_info blk) ++ bs'))
        by (by apply segment_cons).
      destruct (drop (idx x (cp + 1)) (c_info blk) ++ bs') eqn:E2.
      * by apply app_eq_nil in E2 as [_ ?].
      * by exists (x :: ch').
Qed.

Lemma nextc_all_segment s p bs : forall fuel cp ch,
  blocks_wf (blocks s) -> segment (blocks s) cp (c_cl p) ch bs -> bs <> [] -> NoDup ch ->
  off (c_cl p) <> 4 -> c_cc p <> 0 -> (length bs < fuel)%nat ->
  nextc_all fuel s p cp = Ok bs.
Proof.
  induction bs as [|c bs IH]; intros [|fuel] cp ch Hw Hs Hne Hnd Hoff Hcc Hf; try done; [lia|].
  destruct (nextc_step s p cp ch c bs Hw Hs Hnd Hoff Hcc) as (Hcp&Hc&cp'&Hn&Hrest).
  cbn [nextc_all]. destruct (Z.eqb_spec cp 0); [lia|]. rewrite Hc. cbn [mbind res_bind].
  rewrite Hn. cbn [mbind res_bind]. simpl in Hf. destruct bs as [|b bs].
  - subst cp'. destruct fuel; [lia|done].
  - destruct Hrest as (ch'&?&?). rewrite (IH fuel cp' ch'); (done || lia).
Qed.

Lemma ndqb_scan_spec s flag n : forall p bs,
  copy_out s p n = Ok bs ->
  exists k, ndqb_scan s p flag n = Ok (Z.of_nat k) /\ (k <= length bs)%nat /\
    Forall (fun c => flag_on c flag = false) (take k bs) /\
    (forall c, bs !! k = Some c -> flag_on c flag = true).
Proof.
  induction n as [|n IH]; intros p bs; cbn [copy_out ndqb_scan].
  - intros [= <-]. exists 0%nat. done.
  - destruct (ldc s p) as [c| |]; try done. cbn [mbind res_bind].
    destruct (copy_out s (p + 1) n) as [cs| |] eqn:E; try done. intros [= <-].
    destruct (flag_on c flag) eqn:Ef.
    + exists 0%nat. simpl. split_and!; try done; [lia|]. by intros ? [= <-].
    + destruct (IH _ _ E) as (k&->&Hk&Ha&Hs). cbn [mbind res_bind]. exists (S k). simpl.
      split_and!; [f_equal; lia|lia|by constructor|done].
Qed.

Lemma ndqb_local s fl q ch bs flag :
  frep s fl -> qrep (blocks s) q ch bs -> NoDup (fl ++ ch) ->
  exists m k, ndqb s q flag = Ok (Z.of_nat k) /\ (k <= m <= length bs)%nat /\
    (bs <> [] -> (0 < m)%nat /\ copy_out s (c_cf q) m = Ok (take m bs)) /\
    (flag = 0 -> k = m) /\
    (flag <> 0 -> Forall (fun c => flag_on c flag = false) (take k bs) /\
      ((k < m)%nat -> exists c, bs !! k = Some c /\ flag_on c flag = true)).
Proof.
  intros Hf Hq Hnd. unfold ndqb. pose proof (proj1 Hq) as Hlen.
  destruct bs as [|b bs].
  { rewrite Hlen. simpl. exists 0%nat, 0%nat. split_and!; try done. intros. split; [done|lia]. }
  destruct (Z.leb_spec (c_cc q) 0); [simpl in Hlen; lia|].
  destruct (qrep_nonempty _ _ _ _ Hq) as (_&Hseg&_); [lia|].
  destruct (segment_next _ _ _ _ _ Hseg) as (x&?&_&Hi). pose proof (in_block_off _ _ Hi) as Ho.
  pose proof Hi as [Hal Hr].
  assert (Z.land (c_cf q + CBSIZE) (Z.lnot CROUND) = x + 32) as ->.
  { fold (block_of (c_cf q + CBSIZE)). rewrite block_of_eq.
    unfold CBSIZE, CBLOCK. replace (c_cf q + (32 - 4)) with (x + 32 + (c_cf q - x - 4)) by lia.
    rewrite <- Zplus_mod_idemp_l, (Zplus_mod x 32), Hal. change ((0 + 32 mod 32) mod 32) with 0.
    rewrite Z.add_0_l, Z.mod_small by lia. lia. }
  set (m := if c_cc q <? x + 32 - c_cf q then c_cc q else x + 32 - c_cf q).
  assert (0 < m <= c_cc q /\ m <= 32 - (c_cf q - x)) as [Hm1 Hm2].
  { unfold m. destruct (Z.ltb_spec (c_cc q) (x + 32 - c_cf q)); lia. }
  destruct (consume s fl q ch (b :: bs) m Hf Hq Hnd) as (Hc&_); [unfold CBLOCK; lia|lia|].
  exists (Z.to_nat m). destruct (Z.eqb_spec flag 0) as [->|Hfl].
  - exists (Z.to_nat m). split_and!; try done; try lia; [f_equal; lia|]. intros _. split; [lia|done].
  - destruct (ndqb_scan_spec s flag (Z.to_nat m) (c_cf q) _ Hc) as (k&->&Hk&Ha&Hs).
    rewrite length_take in Hk. exists k. split_and!; try done; try lia.
    + intros _. split; [lia|done].
    + intros _. rewrite take_take, Nat.min_l in Ha by lia. split; [done|]. intros Hkm.
      destruct (lookup_lt_is_Some_2 (b :: bs) k) as [c Hkc]; [lia|]. exists c. split; [done|].
      apply Hs. by rewrite lookup_take_lt.
Qed.

(** ** cinit *)

(** The blocks of the zeroed array [cfree], from the first aligned address. *)
Fixpoint bases (cp : Z) (n : nat) : list Z :=
  match n with O => [] | S n => cp :: bases (cp + 32) n end.
Definition cfree_count (cfree : Z) : nat := if cfree mod 32 =? 0 then 32 else 31.
Definition cfree_blocks (cfree : Z) : gmap Z cblock :=
  list_to_map ((fun x => (x, Cblock 0 (replicate 28 0))) <$>
    bases (block_of (cfree + CROUND)) (cfree_count cfree)).
Definition cstate0 (cfree : Z) : cstate := Cstate (cfree_blocks cfree) 0 0 0 0.

Lemma lookup_const_map {A} (v : A) (l : list Z) x :
  (list_to_map ((fun x => (x, v)) <$> l) : gmap Z A) !! x = if decide (x ∈ l) then Some v else None.
Proof.
  induction l as [|y l IH]; [by rewrite decide_False by set_solver|].
  rewrite fmap_cons. cbn [list_to_map foldr]. rewrite lookup_insert.
  cbn [fst snd uncurry]. fold (list_to_map (M := gmap Z A) ((fun x => (x, v)) <$> l)). rewrite IH. repeat case_decide; subst; try done; set_solver.
Qed.

Lemma elem_of_bases x cp n : x ∈ bases cp n -> cp <= x < cp + 32 * Z.of_nat n /\ x mod 32 = cp mod 32.
Proof.
  revert cp. induction n as [|n IH]; intros cp; simpl; [set_solver|].
  intros [->|Hx%IH]%elem_of_cons; [lia|]. destruct Hx as [? ->].
  rewrite <- (Z.mod_add cp 1 32) by done. split; [lia|]. by f_equal.
Qed.
Lemma bases_NoDup cp n : NoDup (bases cp n).
Proof.
  revert cp. induction n as [|n IH]; intros cp; simpl; constructor; [|apply IH].
  intros Hx%elem_of_bases. lia.
Qed.
Lemma length_bases cp n : length (bases cp n) = n.
Proof. revert cp. induction n; intros; simpl; auto. Qed.

Lemma cinit_loop_spec n : forall fuel s fl cp last,
  frep s fl -> (forall x, x ∈ bases cp n -> is_Some (blocks s !! x) /\ x ∉ fl) ->
  cp + 32 * Z.of_nat n - 32 <= last < cp + 32 * Z.of_nat n -> (n < fuel)%nat ->
  exists s', cinit_loop fuel s cp last = Ok s' /\ frep s' (reverse (bases cp n) ++ fl) /\
    forall x, is_Some (blocks s' !! x) <-> is_Some (blocks s !! x).
Proof.
  induction n as [|n IH]; intros [|fuel] s fl cp last Hf Hb Hl Hn; try lia; cbn [cinit_loop bases].
  - destruct (Z.leb_spec cp last); [lia|]. eauto.
  - destruct (Z.leb_spec cp last); [|lia].
    destruct (Hb cp) as [[blk Hx] Hxf]; [apply list_elem_of_here|].
    destruct (push_free_spec s fl cp blk Hf Hx Hxf) as (s1&->&Hf1&Hb1). cbn [mbind res_bind].
    assert (forall x, is_Some (blocks s1 !! x) <-> is_Some (blocks s !! x)) as Hdom.
    { intros x. rewrite Hb1, lookup_insert. case_decide; [|done]. subst. rewrite Hx. split; by eexists. }
    unfold CBLOCK. destruct (IH fuel s1 (cp :: fl) (cp + 32) last Hf1) as (s2&->&Hf2&Hb2); [|lia..|].
    + intros x Hx'. destruct (Hb x) as [? ?]; [by apply list_elem_of_further|].
      split; [by apply Hdom|]. apply elem_of_bases in Hx'. apply not_elem_of_cons. split; [lia|done].
    + eexists. split; [done|]. rewrite reverse_cons, <- app_assoc. simpl. split; [done|].
      intros x. by rewrite Hb2, Hdom.
Qed.

Lemma cinit_crep cfree m :
  0 < cfree ->
  exists s, cinit (cstate0 cfree) cfree = Ok s /\
    crep s (cfree_count cfree) (replicate m (Clist 0 0 0, [])).
Proof.
  intros Hc. set (cp := block_of (cfree + CROUND)). set (n := cfree_count cfree).
  assert (cp mod 32 = 0 /\ cfree <= cp /\
    cp + 32 * Z.of_nat n - 32 <= cfree + 32 * 31 < cp + 32 * Z.of_nat n) as (Hal&Hge&Hl).
  { unfold cp, n, cfree_count, CROUND, CBLOCK. rewrite block_of_eq.
    pose proof (Z.div_mod (cfree + (32 - 1)) 32). pose proof (Z.div_mod cfree 32).
    pose proof (Z.mod_pos_bound (cfree + (32 - 1)) 32). pose proof (Z.mod_pos_bound cfree 32).
    split; [|destruct (Z.eqb_spec (cfree mod 32) 0); lia].
    replace (cfree + (32 - 1) - _) with ((cfree + (32 - 1)) / 32 * 32) by lia. apply Z.mod_mul. lia. }
  destruct (cinit_loop_spec n (S (Z.to_nat NCLIST)) (cstate0 cfree) [] cp (cfree + CBLOCK * (NCLIST - 1)))
    as (s&E&Hf&Hd).
  - split; [done|]. split; [done|]. intros x blk. simpl. unfold cfree_blocks. rewrite lookup_const_map.
    case_decide as Hx; [|done]. intros [= <-]. apply elem_of_bases in Hx as [Hx Em].
    fold cp in Hx, Em. simpl. split; [lia|]. split; [|done]. by rewrite Em.
  - intros x Hx. simpl. unfold cfree_blocks. rewrite lookup_const_map, decide_True by done.
    split; [by eexists|set_solver].
  - unfold CBLOCK, NCLIST. lia.
  - unfold n, cfree_count, NCLIST. case_if; simpl; lia.
  - exists s. split; [done|]. rewrite app_nil_r in Hf.
    exists (reverse (bases cp n)), (replicate m []). split; [done|]. rewrite length_reverse, length_bases.
    split; [done|]. assert (concat (replicate m []) = ([] : list Z)) as -> by (by induction m).
    rewrite app_nil_r. split; [|split].
    + clear. induction m; constructor; [|done]. done.
    + rewrite reverse_Permutation. apply bases_NoDup.
    + intros x Hx%Hd. simpl in Hx. unfold cfree_blocks in Hx. rewrite lookup_const_map in Hx.
      case_decide as Hin; [|by destruct Hx]. rewrite reverse_Permutation. done.
Qed.

(** ** The queues refine sequences of characters *)

Inductive qop :=
  | Getc (i : nat) | Putc (i : nat) (c : Z) | QToB (i : nat) (cc : Z) | BToQ (i : nat) (cs : list Z)
  | Unputc (i : nat) | Ndflush (i : nat) (cc : Z) | Catq (i j : nat).

(** One call on the queues of the drivers, and what it returns. *)
Definition exec (o : qop) (s : cstate) (qs : list clist) : res (cstate * list clist * list Z) :=
  match o with
  | Getc i => q ← rd qs i; '(s, q, c) ← getc s q; Ok (s, <[i := q]> qs, [c])
  | Putc i c => q ← rd qs i; '(s, q, r) ← putc s c q; Ok (s, <[i := q]> qs, [r])
  | QToB i cc => q ← rd qs i; '(s, q, cs) ← q_to_b s q cc; Ok (s, <[i := q]> qs, cs)
  | BToQ i cs => q ← rd qs i; '(s, q, r) ← b_to_q s cs q; Ok (s, <[i := q]> qs, [Z.of_nat (length r)])
  | Unputc i => q ← rd qs i; '(s, q, c) ← unputc s q; Ok (s, <[i := q]> qs, [c])
  | Ndflush i cc => q ← rd qs i; '(s, q) ← ndflush s q cc; Ok (s, <[i := q]> qs, [])
  | Catq i j =>
      from ← rd qs i; to ← rd qs j;
      '(s, from, to) ← catq s from to;
      Ok (s, <[i := from]> (<[j := to]> qs), [])
  end.

(** The same call on sequences of characters.  Only when there may be no free
    block can a character be refused. *)
Definition spec (o : qop) (bss : list (list Z)) (out : list Z) (bss' : list (list Z)) : Prop :=
  match o with
  | Getc i => exists bs, bss !! i = Some bs /\ bss' = <[i := tail bs]> bss /\
      out = [match bs with [] => -1 | c :: _ => u8 c end]
  | Putc i c => exists bs, bss !! i = Some bs /\
      ((out = [0] /\ bss' = <[i := bs ++ [s8 c]]> bss) \/ (out = [-1] /\ bss' = bss))
  | QToB i cc => exists bs, bss !! i = Some bs /\ out = take (Z.to_nat cc) bs /\
      bss' = <[i := drop (Z.to_nat cc) bs]> bss
  | BToQ i cs => exists bs k, bss !! i = Some bs /\ (k <= length cs)%nat /\
      out = [Z.of_nat (length cs - k)] /\ bss' = <[i := bs ++ (s8 <$> take k cs)]> bss
  | Unputc i => exists bs, bss !! i = Some bs /\ out = [List.last bs (-1)] /\
      bss' = <[i := removelast bs]> bss
  | Ndflush i cc => exists bs, bss !! i = Some bs /\ out = [] /\ bss' = <[i := drop (Z.to_nat cc) bs]> bss
  | Catq i j => exists bf bt, bss !! i = Some bf /\ bss !! j = Some bt /\ out = [] /\
      bss' = <[i := []]> (<[j := bt ++ bf]> bss)
  end.

Definition op_ok (m : nat) (o : qop) : Prop :=
  match o with
  | Getc i | Putc i _ | QToB i _ | BToQ i _ | Unputc i | Ndflush i _ => (i < m)%nat
  | Catq i j => (i < m)%nat /\ (j < m)%nat /\ i <> j
  end.

Fixpoint exec_all (os : list qop) (s : cstate) (qs : list clist) : res (cstate * list clist * list (list Z)) :=
  match os with
  | [] => Ok (s, qs, [])
  | o :: os =>
      '(s, qs, out) ← exec o s qs;
      '(s, qs, outs) ← exec_all os s qs;
      Ok (s, qs, out :: outs)
  end.
Fixpoint spec_all (os : list qop) (bss : list (list Z)) (outs : list (list Z)) (bss' : list (list Z)) : Prop :=
  match os, outs with
  | [], [] => bss' = bss
  | o :: os, out :: outs => exists bss1, spec o bss out bss1 /\ spec_all os bss1 outs bss'
  | _, _ => False
  end.

Lemma concat_give (l : list (list Z)) j x :
  l !! j = Some [] -> concat (<[j := x]> l) ≡ₚ x ++ concat l.
Proof.
  intros Hj. rewrite insert_take_drop by (by eapply lookup_lt_Some).
  rewrite <- (take_drop_middle _ _ _ Hj) at 3. rewrite !concat_app. simpl. solve_Permutation.
Qed.
Lemma concat_take (l : list (list Z)) i x :
  l !! i = Some x -> concat l ≡ₚ x ++ concat (<[i := []]> l).
Proof.
  intros Hi. rewrite insert_take_drop by (by eapply lookup_lt_Some).
  rewrite <- (take_drop_middle _ _ _ Hi) at 1. rewrite !concat_app. simpl. solve_Permutation.
Qed.

Lemma catq_crep s n qs i j from to bf bt :
  crep s n qs -> i <> j -> qs !! i = Some (from, bf) -> qs !! j = Some (to, bt) ->
  exists s' from' to' n', catq s from to = Ok (s', from', to') /\
    crep s' n' (<[i := (from', [])]> (<[j := (to', bt ++ bf)]> qs)).
Proof.
  intros Hs Hij Hi Hj. unfold catq. rewrite (crep_count _ _ _ _ _ _ Hs Hj).
  destruct (Z.eqb_spec (Z.of_nat (length bt)) 0) as [E|E].
  - destruct bt; [|done]. eexists _, _, _, n. split; [done|]. rewrite app_nil_l.
    rewrite <- (crep_empty _ _ _ _ _ Hs Hj). destruct Hs as (fl&chs&Hf&Hl&Hqs&Hnd&Hall).
    destruct (Forall2_lookup_l _ _ _ _ _ Hqs Hi) as (ci&Hci&Hqi).
    destruct (Forall2_lookup_l _ _ _ _ _ Hqs Hj) as (cj&Hcj&Hqj).
    assert (cj = []) as -> by (by destruct Hqj as [[_ (_&_&?)] _]).
    assert (concat (<[i := []]> (<[j := ci]> chs)) ≡ₚ concat chs) as Hp.
    { apply (Permutation_app_inv_l ci). rewrite <- (concat_give chs j ci) by done.
      rewrite <- (concat_take (<[j := ci]> chs) i ci); [done|]. by rewrite list_lookup_insert_ne. }
    exists fl, (<[i := []]> (<[j := ci]> chs)). rewrite Hp. split_and!; try done.
    + apply Forall2_insert; [by apply Forall2_insert|done].
    + intros x Hx. rewrite Hp. by apply Hall.
  - rewrite (crep_count _ _ _ _ _ _ Hs Hi).
    eapply catq_loop_crep; try done. lia.
Qed.

Lemma rd_fst (qs : list (clist * list Z)) i q bs : qs !! i = Some (q, bs) -> rd qs.*1 i = Ok q.
Proof. intros Hi. unfold rd. by rewrite list_lookup_fmap, Hi. Qed.
Lemma lookup_snd (qs : list (clist * list Z)) i q bs : qs !! i = Some (q, bs) -> qs.*2 !! i = Some bs.
Proof. intros Hi. by rewrite list_lookup_fmap, Hi. Qed.

(** Every call on well-formed queues returns, and does what the call on
    sequences of characters does. *)
Lemma exec_spec o s n qs :
  crep s n qs -> op_ok (length qs) o ->
  exists s' qs' out n', exec o s qs.*1 = Ok (s', qs'.*1, out) /\
    spec o qs.*2 out qs'.*2 /\ crep s' n' qs' /\ length qs' = length qs.
Proof.
  intros Hs Hok.
  assert (Hlk : forall i, (i < length qs)%nat -> exists q bs, qs !! i = Some (q, bs)).
  { intros i Hi. destruct (lookup_lt_is_Some_2 qs i Hi) as [[q bs] ?]. eauto. }
  destruct o as [i|i c|i cc|i cs|i|i cc|i j]; simpl in Hok;
    [destruct (Hlk i Hok) as (q&bs&Hi)..|]; cbn [exec spec]; try rewrite (rd_fst _ _ _ _ Hi); cbn [mbind res_bind].
  - destruct (getc_crep _ _ _ _ _ _ Hs Hi) as (s'&q'&n'&->&Hs'). cbn [mbind res_bind].
    exists s', (<[i := (q', tail bs)]> qs), [match bs with [] => -1 | c :: _ => u8 c end], n'.
    rewrite !list_fmap_insert, length_insert. split; [done|]. split; [|done]. exists bs. split; [by eapply lookup_snd|done].
  - destruct (putc_crep _ _ _ _ _ _ c Hs Hi) as (s'&q'&r&n'&->&[[-> Hs']|(->&_&->&->)]); cbn [mbind res_bind].
    + exists s', (<[i := (q', bs ++ [s8 c])]> qs), [0], n'. rewrite !list_fmap_insert, length_insert.
      split; [done|]. split; [|done]. exists bs. split; [by eapply lookup_snd|]. by left.
    + exists s, qs, [-1], n. rewrite list_insert_id by (by rewrite list_lookup_fmap, Hi).
      split; [done|]. split; [|done]. exists bs. split; [by eapply lookup_snd|]. by right.
  - destruct (decide (0 <= cc)) as [Hcc|Hcc].
    + destruct (q_to_b_crep _ _ _ _ _ _ cc Hs Hi Hcc) as (s'&q'&n'&->&Hs'&_). cbn [mbind res_bind].
      exists s', (<[i := (q', drop (Z.to_nat cc) bs)]> qs), (take (Z.to_nat cc) bs), n'.
      rewrite !list_fmap_insert, length_insert. split; [done|]. split; [|done]. exists bs. split; [by eapply lookup_snd|done].
    + unfold q_to_b. destruct (Z.leb_spec cc 0); [|lia]. cbn [mbind res_bind].
      replace (Z.to_nat cc) with 0%nat by lia. exists s, qs, [], n.
      rewrite list_insert_id by (by rewrite list_lookup_fmap, Hi). split; [done|]. split; [|done].
      exists bs. split; [by eapply lookup_snd|]. split; [done|].
      by rewrite list_insert_id by (by eapply lookup_snd).
  - destruct (b_to_q_crep _ _ _ _ _ _ cs Hs Hi) as (s'&q'&n'&k&->&Hs'&Hk&_). cbn [mbind res_bind].
    exists s', (<[i := (q', bs ++ (s8 <$> take k cs))]> qs), [Z.of_nat (length cs - k)], n'.
    rewrite !list_fmap_insert, length_insert, length_drop. split; [done|]. split; [|done].
    exists bs, k. split; [by eapply lookup_snd|done].
  - destruct (unputc_crep _ _ _ _ _ _ Hs Hi) as (s'&q'&n'&->&Hs'). cbn [mbind res_bind].
    exists s', (<[i := (q', removelast bs)]> qs), [List.last bs (-1)], n'.
    rewrite !list_fmap_insert, length_insert. split; [done|]. split; [|done]. exists bs. split; [by eapply lookup_snd|done].
  - destruct (ndflush_crep _ _ _ _ _ _ cc Hs Hi) as (s'&q'&n'&->&Hs'). cbn [mbind res_bind].
    exists s', (<[i := (q', drop (Z.to_nat cc) bs)]> qs), [], n'.
    rewrite !list_fmap_insert, length_insert. split; [done|]. split; [|done]. exists bs. split; [by eapply lookup_snd|done].
  - destruct Hok as (Hoi&Hoj&Hij). destruct (Hlk i Hoi) as (f&bf&Hi), (Hlk j Hoj) as (t&bt&Hj).
    rewrite (rd_fst _ _ _ _ Hi), (rd_fst _ _ _ _ Hj). cbn [mbind res_bind].
    destruct (catq_crep _ _ _ _ _ _ _ _ _ Hs Hij Hi Hj) as (s'&f'&t'&n'&->&Hs'). cbn [mbind res_bind].
    exists s', (<[i := (f', [])]> (<[j := (t', bt ++ bf)]> qs)), [], n'.
    rewrite !list_fmap_insert, !length_insert. split; [done|]. split; [|done].
    exists bf, bt. split; [by eapply lookup_snd|]. split; [by eapply lookup_snd|done].
Qed.

Lemma exec_all_spec os : forall s n qs,
  crep s n qs -> Forall (op_ok (length qs)) os ->
  exists s' qs' outs n', exec_all os s qs.*1 = Ok (s', qs'.*1, outs) /\
    spec_all os qs.*2 outs qs'.*2 /\ crep s' n' qs'.
Proof.
  induction os as [|o os IH]; intros s n qs Hs Hok.
  - exists s, qs, [], n. done.
  - apply Forall_cons_1 in Hok as [Ho Hok].
    destruct (exec_spec o s n qs Hs Ho) as (s1&qs1&out&n1&E1&Hsp1&Hs1&Hl1).
    destruct (IH s1 n1 qs1 Hs1) as (s2&qs2&outs&n2&E2&Hsp2&Hs2); [by rewrite Hl1|].
    exists s2, qs2, (out :: outs), n2. simpl. rewrite E1. simpl. rewrite E2. simpl.
    split; [done|]. split; [by exists qs1.*2|done].
Qed.

(** ** The theorems *)

(** (C1) From the state cinit leaves, any sequence of calls on any number of
    queues returns without touching memory outside the blocks, and returns
    what the same calls return on sequences of characters; the invariant
    holds at the end: no block is shared, none is lost and the free count is
    right. *)
Theorem clist_refines cfree m os :
  0 < cfree -> Forall (op_ok m) os ->
  exists s0 s qs outs n,
    cinit (cstate0 cfree) cfree = Ok s0 /\
    exec_all os s0 (replicate m (Clist 0 0 0)) = Ok (s, qs.*1, outs) /\
    spec_all os (replicate m []) outs qs.*2 /\ crep s n qs.
Proof.
  intros Hc Hos. destruct (cinit_crep cfree m Hc) as (s0&E0&Hs0).
  destruct (exec_all_spec os s0 _ _ Hs0) as (s&qs&outs&n&E&Hsp&Hs).
  { by rewrite length_replicate. }
  rewrite !fmap_replicate in *. eauto 10.
Qed.

Lemma clist_refines_witness :
  exists s0 s qs outs n,
    cinit (cstate0 1000) 1000 = Ok s0 /\
    exec_all [Putc 0 65; BToQ 1 [1; 2; 3]; Catq 0 1; Getc 1] s0 (replicate 2 (Clist 0 0 0)) = Ok (s, qs.*1, outs) /\
    spec_all [Putc 0 65; BToQ 1 [1; 2; 3]; Catq 0 1; Getc 1] (replicate 2 []) outs qs.*2 /\ crep s n qs.
Proof. apply (clist_refines 1000 2); [lia|]. repeat constructor; simpl; lia. Defined.

(** b_to_q stores characters until the blocks run out: what it does not
    take is a suffix of the buffer, left only when no block is free, and if
    the free blocks can hold the buffer all of it is stored. *)
Theorem b_to_q_spec s n qs i q bs cs :
  crep s n qs -> qs !! i = Some (q, bs) ->
  exists s' q' n' k, b_to_q s cs q = Ok (s', q', drop k cs) /\
    crep s' n' (<[i := (q', bs ++ (s8 <$> take k cs))]> qs) /\
    (k <= length cs)%nat /\ ((k < length cs)%nat -> n' = 0%nat) /\
    (Z.of_nat (length cs) <= CBSIZE * Z.of_nat n -> k = length cs).
Proof. apply b_to_q_crep. Qed.

(** A state with one block, free, and one empty queue. *)
Definition one_block : cstate := Cstate {[ 32 := Cblock 0 (replicate 28 0) ]} 32 28 0 0.
Lemma one_block_crep : crep one_block 1 [(Clist 0 0 0, [])].
Proof.
  exists [32], [[]]. split_and!; try done.
  - split; [|split; [done|]].
    + split; [done|]. eexists. split; [apply lookup_singleton_eq|done].
    + intros x blk. simpl. rewrite lookup_singleton_Some. by intros [<- <-].
  - by repeat constructor.
  - simpl. apply NoDup_singleton.
  - intros x [blk Hb]. simpl in Hb. apply lookup_singleton_Some in Hb as [<- _]. set_solver.
Qed.

Lemma b_to_q_spec_witness :
  exists s' q' n' k, b_to_q one_block [7; 8] (Clist 0 0 0) = Ok (s', q', drop k [7; 8]) /\
    crep s' n' (<[0%nat := (q', [] ++ (s8 <$> take k [7; 8]))]> [(Clist 0 0 0, [])]) /\
    (k <= 2)%nat /\ ((k < 2)%nat -> n' = 0%nat) /\ (2 <= CBSIZE * 1 -> k = 2%nat).
Proof. apply (b_to_q_spec one_block 1 [(Clist 0 0 0, [])] 0 (Clist 0 0 0) [] [7; 8] one_block_crep). done. Defined.

(** catq moves every character, although it ignores what b_to_q could
    not store: the blocks q_to_b frees always suffice. *)
Theorem catq_spec s n qs i j from to bf bt :
  crep s n qs -> i <> j -> qs !! i = Some (from, bf) -> qs !! j = Some (to, bt) ->
  exists s' from' to' n', catq s from to = Ok (s', from', to') /\
    crep s' n' (<[i := (from', [])]> (<[j := (to', bt ++ bf)]> qs)).
Proof. apply catq_crep. Qed.

Lemma one_block_crep2 : crep one_block 1 [(Clist 0 0 0, []); (Clist 0 0 0, [])].
Proof.
  destruct one_block_crep as (fl&chs&Hf&Hl&Hq&Hnd&Hall). exists fl, (chs ++ [[]]).
  rewrite concat_app, app_nil_r. split_and!; try done. 
  change [(Clist 0 0 0, []); (Clist 0 0 0, [])] with ([(Clist 0 0 0, [] : list Z)] ++ [(Clist 0 0 0, [])]).
  apply Forall2_app; [done|by repeat constructor].
Qed.
Lemma catq_spec_witness :
  exists s' from' to' n', catq one_block (Clist 0 0 0) (Clist 0 0 0) = Ok (s', from', to') /\
    crep s' n' (<[0%nat := (from', [])]> (<[1%nat := (to', [] ++ [])]> [(Clist 0 0 0, []); (Clist 0 0 0, [])])).
Proof. apply (catq_spec one_block 1 _ 0 1 _ _ [] [] one_block_crep2); done. Defined.

(** Walking a queue with nextc from its first character shows exactly
    its characters in order, and ndqb counts characters that lie side by side
    in the first block, up to the first flagged one. *)
Theorem nextc_ndqb_spec s n qs i q bs flag :
  crep s n qs -> qs !! i = Some (q, bs) ->
  nextc_all (S (length bs)) s q (c_cf q) = Ok bs /\
  exists m k, ndqb s q flag = Ok (Z.of_nat k) /\ (k <= m <= length bs)%nat /\
    (bs <> [] -> (0 < m)%nat /\ copy_out s (c_cf q) m = Ok (take m bs)) /\
    (flag = 0 -> k = m) /\
    (flag <> 0 -> Forall (fun c => flag_on c flag = false) (take k bs) /\
      ((k < m)%nat -> exists c, bs !! k = Some c /\ flag_on c flag = true)).
Proof.
  intros Hs Hi. destruct (crep_focus _ _ _ _ _ _ Hs Hi) as (fl&ch&Hf&_&Hq&_&Hnd&_). split.
  - destruct bs as [|b bs]; [destruct Hq as [_ (->&_)]; done|].
    destruct (qrep_nonempty _ _ _ _ Hq) as (?&?&?); [rewrite (proj1 Hq); simpl; lia|].
    eapply nextc_all_segment; try done; [by destruct Hf as (_&_&?)| |rewrite (proj1 Hq); simpl; lia|lia].
    by apply NoDup_app in Hnd as (_&_&?).
  - eapply ndqb_local; done.
Qed.

Lemma nextc_ndqb_spec_witness :
  nextc_all 1 one_block (Clist 0 0 0) 0 = Ok [] /\
  exists m k, ndqb one_block (Clist 0 0 0) 1 = Ok (Z.of_nat k) /\ (k <= m <= 0)%nat /\
    (([] : list Z) <> [] -> (0 < m)%nat /\ copy_out one_block 0 m = Ok (take m [])) /\
    (1 = 0 -> k = m) /\
    (1 <> 0 -> Forall (fun c => flag_on c 1 = false) (take k []) /\
      ((k < m)%nat -> exists c : Z, [] !! k = Some c /\ flag_on c 1 = true)).
Proof. apply (nextc_ndqb_spec one_block 1 [(Clist 0 0 0, [])] 0 (Clist 0 0 0) [] 1 one_block_crep). done. Defined.

End Clist.
