(* ===== verification/Proc.v ===== *)
(** The process table (sys/include/proc.h, sys/kernel/kern_proc.c) and the
    user-priority computation setpri (sys/kernel/kern_synch.c), shared by the
    clock, the scheduler, signals and the system calls on processes.

    A process pointer is an index into the table [proc], [None] is NULL. *)
From S2P Require Import Prelude.

Module Proc.

(** What the pointer p_prev points to: the head of a list or the p_nxt of an
    entry of the table. *)
Inductive prevlink := PrevAll | PrevZomb | PrevNxt (i : nat).
#[export] Instance prevlink_eq_dec : EqDecision prevlink.
Proof. solve_decision. Defined.

(** [struct proc]; [rt_interval] and [rt_value] are the two fields of
    p_realtimer.  The exit status p_xstat, which shares its storage with the
    fields of a live process, is a field of its own. *)
Record proc := MkProc {
  p_nxt : option nat;
  p_prev : prevlink;
  p_pptr : option nat;
  p_flag : Z; p_uid : Z; p_pid : Z; p_ppid : Z; p_sig : Z; p_stat : Z;
  p_pri : Z; p_cpu : Z; p_time : Z; p_nice : Z; p_slptime : Z; p_ptracesig : Z;
  p_hash : option nat;
  p_sigmask : Z; p_sigignore : Z; p_sigcatch : Z; p_pgrp : Z;
  p_link : option nat;
  p_addr : Z; p_daddr : Z; p_saddr : Z; p_dsize : Z; p_ssize : Z;
  p_wchan : Z;
  rt_interval : Z; rt_value : Z;
  p_xstat : Z }.

(** Assignments to one field, [p->f = v] is [set_f v p]. *)
Definition set_p_nxt (v : option nat) (p : proc) : proc :=
  MkProc v (p_prev p) (p_pptr p) (p_flag p) (p_uid p) (p_pid p) (p_ppid p) (p_sig p) (p_stat p) (p_pri p) (p_cpu p) (p_time p) (p_nice p) (p_slptime p) (p_ptracesig p) (p_hash p) (p_sigmask p) (p_sigignore p) (p_sigcatch p) (p_pgrp p) (p_link p) (p_addr p) (p_daddr p) (p_saddr p) (p_dsize p) (p_ssize p) (p_wchan p) (rt_interval p) (rt_value p) (p_xstat p).
Definition set_p_prev (v : prevlink) (p : proc) : proc :=
  MkProc (p_nxt p) v (p_pptr p) (p_flag p) (p_uid p) (p_pid p) (p_ppid p) (p_sig p) (p_stat p) (p_pri p) (p_cpu p) (p_time p) (p_nice p) (p_slptime p) (p_ptracesig p) (p_hash p) (p_sigmask p) (p_sigignore p) (p_sigcatch p) (p_pgrp p) (p_link p) (p_addr p) (p_daddr p) (p_saddr p) (p_dsize p) (p_ssize p) (p_wchan p) (rt_interval p) (rt_value p) (p_xstat p).
Definition set_p_pptr (v : option nat) (p : proc) : proc :=
  MkProc (p_nxt p) (p_prev p) v (p_flag p) (p_uid p) (p_pid p) (p_ppid p) (p_sig p) (p_stat p) (p_pri p) (p_cpu p) (p_time p) (p_nice p) (p_slptime p) (p_ptracesig p) (p_hash p) (p_sigmask p) (p_sigignore p) (p_sigcatch p) (p_pgrp p) (p_link p) (p_addr p) (p_daddr p) (p_saddr p) (p_dsize p) (p_ssize p) (p_wchan p) (rt_interval p) (rt_value p) (p_xstat p).
Definition set_p_flag (v : Z) (p : proc) : proc :=
  MkProc (p_nxt p) (p_prev p) (p_pptr p) v (p_uid p) (p_pid p) (p_ppid p) (p_sig p) (p_stat p) (p_pri p) (p_cpu p) (p_time p) (p_nice p) (p_slptime p) (p_ptracesig p) (p_hash p) (p_sigmask p) (p_sigignore p) (p_sigcatch p) (p_pgrp p) (p_link p) (p_addr p) (p_daddr p) (p_saddr p) (p_dsize p) (p_ssize p) (p_wchan p) (rt_interval p) (rt_value p) (p_xstat p).
Definition set_p_uid (v : Z) (p : proc) : proc :=
  MkProc (p_nxt p) (p_prev p) (p_pptr p) (p_flag p) v (p_pid p) (p_ppid p) (p_sig p) (p_stat p) (p_pri p) (p_cpu p) (p_time p) (p_nice p) (p_slptime p) (p_ptracesig p) (p_hash p) (p_sigmask p) (p_sigignore p) (p_sigcatch p) (p_pgrp p) (p_link p) (p_addr p) (p_daddr p) (p_saddr p) (p_dsize p) (p_ssize p) (p_wchan p) (rt_interval p) (rt_value p) (p_xstat p).
Definition set_p_pid (v : Z) (p : proc) : proc :=
  MkProc (p_nxt p) (p_prev p) (p_pptr p) (p_flag p) (p_uid p) v (p_ppid p) (p_sig p) (p_stat p) (p_pri p) (p_cpu p) (p_time p) (p_nice p) (p_slptime p) (p_ptracesig p) (p_hash p) (p_sigmask p) (p_sigignore p) (p_sigcatch p) (p_pgrp p) (p_link p) (p_addr p) (p_daddr p) (p_saddr p) (p_dsize p) (p_ssize p) (p_wchan p) (rt_interval p) (rt_value p) (p_xstat p).
Definition set_p_ppid (v : Z) (p : proc) : proc :=
  MkProc (p_nxt p) (p_prev p) (p_pptr p) (p_flag p) (p_uid p) (p_pid p) v (p_sig p) (p_stat p) (p_pri p) (p_cpu p) (p_time p) (p_nice p) (p_slptime p) (p_ptracesig p) (p_hash p) (p_sigmask p) (p_sigignore p) (p_sigcatch p) (p_pgrp p) (p_link p) (p_addr p) (p_daddr p) (p_saddr p) (p_dsize p) (p_ssize p) (p_wchan p) (rt_interval p) (rt_value p) (p_xstat p).
Definition set_p_sig (v : Z) (p : proc) : proc :=
  MkProc (p_nxt p) (p_prev p) (p_pptr p) (p_flag p) (p_uid p) (p_pid p) (p_ppid p) v (p_stat p) (p_pri p) (p_cpu p) (p_time p) (p_nice p) (p_slptime p) (p_ptracesig p) (p_hash p) (p_sigmask p) (p_sigignore p) (p_sigcatch p) (p_pgrp p) (p_link p) (p_addr p) (p_daddr p) (p_saddr p) (p_dsize p) (p_ssize p) (p_wchan p) (rt_interval p) (rt_value p) (p_xstat p).
Definition set_p_stat (v : Z) (p : proc) : proc :=
  MkProc (p_nxt p) (p_prev p) (p_pptr p) (p_flag p) (p_uid p) (p_pid p) (p_ppid p) (p_sig p) v (p_pri p) (p_cpu p) (p_time p) (p_nice p) (p_slptime p) (p_ptracesig p) (p_hash p) (p_sigmask p) (p_sigignore p) (p_sigcatch p) (p_pgrp p) (p_link p) (p_addr p) (p_daddr p) (p_saddr p) (p_dsize p) (p_ssize p) (p_wchan p) (rt_interval p) (rt_value p) (p_xstat p).
Definition set_p_pri (v : Z) (p : proc) : proc :=
  MkProc (p_nxt p) (p_prev p) (p_pptr p) (p_flag p) (p_uid p) (p_pid p) (p_ppid p) (p_sig p) (p_stat p) v (p_cpu p) (p_time p) (p_nice p) (p_slptime p) (p_ptracesig p) (p_hash p) (p_sigmask p) (p_sigignore p) (p_sigcatch p) (p_pgrp p) (p_link p) (p_addr p) (p_daddr p) (p_saddr p) (p_dsize p) (p_ssize p) (p_wchan p) (rt_interval p) (rt_value p) (p_xstat p).
Definition set_p_cpu (v : Z) (p : proc) : proc :=
  MkProc (p_nxt p) (p_prev p) (p_pptr p) (p_flag p) (p_uid p) (p_pid p) (p_ppid p) (p_sig p) (p_stat p) (p_pri p) v (p_time p) (p_nice p) (p_slptime p) (p_ptracesig p) (p_hash p) (p_sigmask p) (p_sigignore p) (p_sigcatch p) (p_pgrp p) (p_link p) (p_addr p) (p_daddr p) (p_saddr p) (p_dsize p) (p_ssize p) (p_wchan p) (rt_interval p) (rt_value p) (p_xstat p).
Definition set_p_time (v : Z) (p : proc) : proc :=
  MkProc (p_nxt p) (p_prev p) (p_pptr p) (p_flag p) (p_uid p) (p_pid p) (p_ppid p) (p_sig p) (p_stat p) (p_pri p) (p_cpu p) v (p_nice p) (p_slptime p) (p_ptracesig p) (p_hash p) (p_sigmask p) (p_sigignore p) (p_sigcatch p) (p_pgrp p) (p_link p) (p_addr p) (p_daddr p) (p_saddr p) (p_dsize p) (p_ssize p) (p_wchan p) (rt_interval p) (rt_value p) (p_xstat p).
Definition set_p_nice (v : Z) (p : proc) : proc :=
  MkProc (p_nxt p) (p_prev p) (p_pptr p) (p_flag p) (p_uid p) (p_pid p) (p_ppid p) (p_sig p) (p_stat p) (p_pri p) (p_cpu p) (p_time p) v (p_slptime p) (p_ptracesig p) (p_hash p) (p_sigmask p) (p_sigignore p) (p_sigcatch p) (p_pgrp p) (p_link p) (p_addr p) (p_daddr p) (p_saddr p) (p_dsize p) (p_ssize p) (p_wchan p) (rt_interval p) (rt_value p) (p_xstat p).
Definition set_p_slptime (v : Z) (p : proc) : proc :=
  MkProc (p_nxt p) (p_prev p) (p_pptr p) (p_flag p) (p_uid p) (p_pid p) (p_ppid p) (p_sig p) (p_stat p) (p_pri p) (p_cpu p) (p_time p) (p_nice p) v (p_ptracesig p) (p_hash p) (p_sigmask p) (p_sigignore p) (p_sigcatch p) (p_pgrp p) (p_link p) (p_addr p) (p_daddr p) (p_saddr p) (p_dsize p) (p_ssize p) (p_wchan p) (rt_interval p) (rt_value p) (p_xstat p).
Definition set_p_ptracesig (v : Z) (p : proc) : proc :=
  MkProc (p_nxt p) (p_prev p) (p_pptr p) (p_flag p) (p_uid p) (p_pid p) (p_ppid p) (p_sig p) (p_stat p) (p_pri p) (p_cpu p) (p_time p) (p_nice p) (p_slptime p) v (p_hash p) (p_sigmask p) (p_sigignore p) (p_sigcatch p) (p_pgrp p) (p_link p) (p_addr p) (p_daddr p) (p_saddr p) (p_dsize p) (p_ssize p) (p_wchan p) (rt_interval p) (rt_value p) (p_xstat p).
Definition set_p_hash (v : option nat) (p : proc) : proc :=
  MkProc (p_nxt p) (p_prev p) (p_pptr p) (p_flag p) (p_uid p) (p_pid p) (p_ppid p) (p_sig p) (p_stat p) (p_pri p) (p_cpu p) (p_time p) (p_nice p) (p_slptime p) (p_ptracesig p) v (p_sigmask p) (p_sigignore p) (p_sigcatch p) (p_pgrp p) (p_link p) (p_addr p) (p_daddr p) (p_saddr p) (p_dsize p) (p_ssize p) (p_wchan p) (rt_interval p) (rt_value p) (p_xstat p).
Definition set_p_sigmask (v : Z) (p : proc) : proc :=
  MkProc (p_nxt p) (p_prev p) (p_pptr p) (p_flag p) (p_uid p) (p_pid p) (p_ppid p) (p_sig p) (p_stat p) (p_pri p) (p_cpu p) (p_time p) (p_nice p) (p_slptime p) (p_ptracesig p) (p_hash p) v (p_sigignore p) (p_sigcatch p) (p_pgrp p) (p_link p) (p_addr p) (p_daddr p) (p_saddr p) (p_dsize p) (p_ssize p) (p_wchan p) (rt_interval p) (rt_value p) (p_xstat p).
Definition set_p_sigignore (v : Z) (p : proc) : proc :=
  MkProc (p_nxt p) (p_prev p) (p_pptr p) (p_flag p) (p_uid p) (p_pid p) (p_ppid p) (p_sig p) (p_stat p) (p_pri p) (p_cpu p) (p_time p) (p_nice p) (p_slptime p) (p_ptracesig p) (p_hash p) (p_sigmask p) v (p_sigcatch p) (p_pgrp p) (p_link p) (p_addr p) (p_daddr p) (p_saddr p) (p_dsize p) (p_ssize p) (p_wchan p) (rt_interval p) (rt_value p) (p_xstat p).
Definition set_p_sigcatch (v : Z) (p : proc) : proc :=
  MkProc (p_nxt p) (p_prev p) (p_pptr p) (p_flag p) (p_uid p) (p_pid p) (p_ppid p) (p_sig p) (p_stat p) (p_pri p) (p_cpu p) (p_time p) (p_nice p) (p_slptime p) (p_ptracesig p) (p_hash p) (p_sigmask p) (p_sigignore p) v (p_pgrp p) (p_link p) (p_addr p) (p_daddr p) (p_saddr p) (p_dsize p) (p_ssize p) (p_wchan p) (rt_interval p) (rt_value p) (p_xstat p).
Definition set_p_pgrp (v : Z) (p : proc) : proc :=
  MkProc (p_nxt p) (p_prev p) (p_pptr p) (p_flag p) (p_uid p) (p_pid p) (p_ppid p) (p_sig p) (p_stat p) (p_pri p) (p_cpu p) (p_time p) (p_nice p) (p_slptime p) (p_ptracesig p) (p_hash p) (p_sigmask p) (p_sigignore p) (p_sigcatch p) v (p_link p) (p_addr p) (p_daddr p) (p_saddr p) (p_dsize p) (p_ssize p) (p_wchan p) (rt_interval p) (rt_value p) (p_xstat p).
Definition set_p_link (v : option nat) (p : proc) : proc :=
  MkProc (p_nxt p) (p_prev p) (p_pptr p) (p_flag p) (p_uid p) (p_pid p) (p_ppid p) (p_sig p) (p_stat p) (p_pri p) (p_cpu p) (p_time p) (p_nice p) (p_slptime p) (p_ptracesig p) (p_hash p) (p_sigmask p) (p_sigignore p) (p_sigcatch p) (p_pgrp p) v (p_addr p) (p_daddr p) (p_saddr p) (p_dsize p) (p_ssize p) (p_wchan p) (rt_interval p) (rt_value p) (p_xstat p).
Definition set_p_addr (v : Z) (p : proc) : proc :=
  MkProc (p_nxt p) (p_prev p) (p_pptr p) (p_flag p) (p_uid p) (p_pid p) (p_ppid p) (p_sig p) (p_stat p) (p_pri p) (p_cpu p) (p_time p) (p_nice p) (p_slptime p) (p_ptracesig p) (p_hash p) (p_sigmask p) (p_sigignore p) (p_sigcatch p) (p_pgrp p) (p_link p) v (p_daddr p) (p_saddr p) (p_dsize p) (p_ssize p) (p_wchan p) (rt_interval p) (rt_value p) (p_xstat p).
Definition set_p_daddr (v : Z) (p : proc) : proc :=
  MkProc (p_nxt p) (p_prev p) (p_pptr p) (p_flag p) (p_uid p) (p_pid p) (p_ppid p) (p_sig p) (p_stat p) (p_pri p) (p_cpu p) (p_time p) (p_nice p) (p_slptime p) (p_ptracesig p) (p_hash p) (p_sigmask p) (p_sigignore p) (p_sigcatch p) (p_pgrp p) (p_link p) (p_addr p) v (p_saddr p) (p_dsize p) (p_ssize p) (p_wchan p) (rt_interval p) (rt_value p) (p_xstat p).
Definition set_p_saddr (v : Z) (p : proc) : proc :=
  MkProc (p_nxt p) (p_prev p) (p_pptr p) (p_flag p) (p_uid p) (p_pid p) (p_ppid p) (p_sig p) (p_stat p) (p_pri p) (p_cpu p) (p_time p) (p_nice p) (p_slptime p) (p_ptracesig p) (p_hash p) (p_sigmask p) (p_sigignore p) (p_sigcatch p) (p_pgrp p) (p_link p) (p_addr p) (p_daddr p) v (p_dsize p) (p_ssize p) (p_wchan p) (rt_interval p) (rt_value p) (p_xstat p).
Definition set_p_dsize (v : Z) (p : proc) : proc :=
  MkProc (p_nxt p) (p_prev p) (p_pptr p) (p_flag p) (p_uid p) (p_pid p) (p_ppid p) (p_sig p) (p_stat p) (p_pri p) (p_cpu p) (p_time p) (p_nice p) (p_slptime p) (p_ptracesig p) (p_hash p) (p_sigmask p) (p_sigignore p) (p_sigcatch p) (p_pgrp p) (p_link p) (p_addr p) (p_daddr p) (p_saddr p) v (p_ssize p) (p_wchan p) (rt_interval p) (rt_value p) (p_xstat p).
Definition set_p_ssize (v : Z) (p : proc) : proc :=
  MkProc (p_nxt p) (p_prev p) (p_pptr p) (p_flag p) (p_uid p) (p_pid p) (p_ppid p) (p_sig p) (p_stat p) (p_pri p) (p_cpu p) (p_time p) (p_nice p) (p_slptime p) (p_ptracesig p) (p_hash p) (p_sigmask p) (p_sigignore p) (p_sigcatch p) (p_pgrp p) (p_link p) (p_addr p) (p_daddr p) (p_saddr p) (p_dsize p) v (p_wchan p) (rt_interval p) (rt_value p) (p_xstat p).
Definition set_p_wchan (v : Z) (p : proc) : proc :=
  MkProc (p_nxt p) (p_prev p) (p_pptr p) (p_flag p) (p_uid p) (p_pid p) (p_ppid p) (p_sig p) (p_stat p) (p_pri p) (p_cpu p) (p_time p) (p_nice p) (p_slptime p) (p_ptracesig p) (p_hash p) (p_sigmask p) (p_sigignore p) (p_sigcatch p) (p_pgrp p) (p_link p) (p_addr p) (p_daddr p) (p_saddr p) (p_dsize p) (p_ssize p) v (rt_interval p) (rt_value p) (p_xstat p).
Definition set_rt_interval (v : Z) (p : proc) : proc :=
  MkProc (p_nxt p) (p_prev p) (p_pptr p) (p_flag p) (p_uid p) (p_pid p) (p_ppid p) (p_sig p) (p_stat p) (p_pri p) (p_cpu p) (p_time p) (p_nice p) (p_slptime p) (p_ptracesig p) (p_hash p) (p_sigmask p) (p_sigignore p) (p_sigcatch p) (p_pgrp p) (p_link p) (p_addr p) (p_daddr p) (p_saddr p) (p_dsize p) (p_ssize p) (p_wchan p) v (rt_value p) (p_xstat p).
Definition set_rt_value (v : Z) (p : proc) : proc :=
  MkProc (p_nxt p) (p_prev p) (p_pptr p) (p_flag p) (p_uid p) (p_pid p) (p_ppid p) (p_sig p) (p_stat p) (p_pri p) (p_cpu p) (p_time p) (p_nice p) (p_slptime p) (p_ptracesig p) (p_hash p) (p_sigmask p) (p_sigignore p) (p_sigcatch p) (p_pgrp p) (p_link p) (p_addr p) (p_daddr p) (p_saddr p) (p_dsize p) (p_ssize p) (p_wchan p) (rt_interval p) v (p_xstat p).
Definition set_p_xstat (v : Z) (p : proc) : proc :=
  MkProc (p_nxt p) (p_prev p) (p_pptr p) (p_flag p) (p_uid p) (p_pid p) (p_ppid p) (p_sig p) (p_stat p) (p_pri p) (p_cpu p) (p_time p) (p_nice p) (p_slptime p) (p_ptracesig p) (p_hash p) (p_sigmask p) (p_sigignore p) (p_sigcatch p) (p_pgrp p) (p_link p) (p_addr p) (p_daddr p) (p_saddr p) (p_dsize p) (p_ssize p) (p_wchan p) (rt_interval p) (rt_value p) v.

#[export] Instance proc_inhabited : Inhabited proc :=
  populate (MkProc None PrevAll None 0 0 0 0 0 0 0 0 0 0 0 0 None 0 0 0 0 None 0 0 0 0 0 0 0 0 0).

(** Process states and flags. *)
Definition SSLEEP : Z := 1.
Definition SWAIT : Z := 2.
Definition SRUN : Z := 3.
Definition SIDL : Z := 4.
Definition SZOMB : Z := 5.
Definition SSTOP : Z := 6.
Definition SLOAD : Z := 1.
Definition SSYS : Z := 2.
Definition SLOCK : Z := 4.
Definition SSWAP : Z := 8.
Definition P_TRACED : Z := 16.
Definition P_WAITED : Z := 32.
Definition P_SINTR : Z := 128.
Definition P_TIMEOUT : Z := 4096.
Definition P_NOCLDSTOP : Z := 8192.
Definition P_SELECT : Z := 16384.

Definition PZERO : Z := 25.
Definition PUSER : Z := 50.
Definition NZERO : Z := 0.
Definition NPROC : nat := 10.

(** [(pp->p_cpu & 0377)]: the usage counter is a char, read as a byte. *)
Definition cpu_byte (p : proc) : Z := Z.land (p_cpu p) 255.

(** int setpri (pp), with the scheduler variables [curpri] and [runrun]: the
    process, [runrun] and the returned priority. *)
Definition setpri (curpri runrun : Z) (pp : proc) : proc * Z * Z :=
  let p := Z.quot (cpu_byte pp) 16 in
  let p := p + (PUSER + p_nice pp) in
  let p := if 127 <? p then 127 else p in
  let runrun := if p <? curpri then runrun + 1 else runrun in
  (set_p_pri (s8 p) pp, runrun, p).

(** ** kern_proc.c *)

(** The process table with the heads of its lists and hash chains. *)
Record ptable := PTable {
  procs : list proc;
  pidhash : list (option nat);
  freeproc : option nat; allproc : option nat; zombproc : option nat }.

Definition PIDHSZ : Z := 16.
Definition PIDHASH (pid : Z) : nat := Z.to_nat (Z.land pid (PIDHSZ - 1)).

(** [for (; p; p = p->p_hash) if (p->p_pid == pid) return (p);] *)
Fixpoint pfind_loop (fuel : nat) (t : ptable) (p : option nat) (pid : Z) : res (option nat) :=
  match fuel with
  | O => Fault
  | S fuel =>
      match p with
      | None => Ok None
      | Some i =>
          q ← rd (procs t) i;
          if p_pid q =? pid then Ok (Some i) else pfind_loop fuel t (p_hash q) pid
      end
  end.
Definition pfind (t : ptable) (pid : Z) : res (option nat) :=
  h ← rd (pidhash t) (PIDHASH pid);
  pfind_loop (S (length (procs t))) t h pid.

(** [for (; p != u.u_procp; p = p->p_pptr) if (p->p_ppid == 0) return (0);] *)
Fixpoint inferior_loop (fuel : nat) (t : ptable) (cur p : nat) : res bool :=
  match fuel with
  | O => Fault
  | S fuel =>
      if (p =? cur)%nat then Ok true
      else
        q ← rd (procs t) p;
        if p_ppid q =? 0 then Ok false
        else match p_pptr q with
             | Some p' => inferior_loop fuel t cur p'
             | None => Fault
             end
  end.
Definition inferior (t : ptable) (cur p : nat) : res bool :=
  inferior_loop (S (length (procs t))) t cur p.

(** [for (p = proc+NPROC; --p > proc; freeproc = p) p->p_nxt = freeproc;] with
    [p] the index reached. *)
Fixpoint pqinit_loop (p : nat) (l : list proc) (freeproc : option nat)
    : res (list proc * option nat) :=
  match p with
  | O => Ok (l, freeproc)
  | S p' =>
      q ← rd l p;
      l ← wr l p (set_p_nxt freeproc q);
      pqinit_loop p' l (Some p)
  end.
Definition pqinit (t : ptable) : res ptable :=
  '(l, free) ← pqinit_loop (NPROC - 1) (procs t) None;
  q ← rd l 0;
  l ← wr l 0 (set_p_prev PrevAll (set_p_nxt None q));
  Ok (PTable l (pidhash t) free (Some 0%nat) None).

(** ** Lists through p_nxt and p_hash *)

(** The hash chain of every value holds the live processes with that hash,
    each once. *)
Definition hash_wf (t : ptable) (live : list nat) : Prop :=
  length (pidhash t) = Z.to_nat PIDHSZ /\ NoDup live /\
  forall h : nat, (h < 16)%nat -> exists js, chain p_hash (procs t) (pidhash t !!! h) js /\ NoDup js /\
    forall i, i ∈ js <-> i ∈ live /\ exists p, procs t !! i = Some p /\ PIDHASH (p_pid p) = h.

Lemma PIDHASH_lt pid : (PIDHASH pid < 16)%nat.
Proof.
  unfold PIDHASH, PIDHSZ. change (16 - 1) with (Z.ones 4). rewrite Z.land_ones by lia.
  pose proof (Z.mod_pos_bound pid (2 ^ 4)). change (2 ^ 4) with 16 in *. lia.
Qed.

Lemma pfind_loop_spec t pid js : forall h fuel,
  chain p_hash (procs t) h js -> (length js < fuel)%nat ->
  exists r, pfind_loop fuel t h pid = Ok r /\
    match r with
    | Some i => i ∈ js /\ exists p, procs t !! i = Some p /\ p_pid p = pid
    | None => forall i p, i ∈ js -> procs t !! i = Some p -> p_pid p <> pid
    end.
Proof.
  induction js as [|i js IH]; intros h [|fuel] Hp Hf; simpl in Hf; try lia.
  - simpl in Hp. subst h. eexists. split; [done|]. set_solver.
  - destruct Hp as (->&p&Hi&Hp). cbn [pfind_loop]. unfold rd. rewrite Hi. cbn [mbind res_bind].
    destruct (Z.eqb_spec (p_pid p) pid) as [E|E].
    + eexists. split; [done|]. split; [apply list_elem_of_here|eauto].
    + destruct (IH (p_hash p) fuel Hp) as (r&->&Hr); [lia|]. eexists. split; [done|]. destruct r as [j|].
      * destruct Hr as [? ?]. split; [by apply list_elem_of_further|done].
      * intros j q [->|Hj]%elem_of_cons Hq; [congruence|by eapply Hr].
Qed.

(** pfind finds the live process with the pid, if there is one. *)
Lemma pfind_live t live pid :
  hash_wf t live ->
  exists r, pfind t pid = Ok r /\
    match r with
    | Some i => i ∈ live /\ exists p, procs t !! i = Some p /\ p_pid p = pid
    | None => forall i p, i ∈ live -> procs t !! i = Some p -> p_pid p <> pid
    end.
Proof.
  intros (Hl&_&Hh). destruct (Hh (PIDHASH pid) (PIDHASH_lt pid)) as (js&Hp&Hnd&Hin).
  pose proof (PIDHASH_lt pid) as Hlt. unfold pfind, rd.
  destruct (lookup_lt_is_Some_2 (pidhash t) (PIDHASH pid)) as [h Hhd]; [unfold PIDHSZ in Hl; lia|].
  rewrite (list_lookup_total_correct _ _ _ Hhd) in Hp. rewrite Hhd. cbn [mbind res_bind].
  destruct (pfind_loop_spec t pid js h (S (length (procs t))) Hp) as (r&->&Hr).
  { pose proof (chain_length _ _ _ _ Hp Hnd). lia. }
  exists r. split; [done|]. destruct r as [i|].
  - destruct Hr as [Hi ?]. split; [by apply Hin|done].
  - intros i p Hi Hpi E. eapply Hr; [|done|done]. apply Hin. split; [done|]. exists p. by rewrite E.
Qed.

Lemma pqinit_loop_spec p : forall l fr,
  (p < length l)%nat ->
  exists l', pqinit_loop p l fr = Ok (l', if decide (p = 0%nat) then fr else Some 1%nat) /\
    length l' = length l /\ (forall i, (p < i)%nat -> l' !! i = l !! i) /\ l' !! 0%nat = l !! 0%nat /\
    forall js, chain p_nxt l fr js -> Forall (fun i => (p < i)%nat) js ->
      chain p_nxt l' (if decide (p = 0%nat) then fr else Some 1%nat) (seq 1 p ++ js).
Proof.
  induction p as [|p IH]; intros l fr Hlt.
  - exists l. split; [done|]. split; [done|]. split; [done|]. split; [done|]. simpl. auto.
  - cbn [pqinit_loop]. unfold rd. destruct (lookup_lt_is_Some_2 l (S p) Hlt) as [q Hq]. rewrite Hq.
    cbn [mbind res_bind]. unfold wr. rewrite decide_True by done. cbn [mbind res_bind].
    destruct (IH (<[S p := set_p_nxt fr q]> l) (Some (S p))) as (l'&->&Hl&Hout&H0&Hpl).
    { rewrite length_insert. lia. }
    exists l'. rewrite length_insert in Hl. split_and!.
    + f_equal. f_equal. repeat case_decide; subst; done.
    + done.
    + intros i Hi. rewrite Hout by lia. by rewrite list_lookup_insert_ne by lia.
    + by rewrite H0, list_lookup_insert_ne by lia.
    + intros js His Hgt.
      rewrite seq_S, <- app_assoc. simpl. replace (if decide (p = 0%nat) then Some (S p) else Some 1%nat)
        with (Some 1%nat) in Hpl by (case_decide; by subst).
      apply Hpl; [|constructor; [lia|eapply Forall_impl; [done|]; simpl; lia]].
      simpl. split; [done|]. eexists. rewrite list_lookup_insert_eq by done. split; [done|]. simpl.
      eapply chain_frame; [|done]. intros i Hi. rewrite list_lookup_insert_ne; [done|].
      rewrite Forall_forall in Hgt. specialize (Hgt _ Hi). lia.
Qed.

(** pqinit puts process 0 alone on the list of processes and every other
    entry, in table order, on the free list. *)
Theorem pqinit_spec t :
  length (procs t) = NPROC ->
  exists t', pqinit t = Ok t' /\ chain p_nxt (procs t') (freeproc t') (seq 1 (NPROC - 1)) /\
    chain p_nxt (procs t') (allproc t') [0%nat] /\ zombproc t' = None /\
    exists p0, procs t' !! 0%nat = Some p0 /\ p_prev p0 = PrevAll.
Proof.
  intros Hl. unfold pqinit.
  destruct (pqinit_loop_spec (NPROC - 1) (procs t) None) as (l&->&Hl'&_&_&Hc); [rewrite Hl; unfold NPROC; lia|].
  rewrite decide_False in * by (unfold NPROC; lia). cbn [mbind res_bind].
  destruct (lookup_lt_is_Some_2 l 0%nat) as [q Hq]; [rewrite Hl', Hl; unfold NPROC; lia|].
  rewrite (rd_Some _ _ _ Hq). cbn [mbind res_bind]. rewrite (wr_Some _ _ _ _ Hq). cbn [mbind res_bind].
  pose proof (lookup_lt_Some _ _ _ Hq). eexists. split; [done|]. cbn [procs freeproc allproc zombproc].
  split; [|split_and!; [|done|]].
  - apply chain_insert; [rewrite elem_of_seq; lia|]. specialize (Hc [] eq_refl). rewrite app_nil_r in Hc.
    by apply Hc.
  - simpl. split; [done|]. eexists. by rewrite list_lookup_insert_eq.
  - eexists. by rewrite list_lookup_insert_eq.
Qed.
Lemma pqinit_spec_witness :
  exists t', pqinit (PTable (replicate 10 inhabitant) [] None None None) = Ok t' /\
    chain p_nxt (procs t') (freeproc t') (seq 1 (NPROC - 1)) /\
    chain p_nxt (procs t') (allproc t') [0%nat] /\ zombproc t' = None /\
    exists p0, procs t' !! 0%nat = Some p0 /\ p_prev p0 = PrevAll.
Proof. apply pqinit_spec. reflexivity. Defined.

(** [line t p l]: the process [p] and its ancestors, up to one whose p_ppid
    is 0, are [l]. *)
Fixpoint line (t : ptable) (p : nat) (l : list nat) : Prop :=
  match l with
  | [] => False
  | i :: l => i = p /\ exists q, procs t !! p = Some q /\
      match l with
      | [] => p_ppid q = 0
      | _ => p_ppid q <> 0 /\ exists p', p_pptr q = Some p' /\ line t p' l
      end
  end.

Lemma line_lookup t l : forall p i, line t p l -> i ∈ l -> is_Some (procs t !! i).
Proof.
  induction l as [|j l IH]; intros p i; simpl; [done|]. intros (->&q&Hq&H) [->|Hi]%elem_of_cons; [by eexists|].
  destruct l as [|k l]; [set_solver|]. destruct H as (_&p'&_&H). by apply (IH p').
Qed.
Lemma inferior_loop_spec t cur l : forall fuel p,
  line t p l -> (length l <= fuel)%nat -> inferior_loop fuel t cur p = Ok (bool_decide (cur ∈ l)).
Proof.
  induction l as [|j l IH]; intros [|fuel] p Hl Hf; try done; [simpl in Hf; lia|].
  destruct Hl as (->&q&Hq&Hl). cbn [inferior_loop]. destruct (Nat.eqb_spec p cur) as [->|Hne].
  { rewrite bool_decide_true by apply list_elem_of_here. done. }
  rewrite (rd_Some _ _ _ Hq). cbn [mbind res_bind]. destruct l as [|k l].
  - rewrite Hl. by rewrite bool_decide_false by set_solver.
  - destruct Hl as (H0&p'&Hp&Hl). destruct (Z.eqb_spec (p_ppid q) 0); [done|]. rewrite Hp.
    rewrite IH by (try done; simpl in *; lia). f_equal. apply bool_decide_ext. rewrite (elem_of_cons (k :: l)).
    split; [auto|]. by intros [->|].
Qed.

(** inferior tells whether the current process is the process itself or
    one of its ancestors, whatever the depth of the line. *)
Theorem inferior_spec t cur p l :
  line t p l -> NoDup l -> inferior t cur p = Ok (bool_decide (cur ∈ l)).
Proof.
  intros Hl Hnd. apply inferior_loop_spec; [done|].
  assert (length l <= length (procs t))%nat; [|lia].
  rewrite <- (length_seq (length (procs t)) 0). apply submseteq_length, NoDup_submseteq; [done|].
  intros i Hi. destruct (line_lookup _ _ _ _ Hl Hi) as [q Hq]. apply elem_of_seq.
  apply lookup_lt_Some in Hq. lia.
Qed.
Definition line_procs : list proc :=
  [inhabitant; set_p_pptr (Some 0%nat) inhabitant; set_p_ppid 1 (set_p_pptr (Some 1%nat) inhabitant)].
Lemma inferior_spec_witness :
  inferior (PTable line_procs [] None None None) 1 2 = Ok (bool_decide (1%nat ∈ [2%nat; 1%nat])).
Proof.
  apply inferior_spec.
  - simpl. split; [done|]. eexists. split; [done|]. simpl. split; [done|]. eexists. split; [done|].
    split; [done|]. eexists. split; [done|]. done.
  - apply (bool_decide_unpack _). vm_compute. done.
Defined.

End Proc.
