(* ===== verification/Clock.v ===== *)
(** The clock interrupt and the callout queue (sys/kernel/kern_clock.c,
    sys/include/callout.h).

    The pending calls form a linked list in the table [callout]; the time of
    an entry is the number of ticks after the entry before it.  The
    abstraction of the queue is the list of pending calls with the ticks left
    to each: a timeout adds one, a clock tick takes one from each, softclock
    runs those with none left. *)
From S2P Require Import Prelude Proc.
Import Proc.

Module Clock.

Definition NCALL : nat := 18.
Definition hz : Z := 200.

Record centry := Centry { c_time : Z; c_arg : Z; c_func : Z; c_next : option nat }.

(** The table, [calltodo.c_next] and [callfree]. *)
Record callst := Callst { callout : list centry; calltodo : option nat; callfree : option nat }.

(** The pointer [p1] of the loops: the header [&calltodo] or an entry. *)
Definition next_of (s : callst) (p1 : option nat) : res (option nat) :=
  match p1 with
  | None => Ok (calltodo s)
  | Some i => e ← rd (callout s) i; Ok (c_next e)
  end.
Definition set_next (s : callst) (p1 : option nat) (n : option nat) : res callst :=
  match p1 with
  | None => Ok (Callst (callout s) n (callfree s))
  | Some i =>
      e ← rd (callout s) i;
      l ← wr (callout s) i (Centry (c_time e) (c_arg e) (c_func e) n);
      Ok (Callst l (calltodo s) (callfree s))
  end.
Definition add_time (s : callst) (i : nat) (t : Z) : res callst :=
  e ← rd (callout s) i;
  l ← wr (callout s) i (Centry (s32 (c_time e + t)) (c_arg e) (c_func e) (c_next e));
  Ok (Callst l (calltodo s) (callfree s)).

(** [for (p1 = &calltodo; (p2 = p1->c_next) && p2->c_time < t; p1 = p2)
    if (p2->c_time > 0) t -= p2->c_time;] *)
Fixpoint timeout_loop (fuel : nat) (s : callst) (p1 : option nat) (t : Z)
    : res (option nat * option nat * Z) :=
  match fuel with
  | O => Fault
  | S fuel =>
      p2 ← next_of s p1;
      match p2 with
      | None => Ok (p1, None, t)
      | Some i =>
          e ← rd (callout s) i;
          if c_time e <? t
          then timeout_loop fuel s p2 (if 0 <? c_time e then s32 (t - c_time e) else t)
          else Ok (p1, p2, t)
      end
  end.

Definition timeout (s : callst) (fun_ arg t : Z) : res callst :=
  let t := if t <=? 0 then 1 else t in
  match callfree s with
  | None => Panic "timeout table overflow"
  | Some pnew =>
      e ← rd (callout s) pnew;
      let s := Callst (callout s) (calltodo s) (c_next e) in
      l ← wr (callout s) pnew (Centry (c_time e) arg fun_ (c_next e));
      let s := Callst l (calltodo s) (callfree s) in
      '(p1, p2, t) ← timeout_loop (S (length l)) s None t;
      s ← set_next s p1 (Some pnew);
      l ← wr (callout s) pnew (Centry t arg fun_ p2);
      let s := Callst l (calltodo s) (callfree s) in
      match p2 with
      | Some i => add_time s i (- t)
      | None => Ok s
      end
  end.

(** [for (p1 = &calltodo; (p2 = p1->c_next) != 0; p1 = p2)] *)
Fixpoint untimeout_loop (fuel : nat) (s : callst) (p1 : option nat) (fun_ arg : Z) : res callst :=
  match fuel with
  | O => Fault
  | S fuel =>
      p2 ← next_of s p1;
      match p2 with
      | None => Ok s
      | Some i =>
          e ← rd (callout s) i;
          if (c_func e =? fun_) && (c_arg e =? arg) then
            s ← (match c_next e with
                 | Some j => if 0 <? c_time e then add_time s j (c_time e) else Ok s
                 | None => Ok s
                 end);
            s ← set_next s p1 (c_next e);
            s ← set_next s (Some i) (callfree s);
            Ok (Callst (callout s) (calltodo s) (Some i))
          else untimeout_loop fuel s p2 fun_ arg
      end
  end.
Definition untimeout (s : callst) (fun_ arg : Z) : res callst :=
  untimeout_loop (S (length (callout s))) s None fun_ arg.

(** [while (p1) { if (--p1->c_time > 0) break; needsoft = 1;
    if (p1->c_time == 0) break; p1 = p1->c_next; }] *)
Fixpoint tick_loop (fuel : nat) (s : callst) (p1 : option nat) (needsoft : bool)
    : res (callst * bool) :=
  match fuel with
  | O => Fault
  | S fuel =>
      match p1 with
      | None => Ok (s, needsoft)
      | Some i =>
          s ← add_time s i (-1);
          e ← rd (callout s) i;
          if 0 <? c_time e then Ok (s, needsoft)
          else if c_time e =? 0 then Ok (s, true)
          else tick_loop fuel s (c_next e) true
      end
  end.
Definition tick (s : callst) : res (callst * bool) :=
  tick_loop (S (length (callout s))) s (calltodo s) false.

(** [callfree = callout; for (i = 1; i < NCALL; i++) ...], on the zeroed table. *)
Definition coutinit : callst :=
  Callst ((fun i => Centry 0 0 0 (if (S i <? NCALL)%nat then Some (S i) else None)) <$> seq 0 NCALL)
    None (Some 0%nat).

(** A called function can in turn set and cancel timeouts; what it does to
    the queue is the list of these calls. *)
Inductive ccmd :=
  | DoTimeout (fun_ arg t : Z)
  | DoUntimeout (fun_ arg : Z).
Definition do_cmd (s : callst) (c : ccmd) : res callst :=
  match c with
  | DoTimeout f a t => timeout s f a t
  | DoUntimeout f a => untimeout s f a
  end.
Fixpoint do_cmds (s : callst) (cs : list ccmd) : res callst :=
  match cs with [] => Ok s | c :: cs => s ← do_cmd s c; do_cmds s cs end.

Section Softclock.
Context (body : Z -> Z -> list ccmd).

(** The loop of softclock; the list is the calls made, in order. *)
Fixpoint softclock_loop (fuel : nat) (s : callst) : res (callst * list (Z * Z)) :=
  match fuel with
  | O => Fault
  | S fuel =>
      match calltodo s with
      | None => Ok (s, [])
      | Some p1 =>
          e ← rd (callout s) p1;
          if 0 <? c_time e then Ok (s, [])
          else
            let arg := c_arg e in
            let func := c_func e in
            let s := Callst (callout s) (c_next e) (callfree s) in
            s ← set_next s (Some p1) (callfree s);
            let s := Callst (callout s) (calltodo s) (Some p1) in
            s ← do_cmds s (body func arg);
            '(s, log) ← softclock_loop fuel s;
            Ok (s, (func, arg) :: log)
      end
  end.

End Softclock.

(** ** The rest of the clock interrupt *)

Record k_itimerval := Itimer { it_interval : Z; it_value : Z }.

(** Profiling arguments of the user area; the buffer is the words at
    [pr_base]. *)
Record uprof := Uprof { pr_base : list Z; pr_size : Z; pr_off : Z; pr_scale : Z }.

(** What the clock interrupt reads and writes besides the queue. *)
Record kclock := KClock {
  noproc : bool; lbolt : Z; adjdelta : Z; tv_sec : Z; cp_time : list Z;
  ru_utime : Z; ru_stime : Z; u_timer_virt : k_itimerval; u_timer_prof : k_itimerval;
  rlim_cur : Z; rlim_max : Z; u_prof : uprof; u_proc : proc;
  curpri : Z; runrun : Z; posted : list Z }.

Definition SIGXCPU : Z := 24.
Definition SIGVTALRM : Z := 26.
Definition SIGPROF : Z := 27.

(** [if (t->it_value && !--t->it_value) { psignal(p, sig); t->it_value =
    t->it_interval; }]: the timer and the signal posted. *)
Definition itimer_tick (t : k_itimerval) : k_itimerval * bool :=
  if it_value t =? 0 then (t, false)
  else
    let v := s32 (it_value t - 1) in
    if v =? 0 then (Itimer (it_interval t) (it_interval t), true)
    else (Itimer (it_interval t) v, false).

Definition CP_USER : nat := 0.
Definition CP_NICE : nat := 1.
Definition CP_SYS : nat := 2.
Definition CP_IDLE : nat := 3.

(** The state gatherstats charges the tick to; [usermode] and [basepri] are
    USERMODE(ps) and BASEPRI(ps). *)
Definition cpstate (k : kclock) (usermode basepri : bool) : nat :=
  if usermode then
    if NZERO <? p_nice (u_proc k) then CP_NICE else CP_USER
  else if noproc k && basepri then CP_IDLE else CP_SYS.
Definition gatherstats (k : kclock) (usermode basepri : bool) : res (list Z) :=
  let i := cpstate k usermode basepri in
  n ← rd (cp_time k) i;
  wr (cp_time k) i (s32 (n + 1)).

(** The user and system time and the virtual timer. *)
Definition charge_mode (k : kclock) (usermode : bool) : kclock :=
  if usermode then
    let '(vt, fired) := itimer_tick (u_timer_virt k) in
    KClock (noproc k) (lbolt k) (adjdelta k) (tv_sec k) (cp_time k) (s32 (ru_utime k + 1)) (ru_stime k)
      vt (u_timer_prof k) (rlim_cur k) (rlim_max k) (u_prof k) (u_proc k) (curpri k) (runrun k)
      (if fired : bool then posted k ++ [SIGVTALRM] else posted k)
  else
    KClock (noproc k) (lbolt k) (adjdelta k) (tv_sec k) (cp_time k) (ru_utime k)
      (if noproc k then ru_stime k else s32 (ru_stime k + 1))
      (u_timer_virt k) (u_timer_prof k) (rlim_cur k) (rlim_max k) (u_prof k) (u_proc k) (curpri k)
      (runrun k) (posted k).

(** [if (++p->p_cpu == 0) p->p_cpu--;] *)
Definition cpu_tick (p : proc) : proc :=
  let c := s8 (p_cpu p + 1) in
  set_p_cpu (if c =? 0 then s8 (c - 1) else c) p.

(** [if (noproc == 0)]: the usage of the running process, its limit and its
    profiling timer. *)
Definition charge_proc (k : kclock) : kclock :=
  if noproc k then k
  else
    let p := cpu_tick (u_proc k) in
    let over := rlim_cur k <? s32 (ru_utime k + ru_stime k + 1) in
    let posted1 := if over then posted k ++ [SIGXCPU] else posted k in
    let cur := if over && (rlim_cur k <? rlim_max k) then s32 (rlim_cur k + 5 * hz) else rlim_cur k in
    let '(pt, fired) := itimer_tick (u_timer_prof k) in
    KClock (noproc k) (lbolt k) (adjdelta k) (tv_sec k) (cp_time k) (ru_utime k) (ru_stime k)
      (u_timer_virt k) pt cur (rlim_max k) (u_prof k) p (curpri k) (runrun k)
      (if fired : bool then posted1 ++ [SIGPROF] else posted1).

(** The time of day: [lbolt] counts the ticks of the second. *)
Definition advance_time (k : kclock) : kclock :=
  let '(lb, adj) :=
    if adjdelta k =? 0 then (lbolt k, adjdelta k)
    else if 0 <? adjdelta k then (lbolt k + 1, adjdelta k - 1)
    else (lbolt k - 1, adjdelta k + 1) in
  let lb := lb + 1 in
  let '(lb, sec) := if hz <=? lb then (lb - hz, s32 (tv_sec k + 1)) else (lb, tv_sec k) in
  KClock (noproc k) lb adj sec (cp_time k) (ru_utime k) (ru_stime k)
    (u_timer_virt k) (u_timer_prof k) (rlim_cur k) (rlim_max k) (u_prof k) (u_proc k) (curpri k)
    (runrun k) (posted k).

(** void addupc (pc, pbuf, ticks) *)
Definition addupc (pc : Z) (b : uprof) (ticks : Z) : res uprof :=
  if pc <? pr_off b then Ok b
  else
    let indx := u32 (pc - pr_off b) in
    let indx := Z.shiftr (u32 (indx * pr_scale b)) 16 in
    if pr_size b <=? indx then Ok b
    else
      n ← rd (pr_base b) (Z.to_nat indx);
      l ← wr (pr_base b) (Z.to_nat indx) (u32 (n + ticks));
      Ok (Uprof l (pr_size b) (pr_off b) (pr_scale b)).

(** The end of softclock: profiling, and a lower priority after ten minutes of
    user time. *)
Definition soft_user (k : kclock) (pc : Z) (usermode : bool) : res kclock :=
  if negb usermode then Ok k
  else
    b ← (if pr_scale (u_prof k) =? 0 then Ok (u_prof k) else addupc pc (u_prof k) 1);
    let p := u_proc k in
    let '(p, rr) :=
      if negb (p_uid p =? 0) && (p_nice p =? NZERO) && (10 * 60 * hz <? ru_utime k)
      then let '(p, rr, _) := setpri (curpri k) (runrun k) (set_p_nice (NZERO + 4) p) in (p, rr)
      else (p, runrun k) in
    Ok (KClock (noproc k) (lbolt k) (adjdelta k) (tv_sec k) (cp_time k) (ru_utime k) (ru_stime k)
      (u_timer_virt k) (u_timer_prof k) (rlim_cur k) (rlim_max k) b p (curpri k) rr (posted k)).

(** void softclock(pc, ps): the queue, the rest and the calls made. *)
Definition softclock (body : Z -> Z -> list ccmd) (s : callst) (k : kclock) (pc : Z) (usermode : bool)
    : res (callst * kclock * list (Z * Z)) :=
  '(s, log) ← softclock_loop body (S (length (callout s))) s;
  k ← soft_user k pc usermode;
  Ok (s, k, log).

(** void hardclock(pc, ps) *)
Definition hardclock (body : Z -> Z -> list ccmd) (s : callst) (k : kclock) (pc : Z)
    (usermode basepri : bool) : res (callst * kclock * list (Z * Z)) :=
  '(s, needsoft) ← tick s;
  let needsoft := needsoft || (usermode && negb (pr_scale (u_prof k) =? 0)) in
  let k := charge_mode k usermode in
  let k := charge_proc k in
  cp ← gatherstats k usermode basepri;
  let k := KClock (noproc k) (lbolt k) (adjdelta k) (tv_sec k) cp (ru_utime k) (ru_stime k)
    (u_timer_virt k) (u_timer_prof k) (rlim_cur k) (rlim_max k) (u_prof k) (u_proc k) (curpri k)
    (runrun k) (posted k) in
  let k := advance_time k in
  if needsoft && basepri then softclock body s k pc usermode
  else Ok (s, k, []).

(** void profil() *)
Definition profil (bufbase : list Z) (bufsize pcoffset pcscale : Z) : uprof :=
  Uprof bufbase bufsize pcoffset pcscale.

(** int hzto(tv), with the current time [now]; [long] is 32 bits. *)
Definition hzto (now_sec now_usec sec usec : Z) : Z :=
  let d := s32 (sec - now_sec) in
  if d <=? Z.quot 2147483647 1000 - 1000 then
    Z.quot (s32 (s32 (s32 (sec - now_sec) * 1000) + Z.quot (s32 (usec - now_usec)) 1000)) (Z.quot 1000 hz)
  else if d <=? Z.quot 2147483647 hz then s32 (d * hz)
  else 2147483647.

(** ** The queue as a list of deltas *)

(** A pending call: ticks and the call, a function and its argument. *)
Abbreviation pending := (Z * (Z * Z))%type.

Fixpoint d_insert (t : Z) (x : Z * Z) (es : list pending) : list pending :=
  match es with
  | [] => [(t, x)]
  | (c, y) :: es' =>
      if c <? t then (c, y) :: d_insert (if 0 <? c then t - c else t) x es'
      else (t, x) :: (c - t, y) :: es'
  end.
(** The largest int, and the ticks to the last call. *)
Definition INT_MAX : Z := 2147483647.
Fixpoint total (es : list pending) : Z := match es with [] => 0 | (c, _) :: es => Z.max 0 c + total es end.
(** The deltas are ints; the calls that are due are at most [k] ticks late. *)
Definition small (k : Z) (es : list pending) : Prop := total es <= INT_MAX /\ Forall (fun e => - k <= e.1) es.
Definition d_add (d : Z) (es : list pending) : list pending :=
  match es with [] => [] | (c, y) :: es => (c + d, y) :: es end.
Fixpoint d_remove (x : Z * Z) (es : list pending) : list pending :=
  match es with
  | [] => []
  | (c, y) :: es' =>
      if decide (y = x) then (if 0 <? c then d_add c es' else es') else (c, y) :: d_remove x es'
  end.
Fixpoint d_tick (es : list pending) : list pending :=
  match es with
  | [] => []
  | (c, y) :: es' => if 0 <? c then (c - 1, y) :: es' else (c - 1, y) :: d_tick es'
  end.

(** The table holds the queue [es] and [n] free entries; none is lost. *)
Definition ents (m : list centry) (il : list nat) (es : list pending) : Prop :=
  Forall2 (fun i x => exists e, m !! i = Some e /\ x = (c_time e, (c_func e, c_arg e))) il es.
Definition crep (s : callst) (es : list pending) (n : nat) : Prop :=
  exists il fl, chain c_next (callout s) (calltodo s) il /\ chain c_next (callout s) (callfree s) fl /\
    NoDup (il ++ fl) /\ (length il + length fl = length (callout s))%nat /\
    ents (callout s) il es /\ length fl = n.

Lemma ents_frame m m' il es :
  (forall i e, i ∈ il -> m !! i = Some e -> exists e', m' !! i = Some e' /\
    c_time e' = c_time e /\ c_func e' = c_func e /\ c_arg e' = c_arg e) ->
  ents m il es -> ents m' il es.
Proof.
  intros Hm. induction 1 as [|i x il es (e&He&->) Hes IH]; constructor.
  - destruct (Hm i e) as (e'&He'&E1&E2&E3); [apply list_elem_of_here|done|].
    exists e'. by rewrite E1, E2, E3.
  - apply IH. intros j ej Hj. apply Hm. by apply list_elem_of_further.
Qed.
Lemma ents_insert m il es i e : i ∉ il -> ents m il es -> ents (<[i := e]> m) il es.
Proof.
  intros Hi. apply ents_frame. intros j ej Hj Hej. exists ej. rewrite list_lookup_insert_ne; [done|].
  by intros ->.
Qed.
Lemma ents_relink m il es i e n :
  m !! i = Some e -> ents m il es ->
  ents (<[i := Centry (c_time e) (c_arg e) (c_func e) n]> m) il es.
Proof.
  intros Hi. apply ents_frame. intros j ej Hj Hej. destruct (decide (i = j)) as [->|].
  - simplify_eq. eexists. rewrite list_lookup_insert_eq by (by eapply lookup_lt_Some). done.
  - exists ej. by rewrite list_lookup_insert_ne.
Qed.
Lemma ents_length m il es : ents m il es -> length il = length es.
Proof. apply Forall2_length. Qed.
Lemma ents_cons m i il es : ents m (i :: il) es ->
  exists e es', m !! i = Some e /\ es = (c_time e, (c_func e, c_arg e)) :: es' /\ ents m il es'.
Proof. intros H. inversion H as [|? ? ? ? (e&?&->)]; subst. eauto. Qed.

Lemma last_snoc_or {A} (l : list A) x : last (l ++ [x]) = Some x.
Proof. apply last_snoc. Qed.

(** [p1] is the last entry of [l1], [None] the header: relinking it. *)
Lemma set_next_spec s l1 l2 l2' n es :
  chain c_next (callout s) (calltodo s) (l1 ++ l2) -> NoDup l1 ->
  chain c_next (callout s) n l2' -> (forall i, i ∈ l1 -> i ∉ l2') ->
  exists s', set_next s (last l1) n = Ok s' /\ callfree s' = callfree s /\
    length (callout s') = length (callout s) /\
    chain c_next (callout s') (calltodo s') (l1 ++ l2') /\
    (forall i, i ∉ l1 -> callout s' !! i = callout s !! i) /\
    (forall il, ents (callout s) il es -> ents (callout s') il es).
Proof.
  intros Hc Hnd Hn Hd. destruct l1 as [|i l1 _] using rev_ind.
  - simpl. eexists. split; [done|]. done.
  - rewrite last_snoc. destruct (chain_lookup _ _ _ _ i Hc) as [e He]; [set_solver|].
    cbn [set_next]. unfold rd, wr. rewrite He. cbn [mbind res_bind].
    rewrite decide_True by (by eapply lookup_lt_Some). cbn [mbind res_bind].
    eexists. split; [done|]. cbn [callout calltodo callfree]. rewrite length_insert.
    rewrite <- !app_assoc in *. simpl in *. split; [done|]. split; [done|]. split; [|split].
    + eapply chain_redirect; try done. apply Hd. set_solver.
    + intros j Hj. rewrite list_lookup_insert_ne; [done|]. set_solver.
    + intros il. by apply ents_relink.
Qed.

Lemma next_of_spec s l1 l2 :
  chain c_next (callout s) (calltodo s) (l1 ++ l2) -> next_of s (last l1) = Ok (head l2).
Proof.
  intros Hc. destruct (chain_split _ _ _ _ _ Hc) as (h2&Hc2&Hl). rewrite <- (chain_head _ _ _ _ Hc2).
  unfold next_of. destruct (last l1) as [i|]; [|by subst]. destruct Hl as (e&He&<-). unfold rd. by rewrite He.
Qed.

Lemma timeout_loop_spec s x il2 : forall il1 es2 t fuel,
  chain c_next (callout s) (calltodo s) (il1 ++ il2) -> ents (callout s) il2 es2 ->
  0 < t <= INT_MAX -> (length il2 < fuel)%nat ->
  exists l1 l2 e1 e2 t', il2 = l1 ++ l2 /\ es2 = e1 ++ e2 /\ length l1 = length e1 /\
    timeout_loop fuel s (last il1) t = Ok (last (il1 ++ l1), head l2, t') /\
    d_insert t x es2 = e1 ++ (t', x) :: d_add (- t') e2 /\ 0 < t' /\
    match e2 with [] => True | (c, _) :: _ => t' <= c end.
Proof.
  unfold INT_MAX. induction il2 as [|i il2 IH]; intros il1 es2 t [|fuel] Hc Hes Hti Hf; simpl in Hf; try lia;
    cbn [timeout_loop]; rewrite (next_of_spec s il1 _ Hc); cbn [mbind res_bind head].
  - inversion Hes; subst. exists [], [], [], [], t. rewrite !app_nil_r. split_and!; done || lia.
  - apply ents_cons in Hes as (e&es'&He&->&Hes). unfold rd. rewrite He. cbn [mbind res_bind d_insert].
    destruct (Z.ltb_spec (c_time e) t) as [E|E].
    + rewrite app_snoc in Hc. replace (if 0 <? c_time e then s32 (t - c_time e) else t) with (if 0 <? c_time e then t - c_time e else t)
        by (destruct (Z.ltb_spec 0 (c_time e)); [by rewrite s32_small by lia|done]).
      destruct (IH (il1 ++ [i]) es' (if 0 <? c_time e then t - c_time e else t) fuel Hc Hes)
        as (l1&l2&e1&e2&t'&->&->&Hl&Ht&Hi&Hpos&Hle); [destruct (Z.ltb_spec 0 (c_time e)); lia|lia|].
      rewrite last_snoc in Ht. exists (i :: l1), l2, ((c_time e, (c_func e, c_arg e)) :: e1), e2, t'.
      rewrite Ht, Hi, <- app_assoc. simpl. split_and!; first [done|lia|by rewrite Hl].
    + exists [], (i :: il2), [], ((c_time e, (c_func e, c_arg e)) :: es'), t. rewrite app_nil_r.
      simpl. split_and!; first [done|lia|by rewrite Hl].
Qed.

(** Writing an entry [pnew] off the list commutes with relinking. *)
Lemma set_next_other s p1 n pnew e :
  p1 <> Some pnew -> forall s', set_next (Callst (<[pnew := e]> (callout s)) (calltodo s) (callfree s)) p1 n = Ok s' ->
  exists s2, set_next s p1 n = Ok s2 /\ s' = Callst (<[pnew := e]> (callout s2)) (calltodo s2) (callfree s2).
Proof.
  intros Hp s'. destruct p1 as [i|]; cbn [set_next callout calltodo callfree].
  - assert (i <> pnew) as Hi by congruence. unfold rd. rewrite list_lookup_insert_ne by done.
    destruct (callout s !! i) as [ei|] eqn:E; cbn [mbind res_bind]; [|done].
    rewrite !(wr_lt _ i) by (rewrite ?length_insert; by eapply lookup_lt_Some). cbn [mbind res_bind].
    intros [= <-]. eexists. split; [done|]. cbn [callout calltodo callfree].
    by rewrite list_insert_insert_ne.
  - intros [= <-]. by eexists.
Qed.

(** Linking the entry [pnew] between [l1] and [l2]. *)
Lemma link_new s l1 l2 pnew e0 t f a es :
  chain c_next (callout s) (calltodo s) (l1 ++ l2) -> NoDup (l1 ++ l2) -> pnew ∉ l1 ++ l2 ->
  callout s !! pnew = Some e0 -> ents (callout s) (l1 ++ l2) es ->
  exists s2, set_next s (last l1) (Some pnew) = Ok s2 /\ callfree s2 = callfree s /\
    length (callout s2) = length (callout s) /\
    let m := <[pnew := Centry t a f (head l2)]> (callout s2) in
    chain c_next m (calltodo s2) (l1 ++ pnew :: l2) /\ ents m (l1 ++ l2) es /\
    (forall i, i ∉ l1 -> i <> pnew -> m !! i = callout s !! i).
Proof.
  intros Hc Hnd Hp He Hes. set (e := Centry t a f (head l2)).
  set (s' := Callst (<[pnew := e]> (callout s)) (calltodo s) (callfree s)).
  assert (pnew < length (callout s))%nat as Hlt by (by eapply lookup_lt_Some).
  apply NoDup_app in Hnd as (Hnd1&Hd&Hnd2).
  destruct (chain_split _ _ _ _ _ Hc) as (h2&Hc2&_). pose proof (chain_head _ _ _ _ Hc2) as ->.
  destruct (set_next_spec s' l1 l2 (pnew :: l2) (Some pnew) es) as (s3&E3&Hf3&Hl3&Hc3&Hout3&Hes3).
  - by apply chain_insert.
  - done.
  - simpl. split; [done|]. exists e. rewrite list_lookup_insert_eq by done. split; [done|].
    apply chain_insert; [set_solver|done].
  - intros i Hi. specialize (Hd i Hi). set_solver.
  - destruct (set_next_other s (last l1) (Some pnew) pnew e) with (s' := s3) as (s2&E2&->).
    { intros Hl. apply Hp. apply elem_of_app. left. by apply last_Some_elem_of. }
    { done. }
    unfold s' in Hl3. cbn [callout calltodo callfree] in *. rewrite !length_insert in Hl3.
    exists s2. split_and!; try done.
    + apply Hes3. by apply ents_insert.
    + intros i Hi Hip. rewrite Hout3 by done. unfold s'. cbn [callout].
      by rewrite list_lookup_insert_ne.
Qed.

Lemma total_nonneg es : 0 <= total es.
Proof. induction es as [|[c x] es IH]; simpl; lia. Qed.
Lemma total_app es es' : total (es ++ es') = total es + total es'.
Proof. induction es as [|[c x] es IH]; simpl; lia. Qed.
Lemma timeout_deltas s es n f a t :
  crep s es (S n) -> t <= INT_MAX -> total es <= INT_MAX ->
  exists s', timeout s f a t = Ok s' /\ crep s' (d_insert (Z.max 1 t) (f, a) es) n.
Proof.
  unfold INT_MAX. intros (il&fl&Hc&Hf&Hnd&Hlen&Hes&Hn) Htm Htot. destruct fl as [|pnew fl]; [done|]. simpl in Hn.
  unfold timeout. destruct Hf as (->&e&He&Hf). rewrite (rd_Some _ _ _ He).
  assert (pnew < length (callout s))%nat as Hlt by (by eapply lookup_lt_Some).
  assert ((pnew ∉ il) /\ (pnew ∉ fl) /\ NoDup il /\ NoDup (il ++ fl)) as (Hni&Hnf&Hndi&Hnd').
  { apply NoDup_app in Hnd as (?&Hd&[? ?]%NoDup_cons). split_and!; try done.
    - intros ?. eapply Hd; [done|set_solver].
    - apply NoDup_app. split_and!; try done. intros x Hx ?. eapply Hd; [done|set_solver]. }
  cbn [mbind res_bind callout calltodo callfree]. rewrite wr_lt by done. cbn [mbind res_bind].
  replace (if t <=? 0 then 1 else t) with (Z.max 1 t) by (case_if; lia). set (t0 := Z.max 1 t).
  set (s1 := Callst (<[pnew := Centry (c_time e) a f (c_next e)]> (callout s)) (calltodo s) (c_next e)).
  assert (chain c_next (callout s1) (calltodo s1) il) as Hc1 by (by apply chain_insert).
  assert (ents (callout s1) il es) as Hes1 by (by apply ents_insert).
  destruct (timeout_loop_spec s1 (f, a) il [] es t0 (S (length (callout s1))) Hc1 Hes1)
    as (l1&l2&e1&e2&t'&->&->&Hl&Ht&->&Htp&Htl); [unfold t0, INT_MAX; lia| |].
  { simpl. rewrite length_insert. pose proof (chain_length _ _ _ _ Hc Hndi). lia. }
  change (last []) with (@None nat) in Ht. rewrite app_nil_l in Ht.
  change (length (<[pnew := _]> (callout s))) with (length (callout s1)). rewrite Ht. cbn [mbind res_bind].
  destruct (link_new s1 l1 l2 pnew (Centry (c_time e) a f (c_next e)) t' f a (e1 ++ e2))
    as (s2&->&Hf2&Hl2&Hc2&Hes2&Hout2); try done.
  { unfold s1. cbn [callout]. by rewrite list_lookup_insert_eq. }
  cbn [mbind res_bind]. unfold s1 in Hl2, Hf2. cbn [callout callfree] in Hl2, Hf2. rewrite length_insert in Hl2.
  rewrite wr_lt by lia. cbn [mbind res_bind].
  set (m := <[pnew := Centry t' a f (head l2)]> (callout s2)) in *.
  assert (chain c_next m (callfree s2) fl) as Hf'.
  { rewrite Hf2. eapply chain_frame; [|exact Hf]. intros i Hi.
    apply NoDup_app in Hnd' as (_&Hd&_). rewrite Hout2; [|set_solver..].
    unfold s1. cbn [callout]. rewrite list_lookup_insert_ne; [done|set_solver]. }
  assert (NoDup ((l1 ++ pnew :: l2) ++ fl)) as Hnd2.
  { rewrite <- Permutation_middle. simpl. apply NoDup_cons. split; [set_solver|done]. }
  assert (m !! pnew = Some (Centry t' a f (head l2))) as Hm.
  { unfold m. rewrite list_lookup_insert_eq by lia. done. }
  assert (length m = length (callout s)) as Hlm by (unfold m; by rewrite length_insert).
  apply Forall2_app_inv in Hes2 as [Hes2a Hes2b]; [|done].
  destruct l2 as [|i l2]; cbn [head].
  - inversion Hes2b; subst. eexists. split; [done|]. exists (l1 ++ [pnew]), fl. cbn [callout calltodo callfree].
    split_and!; try done; try lia.
    + rewrite Hlm. rewrite !length_app in *. simpl in *. lia.
    + apply Forall2_app; [done|]. constructor; [|done]. by eexists.
  - apply ents_cons in Hes2b as (ei&es'&Hei&->&Hes2b). unfold add_time. cbn [callout].
    rewrite (rd_Some _ _ _ Hei). cbn [mbind res_bind]. rewrite (wr_Some _ _ _ _ Hei). cbn [mbind res_bind].
    rewrite total_app in Htot. cbn [total] in Htot. pose proof (total_nonneg e1). pose proof (total_nonneg es').
    rewrite s32_small by lia. eexists. split; [done|]. exists (l1 ++ pnew :: i :: l2), fl. cbn [callout calltodo callfree].
    assert (i <> pnew) as Hip by set_solver.
    assert ((i ∉ l1) /\ (i ∉ l2) /\ (i ∉ fl)) as (Hi1&Hi2&Hif).
    { rewrite !NoDup_app, !NoDup_cons in Hnd2. destruct Hnd2 as ((?&Hd1&?&?&?)&Hd2&?).
      split_and!; [intros ?; eapply Hd1; [done|set_solver]|done|apply Hd2; set_solver]. }
    split_and!; try done; try lia.
    + by eapply chain_same.
    + by apply chain_insert.
    + rewrite length_insert, Hlm. rewrite !length_app in *. simpl in *. lia.
    + apply Forall2_app; [by apply ents_insert|]. constructor; [|constructor].
      * exists (Centry t' a f (Some i)). by rewrite list_lookup_insert_ne.
      * eexists. rewrite list_lookup_insert_eq by (by eapply lookup_lt_Some). simpl. done.
      * by apply ents_insert.
Qed.

Lemma add_time_spec s i e d :
  callout s !! i = Some e -> -2147483648 <= c_time e + d <= INT_MAX ->
  add_time s i d = Ok (Callst (<[i := Centry (c_time e + d) (c_arg e) (c_func e) (c_next e)]> (callout s))
    (calltodo s) (callfree s)).
Proof.
  unfold INT_MAX. intros Hi Hr. unfold add_time. rewrite (rd_Some _ _ _ Hi). cbn [mbind res_bind].
  rewrite (wr_Some _ _ _ _ Hi). cbn [mbind res_bind]. by rewrite s32_small by lia.
Qed.

Lemma set_next_Some s i e n :
  callout s !! i = Some e ->
  set_next s (Some i) n = Ok (Callst (<[i := Centry (c_time e) (c_arg e) (c_func e) n]> (callout s))
    (calltodo s) (callfree s)).
Proof. intros Hi. cbn [set_next]. rewrite (rd_Some _ _ _ Hi). cbn [mbind res_bind]. by rewrite (wr_Some _ _ _ _ Hi). Qed.

(** Adding a delay to the entry after the removed one. *)
Lemma add_head s il1 i il2 fl e es1 es2 d :
  chain c_next (callout s) (calltodo s) (il1 ++ i :: il2) -> chain c_next (callout s) (callfree s) fl ->
  NoDup ((il1 ++ i :: il2) ++ fl) -> callout s !! i = Some e ->
  ents (callout s) il1 es1 -> ents (callout s) il2 es2 ->
  match es2 with [] => True | (c, _) :: _ => 0 < d -> -2147483648 <= c + d <= INT_MAX end ->
  exists s', (match c_next e with
      | Some j => if 0 <? d then add_time s j d else Ok s
      | None => Ok s
      end) = Ok s' /\
    chain c_next (callout s') (calltodo s') (il1 ++ i :: il2) /\ chain c_next (callout s') (callfree s') fl /\
    callout s' !! i = Some e /\ length (callout s') = length (callout s) /\
    ents (callout s') il1 es1 /\ ents (callout s') il2 (if 0 <? d then d_add d es2 else es2).
Proof.
  intros Hc Hf Hnd He He1 He2 Hfit. rewrite app_snoc in Hc. destruct (chain_split _ _ _ _ _ Hc) as (h2&Hc2&Hl).
  rewrite last_snoc in Hl. destruct Hl as (e'&He'&<-). simplify_eq. rewrite <- app_snoc in Hc.
  destruct il2 as [|j il2].
  - simpl in Hc2. rewrite Hc2. inversion He2; subst. eexists. split; [done|]. split_and!; try done. by case_if.
  - destruct Hc2 as (->&ej&Hj&Hc2). destruct (0 <? d) eqn:Ed; [|eexists; split; [done|]; done].
    apply ents_cons in He2 as (ej'&es'&Hj'&->&He2). assert (ej' = ej) as -> by congruence. apply Z.ltb_lt in Ed as Ed'.
    rewrite (add_time_spec _ _ _ _ Hj) by (by apply Hfit). eexists. split; [done|]. cbn [callout calltodo callfree].
    rewrite length_insert. rewrite !NoDup_app, !NoDup_cons in Hnd. destruct Hnd as ((?&Hd1&Hi2&Hj2&?)&_&_).
    assert (i <> j) by set_solver. assert (j ∉ il1) by (intros ?; eapply Hd1; [done|set_solver]).
    split_and!; try done.
    + by eapply chain_same.
    + by eapply chain_same.
    + by rewrite list_lookup_insert_ne.
    + by apply ents_insert.
    + constructor; [|by apply ents_insert]. eexists.
      rewrite list_lookup_insert_eq by (by eapply lookup_lt_Some). done.
Qed.

Lemma unlink s il1 i il2 fl e es1 es2 :
  chain c_next (callout s) (calltodo s) (il1 ++ i :: il2) -> chain c_next (callout s) (callfree s) fl ->
  NoDup ((il1 ++ i :: il2) ++ fl) -> callout s !! i = Some e ->
  (length (il1 ++ i :: il2) + length fl = length (callout s))%nat ->
  ents (callout s) il1 es1 -> ents (callout s) il2 es2 ->
  exists s', (s ← set_next s (last il1) (c_next e);
              s ← set_next s (Some i) (callfree s);
              Ok (Callst (callout s) (calltodo s) (Some i))) = Ok s' /\
    crep s' (es1 ++ es2) (S (length fl)).
Proof.
  intros Hc Hf Hnd He Hlen He1 He2. pose proof Hc as Hc'. rewrite app_snoc in Hc'.
  destruct (chain_split _ _ _ _ _ Hc') as (h2&Hc2&Hl). rewrite last_snoc in Hl.
  destruct Hl as (e'&He'&<-). simplify_eq.
  assert (NoDup (i :: (il1 ++ il2) ++ fl)) as Hnd'.
  { revert Hnd. rewrite <- Permutation_middle. done. }
  apply NoDup_cons in Hnd' as [Hni Hnd'].
  assert (NoDup il1 /\ (forall x, x ∈ il1 -> x ∉ il2)) as [Hnd1 Hd1].
  { apply NoDup_app in Hnd' as (Hn&_). apply NoDup_app in Hn as (?&?&_). done. }
  destruct (set_next_spec s il1 (i :: il2) il2 (c_next e) (es1 ++ es2)) as (s1&->&Hf1&Hl1&Hc1&Hout1&Hes1); try done.
  cbn [mbind res_bind].
  assert (callout s1 !! i = Some e) as He'' by (rewrite Hout1 by set_solver; done).
  rewrite (set_next_Some _ _ _ _ He''). cbn [mbind res_bind]. eexists. split; [done|].
  exists (il1 ++ il2), (i :: fl). cbn [callout calltodo callfree]. split_and!.
  - apply chain_insert; [set_solver|done].
  - simpl. split; [done|]. eexists. rewrite list_lookup_insert_eq by (by eapply lookup_lt_Some).
    split; [done|]. simpl. rewrite Hf1. apply chain_insert; [set_solver|]. eapply chain_frame; [|done].
    intros j Hj. apply Hout1. intros ?. apply NoDup_app in Hnd' as (_&Hd&_). eapply Hd; [|done]. set_solver.
  - rewrite <- Permutation_middle. apply NoDup_cons. done.
  - rewrite length_insert, Hl1. rewrite !length_app in *. simpl in *. lia.
  - apply ents_insert; [set_solver|]. apply Hes1. by apply Forall2_app.
  - done.
Qed.

Lemma untimeout_loop_spec s f a fl n il2 : forall il1 es1 es2 fuel,
  chain c_next (callout s) (calltodo s) (il1 ++ il2) -> chain c_next (callout s) (callfree s) fl ->
  NoDup ((il1 ++ il2) ++ fl) -> (length (il1 ++ il2) + length fl = length (callout s))%nat ->
  ents (callout s) il1 es1 -> ents (callout s) il2 es2 -> length fl = n -> (length il2 < fuel)%nat ->
  small 2147483648 es2 ->
  exists s' n', untimeout_loop fuel s (last il1) f a = Ok s' /\ (n <= n')%nat /\
    crep s' (es1 ++ d_remove (f, a) es2) n'.
Proof.
  induction il2 as [|i il2 IH]; intros il1 es1 es2 [|fuel] Hc Hf Hnd Hlen He1 He2 Hn Hfuel [Ht1 Ht2]; simpl in Hfuel; try lia;
    cbn [untimeout_loop]; rewrite (next_of_spec s il1 _ Hc); cbn [mbind res_bind head].
  - inversion He2; subst. eexists _, _. split; [done|]. split; [done|]. rewrite app_nil_r in *. by exists il1, fl.
  - apply ents_cons in He2 as (e&es'&He&->&He2). rewrite (rd_Some _ _ _ He). cbn [mbind res_bind d_remove].
    destruct ((c_func e =? f) && (c_arg e =? a)) eqn:E.
    + bool_to_prop. rewrite decide_True by congruence.
      destruct (add_head s il1 i il2 fl e es1 es' (c_time e)) as (s1&E1&Hc1&Hf1&Hi1&Hl1&Ha&Hb); try done.
      { destruct es' as [|[c2 y2] es']; [done|]. intros Hpos. apply Forall_cons_1 in Ht2 as [_ [Ht2 _]%Forall_cons_1].
        cbn [total fst] in *. pose proof (total_nonneg es'). lia. }
      rewrite E1. cbn [mbind res_bind].
      destruct (unlink s1 il1 i il2 fl e es1 (if 0 <? c_time e then d_add (c_time e) es' else es'))
        as (s2&E2&Hs2); try done; [by rewrite Hl1|].
      rewrite E2. exists s2, (S (length fl)). split; [done|]. split; [lia|done].
    + rewrite decide_False; last first.
      { intros [= E1 E2]. rewrite E1, E2, !Z.eqb_refl in E. done. }
      destruct (IH (il1 ++ [i]) (es1 ++ [(c_time e, (c_func e, c_arg e))]) es' fuel)
        as (s'&n'&E1&Hn'&Hs'); try (rewrite <- (app_snoc il1 il2 i); done); try done; try lia.
      { apply Forall2_app; [done|]. constructor; [by eexists|constructor]. }
      { apply Forall_cons_1 in Ht2 as [_ Ht2]. split; [cbn [total] in Ht1; lia|done]. }
      rewrite last_snoc in E1. rewrite <- app_assoc in Hs'. eauto.
Qed.

Lemma untimeout_deltas s es n f a :
  crep s es n -> small 2147483648 es ->
  exists s' n', untimeout s f a = Ok s' /\ (n <= n')%nat /\ crep s' (d_remove (f, a) es) n'.
Proof.
  intros (il&fl&Hc&Hf&Hnd&Hlen&Hes&Hn) Hsm. unfold untimeout.
  destruct (untimeout_loop_spec s f a fl n il [] [] es (S (length (callout s)))) as (s'&n'&E&?&?);
    try done; [constructor|simpl in *; lia|]. eauto.
Qed.

Lemma tick_loop_spec fl il2 : forall s il1 es1 es2 h fuel b,
  chain c_next (callout s) (calltodo s) (il1 ++ il2) -> chain c_next (callout s) (callfree s) fl ->
  NoDup ((il1 ++ il2) ++ fl) -> (length (il1 ++ il2) + length fl = length (callout s))%nat ->
  ents (callout s) il1 es1 -> ents (callout s) il2 es2 -> chain c_next (callout s) h il2 ->
  (length il2 < fuel)%nat -> Forall (fun e => -2147483648 < e.1 <= INT_MAX) es2 ->
  exists s', tick_loop fuel s h b =
      Ok (s', b || match es2 with [] => false | (c, _) :: _ => c <=? 1 end) /\
    crep s' (es1 ++ d_tick es2) (length fl).
Proof.
  induction il2 as [|i il2 IH]; intros s il1 es1 es2 h [|fuel] b Hc Hf Hnd Hlen He1 He2 Hh Hfuel Hsm;
    simpl in Hfuel; try lia; cbn [tick_loop].
  - simpl in Hh. subst h. inversion He2; subst. rewrite orb_false_r. eexists. split; [done|].
    rewrite app_nil_r in *. by exists il1, fl.
  - destruct Hh as (->&e&He&Hh). apply ents_cons in He2 as (e'&es'&He'&->&He2).
    assert (e' = e) as -> by congruence.
    apply Forall_cons_1 in Hsm as [Hs1 Hsm]. cbn [fst] in Hs1. unfold INT_MAX in Hs1.
    rewrite (add_time_spec _ _ _ _ He) by (unfold INT_MAX; lia). cbn [mbind res_bind]. set (s1 := Callst _ _ _).
    set (e1 := Centry (c_time e + -1) (c_arg e) (c_func e) (c_next e)) in *.
    assert (callout s1 !! i = Some e1) as Hi1.
    { unfold s1. cbn [callout]. rewrite list_lookup_insert_eq; [done|]. by eapply lookup_lt_Some. }
    rewrite (rd_Some _ _ _ Hi1). cbn [mbind res_bind]. cbn [c_time d_tick]. unfold e1. cbn [c_time c_next].
    assert (chain c_next (callout s1) (calltodo s1) (il1 ++ i :: il2)) as Hc1 by (by eapply chain_same).
    assert (chain c_next (callout s1) (callfree s1) fl) as Hf1 by (by eapply chain_same).
    assert (chain c_next (callout s1) (c_next e) il2) as Hh1 by (by eapply chain_same).
    assert (length (callout s1) = length (callout s)) as Hl1 by (unfold s1; cbn [callout]; by rewrite length_insert).
    rewrite !NoDup_app, !NoDup_cons in Hnd. destruct Hnd as ((Hn1&Hd1&Hi2&Hn2)&Hd2&Hn3).
    assert (ents (callout s1) il1 es1) as Ha.
    { apply ents_insert; [|done]. intros ?. eapply Hd1; [done|]. apply list_elem_of_here. }
    assert (ents (callout s1) il2 es') as Hb by (by apply ents_insert).
    assert (ents (callout s1) (i :: il2) ((c_time e - 1, (c_func e, c_arg e)) :: es')) as Hab.
    { constructor; [|done]. by exists e1. }
    assert (NoDup ((il1 ++ i :: il2) ++ fl)) as Hnd by (rewrite !NoDup_app, !NoDup_cons; split_and!; done).
    destruct (Z.ltb_spec 0 (c_time e + -1)) as [H0|H0].
    + destruct (Z.leb_spec (c_time e) 1), (Z.ltb_spec 0 (c_time e)); try lia. rewrite orb_false_r.
      eexists. split; [done|]. exists (il1 ++ i :: il2), fl. split_and!; try done; [by rewrite Hl1|by apply Forall2_app].
    + destruct (Z.leb_spec (c_time e) 1); [|lia]. rewrite orb_true_r.
      destruct (Z.eqb_spec (c_time e + -1) 0) as [H1|H1].
      * destruct (Z.ltb_spec 0 (c_time e)); [|lia]. eexists. split; [done|].
        exists (il1 ++ i :: il2), fl. split_and!; try done; [by rewrite Hl1|by apply Forall2_app].
      * destruct (Z.ltb_spec 0 (c_time e)); [lia|].
        destruct (IH s1 (il1 ++ [i]) (es1 ++ [(c_time e - 1, (c_func e, c_arg e))]) es' (c_next e) fuel true)
          as (s2&E2&Hs2); try (rewrite <- (app_snoc il1 il2 i); done); try done; try lia.
        { by rewrite <- (app_snoc il1 il2 i), Hl1. }
        { apply Forall2_app; [done|]. constructor; [by exists e1|constructor]. }
        rewrite E2. cbn [orb]. rewrite <- app_assoc in Hs2. eauto.
Qed.

Lemma small_range k es : small k es -> k < 2147483648 -> Forall (fun e => -2147483648 < e.1 <= INT_MAX) es.
Proof.
  intros [H1 H2] Hk. revert H1. induction H2 as [|[c x] es H H2 IH]; intros H1; constructor; cbn [total fst] in *; pose proof (total_nonneg es); [lia|]. apply IH. lia.
Qed.
Lemma tick_deltas s es n k :
  crep s es n -> small k es -> k < 2147483648 ->
  exists s', tick s = Ok (s', match es with [] => false | (c, _) :: _ => c <=? 1 end) /\ crep s' (d_tick es) n.
Proof.
  intros (il&fl&Hc&Hf&Hnd&Hlen&Hes&<-) Hsm Hk. unfold tick.
  apply (tick_loop_spec fl il s [] [] es (calltodo s) (S (length (callout s))) false); try done; [constructor| |by eapply small_range].
  pose proof (chain_length _ _ _ _ Hc). apply NoDup_app in Hnd as (?&_). lia.
Qed.

(** ** Deltas and the time left *)

(** The ticks left to each call: the sum of the positive deltas up to it, or
    how late it is. *)
Fixpoint rems (acc : Z) (es : list pending) : list pending :=
  match es with
  | [] => []
  | (c, x) :: es =>
      let acc' := acc + Z.max 0 c in
      ((if acc' =? 0 then c else acc'), x) :: rems acc' es
  end.

(** Late calls come first; after the first delta that is positive none is
    negative. *)
Definition nonneg (es : list pending) : Prop := Forall (fun e => 0 <= e.1) es.
Fixpoint dwf (es : list pending) : Prop :=
  match es with
  | [] => True
  | (c, _) :: es => if 0 <? c then nonneg es else dwf es
  end.

(** The operations on calls with the ticks left to them. *)
Fixpoint a_insert (t : Z) (x : Z * Z) (l : list pending) : list pending :=
  match l with
  | [] => [(t, x)]
  | (r, y) :: l' => if r <? t then (r, y) :: a_insert t x l' else (t, x) :: l
  end.
Fixpoint a_remove (x : Z * Z) (l : list pending) : list pending :=
  match l with
  | [] => []
  | (r, y) :: l => if decide (y = x) then l else (r, y) :: a_remove x l
  end.
Definition a_tick (l : list pending) : list pending := (fun e => (e.1 - 1, e.2)) <$> l.
(** There is room for NCALL calls; [None] when one more is asked for. *)
Definition a_cmd (l : list pending) (c : ccmd) : option (list pending) :=
  match c with
  | DoTimeout f a t => if decide (length l < NCALL)%nat then Some (a_insert (Z.max 1 t) (f, a) l) else None
  | DoUntimeout f a => Some (a_remove (f, a) l)
  end.

Definition wf_acc (acc : Z) (es : list pending) : Prop := if 0 <? acc then nonneg es else dwf es.

Lemma nonneg_dwf es : nonneg es -> dwf es.
Proof. induction 1 as [|[c x] es H Hes IH]; simpl; [done|]. by case_if. Qed.
Lemma wf_acc_cons acc c x es :
  0 <= acc -> wf_acc acc ((c, x) :: es) -> wf_acc (acc + Z.max 0 c) es /\ (0 < acc -> 0 <= c).
Proof.
  intros Ha. unfold wf_acc. destruct (Z.ltb_spec 0 acc).
  - intros [H1 H2]%Forall_cons_1. simpl in H1. destruct (Z.ltb_spec 0 (acc + Z.max 0 c)); [done|lia].
  - simpl. intros H1. replace acc with 0 by lia.
    destruct (Z.ltb_spec 0 c), (Z.ltb_spec 0 (0 + Z.max 0 c)); try lia; split; (done || lia).
Qed.

Lemma rems_insert x es : forall acc t,
  0 <= acc -> 0 < t -> wf_acc acc es ->
  rems acc (d_insert t x es) = a_insert (acc + t) x (rems acc es) /\ wf_acc acc (d_insert t x es).
Proof.
  induction es as [|[c y] es IH]; intros acc t Ha Ht Hwf; cbn [d_insert rems a_insert].
  - destruct (Z.eqb_spec (acc + Z.max 0 t) 0); [lia|]. split; [do 2 f_equal; lia|].
    unfold wf_acc. case_if; [constructor; [simpl; lia|constructor]|]. simpl. case_if; [constructor|done].
  - destruct (wf_acc_cons _ _ _ _ Ha Hwf) as [Hwf' Hc].
    destruct (Z.ltb_spec c t) as [Hlt|Hlt].
    + cbn [rems]. destruct (IH (acc + Z.max 0 c) (if 0 <? c then t - c else t)) as [E Hw'];
        [lia|case_if; lia|done|].
      rewrite E. split.
      * destruct (Z.eqb_spec (acc + Z.max 0 c) 0); cbn [a_insert].
        -- destruct (Z.ltb_spec c (acc + t)); [|lia]. do 2 f_equal. case_if; lia.
        -- destruct (Z.ltb_spec (acc + Z.max 0 c) (acc + t)); [|lia]. do 2 f_equal. case_if; lia.
      * unfold wf_acc in *. destruct (Z.ltb_spec 0 acc).
        -- destruct (Z.ltb_spec 0 (acc + Z.max 0 c)); [|lia]. constructor; [simpl; lia|done].
        -- simpl. destruct (Z.ltb_spec 0 c), (Z.ltb_spec 0 (acc + Z.max 0 c)); try lia; done.
    + cbn [rems]. destruct (Z.eqb_spec (acc + Z.max 0 t) 0), (Z.eqb_spec (acc + Z.max 0 c) 0),
        (Z.eqb_spec (acc + Z.max 0 t + Z.max 0 (c - t)) 0); try lia. cbn [a_insert].
      destruct (Z.ltb_spec (acc + Z.max 0 c) (acc + t)); [lia|].
      replace (acc + Z.max 0 t + Z.max 0 (c - t)) with (acc + Z.max 0 c) by lia.
      split; [do 2 f_equal; lia|]. unfold wf_acc in *.
      assert (nonneg es) as Hes by (destruct (Z.ltb_spec 0 (acc + Z.max 0 c)); [done|lia]).
      destruct (Z.ltb_spec 0 acc); [constructor; [simpl; lia|constructor; [simpl; lia|done]]|].
      simpl. destruct (Z.ltb_spec 0 t); [|lia]. constructor; [simpl; lia|done].
Qed.

Lemma rems_add_head c es acc :
  0 <= acc -> 0 < c -> nonneg es -> rems acc (d_add c es) = rems (acc + c) es /\ nonneg (d_add c es).
Proof.
  intros Ha Hc Hes. destruct es as [|[c' y] es]; [done|]. apply Forall_cons_1 in Hes as [H1 H2]. simpl in H1.
  cbn [d_add rems]. destruct (Z.eqb_spec (acc + Z.max 0 (c' + c)) 0), (Z.eqb_spec (acc + c + Z.max 0 c') 0); try lia.
  replace (acc + Z.max 0 (c' + c)) with (acc + c + Z.max 0 c') by lia. split; [done|].
  constructor; [simpl; lia|done].
Qed.

Lemma rems_remove x es : forall acc,
  0 <= acc -> wf_acc acc es ->
  rems acc (d_remove x es) = a_remove x (rems acc es) /\ wf_acc acc (d_remove x es).
Proof.
  induction es as [|[c y] es IH]; intros acc Ha Hwf; cbn [d_remove rems a_remove]; [done|].
  destruct (wf_acc_cons _ _ _ _ Ha Hwf) as [Hwf' Hc]. destruct (decide (y = x)).
  - destruct (Z.ltb_spec 0 c) as [Hpos|Hpos].
    + assert (nonneg es) as Hes.
      { unfold wf_acc in Hwf'. by destruct (Z.ltb_spec 0 (acc + Z.max 0 c)); [|lia]. }
      destruct (rems_add_head c es acc Ha Hpos Hes) as [-> Hn].
      replace (acc + Z.max 0 c) with (acc + c) by lia. split; [done|].
      unfold wf_acc. case_if; [done|]. by apply nonneg_dwf.
    + replace (acc + Z.max 0 c) with acc in * by lia. done.
  - cbn [rems]. destruct (IH (acc + Z.max 0 c)) as [E Hw']; [lia|done|]. rewrite E. split; [done|].
    unfold wf_acc in *. destruct (Z.ltb_spec 0 acc).
    + destruct (Z.ltb_spec 0 (acc + Z.max 0 c)); [|lia]. constructor; [simpl; lia|done].
    + simpl. destruct (Z.ltb_spec 0 c), (Z.ltb_spec 0 (acc + Z.max 0 c)); try lia; done.
Qed.

Lemma rems_shift es : forall acc d, 0 < acc -> 0 < acc - d -> nonneg es ->
  rems (acc - d) es = (fun e => (e.1 - d, e.2)) <$> rems acc es.
Proof.
  induction es as [|[c x] es IH]; intros acc d H1 H2 Hn; [done|]. apply Forall_cons_1 in Hn as [Hc Hn]. simpl in Hc.
  cbn [rems fmap list_fmap]. destruct (Z.eqb_spec (acc - d + Z.max 0 c) 0), (Z.eqb_spec (acc + Z.max 0 c) 0); try lia.
  simpl. f_equal; [f_equal; lia|]. replace (acc - d + Z.max 0 c) with (acc + Z.max 0 c - d) by lia.
  apply IH; [lia..|done].
Qed.

(** When the first positive delta reaches 0, the calls with it are due. *)
Lemma rems_zero es : nonneg es -> rems 0 es = (fun e => (e.1 - 1, e.2)) <$> rems 1 es /\ dwf es.
Proof.
  intros Hn. split; [|by apply nonneg_dwf]. induction Hn as [|[c x] es Hc Hn IH]; [done|]. simpl in Hc.
  cbn [rems fmap list_fmap]. destruct (decide (c = 0)) as [->|Hc0].
  - change (0 + Z.max 0 0) with 0. change (1 + Z.max 0 0) with 1. rewrite IH. done.
  - destruct (Z.eqb_spec (0 + Z.max 0 c) 0), (Z.eqb_spec (1 + Z.max 0 c) 0); try lia. simpl.
    f_equal; [f_equal; lia|]. rewrite <- rems_shift by (done || lia). f_equal. lia.
Qed.

Lemma rems_tick es : dwf es -> rems 0 (d_tick es) = a_tick (rems 0 es) /\ dwf (d_tick es).
Proof.
  unfold a_tick. induction es as [|[c x] es IH]; [done|]. cbn [dwf d_tick].
  destruct (Z.ltb_spec 0 c) as [Hc|Hc]; intros Hn.
  - cbn [rems fmap list_fmap]. destruct (Z.eqb_spec (0 + Z.max 0 c) 0); [lia|]. cbn [fst snd].
    destruct (decide (c = 1)) as [->|Hc1].
    + change (0 + Z.max 0 (1 - 1)) with 0. change (0 + Z.max 0 1) with 1.
      destruct (rems_zero es Hn) as [-> ?]. done.
    + destruct (Z.eqb_spec (0 + Z.max 0 (c - 1)) 0); [lia|]. split.
      * f_equal; [f_equal; lia|]. rewrite <- rems_shift by (done || lia). f_equal. lia.
      * simpl. by destruct (Z.ltb_spec 0 (c - 1)); [|lia].
  - destruct (IH Hn) as [E Hw]. cbn [rems fmap list_fmap].
    destruct (Z.eqb_spec (0 + Z.max 0 c) 0), (Z.eqb_spec (0 + Z.max 0 (c - 1)) 0); try lia.
    replace (0 + Z.max 0 (c - 1)) with 0 by lia. replace (0 + Z.max 0 c) with 0 by lia. cbn [fst snd].
    rewrite E. split; [done|]. simpl. by destruct (Z.ltb_spec 0 (c - 1)); [lia|].
Qed.

(** ** Running the calls that are due *)

Definition due (l : list pending) : list pending := filter (fun e => e.1 <= 0) l.
Fixpoint a_cmds (l : list pending) (cs : list ccmd) : option (list pending) :=
  match cs with [] => Some l | c :: cs => match a_cmd l c with Some l => a_cmds l cs | None => None end end.
(** The delays are ints. *)
Definition int_cmd (c : ccmd) : Prop := match c with DoTimeout _ _ t => t <= INT_MAX | DoUntimeout _ _ => True end.

(** ** Deltas stay ints *)

Lemma total_d_insert x es : forall t, 0 < t -> total (d_insert t x es) <= Z.max (total es) t.
Proof.
  induction es as [|[c y] es IH]; intros t Ht; cbn [d_insert total]; [lia|]. pose proof (total_nonneg es).
  destruct (Z.ltb_spec c t); cbn [total]; [|lia]. destruct (Z.ltb_spec 0 c); [specialize (IH (t - c))|specialize (IH t)]; lia.
Qed.
Lemma small_insert k x es : forall t, 0 <= k -> 0 < t <= INT_MAX -> small k es -> small k (d_insert t x es).
Proof.
  intros t Hk Ht [H1 H2]. split; [pose proof (total_d_insert x es t); lia|]. revert t Ht. clear H1.
  induction H2 as [|[c y] es Hc H2 IH]; intros t Ht; cbn [d_insert]; [constructor; [cbn; lia|constructor]|].
  destruct (Z.ltb_spec c t); [constructor; [done|]; apply IH; destruct (Z.ltb_spec 0 c); lia|]. constructor; [cbn; lia|]. constructor; [cbn; lia|done].
Qed.
Lemma small_remove k x es : small k es -> small k (d_remove x es).
Proof.
  intros [H1 H2]. cut (total (d_remove x es) <= total es /\ Forall (fun e => - k <= e.1) (d_remove x es)); [intros []; split; [lia|done]|]. clear H1.
  induction H2 as [|[c y] es Hc H2 [IH1 IH2]]; cbn [d_remove]; [done|]. case_decide; [|split; [cbn [total]; lia|by constructor]].
  destruct (Z.ltb_spec 0 c); [|split; [cbn [total]; lia|done]]. destruct H2 as [|[c2 y2] es Hc2 H2]; cbn [d_add total]; [split; [lia|done]|].
  split; [lia|]. constructor; [cbn in *; lia|done].
Qed.
Lemma small_tick k es : small k es -> 0 <= k -> small (k + 1) (d_tick es).
Proof.
  intros [H1 H2] Hk. cut (total (d_tick es) <= total es /\ Forall (fun e => - (k + 1) <= e.1) (d_tick es)); [intros []; split; [lia|done]|]. clear H1.
  induction H2 as [|[c y] es Hc H2 [IH1 IH2]]; cbn [d_tick]; [done|]. cbn [fst] in Hc.
  destruct (Z.ltb_spec 0 c); cbn [total]; (split; [lia|]; constructor; [cbn; lia|]); [|done]. eapply Forall_impl; [done|]. cbn. lia.
Qed.
Lemma small_weaken k k' es : small k es -> k <= k' -> small k' es.
Proof. intros [H1 H2] Hk. split; [done|]. eapply Forall_impl; [done|]. cbn. lia. Qed.
Lemma rems_length es : forall acc, length (rems acc es) = length es.
Proof. induction es as [|[c x] es IH]; intros acc; simpl; auto. Qed.

(** ** The size of the table *)

Lemma wr_length {A} (l : list A) i x l' : wr l i x = Ok l' -> length l' = length l.
Proof. unfold wr. case_decide; [|done]. intros [= <-]. apply length_insert. Qed.
Lemma set_next_length s p n s' : set_next s p n = Ok s' -> length (callout s') = length (callout s).
Proof.
  destruct p as [i|]; cbn [set_next]; [|by intros [= <-]]. destruct (rd _ _); [|done..]. cbn [mbind res_bind].
  destruct (wr _ _ _) eqn:E; [|done..]. cbn [mbind res_bind]. intros [= <-]. by apply wr_length in E.
Qed.
Lemma add_time_length s i d s' : add_time s i d = Ok s' -> length (callout s') = length (callout s).
Proof.
  unfold add_time. destruct (rd _ _); [|done..]. cbn [mbind res_bind]. destruct (wr _ _ _) eqn:E; [|done..].
  cbn [mbind res_bind]. intros [= <-]. by apply wr_length in E.
Qed.
Lemma timeout_length s f a t s' : timeout s f a t = Ok s' -> length (callout s') = length (callout s).
Proof.
  unfold timeout. destruct (callfree s) as [i|]; [|done]. destruct (rd _ _); [|done..]. cbn [mbind res_bind callout].
  destruct (wr (callout s) _ _) as [l| |] eqn:E1; [|done..]. cbn [mbind res_bind]. destruct (timeout_loop _ _ _ _) as [[[p1 p2] t']| |]; [|done..]. cbn [mbind res_bind].
  destruct (set_next _ _ _) as [s2| |] eqn:E2; [|done..]. cbn [mbind res_bind]. destruct (wr (callout s2) _ _) as [l3| |] eqn:E3; [|done..]. cbn [mbind res_bind].
  apply wr_length in E1, E3. apply set_next_length in E2. cbn [callout] in E2. destruct p2 as [j|].
  - intros E4%add_time_length. cbn [callout] in E4. congruence.
  - intros [= <-]. cbn. congruence.
Qed.
Lemma untimeout_loop_length fuel : forall s p f a s', untimeout_loop fuel s p f a = Ok s' -> length (callout s') = length (callout s).
Proof.
  induction fuel as [|fuel IH]; intros s p f a s'; [done|]. cbn [untimeout_loop]. destruct (next_of s p) as [[i|]| |]; [|by intros [= <-]|done..]. cbn [mbind res_bind].
  destruct (rd _ _) as [e| |]; [|done..]. cbn [mbind res_bind]. case_if; [|apply IH].
  destruct (match c_next e with Some j => _ | None => _ end) as [s1| |] eqn:E1; [|done..]. cbn [mbind res_bind].
  destruct (set_next s1 _ _) as [s2| |] eqn:E2; [|done..]. cbn [mbind res_bind]. destruct (set_next s2 _ _) as [s3| |] eqn:E3; [|done..]. cbn [mbind res_bind]. intros [= <-]. cbn [callout].
  apply set_next_length in E2, E3. assert (length (callout s1) = length (callout s)); [|congruence].
  destruct (c_next e); [case_if; [by apply add_time_length in E1|]|]; by injection E1 as <-.
Qed.
Lemma tick_loop_length fuel : forall s p b s' b', tick_loop fuel s p b = Ok (s', b') -> length (callout s') = length (callout s).
Proof.
  induction fuel as [|fuel IH]; intros s p b s' b'; [done|]. cbn [tick_loop]. destruct p as [i|]; [|by intros [= <- _]].
  destruct (add_time s i (-1)) as [s1| |] eqn:E1; [|done..]. cbn [mbind res_bind]. apply add_time_length in E1. destruct (rd _ _) as [e| |]; [|done..]. cbn [mbind res_bind].
  case_if; [by intros [= <- _]|]. case_if; [by intros [= <- _]|]. intros E2%IH. congruence.
Qed.

(** The queue [es] in the table, with the due calls at most [k] ticks late. *)
Record queued (k : Z) (s : callst) (es : list pending) : Prop := {
  qd_rep : exists n, crep s es n;
  qd_cap : length (callout s) = NCALL;
  qd_wf : dwf es;
  qd_small : small k es;
  qd_late : 0 <= k < 2147483648 }.
Lemma callout_count s es n : crep s es n -> (n + length es = length (callout s))%nat.
Proof. intros (il&fl&_&_&_&Hlen&Hes&Hn). rewrite <- (ents_length _ _ _ Hes). lia. Qed.
Lemma timeout_full s es f a t : crep s es 0 -> timeout s f a t = Panic "timeout table overflow".
Proof.
  intros (il&fl&_&Hf&_&_&_&Hn). destruct fl; [|done]. simpl in Hf. unfold timeout. by rewrite Hf.
Qed.
Definition overflow : string := "timeout table overflow".

Section SoftSpec.
Context (body : Z -> Z -> list ccmd).

Fixpoint a_softclock (fuel : nat) (l : list pending) : option (list pending * list (Z * Z)) :=
  match fuel, l with
  | S fuel, (r, (f, a)) :: l' =>
      if r <=? 0 then
        match a_cmds l' (body f a) with
        | None => None
        | Some l1 => match a_softclock fuel l1 with Some (l2, log) => Some (l2, (f, a) :: log) | None => None end
        end
      else Some (l, [])
  | _, _ => Some (l, [])
  end.

Lemma do_cmd_spec k s es c :
  queued k s es -> int_cmd c ->
  match do_cmd s c with
  | Ok s' => exists es', queued k s' es' /\ a_cmd (rems 0 es) c = Some (rems 0 es')
  | Panic m => m = overflow /\ a_cmd (rems 0 es) c = None
  | Fault => False
  end.
Proof.
  intros [[n Hs] Hcap Hd Hsm Hk] Hc. pose proof (callout_count _ _ _ Hs) as Hn. destruct c as [f a t|f a]; cbn [do_cmd a_cmd int_cmd] in *.
  - rewrite rems_length. destruct n as [|n]; [rewrite (timeout_full _ _ _ _ _ Hs), decide_False by lia; done|]. rewrite decide_True by lia.
    destruct (timeout_deltas s es n f a t Hs Hc (proj1 Hsm)) as (s'&E&Hs'). rewrite E. apply timeout_length in E.
    destruct (rems_insert (f, a) es 0 (Z.max 1 t)) as [R Hw]; [lia|lia|done|]. eexists. split; [|by rewrite R].
    split; [eauto|congruence|done|apply small_insert; [lia|unfold INT_MAX in *; lia|done]|done].
  - destruct (untimeout_deltas s es n f a Hs) as (s'&n'&E&_&Hs'); [eapply small_weaken; [done|lia]|]. rewrite E. apply untimeout_loop_length in E.
    destruct (rems_remove (f, a) es 0) as [R Hw]; [lia|done|]. eexists. split; [|by rewrite R]. split; [eauto|congruence|done|by apply small_remove|done].
Qed.

Lemma do_cmds_spec k cs : forall s es,
  queued k s es -> Forall int_cmd cs ->
  match do_cmds s cs with
  | Ok s' => exists es', queued k s' es' /\ a_cmds (rems 0 es) cs = Some (rems 0 es')
  | Panic m => m = overflow /\ a_cmds (rems 0 es) cs = None
  | Fault => False
  end.
Proof.
  induction cs as [|c cs IH]; intros s es Hs Hc; cbn [do_cmds a_cmds]; [eauto|]. apply Forall_cons_1 in Hc as [Hc Hcs].
  pose proof (do_cmd_spec k s es c Hs Hc) as H1. destruct (do_cmd s c) as [s1|m|]; cbn [mbind res_bind]; [|destruct H1 as [-> ->]; done|done].
  destruct H1 as (es1&Hs1&->). by apply IH.
Qed.

Lemma due_insert t x l : 0 < t -> length (due (a_insert t x l)) = length (due l).
Proof.
  intros Ht. unfold due. induction l as [|[r y] l IH]; cbn [a_insert].
  - rewrite filter_cons_False; [done|simpl; lia].
  - destruct (r <? t).
    + rewrite !filter_cons. case_decide; simpl; by rewrite IH.
    + rewrite (filter_cons_False _ (t, x)); [done|simpl; lia].
Qed.
Lemma due_remove x l : (length (due (a_remove x l)) <= length (due l))%nat.
Proof.
  unfold due. induction l as [|[r y] l IH]; cbn [a_remove]; [done|].
  rewrite !filter_cons. destruct (decide (y = x)).
  - case_decide; simpl; lia.
  - rewrite filter_cons. case_decide; simpl; lia.
Qed.
Lemma due_cmds cs : forall l l', a_cmds l cs = Some l' -> (length (due l') <= length (due l))%nat.
Proof.
  induction cs as [|c cs IH]; intros l l'; cbn [a_cmds]; [by intros [= <-]|]. destruct (a_cmd l c) as [l1|] eqn:E; [|done]. intros H%IH. etrans; [exact H|].
  destruct c as [f a t|f a]; cbn [a_cmd] in E; [case_decide; [|done]|]; injection E as <-; [by rewrite due_insert by lia|apply due_remove].
Qed.

Lemma rems_pos es : forall acc, 0 < acc -> nonneg es -> Forall (fun e => 0 < e.1) (rems acc es).
Proof.
  induction es as [|[c x] es IH]; intros acc Ha Hn; cbn [rems]; [constructor|].
  apply Forall_cons_1 in Hn as [Hc Hn]. destruct (Z.eqb_spec (acc + Z.max 0 c) 0); [simpl in Hc; lia|].
  constructor; [simpl; lia|]. apply IH; [lia|done].
Qed.

Context (Hbody : forall f a, Forall int_cmd (body f a)).
Lemma softclock_loop_spec k fuel : forall s es,
  queued k s es -> (length (due (rems 0 es)) < fuel)%nat ->
  match softclock_loop body fuel s with
  | Ok (s', log) => exists es', queued k s' es' /\ a_softclock fuel (rems 0 es) = Some (rems 0 es', log) /\ Forall (fun e => 0 < e.1) (rems 0 es')
  | Panic m => m = overflow /\ a_softclock fuel (rems 0 es) = None
  | Fault => False
  end.
Proof.
  induction fuel as [|fuel IH]; intros s es Hq Hf; [lia|]. cbn [softclock_loop].
  pose proof Hq as [[n Hs] Hcap Hd Hsm Hk]. pose proof Hs as (il&fl&Hc&Hfl&Hnd&Hlen&Hes&Hn).
  destruct es as [|[c [f a]] es].
  { inversion Hes; subst. simpl in Hc. rewrite Hc. exists []. split; [done|]. split; [done|constructor]. }
  destruct il as [|i il]; [by inversion Hes|]. apply ents_cons in Hes as (e&es'&He&[= -> -> -> ->]&Hes).
  destruct Hc as (Hi&e'&He'&Hc). assert (e' = e) as -> by congruence.
  rewrite Hi, (rd_Some _ _ _ He). cbn [mbind res_bind]. cbn [dwf] in Hd. cbn [rems] in *.
  destruct (Z.ltb_spec 0 (c_time e)) as [Hpos|Hpos].
  - exists ((c_time e, (c_func e, c_arg e)) :: es'). cbn [rems]. destruct (Z.eqb_spec (0 + Z.max 0 (c_time e)) 0); [lia|]. cbn [a_softclock].
    destruct (Z.leb_spec (0 + Z.max 0 (c_time e)) 0); [lia|]. split; [done|]. split; [done|].
    constructor; [simpl; lia|]. apply rems_pos; [lia|done].
  - destruct (Z.eqb_spec (0 + Z.max 0 (c_time e)) 0); [|lia]. cbn [a_softclock].
    destruct (Z.leb_spec (c_time e) 0); [|lia].
    replace (0 + Z.max 0 (c_time e)) with 0 in * by lia.
    destruct (unlink s [] i il fl e [] es') as (s1&E1&Hs1); try done.
    { simpl. split; [done|]. by exists e. } { constructor. }
    change (last []) with (@None nat) in E1. cbn [set_next mbind res_bind] in E1.
    cbn [set_next mbind res_bind]. cbn [callout calltodo callfree] in *. rewrite (rd_Some _ _ _ He) in *.
    cbn [mbind res_bind] in *. rewrite (wr_Some _ _ _ _ He) in *. cbn [mbind res_bind callout calltodo callfree] in *.
    injection E1 as E1. rewrite E1. simpl in Hs1.
    assert (queued k s1 es') as Hq1.
    { split; [eauto|rewrite <- E1; cbn [callout]; by rewrite length_insert|done| |done].
      destruct Hsm as [T1 T2]. apply Forall_cons_1 in T2 as [_ T2]. split; [cbn [total] in T1; lia|done]. }
    pose proof (do_cmds_spec k (body (c_func e) (c_arg e)) s1 es' Hq1 (Hbody _ _)) as H1.
    destruct (do_cmds s1 _) as [s2|m|]; cbn [mbind res_bind]; [|destruct H1 as [-> ->]; done|done].
    destruct H1 as (es2&Hq2&E2). rewrite E2. pose proof (due_cmds _ _ _ E2) as Hdue.
    assert (length (due (rems 0 es2)) < fuel)%nat as Hlt by (unfold due in *; rewrite filter_cons_True in Hf by (simpl; lia); simpl in Hf; lia).
    specialize (IH s2 es2 Hq2 Hlt). destruct (softclock_loop body fuel s2) as [[s3 log]|m|]; cbn [mbind res_bind]; [|by destruct IH as [-> ->]|done].
    destruct IH as (es3&Hq3&->&Hp3). by exists es3.
Qed.

Lemma softclock_fuel s es n : crep s es n -> (length (due (rems 0 es)) < S (length (callout s)))%nat.
Proof.
  intros (il&fl&_&_&_&Hlen&Hes&_). pose proof (length_filter (fun e : pending => e.1 <= 0) (rems 0 es)) as H.
  unfold due. rewrite rems_length in H. rewrite <- (ents_length _ _ _ Hes) in H. lia.
Qed.

End SoftSpec.
(** After the soft clock nothing is late. *)
Lemma pos_small k s es : queued k s es -> Forall (fun e => 0 < e.1) (rems 0 es) -> queued 0 s es.
Proof.
  intros [H1 H2 H3 [H4 _] H5] Hp. split; [done|done|done| |lia]. split; [done|]. destruct es as [|[c x] es]; [constructor|]. cbn [dwf rems] in *.
  apply Forall_cons_1 in Hp as [Hp _]. cbn [fst] in Hp. destruct (Z.ltb_spec 0 c); [|destruct (Z.eqb_spec (0 + Z.max 0 c) 0); lia]. constructor; [cbn; lia|]. eapply Forall_impl; [done|]. cbn. lia.
Qed.

(** ** Sequences of timeouts, ticks and soft clock interrupts *)

Inductive cev := EvCmd (c : ccmd) | EvTick | EvSoft.

Section Events.
Context (body : Z -> Z -> list ccmd).

Definition exec_ev (s : callst) (ev : cev) : res (callst * list (Z * Z)) :=
  match ev with
  | EvCmd c => s ← do_cmd s c; Ok (s, [])
  | EvTick => '(s, _) ← tick s; Ok (s, [])
  | EvSoft => softclock_loop body (S (length (callout s))) s
  end.
Fixpoint exec_evs (s : callst) (evs : list cev) : res (callst * list (Z * Z)) :=
  match evs with
  | [] => Ok (s, [])
  | ev :: evs =>
      '(s, log) ← exec_ev s ev;
      '(s, log') ← exec_evs s evs;
      Ok (s, log ++ log')
  end.

(** [None] once a timeout finds NCALL calls pending. *)
Definition spec_ev (l : list pending) (ev : cev) : option (list pending * list (Z * Z)) :=
  match ev with
  | EvCmd c => match a_cmd l c with Some l => Some (l, []) | None => None end
  | EvTick => Some (a_tick l, [])
  | EvSoft => a_softclock body (S (length (due l))) l
  end.
Fixpoint spec_evs (l : list pending) (evs : list cev) : option (list pending * list (Z * Z)) :=
  match evs with
  | [] => Some (l, [])
  | ev :: evs =>
      match spec_ev l ev with
      | None => None
      | Some (l, log) => match spec_evs l evs with Some (l, log') => Some (l, log ++ log') | None => None end
      end
  end.
(** Delays are ints, and less than 2^31 ticks pass without a soft clock
    interrupt: [k] have passed. *)
Fixpoint in_time (k : Z) (evs : list cev) : Prop :=
  match evs with
  | [] => True
  | EvCmd c :: evs => int_cmd c /\ in_time k evs
  | EvTick :: evs => k + 1 < 2147483648 /\ in_time (k + 1) evs
  | EvSoft :: evs => in_time 0 evs
  end.

Lemma a_softclock_fuel f1 : forall f2 l,
  (length (due l) < f1)%nat -> (length (due l) < f2)%nat ->
  a_softclock body f1 l = a_softclock body f2 l.
Proof.
  induction f1 as [|f1 IH]; intros [|f2] l H1 H2; try lia. destruct l as [|[r [f a]] l]; [done|].
  cbn [a_softclock]. destruct (Z.leb_spec r 0); [|done].
  unfold due in *. rewrite filter_cons_True in H1, H2 by (simpl; lia). simpl in *.
  destruct (a_cmds l (body f a)) as [l1|] eqn:E; [|done]. apply due_cmds in E. unfold due in *. by rewrite (IH f2) by lia.
Qed.

Context (Hbody : forall f a, Forall int_cmd (body f a)).
Lemma soft_spec k s es : queued k s es ->
  match softclock_loop body (S (length (callout s))) s with
  | Ok (s', log) => exists es', queued 0 s' es' /\ spec_ev (rems 0 es) EvSoft = Some (rems 0 es', log)
  | Panic m => m = overflow /\ spec_ev (rems 0 es) EvSoft = None
  | Fault => False
  end.
Proof.
  intros Hq. destruct (qd_rep _ _ _ Hq) as [n Hs]. pose proof (softclock_fuel s es n Hs) as Hf.
  pose proof (softclock_loop_spec body Hbody k (S (length (callout s))) s es Hq Hf) as H. cbn [spec_ev].
  rewrite (a_softclock_fuel (S (length (due (rems 0 es)))) (S (length (callout s))) (rems 0 es)) by lia.
  destruct (softclock_loop _ _ _) as [[s' log]|m|]; [|done..]. destruct H as (es'&Hq'&E&Hp). exists es'. split; [by eapply pos_small|done].
Qed.
Lemma tick_spec k s es : queued k s es -> k + 1 < 2147483648 ->
  exists s', tick s = Ok (s', match es with [] => false | (c, _) :: _ => c <=? 1 end) /\ queued (k + 1) s' (d_tick es) /\ rems 0 (d_tick es) = a_tick (rems 0 es).
Proof.
  intros [[n Hs] Hcap Hd Hsm Hk] Hk1. destruct (tick_deltas s es n k Hs Hsm) as (s'&E&Hs'); [lia|]. destruct (rems_tick es Hd) as [R Hw]. exists s'. split; [done|]. split; [|done].
  apply tick_loop_length in E. split; [eauto|congruence|done|apply small_tick; [done|lia]|lia].
Qed.

Lemma exec_evs_spec evs : forall k s es,
  queued k s es -> in_time k evs ->
  match exec_evs s evs with
  | Ok (s', log) => exists k' es', queued k' s' es' /\ spec_evs (rems 0 es) evs = Some (rems 0 es', log)
  | Panic m => m = overflow /\ spec_evs (rems 0 es) evs = None
  | Fault => False
  end.
Proof.
  induction evs as [|ev evs IH]; intros k s es Hs Ht; cbn [exec_evs spec_evs]; [eauto|].
  assert (exists k', match exec_ev s ev with
    | Ok (s', log) => exists es', queued k' s' es' /\ spec_ev (rems 0 es) ev = Some (rems 0 es', log) /\ in_time k' evs
    | Panic m => m = overflow /\ spec_ev (rems 0 es) ev = None
    | Fault => False
    end) as (k'&H1).
  { destruct ev as [c| |]; cbn [exec_ev in_time] in *.
    - destruct Ht as [Hc Ht]. exists k. pose proof (do_cmd_spec k s es c Hs Hc) as H. cbn [spec_ev]. destruct (do_cmd s c) as [s'|m|]; cbn [mbind res_bind]; [|by destruct H as [-> ->]|done].
      destruct H as (es'&Hs'&->). eauto.
    - destruct Ht as [Hk Ht]. exists (k + 1). destruct (tick_spec k s es Hs Hk) as (s'&->&Hs'&R). cbn [mbind res_bind]. exists (d_tick es). by rewrite R.
    - exists 0. pose proof (soft_spec k s es Hs) as H. destruct (softclock_loop _ _ _) as [[s' log]|m|]; [|done..]. destruct H as (es'&?&?). eauto. }
  destruct (exec_ev s ev) as [[s1 log1]|m|]; cbn [mbind res_bind]; [|by destruct H1 as [-> ->]|done].
  destruct H1 as (es1&Hs1&->&Ht1). specialize (IH k' s1 es1 Hs1 Ht1).
  destruct (exec_evs s1 evs) as [[s2 log2]|m|]; cbn [mbind res_bind]; [|by destruct IH as [-> ->]|done].
  destruct IH as (k2&es2&Hs2&->). eauto.
Qed.

End Events.

Lemma coutinit_crep : crep coutinit [] NCALL.
Proof.
  exists [], (seq 0 NCALL). split; [done|]. split.
  { repeat (split; [done|]; eexists; split; [done|]). done. }
  split; [apply NoDup_seq|]. split; [done|]. split; [constructor|done].
Qed.

Lemma coutinit_queued : queued 0 coutinit [].
Proof. split; [exists NCALL; apply coutinit_crep|done|done|by split|lia]. Qed.

(** (C6) The callout table implements a list of at most NCALL pending calls.
    From coutinit on, any sequence of timeouts, cancellations, clock ticks and
    soft clock interrupts, the last running functions that may themselves set
    and cancel timeouts, leaves in the table exactly the calls, with the ticks
    left to each, that the operations on the list give, and runs the same
    calls in the same order.  It panics exactly when the operations on the list
    ask for a call more than NCALL.  The delays are ints, and the soft clock
    runs at least every 2^31 - 1 ticks: then no count overflows an int. *)
Theorem callout_refines body evs :
  (forall f a, Forall int_cmd (body f a)) -> in_time 0 evs ->
  match exec_evs body coutinit evs with
  | Ok (s, log) => exists es n, crep s es n /\ spec_evs body [] evs = Some (rems 0 es, log)
  | Panic m => m = overflow /\ spec_evs body [] evs = None
  | Fault => False
  end.
Proof.
  intros Hb Ht. pose proof (exec_evs_spec body Hb evs 0 coutinit [] coutinit_queued Ht) as H.
  destruct (exec_evs body coutinit evs) as [[s log]|m|]; [|done..].
  destruct H as (k&es&[[n Hs] _ _ _ _]&E). eauto.
Qed.

(** Function 1 sets itself again, as schedcpu does. *)
Definition body1 (f a : Z) : list ccmd := if f =? 1 then [DoTimeout 1 a 2] else [].
Lemma body1_int f a : Forall int_cmd (body1 f a).
Proof. unfold body1. case_if; [|constructor]. constructor; [|constructor]. cbn. unfold INT_MAX. lia. Qed.
Definition evs1 : list cev :=
  [EvCmd (DoTimeout 1 5 2); EvCmd (DoTimeout 2 7 1); EvTick; EvSoft; EvTick; EvSoft; EvTick; EvTick; EvSoft].
Lemma callout_refines_witness :
  match exec_evs body1 coutinit evs1 with
  | Ok (s, log) => exists es n, crep s es n /\ spec_evs body1 [] evs1 = Some (rems 0 es, log)
  | Panic m => m = overflow /\ spec_evs body1 [] evs1 = None
  | Fault => False
  end.
Proof. apply (callout_refines body1 evs1); [exact body1_int|]. cbn. unfold INT_MAX. lia. Defined.

(** The calls the events of the witness make. *)
Example evs1_log : snd <$> spec_evs body1 [] evs1 = Some [(2, 7); (1, 5); (1, 5)].
Proof. reflexivity. Qed.

(** ** When a call runs *)

Definition idle_body (f a : Z) : list ccmd := [].
Fixpoint rounds (k : nat) : list cev :=
  match k with O => [] | S k => EvTick :: EvSoft :: rounds k end.

(** Pending calls in the order of their times. *)
Definition ordered (l : list pending) : Prop := StronglySorted (fun e e' => e.1 <= e'.1) l.

Lemma rems_ge es : forall acc, 0 < acc -> nonneg es -> Forall (fun e => acc <= e.1) (rems acc es).
Proof.
  induction es as [|[c x] es IH]; intros acc Ha Hn; cbn [rems]; [constructor|].
  apply Forall_cons_1 in Hn as [Hc Hn]. simpl in Hc. destruct (Z.eqb_spec (acc + Z.max 0 c) 0); [lia|].
  constructor; [simpl; lia|]. eapply Forall_impl; [by apply IH; [lia|]|]. simpl. lia.
Qed.
Lemma rems_ordered es : forall acc, 0 < acc -> nonneg es -> ordered (rems acc es).
Proof.
  induction es as [|[c x] es IH]; intros acc Ha Hn; cbn [rems]; [constructor|].
  apply Forall_cons_1 in Hn as [Hc Hn]. simpl in Hc. destruct (Z.eqb_spec (acc + Z.max 0 c) 0); [lia|].
  constructor; [apply IH; [lia|done]|]. simpl. apply rems_ge; [lia|done].
Qed.
Lemma rems_ordered_pos es : dwf es -> Forall (fun e => 0 < e.1) (rems 0 es) -> ordered (rems 0 es).
Proof.
  destruct es as [|[c x] es]; [constructor|]. cbn [dwf rems]. intros Hd [Hc _]%Forall_cons_1. simpl in Hc.
  destruct (Z.ltb_spec 0 c).
  - destruct (Z.eqb_spec (0 + Z.max 0 c) 0); [lia|]. constructor; [apply rems_ordered; [lia|done]|].
    simpl. apply rems_ge; [lia|done].
  - destruct (Z.eqb_spec (0 + Z.max 0 c) 0); lia.
Qed.

Lemma filter_none (P : pending -> Prop) `{forall x, Decision (P x)} l : Forall (fun e => ~ P e) l -> filter P l = [].
Proof. induction 1; [done|]. by rewrite filter_cons_False. Qed.

Lemma soft_idle l : forall fuel, ordered l -> (length (due l) < fuel)%nat ->
  a_softclock idle_body fuel l = Some (filter (fun e => 0 < e.1) l, snd <$> due l).
Proof.
  induction l as [|[r [f a]] l IH]; intros [|fuel] Ho Hf; try lia; [done|]. cbn [a_softclock].
  inversion Ho as [|? ? Ho' Hall]; subst. unfold due in *. destruct (Z.leb_spec r 0).
  - rewrite filter_cons_True in Hf by (simpl; lia). simpl in Hf. cbn [a_cmds idle_body].
    rewrite IH by (done || lia). rewrite filter_cons_False by (simpl; lia).
    rewrite filter_cons_True by (simpl; lia). done.
  - rewrite list_filter_all; [rewrite filter_none; [done|]|];
      (constructor; [simpl; lia|]; eapply Forall_impl; [done|]; simpl; lia).
Qed.

Lemma filter_shift (k : Z) l :
  filter (fun e => 0 < e.1) (a_tick ((fun e => (e.1 - k, e.2)) <$> filter (fun e => k < e.1) l)) =
  (fun e => (e.1 - (k + 1), e.2)) <$> filter (fun e => k + 1 < e.1) l.
Proof.
  unfold a_tick. induction l as [|[r x] l IH]; [done|].
  rewrite (filter_cons (fun e => k < e.1)), (filter_cons (fun e => k + 1 < e.1)). simpl.
  destruct (decide (k < r)).
  - rewrite !fmap_cons. rewrite filter_cons. simpl.
    destruct (decide (0 < r - k - 1)), (decide (k + 1 < r)); try lia; [|done].
    rewrite fmap_cons, IH. simpl. f_equal. f_equal. lia.
  - destruct (decide (k + 1 < r)); [lia|done].
Qed.
Lemma due_shift (k : Z) l : ordered l ->
  (snd <$> filter (fun e => e.1 <= k) l) ++
  (snd <$> due (a_tick ((fun e => (e.1 - k, e.2)) <$> filter (fun e => k < e.1) l))) =
  snd <$> filter (fun e => e.1 <= k + 1) l.
Proof.
  unfold a_tick, due. induction l as [|[r x] l IH]; intros Ho; [done|].
  inversion Ho as [|? ? Ho' Hall]; subst. rewrite !filter_cons. simpl.
  destruct (decide (r <= k)), (decide (k < r)); try lia.
  - rewrite decide_True by lia. rewrite !fmap_cons, <- app_comm_cons, IH by done. done.
  - rewrite !fmap_cons, filter_cons. simpl. simpl in Hall.
    assert (filter (fun e => e.1 <= k) l = []) as E.
    { apply filter_none. eapply Forall_impl; [done|]. simpl. lia. }
    specialize (IH Ho'). rewrite E in *. rewrite fmap_nil, app_nil_l in *.
    destruct (decide (r - k - 1 <= 0)), (decide (r <= k + 1)); try lia; rewrite ?fmap_cons; by rewrite IH.
Qed.

Lemma ordered_filter (P : pending -> Prop) `{forall x, Decision (P x)} l : ordered l -> ordered (filter P l).
Proof.
  unfold ordered. induction 1 as [|e l Hl IH Hall]; [constructor|]. rewrite filter_cons.
  case_decide; [|done]. constructor; [done|]. apply Forall_forall. intros x [_ Hx]%list_elem_of_filter.
  rewrite Forall_forall in Hall. by apply Hall.
Qed.

Definition shift (k : Z) (l : list pending) : list pending :=
  (fun e => (e.1 - k, e.2)) <$> filter (fun e => k < e.1) l.

Lemma ordered_shift k l : ordered l -> ordered (shift k l).
Proof.
  intros H%(ordered_filter (fun e => k < e.1)). unfold shift, ordered.
  induction H as [|e l' Hl IH Hall]; [constructor|]. rewrite fmap_cons. constructor; [done|].
  apply Forall_fmap. eapply Forall_impl; [done|]. simpl. lia.
Qed.
Lemma ordered_tick l : ordered l -> ordered (a_tick l).
Proof.
  unfold a_tick, ordered. induction 1 as [|e l' Hl IH Hall]; [constructor|]. rewrite fmap_cons.
  constructor; [done|]. apply Forall_fmap. eapply Forall_impl; [done|]. simpl. lia.
Qed.

Lemma spec_rounds k : forall j l,
  ordered l ->
  exists log, spec_evs idle_body (shift j l) (rounds k) = Some (shift (j + Z.of_nat k) l, log) /\
    (snd <$> filter (fun e => e.1 <= j) l) ++ log = snd <$> filter (fun e => e.1 <= j + Z.of_nat k) l.
Proof.
  induction k as [|k IH]; intros j l Ho.
  - exists []. rewrite Z.add_0_r, app_nil_r. done.
  - cbn [rounds spec_evs spec_ev]. rewrite (soft_idle (a_tick (shift j l)));
      [|by apply ordered_tick, ordered_shift|lia].
    unfold shift at 1. rewrite filter_shift. fold (shift (j + 1) l).
    destruct (IH (j + 1) l Ho) as (log&->&El). rewrite app_nil_l. eexists. split.
    + do 3 f_equal. lia.
    + rewrite app_assoc. pose proof (due_shift j l Ho) as Hd. fold (shift j l) in Hd. rewrite Hd, El.
      do 2 f_equal. apply list_filter_iff. intros e. lia.
Qed.

Lemma rounds_in_time k : in_time 0 (rounds k).
Proof. induction k as [|k IH]; cbn; [done|]. split; [lia|done]. Qed.

(** A pending call runs at the tick its delay asks for: when the soft
    clock runs after every tick, the calls made in the first [k] ticks are
    exactly those with at most [k] ticks left, in order of their times, and
    the others stay with [k] ticks less. *)
Theorem callout_on_time s es k :
  queued 0 s es -> Forall (fun e => 0 < e.1) (rems 0 es) ->
  exists s' es' n',
    exec_evs idle_body s (rounds k) = Ok (s', snd <$> filter (fun e => e.1 <= Z.of_nat k) (rems 0 es)) /\
    crep s' es' n' /\
    rems 0 es' = (fun e => (e.1 - Z.of_nat k, e.2)) <$> filter (fun e => Z.of_nat k < e.1) (rems 0 es).
Proof.
  intros Hs Hp. pose proof (rems_ordered_pos es (qd_wf _ _ _ Hs) Hp) as Ho.
  destruct (spec_rounds k 0 (rems 0 es) Ho) as (log&E&El).
  assert (shift 0 (rems 0 es) = rems 0 es) as E0.
  { unfold shift. rewrite list_filter_all by done. rewrite <- (list_fmap_id (rems 0 es)) at 2.
    apply list_fmap_ext. intros i [r x] _. simpl. f_equal. lia. }
  assert (filter (fun e => e.1 <= 0) (rems 0 es) = []) as E1.
  { apply filter_none. eapply Forall_impl; [done|]. simpl. lia. }
  rewrite E0 in E. rewrite E1 in El. rewrite Z.add_0_l in *. simpl in El. subst log.
  pose proof (exec_evs_spec idle_body ltac:(constructor) (rounds k) 0 s es Hs (rounds_in_time k)) as H. rewrite E in H.
  destruct (exec_evs idle_body s (rounds k)) as [[s' lg]|m|]; [|by destruct H|done].
  destruct H as (k'&es'&[[n' Hs'] _ _ _ _]&[= E2 ->]). eauto 10.
Qed.

Lemma callout_on_time_witness :
  exists s' es' n',
    exec_evs idle_body coutinit (rounds 3) = Ok (s', snd <$> filter (fun e => e.1 <= Z.of_nat 3) (rems 0 [])) /\
    crep s' es' n' /\
    rems 0 es' = (fun e => (e.1 - Z.of_nat 3, e.2)) <$> filter (fun e => Z.of_nat 3 < e.1) (rems 0 []).
Proof. apply (callout_on_time coutinit [] 3 coutinit_queued). constructor. Defined.

(** ** Time of day, usage and limits *)

(** A tick moves the time of day by one tick, or by two or none while
    an adjustment is pending, which it brings one tick closer to zero; the
    ticks of the second stay below [hz]. *)
Theorem advance_time_spec k :
  0 <= lbolt k < hz -> -2147483648 <= tv_sec k < 2147483647 ->
  let k' := advance_time k in
  0 <= lbolt k' < hz /\
  hz * tv_sec k' + lbolt k' = hz * tv_sec k + lbolt k + 1 + Z.sgn (adjdelta k) /\
  adjdelta k' = adjdelta k - Z.sgn (adjdelta k).
Proof.
  intros Hl Ht k'. unfold k', advance_time, hz in *.
  destruct (Z.eqb_spec (adjdelta k) 0) as [->|Ha]; [|destruct (Z.ltb_spec 0 (adjdelta k))];
    case_if; cbn [lbolt tv_sec adjdelta]; norm_int; lia.
Qed.

Definition kclock0 : kclock :=
  KClock false 199 1 100 [0; 0; 0; 0] 0 0 (Itimer 0 0) (Itimer 0 0) 1000 1000
    (Uprof [] 0 0 0) inhabitant 50 0 [].
Lemma advance_time_spec_witness :
  0 <= lbolt (advance_time kclock0) < hz /\
  hz * tv_sec (advance_time kclock0) + lbolt (advance_time kclock0) = hz * 100 + 199 + 1 + Z.sgn 1 /\
  adjdelta (advance_time kclock0) = 1 - Z.sgn 1.
Proof. apply (advance_time_spec kclock0); vm_compute; done. Defined.

Lemma byte_s8 x : Z.land (s8 x) 255 = u8 x.
Proof.
  change 255 with (Z.ones 8). rewrite Z.land_ones by lia. unfold s8, u8.
  rewrite Zminus_mod, Zmod_mod, <- Zminus_mod. f_equal. lia.
Qed.

(** The usage counter of the running process goes up to 255 and stays. *)
Lemma cpu_tick_saturates p :
  -128 <= p_cpu p < 128 -> cpu_byte (cpu_tick p) = Z.min 255 (cpu_byte p + 1).
Proof.
  intros H. unfold cpu_tick, cpu_byte, set_p_cpu. cbn [p_cpu].
  assert (Z.land (p_cpu p) 255 = p_cpu p mod 256) as ->.
  { change 255 with (Z.ones 8). by rewrite Z.land_ones by lia. }
  destruct (decide (p_cpu p = 127)) as [->|H1]; [done|].
  rewrite (s8_small (p_cpu p + 1)) by lia. destruct (Z.eqb_spec (p_cpu p + 1) 0).
  - replace (p_cpu p) with (-1) by lia. done.
  - assert (Z.land (p_cpu p + 1) 255 = (p_cpu p + 1) mod 256) as ->.
    { change 255 with (Z.ones 8). by rewrite Z.land_ones by lia. }
    destruct (decide (0 <= p_cpu p)); [rewrite !Z.mod_small by lia; lia|].
    rewrite <- (Z.mod_add (p_cpu p + 1) 1), <- (Z.mod_add (p_cpu p) 1), !Z.mod_small by lia. lia.
Qed.

(** What the clock interrupt relies on: the four usage counters, a time in
    range and a profiling buffer as long as it says. *)
Record kclock_wf (k : kclock) : Prop := {
  wf_cp : length (cp_time k) = 4%nat;
  wf_lbolt : 0 <= lbolt k < hz;
  wf_sec : -2147483648 <= tv_sec k < 2147483647;
  wf_prof : pr_size (u_prof k) <= Z.of_nat (length (pr_base (u_prof k))) }.

Lemma gatherstats_ok k um bp :
  length (cp_time k) = 4%nat -> exists cp, gatherstats k um bp = Ok cp /\ length cp = 4%nat.
Proof.
  intros Hl. unfold gatherstats.
  assert (cpstate k um bp < length (cp_time k))%nat as Hlt.
  { rewrite Hl. unfold cpstate, CP_NICE, CP_USER, CP_IDLE, CP_SYS. repeat case_if; lia. }
  destruct (lookup_lt_is_Some_2 _ _ Hlt) as [c Hc]. rewrite (rd_Some _ _ _ Hc). cbn [mbind res_bind].
  rewrite wr_lt by done. eexists. split; [done|]. by rewrite length_insert.
Qed.

Lemma addupc_ok pc b t :
  pr_size b <= Z.of_nat (length (pr_base b)) ->
  exists b', addupc pc b t = Ok b' /\ pr_size b' = pr_size b /\ length (pr_base b') = length (pr_base b).
Proof.
  intros Hs. unfold addupc. destruct (pc <? pr_off b); [eauto|]. cbv zeta.
  set (i := Z.shiftr _ 16). destruct (Z.leb_spec (pr_size b) i) as [?|Hlt]; [eauto|].
  assert (0 <= i) as Hi by (apply Z.shiftr_nonneg, u32_bound).
  assert (Z.to_nat i < length (pr_base b))%nat as Hl by lia.
  destruct (lookup_lt_is_Some_2 _ _ Hl) as [c Hc]. rewrite (rd_Some _ _ _ Hc). cbn [mbind res_bind].
  rewrite wr_lt by done. cbn [mbind res_bind]. eexists. split; [done|]. simpl. by rewrite length_insert.
Qed.

Lemma soft_user_ok k pc um :
  pr_size (u_prof k) <= Z.of_nat (length (pr_base (u_prof k))) ->
  exists k', soft_user k pc um = Ok k' /\
    lbolt k' = lbolt k /\ tv_sec k' = tv_sec k /\ adjdelta k' = adjdelta k /\
    ru_utime k' = ru_utime k /\ ru_stime k' = ru_stime k.
Proof.
  intros H4. unfold soft_user. destruct um; cbn [negb]; [|by exists k].
  assert (exists b, (if pr_scale (u_prof k) =? 0 then Ok (u_prof k) else addupc pc (u_prof k) 1) = Ok b /\
    pr_size b <= Z.of_nat (length (pr_base b))) as (b&->&Hb).
  { case_if; [eauto|]. destruct (addupc_ok pc (u_prof k) 1 H4) as (b&->&E1&E2).
    exists b. by rewrite E1, E2. }
  cbn [mbind res_bind]. destruct (_ && _); by eexists.
Qed.

(** With a first delta above 1 no call is due after the tick. *)
Lemma no_due_after es :
  dwf es -> match es with [] => false | (c, _) :: _ => c <=? 1 end = false ->
  due (a_tick (rems 0 es)) = [].
Proof.
  intros Hd Hc. apply filter_none. unfold a_tick. apply Forall_fmap.
  destruct es as [|[c x] es]; [constructor|]. apply Z.leb_gt in Hc. cbn [dwf rems] in *.
  destruct (Z.ltb_spec 0 c); [|lia]. destruct (Z.eqb_spec (0 + Z.max 0 c) 0); [lia|].
  constructor; [simpl; lia|]. eapply Forall_impl; [apply rems_ge; [|done]; lia|]. simpl. lia.
Qed.

Lemma softclock_none body l : due l = [] -> a_softclock body (S (length (due l))) l = Some (l, []).
Proof.
  intros H. destruct l as [|[r [f a]] l]; [done|]. rewrite H. cbn [a_softclock length].
  destruct (Z.leb_spec r 0); [|done]. unfold due in H. rewrite filter_cons_True in H; [done|simpl; lia].
Qed.

Lemma charge_fields k um :
  kclock_wf k -> let k' := charge_proc (charge_mode k um) in
  length (cp_time k') = 4%nat /\ lbolt k' = lbolt k /\ tv_sec k' = tv_sec k /\ adjdelta k' = adjdelta k /\
  u_prof k' = u_prof k /\
  ru_utime k' = (if um then s32 (ru_utime k + 1) else ru_utime k) /\
  ru_stime k' = (if negb um && negb (noproc k) then s32 (ru_stime k + 1) else ru_stime k).
Proof.
  intros [H1 H2 H3 H4]. unfold charge_proc, charge_mode.
  destruct um; [destruct (itimer_tick (u_timer_virt k)) as [vt fired]|]; cbn [noproc];
    destruct (noproc k); cbn [negb andb noproc u_timer_prof rlim_cur rlim_max ru_utime ru_stime u_proc posted];
    try destruct (itimer_tick (u_timer_prof k)); done.
Qed.

(** The clock interrupt takes one tick from every pending call, runs those
    that are due if the interrupted priority allows it, charges the tick to
    user or system time and moves the time of day; it panics only when a call
    it runs asks for one more than NCALL pending calls. *)
Theorem hardclock_spec body s es late k pc um (bp : bool) :
  (forall f a, Forall int_cmd (body f a)) -> queued late s es -> late + 1 < 2147483648 -> kclock_wf k ->
  let spec := if bp then spec_ev body (a_tick (rems 0 es)) EvSoft else Some (a_tick (rems 0 es), []) in
  match hardclock body s k pc um bp with
  | Ok (s', k', log) => exists es' n', crep s' es' n' /\ spec = Some (rems 0 es', log) /\
      ru_utime k' = (if um then s32 (ru_utime k + 1) else ru_utime k) /\
      ru_stime k' = (if negb um && negb (noproc k) then s32 (ru_stime k + 1) else ru_stime k) /\
      0 <= lbolt k' < hz /\
      hz * tv_sec k' + lbolt k' = hz * tv_sec k + lbolt k + 1 + Z.sgn (adjdelta k)
  | Panic m => m = overflow /\ spec = None
  | Fault => False
  end.
Proof.
  intros Hb Hs Hl Hk spec. unfold spec, hardclock. destruct (tick_spec late s es Hs Hl) as (s1&->&Hs1&R1). rewrite <- R1. cbn [mbind res_bind].
  set (due1 := match es with [] => false | (c, _) :: _ => c <=? 1 end).
  destruct (charge_fields k um Hk) as (Hcp&Hlb&Hts&Hadj&Hpr&Hut&Hst).
  set (k1 := charge_proc (charge_mode k um)) in *.
  destruct (gatherstats_ok k1 um bp Hcp) as (cp&->&Hcp2). cbn [mbind res_bind].
  set (k2 := KClock (noproc k1) (lbolt k1) (adjdelta k1) (tv_sec k1) cp _ _ _ _ _ _ _ _ _ _ _).
  destruct Hk as [Hk1 Hk2 Hk3 Hk4].
  assert (let k3 := advance_time k2 in 0 <= lbolt k3 < hz /\
    hz * tv_sec k3 + lbolt k3 = hz * tv_sec k2 + lbolt k2 + 1 + Z.sgn (adjdelta k2) /\
    length (cp_time k3) = 4%nat /\ u_prof k3 = u_prof k /\ ru_utime k3 = ru_utime k1 /\ ru_stime k3 = ru_stime k1)
    as (Hl3&Ht3&Hc3&Hp3&Hu3&Hs3).
  { unfold advance_time. unfold k2. cbn [lbolt tv_sec adjdelta cp_time u_prof ru_utime ru_stime noproc].
    rewrite Hlb, Hts, Hadj. unfold hz in *.
    destruct (Z.eqb_spec (adjdelta k) 0) as [->|]; [|destruct (Z.ltb_spec 0 (adjdelta k))];
      destruct (Z.leb_spec 200 (lbolt k + 1)), (Z.leb_spec 200 (lbolt k + 1 + 1)), (Z.leb_spec 200 (lbolt k - 1 + 1));
      cbn [lbolt tv_sec adjdelta cp_time u_prof ru_utime ru_stime]; norm_int; split_and!; (done || lia). }
  assert (hz * tv_sec k2 + lbolt k2 + 1 + Z.sgn (adjdelta k2) = hz * tv_sec k + lbolt k + 1 + Z.sgn (adjdelta k)) as E2.
  { unfold k2. cbn [lbolt tv_sec adjdelta]. by rewrite Hlb, Hts, Hadj. }
  set (k3 := advance_time k2) in *.
  destruct ((due1 || _) && bp) eqn:Eb.
  - apply andb_true_iff in Eb as [Eb ->]. unfold softclock. pose proof (soft_spec body Hb (late + 1) s1 (d_tick es) Hs1) as H.
    destruct (softclock_loop body (S (length (callout s1))) s1) as [[s4 log]|m|]; cbn [mbind res_bind]; [|done..]. destruct H as (es4&[[n4 Hs4] _ _ _ _]&R4).
    destruct (soft_user_ok k3 pc um) as (k4&->&El&Et&_&Eu&Es); [by rewrite Hp3|].
    cbn [mbind res_bind]. exists es4, n4. rewrite El, Et, Eu, Es. split_and!; try done; try lia; try congruence.
  - destruct (qd_rep _ _ _ Hs1) as [n1 Hn1]. exists (d_tick es), n1. split; [done|].
    split; [|split_and!; try done; try lia; congruence].
    destruct bp; [|done]. cbn [spec_ev]. rewrite andb_true_r in Eb.
    apply orb_false_iff in Eb as [Eb _]. rewrite R1. by rewrite softclock_none by (by apply no_due_after; [apply Hs|]).
Qed.

Lemma hardclock_spec_witness :
  match hardclock body1 coutinit kclock0 0 true true with
  | Ok (s', k', log) => exists es' n', crep s' es' n' /\ spec_ev body1 (a_tick (rems 0 [])) EvSoft = Some (rems 0 es', log) /\
      ru_utime k' = s32 (0 + 1) /\ ru_stime k' = 0 /\ 0 <= lbolt k' < hz /\
      hz * tv_sec k' + lbolt k' = hz * 100 + 199 + 1 + Z.sgn 1
  | Panic m => m = overflow /\ spec_ev body1 (a_tick (rems 0 [])) EvSoft = None
  | Fault => False
  end.
Proof.
  apply (hardclock_spec body1 coutinit [] 0 kclock0 0 true true); [exact body1_int|exact coutinit_queued|lia|].
  by split; vm_compute.
Defined.

(** (C40) hzto gives the ticks of 5000 microseconds to a time up to 24 days
    ahead or ago, less than 6000 microseconds off, and less than 1000 too late
    for a time ahead and too early for one ago; for later times it counts whole
    seconds, up to the largest integer.  For a time from 25 to 49 days ago the
    product overflows, and the result is a delay as for a time ahead. *)
Theorem hzto_spec now_sec now_usec sec usec :
  0 <= now_sec < 2147483648 -> 0 <= sec < 2147483648 ->
  0 <= now_usec < 1000000 -> 0 <= usec < 1000000 ->
  let d := sec - now_sec in
  let us := d * 1000000 + (usec - now_usec) in
  let h := hzto now_sec now_usec sec usec in
  (-2146483 <= d <= 2146483 -> -6000 < 5000 * h - us < 6000 /\ (0 <= us -> 5000 * h < us + 1000) /\ (us <= 0 -> us - 1000 < 5000 * h)) /\
  (2146483 < d -> h = Z.min (d * hz) 2147483647) /\
  (-4294965 <= d <= -2147485 -> 0 < h).
Proof.
  intros H1 H2 H4 H5 d us h. unfold h, hzto, hz. rewrite (s32_small (sec - now_sec)) by lia. fold d.
  change (Z.quot 2147483647 1000 - 1000) with 2146483. change (Z.quot 2147483647 200) with 10737418.
  change (Z.quot 1000 200) with 5. rewrite (s32_small (usec - now_usec)) by lia.
  set (q := Z.quot (usec - now_usec) 1000).
  assert (-1000 < (usec - now_usec) - 1000 * q < 1000 /\ -1000 < q < 1000 /\ (0 <= usec - now_usec -> 1000 * q <= usec - now_usec) /\ (usec - now_usec <= 0 -> usec - now_usec <= 1000 * q)) as (Hq1&Hq2&_&_).
  { unfold q. Z.to_euclidean_division_equations; lia. }
  split; [|split].
  - intros Hd. rewrite (proj2 (Z.leb_le _ _)), (s32_small (d * 1000)), (s32_small (d * 1000 + q)) by lia. set (r := Z.quot (d * 1000 + q) 5).
    assert (-5 < d * 1000 + q - 5 * r < 5 /\ (0 <= d * 1000 + q -> 5 * r <= d * 1000 + q) /\ (d * 1000 + q <= 0 -> d * 1000 + q <= 5 * r)) as (R1&R2&R3) by (unfold r; Z.to_euclidean_division_equations; lia).
    unfold us. lia.
  - intros Hd. rewrite (proj2 (Z.leb_gt _ _)) by lia. destruct (Z.leb_spec d 10737418); [|lia]. rewrite s32_small by lia. lia.
  - intros Hd. rewrite (proj2 (Z.leb_le _ _)) by lia. assert (s32 (d * 1000) = d * 1000 + 4294967296) as -> by (unfold s32; Z.to_euclidean_division_equations; lia).
    rewrite s32_small by lia. assert (1000 < d * 1000 + 4294967296 + q) by lia. Z.to_euclidean_division_equations; lia.
Qed.

Lemma hzto_spec_witness :
  (-2146483 <= 1 <= 2146483 -> -6000 < 5000 * hzto 100 0 101 500000 - 1500000 < 6000 /\ (0 <= 1500000 -> 5000 * hzto 100 0 101 500000 < 1500000 + 1000) /\ (1500000 <= 0 -> 1500000 - 1000 < 5000 * hzto 100 0 101 500000)) /\
  (2146483 < 1 -> hzto 100 0 101 500000 = Z.min (1 * hz) 2147483647) /\
  (-4294965 <= 1 <= -2147485 -> 0 < hzto 100 0 101 500000).
Proof. apply (hzto_spec 100 0 101 500000); lia. Defined.
(** A time 26 days ago. *)
Lemma hzto_past : hzto 2246400 0 0 0 = 409713459.
Proof. reflexivity. Qed.

End Clock.
