(* ===== verification/Dll.v ===== *)
(** Circular doubly linked lists, as the buffer cache, the inode cache and
    insque/remque of sys/pic32/machdep.c keep them.

    The two links are finite maps from element addresses; [ring f g h l] is
    the list with header [h] and elements [l]. *)
From S2P Require Import Prelude.

Module Dll.

Section Dll.
Implicit Types (f g : gmap Z Z) (a b e h : Z) (l : list Z).

(** From [a] forward through [l] to [b], and back. *)
Fixpoint dseg f g a l b : Prop :=
  match l with
  | [] => f !! a = Some b /\ g !! b = Some a
  | x :: l => f !! a = Some x /\ g !! x = Some a /\ dseg f g x l b
  end.
Definition ring f g h l : Prop := dseg f g h l h /\ NoDup (h :: l).

Lemma dseg_app f g a l1 x l2 b :
  dseg f g a (l1 ++ x :: l2) b <-> dseg f g a l1 x /\ dseg f g x l2 b.
Proof.
  revert a. induction l1 as [|y l1 IH]; intros a; simpl; [tauto|]. rewrite IH. tauto.
Qed.

(** A segment depends on the forward links of [a] and [l] and on the backward
    links of [l] and [b]. *)
Lemma dseg_frame f g f' g' a l b :
  (forall x, x ∈ a :: l -> f' !! x = f !! x) -> (forall x, x ∈ l ++ [b] -> g' !! x = g !! x) ->
  dseg f g a l b -> dseg f' g' a l b.
Proof.
  revert a. induction l as [|y l IH]; intros a Hf Hg; simpl.
  - intros [H1 H2]. rewrite Hf by apply list_elem_of_here. rewrite Hg by apply list_elem_of_here. done.
  - intros (H1&H2&H3). rewrite Hf by apply list_elem_of_here. rewrite Hg by apply list_elem_of_here.
    split; [done|]. split; [done|]. apply IH; [|intros z Hz; apply Hg; set_solver|done].
    intros z Hz. apply Hf. set_solver.
Qed.

Lemma dseg_next f g a l b : dseg f g a l b -> f !! a = Some (List.hd b l).
Proof. destruct l; simpl; tauto. Qed.
Lemma last_default l d d' x : List.last (x :: l) d = List.last (x :: l) d'.
Proof. revert x. induction l as [|y l IH]; intros x; [done|]. apply (IH y). Qed.
Lemma dseg_prev f g a l b : dseg f g a l b -> g !! b = Some (List.last l a).
Proof.
  revert a. induction l as [|x l IH]; intros a; simpl; [tauto|]. intros (_&_&H).
  rewrite (IH _ H). destruct l as [|y l]; [done|]. f_equal. apply last_default.
Qed.

(** Writing the links of [e] between [a] and its successor. *)
Lemma dseg_insert f g a l b e :
  dseg f g a l b -> NoDup (a :: l) -> NoDup (l ++ [b]) -> e ∉ a :: l -> e ∉ l ++ [b] ->
  dseg (<[a := e]> (<[e := List.hd b l]> f)) (<[List.hd b l := e]> (<[e := a]> g)) a (e :: l) b.
Proof.
  intros H Hn1 Hn2 He1 He2. simpl.
  assert (e <> a) by set_solver.
  rewrite lookup_insert_eq. split; [done|]. 
  assert (List.hd b l <> e) as Hhe by (destruct l; set_solver).
  rewrite (lookup_insert_ne (M := gmap Z)), lookup_insert_eq by done. split; [done|].
  destruct l as [|x l]; simpl in *.
  - rewrite lookup_insert_ne, lookup_insert_eq by done. rewrite lookup_insert_eq. done.
  - destruct H as (_&_&H3). rewrite lookup_insert_ne, lookup_insert_eq by done. rewrite lookup_insert_eq.
    split; [done|]. split; [done|]. eapply dseg_frame; [| |done].
    + intros z Hz. apply NoDup_cons in Hn1 as [? ?]. rewrite !lookup_insert_ne; [done|set_solver..].
    + intros z Hz. apply NoDup_cons in Hn2 as [? ?]. rewrite !lookup_insert_ne; [done|set_solver..].
Qed.

(** Unlinking the first element of a segment. *)
Lemma dseg_remove f g a e l b :
  dseg f g a (e :: l) b -> NoDup (a :: e :: l) -> NoDup (e :: l ++ [b]) ->
  dseg (<[a := List.hd b l]> f) (<[List.hd b l := a]> g) a l b.
Proof.
  intros (_&_&H) Hn1 Hn2. destruct l as [|x l]; simpl in *.
  - by rewrite !lookup_insert_eq.
  - destruct H as (_&_&H). rewrite !lookup_insert_eq. split; [done|]. split; [done|].
    eapply dseg_frame; [| |done].
    + intros z Hz. rewrite lookup_insert_ne; [done|]. rewrite !NoDup_cons in Hn1. set_solver.
    + intros z Hz. rewrite lookup_insert_ne; [done|]. rewrite !NoDup_cons in Hn2. set_solver.
Qed.

(** Rings that share no element with what changed stay. *)
Lemma ring_frame f g f' g' h l :
  (forall x, x ∈ h :: l -> f' !! x = f !! x /\ g' !! x = g !! x) -> ring f g h l -> ring f' g' h l.
Proof.
  intros Hx [H1 H2]. split; [|done]. eapply dseg_frame; [| |done]; intros x Hin; apply Hx; set_solver.
Qed.

(** Inserting [e] after [p], an element of the ring or its header. *)
Lemma ring_insert f g h l1 p l2 e n :
  ring f g h (l1 ++ l2) -> e ∉ h :: l1 ++ l2 -> p = List.last l1 h -> n = List.hd h l2 ->
  ring (<[p := e]> (<[e := n]> f)) (<[n := e]> (<[e := p]> g)) h (l1 ++ e :: l2).
Proof.
  intros [Hd Hnd] He -> ->. split; last first.
  { apply NoDup_cons in Hnd as [Hh Hnd]. apply NoDup_cons. split; [set_solver|].
    rewrite <- Permutation_middle. apply NoDup_cons. split; [set_solver|done]. }
  destruct l1 as [|p l1 _] using rev_ind.
  - simpl in *. apply dseg_insert; [done|done| |set_solver|set_solver].
    apply NoDup_cons in Hnd as [Hh Hnd]. apply NoDup_app. split_and!; [done| |apply NoDup_singleton].
    set_solver.
  - rewrite last_last. rewrite <- app_assoc in Hd, Hnd, He. simpl in Hd, Hnd, He.
    rewrite <- app_assoc. simpl. apply dseg_app in Hd as [Hd1 Hd2]. apply dseg_app.
    apply NoDup_cons in Hnd as [Hh Hnd]. apply NoDup_app in Hnd as (Hn1&Hn12&Hn2).
    assert (p ∉ l1) by (intros Hp; apply (Hn12 p Hp), list_elem_of_here).
    assert (p ∉ l2) by (by apply NoDup_cons in Hn2 as [? _]).
    assert (List.hd h l2 ∉ l1 ++ [p]) as Hhd.
    { destruct l2 as [|y l2]; simpl; [set_solver|]. intros [Hy|Hy]%elem_of_app; [|set_solver].
      apply (Hn12 y Hy). set_solver. }
    split.
    + eapply dseg_frame; [| |exact Hd1].
      * intros x Hx. rewrite !lookup_insert_ne; [done|set_solver..].
      * intros x Hx. rewrite !lookup_insert_ne; [done|set_solver..].
    + apply dseg_insert; [done|done| |set_solver|set_solver].
      apply NoDup_app. apply NoDup_cons in Hn2 as [? ?].
      split_and!; [done|set_solver|apply NoDup_singleton].
Qed.

(** Removing an element. *)
Lemma ring_remove f g h l1 e l2 :
  ring f g h (l1 ++ e :: l2) ->
  f !! e = Some (List.hd h l2) /\ g !! e = Some (List.last l1 h) /\
  ring (<[List.last l1 h := List.hd h l2]> f) (<[List.hd h l2 := List.last l1 h]> g) h (l1 ++ l2).
Proof.
  intros [Hd Hnd]. pose proof Hd as [Hda Hdb]%dseg_app.
  split; [by apply dseg_next in Hdb|]. split; [by apply dseg_prev in Hda|].
  pose proof Hnd as [Hh Hnd']%NoDup_cons. apply NoDup_app in Hnd' as (Hn1&Hn12&[He2 Hn2]%NoDup_cons).
  assert (NoDup (h :: l1 ++ l2)) as Hnd2.
  { apply NoDup_cons. split; [set_solver|]. apply NoDup_app. split_and!; try done.
    intros x Hx ?. apply (Hn12 x Hx). set_solver. }
  split; [|done]. destruct l1 as [|p l1 _] using rev_ind.
  - simpl in *. apply dseg_remove with e; [done|done|].
    apply NoDup_cons. split; [set_solver|]. apply NoDup_app.
    split_and!; [done|set_solver|apply NoDup_singleton].
  - rewrite last_last. rewrite <- app_assoc in *. simpl in *. apply dseg_app in Hd as [Hd1 Hd2]. apply dseg_app.
    apply NoDup_app in Hn1 as (Hn1&Hp1&_).
    assert (p ∉ l1) by (intros Hp; apply (Hp1 p Hp), list_elem_of_here).
    assert (p <> h) by set_solver.
    assert (p ∉ e :: l2) as Hpe by (apply Hn12; set_solver).
    assert (List.hd h l2 ∉ l1 ++ [p]) as Hhd.
    { destruct l2 as [|y l2]; simpl; [set_solver|]. intros Hy. apply (Hn12 y Hy). set_solver. }
    split.
    + eapply dseg_frame; [| |exact Hd1]; intros x Hx; (rewrite lookup_insert_ne; [done|set_solver]).
    + apply dseg_remove with e; [done| |].
      * rewrite !NoDup_cons. split_and!; [set_solver|set_solver|done].
      * apply NoDup_cons. split; [set_solver|]. apply NoDup_app.
        split_and!; [done|set_solver|apply NoDup_singleton].
Qed.

End Dll.

(** ** Several rings with the same links

    [H] are the headers and [L h] the elements of the ring of [h]; no element
    is a header or in two rings. *)
Section Rings.
Implicit Types (f g : gmap Z Z) (e h : Z) (H : Z -> Prop) (L : Z -> list Z).

Record rings f g H L : Prop := {
  r_ring : forall h, H h -> ring f g h (L h);
  r_elem : forall h e, H h -> e ∈ L h -> ~ H e;
  r_disj : forall h h' e, H h -> H h' -> e ∈ L h -> e ∈ L h' -> h = h' }.

Definition with_list L h l : Z -> list Z := fun k => if decide (k = h) then l else L k.
Lemma with_list_eq L h l : with_list L h l h = l.
Proof. unfold with_list. by rewrite decide_True. Qed.
Lemma with_list_ne L h l k : k <> h -> with_list L h l k = L k.
Proof. intros. unfold with_list. by rewrite decide_False. Qed.

Lemma hd_in_ring h l : List.hd h l ∈ h :: l.
Proof. destruct l; simpl; set_solver. Qed.
Lemma last_in_ring h l : List.last l h ∈ h :: l.
Proof. destruct l as [|x l _] using rev_ind; [set_solver|]. rewrite last_last. set_solver. Qed.

(** The links of the other rings are not touched when only [h], elements of
    its ring or a new element are written. *)
Lemma rings_frame f g H L f' g' h l :
  rings f g H L -> H h -> ring f' g' h l ->
  (forall e, e ∈ l -> ~ H e /\ forall k, H k -> k <> h -> e ∉ L k) ->
  (forall x, (x ∉ h :: l) -> (x ∉ h :: L h) -> f' !! x = f !! x /\ g' !! x = g !! x) ->
  rings f' g' H (with_list L h l).
Proof.
  intros [R1 R2 R3] Hh Hr Hl Hx. split.
  - intros k Hk. destruct (decide (k = h)) as [->|Hne]; [by rewrite with_list_eq|]. rewrite with_list_ne by done.
    eapply ring_frame; [|by apply R1]. intros x Hin. apply Hx.
    + intros [->|Hxl]%elem_of_cons.
      * apply elem_of_cons in Hin as [?|Hin]; [done|]. by apply (R2 k h).
      * destruct (Hl x Hxl) as [Hnx Hnl]. apply elem_of_cons in Hin as [->|Hin]; [done|]. by apply (Hnl k).
    + intros [->|Hxl]%elem_of_cons.
      * apply elem_of_cons in Hin as [?|Hin]; [done|]. by apply (R2 k h).
      * apply elem_of_cons in Hin as [->|Hin]; [by apply (R2 h k)|]. apply Hne. by apply (R3 k h x).
  - intros k e Hk. destruct (decide (k = h)) as [->|Hne].
    + rewrite with_list_eq. intros He. by apply Hl.
    + rewrite with_list_ne by done. by apply R2.
  - intros k k' e Hk Hk'. destruct (decide (k = h)) as [->|Hne], (decide (k' = h)) as [->|Hne'];
      rewrite ?with_list_eq, ?with_list_ne by done; try done.
    + intros He He'. by destruct (proj2 (Hl e He) k' Hk' Hne' He').
    + intros He He'. by destruct (proj2 (Hl e He') k Hk Hne He).
    + by apply R3.
Qed.

Lemma rings_remove f g H L h l1 e l2 :
  rings f g H L -> H h -> L h = l1 ++ e :: l2 ->
  f !! e = Some (List.hd h l2) /\ g !! e = Some (List.last l1 h) /\
  rings (<[List.last l1 h := List.hd h l2]> f) (<[List.hd h l2 := List.last l1 h]> g) H (with_list L h (l1 ++ l2)).
Proof.
  intros R Hh E. pose proof (r_ring _ _ _ _ R h Hh) as Hr. rewrite E in Hr.
  destruct (ring_remove _ _ _ _ _ _ Hr) as (H1&H2&H3). split; [done|]. split; [done|].
  eapply rings_frame; [done|done|done| |].
  - intros x Hx. split; [apply (r_elem _ _ _ _ R h x Hh); rewrite E; set_solver|].
    intros k Hk Hne Hxk. apply Hne. apply (r_disj _ _ _ _ R k h x Hk Hh Hxk). rewrite E. set_solver.
  - intros x Hx _. pose proof (hd_in_ring h l2). pose proof (last_in_ring h l1).
    rewrite !lookup_insert_ne; [done| |]; intros <-; apply Hx; set_solver.
Qed.

(** Where a new element is inserted: after [l1] in the ring of [h]. *)
Lemma rings_insert f g H L h l1 l2 e p n :
  rings f g H L -> H h -> L h = l1 ++ l2 -> ~ H e -> (forall k, H k -> e ∉ L k) ->
  p = List.last l1 h -> n = List.hd h l2 ->
  rings (<[p := e]> (<[e := n]> f)) (<[n := e]> (<[e := p]> g)) H (with_list L h (l1 ++ e :: l2)).
Proof.
  intros R Hh E He Hfree -> ->. pose proof (r_ring _ _ _ _ R h Hh) as Hr. rewrite E in Hr.
  assert (e ∉ h :: l1 ++ l2) as Hne.
  { intros [->|Hin]%elem_of_cons; [done|]. apply (Hfree h Hh). by rewrite E. }
  pose proof (ring_insert _ _ _ _ _ _ _ _ Hr Hne eq_refl eq_refl) as Hr'.
  eapply rings_frame; [done|done|done| |].
  - intros x Hx. assert (x = e \/ x ∈ L h) as [->|Hx'] by (rewrite E; set_solver);
      [split; [done|by intros k Hk _; apply Hfree]|].
    split; [by apply (r_elem _ _ _ _ R h x Hh)|].
    intros k Hk Hk' Hxk. apply Hk'. by apply (r_disj _ _ _ _ R k h x Hk Hh).
  - intros x Hx Hx'. rewrite E in Hx'. pose proof (hd_in_ring h l2). pose proof (last_in_ring h l1).
    rewrite !lookup_insert_ne; [done|..]; intros <-; set_solver.
Qed.

Lemma rings_next f g H L h : rings f g H L -> H h -> f !! h = Some (List.hd h (L h)).
Proof. intros R Hh. destruct (r_ring _ _ _ _ R h Hh) as [Hd _]. by apply dseg_next in Hd. Qed.
Lemma rings_prev f g H L h : rings f g H L -> H h -> g !! h = Some (List.last (L h) h).
Proof. intros R Hh. destruct (r_ring _ _ _ _ R h Hh) as [Hd _]. by apply dseg_prev in Hd. Qed.
Lemma rings_after f g H L h l1 e l2 : rings f g H L -> H h -> L h = l1 ++ e :: l2 -> f !! e = Some (List.hd h l2).
Proof. intros R Hh E. by destruct (rings_remove _ _ _ _ _ _ _ _ R Hh E). Qed.
Lemma rings_ext f g H L L' : (forall h, H h -> L' h = L h) -> rings f g H L -> rings f g H L'.
Proof.
  intros E [R1 R2 R3]. split.
  - intros h Hh. rewrite E by done. auto.
  - intros h e Hh. rewrite E by done. eauto.
  - intros h h' e Hh Hh'. rewrite !E by done. eauto.
Qed.
Lemma rings_nodup f g H L h : rings f g H L -> H h -> NoDup (L h).
Proof. intros R Hh. destruct (r_ring _ _ _ _ R h Hh) as [_ Hn]. by apply NoDup_cons in Hn as [_ ?]. Qed.

(** Fewer headers, and one more: an element that is linked to itself. *)
Lemma rings_sub f g H H' L : (forall h, H' h -> H h) -> rings f g H L -> rings f g H' L.
Proof.
  intros Hs [R1 R2 R3]. split; [auto|intros h e Hh He Hn; by apply (R2 h e (Hs _ Hh) He), Hs|intros h h' e ? ?; eauto].
Qed.
Lemma rings_self f g H H' L e :
  rings f g H L -> ~ H e -> (forall k, H k -> e ∉ L k) -> (forall h, H' h -> H h \/ h = e) ->
  rings (<[e := e]> f) (<[e := e]> g) H' (with_list L e []).
Proof.
  intros [R1 R2 R3] He Hfree Hs.
  assert (forall h, H' h -> h <> e -> H h) as Hs' by (intros h Hh Hne; by destruct (Hs h Hh)). split.
  - intros h Hh. destruct (decide (h = e)) as [->|Hne].
    + rewrite with_list_eq. split; [by simpl; rewrite !lookup_insert_eq|apply NoDup_singleton].
    + rewrite with_list_ne by done. eapply ring_frame; [|by apply R1; auto]. intros x Hx.
      assert (x <> e) by (intros ->; apply elem_of_cons in Hx as [?|Hx]; [congruence|by apply (Hfree h (Hs' h Hh Hne))]).
      by rewrite !lookup_insert_ne by done.
  - intros h x Hh. destruct (decide (h = e)) as [->|Hne]; [rewrite with_list_eq; intros Hx; by apply not_elem_of_nil in Hx|].
    rewrite with_list_ne by done. intros Hx Hx'. destruct (Hs x Hx') as [?| ->]; [by apply (R2 h x (Hs' h Hh Hne) Hx)|by apply (Hfree h (Hs' h Hh Hne))].
  - intros h h' x Hh Hh'. destruct (decide (h = e)) as [->|Hne]; [rewrite with_list_eq; intros Hx; by apply not_elem_of_nil in Hx|].
    destruct (decide (h' = e)) as [->|Hne']; [rewrite (with_list_eq L e); intros _ Hx; by apply not_elem_of_nil in Hx|].
    rewrite !with_list_ne by done. apply R3; auto.
Qed.
End Rings.

End Dll.
