(* ===== verification/Mem.v ===== *)
(** Memory routines of the kernel (sys/pic32/machdep.c): bcopy, bzero, bcmp,
    the string functions, ffs, insque and remque, the checks of user and
    kernel addresses and the copies between user and kernel memory.

    Memory is a finite map from addresses to bytes; an access to an address
    outside it is [Fault].  The word loops read and write 32-bit little-endian
    words, as the processor does. *)
From S2P Require Import Prelude Dll.
Import Dll.

Module Mem.

Abbreviation mem := (gmap Z Z).

(** [*(unsigned char* )a] *)
Definition ld8 (m : mem) (a : Z) : res Z :=
  match m !! a with Some b => Ok b | None => Fault end.
Definition st8 (m : mem) (a b : Z) : res mem :=
  match m !! a with Some _ => Ok (<[a := u8 b]> m) | None => Fault end.

(** [*(unsigned* )a], little endian. *)
Definition ld32 (m : mem) (a : Z) : res Z :=
  b0 ← ld8 m a; b1 ← ld8 m (a + 1); b2 ← ld8 m (a + 2); b3 ← ld8 m (a + 3);
  Ok (b0 + 2 ^ 8 * b1 + 2 ^ 16 * b2 + 2 ^ 24 * b3).
Definition st32 (m : mem) (a w : Z) : res mem :=
  m ← st8 m a w; m ← st8 m (a + 1) (w / 2 ^ 8); m ← st8 m (a + 2) (w / 2 ^ 16); st8 m (a + 3) (w / 2 ^ 24).

(** [UNALIGNED (p, sizeof(unsigned))] *)
Definition UNALIGNED (p : Z) : bool := negb (Z.land p 3 =? 0).

(** [*aligned_dst++ = *aligned_src++;] *)
Definition word_step (m : mem) (src dst : Z) : res mem := w ← ld32 m src; st32 m dst w.

(** [while (nbytes >= 4*sizeof(unsigned))] *)
Fixpoint bcopy_4words (fuel : nat) (m : mem) (src dst nbytes : Z) : res (mem * Z * Z * Z) :=
  match fuel with
  | O => Fault
  | S fuel =>
      if 16 <=? nbytes then
        m ← word_step m src dst;
        m ← word_step m (src + 4) (dst + 4);
        m ← word_step m (src + 8) (dst + 8);
        m ← word_step m (src + 12) (dst + 12);
        bcopy_4words fuel m (src + 16) (dst + 16) (nbytes - 16)
      else Ok (m, src, dst, nbytes)
  end.
(** [while (nbytes >= sizeof(unsigned))] *)
Fixpoint bcopy_words (fuel : nat) (m : mem) (src dst nbytes : Z) : res (mem * Z * Z * Z) :=
  match fuel with
  | O => Fault
  | S fuel =>
      if 4 <=? nbytes then
        m ← word_step m src dst;
        bcopy_words fuel m (src + 4) (dst + 4) (nbytes - 4)
      else Ok (m, src, dst, nbytes)
  end.
(** [while (nbytes--) *dst++ = *src++;] *)
Fixpoint bcopy_bytes (n : nat) (m : mem) (src dst : Z) : res mem :=
  match n with
  | O => Ok m
  | S n =>
      b ← ld8 m src;
      m ← st8 m dst b;
      bcopy_bytes n m (src + 1) (dst + 1)
  end.

Definition bcopy (m : mem) (src dst nbytes : Z) : res mem :=
  let fuel := S (Z.to_nat nbytes) in
  if (16 <=? nbytes) && negb (UNALIGNED src) && negb (UNALIGNED dst) then
    '(m, src, dst, nbytes) ← bcopy_4words fuel m src dst nbytes;
    '(m, src, dst, nbytes) ← bcopy_words fuel m src dst nbytes;
    bcopy_bytes (Z.to_nat nbytes) m src dst
  else bcopy_bytes (Z.to_nat nbytes) m src dst.

(** void *memcpy (dst, src, nbytes) *)
Definition memcpy (m : mem) (dst src nbytes : Z) : res (mem * Z) :=
  m ← bcopy m src dst nbytes; Ok (m, dst).

(** [while (UNALIGNED (dst)) { *dst++ = 0; if (--nbytes == 0) return; }]; the
    flag is the return.  [nbytes] is unsigned. *)
Fixpoint bzero_align (fuel : nat) (m : mem) (dst nbytes : Z) : res (mem * Z * Z * bool) :=
  match fuel with
  | O => Ok (m, dst, nbytes, false)
  | S fuel =>
      if UNALIGNED dst then
        m ← st8 m dst 0;
        let nbytes := u32 (nbytes - 1) in
        if nbytes =? 0 then Ok (m, dst + 1, nbytes, true) else bzero_align fuel m (dst + 1) nbytes
      else Ok (m, dst, nbytes, false)
  end.
Fixpoint bzero_4words (fuel : nat) (m : mem) (dst nbytes : Z) : res (mem * Z * Z) :=
  match fuel with
  | O => Fault
  | S fuel =>
      if 16 <=? nbytes then
        m ← st32 m dst 0; m ← st32 m (dst + 4) 0; m ← st32 m (dst + 8) 0; m ← st32 m (dst + 12) 0;
        bzero_4words fuel m (dst + 16) (nbytes - 16)
      else Ok (m, dst, nbytes)
  end.
Fixpoint bzero_words (fuel : nat) (m : mem) (dst nbytes : Z) : res (mem * Z * Z) :=
  match fuel with
  | O => Fault
  | S fuel =>
      if 4 <=? nbytes then
        m ← st32 m dst 0;
        bzero_words fuel m (dst + 4) (nbytes - 4)
      else Ok (m, dst, nbytes)
  end.
Fixpoint bzero_bytes (n : nat) (m : mem) (dst : Z) : res mem :=
  match n with
  | O => Ok m
  | S n => m ← st8 m dst 0; bzero_bytes n m (dst + 1)
  end.

(** The first loop runs at most three times. *)
Definition bzero (m : mem) (dst nbytes : Z) : res mem :=
  '(m, dst, nbytes, ret) ← bzero_align 4 m dst nbytes;
  if ret : bool then Ok m
  else
    let fuel := S (Z.to_nat nbytes) in
    '(m, dst, nbytes) ←
      (if 4 <=? nbytes then
         '(m, dst, nbytes) ← bzero_4words fuel m dst nbytes;
         bzero_words fuel m dst nbytes
       else Ok (m, dst, nbytes));
    bzero_bytes (Z.to_nat nbytes) m dst.

(** The word loop of bcmp: it stops at the first difference. *)
Fixpoint bcmp_words (fuel : nat) (m : mem) (s1 s2 nbytes : Z) : res (Z * Z * Z) :=
  match fuel with
  | O => Fault
  | S fuel =>
      if 4 <=? nbytes then
        w1 ← ld32 m s1; w2 ← ld32 m s2;
        if negb (w1 =? w2) then Ok (s1, s2, nbytes)
        else bcmp_words fuel m (s1 + 4) (s2 + 4) (nbytes - 4)
      else Ok (s1, s2, nbytes)
  end.
Fixpoint bcmp_bytes (n : nat) (m : mem) (s1 s2 : Z) : res Z :=
  match n with
  | O => Ok 0
  | S n =>
      b1 ← ld8 m s1; b2 ← ld8 m s2;
      if negb (b1 =? b2) then Ok (b1 - b2) else bcmp_bytes n m (s1 + 1) (s2 + 1)
  end.
Definition bcmp (m : mem) (s1 s2 nbytes : Z) : res Z :=
  if (16 <=? nbytes) && negb (UNALIGNED s1) && negb (UNALIGNED s2) then
    '(s1, s2, nbytes) ← bcmp_words (S (Z.to_nat nbytes)) m s1 s2 nbytes;
    bcmp_bytes (Z.to_nat nbytes) m s1 s2
  else bcmp_bytes (Z.to_nat nbytes) m s1 s2.

(** The clz instruction: leading zeros of a 32-bit word. *)
Definition mips_clz (x : Z) : Z := if x =? 0 then 32 else 31 - Z.log2 x.
Definition ffs (i : Z) : Z :=
  if i =? 0 then i else 32 - mips_clz (Z.land i (u32 (- i))).

Definition ENOENT : Z := 2.
Definition EFAULT : Z := 14.

(** [while (( *dest++ = *src++) != 0) if (--maxlength == 0) goto done;]: the
    memory, the error and the length copied. *)
Fixpoint copystr_loop (maxlength : nat) (m : mem) (src dest : Z) : res (mem * Z * Z) :=
  match maxlength with
  | O => Ok (m, ENOENT, 0)
  | S max' =>
      b ← ld8 m src;
      m ← st8 m dest b;
      if b =? 0 then Ok (m, 0, 1)
      else
        '(m, error, len) ← copystr_loop max' m (src + 1) (dest + 1);
        Ok (m, error, len + 1)
  end.
Definition copystr (m : mem) (src dest maxlength : Z) : res (mem * Z * Z) :=
  copystr_loop (Z.to_nat maxlength) m src dest.

(** [while ( *s++ != 0);] over at most [fuel] characters. *)
Fixpoint strlen (fuel : nat) (m : mem) (s : Z) : res Z :=
  match fuel with
  | O => Fault
  | S fuel =>
      b ← ld8 m s;
      if b =? 0 then Ok 0 else n ← strlen fuel m (s + 1); Ok (n + 1)
  end.

(** Characters are signed. *)
Fixpoint strncmp (n : nat) (m : mem) (s1 s2 : Z) : res Z :=
  match n with
  | O => Ok 0
  | S n' =>
      c1 ← ld8 m s1; tmp ← ld8 m s2;
      let ret := s8 c1 - s8 tmp in
      if (ret =? 0) && negb (s8 tmp =? 0) && negb (n' =? 0)%nat
      then strncmp n' m (s1 + 1) (s2 + 1)
      else Ok ret
  end.

(** Address checks. *)
Definition KERNEL_FLASH_START : Z := 2634022912. (* 0x9d000000 *)
Definition FLASH_SIZE : Z := 512 * 1024.
Definition USER_FLASH_START : Z := KERNEL_FLASH_START + 192 * 1024.
Definition USER_FLASH_END : Z := KERNEL_FLASH_START + FLASH_SIZE.
Definition KERNEL_DATA_START : Z := 2147483648. (* 0x80000000 *)
Definition KERNEL_DATA_END : Z := KERNEL_DATA_START + 32 * 1024.
Definition USER_DATA_START : Z := 2130706432 + 32 * 1024. (* 0x7f000000 *)
Definition USER_DATA_END : Z := 2130706432 + 128 * 1024.

Definition baduaddr (addr : Z) : bool :=
  if (USER_FLASH_START <=? addr) && (addr <? USER_FLASH_END) then false
  else if (USER_DATA_START <=? addr) && (addr <? USER_DATA_END) then false
  else true.
Definition badkaddr (addr : Z) : bool :=
  if (KERNEL_DATA_START <=? addr) && (addr <? KERNEL_DATA_END) then false
  else if (KERNEL_FLASH_START <=? addr) && (addr <? KERNEL_FLASH_START + FLASH_SIZE) then false
  else true.

Definition copyout (m : mem) (from to nbytes : Z) : res (mem * Z) :=
  if baduaddr to || baduaddr (u32 (to + nbytes - 1)) then Ok (m, EFAULT)
  else m ← bcopy m from to nbytes; Ok (m, 0).
Definition copyin (m : mem) (from to nbytes : Z) : res (mem * Z) :=
  if baduaddr from || baduaddr (u32 (from + nbytes - 1)) then Ok (m, EFAULT)
  else m ← bcopy m from to nbytes; Ok (m, 0).

(** ** insque and remque

    The two links of the elements, by element address. *)
Record links := Links { q_next : gmap Z Z; q_prev : gmap Z Z }.

Definition get_link (f : gmap Z Z) (e : Z) : res Z :=
  match f !! e with Some x => Ok x | None => Fault end.
Definition set_q_next (q : links) (e v : Z) : links := Links (<[e := v]> (q_next q)) (q_prev q).
Definition set_q_prev (q : links) (e v : Z) : links := Links (q_next q) (<[e := v]> (q_prev q)).

Definition insque (q : links) (e prev : Z) : res links :=
  let q := set_q_prev q e prev in
  n ← get_link (q_next q) prev;
  let q := set_q_next q e n in
  n ← get_link (q_next q) prev;
  let q := set_q_prev q n e in
  Ok (set_q_next q prev e).
Definition remque (q : links) (e : Z) : res links :=
  p ← get_link (q_prev q) e;
  n ← get_link (q_next q) e;
  let q := set_q_next q p n in
  n ← get_link (q_next q) e;
  p ← get_link (q_prev q) e;
  Ok (set_q_prev q n p).

(** ** Byte strings in memory *)

Definition is_byte (b : Z) : Prop := 0 <= b < 256.

(** [bs] lies at [a]; the [n] bytes at [a] exist; [bs] written at [a]. *)
Definition holds (m : mem) (a : Z) (bs : list Z) : Prop :=
  forall i b, bs !! i = Some b -> m !! (a + Z.of_nat i) = Some b.
Definition mapped (m : mem) (a n : Z) : Prop := forall x, a <= x < a + n -> is_Some (m !! x).
Fixpoint write (m : mem) (a : Z) (bs : list Z) : mem :=
  match bs with [] => m | b :: bs => write (<[a := b]> m) (a + 1) bs end.

Lemma write_lookup bs : forall m a x,
  write m a bs !! x = if decide (a <= x < a + Z.of_nat (length bs)) then bs !! Z.to_nat (x - a) else m !! x.
Proof.
  induction bs as [|b bs IH]; intros m a x; cbn [write length].
  - by rewrite decide_False by lia.
  - rewrite IH. destruct (decide (x = a)) as [->|Hx].
    + rewrite decide_False, decide_True by lia. rewrite lookup_insert_eq.
      by replace (Z.to_nat (a - a)) with 0%nat by lia.
    + rewrite lookup_insert_ne by done. destruct (decide (a + 1 <= x < a + 1 + Z.of_nat (length bs))).
      * rewrite decide_True by lia. by replace (Z.to_nat (x - a)) with (S (Z.to_nat (x - (a + 1)))) by lia.
      * by rewrite decide_False by lia.
Qed.
Lemma write_app bs1 : forall m a bs2,
  write m a (bs1 ++ bs2) = write (write m a bs1) (a + Z.of_nat (length bs1)) bs2.
Proof.
  induction bs1 as [|b bs1 IH]; intros m a bs2; simpl; [by rewrite Z.add_0_r|].
  rewrite IH. f_equal. lia.
Qed.
Lemma write_other m a bs x : x < a \/ a + Z.of_nat (length bs) <= x -> write m a bs !! x = m !! x.
Proof. intros H. rewrite write_lookup. by rewrite decide_False by lia. Qed.
Lemma write_holds m a bs : holds (write m a bs) a bs.
Proof.
  intros i b Hi. rewrite write_lookup. pose proof (lookup_lt_Some _ _ _ Hi).
  rewrite decide_True by lia. by replace (Z.to_nat (a + Z.of_nat i - a)) with i by lia.
Qed.
Lemma mapped_write m a bs c n : mapped m c n -> mapped (write m a bs) c n.
Proof.
  intros H x Hx. rewrite write_lookup. case_decide; [|by apply H].
  apply lookup_lt_is_Some_2. lia.
Qed.
Lemma mapped_sub m a n c k : mapped m a n -> a <= c -> c + k <= a + n -> mapped m c k.
Proof. intros H H1 H2 x Hx. apply H. lia. Qed.
Lemma holds_cons m a b bs : holds m a (b :: bs) -> m !! a = Some b /\ holds m (a + 1) bs.
Proof.
  intros H. split; [specialize (H 0%nat b eq_refl); by rewrite Z.add_0_r in H|].
  intros i c Hi. specialize (H (S i) c Hi). rewrite <- H. f_equal. lia.
Qed.
Lemma holds_drop m a bs k : (k <= length bs)%nat -> holds m a bs -> holds m (a + Z.of_nat k) (drop k bs).
Proof.
  intros Hk H i b Hi. rewrite lookup_drop in Hi. rewrite <- (H _ _ Hi). f_equal. lia.
Qed.
Lemma holds_take m a bs k : holds m a bs -> holds m a (take k bs).
Proof. intros H i b Hi. rewrite lookup_take in Hi. case_decide; [by apply H|done]. Qed.
Lemma holds_write m a bs c cs :
  holds m a bs -> a + Z.of_nat (length bs) <= c \/ c + Z.of_nat (length cs) <= a -> holds (write m c cs) a bs.
Proof.
  intros H Hd i b Hi. rewrite write_other; [by apply H|]. pose proof (lookup_lt_Some _ _ _ Hi). lia.
Qed.

Lemma holds_mapped m a bs : holds m a bs -> mapped m a (Z.of_nat (length bs)).
Proof.
  intros H x Hx. destruct (lookup_lt_is_Some_2 bs (Z.to_nat (x - a))) as [b Hi]; [lia|].
  exists b. rewrite <- (H _ _ Hi). f_equal. lia.
Qed.
Lemma write_same m a bs : holds m a bs -> write m a bs = m.
Proof.
  intros H. apply map_eq. intros x. rewrite write_lookup. case_decide as Hx; [|done].
  destruct (lookup_lt_is_Some_2 bs (Z.to_nat (x - a))) as [b Hi]; [lia|].
  rewrite Hi, <- (H _ _ Hi). f_equal. lia.
Qed.

Lemma st8_ok m a b : is_Some (m !! a) -> is_byte b -> st8 m a b = Ok (<[a := b]> m).
Proof. intros [x Hx] Hb. unfold st8. by rewrite Hx, u8_small by apply Hb. Qed.
Lemma ld8_ok m a b : m !! a = Some b -> ld8 m a = Ok b.
Proof. intros H. unfold ld8. by rewrite H. Qed.

Lemma word_bytes b0 b1 b2 b3 :
  is_byte b0 -> is_byte b1 -> is_byte b2 -> is_byte b3 ->
  let w := b0 + 2 ^ 8 * b1 + 2 ^ 16 * b2 + 2 ^ 24 * b3 in
  u8 w = b0 /\ u8 (w / 2 ^ 8) = b1 /\ u8 (w / 2 ^ 16) = b2 /\ u8 (w / 2 ^ 24) = b3.
Proof.
  unfold is_byte, u8. intros H0 H1 H2 H3.
  split_and!; Z.to_euclidean_division_equations; lia.
Qed.

Lemma st32_ok m a w :
  mapped m a 4 -> st32 m a w = Ok (write m a [u8 w; u8 (w / 2 ^ 8); u8 (w / 2 ^ 16); u8 (w / 2 ^ 24)]).
Proof.
  intros Hm. unfold st32, st8. destruct (Hm a) as [x0 H0]; [lia|]. rewrite H0. cbn [mbind res_bind].
  destruct (Hm (a + 1)) as [x1 H1]; [lia|]. rewrite lookup_insert_ne, H1 by lia. cbn [mbind res_bind].
  destruct (Hm (a + 2)) as [x2 H2]; [lia|]. rewrite !lookup_insert_ne, H2 by lia. cbn [mbind res_bind].
  destruct (Hm (a + 3)) as [x3 H3]; [lia|]. rewrite !lookup_insert_ne, H3 by lia.
  cbn [write]. by replace (a + 1 + 1 + 1) with (a + 3) by lia; replace (a + 1 + 1) with (a + 2) by lia.
Qed.

Lemma ld32_ok m a b0 b1 b2 b3 bs :
  holds m a (b0 :: b1 :: b2 :: b3 :: bs) -> ld32 m a = Ok (b0 + 2 ^ 8 * b1 + 2 ^ 16 * b2 + 2 ^ 24 * b3).
Proof.
  intros (H0&(H1&(H2&(H3&_)%holds_cons)%holds_cons)%holds_cons)%holds_cons.
  replace (a + 1 + 1 + 1) with (a + 3) in H3 by lia. replace (a + 1 + 1) with (a + 2) in H2 by lia.
  unfold ld32. rewrite (ld8_ok _ _ _ H0), (ld8_ok _ _ _ H1), (ld8_ok _ _ _ H2), (ld8_ok _ _ _ H3). done.
Qed.

(** ** bcopy *)

(** [bs] at [src] can be copied to [dst]. *)
Record copyable (m : mem) (src dst : Z) (bs : list Z) : Prop := {
  c_holds : holds m src bs;
  c_mapped : mapped m dst (Z.of_nat (length bs));
  c_apart : src + Z.of_nat (length bs) <= dst \/ dst + Z.of_nat (length bs) <= src;
  c_bytes : Forall is_byte bs }.

Lemma copyable_step m src dst bs k :
  copyable m src dst bs -> (k <= length bs)%nat ->
  copyable (write m dst (take k bs)) (src + Z.of_nat k) (dst + Z.of_nat k) (drop k bs).
Proof.
  intros [H1 H2 H3 H4] Hk. split.
  - apply holds_drop; [done|]. apply holds_write; [done|]. rewrite length_take. lia.
  - apply mapped_write. rewrite length_drop. eapply mapped_sub; [done|lia..].
  - rewrite length_drop. lia.
  - by apply Forall_drop.
Qed.

Lemma word_step_ok m src dst bs :
  copyable m src dst bs -> (4 <= length bs)%nat -> word_step m src dst = Ok (write m dst (take 4 bs)).
Proof.
  intros [H1 H2 H3 H4] Hl. destruct bs as [|b0 [|b1 [|b2 [|b3 bs]]]]; simpl in Hl; try lia.
  unfold word_step. rewrite (ld32_ok _ _ _ _ _ _ _ H1). cbn [mbind res_bind].
  rewrite !Forall_cons in H4. destruct H4 as (Hb0&Hb1&Hb2&Hb3&_).
  destruct (word_bytes b0 b1 b2 b3 Hb0 Hb1 Hb2 Hb3) as (E0&E1&E2&E3).
  rewrite st32_ok by (eapply mapped_sub; [done|lia|cbn [length]; lia]).
  rewrite E0, E1, E2, E3. done.
Qed.

Lemma bcopy_bytes_ok bs : forall m src dst,
  copyable m src dst bs -> bcopy_bytes (length bs) m src dst = Ok (write m dst bs).
Proof.
  induction bs as [|b bs IH]; intros m src dst H; [done|]. cbn [length bcopy_bytes].
  pose proof (copyable_step _ _ _ _ 1 H ltac:(simpl; lia)) as H'. destruct H as [H1 H2 H3 H4].
  apply holds_cons in H1 as [H1 _]. rewrite (ld8_ok _ _ _ H1). cbn [mbind res_bind].
  apply Forall_cons_1 in H4 as [Hb _]. rewrite st8_ok by (try done; apply H2; simpl; lia). cbn [mbind res_bind].
  rewrite IH by done. done.
Qed.

Lemma ok4 {A B C D} (a a' : A) (b b' : B) (c c' : C) (d d' : D) :
  a = a' -> b = b' -> c = c' -> d = d' -> Ok (a, b, c, d) = Ok (a', b', c', d').
Proof. congruence. Qed.

Lemma bcopy_words_ok fuel : forall m src dst bs,
  copyable m src dst bs -> (length bs < fuel)%nat ->
  exists k, (k <= length bs)%nat /\ bcopy_words fuel m src dst (Z.of_nat (length bs)) =
    Ok (write m dst (take k bs), src + Z.of_nat k, dst + Z.of_nat k, Z.of_nat (length (drop k bs))) .
Proof.
  induction fuel as [|fuel IH]; intros m src dst bs H Hf; [lia|]. cbn [bcopy_words].
  destruct (Z.leb_spec 4 (Z.of_nat (length bs))) as [Hl|Hl].
  - rewrite (word_step_ok _ _ _ bs) by (done || lia). cbn [mbind res_bind].
    destruct (IH _ _ _ _ (copyable_step _ _ _ _ 4 H ltac:(lia))) as (k&Hk&E).
    { rewrite length_drop. lia. }
    rewrite length_drop in *. replace (Z.of_nat (length bs) - 4) with (Z.of_nat (length bs - 4)) by lia.
    change (src + 4) with (src + Z.of_nat 4). change (dst + 4) with (dst + Z.of_nat 4).
    rewrite E. exists (4 + k)%nat. split; [lia|]. rewrite drop_drop, length_drop.
    rewrite <- take_take_drop, write_app, length_take, Nat.min_l by lia.
    apply ok4; (done || lia).
  - exists 0%nat. split; [lia|]. rewrite !Z.add_0_r. done.
Qed.

Lemma write_take m d bs j k :
  (j <= length bs)%nat ->
  write (write m d (take j bs)) (d + Z.of_nat j) (take k (drop j bs)) = write m d (take (j + k) bs).
Proof.
  intros Hj. rewrite <- take_take_drop, write_app, length_take, Nat.min_l by lia. done.
Qed.

(** A word copied [j] bytes on, after the [j] bytes before it. *)
Lemma word_step_at m src dst bs j z :
  copyable m src dst bs -> (j + 4 <= length bs)%nat -> z = Z.of_nat j ->
  word_step (write m dst (take j bs)) (src + z) (dst + z) = Ok (write m dst (take (j + 4) bs)).
Proof.
  intros H Hj ->. rewrite (word_step_ok _ _ _ (drop j bs)); [|by apply copyable_step; [|lia]|rewrite length_drop; lia].
  by rewrite write_take by lia.
Qed.

Lemma bcopy_4words_ok fuel : forall m src dst bs,
  copyable m src dst bs -> (length bs < fuel)%nat ->
  exists k, (k <= length bs)%nat /\ bcopy_4words fuel m src dst (Z.of_nat (length bs)) =
    Ok (write m dst (take k bs), src + Z.of_nat k, dst + Z.of_nat k, Z.of_nat (length (drop k bs))).
Proof.
  induction fuel as [|fuel IH]; intros m src dst bs H Hf; [lia|]. cbn [bcopy_4words].
  destruct (Z.leb_spec 16 (Z.of_nat (length bs))) as [Hl|Hl]; last first.
  { exists 0%nat. split; [lia|]. rewrite !Z.add_0_r. done. }
  rewrite (word_step_ok _ _ _ bs) by (done || lia). cbn [mbind res_bind].
  rewrite (word_step_at m src dst bs 4 4) by (done || lia). cbn [mbind res_bind].
  rewrite (word_step_at m src dst bs (4 + 4) 8) by (done || lia). cbn [mbind res_bind].
  rewrite (word_step_at m src dst bs (4 + 4 + 4) 12) by (done || lia). cbn [mbind res_bind].
  destruct (IH _ _ _ _ (copyable_step _ _ _ _ 16 H ltac:(lia))) as (k&Hk&E); [rewrite length_drop; lia|].
  rewrite length_drop in *. replace (Z.of_nat (length bs) - 16) with (Z.of_nat (length bs - 16)) by lia.
  change (src + 16) with (src + Z.of_nat 16). change (dst + 16) with (dst + Z.of_nat 16).
  change (4 + 4 + 4 + 4)%nat with 16%nat. rewrite E. exists (16 + k)%nat. split; [lia|].
  rewrite write_take by lia. rewrite drop_drop, length_drop. apply ok4; (done || lia).
Qed.

Lemma bcopy_ok m src dst bs :
  copyable m src dst bs -> bcopy m src dst (Z.of_nat (length bs)) = Ok (write m dst bs).
Proof.
  intros H. unfold bcopy. rewrite Nat2Z.id. case_if; [|by apply bcopy_bytes_ok].
  destruct (bcopy_4words_ok (S (length bs)) m src dst bs H) as (k&Hk&->); [lia|]. cbn [mbind res_bind].
  pose proof (copyable_step _ _ _ _ k H Hk) as Hc1.
  destruct (bcopy_words_ok (S (length bs)) _ _ _ _ Hc1) as (j&Hj&->); [rewrite length_drop; lia|]. cbn [mbind res_bind].
  pose proof (copyable_step _ _ _ _ j Hc1 Hj) as Hc2. rewrite Nat2Z.id, bcopy_bytes_ok by done.
  rewrite length_drop in Hj. rewrite write_take, <- Z.add_assoc, <- Nat2Z.inj_add by lia.
  rewrite drop_drop. by rewrite <- (take_drop (k + j) bs) at 3; rewrite write_app, length_take, Nat.min_l by lia.
Qed.

(** ** bzero *)

Abbreviation zeros n := (replicate n 0).

Lemma write_zeros m d j k :
  write (write m d (zeros j)) (d + Z.of_nat j) (zeros k) = write m d (zeros (j + k)).
Proof. by rewrite replicate_add, write_app, length_replicate. Qed.

Lemma zero_byte : is_byte 0.
Proof. unfold is_byte. lia. Qed.

Lemma bzero_align_ok fuel : forall m d (n : nat),
  mapped m d (Z.of_nat n) -> (0 < n)%nat -> Z.of_nat n < 2 ^ 32 ->
  exists k ret, (k <= n)%nat /\ (ret = true -> k = n) /\
    bzero_align fuel m d (Z.of_nat n) = Ok (write m d (zeros k), d + Z.of_nat k, Z.of_nat (n - k), ret).
Proof.
  induction fuel as [|fuel IH]; intros m d n Hm Hn Hlt; cbn [bzero_align].
  - exists 0%nat, false. split; [lia|]. split; [done|]. rewrite Z.add_0_r, Nat.sub_0_r. done.
  - destruct (UNALIGNED d).
    + rewrite st8_ok by (try apply zero_byte; apply Hm; lia). cbn [mbind res_bind]. norm_int.
      destruct (Z.eqb_spec (Z.of_nat n - 1) 0) as [E|E].
      * exists 1%nat, true. split; [lia|]. split; [lia|]. simpl. apply ok4; (done || lia).
      * destruct (IH (<[d := 0]> m) (d + 1) (n - 1)%nat) as (k&ret&Hk&Hr&Ek); [|lia..|].
        { apply (mapped_write m d [0]). eapply mapped_sub; [done|lia..]. }
        replace (Z.of_nat n - 1) with (Z.of_nat (n - 1)) by lia. rewrite Ek.
        exists (S k), ret. split; [lia|]. split; [intros ?; specialize (Hr ltac:(done)); lia|].
        cbn [replicate write]. apply ok4; (done || lia).
    + exists 0%nat, false. split; [lia|]. split; [done|]. rewrite Z.add_0_r, Nat.sub_0_r. done.
Qed.

Lemma st32_zero m d : mapped m d 4 -> st32 m d 0 = Ok (write m d (zeros 4)).
Proof. intros H. by rewrite st32_ok. Qed.

Lemma ok3 {A B C} (a a' : A) (b b' : B) (c c' : C) :
  a = a' -> b = b' -> c = c' -> Ok (a, b, c) = Ok (a', b', c').
Proof. congruence. Qed.

Lemma bzero_words_ok fuel : forall m d (n : nat),
  mapped m d (Z.of_nat n) -> (n < fuel)%nat ->
  exists k, (k <= n)%nat /\
    bzero_words fuel m d (Z.of_nat n) = Ok (write m d (zeros k), d + Z.of_nat k, Z.of_nat (n - k)).
Proof.
  induction fuel as [|fuel IH]; intros m d n Hm Hf; [lia|]. cbn [bzero_words].
  destruct (Z.leb_spec 4 (Z.of_nat n)) as [Hn|Hn].
  - rewrite st32_zero by (eapply mapped_sub; [done|lia..]). cbn [mbind res_bind].
    destruct (IH (write m d (zeros 4)) (d + 4) (n - 4)%nat) as (k&Hk&E);
      [apply mapped_write; eapply mapped_sub; [done|lia..]|lia|].
    replace (Z.of_nat n - 4) with (Z.of_nat (n - 4)) by lia. rewrite E. exists (4 + k)%nat. split; [lia|].
    apply ok3; [apply (write_zeros m d 4 k)|lia..].
  - exists 0%nat. split; [lia|]. rewrite Z.add_0_r, Nat.sub_0_r. done.
Qed.

Lemma st32_zero_at m d j z (n : nat) :
  mapped m d (Z.of_nat n) -> (j + 4 <= n)%nat -> z = Z.of_nat j ->
  st32 (write m d (zeros j)) (d + z) 0 = Ok (write m d (zeros (j + 4))).
Proof.
  intros Hm Hj ->. rewrite st32_zero by (apply mapped_write; eapply mapped_sub; [done|lia..]).
  by rewrite write_zeros.
Qed.

Lemma bzero_4words_ok fuel : forall m d (n : nat),
  mapped m d (Z.of_nat n) -> (n < fuel)%nat ->
  exists k, (k <= n)%nat /\
    bzero_4words fuel m d (Z.of_nat n) = Ok (write m d (zeros k), d + Z.of_nat k, Z.of_nat (n - k)).
Proof.
  induction fuel as [|fuel IH]; intros m d n Hm Hf; [lia|]. cbn [bzero_4words].
  destruct (Z.leb_spec 16 (Z.of_nat n)) as [Hn|Hn]; last first.
  { exists 0%nat. split; [lia|]. rewrite Z.add_0_r, Nat.sub_0_r. done. }
  rewrite st32_zero by (eapply mapped_sub; [done|lia..]). cbn [mbind res_bind].
  rewrite (st32_zero_at m d 4 4 n) by (done || lia). cbn [mbind res_bind].
  rewrite (st32_zero_at m d (4 + 4) 8 n) by (done || lia). cbn [mbind res_bind].
  rewrite (st32_zero_at m d (4 + 4 + 4) 12 n) by (done || lia). cbn [mbind res_bind].
  destruct (IH (write m d (zeros (4 + 4 + 4 + 4))) (d + 16) (n - 16)%nat) as (k&Hk&E);
    [apply mapped_write; eapply mapped_sub; [done|lia..]|lia|].
  replace (Z.of_nat n - 16) with (Z.of_nat (n - 16)) by lia. rewrite E. exists (16 + k)%nat. split; [lia|].
  apply ok3; [apply (write_zeros m d 16 k)|lia..].
Qed.

Lemma bzero_bytes_ok n : forall m d,
  mapped m d (Z.of_nat n) -> bzero_bytes n m d = Ok (write m d (zeros n)).
Proof.
  induction n as [|n IH]; intros m d Hm; cbn [bzero_bytes replicate write]; [done|].
  rewrite st8_ok by (try apply zero_byte; apply Hm; lia). cbn [mbind res_bind]. apply IH.
  apply (mapped_write m d [0]). eapply mapped_sub; [done|lia..].
Qed.

Lemma bzero_ok m d (n : nat) :
  mapped m d (Z.of_nat n) -> (0 < n)%nat -> Z.of_nat n < 2 ^ 32 ->
  bzero m d (Z.of_nat n) = Ok (write m d (zeros n)).
Proof.
  intros Hm Hn Hlt. unfold bzero.
  destruct (bzero_align_ok 4 m d n Hm Hn Hlt) as (k&ret&Hk&Hr&->). cbn [mbind res_bind].
  destruct ret; [by rewrite Hr|].
  set (m1 := write m d (zeros k)).
  assert (mapped m1 (d + Z.of_nat k) (Z.of_nat (n - k))) as Hm1.
  { apply mapped_write. eapply mapped_sub; [done|lia..]. }
  assert (exists j, (j <= n - k)%nat /\ (if 4 <=? Z.of_nat (n - k)
    then '(m, dst, nbytes) ← bzero_4words (S (Z.to_nat (Z.of_nat (n - k)))) m1 (d + Z.of_nat k) (Z.of_nat (n - k));
         bzero_words (S (Z.to_nat (Z.of_nat (n - k)))) m dst nbytes
    else Ok (m1, d + Z.of_nat k, Z.of_nat (n - k))) =
    Ok (write m1 (d + Z.of_nat k) (zeros j), d + Z.of_nat k + Z.of_nat j, Z.of_nat (n - k - j))) as (j&Hj&->).
  { case_if.
    - destruct (bzero_4words_ok (S (Z.to_nat (Z.of_nat (n - k)))) m1 (d + Z.of_nat k) (n - k) Hm1) as (i&Hi&->); [lia|].
      cbn [mbind res_bind].
      destruct (bzero_words_ok (S (Z.to_nat (Z.of_nat (n - k)))) (write m1 (d + Z.of_nat k) (zeros i))
        (d + Z.of_nat k + Z.of_nat i) (n - k - i)) as (j&Hj&->);
        [apply mapped_write; eapply mapped_sub; [done|lia..]|lia|].
      exists (i + j)%nat. split; [lia|]. apply ok3; [by rewrite write_zeros|lia..].
    - exists 0%nat. split; [lia|]. apply ok3; [done|lia..]. }
  cbn [mbind res_bind]. rewrite Nat2Z.id, bzero_bytes_ok by (apply mapped_write; eapply mapped_sub; [done|lia..]).
  f_equal. rewrite write_zeros. unfold m1. rewrite write_zeros. do 2 f_equal. lia.
Qed.

(** ** bcmp *)

(** The difference of the first bytes that differ. *)
Fixpoint cmp (bs1 bs2 : list Z) : Z :=
  match bs1, bs2 with
  | b1 :: bs1, b2 :: bs2 => if b1 =? b2 then cmp bs1 bs2 else b1 - b2
  | _, _ => 0
  end.

Lemma cmp_drop bs1 : forall bs2 k, take k bs1 = take k bs2 -> length bs1 = length bs2 ->
  cmp bs1 bs2 = cmp (drop k bs1) (drop k bs2).
Proof.
  induction bs1 as [|b1 bs1 IH]; intros [|b2 bs2] [|k]; simpl; try done.
  intros [= -> E] [= El]. rewrite Z.eqb_refl. by apply IH.
Qed.
Lemma cmp_eq bs1 : forall bs2, length bs1 = length bs2 -> (cmp bs1 bs2 = 0 <-> bs1 = bs2).
Proof.
  induction bs1 as [|b1 bs1 IH]; intros [|b2 bs2]; simpl; try done.
  intros [= El]. destruct (Z.eqb_spec b1 b2) as [->|Hb].
  - rewrite IH by done. split; [by intros ->|by intros [= ->]].
  - split; [lia|]. by intros [= -> _].
Qed.

Lemma word_inj m a1 a2 bs1 bs2 w :
  holds m a1 bs1 -> holds m a2 bs2 -> Forall is_byte bs1 -> Forall is_byte bs2 ->
  (4 <= length bs1)%nat -> (4 <= length bs2)%nat ->
  ld32 m a1 = Ok w -> ld32 m a2 = Ok w -> take 4 bs1 = take 4 bs2.
Proof.
  intros H1 H2 Hb1 Hb2 Hl1 Hl2 E1 E2.
  destruct bs1 as [|b0 [|b1 [|b2 [|b3 bs1]]]]; simpl in Hl1; try lia.
  destruct bs2 as [|c0 [|c1 [|c2 [|c3 bs2]]]]; simpl in Hl2; try lia.
  rewrite (ld32_ok _ _ _ _ _ _ _ H1) in E1. rewrite (ld32_ok _ _ _ _ _ _ _ H2) in E2.
  injection E1 as E1. injection E2 as E2. rewrite !Forall_cons in Hb1, Hb2.
  destruct Hb1 as (?&?&?&?&_), Hb2 as (?&?&?&?&_).
  destruct (word_bytes b0 b1 b2 b3) as (X0&X1&X2&X3); try done.
  destruct (word_bytes c0 c1 c2 c3) as (Y0&Y1&Y2&Y3); try done.
  rewrite E1 in X0, X1, X2, X3. rewrite E2 in Y0, Y1, Y2, Y3. rewrite !firstn_cons, !firstn_O. congruence.
Qed.

Lemma ld32_exists m a bs : holds m a bs -> (4 <= length bs)%nat -> exists w, ld32 m a = Ok w.
Proof.
  intros H Hl. destruct bs as [|b0 [|b1 [|b2 [|b3 bs]]]]; simpl in Hl; try lia.
  rewrite (ld32_ok _ _ _ _ _ _ _ H). eauto.
Qed.

Lemma bcmp_words_ok fuel : forall m a1 a2 bs1 bs2,
  holds m a1 bs1 -> holds m a2 bs2 -> Forall is_byte bs1 -> Forall is_byte bs2 ->
  length bs1 = length bs2 -> (length bs1 < fuel)%nat ->
  exists k, (k <= length bs1)%nat /\ take k bs1 = take k bs2 /\
    bcmp_words fuel m a1 a2 (Z.of_nat (length bs1)) =
    Ok (a1 + Z.of_nat k, a2 + Z.of_nat k, Z.of_nat (length bs1 - k)).
Proof.
  induction fuel as [|fuel IH]; intros m a1 a2 bs1 bs2 H1 H2 Hb1 Hb2 Hl Hf; [lia|]. cbn [bcmp_words].
  assert (exists k, (k <= length bs1)%nat /\ take k bs1 = take k bs2 /\
    Ok (a1, a2, Z.of_nat (length bs1)) = Ok (a1 + Z.of_nat k, a2 + Z.of_nat k, Z.of_nat (length bs1 - k))) as Hstop.
  { exists 0%nat. split; [lia|]. split; [done|]. apply ok3; lia. }
  destruct (Z.leb_spec 4 (Z.of_nat (length bs1))) as [H4|H4]; [|done].
  destruct (ld32_exists m a1 bs1 H1) as [w1 E1]; [lia|]. destruct (ld32_exists m a2 bs2 H2) as [w2 E2]; [lia|].
  rewrite E1, E2. cbn [mbind res_bind]. destruct (Z.eqb_spec w1 w2) as [->|]; cbn [negb]; [|done].
  assert (take 4 bs1 = take 4 bs2) as Et by (eapply word_inj; (done || lia)).
  destruct (IH m (a1 + 4) (a2 + 4) (drop 4 bs1) (drop 4 bs2)) as (k&Hk&Ek&E).
  { apply (holds_drop _ _ _ 4); (done || lia). } { apply (holds_drop _ _ _ 4); (done || lia). }
  { by apply Forall_drop. } { by apply Forall_drop. } { rewrite !length_drop; lia. } { rewrite length_drop; lia. }
  rewrite length_drop in *. replace (Z.of_nat (length bs1) - 4) with (Z.of_nat (length bs1 - 4)) by lia.
  rewrite E. exists (4 + k)%nat. split; [lia|]. split; [by rewrite <- !take_take_drop, Et, Ek|]. apply ok3; lia.
Qed.

Lemma bcmp_bytes_ok bs1 : forall bs2 m a1 a2,
  holds m a1 bs1 -> holds m a2 bs2 -> length bs1 = length bs2 ->
  bcmp_bytes (length bs1) m a1 a2 = Ok (cmp bs1 bs2).
Proof.
  induction bs1 as [|b1 bs1 IH]; intros [|b2 bs2] m a1 a2 H1 H2 Hl; try done.
  apply holds_cons in H1 as [E1 H1]. apply holds_cons in H2 as [E2 H2]. injection Hl as Hl.
  cbn [bcmp_bytes length cmp]. rewrite (ld8_ok _ _ _ E1), (ld8_ok _ _ _ E2). cbn [mbind res_bind].
  destruct (b1 =? b2); cbn [negb]; [|done]. by apply IH.
Qed.

Lemma bcmp_ok m a1 a2 bs1 bs2 :
  holds m a1 bs1 -> holds m a2 bs2 -> Forall is_byte bs1 -> Forall is_byte bs2 -> length bs1 = length bs2 ->
  bcmp m a1 a2 (Z.of_nat (length bs1)) = Ok (cmp bs1 bs2).
Proof.
  intros H1 H2 Hb1 Hb2 Hl. unfold bcmp. rewrite Nat2Z.id. destruct (_ && _); [|by apply bcmp_bytes_ok].
  destruct (bcmp_words_ok (S (length bs1)) m a1 a2 bs1 bs2) as (k&Hk&Ek&->); [done..|lia|]. cbn [mbind res_bind].
  rewrite Nat2Z.id, (cmp_drop bs1 bs2 k), <- length_drop by done.
  apply bcmp_bytes_ok; [by apply holds_drop|apply holds_drop; [lia|done]|]. rewrite !length_drop. lia.
Qed.

(** ** ffs *)

Lemma odd_part (p : positive) : exists k j, 0 <= k /\ Z.pos p = 2 ^ k * (2 * j + 1).
Proof.
  induction p as [p IH|p IH|].
  - exists 0, (Z.pos p). lia.
  - destruct IH as (k&j&Hk&E). exists (k + 1), j. split; [lia|]. rewrite Pos2Z.inj_xO, E, Z.pow_add_r by lia. lia.
  - exists 0, 0. lia.
Qed.

Lemma testbit_odd k j n : 0 <= k -> 0 <= n ->
  Z.testbit (2 ^ k * (2 * j + 1)) n =
  if n <? k then false else if n =? k then true else Z.testbit j (n - k - 1).
Proof.
  intros Hk Hn. rewrite Z.mul_comm. destruct (Z.ltb_spec n k).
  - by rewrite Z.mul_pow2_bits_low by lia.
  - rewrite Z.mul_pow2_bits by lia. destruct (Z.eqb_spec n k) as [->|].
    + by rewrite Z.sub_diag, Z.testbit_odd_0.
    + replace (n - k) with (Z.succ (n - k - 1)) at 1 by lia. by rewrite Z.testbit_odd_succ by lia.
Qed.

(** [i & -i] is the lowest set bit. *)
Lemma lowest_bit i : 0 < i < 2 ^ 32 ->
  exists k, 0 <= k < 32 /\ Z.land i (u32 (- i)) = 2 ^ k /\ Z.testbit i k = true /\
    forall n, 0 <= n < k -> Z.testbit i n = false.
Proof.
  intros Hi. destruct i as [|p|p]; try lia. destruct (odd_part p) as (k&j&Hk&E).
  assert (k < 32) as Hk32.
  { apply (Z.pow_lt_mono_r_iff 2); [lia|lia|]. apply Z.le_lt_trans with (Z.pos p); [|lia].
    rewrite E. assert (0 < 2 ^ k) by lia. assert (0 <= j) by nia. nia. }
  exists k. split; [lia|]. rewrite E. split; [|split].
  - apply Z.bits_inj'. intros n Hn. rewrite Z.land_spec, Z.pow2_bits_eqb by lia.
    unfold u32. destruct (decide (n < 32)).
    + rewrite Z.mod_pow2_bits_low by lia.
      replace (- (2 ^ k * (2 * j + 1))) with (2 ^ k * (2 * (- j - 1) + 1)) by lia.
      rewrite !testbit_odd by lia. destruct (Z.ltb_spec n k), (Z.eqb_spec k n), (Z.eqb_spec n k); try lia; try done.
      replace (- j - 1) with (Z.lnot j) by (unfold Z.lnot; lia). rewrite Z.lnot_spec by lia.
      by destruct (Z.testbit j (n - k - 1)).
    + rewrite Z.mod_pow2_bits_high by lia. rewrite andb_false_r. destruct (Z.eqb_spec k n); [lia|done].
  - rewrite testbit_odd by lia. destruct (Z.ltb_spec k k); [lia|]. by rewrite Z.eqb_refl.
  - intros n Hn. rewrite testbit_odd by lia. by destruct (Z.ltb_spec n k); [|lia].
Qed.

(** ** The theorems *)

(** bcopy, which copies four words at a time when it can, copies exactly
    the bytes: for regions that do not overlap its result is the memory with
    the source bytes written at the destination, whatever the alignment. *)
Theorem bcopy_spec m src dst bs :
  holds m src bs -> mapped m dst (Z.of_nat (length bs)) ->
  src + Z.of_nat (length bs) <= dst \/ dst + Z.of_nat (length bs) <= src -> Forall is_byte bs ->
  bcopy m src dst (Z.of_nat (length bs)) = Ok (write m dst bs).
Proof. intros H1 H2 H3 H4. by apply bcopy_ok. Qed.

(** Bytes [0 .. n-1] at address [a]. *)
Definition region (a : Z) (n : nat) : mem := write ∅ a (Z.of_nat <$> seq 0 n).
Definition mem64 : mem := region 1000 64.
Lemma bcopy_spec_witness :
  bcopy mem64 1000 1020 (Z.of_nat (length (Z.of_nat <$> seq 0 18))) = Ok (write mem64 1020 (Z.of_nat <$> seq 0 18)).
Proof.
  apply (bcopy_spec mem64 1000 1020 (Z.of_nat <$> seq 0 18)); [| |simpl; lia|].
  - intros i b Hi. do 18 (destruct i as [|i]; [by injection Hi as <-|]). done.
  - intros x Hx. unfold mem64, region. rewrite write_lookup. simpl length in Hx.
    rewrite decide_True by (simpl; lia). apply lookup_lt_is_Some_2. simpl. lia.
  - repeat constructor; vm_compute; (done || by intros).
Defined.

(** bzero clears exactly the [n] bytes for every [n] above 0; called
    with 0 at an address that is not a multiple of 4, it clears a byte and
    goes on with a count of 2^32 - 1. *)
Theorem bzero_spec m d (n : nat) :
  Z.of_nat n < 2 ^ 32 ->
  (mapped m d (Z.of_nat n) -> (0 < n)%nat -> bzero m d (Z.of_nat n) = Ok (write m d (zeros n))) /\
  (mapped m d 1 -> m !! (d + 1) = None -> UNALIGNED d = true -> UNALIGNED (d + 1) = true ->
   bzero m d 0 = Fault).
Proof.
  intros Hlt. split; [by intros; apply bzero_ok|]. intros Hm Hn Hu Hu1. unfold bzero.
  cbn [bzero_align]. rewrite Hu. rewrite st8_ok by (try apply zero_byte; apply Hm; lia). cbn [mbind res_bind].
  change (u32 (0 - 1) =? 0) with false. cbv iota. rewrite Hu1. unfold st8.
  rewrite lookup_insert_ne, Hn by lia. done.
Qed.

Lemma bzero_spec_witness :
  (mapped mem64 1001 (Z.of_nat 3) -> (0 < 3)%nat -> bzero mem64 1001 (Z.of_nat 3) = Ok (write mem64 1001 (zeros 3))) /\
  (mapped mem64 1001 1 -> mem64 !! (1001 + 1) = None -> UNALIGNED 1001 = true -> UNALIGNED (1001 + 1) = true ->
   bzero mem64 1001 0 = Fault).
Proof. apply (bzero_spec mem64 1001 3). lia. Defined.

(** bcmp returns the difference of the first bytes that differ, so it is
    0 exactly for equal strings, also on the path that compares words. *)
Theorem bcmp_spec m a1 a2 bs1 bs2 :
  holds m a1 bs1 -> holds m a2 bs2 -> Forall is_byte bs1 -> Forall is_byte bs2 -> length bs1 = length bs2 ->
  exists r, bcmp m a1 a2 (Z.of_nat (length bs1)) = Ok r /\ r = cmp bs1 bs2 /\ (r = 0 <-> bs1 = bs2).
Proof. intros. eexists. split; [by apply bcmp_ok|]. split; [done|]. by apply cmp_eq. Qed.

Lemma bcmp_spec_witness :
  exists r, bcmp {[ 0 := 7; 1 := 8; 2 := 7; 3 := 9 ]} 0 2 (Z.of_nat (length [7; 8])) = Ok r /\
    r = cmp [7; 8] [7; 9] /\ (r = 0 <-> [7; 8] = [7; 9]).
Proof.
  apply (bcmp_spec _ 0 2 [7; 8] [7; 9]); [| | | |done].
  - intros i b Hi. do 2 (destruct i as [|i]; [by injection Hi as <-|]). done.
  - intros i b Hi. do 2 (destruct i as [|i]; [by injection Hi as <-|]). done.
  - repeat constructor; vm_compute; (done || by intros).
  - repeat constructor; vm_compute; (done || by intros).
Defined.

Lemma ffs_ok i :
  0 < i < 2 ^ 32 ->
  1 <= ffs i <= 32 /\ Z.testbit i (ffs i - 1) = true /\
  forall n, 0 <= n < ffs i - 1 -> Z.testbit i n = false.
Proof.
  intros Hi. destruct (lowest_bit i Hi) as (k&Hk&E&Ht&Hl). unfold ffs, mips_clz.
  destruct (Z.eqb_spec i 0); [lia|]. rewrite E. assert (0 < 2 ^ k) by lia.
  destruct (Z.eqb_spec (2 ^ k) 0); [lia|]. rewrite Z.log2_pow2 by lia.
  replace (32 - (31 - k)) with (k + 1) by lia. replace (k + 1 - 1) with k by lia. split; [lia|done].
Qed.

(** ffs gives the position, from 1, of the lowest set bit of a word. *)
Theorem ffs_spec i :
  0 < i < 2 ^ 32 ->
  1 <= ffs i <= 32 /\ Z.testbit i (ffs i - 1) = true /\
  forall n, 0 <= n < ffs i - 1 -> Z.testbit i n = false.
Proof. apply ffs_ok. Qed.
Lemma ffs_spec_witness :
  1 <= ffs 40 <= 32 /\ Z.testbit 40 (ffs 40 - 1) = true /\ forall n, 0 <= n < ffs 40 - 1 -> Z.testbit 40 n = false.
Proof. apply (ffs_spec 40). lia. Defined.

Lemma copystr_ok bs : forall m src dest (max : nat),
  holds m src (bs ++ [0]) -> mapped m dest (Z.of_nat (length bs + 1)) ->
  src + Z.of_nat (length bs + 1) <= dest \/ dest + Z.of_nat (length bs + 1) <= src ->
  Forall (fun b => is_byte b /\ b <> 0) bs ->
  copystr_loop max m src dest =
  Ok (if decide (length bs < max)%nat then (write m dest (bs ++ [0]), 0, Z.of_nat (length bs + 1))
      else (write m dest (take max bs), ENOENT, Z.of_nat max)).
Proof.
  induction bs as [|b bs IH]; intros m src dest [|max] Hh Hm Ha Hb; cbn [copystr_loop];
    try (rewrite decide_False by (simpl; lia); done).
  - apply holds_cons in Hh as [E _]. rewrite (ld8_ok _ _ _ E). cbn [mbind res_bind].
    rewrite st8_ok by (try apply zero_byte; apply Hm; simpl; lia). cbn [mbind res_bind].
    rewrite decide_True by (simpl; lia). done.
  - apply Forall_cons_1 in Hb as [[Hb Hb0] Hbs]. simpl in Hh. apply holds_cons in Hh as [E Hh].
    simpl length in *. rewrite (ld8_ok _ _ _ E). cbn [mbind res_bind].
    rewrite st8_ok by (try done; apply Hm; lia). cbn [mbind res_bind].
    destruct (Z.eqb_spec b 0); [done|].
    rewrite IH; [|apply (holds_write m (src + 1) (bs ++ [0]) dest [b]);
        [done|rewrite length_app; simpl; lia]|apply (mapped_write m dest [b]); eapply mapped_sub; [done|lia..]|lia|done].
    cbn [mbind res_bind]. repeat case_decide; try lia; cbn [write app take];
      (apply ok3; [done|done|lia]).
Qed.

(** copystr copies a string with its terminator when it fits; when it
    does not, it copies the first [maxlength] characters and returns ENOENT. *)
Theorem copystr_spec m src dest bs max :
  holds m src (bs ++ [0]) -> mapped m dest (Z.of_nat (length bs + 1)) ->
  src + Z.of_nat (length bs + 1) <= dest \/ dest + Z.of_nat (length bs + 1) <= src ->
  Forall (fun b => is_byte b /\ b <> 0) bs -> 0 <= max ->
  copystr m src dest max =
  Ok (if decide (Z.of_nat (length bs) < max) then (write m dest (bs ++ [0]), 0, Z.of_nat (length bs + 1))
      else (write m dest (take (Z.to_nat max) bs), ENOENT, max)).
Proof.
  intros Hh Hm Ha Hb Hmax. unfold copystr. rewrite (copystr_ok bs) by done.
  repeat case_decide; try lia; [done|]. by rewrite Z2Nat.id.
Qed.
Lemma copystr_spec_witness :
  copystr {[ 0 := 65; 1 := 0; 2 := 7; 3 := 9 ]} 0 2 4 =
  Ok (if decide (Z.of_nat 1 < 4) then (write {[ 0 := 65; 1 := 0; 2 := 7; 3 := 9 ]} 2 ([65] ++ [0]), 0, Z.of_nat 2)
      else (write {[ 0 := 65; 1 := 0; 2 := 7; 3 := 9 ]} 2 (take 4 [65]), ENOENT, 4)).
Proof.
  apply (copystr_spec _ 0 2 [65] 4); [| |simpl; lia| |lia].
  - intros i b Hi. do 2 (destruct i as [|i]; [by injection Hi as <-|]). done.
  - intros x Hx. simpl in Hx. assert (x = 2 \/ x = 3) as [->| ->] by lia; by eexists.
  - repeat constructor; vm_compute; (done || by intros).
Defined.

(** Every byte of the range is a user address. *)
Definition user_range (a n : Z) : Prop := forall x, a <= x < a + n -> baduaddr x = false.

Lemma baduaddr_spec a :
  baduaddr a = false <->
  USER_FLASH_START <= a < USER_FLASH_END \/ USER_DATA_START <= a < USER_DATA_END.
Proof. unfold baduaddr. repeat case_if; split; (done || lia). Qed.

(** copyout and copyin refuse a range whose first or last byte is not a
    user address, without copying; a range of less than 16 megabytes that
    they accept lies in user memory with all its bytes, copyout writes exactly
    that range, and copying the bytes in again finds the memory as it was left. *)
Theorem copyout_spec m from to bs n :
  n = Z.of_nat (length bs) -> 0 < n < 2 ^ 24 -> 0 <= to < 2 ^ 32 ->
  holds m from bs -> mapped m to n -> from + n <= to \/ to + n <= from -> Forall is_byte bs ->
  (baduaddr to = true \/ baduaddr (u32 (to + n - 1)) = true -> copyout m from to n = Ok (m, EFAULT)) /\
  (baduaddr to = false -> baduaddr (u32 (to + n - 1)) = false ->
   user_range to n /\ exists m1, copyout m from to n = Ok (m1, 0) /\
     (forall x, ~ to <= x < to + n -> m1 !! x = m !! x) /\
     holds m1 to bs /\ copyin m1 to from n = Ok (m1, 0)).
Proof.
  intros -> Hn Hto Hh Hm Ha Hb. unfold copyout. split.
  - intros [->| ->]; [done|]. by rewrite orb_true_r.
  - intros H1 H2. pose proof H1 as U1. apply baduaddr_spec in U1. pose proof H2 as U2. apply baduaddr_spec in U2.
    unfold USER_FLASH_START, USER_FLASH_END, USER_DATA_START, USER_DATA_END, KERNEL_FLASH_START, FLASH_SIZE in *.
    rewrite u32_small in U2 by lia. split.
    + intros x Hx. apply baduaddr_spec.
      unfold USER_FLASH_START, USER_FLASH_END, USER_DATA_START, USER_DATA_END, KERNEL_FLASH_START, FLASH_SIZE. lia.
    + rewrite H1, H2. cbn [orb]. rewrite (bcopy_ok _ _ _ bs) by done. cbn [mbind res_bind].
      exists (write m to bs). split; [done|]. split; [intros x Hx; apply write_other; lia|].
      split; [apply write_holds|]. unfold copyin. rewrite H1, H2. cbn [orb].
      rewrite (bcopy_ok _ _ _ bs); last first.
      { split; [apply write_holds| |lia|done]. apply mapped_write. by apply holds_mapped. }
      cbn [mbind res_bind]. do 2 f_equal. apply write_same, holds_write; [done|lia].
Qed.
Lemma copyout_spec_witness :
  let m := write (write ∅ 2147483648 [1; 2; 3]) USER_DATA_START [0; 0; 0] in
  user_range USER_DATA_START 3 /\ exists m1, copyout m 2147483648 USER_DATA_START 3 = Ok (m1, 0) /\
     (forall x, ~ USER_DATA_START <= x < USER_DATA_START + 3 -> m1 !! x = m !! x) /\
     holds m1 USER_DATA_START [1; 2; 3] /\ copyin m1 USER_DATA_START 2147483648 3 = Ok (m1, 0).
Proof.
  intros m. apply (copyout_spec m 2147483648 USER_DATA_START [1; 2; 3] 3).
  - done.
  - lia.
  - done.
  - apply holds_write; [apply write_holds|right; vm_compute; by intros].
  - intros x Hx. unfold m. rewrite write_lookup, decide_True by (simpl; lia).
    apply lookup_lt_is_Some_2. simpl. lia.
  - right. vm_compute. by intros.
  - repeat constructor; vm_compute; (done || by intros).
  - done.
  - done.
Defined.

(** The ring of elements after [h], by the two links. *)
Definition queue (q : links) (h : Z) (l : list Z) : Prop := ring (q_next q) (q_prev q) h l.

Lemma queue_next q h l1 l2 : queue q h (l1 ++ l2) -> q_next q !! List.last l1 h = Some (List.hd h l2).
Proof.
  intros [Hd _]. destruct l1 as [|p l1 _] using rev_ind; [by apply dseg_next in Hd|].
  rewrite last_last. rewrite <- app_assoc in Hd. apply dseg_app in Hd as [_ Hd]. by apply dseg_next in Hd.
Qed.

(** insque puts a new element right after its predecessor, which is the
    header or any element of a circular list, and remque takes an element out
    of whatever place it has; both keep the order of the other elements and
    the agreement of the two links. *)
Theorem insque_remque_spec q h l1 l2 e :
  queue q h (l1 ++ l2) -> e ∉ h :: l1 ++ l2 ->
  exists q', insque q e (List.last l1 h) = Ok q' /\ queue q' h (l1 ++ e :: l2) /\
    forall k1 x k2, l1 ++ e :: l2 = k1 ++ x :: k2 ->
      exists q'', remque q' x = Ok q'' /\ queue q'' h (k1 ++ k2).
Proof.
  intros Hq He. pose proof (queue_next _ _ _ _ Hq) as Hn.
  pose proof (ring_insert _ _ h l1 _ l2 e _ Hq He eq_refl eq_refl) as Hr.
  assert (e <> List.last l1 h) as Hne.
  { intros ->. destruct l1 as [|p l1 _] using rev_ind; [set_solver|]. rewrite last_last in He. set_solver. }
  unfold insque, get_link, set_q_prev, set_q_next. cbn [q_next q_prev]. rewrite Hn. cbn [mbind res_bind q_next].
  rewrite lookup_insert_ne, Hn by done. cbn [mbind res_bind]. eexists. split; [done|]. split; [done|].
  intros k1 x k2 E. rewrite E in Hr. apply ring_remove in Hr as (Hx&Hp&Hr).
  unfold remque, get_link, set_q_prev, set_q_next. cbn [q_next q_prev].
  rewrite Hp, Hx. cbn [mbind res_bind q_next q_prev].
  assert (x <> List.last k1 h) as Hnx.
  { destruct Hq as [_ Hnd]. assert (NoDup (h :: l1 ++ e :: l2)) as Hnd2.
    { rewrite <- Permutation_middle. apply NoDup_cons in Hnd as [? ?]. apply NoDup_cons. split; [set_solver|].
      apply NoDup_cons. set_solver. }
    rewrite E in Hnd2. intros ->. destruct k1 as [|p k1 _] using rev_ind.
    - apply NoDup_cons in Hnd2 as [H ?]. apply H. set_solver.
    - rewrite last_last in Hnd2. apply NoDup_cons in Hnd2 as [_ (_&H&_)%NoDup_app]. apply (H p); set_solver. }
  rewrite lookup_insert_ne, Hx by done. cbn [mbind res_bind]. eauto.
Qed.
Lemma insque_remque_spec_witness :
  exists q', insque (Links {[ 1 := 2; 2 := 1 ]} {[ 1 := 2; 2 := 1 ]}) 3 2 = Ok q' /\ queue q' 1 [2; 3] /\
    forall k1 x k2, [2; 3] = k1 ++ x :: k2 -> exists q'', remque q' x = Ok q'' /\ queue q'' 1 (k1 ++ k2).
Proof.
  apply (insque_remque_spec _ 1 [2] [] 3); [|set_solver].
  split; [repeat split; vm_compute; reflexivity|]. apply (bool_decide_unpack _). vm_compute. done.
Defined.


(** The same on several lists that share the links. *)
Lemma remque_ok q H L h l1 e l2 :
  rings (q_next q) (q_prev q) H L -> H h -> L h = l1 ++ e :: l2 ->
  exists q', remque q e = Ok q' /\ rings (q_next q') (q_prev q') H (with_list L h (l1 ++ l2)).
Proof.
  intros R Hh E. destruct (rings_remove _ _ _ _ _ _ _ _ R Hh E) as (Hx&Hp&R').
  unfold remque, get_link, set_q_prev, set_q_next. cbn [q_next q_prev]. rewrite Hp, Hx. cbn [mbind res_bind q_next q_prev].
  assert (e <> List.last l1 h) as Hne.
  { intros Ee. pose proof (last_in_ring h l1) as Hl. rewrite <- Ee in Hl. pose proof (rings_nodup _ _ _ _ _ R Hh) as Hnd. rewrite E in Hnd.
    apply elem_of_cons in Hl as [->|Hl]; [by apply (r_elem _ _ _ _ R h h Hh); [rewrite E; set_solver|]|].
    apply NoDup_app in Hnd as (_&Hd&_). by apply (Hd e Hl), list_elem_of_here. }
  rewrite lookup_insert_ne, Hx by done. cbn [mbind res_bind]. eexists. split; [done|exact R'].
Qed.
Lemma remque_self q H L e :
  rings (q_next q) (q_prev q) H L -> H e -> L e = [] -> remque q e = Ok q.
Proof.
  intros R He E. pose proof (rings_next _ _ _ _ _ R He) as Hn. pose proof (rings_prev _ _ _ _ _ R He) as Hp. rewrite E in Hn, Hp. simpl in Hn, Hp.
  unfold remque, get_link, set_q_prev, set_q_next. cbn [q_next q_prev]. rewrite Hp, Hn. cbn [mbind res_bind q_next q_prev].
  rewrite lookup_insert_eq. cbn [mbind res_bind]. rewrite !insert_id by done. by destruct q.
Qed.
Lemma insque_ok q H L h e :
  rings (q_next q) (q_prev q) H L -> H h -> ~ H e -> (forall k, H k -> e ∉ L k) ->
  exists q', insque q e h = Ok q' /\ rings (q_next q') (q_prev q') H (with_list L h (e :: L h)).
Proof.
  intros R Hh He Hfree. pose proof (rings_next _ _ _ _ _ R Hh) as Hn.
  pose proof (rings_insert _ _ _ _ h [] (L h) e _ _ R Hh eq_refl He Hfree eq_refl eq_refl) as R'.
  unfold insque, get_link, set_q_prev, set_q_next. cbn [q_next q_prev]. rewrite Hn. cbn [mbind res_bind q_next].
  rewrite lookup_insert_ne, Hn by (by intros ->). cbn [mbind res_bind]. eexists. split; [done|exact R'].
Qed.

End Mem.
