(* ===== verification/Bio.v ===== *)
(** The buffer cache (sys/kernel/ufs_bio.c, sys/include/buf.h), with its
    initialization (binit and bhinit of sys/kernel/init_main.c) and the disk
    strategy routine below it (rdstrategy of sys/pic32/rdisk.c).

    A buffer is the index of its entry in the table buf; the headers of the
    hash chains and of the free lists have addresses of their own, and the
    four links b_forw, b_back, av_forw and av_back are maps from addresses. *)
From S2P Require Import Prelude Dll.
Import Dll.

Module Bio.

(** ** Data *)

Definition B_READ : Z := 1.
Definition B_DONE : Z := 2.
Definition B_ERROR : Z := 4.
Definition B_BUSY : Z := 8.
Definition B_WANTED : Z := 64.
Definition B_AGE : Z := 128.
Definition B_ASYNC : Z := 256.
Definition B_DELWRI : Z := 512.
Definition B_INVAL : Z := 2048.
Definition B_LOCKED : Z := 8192.

Definition NBUF : nat := 10.
Definition BUFHSZ : Z := 16.
Definition BQ_LOCKED : Z := 0.
Definition BQ_LRU : Z := 1.
Definition BQ_AGE : Z := 2.
Definition DEV_BSIZE : Z := 1024.
Definition NODEV : Z := -1.
Definition EIO : Z := 5.

(** [struct buf] without the links; [b_data] is the block at b_addr, 256
    words.  Buffers for physical and RAM-remapped transfers, which point
    elsewhere, are not part of the cache. *)
Record buf := MkBuf {
  b_flags : Z; b_bcount : Z; b_error : Z; b_dev : Z; b_blkno : Z; b_resid : Z; b_data : list Z }.
Definition set_b_flags (v : Z) (b : buf) : buf :=
  MkBuf v (b_bcount b) (b_error b) (b_dev b) (b_blkno b) (b_resid b) (b_data b).
Definition set_b_bcount (v : Z) (b : buf) : buf :=
  MkBuf (b_flags b) v (b_error b) (b_dev b) (b_blkno b) (b_resid b) (b_data b).
Definition set_b_error (v : Z) (b : buf) : buf :=
  MkBuf (b_flags b) (b_bcount b) v (b_dev b) (b_blkno b) (b_resid b) (b_data b).
Definition set_b_dev (v : Z) (b : buf) : buf :=
  MkBuf (b_flags b) (b_bcount b) (b_error b) v (b_blkno b) (b_resid b) (b_data b).
Definition set_b_blkno (v : Z) (b : buf) : buf :=
  MkBuf (b_flags b) (b_bcount b) (b_error b) (b_dev b) v (b_resid b) (b_data b).
Definition set_b_data (v : list Z) (b : buf) : buf :=
  MkBuf (b_flags b) (b_bcount b) (b_error b) (b_dev b) (b_blkno b) (b_resid b) v.

(** The cache and the disks below it; [wanted0] is the B_WANTED flag of
    bfreelist[0]. *)
Record cache := MkCache {
  bufs : list buf;
  b_forw : gmap Z Z; b_back : gmap Z Z; av_forw : gmap Z Z; av_back : gmap Z Z;
  wanted0 : bool;
  disk : gmap (Z * Z) (list Z) }.

(** Addresses of the headers. *)
Definition bufhash (h : Z) : Z := 1000 + h.
Definition bfreelist (q : Z) : Z := 2000 + q.
(** [&bufhash [((dev) + bn) & (BUFHSZ - 1)]]; fsbtodb(b) is b. *)
Definition BUFHASH (dev bn : Z) : Z := bufhash (Z.land (dev + bn) (BUFHSZ - 1)).

(** Results: a routine returns, sleeps on a channel, panics or faults. *)
Inductive bio (A : Type) : Type :=
  | BOk (a : A)
  | BSleep (c : cache) (chan : Z)
  | BPanic (msg : string)
  | BFault.
Arguments BOk {A} _.
Arguments BSleep {A} _ _.
Arguments BPanic {A} _.
Arguments BFault {A}.
#[export] Instance bio_ret : MRet bio := @BOk.
#[export] Instance bio_bind : MBind bio := fun A B f m =>
  match m with BOk a => f a | BSleep c w => BSleep c w | BPanic s => BPanic s | BFault => BFault end.

Definition getb (c : cache) (a : Z) : bio buf :=
  if decide (0 <= a) then match bufs c !! Z.to_nat a with Some b => BOk b | None => BFault end else BFault.
Definition setb (a : Z) (f : buf -> buf) (c : cache) : bio cache :=
  b ← getb c a;
  BOk (MkCache (<[Z.to_nat a := f b]> (bufs c)) (b_forw c) (b_back c) (av_forw c) (av_back c) (wanted0 c) (disk c)).
Definition link (m : gmap Z Z) (a : Z) : bio Z := match m !! a with Some x => BOk x | None => BFault end.
Definition set_hash (f g : gmap Z Z) (c : cache) : cache :=
  MkCache (bufs c) f g (av_forw c) (av_back c) (wanted0 c) (disk c).
Definition set_av (f g : gmap Z Z) (c : cache) : cache :=
  MkCache (bufs c) (b_forw c) (b_back c) f g (wanted0 c) (disk c).
Definition set_wanted0 (w : bool) (c : cache) : cache :=
  MkCache (bufs c) (b_forw c) (b_back c) (av_forw c) (av_back c) w (disk c).
Definition set_disk (d : gmap (Z * Z) (list Z)) (c : cache) : cache :=
  MkCache (bufs c) (b_forw c) (b_back c) (av_forw c) (av_back c) (wanted0 c) d.
Definition or_flags (m : Z) (b : buf) : buf := set_b_flags (flag_set (b_flags b) m) b.
Definition clr_flags (m : Z) (b : buf) : buf := set_b_flags (flag_clr (b_flags b) m) b.

(** ** The list macros of buf.h *)

Definition bremhash (bp : Z) (c : cache) : bio cache :=
  back ← link (b_back c) bp; forw ← link (b_forw c) bp;
  let c := set_hash (<[back := forw]> (b_forw c)) (b_back c) c in
  forw ← link (b_forw c) bp; back ← link (b_back c) bp;
  BOk (set_hash (b_forw c) (<[forw := back]> (b_back c)) c).
Definition binshash (bp dp : Z) (c : cache) : bio cache :=
  n ← link (b_forw c) dp;
  let c := set_hash (<[bp := n]> (b_forw c)) (b_back c) c in
  let c := set_hash (b_forw c) (<[bp := dp]> (b_back c)) c in
  n ← link (b_forw c) dp;
  let c := set_hash (b_forw c) (<[n := bp]> (b_back c)) c in
  BOk (set_hash (<[dp := bp]> (b_forw c)) (b_back c) c).
Definition bremfree (bp : Z) (c : cache) : bio cache :=
  back ← link (av_back c) bp; forw ← link (av_forw c) bp;
  let c := set_av (<[back := forw]> (av_forw c)) (av_back c) c in
  forw ← link (av_forw c) bp; back ← link (av_back c) bp;
  BOk (set_av (av_forw c) (<[forw := back]> (av_back c)) c).
Definition binsheadfree (bp dp : Z) (c : cache) : bio cache :=
  n ← link (av_forw c) dp;
  let c := set_av (av_forw c) (<[n := bp]> (av_back c)) c in
  n ← link (av_forw c) dp;
  let c := set_av (<[bp := n]> (av_forw c)) (av_back c) c in
  let c := set_av (<[dp := bp]> (av_forw c)) (av_back c) c in
  BOk (set_av (av_forw c) (<[bp := dp]> (av_back c)) c).
Definition binstailfree (bp dp : Z) (c : cache) : bio cache :=
  p ← link (av_back c) dp;
  let c := set_av (<[p := bp]> (av_forw c)) (av_back c) c in
  p ← link (av_back c) dp;
  let c := set_av (av_forw c) (<[bp := p]> (av_back c)) c in
  let c := set_av (av_forw c) (<[dp := bp]> (av_back c)) c in
  BOk (set_av (<[bp := dp]> (av_forw c)) (av_back c) c).
Definition notavail (bp : Z) (c : cache) : bio cache :=
  c ← bremfree bp c;
  setb bp (or_flags B_BUSY) c.

(** ** Releasing and transferring *)

(** brelse: the wakeups of waiting processes are left out. *)
Definition brelse (bp : Z) (c : cache) : bio cache :=
  let c := set_wanted0 false c in
  b ← getb c bp;
  c ← (if flag_on (b_flags b) B_ERROR then
         if flag_on (b_flags b) B_LOCKED then setb bp (clr_flags B_ERROR) c
         else setb bp (set_b_dev NODEV) c
       else BOk c);
  b ← getb c bp;
  c ← (if flag_on (b_flags b) (B_ERROR + B_INVAL) then binsheadfree bp (bfreelist BQ_AGE) c
       else
         let flist := if flag_on (b_flags b) B_LOCKED then bfreelist BQ_LOCKED
                      else if flag_on (b_flags b) B_AGE then bfreelist BQ_AGE
                      else bfreelist BQ_LRU in
         binstailfree bp flist c);
  setb bp (clr_flags (B_WANTED + B_BUSY + B_ASYNC + B_AGE)) c.

Definition biodone (bp : Z) (c : cache) : bio cache :=
  b ← getb c bp;
  if flag_on (b_flags b) B_DONE then BPanic "dup biodone"
  else
    c ← setb bp (or_flags B_DONE) c;
    if flag_on (b_flags b) B_ASYNC then brelse bp c
    else setb bp (clr_flags B_WANTED) c.

Definition major (dev : Z) : Z := Z.land (Z.shiftr dev 8) 255.
Definition minor (dev : Z) : Z := Z.land dev 255.

Section Devices.
(** The number of disks, the first block of each partition, which disks are
    read only, and which devices are tapes. *)
Context (NRDSK : Z) (start : Z -> Z -> Z) (readonly : Z -> bool) (tape : Z -> bool).

(** Where a block of a device lies: the disk and the block on it. *)
Definition phys (dev blkno : Z) : Z * Z :=
  (major dev, (if 0 <? minor dev then start (major dev) (minor dev - 1) else 0) + blkno).

(** The transfers complete at once; a disk beyond the table is ignored, and
    its buffer never becomes done. *)
Definition rdstrategy (bp : Z) (c : cache) : bio cache :=
  b ← getb c bp;
  if NRDSK - 1 <? major (b_dev b) then BOk c
  else
    let at_ := phys (b_dev b) (b_blkno b) in
    c ← (if flag_on (b_flags b) B_READ then setb bp (set_b_data (disk c !!! at_)) c
         else if readonly (major (b_dev b)) then BOk c
         else BOk (set_disk (<[at_ := b_data b]> (disk c)) c));
    biodone bp c.

(** u.u_error is returned with the buffer by the callers that look at it. *)
Definition geterror (b : buf) : Z :=
  if flag_on (b_flags b) B_ERROR then if b_error b =? 0 then EIO else b_error b else 0.
Definition biowait (bp : Z) (c : cache) : bio cache :=
  b ← getb c bp;
  if negb (flag_on (b_flags b) B_DONE) then BSleep c bp else BOk c.

Definition bwrite (bp : Z) (c : cache) : bio cache :=
  b ← getb c bp;
  let flag := b_flags b in
  c ← setb bp (clr_flags (B_READ + B_DONE + B_ERROR + B_DELWRI)) c;
  c ← setb bp (set_b_bcount DEV_BSIZE) c;
  c ← rdstrategy bp c;
  if negb (flag_on flag B_ASYNC) then
    c ← biowait bp c;
    brelse bp c
  else if flag_on flag B_DELWRI then setb bp (or_flags B_AGE) c
  else BOk c.
Definition bawrite (bp : Z) (c : cache) : bio cache :=
  c ← setb bp (or_flags B_ASYNC) c;
  bwrite bp c.
Definition bdwrite (bp : Z) (c : cache) : bio cache :=
  b ← getb c bp;
  if tape (major (b_dev b)) then bawrite bp c
  else
    c ← setb bp (or_flags (B_DELWRI + B_DONE)) c;
    brelse bp c.

(** ** Finding a buffer *)

(** [for (bp = dp->b_forw; bp != dp; bp = bp->b_forw)], up to the buffer for
    the block. *)
Fixpoint find_hash (fuel : nat) (c : cache) (dp bp dev blkno : Z) : bio (option Z) :=
  match fuel with
  | O => BFault
  | S fuel =>
      if bp =? dp then BOk None
      else
        b ← getb c bp;
        if negb (b_blkno b =? blkno) || negb (b_dev b =? dev) || flag_on (b_flags b) B_INVAL then
          n ← link (b_forw c) bp;
          find_hash fuel c dp n dev blkno
        else BOk (Some bp)
  end.
Definition lookup_hash (c : cache) (dev blkno : Z) : bio (option Z) :=
  let dp := BUFHASH dev blkno in
  n ← link (b_forw c) dp;
  find_hash (S NBUF) c dp n dev blkno.
Definition incore (c : cache) (dev blkno : Z) : bio bool :=
  r ← lookup_hash c dev blkno;
  BOk (match r with Some _ => true | None => false end).

(** [for (dp = &bfreelist[BQ_AGE]; dp > bfreelist; dp--) if (dp->av_forw != dp)] *)
Definition pick_list (c : cache) : bio (option Z) :=
  n ← link (av_forw c) (bfreelist BQ_AGE);
  if negb (n =? bfreelist BQ_AGE) then BOk (Some n)
  else
    n ← link (av_forw c) (bfreelist BQ_LRU);
    if negb (n =? bfreelist BQ_LRU) then BOk (Some n) else BOk None.
(** Every turn but the last writes a delayed block out: [S NBUF] are enough. *)
Fixpoint getnewbuf_loop (fuel : nat) (c : cache) : bio (cache * Z) :=
  match fuel with
  | O => BFault
  | S fuel =>
      r ← pick_list c;
      match r with
      | None => BSleep (set_wanted0 true c) (bfreelist BQ_LOCKED)
      | Some bp =>
          c ← notavail bp c;
          b ← getb c bp;
          if flag_on (b_flags b) B_DELWRI then
            c ← bawrite bp c;
            getnewbuf_loop fuel c
          else
            c ← setb bp (set_b_flags B_BUSY) c;
            BOk (c, bp)
      end
  end.
Definition getnewbuf (c : cache) : bio (cache * Z) := getnewbuf_loop (S NBUF) c.

Definition getblk (dev blkno : Z) (c : cache) : bio (cache * Z) :=
  r ← lookup_hash c dev blkno;
  match r with
  | Some bp =>
      b ← getb c bp;
      if flag_on (b_flags b) B_BUSY then
        c ← setb bp (or_flags B_WANTED) c;
        BSleep c bp
      else
        c ← notavail bp c;
        BOk (c, bp)
  | None =>
      '(c, bp) ← getnewbuf c;
      c ← setb bp (set_b_bcount 0) c;
      c ← bremhash bp c;
      c ← binshash bp (BUFHASH dev blkno) c;
      c ← setb bp (set_b_dev dev) c;
      c ← setb bp (set_b_blkno blkno) c;
      c ← setb bp (set_b_error 0) c;
      BOk (c, bp)
  end.
Definition geteblk (c : cache) : bio (cache * Z) :=
  '(c, bp) ← getnewbuf c;
  c ← setb bp (or_flags B_INVAL) c;
  c ← setb bp (set_b_bcount 0) c;
  c ← bremhash bp c;
  c ← binshash bp (bfreelist BQ_AGE) c;
  c ← setb bp (set_b_dev NODEV) c;
  c ← setb bp (set_b_error 0) c;
  BOk (c, bp).

(** ** Reading *)

Definition start_read (bp : Z) (extra : Z) (c : cache) : bio cache :=
  c ← setb bp (or_flags (B_READ + extra)) c;
  c ← setb bp (set_b_bcount DEV_BSIZE) c;
  rdstrategy bp c.
Definition bread (dev blkno : Z) (c : cache) : bio (cache * Z) :=
  '(c, bp) ← getblk dev blkno c;
  b ← getb c bp;
  if flag_on (b_flags b) (B_DONE + B_DELWRI) then BOk (c, bp)
  else
    c ← start_read bp 0 c;
    c ← biowait bp c;
    BOk (c, bp).
(** The read-ahead block, when there is one and it is not in core. *)
Definition readahead (dev rablkno : Z) (c : cache) : bio cache :=
  if negb (rablkno =? 0) then
    hit ← incore c dev rablkno;
    if negb hit then
      '(c, rabp) ← getblk dev rablkno c;
      b ← getb c rabp;
      if flag_on (b_flags b) (B_DONE + B_DELWRI) then brelse rabp c else start_read rabp B_ASYNC c
    else BOk c
  else BOk c.
Definition breada (dev blkno rablkno : Z) (c : cache) : bio (cache * Z) :=
  hit ← incore c dev blkno;
  '(c, bp) ← (if hit : bool then BOk (c, None)
              else
                '(c, bp) ← getblk dev blkno c;
                b ← getb c bp;
                c ← (if negb (flag_on (b_flags b) (B_DONE + B_DELWRI)) then start_read bp 0 c else BOk c);
                BOk (c, Some bp));
  c ← readahead dev rablkno c;
  match bp with
  | None => bread dev blkno c
  | Some bp => c ← biowait bp c; BOk (c, bp)
  end.

(** ** Flushing *)

(** The loop of blkflush: the search starts again after a write. *)
Fixpoint blkflush_loop (fuel : nat) (c : cache) (dp ep dev blkno : Z) : bio cache :=
  match fuel with
  | O => BFault
  | S fuel =>
      if ep =? dp then BOk c
      else
        b ← getb c ep;
        n ← link (b_forw c) ep;
        if negb (b_blkno b =? blkno) || negb (b_dev b =? dev) || flag_on (b_flags b) B_INVAL then
          blkflush_loop fuel c dp n dev blkno
        else if flag_on (b_flags b) B_BUSY then
          c ← setb ep (or_flags B_WANTED) c;
          BSleep c ep
        else if flag_on (b_flags b) B_DELWRI then
          c ← notavail ep c;
          c ← bwrite ep c;
          n ← link (b_forw c) dp;
          blkflush_loop fuel c dp n dev blkno
        else blkflush_loop fuel c dp n dev blkno
  end.
Definition blkflush (dev blkno : Z) (c : cache) : bio cache :=
  let dp := BUFHASH dev blkno in
  n ← link (b_forw c) dp;
  blkflush_loop (S (2 * S NBUF)) c dp n dev blkno.

(** The first delayed block of the device on a free list from [bp] on. *)
Fixpoint find_dirty (fuel : nat) (c : cache) (flist bp dev : Z) : bio (option Z) :=
  match fuel with
  | O => BFault
  | S fuel =>
      if bp =? flist then BOk None
      else
        b ← getb c bp;
        if flag_on (b_flags b) B_DELWRI && (dev =? b_dev b) then BOk (Some bp)
        else n ← link (av_forw c) bp; find_dirty fuel c flist n dev
  end.
Definition find_dirty_in (c : cache) (dev q : Z) : bio (option Z) :=
  n ← link (av_forw c) (bfreelist q);
  find_dirty (S NBUF) c (bfreelist q) n dev.
(** bflush goes through the three free lists from the first, and starts again
    after each write. *)
Fixpoint bflush_loop (fuel : nat) (dev : Z) (c : cache) : bio cache :=
  match fuel with
  | O => BFault
  | S fuel =>
      r0 ← find_dirty_in c dev BQ_LOCKED;
      r1 ← find_dirty_in c dev BQ_LRU;
      r2 ← find_dirty_in c dev BQ_AGE;
      match (match r0 with Some bp => Some bp | None => match r1 with Some bp => Some bp | None => r2 end end) with
      | None => BOk c
      | Some bp =>
          c ← setb bp (or_flags B_ASYNC) c;
          c ← notavail bp c;
          c ← bwrite bp c;
          bflush_loop fuel dev c
      end
  end.
Definition bflush (dev : Z) (c : cache) : bio cache := bflush_loop (S NBUF) dev c.
End Devices.

(** binval marks the buffers of the hash chains of bufhash. *)
Fixpoint binval_chain (fuel : nat) (dp bp dev : Z) (c : cache) : bio cache :=
  match fuel with
  | O => BFault
  | S fuel =>
      if bp =? dp then BOk c
      else
        b ← getb c bp;
        c ← (if b_dev b =? dev then setb bp (or_flags B_INVAL) c else BOk c);
        n ← link (b_forw c) bp;
        binval_chain fuel dp n dev c
  end.
Fixpoint binval_loop (hs : list nat) (dev : Z) (c : cache) : bio cache :=
  match hs with
  | [] => BOk c
  | h :: hs =>
      let dp := bufhash (Z.of_nat h) in
      n ← link (b_forw c) dp;
      c ← binval_chain (S NBUF) dp n dev c;
      binval_loop hs dev c
  end.
Definition binval (dev : Z) (c : cache) : bio cache := binval_loop (seq 0 (Z.to_nat BUFHSZ)) dev c.

(** bhinit and binit: every header alone in its list, then every buffer
    invalid and released. *)
Definition bhinit (c : cache) : cache :=
  fold_left (fun c h => let a := bufhash (Z.of_nat h) in
    set_hash (<[a := a]> (b_forw c)) (<[a := a]> (b_back c)) c) (seq 0 (Z.to_nat BUFHSZ)) c.
Fixpoint binit_loop (n : nat) (i : nat) (c : cache) : bio cache :=
  match n with
  | O => BOk c
  | S n =>
      let bp := Z.of_nat i in
      c ← setb bp (set_b_dev NODEV) c;
      c ← setb bp (set_b_bcount 0) c;
      c ← binshash bp (bfreelist BQ_AGE) c;
      c ← setb bp (set_b_flags (B_BUSY + B_INVAL)) c;
      c ← brelse bp c;
      binit_loop n (S i) c
  end.
Definition binit (c : cache) : bio cache :=
  let c := fold_left (fun c q => let a := bfreelist q in
             set_av (<[a := a]> (av_forw c)) (<[a := a]> (av_back c))
               (set_hash (<[a := a]> (b_forw c)) (<[a := a]> (b_back c)) c)) [0; 1; 2] c in
  binit_loop NBUF 0 c.

End Bio.
