(* ===== verification/Bcache.v ===== *)
(** The invariant of the buffer cache of Bio.v and what its operations do to
    the blocks the cache presents: the cache behaves as a plain store of
    blocks.

    [content c dev blkno] is what a reader of the block sees: the data of the
    buffer that holds the block, when there is one with valid data, and the
    block on the disk otherwise. *)
From S2P Require Import Prelude Dll Bio.
Import Dll Bio.

Module Bcache.

(** ** Words of buffer flags *)

Lemma flag_on_or w m n : flag_on w (Z.lor m n) = flag_on w m || flag_on w n.
Proof.
  unfold flag_on. rewrite Z.land_lor_distr_r. 
  destruct (Z.eqb_spec (Z.land w m) 0) as [->|H1]; [by rewrite Z.lor_0_l|].
  destruct (Z.eqb_spec (Z.lor (Z.land w m) (Z.land w n)) 0) as [E|]; [|done].
  apply Z.lor_eq_0_iff in E. tauto.
Qed.
Lemma flag_on_set_in w m n : Z.land m n = n -> n <> 0 -> flag_on (flag_set w m) n = true.
Proof.
  intros H Hn. unfold flag_on, flag_set. rewrite Z.land_lor_distr_l, H, negb_true_iff, Z.eqb_neq.
  intros E%Z.lor_eq_0_iff. tauto.
Qed.
Lemma flag_on_clr_in w m n : Z.land m n = n -> flag_on (flag_clr w m) n = false.
Proof.
  intros H. apply flag_on_land. unfold flag_clr. rewrite <- H, Z.land_assoc, <- (Z.land_assoc w).
  by rewrite (Z.land_comm (Z.lnot m)), Z.land_lnot_diag, Z.land_0_r.
Qed.
Lemma flag_on_done_delwri w : flag_on w (B_DONE + B_DELWRI) = flag_on w B_DONE || flag_on w B_DELWRI.
Proof. apply (flag_on_or w B_DONE B_DELWRI). Qed.
Lemma flag_on_error_inval w : flag_on w (B_ERROR + B_INVAL) = flag_on w B_ERROR || flag_on w B_INVAL.
Proof. apply (flag_on_or w B_ERROR B_INVAL). Qed.
Create Rewrite HintDb bflags.
#[export] Hint Rewrite flag_on_set_in flag_on_clr_in flag_on_set_other flag_on_clr_other
  using (vm_compute; done) : bflags.
#[export] Hint Rewrite flag_on_done_delwri flag_on_error_inval : bflags.

(** ** Headers and lists *)

Definition hash_head (h : Z) : Prop := h = bfreelist BQ_AGE \/ exists k, 0 <= k < BUFHSZ /\ h = bufhash k.
Definition free_head (h : Z) : Prop := exists q, 0 <= q < 3 /\ h = bfreelist q.
Definition is_buf (a : Z) : Prop := 0 <= a < Z.of_nat NBUF.

Lemma is_buf_not_hash a : is_buf a -> ~ hash_head a.
Proof. unfold is_buf, hash_head, NBUF, bfreelist, bufhash, BQ_AGE, BUFHSZ. intros H [->|(k&?&->)]; lia. Qed.
Lemma is_buf_not_free a : is_buf a -> ~ free_head a.
Proof. unfold is_buf, free_head, NBUF, bfreelist. intros H (q&?&->). lia. Qed.
Lemma BUFHASH_head dev bn : hash_head (BUFHASH dev bn).
Proof.
  right. exists (Z.land (dev + bn) (BUFHSZ - 1)). split; [|done].
  change (BUFHSZ - 1) with (Z.ones 4). rewrite Z.land_ones by lia.
  pose proof (Z.mod_pos_bound (dev + bn) (2 ^ 4)). unfold BUFHSZ. lia.
Qed.
Lemma free_head_q q : 0 <= q < 3 -> free_head (bfreelist q).
Proof. intros. by exists q. Qed.

Section Links.
Context (c : cache).
Implicit Types (bp dp h : Z) (L : Z -> list Z).

Lemma bremhash_ok L h l1 bp l2 :
  rings (b_forw c) (b_back c) hash_head L -> hash_head h -> is_buf bp -> L h = l1 ++ bp :: l2 ->
  exists f g, bremhash bp c = BOk (set_hash f g c) /\ rings f g hash_head (with_list L h (l1 ++ l2)).
Proof.
  intros R Hh Hb E. destruct (rings_remove _ _ _ _ _ _ _ _ R Hh E) as (H1&H2&H3).
  eexists _, _. split; [|exact H3]. unfold bremhash, link. rewrite H1, H2. cbn [mbind bio_bind].
  cbn [set_hash b_forw b_back]. rewrite lookup_insert_ne, H1, H2; [done|].
  pose proof (rings_nodup _ _ _ _ _ R Hh) as Hnd. rewrite E in Hnd. apply NoDup_app in Hnd as (_&Hd&_).
  intros Heq. assert (bp ∈ h :: l1) as [->|Hin]%elem_of_cons by (rewrite <- Heq; apply last_in_ring).
  - by apply (is_buf_not_hash h).
  - apply (Hd bp Hin). apply list_elem_of_here.
Qed.

Lemma binshash_ok L dp bp :
  rings (b_forw c) (b_back c) hash_head L -> hash_head dp -> is_buf bp ->
  (forall k, hash_head k -> bp ∉ L k) ->
  exists f g, binshash bp dp c = BOk (set_hash f g c) /\ rings f g hash_head (with_list L dp (bp :: L dp)).
Proof.
  intros R Hh Hb Hn. pose proof (rings_next _ _ _ _ _ R Hh) as Hx.
  pose proof (rings_insert _ _ _ _ dp [] (L dp) bp _ _ R Hh eq_refl (is_buf_not_hash _ Hb) Hn eq_refl eq_refl) as HR.
  eexists _, _. split; [|exact HR]. unfold binshash, link. rewrite Hx. cbn [mbind bio_bind set_hash b_forw b_back].
  rewrite lookup_insert_ne, Hx; [done|]. intros ->. by apply (is_buf_not_hash dp).
Qed.

Lemma bremfree_ok L h l1 bp l2 :
  rings (av_forw c) (av_back c) free_head L -> free_head h -> is_buf bp -> L h = l1 ++ bp :: l2 ->
  exists f g, bremfree bp c = BOk (set_av f g c) /\ rings f g free_head (with_list L h (l1 ++ l2)).
Proof.
  intros R Hh Hb E. destruct (rings_remove _ _ _ _ _ _ _ _ R Hh E) as (H1&H2&H3).
  eexists _, _. split; [|exact H3]. unfold bremfree, link. rewrite H1, H2. cbn [mbind bio_bind].
  cbn [set_av av_forw av_back]. rewrite lookup_insert_ne, H1, H2; [done|].
  pose proof (rings_nodup _ _ _ _ _ R Hh) as Hnd. rewrite E in Hnd. apply NoDup_app in Hnd as (_&Hd&_).
  intros Heq. assert (bp ∈ h :: l1) as [->|Hin]%elem_of_cons by (rewrite <- Heq; apply last_in_ring).
  - by apply (is_buf_not_free h).
  - apply (Hd bp Hin). apply list_elem_of_here.
Qed.

Lemma binsheadfree_ok L dp bp :
  rings (av_forw c) (av_back c) free_head L -> free_head dp -> is_buf bp ->
  (forall k, free_head k -> bp ∉ L k) ->
  exists f g, binsheadfree bp dp c = BOk (set_av f g c) /\ rings f g free_head (with_list L dp (bp :: L dp)).
Proof.
  intros R Hh Hb Hn. pose proof (rings_next _ _ _ _ _ R Hh) as Hx.
  pose proof (rings_insert _ _ _ _ dp [] (L dp) bp _ _ R Hh eq_refl (is_buf_not_free _ Hb) Hn eq_refl eq_refl) as HR.
  eexists _, _. split; [|exact HR]. unfold binsheadfree, link. rewrite Hx.
  cbn [mbind bio_bind set_av av_forw av_back]. rewrite Hx. cbn [mbind bio_bind set_av av_forw av_back].
  rewrite (insert_insert_ne (M := gmap Z) (av_back c)); [done|].
  intros Heq. assert (bp ∈ dp :: L dp) as [->|Hin]%elem_of_cons by (rewrite Heq; apply hd_in_ring).
  - by apply (is_buf_not_free dp).
  - by apply (Hn dp).
Qed.

Lemma binstailfree_ok L dp bp :
  rings (av_forw c) (av_back c) free_head L -> free_head dp -> is_buf bp ->
  (forall k, free_head k -> bp ∉ L k) ->
  exists f g, binstailfree bp dp c = BOk (set_av f g c) /\ rings f g free_head (with_list L dp (L dp ++ [bp])).
Proof.
  intros R Hh Hb Hn. pose proof (rings_prev _ _ _ _ _ R Hh) as Hx.
  pose proof (rings_insert _ _ _ _ dp (L dp) [] bp _ _ R Hh ltac:(by rewrite app_nil_r)
    (is_buf_not_free _ Hb) Hn eq_refl eq_refl) as HR.
  eexists _, _. split; [|exact HR]. unfold binstailfree, link. rewrite Hx.
  cbn [mbind bio_bind set_av av_forw av_back]. rewrite Hx. cbn [mbind bio_bind set_av av_forw av_back].
  rewrite (insert_insert_ne (M := gmap Z) (av_forw c)); [done|].
  intros Heq. assert (bp ∈ dp :: L dp) as [->|Hin]%elem_of_cons by (rewrite Heq; apply last_in_ring).
  - by apply (is_buf_not_free dp).
  - by apply (Hn dp).
Qed.
End Links.

(** ** Updating one buffer *)

Definition put (i : nat) (b : buf) (c : cache) : cache :=
  MkCache (<[i := b]> (bufs c)) (b_forw c) (b_back c) (av_forw c) (av_back c) (wanted0 c) (disk c).

Lemma getb_ok c i b : bufs c !! i = Some b -> getb c (Z.of_nat i) = BOk b.
Proof. intros H. unfold getb. rewrite decide_True by lia. by rewrite Nat2Z.id, H. Qed.
Lemma setb_ok c i b f : bufs c !! i = Some b -> setb (Z.of_nat i) f c = BOk (put i (f b) c).
Proof. intros H. unfold setb. rewrite (getb_ok _ _ _ H). cbn [mbind bio_bind]. by rewrite Nat2Z.id. Qed.
Lemma link_ok m a x : m !! a = Some x -> link m a = BOk x.
Proof. intros H. unfold link. by rewrite H. Qed.
Lemma put_lookup c i b b0 : bufs c !! i = Some b0 -> bufs (put i b c) !! i = Some b.
Proof. intros H. apply list_lookup_insert_eq. by eapply lookup_lt_Some. Qed.
Lemma put_put c i b b' : put i b (put i b' c) = put i b c.
Proof. unfold put. simpl. by rewrite list_insert_insert_eq. Qed.
Lemma put_disk c i b d : set_disk d (put i b c) = put i b (set_disk d c).
Proof. done. Qed.
Lemma put_av c i b f g : set_av f g (put i b c) = put i b (set_av f g c).
Proof. done. Qed.
Lemma put_hash c i b f g : set_hash f g (put i b c) = put i b (set_hash f g c).
Proof. done. Qed.
Lemma put_wanted c i b w : set_wanted0 w (put i b c) = put i b (set_wanted0 w c).
Proof. done. Qed.
Lemma put_same c i b : bufs c !! i = Some b -> put i b c = c.
Proof. intros H. unfold put. rewrite list_insert_id by done. by destruct c. Qed.

(** [bstep] runs one access to the buffer [i], known from [bufs c !! i]. *)
Ltac bstep :=
  first
  [ erewrite getb_ok by (first [eassumption | eapply put_lookup; eassumption])
  | erewrite setb_ok by (first [eassumption | eapply put_lookup; eassumption]) ];
  cbn [mbind bio_bind]; rewrite ?put_put.

Definition released (b : buf) : buf := clr_flags (B_WANTED + B_BUSY + B_ASYNC + B_AGE) b.

Lemma brelse_ok c AL i b :
  rings (av_forw c) (av_back c) free_head AL -> bufs c !! i = Some b -> is_buf (Z.of_nat i) ->
  (forall k, free_head k -> Z.of_nat i ∉ AL k) ->
  flag_on (b_flags b) B_ERROR = false -> flag_on (b_flags b) B_LOCKED = false ->
  exists f g q l, brelse (Z.of_nat i) c = BOk (put i (released b) (set_av f g (set_wanted0 false c))) /\
    rings f g free_head (with_list AL (bfreelist q) l) /\ (q = BQ_LRU \/ q = BQ_AGE) /\
    l ≡ₚ Z.of_nat i :: AL (bfreelist q).
Proof.
  intros R Hi Hb Hn He Hl. unfold brelse.
  set (c0 := set_wanted0 false c).
  assert (bufs c0 !! i = Some b) as Hi0 by done.
  bstep. rewrite He. cbn [mbind bio_bind]. bstep. autorewrite with bflags. rewrite He. cbn [orb].
  destruct (flag_on (b_flags b) B_INVAL) eqn:Einv.
  - destruct (binsheadfree_ok c0 AL (bfreelist BQ_AGE) (Z.of_nat i) R) as (f&g&E&HR);
      [by apply free_head_q|done|done|].
    rewrite E. cbn [mbind bio_bind]. exists f, g, BQ_AGE, (Z.of_nat i :: AL (bfreelist BQ_AGE)).
    split; [|by eauto]. by erewrite setb_ok by exact Hi0.
  - rewrite Hl. destruct (flag_on (b_flags b) B_AGE).
    + destruct (binstailfree_ok c0 AL (bfreelist BQ_AGE) (Z.of_nat i) R) as (f&g&E&HR);
        [by apply free_head_q|done|done|].
      rewrite E. cbn [mbind bio_bind]. exists f, g, BQ_AGE, (AL (bfreelist BQ_AGE) ++ [Z.of_nat i]).
      split; [by erewrite setb_ok by exact Hi0|]. split_and!; [done|by right|]. symmetry. apply Permutation_cons_append.
    + destruct (binstailfree_ok c0 AL (bfreelist BQ_LRU) (Z.of_nat i) R) as (f&g&E&HR);
        [by apply free_head_q|done|done|].
      rewrite E. cbn [mbind bio_bind]. exists f, g, BQ_LRU, (AL (bfreelist BQ_LRU) ++ [Z.of_nat i]).
      split; [by erewrite setb_ok by exact Hi0|]. split_and!; [done|by left|]. symmetry. apply Permutation_cons_append.
Qed.

Lemma notavail_ok c AL i b h :
  rings (av_forw c) (av_back c) free_head AL -> bufs c !! i = Some b -> is_buf (Z.of_nat i) ->
  free_head h -> Z.of_nat i ∈ AL h ->
  exists f g l, notavail (Z.of_nat i) c = BOk (put i (or_flags B_BUSY b) (set_av f g c)) /\
    rings f g free_head (with_list AL h l) /\ AL h ≡ₚ Z.of_nat i :: l.
Proof.
  intros R Hi Hb Hh (l1&l2&E)%list_elem_of_split.
  destruct (bremfree_ok c AL h l1 (Z.of_nat i) l2 R Hh Hb E) as (f&g&Er&HR).
  exists f, g, (l1 ++ l2). split_and!; [|done|rewrite E; symmetry; apply Permutation_middle].
  unfold notavail. rewrite Er. cbn [mbind bio_bind]. by erewrite setb_ok by exact Hi.
Qed.

(** ** The cache at boot

    The tables are zero, and so are the links; bhinit and binit come first. *)
Definition zero_buf : buf := MkBuf 0 0 0 0 0 0 [].
Definition zero_cache (dk : gmap (Z * Z) (list Z)) : cache :=
  MkCache (replicate NBUF zero_buf) ∅ ∅ ∅ ∅ false dk.
Definition boot_list (h : Z) : list Z := if h =? bfreelist BQ_AGE then [9; 8; 7; 6; 5; 4; 3; 2; 1; 0] else [].
Definition boot_buf : buf := MkBuf B_INVAL 0 0 NODEV 0 0 [].

(** The links binit leaves, as a decidable property of the maps. *)
Fixpoint dseg_check (f g : gmap Z Z) (a : Z) (l : list Z) (b : Z) : bool :=
  match l with
  | [] => bool_decide (f !! a = Some b) && bool_decide (g !! b = Some a)
  | x :: l => bool_decide (f !! a = Some x) && bool_decide (g !! x = Some a) && dseg_check f g x l b
  end.
Definition ring_check (f g : gmap Z Z) (h : Z) (l : list Z) : bool :=
  dseg_check f g h l h && bool_decide (NoDup (h :: l)).
Lemma dseg_check_ok f g a l b : dseg_check f g a l b = true -> dseg f g a l b.
Proof.
  revert a. induction l as [|x l IH]; intros a; simpl; rewrite !andb_true_iff, !bool_decide_eq_true; [done|].
  intros [[H1 H2] H3]. auto.
Qed.
Lemma ring_check_ok f g h l : ring_check f g h l = true -> ring f g h l.
Proof. unfold ring_check. rewrite andb_true_iff, bool_decide_eq_true. intros [H%dseg_check_ok Hn]. by split. Qed.
Lemma boot_rings f g (H : Z -> Prop) hs :
  (forall h, H h <-> h ∈ hs) -> forallb (fun h => ring_check f g h (boot_list h)) hs = true ->
  (forall e, 0 <= e < 10 -> ~ H e) -> rings f g H boot_list.
Proof.
  intros Hhs Hc He. split.
  - intros h Hh%Hhs. apply ring_check_ok. rewrite forallb_forall in Hc. apply Hc. by apply list_elem_of_In.
  - intros h e Hh. unfold boot_list. case_match; [|set_solver]. intros Hin. apply He. set_unfold. lia.
  - intros h h' e Hh Hh'. unfold boot_list. destruct (Z.eqb_spec h (bfreelist BQ_AGE)), (Z.eqb_spec h' (bfreelist BQ_AGE)); set_solver.
Qed.

Lemma boot_state dk :
  exists f g f' g', binit (bhinit (zero_cache dk)) = BOk (MkCache (replicate NBUF boot_buf) f g f' g' false dk) /\
    rings f g hash_head boot_list /\ rings f' g' free_head boot_list.
Proof.
  eexists _, _, _, _. split; [vm_compute; reflexivity|]. split.
  - apply boot_rings with (bfreelist BQ_AGE :: (bufhash <$> (Z.of_nat <$> seq 0 16))).
    + intros h. unfold hash_head. rewrite elem_of_cons, list_elem_of_fmap. split; (intros [?|Hk]; [by left|right]).
      * destruct Hk as (k&Hk&->). exists k. split; [done|]. apply list_elem_of_fmap. exists (Z.to_nat k).
        rewrite elem_of_seq. unfold BUFHSZ in Hk. lia.
      * destruct Hk as (k&->&(n&->&Hn)%list_elem_of_fmap). apply elem_of_seq in Hn.
        exists (Z.of_nat n). unfold BUFHSZ. split; [lia|done].
    + vm_compute. reflexivity.
    + intros e Hr. apply is_buf_not_hash. unfold is_buf, NBUF. lia.
  - apply boot_rings with [bfreelist 0; bfreelist 1; bfreelist 2].
    + intros h. unfold free_head. split.
      * intros (q&Hq&->). assert (q = 0 \/ q = 1 \/ q = 2) as [->|[->| ->]] by lia; set_solver.
      * set_unfold. intros [->|[->|[->|[]]]]; eexists; (split; [|reflexivity]); lia.
    + vm_compute. reflexivity.
    + intros e Hr. apply is_buf_not_free. unfold is_buf, NBUF. lia.
Qed.

(** ** Counting *)

Lemma nodup_bufs_length l : NoDup l -> (forall e, e ∈ l -> is_buf e) -> (length l <= NBUF)%nat.
Proof.
  intros Hnd Hb. transitivity (length (Z.of_nat <$> seq 0 NBUF)); [|done].
  apply submseteq_length, NoDup_submseteq; [done|]. intros e He. destruct (Hb e He).
  apply list_elem_of_fmap. exists (Z.to_nat e). split; [lia|]. apply elem_of_seq. lia.
Qed.
Lemma filter_insert_lt {A} (P : A -> Prop) `{forall x, Decision (P x)} (l : list A) i x y :
  l !! i = Some x -> P x -> ~ P y -> (length (filter P (<[i := y]> l)) < length (filter P l))%nat.
Proof.
  intros Hi Hx Hy. rewrite <- (take_drop_middle l i x Hi) at 2. rewrite insert_take_drop by (by eapply lookup_lt_Some).
  rewrite !filter_app, !length_app, (filter_cons_False P y), (filter_cons_True P x) by done. simpl. lia.
Qed.

(** ** The invariant

    The section is about disks on which no two blocks in use lie at the same
    place; the whole-disk device of a partitioned disk is not used beside its
    partitions. *)
Section Cache.
Context (NRDSK : Z) (start : Z -> Z -> Z) (readonly : Z -> bool).
Context (used : Z -> Z -> Prop).
Hypothesis used_phys : forall d b d' b', used d b -> used d' b' ->
  phys start d b = phys start d' b' -> d = d' /\ b = b'.
Hypothesis used_disk : forall d b, used d b -> major d < NRDSK /\ readonly (major d) = false.

Abbreviation on b m := (flag_on (b_flags b) m).
Notation "'at' b" := (phys start (b_dev b) (b_blkno b)) (at level 10, b at level 9).

(** What holds of every buffer: the data of a buffer nobody holds, when it is
    valid and not to be written, is the block on the disk. *)
Record buf_ok (dk : gmap (Z * Z) (list Z)) (b : buf) : Prop := {
  bk_error : on b B_ERROR = false;
  bk_resid : b_resid b = 0;
  bk_locked : on b B_LOCKED = false;
  bk_async : on b B_BUSY = false -> on b B_ASYNC = false;
  bk_inval : on b B_INVAL = true -> on b B_DELWRI = false;
  bk_delwri : on b B_DELWRI = true -> on b B_DONE = true;
  bk_used : on b B_INVAL = false -> used (b_dev b) (b_blkno b);
  bk_clean : on b B_BUSY = false -> on b B_INVAL = false -> on b B_DONE = true -> on b B_DELWRI = false ->
    b_data b = dk !!! at b }.

Record cache_ok (c : cache) (HL AL : Z -> list Z) : Prop := {
  ok_len : length (bufs c) = NBUF;
  ok_hash : rings (b_forw c) (b_back c) hash_head HL;
  ok_free : rings (av_forw c) (av_back c) free_head AL;
  ok_hash_buf : forall h e, hash_head h -> e ∈ HL h -> is_buf e;
  ok_free_buf : forall h e, free_head h -> e ∈ AL h -> is_buf e;
  ok_hashed : forall i, (i < NBUF)%nat -> exists h, hash_head h /\ Z.of_nat i ∈ HL h;
  ok_avail : forall i b, bufs c !! i = Some b ->
    on b B_BUSY = false <-> exists h, free_head h /\ Z.of_nat i ∈ AL h;
  ok_unlocked : AL (bfreelist BQ_LOCKED) = [];
  ok_buf : forall i b, bufs c !! i = Some b -> buf_ok (disk c) b;
  ok_chain : forall i b, bufs c !! i = Some b -> on b B_INVAL = false ->
    Z.of_nat i ∈ HL (BUFHASH (b_dev b) (b_blkno b));
  ok_one : forall i j b b', bufs c !! i = Some b -> bufs c !! j = Some b' ->
    on b B_INVAL = false -> on b' B_INVAL = false ->
    b_dev b = b_dev b' -> b_blkno b = b_blkno b' -> i = j }.
Definition cache_inv (c : cache) : Prop := exists HL AL, cache_ok c HL AL.

(** What the cache presents. *)
Definition holds (dev blkno : Z) (b : buf) : bool :=
  (b_dev b =? dev) && (b_blkno b =? blkno) && negb (on b B_INVAL).
Definition content (c : cache) (dev blkno : Z) : list Z :=
  match list_find (fun b => holds dev blkno b && on b B_DONE = true) (bufs c) with
  | Some (_, b) => b_data b
  | None => disk c !!! phys start dev blkno
  end.
(** A buffer that somebody holds for the block. *)
Definition held (c : cache) (bp dev blkno : Z) : Prop :=
  exists i b, bp = Z.of_nat i /\ bufs c !! i = Some b /\ on b B_BUSY = true /\ holds dev blkno b = true.

Lemma holds_true dev blkno b :
  holds dev blkno b = true <-> b_dev b = dev /\ b_blkno b = blkno /\ on b B_INVAL = false.
Proof. unfold holds. rewrite !andb_true_iff, !Z.eqb_eq, negb_true_iff. tauto. Qed.

Lemma content_buf c HL AL i b :
  cache_ok c HL AL -> bufs c !! i = Some b -> on b B_INVAL = false -> on b B_DONE = true ->
  content c (b_dev b) (b_blkno b) = b_data b.
Proof.
  intros Hok Hi Hv Hd. unfold content. destruct (list_find _ _) as [[j b']|] eqn:E.
  - apply list_find_Some in E as (Hj&[(?&?&?)%holds_true ?]%andb_true_iff&_).
    assert (j = i) as -> by (eapply ok_one; eauto). by simplify_eq.
  - exfalso. apply list_find_None in E. rewrite Forall_lookup in E. apply (E i b Hi).
    apply andb_true_iff. split; [|done]. by apply holds_true.
Qed.
Lemma content_disk c dev blkno :
  (forall i b, bufs c !! i = Some b -> holds dev blkno b = true -> on b B_DONE = false) ->
  content c dev blkno = disk c !!! phys start dev blkno.
Proof.
  intros Hn. unfold content. destruct (list_find _ _) as [[j b']|] eqn:E; [|done].
  apply list_find_Some in E as (Hj&[Hh Hd]%andb_true_iff&_). rewrite (Hn j b' Hj Hh) in Hd. done.
Qed.

(** *** One buffer changes *)

Section Change.
Context (c c' : cache) (HL AL HL' AL' : Z -> list Z) (i : nat) (b b' : buf).
Hypothesis (Hok : cache_ok c HL AL) (Hi : bufs c !! i = Some b) (Hbufs : bufs c' = <[i := b']> (bufs c)).

Lemma change_other j x : j <> i -> bufs c' !! j = Some x <-> bufs c !! j = Some x.
Proof. intros. rewrite Hbufs. by rewrite list_lookup_insert_ne. Qed.
Lemma change_this x : bufs c' !! i = Some x -> x = b'.
Proof. rewrite Hbufs, list_lookup_insert_eq by (by eapply lookup_lt_Some). by intros [=]. Qed.

Hypothesis (Hhash : rings (b_forw c') (b_back c') hash_head HL')
  (Hfree : rings (av_forw c') (av_back c') free_head AL').
Hypothesis (HHL : forall h e, hash_head h -> e <> Z.of_nat i -> e ∈ HL' h <-> e ∈ HL h)
  (HHi : exists h, hash_head h /\ Z.of_nat i ∈ HL' h)
  (HAL : forall h e, free_head h -> e <> Z.of_nat i -> e ∈ AL' h <-> e ∈ AL h)
  (HAi : on b' B_BUSY = false <-> exists h, free_head h /\ Z.of_nat i ∈ AL' h)
  (HA0 : AL' (bfreelist BQ_LOCKED) = []).
Hypothesis (Hother : forall j x, j <> i -> bufs c !! j = Some x -> buf_ok (disk c) x -> buf_ok (disk c') x)
  (Hthis : buf_ok (disk c') b')
  (Hchain : on b' B_INVAL = false -> Z.of_nat i ∈ HL' (BUFHASH (b_dev b') (b_blkno b')))
  (Hone : on b' B_INVAL = false -> forall j x, j <> i -> bufs c !! j = Some x ->
    holds (b_dev b') (b_blkno b') x = false).

Lemma ok_change : cache_ok c' HL' AL'.
Proof.
  assert (Z.of_nat i < Z.of_nat NBUF) as Hlt
    by (apply lookup_lt_Some in Hi; rewrite (ok_len _ _ _ Hok) in Hi; lia).
  split; try done.
  - rewrite Hbufs, length_insert. by apply Hok.
  - intros h e Hh He. destruct (decide (e = Z.of_nat i)) as [->|Hne]; [split; lia|].
    apply (ok_hash_buf _ _ _ Hok h); [done|]. by apply HHL.
  - intros h e Hh He. destruct (decide (e = Z.of_nat i)) as [->|Hne]; [split; lia|].
    apply (ok_free_buf _ _ _ Hok h); [done|]. by apply HAL.
  - intros j Hj. destruct (decide (j = i)) as [->|Hne]; [done|].
    destruct (ok_hashed _ _ _ Hok j Hj) as (h&Hh&He). exists h. split; [done|]. apply HHL; [done|lia|done].
  - intros j x Hj. destruct (decide (j = i)) as [->|Hne]; [by rewrite (change_this x Hj)|].
    apply change_other in Hj; [|done]. rewrite (ok_avail _ _ _ Hok j x Hj).
    split; intros (h&Hh&He); exists h; (split; [done|]); apply HAL in He; (done || lia).
  - intros j x Hj. destruct (decide (j = i)) as [->|Hne]; [by rewrite (change_this x Hj)|].
    apply change_other in Hj; [|done]. apply (Hother j); [done..|]. by apply (ok_buf _ _ _ Hok j).
  - intros j x Hj Hx. destruct (decide (j = i)) as [->|Hne]; [apply change_this in Hj as ->; auto|].
    apply change_other in Hj; [|done]. apply HHL; [apply BUFHASH_head|lia|]. by apply (ok_chain _ _ _ Hok).
  - assert (forall j x, j <> i -> bufs c' !! j = Some x -> on b' B_INVAL = false -> on x B_INVAL = false ->
      b_dev b' = b_dev x -> b_blkno b' = b_blkno x -> False) as Hno.
    { intros j x Hne Hj H1 H2 H3 H4. apply change_other in Hj; [|done].
      assert (holds (b_dev b') (b_blkno b') x = true) as Ht by (apply holds_true; split_and!; congruence).
      by rewrite (Hone H1 j x Hne Hj) in Ht. }
    intros j k x y Hj Hk Hx Hy H1 H2.
    destruct (decide (j = i)) as [->|Hji], (decide (k = i)) as [->|Hki]; [done|..].
    + apply change_this in Hj as ->. by destruct (Hno k y).
    + apply change_this in Hk as ->. by destruct (Hno j x Hji Hj Hy Hx).
    + apply change_other in Hj; [|done]. apply change_other in Hk; [|done]. by eapply (ok_one _ _ _ Hok j k x y).
Qed.
End Change.

(** *** What a change shows *)

Definition shown (dk : gmap (Z * Z) (list Z)) (dev blkno : Z) (b : buf) : list Z :=
  if holds dev blkno b && on b B_DONE then b_data b else dk !!! phys start dev blkno.

Lemma content_split c HL AL i b dev blkno :
  cache_ok c HL AL -> bufs c !! i = Some b ->
  (exists j x, j <> i /\ bufs c !! j = Some x /\ holds dev blkno x && on x B_DONE = true) \/
  (forall j x, j <> i -> bufs c !! j = Some x -> holds dev blkno x && on x B_DONE = false) /\
  content c dev blkno = shown (disk c) dev blkno b.
Proof.
  intros Hok Hi.
  destruct (list_find (fun x => holds dev blkno x && on x B_DONE = true) (bufs c)) as [[j x]|] eqn:E.
  - pose proof E as (Hj&Hx&_)%list_find_Some. destruct (decide (j = i)) as [->|Hne]; [|left; eauto].
    right. unfold content, shown. rewrite E. simplify_eq. rewrite Hx. split; [|done].
    intros j x Hne Hj'. destruct (holds dev blkno x && on x B_DONE) eqn:Ex; [|done]. exfalso. apply Hne.
    apply andb_true_iff in Hx as [(?&?&?)%holds_true ?], Ex as [(?&?&?)%holds_true ?].
    eapply (ok_one _ _ _ Hok j i); try done; congruence.
  - right. unfold content, shown. rewrite E. apply list_find_None in E. rewrite Forall_lookup in E.
    assert (forall j x, bufs c !! j = Some x -> holds dev blkno x && on x B_DONE = false) as Hf.
    { intros j x Hj. apply not_true_iff_false. by apply (E j). }
    rewrite (Hf i b Hi). eauto.
Qed.

Lemma content_change c c' HL AL HL' AL' i b b' dev blkno :
  cache_ok c HL AL -> cache_ok c' HL' AL' -> bufs c !! i = Some b -> bufs c' = <[i := b']> (bufs c) ->
  shown (disk c') dev blkno b' = shown (disk c) dev blkno b -> content c' dev blkno = content c dev blkno.
Proof.
  intros Hok Hok' Hi Hb Hs.
  assert (bufs c' !! i = Some b') as Hi' by (rewrite Hb; apply list_lookup_insert_eq; by eapply lookup_lt_Some).
  assert (forall j x, j <> i -> bufs c' !! j = Some x <-> bufs c !! j = Some x) as Hj
    by (intros; rewrite Hb; by rewrite list_lookup_insert_ne).
  destruct (content_split _ _ _ _ _ dev blkno Hok Hi) as [(j&x&Hne&Hx&E)|[Hn ->]].
  - apply andb_true_iff in E as [(<-&<-&?)%holds_true ?].
    rewrite (content_buf _ _ _ j x Hok), (content_buf _ _ _ j x Hok'); try done. by apply Hj.
  - destruct (content_split _ _ _ _ _ dev blkno Hok' Hi') as [(j&x&Hne&Hx&E)|[_ ->]]; [|done].
    apply Hj in Hx; [|done]. by rewrite (Hn j x) in E.
Qed.

(** What the disk shows of other blocks does not change with a write. *)
Lemma shown_other dk dev blkno b b' d :
  used dev blkno -> used (b_dev b) (b_blkno b) -> holds dev blkno b = false -> on b B_INVAL = false ->
  b_dev b' = b_dev b -> b_blkno b' = b_blkno b ->
  shown (<[at b := d]> dk) dev blkno b' = shown dk dev blkno b.
Proof.
  intros Hu Hub Hh Hv Hd Hk. unfold shown. rewrite Hh.
  assert (holds dev blkno b' = false) as ->.
  { unfold holds in *. rewrite Hd, Hk. rewrite Hv, andb_true_r in Hh. by rewrite Hh. }
  cbn [andb]. rewrite lookup_total_insert_ne; [done|]. intros E.
  destruct (used_phys _ _ _ _ Hub Hu E). apply not_true_iff_false in Hh. apply Hh. by apply holds_true.
Qed.

(** *** Releasing a buffer *)

Lemma busy_not_free c HL AL i b h :
  cache_ok c HL AL -> bufs c !! i = Some b -> on b B_BUSY = true -> free_head h -> Z.of_nat i ∉ AL h.
Proof.
  intros Hok Hi Hb Hh Hin. assert (on b B_BUSY = false) as E by (apply (ok_avail _ _ _ Hok _ _ Hi); eauto). congruence.
Qed.
Lemma ok_is_buf c HL AL i b : cache_ok c HL AL -> bufs c !! i = Some b -> is_buf (Z.of_nat i).
Proof. intros Hok Hi%lookup_lt_Some. rewrite (ok_len _ _ _ Hok) in Hi. split; lia. Qed.

Lemma free_heads_ne q : q = BQ_LRU \/ q = BQ_AGE -> free_head (bfreelist q) /\ bfreelist BQ_LOCKED <> bfreelist q.
Proof. intros [->| ->]; (split; [by apply free_head_q|done]). Qed.

(** The buffer goes back on a list; the block on the disk may just have been
    written from it. *)
Lemma release_ok c HL AL i b b0 dk c1 :
  cache_ok c HL AL -> bufs c !! i = Some b0 -> on b0 B_BUSY = true ->
  b_dev b = b_dev b0 -> b_blkno b = b_blkno b0 -> on b B_INVAL = on b0 B_INVAL ->
  c1 = put i b (set_disk dk c) ->
  buf_ok dk (released b) -> on b B_ERROR = false -> on b B_LOCKED = false ->
  (forall j x, j <> i -> bufs c !! j = Some x -> buf_ok (disk c) x -> buf_ok dk x) ->
  exists c' AL', brelse (Z.of_nat i) c1 = BOk c' /\ cache_ok c' HL AL' /\
    bufs c' = <[i := released b]> (bufs c) /\ disk c' = dk.
Proof.
  intros Hok Hi Hb Hd Hk Hv -> Hrel He Hl Hoth. set (c1 := put i b (set_disk dk c)).
  assert (bufs c1 !! i = Some b) as Hi1 by (eapply put_lookup; exact Hi).
  assert (forall k, free_head k -> Z.of_nat i ∉ AL k) as Hn by (intros; by eapply busy_not_free).
  destruct (brelse_ok c1 AL i b (ok_free _ _ _ Hok) Hi1 (ok_is_buf _ _ _ _ _ Hok Hi) Hn He Hl)
    as (f&g&q&l&E&HR&Hq&Hperm).
  destruct (free_heads_ne q Hq) as [Hfh Hq0].
  eexists _, _. split; [exact E|].
  assert (<[i := released b]> (<[i := b]> (bufs c)) = <[i := released b]> (bufs c)) as Ebufs
    by apply list_insert_insert_eq.
  split; [|done]. eapply ok_change with (b' := released b);
    [exact Hok|exact Hi|exact Ebufs|apply Hok|exact HR|done| | | | | | | |].
  - apply (ok_hashed _ _ _ Hok). apply lookup_lt_Some in Hi. by rewrite <- (ok_len _ _ _ Hok).
  - intros h e Hh Hne. destruct (decide (h = bfreelist q)) as [->|Hhq].
    + rewrite with_list_eq, Hperm. set_solver.
    + by rewrite with_list_ne.
  - unfold released, clr_flags, set_b_flags; cbn [b_flags]. autorewrite with bflags. split; [|done]. intros _.
    exists (bfreelist q). split; [done|]. rewrite with_list_eq, Hperm. apply list_elem_of_here.
  - rewrite with_list_ne by done. apply Hok.
  - apply Hoth.
  - done.
  - unfold released, clr_flags, set_b_flags; cbn [b_flags b_dev b_blkno]. autorewrite with bflags.
    rewrite Hd, Hk, Hv. by apply (ok_chain _ _ _ Hok).
  - unfold released, clr_flags, set_b_flags; cbn [b_flags b_dev b_blkno]. autorewrite with bflags.
    rewrite Hd, Hk, Hv. intros Hv0 j x Hne Hj. apply not_true_iff_false. intros (?&?&?)%holds_true.
    apply Hne. by eapply (ok_one _ _ _ Hok j i).
Qed.

(** The invariant of a buffer whose flags other than the ones it speaks of
    change; [bflags] evaluates the flags of an updated buffer. *)
Ltac bflags :=
  unfold released, or_flags, clr_flags, set_b_bcount, set_b_flags, set_b_data, set_b_dev, set_b_blkno, set_b_error in *;
  cbn [b_flags b_bcount b_error b_dev b_blkno b_resid b_data] in *;
  autorewrite with bflags in *.

Lemma buf_ok_disk dk b dev blkno d :
  used dev blkno -> buf_ok dk b -> holds dev blkno b = false -> buf_ok (<[phys start dev blkno := d]> dk) b.
Proof.
  intros Hu [] Hh. split; try done. intros H1 H2 H3 H4. rewrite lookup_total_insert_ne; [auto|].
  intros E. destruct (used_phys _ _ _ _ Hu (bk_used0 H2) E) as [-> ->].
  apply not_true_iff_false in Hh. apply Hh. by apply holds_true.
Qed.

(** *** Writing a buffer *)

Definition written (b : buf) : buf :=
  or_flags B_DONE (set_b_bcount DEV_BSIZE (clr_flags (B_READ + B_DONE + B_ERROR + B_DELWRI) b)).
Definition clean_of (b b' : buf) : Prop :=
  b_dev b' = b_dev b /\ b_blkno b' = b_blkno b /\ b_data b' = b_data b /\
  on b' B_BUSY = false /\ on b' B_INVAL = false /\ on b' B_DONE = true /\ on b' B_DELWRI = false.

Lemma other_not_held c HL AL i b j x :
  cache_ok c HL AL -> bufs c !! i = Some b -> on b B_INVAL = false ->
  j <> i -> bufs c !! j = Some x -> holds (b_dev b) (b_blkno b) x = false.
Proof.
  intros Hok Hi Hv Hne Hj. apply not_true_iff_false. intros (?&?&?)%holds_true. apply Hne.
  by eapply (ok_one _ _ _ Hok j i).
Qed.

(** Setting the data or a flag the invariant does not speak of. *)
Lemma keep_ok c HL AL i b b' :
  cache_ok c HL AL -> bufs c !! i = Some b ->
  b_dev b' = b_dev b -> b_blkno b' = b_blkno b -> on b' B_INVAL = on b B_INVAL -> on b' B_BUSY = on b B_BUSY ->
  buf_ok (disk c) b' -> cache_ok (put i b' c) HL AL.
Proof.
  intros Hok Hi Hd Hk Hv Hb Hbo.
  eapply ok_change with (b' := b'); [exact Hok|exact Hi|done|apply Hok|apply Hok|done| |done| | |done|done| |].
  - apply (ok_hashed _ _ _ Hok). apply lookup_lt_Some in Hi. by rewrite <- (ok_len _ _ _ Hok).
  - rewrite Hb. by apply (ok_avail _ _ _ Hok).
  - apply Hok.
  - rewrite Hd, Hk, Hv. by apply (ok_chain _ _ _ Hok).
  - rewrite Hd, Hk, Hv. intros Hv0 j x. by eapply other_not_held.
Qed.

Lemma rdstrategy_write c i b :
  bufs c !! i = Some b -> used (b_dev b) (b_blkno b) -> on b B_READ = false ->
  rdstrategy NRDSK start readonly (Z.of_nat i) c = biodone (Z.of_nat i) (set_disk (<[at b := b_data b]> (disk c)) c).
Proof.
  intros Hi [Hm Hr]%used_disk Hrd. unfold rdstrategy. bstep. rewrite (proj2 (Z.ltb_ge _ _)) by lia.
  by rewrite Hrd, Hr.
Qed.

Lemma write_release_ok c HL AL i b w :
  cache_ok c HL AL -> bufs c !! i = Some b -> on b B_BUSY = true -> on b B_INVAL = false ->
  on w B_INVAL = false -> on w B_LOCKED = false -> on w B_DONE = true -> on w B_DELWRI = false ->
  on w B_ERROR = false -> b_dev w = b_dev b -> b_blkno w = b_blkno b -> b_data w = b_data b ->
  b_resid w = b_resid b ->
  exists c' AL', brelse (Z.of_nat i) (put i w (set_disk (<[at b := b_data b]> (disk c)) c)) = BOk c' /\
    cache_ok c' HL AL' /\ bufs c' = <[i := released w]> (bufs c) /\ disk c' = <[at b := b_data b]> (disk c).
Proof.
  intros Hok Hi Hb Hv H1 H2 H3 H4 H5 H6 H7 H8 H9.
  pose proof (bk_used _ _ (ok_buf _ _ _ Hok _ _ Hi) Hv) as Hu.
  pose proof (bk_resid _ _ (ok_buf _ _ _ Hok _ _ Hi)) as Hres.
  eapply release_ok; [exact Hok|exact Hi|done|done|done|congruence|done| |done|done|].
  - split; bflags; try congruence; try done. intros _ _ _ _. rewrite H6, H7, H8.
    by rewrite lookup_total_insert_eq.
  - intros j x Hne Hj Hx. apply buf_ok_disk; [done|done|]. by eapply other_not_held.
Qed.

(** What bwrite comes to: the block is on the disk, and the buffer is released
    with B_AGE set afterwards when the write was delayed and asynchronous. *)
Lemma bwrite_run c i b :
  bufs c !! i = Some b -> used (b_dev b) (b_blkno b) ->
  let c1 := set_disk (<[at b := b_data b]> (disk c)) c in
  bwrite NRDSK start readonly (Z.of_nat i) c =
  if on b B_ASYNC then
    c ← brelse (Z.of_nat i) (put i (written b) c1);
    if on b B_DELWRI then setb (Z.of_nat i) (or_flags B_AGE) c else BOk c
  else brelse (Z.of_nat i) (put i (clr_flags B_WANTED (written b)) c1).
Proof.
  intros Hi Hu c1. set (b1 := set_b_bcount DEV_BSIZE (clr_flags (B_READ + B_DONE + B_ERROR + B_DELWRI) b)).
  assert (rdstrategy NRDSK start readonly (Z.of_nat i) (put i b1 c) = biodone (Z.of_nat i) (put i b1 c1)) as Hrd.
  { erewrite rdstrategy_write; [|eapply put_lookup; exact Hi|done|]; [done|]. unfold b1; by bflags. }
  assert (bufs c1 !! i = Some b) as Hi' by done.
  unfold bwrite. bstep. bstep. bstep. change (set_b_bcount DEV_BSIZE _) with b1. rewrite Hrd. unfold biodone.
  bstep. assert (on b1 B_DONE = false) as -> by (unfold b1; by bflags).
  assert (on b1 B_ASYNC = on b B_ASYNC) as -> by (unfold b1; by bflags).
  bstep. change (or_flags B_DONE b1) with (written b).
  destruct (on b B_ASYNC) eqn:Eas; cbn [negb]; [done|]. bstep. unfold biowait. bstep.
  assert (on (clr_flags B_WANTED (written b)) B_DONE = true) as -> by (unfold written; by bflags). done.
Qed.

Lemma bwrite_ok c HL AL i b :
  cache_ok c HL AL -> bufs c !! i = Some b -> on b B_BUSY = true -> on b B_INVAL = false ->
  exists c' b' AL', bwrite NRDSK start readonly (Z.of_nat i) c = BOk c' /\ cache_ok c' HL AL' /\
    bufs c' = <[i := b']> (bufs c) /\ disk c' = <[at b := b_data b]> (disk c) /\ clean_of b b'.
Proof.
  intros Hok Hi Hb Hv. pose proof (ok_buf _ _ _ Hok _ _ Hi) as Hbo.
  rewrite (bwrite_run _ _ _ Hi (bk_used _ _ Hbo Hv)). destruct (on b B_ASYNC) eqn:Eas.
  - destruct (write_release_ok c HL AL i b (written b)) as (c'&AL'&E&Hok'&Hb'&Hd');
      try (unfold written; bflags; done || apply Hbo).
    rewrite E. cbn [mbind bio_bind].
    assert (clean_of b (released (written b))) as Hcl by (unfold clean_of, written; by bflags).
    destruct (on b B_DELWRI) eqn:Edw; [|eexists _, _, _; split; [done|]; eauto].
    assert (bufs c' !! i = Some (released (written b))) as Hic
      by (rewrite Hb'; apply list_lookup_insert_eq; by eapply lookup_lt_Some).
    erewrite setb_ok by exact Hic. eexists _, _, AL'. split; [done|].
    split; [|split; [cbn [put bufs]; by rewrite Hb', list_insert_insert_eq|split; [done|]]].
    + eapply keep_ok; [exact Hok'|exact Hic|done|done|by bflags|by bflags|].
      pose proof (ok_buf _ _ _ Hok' _ _ Hic) as []. split; bflags; done.
    + unfold clean_of in *. by bflags.
  - destruct (write_release_ok c HL AL i b (clr_flags B_WANTED (written b))) as (c'&AL'&E&Hok'&Hb'&Hd');
      try (unfold written; bflags; done || apply Hbo).
    eexists _, _, _. split; [exact E|]. split; [exact Hok'|]. split; [exact Hb'|].
    split; [done|]. unfold clean_of, written. by bflags.
Qed.

(** *** Searching the hash chains *)

Lemma is_buf_nat e : is_buf e -> exists i, e = Z.of_nat i /\ (i < NBUF)%nat.
Proof. intros []. exists (Z.to_nat e). lia. Qed.
Lemma ok_lookup c HL AL e : cache_ok c HL AL -> is_buf e -> exists i b, e = Z.of_nat i /\ bufs c !! i = Some b.
Proof.
  intros Hok (i&->&Hlt)%is_buf_nat. rewrite <- (ok_len _ _ _ Hok) in Hlt.
  apply lookup_lt_is_Some in Hlt as [b Hb]. eauto.
Qed.

Lemma find_hash_ok c HL AL dp dev blkno fuel l1 l2 :
  cache_ok c HL AL -> hash_head dp -> HL dp = l1 ++ l2 -> (length l2 < fuel)%nat ->
  exists r, find_hash fuel c dp (List.hd dp l2) dev blkno = BOk r /\
    match r with
    | Some bp => exists i b, bp = Z.of_nat i /\ bufs c !! i = Some b /\ holds dev blkno b = true
    | None => forall i b, Z.of_nat i ∈ l2 -> bufs c !! i = Some b -> holds dev blkno b = false
    end.
Proof.
  intros Hok Hdp. revert l1 fuel. induction l2 as [|e l2 IH]; intros l1 fuel E Hf; destruct fuel as [|fuel];
    simpl in Hf; try lia; cbn [find_hash List.hd].
  - exists None. rewrite Z.eqb_refl. split; [done|]. set_solver.
  - assert (is_buf e) as He by (apply (ok_hash_buf _ _ _ Hok dp); [done|]; rewrite E; set_solver).
    destruct (Z.eqb_spec e dp) as [->|_]; [by destruct (is_buf_not_hash dp)|].
    destruct (ok_lookup _ _ _ _ Hok He) as (i&b&->&Hi). bstep.
    assert (negb (b_blkno b =? blkno) || negb (b_dev b =? dev) || on b B_INVAL = negb (holds dev blkno b)) as ->.
    { unfold holds. by destruct (b_dev b =? dev), (b_blkno b =? blkno), (on b B_INVAL). }
    destruct (holds dev blkno b) eqn:Eh; cbn [negb];
      [exists (Some (Z.of_nat i)); split; [done|]; by exists i, b|].
    rewrite (link_ok _ _ _ (rings_after _ _ _ _ _ _ _ _ (ok_hash _ _ _ Hok) Hdp E)). cbn [mbind bio_bind].
    destruct (IH (l1 ++ [Z.of_nat i]) fuel) as (r&->&Hr); [by rewrite <- app_assoc|lia|].
    exists r. split; [done|]. destruct r as [bp|]; [done|].
    intros j x [Hj|Hj]%elem_of_cons Hx; [|by eauto]. apply Nat2Z.inj in Hj as ->. by simplify_eq.
Qed.

Lemma lookup_hash_ok c HL AL dev blkno :
  cache_ok c HL AL ->
  exists r, lookup_hash c dev blkno = BOk r /\
    match r with
    | Some bp => exists i b, bp = Z.of_nat i /\ bufs c !! i = Some b /\ holds dev blkno b = true
    | None => forall i b, bufs c !! i = Some b -> holds dev blkno b = false
    end.
Proof.
  intros Hok. pose proof (BUFHASH_head dev blkno) as Hdp. unfold lookup_hash, link.
  rewrite (rings_next _ _ _ _ _ (ok_hash _ _ _ Hok) Hdp). cbn [mbind bio_bind].
  destruct (find_hash_ok c HL AL (BUFHASH dev blkno) dev blkno (S NBUF) [] (HL (BUFHASH dev blkno)))
    as (r&->&Hr); [done|done|done| |].
  { enough (length (HL (BUFHASH dev blkno)) <= NBUF)%nat by lia. apply nodup_bufs_length.
    - by eapply rings_nodup; [apply Hok|].
    - intros e. by apply (ok_hash_buf _ _ _ Hok). }
  exists r. split; [done|]. destruct r as [bp|]; [done|]. intros i b Hi.
  destruct (holds dev blkno b) eqn:E; [|done]. rewrite <- E. apply (Hr i b); [|done].
  apply holds_true in E as (<-&<-&Hv). by apply (ok_chain _ _ _ Hok).
Qed.

(** *** Taking a buffer from the free lists *)

(** Buffers written out and released again: who holds what is as before. *)
Definition evolves (c c' : cache) : Prop :=
  length (bufs c') = length (bufs c) /\
  forall j x', bufs c' !! j = Some x' -> exists x, bufs c !! j = Some x /\ b_dev x' = b_dev x /\
    b_blkno x' = b_blkno x /\ on x' B_INVAL = on x B_INVAL /\ on x' B_BUSY = on x B_BUSY /\
    (on x B_BUSY = true -> x' = x /\ (on x B_INVAL = false -> disk c' !!! at x = disk c !!! at x)).
Lemma evolves_refl c : evolves c c.
Proof. split; [done|]. intros j x Hj. by exists x. Qed.
Lemma evolves_busy c c' j x : evolves c c' -> bufs c !! j = Some x -> on x B_BUSY = true ->
  bufs c' !! j = Some x /\ (on x B_INVAL = false -> disk c' !!! at x = disk c !!! at x).
Proof.
  intros [Hl He] Hj Hb. assert (j < length (bufs c'))%nat as [x' Hx']%lookup_lt_is_Some
    by (rewrite Hl; by eapply lookup_lt_Some).
  destruct (He _ _ Hx') as (x0&Hx0&_&_&_&_&Heq). simplify_eq. destruct (Heq Hb) as [-> Hd]. done.
Qed.
Lemma evolves_trans c1 c2 c3 : evolves c1 c2 -> evolves c2 c3 -> evolves c1 c3.
Proof.
  intros [L1 H1] [L2 H2]. split; [congruence|]. intros j x3 (x2&Hx2&?&?&?&?&Hb2)%H2.
  destruct (H1 _ _ Hx2) as (x1&Hx1&?&?&?&?&Hb1). exists x1. split_and!; try congruence.
  intros Hb. destruct (Hb1 Hb) as [-> Hd1]. destruct (Hb2 Hb) as [-> Hd2]. split; [done|].
  intros Hv. by rewrite Hd2, Hd1.
Qed.
Lemma evolves_holds c c' dev blkno :
  evolves c c' -> (forall i b, bufs c !! i = Some b -> holds dev blkno b = false) ->
  forall i b, bufs c' !! i = Some b -> holds dev blkno b = false.
Proof.
  intros [_ H] Hn i b' (b&Hb&E1&E2&E3&_)%H. rewrite <- (Hn i b Hb). unfold holds. by rewrite E1, E2, E3.
Qed.

(** A buffer off its free list, held by the caller. *)
Lemma take_ok c HL AL i b f g h l :
  cache_ok c HL AL -> bufs c !! i = Some b -> on b B_BUSY = false ->
  free_head h -> rings f g free_head (with_list AL h l) -> AL h ≡ₚ Z.of_nat i :: l ->
  cache_ok (put i (or_flags B_BUSY b) (set_av f g c)) HL (with_list AL h l).
Proof.
  intros Hok Hi Hb Hh HR Hp.
  assert (NoDup (AL h)) as Hnd by (by eapply rings_nodup; [apply Hok|]). rewrite Hp in Hnd.
  apply NoDup_cons in Hnd as [Hnl _].
  assert (h <> bfreelist BQ_LOCKED) as Hh0.
  { intros ->. rewrite (ok_unlocked _ _ _ Hok) in Hp. by apply Permutation_nil_l in Hp. }
  eapply ok_change with (b' := or_flags B_BUSY b);
    [exact Hok|exact Hi|done|apply Hok|exact HR|done| | | | |done| | |].
  - apply (ok_hashed _ _ _ Hok). apply lookup_lt_Some in Hi. by rewrite <- (ok_len _ _ _ Hok).
  - intros k e Hk Hne. destruct (decide (k = h)) as [->|Hkh].
    + rewrite with_list_eq, Hp. set_solver.
    + by rewrite with_list_ne.
  - bflags. split; [done|]. intros (k&Hk&Hin). exfalso. destruct (decide (k = h)) as [->|Hkh].
    + by rewrite with_list_eq in Hin.
    + rewrite with_list_ne in Hin by done. apply Hkh. eapply (r_disj _ _ _ _ (ok_free _ _ _ Hok) k h); try done.
      rewrite Hp. apply list_elem_of_here.
  - rewrite with_list_ne by done. apply Hok.
  - pose proof (ok_buf _ _ _ Hok _ _ Hi) as []. split; bflags; done.
  - bflags. by apply (ok_chain _ _ _ Hok).
  - bflags. intros Hv j x. by eapply other_not_held.
Qed.

Lemma clean_shown dk b b' dev blkno :
  used dev blkno -> used (b_dev b) (b_blkno b) -> on b B_INVAL = false -> clean_of b b' ->
  shown (<[at b := b_data b]> dk) dev blkno b' =
  if holds dev blkno b then b_data b else shown dk dev blkno b.
Proof.
  intros Hu Hub Hv (H1&H2&H3&H4&H5&H6&H7). destruct (holds dev blkno b) eqn:E.
  - unfold shown, holds in *. rewrite H1, H2, H3, H5, H6. rewrite Hv in E. by rewrite E.
  - by apply shown_other.
Qed.

(** Writing out a buffer that shows its data changes nothing that is seen. *)
Lemma writeout_content c c' HL AL HL' AL' i b b' dev blkno :
  cache_ok c HL AL -> cache_ok c' HL' AL' -> bufs c !! i = Some b -> bufs c' = <[i := b']> (bufs c) ->
  disk c' = <[at b := b_data b]> (disk c) -> clean_of b b' -> on b B_INVAL = false -> on b B_DONE = true ->
  used dev blkno -> content c' dev blkno = content c dev blkno.
Proof.
  intros Hok Hok' Hi Hb Hd Hc Hv Hdn Hu. eapply content_change; [exact Hok|exact Hok'|exact Hi|done|].
  rewrite Hd, clean_shown; [|done|by apply (bk_used _ _ (ok_buf _ _ _ Hok _ _ Hi))|done|done].
  unfold shown. rewrite Hdn, andb_true_r. by destruct (holds dev blkno b).
Qed.

Lemma pick_list_ok c HL AL :
  cache_ok c HL AL -> (exists i b, bufs c !! i = Some b /\ on b B_BUSY = false) ->
  exists bp h, pick_list c = BOk (Some bp) /\ free_head h /\ bp ∈ AL h.
Proof.
  intros Hok (i&b&Hi&Hb). unfold pick_list, link.
  assert (forall q, 0 <= q < 3 -> av_forw c !! bfreelist q = Some (List.hd (bfreelist q) (AL (bfreelist q)))) as Hx
    by (intros; apply (rings_next _ _ _ _ _ (ok_free _ _ _ Hok)); by apply free_head_q).
  assert (forall q, 0 <= q < 3 -> (List.hd (bfreelist q) (AL (bfreelist q)) =? bfreelist q) = true ->
    AL (bfreelist q) = []) as He.
  { intros q Hq E%Z.eqb_eq. destruct (AL (bfreelist q)) as [|e l] eqn:EA; [done|]. simpl in E. subst e.
    destruct (r_elem _ _ _ _ (ok_free _ _ _ Hok) (bfreelist q) (bfreelist q)); [by apply free_head_q| |by apply free_head_q].
    rewrite EA. apply list_elem_of_here. }
  assert (forall q, 0 <= q < 3 -> (List.hd (bfreelist q) (AL (bfreelist q)) =? bfreelist q) = false ->
    List.hd (bfreelist q) (AL (bfreelist q)) ∈ AL (bfreelist q)) as Hne.
  { intros q Hq E%Z.eqb_neq. destruct (AL (bfreelist q)) as [|e l]; simpl in *; [done|]. apply list_elem_of_here. }
  rewrite (Hx BQ_AGE), (Hx BQ_LRU) by done. cbn [mbind bio_bind].
  destruct (List.hd (bfreelist BQ_AGE) (AL (bfreelist BQ_AGE)) =? bfreelist BQ_AGE) eqn:E2; cbn [negb];
    [|eexists _, (bfreelist BQ_AGE); split; [done|]; split; [by apply free_head_q|]; by apply Hne].
  destruct (List.hd (bfreelist BQ_LRU) (AL (bfreelist BQ_LRU)) =? bfreelist BQ_LRU) eqn:E1; cbn [negb];
    [|eexists _, (bfreelist BQ_LRU); split; [done|]; split; [by apply free_head_q|]; by apply Hne].
  exfalso. apply He in E2; [|done]. apply He in E1; [|done].
  apply (ok_avail _ _ _ Hok _ _ Hi) in Hb as (h&(q&Hq&->)&Hin).
  assert (q = 0 \/ q = 1 \/ q = 2) as [->|[->| ->]] by lia.
  - change 0 with BQ_LOCKED in Hin. rewrite (ok_unlocked _ _ _ Hok) in Hin. by apply not_elem_of_nil in Hin.
  - change 1 with BQ_LRU in Hin. rewrite E1 in Hin. by apply not_elem_of_nil in Hin.
  - change 2 with BQ_AGE in Hin. rewrite E2 in Hin. by apply not_elem_of_nil in Hin.
Qed.

Definition dirty (c : cache) : nat := length (filter (fun b => on b B_DELWRI = true) (bufs c)).
Definition has_free (c : cache) : Prop := exists i b, bufs c !! i = Some b /\ on b B_BUSY = false.

(** A delayed block is written out from a buffer just taken off its list. *)
Definition wrote_out (c c' : cache) (i : nat) (b : buf) : Prop :=
  evolves c c' /\ (dirty c' < dirty c)%nat /\
  (forall dev blkno, used dev blkno -> content c' dev blkno = content c dev blkno) /\
  disk c' = <[at b := b_data b]> (disk c) /\ exists b', bufs c' = <[i := b']> (bufs c) /\ clean_of b b'.

Lemma writeout_taken c HL AL i b b2 f g h l :
  cache_ok c HL AL -> bufs c !! i = Some b -> on b B_BUSY = false -> on b B_DELWRI = true ->
  free_head h -> rings f g free_head (with_list AL h l) -> AL h ≡ₚ Z.of_nat i :: l ->
  b2 = or_flags B_BUSY b \/ b2 = or_flags B_ASYNC (or_flags B_BUSY b) ->
  exists c' AL', bwrite NRDSK start readonly (Z.of_nat i) (put i b2 (set_av f g c)) = BOk c' /\
    cache_ok c' HL AL' /\ wrote_out c c' i b.
Proof.
  intros Hok Hi Hb Hdw Hh HR Hp Hb2. pose proof (ok_buf _ _ _ Hok _ _ Hi) as Hbo.
  assert (on b B_INVAL = false) as Hv.
  { destruct (on b B_INVAL) eqn:E; [|done]. by rewrite (bk_inval _ _ Hbo E) in Hdw. }
  pose proof (take_ok c HL AL i b f g h l Hok Hi Hb Hh HR Hp) as Hok1.
  set (c1 := put i (or_flags B_BUSY b) (set_av f g c)) in *.
  assert (bufs c1 !! i = Some (or_flags B_BUSY b)) as Hi1 by (by eapply put_lookup).
  assert (b_dev b2 = b_dev b /\ b_blkno b2 = b_blkno b /\ b_data b2 = b_data b /\ on b2 B_INVAL = false /\
    on b2 B_BUSY = true) as (K1&K2&K3&K4&K5) by (destruct Hb2 as [->| ->]; by bflags).
  assert (cache_ok (put i b2 c1) HL (with_list AL h l)) as Hok2.
  { eapply keep_ok; [exact Hok1|exact Hi1|done|done|rewrite K4; by bflags|rewrite K5; by bflags|].
    pose proof (ok_buf _ _ _ Hok1 _ _ Hi1) as []. destruct Hb2 as [->| ->]; split; bflags; done. }
  destruct (bwrite_ok (put i b2 c1) HL (with_list AL h l) i b2) as (c'&b'&AL'&E'&Hok'&Hb'&Hd'&Hcl);
    [done|by eapply put_lookup|done|done|].
  unfold c1 in E'. rewrite put_put in E'. exists c', AL'. split; [done|]. split; [done|].
  assert (bufs c' = <[i := b']> (bufs c)) as Hbc.
  { rewrite Hb'. unfold c1. cbn [put bufs set_av]. by rewrite !list_insert_insert_eq. }
  change (disk (put i b2 c1)) with (disk c) in Hd'. rewrite K1, K2, K3 in Hd'.
  assert (clean_of b b') as Hcb by (unfold clean_of in *; by rewrite K1, K2, K3 in Hcl).
  split; [|split; [|split; [|split; [done|by eauto]]]].
  - split; [by rewrite Hbc, length_insert|]. intros j x'. rewrite Hbc. destruct (decide (j = i)) as [->|Hne].
    + rewrite list_lookup_insert_eq by (by eapply lookup_lt_Some). intros [= <-]. exists b.
      destruct Hcb as (?&?&?&?&?&?&?). split_and!; try congruence.
    + rewrite list_lookup_insert_ne by done. intros Hj. exists x'. split_and!; try done. intros Hbx.
      split; [done|]. intros Hvx. rewrite Hd'. apply lookup_total_insert_ne. intros Ep.
      destruct (used_phys _ _ _ _ (bk_used _ _ Hbo Hv) (bk_used _ _ (ok_buf _ _ _ Hok _ _ Hj) Hvx) Ep).
      by apply Hne, (ok_one _ _ _ Hok j i x' b).
  - unfold dirty. rewrite Hbc. apply filter_insert_lt with b; [done|done|].
    destruct Hcb as (?&?&?&?&?&?&->). done.
  - intros dev blkno. eapply (writeout_content c c'); eauto. by apply (bk_delwri _ _ Hbo).
Qed.

(** A turn of getnewbuf. *)
Lemma writeout_turn c HL AL i b h :
  cache_ok c HL AL -> bufs c !! i = Some b -> free_head h -> Z.of_nat i ∈ AL h -> on b B_DELWRI = true ->
  exists c' AL', (c ← notavail (Z.of_nat i) c; bawrite NRDSK start readonly (Z.of_nat i) c) = BOk c' /\
    cache_ok c' HL AL' /\ wrote_out c c' i b.
Proof.
  intros Hok Hi Hh Hin Hdw.
  assert (on b B_BUSY = false) as Hb by (apply (ok_avail _ _ _ Hok _ _ Hi); eauto).
  destruct (notavail_ok c AL i b h (ok_free _ _ _ Hok) Hi (ok_is_buf _ _ _ _ _ Hok Hi) Hh Hin) as (f&g&l&E&HR&Hp).
  rewrite E. cbn [mbind bio_bind]. unfold bawrite.
  assert (bufs (set_av f g c) !! i = Some b) as Hi' by done. bstep.
  eapply writeout_taken; eauto.
Qed.

(** What getnewbuf returns: a buffer taken off its list with nothing to write,
    its flags then reset. *)
Lemma getnewbuf_loop_ok fuel c HL AL :
  cache_ok c HL AL -> has_free c -> (dirty c < fuel)%nat ->
  exists c0 AL0 c1 AL1 i b, getnewbuf_loop NRDSK start readonly fuel c = BOk (put i (set_b_flags B_BUSY b) c1, Z.of_nat i) /\
    cache_ok c0 HL AL0 /\ evolves c c0 /\
    (forall dev blkno, used dev blkno -> content c0 dev blkno = content c dev blkno) /\
    bufs c0 !! i = Some b /\ on b B_BUSY = false /\ on b B_DELWRI = false /\
    cache_ok c1 HL AL1 /\ bufs c1 = <[i := or_flags B_BUSY b]> (bufs c0) /\ disk c1 = disk c0.
Proof.
  revert c AL. induction fuel as [|fuel IH]; intros c AL Hok Hfree Hd; [lia|]. cbn [getnewbuf_loop].
  destruct (pick_list_ok c HL AL Hok Hfree) as (bp&h&->&Hh&Hin). cbn [mbind bio_bind].
  destruct (ok_lookup _ _ _ _ Hok (ok_free_buf _ _ _ Hok h bp Hh Hin)) as (i&b&->&Hi).
  assert (on b B_BUSY = false) as Hb by (apply (ok_avail _ _ _ Hok _ _ Hi); eauto).
  destruct (notavail_ok c AL i b h (ok_free _ _ _ Hok) Hi (ok_is_buf _ _ _ _ _ Hok Hi) Hh Hin) as (f&g&l&E&HR&Hp).
  pose proof (take_ok c HL AL i b f g h l Hok Hi Hb Hh HR Hp) as Hok1.
  destruct (on b B_DELWRI) eqn:Edw.
  - destruct (writeout_turn c HL AL i b h Hok Hi Hh Hin Edw) as (c'&AL'&E'&Hok'&Hev&Hlt&Hc&_&_).
    rewrite E in E' |- *. cbn [mbind bio_bind] in E' |- *.
    erewrite getb_ok by (eapply put_lookup; exact Hi). cbn [mbind bio_bind].
    assert (on (or_flags B_BUSY b) B_DELWRI = true) as -> by (by bflags). rewrite E'. cbn [mbind bio_bind].
    destruct (IH c' AL') as (c0&AL0&c1&AL1&i'&b'&Er&H1&H2&H3&H4); [done| |lia|].
    { destruct Hev as [Hl Hev]. assert (i < length (bufs c'))%nat as [x Hx]%lookup_lt_is_Some
        by (rewrite Hl; by eapply lookup_lt_Some).
      exists i, x. split; [done|]. destruct (Hev _ _ Hx) as (x0&Hx0&_&_&_&->&_). by simplify_eq. }
    exists c0, AL0, c1, AL1, i', b'. split; [done|]. split; [done|]. split; [by eapply evolves_trans|].
    split; [|done]. intros dev blkno Hu. rewrite H3, Hc by done. done.
  - rewrite E. cbn [mbind bio_bind]. erewrite getb_ok by (eapply put_lookup; exact Hi). cbn [mbind bio_bind].
    assert (on (or_flags B_BUSY b) B_DELWRI = false) as -> by (by bflags).
    erewrite setb_ok by (eapply put_lookup; exact Hi). cbn [mbind bio_bind]. rewrite put_put.
    exists c, AL, (put i (or_flags B_BUSY b) (set_av f g c)), (with_list AL h l), i, b.
    rewrite put_put. split_and!; try done. apply evolves_refl.
Qed.
Lemma dirty_bound c HL AL : cache_ok c HL AL -> (dirty c <= NBUF)%nat.
Proof. intros Hok. unfold dirty. rewrite <- (ok_len _ _ _ Hok). apply length_filter. Qed.

(** *** getblk *)

(** Between [c] and [c'] the buffer [i] was taken: nobody held it, the
    buffers others hold and their blocks on the disk are as they were, and
    nothing that is seen changed. *)
Record taken (c c' : cache) (i : nat) : Prop := {
  tk_free : forall b, bufs c !! i = Some b -> on b B_BUSY = false;
  tk_others : forall j x, j <> i -> on x B_BUSY = true -> bufs c' !! j = Some x <-> bufs c !! j = Some x;
  tk_disk : forall j x, bufs c !! j = Some x -> on x B_BUSY = true -> on x B_INVAL = false ->
    disk c' !!! at x = disk c !!! at x;
  tk_content : forall dev blkno, used dev blkno -> content c' dev blkno = content c dev blkno }.

(** A buffer held for the block; it is in sync when what it holds, if it is
    valid and not to be written, is the block on the disk. *)
Record holding (c : cache) (i : nat) (b : buf) (dev blkno : Z) : Prop := {
  hd_lookup : bufs c !! i = Some b;
  hd_busy : on b B_BUSY = true;
  hd_async : on b B_ASYNC = false;
  hd_holds : holds dev blkno b = true }.
Definition in_sync (c : cache) (b : buf) : Prop :=
  on b B_DONE = true -> on b B_DELWRI = false -> b_data b = disk c !!! at b.

Definition nobody_holds (c : cache) (dev blkno : Z) : Prop :=
  forall i b, bufs c !! i = Some b -> holds dev blkno b = true -> on b B_BUSY = false.

Lemma getblk_hit c HL AL i b :
  cache_ok c HL AL -> bufs c !! i = Some b -> on b B_INVAL = false -> on b B_BUSY = false ->
  exists c', notavail (Z.of_nat i) c = BOk c' /\ cache_inv c' /\ taken c c' i /\
    holding c' i (or_flags B_BUSY b) (b_dev b) (b_blkno b) /\ in_sync c' (or_flags B_BUSY b).
Proof.
  intros Hok Hi Hv Hb. destruct (proj1 (ok_avail _ _ _ Hok _ _ Hi) Hb) as (h&Hh&Hin).
  destruct (notavail_ok c AL i b h (ok_free _ _ _ Hok) Hi (ok_is_buf _ _ _ _ _ Hok Hi) Hh Hin) as (f&g&l&E&HR&Hp).
  pose proof (take_ok c HL AL i b f g h l Hok Hi Hb Hh HR Hp) as Hok1.
  rewrite E. eexists. split; [done|]. split; [by eexists _, _|].
  assert (bufs (put i (or_flags B_BUSY b) (set_av f g c)) = <[i := or_flags B_BUSY b]> (bufs c)) as Hbc by done.
  pose proof (ok_buf _ _ _ Hok _ _ Hi) as [].
  split; [split|split; [split|]].
  - intros x Hx. by simplify_eq.
  - intros j x Hne _. rewrite Hbc. by rewrite list_lookup_insert_ne.
  - done.
  - intros dev blkno Hu. eapply content_change; [exact Hok|exact Hok1|exact Hi|done|].
    unfold shown, holds. by bflags.
  - by eapply put_lookup.
  - by bflags.
  - bflags. auto.
  - apply holds_true. by bflags.
  - unfold in_sync. bflags. auto.
Qed.

Lemma bio_bind_assoc {A B C} (m : bio A) (f : A -> bio B) (g : B -> bio C) :
  (x ← m; y ← f x; g y) = (y ← (x ← m; f x); g y).
Proof. by destruct m. Qed.

(** The buffer getnewbuf gave, moved to another hash chain. *)
Lemma rehash_ok c HL AL i b b0 dp :
  cache_ok c HL AL -> bufs c !! i = Some b -> hash_head dp ->
  exists f g HL', (c ← bremhash (Z.of_nat i) (put i b0 c); binshash (Z.of_nat i) dp c) = BOk (put i b0 (set_hash f g c)) /\
    rings f g hash_head HL' /\ Z.of_nat i ∈ HL' dp /\
    forall k e, hash_head k -> e <> Z.of_nat i -> e ∈ HL' k <-> e ∈ HL k.
Proof.
  intros Hok Hi Hdp. pose proof (ok_is_buf _ _ _ _ _ Hok Hi) as His.
  assert (i < NBUF)%nat as Hlt by (apply lookup_lt_Some in Hi; by rewrite <- (ok_len _ _ _ Hok)).
  destruct (ok_hashed _ _ _ Hok i Hlt) as (h&Hh&(l1&l2&El)%list_elem_of_split).
  destruct (bremhash_ok (put i b0 c) HL h l1 (Z.of_nat i) l2 (ok_hash _ _ _ Hok) Hh His El) as (f&g&E1&R1).
  rewrite E1. cbn [mbind bio_bind]. set (HL1 := with_list HL h (l1 ++ l2)) in *.
  assert (forall k e, hash_head k -> e ∈ HL1 k <-> e ∈ HL k /\ e <> Z.of_nat i) as H1.
  { pose proof (rings_nodup _ _ _ _ _ (ok_hash _ _ _ Hok) Hh) as Hnd.
    rewrite El, <- Permutation_middle in Hnd. apply NoDup_cons in Hnd as [Hni _].
    intros k e Hk. unfold HL1. destruct (decide (k = h)) as [->|Hkh].
    - rewrite with_list_eq, El. set_solver.
    - rewrite with_list_ne by done. split; [|tauto]. intros He. split; [done|]. intros ->.
      apply Hkh. eapply (r_disj _ _ _ _ (ok_hash _ _ _ Hok) k h); try done. rewrite El. set_solver. }
  destruct (binshash_ok (set_hash f g (put i b0 c)) HL1 dp (Z.of_nat i) R1 Hdp His) as (f'&g'&E2&R2).
  { intros k Hk [_ ?]%H1; done. }
  rewrite E2, !put_hash. eexists f', g', _. split; [done|]. split; [exact R2|].
  split; [rewrite with_list_eq; apply list_elem_of_here|]. intros k e Hk Hne.
  destruct (decide (k = dp)) as [->|Hkd].
  - rewrite with_list_eq, elem_of_cons, H1 by done. tauto.
  - rewrite with_list_ne, H1 by done. tauto.
Qed.

(** The cache with the buffer [b'] in the place of [b], on its new chain. *)
Lemma rehash_change c HL AL i b b' f g HL' dp :
  cache_ok c HL AL -> bufs c !! i = Some b -> on b B_BUSY = true -> hash_head dp -> rings f g hash_head HL' ->
  Z.of_nat i ∈ HL' dp -> (forall k e, hash_head k -> e <> Z.of_nat i -> e ∈ HL' k <-> e ∈ HL k) ->
  on b' B_BUSY = true -> buf_ok (disk c) b' ->
  (on b' B_INVAL = false -> dp = BUFHASH (b_dev b') (b_blkno b') /\
    forall j x, bufs c !! j = Some x -> holds (b_dev b') (b_blkno b') x = false) ->
  cache_ok (put i b' (set_hash f g c)) HL' AL.
Proof.
  intros Hok Hi Hb Hdp HR Hin Hoth Hb' Hbo Hv.
  eapply ok_change with (b' := b'); [exact Hok|exact Hi|done|exact HR|apply Hok|exact Hoth|by exists dp|done| | |done|done| |].
  - rewrite <- (ok_avail _ _ _ Hok _ _ Hi), Hb, Hb'. done.
  - apply Hok.
  - intros Hi'. by destruct (Hv Hi') as [<- _].
  - intros Hi' j x _. by apply Hv.
Qed.

(** The buffer getnewbuf gave holds another block now. *)
Lemma newbuf_taken c c0 c1 c' HL HL' AL0 AL1 i b b' :
  cache_ok c0 HL AL0 -> evolves c c0 -> (forall dev blkno, used dev blkno -> content c0 dev blkno = content c dev blkno) ->
  bufs c0 !! i = Some b -> on b B_BUSY = false -> on b B_DELWRI = false ->
  bufs c1 = <[i := or_flags B_BUSY b]> (bufs c0) -> disk c1 = disk c0 ->
  cache_ok c' HL' AL1 -> bufs c' = <[i := b']> (bufs c1) -> disk c' = disk c1 -> on b' B_DONE = false -> taken c c' i.
Proof.
  intros Hok0 Hev Hc0 Hi0 Hb0 Hdw Hb1 Hd1 Hok' Hb' Hd' Hdone.
  assert (bufs c' = <[i := b']> (bufs c0)) as Hb0' by (rewrite Hb', Hb1; apply list_insert_insert_eq).
  split.
  - intros x Hx. destruct (proj2 Hev _ _ Hi0) as (x0&Hx0&_&_&_&Hbe&_). simplify_eq. congruence.
  - intros j x Hne Hbx. rewrite Hb0', list_lookup_insert_ne by done. split.
    + intros Hj. destruct (proj2 Hev _ _ Hj) as (x0&Hx0&_&_&_&Hbe&Heq). destruct Heq as [-> _]; [congruence|done].
    + intros Hj. by destruct (evolves_busy c c0 j x Hev Hj Hbx).
  - intros j x Hj Hbx Hvx. rewrite Hd', Hd1. by destruct (evolves_busy c c0 j x Hev Hj Hbx) as [_ ->].
  - intros d k Hdk. rewrite <- Hc0 by done. eapply content_change; [exact Hok0|exact Hok'|exact Hi0|done|].
    unfold shown. rewrite Hdone, andb_false_r.
    destruct (holds d k b) eqn:Eh, (on b B_DONE) eqn:Ed; cbn [andb]; [|by rewrite Hd', Hd1..].
    apply holds_true in Eh as (<-&<-&Hv). rewrite Hd', Hd1. symmetry.
    by apply (bk_clean _ _ (ok_buf _ _ _ Hok0 _ _ Hi0)).
Qed.

Definition assigned (dev blkno : Z) (b : buf) : buf :=
  set_b_error 0 (set_b_blkno blkno (set_b_dev dev (set_b_bcount 0 (set_b_flags B_BUSY b)))).

Lemma getblk_ok c dev blkno :
  cache_inv c -> used dev blkno -> has_free c -> nobody_holds c dev blkno ->
  exists c' i b, getblk NRDSK start readonly dev blkno c = BOk (c', Z.of_nat i) /\ cache_inv c' /\
    taken c c' i /\ holding c' i b dev blkno /\ in_sync c' b.
Proof.
  intros (HL&AL&Hok) Hu Hf Hno. unfold getblk.
  destruct (lookup_hash_ok c HL AL dev blkno Hok) as ([bp|]&->&Hr); cbn [mbind bio_bind].
  - destruct Hr as (i&b&->&Hi&Hh). pose proof (Hno i b Hi Hh) as Hb.
    apply holds_true in Hh as (<-&<-&Hv). rewrite (getb_ok _ _ _ Hi). cbn [mbind bio_bind]. rewrite Hb.
    destruct (getblk_hit c HL AL i b Hok Hi Hv Hb) as (c'&->&H1&H2&H3). cbn [mbind bio_bind]. by exists c', i, (or_flags B_BUSY b).
  - destruct (getnewbuf_loop_ok (S NBUF) c HL AL) as (c0&AL0&c1&AL1&i&b&E&Hok0&Hev&Hc0&Hi0&Hb0&Hdw&Hok1&Hb1&Hd1);
      [done|done|pose proof (dirty_bound _ _ _ Hok); lia|].
    unfold getnewbuf. rewrite E. cbn [mbind bio_bind].
    assert (bufs c1 !! i = Some (or_flags B_BUSY b)) as Hi1
      by (rewrite Hb1; apply list_lookup_insert_eq; by eapply lookup_lt_Some).
    assert (forall j x, bufs c0 !! j = Some x -> holds dev blkno x = false) as Hn0
      by (by eapply evolves_holds).
    assert (forall j x, bufs c1 !! j = Some x -> holds dev blkno x = false) as Hn1.
    { intros j x. rewrite Hb1. destruct (decide (j = i)) as [->|Hne].
      - rewrite list_lookup_insert_eq by (by eapply lookup_lt_Some). intros [= <-].
        rewrite <- (Hn0 _ _ Hi0). unfold holds. by bflags.
      - rewrite list_lookup_insert_ne by done. apply Hn0. }
    bstep. destruct (rehash_ok c1 HL AL1 i (or_flags B_BUSY b) (set_b_bcount 0 (set_b_flags B_BUSY b)) (BUFHASH dev blkno)
      Hok1 Hi1 (BUFHASH_head _ _)) as (f&g&HL'&E'&HR&Hin&Hoth).
    rewrite bio_bind_assoc, E'. cbn [mbind bio_bind].
    assert (bufs (set_hash f g c1) !! i = Some (or_flags B_BUSY b)) as Hi2 by exact Hi1.
    bstep. bstep. bstep.
    assert (cache_ok (put i (assigned dev blkno b) (set_hash f g c1)) HL' AL1) as Hok'.
    { eapply rehash_change; [exact Hok1|exact Hi1|by bflags|apply BUFHASH_head|done|done|done|done| |done].
      pose proof (bk_resid _ _ (ok_buf _ _ _ Hok0 _ _ Hi0)). split; by intros. }
    exists (put i (assigned dev blkno b) (set_hash f g c1)), i, (assigned dev blkno b).
    split; [done|]. split; [by eexists _, _|].
    split; [eapply newbuf_taken; [exact Hok0|exact Hev|exact Hc0|exact Hi0|done|done|exact Hb1|exact Hd1|exact Hok'|done|done|done]|]. split; [|done].
    split; [by eapply put_lookup|done|done|by apply holds_true].
Qed.

(** A buffer without a block, for the caller's own use. *)
Record scratch (c : cache) (i : nat) (b : buf) : Prop := {
  sc_lookup : bufs c !! i = Some b;
  sc_busy : on b B_BUSY = true;
  sc_inval : on b B_INVAL = true }.
Lemma geteblk_ok c :
  cache_inv c -> has_free c ->
  exists c' i b, geteblk NRDSK start readonly c = BOk (c', Z.of_nat i) /\ cache_inv c' /\ taken c c' i /\ scratch c' i b.
Proof.
  intros (HL&AL&Hok) Hf. unfold geteblk.
  destruct (getnewbuf_loop_ok (S NBUF) c HL AL) as (c0&AL0&c1&AL1&i&b&E&Hok0&Hev&Hc0&Hi0&Hb0&Hdw&Hok1&Hb1&Hd1);
    [done|done|pose proof (dirty_bound _ _ _ Hok); lia|].
  unfold getnewbuf. rewrite E. cbn [mbind bio_bind].
  assert (bufs c1 !! i = Some (or_flags B_BUSY b)) as Hi1
    by (rewrite Hb1; apply list_lookup_insert_eq; by eapply lookup_lt_Some).
  bstep. bstep. set (b0 := set_b_bcount 0 (or_flags B_INVAL (set_b_flags B_BUSY b))).
  assert (hash_head (bfreelist BQ_AGE)) as Hdp by (by left).
  destruct (rehash_ok c1 HL AL1 i (or_flags B_BUSY b) b0 (bfreelist BQ_AGE) Hok1 Hi1 Hdp) as (f&g&HL'&E'&HR&Hin&Hoth).
  rewrite bio_bind_assoc, E'. cbn [mbind bio_bind].
  assert (bufs (set_hash f g c1) !! i = Some (or_flags B_BUSY b)) as Hi2 by exact Hi1.
  bstep. bstep. set (b' := set_b_error 0 (set_b_dev NODEV b0)).
  assert (cache_ok (put i b' (set_hash f g c1)) HL' AL1) as Hok'.
  { eapply rehash_change; [exact Hok1|exact Hi1|by bflags|done|done|done|done|done| |done].
    pose proof (bk_resid _ _ (ok_buf _ _ _ Hok0 _ _ Hi0)). split; by intros. }
  exists (put i b' (set_hash f g c1)), i, b'. split; [done|]. split; [by eexists _, _|].
  split; [eapply newbuf_taken; [exact Hok0|exact Hev|exact Hc0|exact Hi0|done|done|exact Hb1|exact Hd1|exact Hok'|done|done|done]|]. split; [by eapply put_lookup|done|done].
Qed.

(** A block somebody holds: the caller waits for its buffer. *)
Lemma getblk_waits c dev blkno i b :
  cache_inv c -> bufs c !! i = Some b -> holds dev blkno b = true -> on b B_BUSY = true ->
  getblk NRDSK start readonly dev blkno c = BSleep (put i (or_flags B_WANTED b) c) (Z.of_nat i).
Proof.
  intros (HL&AL&Hok) Hi Hh Hb. unfold getblk.
  destruct (lookup_hash_ok c HL AL dev blkno Hok) as ([bp|]&->&Hr); cbn [mbind bio_bind].
  - destruct Hr as (j&x&->&Hj&Hx). apply holds_true in Hh as (<-&<-&Hv), Hx as (?&?&?).
    assert (j = i) as -> by (by eapply (ok_one _ _ _ Hok)). simplify_eq.
    rewrite (getb_ok _ _ _ Hi). cbn [mbind bio_bind]. rewrite Hb. by rewrite (setb_ok _ _ _ _ Hi).
  - by rewrite (Hr i b Hi) in Hh.
Qed.

(** *** bread *)

(** A held buffer whose data and flags change; what is seen can change at
    its block only. *)
Lemma holding_buf c i b dev blkno :
  holding c i b dev blkno -> b_dev b = dev /\ b_blkno b = blkno /\ on b B_INVAL = false.
Proof. intros H. apply holds_true, H. Qed.

Definition read_in (d : list Z) (b : buf) : buf :=
  clr_flags B_WANTED (or_flags B_DONE (set_b_data d (set_b_bcount DEV_BSIZE (or_flags (B_READ + 0) b)))).
Lemma start_read_run c i b :
  bufs c !! i = Some b -> used (b_dev b) (b_blkno b) -> on b B_DONE = false -> on b B_ASYNC = false ->
  start_read NRDSK start readonly (Z.of_nat i) 0 c = BOk (put i (read_in (disk c !!! at b) b) c).
Proof.
  intros Hi Hu Hd Ha. apply used_disk in Hu as [Hm _]. unfold start_read. bstep. bstep.
  unfold rdstrategy. bstep. rewrite (proj2 (Z.ltb_ge _ _)) by (bflags; lia).
  assert (on (set_b_bcount DEV_BSIZE (or_flags (B_READ + 0) b)) B_READ = true) as -> by (by bflags).
  bstep. unfold biodone. bstep.
  replace (flag_on (b_flags (set_b_data _ _)) B_DONE) with false by (bflags; done). bstep.
  replace (flag_on (b_flags (set_b_data _ _)) B_ASYNC) with false by (bflags; done). bstep. done.
Qed.

Lemma bread_ok c dev blkno :
  cache_inv c -> used dev blkno -> has_free c -> nobody_holds c dev blkno ->
  exists c' i b, bread NRDSK start readonly dev blkno c = BOk (c', Z.of_nat i) /\ cache_inv c' /\
    taken c c' i /\ holding c' i b dev blkno /\ in_sync c' b /\ on b B_DONE = true /\
    b_data b = content c dev blkno.
Proof.
  intros Hinv Hu Hf Hno. unfold bread.
  destruct (getblk_ok c dev blkno Hinv Hu Hf Hno) as (c1&i&b&->&(HL&AL&Hok)&[T1 T2 T4 T3]&[Hi Hb Ha Hh]&Hs).
  cbn [mbind bio_bind]. pose proof (ok_buf _ _ _ Hok _ _ Hi) as Hbo.
  pose proof Hh as (Hd&Hk&Hv)%holds_true. bstep. autorewrite with bflags.
  destruct (on b B_DONE || on b B_DELWRI) eqn:E.
  - assert (on b B_DONE = true) as Hdn.
    { apply orb_true_iff in E as [?|?]; [done|]. by apply (bk_delwri _ _ Hbo). }
    exists c1, i, b. split_and!; try done; [by eexists _, _|].
    rewrite <- T3 by done. rewrite <- Hd, <- Hk. symmetry. by eapply content_buf.
  - apply orb_false_iff in E as [Hdn Hdw]. rewrite <- Hd, <- Hk in Hu.
    rewrite (start_read_run c1 i b Hi Hu Hdn Ha). cbn [mbind bio_bind].
    set (d := disk c1 !!! at b). unfold biowait. bstep.
    assert (on (read_in d b) B_DONE = true) as Hdn' by (unfold read_in; by bflags). rewrite Hdn'. cbn [negb mbind bio_bind].
    assert (cache_ok (put i (read_in d b) c1) HL AL) as Hok'.
    { eapply keep_ok; [exact Hok|exact Hi|done|done|unfold read_in; by bflags|unfold read_in; by bflags|].
      destruct Hbo. unfold read_in. split; bflags; try done; congruence. }
    assert (content c1 dev blkno = d) as Hc.
    { unfold d. rewrite Hd, Hk. apply content_disk. intros j x Hj Hx.
      destruct (decide (j = i)) as [->|Hne]; [by simplify_eq|].
      rewrite <- Hd, <- Hk in Hx. by rewrite (other_not_held _ _ _ i b j x Hok Hi Hv Hne Hj) in Hx. }
    assert (bufs (put i (read_in d b) c1) = <[i := read_in d b]> (bufs c1)) as Hbc by done.
    exists (put i (read_in d b) c1), i, (read_in d b).
    split; [done|]. split; [by eexists _, _|]. split; [split|split; [split|]].
    + done.
    + intros j x Hne Hbx. rewrite Hbc, list_lookup_insert_ne by done. by apply T2.
    + done.
    + intros d' k' Hdk. rewrite <- T3 by done. eapply content_change; [exact Hok|exact Hok'|exact Hi|done|].
      unfold shown. rewrite Hdn, Hdn', andb_false_r, andb_true_r.
      destruct (holds d' k' (read_in d b)) eqn:E; [|done].
      assert (holds d' k' b = true) as (<-&<-&_)%holds_true by (rewrite <- E; unfold holds, read_in; by bflags). done.
    + by eapply put_lookup.
    + unfold read_in. by bflags.
    + unfold read_in. by bflags.
    + rewrite <- Hh. unfold holds, read_in. by bflags.
    + rewrite <- T3 by (by rewrite <- Hd, <- Hk). rewrite Hc. split_and!; [|done|done]. intros _ _. done.
Qed.

(** *** Giving a buffer back *)

Record given (c c' : cache) (i : nat) : Prop := {
  gv_free : forall b, bufs c' !! i = Some b -> on b B_BUSY = false;
  gv_others : forall j x, j <> i -> bufs c' !! j = Some x <-> bufs c !! j = Some x }.
Lemma given_insert c c' i b b' :
  bufs c !! i = Some b -> bufs c' = <[i := b']> (bufs c) -> on b' B_BUSY = false -> given c c' i.
Proof.
  intros Hi Hb Hbusy. split.
  - intros x. rewrite Hb, list_lookup_insert_eq by (by eapply lookup_lt_Some). by intros [= <-].
  - intros j x Hne. by rewrite Hb, list_lookup_insert_ne.
Qed.

Lemma brelse_held c i b dev blkno :
  cache_inv c -> holding c i b dev blkno -> in_sync c b ->
  exists c', brelse (Z.of_nat i) c = BOk c' /\ cache_inv c' /\ given c c' i /\ disk c' = disk c /\
    forall d k, used d k -> content c' d k = content c d k.
Proof.
  intros (HL&AL&Hok) [Hi Hb Ha Hh] Hs. pose proof (ok_buf _ _ _ Hok _ _ Hi) as Hbo.
  destruct (release_ok c HL AL i b b (disk c) c) as (c'&AL'&E&Hok'&Hb'&Hd'); try done; try apply Hbo.
  - change (set_disk (disk c) c) with (MkCache (bufs c) (b_forw c) (b_back c) (av_forw c) (av_back c) (wanted0 c) (disk c)).
    rewrite put_same by done. by destruct c.
  - destruct Hbo. split; bflags; done.
  - exists c'. split; [done|]. split; [by eexists _, _|]. split; [|split; [done|]].
    + eapply given_insert; [done|done|]. by bflags.
    + intros d k _. eapply content_change; [exact Hok|exact Hok'|exact Hi|done|].
      rewrite Hd'. unfold shown, holds. by bflags.
Qed.

(** The caller stores into the data of the buffer it holds. *)
Definition fill (bp : Z) (d : list Z) (c : cache) : bio cache := setb bp (set_b_data d) c.
Lemma fill_held c i b dev blkno d :
  cache_inv c -> holding c i b dev blkno ->
  exists c', fill (Z.of_nat i) d c = BOk c' /\ cache_inv c' /\ holding c' i (set_b_data d b) dev blkno /\
    bufs c' = <[i := set_b_data d b]> (bufs c) /\ disk c' = disk c /\
    forall dev' k, used dev' k -> (dev', k) <> (dev, blkno) -> content c' dev' k = content c dev' k.
Proof.
  intros (HL&AL&Hok) [Hi Hb Ha Hh]. unfold fill. rewrite (setb_ok _ _ _ _ Hi). eexists. split; [done|].
  assert (cache_ok (put i (set_b_data d b) c) HL AL) as Hok'.
  { eapply keep_ok; [exact Hok|exact Hi|done..|]. pose proof (ok_buf _ _ _ Hok _ _ Hi) as []. split; bflags; try done. congruence. }
  split; [by eexists _, _|]. split; [split; try done; by eapply put_lookup|]. split; [done|]. split; [done|].
  intros dev' k _ Hne. eapply content_change; [exact Hok|exact Hok'|exact Hi|done|].
  unfold shown. assert (holds dev' k b = false) as E.
  { apply not_true_iff_false. intros (<-&<-&_)%holds_true. apply holds_true in Hh as (<-&<-&_). done. }
  assert (holds dev' k (set_b_data d b) = false) as -> by done. by rewrite E.
Qed.

(** The same for a buffer without a block. *)
Lemma scratch_shown dk dev blkno b : on b B_INVAL = true -> shown dk dev blkno b = dk !!! phys start dev blkno.
Proof. intros Hv. unfold shown, holds. by rewrite Hv, andb_false_r. Qed.
Lemma brelse_scratch c i b :
  cache_inv c -> scratch c i b ->
  exists c', brelse (Z.of_nat i) c = BOk c' /\ cache_inv c' /\ given c c' i /\ disk c' = disk c /\
    forall d k, used d k -> content c' d k = content c d k.
Proof.
  intros (HL&AL&Hok) [Hi Hb Hv]. pose proof (ok_buf _ _ _ Hok _ _ Hi) as Hbo.
  destruct (release_ok c HL AL i b b (disk c) c) as (c'&AL'&E&Hok'&Hb'&Hd'); try done; try apply Hbo.
  - change (set_disk (disk c) c) with (MkCache (bufs c) (b_forw c) (b_back c) (av_forw c) (av_back c) (wanted0 c) (disk c)).
    rewrite put_same by done. by destruct c.
  - destruct Hbo. split; bflags; (done || congruence).
  - exists c'. split; [done|]. split; [by eexists _, _|]. split; [|split; [done|]].
    + eapply given_insert; [done|done|]. by bflags.
    + intros d k _. eapply content_change; [exact Hok|exact Hok'|exact Hi|done|].
      rewrite Hd', !scratch_shown; [done|done|by bflags].
Qed.
Lemma fill_scratch c i b d :
  cache_inv c -> scratch c i b ->
  exists c', fill (Z.of_nat i) d c = BOk c' /\ cache_inv c' /\ scratch c' i (set_b_data d b) /\
    bufs c' = <[i := set_b_data d b]> (bufs c) /\ disk c' = disk c /\
    forall dev k, used dev k -> content c' dev k = content c dev k.
Proof.
  intros (HL&AL&Hok) [Hi Hb Hv]. unfold fill. rewrite (setb_ok _ _ _ _ Hi). eexists. split; [done|].
  assert (cache_ok (put i (set_b_data d b) c) HL AL) as Hok'.
  { eapply keep_ok; [exact Hok|exact Hi|done..|]. pose proof (ok_buf _ _ _ Hok _ _ Hi) as []. split; bflags; try done. congruence. }
  split; [by eexists _, _|]. split; [split; try done; by eapply put_lookup|]. split; [done|]. split; [done|].
  intros dev k _. eapply content_change; [exact Hok|exact Hok'|exact Hi|done|]. by rewrite !scratch_shown.
Qed.

(** The caller marks the buffer it holds as one to use again soon: nothing
    else about it changes. *)
Definition age (bp : Z) (c : cache) : bio cache := setb bp (or_flags B_AGE) c.
Lemma age_ok c i b :
  cache_inv c -> bufs c !! i = Some b -> on b B_BUSY = true ->
  exists c', age (Z.of_nat i) c = BOk c' /\ cache_inv c' /\ bufs c' = <[i := or_flags B_AGE b]> (bufs c) /\ disk c' = disk c /\
    bufs c' !! i = Some (or_flags B_AGE b) /\ forall dev k, used dev k -> content c' dev k = content c dev k.
Proof.
  intros (HL&AL&Hok) Hi Hb. unfold age. rewrite (setb_ok _ _ _ _ Hi). eexists. split; [done|].
  assert (cache_ok (put i (or_flags B_AGE b) c) HL AL) as Hok'.
  { eapply keep_ok; [exact Hok|exact Hi|bflags; done..|]. pose proof (ok_buf _ _ _ Hok _ _ Hi) as []. split; bflags; done. }
  split; [by eexists _, _|]. split; [done|]. split; [done|]. split; [by eapply put_lookup|].
  intros dev k _. eapply content_change; [exact Hok|exact Hok'|exact Hi|done|]. unfold shown, holds. by bflags.
Qed.
Lemma age_holding c c' i b dev blkno :
  holding c i b dev blkno -> bufs c' !! i = Some (or_flags B_AGE b) -> disk c' = disk c ->
  holding c' i (or_flags B_AGE b) dev blkno /\ (in_sync c b -> in_sync c' (or_flags B_AGE b)).
Proof.
  intros [H1 H2 H3 H4] Hi' Hd. split; [split; [done|by bflags..|by rewrite <- H4; unfold holds; bflags]|].
  unfold in_sync. rewrite Hd. by bflags.
Qed.
Lemma age_scratch c c' i b : scratch c i b -> bufs c' !! i = Some (or_flags B_AGE b) -> scratch c' i (or_flags B_AGE b).
Proof. intros [H1 H2 H3] Hi'. split; [done|by bflags..]. Qed.

(** bwrite puts the data of the buffer on the disk, and from then on every
    reader sees it. *)
Lemma bwrite_held c i b dev blkno :
  cache_inv c -> holding c i b dev blkno ->
  exists c', bwrite NRDSK start readonly (Z.of_nat i) c = BOk c' /\ cache_inv c' /\ given c c' i /\
    disk c' = <[phys start dev blkno := b_data b]> (disk c) /\ content c' dev blkno = b_data b /\
    forall d k, used d k -> (d, k) <> (dev, blkno) -> content c' d k = content c d k.
Proof.
  intros (HL&AL&Hok) [Hi Hb Ha Hh]. pose proof Hh as (<-&<-&Hv)%holds_true.
  destruct (bwrite_ok c HL AL i b Hok Hi Hb Hv) as (c'&b'&AL'&E&Hok'&Hb'&Hd'&Hcl).
  exists c'. split; [done|]. split; [by eexists _, _|].
  pose proof Hcl as (H1&H2&H3&H4&H5&H6&H7).
  assert (bufs c' !! i = Some b') as Hi' by (rewrite Hb'; apply list_lookup_insert_eq; by eapply lookup_lt_Some).
  split; [by eapply given_insert|]. split; [done|]. split.
  - rewrite <- H1, <- H2, <- H3. by eapply content_buf.
  - intros d k Hu Hne. eapply content_change; [exact Hok|exact Hok'|exact Hi|done|].
    rewrite Hd', clean_shown; [|done|by apply (bk_used _ _ (ok_buf _ _ _ Hok _ _ Hi))|done|done].
    destruct (holds d k b) eqn:Eh; [|done]. apply holds_true in Eh as (<-&<-&_). done.
Qed.

Lemma bawrite_held c i b dev blkno :
  cache_inv c -> holding c i b dev blkno ->
  exists c', bawrite NRDSK start readonly (Z.of_nat i) c = BOk c' /\ cache_inv c' /\ given c c' i /\
    disk c' = <[phys start dev blkno := b_data b]> (disk c) /\ content c' dev blkno = b_data b /\
    forall d k, used d k -> (d, k) <> (dev, blkno) -> content c' d k = content c d k.
Proof.
  intros (HL&AL&Hok) [Hi Hb Ha Hh]. pose proof Hh as (<-&<-&Hv)%holds_true.
  pose proof (ok_buf _ _ _ Hok _ _ Hi) as Hbo. unfold bawrite. bstep.
  assert (cache_ok (put i (or_flags B_ASYNC b) c) HL AL) as Hok1.
  { eapply keep_ok; [exact Hok|exact Hi|done|done|by bflags|by bflags|]. destruct Hbo. split; bflags; try done. congruence. }
  assert (bufs (put i (or_flags B_ASYNC b) c) !! i = Some (or_flags B_ASYNC b)) as Hi1 by (by eapply put_lookup).
  destruct (bwrite_ok _ HL AL i _ Hok1 Hi1) as (c'&b'&AL'&E&Hok'&Hb'&Hd'&Hcl); [by bflags|by bflags|].
  cbn [put bufs] in Hb'. rewrite list_insert_insert_eq in Hb'.
  exists c'. split; [done|]. split; [by eexists _, _|].
  assert (clean_of b b') as Hcb by (unfold clean_of in *; by bflags).
  pose proof Hcb as (H1&H2&H3&H4&H5&H6&H7).
  assert (bufs c' !! i = Some b') as Hi' by (rewrite Hb'; apply list_lookup_insert_eq; by eapply lookup_lt_Some).
  split; [by eapply given_insert|]. split; [done|]. split.
  - rewrite <- H1, <- H2, <- H3. by eapply content_buf.
  - intros d k Hu Hne. eapply content_change; [exact Hok|exact Hok'|exact Hi|done|].
    change (disk c' = <[at b := b_data b]> (disk c)) in Hd'. rewrite Hd'.
    rewrite clean_shown; [|done|by apply (bk_used _ _ Hbo)|done|done].
    destruct (holds d k b) eqn:Eh; [|done]. apply holds_true in Eh as (<-&<-&_). done.
Qed.

(** *** Flushing *)

Definition dirty_of (dev : Z) (b : buf) : bool := on b B_DELWRI && (dev =? b_dev b).

Lemma find_dirty_ok c HL AL q dev fuel l1 l2 :
  cache_ok c HL AL -> 0 <= q < 3 -> AL (bfreelist q) = l1 ++ l2 -> (length l2 < fuel)%nat ->
  exists r, find_dirty fuel c (bfreelist q) (List.hd (bfreelist q) l2) dev = BOk r /\
    match r with
    | Some bp => exists i b, bp = Z.of_nat i /\ bufs c !! i = Some b /\ bp ∈ AL (bfreelist q) /\ dirty_of dev b = true
    | None => forall i b, Z.of_nat i ∈ l2 -> bufs c !! i = Some b -> dirty_of dev b = false
    end.
Proof.
  intros Hok Hq. pose proof (free_head_q q Hq) as Hh.
  revert l1 fuel. induction l2 as [|e l2 IH]; intros l1 fuel E Hf; destruct fuel as [|fuel];
    simpl in Hf; try lia; cbn [find_dirty List.hd].
  - exists None. rewrite Z.eqb_refl. split; [done|]. set_solver.
  - assert (e ∈ AL (bfreelist q)) as Hin by (rewrite E; set_solver).
    pose proof (ok_free_buf _ _ _ Hok _ e Hh Hin) as He.
    destruct (Z.eqb_spec e (bfreelist q)) as [->|_]; [by destruct (is_buf_not_free (bfreelist q))|].
    destruct (ok_lookup _ _ _ _ Hok He) as (i&b&->&Hi). bstep. fold (dirty_of dev b).
    destruct (dirty_of dev b) eqn:Ed;
      [exists (Some (Z.of_nat i)); split; [done|]; by exists i, b|].
    rewrite (link_ok _ _ _ (rings_after _ _ _ _ _ _ _ _ (ok_free _ _ _ Hok) Hh E)). cbn [mbind bio_bind].
    destruct (IH (l1 ++ [Z.of_nat i]) fuel) as (r&->&Hr); [by rewrite <- app_assoc|lia|].
    exists r. split; [done|]. destruct r as [bp|]; [done|].
    intros j x [Hj|Hj]%elem_of_cons Hx; [|by eauto]. apply Nat2Z.inj in Hj as ->. by simplify_eq.
Qed.
Lemma find_dirty_in_ok c HL AL q dev :
  cache_ok c HL AL -> 0 <= q < 3 ->
  exists r, find_dirty_in c dev q = BOk r /\
    match r with
    | Some bp => exists i b, bp = Z.of_nat i /\ bufs c !! i = Some b /\ bp ∈ AL (bfreelist q) /\ dirty_of dev b = true
    | None => forall i b, Z.of_nat i ∈ AL (bfreelist q) -> bufs c !! i = Some b -> dirty_of dev b = false
    end.
Proof.
  intros Hok Hq. pose proof (free_head_q q Hq) as Hh. unfold find_dirty_in, link.
  rewrite (rings_next _ _ _ _ _ (ok_free _ _ _ Hok) Hh). cbn [mbind bio_bind].
  apply (find_dirty_ok c HL AL q dev (S NBUF) [] (AL (bfreelist q))); [done|done|done|].
  enough (length (AL (bfreelist q)) <= NBUF)%nat by lia. apply nodup_bufs_length.
  - by eapply rings_nodup; [apply Hok|].
  - intros e. by apply (ok_free_buf _ _ _ Hok).
Qed.
Lemma or_flags_comm m n b : or_flags m (or_flags n b) = or_flags n (or_flags m b).
Proof. unfold or_flags, set_b_flags, flag_set. simpl. f_equal. rewrite <- !Z.lor_assoc. f_equal. apply Z.lor_comm. Qed.

Lemma bremfree_put bp i b c : bremfree bp (put i b c) = (c ← bremfree bp c; BOk (put i b c)).
Proof.
  unfold bremfree. cbn [put av_forw av_back].
  destruct (link (av_back c) bp) as [x| | |]; cbn [mbind bio_bind]; try done.
  destruct (link (av_forw c) bp) as [y| | |]; cbn [mbind bio_bind set_av av_forw av_back]; try done.
  destruct (link (<[x := y]> (av_forw c)) bp) as [z| | |]; cbn [mbind bio_bind]; try done.
  by destruct (link (av_back c) bp).
Qed.

(** bflush marks the buffer before it takes it off its list. *)
Lemma flush_turn c HL AL i b h :
  cache_ok c HL AL -> bufs c !! i = Some b -> free_head h -> Z.of_nat i ∈ AL h ->
  (c ← setb (Z.of_nat i) (or_flags B_ASYNC) c; c ← notavail (Z.of_nat i) c; bwrite NRDSK start readonly (Z.of_nat i) c) =
  (c ← notavail (Z.of_nat i) c; bawrite NRDSK start readonly (Z.of_nat i) c).
Proof.
  intros Hok Hi Hh Hin. unfold notavail, bawrite. bstep. rewrite bremfree_put.
  destruct (list_elem_of_split _ _ Hin) as (l1&l2&El).
  destruct (bremfree_ok c AL h l1 (Z.of_nat i) l2 (ok_free _ _ _ Hok) Hh (ok_is_buf _ _ _ _ _ Hok Hi) El) as (f&g&->&_).
  cbn [mbind bio_bind]. assert (bufs (set_av f g c) !! i = Some b) as Hi' by done.
  bstep. bstep. bstep. by rewrite or_flags_comm.
Qed.

(** Nothing of the device is left to write among the buffers nobody holds. *)
Lemma bflush_loop_ok fuel c HL AL dev :
  cache_ok c HL AL -> (dirty c < fuel)%nat ->
  exists c' AL', bflush_loop NRDSK start readonly fuel dev c = BOk c' /\ cache_ok c' HL AL' /\ evolves c c' /\
    (forall d k, used d k -> content c' d k = content c d k) /\
    (forall i b, bufs c' !! i = Some b -> on b B_BUSY = false -> dirty_of dev b = false).
Proof.
  revert c AL. induction fuel as [|fuel IH]; intros c AL Hok Hd; [lia|]. cbn [bflush_loop].
  destruct (find_dirty_in_ok c HL AL BQ_LOCKED dev Hok ltac:(done)) as (r0&->&H0).
  destruct (find_dirty_in_ok c HL AL BQ_LRU dev Hok ltac:(done)) as (r1&->&H1).
  destruct (find_dirty_in_ok c HL AL BQ_AGE dev Hok ltac:(done)) as (r2&->&H2).
  cbn [mbind bio_bind].
  set (r := match r0 with Some bp => Some bp | None => match r1 with Some bp => Some bp | None => r2 end end).
  assert (match r with
    | Some bp => exists i b h, bp = Z.of_nat i /\ bufs c !! i = Some b /\ free_head h /\ bp ∈ AL h /\ dirty_of dev b = true
    | None => forall i b, bufs c !! i = Some b -> on b B_BUSY = false -> dirty_of dev b = false
    end) as Hr.
  { unfold r. destruct r0 as [?|]; [destruct H0 as (i&b&?&?&?&?); exists i, b, (bfreelist BQ_LOCKED); split_and!; try done; by apply free_head_q|].
    destruct r1 as [?|]; [destruct H1 as (i&b&?&?&?&?); exists i, b, (bfreelist BQ_LRU); split_and!; try done; by apply free_head_q|].
    destruct r2 as [?|]; [destruct H2 as (i&b&?&?&?&?); exists i, b, (bfreelist BQ_AGE); split_and!; try done; by apply free_head_q|].
    intros i b Hi Hb. apply (ok_avail _ _ _ Hok _ _ Hi) in Hb as (h&(q&Hq&->)&Hin).
    assert (q = BQ_LOCKED \/ q = BQ_LRU \/ q = BQ_AGE) as [->|[->| ->]] by (unfold BQ_LOCKED, BQ_LRU, BQ_AGE; lia); eauto. }
  destruct r as [bp|]; cbn [mbind bio_bind].
  - destruct Hr as (i&b&h&->&Hi&Hh&Hin&Hdo). pose proof Hdo as [Hdw _]%andb_true_iff.
    destruct (writeout_turn c HL AL i b h Hok Hi Hh Hin Hdw) as (c'&AL'&E&Hok'&Hev&Hlt&Hc&_&_).
    rewrite <- (flush_turn c HL AL i b h Hok Hi Hh Hin) in E.
    destruct (setb (Z.of_nat i) (or_flags B_ASYNC) c) as [c1| | |]; cbn [mbind bio_bind] in *; try done.
    destruct (notavail (Z.of_nat i) c1) as [c2| | |]; cbn [mbind bio_bind] in *; try done.
    rewrite E. cbn [mbind bio_bind].
    destruct (IH c' AL') as (c3&AL3&->&Hok3&Hev3&Hc3&Hn3); [done|lia|].
    exists c3, AL3. split; [done|]. split; [done|]. split; [by eapply evolves_trans|]. split; [|done].
    intros d k Hu. rewrite Hc3, Hc by done. done.
  - exists c, AL. split_and!; try done. apply evolves_refl.
Qed.

Lemma bflush_ok c dev :
  cache_inv c ->
  exists c', bflush NRDSK start readonly dev c = BOk c' /\ cache_inv c' /\ evolves c c' /\
    (forall d k, used d k -> content c' d k = content c d k) /\
    (forall k, used dev k -> nobody_holds c dev k -> disk c' !!! phys start dev k = content c dev k).
Proof.
  intros (HL&AL&Hok). destruct (bflush_loop_ok (S NBUF) c HL AL dev Hok) as (c'&AL'&E&Hok'&Hev&Hc&Hn);
    [pose proof (dirty_bound _ _ _ Hok); lia|].
  exists c'. split; [done|]. split; [by eexists _, _|]. split; [done|]. split; [done|].
  intros k Hu Hno. rewrite <- Hc by done. 
  destruct (decide (Exists (fun b => holds dev k b && on b B_DONE = true) (bufs c'))) as [Hex|Hnex].
  - apply Exists_exists in Hex as (b&(i&Hi)%list_elem_of_lookup&[Hh Hd]%andb_true_iff).
    pose proof Hh as (<-&<-&Hv)%holds_true.
    assert (on b B_BUSY = false) as Hb.
    { destruct Hev as [_ Hev]. destruct (Hev _ _ Hi) as (x&Hx&E1&E2&E3&->&_). apply (Hno i x Hx).
      apply holds_true. split_and!; congruence. }
    pose proof (Hn i b Hi Hb) as Hdo. unfold dirty_of in Hdo. rewrite Z.eqb_refl, andb_true_r in Hdo.
    rewrite (content_buf _ _ _ i b Hok' Hi Hv Hd). symmetry. by apply (bk_clean _ _ (ok_buf _ _ _ Hok' _ _ Hi)).
  - symmetry. apply content_disk. intros i b Hi Hh. destruct (on b B_DONE) eqn:Ed; [|done].
    exfalso. apply Hnex, Exists_exists. exists b. split; [by eapply list_elem_of_lookup_2|]. by rewrite Hh.
Qed.

(** A walk along the chain that finds nothing to write changes nothing. *)
Lemma blkflush_walk c HL AL dp dev blkno fuel l1 l2 :
  cache_ok c HL AL -> hash_head dp -> HL dp = l1 ++ l2 -> (length l2 < fuel)%nat ->
  (forall i b, Z.of_nat i ∈ l2 -> bufs c !! i = Some b -> holds dev blkno b = true ->
    on b B_BUSY = false /\ on b B_DELWRI = false) ->
  blkflush_loop NRDSK start readonly fuel c dp (List.hd dp l2) dev blkno = BOk c.
Proof.
  intros Hok Hdp. revert l1 fuel. induction l2 as [|e l2 IH]; intros l1 fuel E Hf Hn; destruct fuel as [|fuel];
    simpl in Hf; try lia; cbn [blkflush_loop List.hd]; [by rewrite Z.eqb_refl|].
  assert (is_buf e) as He by (apply (ok_hash_buf _ _ _ Hok dp); [done|]; rewrite E; set_solver).
  destruct (Z.eqb_spec e dp) as [->|_]; [by destruct (is_buf_not_hash dp)|].
  destruct (ok_lookup _ _ _ _ Hok He) as (i&b&->&Hi). bstep.
  rewrite (link_ok _ _ _ (rings_after _ _ _ _ _ _ _ _ (ok_hash _ _ _ Hok) Hdp E)). cbn [mbind bio_bind].
  assert (blkflush_loop NRDSK start readonly fuel c dp (List.hd dp l2) dev blkno = BOk c) as Hrest.
  { apply (IH (l1 ++ [Z.of_nat i])); [by rewrite <- app_assoc|lia|]. intros j x Hj. apply Hn. set_solver. }
  destruct (negb (b_blkno b =? blkno) || negb (b_dev b =? dev) || on b B_INVAL) eqn:Et; [done|].
  destruct (Hn i b) as [-> ->]; [apply list_elem_of_here|done| |done]. unfold holds.
  by destruct (b_dev b =? dev), (b_blkno b =? blkno), (on b B_INVAL).
Qed.

(** One delayed write on the way starts the walk again. *)
Lemma blkflush_write c HL AL dp dev blkno fuel l1 i b l2 :
  cache_ok c HL AL -> hash_head dp -> HL dp = l1 ++ Z.of_nat i :: l2 -> (length l1 < fuel)%nat ->
  bufs c !! i = Some b -> holds dev blkno b = true -> on b B_BUSY = false -> on b B_DELWRI = true ->
  exists fuel', (fuel <= fuel' + S (length l1))%nat /\
  blkflush_loop NRDSK start readonly fuel c dp (List.hd dp (HL dp)) dev blkno =
  (c ← notavail (Z.of_nat i) c; c ← bwrite NRDSK start readonly (Z.of_nat i) c; n ← link (b_forw c) dp;
   blkflush_loop NRDSK start readonly fuel' c dp n dev blkno).
Proof.
  intros Hok Hdp E Hf Hi Hh Hb Hdw. exists (fuel - S (length l1))%nat. split; [lia|].
  pose proof (rings_nodup _ _ _ _ _ (ok_hash _ _ _ Hok) Hdp) as Hnd. rewrite E in Hnd.
  apply NoDup_app in Hnd as (_&Hdis&_).
  assert (forall pre l, HL dp = pre ++ l ++ Z.of_nat i :: l2 -> l1 = pre ++ l -> forall fuel, (length l < fuel)%nat ->
    blkflush_loop NRDSK start readonly fuel c dp (List.hd dp (l ++ Z.of_nat i :: l2)) dev blkno =
    (c ← notavail (Z.of_nat i) c; c ← bwrite NRDSK start readonly (Z.of_nat i) c; n ← link (b_forw c) dp;
     blkflush_loop NRDSK start readonly (fuel - S (length l)) c dp n dev blkno)) as Hgen.
  { intros pre l. revert pre. induction l as [|e l IH]; intros pre El Hpre fu Hfu; destruct fu as [|fu];
      simpl in Hfu; try lia; cbn [blkflush_loop List.hd app].
    - assert (is_buf (Z.of_nat i)) as Hib by (by eapply ok_is_buf).
      destruct (Z.eqb_spec (Z.of_nat i) dp) as [<-|_]; [by destruct (is_buf_not_hash (Z.of_nat i))|]. bstep.
      rewrite (link_ok _ _ _ (rings_after _ _ _ _ _ _ _ _ (ok_hash _ _ _ Hok) Hdp E)). cbn [mbind bio_bind].
      replace (negb (b_blkno b =? blkno) || negb (b_dev b =? dev) || on b B_INVAL) with (negb (holds dev blkno b))
        by (unfold holds; by destruct (b_dev b =? dev), (b_blkno b =? blkno), (on b B_INVAL)).
      rewrite Hh, Hb, Hdw. cbn [negb length]. by replace (S fu - 1)%nat with fu by lia.
    - assert (e ∈ HL dp) as Hin by (rewrite El; set_solver).
      pose proof (ok_hash_buf _ _ _ Hok dp e Hdp Hin) as He.
      destruct (Z.eqb_spec e dp) as [->|_]; [by destruct (is_buf_not_hash dp)|].
      destruct (ok_lookup _ _ _ _ Hok He) as (j&x&->&Hj). bstep.
      rewrite (link_ok _ _ _ (rings_after _ _ _ _ dp _ _ _ (ok_hash _ _ _ Hok) Hdp El)). cbn [mbind bio_bind].
      assert (holds dev blkno x = false) as Hx.
      { apply holds_true in Hh as (<-&<-&Hv). apply (other_not_held _ _ _ i b j x Hok Hi Hv); [|done].
        intros ->. apply (Hdis (Z.of_nat i)); [rewrite Hpre; set_solver|apply list_elem_of_here]. }
      replace (negb (b_blkno x =? blkno) || negb (b_dev x =? dev) || on x B_INVAL) with (negb (holds dev blkno x))
        by (unfold holds; by destruct (b_dev x =? dev), (b_blkno x =? blkno), (on x B_INVAL)).
      rewrite Hx. cbn [negb]. rewrite (IH (pre ++ [Z.of_nat j])); [|by rewrite <- app_assoc|by rewrite <- app_assoc|lia].
      done. }
  rewrite E. by apply (Hgen [] l1).
Qed.

Lemma blkflush_ok c dev blkno :
  cache_inv c -> used dev blkno -> nobody_holds c dev blkno ->
  exists c', blkflush NRDSK start readonly dev blkno c = BOk c' /\ cache_inv c' /\ evolves c c' /\
    (forall d k, used d k -> content c' d k = content c d k) /\
    disk c' !!! phys start dev blkno = content c dev blkno.
Proof.
  intros (HL&AL&Hok) Hu Hno. pose proof (BUFHASH_head dev blkno) as Hdp. unfold blkflush.
  set (dp := BUFHASH dev blkno) in *. unfold link at 1.
  rewrite (rings_next _ _ _ _ _ (ok_hash _ _ _ Hok) Hdp). cbn [mbind bio_bind].
  assert (forall c AL, cache_ok c HL AL -> length (HL dp) <= NBUF)%nat as Hlen.
  { intros c0 AL0 Hok0. apply nodup_bufs_length; [by eapply rings_nodup; [apply Hok0|]|].
    intros e. by apply (ok_hash_buf _ _ _ Hok0). }
  destruct (decide (Exists (fun b => holds dev blkno b && on b B_DELWRI = true) (bufs c))) as [Hex|Hnex].
  - apply Exists_exists in Hex as (b&(i&Hi)%list_elem_of_lookup&[Hh Hdw]%andb_true_iff).
    pose proof Hh as (Hd&Hk&Hv)%holds_true. pose proof (Hno i b Hi Hh) as Hb.
    pose proof (ok_chain _ _ _ Hok _ _ Hi Hv) as Hin. rewrite Hd, Hk in Hin. fold dp in Hin.
    apply list_elem_of_split in Hin as (l1&l2&El).
    pose proof (Hlen c AL Hok) as Hl. rewrite El, length_app in Hl. cbn [length] in Hl.
    destruct (blkflush_write c HL AL dp dev blkno (S (2 * S NBUF)) l1 i b l2) as (fuel'&Hf&->); try done; [lia|].
    destruct (proj1 (ok_avail _ _ _ Hok _ _ Hi) Hb) as (h&Hh'&Hin').
    destruct (notavail_ok c AL i b h (ok_free _ _ _ Hok) Hi (ok_is_buf _ _ _ _ _ Hok Hi) Hh' Hin') as (f&g&l&E&HR&Hp).
    rewrite E. cbn [mbind bio_bind].
    destruct (writeout_taken c HL AL i b _ f g h l Hok Hi Hb Hdw Hh' HR Hp (or_introl eq_refl))
      as (c'&AL'&->&Hok'&Hev&_&Hc&Hdk&b'&Hb'&Hcl). cbn [mbind bio_bind].
    pose proof Hcl as (C1&C2&C3&C4&C5&C6&C7).
    assert (bufs c' !! i = Some b') as Hi' by (rewrite Hb'; apply list_lookup_insert_eq; by eapply lookup_lt_Some).
    rewrite (link_ok _ _ _ (rings_next _ _ _ _ _ (ok_hash _ _ _ Hok') Hdp)). cbn [mbind bio_bind].
    rewrite (blkflush_walk c' HL AL' dp dev blkno fuel' [] (HL dp)); [|done|done|done|pose proof (Hlen c AL Hok); lia|].
    + exists c'. split; [done|]. split; [by eexists _, _|]. split; [done|]. split; [done|].
      rewrite Hdk, Hd, Hk, lookup_total_insert_eq. rewrite <- Hd, <- Hk. symmetry. eapply content_buf; [exact Hok|done|done|].
      by apply (bk_delwri _ _ (ok_buf _ _ _ Hok _ _ Hi)).
    + intros j x _ Hj Hx. apply holds_true in Hx as (?&?&?).
      assert (j = i) as -> by (eapply (ok_one _ _ _ Hok' j i); try done; congruence). by simplify_eq.
  - assert (forall i b, bufs c !! i = Some b -> holds dev blkno b = true -> on b B_DELWRI = false) as Hclean.
    { intros i b Hi Hh. destruct (on b B_DELWRI) eqn:Ed; [|done].
      exfalso. apply Hnex, Exists_exists. exists b. split; [by eapply list_elem_of_lookup_2|]. by rewrite Hh. }
    rewrite (blkflush_walk c HL AL dp dev blkno _ [] (HL dp)); [|done|done|done|pose proof (Hlen c AL Hok); lia|eauto].
    exists c. split; [done|]. split; [by eexists _, _|]. split; [apply evolves_refl|]. split; [done|].
    destruct (decide (Exists (fun b => holds dev blkno b && on b B_DONE = true) (bufs c))) as [Hex|Hn].
    + apply Exists_exists in Hex as (b&(i&Hi)%list_elem_of_lookup&[Hh Hd]%andb_true_iff).
      pose proof (Hclean i b Hi Hh) as Hdw. pose proof (Hno i b Hi Hh) as Hb. apply holds_true in Hh as (<-&<-&Hv).
      rewrite (content_buf _ _ _ i b Hok Hi Hv Hd). symmetry. by apply (bk_clean _ _ (ok_buf _ _ _ Hok _ _ Hi)).
    + symmetry. apply content_disk. intros i b Hi Hh. destruct (on b B_DONE) eqn:Ed; [|done].
      exfalso. apply Hn, Exists_exists. exists b. split; [by eapply list_elem_of_lookup_2|]. by rewrite Hh.
Qed.

(** *** Read-ahead *)

Definition same_busy (c c' : cache) : Prop :=
  forall j x, on x B_BUSY = true -> bufs c' !! j = Some x <-> bufs c !! j = Some x.
Lemma taken_given c c1 c2 i : taken c c1 i -> given c1 c2 i -> same_busy c c2.
Proof.
  intros [T1 T2 _ _] [G1 G2] j x Hb. destruct (decide (j = i)) as [->|Hne].
  - split; intros Hj; [by rewrite (G1 x Hj) in Hb|by rewrite (T1 x Hj) in Hb].
  - rewrite G2 by done. by apply T2.
Qed.
Lemma inv_lookup c i : cache_inv c -> (i < NBUF)%nat -> exists b, bufs c !! i = Some b.
Proof. intros (HL&AL&Hok) Hi. apply lookup_lt_is_Some. by rewrite (ok_len _ _ _ Hok). Qed.
Lemma inv_lt c i b : cache_inv c -> bufs c !! i = Some b -> (i < NBUF)%nat.
Proof. intros (HL&AL&Hok) Hi%lookup_lt_Some. by rewrite <- (ok_len _ _ _ Hok). Qed.
(** A buffer nobody holds is still free after another was taken. *)
Lemma taken_free c c' i j b :
  cache_inv c -> cache_inv c' -> taken c c' i -> bufs c !! j = Some b -> on b B_BUSY = false -> j <> i -> has_free c'.
Proof.
  intros Hinv Hinv' [_ T2 _ _] Hj Hb Hne. destruct (inv_lookup c' j Hinv' (inv_lt _ _ _ Hinv Hj)) as [x Hx].
  exists j, x. split; [done|]. destruct (on x B_BUSY) eqn:E; [|done]. apply T2 in Hx; [|done..]. simplify_eq. congruence.
Qed.
Lemma same_busy_free c c' :
  cache_inv c -> cache_inv c' -> same_busy c c' -> has_free c -> has_free c'.
Proof.
  intros Hinv Hinv' Hs (j&b&Hj&Hb). destruct (inv_lookup c' j Hinv' (inv_lt _ _ _ Hinv Hj)) as [x Hx].
  exists j, x. split; [done|]. destruct (on x B_BUSY) eqn:E; [|done]. apply Hs in Hx; [|done..]. simplify_eq. congruence.
Qed.
Lemma same_busy_nobody c c' dev blkno :
  same_busy c c' -> nobody_holds c dev blkno -> nobody_holds c' dev blkno.
Proof.
  intros Hs Hn i b Hi Hh. destruct (on b B_BUSY) eqn:E; [|done]. apply Hs in Hi; [|done]. by rewrite (Hn i b Hi Hh) in E.
Qed.

Lemma incore_ok c dev blkno :
  cache_inv c -> exists hit : bool, incore c dev blkno = BOk hit /\
    (hit = false -> forall i b, bufs c !! i = Some b -> holds dev blkno b = false).
Proof.
  intros (HL&AL&Hok). unfold incore. destruct (lookup_hash_ok c HL AL dev blkno Hok) as ([bp|]&->&Hr); cbn [mbind bio_bind].
  - by exists true.
  - by exists false.
Qed.

Lemma start_read_async_run c i b :
  bufs c !! i = Some b -> used (b_dev b) (b_blkno b) -> on b B_DONE = false ->
  start_read NRDSK start readonly (Z.of_nat i) B_ASYNC c =
  brelse (Z.of_nat i) (put i (or_flags B_DONE (set_b_data (disk c !!! at b)
    (set_b_bcount DEV_BSIZE (or_flags (B_READ + B_ASYNC) b)))) c).
Proof.
  intros Hi Hu Hd. apply used_disk in Hu as [Hm _]. unfold start_read. bstep. bstep.
  unfold rdstrategy. bstep. rewrite (proj2 (Z.ltb_ge _ _)) by (bflags; lia).
  assert (on (set_b_bcount DEV_BSIZE (or_flags (B_READ + B_ASYNC) b)) B_READ = true) as -> by (by bflags).
  bstep. unfold biodone. bstep.
  replace (flag_on (b_flags (set_b_data _ _)) B_DONE) with false by (bflags; done). bstep.
  replace (flag_on (b_flags (set_b_data _ _)) B_ASYNC) with true by (bflags; done). done.
Qed.

Lemma read_ahead_ok c i b dev blkno :
  cache_inv c -> holding c i b dev blkno -> on b B_DONE = false -> on b B_DELWRI = false ->
  exists c', start_read NRDSK start readonly (Z.of_nat i) B_ASYNC c = BOk c' /\ cache_inv c' /\ given c c' i /\ disk c' = disk c /\
    forall d k, used d k -> content c' d k = content c d k.
Proof.
  intros (HL&AL&Hok) [Hi Hb Ha Hh] Hd Hdw. pose proof (ok_buf _ _ _ Hok _ _ Hi) as Hbo.
  pose proof Hh as (Ed&Ek&Hv)%holds_true. pose proof (bk_used _ _ Hbo Hv) as Hu.
  rewrite (start_read_async_run c i b Hi Hu Hd).
  set (w := or_flags B_DONE _).
  destruct (release_ok c HL AL i w b (disk c) (put i w c)) as (c'&AL'&E&Hok'&Hb'&Hd'); try done;
    try (unfold w; bflags; done || apply Hbo).
  { destruct Hbo. unfold w. split; bflags; done. }
  exists c'. split; [done|]. split; [by eexists _, _|]. split; [eapply given_insert; [done|done|]; by bflags|].
  split; [done|]. intros d k _. eapply content_change; [exact Hok|exact Hok'|exact Hi|done|]. rewrite Hd'. unfold shown.
  assert (holds d k (released w) = holds d k b) as -> by (unfold holds, w; by bflags).
  rewrite Hd, andb_false_r. destruct (holds d k b) eqn:Eh; [|done]. apply holds_true in Eh as (<-&<-&_).
  assert (on (released w) B_DONE = true) as -> by (unfold w; by bflags). done.
Qed.

(** What the cache keeps when a buffer is taken, used and given back. *)
Record quiet (c c' : cache) : Prop := {
  qt_busy : same_busy c c';
  qt_disk : forall j x, bufs c !! j = Some x -> on x B_BUSY = true -> on x B_INVAL = false ->
    disk c' !!! at x = disk c !!! at x;
  qt_content : forall d k, used d k -> content c' d k = content c d k }.

Lemma taken_given_quiet c c1 c2 i :
  taken c c1 i -> given c1 c2 i -> disk c2 = disk c1 ->
  (forall d k, used d k -> content c2 d k = content c1 d k) -> quiet c c2.
Proof.
  intros Ht Hg Hd Hc. split; [by eapply taken_given| |].
  - intros j x. rewrite Hd. apply Ht.
  - intros d k Hu. rewrite Hc by done. by apply Ht.
Qed.

Lemma readahead_ok c0 dev rablkno :
  (rablkno <> 0 -> used dev rablkno) -> cache_inv c0 -> has_free c0 ->
  exists c', readahead NRDSK start readonly dev rablkno c0 = BOk c' /\ cache_inv c' /\ quiet c0 c'.
Proof.
  intros Hra Hinv0 Hf0. unfold readahead. destruct (Z.eqb_spec rablkno 0) as [->|Hne0]; cbn [negb]; [by exists c0|].
  destruct (incore_ok c0 dev rablkno Hinv0) as (hit&->&Hhit). cbn [mbind bio_bind].
  destruct hit; cbn [negb]; [by exists c0|]. specialize (Hhit eq_refl).
  destruct (getblk_ok c0 dev rablkno Hinv0 (Hra Hne0) Hf0) as (c1&k&b&->&Hinv1&Htk&Hhold&Hs).
  { intros m x Hm Hx. by rewrite (Hhit m x Hm) in Hx. }
  cbn [mbind bio_bind]. pose proof (hd_lookup _ _ _ _ _ Hhold) as Hk. bstep. autorewrite with bflags.
  destruct (on b B_DONE || on b B_DELWRI) eqn:Ed.
  - destruct (brelse_held c1 k b dev rablkno Hinv1 Hhold Hs) as (c2&->&Hinv2&Hgv&Hd2&Hc2).
    exists c2. split_and!; [done..|]. by eapply taken_given_quiet.
  - apply orb_false_iff in Ed as [Hd Hdw].
    destruct (read_ahead_ok c1 k b dev rablkno Hinv1 Hhold Hd Hdw) as (c2&->&Hinv2&Hgv&Hd2&Hc2).
    exists c2. split_and!; [done..|]. by eapply taken_given_quiet.
Qed.

Lemma breada_ok c dev blkno rablkno i j b1 b2 :
  cache_inv c -> used dev blkno -> (rablkno <> 0 -> used dev rablkno) -> nobody_holds c dev blkno ->
  i <> j -> bufs c !! i = Some b1 -> on b1 B_BUSY = false -> bufs c !! j = Some b2 -> on b2 B_BUSY = false ->
  exists c' i b, breada NRDSK start readonly dev blkno rablkno c = BOk (c', Z.of_nat i) /\ cache_inv c' /\
    taken c c' i /\ holding c' i b dev blkno /\ in_sync c' b /\ on b B_DONE = true /\ b_data b = content c dev blkno.
Proof.
  intros Hinv Hu Hra Hno Hij Hi Hb1 Hj Hb2. unfold breada.
  assert (has_free c) as Hfc by (by exists i, b1).
  destruct (incore_ok c dev blkno Hinv) as (hit&->&_). cbn [mbind bio_bind]. destruct hit; cbn [mbind bio_bind].
  - destruct (readahead_ok c dev rablkno Hra Hinv Hfc) as (c1&->&Hinv1&[Hs1 Hd1 Hc1]). cbn [mbind bio_bind].
    destruct (bread_ok c1 dev blkno) as (c2&k&b&E&Hinv2&[T1 T2 T4 T3]&Hhold&Hs&Hdn&Hdata);
      [done|done|by apply (same_busy_free c)|by apply (same_busy_nobody c)|].
    exists c2, k, b. split; [done|]. split; [done|]. split; [split|split_and!; [done..|by rewrite Hdata, Hc1]].
    + intros x Hx. destruct (on x B_BUSY) eqn:Ex; [|done]. apply Hs1 in Hx; [|done]. by rewrite (T1 x Hx) in Ex.
    + intros m x Hne Hx. by rewrite (T2 m x), (Hs1 m x) by done.
    + intros m x Hm Hx Hv. rewrite (T4 m x), (Hd1 m x); try done. by apply Hs1.
    + intros d m Hdm. rewrite T3, Hc1 by done. done.
  - destruct (bread_ok c dev blkno Hinv Hu Hfc Hno) as (c1&k&b&E&Hinv1&Htk&Hhold&Hs&Hdn&Hdata).
    assert (has_free c1) as Hf1.
    { destruct (decide (i = k)) as [->|]; [eapply (taken_free c c1 k j); eauto|eapply (taken_free c c1 k i); eauto]. }
    unfold bread in E.
    destruct (getblk NRDSK start readonly dev blkno c) as [[c0 bp]| | |]; cbn [mbind bio_bind] in E |- *; try done.
    destruct (getb c0 bp) as [b0| | |]; cbn [mbind bio_bind] in E |- *; try done.
    assert (exists c3, (if negb (flag_on (b_flags b0) (B_DONE + B_DELWRI)) then start_read NRDSK start readonly bp 0 c0 else BOk c0) = BOk c3
      /\ c3 = c1 /\ bp = Z.of_nat k) as (c3&->&->&->).
    { destruct (flag_on (b_flags b0) (B_DONE + B_DELWRI)); cbn [negb]; [injection E as -> ->; by eexists|].
      destruct (start_read NRDSK start readonly bp 0 c0) as [c3| | |]; cbn [mbind bio_bind] in E; try done.
      unfold biowait in E. destruct (getb c3 bp) as [b3| | |]; cbn [mbind bio_bind] in E; try done.
      destruct (negb (flag_on (b_flags b3) B_DONE)); cbn [mbind bio_bind] in E; try done.
      injection E as -> ->. by eexists. }
    cbn [mbind bio_bind]. destruct (readahead_ok c1 dev rablkno Hra Hinv1 Hf1) as (c2&->&Hinv2&[Hs2 Hd2 Hc2]). cbn [mbind bio_bind].
    destruct Hhold as [Hk Hbk Hak Hhk]. pose proof (proj2 (Hs2 k b Hbk) Hk) as Hk2.
    unfold biowait. rewrite (getb_ok _ _ _ Hk2). cbn [mbind bio_bind]. rewrite Hdn. cbn [negb mbind bio_bind].
    exists c2, k, b. split; [done|]. split; [done|]. pose proof Htk as [T1 T2 T4 T3]. pose proof Hhk as (_&_&Hvk)%holds_true.
    split; [split|split; [by split|split; [|done]]].
    + done.
    + intros m x Hne Hx. rewrite (Hs2 m x) by done. by apply T2.
    + intros m x Hm Hx Hv. rewrite (Hd2 m x), (T4 m x); try done. apply T2; [|done..].
      intros ->. by rewrite (T1 x Hm) in Hx.
    + intros d m Hdm. rewrite Hc2, T3 by done. done.
    + intros H1 H2. rewrite (Hd2 k b) by done. by apply Hs.
Qed.

Lemma boot_ok dk :
  exists c, binit (bhinit (zero_cache dk)) = BOk c /\ cache_inv c /\ disk c = dk /\
    (forall i b, bufs c !! i = Some b -> on b B_BUSY = false) /\
    forall d k, content c d k = dk !!! phys start d k.
Proof.
  destruct (boot_state dk) as (f&g&f'&g'&E&R&R'). eexists. split; [exact E|]. clear E.
  assert (forall i b, replicate NBUF boot_buf !! i = Some b -> b = boot_buf /\ (i < NBUF)%nat) as Hl
    by (intros i b [? ?]%lookup_replicate; done).
  assert (forall i, (i < NBUF)%nat -> Z.of_nat i ∈ boot_list (bfreelist BQ_AGE)) as Hin.
  { intros i Hi. unfold NBUF in Hi. do 10 (destruct i as [|i]; [vm_compute; set_solver|]). lia. }
  assert (forall h e, e ∈ boot_list h -> is_buf e) as Hb.
  { intros h e. unfold boot_list. case_match; [|set_solver]. unfold is_buf, NBUF. set_unfold. lia. }
  split; [|split; [reflexivity|split]].
  { exists boot_list, boot_list. constructor; cbn [bufs b_forw b_back av_forw av_back disk].
  - by rewrite length_replicate.
  - done.
  - done.
  - intros h e _. apply Hb.
  - intros h e _. apply Hb.
  - intros i Hi. exists (bfreelist BQ_AGE). split; [by left|auto].
  - intros i b [-> Hi]%Hl. split; [|done]. intros _. exists (bfreelist BQ_AGE). split; [by apply free_head_q|auto].
  - done.
  - intros i b [-> Hi]%Hl. by split.
  - by intros i b [-> Hi]%Hl.
  - by intros i j b b' [-> Hi]%Hl. }
  - by intros i b [-> Hi]%Hl.
  - intros d k. apply content_disk. by intros i b [-> Hi]%Hl.
Qed.

(** (C33) After bflush of a device the disk holds, for every block of the
    device that nobody holds, what the cache presents for it, and what it
    presents has not changed; the buffers in use by others are untouched, and
    delayed writes in them are not flushed. *)
Theorem bflush_spec c dev :
  cache_inv c ->
  exists c', bflush NRDSK start readonly dev c = BOk c' /\ cache_inv c' /\
    (forall k, used dev k -> nobody_holds c dev k -> disk c' !!! phys start dev k = content c dev k) /\
    (forall d k, used d k -> content c' d k = content c d k) /\
    (forall i b, on b B_BUSY = true -> bufs c' !! i = Some b <-> bufs c !! i = Some b).
Proof.
  intros Hinv. destruct (bflush_ok c dev Hinv) as (c'&E&Hinv'&He&Hc&Hd). exists c'. split_and!; try done.
  intros i b Hb. split.
  - intros Hi. destruct (proj2 He _ _ Hi) as (x&Hx&_&_&_&Hbe&Heq). destruct Heq as [-> _]; [congruence|done].
  - intros Hi. by destruct (evolves_busy c c' i b He Hi Hb).
Qed.

(** bread of a block in use: when a process holds its buffer the caller
    waits for that buffer, marking it wanted; otherwise, when a buffer is
    free, bread returns a buffer that only the caller holds, with the
    contents of the block, and changes neither what the cache presents of any
    block, nor a buffer somebody holds, nor its block on the disk. *)
Theorem bread_spec c dev blkno :
  cache_inv c -> used dev blkno -> has_free c ->
  (exists i b, bufs c !! i = Some b /\ holds dev blkno b = true /\ on b B_BUSY = true /\
    bread NRDSK start readonly dev blkno c = BSleep (put i (or_flags B_WANTED b) c) (Z.of_nat i)) \/
  (exists c' i b, bread NRDSK start readonly dev blkno c = BOk (c', Z.of_nat i) /\ cache_inv c' /\
    bufs c' !! i = Some b /\ on b B_BUSY = true /\ b_data b = content c dev blkno /\ taken c c' i).
Proof.
  intros Hinv Hu Hf.
  destruct (decide (Exists (fun b => holds dev blkno b && on b B_BUSY = true) (bufs c))) as [Hex|Hnex].
  - left. apply Exists_exists in Hex as (b&(i&Hi)%list_elem_of_lookup&[Hh Hb]%andb_true_iff).
    exists i, b. split_and!; try done. unfold bread. by rewrite (getblk_waits c dev blkno i b).
  - right. destruct (bread_ok c dev blkno Hinv Hu Hf) as (c'&i&b&E&Hinv'&Ht&[Hi Hb _ _]&_&_&Hd).
    { intros i b Hi Hh. destruct (on b B_BUSY) eqn:Eb; [|done]. exfalso. apply Hnex, Exists_exists. exists b.
      split; [by eapply list_elem_of_lookup_2|]. by rewrite Hh. }
    exists c', i, b. by split_and!.
Qed.

(** *** Delayed writes *)

Context (tape : Z -> bool).

(** bdwrite leaves the disk alone, unless the device is a tape. *)
Lemma bdwrite_held c i b dev blkno :
  cache_inv c -> holding c i b dev blkno ->
  exists c', bdwrite NRDSK start readonly tape (Z.of_nat i) c = BOk c' /\ cache_inv c' /\ given c c' i /\
    disk c' = (if tape (major dev) then <[phys start dev blkno := b_data b]> (disk c) else disk c) /\ content c' dev blkno = b_data b /\
    forall d k, used d k -> (d, k) <> (dev, blkno) -> content c' d k = content c d k.
Proof.
  intros Hinv Hhold. pose proof Hhold as [Hi Hb Ha Hh]. pose proof Hh as (<-&<-&Hv)%holds_true.
  unfold bdwrite. bstep. destruct (tape (major (b_dev b))) eqn:Et.
  { destruct (bawrite_held c i b _ _ Hinv Hhold) as (c'&E&H1&H2&H3). by exists c'. }
  destruct Hinv as (HL&AL&Hok). pose proof (ok_buf _ _ _ Hok _ _ Hi) as Hbo.
  bstep. set (b1 := or_flags (B_DELWRI + B_DONE) b).
  destruct (release_ok c HL AL i b1 b (disk c) (put i b1 c)) as (c'&AL'&E&Hok'&Hb'&Hd'); try done;
    try (unfold b1; bflags; done || apply Hbo).
  { destruct Hbo. unfold b1. split; bflags; try done; congruence. }
  exists c'. split; [done|]. split; [by eexists _, _|].
  assert (bufs c' !! i = Some (released b1)) as Hi' by (rewrite Hb'; apply list_lookup_insert_eq; by eapply lookup_lt_Some).
  split; [eapply given_insert; [done|done|]; by bflags|]. split; [done|]. split.
  - change (b_data b) with (b_data (released b1)). change (b_dev b) with (b_dev (released b1)).
    change (b_blkno b) with (b_blkno (released b1)). eapply content_buf; [exact Hok'|done|unfold b1; by bflags..].
  - intros d k Hu Hne. eapply content_change; [exact Hok|exact Hok'|exact Hi|done|]. rewrite Hd'. unfold shown.
    assert (holds d k (released b1) = holds d k b) as -> by (unfold holds, b1; by bflags).
    destruct (holds d k b) eqn:Eh; [|done]. apply holds_true in Eh as (<-&<-&_). done.
Qed.

(** ** The cache as a store of blocks

    Operations on whole blocks, as the callers of the cache put them
    together; [all_free] is the state between them. *)
Definition all_free (c : cache) : Prop := forall i b, bufs c !! i = Some b -> on b B_BUSY = false.

Inductive how := Now | Later | Soon.
Inductive block_op :=
  | ReadBlock (dev blkno : Z)
  | ReadAhead (dev blkno rablkno : Z)
  | WriteBlock (w : how) (dev blkno : Z) (d : list Z)
  | FlushBlock (dev blkno : Z)
  | FlushDev (dev : Z).

Definition finish (bp : Z) (c : cache) : bio (cache * option (list Z)) :=
  b ← getb c bp;
  c ← brelse bp c;
  BOk (c, Some (b_data b)).
Definition run_op (op : block_op) (c : cache) : bio (cache * option (list Z)) :=
  match op with
  | ReadBlock dev blkno => '(c, bp) ← bread NRDSK start readonly dev blkno c; finish bp c
  | ReadAhead dev blkno rablkno => '(c, bp) ← breada NRDSK start readonly dev blkno rablkno c; finish bp c
  | WriteBlock w dev blkno d =>
      '(c, bp) ← getblk NRDSK start readonly dev blkno c;
      c ← fill bp d c;
      c ← match w with
          | Now => bwrite NRDSK start readonly bp c
          | Later => bdwrite NRDSK start readonly tape bp c
          | Soon => bawrite NRDSK start readonly bp c
          end;
      BOk (c, None)
  | FlushBlock dev blkno => c ← blkflush NRDSK start readonly dev blkno c; BOk (c, None)
  | FlushDev dev => c ← bflush NRDSK start readonly dev c; BOk (c, None)
  end.
Fixpoint run_ops (ops : list block_op) (c : cache) : bio (cache * list (option (list Z))) :=
  match ops with
  | [] => BOk (c, [])
  | op :: ops => '(c, r) ← run_op op c; '(c, rs) ← run_ops ops c; BOk (c, r :: rs)
  end.
Definition op_used (op : block_op) : Prop :=
  match op with
  | ReadBlock dev blkno | WriteBlock _ dev blkno _ | FlushBlock dev blkno => used dev blkno
  | ReadAhead dev blkno rablkno => used dev blkno /\ (rablkno <> 0 -> used dev rablkno)
  | FlushDev dev => True
  end.

(** The plain store: a block is what was last written to it. *)
Definition store := Z -> Z -> list Z.
Definition store_op (op : block_op) (m : store) : store * option (list Z) :=
  match op with
  | ReadBlock dev blkno | ReadAhead dev blkno _ => (m, Some (m dev blkno))
  | WriteBlock _ dev blkno d =>
      (fun d' k' => if (d' =? dev) && (k' =? blkno) then d else m d' k', None)
  | FlushBlock _ _ | FlushDev _ => (m, None)
  end.
Fixpoint store_ops (ops : list block_op) (m : store) : store * list (option (list Z)) :=
  match ops with
  | [] => (m, [])
  | op :: ops => let '(m, r) := store_op op m in let '(m, rs) := store_ops ops m in (m, r :: rs)
  end.

(** The relation between the two. *)
Definition shows (c : cache) (m : store) : Prop := forall d k, used d k -> content c d k = m d k.
Definition idle (c : cache) : Prop := cache_inv c /\ all_free c.

Lemma idle_free c : idle c -> exists b, bufs c !! 0%nat = Some b /\ on b B_BUSY = false.
Proof. intros [Hi Ha]. destruct (inv_lookup c 0 Hi) as [b Hb]; [unfold NBUF; lia|]. eauto. Qed.
Lemma idle_has_free c : idle c -> has_free c.
Proof. intros (b&?&?)%idle_free. by exists 0%nat, b. Qed.
Lemma idle_nobody c dev blkno : idle c -> nobody_holds c dev blkno.
Proof. intros [_ Ha] i b Hi _. eauto. Qed.
Lemma same_busy_all_free c c' : all_free c -> same_busy c c' -> all_free c'.
Proof. intros Ha Hs i b Hi. destruct (on b B_BUSY) eqn:E; [|done]. apply Hs in Hi; [|done]. by rewrite (Ha i b Hi) in E. Qed.
Lemma evolves_all_free c c' : all_free c -> evolves c c' -> all_free c'.
Proof. intros Ha [_ He] i b Hi. destruct (He _ _ Hi) as (x&Hx&_&_&_&->&_). eauto. Qed.

Lemma finish_ok c c1 i b dev blkno :
  all_free c -> taken c c1 i -> cache_inv c1 -> holding c1 i b dev blkno -> in_sync c1 b ->
  exists c', finish (Z.of_nat i) c1 = BOk (c', Some (b_data b)) /\ idle c' /\
    forall d k, used d k -> content c' d k = content c d k.
Proof.
  intros Ha Ht Hinv Hh Hs. unfold finish. rewrite (getb_ok _ _ _ (hd_lookup _ _ _ _ _ Hh)). cbn [mbind bio_bind].
  destruct (brelse_held c1 i b dev blkno Hinv Hh Hs) as (c'&->&Hinv'&Hg&_&Hc). cbn [mbind bio_bind].
  exists c'. split; [done|]. split; [split; [done|]|].
  - eapply same_busy_all_free; [done|]. by eapply taken_given.
  - intros d k Hu. rewrite Hc by done. by apply Ht.
Qed.

(** The invariant is preserved and the result is that of the plain store. *)
Lemma run_op_ok op c m :
  idle c -> shows c m -> op_used op ->
  exists c', run_op op c = BOk (c', (store_op op m).2) /\ idle c' /\ shows c' (store_op op m).1.
Proof.
  intros Hid Hm Hu. pose proof Hid as [Hinv Ha]. pose proof (idle_has_free c Hid) as Hf.
  destruct op as [dev blkno|dev blkno ra|w dev blkno d|dev blkno|dev]; cbn [run_op store_op fst snd op_used] in *.
  - destruct (bread_ok c dev blkno Hinv Hu Hf (idle_nobody _ _ _ Hid)) as (c1&i&b&->&Hinv1&Ht&Hh&Hs&_&Hd).
    cbn [mbind bio_bind]. destruct (finish_ok c c1 i b dev blkno) as (c'&->&Hid'&Hc); try done.
    exists c'. rewrite Hd, (Hm dev blkno Hu). split; [done|]. split; [done|]. intros d k Hdk. rewrite Hc by done. by apply Hm.
  - destruct Hu as [Hu Hra]. destruct (idle_free c Hid) as (b0&Hb0&Hf0).
    destruct (inv_lookup c 1 Hinv) as [b1 Hb1]; [unfold NBUF; lia|].
    destruct (breada_ok c dev blkno ra 0 1 b0 b1) as (c1&i&b&->&Hinv1&Ht&Hh&Hs&_&Hd);
      try done; [by apply idle_nobody|by apply (Ha 1%nat)|].
    cbn [mbind bio_bind]. destruct (finish_ok c c1 i b dev blkno) as (c'&->&Hid'&Hc); try done.
    exists c'. rewrite Hd, (Hm dev blkno Hu). split; [done|]. split; [done|]. intros d k Hdk. rewrite Hc by done. by apply Hm.
  - destruct (getblk_ok c dev blkno Hinv Hu Hf (idle_nobody _ _ _ Hid)) as (c1&i&b&->&Hinv1&Ht&Hh&_).
    cbn [mbind bio_bind]. destruct (fill_held c1 i b dev blkno d Hinv1 Hh) as (c2&->&Hinv2&Hh2&Hb2&_&Hc2).
    cbn [mbind bio_bind].
    assert (exists c', (match w with Now => bwrite NRDSK start readonly (Z.of_nat i) c2
          | Later => bdwrite NRDSK start readonly tape (Z.of_nat i) c2
          | Soon => bawrite NRDSK start readonly (Z.of_nat i) c2 end) = BOk c' /\ cache_inv c' /\ given c2 c' i /\
        content c' dev blkno = d /\ forall d' k, used d' k -> (d', k) <> (dev, blkno) -> content c' d' k = content c2 d' k)
      as (c'&->&Hinv'&[G1 G2]&Hc&Hco).
    { destruct w.
      - destruct (bwrite_held c2 i _ dev blkno Hinv2 Hh2) as (c'&?&?&?&_&?). eauto.
      - destruct (bdwrite_held c2 i _ dev blkno Hinv2 Hh2) as (c'&?&?&?&_&?). eauto.
      - destruct (bawrite_held c2 i _ dev blkno Hinv2 Hh2) as (c'&?&?&?&_&?). eauto. }
    cbn [mbind bio_bind]. exists c'. split; [done|]. split; [split; [done|]|].
    + eapply same_busy_all_free; [exact Ha|]. eapply taken_given; [exact Ht|]. split; [done|].
      intros j x Hne. rewrite G2, Hb2 by done. by rewrite list_lookup_insert_ne.
    + intros d' k Hdk. destruct (Z.eqb_spec d' dev) as [->|Hne]; [destruct (Z.eqb_spec k blkno) as [->|Hne]; [done|]|];
        cbn [andb]; (rewrite Hco, Hc2; [rewrite (tk_content _ _ _ Ht); auto|done|congruence|done|congruence]).
  - destruct (blkflush_ok c dev blkno Hinv Hu (idle_nobody _ _ _ Hid)) as (c'&->&Hinv'&He&Hc&_). cbn [mbind bio_bind].
    exists c'. split; [done|]. split; [split; [done|by eapply evolves_all_free]|]. intros d k Hdk. rewrite Hc by done. auto.
  - destruct (bflush_ok c dev Hinv) as (c'&->&Hinv'&He&Hc&_). cbn [mbind bio_bind].
    exists c'. split; [done|]. split; [split; [done|by eapply evolves_all_free]|]. intros d k Hdk. rewrite Hc by done. auto.
Qed.

Lemma run_ops_ok ops c m :
  idle c -> shows c m -> Forall op_used ops ->
  exists c', run_ops ops c = BOk (c', (store_ops ops m).2) /\ idle c' /\ shows c' (store_ops ops m).1.
Proof.
  intros Hid Hm Hu. revert c m Hid Hm. induction Hu as [|op ops Hop Hops IH]; intros c m Hid Hm; [by exists c|].
  cbn [run_ops store_ops]. destruct (run_op_ok op c m Hid Hm Hop) as (c1&->&Hid1&Hm1). cbn [mbind bio_bind].
  destruct (store_op op m) as [m1 r1]. destruct (IH c1 m1 Hid1 Hm1) as (c2&->&Hid2&Hm2). cbn [mbind bio_bind].
  destruct (store_ops ops m1) as [m2 r2]. by exists c2.
Qed.

(** (C2) From boot, every sequence of reads, reads with read-ahead,
    synchronous, delayed and asynchronous writes and flushes of blocks in use
    runs to its end without sleeping, faulting or a panic, and returns what a
    plain store of blocks returns, starting from what is on the disks: no
    block is lost or mixed up when buffers are reused, and the lists of the
    cache stay well formed. *)
Theorem bio_refines ops dk :
  Forall op_used ops ->
  exists c c', binit (bhinit (zero_cache dk)) = BOk c /\
    run_ops ops c = BOk (c', (store_ops ops (fun d k => dk !!! phys start d k)).2) /\
    cache_inv c' /\ (forall i b, bufs c' !! i = Some b -> on b B_BUSY = false) /\
    forall d k, used d k -> content c' d k = (store_ops ops (fun d k => dk !!! phys start d k)).1 d k.
Proof.
  intros Hu. destruct (boot_ok dk) as (c&E&Hinv&_&Hfree&Hc).
  destruct (run_ops_ok ops c (fun d k => dk !!! phys start d k)) as (c'&E'&[Hinv' Ha']&Hs);
    [exact (conj Hinv Hfree)|intros d k _; apply Hc|exact Hu|].
  exists c, c'. split; [exact E|]. clear E. by split_and!.
Qed.


End Cache.

(** ** Examples: one disk, its blocks 0 to 99 in use *)

Definition ex_used (d k : Z) : Prop := d = 0 /\ 0 <= k < 100.
Lemma ex_used_phys : forall d b d' b', ex_used d b -> ex_used d' b' ->
  phys (fun _ _ => 0) d b = phys (fun _ _ => 0) d' b' -> d = d' /\ b = b'.
Proof. intros d b d' b' [-> _] [-> _]. unfold phys. simpl. intros [=]. done. Qed.
Lemma ex_used_disk : forall d b, ex_used d b -> major d < 1 /\ (fun _ : Z => false) (major d) = false.
Proof. intros d b [-> _]. done. Qed.

Definition ex_ops : list block_op :=
  ((fun k => WriteBlock Later 0 (Z.of_nat k) [Z.of_nat k]) <$> seq 1 20) ++
  [ReadBlock 0 3; WriteBlock Now 0 3 [33]; WriteBlock Soon 0 4 [44]; FlushBlock 0 7; ReadAhead 0 3 4; ReadBlock 0 4; FlushDev 0; ReadBlock 0 12].

Lemma ex_ops_used : Forall (op_used ex_used) ex_ops.
Proof.
  apply Forall_app. split.
  - apply Forall_fmap, Forall_forall. intros k Hk%elem_of_seq. split; [done|lia].
  - repeat constructor; lia.
Qed.

Lemma bio_refines_witness :
  exists c c', binit (bhinit (zero_cache ∅)) = BOk c /\
    run_ops 1 (fun _ _ => 0) (fun _ => false) (fun _ => false) ex_ops c =
      BOk (c', replicate 20 None ++ [Some [3]; None; None; None; Some [33]; Some [44]; None; Some [12]]).
Proof.
  destruct (bio_refines 1 (fun _ _ => 0) (fun _ => false) ex_used ex_used_phys ex_used_disk (fun _ => false) ex_ops ∅ ex_ops_used)
    as (c&c'&H1&H2&_).
  exists c, c'. split; [exact H1|exact H2].
Defined.

Lemma ex_boot : exists c, binit (bhinit (zero_cache ∅)) = BOk c /\ cache_inv (fun _ _ => 0) ex_used c /\ has_free c.
Proof.
  destruct (boot_ok 1 (fun _ _ => 0) (fun _ => false) ex_used ex_used_phys ex_used_disk ∅) as (c&E&Hinv&_&Hf&_). exists c. split; [exact E|]. split; [exact Hinv|].
  destruct (inv_lookup (fun _ _ => 0) ex_used c 0 Hinv) as [b Hb]; [unfold NBUF; lia|].
  exists 0%nat, b. split; [exact Hb|]. exact (Hf _ _ Hb).
Qed.
(** The block 5 written with bdwrite after boot: the disk does not have it. *)
Definition delayed : bio cache :=
  c ← binit (bhinit (zero_cache ∅));
  '(c, _) ← run_op 1 (fun _ _ => 0) (fun _ => false) (fun _ => false) (WriteBlock Later 0 5 [7]) c;
  BOk c.
Lemma delayed_ok : exists c, delayed = BOk c /\ cache_inv (fun _ _ => 0) ex_used c /\ nobody_holds c 0 5 /\
  disk c !!! phys (fun _ _ => 0) 0 5 = [] /\ content (fun _ _ => 0) c 0 5 = [7].
Proof.
  destruct (boot_ok 1 (fun _ _ => 0) (fun _ => false) ex_used ex_used_phys ex_used_disk ∅) as (c&E&Hinv&_&Hf&Hc).
  assert (match delayed with BOk c => disk c !!! phys (fun _ _ => 0) 0 5 | _ => [0] end = []) as Hd by (vm_compute; reflexivity).
  destruct (run_op_ok 1 (fun _ _ => 0) (fun _ => false) ex_used ex_used_phys ex_used_disk (fun _ => false) (WriteBlock Later 0 5 [7]) c
    (fun d k => (∅ : gmap (Z * Z) (list Z)) !!! phys (fun _ _ => 0) d k) (conj Hinv Hf)) as (c'&E'&[Hinv' Ha']&Hs);
    [intros d k _; apply Hc|split; [done|lia]|].
  assert (delayed = BOk c') as Ed by (unfold delayed; rewrite E; cbn [mbind bio_bind]; by rewrite E'). rewrite Ed in Hd.
  exists c'. split; [exact Ed|]. split; [exact Hinv'|]. split; [intros i b Hi _; by apply (Ha' i b)|]. split; [exact Hd|].
  rewrite (Hs 0 5) by (split; [done|lia]). done.
Qed.
Lemma bflush_spec_witness :
  exists c c', delayed = BOk c /\ disk c !!! phys (fun _ _ => 0) 0 5 = [] /\
    bflush 1 (fun _ _ => 0) (fun _ => false) 0 c = BOk c' /\ disk c' !!! phys (fun _ _ => 0) 0 5 = [7].
Proof.
  destruct delayed_ok as (c&E&Hinv&Hn&Hd&Hc). exists c.
  destruct (bflush_spec 1 (fun _ _ => 0) (fun _ => false) ex_used ex_used_phys ex_used_disk c 0 Hinv) as (c'&E'&_&Hb&_).
  exists c'. split; [exact E|]. split; [exact Hd|]. split; [exact E'|]. rewrite <- Hc. apply Hb; [split; [done|lia]|exact Hn].
Defined.
Lemma bread_spec_witness :
  exists c, binit (bhinit (zero_cache ∅)) = BOk c /\
    match bread 1 (fun _ _ => 0) (fun _ => false) 0 5 c with BOk _ | BSleep _ _ => True | _ => False end.
Proof.
  destruct ex_boot as (c&E&Hinv&Hf). exists c. split; [exact E|].
  destruct (bread_spec 1 (fun _ _ => 0) (fun _ => false) ex_used ex_used_phys ex_used_disk c 0 5 Hinv)
    as [(i&b&_&_&_&H)|(c'&i&b&H&_)]; [split; lia|exact Hf|rewrite H; exact I..].
Defined.

End Bcache.
