(* ===== verification/Blockio.v ===== *)
(** The interface of the buffer cache to the file system: bread, getblk,
    geteblk, brelse and the three writes, the data of a buffer, and what they promise.
    The file system code is written and proved against the classes; the cache
    of Bio.v is an instance, by the lemmas of Bcache.v. *)
From S2P Require Import Prelude Dll Bio Bcache.
Import Bio Bcache.

Module Blockio.

(** The operations; [io_error] is the test of B_ERROR and b_resid after a
    read, [io_berror] of B_ERROR alone; [io_noresid] clears b_resid, [io_age]
    sets B_AGE and [io_undelay] clears B_DELWRI in a buffer the caller holds.
    [None] stands for a caller that sleeps, panics or faults. *)
Class BlockIO (S : Type) := {
  io_bread : Z -> Z -> S -> option (S * Z);
  io_getblk : Z -> Z -> S -> option (S * Z);
  io_geteblk : S -> option (S * Z);
  io_brelse : Z -> S -> option S;
  io_write : how -> Z -> S -> option S;
  io_error : S -> Z -> bool;
  io_blkno : S -> Z -> Z;
  io_data : S -> Z -> list Z;
  io_store : Z -> list Z -> S -> option S;
  io_breada : Z -> Z -> Z -> S -> option (S * Z);
  io_berror : S -> Z -> bool;
  io_resid : S -> Z -> Z;
  io_noresid : Z -> S -> option S;
  io_age : Z -> S -> option S;
  io_undelay : Z -> S -> option S }.

(** A buffer the caller holds: for a block, clean until the caller stores into
    it, or without a block, from geteblk. *)
Inductive held_buf :=
  | Held (bp dev blk : Z) (clean : bool)
  | Scratch (bp : Z).
Definition h_bp (h : held_buf) : Z := match h with Held bp _ _ _ => bp | Scratch bp => bp end.
Definition h_at (h : held_buf) : option (Z * Z) := match h with Held _ d k _ => Some (d, k) | Scratch _ => None end.

(** Nothing but the block [(d, k)] looks different, and the buffers in [hs]
    have their data. *)
Definition io_keep {S} `{BlockIO S} (content : S -> Z -> Z -> list Z) (used : Z -> Z -> Prop)
    (except : Z * Z -> Prop) (hs : list held_buf) (s s' : S) : Prop :=
  (forall d k, used d k -> ~ except (d, k) -> content s' d k = content s d k) /\
  (forall h, h ∈ hs -> io_data s' (h_bp h) = io_data s (h_bp h)).

Class BlockIOSpec (S : Type) `{BlockIO S} (used : Z -> Z -> Prop) := {
  io_ok : S -> list held_buf -> Prop;
  io_content : S -> Z -> Z -> list Z;
  io_perm : forall s hs hs', hs ≡ₚ hs' -> io_ok s hs -> io_ok s hs';
  io_blkno_law : forall s hs bp d k cl, io_ok s (Held bp d k cl :: hs) -> io_blkno s bp = k;
  io_bread_law : forall s hs d k, io_ok s hs -> used d k -> Some (d, k) ∉ h_at <$> hs -> (length hs < NBUF)%nat ->
    exists s' bp, io_bread d k s = Some (s', bp) /\ io_ok s' (Held bp d k true :: hs) /\
      io_error s' bp = false /\ io_data s' bp = io_content s d k /\ io_keep io_content used (fun _ => False) hs s s';
  io_getblk_law : forall s hs d k, io_ok s hs -> used d k -> Some (d, k) ∉ h_at <$> hs -> (length hs < NBUF)%nat ->
    exists s' bp, io_getblk d k s = Some (s', bp) /\ io_ok s' (Held bp d k true :: hs) /\
      io_keep io_content used (fun _ => False) hs s s';
  io_geteblk_law : forall s hs, io_ok s hs -> (length hs < NBUF)%nat ->
    exists s' bp, io_geteblk s = Some (s', bp) /\ io_ok s' (Scratch bp :: hs) /\
      io_keep io_content used (fun _ => False) hs s s';
  io_brelse_scratch : forall s hs bp, io_ok s (Scratch bp :: hs) ->
    exists s', io_brelse bp s = Some s' /\ io_ok s' hs /\ io_keep io_content used (fun _ => False) hs s s';
  io_store_scratch : forall s hs bp x, io_ok s (Scratch bp :: hs) ->
    exists s', io_store bp x s = Some s' /\ io_ok s' (Scratch bp :: hs) /\ io_data s' bp = x /\
      io_keep io_content used (fun _ => False) hs s s';
  io_brelse_law : forall s hs bp d k, io_ok s (Held bp d k true :: hs) ->
    exists s', io_brelse bp s = Some s' /\ io_ok s' hs /\ io_keep io_content used (fun _ => False) hs s s';
  io_write_law : forall s hs w bp d k cl, io_ok s (Held bp d k cl :: hs) ->
    exists s', io_write w bp s = Some s' /\ io_ok s' hs /\ io_content s' d k = io_data s bp /\
      io_keep io_content used (fun p => p = (d, k)) hs s s';
  io_store_law : forall s hs bp d k cl x, io_ok s (Held bp d k cl :: hs) ->
    exists s', io_store bp x s = Some s' /\ io_ok s' (Held bp d k false :: hs) /\ io_data s' bp = x /\
      io_keep io_content used (fun p => p = (d, k)) hs s s';
  io_breada_law : forall s hs d k ra, io_ok s hs -> used d k -> (ra <> 0 -> used d ra) -> Some (d, k) ∉ h_at <$> hs ->
    (length hs + 1 < NBUF)%nat ->
    exists s' bp, io_breada d k ra s = Some (s', bp) /\ io_ok s' (Held bp d k true :: hs) /\
      io_data s' bp = io_content s d k /\ io_keep io_content used (fun _ => False) hs s s';
  io_clean_law : forall s h hs, io_ok s (h :: hs) -> io_berror s (h_bp h) = false /\ io_resid s (h_bp h) = 0;
  io_age_law : forall s h hs, io_ok s (h :: hs) ->
    exists s', io_age (h_bp h) s = Some s' /\ io_ok s' (h :: hs) /\ io_keep io_content used (fun _ => False) (h :: hs) s s' }.

(** ** The cache implements the interface *)

Section Instance.
Context (NRDSK : Z) (start : Z -> Z -> Z) (readonly : Z -> bool) (tape : Z -> bool).
Context (used : Z -> Z -> Prop).
Hypothesis used_phys : forall d b d' b', used d b -> used d' b' ->
  phys start d b = phys start d' b' -> d = d' /\ b = b'.
Hypothesis used_disk : forall d b, used d b -> major d < NRDSK /\ readonly (major d) = false.

(** [bp->b_resid = 0] *)
Definition set_b_noresid (b : buf) : buf :=
  MkBuf (b_flags b) (b_bcount b) (b_error b) (b_dev b) (b_blkno b) 0 (b_data b).
Definition done_or_none {A} (r : bio A) : option A := match r with BOk a => Some a | _ => None end.
#[export] Instance cache_io : BlockIO cache := {
  io_bread d k c := done_or_none (bread NRDSK start readonly d k c);
  io_getblk d k c := done_or_none (getblk NRDSK start readonly d k c);
  io_geteblk c := done_or_none (geteblk NRDSK start readonly c);
  io_brelse bp c := done_or_none (brelse bp c);
  io_write w bp c := done_or_none
    match w with
    | Now => bwrite NRDSK start readonly bp c
    | Later => bdwrite NRDSK start readonly tape bp c
    | Soon => bawrite NRDSK start readonly bp c
    end;
  io_error c bp := match getb c bp with
    | BOk b => flag_on (b_flags b) B_ERROR || negb (b_resid b =? 0) | _ => true end;
  io_blkno c bp := match getb c bp with BOk b => b_blkno b | _ => 0 end;
  io_data c bp := match getb c bp with BOk b => b_data b | _ => [] end;
  io_store bp x c := done_or_none (fill bp x c);
  io_breada d k ra c := done_or_none (breada NRDSK start readonly d k ra c);
  io_berror c bp := match getb c bp with BOk b => flag_on (b_flags b) B_ERROR | _ => true end;
  io_resid c bp := match getb c bp with BOk b => b_resid b | _ => 0 end;
  io_noresid bp c := done_or_none (setb bp set_b_noresid c);
  io_age bp c := done_or_none (age bp c);
  io_undelay bp c := done_or_none (setb bp (clr_flags B_DELWRI) c) }.

Definition held_ok (c : cache) (h : held_buf) : Prop :=
  match h with
  | Held bp d k cl => exists i b, bp = Z.of_nat i /\ holding c i b d k /\ (cl = true -> in_sync start c b)
  | Scratch bp => exists i b, bp = Z.of_nat i /\ scratch c i b
  end.
Record cache_io_ok (c : cache) (hs : list held_buf) : Prop := {
  ci_inv : cache_inv start used c;
  ci_nodup : NoDup (h_bp <$> hs);
  ci_busy : forall i b, bufs c !! i = Some b -> flag_on (b_flags b) B_BUSY = true -> Z.of_nat i ∈ h_bp <$> hs;
  ci_held : forall h, h ∈ hs -> held_ok c h }.

Lemma io_data_at c i b : bufs c !! i = Some b -> io_data c (Z.of_nat i) = b_data b.
Proof. intros Hi. simpl. by rewrite (getb_ok _ _ _ Hi). Qed.
(** A held buffer is in the table, busy. *)
Lemma held_buf_ok c h : held_ok c h -> exists j x, h_bp h = Z.of_nat j /\ bufs c !! j = Some x /\ flag_on (b_flags x) B_BUSY = true.
Proof. destruct h as [bp d k cl|bp]; [intros (j&x&->&[]&_)|intros (j&x&->&[])]; eauto. Qed.

Lemma ci_free c hs : cache_io_ok c hs -> (length hs < NBUF)%nat -> has_free c.
Proof.
  intros [Hinv Hnd Hb _] Hlen.
  destruct (decide (Exists (fun b => flag_on (b_flags b) B_BUSY = false) (bufs c))) as [Hex|Hn].
  { apply Exists_exists in Hex as (b&(i&Hi)%list_elem_of_lookup&?). by exists i, b. }
  exfalso. enough (NBUF <= length hs)%nat by lia.
  rewrite <- (length_fmap h_bp hs). transitivity (length (Z.of_nat <$> seq 0 NBUF)); [done|].
  apply submseteq_length, NoDup_submseteq; [apply (NoDup_fmap_2 _), NoDup_seq|].
  intros e (i&->&Hi)%list_elem_of_fmap. apply elem_of_seq in Hi.
  destruct (inv_lookup start used c i Hinv) as [b Hib]; [lia|]. apply (Hb i b Hib).
  destruct (flag_on (b_flags b) B_BUSY) eqn:E; [done|]. exfalso. apply Hn, Exists_exists. exists b.
  split; [by eapply list_elem_of_lookup_2|done].
Qed.
(** Two buffers are free. *)
Lemma ci_free2 c hs : cache_io_ok c hs -> (length hs + 1 < NBUF)%nat ->
  exists i j b1 b2, i <> j /\ bufs c !! i = Some b1 /\ flag_on (b_flags b1) B_BUSY = false /\
    bufs c !! j = Some b2 /\ flag_on (b_flags b2) B_BUSY = false.
Proof.
  intros Hok Hlen. destruct (ci_free c hs Hok) as (i&b1&Hi&Hb1); [lia|].
  assert (exists j b2, i <> j /\ bufs c !! j = Some b2 /\ flag_on (b_flags b2) B_BUSY = false) as (j&b2&?&?&?); [|by exists i, j, b1, b2].
  destruct Hok as [Hinv Hnd Hb _].
  destruct (decide (Exists (fun j => match bufs c !! j with Some b => negb (i =? j)%nat && negb (flag_on (b_flags b) B_BUSY) | None => false end = true) (seq 0 NBUF))) as [Hex|Hn].
  { apply Exists_exists in Hex as (j&_&Hj). destruct (bufs c !! j) as [b2|] eqn:E; [|done]. exists j, b2.
    apply andb_true_iff in Hj as [H1%negb_true_iff%Nat.eqb_neq H2%negb_true_iff]. done. }
  exfalso. enough (NBUF <= S (length hs))%nat by lia.
  rewrite <- (length_fmap h_bp hs). transitivity (length (Z.of_nat <$> seq 0 NBUF)); [done|].
  change (S (length (h_bp <$> hs))) with (length (Z.of_nat i :: (h_bp <$> hs))).
  apply submseteq_length, NoDup_submseteq; [apply (NoDup_fmap_2 _), NoDup_seq|].
  intros e (j&->&Hj)%list_elem_of_fmap. apply elem_of_cons. destruct (decide (j = i)) as [->|Hne]; [by left|right].
  pose proof Hj as Hj'%elem_of_seq. destruct (inv_lookup start used c j Hinv) as [b Hjb]; [lia|]. apply (Hb j b Hjb).
  destruct (flag_on (b_flags b) B_BUSY) eqn:E; [done|]. exfalso. apply Hn, Exists_exists. exists j. rewrite Hjb, E.
  by rewrite (proj2 (Nat.eqb_neq i j)) by done.
Qed.
Lemma ci_nobody c hs d k : cache_io_ok c hs -> Some (d, k) ∉ h_at <$> hs -> nobody_holds c d k.
Proof.
  intros [Hinv Hnd Hb Hh] Hn i b Hi Hholds. destruct (flag_on (b_flags b) B_BUSY) eqn:E; [|done]. exfalso. apply Hn.
  destruct (proj1 (list_elem_of_fmap _ _ _) (Hb i b Hi E)) as (h&Hbp&Hin). apply list_elem_of_fmap. exists h.
  split; [|done]. apply holds_true in Hholds as (<-&<-&Hv). specialize (Hh h Hin). destruct h as [bp d' k' cl|bp].
  - destruct Hh as (j&b'&Hj&[Hj' _ _ Hhold']&_). simpl in Hbp. rewrite Hj in Hbp. apply Nat2Z.inj in Hbp as ->.
    simplify_eq. apply holds_true in Hhold' as (E1&E2&_). simpl. by rewrite E1, E2.
  - destruct Hh as (j&b'&Hj&[Hj' _ Hv']). simpl in Hbp. rewrite Hj in Hbp. apply Nat2Z.inj in Hbp as ->.
    simplify_eq. congruence.
Qed.

(** A buffer that stays as it is stays held, when no other process writes its
    block to the disk. *)
Lemma held_keep c c' h j x :
  held_ok c h -> h_bp h = Z.of_nat j -> bufs c !! j = Some x -> bufs c' !! j = Some x ->
  (flag_on (b_flags x) B_INVAL = false -> disk c' !!! phys start (b_dev x) (b_blkno x) = disk c !!! phys start (b_dev x) (b_blkno x)) ->
  held_ok c' h /\ io_data c' (h_bp h) = io_data c (h_bp h).
Proof.
  intros Hh Hj Hx Hx' Hd. split; [|by rewrite Hj, (io_data_at _ _ _ Hx), (io_data_at _ _ _ Hx')].
  destruct h as [bp d k cl|bp]; simpl in Hj; subst bp.
  - destruct Hh as (i&b&E&[H1 H2 H3 H4]&Hs). apply Nat2Z.inj in E as <-. simplify_eq.
    exists j, b. split_and!; [done|by split|]. intros Hcl H5 H6. apply holds_true in H4 as (_&_&Hv).
    rewrite Hd by done. by apply Hs.
  - destruct Hh as (i&b&E&[H1 H2 H3]). apply Nat2Z.inj in E as <-. simplify_eq. exists j, b. split; [done|by split].
Qed.

(** The caller got one more buffer. *)
Lemma ci_take c c' hs i h :
  cache_io_ok c hs -> cache_inv start used c' -> taken start used c c' i -> h_bp h = Z.of_nat i -> held_ok c' h ->
  cache_io_ok c' (h :: hs) /\ io_keep (content start) used (fun _ => False) hs c c'.
Proof.
  intros [Hinv Hnd Hb Hh] Hinv' [T1 T2 T3 T4] Hbp Hhold.
  assert (forall h, h ∈ hs -> exists j, h_bp h = Z.of_nat j /\ j <> i /\ held_ok c' h /\
    io_data c' (h_bp h) = io_data c (h_bp h)) as Hkeep.
  { intros h' Hin. destruct (held_buf_ok c h' (Hh h' Hin)) as (j&x&Hj&Hx&Hbx). exists j.
    assert (j <> i) as Hne by (intros ->; by rewrite (T1 x Hx) in Hbx). split; [done|]. split; [done|].
    apply (held_keep c c' h' j x); try done; [by apply Hh|by apply T2|]. intros Hv. by apply (T3 j). }
  split; [split|split].
  - done.
  - rewrite fmap_cons. apply NoDup_cons. split; [|done]. intros (h'&Hbp'&Hin)%list_elem_of_fmap.
    destruct (Hkeep h' Hin) as (j&Hj&Hne&_). apply Hne. lia.
  - intros j x Hj Hx. rewrite fmap_cons. destruct (decide (j = i)) as [->|Hne]; [rewrite Hbp; apply list_elem_of_here|].
    apply list_elem_of_further. apply (Hb j x); [|done]. by apply T2.
  - intros h' [->|Hin]%elem_of_cons; [done|]. by destruct (Hkeep h' Hin) as (j&?&?&?&?).
  - intros d' k' Hu _. by apply T4.
  - intros h' Hin. by destruct (Hkeep h' Hin) as (j&?&?&?&?).
Qed.

(** The head of the list, and the others. *)
Lemma ci_others c h hs : cache_io_ok c (h :: hs) ->
  forall h', h' ∈ hs -> exists j x, h_bp h' = Z.of_nat j /\ h_bp h <> Z.of_nat j /\ bufs c !! j = Some x /\
    flag_on (b_flags x) B_BUSY = true /\ held_ok c h'.
Proof.
  intros [Hinv Hnd Hb Hh] h' Hin. assert (held_ok c h') as Hh' by (apply Hh; by apply list_elem_of_further).
  destruct (held_buf_ok c h' Hh') as (j&x&Hj&Hx&Hbx). exists j, x. split_and!; try done.
  intros E. rewrite fmap_cons in Hnd. apply NoDup_cons in Hnd as [Hni _]. apply Hni. rewrite E, <- Hj.
  by apply list_elem_of_fmap_2.
Qed.
Lemma ci_head c hs bp d k cl : cache_io_ok c (Held bp d k cl :: hs) ->
  exists i b, bp = Z.of_nat i /\ holding c i b d k /\ (cl = true -> in_sync start c b).
Proof. intros [_ _ _ Hh]. apply (Hh _ (list_elem_of_here _ _)). Qed.
Lemma ci_scratch c hs bp : cache_io_ok c (Scratch bp :: hs) -> exists i b, bp = Z.of_nat i /\ scratch c i b.
Proof. intros [_ _ _ Hh]. apply (Hh _ (list_elem_of_here _ _)). Qed.

(** No other buffer holds a block that lies where the block of [i] does. *)
Lemma block_elsewhere c i b d k j x :
  cache_inv start used c -> holding c i b d k -> bufs c !! j = Some x -> flag_on (b_flags x) B_INVAL = false -> j <> i ->
  phys start (b_dev x) (b_blkno x) <> phys start d k.
Proof.
  intros (HL&AL&Hok) [Hi _ _ (<-&<-&Hv)%holds_true] Hj Hx Hne E. apply Hne.
  destruct (used_phys (b_dev x) (b_blkno x) (b_dev b) (b_blkno b)) as [E1 E2]; [| |done|].
  - by apply (bk_used _ _ _ _ (ok_buf _ _ _ _ _ Hok _ _ Hj)).
  - by apply (bk_used _ _ _ _ (ok_buf _ _ _ _ _ Hok _ _ Hi)).
  - by apply (ok_one _ _ _ _ _ Hok j i x b).
Qed.

(** The buffers of the others, after the buffer [i] of the caller changed. *)
Definition others_kept (c c' : cache) (hs : list held_buf) : Prop :=
  forall h, h ∈ hs -> held_ok c' h /\ io_data c' (h_bp h) = io_data c (h_bp h).
Lemma ci_keep c c' h hs i :
  cache_io_ok c (h :: hs) -> h_bp h = Z.of_nat i ->
  (forall j x, j <> i -> bufs c !! j = Some x -> bufs c' !! j = Some x) ->
  (forall j x, j <> i -> bufs c !! j = Some x -> flag_on (b_flags x) B_INVAL = false ->
    disk c' !!! phys start (b_dev x) (b_blkno x) = disk c !!! phys start (b_dev x) (b_blkno x)) ->
  others_kept c c' hs.
Proof.
  intros Hok Hi Hb Hd h' Hin. destruct (ci_others c h hs Hok h' Hin) as (j&x&Hj&Hne&Hx&_&Hh').
  assert (j <> i) by (intros ->; congruence). apply (held_keep c c' h' j x); eauto.
Qed.
Lemma ci_give c c' h hs i :
  cache_io_ok c (h :: hs) -> h_bp h = Z.of_nat i -> cache_inv start used c' -> given c c' i -> others_kept c c' hs ->
  cache_io_ok c' hs.
Proof.
  intros [Hinv Hnd Hb _] Hi Hinv' [G1 G2] Hall. split; [done| | |by intros h' Hin; apply Hall].
  - rewrite fmap_cons in Hnd. by apply NoDup_cons in Hnd as [_ ?].
  - intros j x Hj Hx. assert (j <> i) as Hne by (intros ->; by rewrite (G1 x Hj) in Hx).
    apply G2 in Hj; [|done]. pose proof (Hb j x Hj Hx) as Hin. rewrite fmap_cons in Hin.
    apply elem_of_cons in Hin as [E|?]; [|done]. lia.
Qed.
Lemma ci_fill c c' h h' hs i b :
  cache_io_ok c (h :: hs) -> h_bp h = Z.of_nat i -> h_bp h' = Z.of_nat i -> cache_inv start used c' ->
  bufs c' = <[i := b]> (bufs c) -> held_ok c' h' -> others_kept c c' hs -> cache_io_ok c' (h' :: hs).
Proof.
  intros [Hinv Hnd Hb _] Hi Hi' Hinv' Hbc Hh' Hall. split; [done| | |].
  - rewrite fmap_cons in *. by rewrite Hi', <- Hi.
  - intros j x Hj Hx. rewrite fmap_cons, Hi'. destruct (decide (j = i)) as [->|Hne]; [apply list_elem_of_here|].
    rewrite Hbc, list_lookup_insert_ne in Hj by done. rewrite <- Hi, <- fmap_cons. by apply (Hb j x).
  - intros h0 [->|Hin]%elem_of_cons; [done|by apply Hall].
Qed.

(** The three ways to write a block. *)
Lemma cache_write_ok w c i b d k :
  cache_inv start used c -> holding c i b d k ->
  exists c', io_write w (Z.of_nat i) c = Some c' /\ cache_inv start used c' /\ given c c' i /\
    (forall p, p <> phys start d k -> disk c' !!! p = disk c !!! p) /\ content start c' d k = b_data b /\
    forall d' k', used d' k' -> (d', k') <> (d, k) -> content start c' d' k' = content start c d' k'.
Proof.
  intros Hinv Hh. destruct w; cbn [io_write cache_io].
  - destruct (bwrite_held NRDSK start readonly used used_phys used_disk c i b d k Hinv Hh) as (c'&->&?&?&Hd&?&?).
    exists c'. split_and!; try done. intros p Hp. by rewrite Hd, lookup_total_insert_ne.
  - destruct (bdwrite_held NRDSK start readonly used used_phys used_disk tape c i b d k Hinv Hh) as (c'&->&?&?&Hd&?&?).
    exists c'. split_and!; try done. intros p Hp. rewrite Hd. case_match; [|done]. by rewrite lookup_total_insert_ne.
  - destruct (bawrite_held NRDSK start readonly used used_phys used_disk c i b d k Hinv Hh) as (c'&->&?&?&Hd&?&?).
    exists c'. split_and!; try done. intros p Hp. by rewrite Hd, lookup_total_insert_ne.
Qed.

(** A buffer with B_AGE set is still held. *)
Lemma held_aged c c' h i b :
  held_ok c h -> h_bp h = Z.of_nat i -> bufs c !! i = Some b -> bufs c' !! i = Some (or_flags B_AGE b) -> disk c' = disk c ->
  held_ok c' h.
Proof.
  intros Hh Hi Hb Hi' Hd. destruct h as [bp d k cl|bp]; simpl in Hi; subst bp.
  - destruct Hh as (j&x&E&Hx&Hs). apply Nat2Z.inj in E as <-. pose proof (hd_lookup _ _ _ _ _ Hx) as H1. rewrite Hb in H1.
    injection H1 as <-. destruct (age_holding start c c' i b d k Hx Hi' Hd) as [? ?]. exists i, (or_flags B_AGE b). auto.
  - destruct Hh as (j&x&E&Hx). apply Nat2Z.inj in E as <-. pose proof (sc_lookup _ _ _ Hx) as H1. rewrite Hb in H1.
    injection H1 as <-. exists i, (or_flags B_AGE b). split; [done|]. by eapply age_scratch.
Qed.

#[export] Instance cache_io_spec : BlockIOSpec cache used.
Proof.
  refine {| io_ok := cache_io_ok; io_content := content start |}.
  - intros c hs hs' Hp [H1 H2 H3 H4]. split; [done|by rewrite <- Hp|intros i b ? ?; rewrite <- Hp; eauto|].
    intros h Hin. apply H4. by rewrite Hp.
  - intros c hs bp d k cl Hok. destruct (ci_head _ _ _ _ _ _ Hok) as (i&b&->&[Hi _ _ Hh]&_). cbn [io_blkno cache_io].
    rewrite (getb_ok _ _ _ Hi). by apply holds_true in Hh as (_&?&_).
  - intros c hs d k Hok Hu Hn Hlen.
    destruct (bread_ok NRDSK start readonly used used_phys used_disk c d k) as (c'&i&b&E&Hinv'&Ht&Hh&Hs&_&Hd);
      [apply Hok|done|by eapply ci_free|by eapply ci_nobody|].
    destruct (ci_take _ _ _ i (Held (Z.of_nat i) d k true) Hok Hinv' Ht) as [Hok' Hk]; [done|by exists i, b|].
    exists c', (Z.of_nat i). cbn [io_bread io_error io_data cache_io]. rewrite E.
    pose proof (hd_lookup _ _ _ _ _ Hh) as Hi. rewrite (getb_ok _ _ _ Hi).
    destruct Hinv' as (HL&AL&Hc). destruct (ok_buf _ _ _ _ _ Hc _ _ Hi) as [-> -> _ _ _ _ _ _].
    split_and!; done.
  - intros c hs d k Hok Hu Hn Hlen.
    destruct (getblk_ok NRDSK start readonly used used_phys used_disk c d k) as (c'&i&b&E&Hinv'&Ht&Hh&Hs);
      [apply Hok|done|by eapply ci_free|by eapply ci_nobody|].
    destruct (ci_take _ _ _ i (Held (Z.of_nat i) d k true) Hok Hinv' Ht) as [Hok' Hk]; [done|by exists i, b|].
    exists c', (Z.of_nat i). cbn [io_getblk cache_io]. by rewrite E.
  - intros c hs Hok Hlen.
    destruct (geteblk_ok NRDSK start readonly used used_phys used_disk c) as (c'&i&b&E&Hinv'&Ht&Hs);
      [apply Hok|by eapply ci_free|].
    destruct (ci_take _ _ _ i (Scratch (Z.of_nat i)) Hok Hinv' Ht) as [Hok' Hk]; [done|by exists i, b|].
    exists c', (Z.of_nat i). cbn [io_geteblk cache_io]. by rewrite E.
  - intros c hs bp Hok. destruct (ci_scratch _ _ _ Hok) as (i&b&->&Hs).
    destruct (brelse_scratch NRDSK start readonly used used_phys used_disk c i b) as (c'&E&Hinv'&Hg&Hd&Hc); [apply Hok|done|].
    assert (others_kept c c' hs) as Hk.
    { apply (ci_keep c c' _ hs i Hok); [done|intros j x Hne Hj; by apply Hg|by rewrite Hd]. }
    exists c'. cbn [io_brelse cache_io]. rewrite E. split; [done|]. split; [by eapply ci_give|].
    split; [intros ? ? ? _; by apply Hc|by intros h Hin; apply Hk].
  - intros c hs bp x Hok. destruct (ci_scratch _ _ _ Hok) as (i&b&->&Hs).
    destruct (fill_scratch start used c i b x) as (c'&E&Hinv'&Hs'&Hb'&Hd&Hc); [apply Hok|done|].
    assert (others_kept c c' hs) as Hk.
    { apply (ci_keep c c' _ hs i Hok); [done| |by rewrite Hd]. intros j y Hne Hj. by rewrite Hb', list_lookup_insert_ne. }
    exists c'. cbn [io_store cache_io]. rewrite E. split; [done|].
    split; [eapply ci_fill; [exact Hok|done|done|done|exact Hb'|by exists i, (set_b_data x b)|done]|].
    split; [by rewrite (io_data_at _ _ _ (sc_lookup _ _ _ Hs'))|].
    split; [intros ? ? ? _; by apply Hc|by intros h Hin; apply Hk].
  - intros c hs bp d k Hok. destruct (ci_head _ _ _ _ _ _ Hok) as (i&b&->&Hh&Hs).
    destruct (brelse_held NRDSK start readonly used used_phys used_disk c i b d k) as (c'&E&Hinv'&Hg&Hd&Hc); [apply Hok|done|by apply Hs|].
    assert (others_kept c c' hs) as Hk.
    { apply (ci_keep c c' _ hs i Hok); [done|intros j x Hne Hj; by apply Hg|by rewrite Hd]. }
    exists c'. cbn [io_brelse cache_io]. rewrite E. split; [done|]. split; [by eapply ci_give|].
    split; [intros ? ? ? _; by apply Hc|by intros h Hin; apply Hk].
  - intros c hs w bp d k cl Hok. destruct (ci_head _ _ _ _ _ _ Hok) as (i&b&->&Hh&_).
    rewrite (io_data_at _ _ _ (hd_lookup _ _ _ _ _ Hh)).
    destruct (cache_write_ok w c i b d k (ci_inv _ _ Hok) Hh) as (c'&E&Hinv'&Hg&Hd&Hc&Hco).
    assert (others_kept c c' hs) as Hk.
    { apply (ci_keep c c' _ hs i Hok); [done|intros j x Hne Hj; by apply Hg|]. intros j x Hne Hj Hv. apply Hd.
      eapply block_elsewhere; [apply Hok|done..]. }
    exists c'. split; [done|]. split; [by eapply ci_give|]. split; [done|]. split; [done|by intros h Hin; apply Hk].
  - intros c hs bp d k cl x Hok. destruct (ci_head _ _ _ _ _ _ Hok) as (i&b&->&Hh&_).
    destruct (fill_held start used c i b d k x) as (c'&E&Hinv'&Hh'&Hb'&Hd&Hc); [apply Hok|done|].
    assert (others_kept c c' hs) as Hk.
    { apply (ci_keep c c' _ hs i Hok); [done| |by rewrite Hd]. intros j y Hne Hj. by rewrite Hb', list_lookup_insert_ne. }
    exists c'. cbn [io_store cache_io]. rewrite E. split; [done|].
    split; [eapply ci_fill; [exact Hok|done|done|done|exact Hb'|by exists i, (set_b_data x b)|done]|].
    split; [by rewrite (io_data_at _ _ _ (hd_lookup _ _ _ _ _ Hh'))|].
    split; [intros d' k' Hu Hne; by apply Hc|by intros h Hin; apply Hk].
  - intros c hs d k ra Hok Hu Hra Hn Hlen. destruct (ci_free2 c hs Hok Hlen) as (i1&i2&b1&b2&Hne&H1&H2&H3&H4).
    destruct (breada_ok NRDSK start readonly used used_phys used_disk c d k ra i1 i2 b1 b2) as (c'&i&b&E&Hinv'&Ht&Hh&Hs&_&Hd);
      try done; [apply Hok|by eapply ci_nobody|].
    destruct (ci_take _ _ _ i (Held (Z.of_nat i) d k true) Hok Hinv' Ht) as [Hok' Hk]; [done|by exists i, b|].
    exists c', (Z.of_nat i). cbn [io_breada cache_io]. rewrite E. split; [done|]. split; [done|]. split; [|done].
    by rewrite (io_data_at _ _ _ (hd_lookup _ _ _ _ _ Hh)).
  - intros c h hs Hok. destruct (held_buf_ok c h) as (j&x&Hj&Hx&_); [apply Hok, list_elem_of_here|]. rewrite Hj.
    cbn [io_berror io_resid cache_io]. rewrite (getb_ok _ _ _ Hx). destruct (ci_inv _ _ Hok) as (HL&AL&Hc).
    by destruct (ok_buf _ _ _ _ _ Hc _ _ Hx) as [-> -> _ _ _ _ _ _].
  - intros c h hs Hok. pose proof (ci_held _ _ Hok h (list_elem_of_here _ _)) as Hh.
    destruct (held_buf_ok c h Hh) as (i&b&Hi&Hb&Hbusy).
    destruct (age_ok start used c i b (ci_inv _ _ Hok) Hb Hbusy) as (c'&E&Hinv'&Hb'&Hd&Hi'&Hc).
    assert (others_kept c c' hs) as Hk.
    { apply (ci_keep c c' _ hs i Hok); [done| |by rewrite Hd]. intros j y Hne Hj. by rewrite Hb', list_lookup_insert_ne. }
    assert (held_ok c' h) as Hh' by (by eapply held_aged).
    exists c'. cbn [io_age cache_io]. rewrite Hi, E. split; [done|].
    split; [eapply ci_fill; [exact Hok|done|done|done|exact Hb'|done|done]|].
    split; [intros ? ? ? _; by apply Hc|]. intros h' [->|Hin]%elem_of_cons; [|by apply Hk].
    by rewrite Hi, (io_data_at _ _ _ Hi'), (io_data_at _ _ _ Hb).
Defined.

End Instance.
End Blockio.
