(* ===== verification/Alloc.v ===== *)
(** Allocation of disk blocks (sys/kernel/ufs_alloc.c, badblock of
    sys/kernel/ufs_subr.c, sys/include/fs.h): balloc and free on the free
    list, which starts in the super block and goes on in free blocks, and
    ifree.

    The code is written against the interface of the buffer cache of
    Blockio.v.  A block is a list of 256 words of 32 bits. *)
From S2P Require Import Prelude Bio Bcache Blockio.
Import Bcache Blockio.

Module Alloc.

(** ** Data *)

Definition NICFREE : nat := 200.
Definition NICINOD : nat := 32.
Definition SUPERB : Z := 0.
Definition MNT_ASYNC : Z := 64.
Definition B_CLRBUF : Z := 1.
Definition BLKWORDS : nat := 256.

(** [struct fs]; fs_fsmnt as its seven words. *)
Record fs := MkFs {
  fs_magic1 : Z; fs_isize : Z; fs_fsize : Z; fs_swapsz : Z;
  fs_nfree : Z; fs_free : list Z; fs_ninode : Z; fs_inode : list Z;
  fs_flock : Z; fs_fmod : Z; fs_ilock : Z; fs_ronly : Z; fs_time : Z;
  fs_tfree : Z; fs_tinode : Z; fs_fsmnt : list Z; fs_lasti : Z; fs_nbehind : Z;
  fs_flags : Z; fs_magic2 : Z }.

(** The fields the code assigns: [set_frees] the free list, [set_inodes] the
    list of free inodes. *)
Definition set_frees (n : Z) (fr : list Z) (f : fs) : fs :=
  MkFs (fs_magic1 f) (fs_isize f) (fs_fsize f) (fs_swapsz f) n fr (fs_ninode f) (fs_inode f)
    (fs_flock f) (fs_fmod f) (fs_ilock f) (fs_ronly f) (fs_time f) (fs_tfree f) (fs_tinode f) (fs_fsmnt f)
    (fs_lasti f) (fs_nbehind f) (fs_flags f) (fs_magic2 f).
Definition set_inodes (n : Z) (l : list Z) (f : fs) : fs :=
  MkFs (fs_magic1 f) (fs_isize f) (fs_fsize f) (fs_swapsz f) (fs_nfree f) (fs_free f) n l
    (fs_flock f) (fs_fmod f) (fs_ilock f) (fs_ronly f) (fs_time f) (fs_tfree f) (fs_tinode f) (fs_fsmnt f)
    (fs_lasti f) (fs_nbehind f) (fs_flags f) (fs_magic2 f).
Definition set_flock (v : Z) (f : fs) : fs :=
  MkFs (fs_magic1 f) (fs_isize f) (fs_fsize f) (fs_swapsz f) (fs_nfree f) (fs_free f) (fs_ninode f) (fs_inode f)
    v (fs_fmod f) (fs_ilock f) (fs_ronly f) (fs_time f) (fs_tfree f) (fs_tinode f) (fs_fsmnt f)
    (fs_lasti f) (fs_nbehind f) (fs_flags f) (fs_magic2 f).
Definition set_fmod (v : Z) (f : fs) : fs :=
  MkFs (fs_magic1 f) (fs_isize f) (fs_fsize f) (fs_swapsz f) (fs_nfree f) (fs_free f) (fs_ninode f) (fs_inode f)
    (fs_flock f) v (fs_ilock f) (fs_ronly f) (fs_time f) (fs_tfree f) (fs_tinode f) (fs_fsmnt f)
    (fs_lasti f) (fs_nbehind f) (fs_flags f) (fs_magic2 f).
Definition set_time (v : Z) (f : fs) : fs :=
  MkFs (fs_magic1 f) (fs_isize f) (fs_fsize f) (fs_swapsz f) (fs_nfree f) (fs_free f) (fs_ninode f) (fs_inode f)
    (fs_flock f) (fs_fmod f) (fs_ilock f) (fs_ronly f) v (fs_tfree f) (fs_tinode f) (fs_fsmnt f)
    (fs_lasti f) (fs_nbehind f) (fs_flags f) (fs_magic2 f).
Definition set_tfree (v : Z) (f : fs) : fs :=
  MkFs (fs_magic1 f) (fs_isize f) (fs_fsize f) (fs_swapsz f) (fs_nfree f) (fs_free f) (fs_ninode f) (fs_inode f)
    (fs_flock f) (fs_fmod f) (fs_ilock f) (fs_ronly f) (fs_time f) v (fs_tinode f) (fs_fsmnt f)
    (fs_lasti f) (fs_nbehind f) (fs_flags f) (fs_magic2 f).
Definition set_tinode (v : Z) (f : fs) : fs :=
  MkFs (fs_magic1 f) (fs_isize f) (fs_fsize f) (fs_swapsz f) (fs_nfree f) (fs_free f) (fs_ninode f) (fs_inode f)
    (fs_flock f) (fs_fmod f) (fs_ilock f) (fs_ronly f) (fs_time f) (fs_tfree f) v (fs_fsmnt f)
    (fs_lasti f) (fs_nbehind f) (fs_flags f) (fs_magic2 f).
Definition set_nbehind (v : Z) (f : fs) : fs :=
  MkFs (fs_magic1 f) (fs_isize f) (fs_fsize f) (fs_swapsz f) (fs_nfree f) (fs_free f) (fs_ninode f) (fs_inode f)
    (fs_flock f) (fs_fmod f) (fs_ilock f) (fs_ronly f) (fs_time f) (fs_tfree f) (fs_tinode f) (fs_fsmnt f)
    (fs_lasti f) v (fs_flags f) (fs_magic2 f).

(** [struct fblk] in a block, and the super block in its block: words are
    stored unsigned, and read as the type of the field. *)
Definition fblk_words (n : Z) (fr : list Z) : list Z := u32 n :: map u32 fr.
Definition df_nfree (d : list Z) : Z := s32 (nth 0 d 0).
Definition df_free (d : list Z) : list Z := map s32 (take NICFREE (drop 1 d)).
Definition fs_words (f : fs) : list Z :=
  map u32 ([fs_magic1 f; fs_isize f; fs_fsize f; fs_swapsz f; fs_nfree f] ++ fs_free f ++ [fs_ninode f] ++ fs_inode f ++
    [fs_flock f; fs_fmod f; fs_ilock f; fs_ronly f; fs_time f; fs_tfree f; fs_tinode f] ++ fs_fsmnt f ++
    [fs_lasti f; fs_nbehind f; fs_flags f; fs_magic2 f]).
(** Words written over the start of a block. *)
Definition overlay (ws d : list Z) : list Z := ws ++ drop (length ws) d.

(** [bn < fp->fs_isize || bn >= fp->fs_fsize], compared unsigned. *)
Definition badblock (f : fs) (bn : Z) : bool := (u32 bn <? fs_isize f) || (fs_fsize f <=? u32 bn).

(** What balloc comes to: the buffer of the block, no space (ENOSPC), a wait
    for fs_flock, or an I/O operation that does not return. *)
Inductive got (S : Type) : Type :=
  | Got (f : fs) (s : S) (bp : Z)
  | NoSpace (f : fs) (s : S)
  | WaitLock
  | Stuck.
Arguments Got {S} _ _ _.
Arguments NoSpace {S} _ _.
Arguments WaitLock {S}.
Arguments Stuck {S}.

Section Alloc.
Context {S : Type} `{BlockIO S}.
Implicit Types (f : fs) (s : S) (dev bno : Z).

(** The loop of balloc: [None] is nospace. *)
Fixpoint balloc_pick (fuel : nat) (f : fs) : fs * option Z :=
  match fuel with
  | O => (f, None)
  | Datatypes.S fuel =>
      if fs_nfree f <=? 0 then (f, None)
      else if Z.of_nat NICFREE <? fs_nfree f then (f, None)
      else
        let f := set_frees (fs_nfree f - 1) (fs_free f) f in
        let bno := nth (Z.to_nat (fs_nfree f)) (fs_free f) 0 in
        if bno =? 0 then (f, None)
        else if badblock f bno then balloc_pick fuel f
        else (f, Some bno)
  end.

Definition nospace f s : got S := NoSpace (set_tfree 0 (set_frees 0 (fs_free f) f)) s.
(** The block is taken: [bp = getblk(...)] to the return; b_resid, which it
    clears, is always 0 in the cache. *)
Definition balloc_take (flags : Z) dev bno f s : got S :=
  match io_getblk dev bno s with
  | None => Stuck
  | Some (s, bp) =>
      match (if flag_on flags B_CLRBUF then io_store bp (replicate BLKWORDS 0) s else Some s) with
      | None => Stuck
      | Some s => Got (set_tfree (u32 (fs_tfree f - 1)) (set_fmod 1 f)) s bp
      end
  end.
(** The next part of the list is read from the block, and the super block
    written back; [now] is time.tv_sec. *)
Definition balloc_refill (now dev bno : Z) f s : option (fs * S) :=
  let async := flag_on (fs_flags f) MNT_ASYNC in
  let f := set_flock (fs_flock f + 1) f in
  '(s, bp) ← io_bread dev bno s;
  let f := if negb (io_error s bp) then set_frees (df_nfree (io_data s bp)) (df_free (io_data s bp)) f else f in
  s ← io_brelse bp s;
  '(s, bp) ← io_getblk dev SUPERB s;
  let f := set_time now (set_fmod 0 f) in
  s ← io_store bp (overlay (fs_words f) (io_data s bp)) s;
  s ← io_write (if negb async then Now else Later) bp s;
  Some (set_flock 0 f, s).

Definition balloc (now dev flags : Z) f s : got S :=
  if negb (fs_flock f =? 0) then WaitLock
  else
    match balloc_pick (Datatypes.S NICFREE) f with
    | (f, None) => nospace f s
    | (f, Some bno) =>
        if fs_nfree f <=? 0 then
          match balloc_refill now dev bno f s with
          | None => Stuck
          | Some (f, s) => if fs_nfree f <=? 0 then nospace f s else balloc_take flags dev bno f s
          end
        else balloc_take flags dev bno f s
    end.

(** The list of the super block is moved into the freed block. *)
Definition free_spill dev bno f s : option (fs * S) :=
  let f := set_flock (fs_flock f + 1) f in
  '(s, bp) ← io_getblk dev bno s;
  s ← io_store bp (overlay (fblk_words (fs_nfree f) (fs_free f)) (io_data s bp)) s;
  let f := set_frees 0 (fs_free f) f in
  s ← io_write (if flag_on (fs_flags f) MNT_ASYNC then Later else Now) bp s;
  Some (set_flock 0 f, s).
(** [None]: the caller waits for fs_flock, or an I/O operation does not return. *)
Definition free dev bno f s : option (fs * S) :=
  if badblock f bno then Some (f, s)
  else if negb (fs_flock f =? 0) then None
  else
    let f := if fs_nfree f <=? 0 then set_frees 1 (<[0%nat := 0]> (fs_free f)) f else f in
    '(f, s) ← (if Z.of_nat NICFREE <=? fs_nfree f then free_spill dev bno f s else Some (f, s));
    let f := set_frees (fs_nfree f + 1) (<[Z.to_nat (fs_nfree f) := bno]> (fs_free f)) f in
    Some (set_fmod 1 (set_tfree (u32 (fs_tfree f + 1)) f), s).
End Alloc.

Definition ifree (ino : Z) (f : fs) : fs :=
  let f := set_tinode (u32 (fs_tinode f + 1)) f in
  if negb (fs_ilock f =? 0) then f
  else if Z.of_nat NICINOD <=? fs_ninode f then
    if ino <? fs_lasti f then set_nbehind (u32 (fs_nbehind f + 1)) f else f
  else set_fmod 1 (set_inodes (fs_ninode f + 1) (<[Z.to_nat (fs_ninode f) := ino]> (fs_inode f)) f).

(** ** The free list

    [free_list rd n fr l]: the [n] entries of [fr] and the blocks they lead to
    are the free blocks [l], in the order balloc hands them out; [rd b] is
    the contents of block [b].  Entry 0 is 0, or the block with the rest. *)
Definition entries (n : Z) (fr : list Z) : list Z := rev (take (Z.to_nat n - 1) (drop 1 fr)).
Inductive free_list (rd : Z -> list Z) : Z -> list Z -> list Z -> Prop :=
  | FL_none n fr : n <= 0 -> length fr = NICFREE -> free_list rd n fr []
  | FL_last n fr : 1 <= n <= Z.of_nat NICFREE -> length fr = NICFREE -> fr !! 0%nat = Some 0 ->
      free_list rd n fr (entries n fr)
  | FL_more n fr b l : 1 <= n <= Z.of_nat NICFREE -> length fr = NICFREE -> fr !! 0%nat = Some b -> b <> 0 ->
      1 <= df_nfree (rd b) -> free_list rd (df_nfree (rd b)) (df_free (rd b)) l ->
      free_list rd n fr (entries n fr ++ b :: l).

Lemma free_list_ext rd rd' n fr l :
  (forall b, b ∈ l -> rd' b = rd b) -> free_list rd n fr l -> free_list rd' n fr l.
Proof.
  intros He Hf. induction Hf as [n fr Hn Hl|n fr Hn Hl H0|n fr b l Hn Hl H0 Hb Hd Hf IH].
  - by apply FL_none.
  - by apply FL_last.
  - assert (rd' b = rd b) as Eb by (apply He; set_solver).
    apply FL_more; rewrite ?Eb; try done. apply IH. intros x Hx. apply He. set_solver.
Qed.

Lemma entries_one fr n : n <= 1 -> entries n fr = [].
Proof. intros. unfold entries. by replace (Z.to_nat n - 1)%nat with 0%nat by lia. Qed.
Lemma entries_succ fr n :
  1 <= n < Z.of_nat NICFREE -> length fr = NICFREE ->
  exists b, fr !! Z.to_nat n = Some b /\ entries (n + 1) fr = b :: entries n fr.
Proof.
  intros Hn Hl. destruct (lookup_lt_is_Some_2 fr (Z.to_nat n)) as [b Hb]; [lia|]. exists b. split; [done|].
  unfold entries. replace (Z.to_nat (n + 1) - 1)%nat with (S (Z.to_nat n - 1)) by lia.
  rewrite (take_S_r _ _ b); [by rewrite rev_app_distr|]. rewrite lookup_drop. rewrite <- Hb. f_equal. lia.
Qed.
Lemma entries_insert fr n b :
  1 <= n -> entries n (<[Z.to_nat n := b]> fr) = entries n fr.
Proof.
  intros Hn. unfold entries. f_equal. apply list_eq. intros i.
  destruct (decide (i < Z.to_nat n - 1)%nat).
  - rewrite !lookup_take_lt, !lookup_drop, list_lookup_insert_ne by lia. done.
  - rewrite !lookup_take_ge by lia. done.
Qed.

(** Taking the last entry, and adding one. *)
Lemma free_list_pop rd n fr l :
  free_list rd n fr l -> 2 <= n ->
  exists b l', l = b :: l' /\ fr !! Z.to_nat (n - 1) = Some b /\ free_list rd (n - 1) fr l'.
Proof.
  intros Hf Hn. destruct Hf as [n fr Hn' Hl|n fr Hn' Hl H0|n fr b l Hn' Hl H0 Hb Hd Hf]; [lia|..];
    (destruct (entries_succ fr (n - 1)) as (x&Hx&Ex); [lia|done|]); replace (n - 1 + 1) with n in Ex by lia.
  - exists x, (entries (n - 1) fr). split_and!; [done|done|]. apply FL_last; (lia || done).
  - exists x, (entries (n - 1) fr ++ b :: l). rewrite Ex. split_and!; [done|done|]. apply FL_more; (lia || done).
Qed.
Lemma free_list_push rd n fr l b :
  free_list rd n fr l -> 1 <= n < Z.of_nat NICFREE ->
  free_list rd (n + 1) (<[Z.to_nat n := b]> fr) (b :: l).
Proof.
  intros Hf Hn.
  assert (length fr = NICFREE -> entries (n + 1) (<[Z.to_nat n := b]> fr) = b :: entries n fr) as He.
  { intros Hl. destruct (entries_succ (<[Z.to_nat n := b]> fr) n) as (x&Hx&Ex); [lia|by rewrite length_insert|].
    rewrite list_lookup_insert_eq in Hx by lia. injection Hx as <-. by rewrite Ex, entries_insert by lia. }
  destruct Hf as [n fr Hn' Hl|n fr Hn' Hl H0|n fr b0 l Hn' Hl H0 Hb Hd Hf]; [lia|..].
  - rewrite <- He by done. apply FL_last; [lia|by rewrite length_insert|]. by rewrite list_lookup_insert_ne by lia.
  - change (b :: entries n fr ++ b0 :: l) with ((b :: entries n fr) ++ b0 :: l). rewrite <- He by done.
    apply FL_more; try done; [lia|by rewrite length_insert|]. by rewrite list_lookup_insert_ne by lia.
Qed.

Definition in_s32 (z : Z) : Prop := -2147483648 <= z < 2147483648.
Lemma s32_u32 z : in_s32 z -> s32 (u32 z) = z.
Proof.
  unfold in_s32, s32, u32. intros H. destruct (decide (0 <= z)).
  - rewrite (Z.mod_small z) by lia. rewrite Z.mod_small by lia. lia.
  - replace (z mod 2 ^ 32) with (z + 2 ^ 32) by (apply (Z.mod_unique_pos z (2 ^ 32) (-1)); lia).
    replace (z + 2 ^ 32 + 2 ^ 31) with (z + 2 ^ 31 + 1 * 2 ^ 32) by lia. rewrite Z.mod_add by lia.
    rewrite Z.mod_small by lia. lia.
Qed.
Lemma s32_in z : in_s32 (s32 z).
Proof. apply s32_bound. Qed.

(** What free writes into a block is what balloc reads from it. *)
Lemma fblk_roundtrip n fr d :
  in_s32 n -> Forall in_s32 fr -> length fr = NICFREE ->
  df_nfree (overlay (fblk_words n fr) d) = n /\ df_free (overlay (fblk_words n fr) d) = fr.
Proof.
  intros Hn Hfr Hl. unfold df_nfree, df_free, overlay, fblk_words. simpl nth. split; [by apply s32_u32|].
  cbn [app drop]. rewrite drop_0, take_app_length' by (by rewrite length_map). rewrite map_map.
  clear Hl. induction Hfr as [|x l Hx Hfr IH]; [done|]. simpl. by rewrite s32_u32, IH.
Qed.

(** ** balloc and free on a well-formed file system *)

Record fs_wf (f : fs) : Prop := {
  wf_len : length (fs_free f) = NICFREE;
  wf_s32 : Forall in_s32 (fs_free f);
  wf_isize : 0 < fs_isize f;
  wf_fsize : fs_fsize f < 2147483648 }.
(** A block of the data area of the file system. *)
Definition data_block (f : fs) (b : Z) : Prop := fs_isize f <= b < fs_fsize f.

Lemma data_not_bad f b : fs_wf f -> data_block f b -> badblock f b = false /\ b <> 0.
Proof.
  intros [_ _ H1 H2] [H3 H4]. unfold badblock. rewrite u32_small by lia. split; [|lia].
  apply orb_false_iff. split; [apply Z.ltb_ge|apply Z.leb_gt]; lia.
Qed.

Lemma pick_one fuel f b :
  fs_wf f -> 1 <= fs_nfree f <= Z.of_nat NICFREE -> fs_free f !! Z.to_nat (fs_nfree f - 1) = Some b -> data_block f b ->
  balloc_pick (S fuel) f = (set_frees (fs_nfree f - 1) (fs_free f) f, Some b).
Proof.
  intros Hwf Hn Hb Hd. cbn [balloc_pick]. rewrite (proj2 (Z.leb_gt _ _)), (proj2 (Z.ltb_ge _ _)) by lia.
  cbn [set_frees fs_nfree fs_free]. rewrite (nth_lookup_Some _ _ _ _ Hb).
  change (badblock (set_frees _ _ f) b) with (badblock f b).
  destruct (data_not_bad f b Hwf Hd) as [-> Hne]. by rewrite (proj2 (Z.eqb_neq _ _)).
Qed.
Lemma pick_none rd fuel f :
  fs_wf f -> free_list rd (fs_nfree f) (fs_free f) [] ->
  exists n, n <= 0 /\ balloc_pick (S fuel) f = (set_frees n (fs_free f) f, None).
Proof.
  intros Hwf Hf. cbn [balloc_pick]. destruct (Z.leb_spec (fs_nfree f) 0).
  { exists (fs_nfree f). split; [done|]. by destruct f. }
  exists 0. split; [done|]. remember [] as l eqn:El.
  destruct Hf as [n fr Hn Hl|n fr Hn Hl H0|n fr b l Hn Hl H0 Hb Hd Hf]; [lia| |by destruct (entries n fr)].
  assert (n = 1) as ->.
  { destruct (decide (n = 1)) as [|Hne]; [done|]. destruct (entries_succ fr (n - 1)) as (x&_&Ex); [lia|done|].
    replace (n - 1 + 1) with n in Ex by lia. congruence. }
  rewrite (proj2 (Z.ltb_ge _ _)) by lia. cbn [set_frees fs_nfree fs_free]. change (Z.to_nat (1 - 1)) with 0%nat.
  by rewrite (nth_lookup_Some _ _ _ _ H0).
Qed.

Section Spec.
Context {St : Type} `{BlockIO St} (used : Z -> Z -> Prop) `{!BlockIOSpec St used}.
Implicit Types (f : fs) (s : St) (hs : list held_buf).

Abbreviation keep := (io_keep io_content used).
Lemma keep_trans e1 e2 (e : Z * Z -> Prop) hs s1 s2 s3 :
  (forall p, e1 p \/ e2 p -> e p) -> keep e1 hs s1 s2 -> keep e2 hs s2 s3 -> keep e hs s1 s3.
Proof.
  intros He [C1 D1] [C2 D2]. split.
  - intros d k Hu Hn. rewrite C2, C1; auto.
  - intros h Hh. rewrite D2, D1; auto.
Qed.
Lemma keep_less e hs hs' s1 s2 : hs' ⊆ hs -> keep e hs s1 s2 -> keep e hs' s1 s2.
Proof. intros Hs [C D]. split; auto. Qed.

(** Writing a block through the cache: getblk, store, write. *)
Lemma put_block_ok w dev bno s hs (g : list Z -> list Z) :
  io_ok s hs -> used dev bno -> Some (dev, bno) ∉ h_at <$> hs -> (length hs < Bio.NBUF)%nat ->
  exists s1 bp s2 s3, io_getblk dev bno s = Some (s1, bp) /\ io_store bp (g (io_data s1 bp)) s1 = Some s2 /\
    io_write w bp s2 = Some s3 /\ io_ok s3 hs /\ io_content s3 dev bno = g (io_data s1 bp) /\
    keep (fun p => p = (dev, bno)) hs s s3.
Proof.
  intros Hok Hu Hn Hl. destruct (io_getblk_law s hs dev bno Hok Hu Hn Hl) as (s1&bp&E1&Hok1&K1).
  destruct (io_store_law s1 hs bp dev bno true (g (io_data s1 bp)) Hok1) as (s2&E2&Hok2&D2&K2).
  destruct (io_write_law s2 hs w bp dev bno false Hok2) as (s3&E3&Hok3&C3&K3).
  exists s1, bp, s2, s3. split_and!; try done; [by rewrite C3|].
  eapply keep_trans; [|exact K1|eapply keep_trans; [|exact K2|exact K3]]; by intros p [?|?].
Qed.

Lemma balloc_refill_ok now dev bno f s hs :
  io_ok s hs -> used dev bno -> used dev SUPERB -> Some (dev, bno) ∉ h_at <$> hs -> Some (dev, SUPERB) ∉ h_at <$> hs ->
  (length hs < Bio.NBUF)%nat ->
  exists s', balloc_refill now dev bno f s =
      Some (set_flock 0 (set_time now (set_fmod 0 (set_frees (df_nfree (io_content s dev bno)) (df_free (io_content s dev bno)) f))), s') /\
    io_ok s' hs /\ keep (fun p => p = (dev, SUPERB)) hs s s'.
Proof.
  intros Hok Hu Hu0 Hn Hn0 Hl. unfold balloc_refill.
  destruct (io_bread_law s hs dev bno Hok Hu Hn Hl) as (s1&bp&E1&Hok1&Er&Ed&K1). rewrite E1. cbn [mbind option_bind].
  rewrite Er, Ed. cbn [negb].
  destruct (io_brelse_law s1 hs bp dev bno Hok1) as (s2&E2&Hok2&K2). rewrite E2. cbn [mbind option_bind].
  set (f1 := set_time now (set_fmod 0 (set_frees (df_nfree (io_content s dev bno)) (df_free (io_content s dev bno))
    (set_flock (fs_flock f + 1) f)))).
  destruct (put_block_ok (if negb (flag_on (fs_flags f) MNT_ASYNC) then Now else Later) dev SUPERB s2 hs (overlay (fs_words f1)))
    as (s3&bp'&s4&s5&E3&E4&E5&Hok5&_&K5); [done|done|done|done|].
  rewrite E3. cbn [mbind option_bind]. rewrite E4. cbn [mbind option_bind]. rewrite E5. cbn [mbind option_bind].
  exists s5. split; [done|]. split; [done|].
  eapply keep_trans; [|exact K1|eapply keep_trans; [|exact K2|exact K5]]; by intros p [?|?].
Qed.

Lemma balloc_take_ok flags dev bno f s hs :
  io_ok s hs -> used dev bno -> Some (dev, bno) ∉ h_at <$> hs -> (length hs < Bio.NBUF)%nat ->
  exists s' bp cl, balloc_take flags dev bno f s = Got (set_tfree (u32 (fs_tfree f - 1)) (set_fmod 1 f)) s' bp /\
    io_ok s' (Held bp dev bno cl :: hs) /\ keep (fun p => p = (dev, bno)) hs s s' /\
    (flag_on flags B_CLRBUF = true -> io_data s' bp = replicate BLKWORDS 0).
Proof.
  intros Hok Hu Hn Hl. unfold balloc_take.
  destruct (io_getblk_law s hs dev bno Hok Hu Hn Hl) as (s1&bp&->&Hok1&K1).
  destruct (flag_on flags B_CLRBUF).
  - destruct (io_store_law s1 hs bp dev bno true (replicate BLKWORDS 0) Hok1) as (s2&->&Hok2&D2&K2).
    exists s2, bp, false. split_and!; try done. eapply keep_trans; [|exact K1|exact K2]; by intros p [?|?].
  - exists s1, bp, true. split_and!; try done. split; [intros; by apply K1; auto|apply K1].
Qed.

(** What the file system knows of its free blocks. *)
Record frees (dev : Z) f s (l : list Z) : Prop := {
  fr_wf : fs_wf f;
  fr_flock : fs_flock f = 0;
  fr_list : free_list (fun b => io_content s dev b) (fs_nfree f) (fs_free f) l;
  fr_nodup : NoDup l;
  fr_data : Forall (data_block f) l;
  fr_tfree : fs_tfree f = Z.of_nat (length l) }.

Lemma frees_length dev f s l : frees dev f s l -> 0 <= Z.of_nat (length l) < 2147483648.
Proof.
  intros [[_ _ Hi Hf] _ _ Hnd Hd _]. split; [lia|].
  assert (length l <= length (seqZ (fs_isize f) (fs_fsize f - fs_isize f)))%nat as Hle.
  { apply submseteq_length, NoDup_submseteq; [done|]. intros b Hb. rewrite Forall_forall in Hd.
    destruct (Hd b Hb). apply elem_of_seqZ. lia. }
  rewrite length_seqZ in Hle. lia.
Qed.
Lemma df_free_len d : length d = BLKWORDS -> length (df_free d) = NICFREE.
Proof. intros Hd. unfold df_free. rewrite length_map, length_take, length_drop, Hd. done. Qed.
Lemma df_free_s32 d : Forall in_s32 (df_free d).
Proof. unfold df_free. apply Forall_map, Forall_true. intros. apply s32_in. Qed.
Lemma free_list_len rd n fr l : free_list rd n fr l -> length fr = NICFREE.
Proof. by destruct 1. Qed.
Lemma free_list_range rd n fr l : free_list rd n fr l -> l <> [] -> 1 <= n <= Z.of_nat NICFREE.
Proof. by destruct 1. Qed.
Lemma free_list_first rd fr b l :
  free_list rd 1 fr (b :: l) -> fr !! 0%nat = Some b /\ 1 <= df_nfree (rd b) /\
  free_list rd (df_nfree (rd b)) (df_free (rd b)) l.
Proof.
  intros Hf. remember 1 as n eqn:En. remember (b :: l) as l0 eqn:El.
  destruct Hf as [n fr Hn' Hl|n fr Hn' Hl H0|n fr b0 l0 Hn' Hl H0 Hb Hd Hf]; [done|..];
    rewrite entries_one in El by lia; cbn [app] in El; by simplify_eq.
Qed.

Definition blocks_free (dev : Z) (hs : list held_buf) (l : list Z) : Prop :=
  forall b, b ∈ SUPERB :: l -> used dev b /\ Some (dev, b) ∉ h_at <$> hs.

Lemma keep_content dev e hs s s' b :
  keep e hs s s' -> used dev b -> ~ e (dev, b) -> io_content s' dev b = io_content s dev b.
Proof. intros [C _]. apply C. Qed.

Section Balloc.
Context (now dev flags : Z) (f : fs) (s : St) (hs : list held_buf) (b : Z) (l : list Z).
Hypothesis (Hok : io_ok s hs) (Hfr : frees dev f s (b :: l)) (Hbf : blocks_free dev hs (b :: l))
  (Hl : (length hs < Bio.NBUF)%nat).

(** What the two ways to the next block have in common. *)
Definition gave (r : got St) : Prop :=
  exists f' s' bp cl, r = Got f' s' bp /\ io_ok s' (Held bp dev b cl :: hs) /\ frees dev f' s' l /\
    keep (fun p => p = (dev, b) \/ p = (dev, SUPERB)) hs s s' /\
    (flag_on flags B_CLRBUF = true -> io_data s' bp = replicate BLKWORDS 0) /\
    fs_isize f' = fs_isize f /\ fs_fsize f' = fs_fsize f.

Lemma gave_take f1 s1 :
  io_ok s1 hs -> keep (fun p => p = (dev, SUPERB)) hs s s1 ->
  fs_wf f1 -> fs_flock f1 = 0 -> free_list (fun b => io_content s dev b) (fs_nfree f1) (fs_free f1) l ->
  fs_tfree f1 = fs_tfree f -> fs_isize f1 = fs_isize f -> fs_fsize f1 = fs_fsize f ->
  gave (balloc_take flags dev b f1 s1).
Proof.
  intros Hok1 K1 Hwf1 Hlk1 Hfl1 Ht1 Hi1 Hf1. pose proof (frees_length _ _ _ _ Hfr) as Hlen.
  destruct Hfr as [[_ _ W3 _] _ _ Hnd Hda Htf]. apply NoDup_cons in Hnd as [Hnb Hnd]. apply Forall_cons in Hda as [Hb Hda].
  destruct (Hbf b) as [Hub Hhb]; [set_solver|].
  destruct (balloc_take_ok flags dev b f1 s1 hs Hok1 Hub Hhb Hl) as (s'&bp&cl&->&Hok'&K&Hclr).
  assert (keep (fun p => p = (dev, b) \/ p = (dev, SUPERB)) hs s s') as K'
    by (eapply keep_trans; [|exact K1|exact K]; tauto).
  eexists _, s', bp, cl. split; [done|]. split; [done|]. split; [|by split_and!]. split; try done.
  - by destruct Hwf1.
  - eapply free_list_ext; [|exact Hfl1]. intros x Hx. apply (keep_content _ _ _ _ _ _ K'); [apply Hbf; set_solver|].
    rewrite Forall_forall in Hda. destruct (Hda x Hx). intros [[= ->]|[= ->]]; [done|unfold SUPERB in *; lia].
  - rewrite Forall_forall in Hda |- *. intros x Hx. destruct (Hda x Hx). split; cbn [set_tfree set_fmod fs_isize fs_fsize]; lia.
  - change (u32 (fs_tfree f1 - 1) = Z.of_nat (length l)). rewrite Ht1, Htf, u32_small; cbn [length] in *; lia.
Qed.

Lemma balloc_gave : gave (balloc now dev flags f s).
Proof.
  pose proof Hfr as [Hwf Hlk Hfl Hnd Hda Htf]. apply Forall_cons in Hda as [Hb _].
  pose proof (free_list_range _ _ _ _ Hfl ltac:(done)) as Hmax. unfold balloc. rewrite Hlk. cbn [negb Z.eqb].
  destruct (decide (2 <= fs_nfree f)) as [Hn2|Hn1].
  - destruct (free_list_pop _ _ _ _ Hfl Hn2) as (b0&l0&[= <- <-]&Hlk0&Hfl').
    rewrite (pick_one NICFREE f b Hwf) by (done || lia).
    cbn [set_frees fs_nfree]. rewrite (proj2 (Z.leb_gt _ _)) by lia.
    apply gave_take; try done; (by destruct Hwf) || by split.
  - assert (fs_nfree f = 1) as Hn1' by lia.
    rewrite Hn1' in Hfl. destruct (free_list_first _ _ _ _ Hfl) as (H0&Hdn&Hfl').
    rewrite (pick_one NICFREE f b Hwf) by (rewrite ?Hn1'; (done || lia)).
    cbn [set_frees fs_nfree]. rewrite (proj2 (Z.leb_le _ _)) by lia.
    destruct (Hbf b) as [Hub Hhb]; [set_solver|]. destruct (Hbf SUPERB) as [Hu0 Hh0]; [set_solver|].
    destruct (balloc_refill_ok now dev b (set_frees (fs_nfree f - 1) (fs_free f) f) s hs) as (s1&->&Hok1&K1); try done.
    cbn [set_flock set_time set_fmod set_frees fs_nfree]. rewrite (proj2 (Z.leb_gt _ _)) by lia.
    apply gave_take; try done. destruct Hwf. split; try done; [by apply free_list_len in Hfl'|apply df_free_s32].
Qed.
End Balloc.

Lemma balloc_ok now dev flags f s hs l :
  io_ok s hs -> frees dev f s l -> blocks_free dev hs l -> (length hs < Bio.NBUF)%nat ->
  match l with
  | [] => exists f', balloc now dev flags f s = NoSpace f' s /\ frees dev f' s [] /\
      fs_isize f' = fs_isize f /\ fs_fsize f' = fs_fsize f
  | b :: l' => gave dev flags f s hs b l' (balloc now dev flags f s)
  end.
Proof.
  intros Hok Hfr Hbf Hl. destruct l as [|b l]; [|by apply balloc_gave].
  destruct Hfr as [Hwf Hlk Hfl Hnd Hda _]. unfold balloc. rewrite Hlk. cbn [negb Z.eqb].
  destruct (pick_none _ NICFREE f Hwf Hfl) as (n&Hn&->). eexists. split; [reflexivity|].
  split; [|done]. destruct Hwf. split; try done. by apply FL_none.
Qed.

Lemma wf_frees f g :
  fs_wf f -> length (fs_free g) = NICFREE -> Forall in_s32 (fs_free g) ->
  fs_isize g = fs_isize f -> fs_fsize g = fs_fsize f -> fs_wf g.
Proof. intros [_ _ W3 W4] Hl Hs Hi Hf. split; [done|done|by rewrite Hi|by rewrite Hf]. Qed.

(** The full list of the super block goes into the freed block. *)
Lemma free_spill_ok dev bno f s hs l :
  io_ok s hs -> fs_wf f -> fs_nfree f = Z.of_nat NICFREE ->
  free_list (fun b => io_content s dev b) (fs_nfree f) (fs_free f) l ->
  data_block f bno -> (bno ∉ l) -> (forall b, b ∈ l -> used dev b) -> used dev bno -> Some (dev, bno) ∉ h_at <$> hs ->
  (length hs < Bio.NBUF)%nat ->
  exists s', free_spill dev bno f s = Some (set_flock 0 (set_frees 0 (fs_free f) f), s') /\ io_ok s' hs /\
    free_list (fun b => io_content s' dev b) 1 (<[0%nat := bno]> (fs_free f)) (bno :: l) /\
    keep (fun p => p = (dev, bno)) hs s s'.
Proof.
  intros Hok [W1 W2 W3 W4] Hn Hfl Hd Hnl Hul Hu Hh Hlen. unfold free_spill.
  destruct (put_block_ok (if flag_on (fs_flags f) MNT_ASYNC then Later else Now) dev bno s hs
    (overlay (fblk_words (fs_nfree f) (fs_free f)))) as (s1&bp&s2&s3&E1&E2&E3&Hok3&Hc&K); [done|done|done|done|].
  rewrite E1. cbn [mbind option_bind set_flock fs_nfree fs_free]. rewrite E2. cbn [mbind option_bind set_frees set_flock fs_flags].
  rewrite E3. cbn [mbind option_bind]. exists s3. split; [done|]. split; [done|]. split; [|done].
  destruct (fblk_roundtrip (fs_nfree f) (fs_free f) (io_data s1 bp)) as [R1 R2]; [rewrite Hn; done|done|done|].
  change (bno :: l) with ([] ++ bno :: l). rewrite <- (entries_one (<[0%nat := bno]> (fs_free f)) 1) by lia.
  apply FL_more; rewrite ?Hc, ?R1, ?R2.
  - done.
  - by rewrite length_insert.
  - apply list_lookup_insert_eq. rewrite W1. unfold NICFREE. lia.
  - destruct Hd. lia.
  - by rewrite Hn.
  - eapply free_list_ext; [|exact Hfl]. intros b Hb. apply (keep_content _ _ _ _ _ _ K); [by apply Hul|].
    intros [= ->]. done.
Qed.

Lemma free_ok dev bno f s hs l :
  io_ok s hs -> frees dev f s l -> (forall b, b ∈ bno :: l -> used dev b) -> Some (dev, bno) ∉ h_at <$> hs ->
  (length hs < Bio.NBUF)%nat -> data_block f bno -> (bno ∉ l) ->
  exists f' s', free dev bno f s = Some (f', s') /\ io_ok s' hs /\ frees dev f' s' (bno :: l) /\
    keep (fun p => p = (dev, bno)) hs s s' /\ fs_isize f' = fs_isize f /\ fs_fsize f' = fs_fsize f.
Proof.
  intros Hok Hfr Hul Hh Hlen Hd Hnl. pose proof (frees_length _ _ _ _ Hfr) as Hle.
  destruct Hfr as [Hwf Hlk Hfl Hnd Hda Htf].
  unfold free. rewrite (proj1 (data_not_bad f bno Hwf Hd)), Hlk. cbn [negb Z.eqb].
  set (f1 := if fs_nfree f <=? 0 then _ else f).
  assert (fs_wf f1 /\ 1 <= fs_nfree f1 <= Z.of_nat NICFREE /\
    free_list (fun b => io_content s dev b) (fs_nfree f1) (fs_free f1) l /\
    fs_tfree f1 = fs_tfree f /\ fs_flock f1 = 0 /\ fs_isize f1 = fs_isize f /\ fs_fsize f1 = fs_fsize f)
    as (Hwf1&Hn1&Hfl1&Ht1&Hlk1&Hi1&Hs1).
  { unfold f1. pose proof Hwf as [W1 W2 W3 W4]. destruct (Z.leb_spec (fs_nfree f) 0) as [Hle0|Hgt].
    - assert (l = []) as ->.
      { destruct l as [|x l]; [done|]. pose proof (free_list_range _ _ _ _ Hfl ltac:(done)). lia. }
      cbn [set_frees fs_nfree fs_free fs_tfree fs_flock fs_isize fs_fsize]. split_and!; try done.
      + eapply wf_frees; [eassumption|..]; cbn [fs_free set_frees set_flock set_tfree set_fmod]; [by rewrite length_insert|by apply Forall_insert|done|done].
      + rewrite <- (entries_one (<[0%nat := 0]> (fs_free f)) 1) by lia. apply FL_last; [done|by rewrite length_insert|].
        apply list_lookup_insert_eq. rewrite W1. unfold NICFREE. lia.
    - split_and!; try done; [lia|]. destruct Hfl; lia. }
  assert (data_block f1 bno /\ Forall (data_block f1) (bno :: l)) as [Hd1 Hda1].
  { unfold data_block in *. rewrite Hi1, Hs1. split; [done|by constructor]. }
  assert (in_s32 bno) as Hsb by (pose proof Hd as []; destruct Hwf; unfold in_s32; lia).
  clearbody f1. pose proof Hwf1 as [V1 V2 V3 V4].
  destruct (Z.leb_spec (Z.of_nat NICFREE) (fs_nfree f1)) as [Hfull|Hroom]; cbn [mbind option_bind].
  - destruct (free_spill_ok dev bno f1 s hs l) as (s'&->&Hok'&Hfl'&K); try done; [lia|set_solver|apply Hul; set_solver|].
    cbn [mbind option_bind]. eexists _, s'. split; [done|]. split; [done|]. split; [|done].
    split; try done; cbn [set_fmod set_tfree set_frees set_flock fs_free fs_tfree fs_nfree].
    + eapply wf_frees; [eassumption|..]; cbn [fs_free set_frees set_flock set_tfree set_fmod]; [by rewrite length_insert|by apply Forall_insert|done|done].
    + by constructor.
    + rewrite Ht1, Htf, u32_small; cbn [length]; lia.
  - eexists _, s. split; [done|]. split; [done|]. split; [|split; [split; intros; done|done]].
    split; try done; cbn [set_fmod set_tfree set_frees set_flock fs_free fs_tfree fs_nfree].
    + eapply wf_frees; [eassumption|..]; cbn [fs_free set_frees set_flock set_tfree set_fmod]; [by rewrite length_insert|by apply Forall_insert|done|done].
    + apply free_list_push; [done|lia].
    + by constructor.
    + rewrite Ht1, Htf, u32_small; cbn [length]; lia.
Qed.

(** ** Sequences of allocations and frees

    A block is allocated, filled and written by its user, or freed.  The free
    list behaves as a stack of blocks. *)
Inductive alloc_op :=
  | AllocBlock (now flags : Z) (w : how) (d : list Z)
  | FreeBlock (bno : Z).
Definition run_alloc (dev : Z) (op : alloc_op) f s : option (fs * St * option Z) :=
  match op with
  | AllocBlock now flags w d =>
      match balloc now dev flags f s with
      | Got f s bp =>
          let bno := io_blkno s bp in
          s ← io_store bp d s; s ← io_write w bp s; Some (f, s, Some bno)
      | NoSpace f s => Some (f, s, None)
      | _ => None
      end
  | FreeBlock bno => '(f, s) ← free dev bno f s; Some (f, s, None)
  end.
Fixpoint run_allocs (dev : Z) (ops : list alloc_op) f s : option (fs * St * list (option Z)) :=
  match ops with
  | [] => Some (f, s, [])
  | op :: ops => '(f, s, r) ← run_alloc dev op f s; '(f, s, rs) ← run_allocs dev ops f s; Some (f, s, r :: rs)
  end.

Definition stack_op (op : alloc_op) (l : list Z) : list Z * option Z :=
  match op, l with
  | AllocBlock _ _ _ _, b :: l => (l, Some b)
  | AllocBlock _ _ _ _, [] => ([], None)
  | FreeBlock b, l => (b :: l, None)
  end.
Fixpoint stack_ops (ops : list alloc_op) (l : list Z) : list Z * list (option Z) :=
  match ops with
  | [] => (l, [])
  | op :: ops => let '(l, r) := stack_op op l in let '(l, rs) := stack_ops ops l in (l, r :: rs)
  end.
(** Only a block of the data area that is not free is freed. *)
Definition legal_op f (op : alloc_op) (l : list Z) : Prop :=
  match op with AllocBlock _ _ _ _ => True | FreeBlock b => data_block f b /\ (b ∉ l) end.
Fixpoint legal f (ops : list alloc_op) (l : list Z) : Prop :=
  match ops with [] => True | op :: ops => legal_op f op l /\ legal f ops (stack_op op l).1 end.

Lemma legal_geometry f f' ops l :
  fs_isize f' = fs_isize f -> fs_fsize f' = fs_fsize f -> legal f ops l -> legal f' ops l.
Proof.
  intros Hi Hf. revert l. induction ops as [|op ops IH]; intros l; simpl; [done|]. intros [H1 H2]. split; [|auto].
  destruct op; [done|]. simpl in *. unfold data_block in *. by rewrite Hi, Hf.
Qed.

(** The blocks of the file system may be used. *)
Definition fs_used (dev : Z) f : Prop := used dev SUPERB /\ forall b, data_block f b -> used dev b.

Lemma run_alloc_ok dev op f s l :
  io_ok s [] -> frees dev f s l -> fs_used dev f -> legal_op f op l ->
  exists f' s', run_alloc dev op f s = Some (f', s', (stack_op op l).2) /\ io_ok s' [] /\
    frees dev f' s' (stack_op op l).1 /\ fs_isize f' = fs_isize f /\ fs_fsize f' = fs_fsize f /\
    forall x, used dev x -> x <> SUPERB -> (x ∉ l) -> op <> FreeBlock x -> io_content s' dev x = io_content s dev x.
Proof.
  intros Hok Hfr [Hu0 Hu] Hleg. pose proof (fr_data _ _ _ _ Hfr) as Hda. rewrite Forall_forall in Hda.
  destruct op as [now flags w d|b]; cbn [run_alloc].
  - assert (blocks_free dev [] l) as Hbf.
    { intros b [->|Hb]%elem_of_cons; (split; [auto|set_solver]). }
    pose proof (balloc_ok now dev flags f s [] l Hok Hfr Hbf) as Hb. specialize (Hb ltac:(unfold Bio.NBUF; simpl; lia)).
    destruct l as [|b l].
    + destruct Hb as (f'&->&Hfr'&Hi&Hf). by exists f', s.
    + destruct Hb as (f'&s1&bp&cl&->&Hok1&Hfr1&K1&_&Hi&Hf). rewrite (io_blkno_law _ _ _ _ _ _ Hok1).
      destruct (io_store_law s1 [] bp dev b cl d Hok1) as (s2&->&Hok2&_&K2). cbn [mbind option_bind].
      destruct (io_write_law s2 [] w bp dev b false Hok2) as (s3&->&Hok3&_&K3). cbn [mbind option_bind].
      assert (keep (fun p => p = (dev, b) \/ p = (dev, SUPERB)) [] s s3) as K.
      { eapply keep_trans; [|exact K1|eapply (keep_trans _ _ (fun p => p = (dev, b))); [|exact K2|exact K3]]; tauto. }
      exists f', s3. split; [done|]. split; [done|]. split; [|split_and!; [done|done|]].
      * destruct Hfr1 as [? ? Hfl Hnd Hd ?]. split; try done. eapply free_list_ext; [|exact Hfl].
        intros x Hx. assert (x <> b).
        { intros ->. pose proof (fr_nodup _ _ _ _ Hfr) as Hn. apply NoDup_cons in Hn as []. done. }
        rewrite (keep_content _ _ _ _ _ _ K3), (keep_content _ _ _ _ _ _ K2); try done; try congruence;
          apply Hu, Hda; set_solver.
      * intros x Hux Hx0 Hxl _. apply (keep_content _ _ _ _ _ _ K); [done|]. intros [[= ->]|[= ->]]; [set_solver|done].
  - destruct Hleg as [Hd Hnl].
    destruct (free_ok dev b f s [] l) as (f'&s'&->&Hok'&Hfr'&K&Hi&Hf); try done;
      [intros x [->|Hx]%elem_of_cons; auto|set_solver|unfold Bio.NBUF; simpl; lia|].
    cbn [mbind option_bind]. exists f', s'. split_and!; try done.
    intros x Hux Hx0 _ Hne. apply (keep_content _ _ _ _ _ _ K); [done|]. intros [= ->]. done.
Qed.

(** (C7) The free list of a file system, which lies in the super block and in
    the free blocks themselves, behaves as a stack of blocks: any sequence of
    balloc, with the block then filled and written by its user, and free of
    blocks in use hands out the blocks a stack would, reports ENOSPC exactly
    when the stack is empty, and keeps fs_tfree the number of free blocks; no
    block in use is handed out, and the contents of the blocks that are not
    allocated or freed on the way do not change. *)
Theorem alloc_refines dev ops f s l :
  io_ok s [] -> frees dev f s l -> fs_used dev f -> legal f ops l ->
  exists f' s', run_allocs dev ops f s = Some (f', s', (stack_ops ops l).2) /\ io_ok s' [] /\
    frees dev f' s' (stack_ops ops l).1 /\
    forall x, used dev x -> x <> SUPERB -> (x ∉ l) -> (FreeBlock x ∉ ops) -> io_content s' dev x = io_content s dev x.
Proof.
  revert f s l. induction ops as [|op ops IH]; intros f s l Hok Hfr Hu Hleg; [by exists f, s|].
  destruct Hleg as [Hop Hleg]. cbn [run_allocs stack_ops].
  destruct (run_alloc_ok dev op f s l Hok Hfr Hu Hop) as (f1&s1&->&Hok1&Hfr1&Hi&Hf&Hc1). cbn [mbind option_bind].
  destruct (stack_op op l) as [l1 r1] eqn:E1. cbn [fst snd] in *.
  destruct (IH f1 s1 l1) as (f2&s2&->&Hok2&Hfr2&Hc2); [done|done| |by eapply legal_geometry|].
  { unfold fs_used, data_block in *. by rewrite Hi, Hf. }
  cbn [mbind option_bind]. destruct (stack_ops ops l1) as [l2 r2]. exists f2, s2. split_and!; try done.
  intros x Hux Hx0 Hxl Hxf. rewrite Hc2, Hc1; try done; [set_solver| |set_solver].
  destruct op as [now flags w d|b]; simpl in E1; [|injection E1 as <- <-; set_solver].
  destruct l; simplify_eq; set_solver.
Qed.

End Spec.

(** A file system on the cache at boot: no block is free yet, 250 are freed
    and 251 asked for. *)
Definition ex_fs : fs :=
  MkFs 0 10 1000 0 1 (replicate NICFREE 0) 0 (replicate NICINOD 0) 0 0 0 0 0 0 0 (replicate 7 0) 0 0 0 0.
Definition ex_fs_used (d k : Z) : Prop := d = 0 /\ 0 <= k < 1000.
Lemma ex_fs_phys : forall d b d' b', ex_fs_used d b -> ex_fs_used d' b' ->
  Bio.phys (fun _ _ => 0) d b = Bio.phys (fun _ _ => 0) d' b' -> d = d' /\ b = b'.
Proof. intros d b d' b' [-> _] [-> _]. unfold Bio.phys. simpl. intros [=]. done. Qed.
Lemma ex_fs_disk : forall d b, ex_fs_used d b -> Bio.major d < 1 /\ (fun _ : Z => false) (Bio.major d) = false.
Proof. intros d b [-> _]. done. Qed.
Definition ex_io : BlockIO Bio.cache := cache_io 1 (fun _ _ => 0) (fun _ => false) (fun _ => false).
Definition ex_io_spec : @BlockIOSpec Bio.cache ex_io ex_fs_used :=
  cache_io_spec 1 (fun _ _ => 0) (fun _ => false) (fun _ => false) ex_fs_used ex_fs_phys ex_fs_disk.

Definition ex_allocs : list alloc_op :=
  ((fun k => FreeBlock (Z.of_nat k)) <$> seq 10 250) ++ replicate 251 (AllocBlock 0 B_CLRBUF Later []).

Lemma legal_frees f l n k :
  (forall b, b ∈ l -> b < Z.of_nat k) -> fs_isize f <= Z.of_nat k -> Z.of_nat (k + n) <= fs_fsize f ->
  forall ops, (forall l', legal f ops l') -> legal f (((fun k => FreeBlock (Z.of_nat k)) <$> seq k n) ++ ops) l.
Proof.
  revert k l. induction n as [|n IH]; intros k l Hl Hi Hf ops Hops; [apply Hops|]. simpl. split.
  - split; [split; lia|]. intros Hk%Hl. lia.
  - apply IH; try lia; [|done]. intros b [->|Hb]%elem_of_cons; [lia|]. specialize (Hl b Hb). lia.
Qed.
Lemma legal_allocs f n a b c d l : legal f (replicate n (AllocBlock a b c d)) l.
Proof. revert l. induction n as [|n IH]; intros l; simpl; [done|]. by split. Qed.

Lemma ex_fs_wf : fs_wf ex_fs.
Proof.
  split; [done| |done|done]. change (fs_free ex_fs) with (replicate NICFREE 0).
  apply Forall_replicate. unfold in_s32. lia.
Qed.
Lemma ex_boot_at (dk : gmap (Z * Z) (list Z)) c : Bio.binit (Bio.bhinit (zero_cache dk)) = Bio.BOk c ->
  @io_ok _ ex_io ex_fs_used ex_io_spec c [] /\
  forall k, @io_content _ ex_io ex_fs_used ex_io_spec c 0 k = dk !!! (0, k).
Proof.
  destruct (boot_ok 1 (fun _ _ => 0) (fun _ => false) ex_fs_used ex_fs_phys ex_fs_disk dk) as (c'&->&Hinv&_&Hf&Hc).
  intros [= <-]. split; [split; [exact Hinv|apply NoDup_nil_2| |]|intros k; apply Hc].
  - intros i b Hi Hb. rewrite (Hf i b Hi) in Hb. discriminate Hb.
  - intros h Hh. by apply not_elem_of_nil in Hh.
Qed.
Lemma ex_boot_on (dk : gmap (Z * Z) (list Z)) : exists c, @io_ok _ ex_io ex_fs_used ex_io_spec c [] /\
  forall k, @io_content _ ex_io ex_fs_used ex_io_spec c 0 k = dk !!! (0, k).
Proof.
  destruct (boot_ok 1 (fun _ _ => 0) (fun _ => false) ex_fs_used ex_fs_phys ex_fs_disk dk) as (c&E&_).
  exists c. by apply ex_boot_at.
Qed.
Lemma ex_boot_io : exists c, @io_ok _ ex_io ex_fs_used ex_io_spec c [].
Proof. destruct (ex_boot_on ∅) as (c&Hc&_). by exists c. Qed.

Lemma alloc_refines_witness :
  exists c f' c', @run_allocs _ ex_io 0 ex_allocs ex_fs c =
    Some (f', c', replicate 250 None ++ ((fun k => Some (Z.of_nat k)) <$> rev (seq 10 250)) ++ [None]).
Proof.
  destruct ex_boot_io as [c Hc]. exists c.
  destruct (@alloc_refines _ ex_io ex_fs_used ex_io_spec 0 ex_allocs ex_fs c []) as (f'&c'&E&_).
  - exact Hc.
  - split; [exact ex_fs_wf|done| |constructor|constructor|done].
    rewrite <- (entries_one (fs_free ex_fs) 1) by lia. apply FL_last; done.
  - split; [split; unfold SUPERB; lia|]. intros b [H1 H2]. unfold ex_fs in H1, H2. simpl in H1, H2. split; lia.
  - apply legal_frees; [intros b Hb; by apply not_elem_of_nil in Hb|simpl; lia|simpl; lia|]. intros l. apply legal_allocs.
  - exists f', c'. rewrite E. vm_compute. reflexivity.
Defined.

End Alloc.
