(* ===== verification/Bmap.v ===== *)
(** The map from the blocks of a file to the blocks of its device
    (sys/kernel/ufs_bmap.c, sys/include/inode.h): four direct addresses in
    the inode, and three that lead through one, two and three levels of
    indirect blocks.  A write allocates the missing blocks with balloc.

    The abstraction of a file is the tree of blocks under each address; the
    theorems say how bmap extends it. *)
From S2P Require Import Prelude Bio Bcache Blockio Alloc.
Import Bcache Blockio Alloc.

Module Bmap.

(** ** Data *)

Definition NADDR : Z := 7.
Definition NSHIFT : Z := 8.
Definition NMASK : Z := 255.
Definition NINDIR : Z := 256.
Definition EFBIG : Z := 27.
Definition ENOSPC : Z := 28.
Definition B_SYNC : Z := 2.
Definition IUPD : Z := 2.
Definition ICHG : Z := 64.

(** The fields of [struct inode] that bmap uses. *)
Record inode := MkInode { i_dev : Z; i_flag : Z; i_addr : list Z }.
Definition set_addr (i : Z) (nb : Z) (ip : inode) : inode :=
  MkInode (i_dev ip) (flag_set (i_flag ip) (IUPD + ICHG)) (<[Z.to_nat i := nb]> (i_addr ip)).
Definition get_addr (ip : inode) (i : Z) : Z := nth (Z.to_nat i) (i_addr ip) 0.

(** [bap[i]] and [bap[i] = nb] on the data of an indirect block. *)
Definition get_ptr (d : list Z) (i : Z) : Z := s32 (nth (Z.to_nat i) d 0).
Definition set_ptr (i nb : Z) (d : list Z) : list Z := <[Z.to_nat i := u32 nb]> d.

(** What bmap comes to: the block, the read-ahead block and u.u_error; or an
    operation that does not return. *)
Inductive mapped (S : Type) : Type :=
  | Mapped (nb ra err : Z) (ip : inode) (f : fs) (s : S)
  | MapStuck.
Arguments Mapped {S} _ _ _ _ _ _.
Arguments MapStuck {S}.

Section Bmap.
Context {S : Type} `{BlockIO S}.
Implicit Types (f : fs) (s : S) (ip : inode).

Definition then_map {A} (o : option A) (k : A -> mapped S) : mapped S :=
  match o with Some a => k a | None => MapStuck end.
(** [balloc(ip, flags)], with -1 and ENOSPC when it returns NULL; [fail] gives
    back what the caller still holds. *)
Definition with_block (now : Z) ip (flags : Z) f s (ra : Z) (fail : S -> option S) (k : fs -> S -> Z -> mapped S) : mapped S :=
  match balloc now (i_dev ip) flags f s with
  | Got f s bp => k f s bp
  | NoSpace f s => then_map (fail s) (fun s => Mapped (-1) ra ENOSPC ip f s)
  | _ => MapStuck
  end.

(** The loop through the indirect blocks: [j] from its first value to 3. *)
Fixpoint bmap_loop (fuel : nat) (now rwflg flags : Z) (j sh bn nb ra : Z) ip f s : mapped S :=
  match fuel with
  | O => MapStuck
  | Datatypes.S fuel =>
      if 3 <? j then Mapped nb ra 0 ip f s
      else
        then_map (io_bread (i_dev ip) nb s) (fun '(s, bp) =>
        if io_error s bp then then_map (io_brelse bp s) (fun s => Mapped 0 0 0 ip f s)
        else
          let sh := sh - NSHIFT in
          let i := Z.land (Z.shiftr bn sh) NMASK in
          let nb := get_ptr (io_data s bp) i in
          let ra := if i <? NINDIR - 1 then get_ptr (io_data s bp) (i + 1) else ra in
          if nb =? 0 then
            if rwflg =? Bio.B_READ then then_map (io_brelse bp s) (fun s => Mapped (-1) 0 0 ip f s)
            else
              with_block now ip (Z.lor flags B_CLRBUF) f s 0 (io_brelse bp) (fun f s nbp =>
              let nb := io_blkno s nbp in
              let async := flag_on (fs_flags f) MNT_ASYNC in
              then_map (io_write (if negb async && ((j <? 3) || flag_on flags B_SYNC) then Now else Later) nbp s) (fun s =>
              then_map (io_store bp (set_ptr i nb (io_data s bp)) s) (fun s =>
              then_map (io_write Later bp s) (fun s =>
              bmap_loop fuel now rwflg flags (j + 1) sh bn nb ra ip f s))))
          else
            then_map (io_brelse bp s) (fun s =>
            bmap_loop fuel now rwflg flags (j + 1) sh bn nb ra ip f s))
  end.

(** How many levels of indirection: [for (j = 3; j > 0; j--)]. *)
Fixpoint bmap_levels (fuel : nat) (j sh nb bn : Z) : Z * Z * Z :=
  match fuel with
  | O => (j, sh, bn)
  | Datatypes.S fuel =>
      if 0 <? j then
        let sh := sh + NSHIFT in
        let nb := Z.shiftl nb NSHIFT in
        if bn <? nb then (j, sh, bn) else bmap_levels fuel (j - 1) sh nb (bn - nb)
      else (j, sh, bn)
  end.

(** [rablock] is the global the caller finds the read-ahead block in. *)
Definition bmap (now : Z) (rablock : Z) ip (bn rwflg flags : Z) f s : mapped S :=
  let async := flag_on (fs_flags f) MNT_ASYNC in
  if bn <? 0 then Mapped 0 rablock EFBIG ip f s
  else if bn <? NADDR - 3 then
    let ahead ip := if bn <? NADDR - 4 then get_addr ip (bn + 1) else 0 in
    let nb := get_addr ip bn in
    if nb =? 0 then
      if rwflg =? Bio.B_READ then Mapped (-1) 0 0 ip f s
      else
        with_block now ip flags f s 0 Some (fun f s bp =>
        let nb := io_blkno s bp in
        then_map (io_write (if flag_on flags B_SYNC then Now else Later) bp s) (fun s =>
        let ip := set_addr bn nb ip in
        Mapped nb (ahead ip) 0 ip f s))
    else Mapped nb (ahead ip) 0 ip f s
  else
    let '(j, sh, bn) := bmap_levels 3 3 0 1 (bn - (NADDR - 3)) in
    if j =? 0 then Mapped 0 0 EFBIG ip f s
    else
      let nb := get_addr ip (NADDR - j) in
      if nb =? 0 then
        if rwflg =? Bio.B_READ then Mapped (-1) 0 0 ip f s
        else
          with_block now ip (Z.lor flags B_CLRBUF) f s 0 Some (fun f s bp =>
          let nb := io_blkno s bp in
          then_map (io_write (if async then Later else Now) bp s) (fun s =>
          bmap_loop 4 now rwflg flags j sh bn nb 0 (set_addr (NADDR - j) nb ip) f s))
      else bmap_loop 4 now rwflg flags j sh bn nb 0 ip f s.
End Bmap.

(** ** Trees of blocks

    [rd b] is the contents of block [b]; a tree of [k] levels under the block
    [nb], 0 for none. *)
Section Tree.
Implicit Types (rd : Z -> list Z) (k : nat) (nb bn : Z).

Definition ptrs (d : list Z) : list Z := map s32 d.
(** The index of the block [bn] in an indirect block with [k] levels below. *)
Definition idx k bn : nat := Z.to_nat (Z.land (Z.shiftr bn (NSHIFT * Z.of_nat k)) NMASK).

(** All blocks of the tree, its indirect blocks, and the block [bn] of it. *)
Fixpoint blocks rd k nb : list Z :=
  if nb =? 0 then [] else nb :: match k with O => [] | S k => concat (map (blocks rd k) (ptrs (rd nb))) end.
Fixpoint indirs rd k nb : list Z :=
  if nb =? 0 then [] else match k with O => [] | S k => nb :: concat (map (indirs rd k) (ptrs (rd nb))) end.
Fixpoint find_block rd k nb bn : Z :=
  if nb =? 0 then 0 else match k with O => nb | S k => find_block rd k (nth (idx k bn) (ptrs (rd nb)) 0) bn end.
(** The indirect blocks are whole. *)
Definition whole rd k nb : Prop := forall b, b ∈ indirs rd k nb -> length (rd b) = BLKWORDS.

Lemma blocks_0 rd k : blocks rd k 0 = [].
Proof. by destruct k. Qed.
Lemma blocks_O rd nb : nb <> 0 -> blocks rd 0 nb = [nb].
Proof. intros Hn. simpl. by rewrite (proj2 (Z.eqb_neq _ _) Hn). Qed.
Lemma blocks_S rd k nb : nb <> 0 -> blocks rd (S k) nb = nb :: concat (map (blocks rd k) (ptrs (rd nb))).
Proof. intros Hn. simpl. by rewrite (proj2 (Z.eqb_neq _ _) Hn). Qed.
Lemma indirs_0 rd k : indirs rd k 0 = [].
Proof. by destruct k. Qed.
Lemma indirs_S rd k nb : nb <> 0 -> indirs rd (S k) nb = nb :: concat (map (indirs rd k) (ptrs (rd nb))).
Proof. intros Hn. simpl. by rewrite (proj2 (Z.eqb_neq _ _) Hn). Qed.
Lemma find_block_0 rd k bn : find_block rd k 0 bn = 0.
Proof. by destruct k. Qed.
Lemma find_block_S rd k nb bn : nb <> 0 -> find_block rd (S k) nb bn = find_block rd k (nth (idx k bn) (ptrs (rd nb)) 0) bn.
Proof. intros Hn. simpl. by rewrite (proj2 (Z.eqb_neq _ _) Hn). Qed.

Lemma find_leaf rd nb bn : nb <> 0 -> find_block rd 0 nb bn = nb.
Proof. intros Hn. simpl. by rewrite (proj2 (Z.eqb_neq _ _) Hn). Qed.

Lemma elem_of_concat_map {A B} (g : A -> list B) (l : list A) y : y ∈ concat (map g l) <-> exists x, x ∈ l /\ y ∈ g x.
Proof.
  induction l as [|a l IH]; simpl; [set_solver|]. rewrite elem_of_app, IH. split.
  - intros [H|(x&Hx&Hy)]; [exists a; set_solver|exists x; set_solver].
  - intros (x&[->|Hx]%elem_of_cons&Hy); eauto.
Qed.

Lemma indirs_blocks rd k nb b : b ∈ indirs rd k nb -> b ∈ blocks rd k nb.
Proof.
  revert nb. induction k as [|k IH]; intros nb; destruct (decide (nb = 0)) as [->|Hn].
  - rewrite indirs_0. set_solver.
  - simpl. rewrite (proj2 (Z.eqb_neq _ _) Hn). set_solver.
  - rewrite indirs_0. set_solver.
  - rewrite indirs_S, blocks_S, !elem_of_cons, !elem_of_concat_map by done. intros [?|(x&Hx&Hb)]; eauto.
Qed.
Lemma blocks_nonzero rd k nb b : b ∈ blocks rd k nb -> b <> 0.
Proof.
  revert nb. induction k as [|k IH]; intros nb; destruct (decide (nb = 0)) as [->|Hn]; rewrite ?blocks_0; try set_solver.
  - rewrite blocks_O by done. set_solver.
  - rewrite blocks_S, elem_of_cons, elem_of_concat_map by done. intros [->|(x&Hx&Hb)]; eauto.
Qed.

(** A tree depends on the contents of its indirect blocks only. *)
Lemma tree_ext rd rd' k nb :
  (forall b, b ∈ indirs rd k nb -> rd' b = rd b) ->
  blocks rd' k nb = blocks rd k nb /\ indirs rd' k nb = indirs rd k nb /\
  forall bn, find_block rd' k nb bn = find_block rd k nb bn.
Proof.
  revert nb. induction k as [|k IH]; intros nb He; [done|].
  destruct (decide (nb = 0)) as [->|Hn]; [by rewrite !blocks_0, !indirs_0|].
  rewrite indirs_S in He by done. assert (rd' nb = rd nb) as E by (apply He; set_solver).
  assert (forall x, x ∈ ptrs (rd nb) -> blocks rd' k x = blocks rd k x /\ indirs rd' k x = indirs rd k x /\
    forall bn, find_block rd' k x bn = find_block rd k x bn) as Hx.
  { intros x Hx. apply IH. intros b Hb. apply He. apply list_elem_of_further, elem_of_concat_map. eauto. }
  rewrite !blocks_S, !indirs_S by done. rewrite E. split_and!.
  - do 2 f_equal. apply map_ext_in. intros x Hin%list_elem_of_In. by apply Hx.
  - do 2 f_equal. apply map_ext_in. intros x Hin%list_elem_of_In. by apply Hx.
  - intros bn. rewrite !find_block_S, E by done.
    destruct (decide (nth (idx k bn) (ptrs (rd nb)) 0 = 0)) as [->|Hz]; [by rewrite !find_block_0|].
    apply Hx. destruct (nth_in_or_default (idx k bn) (ptrs (rd nb)) 0) as [?|?]; [by apply list_elem_of_In|done].
Qed.

(** An empty indirect block. *)
Definition zeros : list Z := replicate BLKWORDS 0.
Lemma ptrs_zeros : ptrs zeros = zeros.
Proof. by vm_compute. Qed.
Lemma concat_zero {A} (g : Z -> list A) n : g 0 = [] -> concat (map g (replicate n 0)) = [].
Proof. intros Hg. induction n as [|n IH]; [done|]. simpl. by rewrite Hg, IH. Qed.
Lemma nth_replicate_0 i n : nth i (replicate n 0) 0 = 0.
Proof. revert i. induction n as [|n IH]; intros [|i]; simpl; auto. Qed.
Lemma tree_zeros rd k nb :
  nb <> 0 -> rd nb = zeros ->
  blocks rd k nb = [nb] /\ (forall b, b ∈ indirs rd k nb -> b = nb) /\
  forall bn, find_block rd k nb bn = match k with O => nb | S _ => 0 end.
Proof.
  intros Hn Hz. destruct k as [|k].
  - simpl. rewrite (proj2 (Z.eqb_neq _ _) Hn). set_solver.
  - rewrite blocks_S, indirs_S, Hz, ptrs_zeros by done. unfold zeros.
    rewrite !concat_zero by (apply blocks_0 || apply indirs_0). split_and!; [done|set_solver|].
    intros bn. rewrite find_block_S, Hz, ptrs_zeros by done. unfold zeros. rewrite nth_replicate_0. apply find_block_0.
Qed.

(** One pointer of an indirect block, and the others. *)
Definition sib {A} (i : nat) (ps : list A) : list A := take i ps ++ drop (S i) ps.
Lemma concat_map_at {A} (g : A -> list Z) i (ps : list A) c :
  ps !! i = Some c -> concat (map g ps) ≡ₚ g c ++ concat (map g (sib i ps)).
Proof.
  intros Hi. rewrite <- (take_drop_middle ps i c Hi) at 1. unfold sib.
  rewrite !map_app, !concat_app. simpl. rewrite !app_assoc. f_equiv. apply Permutation_app_comm.
Qed.
Lemma blocks_at rd k nb i c :
  nb <> 0 -> ptrs (rd nb) !! i = Some c ->
  blocks rd (S k) nb ≡ₚ nb :: blocks rd k c ++ concat (map (blocks rd k) (sib i (ptrs (rd nb)))).
Proof. intros Hn Hi. rewrite blocks_S by done. f_equiv. by apply concat_map_at. Qed.
Lemma indirs_at rd k nb i c :
  nb <> 0 -> ptrs (rd nb) !! i = Some c ->
  indirs rd (S k) nb ≡ₚ nb :: indirs rd k c ++ concat (map (indirs rd k) (sib i (ptrs (rd nb)))).
Proof. intros Hn Hi. rewrite indirs_S by done. f_equiv. by apply concat_map_at. Qed.
Lemma sib_insert {A} i (ps : list A) c : sib i (<[i := c]> ps) = sib i ps.
Proof. unfold sib. f_equal; [apply take_insert_ge; lia|apply drop_insert_lt; lia]. Qed.
Lemma nth_sib i j ps : j <> i -> nth j ps 0 = 0 \/ nth j ps 0 ∈ sib i ps.
Proof.
  intros Hne. destruct (ps !! j) as [x|] eqn:Hj.
  - right. rewrite (nth_lookup_Some _ _ _ _ Hj). by apply elem_of_drop_take with j.
  - left. by apply nth_overflow, lookup_ge_None.
Qed.

Lemma child_disjoint rd k nb i c : nb <> 0 -> ptrs (rd nb) !! i = Some c -> NoDup (blocks rd (S k) nb) ->
  (nb ∉ blocks rd k c) /\
  forall x b, x ∈ sib i (ptrs (rd nb)) -> b ∈ blocks rd k x -> b <> nb /\ (b ∉ blocks rd k c).
Proof.
  intros Hnb Hi. rewrite (blocks_at rd k nb i c Hnb Hi). intros [Hn Hnd]%NoDup_cons. apply NoDup_app in Hnd as (_&Hd&_).
  split; [set_solver|]. intros x b Hx Hb.
  assert (b ∈ concat (map (blocks rd k) (sib i (ptrs (rd nb))))) as Hc by (apply elem_of_concat_map; eauto).
  split; [set_solver|]. intros Hb'. by apply (Hd b).
Qed.

(** The tree below pointer [i] changes from [c] to [c'], and the trees below
    the others stay. *)
Section Child.
Context (rd rd' : Z -> list Z) (k : nat) (nb : Z) (i : nat) (c c' : Z).
Hypothesis (Hnb : nb <> 0) (Hi : ptrs (rd nb) !! i = Some c) (Hptrs : ptrs (rd' nb) = <[i := c']> (ptrs (rd nb))).
Hypothesis Hsib : forall x b, x ∈ sib i (ptrs (rd nb)) -> b ∈ indirs rd k x -> rd' b = rd b.

Lemma child_i : ptrs (rd' nb) !! i = Some c'.
Proof. rewrite Hptrs. apply list_lookup_insert_eq. by eapply lookup_lt_Some. Qed.
Lemma child_sib x : x ∈ sib i (ptrs (rd nb)) ->
  blocks rd' k x = blocks rd k x /\ indirs rd' k x = indirs rd k x /\ forall bn, find_block rd' k x bn = find_block rd k x bn.
Proof. intros Hx. apply tree_ext. eauto. Qed.
Lemma child_blocks : blocks rd' (S k) nb ++ blocks rd k c ≡ₚ blocks rd (S k) nb ++ blocks rd' k c'.
Proof.
  rewrite (blocks_at rd' k nb i c' Hnb child_i), (blocks_at rd k nb i c Hnb Hi).
  rewrite Hptrs, sib_insert.
  assert (map (blocks rd' k) (sib i (ptrs (rd nb))) = map (blocks rd k) (sib i (ptrs (rd nb)))) as ->.
  { apply map_ext_in. intros x Hx%list_elem_of_In. by apply child_sib. }
  simpl. f_equiv. set (X := concat _). rewrite <- !app_assoc, (Permutation_app_comm (blocks rd k c)).
  rewrite (Permutation_app_comm X (blocks rd' k c')), <- app_assoc. f_equiv.
Qed.
Lemma child_indirs b : b ∈ indirs rd' (S k) nb -> b = nb \/ b ∈ indirs rd' k c' \/ (b ∈ indirs rd (S k) nb /\ rd' b = rd b).
Proof.
  rewrite (indirs_at rd' k nb i c' Hnb child_i), Hptrs, sib_insert, elem_of_cons, elem_of_app.
  intros [->|[Hb|Hb]]; [by left|by right; left|]. right; right.
  apply elem_of_concat_map in Hb as (x&Hx&Hb). destruct (child_sib x Hx) as (_&E&_). rewrite E in Hb. split; [|by eapply Hsib].
  rewrite (indirs_at rd k nb i c Hnb Hi), elem_of_cons, elem_of_app, elem_of_concat_map. eauto.
Qed.
Lemma child_find_same bn : idx k bn = i -> find_block rd' (S k) nb bn = find_block rd' k c' bn.
Proof. intros E. rewrite find_block_S, E by done. f_equal. by apply nth_lookup_Some, child_i. Qed.
Lemma child_find_other bn : idx k bn <> i -> find_block rd' (S k) nb bn = find_block rd (S k) nb bn.
Proof.
  intros Hne. rewrite !find_block_S by done.
  assert (nth (idx k bn) (ptrs (rd' nb)) 0 = nth (idx k bn) (ptrs (rd nb)) 0) as ->.
  { rewrite Hptrs. rewrite !nth_lookup. by rewrite list_lookup_insert_ne. }
  destruct (nth_sib i (idx k bn) (ptrs (rd nb)) Hne) as [->|Hx]; [by rewrite !find_block_0|]. by apply child_sib.
Qed.
End Child.
End Tree.

(** ** bmap *)

Section Spec.
Context {St : Type} `{BlockIO St} (used : Z -> Z -> Prop) `{!BlockIOSpec St used} (dev : Z).
Implicit Types (f : fs) (s : St) (l : list Z) (k : nat) (nb bn : Z).
Abbreviation rd s := (io_content s dev).
Abbreviation keep := (io_keep io_content used).

(** A tree of the file system: its blocks are distinct data blocks, none of
    them free. *)
Record tree_at s f l k nb : Prop := {
  tr_ok : io_ok s [];
  tr_frees : frees used dev f s l;
  tr_used : fs_used used dev f;
  tr_nz : nb <> 0;
  tr_whole : whole (rd s) k nb;
  tr_nodup : NoDup (blocks (rd s) k nb ++ l);
  tr_data : Forall (data_block f) (blocks (rd s) k nb) }.

Lemma data_used f b : fs_used used dev f -> data_block f b -> used dev b.
Proof. intros [_ Hu]. apply Hu. Qed.
Lemma tr_data_of s f l k nb b : tree_at s f l k nb -> b ∈ blocks (rd s) k nb -> data_block f b /\ used dev b /\ b <> SUPERB /\ (b ∉ l).
Proof.
  intros T Hb. pose proof (tr_data _ _ _ _ _ T) as Hd. rewrite Forall_forall in Hd. specialize (Hd b Hb).
  pose proof (wf_isize _ (fr_wf _ _ _ _ _ (tr_frees _ _ _ _ _ T))).
  split_and!; [done|by eapply data_used; [apply T|]|destruct Hd; unfold SUPERB; lia|].
  pose proof (tr_nodup _ _ _ _ _ T) as Hn. apply NoDup_app in Hn as (_&Hn&_). by apply Hn.
Qed.
Lemma tr_free_of s f l k nb b : tree_at s f l k nb -> b ∈ l -> data_block f b /\ used dev b /\ b <> SUPERB /\ (b ∉ blocks (rd s) k nb).
Proof.
  intros T Hb. pose proof (fr_data _ _ _ _ _ (tr_frees _ _ _ _ _ T)) as Hd. rewrite Forall_forall in Hd. specialize (Hd b Hb).
  pose proof (wf_isize _ (fr_wf _ _ _ _ _ (tr_frees _ _ _ _ _ T))).
  split_and!; [done|by eapply data_used; [apply T|]|destruct Hd; unfold SUPERB; lia|].
  intros Hb'. pose proof (tr_nodup _ _ _ _ _ T) as Hn. apply NoDup_app in Hn as (_&Hn&_). by apply (Hn b).
Qed.
Lemma tr_head s f l k nb : tree_at s f l k nb -> nb ∈ blocks (rd s) k nb.
Proof. intros T. pose proof (tr_nz _ _ _ _ _ T). destruct k; [rewrite blocks_O by done|rewrite blocks_S by done]; set_solver. Qed.

(** The state changed in nothing that is seen. *)
Lemma tree_at_keep s s' f l k nb :
  tree_at s f l k nb -> io_ok s' [] -> (forall b, used dev b -> rd s' b = rd s b) ->
  tree_at s' f l k nb /\ blocks (rd s') k nb = blocks (rd s) k nb /\ indirs (rd s') k nb = indirs (rd s) k nb /\
  forall bn, find_block (rd s') k nb bn = find_block (rd s) k nb bn.
Proof.
  intros T Hok He. 
  destruct (tree_ext (rd s) (rd s') k nb) as (E1&E2&E3).
  { intros b Hb%indirs_blocks. apply He. by eapply tr_data_of. }
  split; [|done]. pose proof T as [T1 T2 T3 T4 T5 T6 T7]. split; rewrite ?E1; try done.
  - destruct T2 as [? ? Hfl ? ? ?]. split; try done. eapply free_list_ext; [|exact Hfl].
    intros b Hb. apply He. by eapply tr_free_of.
  - intros b. rewrite E2. intros Hb. rewrite He; [by apply T5|]. by eapply tr_data_of, indirs_blocks.
Qed.

(** What a call may do to the file system and to the tree below [nb]: blocks
    move from the free list into the tree, and nothing else changes. *)
Record extended s f l s' f' l' k nb : Prop := {
  ex_tree : tree_at s' f' l' k nb;
  ex_perm : blocks (rd s') k nb ++ l' ≡ₚ blocks (rd s) k nb ++ l;
  ex_isize : fs_isize f' = fs_isize f;
  ex_fsize : fs_fsize f' = fs_fsize f;
  ex_frame : forall x, used dev x -> x <> SUPERB -> (x ∉ indirs (rd s) k nb) -> (x ∉ l) -> rd s' x = rd s x }.

Definition same_path k bn bn' : Prop := forall k', (k' < k)%nat -> idx k' bn' = idx k' bn.

Lemma nbuf_2 h1 h2 : (length ([] : list held_buf) < Bio.NBUF)%nat /\ (length [h1 : held_buf] < Bio.NBUF)%nat /\
  (length [h1; h2 : held_buf] < Bio.NBUF)%nat.
Proof. unfold Bio.NBUF. simpl. lia. Qed.

(** The frees after writes to blocks that are not free. *)
Lemma frees_keep s s' f l :
  frees used dev f s l -> (forall b, b ∈ l -> rd s' b = rd s b) -> frees used dev f s' l.
Proof. intros [? ? Hfl ? ? ?] He. split; try done. by eapply free_list_ext. Qed.

Lemma get_ptr_nth d i : get_ptr d (Z.of_nat i) = nth i (ptrs d) 0.
Proof. unfold get_ptr, ptrs. rewrite Nat2Z.id. change 0 with (s32 0) at 2. by rewrite map_nth. Qed.
Lemma ptrs_set_ptr d i nb : in_s32 nb -> ptrs (set_ptr (Z.of_nat i) nb d) = <[i := nb]> (ptrs d).
Proof. intros Hs. unfold ptrs, set_ptr. rewrite Nat2Z.id, list_fmap_insert. by rewrite s32_u32. Qed.

(** The allocation of a block for a pointer of an indirect block: balloc with
    the indirect block held, the writes of both. *)
Lemma alloc_child now ip flags f s1 bp nb d i l (w : fs -> how) w' :
  io_ok s1 [Held bp dev nb true] -> i_dev ip = dev -> frees used dev f s1 l -> fs_used used dev f ->
  io_data s1 bp = d -> data_block f nb -> (nb ∉ l) ->
  match l with
  | [] => exists f', balloc now dev (Z.lor flags B_CLRBUF) f s1 = NoSpace f' s1 /\ frees used dev f' s1 [] /\
      fs_isize f' = fs_isize f /\ fs_fsize f' = fs_fsize f
  | b :: l' => exists f' s2 nbp s3 s4 s5, balloc now dev (Z.lor flags B_CLRBUF) f s1 = Got f' s2 nbp /\
      io_blkno s2 nbp = b /\ io_write (w f') nbp s2 = Some s3 /\
      io_store bp (set_ptr i b (io_data s3 bp)) s3 = Some s4 /\ io_write w' bp s4 = Some s5 /\
      io_ok s5 [] /\ frees used dev f' s5 l' /\ fs_isize f' = fs_isize f /\ fs_fsize f' = fs_fsize f /\
      rd s5 b = zeros /\ rd s5 nb = set_ptr i b d /\
      forall x, used dev x -> x <> SUPERB -> x <> b -> x <> nb -> rd s5 x = rd s1 x
  end.
Proof.
  intros Hok Hip Hfr Hus Hd Hnb Hnl. destruct (nbuf_2 (Held bp dev nb true) (Held bp dev nb true)) as (_&Hlen&_).
  pose proof (wf_isize _ (fr_wf _ _ _ _ _ Hfr)) as Hi. pose proof Hus as [Hu0 Hu].
  assert (forall x, x ∈ l -> data_block f x) as Hdl by (apply Forall_forall, Hfr).
  assert (blocks_free used dev [Held bp dev nb true] l) as Hbf.
  { intros b Hb. split.
    - apply elem_of_cons in Hb as [->|Hb]; auto.
    - simpl. rewrite list_elem_of_singleton. intros [= ->]. apply elem_of_cons in Hb as [E|Hb]; [|done].
      destruct Hnb. unfold SUPERB in E. lia. }
  pose proof (balloc_ok used now dev (Z.lor flags B_CLRBUF) f s1 [Held bp dev nb true] l Hok Hfr Hbf Hlen) as Hb.
  destruct l as [|b l]; [done|]. destruct Hb as (f'&s2&nbp&cl&E2&Hok2&Hfr2&K2&Hz&Hi2&Hf2).
  assert (b <> nb) as Hbn by (intros ->; set_solver). assert (b ∉ l) as Hbl by (pose proof (fr_nodup _ _ _ _ _ Hfr) as Hn; apply NoDup_cons in Hn as []; done).
  assert (forall x, x ∈ l -> used dev x) as Hul by (intros x Hx; apply Hu, Hdl; set_solver).
  destruct (io_write_law s2 [Held bp dev nb true] (w f') nbp dev b cl Hok2) as (s3&E3&Hok3&C3&K3).
  destruct (io_store_law s3 [] bp dev nb true (set_ptr i b (io_data s3 bp)) Hok3) as (s4&E4&Hok4&D4&K4).
  destruct (io_write_law s4 [] w' bp dev nb false Hok4) as (s5&E5&Hok5&C5&K5).
  assert (io_data s3 bp = d) as Hd3.
  { transitivity (io_data s2 bp); [apply (proj2 K3 (Held bp dev nb true)); set_solver|].
    transitivity (io_data s1 bp); [apply (proj2 K2 (Held bp dev nb true)); set_solver|done]. }
  exists f', s2, nbp, s3, s4, s5. split_and!; try done.
  - by eapply io_blkno_law.
  - eapply frees_keep; [exact Hfr2|]. intros x Hx.
    rewrite (keep_content _ _ _ _ _ _ _ K5), (keep_content _ _ _ _ _ _ _ K4), (keep_content _ _ _ _ _ _ _ K3); auto;
      intros [= ->]; set_solver.
  - assert (used dev b) as Hub by (apply Hu, Hdl; set_solver).
    rewrite (keep_content _ _ _ _ _ _ _ K5), (keep_content _ _ _ _ _ _ _ K4); try done; try congruence.
    rewrite C3. apply Hz. apply (flag_on_set_in flags B_CLRBUF B_CLRBUF); done.
  - by rewrite C5, D4, Hd3.
  - intros x Hx H1 H2 H3. rewrite (keep_content _ _ _ _ _ _ _ K5), (keep_content _ _ _ _ _ _ _ K4),
      (keep_content _ _ _ _ _ _ _ K3), (keep_content _ _ _ _ _ _ _ K2); try done; try congruence.
    intros [[= ->]|[= ->]]; done.
Qed.


(** From the tree below a pointer to the whole tree: [sm] is the state before
    the call for the child [c], which may have been allocated just before. *)
Section Lift.
Context (s sm s' : St) (f fm f' : fs) (l lm l' : list Z) (k : nat) (nb : Z) (i : nat) (c0 c : Z).
Hypothesis (T : tree_at s f l (S k) nb) (Hi : ptrs (rd s nb) !! i = Some c0).
Hypothesis (Hptrs : ptrs (rd sm nb) = <[i := c]> (ptrs (rd s nb)))
  (Hmid : forall x, used dev x -> x <> SUPERB -> x <> nb -> (x ∉ l) -> rd sm x = rd s x)
  (Hperm : blocks (rd sm) k c ++ lm ≡ₚ blocks (rd s) k c0 ++ l)
  (Hind : forall x, x ∈ indirs (rd sm) k c -> x ∈ indirs (rd s) k c0 \/ x ∈ l) (Hlm : forall x, x ∈ lm -> x ∈ l)
  (Hgeo : fs_isize fm = fs_isize f /\ fs_fsize fm = fs_fsize f)
  (E : extended sm fm lm s' f' l' k c).

Let Hnb : nb <> 0 := tr_nz _ _ _ _ _ T.
Lemma lift_nodup : NoDup (blocks (rd s) (S k) nb).
Proof. pose proof (tr_nodup _ _ _ _ _ T) as Hn. by apply NoDup_app in Hn as (?&_&_). Qed.
Lemma lift_in b : b ∈ blocks (rd s) k c0 -> b ∈ blocks (rd s) (S k) nb.
Proof. intros Hb. rewrite (blocks_at _ k nb i c0 Hnb Hi). set_solver. Qed.
Lemma lift_stays x : used dev x -> x <> SUPERB -> (x ∉ blocks (rd s) k c0) -> (x ∉ l) -> rd s' x = rd sm x.
Proof.
  intros Hu H0 Hc Hl. assert (x ∉ blocks (rd sm) k c ++ lm) as Hx by (rewrite Hperm; set_solver).
  apply (ex_frame _ _ _ _ _ _ _ _ E); [done|done| |set_solver]. intros Hin%indirs_blocks. set_solver.
Qed.
Lemma lift_ptrs : ptrs (rd s' nb) = <[i := c]> (ptrs (rd s nb)).
Proof.
  destruct (tr_data_of _ _ _ _ _ nb T (tr_head _ _ _ _ _ T)) as (_&Hu&H0&Hl). rewrite <- Hptrs. f_equal.
  apply lift_stays; [done|done| |done]. apply (child_disjoint (rd s) k nb i c0 Hnb Hi lift_nodup).
Qed.
Lemma lift_sib x b : x ∈ sib i (ptrs (rd s nb)) -> b ∈ indirs (rd s) k x -> rd s' b = rd s b.
Proof.
  intros Hx Hb%indirs_blocks. destruct (child_disjoint (rd s) k nb i c0 Hnb Hi lift_nodup) as [_ Hd].
  destruct (Hd x b Hx Hb) as [Hne Hc].
  assert (b ∈ blocks (rd s) (S k) nb) as Hin.
  { rewrite (blocks_at _ k nb i c0 Hnb Hi), elem_of_cons, elem_of_app, elem_of_concat_map. eauto. }
  destruct (tr_data_of _ _ _ _ _ b T Hin) as (_&Hu&H0&Hl). rewrite lift_stays by done. by apply Hmid.
Qed.
Lemma lift_perm : blocks (rd s') (S k) nb ++ l' ≡ₚ blocks (rd s) (S k) nb ++ l.
Proof.
  pose proof (child_blocks (rd s) (rd s') k nb i c0 c Hnb Hi lift_ptrs lift_sib) as Hc.
  pose proof (ex_perm _ _ _ _ _ _ _ _ E) as He. rewrite Hperm in He.
  apply (Permutation_app_inv_r (blocks (rd s) k c0)). rewrite <- !app_assoc.
  rewrite (Permutation_app_comm l'), (Permutation_app_comm l), !app_assoc, Hc, <- !app_assoc. by f_equiv.
Qed.
Lemma lift_extended : extended s f l s' f' l' (S k) nb.
Proof.
  pose proof E as [ET EP Ei Ef EF]. destruct Hgeo as [Hg1 Hg2].
  assert (forall b, data_block f b -> data_block f' b) as Hdb
    by (intros b [? ?]; split; lia).
  split; [split| |lia|lia|].
  - apply ET.
  - apply ET.
  - apply ET.
  - done.
  - intros b Hb.
    destruct (child_indirs (rd s) (rd s') k nb i c0 c Hnb Hi lift_ptrs lift_sib b Hb) as [->|[Hb'|[Hb' ->]]].
    + pose proof (f_equal length lift_ptrs) as Hlen. unfold ptrs in Hlen. rewrite length_insert, !length_map in Hlen.
      rewrite Hlen. apply (tr_whole _ _ _ _ _ T). rewrite indirs_S by done. set_solver.
    + by apply (tr_whole _ _ _ _ _ ET).
    + by apply (tr_whole _ _ _ _ _ T).
  - rewrite lift_perm. apply T.
  - apply Forall_forall. intros b Hb. apply Hdb.
    assert (b ∈ blocks (rd s) (S k) nb ++ l) as Hin by (rewrite <- lift_perm; set_solver).
    apply elem_of_app in Hin as [Hin|Hin]; [by eapply tr_data_of|by eapply tr_free_of].
  - apply lift_perm.
  - intros x Hu H0 Hxi Hxl. rewrite (indirs_at _ k nb i c0 Hnb Hi) in Hxi.
    assert (rd sm x = rd s x) as <- by (apply Hmid; set_solver).
    apply EF; [done|done| |set_solver]. intros Hx%Hind. set_solver.
Qed.
Lemma lift_find_same bn : idx k bn = i -> find_block (rd s') (S k) nb bn = find_block (rd s') k c bn.
Proof. apply (child_find_same (rd s) (rd s') k nb i c0 c Hnb Hi lift_ptrs). Qed.
Lemma lift_find_other bn : idx k bn <> i -> find_block (rd s') (S k) nb bn = find_block (rd s) (S k) nb bn.
Proof. apply (child_find_other (rd s) (rd s') k nb i c Hnb lift_ptrs lift_sib). Qed.
End Lift.


Lemma idx_lt k bn : (idx k bn < BLKWORDS)%nat.
Proof.
  unfold idx, NMASK, BLKWORDS. change 255 with (Z.ones 8). rewrite Z.land_ones by lia.
  pose proof (Z.mod_pos_bound (Z.shiftr bn (NSHIFT * Z.of_nat k)) (2 ^ 8)). lia.
Qed.
Lemma idx_Z k bn : Z.land (Z.shiftr bn (NSHIFT * Z.of_nat k)) NMASK = Z.of_nat (idx k bn).
Proof.
  unfold idx. rewrite Z2Nat.id; [done|]. apply Z.land_nonneg. by right.
Qed.
Lemma same_path_S k bn bn' : same_path k bn bn' -> idx k bn' = idx k bn -> same_path (S k) bn bn'.
Proof. intros Hp Hi k' Hk. destruct (decide (k' = k)) as [->|]; [done|]. apply Hp. lia. Qed.

(** The outcome of a call that may allocate. *)
Definition outcome s f l k nb bn (ip : inode) (r : mapped St) : Prop :=
  exists ret ra err f' s' l', r = Mapped ret ra err ip f' s' /\ extended s f l s' f' l' k nb /\
  (err = 0 /\ ret <> 0 /\ find_block (rd s') k nb bn = ret /\
    (find_block (rd s) k nb bn = 0 -> rd s' ret = zeros) /\
    (forall bn', find_block (rd s') k nb bn' = find_block (rd s) k nb bn' \/
      find_block (rd s) k nb bn' = 0 /\ same_path k bn bn') \/
   err = ENOSPC /\ ret = -1 /\ l' = [] /\ forall bn', find_block (rd s') k nb bn' = find_block (rd s) k nb bn').

Lemma extended_refl s f l k nb : tree_at s f l k nb -> extended s f l s f l k nb.
Proof. intros T. by split. Qed.

Lemma outcome_leaf s f l nb ra bn ip : tree_at s f l 0 nb -> outcome s f l 0 nb bn ip (Mapped nb ra 0 ip f s).
Proof.
  intros T. pose proof (tr_nz _ _ _ _ _ T) as Hn. exists nb, ra, 0, f, s, l. split; [done|]. split; [by apply extended_refl|].
  left. rewrite find_leaf by done. split_and!; try done. by left.
Qed.
(** A block without a tree below it keeps its contents. *)
Lemma extended_leaf s f l s' f' l' nb : extended s f l s' f' l' 0 nb -> rd s' nb = rd s nb.
Proof.
  intros [ET EP _ _ EF]. pose proof (tr_nz _ _ _ _ _ ET) as Hn.
  destruct (tr_data_of _ _ _ _ _ nb ET (tr_head _ _ _ _ _ ET)) as (_&Hu&H0&_). apply EF; [done|done| |].
  - simpl. case_match; apply not_elem_of_nil.
  - pose proof (tr_nodup _ _ _ _ _ ET) as Hnd. rewrite EP, blocks_O in Hnd by done. by apply NoDup_cons in Hnd as [? _].
Qed.
(** The outcome for the tree below a pointer is an outcome for the whole. *)
Lemma outcome_lift s sm f fm l lm k nb c0 c bn ip r :
  tree_at s f l (S k) nb -> ptrs (rd s nb) !! idx k bn = Some c0 ->
  ptrs (rd sm nb) = <[idx k bn := c]> (ptrs (rd s nb)) ->
  (forall x, used dev x -> x <> SUPERB -> x <> nb -> (x ∉ l) -> rd sm x = rd s x) ->
  blocks (rd sm) k c ++ lm ≡ₚ blocks (rd s) k c0 ++ l ->
  (forall x, x ∈ indirs (rd sm) k c -> x ∈ indirs (rd s) k c0 \/ x ∈ l) -> (forall x, x ∈ lm -> x ∈ l) ->
  fs_isize fm = fs_isize f /\ fs_fsize fm = fs_fsize f ->
  (forall bn', find_block (rd sm) k c bn' = find_block (rd s) k c0 bn' \/ find_block (rd s) k c0 bn' = 0 /\ k = 0%nat) ->
  (find_block (rd s) k c0 bn = 0 -> k = 0%nat -> rd sm c = zeros) ->
  outcome sm fm lm k c bn ip r -> (k = 0%nat -> exists ra f' s', r = Mapped c ra 0 ip f' s') ->
  outcome s f l (S k) nb bn ip r.
Proof.
  intros T Hi Hp Hmid Hperm Hind Hlm Hgeo Hfind Hzero (ret&ra&err&f'&s'&l'&->&E&Hout) H0.
  pose proof (lift_extended s sm s' f fm f' l lm l' k nb (idx k bn) c0 c T Hi Hp Hmid Hperm Hind Hlm Hgeo E) as E'.
  assert (forall bn', idx k bn' = idx k bn -> find_block (rd s') (S k) nb bn' = find_block (rd s') k c bn' /\
    find_block (rd s) (S k) nb bn' = find_block (rd s) k c0 bn') as Hsame.
  { intros bn' Hb. split.
    - by apply (lift_find_same s sm s' f fm f' l lm l' k nb (idx k bn) c0 c T Hi Hp Hmid Hperm Hind Hlm Hgeo E).
    - rewrite find_block_S, Hb by apply T. f_equal. by apply nth_lookup_Some. }
  assert (forall bn', idx k bn' <> idx k bn -> find_block (rd s') (S k) nb bn' = find_block (rd s) (S k) nb bn') as Hother
    by (apply (lift_find_other s sm s' f fm f' l lm l' k nb (idx k bn) c0 c T Hi Hp Hmid Hperm Hind Hlm Hgeo E)).
  exists ret, ra, err, f', s', l'. split; [done|]. split; [done|].
  destruct Hout as [(->&Hr&Hf&Hz0&Hall)|(->&->&Hl&Hall)]; [left|right]; split_and!; try done.
  - by rewrite (proj1 (Hsame bn eq_refl)).
  - rewrite (proj2 (Hsame bn eq_refl)). intros Hbn. destruct (Hfind bn) as [Hfe|[_ Hk]]; [apply Hz0; congruence|].
    destruct (H0 Hk) as (?&?&?&E0). injection E0 as Er _ _ _. rewrite Er, <- (Hzero Hbn Hk). subst k. by eapply extended_leaf.
  - intros bn'. destruct (decide (idx k bn' = idx k bn)) as [Hb|Hb]; [|left; auto].
    destruct (Hsame bn' Hb) as [-> ->].
    destruct (Hall bn') as [->|[Hz Hpath]], (Hfind bn') as [Hfe|[Hfz Hk]].
    + by left.
    + right. split; [done|]. apply same_path_S; [|done]. intros k' Hk'. lia.
    + right. split; [by rewrite <- Hfe|]. by apply same_path_S.
    + right. split; [done|]. by apply same_path_S.
  - intros bn'. destruct (decide (idx k bn' = idx k bn)) as [Hb|Hb]; [|auto].
    destruct (Hsame bn' Hb) as [-> ->]. rewrite Hall. destruct (Hfind bn') as [->|[_ Hk]]; [done|].
    destruct (H0 Hk) as (?&?&?&[=]).
Qed.


(** An indirect block of a tree, read into a buffer. *)
Lemma read_indirect s f l k nb :
  tree_at s f l k nb ->
  exists s1 bp, io_bread dev nb s = Some (s1, bp) /\ io_ok s1 [Held bp dev nb true] /\ io_error s1 bp = false /\
    io_data s1 bp = rd s nb /\ forall b, used dev b -> rd s1 b = rd s b.
Proof.
  intros T. destruct (tr_data_of _ _ _ _ _ nb T (tr_head _ _ _ _ _ T)) as (_&Hu&_&_).
  destruct (io_bread_law s [] dev nb (tr_ok _ _ _ _ _ T) Hu) as (s1&bp&E&Hok&Her&Hd&K);
    [set_solver|by apply (nbuf_2 (Held 0 0 0 true) (Held 0 0 0 true))|].
  exists s1, bp. split_and!; try done. intros b Hb. apply K; auto.
Qed.
Lemma release_indirect s1 bp nb :
  io_ok s1 [Held bp dev nb true] -> exists s2, io_brelse bp s1 = Some s2 /\ io_ok s2 [] /\ forall b, used dev b -> rd s2 b = rd s1 b.
Proof.
  intros Hok. destruct (io_brelse_law s1 [] bp dev nb Hok) as (s2&E&Hok2&K). exists s2. split_and!; try done.
  intros b Hb. apply K; auto.
Qed.
Lemma tr_ptr s f l k nb bn :
  tree_at s f l (S k) nb -> ptrs (rd s nb) !! idx k bn = Some (nth (idx k bn) (ptrs (rd s nb)) 0).
Proof.
  intros T. assert (idx k bn < length (ptrs (rd s nb)))%nat as Hlt.
  { unfold ptrs. rewrite length_map. rewrite (tr_whole _ _ _ _ _ T); [apply idx_lt|].
    rewrite indirs_S by apply T. apply list_elem_of_here. }
  apply lookup_lt_is_Some in Hlt as [x Hx]. by rewrite (nth_lookup_Some _ _ _ _ Hx).
Qed.
(** The subtree below a pointer that is there. *)
Lemma tr_child s f l k nb i c :
  tree_at s f l (S k) nb -> ptrs (rd s nb) !! i = Some c -> c <> 0 -> tree_at s f l k c.
Proof.
  intros T Hi Hc. pose proof (tr_nz _ _ _ _ _ T) as Hnb. pose proof (blocks_at (rd s) k nb i c Hnb Hi) as Hb.
  pose proof T as [T1 T2 T3 T4 T5 T6 T7]. split; try done.
  - intros b Hin. apply T5. rewrite (indirs_at (rd s) k nb i c Hnb Hi). set_solver.
  - rewrite Hb in T6. simpl in T6. apply NoDup_cons in T6 as [_ T6]. rewrite <- app_assoc in T6.
    apply NoDup_app in T6 as (N1&N2&N3). apply NoDup_app in N3 as (_&_&N3). apply NoDup_app. split_and!; try done.
    intros x Hx Hl. apply (N2 x Hx). set_solver.
  - rewrite Forall_forall in T7 |- *. intros x Hx. apply T7. rewrite Hb. set_solver.
Qed.

(** A state in which only the data of the cache moved. *)
Lemma outcome_keep s s2 f l k nb bn ip r :
  tree_at s f l k nb -> io_ok s2 [] -> (forall b, used dev b -> rd s2 b = rd s b) ->
  outcome s2 f l k nb bn ip r -> outcome s f l k nb bn ip r.
Proof.
  intros T Hok He (ret&ra&err&f'&s'&l'&->&[E1 E2 E3 E4 E5]&Hout).
  destruct (tree_at_keep s s2 f l k nb T Hok He) as (_&B&I&F).
  exists ret, ra, err, f', s', l'. split; [done|]. split; [|by setoid_rewrite F in Hout].
  split; try done; [by rewrite <- B|]. intros x Hu H0 Hx Hl. rewrite <- I in Hx. rewrite E5, He by done. done.
Qed.

(** The branch that allocates; [next] is the rest of the loop. *)
Lemma loop_alloc k now flags w bp nb bn ip f s s1 l next :
  tree_at s f l (S k) nb -> i_dev ip = dev -> io_ok s1 [Held bp dev nb true] -> io_data s1 bp = rd s nb ->
  (forall b, used dev b -> rd s1 b = rd s b) -> ptrs (rd s nb) !! idx k bn = Some 0 ->
  (forall sm fm lm b, tree_at sm fm lm k b -> outcome sm fm lm k b bn ip (next fm sm b) /\
    (k = 0%nat -> exists ra f' s', next fm sm b = Mapped b ra 0 ip f' s')) ->
  outcome s f l (S k) nb bn ip
    match balloc now dev (Z.lor flags B_CLRBUF) f s1 with
    | Got f s nbp =>
        let nb := io_blkno s nbp in
        then_map (io_write (w f) nbp s) (fun s =>
        then_map (io_store bp (set_ptr (Z.of_nat (idx k bn)) nb (io_data s bp)) s) (fun s =>
        then_map (io_write Later bp s) (fun s => next f s nb)))
    | NoSpace f s => then_map (io_brelse bp s) (fun s => Mapped (-1) 0 ENOSPC ip f s)
    | _ => MapStuck
    end.
Proof.
  intros T Hip Hok1 Hd K1 Hi Hnext. destruct (tr_data_of _ _ _ _ _ nb T (tr_head _ _ _ _ _ T)) as (Hnb&Hunb&Hnb0&Hnl).
  assert (frees used dev f s1 l) as Hfr1.
  { eapply frees_keep; [apply T|]. intros b Hb. apply K1. by eapply tr_free_of. }
  destruct l as [|b l].
  - destruct (alloc_child now ip flags f s1 bp nb (rd s nb) 0 [] w Now Hok1 Hip Hfr1 (tr_used _ _ _ _ _ T) Hd Hnb Hnl)
      as (f'&->&Hfr'&Hi'&Hf').
    destruct (release_indirect s1 bp nb Hok1) as (s2&->&Hok2&K2). cbn [then_map].
    assert (forall b, used dev b -> rd s2 b = rd s b) as K by (intros; rewrite K2, K1; done).
    destruct (tree_at_keep s s2 f [] (S k) nb T Hok2 K) as (T2&B&I&F).
    exists (-1), 0, ENOSPC, f', s2, []. split; [done|]. split; [|by right]. split; [|by rewrite B|done|done|auto].
    destruct T2 as [? _ U ? ? ? D]. split; try done.
    + eapply frees_keep; [exact Hfr'|]. set_solver.
    + unfold fs_used, data_block in *. by rewrite Hi', Hf'.
    + unfold data_block in *. by rewrite Hi', Hf'.
  - destruct (alloc_child now ip flags f s1 bp nb (rd s nb) (Z.of_nat (idx k bn)) (b :: l) w Later Hok1 Hip Hfr1
      (tr_used _ _ _ _ _ T) Hd Hnb Hnl) as (f'&s2&nbp&s3&s4&s5&->&->&E3&E4&E5&Hok5&Hfr5&Hi5&Hf5&Hz&Hp&K5).
    cbn zeta. rewrite E3. cbn [then_map]. rewrite E4. cbn [then_map]. rewrite E5. cbn [then_map].
    destruct (tr_free_of _ _ _ _ _ b T) as (Hb&Hub&Hb0&Hbn); [apply list_elem_of_here|].
    assert (b <> 0) as Hbz by done.
    destruct (tree_zeros (rd s5) k b Hbz Hz) as (Zb&Zi&Zf).
    assert (tree_at s5 f' l k b) as T5.
    { split; try done.
      - unfold fs_used, data_block. rewrite Hi5, Hf5. apply T.
      - intros x ->%Zi. by rewrite Hz.
      - rewrite Zb. apply T.
      - rewrite Zb. apply Forall_singleton. unfold data_block. by rewrite Hi5, Hf5. }
    destruct (Hnext s5 f' l b T5) as [Hout H0].
    eapply (outcome_lift s s5 f f' (b :: l) l k nb 0 b); try done.
    + rewrite Hp. apply ptrs_set_ptr. destruct Hb, (fr_wf _ _ _ _ _ Hfr1). unfold in_s32. lia.
    + intros x Hx H1 H2 H3. rewrite K5, K1; try done. set_solver.
    + by rewrite Zb, blocks_0.
    + intros x ->%Zi. right. set_solver.
    + set_solver.
    + intros bn'. rewrite Zf, find_block_0. destruct k; [by right|by left].
Qed.

Lemma loop_write fuel k now rwflg flags ra nb bn ip f s l :
  tree_at s f l k nb -> i_dev ip = dev -> rwflg <> Bio.B_READ -> (k <= 3)%nat -> (k < fuel)%nat ->
  outcome s f l k nb bn ip
    (bmap_loop fuel now rwflg flags (4 - Z.of_nat k) (NSHIFT * Z.of_nat k) bn nb ra ip f s) /\
  (k = 0%nat -> exists ra' f' s', bmap_loop fuel now rwflg flags (4 - Z.of_nat k) (NSHIFT * Z.of_nat k) bn nb ra ip f s =
    Mapped nb ra' 0 ip f' s').
Proof.
  intros T Hip Hrw. revert fuel ra nb f s l T. induction k as [|k IH]; intros fuel ra nb f s l T Hk Hfuel;
    (destruct fuel as [|fuel]; [lia|]); cbn [bmap_loop].
  - split; [by apply outcome_leaf|by eauto].
  - split; [|done]. rewrite (proj2 (Z.ltb_ge _ _)) by lia. rewrite Hip.
    destruct (read_indirect s f l (S k) nb T) as (s1&bp&->&Hok1&Her&Hd&K1). cbn [then_map]. rewrite Her.
    replace (NSHIFT * Z.of_nat (S k) - NSHIFT) with (NSHIFT * Z.of_nat k) by (unfold NSHIFT; lia).
    rewrite idx_Z, Hd, get_ptr_nth. set (ra' := if Z.of_nat (idx k bn) <? NINDIR - 1 then _ else ra).
    replace (4 - Z.of_nat (S k) + 1) with (4 - Z.of_nat k) by lia.
    pose proof (tr_ptr s f l k nb bn T) as Hi. set (c := nth (idx k bn) (ptrs (rd s nb)) 0) in *.
    destruct (Z.eqb_spec c 0) as [Hc0|Hc].
    + rewrite (proj2 (Z.eqb_neq _ _) Hrw). unfold with_block. rewrite Hip. rewrite Hc0 in Hi.
      apply (loop_alloc k now flags (fun f => if negb (flag_on (fs_flags f) MNT_ASYNC) && _ then Now else Later) bp nb bn ip f s s1 l
        (fun f s b => bmap_loop fuel now rwflg flags _ _ bn b ra' ip f s)); try done.
      intros sm fm lm b T'. apply IH; [done|lia|lia].
    + destruct (release_indirect s1 bp nb Hok1) as (s2&->&Hok2&K2). cbn [then_map].
      assert (forall b, used dev b -> rd s2 b = rd s b) as K by (intros; rewrite K2, K1; done).
      eapply outcome_keep; [exact T|exact Hok2|exact K|].
      destruct (tree_at_keep s s2 f l (S k) nb T Hok2 K) as (T2&_).
      assert (ptrs (rd s2 nb) !! idx k bn = Some c) as Hi2.
      { rewrite K; [done|]. by apply (tr_data_of _ _ _ _ _ nb T (tr_head _ _ _ _ _ T)). }
      destruct (IH fuel ra' c f s2 l (tr_child _ _ _ _ _ _ _ T2 Hi2 Hc)) as [Hout H0]; [lia|lia|].
      eapply (outcome_lift s2 s2 f f l l); [exact T2|exact Hi2|by rewrite list_insert_id|done|done|by left|done|done|by left| |exact Hout|exact H0].
      intros Hz ->. by rewrite find_leaf in Hz.
Qed.


(** *** Files *)

(** The number of levels below each of the seven addresses. *)
Definition levels : list nat := [0; 0; 0; 0; 1; 2; 3]%nat.
Definition slots (ip : inode) : list (nat * Z) := zip levels (i_addr ip).
Definition file_blocks s ip : list Z := concat (map (fun e => blocks (rd s) e.1 e.2) (slots ip)).
Definition file_indirs s ip : list Z := concat (map (fun e => indirs (rd s) e.1 e.2) (slots ip)).
Record file_at s f l ip : Prop := {
  fl_ok : io_ok s [];
  fl_frees : frees used dev f s l;
  fl_used : fs_used used dev f;
  fl_dev : i_dev ip = dev;
  fl_len : length (i_addr ip) = 7%nat;
  fl_whole : forall b, b ∈ file_indirs s ip -> length (rd s b) = BLKWORDS;
  fl_nodup : NoDup (file_blocks s ip ++ l);
  fl_data : Forall (data_block f) (file_blocks s ip) }.

(** The address that leads to block [bn] of a file, and the number of the
    block below it; 7 for a block that is too far. *)
Definition slot_of bn : nat :=
  if bn <? 4 then Z.to_nat bn else if bn <? 260 then 4 else if bn <? 65796 then 5 else if bn <? 16843012 then 6 else 7.
Definition offset_of bn : Z :=
  if bn <? 4 then 0 else if bn <? 260 then bn - 4 else if bn <? 65796 then bn - 260 else bn - 65796.
Definition file_find s ip bn : Z :=
  match slots ip !! slot_of bn with Some (k, a) => find_block (rd s) k a (offset_of bn) | None => 0 end.

Lemma slots_lookup ip i k : length (i_addr ip) = 7%nat -> levels !! i = Some k ->
  slots ip !! i = Some (k, nth i (i_addr ip) 0).
Proof.
  intros Hl Hk. unfold slots. assert (i < 7)%nat as Hi by (apply lookup_lt_Some in Hk; done).
  destruct (lookup_lt_is_Some_2 (i_addr ip) i) as [a Ha]; [lia|].
  rewrite (nth_lookup_Some _ _ _ _ Ha). by apply lookup_zip_Some.
Qed.
Lemma slots_set_addr ip i k a : length (i_addr ip) = 7%nat -> levels !! i = Some k ->
  slots (set_addr (Z.of_nat i) a ip) = <[i := (k, a)]> (slots ip).
Proof.
  intros Hl Hk. unfold slots, set_addr. cbn [i_addr]. rewrite Nat2Z.id, insert_zip_with.
  by rewrite (list_insert_id levels i k Hk).
Qed.

Section FileLift.
Context (s sm s' : St) (f fm f' : fs) (l lm l' : list Z) (ip ip' : inode) (i : nat) (k : nat) (c0 c : Z).
Hypothesis (T : file_at s f l ip) (Hi : slots ip !! i = Some (k, c0)) (Hip' : slots ip' = <[i := (k, c)]> (slots ip))
  (Hdev' : i_dev ip' = dev) (Hlen' : length (i_addr ip') = 7%nat).
Hypothesis (Hmid : forall x, used dev x -> x <> SUPERB -> (x ∉ l) -> rd sm x = rd s x)
  (Hperm : blocks (rd sm) k c ++ lm ≡ₚ blocks (rd s) k c0 ++ l)
  (Hind : forall x, x ∈ indirs (rd sm) k c -> x ∈ indirs (rd s) k c0 \/ x ∈ l) (Hlm : forall x, x ∈ lm -> x ∈ l)
  (Hgeo : fs_isize fm = fs_isize f /\ fs_fsize fm = fs_fsize f)
  (E : extended sm fm lm s' f' l' k c).

Definition others : list (nat * Z) := sib i (slots ip).
Lemma file_blocks_at : file_blocks s ip ≡ₚ blocks (rd s) k c0 ++ concat (map (fun e => blocks (rd s) e.1 e.2) others).
Proof. apply (concat_map_at (fun e => blocks (rd s) e.1 e.2) i (slots ip) (k, c0) Hi). Qed.
Lemma file_block_of b : b ∈ file_blocks s ip -> data_block f b /\ used dev b /\ b <> SUPERB /\ (b ∉ l).
Proof.
  intros Hb. pose proof (fl_data _ _ _ _ T) as Hd. rewrite Forall_forall in Hd. specialize (Hd b Hb).
  pose proof (wf_isize _ (fr_wf _ _ _ _ _ (fl_frees _ _ _ _ T))).
  split_and!; [done|by eapply data_used; [apply T|]|destruct Hd; unfold SUPERB; lia|].
  pose proof (fl_nodup _ _ _ _ T) as Hn. apply NoDup_app in Hn as (_&Hn&_). by apply Hn.
Qed.
Lemma file_stays x : used dev x -> x <> SUPERB -> (x ∉ blocks (rd s) k c0) -> (x ∉ l) -> rd s' x = rd s x.
Proof.
  intros Hu H0 Hc Hl. assert (x ∉ blocks (rd sm) k c ++ lm) as Hx by (rewrite Hperm; set_solver).
  rewrite <- Hmid by done.
  apply (ex_frame _ _ _ _ _ _ _ _ E); [done|done| |set_solver]. intros Hin%indirs_blocks. set_solver.
Qed.
Lemma file_others e : e ∈ others ->
  blocks (rd s') e.1 e.2 = blocks (rd s) e.1 e.2 /\ indirs (rd s') e.1 e.2 = indirs (rd s) e.1 e.2 /\
  (forall b, b ∈ indirs (rd s) e.1 e.2 -> rd s' b = rd s b) /\
  forall bn, find_block (rd s') e.1 e.2 bn = find_block (rd s) e.1 e.2 bn.
Proof.
  intros He. assert (forall b, b ∈ indirs (rd s) e.1 e.2 -> rd s' b = rd s b) as Hs.
  { intros b Hb%indirs_blocks. assert (b ∈ concat (map (fun e => blocks (rd s) e.1 e.2) others)) as Hc
      by (apply elem_of_concat_map; eauto).
    destruct (file_block_of b) as (_&Hu&H0&Hl); [rewrite file_blocks_at; set_solver|].
    apply file_stays; try done. pose proof (fl_nodup _ _ _ _ T) as Hn. rewrite file_blocks_at in Hn.
    apply NoDup_app in Hn as (Hn&_). apply NoDup_app in Hn as (_&Hn&_). intros Hb'. by apply (Hn b). }
  destruct (tree_ext (rd s) (rd s') e.1 e.2 Hs) as (?&?&?). done.
Qed.
Lemma file_perm : file_blocks s' ip' ++ l' ≡ₚ file_blocks s ip ++ l.
Proof.
  pose proof (ex_perm _ _ _ _ _ _ _ _ E) as He. rewrite Hperm in He. unfold file_blocks at 1.
  rewrite (concat_map_at _ i (slots ip') (k, c)) by (rewrite Hip'; apply list_lookup_insert_eq; by eapply lookup_lt_Some).
  rewrite Hip', sib_insert, file_blocks_at. cbn [fst snd].
  assert (map (fun e => blocks (rd s') e.1 e.2) (sib i (slots ip)) = map (fun e => blocks (rd s) e.1 e.2) others) as ->.
  { apply map_ext_in. intros e He'%list_elem_of_In. by apply file_others. }
  rewrite (Permutation_app_comm (blocks (rd s') k c)), <- app_assoc, He.
  rewrite app_assoc. f_equiv. apply Permutation_app_comm.
Qed.
Lemma file_lifted : file_at s' f' l' ip'.
Proof.
  pose proof E as [ET EP Ei Ef EF]. destruct Hgeo as [Hg1 Hg2].
  assert (forall b, data_block f b -> data_block f' b) as Hdb by (intros b [? ?]; split; lia).
  split; try done; try apply ET.
  - intros b. unfold file_indirs. rewrite (concat_map_at _ i (slots ip') (k, c))
      by (rewrite Hip'; apply list_lookup_insert_eq; by eapply lookup_lt_Some).
    rewrite Hip', sib_insert, elem_of_app. intros [Hb|(e&He&Hb)%elem_of_concat_map].
    + by apply (tr_whole _ _ _ _ _ ET).
    + destruct (file_others e He) as (_&E1&E2&_). rewrite E1 in Hb. rewrite E2 by done.
      apply (fl_whole _ _ _ _ T). unfold file_indirs. rewrite (concat_map_at _ i (slots ip) (k, c0) Hi), elem_of_app.
      right. apply elem_of_concat_map. eauto.
  - rewrite file_perm. apply T.
  - apply Forall_forall. intros b Hb. apply Hdb.
    assert (b ∈ file_blocks s ip ++ l) as Hin by (rewrite <- file_perm; set_solver).
    apply elem_of_app in Hin as [Hin|Hin]; [by apply file_block_of|].
    pose proof (fr_data _ _ _ _ _ (fl_frees _ _ _ _ T)) as Hd. rewrite Forall_forall in Hd. auto.
Qed.
Lemma file_frame x : used dev x -> x <> SUPERB -> (x ∉ file_indirs s ip) -> (x ∉ l) -> rd s' x = rd s x.
Proof.
  intros Hu H0 Hxi Hxl. rewrite <- Hmid by done.
  unfold file_indirs in Hxi. rewrite (concat_map_at _ i (slots ip) (k, c0) Hi) in Hxi. cbn [fst snd] in Hxi.
  apply (ex_frame _ _ _ _ _ _ _ _ E); [done|done| |set_solver]. intros Hx%Hind. set_solver.
Qed.
Lemma file_find_at bn : slot_of bn = i ->
  file_find s' ip' bn = find_block (rd s') k c (offset_of bn) /\ file_find s ip bn = find_block (rd s) k c0 (offset_of bn).
Proof.
  intros Hb. unfold file_find. rewrite Hb, Hip', Hi, list_lookup_insert_eq; [done|]. by eapply lookup_lt_Some.
Qed.
Lemma file_find_other bn : slot_of bn <> i -> file_find s' ip' bn = file_find s ip bn.
Proof.
  intros Hb. unfold file_find. rewrite Hip', list_lookup_insert_ne by done.
  destruct (slots ip !! slot_of bn) as [[k' a]|] eqn:Ea; [|done].
  apply (file_others (k', a)). by apply elem_of_drop_take with (slot_of bn).
Qed.
End FileLift.


(** Two blocks below the same address with the same path are the same. *)
Lemma idx_testbit k a r : 0 <= r < 8 -> Z.testbit (Z.of_nat (idx k a)) r = Z.testbit a (8 * Z.of_nat k + r).
Proof.
  intros Hr. rewrite <- idx_Z. unfold NSHIFT, NMASK. change 255 with (Z.ones 8).
  rewrite Z.land_spec, Z.ones_spec_low, andb_true_r by lia. rewrite Z.shiftr_spec by lia. f_equal. lia.
Qed.
Lemma same_path_eq k a b :
  0 <= a < 2 ^ (8 * Z.of_nat k) -> 0 <= b < 2 ^ (8 * Z.of_nat k) -> same_path k a b -> b = a.
Proof.
  intros Ha Hb Hp. apply Z.bits_inj'. intros n Hn. destruct (decide (n < 8 * Z.of_nat k)) as [Hlt|Hge].
  - assert (n = 8 * Z.of_nat (Z.to_nat (n / 8)) + n mod 8) as En
      by (pose proof (Z.div_mod n 8); pose proof (Z.div_pos n 8); lia).
    pose proof (Z.mod_pos_bound n 8). rewrite En, <- !idx_testbit by lia. rewrite Hp; [done|].
    assert (n / 8 < Z.of_nat k) by (apply Z.div_lt_upper_bound; lia). pose proof (Z.div_pos n 8). lia.
  - assert (forall x, 0 <= x < 2 ^ (8 * Z.of_nat k) -> Z.testbit x n = false) as Hz; [|by rewrite !Hz].
    intros x Hx. destruct (decide (x = 0)) as [->|]; [apply Z.bits_0|]. apply Z.bits_above_log2; [lia|].
    assert (Z.log2 x < 8 * Z.of_nat k) by (apply Z.log2_lt_pow2; lia). lia.
Qed.
Lemma offset_path i k bn bn' :
  levels !! i = Some k -> 0 <= bn -> 0 <= bn' -> slot_of bn = i -> slot_of bn' = i ->
  same_path k (offset_of bn) (offset_of bn') -> bn' = bn.
Proof.
  intros Hk Hb Hb' Hs Hs' Hp. unfold slot_of in Hs, Hs'. unfold offset_of in Hp.
  assert (forall a b, 0 <= a < 2 ^ (8 * Z.of_nat k) -> 0 <= b < 2 ^ (8 * Z.of_nat k) -> same_path k a b -> b = a) as Heq
    by (intros; by eapply same_path_eq).
  do 7 (destruct i as [|i]; [injection Hk as <-; repeat case_if; try lia;
    try (apply Heq in Hp; lia)|]); done.
Qed.

(** [clr]: a block the file gets is cleared. *)
Definition map_outcome s f l ip bn (clr : bool) (r : mapped St) : Prop :=
  exists ret ra err ip' f' s' l', r = Mapped ret ra err ip' f' s' /\ file_at s' f' l' ip' /\
  file_blocks s' ip' ++ l' ≡ₚ file_blocks s ip ++ l /\
  (forall x, used dev x -> x <> SUPERB -> (x ∉ file_indirs s ip) -> (x ∉ l) -> rd s' x = rd s x) /\
  (err = 0 /\ ret <> 0 /\ file_find s' ip' bn = ret /\ (file_find s ip bn <> 0 -> ret = file_find s ip bn) /\
    (clr = true -> file_find s ip bn = 0 -> rd s' ret = zeros) /\
    (forall bn', 0 <= bn' -> bn' <> bn -> file_find s' ip' bn' = file_find s ip bn') \/
   err = ENOSPC /\ ret = -1 /\ l' = [] /\ forall bn', 0 <= bn' -> file_find s' ip' bn' = file_find s ip bn').

Lemma map_outcome_lift s sm f fm l lm ip ip' k c0 c bn clr r :
  file_at s f l ip -> 0 <= bn -> levels !! slot_of bn = Some k -> slots ip !! slot_of bn = Some (k, c0) ->
  slots ip' = <[slot_of bn := (k, c)]> (slots ip) -> i_dev ip' = dev -> length (i_addr ip') = 7%nat ->
  (forall x, used dev x -> x <> SUPERB -> (x ∉ l) -> rd sm x = rd s x) ->
  blocks (rd sm) k c ++ lm ≡ₚ blocks (rd s) k c0 ++ l ->
  (forall x, x ∈ indirs (rd sm) k c -> x ∈ indirs (rd s) k c0 \/ x ∈ l) -> (forall x, x ∈ lm -> x ∈ l) ->
  fs_isize fm = fs_isize f /\ fs_fsize fm = fs_fsize f ->
  (forall bn', find_block (rd sm) k c bn' = find_block (rd s) k c0 bn' \/ find_block (rd s) k c0 bn' = 0 /\ k = 0%nat) ->
  (clr = true -> find_block (rd s) k c0 (offset_of bn) = 0 -> k = 0%nat -> rd sm c = zeros) ->
  outcome sm fm lm k c (offset_of bn) ip' r -> (k = 0%nat -> exists ra f' s', r = Mapped c ra 0 ip' f' s') ->
  map_outcome s f l ip bn clr r.
Proof.
  intros T Hbn Hk Hi Hip Hdev Hlen Hmid Hperm Hind Hlm Hgeo Hfind Hzero (ret&ra&err&f'&s'&l'&->&E&Hout) H0.
  exists ret, ra, err, ip', f', s', l'. split; [done|].
  split; [by apply (file_lifted s sm s' f fm f' l lm l' ip ip' (slot_of bn) k c0 c)|].
  split; [by apply (file_perm s sm s' f fm f' l lm l' ip ip' (slot_of bn) k c0 c)|].
  split; [by apply (file_frame s sm s' f fm f' l lm l' ip ip' (slot_of bn) k c0 c)|].
  assert (forall bn', slot_of bn' = slot_of bn -> file_find s' ip' bn' = find_block (rd s') k c (offset_of bn') /\
    file_find s ip bn' = find_block (rd s) k c0 (offset_of bn')) as Hat.
  { intros bn' Hb. by apply (file_find_at s s' ip ip' (slot_of bn) k c0 c). }
  assert (forall bn', slot_of bn' <> slot_of bn -> file_find s' ip' bn' = file_find s ip bn') as Hoth.
  { intros bn' Hb. by apply (file_find_other s sm s' f fm f' l lm l' ip ip' (slot_of bn) k c0 c). }
  destruct Hout as [(->&Hr&Hf&Hz0&Hall)|(->&->&Hl&Hall)]; [left|right]; split_and!; try done.
  - by rewrite (proj1 (Hat bn eq_refl)).
  - rewrite (proj2 (Hat bn eq_refl)). intros Hnz. destruct (Hfind (offset_of bn)) as [Hfe|[? _]]; [|done].
    destruct (Hall (offset_of bn)) as [Ha|[Ha _]]; congruence.
  - intros Hclr. rewrite (proj2 (Hat bn eq_refl)). intros Hb0.
    destruct (Hfind (offset_of bn)) as [Hfe|[_ Hk0]]; [apply Hz0; congruence|].
    destruct (H0 Hk0) as (?&?&?&E0). injection E0 as Er _ _ _. rewrite Er, <- (Hzero Hclr Hb0 Hk0). subst k. by eapply extended_leaf.
  - intros bn' Hb' Hne. destruct (decide (slot_of bn' = slot_of bn)) as [Hs|Hs]; [|by apply Hoth].
    destruct (Hat bn' Hs) as [-> ->].
    assert (~ same_path k (offset_of bn) (offset_of bn')) as Hnp.
    { intros Hp. apply Hne. by eapply offset_path. }
    destruct (Hall (offset_of bn')) as [->|[_ Hp]]; [|done]. destruct (Hfind (offset_of bn')) as [?|[_ ->]]; [done|].
    exfalso. apply Hnp. intros k' Hk'. lia.
  - intros bn' Hb'. destruct (decide (slot_of bn' = slot_of bn)) as [Hs|Hs]; [|by apply Hoth].
    destruct (Hat bn' Hs) as [-> ->]. rewrite Hall. destruct (Hfind (offset_of bn')) as [->|[_ Hk0]]; [done|].
    destruct (H0 Hk0) as (?&?&?&[=]).
Qed.

(** A free address of the inode gets a block. *)
Lemma alloc_slot now flags f s l ip w :
  file_at s f l ip ->
  match l with
  | [] => exists f', balloc now dev flags f s = NoSpace f' s /\ frees used dev f' s [] /\
      fs_isize f' = fs_isize f /\ fs_fsize f' = fs_fsize f
  | b :: l' => exists f' s2 bp s3, balloc now dev flags f s = Got f' s2 bp /\ io_blkno s2 bp = b /\
      io_write w bp s2 = Some s3 /\ io_ok s3 [] /\ frees used dev f' s3 l' /\
      fs_isize f' = fs_isize f /\ fs_fsize f' = fs_fsize f /\
      (flag_on flags B_CLRBUF = true -> rd s3 b = zeros) /\
      forall x, used dev x -> x <> SUPERB -> x <> b -> rd s3 x = rd s x
  end.
Proof.
  intros T. pose proof (fl_frees _ _ _ _ T) as Hfr. pose proof (fl_used _ _ _ _ T) as [Hu0 Hu].
  assert (forall x, x ∈ l -> data_block f x) as Hdl by (apply Forall_forall, Hfr).
  assert (blocks_free used dev [] l) as Hbf.
  { intros b [->|Hb]%elem_of_cons; (split; [auto|set_solver]). }
  pose proof (balloc_ok used now dev flags f s [] l (fl_ok _ _ _ _ T) Hfr Hbf) as Hb.
  specialize (Hb (proj1 (nbuf_2 (Held 0 0 0 true) (Held 0 0 0 true)))).
  destruct l as [|b l]; [done|]. destruct Hb as (f'&s2&bp&cl&E2&Hok2&Hfr2&K2&Hz&Hi2&Hf2).
  destruct (io_write_law s2 [] w bp dev b cl Hok2) as (s3&E3&Hok3&C3&K3).
  assert (b ∉ l) as Hbl by (pose proof (fr_nodup _ _ _ _ _ Hfr) as Hn; apply NoDup_cons in Hn as []; done).
  exists f', s2, bp, s3. split_and!; try done.
  - by eapply io_blkno_law.
  - eapply frees_keep; [exact Hfr2|]. intros x Hx. apply (keep_content _ _ _ _ _ _ _ K3); [apply Hu, Hdl; set_solver|].
    intros [= ->]. done.
  - intros Hc. by rewrite C3, Hz.
  - intros x Hx H1 H2. rewrite (keep_content _ _ _ _ _ _ _ K3), (keep_content _ _ _ _ _ _ _ K2); try done; [|congruence].
    intros [[= ->]|[= ->]]; done.
Qed.



Lemma file_tree s f l ip i k c :
  file_at s f l ip -> slots ip !! i = Some (k, c) -> c <> 0 -> tree_at s f l k c.
Proof.
  intros T Hi Hc. pose proof (concat_map_at (fun e => blocks (rd s) e.1 e.2) i (slots ip) (k, c) Hi) as Hb.
  change (concat _) with (file_blocks s ip) in Hb at 1. cbn [fst snd] in Hb.
  pose proof T as [T1 T2 T3 T4 T5 T6 T7 T8]. split; try done.
  - intros b Hin. apply T6. unfold file_indirs. rewrite (concat_map_at _ i (slots ip) (k, c) Hi). set_solver.
  - rewrite Hb, <- app_assoc in T7. apply NoDup_app in T7 as (N1&N2&N3). apply NoDup_app in N3 as (_&_&N3).
    apply NoDup_app. split_and!; try done. intros x Hx Hl. apply (N2 x Hx). set_solver.
  - rewrite Forall_forall in T8 |- *. intros x Hx. apply T8. rewrite Hb. set_solver.
Qed.

Lemma map_alloc now flags w f s l ip bn k clr next :
  file_at s f l ip -> 0 <= bn -> levels !! slot_of bn = Some k -> slots ip !! slot_of bn = Some (k, 0) ->
  (k = 0%nat \/ flag_on flags B_CLRBUF = true) -> (clr = true -> k = 0%nat -> flag_on flags B_CLRBUF = true) ->
  (forall sm fm lm b ip', tree_at sm fm lm k b -> i_dev ip' = dev -> ip' = set_addr (Z.of_nat (slot_of bn)) b ip ->
    outcome sm fm lm k b (offset_of bn) ip' (next fm sm b) /\
    (k = 0%nat -> exists ra f' s', next fm sm b = Mapped b ra 0 ip' f' s')) ->
  map_outcome s f l ip bn clr
    match balloc now dev flags f s with
    | Got f s bp => let nb := io_blkno s bp in then_map (io_write w bp s) (fun s => next f s nb)
    | NoSpace f s => Mapped (-1) 0 ENOSPC ip f s
    | _ => MapStuck
    end.
Proof.
  intros T Hbn Hk Hi Hclr Hclr0 Hnext. pose proof (alloc_slot now flags f s l ip w T) as Ha. destruct l as [|b l].
  - destruct Ha as (f'&->&Hfr&Hi'&Hf'). exists (-1), 0, ENOSPC, ip, f', s, []. split; [done|].
    split; [|split_and!; [done|done|by right]]. destruct T. split; try done.
    + unfold fs_used, data_block in *. by rewrite Hi', Hf'.
    + unfold data_block in *. by rewrite Hi', Hf'.
  - destruct Ha as (f'&s2&bp&s3&->&->&E3&Hok3&Hfr3&Hi3&Hf3&Hz&K3). cbn zeta. rewrite E3. cbn [then_map].
    set (ip' := set_addr (Z.of_nat (slot_of bn)) b ip).
    pose proof (fr_data _ _ _ _ _ (fl_frees _ _ _ _ T)) as Hda. apply Forall_cons in Hda as [Hb _].
    pose proof (wf_isize _ (fr_wf _ _ _ _ _ (fl_frees _ _ _ _ T))) as Hpos.
    assert (b <> 0) as Hb0 by (destruct Hb; lia).
    assert (blocks (rd s3) k b = [b] /\ (forall x, x ∈ indirs (rd s3) k b -> x = b /\ rd s3 b = zeros) /\
      forall x, find_block (rd s3) k b x = match k with O => b | S _ => 0 end) as (Zb&Zi&Zf).
    { destruct Hclr as [->|Hc].
      - rewrite blocks_O by done. simpl. rewrite (proj2 (Z.eqb_neq _ _) Hb0). set_solver.
      - destruct (tree_zeros (rd s3) k b Hb0 (Hz Hc)) as (?&Zi&?). split_and!; try done. intros x Hx. auto. }
    assert (tree_at s3 f' l k b) as T3.
    { split; try done.
      - unfold fs_used, data_block. rewrite Hi3, Hf3. apply T.
      - intros x [-> ->]%Zi. done.
      - rewrite Zb. apply T.
      - rewrite Zb. apply Forall_singleton. unfold data_block. by rewrite Hi3, Hf3. }
    destruct (Hnext s3 f' l b ip' T3) as [Hout H0]; [apply T|done|].
    eapply (map_outcome_lift s s3 f f' (b :: l) l ip ip' k 0 b); try done.
    + apply slots_set_addr; [apply T|done].
    + apply T.
    + unfold ip', set_addr. cbn [i_addr]. rewrite length_insert. apply T.
    + intros x Hx H1 H2. apply K3; try done. set_solver.
    + by rewrite Zb, blocks_0.
    + intros x [-> _]%Zi. right. set_solver.
    + set_solver.
    + intros bn'. rewrite Zf, find_block_0. destruct k; [by right|by left].
    + intros Hc0 _ Hk0. by apply Hz, Hclr0.
Qed.

Lemma map_found f s l ip bn k c clr r :
  file_at s f l ip -> 0 <= bn -> levels !! slot_of bn = Some k -> slots ip !! slot_of bn = Some (k, c) ->
  c <> 0 -> outcome s f l k c (offset_of bn) ip r -> (k = 0%nat -> exists ra f' s', r = Mapped c ra 0 ip f' s') ->
  map_outcome s f l ip bn clr r.
Proof.
  intros T Hbn Hk Hi Hc Hout H0. eapply (map_outcome_lift s s f f l l ip ip k c c); try done; try apply T.
  - by rewrite list_insert_id.
  - by left.
  - by left.
  - intros _ Hz ->. by rewrite find_leaf in Hz.
Qed.

Lemma bmap_levels_ok bn :
  4 <= bn -> (slot_of bn < 7)%nat ->
  exists k, (1 <= k <= 3)%nat /\ levels !! slot_of bn = Some k /\ slot_of bn = (3 + k)%nat /\
    bmap_levels 3 3 0 1 (bn - 4) = (4 - Z.of_nat k, NSHIFT * Z.of_nat k, offset_of bn).
Proof.
  intros Hbn Hs. unfold slot_of, offset_of in *. rewrite (proj2 (Z.ltb_ge bn 4)) in * by lia.
  cbn [bmap_levels]. unfold NSHIFT. cbn [Z.ltb Z.compare Z.sub Z.add Z.opp Pos.compare Pos.compare_cont].
  change (Z.shiftl 1 8) with 256. change (Z.shiftl 256 8) with 65536. change (Z.shiftl 65536 8) with 16777216.
  destruct (Z.ltb_spec bn 260); [|destruct (Z.ltb_spec bn 65796); [|destruct (Z.ltb_spec bn 16843012); [|lia]]].
  - exists 1%nat. rewrite (proj2 (Z.ltb_lt (bn - 4) 256)) by lia.
    split_and!; (done || lia).
  - exists 2%nat. rewrite (proj2 (Z.ltb_ge (bn - 4) 256)), (proj2 (Z.ltb_lt (bn - 4 - 256) 65536)) by lia.
    split_and!; try (done || lia). f_equal. lia.
  - exists 3%nat. rewrite (proj2 (Z.ltb_ge (bn - 4) 256)), (proj2 (Z.ltb_ge (bn - 4 - 256) 65536)),
      (proj2 (Z.ltb_lt (bn - 4 - 256 - 65536) 16777216)) by lia.
    split_and!; try (done || lia). f_equal. lia.
Qed.

Lemma bmap_write_ok now rab ip bn rwflg flags f s l :
  file_at s f l ip -> 0 <= bn -> (slot_of bn < 7)%nat -> rwflg <> Bio.B_READ ->
  map_outcome s f l ip bn (flag_on flags B_CLRBUF || (4 <=? bn)) (bmap now rab ip bn rwflg flags f s).
Proof.
  intros T Hbn Hs Hrw. unfold bmap. rewrite (proj2 (Z.ltb_ge bn 0)) by lia. rewrite (proj2 (Z.eqb_neq _ _) Hrw).
  unfold NADDR. change (7 - 3) with 4. unfold with_block. rewrite (fl_dev _ _ _ _ T).
  destruct (Z.ltb_spec bn 4) as [Hlt|Hge].
  - assert (slot_of bn = Z.to_nat bn) as Hsl by (unfold slot_of; by rewrite (proj2 (Z.ltb_lt _ _))).
    assert (levels !! slot_of bn = Some 0%nat) as Hk.
    { rewrite Hsl. assert (bn = 0 \/ bn = 1 \/ bn = 2 \/ bn = 3) as [->|[->|[->| ->]]] by lia; done. }
    pose proof (slots_lookup ip (slot_of bn) 0 (fl_len _ _ _ _ T) Hk) as Hi. rewrite Hsl in Hi at 2.
    fold (get_addr ip bn) in Hi. destruct (Z.eqb_spec (get_addr ip bn) 0) as [E0|Hn0].
    + rewrite E0 in Hi.
      apply (map_alloc now flags (if flag_on flags B_SYNC then Now else Later) f s l ip bn 0 _
        (fun f s nb => Mapped nb (if bn <? 7 - 4 then get_addr (set_addr bn nb ip) (bn + 1) else 0) 0 (set_addr bn nb ip) f s));
        [done|done|done|done|by left| |].
      { rewrite (proj2 (Z.leb_gt 4 bn)), orb_false_r by lia. done. }
      intros sm fm lm b ip' T' _ ->. rewrite Hsl, Z2Nat.id by lia. split; [by apply outcome_leaf|by eauto].
    + eapply map_found; [done|done|done|exact Hi|done| |by eauto].
      apply outcome_leaf. by apply (file_tree _ _ _ _ _ _ _ T Hi).
  - destruct (bmap_levels_ok bn Hge Hs) as (k&Hk3&Hk&Hsl&->). rewrite (proj2 (Z.eqb_neq (4 - Z.of_nat k) 0)) by lia.
    replace (7 - (4 - Z.of_nat k)) with (Z.of_nat (slot_of bn)) by lia.
    pose proof (slots_lookup ip (slot_of bn) k (fl_len _ _ _ _ T) Hk) as Hi.
    assert (get_addr ip (Z.of_nat (slot_of bn)) = nth (slot_of bn) (i_addr ip) 0) as Hga
      by (unfold get_addr; by rewrite Nat2Z.id). rewrite Hga.
    destruct (Z.eqb_spec (nth (slot_of bn) (i_addr ip) 0) 0) as [E0|Hn0].
    + rewrite E0 in Hi.
      apply (map_alloc now (Z.lor flags B_CLRBUF) _ f s l ip bn k _
        (fun f s nb => bmap_loop 4 now rwflg flags _ _ (offset_of bn) nb 0 (set_addr (Z.of_nat (slot_of bn)) nb ip) f s)); try done.
      * right. by apply (flag_on_set_in flags B_CLRBUF B_CLRBUF).
      * intros _ _. by apply (flag_on_set_in flags B_CLRBUF B_CLRBUF).
      * intros sm fm lm b ip' T' Hd ->. apply loop_write; [done|done|done|lia|lia].
    + destruct (loop_write 4 k now rwflg flags 0 (nth (slot_of bn) (i_addr ip) 0) (offset_of bn) ip f s l) as [Hout H0];
        [by eapply file_tree|apply T|done|lia|lia|].
      by eapply map_found.
Qed.


(** *** Reading *)

Definition or_hole (nb : Z) : Z := if nb =? 0 then -1 else nb.
Definition only_read s s' : Prop := io_ok s' [] /\ forall b, used dev b -> rd s' b = rd s b.

(** A pointer of an indirect block is 0 or a block of the device. *)
Lemma tr_ptr_used s f l k nb i : tree_at s f l (S k) nb -> nth i (ptrs (rd s nb)) 0 <> 0 -> used dev (nth i (ptrs (rd s nb)) 0).
Proof.
  intros T Hn. destruct (ptrs (rd s nb) !! i) as [c|] eqn:Hi.
  - rewrite (nth_lookup_Some _ _ _ _ Hi) in *. pose proof (tr_child _ _ _ _ _ _ _ T Hi Hn) as Tc.
    by destruct (tr_data_of _ _ _ _ _ _ Tc (tr_head _ _ _ _ _ Tc)) as (_&?&_).
  - apply lookup_ge_None in Hi. by rewrite nth_overflow in Hn.
Qed.

Lemma loop_read fuel k now flags ra nb bn ip f s l :
  tree_at s f l k nb -> i_dev ip = dev -> (k <= 3)%nat -> (k < fuel)%nat -> (ra <> 0 -> used dev ra) ->
  exists ra' s', bmap_loop fuel now Bio.B_READ flags (4 - Z.of_nat k) (NSHIFT * Z.of_nat k) bn nb ra ip f s =
    Mapped (or_hole (find_block (rd s) k nb bn)) ra' 0 ip f s' /\ only_read s s' /\ (ra' <> 0 -> used dev ra').
Proof.
  intros T Hip. revert fuel ra nb s T. induction k as [|k IH]; intros fuel ra nb s T Hk Hfuel Hra;
    (destruct fuel as [|fuel]; [lia|]); cbn [bmap_loop].
  - exists ra, s. pose proof (tr_nz _ _ _ _ _ T) as Hn. split; [|split; [by split; [apply T|]|done]].
    unfold or_hole. simpl. by rewrite !(proj2 (Z.eqb_neq _ _) Hn).
  - rewrite (proj2 (Z.ltb_ge _ _)) by lia. rewrite Hip.
    destruct (read_indirect s f l (S k) nb T) as (s1&bp&->&Hok1&Her&Hd&K1). cbn [then_map]. rewrite Her.
    replace (NSHIFT * Z.of_nat (S k) - NSHIFT) with (NSHIFT * Z.of_nat k) by (unfold NSHIFT; lia).
    rewrite idx_Z, Hd, get_ptr_nth. set (ra1 := if Z.of_nat (idx k bn) <? NINDIR - 1 then _ else ra).
    assert (ra1 <> 0 -> used dev ra1) as Hra1.
    { unfold ra1. case_match; [|done]. replace (Z.of_nat (idx k bn) + 1) with (Z.of_nat (S (idx k bn))) by lia.
      rewrite get_ptr_nth. by eapply tr_ptr_used. }
    replace (4 - Z.of_nat (S k) + 1) with (4 - Z.of_nat k) by lia.
    pose proof (tr_ptr s f l k nb bn T) as Hi. rewrite find_block_S by apply T.
    set (c := nth (idx k bn) (ptrs (rd s nb)) 0) in *.
    destruct (release_indirect s1 bp nb Hok1) as (s2&->&Hok2&K2). cbn [then_map].
    assert (forall b, used dev b -> rd s2 b = rd s b) as K by (intros; rewrite K2, K1; done).
    destruct (Z.eqb_spec c 0) as [->|Hc].
    + rewrite find_block_0. by exists 0, s2.
    + destruct (tree_at_keep s s2 f l k c (tr_child _ _ _ _ _ _ _ T Hi Hc) Hok2 K) as (T2&_&_&F2).
      destruct (IH fuel ra1 c s2 T2) as (ra'&s'&->&[Hok' K']&Hra'); [lia|lia|done|].
      exists ra', s'. rewrite F2. split; [done|]. split; [|done]. split; [done|]. intros b Hb. by rewrite K', K.
Qed.

Lemma addr_used s f l ip i : file_at s f l ip -> get_addr ip i <> 0 -> used dev (get_addr ip i).
Proof.
  intros T Hn. unfold get_addr in *. destruct (levels !! Z.to_nat i) as [k|] eqn:Hk.
  - pose proof (file_tree _ _ _ _ _ _ _ T (slots_lookup _ _ _ (fl_len _ _ _ _ T) Hk) Hn) as Tr.
    by destruct (tr_data_of _ _ _ _ _ _ Tr (tr_head _ _ _ _ _ Tr)) as (_&?&_).
  - apply lookup_ge_None in Hk. by rewrite nth_overflow in Hn by (by rewrite (fl_len _ _ _ _ T)).
Qed.
Lemma bmap_read_ok now rab ip bn flags f s l :
  file_at s f l ip ->
  if (bn <? 0) || (16843012 <=? bn) then
    exists ra, bmap now rab ip bn Bio.B_READ flags f s = Mapped 0 ra EFBIG ip f s
  else
    exists ra s', bmap now rab ip bn Bio.B_READ flags f s = Mapped (or_hole (file_find s ip bn)) ra 0 ip f s' /\
      only_read s s' /\ (ra <> 0 -> used dev ra).
Proof.
  intros T. unfold bmap. destruct (Z.ltb_spec bn 0) as [Hneg|Hpos]; cbn [orb]; [by eexists|].
  unfold NADDR. change (7 - 3) with 4. destruct (Z.leb_spec 16843012 bn) as [Hbig|Hle].
  { rewrite (proj2 (Z.ltb_ge bn 4)) by lia. cbn [bmap_levels]. unfold NSHIFT.
    change (Z.shiftl 1 8) with 256. change (Z.shiftl 256 8) with 65536. change (Z.shiftl 65536 8) with 16777216.
    simpl Z.ltb at 1 3 5. rewrite (proj2 (Z.ltb_ge (bn - 4) 256)), (proj2 (Z.ltb_ge (bn - 4 - 256) 65536)),
      (proj2 (Z.ltb_ge (bn - 4 - 256 - 65536) 16777216)) by lia. by exists 0. }
  assert (slot_of bn < 7)%nat as Hs by (unfold slot_of; repeat case_if; lia).
  destruct (Z.ltb_spec bn 4) as [Hlt|Hge].
  - assert (slot_of bn = Z.to_nat bn) as Hsl by (unfold slot_of; by rewrite (proj2 (Z.ltb_lt _ _))).
    assert (levels !! slot_of bn = Some 0%nat) as Hk.
    { rewrite Hsl. assert (bn = 0 \/ bn = 1 \/ bn = 2 \/ bn = 3) as [->|[->|[->| ->]]] by lia; done. }
    pose proof (slots_lookup ip (slot_of bn) 0 (fl_len _ _ _ _ T) Hk) as Hi.
    unfold file_find. rewrite Hi, Hsl. fold (get_addr ip bn). unfold or_hole. cbn [find_block].
    destruct (Z.eqb_spec (get_addr ip bn) 0) as [E0|Hn]; [|rewrite (proj2 (Z.eqb_neq _ _) Hn)];
      eexists _, s; (split; [done|]); (split; [by split; [apply T|]|]); [done|]; case_match; [|done]; by eapply addr_used.
  - destruct (bmap_levels_ok bn Hge Hs) as (k&Hk3&Hk&Hsl&->). rewrite (proj2 (Z.eqb_neq (4 - Z.of_nat k) 0)) by lia.
    replace (7 - (4 - Z.of_nat k)) with (Z.of_nat (slot_of bn)) by lia.
    pose proof (slots_lookup ip (slot_of bn) k (fl_len _ _ _ _ T) Hk) as Hi.
    assert (get_addr ip (Z.of_nat (slot_of bn)) = nth (slot_of bn) (i_addr ip) 0) as ->
      by (unfold get_addr; by rewrite Nat2Z.id).
    unfold file_find. rewrite Hi. destruct (Z.eqb_spec (nth (slot_of bn) (i_addr ip) 0) 0) as [->|Hn0].
    + rewrite find_block_0. exists 0, s. split; [done|]. split; [by split; [apply T|]|done].
    + apply (loop_read 4 k now flags 0 _ (offset_of bn) ip f s l); [by eapply file_tree|apply T|lia|lia|done].
Qed.

(** bmap for reading: block [bn] of a file, at most 4 + 256 + 256^2 +
    256^3, is the block its address in the inode or the indirect blocks lead
    to, and -1 when there is none; a negative number and one beyond these
    give 0 and EFBIG.  Nothing on the device changes, and the block it
    proposes to read ahead, if any, is one of the device. *)
Theorem bmap_read_spec now rab ip bn flags f s l :
  file_at s f l ip ->
  if (bn <? 0) || (16843012 <=? bn) then
    exists ra, bmap now rab ip bn Bio.B_READ flags f s = Mapped 0 ra EFBIG ip f s
  else
    exists ra s', bmap now rab ip bn Bio.B_READ flags f s = Mapped (or_hole (file_find s ip bn)) ra 0 ip f s' /\
      only_read s s' /\ (ra <> 0 -> used dev ra).
Proof. apply bmap_read_ok. Qed.

(** (C12) bmap for writing, of a block of a file that is not beyond the triple
    indirect blocks: when it succeeds it returns the block of the device for
    [bn], the one that was there if there was one and otherwise a block that
    was free; every other block of the file stays where it was, no block
    belongs to two places or is both in the file and free, and the contents
    of the file's other blocks and of other files do not change; a block the
    file gets is cleared, when B_CLRBUF asks for it or it lies below an
    indirect block.  When space
    runs out it returns -1 with ENOSPC and the file is as it was, but for
    indirect blocks it may have gained. *)
Theorem bmap_write_spec now rab ip bn rwflg flags f s l :
  file_at s f l ip -> 0 <= bn < 16843012 -> rwflg <> Bio.B_READ ->
  map_outcome s f l ip bn (flag_on flags B_CLRBUF || (4 <=? bn)) (bmap now rab ip bn rwflg flags f s).
Proof.
  intros T Hbn Hrw. apply bmap_write_ok; [done|lia| |done]. unfold slot_of. repeat case_if; lia.
Qed.

End Spec.

(** An empty file on a file system with three free blocks. *)
Definition ex_fs3 : fs :=
  MkFs 0 10 1000 0 4 ([0; 20; 21; 22] ++ replicate 196 0) 0 (replicate NICINOD 0) 0 0 0 0 0 3 0 (replicate 7 0) 0 0 0 0.
Definition ex_ip : inode := MkInode 0 0 (replicate 7 0).
Lemma ex_file_on c : @io_ok _ ex_io ex_fs_used ex_io_spec c [] ->
  @file_at _ ex_io ex_fs_used ex_io_spec 0 c ex_fs3 [22; 21; 20] ex_ip.
Proof.
  intros Hc. assert (Forall (data_block ex_fs3) [22; 21; 20]) as Hd by (repeat constructor; simpl; lia).
  split; try done.
  - split; try done.
    + split; try done. change (fs_free ex_fs3) with ([0; 20; 21; 22] ++ replicate 196 0). apply Forall_app.
      split; [repeat constructor; unfold in_s32; lia|apply Forall_replicate; unfold in_s32; lia].
    + change [22; 21; 20] with (entries 4 (fs_free ex_fs3)). apply FL_last; done.
    + apply (bool_decide_unpack _). by vm_compute.
  - split; [split; unfold SUPERB; lia|]. intros b [H1 H2]. unfold ex_fs3 in H1, H2. simpl in H1, H2. split; lia.
  - intros b Hb. vm_compute in Hb. by apply not_elem_of_nil in Hb.
  - apply (bool_decide_unpack _). by vm_compute.
Qed.
Lemma ex_file : exists c, @file_at _ ex_io ex_fs_used ex_io_spec 0 c ex_fs3 [22; 21; 20] ex_ip.
Proof. destruct ex_boot_io as [c Hc]. exists c. by apply ex_file_on. Qed.
Lemma bmap_write_spec_witness :
  exists c, @map_outcome _ ex_io ex_fs_used ex_io_spec 0 c ex_fs3 [22; 21; 20] ex_ip 5 true
    (@bmap _ ex_io 0 0 ex_ip 5 0 0 ex_fs3 c).
Proof.
  destruct ex_file as [c Hc]. exists c.
  apply (@bmap_write_spec _ ex_io ex_fs_used ex_io_spec 0 0 0 ex_ip 5 0 0 ex_fs3 c [22; 21; 20]); [exact Hc|lia|done].
Defined.
Lemma bmap_read_spec_witness :
  exists c ra c', @bmap _ ex_io 0 0 ex_ip 5 Bio.B_READ 0 ex_fs3 c = Mapped (-1) ra 0 ex_ip ex_fs3 c'.
Proof.
  destruct ex_file as [c Hc]. exists c.
  destruct (@bmap_read_spec _ ex_io ex_fs_used ex_io_spec 0 0 0 ex_ip 5 0 ex_fs3 c [22; 21; 20] Hc) as (ra&c'&E&_).
  exists ra, c'. exact E.
Defined.

End Bmap.
