(* ===== verification/Dinode.v ===== *)
(** Inodes on the disk (sys/include/inode.h, the macros itod and itoo of
    sys/include/fs.h, iupdat of sys/kernel/ufs_inode.c and the part of iget
    that reads an inode in): sixteen inodes of sixteen words in each block of
    the i-list. *)
From S2P Require Import Prelude Bio Bcache Blockio Alloc Bmap.
Import Bcache Blockio Alloc Bmap.

Module Dinode.

(** ** Data *)

Definition ILOCKED : Z := 1.
Definition IACC : Z := 4.
Definition IMOUNT : Z := 8.
Definition IWANT : Z := 16.
Definition IMOD : Z := 1024.
Definition IPIPE : Z := 4096.
Definition INOPB : Z := 16.
Definition DINODE_WORDS : nat := 16.

(** [struct icommon1], di_flags and [struct icommon2]. *)
Record icommon := MkIcommon {
  ic_mode : Z; ic_nlink : Z; ic_uid : Z; ic_gid : Z; ic_size : Z;
  ic_flags : Z; ic_atime : Z; ic_mtime : Z; ic_ctime : Z }.
Definition set_size (v : Z) (c : icommon) : icommon :=
  MkIcommon (ic_mode c) (ic_nlink c) (ic_uid c) (ic_gid c) v (ic_flags c) (ic_atime c) (ic_mtime c) (ic_ctime c).
Definition set_mode (v : Z) (c : icommon) : icommon :=
  MkIcommon v (ic_nlink c) (ic_uid c) (ic_gid c) (ic_size c) (ic_flags c) (ic_atime c) (ic_mtime c) (ic_ctime c).
Definition set_atime (v : Z) (c : icommon) : icommon :=
  MkIcommon (ic_mode c) (ic_nlink c) (ic_uid c) (ic_gid c) (ic_size c) (ic_flags c) v (ic_mtime c) (ic_ctime c).
Definition set_mtime (v : Z) (c : icommon) : icommon :=
  MkIcommon (ic_mode c) (ic_nlink c) (ic_uid c) (ic_gid c) (ic_size c) (ic_flags c) (ic_atime c) v (ic_ctime c).
Definition set_ctime (v : Z) (c : icommon) : icommon :=
  MkIcommon (ic_mode c) (ic_nlink c) (ic_uid c) (ic_gid c) (ic_size c) (ic_flags c) (ic_atime c) (ic_mtime c) v.

(** [struct inode] as the file system code uses it: what bmap uses, the
    number, and what the disk inode has. *)
Record incore := MkIncore { i_map : inode; i_number : Z; i_c : icommon }.
Definition set_map (m : inode) (ip : incore) : incore := MkIncore m (i_number ip) (i_c ip).
Definition set_c (c : icommon) (ip : incore) : incore := MkIncore (i_map ip) (i_number ip) c.
Definition set_flag (v : Z) (m : inode) : inode := MkInode (i_dev m) v (i_addr m).
Definition or_iflag (m : Z) (ip : incore) : incore := set_map (set_flag (flag_set (i_flag (i_map ip)) m) (i_map ip)) ip.
Definition clr_iflag (m : Z) (ip : incore) : incore := set_map (set_flag (flag_clr (i_flag (i_map ip)) m) (i_map ip)) ip.
Definition iflag_on (ip : incore) (m : Z) : bool := flag_on (i_flag (i_map ip)) m.

(** The block of the i-list that holds an inode, and its place there. *)
Definition itod (x : Z) : Z := u32 (u32 x + INOPB - 1) / INOPB.
Definition itoo (x : Z) : Z := u32 (x + INOPB - 1) mod INOPB.

(** The words of a disk inode; [dp] are the ones there, of which di_reserved
    stays. *)
Definition dinode_words (m : inode) (c : icommon) (dp : list Z) : list Z :=
  [u16 (ic_mode c) + u16 (ic_nlink c) * 65536; u32 (ic_uid c); u32 (ic_gid c); u32 (ic_size c)] ++
  map u32 (i_addr m) ++ [nth 11 dp 0; u32 (ic_flags c); u32 (ic_atime c); u32 (ic_mtime c); u32 (ic_ctime c)].
Definition dinode_at (ino : Z) (d : list Z) : list Z :=
  take DINODE_WORDS (drop (Z.to_nat (itoo ino) * DINODE_WORDS) d).
Definition store_dinode (ino : Z) (m : inode) (c : icommon) (d : list Z) : list Z :=
  let off := (Z.to_nat (itoo ino) * DINODE_WORDS)%nat in
  take off d ++ dinode_words m c (dinode_at ino d) ++ drop (off + DINODE_WORDS) d.
(** What iget takes from it. *)
Definition load_icommon (dp : list Z) : icommon :=
  MkIcommon (u16 (nth 0 dp 0)) (nth 0 dp 0 / 65536) (nth 1 dp 0) (nth 2 dp 0) (s32 (nth 3 dp 0))
    (nth 12 dp 0) (s32 (nth 13 dp 0)) (s32 (nth 14 dp 0)) (s32 (nth 15 dp 0)).
Definition load_addr (dp : list Z) : list Z := map s32 (take 7 (drop 4 dp)).

Section Iupdat.
Context {S : Type} `{BlockIO S}.
Implicit Types (f : fs) (s : S) (ip : incore).

(** [now] is time.tv_sec; [None]: the I/O does not return. *)
Definition iupdat (now ta tm : Z) (waitfor : bool) ip f s : option (incore * S) :=
  if negb (iflag_on ip (IUPD + IACC + ICHG + IMOD)) then Some (ip, s)
  else if negb (fs_ronly f =? 0) then Some (ip, s)
  else
    '(s, bp) ← io_bread (i_dev (i_map ip)) (itod (i_number ip)) s;
    if io_berror s bp then s ← io_brelse bp s; Some (ip, s)
    else
      let ip := if iflag_on ip IACC then set_c (set_atime ta (i_c ip)) ip else ip in
      let ip := if iflag_on ip IUPD then set_c (set_mtime tm (i_c ip)) ip else ip in
      let ip := if iflag_on ip ICHG then set_c (set_ctime now (i_c ip)) ip else ip in
      let ip := clr_iflag (IUPD + IACC + ICHG + IMOD) ip in
      s ← io_store bp (store_dinode (i_number ip) (i_map ip) (i_c ip) (io_data s bp)) s;
      s ← io_write (if waitfor && negb (flag_on (fs_flags f) MNT_ASYNC) then Now else Later) bp s;
      Some (ip, s).
End Iupdat.

(** ** Writing an inode and reading it back *)

Lemma flag_on_set_any w m n : Z.land m n <> 0 -> flag_on (flag_set w m) n = true.
Proof.
  intros Hm. unfold flag_on, flag_set. apply negb_true_iff, Z.eqb_neq. rewrite Z.land_lor_distr_l.
  by intros [_ ?]%Z.lor_eq_0_iff.
Qed.

(** The fields fit their types. *)
Record icommon_ok (c : icommon) : Prop := {
  ok_mode : 0 <= ic_mode c < 65536;
  ok_nlink : 0 <= ic_nlink c < 65536;
  ok_uid : 0 <= ic_uid c < 4294967296;
  ok_gid : 0 <= ic_gid c < 4294967296;
  ok_size : in_s32 (ic_size c);
  ok_flags : 0 <= ic_flags c < 4294967296;
  ok_atime : in_s32 (ic_atime c);
  ok_mtime : in_s32 (ic_mtime c);
  ok_ctime : in_s32 (ic_ctime c) }.

Lemma itoo_range ino : 0 <= itoo ino < 16.
Proof. unfold itoo, INOPB. apply Z.mod_pos_bound. lia. Qed.
Lemma dinode_words_length m c dp : length (i_addr m) = 7%nat -> length (dinode_words m c dp) = DINODE_WORDS.
Proof. intros Hl. unfold dinode_words. rewrite !length_app, length_map, Hl. done. Qed.
Lemma store_dinode_length ino m c d :
  length (i_addr m) = 7%nat -> length d = BLKWORDS -> length (store_dinode ino m c d) = BLKWORDS.
Proof.
  intros Hl Hd. unfold store_dinode. rewrite !length_app, dinode_words_length, length_take, length_drop, Hd by done.
  pose proof (itoo_range ino). unfold BLKWORDS, DINODE_WORDS. lia.
Qed.
Lemma store_dinode_at ino m c d :
  length (i_addr m) = 7%nat -> length d = BLKWORDS ->
  dinode_at ino (store_dinode ino m c d) = dinode_words m c (dinode_at ino d).
Proof.
  intros Hl Hd. unfold dinode_at at 1, store_dinode. pose proof (itoo_range ino).
  rewrite drop_app_length' by (rewrite length_take, Hd; unfold BLKWORDS, DINODE_WORDS; lia).
  apply take_app_length'. by rewrite dinode_words_length.
Qed.
(** The other inodes of the block stay. *)
Lemma store_dinode_other ino ino' m c d :
  length (i_addr m) = 7%nat -> length d = BLKWORDS -> itoo ino' <> itoo ino ->
  dinode_at ino' (store_dinode ino m c d) = dinode_at ino' d.
Proof.
  intros Hl Hd Hne. pose proof (itoo_range ino). pose proof (itoo_range ino').
  pose proof (dinode_words_length m c (dinode_at ino d) Hl) as Hw. apply list_eq. intros i. unfold dinode_at.
  destruct (decide (i < DINODE_WORDS)%nat); [|by rewrite !lookup_take_ge by lia].
  rewrite !lookup_take_lt, !lookup_drop by done. unfold store_dinode. set (off := (Z.to_nat (itoo ino) * DINODE_WORDS)%nat).
  assert (length (take off d) = off) as Ht by (rewrite length_take, Hd; unfold off, BLKWORDS, DINODE_WORDS; lia).
  unfold DINODE_WORDS in *. destruct (decide (Z.to_nat (itoo ino') < Z.to_nat (itoo ino))%nat).
  - rewrite lookup_app_l by (rewrite Ht; unfold off; lia). rewrite lookup_take_lt by (unfold off; lia). done.
  - rewrite !lookup_app_r by (rewrite ?Ht, ?Hw; unfold off; lia). rewrite Ht, Hw, lookup_drop. f_equal. unfold off. lia.
Qed.

Lemma u16_pair a b : 0 <= a < 65536 -> 0 <= b < 65536 -> u16 (u16 a + u16 b * 65536) = a /\ (u16 a + u16 b * 65536) / 65536 = b.
Proof.
  intros Ha Hb. unfold u16. change (2 ^ 16) with 65536. rewrite !(Z.mod_small a), !(Z.mod_small b) by lia. split.
  - rewrite Z.mod_add, Z.mod_small by lia. done.
  - rewrite Z.div_add, Z.div_small by lia. lia.
Qed.
Lemma map_s32_u32 l : Forall in_s32 l -> map s32 (map u32 l) = l.
Proof. induction 1 as [|x l Hx _ IH]; [done|]. simpl. by rewrite s32_u32, IH. Qed.
Lemma load_dinode m c dp :
  length (i_addr m) = 7%nat -> Forall in_s32 (i_addr m) -> icommon_ok c ->
  load_icommon (dinode_words m c dp) = c /\ load_addr (dinode_words m c dp) = i_addr m.
Proof.
  intros Hl Ha []. split.
  - unfold load_icommon, dinode_words. pose proof (length_map u32 (i_addr m)) as Hlm. rewrite Hl in Hlm.
    destruct (map u32 (i_addr m)) as [|a0 [|a1 [|a2 [|a3 [|a4 [|a5 [|a6 [|]]]]]]]]; try done.
    cbn [nth app]. destruct (u16_pair (ic_mode c) (ic_nlink c)) as [-> ->]; [done|done|].
    rewrite !s32_u32, !u32_small by (done || lia). by destruct c.
  - unfold load_addr, dinode_words. cbn [drop app]. rewrite drop_0, take_app_length' by (by rewrite length_map).
    by apply map_s32_u32.
Qed.

Section Spec.
Context {St : Type} `{BlockIO St} (used : Z -> Z -> Prop) `{!BlockIOSpec St used} (dev : Z).
Implicit Types (f : fs) (s : St) (ip : incore).
Abbreviation rd s := (io_content s dev).

Definition touched (ip : incore) (now : Z) : incore :=
  let ip := if iflag_on ip IACC then set_c (set_atime now (i_c ip)) ip else ip in
  let ip := if iflag_on ip IUPD then set_c (set_mtime now (i_c ip)) ip else ip in
  let ip := if iflag_on ip ICHG then set_c (set_ctime now (i_c ip)) ip else ip in
  clr_iflag (IUPD + IACC + ICHG + IMOD) ip.

Lemma iupdat_ok now waitfor ip f s hs :
  io_ok s hs -> i_dev (i_map ip) = dev -> used dev (itod (i_number ip)) -> Some (dev, itod (i_number ip)) ∉ h_at <$> hs ->
  (length hs < Bio.NBUF)%nat -> iflag_on ip (IUPD + IACC + ICHG + IMOD) = true -> fs_ronly f = 0 ->
  exists s', iupdat now now now waitfor ip f s = Some (touched ip now, s') /\ io_ok s' hs /\
    rd s' (itod (i_number ip)) =
      store_dinode (i_number ip) (i_map (touched ip now)) (i_c (touched ip now)) (rd s (itod (i_number ip))) /\
    io_keep io_content used (fun p => p = (dev, itod (i_number ip))) hs s s'.
Proof.
  intros Hok Hd Hu Hn Hl Hf Hr. unfold iupdat. rewrite Hf, Hr, Hd. cbn [negb Z.eqb].
  destruct (io_bread_law s hs dev _ Hok Hu Hn Hl) as (s1&bp&->&Hok1&_&Hda&K1). pose proof (proj1 (io_clean_law s1 _ _ Hok1)) as He. cbn [h_bp] in He. cbn [mbind option_bind]. rewrite He, Hda.
  set (ip' := touched ip now). assert (i_number ip' = i_number ip) as En
    by (unfold ip', touched; by repeat case_match).
  change (clr_iflag _ _) with ip'. rewrite En.
  destruct (io_store_law s1 hs bp dev (itod (i_number ip)) true
    (store_dinode (i_number ip) (i_map ip') (i_c ip') (rd s (itod (i_number ip)))) Hok1) as (s2&->&Hok2&D2&K2).
  cbn [mbind option_bind].
  destruct (io_write_law s2 hs (if waitfor && negb (flag_on (fs_flags f) MNT_ASYNC) then Now else Later) bp dev
    (itod (i_number ip)) false Hok2) as (s3&->&Hok3&C3&K3). cbn [mbind option_bind].
  exists s3. split_and!; try done; [by rewrite C3, D2|].
  eapply (keep_trans used); [|exact K1|eapply (keep_trans used); [|exact K2|exact K3]]; by intros p [?|?].
Qed.
End Spec.
End Dinode.
