(* ===== verification/Trunc.v ===== *)
(** Truncation of files (trsingle, indirtrunc and itrunc of
    sys/kernel/ufs_inode.c, the macros lblkno and blkoff of
    sys/include/fs.h): the blocks past the new end go back to the free list,
    with the indirect blocks that no longer lead anywhere.

    This file has the code and the trees of indirect blocks; Itrunc.v has the
    whole file. *)
From S2P Require Import Prelude Bio Bcache Blockio Alloc Bmap Dinode.
Import Bcache Blockio Alloc Bmap Dinode.

Module Trunc.

Definition NDADDR : Z := 4.
Definition MAXPIPSIZ : Z := 4096.
Definition IO_SYNC : Z := 4.
Definition EIO : Z := 5.
Definition B_WRITE : Z := 0.

(** The arguments are unsigned longs. *)
Definition lblkno (loc : Z) : Z := Z.shiftr (u32 loc) 10.
Definition blkoff (loc : Z) : Z := Z.land loc 1023.

(** [bzero (&bap[n], (NINDIR - n) * sizeof(daddr_t))] on the data of an indirect
    block, and [bzero (b_addr + offset, DEV_BSIZE - offset)] on the words of a
    block: the word that holds the byte at [offset] loses its high bytes. *)
Definition clear_from (n : Z) (d : list Z) : list Z :=
  take (Z.to_nat n) d ++ replicate (length d - Z.to_nat n) 0.
Definition clear_bytes (offset : Z) (d : list Z) : list Z :=
  let w := Z.to_nat (offset / 4) in
  clear_from (Z.of_nat (S w)) (<[w := nth w d 0 mod 2 ^ (8 * (offset mod 4))]> d).

Section Trunc.
Context {S : Type} `{BlockIO S}.
Implicit Types (f : fs) (s : S) (dev bn : Z).

(** The loop of trsingle and of indirtrunc over the pointers [last + n] to
    [last + 1] of the block copied to [bp]; [release] is what happens to each
    block. *)
Fixpoint free_ptrs (release : Z -> fs -> S -> option (fs * S)) (n : nat) (bp last : Z) f s : option (fs * S) :=
  match n with
  | O => Some (f, s)
  | Datatypes.S n =>
      let nb := get_ptr (io_data s bp) (last + Z.of_nat (Datatypes.S n)) in
      '(f, s) ← (if negb (nb =? 0) then release nb f s else Some (f, s));
      free_ptrs release n bp last f s
  end.
Definition trsingle dev (bp last : Z) f s : option (fs * S) :=
  free_ptrs (free dev) (Z.to_nat (NINDIR - 1 - last)) bp last f s.

Definition factor (level : nat) : Z :=
  match level with 1%nat => NINDIR | 2%nat => NINDIR * NINDIR | _ => 1 end.
Fixpoint indirtrunc (level : nat) dev bn (lastbn aflags : Z) f s : option (fs * S) :=
  let last := if 0 <? lastbn then Z.quot lastbn (factor level) else lastbn in
  '(s, bp) ← io_bread dev bn s;
  if io_berror s bp then s ← io_brelse bp s; Some (f, s)
  else
    '(s, cpy) ← io_geteblk s;
    s ← io_store cpy (io_data s bp) s;
    s ← io_store bp (clear_from (last + 1) (io_data s bp)) s;
    s ← io_write (if flag_on aflags B_SYNC then Now else Soon) bp s;
    '(f, s) ← match level with
      | O => trsingle dev cpy last f s
      | Datatypes.S level' =>
          '(f, s) ← free_ptrs (fun nb f s =>
              '(f, s) ← indirtrunc level' dev nb (-1) aflags f s;
              free dev nb f s) (Z.to_nat (NINDIR - 1 - last)) cpy last f s;
          if 0 <=? lastbn then
            let nb := get_ptr (io_data s cpy) last in
            if negb (nb =? 0) then indirtrunc level' dev nb (Z.rem lastbn (factor level)) aflags f s
            else Some (f, s)
          else Some (f, s)
      end;
    s ← io_brelse cpy s;
    Some (f, s).

(** The addresses of the blocks past the end, in the inode. *)
Definition clear_addr (i : nat) (m : inode) : inode := MkInode (i_dev m) (i_flag m) (<[i := 0]> (i_addr m)).
Definition addr_at (i : nat) (m : inode) : Z := nth i (i_addr m) 0.

(** [for (level = TRIPLE; level >= SINGLE; level--)]: each pair is a level and
    its lastiblock; the result is the inode copy and whether the loop ended by
    [goto done]. *)
Fixpoint itrunc_indir (ls : list (nat * Z)) (aflags : Z) (tip : inode) f s : option (inode * bool * fs * S) :=
  match ls with
  | [] => Some (tip, false, f, s)
  | (level, last) :: ls =>
      let i := (4 + level)%nat in
      let bn := addr_at i tip in
      '(tip, f, s) ← (if negb (bn =? 0) then
          '(f, s) ← indirtrunc level (i_dev tip) bn last aflags f s;
          if last <? 0 then
            '(f, s) ← free (i_dev tip) bn f s;
            Some (clear_addr i tip, f, s)
          else Some (tip, f, s)
        else Some (tip, f, s));
      if 0 <=? last then Some (tip, true, f, s)
      else itrunc_indir ls aflags tip f s
  end.
(** [for (i = NDADDR - 1; i > lastblock; i--)], [n] values of [i] from
    [lastblock + n] on down. *)
Fixpoint itrunc_direct (n : nat) (lastblock : Z) (tip : inode) f s : option (inode * fs * S) :=
  match n with
  | O => Some (tip, f, s)
  | Datatypes.S n =>
      let i := Z.to_nat (lastblock + Z.of_nat (Datatypes.S n)) in
      let bn := addr_at i tip in
      '(tip, f, s) ← (if bn =? 0 then Some (tip, f, s)
        else '(f, s) ← free (i_dev tip) bn f s; Some (clear_addr i tip, f, s));
      itrunc_direct n lastblock tip f s
  end.
Fixpoint clear_direct (n : nat) (lastblock : Z) (m : inode) : inode :=
  match n with
  | O => m
  | Datatypes.S n => clear_direct n lastblock (clear_addr (Z.to_nat (lastblock + Z.of_nat (Datatypes.S n))) m)
  end.
Fixpoint clear_indir (ls : list (nat * Z)) (m : inode) : inode :=
  match ls with
  | [] => m
  | (level, last) :: ls => clear_indir ls (if last <? 0 then clear_addr (4 + level) m else m)
  end.

(** [updret:] *)
Definition itrunc_done (now : Z) (err : Z) (oip : incore) f s : option (Z * incore * fs * S) :=
  '(oip, s) ← iupdat now now now true (or_iflag (ICHG + IUPD) oip) f s;
  Some (err, oip, f, s).

(** The last part of the file is cut off: from the update of the pointers on. *)
Definition itrunc_cut (now aflags : Z) (err length : Z) (oip : incore) f s : option (Z * incore * fs * S) :=
  let lastblock := s32 (lblkno (length + 1023) - 1) in
  let single := lastblock - NDADDR in
  let double := s32 (single - NINDIR) in
  let triple := s32 (double - NINDIR * NINDIR) in
  let norm last := if last <? 0 then -1 else last in
  let ls := [(2%nat, norm triple); (1%nat, norm double); (0%nat, norm single)] in
  let n := Z.to_nat (NDADDR - 1 - lastblock) in
  let tip := i_map oip in
  let oip := set_c (set_size (s32 length) (i_c oip)) oip in
  let oip := set_map (clear_direct n lastblock (clear_indir ls (i_map oip))) oip in
  '(tip, done, f, s) ← itrunc_indir ls aflags tip f s;
  '(tip, f, s) ← (if done : bool then Some (tip, f, s) else itrunc_direct n lastblock tip f s);
  itrunc_done now err oip f s.

(** [err] is u.u_error on entry and on return; the read-ahead block bmap leaves
    in rablock is for its readers only. *)
Definition itrunc (now rablock : Z) (err length ioflags : Z) (oip : incore) f s : option (Z * incore * fs * S) :=
  let aflags := if flag_on ioflags IO_SYNC then Z.lor B_CLRBUF B_SYNC else B_CLRBUF in
  let pipe := iflag_on oip IPIPE in
  let oip := if pipe then set_c (set_size MAXPIPSIZ (i_c oip)) oip else oip in
  if negb pipe && (u32 (ic_size (i_c oip)) =? length) then itrunc_done now err oip f s
  else if u32 (ic_size (i_c oip)) <? length then
    match bmap now rablock (i_map oip) (s32 (lblkno (length - 1))) B_WRITE aflags f s with
    | MapStuck => None
    | Mapped bn _ e m f s =>
        let oip := set_map m oip in
        let err := if e =? 0 then err else e in
        if negb (err =? 0) || (bn <? 0) then Some (err, oip, f, s)
        else itrunc_done now err (set_c (set_size (s32 length) (i_c oip)) oip) f s
    end
  else
    let offset := blkoff length in
    if negb (offset =? 0) then
      match bmap now rablock (i_map oip) (s32 (lblkno length)) B_WRITE aflags f s with
      | MapStuck => None
      | Mapped bn _ e m f s =>
          let oip := set_map m oip in
          let err := if e =? 0 then err else e in
          if negb (err =? 0) || (bn <? 0) then Some (err, oip, f, s)
          else
            '(s, bp) ← io_bread (i_dev m) bn s;
            if io_berror s bp then s ← io_brelse bp s; Some (EIO, oip, f, s)
            else
              s ← io_store bp (clear_bytes offset (io_data s bp)) s;
              s ← io_write Later bp s;
              itrunc_cut now aflags err length oip f s
      end
    else itrunc_cut now aflags err length oip f s.
End Trunc.

(** ** What is left of a tree, and what is freed

    [last] is the number below the tree of the last block to keep, -1 for
    none. *)
Section Prune.
Implicit Types (rd : Z -> list Z) (k : nat) (nb last bn : Z).

Definition span k : Z := 2 ^ (8 * Z.of_nat k).
Fixpoint kept rd k nb last : list Z :=
  if nb =? 0 then []
  else nb :: match k with
    | O => []
    | S k =>
        let q := Z.to_nat (last / span k) in
        concat (map (blocks rd k) (take q (ptrs (rd nb)))) ++
        (if last <? 0 then [] else kept rd k (nth q (ptrs (rd nb)) 0) (last mod span k))
    end.
Fixpoint gone rd k nb last : list Z :=
  if nb =? 0 then []
  else match k with
    | O => []
    | S k =>
        (if last <? 0 then []
         else gone rd k (nth (Z.to_nat (last / span k)) (ptrs (rd nb)) 0) (last mod span k)) ++
        concat (map (blocks rd k) (drop (Z.to_nat (last / span k + 1)) (ptrs (rd nb))))
    end.
(** The blocks have the contents [rd'] when the tree was cut. *)
Fixpoint pruned rd rd' k nb last : Prop :=
  match k with
  | O => True
  | S k =>
      nb <> 0 ->
      let q := last / span k in
      rd' nb = clear_from (q + 1) (rd nb) /\
      (forall c b, c ∈ take (Z.to_nat q) (ptrs (rd nb)) -> b ∈ indirs rd k c -> rd' b = rd b) /\
      (0 <= last -> pruned rd rd' k (nth (Z.to_nat q) (ptrs (rd nb)) 0) (last mod span k))
  end.

Lemma span_pos k : 0 < span k.
Proof. unfold span. lia. Qed.
Lemma span_S k : span (S k) = 256 * span k.
Proof. unfold span. replace (8 * Z.of_nat (S k)) with (8 + 8 * Z.of_nat k) by lia. rewrite Z.pow_add_r by lia. done. Qed.
Lemma div_span_neg k last : -1 <= last < 0 -> last / span k = -1.
Proof. intros. assert (last = -1) as -> by lia. pose proof (span_pos k). symmetry. apply (Z.div_unique_pos _ _ _ (span k - 1)); lia. Qed.
Lemma div_span_pos k last : 0 <= last -> 0 <= last / span k.
Proof. intros. pose proof (span_pos k). by apply Z.div_pos. Qed.
Lemma mod_span k last : 0 <= last -> 0 <= last mod span k < span k.
Proof. intros. apply Z.mod_pos_bound, span_pos. Qed.

Lemma kept_gone rd k nb last : -1 <= last -> kept rd k nb last ++ gone rd k nb last ≡ₚ blocks rd k nb.
Proof.
  revert nb last. induction k as [|k IH]; intros nb last Hl; destruct (decide (nb = 0)) as [->|Hn];
    rewrite ?blocks_0; try done.
  - simpl. by rewrite (proj2 (Z.eqb_neq _ _) Hn).
  - rewrite blocks_S by done. cbn [kept gone]. rewrite (proj2 (Z.eqb_neq _ _) Hn). cbn [app]. f_equiv.
    destruct (Z.ltb_spec last 0) as [Hneg|Hpos].
    + rewrite (div_span_neg k last) by lia. cbn [Z.to_nat Z.add Z.pos_sub app take map concat]. by rewrite drop_0.
    + pose proof (div_span_pos k last Hpos). rewrite Z2Nat.inj_add by lia. set (q := Z.to_nat (last / span k)) in *.
      replace (q + Z.to_nat 1)%nat with (S q) by lia. set (ps := ptrs (rd nb)).
      destruct (ps !! q) as [c|] eqn:Ec.
      * rewrite (nth_lookup_Some _ _ _ _ Ec). rewrite <- (take_drop_middle ps q c Ec) at 3.
        rewrite map_app, concat_app. cbn [map concat]. rewrite <- (IH c (last mod span k)) by (pose proof (mod_span k last Hpos); lia).
        rewrite <- !app_assoc. done.
      * apply lookup_ge_None in Ec. rewrite take_ge, drop_ge by lia. rewrite nth_overflow by lia.
        destruct k; by rewrite !app_nil_r.
Qed.
Lemma kept_neg rd k nb last : nb <> 0 -> last < 0 -> kept rd k nb last = [nb].
Proof.
  intros Hn Hl. destruct k; simpl; rewrite (proj2 (Z.eqb_neq _ _) Hn); [done|].
  rewrite (proj2 (Z.ltb_lt _ _) Hl). pose proof (span_pos k).
  assert (last / span k < 0) by (apply Z.div_lt_upper_bound; lia).
  by replace (Z.to_nat (last / span k)) with 0%nat by lia.
Qed.

Lemma ptrs_clear n d : 0 <= n -> ptrs (clear_from n d) = take (Z.to_nat n) (ptrs d) ++ replicate (length d - Z.to_nat n) 0.
Proof.
  intros Hn. unfold ptrs, clear_from. rewrite map_app, firstn_map. f_equal.
  generalize (length d - Z.to_nat n)%nat. intros m. induction m as [|m IH]; [done|]. simpl. by rewrite IH.
Qed.
Lemma clear_from_length n d : length (clear_from n d) = length d.
Proof. unfold clear_from. rewrite length_app, length_take, length_replicate. lia. Qed.
(** The pointers that stay: below [q], and [q] itself when [last] is not -1. *)
Lemma ptrs_pruned rd rd' k nb last :
  -1 <= last -> nb <> 0 -> pruned rd rd' (S k) nb last -> let q := Z.to_nat (last / span k) in let ps := ptrs (rd nb) in
  exists n, ptrs (rd' nb) = take q ps ++ (if last <? 0 then [] else take 1 (drop q ps)) ++ replicate n 0.
Proof.
  intros Hl Hn Hp q ps. destruct (Hp Hn) as [Hd _]. rewrite Hd. destruct (Z.ltb_spec last 0) as [Hneg|Hpos].
  - unfold q. rewrite (div_span_neg k last) by lia. rewrite ptrs_clear by lia. eexists. reflexivity.
  - pose proof (div_span_pos k last Hpos). rewrite ptrs_clear, Z2Nat.inj_add by lia.
    replace (Z.to_nat (last / span k) + Z.to_nat 1)%nat with (q + 1)%nat by lia. eexists.
    rewrite app_assoc. f_equal. symmetry. apply take_take_drop.
Qed.
Lemma take_one_nth q ps : take 1 (drop q ps) = [nth q ps 0] \/ take 1 (drop q ps) = [] /\ nth q ps 0 = 0.
Proof.
  destruct (ps !! q) as [c|] eqn:Ec.
  - left. rewrite (drop_S _ _ _ Ec), (nth_lookup_Some _ _ _ _ Ec). done.
  - right. apply lookup_ge_None in Ec. rewrite drop_ge, nth_overflow by lia. done.
Qed.
Lemma pruned_map {A} (g g' : Z -> list A) rd rd' k nb last :
  -1 <= last -> nb <> 0 -> pruned rd rd' (S k) nb last -> let q := Z.to_nat (last / span k) in let ps := ptrs (rd nb) in
  g' 0 = [] -> (forall c, c ∈ take q ps -> g' c = g c) ->
  concat (map g' (ptrs (rd' nb))) = concat (map g (take q ps)) ++ (if last <? 0 then [] else g' (nth q ps 0)).
Proof.
  intros Hl Hn Hp q ps H0 He. destruct (ptrs_pruned rd rd' k nb last Hl Hn Hp) as [n ->]. fold q. fold ps.
  rewrite !map_app, !concat_app, concat_zero, app_nil_r by done. f_equal.
  - f_equal. apply map_ext_in. intros c Hc%list_elem_of_In. by apply He.
  - destruct (last <? 0); [done|]. destruct (take_one_nth q ps) as [->|[-> ->]]; simpl; [by rewrite app_nil_r|done].
Qed.

Lemma pruned_below rd rd' k nb last c :
  nb <> 0 -> pruned rd rd' (S k) nb last -> c ∈ take (Z.to_nat (last / span k)) (ptrs (rd nb)) ->
  blocks rd' k c = blocks rd k c /\ indirs rd' k c = indirs rd k c /\ forall bn, find_block rd' k c bn = find_block rd k c bn.
Proof. intros Hn Hp Hc. apply tree_ext. intros b Hb. destruct (Hp Hn) as (_&Hs&_). by eapply Hs. Qed.

Lemma pruned_blocks rd rd' k nb last : -1 <= last -> pruned rd rd' k nb last -> blocks rd' k nb = kept rd k nb last.
Proof.
  revert nb last. induction k as [|k IH]; intros nb last Hl Hp; [done|].
  destruct (decide (nb = 0)) as [->|Hn]; [by rewrite blocks_0|].
  rewrite blocks_S by done. cbn [kept]. rewrite (proj2 (Z.eqb_neq _ _) Hn). f_equal.
  rewrite (pruned_map (blocks rd k) (blocks rd' k) rd rd' k nb last Hl Hn Hp (blocks_0 _ _)
    (fun c Hc => proj1 (pruned_below rd rd' k nb last c Hn Hp Hc))).
  f_equal. destruct (Z.ltb_spec last 0); [done|]. apply IH; [pose proof (mod_span k last); lia|]. by apply Hp.
Qed.
Lemma pruned_indirs rd rd' k nb last b : -1 <= last -> pruned rd rd' k nb last -> b ∈ indirs rd' k nb ->
  b ∈ indirs rd k nb /\ length (rd' b) = length (rd b).
Proof.
  revert nb last. induction k as [|k IH]; intros nb last Hl Hp; [simpl; case_match; set_solver|].
  destruct (decide (nb = 0)) as [->|Hn]; [rewrite indirs_0; set_solver|].
  rewrite !indirs_S, !elem_of_cons by done. destruct (Hp Hn) as (Hd&Hs&Hlast).
  rewrite (pruned_map (indirs rd k) (indirs rd' k) rd rd' k nb last Hl Hn Hp (indirs_0 _ _)
    (fun c Hc => proj1 (proj2 (pruned_below rd rd' k nb last c Hn Hp Hc)))).
  rewrite elem_of_app, !elem_of_concat_map. intros [->|[(c&Hc&Hb)|Hb]].
  - split; [by left|]. by rewrite Hd, clear_from_length.
  - split; [right; exists c; split; [|done]; apply elem_of_take in Hc as (?&?&_); by eapply list_elem_of_lookup_2|]. by rewrite (Hs c b).
  - destruct (Z.ltb_spec last 0) as [?|Hpos]; [set_solver|]. pose proof (mod_span k last Hpos).
    destruct (IH (nth (Z.to_nat (last / span k)) (ptrs (rd nb)) 0) (last mod span k)) as [Hin Hlen]; [lia|by apply Hlast|done|].
    split; [|done]. right. exists (nth (Z.to_nat (last / span k)) (ptrs (rd nb)) 0). split; [|done].
    destruct (nth_in_or_default (Z.to_nat (last / span k)) (ptrs (rd nb)) 0) as [Hi|E]; [by apply list_elem_of_In|].
    rewrite E, indirs_0 in Hin. set_solver.
Qed.

Lemma idx_div k bn : 0 <= bn < span (S k) -> idx k bn = Z.to_nat (bn / span k).
Proof.
  intros Hb. unfold idx, NSHIFT, NMASK. rewrite Z.shiftr_div_pow2 by lia. fold (span k).
  change 255 with (Z.ones 8). rewrite Z.land_ones by lia. rewrite Z.mod_small; [done|].
  pose proof (span_pos k). rewrite span_S in Hb. split; [apply Z.div_pos; lia|]. apply Z.div_lt_upper_bound; lia.
Qed.
Lemma idx_mod k k' bn : (k' < k)%nat -> idx k' (bn mod span k) = idx k' bn.
Proof.
  intros Hk. apply Nat2Z.inj. rewrite <- !idx_Z. unfold NSHIFT, NMASK. change 255 with (Z.ones 8).
  apply Z.bits_inj'. intros n Hn. rewrite !Z.land_spec. destruct (decide (n < 8)).
  - rewrite !Z.shiftr_spec by lia. unfold span. rewrite Z.mod_pow2_bits_low by lia. done.
  - by rewrite Z.ones_spec_high, !andb_false_r by lia.
Qed.
Lemma find_block_path rd k nb bn bn' : (forall k', (k' < k)%nat -> idx k' bn' = idx k' bn) -> find_block rd k nb bn' = find_block rd k nb bn.
Proof.
  revert nb. induction k as [|k IH]; intros nb Hp; [done|]. destruct (decide (nb = 0)) as [->|Hn]; [by rewrite !find_block_0|].
  rewrite !find_block_S by done. rewrite Hp by lia. apply IH. intros k' Hk. apply Hp. lia.
Qed.
Lemma find_block_mod rd k nb bn : find_block rd k nb (bn mod span k) = find_block rd k nb bn.
Proof. apply find_block_path. intros k' Hk. by apply idx_mod. Qed.

Lemma pruned_find rd rd' k nb last bn :
  -1 <= last -> (k = 0%nat -> 0 <= last) -> 0 <= bn < span k -> pruned rd rd' k nb last ->
  find_block rd' k nb bn = if bn <=? last then find_block rd k nb bn else 0.
Proof.
  revert nb last bn. induction k as [|k IH]; intros nb last bn Hl H0 Hb Hp.
  { change (span 0) with 1 in Hb. rewrite (proj2 (Z.leb_le bn last)) by (specialize (H0 eq_refl); lia). done. }
  destruct (decide (nb = 0)) as [->|Hn]; [rewrite !find_block_0; by case_match|].
  rewrite !find_block_S by done. rewrite (idx_div k bn Hb). destruct (ptrs_pruned rd rd' k nb last Hl Hn Hp) as [n E].
  pose proof (span_pos k) as Hs. pose proof (div_span_pos k bn ltac:(lia)) as Hi.
  destruct (Z.ltb_spec last 0) as [Hneg|Hpos].
  - rewrite (proj2 (Z.leb_gt bn last)) by lia. rewrite E, (div_span_neg k last) by lia. simpl. rewrite nth_replicate_0.
    apply find_block_0.
  - pose proof (div_span_pos k last Hpos). set (q := last / span k) in *. set (i := bn / span k) in *. set (ps := ptrs (rd nb)) in *.
    assert (bn = span k * i + bn mod span k) as Ebn by (apply Z.div_mod; lia).
    assert (last = span k * q + last mod span k) as El by (apply Z.div_mod; lia).
    pose proof (mod_span k bn). pose proof (mod_span k last).
    destruct (Z.lt_trichotomy i q) as [Hlt|[Heq|Hgt]].
    + rewrite (proj2 (Z.leb_le bn last)) by nia. destruct (ps !! Z.to_nat i) as [c|] eqn:Ec.
      * rewrite (nth_lookup_Some _ _ _ _ Ec). rewrite E, (nth_lookup_Some _ (Z.to_nat i) 0 c).
        -- apply (pruned_below rd rd' k nb last c Hn Hp). apply elem_of_take. exists (Z.to_nat i). split; [done|]. fold q. lia.
        -- rewrite lookup_app_l; [by rewrite lookup_take_lt by lia|]. apply lookup_lt_Some in Ec. rewrite length_take. lia.
      * apply lookup_ge_None in Ec. rewrite (nth_overflow ps) by lia. rewrite E, take_ge, drop_ge by lia.
        cbn [take app]. rewrite app_nth2, nth_replicate_0 by lia. by rewrite !find_block_0.
    + rewrite E, Heq. destruct (take_one_nth (Z.to_nat q) ps) as [Et|[Et Ez]].
      * rewrite Et. assert (length (take (Z.to_nat q) ps) = Z.to_nat q) as Hlen.
        { rewrite length_take. apply (f_equal length) in Et. rewrite length_take, length_drop in Et. cbn [length] in Et. lia. }
        rewrite app_nth2, Hlen, Nat.sub_diag by lia. cbn [nth app].
        rewrite <- find_block_mod, (IH _ (last mod span k)), find_block_mod; [|lia|lia|lia|by apply Hp].
        destruct (Z.leb_spec bn last), (Z.leb_spec (bn mod span k) (last mod span k)); (done || nia).
      * rewrite Et, Ez. assert (length ps <= Z.to_nat q)%nat as Hlen.
        { apply (f_equal length) in Et. rewrite length_take, length_drop in Et. cbn [length] in Et. lia. }
        rewrite take_ge by done. cbn [app]. rewrite app_nth2, nth_replicate_0, !find_block_0 by lia. by case_match.
    + rewrite (proj2 (Z.leb_gt bn last)) by nia. rewrite E. apply eq_trans with (find_block rd' k 0 bn); [|apply find_block_0].
      f_equal. rewrite app_nth2 by (rewrite length_take; lia). rewrite app_nth2, nth_replicate_0; [done|].
      rewrite !length_take, length_drop. lia.
Qed.
End Prune.

(** ** bmap keeps the read-only flag and the layout of the file system *)

Section Ronly.
Definition geo (f : fs) : Z * Z := (fs_ronly f, fs_isize f).
Context {S : Type} `{BlockIO S}.
Lemma balloc_pick_geo n f : geo (balloc_pick n f).1 = geo f.
Proof. revert f. induction n as [|n IH]; intros f; [done|]. cbn [balloc_pick]. repeat case_match; try done. by rewrite IH. Qed.
Lemma balloc_geo now d flags f (s : S) :
  match balloc now d flags f s with Got f' _ _ | NoSpace f' _ => geo f' = geo f | _ => True end.
Proof.
  unfold balloc. destruct (negb (fs_flock f =? 0)); [done|]. pose proof (balloc_pick_geo (Datatypes.S NICFREE) f) as E.
  destruct (balloc_pick _ f) as [f1 [bno|]]; cbn [fst] in E; [|done].
  assert (forall f2 s2, geo f2 = geo f1 -> match balloc_take flags d bno f2 s2 with Got f' _ _ | NoSpace f' _ => geo f' = geo f | _ => True end) as Ht.
  { intros f2 s2 E2. unfold balloc_take. destruct (io_getblk d bno s2) as [[s3 bp]|]; [|done]. destruct (if flag_on flags B_CLRBUF then _ else _); [|done]. transitivity (geo f2); [done|congruence]. }
  destruct (fs_nfree f1 <=? 0); [|by apply Ht].
  destruct (balloc_refill now d bno f1 s) as [[f2 s2]|] eqn:Er; [|done].
  assert (geo f2 = geo f1) as E2.
  { revert Er. unfold balloc_refill.
    destruct (io_bread d bno s) as [[s1 bp]|]; cbn [mbind option_bind]; [|done].
    destruct (io_brelse bp s1) as [s3|]; cbn [mbind option_bind]; [|done].
    destruct (io_getblk d SUPERB s3) as [[s4 bp']|]; cbn [mbind option_bind]; [|done].
    destruct (io_store bp' _ s4) as [s5|]; cbn [mbind option_bind]; [|done].
    destruct (io_write _ bp' s5) as [s6|]; cbn [mbind option_bind]; [|done].
    intros [= <- <-]. by case_match. }
  destruct (fs_nfree f2 <=? 0); [|by apply Ht]. cbn [nospace]. transitivity (geo f2); [done|congruence].
Qed.
Definition geo_kept f (r : mapped S) : Prop := match r with Mapped _ _ _ ip' f' _ => geo f' = geo f | MapStuck => True end.
Lemma then_map_geo {A} f (o : option A) k : (forall a, geo_kept f (k a)) -> geo_kept f (then_map o k).
Proof. intros Hk. destruct o; [apply Hk|done]. Qed.
Lemma with_block_geo now ip flags f s ra fail k :
  (forall f' s bp, geo f' = geo f -> geo_kept f (k f' s bp)) -> geo_kept f (with_block now ip flags f s ra fail k).
Proof.
  intros Hk. unfold with_block. pose proof (balloc_geo now (i_dev ip) flags f s) as E.
  destruct (balloc now (i_dev ip) flags f s); try done; [by apply Hk|]. by apply then_map_geo.
Qed.
Lemma geo_trans f f' r : geo f' = geo f -> geo_kept f' r -> geo_kept f r.
Proof. intros E. destruct r; [|done]. cbn. congruence. Qed.
Lemma bmap_loop_geo fuel now rwflg flags j sh bn nb ra ip f s :
  geo_kept f (bmap_loop fuel now rwflg flags j sh bn nb ra ip f s).
Proof.
  revert j sh nb ra f s. induction fuel as [|fuel IH]; intros j sh nb ra f s; [done|]. cbn [bmap_loop].
  case_match; [done|]. apply then_map_geo. intros [s1 bp]. case_match; [by apply then_map_geo|].
  case_match; [|apply then_map_geo; intros s2; apply IH].
  case_match; [by apply then_map_geo|]. apply with_block_geo. intros f' s2 nbp E.
  do 3 (apply then_map_geo; intros ?). eapply geo_trans; [exact E|]. apply IH.
Qed.
Lemma bmap_geo now rab ip bn rwflg flags f s : geo_kept f (bmap now rab ip bn rwflg flags f s).
Proof.
  unfold bmap. case_match; [done|]. case_match.
  - case_match; [|done]. case_match; [done|]. apply with_block_geo. intros f' s1 bp E. by apply then_map_geo.
  - destruct (bmap_levels 3 3 0 1 (bn - (NADDR - 3))) as [[j sh] bn']. case_match; [done|].
    case_match; [|apply bmap_loop_geo]. case_match; [done|]. apply with_block_geo. intros f' s1 bp E.
    apply then_map_geo. intros s2. eapply geo_trans; [exact E|]. apply bmap_loop_geo.
Qed.
End Ronly.

(** ** Freeing *)

Section Spec.
Context {St : Type} `{BlockIO St} (used : Z -> Z -> Prop) `{!BlockIOSpec St used} (dev : Z).
Implicit Types (f : fs) (s : St) (l B W : list Z) (k : nat) (nb bn : Z) (es : list (nat * Z)) (hs : list held_buf).
Abbreviation rd s := (io_content s dev).
Abbreviation keep := (io_keep io_content used).

(** The callers hold buffers without a block only. *)
Definition all_scratch hs : Prop := Forall (fun h => h_at h = None) hs.
Lemma scratch_none hs p : all_scratch hs -> Some p ∉ h_at <$> hs.
Proof. intros Ha (h&E&Hin)%list_elem_of_fmap. unfold all_scratch in Ha. rewrite Forall_forall in Ha. rewrite Ha in E; done. Qed.

(** Trees of blocks, the free blocks and the buffers: as [tree_at] and
    [file_at], for any trees. *)
Definition eblocks s es : list Z := concat (map (fun e => blocks (rd s) e.1 e.2) es).
Definition eindirs s es : list Z := concat (map (fun e => indirs (rd s) e.1 e.2) es).
Record forest s f l hs es : Prop := {
  fo_ok : io_ok s hs;
  fo_scratch : all_scratch hs;
  fo_frees : frees used dev f s l;
  fo_used : fs_used used dev f;
  fo_whole : forall b, b ∈ eindirs s es -> length (rd s b) = BLKWORDS;
  fo_nodup : NoDup (eblocks s es ++ l);
  fo_data : Forall (data_block f) (eblocks s es) }.

(** The blocks [B] were freed, and only the blocks in [W] were written. *)
Record freed s f l hs s' f' l' B W : Prop := {
  fd_ok : io_ok s' hs;
  fd_frees : frees used dev f' s' l';
  fd_perm : l' ≡ₚ B ++ l;
  fd_isize : fs_isize f' = fs_isize f;
  fd_fsize : fs_fsize f' = fs_fsize f;
  fd_ronly : fs_ronly f' = fs_ronly f;
  fd_keep : keep (fun p => exists x, p = (dev, x) /\ x ∈ W) hs s s' }.

Lemma freed_refl s f l hs : io_ok s hs -> frees used dev f s l -> freed s f l hs s f l [] [].
Proof. intros Hok Hf. by split. Qed.
Lemma freed_trans s0 f0 l0 s1 f1 l1 s2 f2 l2 hs B1 B2 W1 W2 :
  freed s0 f0 l0 hs s1 f1 l1 B1 W1 -> freed s1 f1 l1 hs s2 f2 l2 B2 W2 -> freed s0 f0 l0 hs s2 f2 l2 (B1 ++ B2) (W1 ++ W2).
Proof.
  intros [O1 F1 P1 I1 Z1 R1 K1] [O2 F2 P2 I2 Z2 R2 K2]. split; try done; try congruence.
  - rewrite P2, P1, !app_assoc. f_equiv. apply Permutation_app_comm.
  - eapply (keep_trans used); [|exact K1|exact K2]. intros p [(x&->&Hx)|(x&->&Hx)]; exists x; set_solver.
Qed.
Lemma freed_weaken s f l hs s' f' l' B W B' W' :
  freed s f l hs s' f' l' B W -> B ≡ₚ B' -> (forall x, x ∈ W -> x ∈ W') -> freed s f l hs s' f' l' B' W'.
Proof.
  intros [O1 F1 P1 I1 Z1 R1 [K1 K2]] HB HW. split; try done; [by rewrite <- HB|]. split; [|done].
  intros d x Hu Hn. apply K1; [done|]. intros (y&E&Hy). apply Hn. eauto.
Qed.
Lemma freed_rd s f l hs s' f' l' B W x :
  freed s f l hs s' f' l' B W -> used dev x -> (x ∉ W) -> rd s' x = rd s x.
Proof. intros F Hu Hn. apply (fd_keep _ _ _ _ _ _ _ _ _ F); [done|]. intros (y&[= <-]&Hy). done. Qed.
Lemma freed_geo s f l hs s' f' l' B W b : freed s f l hs s' f' l' B W -> data_block f b -> data_block f' b.
Proof. intros F [? ?]. split; [rewrite (fd_isize _ _ _ _ _ _ _ _ _ F)|rewrite (fd_fsize _ _ _ _ _ _ _ _ _ F)]; done. Qed.

Lemma elem_eblocks s es b : b ∈ eblocks s es <-> exists e, e ∈ es /\ b ∈ blocks (rd s) e.1 e.2.
Proof. apply elem_of_concat_map. Qed.
Lemma elem_eindirs s es b : b ∈ eindirs s es <-> exists e, e ∈ es /\ b ∈ indirs (rd s) e.1 e.2.
Proof. apply elem_of_concat_map. Qed.
Lemma eindirs_eblocks s es b : b ∈ eindirs s es -> b ∈ eblocks s es.
Proof. rewrite elem_eindirs, elem_eblocks. intros (e&He&Hb%indirs_blocks). eauto. Qed.
Lemma eblocks_app s es es' : eblocks s (es ++ es') = eblocks s es ++ eblocks s es'.
Proof. unfold eblocks. by rewrite map_app, concat_app. Qed.
Lemma eblocks_perm s es es' : es ≡ₚ es' -> eblocks s es ≡ₚ eblocks s es'.
Proof.
  induction 1 as [|e es es' _ IH|e e' es|es1 es2 es3 _ IH1 _ IH2]; [done|..]; unfold eblocks in *; cbn [map concat].
  - by f_equiv.
  - rewrite !app_assoc. f_equiv. apply Permutation_app_comm.
  - by etransitivity.
Qed.

Lemma fo_block s f l hs es b : forest s f l hs es -> b ∈ eblocks s es -> data_block f b /\ used dev b /\ b <> SUPERB /\ (b ∉ l).
Proof.
  intros F Hb. pose proof (fo_data _ _ _ _ _ F) as Hd. rewrite Forall_forall in Hd. specialize (Hd b Hb).
  pose proof (wf_isize _ (fr_wf _ _ _ _ _ (fo_frees _ _ _ _ _ F))).
  split_and!; [done|by eapply data_used; [apply F|]|destruct Hd; unfold SUPERB; lia|].
  pose proof (fo_nodup _ _ _ _ _ F) as Hn. apply NoDup_app in Hn as (_&Hn&_). by apply Hn.
Qed.
Lemma fo_free s f l hs es b : forest s f l hs es -> b ∈ l -> data_block f b /\ used dev b /\ (b ∉ eblocks s es).
Proof.
  intros F Hb. pose proof (fr_data _ _ _ _ _ (fo_frees _ _ _ _ _ F)) as Hd. rewrite Forall_forall in Hd. specialize (Hd b Hb).
  split_and!; [done|by eapply data_used; [apply F|]|]. intros Hb'.
  pose proof (fo_nodup _ _ _ _ _ F) as Hn. apply NoDup_app in Hn as (_&Hn&_). by apply (Hn b).
Qed.
Lemma fo_sub s f l hs es es1 es2 : forest s f l hs es -> es ≡ₚ es1 ++ es2 -> forest s f l hs es1.
Proof.
  intros F Hp. pose proof F as [F1 F2 F3 F4 F5 F6 F7]. pose proof (eblocks_perm s _ _ Hp) as Hb. rewrite eblocks_app in Hb.
  split; try done.
  - intros b. rewrite elem_eindirs. intros (e&He&Hin). apply F5, elem_eindirs. exists e. split; [|done]. rewrite Hp. set_solver.
  - rewrite Hb, <- app_assoc in F6. apply NoDup_app in F6 as (N1&N2&N3). apply NoDup_app in N3 as (_&_&N3).
    apply NoDup_app. split_and!; try done. intros x Hx Hl. apply (N2 x Hx). set_solver.
  - rewrite Hb in F7. by apply Forall_app in F7 as [? _].
Qed.

(** The trees that were not touched, after blocks of the others were freed. *)
Lemma eblocks_ext s s' es :
  (forall b, b ∈ eindirs s es -> rd s' b = rd s b) ->
  eblocks s' es = eblocks s es /\ eindirs s' es = eindirs s es /\
  forall e, e ∈ es -> forall bn, find_block (rd s') e.1 e.2 bn = find_block (rd s) e.1 e.2 bn.
Proof.
  intros He. assert (forall e, e ∈ es -> blocks (rd s') e.1 e.2 = blocks (rd s) e.1 e.2 /\
    indirs (rd s') e.1 e.2 = indirs (rd s) e.1 e.2 /\ forall bn, find_block (rd s') e.1 e.2 bn = find_block (rd s) e.1 e.2 bn) as Hx.
  { intros e Hin. apply tree_ext. intros b Hb. apply He, elem_eindirs. eauto. }
  split_and!; [| |by intros e Hin; apply Hx]; unfold eblocks, eindirs; f_equal; apply map_ext_in;
    intros e Hin%list_elem_of_In; by apply Hx.
Qed.
Lemma fo_keep s f l hs hs' es s' :
  forest s f l hs es -> io_ok s' hs' -> all_scratch hs' -> (forall b, used dev b -> b ∈ l \/ b ∈ eindirs s es -> rd s' b = rd s b) ->
  forest s' f l hs' es /\ eblocks s' es = eblocks s es /\ eindirs s' es = eindirs s es.
Proof.
  intros F Hok Hsc He. pose proof F as [F1 F2 F3 F4 F5 F6 F7].
  assert (forall b, b ∈ eindirs s es -> rd s' b = rd s b) as Hx.
  { intros b Hb. apply He; [|by right]. by eapply fo_block, eindirs_eblocks. }
  destruct (eblocks_ext s s' es Hx) as (E1&E2&_). split; [|done]. split; rewrite ?E1; try done.
  - eapply frees_keep; [done|]. intros b Hb. apply He; [|by left]. by eapply fo_free.
  - intros b. rewrite E2. intros Hb. rewrite Hx by done. by apply F5.
Qed.
Lemma fo_after s f l hs es es1 es2 s' f' l' B W :
  forest s f l hs es -> es ≡ₚ es1 ++ es2 -> freed s f l hs s' f' l' B W ->
  (forall x, x ∈ B -> x ∈ eblocks s es1) -> (forall x, x ∈ W -> x ∈ eblocks s es1) ->
  forest s' f' l' hs es2 /\ eblocks s' es2 = eblocks s es2 /\ eindirs s' es2 = eindirs s es2 /\
  forall b, b ∈ eblocks s es2 -> rd s' b = rd s b.
Proof.
  intros F Hp D HB HW. rewrite Permutation_app_comm in Hp. pose proof (fo_sub _ _ _ _ _ _ _ F Hp) as F2.
  assert (forall x, x ∈ eblocks s es2 -> x ∉ eblocks s es1) as Hdis.
  { pose proof (fo_nodup _ _ _ _ _ F) as Hn. rewrite (eblocks_perm s _ _ Hp), eblocks_app in Hn.
    apply NoDup_app in Hn as (Hn&_). apply NoDup_app in Hn as (_&Hn&_). done. }
  assert (forall b, b ∈ eblocks s es2 -> rd s' b = rd s b) as Hs.
  { intros b Hb. eapply freed_rd; [done|by eapply fo_block|]. intros Hw%HW. by apply (Hdis b). }
  destruct (eblocks_ext s s' es2) as (E1&E2&_); [intros b Hb; by apply Hs, eindirs_eblocks|].
  split; [|done]. split; rewrite ?E1.
  - apply D.
  - apply F.
  - apply D.
  - destruct (fo_used _ _ _ _ _ F) as [Hu0 Hu]. split; [done|]. intros b Hb. apply Hu. destruct Hb.
    split; [rewrite <- (fd_isize _ _ _ _ _ _ _ _ _ D)|rewrite <- (fd_fsize _ _ _ _ _ _ _ _ _ D)]; done.
  - intros b. rewrite E2. intros Hb. rewrite Hs by (by apply eindirs_eblocks). by apply (fo_whole _ _ _ _ _ F2).
  - pose proof (fo_nodup _ _ _ _ _ F2) as Hn. apply NoDup_app in Hn as (N1&N2&N3). apply NoDup_app.
    split_and!; [done| |apply (fr_nodup _ _ _ _ _ (fd_frees _ _ _ _ _ _ _ _ _ D))].
    intros x Hx. rewrite (fd_perm _ _ _ _ _ _ _ _ _ D), elem_of_app. intros [Hb|Hb]; [by apply (Hdis x Hx), HB|by apply (N2 x Hx)].
  - eapply Forall_impl; [apply (fo_data _ _ _ _ _ F2)|]. intros b. by eapply freed_geo.
Qed.

Lemma free_ronly bno f s f' s' : free dev bno f s = Some (f', s') -> fs_ronly f' = fs_ronly f.
Proof.
  unfold free, free_spill. case_match; [by intros [= <- <-]|]. case_match; [done|]. case_match; case_match;
    cbn [mbind option_bind]; try (by intros [= <- <-]);
    (destruct (io_getblk dev bno s) as [[s1 bp]|]; cbn [mbind option_bind]; [|done]);
    (destruct (io_store bp _ s1) as [s2|]; cbn [mbind option_bind]; [|done]);
    (destruct (io_write _ bp s2) as [s3|]; cbn [mbind option_bind]; [|done]); by intros [= <- <-].
Qed.
Lemma free_one s f l hs b es :
  forest s f l hs es -> (length hs < Bio.NBUF)%nat -> data_block f b -> (b ∉ l) ->
  exists f' s', free dev b f s = Some (f', s') /\ freed s f l hs s' f' (b :: l) [b] [b].
Proof.
  intros F Hl Hd Hb. pose proof (fo_used _ _ _ _ _ F) as [_ Hu].
  destruct (free_ok used dev b f s hs l) as (f'&s'&E&Hok'&Hfr'&K&Hi&Hz); try done; try apply F.
  - intros x [->|Hx]%elem_of_cons; [by apply Hu|]. by eapply fo_free.
  - apply scratch_none, F.
  - exists f', s'. split; [done|]. split; try done; [by eapply free_ronly|].
    destruct K as [K1 K2]. split; [|done]. intros d x Hx Hn. apply K1; [done|]. intros E'. apply Hn. exists b. set_solver.
Qed.

Definition at_level k (cs : list Z) : list (nat * Z) := map (pair k) cs.
Lemma eblocks_level s k cs : eblocks s (at_level k cs) = concat (map (blocks (rd s) k) cs).
Proof. unfold eblocks, at_level. by rewrite map_map. Qed.
Lemma eindirs_level s k cs : eindirs s (at_level k cs) = concat (map (indirs (rd s) k) cs).
Proof. unfold eindirs, at_level. by rewrite map_map. Qed.
Lemma eblocks_one s k c : eblocks s [(k, c)] = blocks (rd s) k c.
Proof. unfold eblocks. simpl. apply app_nil_r. Qed.
Lemma eindirs_one s k c : eindirs s [(k, c)] = indirs (rd s) k c.
Proof. unfold eindirs. simpl. apply app_nil_r. Qed.

(** [release] frees a whole tree of [k] levels. *)
Definition frees_tree (release : Z -> fs -> St -> option (fs * St)) hs k : Prop :=
  forall s f l c, forest s f l hs [(k, c)] -> c <> 0 ->
  exists f' s' l', release c f s = Some (f', s') /\ freed s f l hs s' f' l' (blocks (rd s) k c) (blocks (rd s) k c).

Lemma free_ptrs_ok release hs k bp last n s f l ps :
  frees_tree release hs k -> Scratch bp ∈ hs -> ptrs (io_data s bp) = ps -> -1 <= last ->
  (Z.to_nat (last + 1) + n <= length ps)%nat -> let cs := take n (drop (Z.to_nat (last + 1)) ps) in
  forest s f l hs (at_level k cs) ->
  exists f' s' l', free_ptrs release n bp last f s = Some (f', s') /\
    freed s f l hs s' f' l' (eblocks s (at_level k cs)) (eblocks s (at_level k cs)).
Proof.
  intros Hrel Hbp Hps Hl. revert s f l Hps. induction n as [|n IH]; intros s f l Hps Hlen cs F; cbn [free_ptrs].
  { exists f, s, l. split; [done|]. apply freed_refl; apply F. }
  replace (last + Z.of_nat (S n)) with (Z.of_nat (Z.to_nat (last + 1) + n)) by lia.
  rewrite get_ptr_nth, Hps. destruct (lookup_lt_is_Some_2 ps (Z.to_nat (last + 1) + n)) as [c Hc]; [lia|].
  rewrite (nth_lookup_Some _ _ _ _ Hc). set (cs' := take n (drop (Z.to_nat (last + 1)) ps)).
  assert (cs = cs' ++ [c]) as Ecs by (apply take_S_r; by rewrite lookup_drop).
  assert (at_level k cs ≡ₚ [(k, c)] ++ at_level k cs') as Hp.
  { rewrite Ecs. unfold at_level. rewrite map_app. apply Permutation_app_comm. }
  pose proof (eblocks_perm s _ _ Hp) as Hb. rewrite eblocks_app, eblocks_one in Hb.
  destruct (Z.eqb_spec c 0) as [->|Hn]; cbn [negb mbind option_bind].
  - rewrite Permutation_app_comm in Hp. destruct (IH s f l) as (f'&s'&l'&->&D); [done|lia|by eapply fo_sub|].
    exists f', s', l'. split; [done|]. rewrite blocks_0 in Hb. eapply freed_weaken; [exact D|done|].
    intros x. by rewrite Hb.
  - destruct (Hrel s f l c) as (f1&s1&l1&->&D1); [by eapply fo_sub|done|]. cbn [mbind option_bind].
    destruct (fo_after _ _ _ _ _ _ _ _ _ _ _ _ F Hp D1) as (F1&E1&_); [by intros x; rewrite eblocks_one..|].
    assert (io_data s1 bp = io_data s bp) as Hd by (apply (fd_keep _ _ _ _ _ _ _ _ _ D1 : keep _ _ _ _) in Hbp; done).
    destruct (IH s1 f1 l1) as (f'&s'&l'&->&D); [by rewrite Hd|lia|done|]. exists f', s', l'. split; [done|].
    fold cs' in D. rewrite E1 in D. eapply freed_weaken; [exact (freed_trans _ _ _ _ _ _ _ _ _ _ _ _ _ _ D1 D)|done|].
    intros x. by rewrite Hb.
Qed.

(** The indirect block is copied to a buffer of its own and cleared from the
    pointer [n] on. *)
Lemma cut_block s hs nb n w :
  io_ok s hs -> all_scratch hs -> used dev nb -> (length hs + 2 <= Bio.NBUF)%nat ->
  exists s1 bp s2 cpy s3 s4 s5, io_bread dev nb s = Some (s1, bp) /\ io_berror s1 bp = false /\
    io_geteblk s1 = Some (s2, cpy) /\ io_store cpy (io_data s2 bp) s2 = Some s3 /\
    io_store bp (clear_from n (io_data s3 bp)) s3 = Some s4 /\ io_write w bp s4 = Some s5 /\
    io_ok s5 (Scratch cpy :: hs) /\ io_data s5 cpy = rd s nb /\ rd s5 nb = clear_from n (rd s nb) /\
    keep (fun p => p = (dev, nb)) hs s s5.
Proof.
  intros Hok Ha Hu Hl.
  destruct (io_bread_law s hs dev nb Hok Hu (scratch_none _ _ Ha)) as (s1&bp&E1&Hok1&_&Hd1&K1); [lia|].
  pose proof (proj1 (io_clean_law s1 _ _ Hok1)) as He. cbn [h_bp] in He.
  destruct (io_geteblk_law s1 _ Hok1) as (s2&cpy&E2&Hok2&K2); [cbn [length]; lia|].
  assert (Held bp dev nb true ∈ Held bp dev nb true :: hs) as Hin by (apply list_elem_of_here).
  assert (io_data s2 bp = rd s nb) as Hd2 by (rewrite <- Hd1; apply (proj2 K2 _ Hin)).
  destruct (io_store_scratch s2 _ cpy (io_data s2 bp) Hok2) as (s3&E3&Hok3&Hd3&K3).
  assert (io_data s3 bp = rd s nb) as Hd3' by (rewrite <- Hd2; apply (proj2 K3 _ Hin)).
  apply (io_perm _ _ (Held bp dev nb true :: Scratch cpy :: hs)) in Hok3; [|by apply perm_swap].
  destruct (io_store_law s3 _ bp dev nb true (clear_from n (io_data s3 bp)) Hok3) as (s4&E4&Hok4&Hd4&K4).
  destruct (io_write_law s4 _ w bp dev nb false Hok4) as (s5&E5&Hok5&C5&K5).
  exists s1, bp, s2, cpy, s3, s4, s5. split_and!; try done.
  - assert (Scratch cpy ∈ Scratch cpy :: hs) as Hs by apply list_elem_of_here.
    transitivity (io_data s4 cpy); [apply (proj2 K5 _ Hs)|]. transitivity (io_data s3 cpy); [apply (proj2 K4 _ Hs)|].
    by rewrite Hd3.
  - by rewrite C5, Hd4, Hd3'.
  - eapply (keep_trans used); [|exact K1|eapply (keep_trans used); [|eapply keep_less, K2; set_solver|
      eapply (keep_trans used); [|eapply keep_less, K3; set_solver|
      eapply (keep_trans used); [|eapply keep_less, K4; set_solver|eapply keep_less, K5; set_solver]]]].
    all: intros p [?|?]; try done; eassumption.
Qed.

Lemma prune_ext (r r' : Z -> list Z) k nb last :
  -1 <= last -> (forall b, b ∈ indirs r k nb -> r' b = r b) ->
  gone r' k nb last = gone r k nb last /\ forall r2, pruned r' r2 k nb last -> pruned r r2 k nb last.
Proof.
  revert nb last. induction k as [|k IH]; intros nb last Hl He; [done|].
  destruct (decide (nb = 0)) as [->|Hn]; [by split; [|intros r2 _ []]|].
  rewrite indirs_S in He by done. assert (r' nb = r nb) as E by (apply He; set_solver).
  assert (forall c, c ∈ ptrs (r nb) -> forall b, b ∈ indirs r k c -> r' b = r b) as Hc.
  { intros c Hc b Hb. apply He, list_elem_of_further, elem_of_concat_map. eauto. }
  set (c := nth (Z.to_nat (last / span k)) (ptrs (r nb)) 0).
  assert (forall b, b ∈ indirs r k c -> r' b = r b) as Hcc.
  { intros b Hb. destruct (nth_in_or_default (Z.to_nat (last / span k)) (ptrs (r nb)) 0) as [Hi|E0];
      [by apply (Hc c); [apply list_elem_of_In|]|]. unfold c in Hb. rewrite E0, indirs_0 in Hb. set_solver. }
  split.
  - cbn [gone]. rewrite (proj2 (Z.eqb_neq _ _) Hn), E. fold c. f_equal.
    + destruct (Z.ltb_spec last 0) as [|Hpos]; [done|]. apply IH; [pose proof (mod_span k last Hpos); lia|done].
    + f_equal. apply map_ext_in. intros x Hx%list_elem_of_In. apply tree_ext. apply Hc.
      rewrite <- (take_drop (Z.to_nat (last / span k + 1)) (ptrs (r nb))). apply elem_of_app. by right.
  - intros r2 Hp _. destruct (Hp Hn) as (H1&H2&H3). rewrite E in *. split_and!; [done| |].
    + intros x b Hx Hb. assert (x ∈ ptrs (r nb)) as Hin by (apply elem_of_take in Hx as (?&?&_); by eapply list_elem_of_lookup_2).
      rewrite (H2 x b Hx); [by apply (Hc x)|]. destruct (tree_ext r r' k x (Hc x Hin)) as (_&->&_). done.
    + intros Hpos. apply IH; [pose proof (mod_span k last Hpos); lia|done|by apply H3].
Qed.
Lemma pruned_after (r r2 r2' : Z -> list Z) k nb last :
  pruned r r2 k nb last -> -1 <= last -> (forall b, b ∈ indirs r k nb -> r2' b = r2 b) -> pruned r r2' k nb last.
Proof.
  revert nb last. induction k as [|k IH]; intros nb last Hp Hl He; [done|]. intros Hn.
  rewrite indirs_S in He by done. destruct (Hp Hn) as (H1&H2&H3). split_and!.
  - rewrite He by set_solver. done.
  - intros c b Hc Hb. rewrite He; [by eapply H2|]. apply list_elem_of_further, elem_of_concat_map. exists c. split; [|done].
    apply elem_of_take in Hc as (?&?&_). by eapply list_elem_of_lookup_2.
  - intros Hpos. apply IH; [by apply H3|pose proof (mod_span k last Hpos); lia|]. intros b Hb. apply He.
    apply list_elem_of_further, elem_of_concat_map. eexists. split; [|exact Hb].
    destruct (nth_in_or_default (Z.to_nat (last / span k)) (ptrs (r nb)) 0) as [?|E]; [by apply list_elem_of_In|].
    rewrite E, indirs_0 in Hb. set_solver.
Qed.
Lemma gone_sub (r : Z -> list Z) k nb last b : -1 <= last -> b ∈ gone r k nb last -> b ∈ blocks r k nb.
Proof. intros Hl Hb. rewrite <- (kept_gone r k nb last Hl). set_solver. Qed.

(** The trees below a pointer. *)
Lemma fo_children s f l hs k nb :
  forest s f l hs [(S k, nb)] -> nb <> 0 ->
  forest s f l hs (at_level k (ptrs (rd s nb))) /\ (nb ∉ eblocks s (at_level k (ptrs (rd s nb)))) /\
  length (ptrs (rd s nb)) = 256%nat.
Proof.
  intros F Hn. pose proof F as [F1 F2 F3 F4 F5 F6 F7]. rewrite eblocks_one, blocks_S in F6, F7 by done.
  rewrite eblocks_level. apply NoDup_cons in F6 as [N1 N2]. apply Forall_cons in F7 as [D1 D2]. split_and!.
  - split; try done; rewrite ?eblocks_level; try done. intros b. rewrite eindirs_level. intros Hb. apply F5.
    rewrite eindirs_one, indirs_S by done. set_solver.
  - set_solver.
  - unfold ptrs. rewrite length_map. apply F5. rewrite eindirs_one, indirs_S by done. set_solver.
Qed.

(** What indirtrunc is to do, at one level. *)
Definition truncates (level : nat) : Prop :=
  forall nb last aflags s f l hs, forest s f l hs [(S level, nb)] -> nb <> 0 -> -1 <= last < span (S level) ->
  (length hs + level + 2 <= Bio.NBUF)%nat ->
  exists f' s' l', indirtrunc level dev nb last aflags f s = Some (f', s') /\
    freed s f l hs s' f' l' (gone (rd s) (S level) nb last) (gone (rd s) (S level) nb last ++ indirs (rd s) (S level) nb) /\
    pruned (rd s) (rd s') (S level) nb last.

(** A tree that goes away whole. *)
Lemma release_tree_ok level aflags hs :
  truncates level -> (length hs + level + 2 <= Bio.NBUF)%nat ->
  frees_tree (fun nb f s => '(f, s) ← indirtrunc level dev nb (-1) aflags f s; free dev nb f s) hs (S level).
Proof.
  intros IH Hl s f l c F Hc. pose proof (span_pos (S level)).
  destruct (IH c (-1) aflags s f l hs F Hc) as (f1&s1&l1&E1&D1&_); [lia|done|].
  pose proof (kept_gone (rd s) (S level) c (-1) ltac:(lia)) as Hk. rewrite kept_neg in Hk by (done || lia). cbn [app] in Hk.
  assert (c ∈ eblocks s [(S level, c)]) as Hin by (rewrite eblocks_one, <- Hk; set_solver).
  destruct (fo_block _ _ _ _ _ _ F Hin) as (Hd&_&_&Hcl).
  pose proof (fo_nodup _ _ _ _ _ F) as Hn. rewrite eblocks_one in Hn. rewrite <- Hk in Hn. apply NoDup_cons in Hn as [Hn _].
  assert (forest s1 f1 l1 hs []) as F1.
  { eapply (fo_after s f l hs _ [(S level, c)] []); [exact F|done|exact D1|..]; rewrite eblocks_one.
    - intros x Hx. by eapply gone_sub; [|exact Hx].
    - intros x [Hx|Hx]%elem_of_app; [by eapply gone_sub; [|exact Hx]|by apply indirs_blocks]. }
  destruct (free_one s1 f1 l1 hs c [] F1) as (f2&s2&E2&D2); [lia|by eapply freed_geo| |].
  { rewrite (fd_perm _ _ _ _ _ _ _ _ _ D1). set_solver. }
  exists f2, s2, (c :: l1). rewrite E1. cbn [mbind option_bind]. split; [done|].
  eapply freed_weaken; [exact (freed_trans _ _ _ _ _ _ _ _ _ _ _ _ _ _ D1 D2)| |].
  - rewrite <- Hk. rewrite Permutation_app_comm. done.
  - intros x. rewrite <- Hk, !elem_of_app. intros [[Hx|Hx%indirs_blocks]|Hx]; [set_solver| |set_solver]. by rewrite Hk.
Qed.
Lemma free_tree_0 hs : (length hs < Bio.NBUF)%nat -> frees_tree (free dev) hs 0.
Proof.
  intros Hl s f l c F Hc. assert (c ∈ eblocks s [(0%nat, c)]) as Hin by (rewrite eblocks_one, blocks_O by done; set_solver).
  destruct (fo_block _ _ _ _ _ _ F Hin) as (Hd&_&_&Hcl). destruct (free_one s f l hs c _ F Hl Hd Hcl) as (f'&s'&E&D).
  exists f', s', (c :: l). rewrite blocks_O by done. done.
Qed.

Lemma factor_span level : (level <= 2)%nat -> factor level = span level.
Proof. intros Hl. destruct level as [|[|[|]]]; (done || lia). Qed.
Lemma last_div level last :
  (level <= 2)%nat -> -1 <= last -> (if 0 <? last then Z.quot last (factor level) else last) = last / span level.
Proof.
  intros Hl Hlast. rewrite factor_span by done. pose proof (span_pos level). destruct (Z.ltb_spec 0 last).
  - apply Z.quot_div_nonneg; lia.
  - destruct (decide (last = 0)) as [->|]; [by rewrite Z.div_0_l by lia|]. rewrite div_span_neg; lia.
Qed.

(** The loop over the pointers, and the tree the new end lies in. *)
Section Body.
Context (level : nat) (cpy lastbn aflags : Z) (s : St) (f : fs) (l : list Z) (hs : list held_buf) (ps : list Z).
Hypothesis (Hcpy : Scratch cpy ∈ hs) (Hps : ptrs (io_data s cpy) = ps)
  (Hlen : length ps = 256%nat) (F : forest s f l hs (at_level level ps)) (Hlast : -1 <= lastbn < span (S level)).
Let last : Z := lastbn / span level.
Let c : Z := nth (Z.to_nat last) ps 0.
Let part : list Z := if lastbn <? 0 then [] else gone (rd s) level c (lastbn mod span level).
Let rest : list Z := concat (map (blocks (rd s) level) (drop (Z.to_nat (last + 1)) ps)).
Let lo : list Z := take (Z.to_nat (last + 1)) ps.

Lemma body_last : -1 <= last < 256.
Proof.
  pose proof (span_pos level). unfold last. rewrite span_S in Hlast. split; [|apply Z.div_lt_upper_bound; lia].
  destruct (decide (0 <= lastbn)); [pose proof (div_span_pos level lastbn); lia|rewrite div_span_neg; lia].
Qed.
Lemma body_split : at_level level ps ≡ₚ at_level level (drop (Z.to_nat (last + 1)) ps) ++ at_level level lo.
Proof.
  unfold at_level. rewrite <- map_app. apply Permutation_map. rewrite Permutation_app_comm. unfold lo. by rewrite take_drop.
Qed.
Lemma body_loop release : frees_tree release hs level ->
  exists f1 s1 l1, free_ptrs release (Z.to_nat (NINDIR - 1 - last)) cpy last f s = Some (f1, s1) /\
    freed s f l hs s1 f1 l1 rest rest.
Proof.
  intros Hrel. pose proof body_last as Hl.
  assert (take (Z.to_nat (NINDIR - 1 - last)) (drop (Z.to_nat (last + 1)) ps) = drop (Z.to_nat (last + 1)) ps) as Ehi
    by (apply take_ge; rewrite length_drop; unfold NINDIR; lia).
  destruct (free_ptrs_ok release hs level cpy last (Z.to_nat (NINDIR - 1 - last)) s f l ps)
    as (f1&s1&l1&E&D); [done|done|done|lia|unfold NINDIR; lia| |].
  - rewrite Ehi. eapply fo_sub; [exact F|apply body_split].
  - exists f1, s1, l1. split; [done|]. rewrite Ehi, eblocks_level in D. exact D.
Qed.
Lemma body_after f1 s1 l1 : freed s f l hs s1 f1 l1 rest rest ->
  forest s1 f1 l1 hs (at_level level lo) /\ forall x b, x ∈ lo -> b ∈ blocks (rd s) level x -> rd s1 b = rd s b.
Proof.
  intros D1. destruct (fo_after _ _ _ _ _ _ _ _ _ _ _ _ F body_split D1) as (F1&_&_&Hsame); [by rewrite eblocks_level..|].
  split; [done|]. intros x b Hx Hb. apply Hsame. rewrite eblocks_level, elem_of_concat_map. eauto.
Qed.
Lemma body_lo x : x ∈ take (Z.to_nat last) ps -> x ∈ lo.
Proof. pose proof body_last. intros (i&Hi&Hlt)%elem_of_take. apply elem_of_take. exists i. split; [done|lia]. Qed.
Lemma body_lo_c : 0 <= lastbn -> lo = take (Z.to_nat last) ps ++ [c].
Proof.
  intros Hpos. pose proof body_last. pose proof (div_span_pos level lastbn Hpos) as Hq. fold last in Hq.
  unfold lo. replace (Z.to_nat (last + 1)) with (S (Z.to_nat last)) by lia.
  apply take_S_r. destruct (lookup_lt_is_Some_2 ps (Z.to_nat last)) as [y Hy]; [lia|]. unfold c. by rewrite (nth_lookup_Some _ _ _ _ Hy).
Qed.
(** What is to be shown of the state at the end. *)
Definition body_post (f' : fs) (s' : St) (l' : list Z) : Prop :=
  freed s f l hs s' f' l' (rest ++ part) (rest ++ part ++ indirs (rd s) level c) /\
  (forall x b, x ∈ take (Z.to_nat last) ps -> b ∈ blocks (rd s) level x -> rd s' b = rd s b) /\
  (0 <= lastbn -> pruned (rd s) (rd s') level c (lastbn mod span level)).
(** There is no tree to cut at the end. *)
Lemma body_simple f1 s1 l1 :
  freed s f l hs s1 f1 l1 rest rest -> level = 0%nat \/ lastbn < 0 \/ c = 0 -> body_post f1 s1 l1.
Proof.
  intros D1 Hcase.
  assert (part = [] /\ (0 <= lastbn -> forall r', pruned (rd s) r' level c (lastbn mod span level))) as [Ep Hpr].
  { unfold part. destruct (Z.ltb_spec lastbn 0); [by split; [|lia]|]. destruct Hcase as [E|[?|Hc]]; [|lia|].
    - rewrite E. simpl. split; [by case_match|done].
    - rewrite Hc. split; [by destruct level|]. intros _ r'. destruct level; [done|]. by intros []. }
  split_and!; [|intros x b Hx Hb; eapply body_after; eauto using body_lo|auto].
  eapply freed_weaken; [exact D1|by rewrite Ep, app_nil_r|set_solver].
Qed.
(** There is: indirtrunc is called for it. *)
Lemma body_cut level' f1 s1 l1 :
  level = S level' -> truncates level' -> (length hs + level + 1 <= Bio.NBUF)%nat -> 0 <= lastbn -> c <> 0 ->
  freed s f l hs s1 f1 l1 rest rest ->
  exists f' s' l', indirtrunc level' dev c (lastbn mod span level) aflags f1 s1 = Some (f', s') /\ body_post f' s' l'.
Proof.
  intros El IH Hhs Hpos Hc D1. destruct (body_after f1 s1 l1 D1) as [F1 Hsame]. pose proof (body_lo_c Hpos) as Elo.
  pose proof (mod_span level lastbn Hpos) as Hmod.
  assert (at_level level lo ≡ₚ [(level, c)] ++ at_level level (take (Z.to_nat last) ps)) as Hp2.
  { rewrite Elo. unfold at_level. rewrite map_app. apply Permutation_app_comm. }
  destruct (IH c (lastbn mod span level) aflags s1 f1 l1 hs) as (f2&s2&l2&E2&D2&P2);
    [rewrite <- El; by eapply fo_sub|done|rewrite <- El; lia|lia|]. rewrite <- El in *.
  assert (forall b, b ∈ blocks (rd s) level c -> rd s1 b = rd s b) as Hc1.
  { intros b Hb. apply (Hsame c); [|done]. rewrite Elo. set_solver. }
  destruct (prune_ext (rd s) (rd s1) level c (lastbn mod span level)) as [Eg Ep]; [lia|intros b Hb%indirs_blocks; auto|].
  destruct (tree_ext (rd s) (rd s1) level c) as (Eb&Ei&_); [intros b Hb%indirs_blocks; auto|].
  rewrite Eg, Ei in D2. exists f2, s2, l2. split; [exact E2|]. split; [|split; [|intros _; by apply Ep]].
  - unfold part. rewrite (proj2 (Z.ltb_ge lastbn 0)) by lia.
    eapply freed_weaken; [exact (freed_trans _ _ _ _ _ _ _ _ _ _ _ _ _ _ D1 D2)|done|set_solver].
  - intros x b Hx Hb. destruct (fo_after _ _ _ _ _ _ _ _ _ _ _ _ F1 Hp2 D2) as (_&_&_&Hs2).
    + intros y Hy. rewrite eblocks_one, Eb. by eapply gone_sub; [|exact Hy]; lia.
    + intros y. rewrite eblocks_one, Eb. intros [Hy|Hy]%elem_of_app; [by eapply gone_sub; [|exact Hy]; lia|by apply indirs_blocks].
    + pose proof (body_lo x Hx) as Hxl. rewrite Hs2; [by apply (Hsame x)|].
      rewrite eblocks_level, elem_of_concat_map. exists x. split; [done|].
      destruct (tree_ext (rd s) (rd s1) level x) as (->&_); [|done]. intros y Hy%indirs_blocks. by apply (Hsame x).
Qed.
End Body.

Lemma trunc_body level cpy lastbn aflags s f l hs ps :
  match level with O => True | S level' => truncates level' end -> (level <= 2)%nat ->
  Scratch cpy ∈ hs -> ptrs (io_data s cpy) = ps -> length ps = 256%nat -> forest s f l hs (at_level level ps) ->
  -1 <= lastbn < span (S level) -> (length hs + level + 1 <= Bio.NBUF)%nat ->
  let last := lastbn / span level in
  exists f' s' l',
    match level with
    | O => trsingle dev cpy last f s
    | S level' =>
        '(f, s) ← free_ptrs (fun nb f s => '(f, s) ← indirtrunc level' dev nb (-1) aflags f s; free dev nb f s)
            (Z.to_nat (NINDIR - 1 - last)) cpy last f s;
        if 0 <=? lastbn then
          let nb := get_ptr (io_data s cpy) last in
          if negb (nb =? 0) then indirtrunc level' dev nb (Z.rem lastbn (factor level)) aflags f s else Some (f, s)
        else Some (f, s)
    end = Some (f', s') /\ body_post level lastbn s f l hs ps f' s' l'.
Proof.
  intros IH Hlv Hcpy Hps Hlen F Hlast Hhs last. destruct level as [|level].
  - destruct (body_loop 0 cpy lastbn s f l hs ps Hcpy Hps Hlen F Hlast (free dev)) as (f1&s1&l1&E&D1); [apply free_tree_0; lia|].
    exists f1, s1, l1. split; [exact E|]. eapply body_simple; eauto.
  - destruct (body_loop (S level) cpy lastbn s f l hs ps Hcpy Hps Hlen F Hlast
      (fun nb f s => '(f, s) ← indirtrunc level dev nb (-1) aflags f s; free dev nb f s)) as (f1&s1&l1&E&D1);
      [apply release_tree_ok; [done|lia]|]. fold last in E. rewrite E. cbn [mbind option_bind].
    destruct (Z.leb_spec 0 lastbn) as [Hpos|Hneg]; [|exists f1, s1, l1; split; [done|]; eapply body_simple; eauto].
    assert (io_data s1 cpy = io_data s cpy) as Hd by (apply (fd_keep _ _ _ _ _ _ _ _ _ D1 : keep _ _ _ _) in Hcpy; done).
    pose proof (div_span_pos (S level) lastbn Hpos) as Hq. fold last in Hq. cbn zeta.
    assert (get_ptr (io_data s1 cpy) last = nth (Z.to_nat last) ps 0) as -> by (by rewrite Hd, <- (Z2Nat.id last Hq), get_ptr_nth, Hps, Nat2Z.id).
    destruct (Z.eqb_spec (nth (Z.to_nat last) ps 0) 0) as [Hc0|Hc]; cbn [negb];
      [exists f1, s1, l1; split; [done|]; eapply body_simple; eauto|].
    pose proof (span_pos (S level)). rewrite factor_span, Z.rem_mod_nonneg by lia.
    eapply body_cut; eauto.
Qed.

(** From the states between to the whole call: [s5] is the state with the
    block cleared, [s7] the one before the copy is released. *)
Section Cut.
Context (s s5 s7 s8 : St) (f f7 : fs) (l l7 : list Z) (hs : list held_buf) (nb : Z) (level : nat) (lastbn cpy : Z).
Let ps : list Z := ptrs (rd s nb).
Let q : Z := lastbn / span level.
Let c : Z := nth (Z.to_nat q) ps 0.
Hypothesis (F : forest s f l hs [(S level, nb)]) (Hn : nb <> 0) (Hlast : -1 <= lastbn).
Hypothesis (K5 : keep (fun p => p = (dev, nb)) hs s s5) (C5 : rd s5 nb = clear_from (q + 1) (rd s nb)).

Lemma cut_below x b : x = 0 \/ x ∈ ps -> b ∈ blocks (rd s) level x -> used dev b /\ b <> nb /\ rd s5 b = rd s b.
Proof.
  destruct (fo_children s f l hs level nb F Hn) as (Fc&Hnb&_). rewrite eblocks_level in Hnb. fold ps in Hnb.
  intros [->|Hx] Hb; [rewrite blocks_0 in Hb; by apply not_elem_of_nil in Hb|].
  assert (b ∈ concat (map (blocks (rd s) level) ps)) as Hbe by (apply elem_of_concat_map; eauto).
  assert (used dev b) as Hu by (apply (fo_block _ _ _ _ _ b Fc); by rewrite eblocks_level).
  assert (b <> nb) as Hne by (by intros ->). split_and!; [done|done|]. apply K5; [done|congruence].
Qed.
Lemma cut_c : c = 0 \/ c ∈ ps.
Proof. destruct (nth_in_or_default (Z.to_nat q) ps 0) as [?|?]; [right; by apply list_elem_of_In|by left]. Qed.
Lemma cut_same x : x = 0 \/ x ∈ ps -> blocks (rd s5) level x = blocks (rd s) level x /\ indirs (rd s5) level x = indirs (rd s) level x.
Proof. intros Hx. destruct (tree_ext (rd s) (rd s5) level x) as (?&?&_); [|done]. intros b Hb%indirs_blocks. by eapply cut_below. Qed.
Lemma cut_part : 0 <= lastbn ->
  gone (rd s5) level c (lastbn mod span level) = gone (rd s) level c (lastbn mod span level) /\
  forall r2, pruned (rd s5) r2 level c (lastbn mod span level) -> pruned (rd s) r2 level c (lastbn mod span level).
Proof.
  intros Hpos. pose proof (mod_span level lastbn Hpos). apply prune_ext; [lia|].
  intros b Hb%indirs_blocks. eapply cut_below; [apply cut_c|done].
Qed.
Let rest5 : list Z := concat (map (blocks (rd s5) level) (drop (Z.to_nat (q + 1)) ps)).
Let part5 : list Z := if lastbn <? 0 then [] else gone (rd s5) level c (lastbn mod span level).
Lemma cut_gone : gone (rd s) (S level) nb lastbn = part5 ++ rest5.
Proof.
  cbn [gone]. rewrite (proj2 (Z.eqb_neq _ _) Hn). f_equal.
  - unfold part5. destruct (Z.ltb_spec lastbn 0) as [|Hpos]; [done|]. symmetry. apply (cut_part Hpos).
  - unfold rest5. f_equal. apply map_ext_in. intros x Hx%list_elem_of_In. symmetry. apply cut_same. right.
    rewrite <- (take_drop (Z.to_nat (q + 1)) ps). apply elem_of_app. by right.
Qed.
Lemma cut_nb : (nb ∉ gone (rd s) (S level) nb lastbn) /\ used dev nb.
Proof.
  assert (nb ∈ eblocks s [(S level, nb)]) as Hin by (rewrite eblocks_one, blocks_S by done; apply list_elem_of_here).
  split; [|by eapply fo_block]. intros Hb. pose proof (fo_nodup _ _ _ _ _ F) as Hnd.
  rewrite eblocks_one, <- (kept_gone _ _ _ lastbn) in Hnd by done.
  apply NoDup_app in Hnd as (Hnd&_). apply NoDup_app in Hnd as (_&Hnd&_). apply (Hnd nb); [|done].
  cbn [kept]. rewrite (proj2 (Z.eqb_neq _ _) Hn). apply list_elem_of_here.
Qed.
Lemma cut_indirs b : b ∈ indirs (rd s5) level c -> b ∈ indirs (rd s) (S level) nb /\ b <> nb /\ used dev b.
Proof.
  rewrite (proj2 (cut_same c cut_c)). intros Hb. destruct (cut_below c b cut_c (indirs_blocks _ _ _ _ Hb)) as (Hu&Hne&_).
  split_and!; [|done|done]. rewrite indirs_S by done. apply list_elem_of_further, elem_of_concat_map.
  destruct cut_c as [Hc|Hc]; [rewrite Hc, indirs_0 in Hb; by apply not_elem_of_nil in Hb|eauto].
Qed.

Hypothesis (D7 : freed s5 f l (Scratch cpy :: hs) s7 f7 l7 (rest5 ++ part5) (rest5 ++ part5 ++ indirs (rd s5) level c))
  (S7 : forall x b, x ∈ take (Z.to_nat q) ps -> b ∈ blocks (rd s5) level x -> rd s7 b = rd s5 b)
  (P7 : 0 <= lastbn -> pruned (rd s5) (rd s7) level c (lastbn mod span level))
  (Hok8 : io_ok s8 hs) (K8 : keep (fun _ => False) hs s7 s8).
Lemma cut_s8 b : used dev b -> rd s8 b = rd s7 b.
Proof. intros Hb. apply K8; auto. Qed.
Lemma cut_freed : freed s f l hs s8 f7 l7 (gone (rd s) (S level) nb lastbn) (gone (rd s) (S level) nb lastbn ++ indirs (rd s) (S level) nb).
Proof.
  pose proof D7 as [O7 R7 Q7 I7 Z7 Y7 K7]. rewrite cut_gone. split; try done.
  - eapply frees_keep; [exact R7|]. intros b Hb. apply cut_s8.
    eapply data_used; [apply F|]. pose proof (fr_data _ _ _ _ _ R7) as Hda. rewrite Forall_forall in Hda.
    destruct (Hda b Hb). split; congruence.
  - rewrite Q7. f_equiv. apply Permutation_app_comm.
  - eapply (keep_trans used); [|exact K5|eapply (keep_trans used); [|eapply keep_less, K7; intros x Hx; by apply list_elem_of_further|exact K8]].
    2:{ intros p [Hp|[]]. exact Hp. }
    intros p [->|(x&->&Hx)]; eexists; (split; [reflexivity|]).
    + apply elem_of_app. right. rewrite indirs_S by done. apply list_elem_of_here.
    + apply elem_of_app in Hx as [Hx|[Hx|Hx]%elem_of_app]; rewrite !elem_of_app; [tauto..|]. right. by apply cut_indirs.
Qed.
Lemma cut_pruned : pruned (rd s) (rd s8) (S level) nb lastbn.
Proof.
  intros _. fold ps q c. destruct cut_nb as [Hng Hu]. rewrite cut_gone, elem_of_app in Hng. split_and!.
  - rewrite cut_s8 by done. rewrite (freed_rd _ _ _ _ _ _ _ _ _ nb D7 Hu), C5; [done|].
    intros [Hx|[Hx|Hx]%elem_of_app]%elem_of_app; [tauto..|]. by destruct (cut_indirs nb Hx) as (_&?&_).
  - intros x b Hx Hb%indirs_blocks.
    assert (x = 0 \/ x ∈ ps) as Hxp by (right; apply elem_of_take in Hx as (?&?&_); by eapply list_elem_of_lookup_2).
    destruct (cut_below x b Hxp Hb) as (Hbu&_&E). rewrite cut_s8, (S7 x b Hx), E; [done|by rewrite (proj1 (cut_same x Hxp))|done].
  - intros Hpos. apply (proj2 (cut_part Hpos)).
    eapply pruned_after; [exact (P7 Hpos)|pose proof (mod_span level lastbn Hpos); lia|].
    intros b Hb. by apply cut_s8, cut_indirs.
Qed.
End Cut.

Lemma indirtrunc_ok level : (level <= 2)%nat -> truncates level.
Proof.
  induction level as [level IHl] using lt_wf_ind. intros Hlv nb lastbn aflags s f l hs F Hn Hlast Hhs.
  assert (match level with O => True | S level' => truncates level' end) as IH by (destruct level; [done|apply IHl; lia]).
  destruct (fo_children s f l hs level nb F Hn) as (Fc&Hnb&Hlen). set (ps := ptrs (rd s nb)) in *.
  assert (nb ∈ eblocks s [(S level, nb)]) as Hin by (rewrite eblocks_one, blocks_S by done; set_solver).
  destruct (fo_block _ _ _ _ _ _ F Hin) as (_&Hu&_&Hnl).
  destruct (cut_block s hs nb (lastbn / span level + 1) (if flag_on aflags B_SYNC then Now else Soon))
    as (s1&bp&s2&cpy&s3&s4&s5&E1&Ee&E2&E3&E4&E5&Hok5&Hd5&C5&K5); [apply F|apply F|done|lia|].
  assert (forall b, used dev b -> b <> nb -> rd s5 b = rd s b) as R5 by (intros b Hb Hne; apply K5; [done|congruence]).
  destruct (fo_keep s f l hs (Scratch cpy :: hs) (at_level level ps) s5 Fc Hok5) as (F5&B5&I5).
  { constructor; [done|apply F]. }
  { intros b Hb [Hbl|Hbi%eindirs_eblocks]; apply R5; try done; intros ->; done. }
  assert (forall c b, c ∈ ps -> b ∈ indirs (rd s) level c -> rd s5 b = rd s b) as T5.
  { intros c b Hc Hb. assert (b ∈ eblocks s (at_level level ps)) as Hbe
      by (rewrite eblocks_level, elem_of_concat_map; eauto using indirs_blocks).
    apply R5; [apply (fo_block _ _ _ _ _ b Fc Hbe)|]. by intros ->. }
  destruct (trunc_body level cpy lastbn aflags s5 f l (Scratch cpy :: hs) ps) as (f7&s7&l7&E7&D7&S7&P7);
    [done|done|apply list_elem_of_here|by rewrite Hd5|done|done|done|cbn [length]; lia|].
  destruct (io_brelse_scratch s7 hs cpy (fd_ok _ _ _ _ _ _ _ _ _ D7)) as (s8&E8&Hok8&K8).
  exists f7, s8, l7. split.
  { destruct level; cbn [indirtrunc] in *; rewrite E1; cbn [mbind option_bind]; rewrite Ee, E2; cbn [mbind option_bind];
      rewrite E3; cbn [mbind option_bind]; rewrite last_div by lia; rewrite E4; cbn [mbind option_bind];
      rewrite E5; cbn [mbind option_bind]; rewrite E7; cbn [mbind option_bind]; by rewrite E8. }
  split; [eapply (cut_freed s s5 s7 s8)|eapply (cut_pruned s s5 s7 s8)]; try done; lia.
Qed.
End Spec.
End Trunc.
