(* ===== verification/Itrunc.v ===== *)
(** Truncation of a whole file: what itrunc of Trunc.v does to the inode, the
    file's trees of blocks and the free list. *)
From S2P Require Import Prelude Bio Bcache Blockio Alloc Bmap Dinode Trunc.
Import Bcache Blockio Alloc Bmap Dinode Trunc.

Module Itrunc.

Section Spec.
Context {St : Type} `{BlockIO St} (used : Z -> Z -> Prop) `{!BlockIOSpec St used} (dev : Z).
Implicit Types (f : fs) (s : St) (l : list Z) (k : nat) (cl : list (nat * Z * Z)) (m : inode).
Abbreviation rd s := (io_content s dev).
Abbreviation forest := (forest used dev).
Abbreviation freed := (freed used dev).
Abbreviation eblocks := (eblocks used dev).

(** ** Cutting several trees

    A cut is a tree and the number of the last block of it to keep, negative
    when nothing of it is kept, not even its top. *)
Definition cut_gone s (x : nat * Z * Z) : list Z :=
  if x.2 <? 0 then blocks (rd s) x.1.1 x.1.2 else gone (rd s) x.1.1 x.1.2 x.2.
Definition cuts_gone s cl : list Z := concat (map (cut_gone s) cl).
Definition trees cl : list (nat * Z) := map fst cl.
Record cuts_done s f l cl s' f' l' : Prop := {
  cd_freed : freed s f l [] s' f' l' (cuts_gone s cl) (cuts_gone s cl ++ eindirs used dev s (trees cl));
  cd_pruned : forall x, x ∈ cl -> 0 <= x.2 -> pruned (rd s) (rd s') x.1.1 x.1.2 x.2 }.

Lemma cut_gone_in s x b : b ∈ cut_gone s x -> b ∈ blocks (rd s) x.1.1 x.1.2.
Proof. unfold cut_gone. destruct (Z.ltb_spec x.2 0); [done|]. apply gone_sub. lia. Qed.
Lemma cuts_gone_in s cl b : b ∈ cuts_gone s cl -> b ∈ eblocks s (trees cl).
Proof.
  unfold cuts_gone. rewrite elem_of_concat_map, elem_eblocks. intros (x&Hx&Hb%cut_gone_in). exists x.1.
  split; [by apply list_elem_of_fmap_2|done].
Qed.
Lemma cut_gone_ext s s' x :
  (forall b, b ∈ indirs (rd s) x.1.1 x.1.2 -> rd s' b = rd s b) -> cut_gone s' x = cut_gone s x.
Proof.
  intros He. unfold cut_gone. destruct (Z.ltb_spec x.2 0); [by apply tree_ext|]. by apply prune_ext; [lia|].
Qed.
Lemma cd_writes s f l cl s' f' l' x :
  cuts_done s f l cl s' f' l' -> x ∈ cuts_gone s cl ++ eindirs used dev s (trees cl) -> x ∈ eblocks s (trees cl).
Proof. intros _ [Hx|Hx]%elem_of_app; [by apply cuts_gone_in|by apply eindirs_eblocks]. Qed.
Lemma cd_after s f l cl1 cl2 s1 f1 l1 :
  forest s f l [] (trees (cl1 ++ cl2)) -> cuts_done s f l cl1 s1 f1 l1 ->
  forest s1 f1 l1 [] (trees cl2) /\ (forall b, b ∈ eblocks s (trees cl2) -> rd s1 b = rd s b) /\
  cuts_gone s1 cl2 = cuts_gone s cl2 /\ eindirs used dev s1 (trees cl2) = eindirs used dev s (trees cl2).
Proof.
  intros F D. assert (trees (cl1 ++ cl2) ≡ₚ trees cl1 ++ trees cl2) as Hp by (unfold trees; by rewrite map_app).
  destruct (fo_after used dev _ _ _ _ _ _ _ _ _ _ _ _ F Hp (cd_freed _ _ _ _ _ _ _ D)) as (F1&_&Ei&Hs);
    [apply cuts_gone_in|intros x; by apply (cd_writes _ _ _ _ _ _ _ _ D)|].
  split_and!; [done|done| |done]. unfold cuts_gone. f_equal. apply map_ext_in. intros x Hx%list_elem_of_In.
  apply cut_gone_ext. intros b Hb%indirs_blocks. apply Hs, elem_eblocks. exists x.1. split; [by apply list_elem_of_fmap_2|done].
Qed.
Lemma cd_app s f l cl1 cl2 s1 f1 l1 s2 f2 l2 :
  forest s f l [] (trees (cl1 ++ cl2)) -> cuts_done s f l cl1 s1 f1 l1 -> cuts_done s1 f1 l1 cl2 s2 f2 l2 ->
  cuts_done s f l (cl1 ++ cl2) s2 f2 l2.
Proof.
  intros F D1 D2. destruct (cd_after _ _ _ _ _ _ _ _ F D1) as (F1&Hs&Eg&Ei).
  assert (forall x b, x ∈ cl1 -> b ∈ blocks (rd s) x.1.1 x.1.2 -> b ∈ eblocks s (trees cl1)) as Hin1.
  { intros x b Hx Hb. apply elem_eblocks. exists x.1. split; [by apply list_elem_of_fmap_2|done]. }
  assert (forall x b, x ∈ cl2 -> b ∈ blocks (rd s) x.1.1 x.1.2 -> b ∈ eblocks s (trees cl2)) as Hin2.
  { intros x b Hx Hb. apply elem_eblocks. exists x.1. split; [by apply list_elem_of_fmap_2|done]. }
  assert (forall b, b ∈ eblocks s (trees cl1) -> b ∈ eblocks s (trees cl2) -> False) as Hdis.
  { pose proof (fo_nodup _ _ _ _ _ _ _ F) as Hn. unfold trees in Hn. rewrite map_app, eblocks_app in Hn.
    apply NoDup_app in Hn as (Hn&_). apply NoDup_app in Hn as (_&Hn&_). intros b H1 H2. by apply (Hn b). }
  pose proof D1 as [A1 P1]. pose proof D2 as [A2 P2]. rewrite Eg, Ei in A2. split.
  - eapply freed_weaken; [exact (freed_trans _ _ _ _ _ _ _ _ _ _ _ _ _ _ _ _ A1 A2)| |].
    + unfold cuts_gone. by rewrite map_app, concat_app.
    + unfold cuts_gone, trees, eindirs. rewrite !map_app, !concat_app. intros x. rewrite !elem_of_app. tauto.
  - intros x [Hx|Hx]%elem_of_app H0.
    + eapply pruned_after; [by apply P1|lia|]. intros b Hb%indirs_blocks.
      assert (b ∈ eblocks s (trees cl1)) as Hb1 by eauto.
      apply (freed_rd _ _ _ _ _ _ _ _ _ _ _ b A2); [eapply (fo_block _ _ _ _ _ _ _ b F); unfold trees; rewrite map_app, eblocks_app; set_solver|].
      intros [Hw%cuts_gone_in|Hw%eindirs_eblocks]%elem_of_app; by apply (Hdis b).
    + apply (prune_ext (rd s) (rd s1)); [lia|intros b Hb%indirs_blocks; eauto|by apply P2].
Qed.
Lemma cd_nil s f l : forest s f l [] [] -> cuts_done s f l [] s f l.
Proof. intros F. split; [by apply freed_refl; apply F|set_solver]. Qed.
Lemma cd_perm s f l cl cl' s' f' l' : cl ≡ₚ cl' -> cuts_done s f l cl s' f' l' -> cuts_done s f l cl' s' f' l'.
Proof.
  intros Hp [D P]. split; [|intros x Hx; apply P; by rewrite Hp].
  assert (cuts_gone s cl ≡ₚ cuts_gone s cl') as Hg.
  { unfold cuts_gone. clear -Hp. induction Hp as [|x cl1 cl2 _ IH|x y cl1|cl1 cl2 cl3 _ IH1 _ IH2]; cbn [map concat]; [done|by f_equiv| |by etransitivity].
    rewrite !app_assoc. f_equiv. apply Permutation_app_comm. }
  eapply freed_weaken; [exact D|done|]. intros b. rewrite !elem_of_app, Hg, !elem_eindirs.
  intros [?|(e&He&?)]; [by left|right]. exists e. split; [|done]. unfold trees in *. by rewrite <- Hp.
Qed.

(** A tree that lies before the new end whole. *)
Definition before k (last : Z) : Prop := k = 0%nat /\ 0 <= last \/ span k <= last.
Lemma whole_before (r : Z -> list Z) k nb last :
  whole r k nb -> before k last -> gone r k nb last = [] /\ pruned r r k nb last.
Proof.
  intros Hw Hl. destruct k as [|k]; [simpl; split; [by case_match|done]|]. destruct Hl as [[? _]|Hl]; [done|].
  destruct (decide (nb = 0)) as [->|Hn]; [by split; [|intros []]|].
  assert (length (r nb) = BLKWORDS) as Hlen by (apply Hw; rewrite indirs_S by done; apply list_elem_of_here).
  pose proof (span_pos k). rewrite span_S in Hl.
  assert (256 <= last / span k) as Hq by (apply Z.div_le_lower_bound; lia).
  assert (length (ptrs (r nb)) = 256%nat) as Hp by (unfold ptrs; by rewrite length_map).
  split; [|intros _; split_and!].
  - cbn [gone]. rewrite (proj2 (Z.eqb_neq _ _) Hn), nth_overflow, drop_ge by lia. destruct (last <? 0); [done|].
    by destruct k.
  - unfold clear_from. rewrite take_ge by (rewrite Hlen; unfold BLKWORDS; lia).
    replace (length (r nb) - _)%nat with 0%nat by (rewrite Hlen; unfold BLKWORDS; lia). by rewrite app_nil_r.
  - done.
  - intros _. rewrite nth_overflow by lia. destruct k; [done|]. by intros [].
Qed.
Lemma cd_keep s f l cl :
  forest s f l [] (trees cl) -> (forall x, x ∈ cl -> before x.1.1 x.2) -> cuts_done s f l cl s f l.
Proof.
  intros F Hl. assert (forall x, x ∈ cl -> gone (rd s) x.1.1 x.1.2 x.2 = [] /\ pruned (rd s) (rd s) x.1.1 x.1.2 x.2) as Hx.
  { intros x Hx. apply whole_before; [|by apply Hl]. intros b Hb. apply (fo_whole _ _ _ _ _ _ _ F), elem_eindirs.
    exists x.1. split; [by apply list_elem_of_fmap_2|done]. }
  assert (cuts_gone s cl = []) as E.
  { unfold cuts_gone. clear -Hx Hl. induction cl as [|x cl IH]; [done|]. cbn [map concat].
    rewrite IH by (intros; (apply Hx || apply Hl); set_solver). rewrite app_nil_r. unfold cut_gone.
    pose proof (span_pos x.1.1). rewrite (proj2 (Z.ltb_ge x.2 0)); [apply Hx; set_solver|].
    destruct (Hl x ltac:(set_solver)) as [[_ ?]|?]; lia. }
  split; [|intros x Hin _; by apply Hx]. rewrite E. eapply freed_weaken; [apply freed_refl; apply F|done|set_solver].
Qed.

(** One turn of the loop over the indirect addresses. *)
Lemma cut_slot level aflags s f l tip last L :
  let a := addr_at (4 + level) tip in
  forest s f l [] [(S level, a)] -> i_dev tip = dev -> (level <= 2)%nat -> L < span (S level) -> last = (if L <? 0 then -1 else L) ->
  exists tip' f' s' l',
    (if negb (a =? 0) then
       '(f, s) ← indirtrunc level (i_dev tip) a last aflags f s;
       if last <? 0 then '(f, s) ← free (i_dev tip) a f s; Some (clear_addr (4 + level) tip, f, s)
       else Some (tip, f, s)
     else Some (tip, f, s)) = Some (tip', f', s') /\
    (tip' = tip \/ tip' = clear_addr (4 + level) tip) /\ cuts_done s f l [(S level, a, L)] s' f' l'.
Proof.
  intros a F Hd Hlv HL Hlast. rewrite Hd. pose proof (span_pos (S level)) as Hsp.
  assert (eindirs used dev s (trees [(S level, a, L)]) = indirs (rd s) (S level) a) as Ei by apply eindirs_one.
  assert (cuts_gone s [(S level, a, L)] = cut_gone s (S level, a, L)) as Eg by apply app_nil_r.
  destruct (Z.eqb_spec a 0) as [Ha|Ha]; cbn [negb].
  { exists tip, f, s, l. split; [done|]. split; [by left|]. split.
    - rewrite Eg, Ei. unfold cut_gone. cbn [fst snd]. rewrite Ha, indirs_0, blocks_0. destruct (L <? 0); apply freed_refl; apply F.
    - intros x ->%list_elem_of_singleton _. cbn [fst snd]. rewrite Ha. by intros []. }
  destruct (indirtrunc_ok used dev level Hlv a last aflags s f l [] F Ha) as (f1&s1&l1&E1&D1&P1);
    [rewrite Hlast; destruct (Z.ltb_spec L 0); lia|simpl; unfold Bio.NBUF; lia|].
  destruct (Z.ltb_spec L 0) as [Hneg|Hpos]; subst last.
  - destruct (release_tree_ok used dev level aflags [] (indirtrunc_ok used dev level Hlv)) with (s := s) (f := f) (l := l) (c := a)
      as (f2&s2&l2&E2&D2); [simpl; unfold Bio.NBUF; lia|done|done|].
    rewrite E1 in E2 |- *. cbn [mbind option_bind] in E2 |- *. cbn [Z.ltb Z.compare]. rewrite E2. cbn [mbind option_bind].
    exists (clear_addr (4 + level) tip), f2, s2, l2. split; [done|]. split; [by right|]. split.
    + rewrite Eg. unfold cut_gone. cbn [fst snd]. rewrite (proj2 (Z.ltb_lt L 0)) by done.
      eapply freed_weaken; [exact D2|done|set_solver].
    + intros x ->%list_elem_of_singleton. cbn [fst snd]. lia.
  - rewrite E1. cbn [mbind option_bind]. rewrite (proj2 (Z.ltb_ge L 0)) by done. exists tip, f1, s1, l1.
    split; [done|]. split; [by left|]. split.
    + rewrite Eg, Ei. unfold cut_gone. cbn [fst snd]. by rewrite (proj2 (Z.ltb_ge L 0)).
    + by intros x ->%list_elem_of_singleton _.
Qed.

Lemma addr_clear i j m : i <> j -> addr_at i (clear_addr j m) = addr_at i m.
Proof. intros Hne. unfold addr_at, clear_addr. cbn [i_addr]. by rewrite !nth_lookup, list_lookup_insert_ne. Qed.

(** The cuts of the loop over the indirect addresses: up to the first tree the
    new end lies in. *)
Definition norm (x : nat * Z) : nat * Z := (x.1, if x.2 <? 0 then -1 else x.2).
Fixpoint upto (tip : inode) (ls : list (nat * Z)) : list (nat * Z * Z) :=
  match ls with
  | [] => []
  | (level, L) :: ls => (S level, addr_at (4 + level) tip, L) :: if 0 <=? L then [] else upto tip ls
  end.
Lemma upto_clear tip level ls : (level ∉ map fst ls) -> upto (clear_addr (4 + level) tip) ls = upto tip ls.
Proof.
  induction ls as [|[level' L] ls IH]; [done|]. cbn [map fst upto]. intros [Hne Hn]%not_elem_of_cons.
  rewrite addr_clear, IH by (done || lia). done.
Qed.
Lemma itrunc_indir_ok ls aflags tip s f l :
  NoDup (map fst ls) -> (forall x, x ∈ upto tip ls -> (x.1.1 <= 3)%nat /\ x.2 < span x.1.1) ->
  forest s f l [] (trees (upto tip ls)) -> i_dev tip = dev ->
  exists tip' f' s' l', itrunc_indir (map norm ls) aflags tip f s = Some (tip', existsb (fun x => 0 <=? x.2) ls, f', s') /\
    i_dev tip' = dev /\ (forall i, (i < 4)%nat -> addr_at i tip' = addr_at i tip) /\ cuts_done s f l (upto tip ls) s' f' l'.
Proof.
  revert tip s f l. induction ls as [|[level L] ls IH]; intros tip s f l Hnd Hls F Hd.
  { exists tip, f, s, l. split_and!; [done|done|done|by apply cd_nil]. }
  cbn [map fst] in Hnd. apply NoDup_cons in Hnd as [Hn Hnd].
  destruct (Hls (S level, addr_at (4 + level) tip, L) (list_elem_of_here _ _)) as [Hlv HL]. cbn [fst snd] in Hlv, HL.
  cbn [map itrunc_indir norm fst snd existsb]. set (last := if L <? 0 then -1 else L).
  cbn [upto] in F |- *. set (x := (S level, addr_at (4 + level) tip, L)) in *.
  set (cl := if 0 <=? L then [] else upto tip ls) in *.
  assert (forest s f l [] [x.1]) as F1 by (eapply (fo_sub _ _ _ _ _ _ _ [x.1] (trees cl)); [exact F|done]).
  destruct (cut_slot level aflags s f l tip last L F1 Hd ltac:(lia) HL eq_refl) as (tip1&f1&s1&l1&->&Htip&D1). cbn [mbind option_bind].
  destruct (cd_after s f l [x] cl s1 f1 l1 F D1) as (F2&_).
  assert (i_dev tip1 = dev /\ (forall i, (i < 4)%nat -> addr_at i tip1 = addr_at i tip)) as [Hd1 Ha1].
  { destruct Htip as [->| ->]; [done|]. split; [done|]. intros i Hi. apply addr_clear. lia. }
  assert ((0 <=? last) = (0 <=? L)) as -> by (unfold last; destruct (Z.ltb_spec L 0), (Z.leb_spec 0 L); (done || lia)).
  destruct (0 <=? L) eqn:EL; cbn [orb].
  { exists tip1, f1, s1, l1. by split_and!. }
  assert (upto tip1 ls = upto tip ls) as Eu by (destruct Htip as [->| ->]; [done|by apply upto_clear]).
  destruct (IH tip1 s1 f1 l1) as (tip2&f2&s2&l2&->&Hd2&Ha2&D2); [done| |by rewrite Eu|done|].
  { intros y Hy. rewrite Eu in Hy. apply Hls. cbn [upto]. rewrite EL. by apply list_elem_of_further. }
  rewrite Eu in D2. exists tip2, f2, s2, l2. split_and!; [done|done|intros i Hi; by rewrite Ha2, Ha1|].
  by apply (cd_app s f l [x] cl s1 f1 l1).
Qed.

(** The same for the direct addresses. *)
Fixpoint dcuts (tip : inode) (lastblock : Z) (n : nat) : list (nat * Z * Z) :=
  match n with
  | O => []
  | S n => (0%nat, addr_at (Z.to_nat (lastblock + Z.of_nat (S n))) tip, - Z.of_nat (S n)) :: dcuts tip lastblock n
  end.
Lemma dcuts_ext tip tip' lastblock n :
  (forall i, (1 <= i <= n)%nat -> addr_at (Z.to_nat (lastblock + Z.of_nat i)) tip' = addr_at (Z.to_nat (lastblock + Z.of_nat i)) tip) ->
  dcuts tip' lastblock n = dcuts tip lastblock n.
Proof. induction n as [|n IH]; intros He; [done|]. cbn [dcuts]. rewrite He, IH; [done|intros; apply He; lia|lia]. Qed.
Lemma cut_direct s f l a L : forest s f l [] [(0%nat, a)] -> a <> 0 -> L < 0 ->
  exists f' s' l', free dev a f s = Some (f', s') /\ cuts_done s f l [(0%nat, a, L)] s' f' l'.
Proof.
  intros F Ha HL. destruct (free_tree_0 used dev [] ltac:(simpl; unfold Bio.NBUF; lia) s f l a F Ha) as (f1&s1&l1&E&D).
  exists f1, s1, l1. split; [done|]. split.
  - unfold cuts_gone. cbn [map concat]. rewrite app_nil_r. unfold cut_gone. cbn [fst snd].
    rewrite (proj2 (Z.ltb_lt L 0)) by done. eapply freed_weaken; [exact D|done|set_solver].
  - intros x ->%list_elem_of_singleton. cbn [snd]. lia.
Qed.
Lemma itrunc_direct_ok n lastblock tip s f l :
  -1 <= lastblock -> forest s f l [] (trees (dcuts tip lastblock n)) -> i_dev tip = dev ->
  exists tip' f' s' l', itrunc_direct n lastblock tip f s = Some (tip', f', s') /\
    cuts_done s f l (dcuts tip lastblock n) s' f' l'.
Proof.
  intros Hl. revert tip s f l. induction n as [|n IH]; intros tip s f l F Hd.
  { exists tip, f, s, l. split; [done|by apply cd_nil]. }
  cbn [itrunc_direct dcuts] in F |- *. set (i := Z.to_nat (lastblock + Z.of_nat (S n))) in *.
  set (x := (0%nat, addr_at i tip, - Z.of_nat (S n))) in *. set (cl := dcuts tip lastblock n) in *.
  assert (forest s f l [] [x.1]) as F1 by (eapply (fo_sub _ _ _ _ _ _ _ [x.1] (trees cl)); [exact F|done]).
  assert (exists tip1 f1 s1 l1, (if addr_at i tip =? 0 then Some (tip, f, s)
      else '(f, s) ← free (i_dev tip) (addr_at i tip) f s; Some (clear_addr i tip, f, s)) = Some (tip1, f1, s1) /\
    i_dev tip1 = dev /\ dcuts tip1 lastblock n = cl /\ cuts_done s f l [x] s1 f1 l1) as (tip1&f1&s1&l1&->&Hd1&Ec&D1).
  { rewrite Hd. destruct (Z.eqb_spec (addr_at i tip) 0) as [Ha|Ha].
    - exists tip, f, s, l. split_and!; try done. unfold x. rewrite Ha. split.
      + apply freed_refl; apply F.
      + intros y ->%list_elem_of_singleton. cbn [snd]. lia.
    - destruct (cut_direct s f l (addr_at i tip) (- Z.of_nat (S n)) F1 Ha) as (f1&s1&l1&->&D1); [lia|]. cbn [mbind option_bind].
      exists (clear_addr i tip), f1, s1, l1. split_and!; try done. apply dcuts_ext. intros j Hj. apply addr_clear. lia. }
  cbn [mbind option_bind]. destruct (cd_after s f l [x] cl s1 f1 l1 F D1) as (F2&_).
  destruct (IH tip1 s1 f1 l1) as (tip2&f2&s2&l2&->&D2); [by rewrite Ec|done|]. rewrite Ec in D2.
  exists tip2, f2, s2, l2. split; [done|]. by apply (cd_app s f l [x] cl s1 f1 l1).
Qed.

(** ** The trees of a file *)

(** The number of the first block below each address. *)
Definition bases : list Z := [0; 1; 2; 3; 4; 260; 65796].
Definition file_cuts m (last : Z) : list (nat * Z * Z) := zip_with (fun e base => (e, last - base)) (slots m) bases.
Definition indir_lasts (last : Z) : list (nat * Z) := [(2%nat, last - 65796); (1%nat, last - 260); (0%nat, last - 4)].

Lemma trees_file_cuts m last : length (i_addr m) = 7%nat -> trees (file_cuts m last) = slots m.
Proof.
  intros Hl. unfold trees, file_cuts, slots. destruct (i_addr m) as [|a0 [|a1 [|a2 [|a3 [|a4 [|a5 [|a6 [|]]]]]]]]; done.
Qed.
Lemma file_forest s f l m : file_at used dev s f l m -> forest s f l [] (slots m).
Proof. intros [T1 T2 T3 T4 T5 T6 T7 T8]. split; try done. constructor. Qed.
Lemma forest_file s f l m :
  forest s f l [] (slots m) -> i_dev m = dev -> length (i_addr m) = 7%nat -> file_at used dev s f l m.
Proof. intros [F1 F2 F3 F4 F5 F6 F7] Hd Hl. by split. Qed.

(** The trees after the first [cl], all before the new end. *)
Lemma cd_rest s f l cl1 cl2 s1 f1 l1 :
  forest s f l [] (trees (cl1 ++ cl2)) -> cuts_done s f l cl1 s1 f1 l1 -> (forall x, x ∈ cl2 -> before x.1.1 x.2) ->
  cuts_done s f l (cl1 ++ cl2) s1 f1 l1.
Proof.
  intros F D Hl. destruct (cd_after _ _ _ _ _ _ _ _ F D) as (F1&_). eapply cd_app; [exact F|exact D|]. by apply cd_keep.
Qed.
Definition loops (aflags last : Z) m f s : option (inode * fs * St) :=
  '(tip, done, f, s) ← itrunc_indir (map norm (indir_lasts last)) aflags m f s;
  if done : bool then Some (tip, f, s) else itrunc_direct (Z.to_nat (3 - last)) last tip f s.

Lemma indir_lasts_ok m last : last < 16843012 ->
  NoDup (map fst (indir_lasts last)) /\
  forall x, x ∈ upto m (indir_lasts last) -> (x.1.1 <= 3)%nat /\ x.2 < span x.1.1.
Proof.
  intros Hlast. split; [apply (bool_decide_unpack _); by vm_compute|]. intros x Hx. unfold indir_lasts in Hx. cbn [upto] in Hx.
  destruct (Z.leb_spec 0 (last - 65796)); [|destruct (Z.leb_spec 0 (last - 260)); [|destruct (Z.leb_spec 0 (last - 4))]];
    rewrite !elem_of_cons in Hx; repeat (destruct Hx as [->|Hx]; [cbn [fst snd]; rewrite ?span_S; change (span 0) with 1; lia|]);
    by apply not_elem_of_nil in Hx.
Qed.
(** The loops when the new end lies below an indirect address. *)
Lemma loops_indir aflags last m s f l cl :
  4 <= last < 16843012 -> forest s f l [] (trees (upto m (indir_lasts last) ++ cl)) -> i_dev m = dev ->
  (forall x, x ∈ cl -> before x.1.1 x.2) ->
  exists tip f' s' l', loops aflags last m f s = Some (tip, f', s') /\
    cuts_done s f l (upto m (indir_lasts last) ++ cl) s' f' l'.
Proof.
  intros Hlast F Hd Hcl. destruct (itrunc_indir_ok (indir_lasts last) aflags m s f l) as (tip&f1&s1&l1&E&Hd1&Ha1&D1).
  - apply (indir_lasts_ok m last). lia.
  - apply indir_lasts_ok. lia.
  - eapply (fo_sub _ _ _ _ _ _ _ _ (trees cl)); [exact F|]. unfold trees. by rewrite map_app.
  - done.
  - unfold loops. rewrite E. cbn [mbind option_bind].
    assert (existsb (fun x => 0 <=? x.2) (indir_lasts last) = true) as ->.
    { unfold indir_lasts. cbn [existsb snd]. rewrite (proj2 (Z.leb_le 0 (last - 4))) by lia. by rewrite !orb_true_r. }
    exists tip, f1, s1, l1. split; [done|]. by apply cd_rest.
Qed.
(** And when it lies among the direct ones. *)
Lemma loops_direct aflags last m s f l cl :
  -1 <= last < 4 -> let cl1 := upto m (indir_lasts last) in let cl2 := dcuts m last (Z.to_nat (3 - last)) in
  forest s f l [] (trees ((cl1 ++ cl2) ++ cl)) -> i_dev m = dev ->
  (forall x, x ∈ cl -> before x.1.1 x.2) ->
  exists tip f' s' l', loops aflags last m f s = Some (tip, f', s') /\ cuts_done s f l ((cl1 ++ cl2) ++ cl) s' f' l'.
Proof.
  intros Hlast cl1 cl2 F Hd Hcl.
  assert (forest s f l [] (trees (cl1 ++ cl2))) as F12
    by (eapply (fo_sub _ _ _ _ _ _ _ _ (trees cl)); [exact F|unfold trees; by rewrite map_app]).
  destruct (itrunc_indir_ok (indir_lasts last) aflags m s f l) as (tip&f1&s1&l1&E&Hd1&Ha1&D1).
  - apply (indir_lasts_ok m last). lia.
  - apply indir_lasts_ok. lia.
  - eapply (fo_sub _ _ _ _ _ _ _ _ (trees cl2)); [exact F12|]. unfold trees. by rewrite map_app.
  - done.
  - unfold loops. rewrite E. cbn [mbind option_bind].
    assert (existsb (fun x => 0 <=? x.2) (indir_lasts last) = false) as ->.
    { unfold indir_lasts. cbn [existsb snd]. rewrite !(proj2 (Z.leb_gt 0 _)) by lia. done. }
    destruct (cd_after s f l cl1 cl2 s1 f1 l1 F12 D1) as (F2&_).
    assert (dcuts tip last (Z.to_nat (3 - last)) = cl2) as Ec by (apply dcuts_ext; intros i Hi; apply Ha1; lia).
    destruct (itrunc_direct_ok (Z.to_nat (3 - last)) last tip s1 f1 l1) as (tip2&f2&s2&l2&->&D2); [lia|by rewrite Ec|done|].
    rewrite Ec in D2. exists tip2, f2, s2, l2. split; [done|]. apply cd_rest; [done| |done].
    by eapply cd_app.
Qed.

Lemma file_cuts_rev m last : length (i_addr m) = 7%nat -> -1 <= last < 16843012 ->
  exists cl, (forall x, x ∈ cl -> before x.1.1 x.2) /\
    rev (file_cuts m last) = (upto m (indir_lasts last) ++ (if last <? 4 then dcuts m last (Z.to_nat (3 - last)) else [])) ++ cl.
Proof.
  intros Hl Hlast. destruct m as [d fl addr]. unfold file_cuts, slots, indir_lasts. cbn [upto i_addr] in *. unfold addr_at.
  cbn [i_addr]. destruct addr as [|a0 [|a1 [|a2 [|a3 [|a4 [|a5 [|a6 [|]]]]]]]]; try done. cbn [nth Nat.add levels zip zip_with bases rev app].
  destruct (Z.ltb_spec last 4).
  - rewrite !(proj2 (Z.leb_gt 0 _)) by lia.
    assert (last = -1 \/ last = 0 \/ last = 1 \/ last = 2 \/ last = 3) as [->|[->|[->|[->| ->]]]] by lia;
      (eexists; split; [|reflexivity]); intros x Hx; rewrite ?elem_of_cons in Hx;
      repeat (destruct Hx as [->|Hx]; [left; split; [done|cbn [snd]; lia]|]); by apply not_elem_of_nil in Hx.
  - destruct (Z.leb_spec 0 (last - 65796)); [|destruct (Z.leb_spec 0 (last - 260)); [|rewrite (proj2 (Z.leb_le 0 (last - 4))) by lia]];
      (eexists; split; [|reflexivity]); intros x Hx; rewrite ?elem_of_cons in Hx;
      repeat (destruct Hx as [->|Hx]; [right; cbn [fst snd]; rewrite ?span_S; change (span 0) with 1; lia|]); by apply not_elem_of_nil in Hx.
Qed.
Lemma loops_ok aflags last m s f l :
  file_at used dev s f l m -> -1 <= last < 16843012 ->
  exists tip f' s' l', loops aflags last m f s = Some (tip, f', s') /\ cuts_done s f l (file_cuts m last) s' f' l'.
Proof.
  intros T Hlast. pose proof (fl_len _ _ _ _ _ _ T) as Hlen. destruct (file_cuts_rev m last Hlen Hlast) as (cl&Hcl&Er).
  assert (forest s f l [] (trees (rev (file_cuts m last)))) as F.
  { eapply (fo_sub _ _ _ _ _ _ _ _ []); [apply file_forest, T|]. rewrite app_nil_r, <- (trees_file_cuts m last Hlen).
    unfold trees. apply Permutation_map, Permutation_rev. }
  rewrite Er in F. assert (exists tip f' s' l', loops aflags last m f s = Some (tip, f', s') /\
    cuts_done s f l (rev (file_cuts m last)) s' f' l') as (tip&f'&s'&l'&E&D).
  { rewrite Er. destruct (Z.ltb_spec last 4).
    - apply loops_direct; [lia|done|apply T|done].
    - rewrite app_nil_r in *. apply loops_indir; [lia|done|apply T|done]. }
  exists tip, f', s', l'. split; [done|]. eapply cd_perm; [symmetry; apply Permutation_rev|done].
Qed.

(** ** The file after the cut *)

Definition cut_addr (last : Z) (addr : list Z) : list Z := zip_with (fun a base => if last - base <? 0 then 0 else a) addr bases.
Definition cut_inode (last : Z) m : inode := MkInode (i_dev m) (i_flag m) (cut_addr last (i_addr m)).
(** The blocks that stay: of each tree those on the way to a block up to the
    last one. *)
Definition cut_kept s (x : nat * Z * Z) : list Z := if x.2 <? 0 then [] else kept (rd s) x.1.1 x.1.2 x.2.
Definition file_kept s m (last : Z) : list Z := concat (map (cut_kept s) (file_cuts m last)).
Definition cut_tree (x : nat * Z * Z) : nat * Z := (x.1.1, if x.2 <? 0 then 0 else x.1.2).

Lemma slots_cut m last : length (i_addr m) = 7%nat -> slots (cut_inode last m) = map cut_tree (file_cuts m last).
Proof.
  intros Hl. unfold slots, cut_inode, file_cuts, slots. cbn [i_addr].
  destruct (i_addr m) as [|a0 [|a1 [|a2 [|a3 [|a4 [|a5 [|a6 [|]]]]]]]]; done.
Qed.
Lemma clear_cut m last : length (i_addr m) = 7%nat -> -1 <= last ->
  clear_direct (Z.to_nat (3 - last)) last (clear_indir (map norm (indir_lasts last)) m) = cut_inode last m.
Proof.
  intros Hl Hlast. destruct m as [d fl addr]. cbn [i_addr] in Hl.
  assert (forall L, ((if L <? 0 then -1 else L) <? 0) = (L <? 0)) as En by (intros L; by destruct (L <? 0) eqn:E).
  unfold indir_lasts, cut_inode, cut_addr. cbn [map norm fst snd clear_indir i_dev i_flag i_addr]. rewrite !En.
  destruct addr as [|a0 [|a1 [|a2 [|a3 [|a4 [|a5 [|a6 [|]]]]]]]]; try done. cbn [zip_with bases].
  destruct (decide (last < 3)) as [Hlt|Hge].
  - rewrite !(proj2 (Z.ltb_lt _ 0)) by lia.
    assert (last = -1 \/ last = 0 \/ last = 1 \/ last = 2) as [->|[->|[->| ->]]] by lia; done.
  - replace (Z.to_nat (3 - last)) with 0%nat by lia. cbn [clear_direct].
    rewrite (proj2 (Z.ltb_ge (last - 0) 0)), (proj2 (Z.ltb_ge (last - 1) 0)), (proj2 (Z.ltb_ge (last - 2) 0)),
      (proj2 (Z.ltb_ge (last - 3) 0)) by lia.
    by destruct (last - 65796 <? 0), (last - 260 <? 0), (last - 4 <? 0).
Qed.

Lemma cut_kept_gone s x : cut_kept s x ++ cut_gone s x ≡ₚ blocks (rd s) x.1.1 x.1.2.
Proof. unfold cut_kept, cut_gone. destruct (Z.ltb_spec x.2 0); [done|]. apply kept_gone. lia. Qed.
Lemma cuts_kept_gone s cl : concat (map (cut_kept s) cl) ++ cuts_gone s cl ≡ₚ eblocks s (trees cl).
Proof.
  induction cl as [|x cl IH]; [done|]. unfold cuts_gone, Trunc.eblocks, trees in *. cbn [map concat].
  rewrite <- IH, <- (cut_kept_gone s x), <- !app_assoc. f_equiv. rewrite !app_assoc. f_equiv. apply Permutation_app_comm.
Qed.

Section Cut.
Context (s s' : St) (f f' : fs) (l l' : list Z) (m : inode) (last : Z).
Hypothesis (T : file_at used dev s f l m) (D : cuts_done s f l (file_cuts m last) s' f' l').
Let m' : inode := cut_inode last m.
Let Hlen : length (i_addr m) = 7%nat := fl_len _ _ _ _ _ _ T.

Lemma cut_tree_blocks x : x ∈ file_cuts m last -> blocks (rd s') (cut_tree x).1 (cut_tree x).2 = cut_kept s x.
Proof.
  intros Hx. unfold cut_tree, cut_kept. cbn [fst snd]. destruct (Z.ltb_spec x.2 0); [apply blocks_0|].
  apply pruned_blocks; [lia|]. by apply (cd_pruned _ _ _ _ _ _ _ D).
Qed.
Lemma cut_blocks : file_blocks used dev s' m' = file_kept s m last.
Proof.
  unfold file_blocks, m'. rewrite slots_cut by done. unfold file_kept. rewrite map_map. f_equal.
  apply map_ext_in. intros x Hx%list_elem_of_In. by apply cut_tree_blocks.
Qed.
Lemma cut_perm : file_blocks used dev s' m' ++ l' ≡ₚ file_blocks used dev s m ++ l.
Proof.
  rewrite cut_blocks, (fd_perm _ _ _ _ _ _ _ _ _ _ _ (cd_freed _ _ _ _ _ _ _ D)), app_assoc. f_equiv.
  unfold file_kept. rewrite cuts_kept_gone. unfold file_blocks. by rewrite <- (trees_file_cuts m last Hlen).
Qed.
Lemma cut_indirs_sub b : b ∈ file_indirs used dev s' m' -> b ∈ file_indirs used dev s m /\ length (rd s' b) = BLKWORDS.
Proof.
  unfold file_indirs, m'. rewrite slots_cut by done. rewrite map_map, elem_of_concat_map. intros (x&Hx&Hb).
  unfold cut_tree in Hb. cbn [fst snd] in Hb. destruct (Z.ltb_spec x.2 0); [rewrite indirs_0 in Hb; by apply not_elem_of_nil in Hb|].
  destruct (pruned_indirs (rd s) (rd s') x.1.1 x.1.2 x.2 b) as [Hin Hl]; [lia|by apply (cd_pruned _ _ _ _ _ _ _ D)|done|].
  assert (b ∈ file_indirs used dev s m) as Hi.
  { unfold file_indirs. rewrite <- (trees_file_cuts m last Hlen). apply elem_of_concat_map. exists x.1.
    split; [by apply list_elem_of_fmap_2|done]. }
  split; [done|]. rewrite Hl. by apply (fl_whole _ _ _ _ _ _ T).
Qed.
Lemma cut_file : file_at used dev s' f' l' m'.
Proof.
  pose proof (cd_freed _ _ _ _ _ _ _ D) as A. pose proof cut_perm as Hp. split.
  - apply A.
  - apply A.
  - destruct (fl_used _ _ _ _ _ _ T) as [Hu0 Hu]. split; [done|]. intros b [Hb1 Hb2]. apply Hu.
    split; [rewrite <- (fd_isize _ _ _ _ _ _ _ _ _ _ _ A)|rewrite <- (fd_fsize _ _ _ _ _ _ _ _ _ _ _ A)]; done.
  - apply T.
  - unfold m', cut_inode, cut_addr. cbn [i_addr]. rewrite length_zip_with, Hlen. done.
  - intros b Hb. by apply cut_indirs_sub.
  - rewrite Hp. apply T.
  - apply Forall_forall. intros b Hb. eapply freed_geo; [exact A|]. 
    assert (b ∈ file_blocks used dev s m ++ l) as Hin by (rewrite <- Hp; apply elem_of_app; by left).
    apply elem_of_app in Hin as [Hin|Hin].
    + pose proof (fl_data _ _ _ _ _ _ T) as Hd. rewrite Forall_forall in Hd. auto.
    + pose proof (fr_data _ _ _ _ _ (fl_frees _ _ _ _ _ _ T)) as Hd. rewrite Forall_forall in Hd. auto.
Qed.
Lemma cut_rd b : used dev b -> (b ∉ cuts_gone s (file_cuts m last)) -> (b ∉ file_indirs used dev s m) -> rd s' b = rd s b.
Proof.
  intros Hu Hg Hi. apply (freed_rd _ _ _ _ _ _ _ _ _ _ _ b (cd_freed _ _ _ _ _ _ _ D) Hu).
  rewrite elem_of_app, trees_file_cuts by done. tauto.
Qed.
Lemma cut_kept_rd b : b ∈ file_blocks used dev s' m' -> (b ∉ file_indirs used dev s m) -> rd s' b = rd s b.
Proof.
  intros Hb Hi. assert (used dev b) as Hu.
  { pose proof (fl_data _ _ _ _ _ _ cut_file) as Hd. rewrite Forall_forall in Hd. eapply data_used; [apply cut_file|auto]. }
  apply cut_rd; [done| |done]. intros Hg. pose proof (fl_nodup _ _ _ _ _ _ cut_file) as Hn.
  apply NoDup_app in Hn as (_&Hn&_). apply (Hn b Hb).
  rewrite (fd_perm _ _ _ _ _ _ _ _ _ _ _ (cd_freed _ _ _ _ _ _ _ D)). apply elem_of_app. by left.
Qed.
Lemma cut_frame b : used dev b -> (b ∉ file_blocks used dev s m) -> rd s' b = rd s b.
Proof.
  intros Hu Hb. assert (forall c, c ∈ eblocks s (slots m) -> c ∈ file_blocks used dev s m) as He by done.
  apply cut_rd; [done| |]; intros Hx; apply Hb, He.
  - rewrite <- (trees_file_cuts m last Hlen). by apply cuts_gone_in.
  - by apply eindirs_eblocks.
Qed.
End Cut.

Lemma slot_base bn : 0 <= bn < 16843012 ->
  exists k, levels !! slot_of bn = Some k /\ bases !! slot_of bn = Some (bn - offset_of bn) /\ 0 <= offset_of bn < span k.
Proof.
  intros Hbn. unfold slot_of, offset_of. destruct (Z.ltb_spec bn 4).
  - assert (bn = 0 \/ bn = 1 \/ bn = 2 \/ bn = 3) as [->|[->|[->| ->]]] by lia; by exists 0%nat.
  - destruct (Z.ltb_spec bn 260); [|destruct (Z.ltb_spec bn 65796); [|rewrite (proj2 (Z.ltb_lt bn 16843012)) by lia]];
      eexists; (split; [reflexivity|]); (split; [cbn; f_equal; lia|]); rewrite ?span_S; change (span 0) with 1; lia.
Qed.
Lemma cut_find s s' f f' l l' m last bn :
  file_at used dev s f l m -> cuts_done s f l (file_cuts m last) s' f' l' -> 0 <= bn < 16843012 ->
  file_find used dev s' (cut_inode last m) bn = if bn <=? last then file_find used dev s m bn else 0.
Proof.
  intros T D Hbn. pose proof (fl_len _ _ _ _ _ _ T) as Hlen. destruct (slot_base bn Hbn) as (k&Hk&Hb&Ho).
  pose proof (slots_lookup m (slot_of bn) k Hlen Hk) as Hs. set (a := nth (slot_of bn) (i_addr m) 0) in *.
  assert (file_cuts m last !! slot_of bn = Some (k, a, last - (bn - offset_of bn))) as Hx.
  { unfold file_cuts. rewrite lookup_zip_with, Hs. cbn [mbind option_bind]. by rewrite Hb. }
  unfold file_find. rewrite slots_cut, list_lookup_fmap, Hx, Hs by done. cbn [fmap option_map option_fmap cut_tree fst snd].
  destruct (Z.ltb_spec (last - (bn - offset_of bn)) 0) as [Hneg|Hpos].
  - rewrite (proj2 (Z.leb_gt bn last)) by lia. apply find_block_0.
  - rewrite (pruned_find (rd s) (rd s') k a (last - (bn - offset_of bn))); [|lia|lia|done|].
    + destruct (Z.leb_spec bn last), (Z.leb_spec (offset_of bn) (last - (bn - offset_of bn))); (done || lia).
    + by apply (cd_pruned _ _ _ _ _ _ _ D _ (list_elem_of_lookup_2 _ _ _ Hx)).
Qed.

(** ** The bytes of a file *)

Definition byte_at (d : list Z) (i : Z) : Z := nth (Z.to_nat (i / 4)) d 0 / 2 ^ (8 * (i mod 4)) mod 256.
(** A hole reads as zeros. *)
Definition file_byte s m (pos : Z) : Z :=
  let b := file_find used dev s m (pos / 1024) in if b =? 0 then 0 else byte_at (rd s b) (pos mod 1024).

Lemma byte_zeros i : byte_at zeros i = 0.
Proof. unfold byte_at, zeros. rewrite nth_replicate_0. pose proof (Z.pow_pos_nonneg 2 (8 * (i mod 4))). by rewrite Z.div_0_l by (pose proof (Z.mod_pos_bound i 4); lia). Qed.
Lemma low_byte w q r : 0 <= q -> 0 <= r ->
  (w mod 2 ^ (8 * r)) / 2 ^ (8 * q) mod 256 = if q <? r then w / 2 ^ (8 * q) mod 256 else 0.
Proof.
  intros Hq Hr. change 256 with (2 ^ 8). apply Z.bits_inj'. intros n Hn. destruct (decide (n < 8)).
  - rewrite Z.mod_pow2_bits_low, Z.div_pow2_bits by lia. destruct (Z.ltb_spec q r).
    + rewrite !Z.mod_pow2_bits_low, Z.div_pow2_bits by lia. done.
    + rewrite Z.mod_pow2_bits_high, Z.bits_0 by lia. done.
  - rewrite Z.mod_pow2_bits_high by lia. destruct (q <? r); [by rewrite Z.mod_pow2_bits_high by lia|by rewrite Z.bits_0].
Qed.
Lemma nth_clear_from n d j : 0 <= n -> nth j (clear_from n d) 0 = if (j <? Z.to_nat n)%nat then nth j d 0 else 0.
Proof.
  intros Hn. unfold clear_from. destruct (Nat.ltb_spec j (Z.to_nat n)) as [Hlt|Hge].
  - destruct (decide (j < length d)%nat).
    + rewrite app_nth1 by (rewrite length_take; lia). by rewrite !nth_lookup, lookup_take_lt.
    + rewrite app_nth2, nth_replicate_0 by (rewrite length_take; lia). by rewrite nth_overflow by lia.
  - rewrite app_nth2, nth_replicate_0 by (rewrite length_take; lia). done.
Qed.
Lemma nth_insert_mod w (d : list Z) n j :
  nth j (<[w := nth w d 0 mod n]> d) 0 = if (j =? w)%nat then nth w d 0 mod n else nth j d 0.
Proof.
  destruct (Nat.eqb_spec j w) as [->|Hne]; [|by rewrite !nth_lookup, list_lookup_insert_ne].
  destruct (decide (w < length d)%nat); [by rewrite nth_lookup, list_lookup_insert_eq by done|].
  rewrite !nth_overflow by (rewrite ?length_insert; lia). by rewrite Zmod_0_l.
Qed.
Lemma clear_bytes_at off d i : 0 <= off -> 0 <= i -> byte_at (clear_bytes off d) i = if i <? off then byte_at d i else 0.
Proof.
  intros Ho Hi. unfold byte_at, clear_bytes. pose proof (Z.div_mod off 4 ltac:(lia)). pose proof (Z.div_mod i 4 ltac:(lia)).
  pose proof (Z.mod_pos_bound off 4 ltac:(lia)). pose proof (Z.mod_pos_bound i 4 ltac:(lia)).
  rewrite nth_clear_from, nth_insert_mod, Nat2Z.id by lia.
  destruct (Nat.ltb_spec (Z.to_nat (i / 4)) (S (Z.to_nat (off / 4)))) as [Hle|Hgt].
  - destruct (Nat.eqb_spec (Z.to_nat (i / 4)) (Z.to_nat (off / 4))) as [Heq|Hne].
    + rewrite Heq, low_byte by lia. destruct (Z.ltb_spec (i mod 4) (off mod 4)), (Z.ltb_spec i off); (done || lia).
    + by rewrite (proj2 (Z.ltb_lt i off)) by lia.
  - rewrite (proj2 (Z.ltb_ge i off)) by lia. pose proof (Z.pow_pos_nonneg 2 (8 * (i mod 4))). by rewrite Z.div_0_l by lia.
Qed.

(** ** Data blocks *)

Lemma find_in_blocks (r : Z -> list Z) k nb bn : find_block r k nb bn <> 0 -> find_block r k nb bn ∈ blocks r k nb.
Proof.
  revert nb. induction k as [|k IH]; intros nb; (destruct (decide (nb = 0)) as [->|Hn]; [by rewrite find_block_0|]).
  - rewrite find_leaf, blocks_O by done. set_solver.
  - rewrite find_block_S, blocks_S by done. intros Hf. apply list_elem_of_further, elem_of_concat_map.
    eexists. split; [|by apply IH]. destruct (nth_in_or_default (idx k bn) (ptrs (r nb)) 0) as [?|E]; [by apply list_elem_of_In|].
    by rewrite E, find_block_0 in Hf.
Qed.
Lemma find_not_indir (r : Z -> list Z) k nb bn :
  NoDup (blocks r k nb) -> find_block r k nb bn <> 0 -> find_block r k nb bn ∉ indirs r k nb.
Proof.
  revert nb. induction k as [|k IH]; intros nb Hnd; (destruct (decide (nb = 0)) as [->|Hn]; [by rewrite find_block_0|]).
  - intros _. simpl. rewrite (proj2 (Z.eqb_neq _ _) Hn). apply not_elem_of_nil.
  - rewrite find_block_S by done. set (i := idx k bn). intros Hf. destruct (ptrs (r nb) !! i) as [c|] eqn:Hi.
    + rewrite (nth_lookup_Some _ _ _ _ Hi) in *. pose proof (find_in_blocks r k c bn Hf) as Hin.
      destruct (child_disjoint r k nb i c Hn Hi Hnd) as [Hnb Hsib]. rewrite (indirs_at r k nb i c Hn Hi), elem_of_cons, elem_of_app.
      intros [E|[Hb|(x&Hx&Hb%indirs_blocks)%elem_of_concat_map]]; [by rewrite E in Hin| |by destruct (Hsib x _ Hx Hb)].
      revert Hb. apply IH; [|done]. rewrite (blocks_at r k nb i c Hn Hi) in Hnd. apply NoDup_cons in Hnd as [_ Hnd].
      by apply NoDup_app in Hnd as (?&_).
    + apply lookup_ge_None in Hi. rewrite nth_overflow in Hf by done. by rewrite find_block_0 in Hf.
Qed.
Lemma find_data s f l m bn : file_at used dev s f l m -> file_find used dev s m bn <> 0 ->
  let b := file_find used dev s m bn in
  b ∈ file_blocks used dev s m /\ (b ∉ file_indirs used dev s m) /\ used dev b /\ b <> SUPERB /\ (b ∉ l) /\ data_block f b.
Proof.
  intros T Hb b. assert (b ∈ file_blocks used dev s m /\ (b ∉ file_indirs used dev s m)) as [H1 H2].
  { unfold b, file_find in *. destruct (slots m !! slot_of bn) as [[k a]|] eqn:Hs; [|done].
    pose proof (find_in_blocks _ _ _ _ Hb) as Hin. unfold file_indirs.
    pose proof (concat_map_at (fun e => blocks (rd s) e.1 e.2) _ _ _ Hs) as Hp. cbn [fst snd] in Hp.
    assert (file_blocks used dev s m ≡ₚ blocks (rd s) k a ++ concat (map (fun e => blocks (rd s) e.1 e.2) (sib (slot_of bn) (slots m)))) as Hp' by exact Hp.
    pose proof (fl_nodup _ _ _ _ _ _ T) as Hnd. rewrite Hp', <- app_assoc in Hnd. apply NoDup_app in Hnd as (N1&N2&_).
    split; [rewrite Hp'; set_solver|]. rewrite (concat_map_at (fun e => indirs (rd s) e.1 e.2) _ _ _ Hs), elem_of_app. cbn [fst snd].
    intros [Hx|(e&He&Hx%indirs_blocks)%elem_of_concat_map]; [by eapply find_not_indir|].
    apply (N2 _ Hin), elem_of_app. left. apply elem_of_concat_map. eauto. }
  split; [done|]. split; [done|]. pose proof (fo_block _ _ _ _ _ _ _ b (file_forest _ _ _ _ T)) as Hf.
  destruct Hf as (?&?&?&?); [exact H1|]. done.
Qed.

(** Two blocks of a file are two blocks of the device. *)
Lemma find_inj (r : Z -> list Z) k nb a b :
  NoDup (blocks r k nb) -> 0 <= a < span k -> 0 <= b < span k -> find_block r k nb a <> 0 ->
  find_block r k nb a = find_block r k nb b -> a = b.
Proof.
  revert nb a b. induction k as [|k IH]; intros nb a b Hnd Ha Hb Hf E; [change (span 0) with 1 in *; lia|].
  destruct (decide (nb = 0)) as [->|Hn]; [by rewrite find_block_0 in Hf|].
  rewrite (find_block_S r k nb a) in Hf, E by done. rewrite (find_block_S r k nb b) in E by done.
  assert (forall x, find_block r k (nth (idx k x) (ptrs (r nb)) 0) x <> 0 ->
    exists c, ptrs (r nb) !! idx k x = Some c /\ nth (idx k x) (ptrs (r nb)) 0 = c) as Hc.
  { intros x Hx. destruct (ptrs (r nb) !! idx k x) as [c|] eqn:Ec; [exists c; split; [done|by apply nth_lookup_Some]|].
    apply lookup_ge_None in Ec. rewrite nth_overflow, find_block_0 in Hx by done. done. }
  destruct (Hc a Hf) as (c&Hic&Ec). destruct (Hc b ltac:(by rewrite <- E)) as (c'&Hic'&Ec'). rewrite Ec, Ec' in *.
  destruct (decide (idx k b = idx k a)) as [Ei|Hne].
  - assert (c' = c) as -> by congruence. rewrite !idx_div in Ei by done.
    rewrite <- (find_block_mod r k c a), <- (find_block_mod r k c b) in E.
    assert (a mod span k = b mod span k) as Em.
    { apply (IH c); [|apply mod_span; lia|apply mod_span; lia|by rewrite find_block_mod|done].
      rewrite (blocks_at r k nb _ c Hn Hic) in Hnd. apply NoDup_cons in Hnd as [_ Hnd]. by apply NoDup_app in Hnd as (?&_). }
    pose proof (span_pos k). pose proof (div_span_pos k a ltac:(lia)). pose proof (div_span_pos k b ltac:(lia)).
    rewrite (Z.div_mod a (span k)), (Z.div_mod b (span k)) by lia. rewrite Em. do 2 f_equal. lia.
  - exfalso. destruct (child_disjoint r k nb (idx k a) c Hn Hic Hnd) as [_ Hd].
    assert (c' ∈ sib (idx k a) (ptrs (r nb))) as Hs by (by apply elem_of_drop_take with (idx k b)).
    destruct (Hd c' (find_block r k c' b) Hs) as [_ Hx]; [apply find_in_blocks; by rewrite <- E|].
    apply Hx. rewrite <- E. by apply find_in_blocks.
Qed.
Lemma file_find_inj s f l m a b :
  file_at used dev s f l m -> 0 <= a < 16843012 -> 0 <= b -> file_find used dev s m a <> 0 ->
  file_find used dev s m a = file_find used dev s m b -> a = b.
Proof.
  intros T Ha Hb Hf E. assert (b < 16843012) as Hb'.
  { destruct (decide (b < 16843012)); [done|]. exfalso. apply Hf. rewrite E. unfold file_find, slot_of.
    rewrite !(proj2 (Z.ltb_ge b _)) by lia. rewrite lookup_ge_None_2; [done|]. unfold slots. rewrite length_zip, (fl_len _ _ _ _ _ _ T). simpl. lia. }
  destruct (slot_base a Ha) as (k&Hk&Hba&Ho), (slot_base b ltac:(lia)) as (k'&Hk'&Hbb&Ho').
  pose proof (slots_lookup m _ _ (fl_len _ _ _ _ _ _ T) Hk) as Hs. pose proof (slots_lookup m _ _ (fl_len _ _ _ _ _ _ T) Hk') as Hs'.
  unfold file_find in Hf, E. rewrite Hs in Hf, E. rewrite Hs' in E.
  pose proof (concat_map_at (fun e => blocks (rd s) e.1 e.2) _ _ _ Hs) as Hp. cbn [fst snd] in Hp.
  pose proof (fl_nodup _ _ _ _ _ _ T) as Hnd. unfold file_blocks in Hnd. rewrite Hp, <- app_assoc in Hnd.
  apply NoDup_app in Hnd as (N1&N2&_). destruct (decide (slot_of b = slot_of a)) as [Es|Hne].
  - rewrite Es in *. rewrite Hk in Hk'. injection Hk' as <-. rewrite Hba in Hbb. injection Hbb as Hbb.
    assert (offset_of a = offset_of b); [|lia]. by eapply find_inj.
  - exfalso. apply (N2 _ (find_in_blocks _ _ _ _ Hf)), elem_of_app. left. rewrite E. apply elem_of_concat_map.
    exists (k', nth (slot_of b) (i_addr m) 0). cbn [fst snd]. split; [by apply elem_of_drop_take with (slot_of b)|].
    apply find_in_blocks. by rewrite <- E.
Qed.

(** The data of a file changes: its shape does not. *)
Lemma file_data s f l m s' (P : Z -> Prop) :
  file_at used dev s f l m -> io_ok s' [] -> (forall x, used dev x -> ~ P x -> rd s' x = rd s x) ->
  (forall x, P x -> (x ∉ file_indirs used dev s m) /\ (x ∉ l)) ->
  file_at used dev s' f l m /\ file_blocks used dev s' m = file_blocks used dev s m /\
  file_indirs used dev s' m = file_indirs used dev s m /\ forall bn, file_find used dev s' m bn = file_find used dev s m bn.
Proof.
  intros T Hok He HP. pose proof (file_forest _ _ _ _ T) as F.
  assert (forall b, used dev b -> b ∈ l \/ b ∈ eindirs used dev s (slots m) -> rd s' b = rd s b) as Hs.
  { intros b Hu Hb. apply He; [done|]. intros [H1 H2]%HP. destruct Hb as [?|Hb]; [done|]. by apply H1. }
  destruct (fo_keep _ _ _ _ _ [] [] _ s' F Hok) as (F'&E1&E2); [constructor|done|].
  split; [apply forest_file; [done|apply T|apply T]|]. split; [exact E1|]. split; [exact E2|]. intros bn. unfold file_find.
  destruct (slots m !! slot_of bn) as [[k a]|] eqn:Hsl; [|done].
  apply (eblocks_ext used dev s s' (slots m)) with (e := (k, a)); [|by eapply list_elem_of_lookup_2].
  intros b Hb. apply Hs; [|by right]. eapply (fo_block _ _ _ _ _ _ _ b F). by apply eindirs_eblocks.
Qed.

(** bmap changes no byte of the file, but of a new block it did not clear. *)
Lemma bmap_bytes s f l m bn clr r ret ra err m' f' s' :
  file_at used dev s f l m -> 0 <= bn -> map_outcome used dev s f l m bn clr r -> r = Mapped ret ra err m' f' s' ->
  exists l', file_at used dev s' f' l' m' /\ file_blocks used dev s' m' ++ l' ≡ₚ file_blocks used dev s m ++ l /\
    (forall x, used dev x -> x <> SUPERB -> (x ∉ file_indirs used dev s m) -> (x ∉ l) -> rd s' x = rd s x) /\
    (forall pos, 0 <= pos -> clr = true \/ pos / 1024 <> bn -> file_byte s' m' pos = file_byte s m pos) /\
    (err = 0 /\ ret <> 0 /\ file_find used dev s' m' bn = ret \/
     err = ENOSPC /\ ret = -1 /\ l' = [] /\ forall pos, 0 <= pos -> file_byte s' m' pos = file_byte s m pos).
Proof.
  intros T Hbn (ret1&ra1&err1&m1&f1&s1&l1&->&T1&Hp&Hfr&Hout) [= <- <- <- <- <- <-]. exists l1.
  assert (forall b, b ∈ file_blocks used dev s m -> (b ∉ file_indirs used dev s m) -> rd s1 b = rd s b) as Hkeep.
  { intros b Hb Hi. destruct (fo_block _ _ _ _ _ _ _ b (file_forest _ _ _ _ T) Hb) as (_&Hu&H0&Hl). by apply Hfr. }
  assert (forall pos, file_find used dev s1 m1 (pos / 1024) = file_find used dev s m (pos / 1024) ->
    file_byte s1 m1 pos = file_byte s m pos) as Hsame.
  { intros pos E. unfold file_byte. rewrite E. destruct (Z.eqb_spec (file_find used dev s m (pos / 1024)) 0) as [|Hn]; [done|].
    destruct (find_data _ _ _ _ _ T Hn) as (H1&H2&_). by rewrite Hkeep. }
  split; [done|]. split; [done|]. split; [done|].
  destruct Hout as [(->&Hr&Hf&Hold&Hz&Hall)|(->&->&Hl&Hall)]; (split; [intros pos Hpos Hc|]).
  - assert (0 <= pos / 1024) by (apply Z.div_pos; lia).
    destruct (decide (pos / 1024 = bn)) as [E|Hne]; [|apply Hsame; by apply Hall].
    destruct (decide (file_find used dev s m bn = 0)) as [E0|Hn0]; [|apply Hsame; rewrite E, Hf; by apply Hold].
    unfold file_byte. destruct Hc as [Hc|Hc]; [|done]. rewrite E, E0, Hf, (Hz Hc E0), byte_zeros. by destruct (ret1 =? 0).
  - by left.
  - apply Hsame, Hall. apply Z.div_pos; lia.
  - right. split_and!; [done..|]. intros pos Hpos. apply Hsame, Hall. apply Z.div_pos; lia.
Qed.

(** A data block gets new contents: the bytes of the file in it change. *)
Lemma block_written s f l m bn s' :
  file_at used dev s f l m -> 0 <= bn < 16843012 -> let b := file_find used dev s m bn in b <> 0 ->
  io_ok s' [] -> (forall x, used dev x -> x <> b -> rd s' x = rd s x) ->
  file_at used dev s' f l m /\ file_blocks used dev s' m = file_blocks used dev s m /\
  file_indirs used dev s' m = file_indirs used dev s m /\ (forall bn, file_find used dev s' m bn = file_find used dev s m bn) /\
  (forall x, used dev x -> (x ∉ file_blocks used dev s m) -> rd s' x = rd s x) /\
  forall pos, 0 <= pos -> file_byte s' m pos = if pos / 1024 =? bn then byte_at (rd s' b) (pos mod 1024) else file_byte s m pos.
Proof.
  intros T Hbn b Hb Hok Hoth. destruct (find_data _ _ _ _ _ T Hb) as (H1&H2&Hu&H0&Hl&_). fold b in H1, H2, Hu, H0, Hl.
  destruct (file_data s f l m s' (fun x => x = b) T Hok Hoth) as (T3&B3&I3&F3); [by intros x ->|].
  do 4 (split; [done|]). split; [intros x Hx Hn; apply Hoth; [done|]; by intros ->|]. intros pos Hpos. unfold file_byte. rewrite F3.
  destruct (Z.eqb_spec (pos / 1024) bn) as [E|Hne]; [rewrite E; fold b; by rewrite (proj2 (Z.eqb_neq b 0) Hb)|].
  destruct (Z.eqb_spec (file_find used dev s m (pos / 1024)) 0) as [|Hn]; [done|]. f_equal. apply Hoth.
  - by apply (find_data _ _ _ _ _ T).
  - intros E. apply Hne. symmetry. by eapply file_find_inj; [exact T|done|apply Z.div_pos; lia|exact Hb|].
Qed.

(** The part of the last block after the new end is cleared. *)
Lemma clear_tail s f l m bn off :
  file_at used dev s f l m -> file_find used dev s m bn <> 0 -> 0 < off < 1024 -> 0 <= bn < 16843012 ->
  exists s1 bp s2 s3, io_bread dev (file_find used dev s m bn) s = Some (s1, bp) /\ io_berror s1 bp = false /\
    io_store bp (clear_bytes off (io_data s1 bp)) s1 = Some s2 /\ io_write Later bp s2 = Some s3 /\
    file_at used dev s3 f l m /\ file_blocks used dev s3 m = file_blocks used dev s m /\
    file_indirs used dev s3 m = file_indirs used dev s m /\
    (forall x, used dev x -> (x ∉ file_blocks used dev s m) -> rd s3 x = rd s x) /\
    (forall pos, 0 <= pos -> file_byte s3 m pos = if (bn * 1024 + off <=? pos) && (pos <? (bn + 1) * 1024) then 0 else file_byte s m pos).
Proof.
  intros T Hb Hoff Hbn. destruct (find_data _ _ _ _ _ T Hb) as (H1&H2&Hu&H0&Hl&_). set (b := file_find used dev s m bn) in *.
  destruct (io_bread_law s [] dev b (fl_ok _ _ _ _ _ _ T) Hu) as (s1&bp&E1&Hok1&_&Hd&K1);
    [apply not_elem_of_nil|simpl; unfold Bio.NBUF; lia|].
  pose proof (proj1 (io_clean_law s1 _ _ Hok1)) as He. cbn [h_bp] in He.
  destruct (io_store_law s1 [] bp dev b true (clear_bytes off (io_data s1 bp)) Hok1) as (s2&E2&Hok2&D2&K2).
  destruct (io_write_law s2 [] Later bp dev b false Hok2) as (s3&E3&Hok3&C3&K3).
  exists s1, bp, s2, s3. do 4 (split; [done|]).
  assert (forall x, used dev x -> x <> b -> rd s3 x = rd s x) as Hoth.
  { intros x Hx Hne. transitivity (rd s2 x); [apply K3; [done|congruence]|].
    transitivity (rd s1 x); [apply K2; [done|congruence]|apply K1; auto]. }
  destruct (block_written s f l m bn s3 T Hbn Hb Hok3 Hoth) as (T3&B3&I3&F3&R3&Y3). do 4 (split; [done|]).
  intros pos Hpos. rewrite Y3 by done. fold b. rewrite C3, D2, Hd. pose proof (Z.div_mod pos 1024 ltac:(lia)).
  pose proof (Z.mod_pos_bound pos 1024 ltac:(lia)). destruct (Z.eqb_spec (pos / 1024) bn) as [E|Hne].
  - unfold file_byte. rewrite E. fold b. rewrite (proj2 (Z.eqb_neq b 0) Hb), clear_bytes_at by lia.
    destruct (Z.ltb_spec (pos mod 1024) off), (Z.leb_spec (bn * 1024 + off) pos), (Z.ltb_spec pos ((bn + 1) * 1024)); (done || lia).
  - by rewrite (proj2 (andb_false_iff _ _)) by (destruct (Z.ltb_spec pos ((bn + 1) * 1024)); [left; apply Z.leb_gt; nia|by right]).
Qed.

(** ** itrunc *)

(** The block of the i-list the inode lies in. *)
Definition in_ilist f (n : Z) : Prop := used dev (itod n) /\ 0 < itod n < fs_isize f.
(** The inode on the disk is the one in core. *)
Definition on_disk s (ip : incore) : Prop :=
  take 11 (dinode_at (i_number ip) (rd s (itod (i_number ip)))) ++ drop 12 (dinode_at (i_number ip) (rd s (itod (i_number ip)))) =
  take 11 (dinode_words (i_map ip) (i_c ip) []) ++ drop 12 (dinode_words (i_map ip) (i_c ip) []).

Lemma file_at_addr s f l m m' :
  i_dev m' = i_dev m -> i_addr m' = i_addr m -> file_at used dev s f l m ->
  file_at used dev s f l m' /\ file_blocks used dev s m' = file_blocks used dev s m /\
  file_indirs used dev s m' = file_indirs used dev s m /\
  (forall bn, file_find used dev s m' bn = file_find used dev s m bn) /\ forall pos, file_byte s m' pos = file_byte s m pos.
Proof.
  intros Hd Ha T. assert (slots m' = slots m) as Es by (unfold slots; by rewrite Ha).
  assert (forall bn, file_find used dev s m' bn = file_find used dev s m bn) as Hf by (intros bn; unfold file_find; by rewrite Es).
  unfold file_blocks, file_indirs. rewrite Es. split; [|do 2 (split; [done|]); split; [done|intros pos; unfold file_byte; by rewrite Hf]].
  destruct T as [T1 T2 T3 T4 T5 T6 T7 T8]. unfold file_indirs, file_blocks in *. split; unfold file_indirs, file_blocks; rewrite ?Es; (done || congruence).
Qed.
Lemma touched_map ip now :
  i_dev (i_map (touched ip now)) = i_dev (i_map ip) /\ i_addr (i_map (touched ip now)) = i_addr (i_map ip) /\
  ic_size (i_c (touched ip now)) = ic_size (i_c ip) /\ i_number (touched ip now) = i_number ip.
Proof. unfold touched. by repeat case_match. Qed.
Lemma ilist_outside s f l m n : file_at used dev s f l m -> in_ilist f n ->
  (itod n ∉ file_blocks used dev s m) /\ (itod n ∉ l) /\ itod n <> SUPERB.
Proof.
  intros T [_ Hn]. pose proof (file_forest _ _ _ _ T) as F. split_and!; [| |unfold SUPERB; lia].
  - intros Hb. destruct (fo_block _ _ _ _ _ _ _ _ F Hb) as ([? ?]&_). lia.
  - intros Hb. destruct (fo_free _ _ _ _ _ _ _ _ F Hb) as ([? ?]&_). lia.
Qed.
(** What does not change when only the block of the inode does. *)
Definition same_file s m s' m' : Prop :=
  file_blocks used dev s' m' = file_blocks used dev s m /\
  (forall bn, file_find used dev s' m' bn = file_find used dev s m bn) /\ forall pos, file_byte s' m' pos = file_byte s m pos.
Lemma itrunc_done_ok now err oip f s l :
  file_at used dev s f l (i_map oip) -> in_ilist f (i_number oip) -> fs_ronly f = 0 ->
  exists oip' s', itrunc_done now err oip f s = Some (err, oip', f, s') /\ i_number oip' = i_number oip /\
    ic_size (i_c oip') = ic_size (i_c oip) /\ file_at used dev s' f l (i_map oip') /\ same_file s (i_map oip) s' (i_map oip') /\
    (forall x, used dev x -> x <> itod (i_number oip) -> rd s' x = rd s x) /\
    (length (rd s (itod (i_number oip))) = BLKWORDS -> on_disk s' oip').
Proof.
  intros T Hil Hr. destruct (ilist_outside _ _ _ _ _ T Hil) as (O1&O2&O3). set (b := itod (i_number oip)) in *.
  unfold itrunc_done. set (ip := or_iflag (ICHG + IUPD) oip). set (ip' := touched ip now).
  destruct (touched_map ip now) as (M1&M2&M3&M4). fold ip' in M1, M2, M3, M4.
  destruct (iupdat_ok used dev now true ip f s []) as (s'&->&Hok'&C&K); [apply T|apply T|apply Hil|apply not_elem_of_nil|
    simpl; unfold Bio.NBUF; lia| |done|].
  { unfold iflag_on, ip, or_iflag. cbn [i_map set_map set_flag i_flag]. apply flag_on_set_any; by vm_compute. }
  cbn [mbind option_bind]. fold ip' in C |- *. exists ip', s'. split; [done|]. split; [by rewrite M4|]. split; [by rewrite M3|].
  change (itod (i_number ip)) with b in *. change (i_number ip) with (i_number oip) in *.
  assert (forall x, used dev x -> x <> b -> rd s' x = rd s x) as Hoth by (intros x Hx Hne; apply K; [done|congruence]).
  destruct (file_data s f l (i_map oip) s' (fun x => x = b) T Hok' Hoth) as (T'&B'&I'&F').
  { intros x ->. split; [|done]. intros Hi. apply O1. by apply (eindirs_eblocks used dev s (slots (i_map oip))). }
  destruct (file_at_addr s' f l (i_map oip) (i_map ip')) as (T2&B2&_&F2&Y2); [by rewrite M1|by rewrite M2|done|].
  split; [done|]. split; [|split; [done|]].
  - split; [by rewrite B2|]. split; [intros bn; by rewrite F2, F'|]. intros pos. rewrite Y2. unfold file_byte. rewrite F'.
    destruct (Z.eqb_spec (file_find used dev s (i_map oip) (pos / 1024)) 0) as [|Hn]; [done|]. f_equal.
    destruct (find_data _ _ _ _ _ T Hn) as (H1&_&Hu&_). apply Hoth; [done|]. intros E. by rewrite E in H1.
  - intros Hlen. unfold on_disk. rewrite M4. change (i_number ip) with (i_number oip). fold b. rewrite C.
    assert (length (i_addr (i_map ip')) = 7%nat) as Hl7 by (rewrite M2; apply T).
    rewrite store_dinode_at by done. unfold dinode_words. pose proof (length_map u32 (i_addr (i_map ip'))) as Hlm. rewrite Hl7 in Hlm.
    destruct (map u32 (i_addr (i_map ip'))) as [|a0 [|a1 [|a2 [|a3 [|a4 [|a5 [|a6 [|]]]]]]]]; done.
Qed.

(** The number of the last block of a file of [length] bytes. *)
Definition last_block (length : Z) : Z := (length + 1023) / 1024 - 1.
Lemma last_block_ok length : 0 <= length < 2147483648 ->
  s32 (lblkno (length + 1023) - 1) = last_block length /\ -1 <= last_block length < 2097153.
Proof.
  intros Hl. unfold lblkno, last_block. rewrite Z.shiftr_div_pow2 by lia. change (2 ^ 10) with 1024. rewrite u32_small by lia.
  assert (0 <= (length + 1023) / 1024 < 2097153) by (split; [apply Z.div_pos; lia|apply Z.div_lt_upper_bound; lia]).
  split; [|lia]. apply s32_small. lia.
Qed.

(** The file after the blocks past the end were cut off, and the inode was
    written. *)
Definition cut_to s m s' m' l' (length : Z) : Prop :=
  (forall pos, 0 <= pos < 17247244288 ->
    file_byte s' m' pos = if (pos / 1024 <=? last_block length) then file_byte s m pos else 0) /\
  (forall bn, last_block length < bn < 16843012 -> file_find used dev s' m' bn = 0) /\
  (length = 0 -> file_blocks used dev s' m' = []).
Lemma kept_none s m : length (i_addr m) = 7%nat -> file_kept s m (-1) = [].
Proof.
  intros Hl. unfold file_kept, file_cuts, slots. destruct (i_addr m) as [|a0 [|a1 [|a2 [|a3 [|a4 [|a5 [|a6 [|]]]]]]]]; done.
Qed.
Lemma itrunc_cut_ok now aflags err length oip f s l :
  file_at used dev s f l (i_map oip) -> in_ilist f (i_number oip) -> fs_ronly f = 0 -> 0 <= length < 2147483648 ->
  exists oip' f' s' l', itrunc_cut now aflags err length oip f s = Some (err, oip', f', s') /\
    ic_size (i_c oip') = length /\ i_number oip' = i_number oip /\ file_at used dev s' f' l' (i_map oip') /\
    file_blocks used dev s' (i_map oip') ++ l' ≡ₚ file_blocks used dev s (i_map oip) ++ l /\
    cut_to s (i_map oip) s' (i_map oip') l' length /\
    (forall x, used dev x -> x <> itod (i_number oip) -> (x ∉ file_blocks used dev s (i_map oip)) -> rd s' x = rd s x) /\
    (Datatypes.length (rd s (itod (i_number oip))) = BLKWORDS -> on_disk s' oip').
Proof.
  intros T Hil Hr Hlen. destruct (last_block_ok length Hlen) as [El Hlast]. set (last := last_block length) in *.
  unfold itrunc_cut. rewrite El. unfold NDADDR, NINDIR. rewrite (s32_small (last - 4 - 256)), (s32_small (last - 4 - 256 - 256 * 256)) by lia.
  replace (last - 4 - 256 - 256 * 256) with (last - 65796) by lia. replace (last - 4 - 256) with (last - 260) by lia.
  change [(2%nat, _); (1%nat, _); (0%nat, _)] with (map norm (indir_lasts last)).
  replace (4 - 1 - last) with (3 - last) by lia. cbn [i_map set_map set_c]. rewrite clear_cut by (apply T || lia).
  destruct (loops_ok aflags last (i_map oip) s f l T) as (tip&f1&s1&l1&E&D); [lia|].
  unfold loops in E. destruct (itrunc_indir (map norm (indir_lasts last)) aflags (i_map oip) f s) as [[[[tip1 dn] f0] s0]|]; [|done].
  cbn [mbind option_bind] in E |- *. rewrite E. cbn [mbind option_bind]. clear E.
  set (m1 := cut_inode last (i_map oip)). pose proof (cut_file _ _ _ _ _ _ _ _ T D) as T1. fold m1 in T1.
  set (oip1 := set_map m1 _).
  pose proof (fd_isize _ _ _ _ _ _ _ _ _ _ _ (cd_freed _ _ _ _ _ _ _ D)) as Hi.
  destruct (itrunc_done_ok now err oip1 f1 s1 l1 T1) as (oip2&s2&->&Hn2&Hs2&T2&(B2&F2&Y2)&Hoth&Hod).
  { unfold in_ilist. rewrite Hi. exact Hil. }
  { by rewrite (fd_ronly _ _ _ _ _ _ _ _ _ _ _ (cd_freed _ _ _ _ _ _ _ D)). }
  destruct (ilist_outside _ _ _ _ _ T Hil) as (O1&O2&O3). change (i_number oip1) with (i_number oip) in *.
  change (i_map oip1) with m1 in *.
  exists oip2, f1, s2, l1. split; [done|]. split; [rewrite Hs2; cbn; by apply s32_small; lia|]. split; [done|]. split; [done|].
  split; [rewrite B2; by apply (cut_perm _ _ _ _ _ _ _ _ T D)|]. split; [split; [|split]|split].
  - intros pos Hpos. rewrite Y2. fold last. unfold file_byte. assert (0 <= pos / 1024 < 16843012) as Hp
      by (split; [apply Z.div_pos; lia|apply Z.div_lt_upper_bound; lia]).
    pose proof (cut_find _ _ _ _ _ _ _ last (pos / 1024) T D Hp) as Ef. fold m1 in Ef. rewrite Ef.
    destruct (pos / 1024 <=? last); [|done]. revert Ef. destruct (Z.eqb_spec (file_find used dev s (i_map oip) (pos / 1024)) 0) as [|Hne]; [done|].
    intros Ef. f_equal. destruct (find_data _ _ _ _ _ T Hne) as (_&H2&_).
    apply (cut_kept_rd _ _ _ _ _ _ _ _ T D); [|done]. fold m1. rewrite <- Ef in Hne |- *. by apply (find_data _ _ _ _ _ T1).
  - intros bn Hbn. rewrite F2. unfold m1. rewrite (cut_find _ _ _ _ _ _ _ last bn T D) by lia.
    by rewrite (proj2 (Z.leb_gt bn last)) by lia.
  - intros Hl0. rewrite B2. unfold m1. rewrite (cut_blocks _ _ _ _ _ _ _ _ T D). unfold last. rewrite Hl0. apply kept_none, T.
  - intros x Hx Hne Hxf. rewrite Hoth by done. by apply (cut_frame _ _ _ _ _ _ _ _ T D).
  - intros Hl. apply Hod. rewrite (cut_frame _ _ _ _ _ _ _ _ T D); [done|apply Hil|done].
Qed.

(** What itrunc leaves: the file is well formed, its blocks and the free ones
    together are the ones they were, and the other blocks of the device have
    their contents. *)
Record sound s f l (oip : incore) s' f' l' (oip' : incore) : Prop := {
  so_file : file_at used dev s' f' l' (i_map oip');
  so_number : i_number oip' = i_number oip;
  so_perm : file_blocks used dev s' (i_map oip') ++ l' ≡ₚ file_blocks used dev s (i_map oip) ++ l;
  so_frame : forall x, used dev x -> x <> SUPERB -> x <> itod (i_number oip) ->
    (x ∉ file_blocks used dev s (i_map oip)) -> (x ∉ l) -> rd s' x = rd s x }.
Lemma sound_trans s f l oip s1 f1 l1 oip1 s2 f2 l2 oip2 :
  sound s f l oip s1 f1 l1 oip1 -> sound s1 f1 l1 oip1 s2 f2 l2 oip2 -> sound s f l oip s2 f2 l2 oip2.
Proof.
  intros [T1 N1 P1 R1] [T2 N2 P2 R2]. split; [done|congruence|by rewrite P2|]. intros x Hu H0 Hi Hb Hl.
  assert (x ∉ file_blocks used dev s1 (i_map oip1) ++ l1) as Hx by (rewrite P1, elem_of_app; tauto).
  rewrite elem_of_app in Hx. rewrite R2, R1; try done; [congruence|tauto|tauto].
Qed.

(** bmap for the block of the byte at [pos], as itrunc calls it. *)
Definition aflags_of (ioflags : Z) : Z := if flag_on ioflags IO_SYNC then Z.lor B_CLRBUF B_SYNC else B_CLRBUF.
Lemma lblkno_ok pos : 0 <= pos < 2147483648 -> s32 (lblkno pos) = pos / 1024 /\ 0 <= pos / 1024 < 2097152.
Proof.
  intros Hp. unfold lblkno. rewrite Z.shiftr_div_pow2 by lia. change (2 ^ 10) with 1024. rewrite u32_small by lia.
  assert (0 <= pos / 1024 < 2097152) by (split; [apply Z.div_pos; lia|apply Z.div_lt_upper_bound; lia]). split; [|done].
  apply s32_small. lia.
Qed.
Lemma write_map now rab flags oip f s l bn :
  file_at used dev s f l (i_map oip) -> 0 <= bn < 16843012 ->
  exists ret ra err m f1 s1 l1, bmap now rab (i_map oip) bn B_WRITE flags f s = Mapped ret ra err m f1 s1 /\
    sound s f l oip s1 f1 l1 (set_map m oip) /\ geo f1 = geo f /\
    (forall x, used dev x -> x <> SUPERB -> (x ∉ file_blocks used dev s (i_map oip)) -> (x ∉ l) -> rd s1 x = rd s x) /\
    (forall pos, 0 <= pos -> flag_on flags B_CLRBUF = true \/ pos / 1024 <> bn -> file_byte s1 m pos = file_byte s (i_map oip) pos) /\
    (err = 0 /\ 0 < ret /\ file_find used dev s1 m bn = ret \/
     err = ENOSPC /\ ret = -1 /\ l1 = [] /\ forall pos, 0 <= pos -> file_byte s1 m pos = file_byte s (i_map oip) pos).
Proof.
  intros T Hbn. pose proof (bmap_geo now rab (i_map oip) bn B_WRITE flags f s) as Hg.
  assert (map_outcome used dev s f l (i_map oip) bn (flag_on flags B_CLRBUF || (4 <=? bn)) (bmap now rab (i_map oip) bn B_WRITE flags f s)) as Ho.
  { apply bmap_write_ok; [done|lia| |done]. unfold slot_of. repeat case_if; lia. }
  destruct (bmap _ _ _ _ _ _ _ _) as [ret ra err m f1 s1|] eqn:E; [|by destruct Ho as (?&?&?&?&?&?&?&?&_)].
  destruct (bmap_bytes _ _ _ _ _ _ _ _ _ _ _ _ _ T (proj1 Hbn) Ho eq_refl) as (l1&T1&P1&R1&Y1&Hr).
  assert (forall x, used dev x -> x <> SUPERB -> (x ∉ file_blocks used dev s (i_map oip)) -> (x ∉ l) -> rd s1 x = rd s x) as R.
  { intros x Hu H0 Hb Hl. apply R1; [done|done| |done]. intros Hi. apply Hb. by apply (eindirs_eblocks used dev s (slots (i_map oip))). }
  exists ret, ra, err, m, f1, s1, l1. split; [done|]. split; [split; try done; auto|].
  split; [done|]. split; [done|].
  split; [intros pos Hp Hc; apply Y1; [done|]; destruct Hc as [->|]; [by left|by right]|].
  destruct Hr as [(?&Hn&Hf)|(?&?&?&Y)]; [left|right; split_and!; auto]. split_and!; [done| |done].
  rewrite <- Hf in Hn |- *. destruct (find_data _ _ _ _ _ T1 Hn) as (_&_&_&_&_&[Hd _]).
  pose proof (wf_isize _ (fr_wf _ _ _ _ _ (fl_frees _ _ _ _ _ _ T1))). lia.
Qed.
Lemma trunc_map now rab ioflags oip f s l bn :
  file_at used dev s f l (i_map oip) -> 0 <= bn < 16843012 ->
  exists ret ra err m f1 s1 l1, bmap now rab (i_map oip) bn B_WRITE (aflags_of ioflags) f s = Mapped ret ra err m f1 s1 /\
    sound s f l oip s1 f1 l1 (set_map m oip) /\ geo f1 = geo f /\
    (forall x, used dev x -> x <> SUPERB -> (x ∉ file_blocks used dev s (i_map oip)) -> (x ∉ l) -> rd s1 x = rd s x) /\
    (forall pos, 0 <= pos -> file_byte s1 m pos = file_byte s (i_map oip) pos) /\
    (err = 0 /\ 0 < ret /\ file_find used dev s1 m bn = ret \/ err = ENOSPC /\ ret = -1 /\ l1 = []).
Proof.
  intros T Hbn. destruct (write_map now rab (aflags_of ioflags) oip f s l bn T Hbn) as (ret&ra&err&m&f1&s1&l1&E&S1&G&R&Y&Hr).
  exists ret, ra, err, m, f1, s1, l1. do 4 (split; [done|]). split; [|naive_solver].
  intros pos Hp. apply Y; [done|]. left. unfold aflags_of. by destruct (flag_on ioflags IO_SYNC).
Qed.
Lemma sound_cut s f l oip s' f' l' oip' :
  file_at used dev s' f' l' (i_map oip') -> i_number oip' = i_number oip ->
  file_blocks used dev s' (i_map oip') ++ l' ≡ₚ file_blocks used dev s (i_map oip) ++ l ->
  (forall x, used dev x -> x <> itod (i_number oip) -> (x ∉ file_blocks used dev s (i_map oip)) -> rd s' x = rd s x) ->
  sound s f l oip s' f' l' oip'.
Proof. intros T N P R. split; auto. Qed.

(** The file has been cut to [length] bytes. *)
Record cut_down s (oip : incore) s' (oip' : incore) (length : Z) : Prop := {
  dn_size : ic_size (i_c oip') = length;
  dn_disk : on_disk s' oip';
  dn_bytes : forall pos, 0 <= pos < 17247244288 ->
    file_byte s' (i_map oip') pos = if pos <? length then file_byte s (i_map oip) pos else 0;
  dn_past : forall bn, last_block length < bn < 16843012 -> file_find used dev s' (i_map oip') bn = 0;
  dn_empty : length = 0 -> file_blocks used dev s' (i_map oip') = [] }.

Lemma last_block_split length : last_block length = if length mod 1024 =? 0 then length / 1024 - 1 else length / 1024.
Proof.
  unfold last_block. pose proof (Z.mod_pos_bound length 1024 ltac:(lia)). pose proof (Z.div_mod length 1024 ltac:(lia)) as E.
  destruct (Z.eqb_spec (length mod 1024) 0) as [E0|Hn]; rewrite E at 1.
  - rewrite E0. replace (1024 * (length / 1024) + 0 + 1023) with (1023 + length / 1024 * 1024) by lia.
    rewrite Z.div_add by lia. rewrite (Z.div_small 1023) by lia. lia.
  - replace (1024 * (length / 1024) + length mod 1024 + 1023) with ((length mod 1024 - 1) + (length / 1024 + 1) * 1024) by lia.
    rewrite Z.div_add by lia. rewrite (Z.div_small (length mod 1024 - 1)) by lia. lia.
Qed.
Lemma cut_aligned now aflags length oip f s l :
  file_at used dev s f l (i_map oip) -> in_ilist f (i_number oip) -> fs_ronly f = 0 ->
  Datatypes.length (rd s (itod (i_number oip))) = BLKWORDS -> 0 <= length < 2147483648 -> length mod 1024 = 0 ->
  exists oip' f' s' l', itrunc_cut now aflags 0 length oip f s = Some (0, oip', f', s') /\
    sound s f l oip s' f' l' oip' /\ cut_down s oip s' oip' length.
Proof.
  intros T Hil Hr Hlb Hlen E0.
  destruct (itrunc_cut_ok now aflags 0 length oip f s l T Hil Hr Hlen) as (oip'&f'&s'&l'&E&S'&N'&T'&P'&(Y'&F'&Z')&R'&D').
  exists oip', f', s', l'. split; [exact E|]. split; [by apply sound_cut|]. split; auto.
  intros pos Hpos. rewrite Y', last_block_split, E0 by done. cbn [Z.eqb].
  pose proof (Z.div_mod length 1024 ltac:(lia)). pose proof (Z.div_mod pos 1024 ltac:(lia)). pose proof (Z.mod_pos_bound pos 1024 ltac:(lia)).
  destruct (Z.leb_spec (pos / 1024) (length / 1024 - 1)), (Z.ltb_spec pos length); (done || lia).
Qed.
(** The last block is not whole: its tail is cleared first. *)
Lemma cut_partial now aflags length oip f s l :
  file_at used dev s f l (i_map oip) -> in_ilist f (i_number oip) -> fs_ronly f = 0 ->
  Datatypes.length (rd s (itod (i_number oip))) = BLKWORDS -> 0 <= length < 2147483648 -> length mod 1024 <> 0 ->
  let b := file_find used dev s (i_map oip) (length / 1024) in b <> 0 ->
  exists s1 bp s2 s3 oip' f' s' l', io_bread dev b s = Some (s1, bp) /\ io_berror s1 bp = false /\
    io_store bp (clear_bytes (length mod 1024) (io_data s1 bp)) s1 = Some s2 /\ io_write Later bp s2 = Some s3 /\
    itrunc_cut now aflags 0 length oip f s3 = Some (0, oip', f', s') /\
    sound s f l oip s' f' l' oip' /\ cut_down s oip s' oip' length.
Proof.
  intros T Hil Hr Hlb Hlen E0 b Hb. pose proof (Z.mod_pos_bound length 1024 ltac:(lia)) as Hm.
  pose proof (Z.div_mod length 1024 ltac:(lia)) as Edm. pose proof (lblkno_ok length Hlen) as [_ Hbn].
  destruct (ilist_outside _ _ _ _ _ T Hil) as (O1&O2&O3).
  destruct (clear_tail s f l (i_map oip) (length / 1024) (length mod 1024) T Hb) as (s1&bp&s2&s3&E1&Ee&E2&E3&T3&B3&I3&R3&Y3); [lia|lia|].
  assert (sound s f l oip s3 f l oip) as S3 by (split; [done|done|by rewrite B3|intros x Hu _ _ Hx _; by apply R3]).
  destruct (itrunc_cut_ok now aflags 0 length oip f s3 l T3 Hil Hr Hlen) as (oip'&f'&s'&l'&E&S'&N'&T'&P'&(Y'&F'&Z')&R'&D').
  exists s1, bp, s2, s3, oip', f', s', l'. do 5 (split; [done|]). split; [eapply sound_trans; [exact S3|by apply sound_cut]|].
  split; auto; [apply D'; rewrite R3; [done|apply Hil|done]|]. intros pos Hpos.
  rewrite Y', Y3, last_block_split, (proj2 (Z.eqb_neq (length mod 1024) 0)) by (done || lia).
  pose proof (Z.div_mod pos 1024 ltac:(lia)). pose proof (Z.mod_pos_bound pos 1024 ltac:(lia)).
  destruct (Z.leb_spec (pos / 1024) (length / 1024)), (Z.ltb_spec pos length),
    (Z.leb_spec (length / 1024 * 1024 + length mod 1024) pos), (Z.ltb_spec pos ((length / 1024 + 1) * 1024)); cbn [andb]; (done || lia).
Qed.
(** The block at the new end may be new: what was cut after bmap gave it. *)
Lemma cut_down_map s oip s1 m s' oip' length :
  (forall pos, 0 <= pos -> file_byte s1 m pos = file_byte s (i_map oip) pos) ->
  cut_down s1 (set_map m oip) s' oip' length -> cut_down s oip s' oip' length.
Proof. intros Y [D1 D2 D3 D4 D5]. split; auto. intros pos Hpos. rewrite D3 by done. cbn [i_map set_map]. by rewrite Y by lia. Qed.

(** (C13) itrunc to a smaller length: unless space runs out on the way, the
    file then has the length, its bytes up to there as they were and zeros
    from there on; no block past the last one is left in the file, all its
    other blocks are on the free list, each once, and the inode on the disk is
    the one in core.  Space can run out only when a hole lies at the new end:
    then the file keeps all its bytes and its size, and ENOSPC is reported.
    In both cases no block of the file system is lost, and nothing is written
    to blocks of other files. *)
Theorem itrunc_spec now rab length ioflags oip f s l :
  file_at used dev s f l (i_map oip) -> in_ilist f (i_number oip) -> fs_ronly f = 0 ->
  Datatypes.length (rd s (itod (i_number oip))) = BLKWORDS -> iflag_on oip IPIPE = false ->
  0 <= length < ic_size (i_c oip) -> ic_size (i_c oip) < 2147483648 ->
  exists err oip' f' s' l', itrunc now rab 0 length ioflags oip f s = Some (err, oip', f', s') /\
    sound s f l oip s' f' l' oip' /\
    (err = 0 /\ cut_down s oip s' oip' length \/
     err = ENOSPC /\ length mod 1024 <> 0 /\ l' = [] /\ i_c oip' = i_c oip /\
       forall pos, 0 <= pos -> file_byte s' (i_map oip') pos = file_byte s (i_map oip) pos).
Proof.
  intros T Hil Hr Hlb Hpipe Hlen Hsz. unfold itrunc. fold (aflags_of ioflags). rewrite Hpipe. cbn [negb andb].
  rewrite u32_small, (proj2 (Z.eqb_neq (ic_size (i_c oip)) length)), (proj2 (Z.ltb_ge (ic_size (i_c oip)) length)) by lia.
  unfold blkoff. change 1023 with (Z.ones 10) at 1 2. rewrite Z.land_ones by lia. change (2 ^ 10) with 1024.
  destruct (ilist_outside _ _ _ _ _ T Hil) as (O1&O2&O3). destruct (Z.eqb_spec (length mod 1024) 0) as [E0|Hoff]; cbn [negb].
  - destruct (cut_aligned now (aflags_of ioflags) length oip f s l) as (oip'&f'&s'&l'&E&HS&HD); try done; [lia|].
    exists 0, oip', f', s', l'. split; [exact E|]. split; [done|]. by left.
  - destruct (lblkno_ok length ltac:(lia)) as [-> Hbn].
    destruct (trunc_map now rab ioflags oip f s l (length / 1024) T ltac:(lia)) as (ret&ra&err&m&f1&s1&l1&->&S1&G1&R1&Y1&Hout).
    injection G1 as Hr1 Hi1. destruct Hout as [(->&Hret&Hf)|(->&->&->)]; cbn [Z.eqb orb negb].
    2:{ exists ENOSPC, (set_map m oip), f1, s1, []. split; [done|]. split; [done|]. right. by split_and!. }
    rewrite (proj2 (Z.ltb_ge ret 0)) by lia. pose proof (so_file _ _ _ _ _ _ _ _ S1) as T1.
    destruct (cut_partial now (aflags_of ioflags) length (set_map m oip) f1 s1 l1 T1) as (s2&bp&s3&s4&oip'&f'&s'&l'&E2&Ee&E3&E4&E&HS&HD);
      [unfold in_ilist; by rewrite Hi1|congruence|cbn [i_number set_map]; rewrite R1; try done; apply Hil|lia|done|cbn [i_map set_map]; lia|].
    cbn [i_map set_map] in *. rewrite Hf in E2. rewrite (fl_dev _ _ _ _ _ _ T1), E2. cbn [mbind option_bind]. rewrite Ee, E3.
    cbn [mbind option_bind]. rewrite E4. cbn [mbind option_bind].
    exists 0, oip', f', s', l'. split; [exact E|]. split; [by eapply sound_trans|]. left. split; [done|]. by eapply cut_down_map.
Qed.

(** itrunc to the length the file has, or to a greater one: the file keeps
    its bytes, its last byte gets a block, and the inode is written with the
    new length; when there is no block for the last byte, ENOSPC is reported
    and the length stays. *)
Theorem itrunc_grow_spec now rab length ioflags oip f s l :
  file_at used dev s f l (i_map oip) -> in_ilist f (i_number oip) -> fs_ronly f = 0 ->
  Datatypes.length (rd s (itod (i_number oip))) = BLKWORDS -> iflag_on oip IPIPE = false ->
  0 <= ic_size (i_c oip) <= length -> length < 2147483648 ->
  exists err oip' f' s' l', itrunc now rab 0 length ioflags oip f s = Some (err, oip', f', s') /\
    sound s f l oip s' f' l' oip' /\
    (forall pos, 0 <= pos -> file_byte s' (i_map oip') pos = file_byte s (i_map oip) pos) /\
    (err = 0 /\ ic_size (i_c oip') = length /\ on_disk s' oip' /\
       (ic_size (i_c oip) < length -> file_find used dev s' (i_map oip') ((length - 1) / 1024) <> 0) \/
     err = ENOSPC /\ l' = [] /\ i_c oip' = i_c oip).
Proof.
  intros T Hil Hr Hlb Hpipe Hlen Hsz. unfold itrunc. fold (aflags_of ioflags). rewrite Hpipe. cbn [negb andb].
  rewrite u32_small by lia. destruct (ilist_outside _ _ _ _ _ T Hil) as (O1&O2&O3).
  destruct (Z.eqb_spec (ic_size (i_c oip)) length) as [Es|Hne].
  - destruct (itrunc_done_ok now 0 oip f s l T Hil Hr) as (oip'&s'&E&N'&S'&T'&(B'&F'&Y')&R'&D').
    exists 0, oip', f, s', l. split; [exact E|]. split; [apply sound_cut; [done|done|by rewrite B'|auto]|].
    split; [auto|]. left. split_and!; [done|congruence|auto|lia].
  - rewrite (proj2 (Z.ltb_lt (ic_size (i_c oip)) length)) by lia. destruct (lblkno_ok (length - 1) ltac:(lia)) as [-> Hbn].
    destruct (trunc_map now rab ioflags oip f s l ((length - 1) / 1024) T ltac:(lia)) as (ret&ra&err&m&f1&s1&l1&->&S1&G1&R1&Y1&Hout).
    injection G1 as Hr1 Hi1. destruct Hout as [(->&Hret&Hf)|(->&->&->)]; cbn [Z.eqb orb negb].
    2:{ exists ENOSPC, (set_map m oip), f1, s1, []. split; [done|]. split; [done|]. split; [done|]. by right. }
    rewrite (proj2 (Z.ltb_ge ret 0)) by lia. pose proof (so_file _ _ _ _ _ _ _ _ S1) as T1.
    set (oip1 := set_c (set_size (s32 length) (i_c (set_map m oip))) (set_map m oip)).
    destruct (itrunc_done_ok now 0 oip1 f1 s1 l1 T1) as (oip'&s'&E&N'&S'&T'&(B'&F'&Y')&R'&D');
      [unfold in_ilist; rewrite Hi1; exact Hil|congruence|].
    exists 0, oip', f1, s', l1. split; [exact E|].
    split; [eapply sound_trans; [exact S1|]; apply sound_cut; [done|done|by rewrite B'|auto]|].
    split; [intros pos Hpos; rewrite Y'; by apply Y1|]. left. split_and!; [done|rewrite S'; cbn; apply s32_small; lia| |].
    + apply D'. cbn [i_number oip1 set_c set_map]. rewrite R1; try done. apply Hil.
    + intros _. rewrite F'. change (i_map oip1) with m. rewrite Hf. lia.
Qed.
End Spec.

(** A file of 5000 bytes without any block, cut to 1500 and grown to 6000: its
    inode is number 20, in block 2 of the device. *)
Definition ex_disk : gmap (Z * Z) (list Z) := {[ (0, 2) := replicate BLKWORDS 0 ]}.
Definition ex_oip : incore := MkIncore ex_ip 20 (MkIcommon 33188 1 0 0 5000 0 0 0 0).
Lemma ex_trunc : exists c, @file_at _ ex_io ex_fs_used ex_io_spec 0 c ex_fs3 [22; 21; 20] (i_map ex_oip) /\
  in_ilist ex_fs_used 0 ex_fs3 (i_number ex_oip) /\
  length (@io_content _ ex_io ex_fs_used ex_io_spec c 0 (itod (i_number ex_oip))) = BLKWORDS.
Proof.
  destruct (ex_boot_on ex_disk) as (c&Hc&Hd). exists c. split; [by apply ex_file_on|]. split; [by vm_compute|].
  rewrite Hd. by vm_compute.
Qed.
Lemma itrunc_spec_witness :
  exists c err oip' f' c' l', @itrunc _ ex_io 7 0 0 1500 0 ex_oip ex_fs3 c = Some (err, oip', f', c') /\
    @file_at _ ex_io ex_fs_used ex_io_spec 0 c' f' l' (i_map oip').
Proof.
  destruct ex_trunc as (c&T&Hil&Hlen). exists c.
  destruct (@itrunc_spec _ ex_io ex_fs_used ex_io_spec 0 7 0 1500 0 ex_oip ex_fs3 c [22; 21; 20]) as (err&oip'&f'&c'&l'&E&[S _ _ _]&_);
    [exact T|exact Hil|done|exact Hlen|done|by vm_compute|by vm_compute|].
  exists err, oip', f', c', l'. split; [exact E|exact S].
Defined.
Lemma itrunc_grow_spec_witness :
  exists c err oip' f' c' l', @itrunc _ ex_io 7 0 0 6000 0 ex_oip ex_fs3 c = Some (err, oip', f', c') /\
    @file_at _ ex_io ex_fs_used ex_io_spec 0 c' f' l' (i_map oip').
Proof.
  destruct ex_trunc as (c&T&Hil&Hlen). exists c.
  destruct (@itrunc_grow_spec _ ex_io ex_fs_used ex_io_spec 0 7 0 6000 0 ex_oip ex_fs3 c [22; 21; 20]) as (err&oip'&f'&c'&l'&E&[S _ _ _]&_);
    [exact T|exact Hil|done|exact Hlen|done|by vm_compute|by vm_compute|].
  exists err, oip', f', c', l'. split; [exact E|exact S].
Defined.
End Itrunc.
