(* ===== verification/Rwip.v ===== *)
(** Reading and writing files (sys/include/uio.h, uiomove of
    sys/kernel/kern_subr.c, rwip and rdwri of sys/kernel/sys_inode.c): the
    bytes between the caller's memory and the blocks of a file.

    The memory of the caller is a map from addresses to bytes; the data of a
    buffer are 256 words, of which [byte_at] takes the bytes. *)
From S2P Require Import Prelude Bio Bcache Blockio Alloc Bmap Dinode Trunc Itrunc.
Import Bcache Blockio Alloc Bmap Dinode Trunc Itrunc.

Module Rwip.

(** ** Data *)

Definition DEV_BSIZE : Z := 1024.
Definition IO_UNIT : Z := 1.
Definition IO_APPEND : Z := 2.
Definition IFMT : Z := 61440.
Definition IFCHR : Z := 8192.
Definition IFDIR : Z := 16384.
Definition IFBLK : Z := 24576.
Definition IFREG : Z := 32768.
Definition IFLNK : Z := 40960.
Definition ISUID : Z := 2048.
Definition ISGID : Z := 1024.
Definition APPEND : Z := 1028.
Definition MNT_NOATIME : Z := 128.
Definition SIGXFSZ : Z := 25.
Definition EPERM : Z := 1.
Definition EFTYPE : Z := 79.

Inductive uio_dir := UIO_READ | UIO_WRITE.
Record iovec := MkIovec { iov_base : Z; iov_len : Z }.
(** [uio_iov] is the list of iovecs from the current one on. *)
Record uio := MkUio {
  uio_iov : list iovec; uio_iovcnt : Z; uio_offset : Z; uio_resid : Z; uio_rw : uio_dir }.
Definition is_read (u : uio) : bool := match uio_rw u with UIO_READ => true | UIO_WRITE => false end.

(** The caller's memory, and bcopy from and to it. *)
Definition umem := gmap Z Z.
Definition ubyte (um : umem) (a : Z) : Z := u8 (um !!! a).
Definition user_read (a : Z) (n : nat) (um : umem) : list Z := map (fun i => ubyte um (a + Z.of_nat i)) (seq 0 n).
Fixpoint user_write (a : Z) (bs : list Z) (um : umem) : umem :=
  match bs with [] => um | b :: bs => user_write (a + 1) bs (<[a := b]> um) end.

(** The bytes of a buffer, and bytes copied into it at [cp]. *)
Definition get_bytes (cp : Z) (n : nat) (d : list Z) : list Z := map (fun i => byte_at d (cp + Z.of_nat i)) (seq 0 n).
Definition word_of (b : Z -> Z) (j : nat) : Z :=
  let i := 4 * Z.of_nat j in b i + b (i + 1) * 256 + b (i + 2) * 65536 + b (i + 3) * 16777216.
Definition with_bytes (cp : Z) (bs : list Z) (d : list Z) (i : Z) : Z :=
  if (cp <=? i) && (i <? cp + Z.of_nat (length bs)) then nth (Z.to_nat (i - cp)) bs 0 else byte_at d i.
Definition put_bytes (cp : Z) (bs : list Z) (d : list Z) : list Z :=
  map (word_of (with_bytes cp bs d)) (seq 0 BLKWORDS).

(** ** uiomove

    [d] is the buffer and [cp] the place in it.  An iovec past the array is
    [None]; the loop takes two turns for each iovec. *)
Definition next_iov (u : uio) : uio :=
  MkUio (tl (uio_iov u)) (uio_iovcnt u - 1) (uio_offset u) (uio_resid u) (uio_rw u).
Definition advance_iov (cnt : Z) (u : uio) : uio :=
  match uio_iov u with
  | [] => u
  | v :: vs =>
      MkUio (MkIovec (u32 (iov_base v + cnt)) (u32 (iov_len v - cnt)) :: vs) (uio_iovcnt u)
        (s32 (uio_offset u + cnt)) (u32 (uio_resid u - cnt)) (uio_rw u)
  end.
Fixpoint uiomove_loop (fuel : nat) (d : list Z) (cp n : Z) (u : uio) (um : umem) : option (list Z * uio * umem) :=
  match fuel with
  | O => None
  | S fuel =>
      if (0 <? n) && negb (uio_resid u =? 0) then
        match uio_iov u with
        | [] => None
        | iov :: _ =>
            let cnt := iov_len iov in
            if cnt =? 0 then uiomove_loop fuel d cp n (next_iov u) um
            else
              let cnt := if n <? cnt then n else cnt in
              let '(d, um) := match uio_rw u with
                | UIO_READ => (d, user_write (iov_base iov) (get_bytes cp (Z.to_nat cnt) d) um)
                | UIO_WRITE => (put_bytes cp (user_read (iov_base iov) (Z.to_nat cnt) um) d, um)
                end in
              uiomove_loop fuel d (cp + cnt) (n - cnt) (advance_iov cnt u) um
        end
      else Some (d, u, um)
  end.
Definition uiomove (d : list Z) (cp n : Z) (u : uio) (um : umem) : option (list Z * uio * umem) :=
  uiomove_loop (S (2 * length (uio_iov u))) d cp n u um.

(** ** rwip *)

Section Rwip.
Context {S : Type} `{BlockIO S}.
(** The read and write routines of the character devices: cdevsw. *)
Context (cdevrw : Z -> Z -> uio -> umem -> option (Z * uio * umem)).

(** What rwip works on: the inode with its i_lastr, the globals rablock and
    u.u_error, the request and the caller's memory, the super block and the
    buffers. *)
Record rw := MkRw {
  w_ip : incore; w_lastr : Z; w_ra : Z; w_err : Z; w_uio : uio; w_um : umem; w_f : fs; w_s : S }.
Implicit Types (w : rw) (s : S).
Definition set_ip (ip : incore) w : rw := MkRw ip (w_lastr w) (w_ra w) (w_err w) (w_uio w) (w_um w) (w_f w) (w_s w).
Definition set_io s w : rw := MkRw (w_ip w) (w_lastr w) (w_ra w) (w_err w) (w_uio w) (w_um w) (w_f w) s.
Definition set_uio (u : uio) (um : umem) w : rw := MkRw (w_ip w) (w_lastr w) (w_ra w) (w_err w) u um (w_f w) (w_s w).
Definition set_err (e : Z) w : rw := MkRw (w_ip w) (w_lastr w) (w_ra w) e (w_uio w) (w_um w) (w_f w) (w_s w).
Definition set_lastr (v : Z) w : rw := MkRw (w_ip w) v (w_ra w) (w_err w) (w_uio w) (w_um w) (w_f w) (w_s w).
Definition set_ra (v : Z) w : rw := MkRw (w_ip w) (w_lastr w) v (w_err w) (w_uio w) (w_um w) (w_f w) (w_s w).
Definition set_mapped (ra e : Z) (m : inode) (f : fs) s w : rw :=
  MkRw (set_map m (w_ip w)) (w_lastr w) ra (if e =? 0 then w_err w else e) (w_uio w) (w_um w) f s.

(** A step of the loop: go on with the block, leave the function with a value,
    or leave the loop with an error. *)
Inductive turn (A : Type) : Type :=
  | Go (a : A) (w : rw)
  | Return (e : Z) (w : rw)
  | Break (e : Z) (w : rw)
  | Hang.
Arguments Go {A} _ _.
Arguments Return {A} _ _.
Arguments Break {A} _ _.
Arguments Hang {A}.
Definition then_turn {A B} (t : turn A) (k : A -> rw -> turn B) : turn B :=
  match t with Go a w => k a w | Return e w => Return e w | Break e w => Break e w | Hang => Hang end.

(** The block of the device for the block [lbn] of the file, and how many
    bytes of it: from [if (type != IFBLK)] to the end of its [else]. *)
Definition rw_map (now type flags lbn n : Z) w : turn (Z * Z) :=
  if negb (type =? IFBLK) then
    let size := ic_size (i_c (w_ip w)) in
    let diff := s32 (size - uio_offset (w_uio w)) in
    if is_read (w_uio w) && (diff <=? 0) then Return 0 w
    else
      let n := if is_read (w_uio w) && (diff <? n) then diff else n in
      match (if is_read (w_uio w) then bmap now (w_ra w) (i_map (w_ip w)) lbn Bio.B_READ flags (w_f w) (w_s w)
             else bmap now (w_ra w) (i_map (w_ip w)) lbn B_WRITE (if n =? DEV_BSIZE then flags else Z.lor flags B_CLRBUF) (w_f w) (w_s w)) with
      | MapStuck => Hang
      | Mapped bn ra e m f s =>
          let w := set_mapped ra e m f s w in
          if negb (w_err w =? 0) || (negb (is_read (w_uio w)) && (bn <? 0)) then Return (w_err w) w
          else
            let end_ := s32 (uio_offset (w_uio w) + n) in
            let grow := negb (is_read (w_uio w)) && (size <? end_) && ((type =? IFDIR) || (type =? IFREG) || (type =? IFLNK)) in
            Go (bn, n) (if grow then set_ip (set_c (set_size end_ (i_c (w_ip w))) (w_ip w)) w else w)
      end
  else Go (lbn, n) (set_ra (s32 (lbn + 1)) w).

(** The buffer for it. *)
Definition rw_getbuf (dev lbn bn n : Z) w : turn Z :=
  let with_buf (r : option (S * Z)) := match r with None => Hang | Some (s, bp) => Go bp (set_io s w) end in
  if is_read (w_uio w) then
    then_turn
      (if bn <? 0 then
         then_turn (with_buf (io_geteblk (w_s w))) (fun bp w =>
         match io_store bp (replicate BLKWORDS 0) (w_s w) with None => Hang | Some s => Go bp (set_io s w) end)
       else if s32 (w_lastr w + 1) =? lbn then with_buf (io_breada dev bn (w_ra w) (w_s w))
       else with_buf (io_bread dev bn (w_s w)))
      (fun bp w => Go bp (set_lastr lbn w))
  else
    then_turn (with_buf (if n =? DEV_BSIZE then io_getblk dev bn (w_s w) else io_bread dev bn (w_s w))) (fun bp w =>
    if io_resid (w_s w) bp =? DEV_BSIZE then
      match (s ← io_noresid bp (w_s w); io_store bp (replicate BLKWORDS 0) s) with None => Hang | Some s => Go bp (set_io s w) end
    else Go bp w).

(** The bytes are moved and the buffer is released or written. *)
Definition rw_release (ioflag on n bp : Z) w : option S :=
  let ip := w_ip w in let s := w_s w in
  if is_read (w_uio w) then
    s ← (if (n + on =? DEV_BSIZE) || (uio_offset (w_uio w) =? ic_size (i_c ip)) then
           s ← io_age bp s;
           if iflag_on ip IPIPE then io_undelay bp s else Some s
         else Some s);
    io_brelse bp s
  else if flag_on ioflag IO_SYNC then io_write Now bp s
  else if (n + on =? DEV_BSIZE) && negb (iflag_on ip IPIPE) then
    s ← io_age bp s;
    io_write Soon bp s
  else io_write Later bp s.
(** After a write: the times are due, and only root keeps the set-id bits. *)
Definition rw_wrote (ruid : Z) w : rw :=
  let ip := or_iflag (IUPD + ICHG) (w_ip w) in
  set_ip (if negb (ruid =? 0) then set_c (set_mode (flag_clr (ic_mode (i_c ip)) (ISUID + ISGID)) (i_c ip)) ip else ip) w.
Definition rw_move (ruid ioflag on n bp : Z) w : turn Z :=
  let n := let avail := u32 (DEV_BSIZE - io_resid (w_s w) bp) in if n <? avail then n else avail in
  if io_berror (w_s w) bp then
    match io_brelse bp (w_s w) with None => Hang | Some s => Break EIO (set_io s w) end
  else
    match uiomove (io_data (w_s w) bp) on n (w_uio w) (w_um w) with
    | None => Hang
    | Some (d, u, um) =>
        match (if is_read (w_uio w) then Some (w_s w) else io_store bp d (w_s w)) with
        | None => Hang
        | Some s =>
            let w := set_err 0 (set_uio u um (set_io s w)) in
            match rw_release ioflag on n bp w with
            | None => Hang
            | Some s => let w := set_io s w in Go n (if is_read (w_uio w) then w else rw_wrote ruid w)
            end
        end
    end.

Definition rw_turn (now ruid type dev flags ioflag : Z) w : turn Z :=
  let lbn := s32 (lblkno (uio_offset (w_uio w))) in
  let on := blkoff (uio_offset (w_uio w)) in
  let n := let room := u32 (DEV_BSIZE - on) in if room <? uio_resid (w_uio w) then room else uio_resid (w_uio w) in
  then_turn (rw_map now type flags lbn n w) (fun '(bn, n) w =>
  then_turn (rw_getbuf dev lbn bn n w) (fun bp w =>
  rw_move ruid ioflag on n bp w)).

Inductive rw_end := RwReturn (e : Z) (w : rw) | RwBreak (e : Z) (w : rw) | RwHang.
(** [do ... while (u.u_error == 0 && uio->uio_resid && n != 0)] *)
Fixpoint rw_loop (fuel : nat) (now ruid type dev flags ioflag : Z) w : rw_end :=
  match fuel with
  | O => RwHang
  | Datatypes.S fuel =>
      match rw_turn now ruid type dev flags ioflag w with
      | Hang => RwHang
      | Return e w => RwReturn e w
      | Break e w => RwBreak e w
      | Go n w =>
          if (w_err w =? 0) && negb (uio_resid (w_uio w) =? 0) && negb (n =? 0)
          then rw_loop fuel now ruid type dev flags ioflag w
          else RwBreak 0 w
      end
  end.
(** Every turn but the first and the last two moves a whole block; the last
    one of a read may find the end of the file. *)
Definition rw_fuel (resid : Z) : nat := Z.to_nat (resid / DEV_BSIZE + 3).

(** The result: the value, the signals sent to the process, and the state. *)
Definition rwip_blocks (now ruid type ioflag : Z) w : option (Z * list Z * rw) :=
  let dev := if negb (type =? IFBLK) then i_dev (i_map (w_ip w)) else get_addr (i_map (w_ip w)) 1 in
  let resid := uio_resid (w_uio w) in
  let osize := ic_size (i_c (w_ip w)) in
  let flags := if flag_on ioflag IO_SYNC then B_SYNC else 0 in
  match rw_loop (rw_fuel resid) now ruid type dev flags ioflag w with
  | RwHang => None
  | RwReturn e w => Some (e, [], w)
  | RwBreak error w =>
      let error := if error =? 0 then w_err w else error in
      if negb (error =? 0) && negb (is_read (w_uio w)) && flag_on ioflag IO_UNIT && negb (type =? IFBLK) then
        '(e, ip, f, s) ← itrunc now (w_ra w) (w_err w) (u32 osize) (Z.land ioflag IO_SYNC) (w_ip w) (w_f w) (w_s w);
        let u := w_uio w in
        let u := MkUio (uio_iov u) (uio_iovcnt u) (s32 (uio_offset u - (resid - uio_resid u))) resid (uio_rw u) in
        Some (error, [], MkRw ip (w_lastr w) (w_ra w) e u (w_um w) f s)
      else Some (error, [], w)
  end.

Definition rwip_dev (ioflag : Z) w : option (Z * list Z * rw) :=
  let ip := w_ip w in
  let noatime := flag_on (fs_flags (w_f w)) MNT_NOATIME in
  let ip' := if is_read (w_uio w) then if negb noatime then or_iflag IACC ip else ip else or_iflag (IUPD + ICHG) ip in
  '(e, u, um) ← cdevrw (get_addr (i_map ip) 1) ioflag (w_uio w) (w_um w);
  Some (e, [], set_uio u um (set_ip ip' w)).

(** A write with IO_APPEND starts at the end of the file. *)
Definition append_pos (ioflag : Z) w : rw :=
  if flag_on ioflag IO_APPEND then
    let u := w_uio w in set_uio (MkUio (uio_iov u) (uio_iovcnt u) (ic_size (i_c (w_ip w))) (uio_resid u) (uio_rw u)) (w_um w) w
  else w.
(** The checks of a write: [inl] an error, or [inr] the flags to go on with. *)
Definition write_check (type ioflag : Z) w : Z * rw + Z * rw :=
  let size := ic_size (i_c (w_ip w)) in
  if type =? IFREG then
    let w := append_pos ioflag w in
    if flag_on (ic_flags (i_c (w_ip w))) APPEND && negb (uio_offset (w_uio w) =? size) then inl (EPERM, w) else inr (ioflag, w)
  else if type =? IFDIR then inr (flag_set ioflag IO_SYNC, w)
  else if (type =? IFLNK) || (type =? IFBLK) || (type =? IFCHR) then inr (ioflag, w)
  else inl (EFTYPE, w).

(** [fsize] is the limit u.u_rlimit[RLIMIT_FSIZE].rlim_cur. *)
Definition rwip (now ruid fsize : Z) (ioflag : Z) w : option (Z * list Z * rw) :=
  let type := Z.land (ic_mode (i_c (w_ip w))) IFMT in
  match (if is_read (w_uio w) then
           inr (ioflag, if negb (flag_on (fs_flags (w_f w)) MNT_NOATIME) then set_ip (or_iflag IACC (w_ip w)) w else w)
         else write_check type ioflag w) with
  | inl (e, w) => Some (e, [], w)
  | inr (ioflag, w) =>
      let ioflag := if (type =? IFREG) || ((type =? IFDIR) && flag_on (fs_flags (w_f w)) MNT_ASYNC)
                    then flag_clr ioflag IO_SYNC else ioflag in
      if type =? IFCHR then rwip_dev ioflag w
      else if uio_resid (w_uio w) =? 0 then Some (0, [], w)
      else if negb (is_read (w_uio w)) && (type =? IFREG) && (u32 fsize <? u32 (uio_offset (w_uio w) + uio_resid (w_uio w)))
      then Some (EFBIG, [SIGXFSZ], w)
      else rwip_blocks now ruid type ioflag w
  end.

(** rdwri: [None] for no place for the rest. *)
Definition rdwri (now ruid fsize : Z) (dir : uio_dir) (ip : incore) (lastr ra err : Z) (base len offset ioflg : Z) (um : umem) (f : fs) s
    (aresid : bool) : option (Z * option Z * list Z * rw) :=
  let u := MkUio [MkIovec base (u32 len)] 1 offset (u32 len) dir in
  '(error, sigs, w) ← rwip now ruid fsize ioflg (MkRw ip lastr ra err u um f s);
  let resid := uio_resid (w_uio w) in
  Some (if aresid then (error, Some (s32 resid), sigs, w)
        else (if negb (resid =? 0) then EIO else error, None, sigs, w)).
End Rwip.
Arguments rw : clear implicits.
Arguments rw_end : clear implicits.
Arguments turn : clear implicits.
Arguments Go {S A} _ _.
Arguments Return {S A} _ _.
Arguments Break {S A} _ _.
Arguments Hang {S A}.
Arguments RwReturn {S} _ _.
Arguments RwBreak {S} _ _.
Arguments RwHang {S}.

(** ** Bytes of buffers *)

Lemma byte_at_range d i : 0 <= byte_at d i < 256.
Proof. apply Z.mod_pos_bound. lia. Qed.
Lemma word_of_byte b j i :
  (forall x, 0 <= b x < 256) -> i / 4 = Z.of_nat j -> word_of b j / 2 ^ (8 * (i mod 4)) mod 256 = b i.
Proof.
  intros Hb Hi. pose proof (Z.div_mod i 4 ltac:(lia)) as Ei. pose proof (Z.mod_pos_bound i 4 ltac:(lia)). unfold word_of.
  pose proof (Hb (4 * Z.of_nat j)). pose proof (Hb (4 * Z.of_nat j + 1)). pose proof (Hb (4 * Z.of_nat j + 2)).
  pose proof (Hb (4 * Z.of_nat j + 3)).
  set (b0 := b (4 * Z.of_nat j)) in *. set (b1 := b (4 * Z.of_nat j + 1)) in *. set (b2 := b (4 * Z.of_nat j + 2)) in *.
  set (b3 := b (4 * Z.of_nat j + 3)) in *.
  assert (i mod 4 = 0 \/ i mod 4 = 1 \/ i mod 4 = 2 \/ i mod 4 = 3) as [E|[E|[E|E]]] by lia; rewrite E in *.
  - replace (b i) with b0 by (unfold b0; f_equal; lia). change (2 ^ (8 * 0)) with 1. rewrite Z.div_1_r.
    symmetry. apply (Z.mod_unique_pos _ _ (b1 + b2 * 256 + b3 * 65536)); lia.
  - replace (b i) with b1 by (unfold b1; f_equal; lia). change (2 ^ (8 * 1)) with 256.
    replace (_ / 256) with (b1 + b2 * 256 + b3 * 65536) by (apply (Z.div_unique_pos _ _ _ b0); lia).
    symmetry. apply (Z.mod_unique_pos _ _ (b2 + b3 * 256)); lia.
  - replace (b i) with b2 by (unfold b2; f_equal; lia). change (2 ^ (8 * 2)) with 65536.
    replace (_ / 65536) with (b2 + b3 * 256) by (apply (Z.div_unique_pos _ _ _ (b0 + b1 * 256)); lia).
    symmetry. apply (Z.mod_unique_pos _ _ b3); lia.
  - replace (b i) with b3 by (unfold b3; f_equal; lia). change (2 ^ (8 * 3)) with 16777216.
    replace (_ / 16777216) with b3 by (apply (Z.div_unique_pos _ _ _ (b0 + b1 * 256 + b2 * 65536)); lia).
    apply Z.mod_small. lia.
Qed.
Lemma put_bytes_at cp bs d i :
  Forall (fun b => 0 <= b < 256) bs -> 0 <= i < 1024 -> byte_at (put_bytes cp bs d) i = with_bytes cp bs d i.
Proof.
  intros Hbs Hi. unfold byte_at, put_bytes. assert (0 <= i / 4 < 256) by (split; [apply Z.div_pos; lia|apply Z.div_lt_upper_bound; lia]).
  rewrite (nth_indep _ 0 (word_of (with_bytes cp bs d) 0)) by (rewrite length_map, length_seq; unfold BLKWORDS; lia).
  rewrite map_nth, seq_nth by (unfold BLKWORDS; lia). apply word_of_byte; [|lia]. intros x. unfold with_bytes.
  destruct (_ && _); [|apply byte_at_range]. destruct (nth_in_or_default (Z.to_nat (x - cp)) bs 0) as [Hin|E]; [|rewrite E; lia].
  rewrite Forall_forall in Hbs. apply Hbs. by apply list_elem_of_In.
Qed.
Lemma ubyte_range um a : 0 <= ubyte um a < 256.
Proof. apply Z.mod_pos_bound. lia. Qed.

(** Bytes stored at a list of addresses, one after the other. *)
Fixpoint scatter (addrs bs : list Z) (um : umem) : umem :=
  match addrs, bs with a :: addrs, b :: bs => scatter addrs bs (<[a := b]> um) | _, _ => um end.
Lemma scatter_app a1 a2 b1 b2 um : length a1 = length b1 -> scatter (a1 ++ a2) (b1 ++ b2) um = scatter a2 b2 (scatter a1 b1 um).
Proof. revert b1 um. induction a1 as [|a a1 IH]; intros [|b b1] um Hl; simplify_eq/=; [done|]. by apply IH. Qed.
Lemma user_write_scatter a bs um : user_write a bs um = scatter (seqZ a (Z.of_nat (length bs))) bs um.
Proof.
  revert a um. induction bs as [|b bs IH]; intros a um; [done|]. rewrite seqZ_cons by (simpl; lia). cbn [user_write scatter].
  rewrite IH. f_equal. f_equal; simpl length; lia.
Qed.
Lemma user_read_seqZ a n um : user_read a n um = map (ubyte um) (seqZ a (Z.of_nat n)).
Proof.
  unfold user_read. change (seqZ a (Z.of_nat n)) with (map (fun i => Z.of_nat i + a) (seq 0 (Z.to_nat (Z.of_nat n)))).
  rewrite Nat2Z.id, map_map. apply map_ext. intros i. f_equal. lia.
Qed.
Lemma get_bytes_seqZ cp n d : get_bytes cp n d = map (byte_at d) (seqZ cp (Z.of_nat n)).
Proof.
  unfold get_bytes. change (seqZ cp (Z.of_nat n)) with (map (fun i => Z.of_nat i + cp) (seq 0 (Z.to_nat (Z.of_nat n)))).
  rewrite Nat2Z.id, map_map. apply map_ext. intros i. f_equal. lia.
Qed.

(** ** Requests

    A request names the addresses of its bytes in order; uio_resid is their
    number. *)
Definition iov_ok (v : iovec) : Prop := 0 <= iov_base v /\ 0 <= iov_len v /\ iov_base v + iov_len v < 4294967296.
Definition iov_addrs (v : iovec) : list Z := seqZ (iov_base v) (iov_len v).
Definition uaddrs (u : uio) : list Z := concat (map iov_addrs (uio_iov u)).
Record uio_ok (u : uio) : Prop := {
  uk_iov : Forall iov_ok (uio_iov u);
  uk_resid : uio_resid u = Z.of_nat (length (uaddrs u));
  uk_offset : 0 <= uio_offset u;
  uk_end : uio_offset u + uio_resid u < 2147483648 }.

(** What a request is after [k] of its bytes. *)
Record moved (k : Z) (u u' : uio) : Prop := {
  mv_ok : uio_ok u';
  mv_dir : uio_rw u' = uio_rw u;
  mv_addrs : uaddrs u' = drop (Z.to_nat k) (uaddrs u);
  mv_offset : uio_offset u' = uio_offset u + k;
  mv_k : 0 <= k <= uio_resid u }.
Lemma mv_resid k u u' : moved k u u' -> uio_ok u -> uio_resid u' = uio_resid u - k.
Proof. intros [[_ -> _ _] _ -> _ Hk] [_ Hr _ _]. rewrite length_drop. lia. Qed.
Lemma moved_0 u : uio_ok u -> moved 0 u u.
Proof. intros Hu. split; try done; [lia|]. destruct Hu. lia. Qed.
Lemma uio_moved_trans k k' u u1 u2 : uio_ok u -> moved k u u1 -> moved k' u1 u2 -> moved (k + k') u u2.
Proof.
  intros Hu M1 M2. pose proof (mv_resid _ _ _ M1 Hu). destruct M1 as [A1 A2 A3 A4 A5], M2 as [B1 B2 B3 B4 B5].
  split; [done|congruence| |lia|lia]. rewrite B3, A3, drop_drop. f_equal. lia.
Qed.

(** How many turns the loop takes at most. *)
Definition iov_turns (vs : list iovec) : nat := foldr (fun v t => ((if (iov_len v =? 0)%Z then 1 else 2) + t)%nat) 0%nat vs.
Lemma iov_turns_le vs : (iov_turns vs <= 2 * length vs)%nat.
Proof. induction vs as [|v vs IH]; [done|]. simpl in *. case_match; lia. Qed.
Lemma uaddrs_cons v vs c o r d : uaddrs (MkUio (v :: vs) c o r d) = iov_addrs v ++ concat (map iov_addrs vs).
Proof. done. Qed.
Lemma length_iov_addrs v : 0 <= iov_len v -> Z.of_nat (length (iov_addrs v)) = iov_len v.
Proof. intros. unfold iov_addrs. rewrite length_seqZ. lia. Qed.

Lemma skip_iov u v vs : uio_ok u -> uio_iov u = v :: vs -> iov_len v = 0 -> moved 0 u (next_iov u) /\ uaddrs (next_iov u) = uaddrs u.
Proof.
  intros Hu Ev Hl. assert (uaddrs (next_iov u) = uaddrs u) as Ea.
  { unfold uaddrs, next_iov. cbn [uio_iov]. rewrite Ev. cbn [tl map concat]. unfold iov_addrs at 2. by rewrite Hl. }
  split; [|done]. pose proof Hu as [H1 H2 H3 H4]. split; try done; [|cbn; lia|cbn; lia]. split; [|by rewrite Ea|done..].
  unfold next_iov. cbn [uio_iov]. rewrite Ev in *. cbn [tl]. by apply Forall_cons in H1 as [_ ?].
Qed.
Lemma move_iov u v vs c :
  uio_ok u -> uio_iov u = v :: vs -> 0 < c <= iov_len v ->
  moved c u (advance_iov c u) /\ take (Z.to_nat c) (uaddrs u) = seqZ (iov_base v) c /\ c <= uio_resid u.
Proof.
  intros [H1 H2 H3 H4] Ev Hc. pose proof H1 as Hv. rewrite Ev in Hv. apply Forall_cons in Hv as [(V1&V2&V3) Hvs].
  assert (uaddrs u = seqZ (iov_base v) c ++ seqZ (iov_base v + c) (iov_len v - c) ++ concat (map iov_addrs vs)) as Ea.
  { unfold uaddrs. rewrite Ev. cbn [map concat]. unfold iov_addrs at 1. rewrite app_assoc, <- seqZ_app by lia. do 2 f_equal. lia. }
  assert (c <= uio_resid u) as Hcr by (rewrite H2, Ea, length_app, length_seqZ; lia).
  assert (uaddrs (advance_iov c u) = drop (Z.to_nat c) (uaddrs u)) as Ed.
  { rewrite Ea, drop_app_length' by (rewrite length_seqZ; lia). unfold advance_iov, uaddrs. rewrite Ev. cbn [uio_iov map concat].
    unfold iov_addrs at 1. cbn [iov_base iov_len]. rewrite !u32_small by lia. done. }
  split; [|split; [rewrite Ea; apply take_app_length'; rewrite length_seqZ; lia|done]].
  assert (uio_iov (advance_iov c u) = MkIovec (iov_base v + c) (iov_len v - c) :: vs /\
    uio_offset (advance_iov c u) = uio_offset u + c /\ uio_resid (advance_iov c u) = uio_resid u - c /\
    uio_rw (advance_iov c u) = uio_rw u) as (E1&E2&E3&E4).
  { unfold advance_iov. rewrite Ev. cbn. rewrite !u32_small, s32_small by lia. done. }
  split; [|done|done|done|lia]. split; [|rewrite E3, Ed, length_drop; lia|lia|lia].
  rewrite E1. constructor; [unfold iov_ok; cbn; lia|done].
Qed.

(** What uiomove does to the buffer and to the memory, for [k] bytes. *)
Definition moved_data (dir : uio_dir) (cp k : Z) (addrs : list Z) (d : list Z) (um : umem) (d' : list Z) (um' : umem) : Prop :=
  match dir with
  | UIO_READ => d' = d /\ um' = scatter (take (Z.to_nat k) addrs) (map (byte_at d) (seqZ cp k)) um
  | UIO_WRITE => um' = um /\ forall i, 0 <= i < 1024 -> byte_at d' i = with_bytes cp (map (ubyte um) (take (Z.to_nat k) addrs)) d i
  end.
Lemma moved_data_0 dir cp addrs d um : moved_data dir cp 0 addrs d um d um.
Proof.
  destruct dir; split; try done. intros i _. unfold with_bytes. simpl length. 
  destruct (Z.leb_spec cp i), (Z.ltb_spec i (cp + Z.of_nat 0)); (done || lia).
Qed.
Lemma with_bytes_app cp b1 b2 d d1 i :
  (0 <= i < 1024 -> byte_at d1 i = with_bytes cp b1 d i) -> 0 <= i < 1024 ->
  with_bytes (cp + Z.of_nat (length b1)) b2 d1 i = with_bytes cp (b1 ++ b2) d i.
Proof.
  intros Hd Hi. unfold with_bytes at 1. rewrite Hd by done. unfold with_bytes. rewrite length_app.
  destruct (Z.leb_spec (cp + Z.of_nat (length b1)) i), (Z.ltb_spec i (cp + Z.of_nat (length b1) + Z.of_nat (length b2))),
    (Z.leb_spec cp i), (Z.ltb_spec i (cp + Z.of_nat (length b1))), (Z.ltb_spec i (cp + Z.of_nat (length b1 + length b2)));
    cbn [andb]; try lia; try done.
  - rewrite app_nth2 by lia. f_equal. lia.
  - rewrite app_nth1 by lia. done.
Qed.
Lemma moved_data_trans dir cp k1 k2 addrs d um d1 um1 d2 um2 :
  0 <= k1 -> 0 <= k2 -> k1 + k2 <= Z.of_nat (length addrs) ->
  moved_data dir cp k1 addrs d um d1 um1 -> moved_data dir (cp + k1) k2 (drop (Z.to_nat k1) addrs) d1 um1 d2 um2 ->
  moved_data dir cp (k1 + k2) addrs d um d2 um2.
Proof.
  intros H1 H2 Hl. assert (length (take (Z.to_nat k1) addrs) = Z.to_nat k1) as Ht by (rewrite length_take; lia).
  unfold moved_data. rewrite Z2Nat.inj_add, <- take_take_drop by done. destruct dir.
  - intros [-> ->] [-> ->]. split; [done|]. rewrite seqZ_app, map_app, scatter_app by done || (rewrite Ht, length_map, length_seqZ; done).
    done.
  - intros [-> Hd1] [-> Hd2]. split; [done|]. intros i Hi. rewrite Hd2, map_app by done.
    rewrite <- (with_bytes_app cp _ _ d d1); auto. rewrite length_map, Ht. by rewrite Z2Nat.id.
Qed.

Lemma uiomove_loop_ok fuel d cp n u um :
  uio_ok u -> 0 <= n -> 0 <= cp -> cp + n <= 1024 -> ((if (n =? 0)%Z then 0 else iov_turns (uio_iov u)) < fuel)%nat ->
  exists d' u' um', uiomove_loop fuel d cp n u um = Some (d', u', um') /\ moved (Z.min n (uio_resid u)) u u' /\
    moved_data (uio_rw u) cp (Z.min n (uio_resid u)) (uaddrs u) d um d' um'.
Proof.
  revert d cp n u um. induction fuel as [|fuel IH]; intros d cp n u um Hu Hn Hcp Hend Hf; [lia|]. cbn [uiomove_loop].
  destruct (Z.ltb_spec 0 n) as [Hn0|Hn0], (Z.eqb_spec (uio_resid u) 0) as [Hr|Hr]; cbn [andb negb];
    try (exists d, u, um; replace (Z.min n (uio_resid u)) with 0 by (destruct Hu; lia); split; [done|]; split; [by apply moved_0|apply moved_data_0]).
  rewrite (proj2 (Z.eqb_neq n 0)) in Hf by lia.
  destruct (uio_iov u) as [|v vs] eqn:Ev.
  { exfalso. apply Hr. rewrite (uk_resid _ Hu). unfold uaddrs. by rewrite Ev. }
  cbn [iov_turns foldr] in Hf. destruct (Z.eqb_spec (iov_len v) 0) as [Hl|Hl].
  - destruct (skip_iov u v vs Hu Ev Hl) as [M Ea]. destruct (IH d cp n (next_iov u) um) as (d'&u'&um'&E&M'&D); try done; [apply M| |].
    { rewrite (proj2 (Z.eqb_neq n 0)) by lia. unfold next_iov. cbn [uio_iov]. rewrite Ev. cbn [tl]. unfold iov_turns. lia. }
    exists d', u', um'. split; [done|]. change (uio_resid (next_iov u)) with (uio_resid u) in *. rewrite Ea in D.
    split; [by apply (uio_moved_trans 0 _ u (next_iov u))|done].
  - pose proof (uk_iov _ Hu) as Hv. rewrite Ev in Hv. apply Forall_cons in Hv as [(V1&V2&V3) _].
    set (c := if n <? iov_len v then n else iov_len v). assert (0 < c <= iov_len v /\ c <= n /\ (c < n -> c = iov_len v)) as (Hc&Hcn&Hcl)
      by (unfold c; destruct (Z.ltb_spec n (iov_len v)); lia).
    destruct (move_iov u v vs c Hu Ev Hc) as (M&Ht&Hcr). pose proof (mv_resid _ _ _ M Hu) as Hr'.
    assert (forall d1 um1, moved_data (uio_rw u) cp c (uaddrs u) d um d1 um1 ->
      exists d' u' um', uiomove_loop fuel d1 (cp + c) (n - c) (advance_iov c u) um1 = Some (d', u', um') /\
        moved (Z.min n (uio_resid u)) u u' /\ moved_data (uio_rw u) cp (Z.min n (uio_resid u)) (uaddrs u) d um d' um') as Hgo.
    { intros d1 um1 D1. destruct (IH d1 (cp + c) (n - c) (advance_iov c u) um1) as (d'&u'&um'&E&M'&D); [apply M|lia|lia|lia| |].
      { destruct (Z.eqb_spec (n - c) 0); [lia|]. unfold advance_iov. rewrite Ev. cbn [uio_iov iov_turns foldr iov_len].
        rewrite u32_small by lia. rewrite Hcl by lia. rewrite Z.sub_diag. cbn [Z.eqb]. fold (iov_turns vs) in *. lia. }
      exists d', u', um'. rewrite Hr' in *. replace (Z.min n (uio_resid u)) with (c + Z.min (n - c) (uio_resid u - c)) by lia.
      split; [done|]. split; [by eapply uio_moved_trans|]. rewrite (mv_dir _ _ _ M), (mv_addrs _ _ _ M) in D.
      eapply moved_data_trans; [lia|lia| |done|done]. rewrite <- (uk_resid _ Hu). lia. }
    destruct (uio_rw u) eqn:Er; apply Hgo; (split; [done|]).
    + by rewrite user_write_scatter, get_bytes_seqZ, length_map, length_seqZ, Ht, !Z2Nat.id by lia.
    + intros i Hi. rewrite Ht, user_read_seqZ, Z2Nat.id by lia. apply put_bytes_at; [|done].
      apply Forall_forall. intros b Hb. apply list_elem_of_In, in_map_iff in Hb as (a&<-&_). apply ubyte_range.
Qed.
Lemma uiomove_ok d cp n u um :
  uio_ok u -> 0 <= n -> 0 <= cp -> cp + n <= 1024 ->
  exists d' u' um', uiomove d cp n u um = Some (d', u', um') /\ moved (Z.min n (uio_resid u)) u u' /\
    moved_data (uio_rw u) cp (Z.min n (uio_resid u)) (uaddrs u) d um d' um'.
Proof.
  intros Hu Hn Hcp He. apply uiomove_loop_ok; try done. pose proof (iov_turns_le (uio_iov u)). case_match; lia.
Qed.

(** ** rwip on a file *)

Section Spec.
Context {St : Type} `{BlockIO St} (used : Z -> Z -> Prop) `{!BlockIOSpec St used} (dev : Z).
Implicit Types (f : fs) (s : St) (w : rw St) (l : list Z).
Abbreviation rd s := (io_content s dev).
Abbreviation file_at := (file_at used dev).
Abbreviation file_find := (file_find used dev).
Abbreviation file_blocks := (file_blocks used dev).
Abbreviation file_byte := (file_byte used dev).

Definition w_map w : inode := i_map (w_ip w).
Definition w_size w : Z := ic_size (i_c (w_ip w)).
Definition w_off w : Z := uio_offset (w_uio w).
Definition w_resid w : Z := uio_resid (w_uio w).
(** The [i]-th byte the caller gives. *)
Definition source w (i : Z) : Z := ubyte (w_um w) (nth (Z.to_nat i) (uaddrs (w_uio w)) 0).

(** bmap does not make a file a pipe, or a pipe a file. *)
Definition pipe_kept (ip : inode) (r : mapped St) : Prop :=
  match r with Mapped _ _ _ ip' _ _ => flag_on (i_flag ip') IPIPE = flag_on (i_flag ip) IPIPE | MapStuck => True end.
Lemma then_map_pipe {A} ip (o : option A) k : (forall a, pipe_kept ip (k a)) -> pipe_kept ip (then_map o k).
Proof. intros Hk. destruct o; [apply Hk|done]. Qed.
Lemma with_block_pipe now ip flags f s ra fail k :
  (forall f' s bp, pipe_kept ip (k f' s bp)) -> pipe_kept ip (with_block now ip flags f s ra fail k).
Proof. intros Hk. unfold with_block. case_match; try done. by apply then_map_pipe. Qed.
Lemma bmap_loop_pipe fuel now rwflg flags j sh bn nb ra ip f s :
  pipe_kept ip (bmap_loop fuel now rwflg flags j sh bn nb ra ip f s).
Proof.
  revert j sh nb ra f s. induction fuel as [|fuel IH]; intros j sh nb ra f s; [done|]. cbn [bmap_loop].
  case_match; [done|]. apply then_map_pipe. intros [s1 bp]. case_match; [by apply then_map_pipe|].
  case_match; [|apply then_map_pipe; intros s2; apply IH].
  case_match; [by apply then_map_pipe|]. apply with_block_pipe. intros f' s2 nbp.
  do 3 (apply then_map_pipe; intros ?). apply IH.
Qed.
Lemma set_addr_pipe i nb ip : flag_on (i_flag (set_addr i nb ip)) IPIPE = flag_on (i_flag ip) IPIPE.
Proof. by apply (flag_on_set_other (i_flag ip) (IUPD + ICHG) IPIPE). Qed.
Lemma bmap_pipe now rab ip bn rwflg flags f s : pipe_kept ip (bmap now rab ip bn rwflg flags f s).
Proof.
  unfold bmap. case_match; [done|]. case_match.
  - case_match; [|done]. case_match; [done|]. apply with_block_pipe. intros f' s1 bp. apply then_map_pipe. intros s2. apply set_addr_pipe.
  - destruct (bmap_levels 3 3 0 1 (bn - (NADDR - 3))) as [[j sh] bn']. case_match; [done|].
    case_match; [|apply bmap_loop_pipe]. case_match; [done|]. apply with_block_pipe. intros f' s1 bp.
    apply then_map_pipe. intros s2. pose proof (bmap_loop_pipe 4 now rwflg flags j sh bn' (io_blkno s1 bp) 0 (set_addr (NADDR - j) (io_blkno s1 bp) ip) f' s2) as Hl.
    unfold pipe_kept in *. case_match; [|done]. by rewrite Hl, set_addr_pipe.
Qed.

(** [k] bytes were written: they are in the file, and nothing else in the file
    or outside has changed. *)
Record wrote w l w' l' (k : Z) : Prop := {
  wr_sound : sound used dev (w_s w) (w_f w) l (w_ip w) (w_s w') (w_f w') l' (w_ip w');
  wr_moved : moved k (w_uio w) (w_uio w');
  wr_mem : w_um w' = w_um w;
  wr_kind : iflag_on (w_ip w') IPIPE = iflag_on (w_ip w) IPIPE /\
    Z.land (ic_mode (i_c (w_ip w'))) IFMT = Z.land (ic_mode (i_c (w_ip w))) IFMT;
  wr_size : w_size w' = if k =? 0 then w_size w else Z.max (w_size w) (w_off w + k);
  wr_bytes : forall pos, 0 <= pos -> file_byte (w_s w') (w_map w') pos =
    if (w_off w <=? pos) && (pos <? w_off w + k) then source w (pos - w_off w) else file_byte (w_s w) (w_map w) pos }.

Lemma source_moved k w w' i : moved k (w_uio w) (w_uio w') -> w_um w' = w_um w -> 0 <= i -> source w' i = source w (k + i).
Proof.
  intros M Hm Hi. unfold source. rewrite Hm, (mv_addrs _ _ _ M), !nth_lookup, lookup_drop. pose proof (mv_k _ _ _ M). do 4 f_equal. lia.
Qed.
Lemma wrote_trans w l w1 l1 w2 l2 k1 k2 :
  uio_ok (w_uio w) -> wrote w l w1 l1 k1 -> wrote w1 l1 w2 l2 k2 -> wrote w l w2 l2 (k1 + k2).
Proof.
  intros Hu [A1 A2 A3 [A6 A7] A4 A5] [B1 B2 B3 [B6 B7] B4 B5]. pose proof (mv_offset _ _ _ A2) as Ho. pose proof (mv_k _ _ _ A2). pose proof (mv_k _ _ _ B2).
  unfold w_off in *. split.
  - by eapply sound_trans.
  - by eapply uio_moved_trans.
  - congruence.
  - split; congruence.
  - rewrite B4, A4. unfold w_off. rewrite Ho. destruct (Z.eqb_spec k1 0), (Z.eqb_spec k2 0), (Z.eqb_spec (k1 + k2) 0); lia.
  - intros pos Hpos. unfold w_off. rewrite B5, A5, Ho by done.
    destruct (Z.leb_spec (uio_offset (w_uio w) + k1) pos), (Z.ltb_spec pos (uio_offset (w_uio w) + k1 + k2)),
      (Z.leb_spec (uio_offset (w_uio w)) pos), (Z.ltb_spec pos (uio_offset (w_uio w) + k1)), (Z.ltb_spec pos (uio_offset (w_uio w) + (k1 + k2)));
      cbn [andb]; try lia; try done.
    rewrite (source_moved k1 w w1) by (done || lia). f_equal. lia.
Qed.

Definition file_type (type : Z) : Prop := type = IFREG \/ type = IFDIR \/ type = IFLNK.
Lemma file_type_ok type : file_type type -> (type =? IFBLK) = false /\ (type =? IFCHR) = false /\
  ((type =? IFDIR) || (type =? IFREG) || (type =? IFLNK)) = true.
Proof. by intros [->|[->| ->]]. Qed.

(** The buffer is written one way or another. *)
Lemma release_write ioflag on n bp b cl w :
  io_ok (w_s w) [Held bp dev b cl] -> uio_rw (w_uio w) = UIO_WRITE ->
  exists s', rw_release ioflag on n bp w = Some s' /\ io_ok s' [] /\ rd s' b = io_data (w_s w) bp /\
    forall x, used dev x -> x <> b -> rd s' x = rd (w_s w) x.
Proof.
  intros Hok Hd. unfold rw_release, is_read. rewrite Hd.
  assert (forall how s, io_ok s [Held bp dev b cl] -> exists s', io_write how bp s = Some s' /\ io_ok s' [] /\ rd s' b = io_data s bp /\
    forall x, used dev x -> x <> b -> rd s' x = rd s x) as Hw.
  { intros how s Hs. destruct (io_write_law s [] how bp dev b cl Hs) as (s'&->&Hok'&C&K). exists s'. split_and!; try done.
    intros x Hx Hne. apply K; [done|congruence]. }
  destruct (flag_on ioflag IO_SYNC); [by apply Hw|]. destruct (_ && _); [|by apply Hw].
  destruct (io_age_law (w_s w) (Held bp dev b cl) [] Hok) as (s1&E1&Hok1&K1). cbn [h_bp] in E1. rewrite E1. cbn [mbind option_bind].
  destruct (Hw Soon s1 Hok1) as (s'&->&Hok'&C&K). exists s'. split_and!; try done.
  - rewrite C. apply (proj2 K1 (Held bp dev b cl)), list_elem_of_here.
  - intros x Hx Hne. rewrite K by done. apply K1; auto.
Qed.

(** The block and the place in it, and the number of bytes of a turn. *)
Definition turn_bytes w : Z := Z.min (1024 - w_off w mod 1024) (w_resid w).
Lemma turn_start w : uio_ok (w_uio w) ->
  s32 (lblkno (w_off w)) = w_off w / 1024 /\ blkoff (w_off w) = w_off w mod 1024 /\ 0 <= w_off w / 1024 < 2097152 /\
  0 <= w_off w mod 1024 < 1024 /\
  (let room := u32 (DEV_BSIZE - w_off w mod 1024) in if room <? w_resid w then room else w_resid w) = turn_bytes w.
Proof.
  intros Hu. pose proof (uk_offset _ Hu) as H1. pose proof (uk_end _ Hu) as H2. pose proof (uk_resid _ Hu) as H3.
  fold (w_off w) (w_resid w) in *. pose proof (Z.mod_pos_bound (w_off w) 1024 ltac:(lia)).
  unfold lblkno. rewrite u32_small, Z.shiftr_div_pow2 by lia. unfold blkoff. change 1023 with (Z.ones 10). rewrite Z.land_ones by lia. change (2 ^ 10) with 1024.
  assert (0 <= w_off w / 1024 < 2097152) by (split; [apply Z.div_pos; lia|apply Z.div_lt_upper_bound; lia]).
  rewrite s32_small by lia. split_and!; try done; try lia. unfold DEV_BSIZE, turn_bytes. rewrite u32_small by lia. cbn zeta.
  destruct (Z.ltb_spec (1024 - w_off w mod 1024) (w_resid w)); lia.
Qed.

(** The buffer of a block for a write: of the whole block, or with what it
    holds. *)
Lemma write_getbuf lbn bn n w :
  io_ok (w_s w) [] -> uio_rw (w_uio w) = UIO_WRITE -> used dev bn ->
  exists s bp, rw_getbuf dev lbn bn n w = Go bp (set_io s w) /\ io_ok s [Held bp dev bn true] /\
    (n <> 1024 -> io_data s bp = rd (w_s w) bn) /\ forall x, used dev x -> rd s x = rd (w_s w) x.
Proof.
  intros Hok Hd Hu. unfold rw_getbuf, is_read, DEV_BSIZE. rewrite Hd.
  assert (Some (dev, bn) ∉ h_at <$> ([] : list held_buf)) as Hno by apply not_elem_of_nil.
  destruct (Z.eqb_spec n 1024) as [->|Hn].
  - destruct (io_getblk_law (w_s w) [] dev bn Hok Hu Hno) as (s&bp&->&Hok'&K); [simpl; unfold Bio.NBUF; lia|]. cbn [then_turn].
    destruct (io_clean_law s _ _ Hok') as [_ Hc]. cbn [h_bp] in Hc. cbn [w_s set_io]. rewrite Hc. cbn [Z.eqb].
    exists s, bp. split_and!; try done. intros x Hx. apply K; auto.
  - destruct (io_bread_law (w_s w) [] dev bn Hok Hu Hno) as (s&bp&->&Hok'&_&Hda&K); [simpl; unfold Bio.NBUF; lia|]. cbn [then_turn].
    destruct (io_clean_law s _ _ Hok') as [_ Hc]. cbn [h_bp] in Hc. cbn [w_s set_io]. rewrite Hc. cbn [Z.eqb].
    exists s, bp. split_and!; try done. intros x Hx. apply K; auto.
Qed.
(** The caller's bytes go to the block. *)
Lemma write_move ruid ioflag n bp bn w s :
  io_ok s [Held bp dev bn true] -> uio_ok (w_uio w) -> uio_rw (w_uio w) = UIO_WRITE ->
  0 < n <= 1024 - w_off w mod 1024 -> n <= w_resid w ->
  exists s' u', rw_move ruid ioflag (w_off w mod 1024) n bp (set_io s w) = Go n (rw_wrote ruid (set_io s' (set_err 0 (set_uio u' (w_um w) (set_io s' w))))) /\
    io_ok s' [] /\ moved n (w_uio w) u' /\ (forall x, used dev x -> x <> bn -> rd s' x = rd s x) /\
    forall i, 0 <= i < 1024 -> byte_at (rd s' bn) i =
      if (w_off w mod 1024 <=? i) && (i <? w_off w mod 1024 + n) then source w (i - w_off w mod 1024) else byte_at (io_data s bp) i.
Proof.
  intros Hok Hu Hd Hn Hnr. unfold rw_move. cbn [w_s w_uio w_um set_io]. destruct (io_clean_law s _ _ Hok) as [Hb Hc]. cbn [h_bp] in Hb, Hc.
  rewrite Hb, Hc. change (u32 (DEV_BSIZE - 0)) with 1024. pose proof (Z.mod_pos_bound (w_off w) 1024 ltac:(lia)) as Hm.
  replace (if n <? 1024 then n else 1024) with n by (destruct (Z.ltb_spec n 1024); lia).
  destruct (uiomove_ok (io_data s bp) (w_off w mod 1024) n (w_uio w) (w_um w)) as (d&u'&um'&->&M&D); [done|lia|lia|lia|].
  fold (w_resid w) in M, D. rewrite Z.min_l in M, D by lia. rewrite Hd in D. destruct D as [-> D].
  unfold is_read at 1. rewrite Hd. destruct (io_store_law s [] bp dev bn true d Hok) as (s2&->&Hok2&D2&K2).
  set (w2 := set_err 0 (set_uio u' (w_um w) (set_io s2 w))).
  destruct (release_write ioflag (w_off w mod 1024) n bp bn false w2) as (s3&E3&Hok3&C3&K3); [exact Hok2|cbn; by rewrite (mv_dir _ _ _ M)|].
  change (set_err 0 (set_uio u' (w_um w) (set_io s2 (set_io s w)))) with w2. rewrite E3. cbn [w_uio set_io w2 set_err set_uio].
  unfold is_read. rewrite (mv_dir _ _ _ M), Hd. exists s3, u'. split; [done|]. split; [done|]. split; [done|].
  split; [intros x Hx Hne; rewrite K3 by done; apply K2; [done|congruence]|].
  intros i Hi. rewrite C3. change (w_s w2) with s2. rewrite D2, D by done. unfold with_bytes.
  pose proof (uk_resid _ Hu) as Hrl. fold (w_resid w) in Hrl.
  assert (length (take (Z.to_nat n) (uaddrs (w_uio w))) = Z.to_nat n) as Hl by (rewrite length_take; lia).
  rewrite length_map, Hl, Z2Nat.id by lia. destruct (_ && _) eqn:E; [|done]. apply andb_true_iff in E as [E1%Z.leb_le E2%Z.ltb_lt].
  unfold source. rewrite (nth_indep _ 0 (ubyte (w_um w) 0)) by (rewrite length_map, Hl; lia). rewrite map_nth. f_equal.
  rewrite !nth_lookup, lookup_take_lt by lia. done.
Qed.

(** The bytes of the turn in the file: [pos] lies in the block of the turn when
    it is among them. *)
Lemma turn_range off n pos :
  0 <= off -> 0 < n <= 1024 - off mod 1024 ->
  (off <=? pos) && (pos <? off + n) =
  (pos / 1024 =? off / 1024) && ((off mod 1024 <=? pos mod 1024) && (pos mod 1024 <? off mod 1024 + n)).
Proof.
  intros Ho Hn. pose proof (Z.div_mod pos 1024 ltac:(lia)). pose proof (Z.mod_pos_bound pos 1024 ltac:(lia)).
  pose proof (Z.div_mod off 1024 ltac:(lia)). pose proof (Z.mod_pos_bound off 1024 ltac:(lia)).
  destruct (Z.eqb_spec (pos / 1024) (off / 1024)), (Z.leb_spec off pos), (Z.ltb_spec pos (off + n)),
    (Z.leb_spec (off mod 1024) (pos mod 1024)), (Z.ltb_spec (pos mod 1024) (off mod 1024 + n)); cbn [andb]; (done || nia).
Qed.

Lemma wrote_kind ruid w :
  iflag_on (w_ip (rw_wrote ruid w)) IPIPE = iflag_on (w_ip w) IPIPE /\
  Z.land (ic_mode (i_c (w_ip (rw_wrote ruid w)))) IFMT = Z.land (ic_mode (i_c (w_ip w))) IFMT.
Proof.
  assert (flag_on (flag_set (i_flag (w_map w)) (IUPD + ICHG)) IPIPE = flag_on (i_flag (w_map w)) IPIPE) as Hf
    by (by apply (flag_on_set_other (i_flag (w_map w)) (IUPD + ICHG) IPIPE)).
  unfold rw_wrote. case_match; (split; [exact Hf|]); [|done]. cbn. unfold flag_clr. by rewrite <- Z.land_assoc.
Qed.
Lemma write_block_ok ruid ioflag n w l :
  let lbn := w_off w / 1024 in let bn := file_find (w_s w) (w_map w) lbn in
  file_at (w_s w) (w_f w) l (w_map w) -> 0 < bn -> uio_ok (w_uio w) -> uio_rw (w_uio w) = UIO_WRITE ->
  0 < n <= 1024 - w_off w mod 1024 -> n <= w_resid w -> w_off w + n <= w_size w ->
  exists w', then_turn (rw_getbuf dev lbn bn n w) (fun bp w1 => rw_move ruid ioflag (w_off w mod 1024) n bp w1) = Go n w' /\
    wrote w l w' l n /\ w_err w' = 0.
Proof.
  intros lbn bn T Hbn Hu Hd Hn Hnr Hsz. destruct (turn_start w Hu) as (_&_&Hlbn&Hon&_). pose proof (uk_offset _ Hu) as Ho. fold (w_off w) in Ho.
  assert (bn <> 0) as Hb by lia. destruct (find_data used dev _ _ _ _ _ T Hb) as (_&_&Hused&_).
  destruct (write_getbuf lbn bn n w) as (s1&bp&->&Hok1&Hda&K1); [apply T|done|exact Hused|]. cbn [then_turn].
  destruct (write_move ruid ioflag n bp bn w s1 Hok1 Hu Hd Hn Hnr) as (s2&u'&->&Hok2&M&K2&B2).
  eexists. split; [done|]. split; [|by unfold rw_wrote; case_match].
  assert (forall x, used dev x -> x <> bn -> rd s2 x = rd (w_s w) x) as Hoth by (intros x Hx Hne; by rewrite K2, K1).
  destruct (block_written used dev (w_s w) (w_f w) l (w_map w) lbn s2 T ltac:(lia) Hb Hok2 Hoth) as (T2&B&I&F&R&Y).
  set (w2 := set_io s2 (set_err 0 (set_uio u' (w_um w) (set_io s2 w)))).
  assert (i_dev (w_map (rw_wrote ruid w2)) = i_dev (w_map w) /\ i_addr (w_map (rw_wrote ruid w2)) = i_addr (w_map w) /\
    w_size (rw_wrote ruid w2) = w_size w /\ i_number (w_ip (rw_wrote ruid w2)) = i_number (w_ip w)) as (X1&X2&X3&X4)
    by (unfold rw_wrote; by case_match).
  assert (w_s (rw_wrote ruid w2) = s2 /\ w_f (rw_wrote ruid w2) = w_f w /\ w_uio (rw_wrote ruid w2) = u' /\ w_um (rw_wrote ruid w2) = w_um w)
    as (X5&X6&X7&X8) by done.
  destruct (file_at_addr used dev s2 (w_f w) l (w_map w) (w_map (rw_wrote ruid w2)) X1 X2 T2) as (T3&B3&_&_&Y3).
  split.
  - rewrite X5, X6. apply sound_cut; [exact T3|done| |intros x Hx _ Hnb; by apply R].
    change (i_map (w_ip (rw_wrote ruid w2))) with (w_map (rw_wrote ruid w2)). rewrite B3, B. done.
  - by rewrite X7.
  - done.
  - apply (wrote_kind ruid w2).
  - rewrite X3. rewrite (proj2 (Z.eqb_neq n 0)) by lia. lia.
  - intros pos Hpos. rewrite X5, Y3, Y by done. rewrite turn_range by done. fold lbn bn.
    destruct (Z.eqb_spec (pos / 1024) lbn) as [El|Hne]; cbn [andb]; [|done].
    rewrite B2 by (apply Z.mod_pos_bound; lia). pose proof (Z.div_mod pos 1024 ltac:(lia)). pose proof (Z.div_mod (w_off w) 1024 ltac:(lia)).
    destruct (_ && _) eqn:E; [f_equal; unfold lbn in El; lia|].
    rewrite Hda; [|intros ->; pose proof (Z.mod_pos_bound pos 1024 ltac:(lia));
      destruct (Z.leb_spec (w_off w mod 1024) (pos mod 1024)), (Z.ltb_spec (pos mod 1024) (w_off w mod 1024 + 1024)); (done || lia)].
    unfold Itrunc.file_byte. rewrite El. fold lbn bn. by rewrite (proj2 (Z.eqb_neq bn 0) Hb).
Qed.

Lemma sound_same s f l oip oip1 s' f' l' oip' :
  i_map oip1 = i_map oip -> i_number oip1 = i_number oip ->
  sound used dev s f l oip1 s' f' l' oip' -> sound used dev s f l oip s' f' l' oip'.
Proof. intros E1 E2 [T N P R]. rewrite E1, E2 in *. by split. Qed.
(** A turn of a write: the next bytes, up to the end of the block or of the
    request; or there is no block for them. *)
Lemma write_turn_ok now ruid type flags ioflag w l :
  file_at (w_s w) (w_f w) l (w_map w) -> file_type type -> uio_ok (w_uio w) -> uio_rw (w_uio w) = UIO_WRITE ->
  0 < w_resid w -> w_err w = 0 ->
  (exists w', rw_turn now ruid type dev flags ioflag w = Return ENOSPC w' /\ wrote w l w' [] 0) \/
  (exists w' l', rw_turn now ruid type dev flags ioflag w = Go (turn_bytes w) w' /\ wrote w l w' l' (turn_bytes w) /\ w_err w' = 0).
Proof.
  intros T Hty Hu Hd Hr He. destruct (file_type_ok type Hty) as (Ty1&_&Ty2).
  destruct (turn_start w Hu) as (E1&E2&Hlbn&Hon&E3). pose proof (uk_end _ Hu) as Hend. pose proof (uk_offset _ Hu) as Ho.
  fold (w_off w) (w_resid w) in Hend, Ho.
  set (n := turn_bytes w) in *. assert (0 < n <= 1024 - w_off w mod 1024 /\ n <= w_resid w) as [Hn Hnr] by (unfold n, turn_bytes; lia).
  unfold rw_turn, rw_map. unfold w_off, w_resid in E1, E2, E3. rewrite E1, E2, E3. fold (w_off w). rewrite Ty1. cbn [negb].
  assert (is_read (w_uio w) = false) as Hrd by (unfold is_read; by rewrite Hd). rewrite Hrd. cbn [andb].
  set (fl := if n =? DEV_BSIZE then flags else Z.lor flags B_CLRBUF).
  destruct (write_map used dev now (w_ra w) fl (w_ip w) (w_f w) (w_s w) l (w_off w / 1024) T ltac:(lia))
    as (bn&ra&err&m&f1&s1&l1&Em&S1&_&R1&Y1&Hout).
  pose proof (bmap_pipe now (w_ra w) (i_map (w_ip w)) (w_off w / 1024) B_WRITE fl (w_f w) (w_s w)) as Hk. rewrite Em in Hk |- *. cbn [pipe_kept] in Hk.
  set (w0 := set_mapped ra err m f1 s1 w). change (w_uio w0) with (w_uio w). rewrite Hrd, Ty2. fold (w_size w) (w_off w).
  rewrite s32_small by lia. destruct Hout as [(->&Hbn&Hf)|(->&->&->&Y)].
  2:{ left. exists w0. split; [done|]. split; [done|by apply moved_0|done|done|done|]. intros pos Hpos. change (w_s w0) with s1. change (w_map w0) with m.
      rewrite Y by done. destruct (Z.leb_spec (w_off w) pos), (Z.ltb_spec pos (w_off w + 0)); (done || lia). }
  right. change (w_err w0) with (w_err w). rewrite He, (proj2 (Z.ltb_ge bn 0)) by lia. cbn [Z.eqb negb orb andb then_turn].
  rewrite andb_true_r. set (w1 := if w_size w <? w_off w + n then _ else w0).
  assert (w_s w1 = s1 /\ w_f w1 = f1 /\ w_map w1 = m /\ w_uio w1 = w_uio w /\ w_um w1 = w_um w /\ i_number (w_ip w1) = i_number (w_ip w) /\
    w_size w1 = Z.max (w_size w) (w_off w + n)) as (A1&A2&A3&A4&A5&A6&A7).
  { unfold w1. destruct (Z.ltb_spec (w_size w) (w_off w + n)); split_and!; try done; unfold w_size in *; cbn; lia. }
  assert (w_off w1 = w_off w /\ w_resid w1 = w_resid w) as [A8 A9] by (unfold w_off, w_resid; by rewrite A4).
  destruct (write_block_ok ruid ioflag n w1 l1) as (w'&E&[W1 W2 W3 [W6 W7] W4 W5]&He');
    [by rewrite A1, A2, A3; apply S1|by rewrite A1, A3, A8, Hf|by rewrite A4|by rewrite A4|by rewrite A8|by rewrite A9|lia|].
  rewrite A1, A3, A8, Hf in E. exists w', l1. split; [exact E|]. split; [|done].
  rewrite A1, A2, A3, A4, A5, A7, A8 in *. split.
  - eapply sound_trans; [exact S1|]. eapply sound_same; [| |exact W1]; [exact A3|exact A6].
  - done.
  - done.
  - rewrite W6, W7. unfold w1. destruct (w_size w <? w_off w + n); (split; [exact Hk|done]).
  - rewrite W4. rewrite (proj2 (Z.eqb_neq n 0)) by lia. lia.
  - intros pos Hpos. rewrite W5 by done. unfold source. rewrite A4, A5. destruct (_ && _) eqn:Er; [done|].
    apply Y1; [done|]. unfold fl, DEV_BSIZE. destruct (Z.eqb_spec n 1024) as [E4|Hne].
    + right. intros E5. rewrite turn_range, E5, Z.eqb_refl in Er by done. pose proof (Z.mod_pos_bound pos 1024 ltac:(lia)).
      destruct (Z.leb_spec (w_off w mod 1024) (pos mod 1024)), (Z.ltb_spec (pos mod 1024) (w_off w mod 1024 + n)); (done || lia).
    + left. by apply (flag_on_set_in flags B_CLRBUF B_CLRBUF).
Qed.

Lemma next_block off : 0 <= off -> (off + (1024 - off mod 1024)) mod 1024 = 0.
Proof.
  intros Ho. replace (off + (1024 - off mod 1024)) with ((off / 1024 + 1) * 1024) by (pose proof (Z.div_mod off 1024); lia).
  apply Z.mod_mul. lia.
Qed.
Lemma write_loop_ok fuel now ruid type flags ioflag w l :
  file_at (w_s w) (w_f w) l (w_map w) -> file_type type -> uio_ok (w_uio w) -> uio_rw (w_uio w) = UIO_WRITE ->
  0 < w_resid w -> w_err w = 0 -> w_off w mod 1024 + w_resid w <= 1024 * Z.of_nat fuel ->
  exists k w' l', wrote w l w' l' k /\
    (rw_loop fuel now ruid type dev flags ioflag w = RwBreak 0 w' /\ k = w_resid w /\ w_err w' = 0 \/
     rw_loop fuel now ruid type dev flags ioflag w = RwReturn ENOSPC w' /\ k < w_resid w /\ l' = []).
Proof.
  revert w l. induction fuel as [|fuel IH]; intros w l T Hty Hu Hd Hr He Hf;
    pose proof (Z.mod_pos_bound (w_off w) 1024 ltac:(lia)); [lia|]. cbn [rw_loop].
  destruct (write_turn_ok now ruid type flags ioflag w l T Hty Hu Hd Hr He) as [(w'&->&W)|(w1&l1&->&W&He1)].
  { exists 0, w', []. split; [done|]. by right. }
  pose proof (wr_moved _ _ _ _ _ W) as M. pose proof (mv_resid _ _ _ M Hu) as Hr1. fold (w_resid w1) (w_resid w) in Hr1.
  pose proof (mv_offset _ _ _ M) as Ho1. fold (w_off w1) (w_off w) in Ho1. rewrite He1. cbn [Z.eqb andb].
  assert (0 < turn_bytes w) as Hn by (unfold turn_bytes; lia). rewrite (proj2 (Z.eqb_neq (turn_bytes w) 0)) by lia.
  fold (w_resid w1). destruct (Z.eqb_spec (w_resid w1) 0) as [E0|Hne]; cbn [negb andb].
  { exists (turn_bytes w), w1, l1. split; [done|]. left. split_and!; [done|lia|done]. }
  assert (0 < w_resid w1) as Hr1' by (unfold w_resid; rewrite (uk_resid _ (mv_ok _ _ _ M)); unfold w_resid in Hne; rewrite (uk_resid _ (mv_ok _ _ _ M)) in Hne; lia).
  assert (turn_bytes w = 1024 - w_off w mod 1024) as Et by (unfold turn_bytes in *; lia).
  assert (w_off w1 mod 1024 = 0) as Ea.
  { rewrite Ho1, Et. apply next_block. apply (uk_offset _ Hu). }
  destruct (IH w1 l1) as (k&w'&l'&W'&Hout); try done; [apply W|apply M|by rewrite (mv_dir _ _ _ M)|lia|].
  exists (turn_bytes w + k), w', l'. split; [by eapply wrote_trans|].
  destruct Hout as [(->&->&?)|(->&?&->)]; [left|right]; (split_and!; [done|lia|done]).
Qed.

Lemma rw_fuel_ok w : uio_ok (w_uio w) -> w_off w mod 1024 + w_resid w + 1024 <= 1024 * Z.of_nat (rw_fuel (w_resid w)).
Proof.
  intros Hu. pose proof (uk_resid _ Hu) as Hr. fold (w_resid w) in Hr. pose proof (Z.mod_pos_bound (w_off w) 1024 ltac:(lia)).
  unfold rw_fuel, DEV_BSIZE. pose proof (Z.div_mod (w_resid w) 1024 ltac:(lia)). pose proof (Z.mod_pos_bound (w_resid w) 1024 ltac:(lia)).
  assert (0 <= w_resid w / 1024) by (apply Z.div_pos; lia). rewrite Z2Nat.id by lia. lia.
Qed.

(** The write from the first block on. *)
Lemma write_blocks_ok now ruid type ioflag w l :
  file_at (w_s w) (w_f w) l (w_map w) -> file_type type -> uio_ok (w_uio w) -> uio_rw (w_uio w) = UIO_WRITE ->
  0 < w_resid w -> w_err w = 0 ->
  exists e k w' l', rwip_blocks now ruid type ioflag w = Some (e, [], w') /\ wrote w l w' l' k /\
    (e = 0 /\ k = w_resid w \/ e = ENOSPC /\ k < w_resid w /\ l' = []).
Proof.
  intros T Hty Hu Hd Hr He. destruct (file_type_ok type Hty) as (Ty1&_&_). unfold rwip_blocks. rewrite Ty1. cbn [negb].
  fold (w_map w). rewrite (fl_dev _ _ _ _ _ _ T). fold (w_resid w).
  destruct (write_loop_ok (rw_fuel (w_resid w)) now ruid type (if flag_on ioflag IO_SYNC then B_SYNC else 0) ioflag w l T Hty Hu Hd Hr He)
    as (k&w'&l'&W&[(->&->&He')|(->&?&->)]); [pose proof (rw_fuel_ok w Hu); lia|..].
  - rewrite He'. cbn [Z.eqb negb andb]. exists 0, (w_resid w), w', l'. split; [done|]. split; [done|]. by left.
  - exists ENOSPC, k, w', []. split; [done|]. split; [done|]. by right.
Qed.

(** *** Reading *)

(** [k] bytes of the file were stored at the caller's addresses, and nothing
    on the device has changed. *)
Record read_in w w' (k : Z) : Prop := {
  rd_ok : io_ok (w_s w') [];
  rd_same : forall b, used dev b -> rd (w_s w') b = rd (w_s w) b;
  rd_fs : w_f w' = w_f w;
  rd_ip : w_ip w' = w_ip w;
  rd_moved : moved k (w_uio w) (w_uio w');
  rd_mem : w_um w' = scatter (take (Z.to_nat k) (uaddrs (w_uio w)))
    (map (file_byte (w_s w) (w_map w)) (seqZ (w_off w) k)) (w_um w) }.

Lemma same_bytes s s' f l m : file_at s f l m -> io_ok s' [] -> (forall b, used dev b -> rd s' b = rd s b) ->
  file_at s' f l m /\ (forall pos, file_byte s' m pos = file_byte s m pos) /\ forall bn, file_find s' m bn = file_find s m bn.
Proof.
  intros T Hok K. destruct (file_data used dev s f l m s' (fun _ => False) T Hok) as (T'&_&_&F); [auto|done|].
  split; [done|]. split; [|done]. intros pos. unfold Itrunc.file_byte. rewrite F.
  destruct (Z.eqb_spec (file_find s m (pos / 1024)) 0) as [|Hn]; [done|]. rewrite K; [done|]. by apply (find_data used dev _ _ _ _ _ T Hn).
Qed.
Lemma read_trans w l w1 w2 k1 k2 :
  file_at (w_s w) (w_f w) l (w_map w) -> uio_ok (w_uio w) -> read_in w w1 k1 -> read_in w1 w2 k2 -> read_in w w2 (k1 + k2).
Proof.
  intros T Hu [A1 A2 A3 A4 A5 A6] [B1 B2 B3 B4 B5 B6]. pose proof (mv_k _ _ _ A5). pose proof (mv_k _ _ _ B5).
  pose proof (mv_resid _ _ _ A5 Hu) as Hr. destruct (same_bytes _ _ _ _ _ T A1 A2) as (_&Y&_).
  pose proof (uk_resid _ Hu). split; [done|intros b Hb; by rewrite B2, A2|congruence|congruence|by eapply uio_moved_trans|].
  rewrite B6, A6, (mv_addrs _ _ _ A5). unfold w_off. rewrite (mv_offset _ _ _ A5).
  rewrite Z2Nat.inj_add, <- take_take_drop, seqZ_app, map_app, scatter_app by
    (lia || (rewrite length_take, length_map, length_seqZ; lia)).
  f_equal. apply map_ext. intros pos. unfold w_map. rewrite A4. apply Y.
Qed.

(** The buffer a turn reads from: the block, or zeros for a hole. *)
Lemma read_getbuf lbn bn n w :
  io_ok (w_s w) [] -> uio_rw (w_uio w) = UIO_READ -> (bn < 0 \/ used dev bn) -> (w_ra w <> 0 -> used dev (w_ra w)) ->
  exists s bp h, rw_getbuf dev lbn bn n w = Go bp (set_lastr lbn (set_io s w)) /\ io_ok s [h] /\ h_bp h = bp /\
    (h = Scratch bp \/ exists b, h = Held bp dev b true) /\
    io_data s bp = (if bn <? 0 then zeros else rd (w_s w) bn) /\ forall x, used dev x -> rd s x = rd (w_s w) x.
Proof.
  intros Hok Hd Hbn Hra. unfold rw_getbuf, is_read. rewrite Hd.
  assert (Some (dev, bn) ∉ h_at <$> ([] : list held_buf)) as Hno by apply not_elem_of_nil.
  destruct (Z.ltb_spec bn 0) as [Hneg|Hpos].
  - destruct (io_geteblk_law (w_s w) [] Hok) as (s&bp&->&Hok1&K1); [simpl; unfold Bio.NBUF; lia|]. cbn [then_turn w_s set_io].
    destruct (io_store_scratch s [] bp (replicate BLKWORDS 0) Hok1) as (s2&->&Hok2&D2&K2). cbn [then_turn].
    exists s2, bp, (Scratch bp). split; [done|]. split_and!; try done; [by left|]. intros x Hx. etransitivity; [apply K2; auto|apply K1; auto].
  - destruct Hbn as [|Hu]; [lia|].
    assert (exists s bp, then_turn match (if s32 (w_lastr w + 1) =? lbn then io_breada dev bn (w_ra w) (w_s w) else io_bread dev bn (w_s w)) with
        None => Hang | Some (s, bp) => Go bp (set_io s w) end (fun bp w => Go bp (set_lastr lbn w)) = Go bp (set_lastr lbn (set_io s w)) /\
        io_ok s [Held bp dev bn true] /\ io_data s bp = rd (w_s w) bn /\ forall x, used dev x -> rd s x = rd (w_s w) x) as (s&bp&E&H1&H2&H3).
    { destruct (s32 (w_lastr w + 1) =? lbn).
      - destruct (io_breada_law (w_s w) [] dev bn (w_ra w) Hok Hu Hra Hno) as (s&bp&->&Hok1&Hda&K1); [simpl; unfold Bio.NBUF; lia|].
        exists s, bp. split_and!; try done. intros x Hx. apply K1; auto.
      - destruct (io_bread_law (w_s w) [] dev bn Hok Hu Hno) as (s&bp&->&Hok1&_&Hda&K1); [simpl; unfold Bio.NBUF; lia|].
        exists s, bp. split_and!; try done. intros x Hx. apply K1; auto. }
    exists s, bp, (Held bp dev bn true). split; [|split_and!; try done; by right; eexists].
    rewrite <- E. by destruct (s32 (w_lastr w + 1) =? lbn).
Qed.
Lemma release_read ioflag on n bp h w :
  io_ok (w_s w) [h] -> h_bp h = bp -> (h = Scratch bp \/ exists b, h = Held bp dev b true) -> uio_rw (w_uio w) = UIO_READ ->
  iflag_on (w_ip w) IPIPE = false ->
  exists s', rw_release ioflag on n bp w = Some s' /\ io_ok s' [] /\ forall x, used dev x -> rd s' x = rd (w_s w) x.
Proof.
  intros Hok Hbp Hh Hd Hp. unfold rw_release, is_read. rewrite Hd, Hp.
  assert (forall s, io_ok s [h] -> exists s', io_brelse bp s = Some s' /\ io_ok s' [] /\ forall x, used dev x -> rd s' x = rd s x) as Hrel.
  { intros s Hs. destruct Hh as [->|[b ->]].
    - destruct (io_brelse_scratch s [] bp Hs) as (s'&->&Hok'&K). exists s'. split_and!; try done. intros x Hx. apply K; auto.
    - destruct (io_brelse_law s [] bp dev b Hs) as (s'&->&Hok'&K). exists s'. split_and!; try done. intros x Hx. apply K; auto. }
  destruct (_ || _); cbn [mbind option_bind]; [|by apply Hrel].
  destruct (io_age_law (w_s w) h [] Hok) as (s1&E1&Hok1&K1). rewrite Hbp in E1. rewrite E1. cbn [mbind option_bind].
  destruct (Hrel s1 Hok1) as (s'&->&Hok'&K). exists s'. split_and!; try done. intros x Hx. rewrite K by done. apply K1; auto.
Qed.
Lemma read_move ruid ioflag n bp h w s :
  io_ok s [h] -> h_bp h = bp -> (h = Scratch bp \/ exists b, h = Held bp dev b true) ->
  uio_ok (w_uio w) -> uio_rw (w_uio w) = UIO_READ -> iflag_on (w_ip w) IPIPE = false ->
  0 < n <= 1024 - w_off w mod 1024 -> n <= w_resid w ->
  exists s' u', rw_move ruid ioflag (w_off w mod 1024) n bp (set_io s w) =
      Go n (set_err 0 (set_uio u' (scatter (take (Z.to_nat n) (uaddrs (w_uio w))) (map (byte_at (io_data s bp)) (seqZ (w_off w mod 1024) n)) (w_um w)) (set_io s' w))) /\
    io_ok s' [] /\ moved n (w_uio w) u' /\ forall x, used dev x -> rd s' x = rd s x.
Proof.
  intros Hok Hbp Hh Hu Hd Hp Hn Hnr. unfold rw_move. cbn [w_s w_uio w_um set_io]. destruct (io_clean_law s _ _ Hok) as [Hb Hc].
  rewrite Hbp in Hb, Hc. rewrite Hb, Hc. change (u32 (DEV_BSIZE - 0)) with 1024. pose proof (Z.mod_pos_bound (w_off w) 1024 ltac:(lia)) as Hm.
  replace (if n <? 1024 then n else 1024) with n by (destruct (Z.ltb_spec n 1024); lia).
  destruct (uiomove_ok (io_data s bp) (w_off w mod 1024) n (w_uio w) (w_um w)) as (d&u'&um'&->&M&D); [done|lia|lia|lia|].
  fold (w_resid w) in M, D. rewrite Z.min_l in M, D by lia. rewrite Hd in D. destruct D as [-> ->].
  unfold is_read at 1. rewrite Hd.
  set (w2 := set_err 0 (set_uio u' _ (set_io s (set_io s w)))).
  destruct (release_read ioflag (w_off w mod 1024) n bp h w2) as (s3&E3&Hok3&K3);
    [exact Hok|done|done|cbn; by rewrite (mv_dir _ _ _ M)|exact Hp|].
  rewrite E3. cbn [w_uio set_io w2 set_err set_uio]. unfold is_read. rewrite (mv_dir _ _ _ M), Hd.
  exists s3, u'. split_and!; done.
Qed.

Lemma map_seqZ_shift (g h : Z -> Z) a b n :
  (forall i, 0 <= i < n -> g (a + i) = h (b + i)) -> map g (seqZ a n) = map h (seqZ b n).
Proof.
  intros E. change (seqZ a n) with (map (fun i => Z.of_nat i + a) (seq 0 (Z.to_nat n))).
  change (seqZ b n) with (map (fun i => Z.of_nat i + b) (seq 0 (Z.to_nat n))). rewrite !map_map. apply map_ext_in.
  intros i Hi%in_seq. rewrite (Z.add_comm _ a), (Z.add_comm _ b). apply E. lia.
Qed.
(** The bytes of the turn in the block. *)
Lemma block_bytes s m off n : 0 <= off -> n <= 1024 - off mod 1024 ->
  let b := file_find s m (off / 1024) in
  map (byte_at (if or_hole b <? 0 then zeros else rd s (or_hole b))) (seqZ (off mod 1024) n) = map (file_byte s m) (seqZ off n) \/ b < 0.
Proof.
  intros Ho Hn b. destruct (Z.ltb_spec b 0) as [|Hb]; [by right|left]. apply map_seqZ_shift. intros i Hi.
  pose proof (Z.div_mod off 1024 ltac:(lia)). pose proof (Z.mod_pos_bound off 1024 ltac:(lia)).
  assert ((off + i) / 1024 = off / 1024) as Ed by (symmetry; apply (Z.div_unique_pos _ _ _ (off mod 1024 + i)); lia).
  assert ((off + i) mod 1024 = off mod 1024 + i) as Em by (symmetry; apply (Z.mod_unique_pos _ _ (off / 1024)); lia).
  unfold Itrunc.file_byte. rewrite Ed, Em. fold b. unfold or_hole. destruct (Z.eqb_spec b 0) as [E|Hne]; [apply byte_zeros|].
  by rewrite (proj2 (Z.ltb_ge b 0)).
Qed.

Lemma set_map_id ip : set_map (i_map ip) ip = ip.
Proof. by destruct ip. Qed.

(** A turn of a read. *)
Definition read_bytes w : Z := Z.min (turn_bytes w) (w_size w - w_off w).
Lemma read_turn_ok now ruid type flags ioflag w l :
  file_at (w_s w) (w_f w) l (w_map w) -> file_type type -> uio_ok (w_uio w) -> uio_rw (w_uio w) = UIO_READ ->
  0 < w_resid w -> w_err w = 0 -> iflag_on (w_ip w) IPIPE = false -> 0 <= w_size w < 2147483648 ->
  if w_size w <=? w_off w then rw_turn now ruid type dev flags ioflag w = Return 0 w
  else exists w', rw_turn now ruid type dev flags ioflag w = Go (read_bytes w) w' /\ read_in w w' (read_bytes w) /\ w_err w' = 0.
Proof.
  intros T Hty Hu Hd Hr He Hp Hsz. destruct (file_type_ok type Hty) as (Ty1&_&Ty2).
  destruct (turn_start w Hu) as (E1&E2&Hlbn&Hon&E3). pose proof (uk_end _ Hu) as Hend. pose proof (uk_offset _ Hu) as Ho.
  fold (w_off w) (w_resid w) in Hend, Ho. unfold rw_turn, rw_map. unfold w_off, w_resid in E1, E2, E3. rewrite E1, E2, E3.
  fold (w_off w) (w_size w) (w_map w). rewrite Ty1. cbn [negb]. assert (is_read (w_uio w) = true) as Hrd by (unfold is_read; by rewrite Hd).
  rewrite Hrd. cbn [andb negb]. rewrite s32_small by lia.
  destruct (Z.leb_spec (w_size w) (w_off w)) as [Hle|Hgt]; [by rewrite (proj2 (Z.leb_le _ _)) by lia|].
  rewrite (proj2 (Z.leb_gt (w_size w - w_off w) 0)) by lia.
  replace (if w_size w - w_off w <? turn_bytes w then w_size w - w_off w else turn_bytes w) with (read_bytes w)
    by (unfold read_bytes; destruct (Z.ltb_spec (w_size w - w_off w) (turn_bytes w)); lia).
  set (n := read_bytes w) in *. assert (0 < n <= 1024 - w_off w mod 1024 /\ n <= w_resid w) as [Hn Hnr] by (unfold n, read_bytes, turn_bytes; lia).
  pose proof (bmap_read_ok used dev now (w_ra w) (w_map w) (w_off w / 1024) flags (w_f w) (w_s w) l T) as Hm.
  rewrite (proj2 (Z.ltb_ge (w_off w / 1024) 0)), (proj2 (Z.leb_gt 16843012 (w_off w / 1024))) in Hm by lia. cbn [orb] in Hm.
  destruct Hm as (ra&s1&->&[Hok1 K1]&Hra). set (b := file_find (w_s w) (w_map w) (w_off w / 1024)) in *.
  change (w_err (set_mapped ra 0 (w_map w) (w_f w) s1 w)) with (w_err w). rewrite He. cbn [Z.eqb negb orb andb then_turn].
  set (w1 := set_mapped ra 0 (w_map w) (w_f w) s1 w). change (w_uio w1) with (w_uio w). rewrite Hrd. cbn [negb andb then_turn].
  assert (b <> 0 -> used dev b /\ 0 < b) as Hb.
  { intros Hb0. destruct (find_data used dev _ _ _ _ _ T Hb0) as (_&_&Hub&_&_&[Hdb _]). split; [done|].
    pose proof (wf_isize _ (fr_wf _ _ _ _ _ (fl_frees _ _ _ _ _ _ T))). fold b in Hdb. lia. }
  destruct (read_getbuf (w_off w / 1024) (or_hole b) n w1) as (s2&bp&h&->&Hok2&Hbp&Hh&Hda&K2); [exact Hok1|exact Hd| |exact Hra|].
  { unfold or_hole. destruct (Z.eqb_spec b 0) as [|Hb0]; [left; lia|right; by apply Hb]. }
  cbn [then_turn]. destruct (read_move ruid ioflag n bp h (set_lastr (w_off w / 1024) w1) s2 Hok2 Hbp Hh Hu Hd) as (s3&u'&E&Hok3&M&K3);
    [exact Hp|exact Hn|exact Hnr|].
  eexists. split; [exact E|]. split; [|done]. split.
  - exact Hok3.
  - intros x Hx. etransitivity; [by apply K3|]. rewrite K2 by done. by apply K1.
  - done.
  - apply set_map_id.
  - exact M.
  - cbn [w_um set_err set_uio]. change (w_uio (set_lastr (w_off w / 1024) w1)) with (w_uio w). change (w_um (set_lastr (w_off w / 1024) w1)) with (w_um w).
    f_equal. change (w_off (set_lastr (w_off w / 1024) w1)) with (w_off w). rewrite Hda. change (w_s w1) with s1.
    destruct (block_bytes (w_s w) (w_map w) (w_off w) n Ho) as [<-|Hneg]; [lia| |fold b in Hneg; destruct (decide (b = 0)) as [Eb|Hb0]; [lia|destruct (Hb Hb0); lia]].
    fold b. apply map_ext. intros i. f_equal. destruct (Z.ltb_spec (or_hole b) 0) as [|Hge]; [done|]. apply K1.
    unfold or_hole in *. destruct (Z.eqb_spec b 0); [lia|by apply Hb].
Qed.

Lemma read_loop_ok fuel now ruid type flags ioflag w l :
  file_at (w_s w) (w_f w) l (w_map w) -> file_type type -> uio_ok (w_uio w) -> uio_rw (w_uio w) = UIO_READ ->
  0 < w_resid w -> w_err w = 0 -> iflag_on (w_ip w) IPIPE = false -> 0 <= w_size w < 2147483648 ->
  (w_off w mod 1024 + w_resid w + 1024 <= 1024 * Z.of_nat fuel \/ (w_size w <= w_off w /\ (0 < fuel)%nat)) ->
  exists w', read_in w w' (Z.min (w_resid w) (Z.max 0 (w_size w - w_off w))) /\ w_err w' = 0 /\
    (rw_loop fuel now ruid type dev flags ioflag w = RwReturn 0 w' \/ rw_loop fuel now ruid type dev flags ioflag w = RwBreak 0 w').
Proof.
  revert w. induction fuel as [|fuel IH]; intros w T Hty Hu Hd Hr He Hp Hsz Hf;
    pose proof (Z.mod_pos_bound (w_off w) 1024 ltac:(lia)); [lia|]. cbn [rw_loop].
  pose proof (read_turn_ok now ruid type flags ioflag w l T Hty Hu Hd Hr He Hp Hsz) as Ht.
  destruct (Z.leb_spec (w_size w) (w_off w)) as [Hle|Hgt].
  { rewrite Ht. exists w. replace (Z.min _ _) with 0 by lia. split; [|auto]. split; try done; [apply T|by apply moved_0]. }
  destruct Ht as (w1&->&R&He1). rewrite He1. cbn [Z.eqb andb].
  pose proof (rd_moved _ _ _ R) as M. pose proof (mv_resid _ _ _ M Hu) as Hr1. fold (w_resid w1) (w_resid w) in Hr1.
  pose proof (mv_offset _ _ _ M) as Ho1. fold (w_off w1) (w_off w) in Ho1. pose proof (uk_offset _ Hu) as Ho. fold (w_off w) in Ho.
  assert (0 < read_bytes w) as Hn by (unfold read_bytes, turn_bytes; lia). rewrite (proj2 (Z.eqb_neq (read_bytes w) 0)) by lia.
  fold (w_resid w1). destruct (Z.eqb_spec (w_resid w1) 0) as [E0|Hne]; cbn [negb andb].
  { exists w1. replace (Z.min _ _) with (read_bytes w) by (unfold read_bytes, turn_bytes in *; lia). auto. }
  assert (w_size w1 = w_size w) as Es by (unfold w_size; by rewrite (rd_ip _ _ _ R)).
  assert (0 < w_resid w1) as Hr1' by (unfold read_bytes, turn_bytes in *; lia).
  destruct (same_bytes _ (w_s w1) _ _ _ T (rd_ok _ _ _ R) (rd_same _ _ _ R)) as (T1&_&_).
  destruct (IH w1) as (w'&R'&He'&Hl); try done.
  - unfold w_map. by rewrite (rd_fs _ _ _ R), (rd_ip _ _ _ R).
  - apply M.
  - by rewrite (mv_dir _ _ _ M).
  - by rewrite (rd_ip _ _ _ R).
  - by rewrite Es.
  - rewrite Es. destruct Hf as [Hf|Hf]; [|lia]. unfold read_bytes, turn_bytes in *.
    destruct (decide (w_size w <= w_off w1)); [right; lia|left].
    assert (w_off w1 = w_off w + (1024 - w_off w mod 1024)) as Ea by lia. pose proof (next_block (w_off w) Ho). rewrite <- Ea in *. lia.
  - exists w'. split; [|done]. rewrite Es, Hr1, Ho1 in R'.
    replace (Z.min (w_resid w) _) with (read_bytes w + Z.min (w_resid w - read_bytes w) (Z.max 0 (w_size w - (w_off w + read_bytes w))))
      by (unfold read_bytes, turn_bytes in *; lia). by eapply read_trans.
Qed.
Lemma read_blocks_ok now ruid type ioflag w l :
  file_at (w_s w) (w_f w) l (w_map w) -> file_type type -> uio_ok (w_uio w) -> uio_rw (w_uio w) = UIO_READ ->
  0 < w_resid w -> w_err w = 0 -> iflag_on (w_ip w) IPIPE = false -> 0 <= w_size w < 2147483648 ->
  exists w', rwip_blocks now ruid type ioflag w = Some (0, [], w') /\
    read_in w w' (Z.min (w_resid w) (Z.max 0 (w_size w - w_off w))).
Proof.
  intros T Hty Hu Hd Hr He Hp Hsz. destruct (file_type_ok type Hty) as (Ty1&_&_). unfold rwip_blocks. rewrite Ty1. cbn [negb].
  fold (w_map w). rewrite (fl_dev _ _ _ _ _ _ T). fold (w_resid w).
  destruct (read_loop_ok (rw_fuel (w_resid w)) now ruid type (if flag_on ioflag IO_SYNC then B_SYNC else 0) ioflag w l T Hty Hu Hd Hr He Hp Hsz)
    as (w'&R&He'&[->| ->]); [left; pose proof (rw_fuel_ok w Hu); lia|by exists w'|].
  rewrite He'. cbn [Z.eqb negb andb]. by exists w'.
Qed.

(** *** The calls *)

Context (cdevrw : Z -> Z -> uio -> umem -> option (Z * uio * umem)).

Lemma append_same ioflag w :
  w_s (append_pos ioflag w) = w_s w /\ w_f (append_pos ioflag w) = w_f w /\ w_ip (append_pos ioflag w) = w_ip w /\
  w_err (append_pos ioflag w) = w_err w /\ uio_rw (w_uio (append_pos ioflag w)) = uio_rw (w_uio w) /\
  w_resid (append_pos ioflag w) = w_resid w.
Proof. unfold append_pos. by case_match. Qed.

Lemma rwip_write_ok now ruid fsize ioflag w l :
  let w0 := append_pos ioflag w in
  file_at (w_s w) (w_f w) l (w_map w) -> Z.land (ic_mode (i_c (w_ip w))) IFMT = IFREG -> uio_rw (w_uio w) = UIO_WRITE ->
  uio_ok (w_uio w0) -> 0 < w_resid w -> w_err w = 0 -> 0 <= fsize < 4294967296 ->
  if flag_on (ic_flags (i_c (w_ip w))) APPEND && negb (w_off w0 =? w_size w) then
    rwip cdevrw now ruid fsize ioflag w = Some (EPERM, [], w0)
  else if fsize <? w_off w0 + w_resid w0 then rwip cdevrw now ruid fsize ioflag w = Some (EFBIG, [SIGXFSZ], w0)
  else exists e k w' l', rwip cdevrw now ruid fsize ioflag w = Some (e, [], w') /\ wrote w0 l w' l' k /\
    (e = 0 /\ k = w_resid w \/ e = ENOSPC /\ k < w_resid w /\ l' = []).
Proof.
  intros w0 T Hty Hd Hu Hr He Hfs. destruct (append_same ioflag w) as (A1&A2&A3&A4&A5&A6). fold w0 in A1, A2, A3, A4, A5, A6.
  unfold rwip, is_read. rewrite Hd, Hty. unfold write_check. rewrite Z.eqb_refl. fold w0. rewrite A3. fold (w_off w0) (w_size w).
  destruct (_ && _); [done|]. rewrite A2. cbn [orb]. change (IFREG =? IFCHR) with false. fold (w_resid w0).
  rewrite A6, (proj2 (Z.eqb_neq (w_resid w) 0)), A5, Hd by lia. cbn [negb andb].
  pose proof (uk_end _ Hu) as Hend. pose proof (uk_offset _ Hu) as Ho. fold (w_off w0) (w_resid w0) in Hend, Ho. rewrite A6 in Hend.
  fold (w_off w0). rewrite !u32_small by lia. destruct (fsize <? w_off w0 + w_resid w); [done|].
  destruct (write_blocks_ok now ruid IFREG (flag_clr ioflag IO_SYNC) w0 l) as (e&k&w'&l'&E&W&Hout); rewrite ?A1, ?A2, ?A5, ?A6, ?A4; try done;
    [unfold w_map; by rewrite A3|by left|].
  exists e, k, w', l'. split; [exact E|]. split; [done|]. by rewrite A6 in Hout.
Qed.

Lemma rwip_read_ok now ruid fsize ioflag w l :
  file_at (w_s w) (w_f w) l (w_map w) -> file_type (Z.land (ic_mode (i_c (w_ip w))) IFMT) -> uio_rw (w_uio w) = UIO_READ ->
  uio_ok (w_uio w) -> w_err w = 0 -> iflag_on (w_ip w) IPIPE = false -> 0 <= w_size w < 2147483648 ->
  let k := Z.min (w_resid w) (Z.max 0 (w_size w - w_off w)) in
  exists w', rwip cdevrw now ruid fsize ioflag w = Some (0, [], w') /\ file_at (w_s w') (w_f w') l (w_map w') /\
    (forall b, used dev b -> rd (w_s w') b = rd (w_s w) b) /\ moved k (w_uio w) (w_uio w') /\
    i_c (w_ip w') = i_c (w_ip w) /\ i_number (w_ip w') = i_number (w_ip w) /\
    w_um w' = scatter (take (Z.to_nat k) (uaddrs (w_uio w))) (map (file_byte (w_s w) (w_map w)) (seqZ (w_off w) k)) (w_um w).
Proof.
  intros T Hty Hd Hu He Hp Hsz k. destruct (file_type_ok _ Hty) as (Ty1&Ty2&_). unfold rwip, is_read at 1. rewrite Hd.
  set (w1 := if negb (flag_on (fs_flags (w_f w)) MNT_NOATIME) then set_ip (or_iflag IACC (w_ip w)) w else w).
  assert (w_s w1 = w_s w /\ w_f w1 = w_f w /\ w_uio w1 = w_uio w /\ w_um w1 = w_um w /\ w_err w1 = w_err w /\ i_c (w_ip w1) = i_c (w_ip w) /\
    i_number (w_ip w1) = i_number (w_ip w) /\ i_dev (w_map w1) = i_dev (w_map w) /\ i_addr (w_map w1) = i_addr (w_map w))
    as (A1&A2&A3&A4&A5&A6&A7&A8&A9) by (unfold w1; by case_match).
  assert (iflag_on (w_ip w1) IPIPE = false) as Hp1.
  { rewrite <- Hp. unfold w1. case_match; [|done]. by apply (flag_on_set_other (i_flag (w_map w)) IACC IPIPE). }
  destruct (file_at_addr used dev (w_s w) (w_f w) l (w_map w) (w_map w1) A8 A9 T) as (T1&_&_&_&Y1).
  cbv beta iota zeta. rewrite Ty2, A3. fold (w_resid w). destruct (Z.eqb_spec (w_resid w) 0) as [E0|Hne].
  { exists w1. unfold k. rewrite E0, Z.min_l by lia. split; [done|]. rewrite A1, A2, A3, A4. split_and!; try done. by apply moved_0. }
  unfold is_read. rewrite Hd. cbn [negb andb].
  assert (0 < w_resid w) as Hr by (unfold w_resid in *; rewrite (uk_resid _ Hu) in *; lia).
  assert (w_resid w1 = w_resid w /\ w_off w1 = w_off w /\ w_size w1 = w_size w) as (B1&B2&B3)
    by (unfold w_resid, w_off, w_size; by rewrite A3, A6).
  destruct (read_blocks_ok now ruid (Z.land (ic_mode (i_c (w_ip w))) IFMT) (if (Z.land (ic_mode (i_c (w_ip w))) IFMT =? IFREG) || (Z.land (ic_mode (i_c (w_ip w))) IFMT =? IFDIR) && flag_on (fs_flags (w_f w1)) MNT_ASYNC
     then flag_clr ioflag IO_SYNC else ioflag) w1 l) as (w'&E&[R1 R2 R3 R4 R5 R6]);
    [by rewrite A1, A2|exact Hty|by rewrite A3|by rewrite A3|by rewrite B1|by rewrite A5|done|by rewrite B3|].
  exists w'. split; [exact E|]. rewrite B1, B2, B3, A1, A3, A4 in *. fold k in R5, R6. unfold w_map in *. rewrite R3, R4, A2.
  destruct (same_bytes _ _ _ _ _ T1 R1 R2) as (T2&_&_). split_and!; try done. rewrite R6. f_equal. by apply map_ext.
Qed.

Lemma map_nth_seqZ (g : Z -> Z) (l : list Z) : map (fun i => g (nth (Z.to_nat i) l 0)) (seqZ 0 (Z.of_nat (length l))) = map g l.
Proof.
  change (seqZ 0 (Z.of_nat (length l))) with (map (fun i => Z.of_nat i + 0) (seq 0 (Z.to_nat (Z.of_nat (length l))))).
  rewrite Nat2Z.id, map_map. rewrite (map_ext _ (fun i => g (nth i l 0))) by (intros i; by rewrite Z.add_0_r, Nat2Z.id).
  induction l as [|x l IH]; [done|]. cbn [length seq map nth]. f_equal. by rewrite <- seq_shift, map_map.
Qed.

(** (C15) Writing to a regular file.  A write to an append-only file elsewhere
    than at its end is refused with EPERM, one beyond the size limit with
    EFBIG and SIGXFSZ; then nothing changes.  Otherwise the caller's bytes
    are in the file from the offset on (the end of the file with IO_APPEND),
    all other bytes of the file are as they were, the file is as long as it
    was or ends where the write ends, and the offset and the rest of the
    request have advanced; no block is lost or in two places, and nothing is
    written to blocks of other files.  If space runs out, ENOSPC is reported
    and the same is true of a first part of the bytes. *)
Theorem rwip_write_spec now ruid fsize ioflag w l :
  let w0 := append_pos ioflag w in
  file_at (w_s w) (w_f w) l (w_map w) -> Z.land (ic_mode (i_c (w_ip w))) IFMT = IFREG -> uio_rw (w_uio w) = UIO_WRITE ->
  uio_ok (w_uio w0) -> 0 < w_resid w -> w_err w = 0 -> 0 <= fsize < 4294967296 ->
  if flag_on (ic_flags (i_c (w_ip w))) APPEND && negb (w_off w0 =? w_size w) then
    rwip cdevrw now ruid fsize ioflag w = Some (EPERM, [], w0)
  else if fsize <? w_off w0 + w_resid w0 then rwip cdevrw now ruid fsize ioflag w = Some (EFBIG, [SIGXFSZ], w0)
  else exists e k w' l', rwip cdevrw now ruid fsize ioflag w = Some (e, [], w') /\ wrote w0 l w' l' k /\
    (e = 0 /\ k = w_resid w \/ e = ENOSPC /\ k < w_resid w /\ l' = []).
Proof. apply rwip_write_ok. Qed.

(** (C22) Reading from a file, a directory or a symbolic link: the bytes of the
    file from the offset on, up to its end, are stored at the caller's
    addresses in their order, holes as zeros; the offset and the rest of the
    request have advanced by their number, and nothing on the device or in
    the file changes. *)
Theorem rwip_read_spec now ruid fsize ioflag w l :
  file_at (w_s w) (w_f w) l (w_map w) -> file_type (Z.land (ic_mode (i_c (w_ip w))) IFMT) -> uio_rw (w_uio w) = UIO_READ ->
  uio_ok (w_uio w) -> w_err w = 0 -> iflag_on (w_ip w) IPIPE = false -> 0 <= w_size w < 2147483648 ->
  let k := Z.min (w_resid w) (Z.max 0 (w_size w - w_off w)) in
  exists w', rwip cdevrw now ruid fsize ioflag w = Some (0, [], w') /\ file_at (w_s w') (w_f w') l (w_map w') /\
    (forall b, used dev b -> rd (w_s w') b = rd (w_s w) b) /\ moved k (w_uio w) (w_uio w') /\
    i_c (w_ip w') = i_c (w_ip w) /\ i_number (w_ip w') = i_number (w_ip w) /\
    w_um w' = scatter (take (Z.to_nat k) (uaddrs (w_uio w))) (map (file_byte (w_s w) (w_map w)) (seqZ (w_off w) k)) (w_um w).
Proof. apply rwip_read_ok. Qed.

(** (C14) What was written is read back: after a write that succeeded, a read of
    as many bytes at the same place, into any memory and whatever the cache
    and the read-ahead have done, stores at its addresses the bytes the write
    took from its own. *)
Theorem rwip_roundtrip now ruid fsize ioflag w l w' now' ruid' fsize' ioflag' lastr ra u2 um2 :
  let w0 := append_pos ioflag w in
  file_at (w_s w) (w_f w) l (w_map w) -> Z.land (ic_mode (i_c (w_ip w))) IFMT = IFREG -> uio_rw (w_uio w) = UIO_WRITE ->
  uio_ok (w_uio w0) -> 0 < w_resid w -> w_err w = 0 -> 0 <= fsize < 4294967296 ->
  iflag_on (w_ip w) IPIPE = false -> 0 <= w_size w < 2147483648 ->
  rwip cdevrw now ruid fsize ioflag w = Some (0, [], w') ->
  uio_ok u2 -> uio_rw u2 = UIO_READ -> uio_offset u2 = w_off w0 -> uio_resid u2 = w_resid w ->
  exists w2, rwip cdevrw now' ruid' fsize' ioflag' (MkRw (w_ip w') lastr ra 0 u2 um2 (w_f w') (w_s w')) = Some (0, [], w2) /\
    w_um w2 = scatter (uaddrs u2) (map (ubyte (w_um w)) (uaddrs (w_uio w))) um2.
Proof.
  intros w0 T Hty Hd Hu Hr He Hfs Hp Hsz E Hu2 Hd2 Ho2 Hr2.
  destruct (append_same ioflag w) as (A1&A2&A3&A4&A5&A6). fold w0 in A1, A2, A3, A4, A5, A6.
  assert (uaddrs (w_uio w0) = uaddrs (w_uio w) /\ w_um w0 = w_um w) as [A7 A8] by (unfold w0, append_pos; by case_match).
  pose proof (rwip_write_ok now ruid fsize ioflag w l T Hty Hd Hu Hr He Hfs) as Hw. fold w0 in Hw.
  destruct (_ && _); [rewrite E in Hw; discriminate|]. destruct (fsize <? w_off w0 + w_resid w0); [rewrite E in Hw; discriminate|].
  destruct Hw as (e&k&w1&l1&E1&[W1 W2 W3 [W6 W7] W4 W5]&Hout). rewrite E1 in E. injection E as -> ->.
  destruct Hout as [[_ ->]|[? _]]; [|discriminate]. rewrite A3 in W6, W7.
  rewrite (proj2 (Z.eqb_neq (w_resid w) 0)) in W4 by lia. assert (w_size w0 = w_size w) as A9 by (unfold w_size; by rewrite A3).
  pose proof (uk_end _ Hu) as Hend. pose proof (uk_offset _ Hu) as Ho. fold (w_off w0) (w_resid w0) in Hend, Ho. rewrite A6 in Hend.
  set (w2 := MkRw (w_ip w') lastr ra 0 u2 um2 (w_f w') (w_s w')).
  assert (w_resid w2 = w_resid w /\ w_off w2 = w_off w0 /\ w_size w2 = w_size w') as (B1&B2&B3) by done.
  destruct (rwip_read_ok now' ruid' fsize' ioflag' w2 l1) as (w3&E3&_&_&_&_&_&Hm); try done;
    [apply W1|left; cbn; congruence|cbn; congruence|rewrite B3, W4; lia|].
  rewrite B1, B2, B3, Z.min_l in Hm by lia. exists w3. split; [exact E3|]. rewrite Hm.
  change (w_uio w2) with u2. rewrite <- Hr2, (uk_resid _ Hu2), Nat2Z.id, take_ge by done. change (w_um w2) with um2. f_equal.
  rewrite <- (map_nth_seqZ (ubyte (w_um w)) (uaddrs (w_uio w))), <- A7.
  rewrite <- (uk_resid _ Hu), <- (uk_resid _ Hu2), Hr2. fold (w_resid w0). rewrite A6. apply map_seqZ_shift. intros i Hi.
  change (w_s w2) with (w_s w'). change (w_map w2) with (w_map w'). rewrite W5 by lia.
  rewrite (proj2 (Z.leb_le _ _)), (proj2 (Z.ltb_lt _ _)) by lia. cbn [andb]. unfold source. rewrite A8. do 3 f_equal. lia.
Qed.
End Spec.

(** Five bytes from two places of memory, written across the end of the first
    block of an empty file, and read back to another place. *)
Definition ex_cache : Bio.cache :=
  match Bio.binit (Bio.bhinit (zero_cache ∅)) with Bio.BOk c => c | _ => zero_cache ∅ end.
Definition ex_um : umem := list_to_map (zip (seqZ 4096 2 ++ seqZ 8192 3) [104; 101; 108; 108; 111]).
Definition ex_uio (rw : uio_dir) : uio := MkUio [MkIovec 4096 2; MkIovec 8192 3] 2 1022 5 rw.
Definition ex_reg : incore := MkIncore ex_ip 20 (MkIcommon 33188 1 0 0 0 0 0 0 0).
Definition ex_rw (dir : uio_dir) : rw Bio.cache := MkRw ex_reg (-1) 0 0 (ex_uio dir) ex_um ex_fs3 ex_cache.
Definition ex_cdev (dev ioflag : Z) (u : uio) (um : umem) : option (Z * uio * umem) := Some (0, u, um).
Lemma ex_rw_file : @Bmap.file_at _ ex_io ex_fs_used ex_io_spec 0 ex_cache ex_fs3 [22; 21; 20] ex_ip.
Proof. apply ex_file_on. apply (ex_boot_at ∅). by vm_compute. Qed.
Lemma ex_uio_ok dir : uio_ok (ex_uio dir).
Proof. split; [repeat constructor; done|done|done|done]. Qed.

Lemma rwip_write_spec_witness :
  exists e k w' l', @rwip _ ex_io ex_cdev 7 0 100000 0 (ex_rw UIO_WRITE) = Some (e, [], w') /\
    @wrote _ ex_io ex_fs_used ex_io_spec 0 (ex_rw UIO_WRITE) [22; 21; 20] w' l' k.
Proof.
  destruct (@rwip_write_spec _ ex_io ex_fs_used ex_io_spec 0 ex_cdev 7 0 100000 0 (ex_rw UIO_WRITE) [22; 21; 20]
    ex_rw_file eq_refl eq_refl (ex_uio_ok _) eq_refl eq_refl ltac:(lia)) as (e&k&w'&l'&E&W&_).
  exists e, k, w', l'. split; [exact E|exact W].
Defined.
Lemma rwip_read_spec_witness :
  exists w', @rwip _ ex_io ex_cdev 7 0 100000 0 (ex_rw UIO_READ) = Some (0, [], w').
Proof.
  destruct (@rwip_read_spec _ ex_io ex_fs_used ex_io_spec 0 ex_cdev 7 0 100000 0 (ex_rw UIO_READ) [22; 21; 20]
    ex_rw_file (or_introl eq_refl) eq_refl (ex_uio_ok _) eq_refl eq_refl (conj (Z.le_refl 0) eq_refl)) as (w'&E&_).
  exists w'. exact E.
Defined.
Definition ex_back : uio := MkUio [MkIovec 12288 5] 1 1022 5 UIO_READ.
Lemma ex_back_ok : uio_ok ex_back.
Proof. split; [repeat constructor; done|done|done|done]. Qed.
Lemma ex_written : exists w', @rwip _ ex_io ex_cdev 7 0 100000 0 (ex_rw UIO_WRITE) = Some (0, [], w').
Proof. eexists. vm_compute. reflexivity. Qed.
Lemma rwip_roundtrip_witness :
  exists w' w2, @rwip _ ex_io ex_cdev 7 0 100000 0 (ex_rw UIO_WRITE) = Some (0, [], w') /\
    @rwip _ ex_io ex_cdev 7 0 100000 0 (MkRw (w_ip w') 0 0 0 ex_back ∅ (w_f w') (w_s w')) = Some (0, [], w2) /\
    map (ubyte (w_um w2)) (seqZ 12288 5) = [104; 101; 108; 108; 111].
Proof.
  destruct ex_written as (w'&E).
  destruct (@rwip_roundtrip _ ex_io ex_fs_used ex_io_spec 0 ex_cdev 7 0 100000 0 (ex_rw UIO_WRITE) [22; 21; 20] w'
    7 0 100000 0 0 0 ex_back ∅ ex_rw_file eq_refl eq_refl (ex_uio_ok _) eq_refl eq_refl ltac:(lia) eq_refl
    (conj (Z.le_refl 0) eq_refl) E ex_back_ok eq_refl eq_refl eq_refl) as (w2&E2&Hm).
  exists w', w2. split; [exact E|]. split; [exact E2|]. rewrite Hm. vm_compute. reflexivity.
Defined.
End Rwip.
