(* ===== verification/Tailq.v ===== *)
(** Lists with a pointer to the last link, as the free list of inodes
    (sys/kernel/ufs_inode.c) keeps them: each element has the next
    element and the address of the cell that points to it, which is the head
    or the next field of the element before. *)
From S2P Require Import Prelude.

Module Tailq.

(** The address of a cell: the head variable, or the next field of an element. *)
Inductive cell := Head | Next (i : nat).
#[export] Instance cell_eq_dec : EqDecision cell.
Proof. solve_decision. Defined.

(** An element without an entry has NULL in the field. *)
Record tailq := MkTq { tq_next : gmap nat nat; tq_prev : gmap nat cell; tq_head : option nat; tq_last : cell }.

Definition rd_cell (q : tailq) (c : cell) : option nat :=
  match c with Head => tq_head q | Next i => tq_next q !! i end.
Definition wr_cell (c : cell) (v : option nat) (q : tailq) : tailq :=
  match c with
  | Head => MkTq (tq_next q) (tq_prev q) v (tq_last q)
  | Next i => MkTq (partial_alter (fun _ => v) i (tq_next q)) (tq_prev q) (tq_head q) (tq_last q)
  end.
Definition set_prev (i : nat) (c : option cell) (q : tailq) : tailq :=
  MkTq (tq_next q) (partial_alter (fun _ => c) i (tq_prev q)) (tq_head q) (tq_last q).
Definition set_last (c : cell) (q : tailq) : tailq := MkTq (tq_next q) (tq_prev q) (tq_head q) c.

(** Taking an element out of the list: a NULL back pointer faults. *)
Definition unlink (ip : nat) (q : tailq) : res tailq :=
  match tq_prev q !! ip with
  | None => Fault
  | Some c =>
      let iq := rd_cell q (Next ip) in
      let q := match iq with Some n => set_prev n (Some c) q | None => set_last c q end in
      let q := wr_cell c iq q in
      Ok (set_prev ip None (wr_cell (Next ip) None q))
  end.
(** Taking the first one, which leaves the pointer to the last link alone. *)
Definition unlink_head (ip : nat) (q : tailq) : tailq :=
  let iq := rd_cell q (Next ip) in
  let q := match iq with Some n => set_prev n (Some Head) q | None => q end in
  set_prev ip None (wr_cell (Next ip) None (wr_cell Head iq q)).
(** Adding one at the end. *)
Definition append (ip : nat) (q : tailq) : tailq :=
  let q := match tq_head q with
    | Some _ => set_prev ip (Some (tq_last q)) (wr_cell (tq_last q) (Some ip) q)
    | None => set_prev ip (Some Head) (wr_cell Head (Some ip) q)
    end in
  set_last (Next ip) (wr_cell (Next ip) None q).

(** ** The elements of a list *)

Fixpoint seg (q : tailq) (c : cell) (l : list nat) : Prop :=
  match l with
  | [] => rd_cell q c = None
  | x :: l => rd_cell q c = Some x /\ tq_prev q !! x = Some c /\ seg q (Next x) l
  end.
Fixpoint last_cell (c : cell) (l : list nat) : cell := match l with [] => c | x :: l => last_cell (Next x) l end.
Record elems (q : tailq) (l : list nat) : Prop := {
  el_seg : seg q Head l;
  el_last : l <> [] -> tq_last q = last_cell Head l;
  el_nodup : NoDup l }.

Lemma last_cell_app c l1 l2 : last_cell c (l1 ++ l2) = last_cell (last_cell c l1) l2.
Proof. revert c. induction l1 as [|x l1 IH]; intros c; [done|]. apply IH. Qed.
Lemma last_cell_in c l : last_cell c l = c \/ exists x, x ∈ l /\ last_cell c l = Next x.
Proof.
  revert c. induction l as [|x l IH]; intros c; [by left|]. right. simpl.
  destruct (IH (Next x)) as [->|(y&Hy&->)]; [exists x|exists y]; set_solver.
Qed.
Lemma rd_wr_same c v q : rd_cell (wr_cell c v q) c = v.
Proof. destruct c; simpl; [done|]. by rewrite lookup_partial_alter_eq. Qed.
Lemma rd_wr_other c c' v q : c' <> c -> rd_cell (wr_cell c v q) c' = rd_cell q c'.
Proof. destruct c, c'; simpl; try done. intros Hne. rewrite lookup_partial_alter_ne; congruence. Qed.
Lemma prev_wr c v q : tq_prev (wr_cell c v q) = tq_prev q.
Proof. by destruct c. Qed.
Lemma last_wr c v q : tq_last (wr_cell c v q) = tq_last q.
Proof. by destruct c. Qed.
Lemma rd_set_prev i c v q : rd_cell (set_prev i v q) c = rd_cell q c.
Proof. by destruct c. Qed.
Lemma rd_set_last v c q : rd_cell (set_last v q) c = rd_cell q c.
Proof. by destruct c. Qed.
Lemma prev_set_same i v q : tq_prev (set_prev i v q) !! i = v.
Proof. simpl. by rewrite lookup_partial_alter_eq. Qed.
Lemma prev_set_other i j v q : j <> i -> tq_prev (set_prev i v q) !! j = tq_prev q !! j.
Proof. intros. simpl. by rewrite lookup_partial_alter_ne. Qed.

(** A segment depends on its cells and back pointers only. *)
Lemma seg_frame q q' c l :
  (forall c', c' = c \/ (exists x, x ∈ l /\ c' = Next x) -> rd_cell q' c' = rd_cell q c') ->
  (forall x, x ∈ l -> tq_prev q' !! x = tq_prev q !! x) -> seg q c l -> seg q' c l.
Proof.
  revert c. induction l as [|x l IH]; intros c Hc Hp; simpl; [intros <-; apply Hc; by left|].
  intros (H1&H2&H3). split; [rewrite <- H1; apply Hc; by left|]. split; [rewrite <- H2; apply Hp; set_solver|].
  apply IH; [|intros y Hy; apply Hp; set_solver|done].
  intros c' [->|(y&Hy&->)]; apply Hc; right; eexists; (split; [|done]); set_solver.
Qed.
Lemma seg_app q c l1 l2 :
  seg q c (l1 ++ l2) -> (forall x l, l2 = x :: l -> tq_prev q !! x = Some (last_cell c l1) /\ rd_cell q (last_cell c l1) = Some x) /\
    seg q (last_cell c l1) l2.
Proof.
  revert c. induction l1 as [|y l1 IH]; intros c; simpl; [|intros (_&_&H); by apply IH].
  intros H. split; [|done]. intros x l ->. by destruct H as (?&?&_).
Qed.
(** The first part of a list, up to the cell after it. *)
Lemma seg_prefix q c l1 k l2 q' :
  seg q c (l1 ++ k) -> (forall c', (c' = c \/ exists x, x ∈ l1 /\ c' = Next x) -> c' <> last_cell c l1 -> rd_cell q' c' = rd_cell q c') ->
  (forall x, x ∈ l1 -> tq_prev q' !! x = tq_prev q !! x) -> NoDup l1 -> (forall x, c = Next x -> x ∉ l1) ->
  seg q' (last_cell c l1) l2 -> seg q' c (l1 ++ l2).
Proof.
  revert c. induction l1 as [|y l1 IH]; intros c; simpl; [done|]. intros (H1&H2&H3) Hc Hp [Hy Hnd]%NoDup_cons Hn Hs.
  assert (last_cell (Next y) l1 <> c) as Hlc.
  { destruct (last_cell_in (Next y) l1) as [->|(x&Hx&->)]; intros <-;
      [by apply (Hn y), list_elem_of_here|by apply (Hn x), list_elem_of_further]. }
  split; [rewrite <- H1; apply Hc; [by left|done]|]. split; [rewrite <- H2; apply Hp; set_solver|].
  apply IH; try done.
  - intros c' Hc'. apply Hc. destruct Hc' as [->|(x&Hx&->)]; right; eexists; (split; [|done]); set_solver.
  - intros x Hx. apply Hp. set_solver.
  - by intros x [= ->].
Qed.

Lemma elems_unlink q l1 x l2 : elems q (l1 ++ x :: l2) -> exists q', unlink x q = Ok q' /\ elems q' (l1 ++ l2).
Proof.
  intros [Hs Hl Hnd]. destruct (seg_app _ _ _ _ Hs) as [Hx Hs2]. destruct (Hx x l2 eq_refl) as [Hp Hr]. set (c := last_cell Head l1) in *.
  destruct Hs2 as (_&_&Hs2). apply NoDup_app in Hnd as (N1&N12&[N2 N3]%NoDup_cons).
  assert (x ∉ l1) as Nx by (intros Hx1; apply (N12 x Hx1), list_elem_of_here).
  assert (c <> Next x) as Hcx.
  { unfold c. destruct (last_cell_in Head l1) as [->|(y&Hy&->)]; [done|]. intros [= ->]. done. }
  assert (forall y, y ∈ l2 -> c <> Next y) as Hcl.
  { intros y Hy. unfold c. destruct (last_cell_in Head l1) as [->|(z&Hz&->)]; [done|]. intros [= ->]. apply (N12 y Hz). set_solver. }
  unfold unlink. rewrite Hp. cbn zeta. eexists. split; [done|]. set (iq := rd_cell q (Next x)).
  set (q1 := match iq with Some n => set_prev n (Some c) q | None => set_last c q end).
  assert (forall d, rd_cell q1 d = rd_cell q d) as R1 by (intros d; unfold q1; case_match; [apply rd_set_prev|apply rd_set_last]).
  set (q2 := set_prev x None (wr_cell (Next x) None (wr_cell c iq q1))).
  assert (forall d, d <> Next x -> d <> c -> rd_cell q2 d = rd_cell q d) as R2.
  { intros d H1 H2. unfold q2. rewrite rd_set_prev, !rd_wr_other by done. apply R1. }
  assert (rd_cell q2 c = iq) as R3 by (unfold q2; by rewrite rd_set_prev, rd_wr_other, rd_wr_same by done).
  assert (forall y, y <> x -> y ∉ l2 -> tq_prev q2 !! y = tq_prev q !! y) as P2.
  { intros y H1 H2. unfold q2. rewrite prev_set_other, !prev_wr by done. unfold q1. destruct iq as [n|] eqn:Ei; [|done].
    rewrite prev_set_other; [done|]. intros ->. unfold iq in Ei. destruct l2 as [|z l2]; [simpl in Ei, Hs2; congruence|].
    destruct Hs2 as (E&_). rewrite E in Ei. injection Ei as ->. set_solver. }
  assert (seg q2 c l2) as S2.
  { destruct l2 as [|z l2]; cbn [seg] in Hs2 |- *; [unfold iq in R3; congruence|]. destruct Hs2 as (E1&E2&E3).
    assert (iq = Some z) as Ei by exact E1. split; [congruence|]. apply NoDup_cons in N3 as [Nz N3].
    split.
    - unfold q2. rewrite prev_set_other, !prev_wr by set_solver. unfold q1. rewrite Ei. apply prev_set_same.
    - eapply seg_frame; [| |exact E3].
      + intros d Hd. apply R2; destruct Hd as [->|(y&Hy&->)]; try (intros [= ->]; set_solver); (intros E; symmetry in E; revert E; apply Hcl; set_solver).
      + intros y Hy. unfold q2. rewrite prev_set_other, !prev_wr by set_solver. unfold q1. rewrite Ei. apply prev_set_other. set_solver. }
  split.
  - apply (seg_prefix q Head l1 (x :: l2)); [done| | |done|done|exact S2].
    + intros d Hd Hne. apply R2; [|done]. destruct Hd as [->|(y&Hy&->)]; [done|]. intros [= ->]. done.
    + intros y Hy. apply P2; [by intros ->|]. intros Hy2. apply (N12 y Hy). set_solver.
  - intros _. assert (tq_last q2 = tq_last q1) as -> by (unfold q2; cbn [tq_last set_prev]; by rewrite !last_wr).
    rewrite last_cell_app. fold c. unfold q1, iq. destruct l2 as [|z l2]; cbn [seg] in Hs2.
    + rewrite Hs2. done.
    + destruct Hs2 as (E&_). rewrite E. cbn [tq_last set_prev]. rewrite Hl by (by destruct l1). by rewrite last_cell_app.
  - apply NoDup_app. split_and!; try done. intros y Hy Hy2. apply (N12 y Hy). set_solver.
Qed.
(** The first element, also when the pointer to the last link is not kept. *)
Lemma elems_unlink_head q x l : elems q (x :: l) -> elems (unlink_head x q) l.
Proof.
  intros [(E1&E2&Hs) Hl [Nx Nd]%NoDup_cons]. unfold unlink_head. set (iq := rd_cell q (Next x)).
  set (q1 := match iq with Some n => set_prev n (Some Head) q | None => q end).
  assert (forall d, rd_cell q1 d = rd_cell q d) as R1 by (intros d; unfold q1; case_match; [apply rd_set_prev|done]).
  set (q2 := set_prev x None (wr_cell (Next x) None (wr_cell Head iq q1))).
  assert (forall d, d <> Next x -> d <> Head -> rd_cell q2 d = rd_cell q d) as R2.
  { intros d H1 H2. unfold q2. rewrite rd_set_prev, !rd_wr_other by done. apply R1. }
  assert (rd_cell q2 Head = iq) as R3 by done.
  split; [|intros Hne|done].
  - destruct l as [|z l]; cbn [seg] in Hs |- *; [unfold iq in R3; congruence|]. destruct Hs as (F1&F2&F3).
    assert (iq = Some z) as Ei by exact F1. split; [congruence|]. apply NoDup_cons in Nd as [Nz Nd]. split.
    + unfold q2. rewrite prev_set_other, !prev_wr by set_solver. unfold q1. rewrite Ei. apply prev_set_same.
    + eapply seg_frame; [| |exact F3].
      * intros d Hd. apply R2; destruct Hd as [->|(y&Hy&->)]; try done; intros [= ->]; set_solver.
      * intros y Hy. unfold q2. rewrite prev_set_other, !prev_wr by set_solver. unfold q1. rewrite Ei. apply prev_set_other. set_solver.
  - assert (tq_last q2 = tq_last q) as -> by (unfold q2, q1; by destruct iq). rewrite Hl by done. destruct l; done.
Qed.
Lemma elems_append q x l : elems q l -> x ∉ l -> elems (append x q) (l ++ [x]).
Proof.
  intros [Hs Hl Nd] Nx. unfold append. set (c := last_cell Head l).
  assert (match tq_head q with Some _ => set_prev x (Some (tq_last q)) (wr_cell (tq_last q) (Some x) q)
    | None => set_prev x (Some Head) (wr_cell Head (Some x) q) end = set_prev x (Some c) (wr_cell c (Some x) q)) as ->.
  { destruct l as [|y l]; cbn [seg rd_cell] in Hs; [by rewrite Hs|]. destruct Hs as (->&_). by rewrite Hl. }
  assert (c <> Next x) as Hcx.
  { unfold c. destruct (last_cell_in Head l) as [->|(y&Hy&->)]; [done|]. intros [= ->]. done. }
  set (q1 := set_prev x (Some c) (wr_cell c (Some x) q)). set (q2 := set_last (Next x) (wr_cell (Next x) None q1)).
  assert (forall d, d <> Next x -> d <> c -> rd_cell q2 d = rd_cell q d) as R2.
  { intros d H1 H2. unfold q2, q1. by rewrite rd_set_last, rd_wr_other, rd_set_prev, rd_wr_other by done. }
  assert (forall y, y <> x -> tq_prev q2 !! y = tq_prev q !! y) as P2.
  { intros y Hy. unfold q2, q1. change (tq_prev (set_last _ ?t)) with (tq_prev t). by rewrite prev_wr, prev_set_other, prev_wr by done. }
  split.
  - rewrite <- (app_nil_r l) in Hs. apply (seg_prefix q Head l []); [done| | |done|done|]; fold c.
    + intros d Hd Hne. apply R2; [|done]. destruct Hd as [->|(y&Hy&->)]; [done|]. intros [= ->]. done.
    + intros y Hy. apply P2. by intros ->.
    + cbn [seg]. split_and!.
      * unfold q2, q1. by rewrite rd_set_last, rd_wr_other, rd_set_prev, rd_wr_same by done.
      * unfold q2, q1. change (tq_prev (set_last _ ?t)) with (tq_prev t). by rewrite prev_wr, prev_set_same.
      * unfold q2. by rewrite rd_set_last, rd_wr_same.
  - intros _. by rewrite last_cell_app.
  - apply NoDup_app. split_and!; [done| |apply NoDup_singleton]. intros y Hy ->%list_elem_of_singleton. done.
Qed.
Lemma elems_head q l : elems q l -> tq_head q = List.hd_error l.
Proof. intros [Hs _ _]. destruct l; [done|]. by destruct Hs as (?&_). Qed.
(** Adding an element whose next field is written later. *)
Lemma wr_wr c v w q : wr_cell c v (wr_cell c w q) = wr_cell c v q.
Proof. destruct c as [|i]; [done|]. simpl. by rewrite partial_alter_partial_alter_eq. Qed.
Lemma append_late x y i q : tq_head q = Some y -> tq_last q = Next i ->
  append x (wr_cell (Next i) None q) = wr_cell (Next x) None (set_last (Next x) (set_prev x (Some (Next i)) (wr_cell (Next i) (Some x) q))).
Proof.
  intros Hh Hl. unfold append. rewrite last_wr, Hl. assert (tq_head (wr_cell (Next i) None q) = Some y) as -> by done. by rewrite wr_wr.
Qed.
End Tailq.
