(* ===== verification/Icache.v ===== *)
(** The table of inodes (sys/kernel/ufs_inode.c: ihinit, ifind, iget, igrab,
    iput, irele, iflush, ilock, iunlock; the macros of sys/include/inode.h):
    NINODE entries, found by device and number through sixteen hash chains;
    the entries that nobody uses are on a free list, oldest first, and keep
    their inode until it is their turn.

    An entry is its index; the hash links are those of insque and remque, the
    sixteen headers below zero.  The word i_lastr shares with i_freef is
    written as i_freef here. *)
From S2P Require Import Prelude Dll Mem Tailq Bio Bcache Blockio Alloc Bmap Dinode Trunc Itrunc.
Import Dll Mem Tailq Bcache Blockio Alloc Bmap Dinode Trunc Itrunc.

Module Icache.

(** ** Data *)

Definition NINODE : nat := 24.
Definition INOHSZ : Z := 16.
Definition ROOTINO : Z := 2.
Definition ENFILE : Z := 23.
Definition IFMT : Z := 61440.
Definition IFBLK : Z := 24576.
Definition INOHASH (dev ino : Z) : Z := Z.land (dev + ino) (INOHSZ - 1).
Definition ihead (k : Z) : Z := - 1 - k.
Definition iaddr (i : nat) : Z := Z.of_nat i.

(** [struct inode], with i_fs as an index of the mount table, and
    [struct mount]; the pointer m_inodp that is no inode is [None]. *)
Record ent := MkEnt { e_in : incore; e_count : Z; e_id : Z; e_fs : nat }.
Record mount := MkMount { m_dev : Z; m_filsys : fs; m_inodp : option nat }.
Definition set_in (ip : incore) (e : ent) : ent := MkEnt ip (e_count e) (e_id e) (e_fs e).
Definition set_count (v : Z) (e : ent) : ent := MkEnt (e_in e) v (e_id e) (e_fs e).
Definition e_flag (e : ent) : Z := i_flag (i_map (e_in e)).
Definition e_dev (e : ent) : Z := i_dev (i_map (e_in e)).
Definition e_number (e : ent) : Z := i_number (e_in e).
Definition set_eflag (v : Z) (e : ent) : ent := set_in (set_map (set_flag v (i_map (e_in e))) (e_in e)) e.

Section Icache.
Context {S : Type} `{BlockIO S}.

(** The table, its lists, the mount table, u.u_error, and what was woken up:
    [cinvals] counts the calls of cinvalall. *)
Record icache := MkIc {
  inodes : list ent; hash : links; freeq : tailq; nextinodeid : Z; cinvals : Z;
  mounts : list mount; u_error : Z; wakes : list nat; bufs : S }.
Implicit Types (st : icache).
Definition set_inodes_ (l : list ent) st : icache :=
  MkIc l (hash st) (freeq st) (nextinodeid st) (cinvals st) (mounts st) (u_error st) (wakes st) (bufs st).
Definition set_hash (q : links) st : icache :=
  MkIc (inodes st) q (freeq st) (nextinodeid st) (cinvals st) (mounts st) (u_error st) (wakes st) (bufs st).
Definition set_freeq (q : tailq) st : icache :=
  MkIc (inodes st) (hash st) q (nextinodeid st) (cinvals st) (mounts st) (u_error st) (wakes st) (bufs st).
Definition set_nextid (v : Z) (c : Z) st : icache :=
  MkIc (inodes st) (hash st) (freeq st) v c (mounts st) (u_error st) (wakes st) (bufs st).
Definition set_mounts (l : list mount) st : icache :=
  MkIc (inodes st) (hash st) (freeq st) (nextinodeid st) (cinvals st) l (u_error st) (wakes st) (bufs st).
Definition set_error (v : Z) st : icache :=
  MkIc (inodes st) (hash st) (freeq st) (nextinodeid st) (cinvals st) (mounts st) v (wakes st) (bufs st).
Definition add_wake (i : nat) st : icache :=
  MkIc (inodes st) (hash st) (freeq st) (nextinodeid st) (cinvals st) (mounts st) (u_error st) (wakes st ++ [i]) (bufs st).
Definition set_bufs (s : S) st : icache :=
  MkIc (inodes st) (hash st) (freeq st) (nextinodeid st) (cinvals st) (mounts st) (u_error st) (wakes st) s.

(** What an operation comes to: a value, a sleep on an inode after which it
    starts again, an I/O operation that does not return, or a failure. *)
Inductive ires (A : Type) : Type :=
  | IOk (a : A)
  | ISleep (ip : nat) (st : icache)
  | IHang
  | IPanic (msg : string)
  | IFault.
Arguments IOk {A} _.
Arguments ISleep {A} _ _.
Arguments IHang {A}.
Arguments IPanic {A} _.
Arguments IFault {A}.
#[global] Instance ires_bind : MBind ires := fun A B f m =>
  match m with IOk a => f a | ISleep i st => ISleep i st | IHang => IHang | IPanic s => IPanic s | IFault => IFault end.
Definition of_res {A} (r : res A) : ires A := match r with Ok a => IOk a | Panic s => IPanic s | Fault => IFault end.
Definition of_opt {A} (r : option A) : ires A := match r with Some a => IOk a | None => IHang end.

Definition get_ent st (i : nat) : ires ent := of_res (rd (inodes st) i).
Definition upd_ent (i : nat) (g : ent -> ent) st : ires icache :=
  e ← get_ent st i;
  l ← of_res (wr (inodes st) i (g e));
  IOk (set_inodes_ l st).
Definition get_mount st (k : nat) : ires mount := of_res (rd (mounts st) k).
Definition set_fs (k : nat) (f : fs) st : ires icache :=
  m ← get_mount st k;
  l ← of_res (wr (mounts st) k (MkMount (m_dev m) f (m_inodp m)));
  IOk (set_mounts l st).

(** ** Locks *)

Definition ilock (ip : nat) st : ires icache :=
  e ← get_ent st ip;
  if flag_on (e_flag e) ILOCKED then
    st ← upd_ent ip (fun e => set_eflag (flag_set (e_flag e) IWANT) e) st;
    ISleep ip st
  else upd_ent ip (fun e => set_eflag (flag_set (e_flag e) ILOCKED) e) st.
Definition iunlock (ip : nat) st : ires icache :=
  st ← upd_ent ip (fun e => set_eflag (flag_clr (e_flag e) ILOCKED) e) st;
  e ← get_ent st ip;
  if flag_on (e_flag e) IWANT then
    st ← upd_ent ip (fun e => set_eflag (flag_clr (e_flag e) IWANT) e) st;
    IOk (add_wake ip st)
  else IOk st.

(** ** Finding an inode *)

(** [for (ip = ih->ih_chain[0]; ip != ih; ip = ip->i_forw)] *)
Fixpoint find_chain (fuel : nat) st (ih ip dev ino : Z) : ires (option nat) :=
  match fuel with
  | O => IFault
  | Datatypes.S fuel =>
      if ip =? ih then IOk None
      else if ip <? 0 then IFault
      else
        e ← get_ent st (Z.to_nat ip);
        if (ino =? e_number e) && (dev =? e_dev e) then IOk (Some (Z.to_nat ip))
        else
          n ← of_res (get_link (q_next (hash st)) ip);
          find_chain fuel st ih n dev ino
  end.
Definition ifind (dev ino : Z) st : ires (option nat) :=
  let ih := ihead (INOHASH dev ino) in
  n ← of_res (get_link (q_next (hash st)) ih);
  find_chain (Datatypes.S NINODE) st ih n dev ino.

(** The part of iget and of igrab after the lock is found open: the entry
    leaves the free list, and gets a reference and the lock. *)
Definition take_ref (ip : nat) st : ires icache :=
  e ← get_ent st ip;
  st ← (if e_count e =? 0 then q ← of_res (unlink ip (freeq st)); IOk (set_freeq q st) else IOk st);
  st ← upd_ent ip (fun e => set_count (u32 (e_count e + 1)) e) st;
  upd_ent ip (fun e => set_eflag (flag_set (e_flag e) ILOCKED) e) st.
Definition igrab (ip : nat) st : ires icache :=
  e ← get_ent st ip;
  if flag_on (e_flag e) ILOCKED then
    st ← upd_ent ip (fun e => set_eflag (flag_set (e_flag e) IWANT) e) st;
    ISleep ip st
  else take_ref ip st.

(** cacheinval *)
Definition cacheinval (ip : nat) st : ires icache :=
  let id := u32 (nextinodeid st + 1) in
  st ← upd_ent ip (fun e => MkEnt (e_in e) (e_count e) id (e_fs e)) st;
  IOk (set_nextid id (if id =? 0 then cinvals st + 1 else cinvals st) st).

(** [ip->i_forw = ip; ip->i_back = ip] *)
Definition self_link (ip : nat) st : icache :=
  set_hash (set_q_prev (set_q_next (hash st) (iaddr ip) (iaddr ip)) (iaddr ip) (iaddr ip)) st.

(** ** Giving up a reference *)

(** ITIMES *)
Definition itimes (now : Z) (ip : incore) : incore :=
  if iflag_on ip (IUPD + IACC + ICHG) then
    let ip := or_iflag IMOD ip in
    let ip := if iflag_on ip IACC then set_c (set_atime now (i_c ip)) ip else ip in
    let ip := if iflag_on ip IUPD then set_c (set_mtime now (i_c ip)) ip else ip in
    let ip := if iflag_on ip ICHG then set_c (set_ctime now (i_c ip)) ip else ip in
    clr_iflag (IACC + IUPD + ICHG) ip
  else ip.
(** The file of an inode without links: its blocks and its number are freed. *)
Definition irele_free (now rablock : Z) (ip : nat) st : ires icache :=
  e ← get_ent st ip;
  m ← get_mount st (e_fs e);
  '(err, i, f, s) ← of_opt (itrunc now rablock (u_error st) 0 0 (e_in e) (m_filsys m) (bufs st));
  let i := set_c (set_mode 0 (i_c i)) i in
  let i := set_map (MkInode (i_dev (i_map i)) (i_flag (i_map i)) (<[1%nat := 0]> (i_addr (i_map i)))) i in
  let i := or_iflag (IUPD + ICHG) i in
  st ← upd_ent ip (set_in i) st;
  set_fs (e_fs e) (ifree (i_number i) f) (set_error err (set_bufs s st)).
(** The last reference: the inode is written out and the entry goes to the end
    of the free list. *)
Definition irele_last (now rablock : Z) (ip : nat) st : ires icache :=
  st ← upd_ent ip (fun e => set_eflag (flag_set (e_flag e) ILOCKED) e) st;
  e ← get_ent st ip;
  m ← get_mount st (e_fs e);
  st ← (if (ic_nlink (i_c (e_in e)) <=? 0) && (fs_ronly (m_filsys m) =? 0) then irele_free now rablock ip st else IOk st);
  e ← get_ent st ip;
  m ← get_mount st (e_fs e);
  '(i, s) ← of_opt (iupdat now now now false (e_in e) (m_filsys m) (bufs st));
  st ← upd_ent ip (set_in i) (set_bufs s st);
  st ← iunlock ip st;
  st ← upd_ent ip (set_eflag 0) st;
  IOk (set_freeq (append ip (freeq st)) st).
Definition irele (now rablock : Z) (ip : nat) st : ires icache :=
  e ← get_ent st ip;
  st ← (if e_count e =? 1 then irele_last now rablock ip st
        else if negb (flag_on (e_flag e) ILOCKED) then upd_ent ip (set_in (itimes now (e_in e))) st
        else IOk st);
  upd_ent ip (fun e => set_count (u32 (e_count e - 1)) e) st.
Definition iput (now rablock : Z) (ip : nat) st : ires icache :=
  st ← iunlock ip st;
  irele now rablock ip st.

(** ** iget *)

(** The entry at the head of the free list is given to another inode, up to
    the read. *)
Definition recycle (dev : Z) (k : nat) (ino : Z) (ip : nat) st : ires icache :=
  let st := set_freeq (unlink_head ip (freeq st)) st in
  q ← of_res (remque (hash st) (iaddr ip));
  q ← of_res (insque q (iaddr ip) (ihead (INOHASH dev ino)));
  let st := set_hash q st in
  st ← upd_ent ip (fun e =>
    MkEnt (MkIncore (MkInode dev (i_flag (i_map (e_in e))) (i_addr (i_map (e_in e)))) ino (i_c (e_in e))) (e_count e) (e_id e) k) st;
  st ← cacheinval ip st;
  st ← upd_ent ip (set_eflag ILOCKED) st;
  upd_ent ip (fun e => set_count (u32 (e_count e + 1)) e) st.
(** The inode is read from the disk into the entry. *)
Definition read_inode (now rablock dev ino : Z) (ip : nat) st : ires (icache * option nat) :=
  '(s, bp) ← of_opt (io_bread dev (itod ino) (bufs st));
  if io_berror s bp then
    s ← of_opt (io_brelse bp s);
    let st := set_bufs s st in
    q ← of_res (remque (hash st) (iaddr ip));
    let st := self_link ip (set_hash q st) in
    st ← upd_ent ip (fun e => set_in (MkIncore (i_map (e_in e)) 0 (i_c (e_in e))) e) st;
    st ← iput now rablock ip st;
    IOk (st, None)
  else
    let dp := dinode_at ino (io_data s bp) in
    st ← upd_ent ip (fun e =>
      set_in (MkIncore (MkInode (e_dev e) (e_flag e) (load_addr dp)) (e_number e) (load_icommon dp)) e) (set_bufs s st);
    s ← of_opt (io_brelse bp (bufs st));
    IOk (set_bufs s st, Some ip).

(** [for (mp = &mount[0]; mp < &mount[NMOUNT]; mp++) if (mp->m_inodp == ip)] *)
Fixpoint find_mount (l : list mount) (k : nat) (ip : nat) : option (nat * mount) :=
  match l with
  | [] => None
  | m :: l => if decide (m_inodp m = Some ip) then Some (k, m) else find_mount l (Datatypes.S k) ip
  end.
(** The [goto loop] of a mounted-on inode takes one turn: the root of a file
    system is not mounted on. *)
Fixpoint iget_loop (fuel : nat) (now rablock dev : Z) (k : nat) (ino : Z) st : ires (icache * option nat) :=
  match fuel with
  | O => IHang
  | Datatypes.S fuel =>
      r ← ifind dev ino st;
      match r with
      | Some ip =>
          e ← get_ent st ip;
          if flag_on (e_flag e) ILOCKED then
            st ← upd_ent ip (fun e => set_eflag (flag_set (e_flag e) IWANT) e) st;
            ISleep ip st
          else if flag_on (e_flag e) IMOUNT then
            match find_mount (mounts st) 0 ip with
            | Some (k, m) => iget_loop fuel now rablock (m_dev m) k ROOTINO st
            | None => IPanic "no imt"
            end
          else
            st ← take_ref ip st;
            IOk (st, Some ip)
      | None =>
          match tq_head (freeq st) with
          | None => IOk (set_error ENFILE st, None)
          | Some ip =>
              e ← get_ent st ip;
              if negb (e_count e =? 0) then IPanic "free inode isn't"
              else
                st ← recycle dev k ino ip st;
                read_inode now rablock dev ino ip st
          end
      end
  end.
Definition iget (now rablock dev : Z) (k : nat) (ino : Z) st : ires (icache * option nat) :=
  iget_loop 3 now rablock dev k ino st.

(** ** Start-up and unmounting *)

Fixpoint ihinit_heads (n : nat) (q : links) : links :=
  match n with
  | O => q
  | Datatypes.S n =>
      let ih := ihead (INOHSZ - Z.of_nat (Datatypes.S n)) in
      ihinit_heads n (set_q_prev (set_q_next q ih ih) ih ih)
  end.
(** The inodes after [ip]. *)
Fixpoint ihinit_inodes (n : nat) (ip : nat) st : icache :=
  match n with
  | O => set_freeq (wr_cell (Next ip) None (freeq st)) st
  | Datatypes.S n =>
      let ip := Datatypes.S ip in
      let st := self_link ip st in
      let q := freeq st in
      let q := set_prev ip (Some (tq_last q)) (wr_cell (tq_last q) (Some ip) q) in
      ihinit_inodes n ip (set_freeq (set_last (Next ip) q) st)
  end.
Definition ihinit st : icache :=
  let st := set_hash (ihinit_heads (Z.to_nat INOHSZ) (hash st)) st in
  let q := freeq st in
  let q := set_last (Next 0) (wr_cell Head (Some 0%nat) q) in
  let q := set_prev 0 (Some Head) q in
  ihinit_inodes (NINODE - 1) 0 (self_link 0 (set_freeq q st)).

(** An open block device file of [dev]; i_rdev is [i_addr[1]]. *)
Definition open_blk (dev : Z) (e : ent) : bool :=
  negb (e_count e =? 0) && (Z.land (ic_mode (i_c (e_in e))) IFMT =? IFBLK) && (get_addr (i_map (e_in e)) 1 =? dev).
(** [None] stands for -1: an inode of the device is in use. *)
Fixpoint iflush_loop (js : list nat) (dev : Z) (open : Z) st : ires (icache * option Z) :=
  match js with
  | [] => IOk (st, Some open)
  | i :: js =>
      e ← get_ent st i;
      if e_dev e =? dev then
        if negb (e_count e =? 0) then IOk (st, None)
        else
          q ← of_res (remque (hash st) (iaddr i));
          iflush_loop js dev open (self_link i (set_hash q st))
      else
        iflush_loop js dev (if open_blk dev e then open + 1 else open) st
  end.
Definition iflush (dev : Z) st : ires (icache * option Z) := iflush_loop (seq 0 NINODE) dev 0 st.
End Icache.
Arguments icache : clear implicits.
Arguments IOk {S A} _.
Arguments ISleep {S A} _ _.
Arguments IHang {S A}.
Arguments IPanic {S A} _.
Arguments IFault {S A}.

(** ** The invariant *)

Section Inv.
Context {S : Type} `{BlockIO S}.
Implicit Types (st : icache S) (L : Z -> list Z) (loose : nat -> bool) (l : list nat).

Definition is_head (h : Z) : Prop := exists k, 0 <= k < INOHSZ /\ h = ihead k.
(** An entry that is in no chain is linked to itself. *)
Definition linked_to_self loose (h : Z) : Prop := exists i, loose i = true /\ (i < NINODE)%nat /\ h = iaddr i.
Definition headers loose (h : Z) : Prop := is_head h \/ linked_to_self loose h.

(** [L] are the hash chains, [loose] the entries in none, [l] the free list. *)
Record ic_ok st L loose l : Prop := {
  ik_len : length (inodes st) = NINODE;
  ik_rings : rings (q_next (hash st)) (q_prev (hash st)) (headers loose) L;
  ik_self : forall i, loose i = true -> L (iaddr i) = [];
  ik_elem : forall h x, is_head h -> x ∈ L h -> exists i, (i < NINODE)%nat /\ x = iaddr i /\ loose i = false;
  ik_chain : forall i e, inodes st !! i = Some e -> loose i = false -> iaddr i ∈ L (ihead (INOHASH (e_dev e) (e_number e)));
  ik_one : forall i j e e', inodes st !! i = Some e -> inodes st !! j = Some e' -> loose i = false -> loose j = false ->
    e_dev e = e_dev e' -> e_number e = e_number e' -> i = j;
  ik_free : elems (freeq st) l;
  ik_idle : forall i, i ∈ l <-> exists e, inodes st !! i = Some e /\ e_count e = 0;
  ik_count : forall i e, inodes st !! i = Some e -> 0 <= e_count e < 4294967296 }.

Lemma INOHASH_range d n : 0 <= INOHASH d n < INOHSZ.
Proof. unfold INOHASH, INOHSZ. change (16 - 1) with (Z.ones 4). rewrite Z.land_ones by lia. apply Z.mod_pos_bound. lia. Qed.
Lemma INOHASH_head d n : is_head (ihead (INOHASH d n)).
Proof. eexists. split; [apply INOHASH_range|done]. Qed.
Lemma head_neg h : is_head h -> h < 0.
Proof. intros (k&Hk&->). unfold ihead. lia. Qed.
Lemma iaddr_not_head i : ~ is_head (iaddr i).
Proof. intros Hh%head_neg. unfold iaddr in Hh. lia. Qed.

Lemma get_ent_ok st i e : inodes st !! i = Some e -> get_ent st i = IOk e.
Proof. intros Hi. unfold get_ent, rd. by rewrite Hi. Qed.
Lemma upd_ent_ok st i e g : inodes st !! i = Some e -> upd_ent i g st = IOk (set_inodes_ (<[i := g e]> (inodes st)) st).
Proof.
  intros Hi. unfold upd_ent. rewrite (get_ent_ok _ _ _ Hi). cbn [mbind ires_bind]. unfold wr.
  by rewrite decide_True by (by eapply lookup_lt_Some).
Qed.
Lemma ik_lookup st L loose l i : ic_ok st L loose l -> (i < NINODE)%nat -> exists e, inodes st !! i = Some e.
Proof. intros Hok Hi. apply lookup_lt_is_Some_2. by rewrite (ik_len _ _ _ _ Hok). Qed.
Lemma ik_bound st L loose l i e : ic_ok st L loose l -> inodes st !! i = Some e -> (i < NINODE)%nat.
Proof. intros Hok Hi%lookup_lt_Some. by rewrite (ik_len _ _ _ _ Hok) in Hi. Qed.

(** A change of an entry that keeps its place. *)
Lemma ic_ok_upd st L loose l i e e' :
  ic_ok st L loose l -> inodes st !! i = Some e -> e_dev e' = e_dev e -> e_number e' = e_number e -> e_count e' = e_count e ->
  ic_ok (set_inodes_ (<[i := e']> (inodes st)) st) L loose l.
Proof.
  intros Hok Hi Hd Hn Hc. assert (forall j x, <[i := e']> (inodes st) !! j = Some x ->
    exists y, inodes st !! j = Some y /\ e_dev x = e_dev y /\ e_number x = e_number y /\ e_count x = e_count y) as Hl.
  { intros j x [(->&->&_)|[Hne Hj]]%list_lookup_insert_Some; eauto. }
  destruct Hok as [H1 H2 H3 H4 H5 H6 H7 H8 H9]. split; cbn [inodes set_inodes_ hash freeq]; try done.
  - by rewrite length_insert.
  - intros j x (y&Hj&->&->&_)%Hl. by apply H5.
  - intros j k x x' (y&Hj&->&->&_)%Hl (y'&Hk&->&->&_)%Hl. by apply H6.
  - intros j. rewrite H8. destruct (decide (j = i)) as [->|Hne].
    + rewrite list_lookup_insert_eq by (by eapply lookup_lt_Some). split; intros (x&Hx&E); simplify_eq; eexists; (split; [done|congruence]).
    + by rewrite list_lookup_insert_ne.
  - intros j x (y&Hj&_&_&->)%Hl. by eapply H9.
Qed.
(** ... and of anything but the table and its lists. *)
Lemma ic_ok_same st st' L loose l :
  inodes st' = inodes st -> hash st' = hash st -> freeq st' = freeq st -> ic_ok st L loose l -> ic_ok st' L loose l.
Proof. intros E1 E2 E3 [H1 H2 H3 H4 H5 H6 H7 H8 H9]. split; rewrite ?E1, ?E2, ?E3; done. Qed.

(** *** Finding *)

Lemma chain_next st L loose l h (l1 l2 : list Z) (x : Z) :
  ic_ok st L loose l -> is_head h -> L h = l1 ++ x :: l2 -> get_link (q_next (hash st)) x = Ok (List.hd h l2).
Proof.
  intros Hok Hh E. unfold get_link. by rewrite (rings_after _ _ _ _ _ _ _ _ (ik_rings _ _ _ _ Hok) (or_introl Hh) E).
Qed.
Definition here dev ino (e : ent) : bool := (ino =? e_number e) && (dev =? e_dev e).
Lemma find_chain_ok st L loose l h (l1 l2 : list Z) fuel dev ino :
  ic_ok st L loose l -> is_head h -> L h = l1 ++ l2 -> (length l2 < fuel)%nat ->
  exists r, find_chain fuel st h (List.hd h l2) dev ino = IOk r /\
    match r with
    | Some i => exists e, inodes st !! i = Some e /\ here dev ino e = true /\ loose i = false
    | None => forall i e, iaddr i ∈ l2 -> inodes st !! i = Some e -> here dev ino e = false
    end.
Proof.
  intros Hok Hh. revert l1 l2. induction fuel as [|fuel IH]; intros l1 l2 E Hf; [lia|]. cbn [find_chain].
  destruct l2 as [|x l2]; cbn [List.hd].
  { rewrite Z.eqb_refl. exists None. split; [done|]. intros i e Hi. by apply not_elem_of_nil in Hi. }
  destruct (ik_elem _ _ _ _ Hok h x Hh) as (i&Hi&->&Hlo); [rewrite E; set_solver|]. pose proof (head_neg h Hh).
  rewrite (proj2 (Z.eqb_neq (iaddr i) h)), (proj2 (Z.ltb_ge (iaddr i) 0)) by (unfold iaddr; lia).
  destruct (ik_lookup _ _ _ _ _ Hok Hi) as [e He]. replace (Z.to_nat (iaddr i)) with i by (unfold iaddr; lia). rewrite (get_ent_ok _ _ _ He). cbn [mbind ires_bind].
  fold (here dev ino e). destruct (here dev ino e) eqn:Eh; [exists (Some i); split; [done|]; by exists e|].
  rewrite (chain_next _ _ _ _ _ _ _ _ Hok Hh E). cbn [of_res mbind ires_bind].
  destruct (IH (l1 ++ [iaddr i]) l2) as (r&->&Hr); [by rewrite <- app_assoc|simpl in Hf; lia|].
  exists r. split; [done|]. destruct r as [j|]; [done|]. intros j e' [Ej|Hj]%elem_of_cons He'; [|by eapply Hr].
  apply Nat2Z.inj in Ej as ->. congruence.
Qed.
Lemma chain_bound st L loose l h : ic_ok st L loose l -> is_head h -> (length (L h) <= NINODE)%nat.
Proof.
  intros Hok Hh. pose proof (rings_nodup _ _ _ _ _ (ik_rings _ _ _ _ Hok) (or_introl Hh)) as Hnd.
  transitivity (length (iaddr <$> seq 0 NINODE)); [|done]. apply submseteq_length, NoDup_submseteq; [done|].
  intros x Hx. destruct (ik_elem _ _ _ _ Hok h x Hh Hx) as (i&Hi&->&_). apply list_elem_of_fmap. exists i. split; [done|]. apply elem_of_seq. lia.
Qed.
Lemma ifind_ok st L loose l dev ino : ic_ok st L loose l ->
  exists r, ifind dev ino st = IOk r /\
    match r with
    | Some i => exists e, inodes st !! i = Some e /\ here dev ino e = true /\ loose i = false
    | None => forall i e, inodes st !! i = Some e -> loose i = false -> here dev ino e = false
    end.
Proof.
  intros Hok. pose proof (INOHASH_head dev ino) as Hh. unfold ifind. set (h := ihead (INOHASH dev ino)) in *.
  unfold get_link. rewrite (rings_next _ _ _ _ _ (ik_rings _ _ _ _ Hok) (or_introl Hh)). cbn [of_res mbind ires_bind].
  destruct (find_chain_ok st L loose l h [] (L h) (Datatypes.S NINODE) dev ino Hok Hh eq_refl) as (r&->&Hr);
    [pose proof (chain_bound _ _ _ _ _ Hok Hh); lia|].
  exists r. split; [done|]. destruct r as [i|]; [done|]. intros i e Hi Hlo. destruct (here dev ino e) eqn:Eh; [|done].
  rewrite <- Eh. apply (Hr i); [|done]. unfold here in Eh. apply andb_true_iff in Eh as [->%Z.eqb_eq ->%Z.eqb_eq].
  by apply (ik_chain _ _ _ _ Hok).
Qed.
Lemma here_true dev ino e : here dev ino e = true <-> e_dev e = dev /\ e_number e = ino.
Proof. unfold here. rewrite andb_true_iff, !Z.eqb_eq. split; intros [? ?]; auto. Qed.

(** *** References *)

Lemma ic_ok_ref st L loose l l' q i e e' :
  ic_ok st L loose l -> inodes st !! i = Some e -> e_dev e' = e_dev e -> e_number e' = e_number e -> 0 <= e_count e' < 4294967296 ->
  elems q l' -> (forall j, j <> i -> j ∈ l' <-> j ∈ l) -> (i ∈ l' <-> e_count e' = 0) ->
  ic_ok (set_freeq q (set_inodes_ (<[i := e']> (inodes st)) st)) L loose l'.
Proof.
  intros Hok Hi Hd Hn Hc Hq Hl Hil. assert (forall j x, <[i := e']> (inodes st) !! j = Some x ->
    exists y, inodes st !! j = Some y /\ e_dev x = e_dev y /\ e_number x = e_number y /\ 0 <= e_count x < 4294967296) as Hlk.
  { intros j x [(->&->&_)|[Hne Hj]]%list_lookup_insert_Some; [by exists e|]. exists x. split_and!; try done; by apply (ik_count _ _ _ _ Hok j). }
  destruct Hok as [H1 H2 H3 H4 H5 H6 H7 H8 H9]. split; cbn [inodes set_inodes_ set_freeq hash freeq]; try done.
  - by rewrite length_insert.
  - intros j x (y&Hj&->&->&_)%Hlk. by apply H5.
  - intros j k x x' (y&Hj&->&->&_)%Hlk (y'&Hk&->&->&_)%Hlk. by apply H6.
  - intros j. destruct (decide (j = i)) as [->|Hne].
    + rewrite Hil, list_lookup_insert_eq by (by eapply lookup_lt_Some). split; [intros Hz; by exists e'|intros (x&[= <-]&?); done].
    + by rewrite Hl, H8, list_lookup_insert_ne.
  - intros j x (y&Hj&_&_&?)%Hlk. done.
Qed.

Definition locked (e : ent) : ent := set_eflag (flag_set (e_flag e) ILOCKED) e.
Lemma take_ref_ok st L loose l i e :
  ic_ok st L loose l -> inodes st !! i = Some e -> e_count e < 4294967295 ->
  exists q l', take_ref i st = IOk (set_freeq q (set_inodes_ (<[i := locked (set_count (e_count e + 1) e)]> (inodes st)) st)) /\
    ic_ok (set_freeq q (set_inodes_ (<[i := locked (set_count (e_count e + 1) e)]> (inodes st)) st)) L loose l' /\
    (forall j, j ∈ l' <-> j ∈ l /\ j <> i).
Proof.
  intros Hok Hi Hc. pose proof (ik_count _ _ _ _ Hok i e Hi) as Hc0. unfold take_ref. rewrite (get_ent_ok _ _ _ Hi). cbn [mbind ires_bind].
  assert (exists q l', (if e_count e =? 0 then q ← of_res (unlink i (freeq st)); IOk (set_freeq q st) else IOk st) = IOk (set_freeq q st) /\
    elems q l' /\ forall j, j ∈ l' <-> j ∈ l /\ j <> i) as (q&l'&->&Hq&Hl).
  { pose proof (ik_free _ _ _ _ Hok) as Hf. destruct (Z.eqb_spec (e_count e) 0) as [E0|Hne].
    - assert (i ∈ l) as Hin by (apply (ik_idle _ _ _ _ Hok); by exists e).
      destruct (list_elem_of_split _ _ Hin) as (l1&l2&->). destruct (elems_unlink _ _ _ _ Hf) as (q&->&Hq).
      exists q, (l1 ++ l2). split; [done|]. split; [done|]. pose proof (el_nodup _ _ Hf) as Hnd.
      apply NoDup_app in Hnd as (_&N1&[N2 _]%NoDup_cons). intros j. set_unfold. split; [|naive_solver].
      intros Hj. split; [naive_solver|]. intros ->. destruct Hj; [|done]. by apply (N1 i); set_solver.
    - exists (freeq st), l. split; [by destruct st|]. split; [done|]. intros j. split; [|by intros [? _]]. intros Hj. split; [done|].
      intros ->. apply (ik_idle _ _ _ _ Hok) in Hj as (e'&He'&?). congruence. }
  cbn [mbind ires_bind]. rewrite (upd_ent_ok _ _ e) by done. cbn [mbind ires_bind].
  rewrite (upd_ent_ok _ _ (set_count (u32 (e_count e + 1)) e)) by (cbn; apply list_lookup_insert_eq; by eapply lookup_lt_Some).
  cbn [inodes set_inodes_ set_freeq]. rewrite list_insert_insert_eq, u32_small by lia. fold (locked (set_count (e_count e + 1) e)).
  exists q, l'. split; [reflexivity|]. split; [|done]. eapply ic_ok_ref; try done; [cbn; lia| |].
  - intros j Hj. rewrite Hl. naive_solver.
  - rewrite Hl. cbn. split; [naive_solver|lia].
Qed.
(** The entry goes to the end of the free list. *)
Lemma idle_ok st L loose l i e e' :
  ic_ok st L loose l -> inodes st !! i = Some e -> e_count e = 1 -> e_dev e' = e_dev e -> e_number e' = e_number e -> e_count e' = 0 ->
  ic_ok (set_freeq (append i (freeq st)) (set_inodes_ (<[i := e']> (inodes st)) st)) L loose (l ++ [i]).
Proof.
  intros Hok Hi Hc Hd Hn Hc'. assert (i ∉ l) as Hin.
  { intros (x&Hx&?)%(ik_idle _ _ _ _ Hok). congruence. }
  eapply ic_ok_ref; try done; [lia|apply elems_append; [apply Hok|done]| |].
  - intros j Hne. set_solver.
  - set_solver.
Qed.

(** *** Chains *)

Definition mark (i : nat) (b : bool) loose : nat -> bool := fun j => if (j =? i)%nat then b else loose j.
Lemma mark_same i b loose : mark i b loose i = b.
Proof. unfold mark. by rewrite Nat.eqb_refl. Qed.
Lemma mark_other i j b loose : j <> i -> mark i b loose j = loose j.
Proof. intros. unfold mark. by rewrite (proj2 (Nat.eqb_neq j i)). Qed.
Lemma iaddr_inj i j : iaddr i = iaddr j -> i = j.
Proof. apply Nat2Z.inj. Qed.

(** The links after an entry was taken from its chain: it is in no list. *)
Record unchained (q : links) L loose (i : nat) L1 : Prop := {
  un_rings : rings (q_next q) (q_prev q) (headers (mark i false loose)) L1;
  un_free : forall h, headers (mark i false loose) h -> iaddr i ∉ L1 h;
  un_elem : forall h x, is_head h -> x ∈ L1 h <-> x ∈ L h /\ x <> iaddr i;
  un_self : forall j, mark i false loose j = true -> L1 (iaddr j) = [] }.
Lemma remque_chain st L loose l i :
  ic_ok st L loose l -> (i < NINODE)%nat -> exists q L1, remque (hash st) (iaddr i) = Ok q /\ unchained q L loose i L1.
Proof.
  intros Hok Hi. pose proof (ik_rings _ _ _ _ Hok) as R.
  assert (forall h, headers (mark i false loose) h -> headers loose h) as Hsub.
  { intros h [?|(j&Hj&?&->)]; [by left|]. right. exists j. split; [|done]. destruct (decide (j = i)) as [->|Hne]; [by rewrite mark_same in Hj|].
    by rewrite mark_other in Hj. }
  assert (forall j, mark i false loose j = true -> j <> i /\ loose j = true) as Hmark.
  { intros j Hj. destruct (decide (j = i)) as [->|Hne]; [by rewrite mark_same in Hj|]. by rewrite mark_other in Hj. }
  destruct (loose i) eqn:Hlo.
  - assert (headers loose (iaddr i)) as Hh by (right; by exists i).
    exists (hash st), L. split; [eapply remque_self; [exact R|done|by apply (ik_self _ _ _ _ Hok)]|]. split.
    + by eapply rings_sub.
    + intros h Hh1 Hin. by apply (r_elem _ _ _ _ R h (iaddr i) (Hsub h Hh1) Hin).
    + intros h x Hx. split; [|by intros [? _]]. intros Hin. split; [done|]. intros ->.
      by apply (r_elem _ _ _ _ R h (iaddr i) (or_introl Hx) Hin).
    + intros j [_ Hj]%Hmark. by apply (ik_self _ _ _ _ Hok).
  - destruct (ik_lookup _ _ _ _ _ Hok Hi) as [e He]. pose proof (ik_chain _ _ _ _ Hok i e He Hlo) as Hin.
    pose proof (INOHASH_head (e_dev e) (e_number e)) as Hh. set (h0 := ihead (INOHASH (e_dev e) (e_number e))) in *.
    destruct (list_elem_of_split _ _ Hin) as (l1&l2&E).
    destruct (remque_ok _ _ _ _ _ _ _ R (or_introl Hh) E) as (q&Eq&R'). exists q, (with_list L h0 (l1 ++ l2)). split; [done|].
    pose proof (rings_nodup _ _ _ _ _ R (or_introl Hh)) as Hnd. rewrite E in Hnd. apply NoDup_app in Hnd as (_&N1&[N2 _]%NoDup_cons).
    assert (forall x, x ∈ l1 ++ l2 <-> x ∈ L h0 /\ x <> iaddr i) as Hl.
    { intros x. rewrite E. set_unfold. split; [|naive_solver]. intros Hx. split; [naive_solver|]. intros ->.
      destruct Hx; [|done]. apply (N1 (iaddr i)); set_solver. }
    assert (forall h, headers loose h -> iaddr i ∉ with_list L h0 (l1 ++ l2) h) as Hfree.
    { intros h Hh1. destruct (decide (h = h0)) as [->|Hne]; [rewrite with_list_eq, Hl; by intros [_ ?]|]. rewrite with_list_ne by done.
      intros Hin1. apply Hne. by apply (r_disj _ _ _ _ R h h0 (iaddr i)); [|left| |]. }
    split.
    + by eapply rings_sub.
    + auto.
    + intros h x Hx. destruct (decide (h = h0)) as [->|Hne]; [by rewrite with_list_eq|]. rewrite with_list_ne by done.
      split; [|by intros [? _]]. intros Hx1. split; [done|]. intros ->. specialize (Hfree h (or_introl Hx)). by rewrite with_list_ne in Hfree.
    + intros j [_ Hj]%Hmark. rewrite with_list_ne; [by apply (ik_self _ _ _ _ Hok)|]. intros Ej. by apply (iaddr_not_head j); rewrite Ej.
Qed.
Lemma unchained_header q L loose i L1 : unchained q L loose i L1 -> ~ headers (mark i false loose) (iaddr i).
Proof. intros _ [Hh|(j&Hj&_&Ej)]; [by apply (iaddr_not_head i)|]. apply iaddr_inj in Ej as <-. by rewrite mark_same in Hj. Qed.
(** It is put on a chain, or linked to itself. *)
Lemma chain_in q L loose i L1 h :
  unchained q L loose i L1 -> is_head h ->
  exists q', insque q (iaddr i) h = Ok q' /\ rings (q_next q') (q_prev q') (headers (mark i false loose)) (with_list L1 h (iaddr i :: L1 h)).
Proof.
  intros U Hh. apply insque_ok; [apply U|by left|by eapply unchained_header|apply U].
Qed.
Lemma chain_self q L loose i L1 :
  unchained q L loose i L1 -> (i < NINODE)%nat ->
  let q' := set_q_prev (set_q_next q (iaddr i) (iaddr i)) (iaddr i) (iaddr i) in
  rings (q_next q') (q_prev q') (headers (mark i true loose)) (with_list L1 (iaddr i) []).
Proof.
  intros U Hi q'. eapply rings_self; [apply U|by eapply unchained_header|apply U|].
  intros h [?|(j&Hj&?&->)]; [left; by left|]. destruct (decide (j = i)) as [->|Hne]; [by right|]. left. right. exists j.
  split; [|done]. by rewrite mark_other in Hj |- *.
Qed.

(** An entry is linked to itself: it is found no more. *)
Lemma self_ok st L loose l i q L1 e e' :
  ic_ok st L loose l -> inodes st !! i = Some e -> remque (hash st) (iaddr i) = Ok q -> unchained q L loose i L1 ->
  e_count e' = e_count e ->
  ic_ok (self_link i (set_hash q (set_inodes_ (<[i := e']> (inodes st)) st))) (with_list L1 (iaddr i) []) (mark i true loose) l.
Proof.
  intros Hok Hi _ U Hc. pose proof (ik_bound _ _ _ _ _ _ Hok Hi) as Hb.
  assert (forall j x, <[i := e']> (inodes st) !! j = Some x -> mark i true loose j = false -> j <> i /\ loose j = false /\ inodes st !! j = Some x) as Hl.
  { intros j x Hj Hm. destruct (decide (j = i)) as [->|Hne]; [by rewrite mark_same in Hm|]. rewrite mark_other in Hm by done.
    by rewrite list_lookup_insert_ne in Hj. }
  assert (forall h, is_head h -> with_list L1 (iaddr i) [] h = L1 h) as Hw.
  { intros h Hh. apply with_list_ne. intros ->. by apply (iaddr_not_head i). }
  split; cbn [inodes hash freeq self_link set_hash set_inodes_].
  - rewrite length_insert. apply Hok.
  - by apply (chain_self q L loose i L1).
  - intros j Hj. destruct (decide (j = i)) as [->|Hne]; [by rewrite with_list_eq|]. rewrite with_list_ne by (by intros ?%iaddr_inj).
    apply U. by rewrite mark_other in Hj |- *.
  - intros h x Hh. rewrite Hw, (un_elem _ _ _ _ _ U h x Hh) by done. intros [Hx Hne]. destruct (ik_elem _ _ _ _ Hok h x Hh Hx) as (j&?&->&?).
    exists j. split_and!; [done|done|]. by rewrite mark_other by (by intros ->).
  - intros j x Hj Hm. destruct (Hl j x Hj Hm) as (Hne&Hlo&Hj'). rewrite Hw by apply INOHASH_head. apply (un_elem _ _ _ _ _ U); [apply INOHASH_head|].
    split; [by apply (ik_chain _ _ _ _ Hok)|by intros ?%iaddr_inj].
  - intros j k x x' Hj Hk Hmj Hmk. destruct (Hl j x Hj Hmj) as (_&?&?), (Hl k x' Hk Hmk) as (_&?&?). by apply (ik_one _ _ _ _ Hok).
  - apply Hok.
  - intros j. rewrite (ik_idle _ _ _ _ Hok). destruct (decide (j = i)) as [->|Hne]; [|by rewrite list_lookup_insert_ne].
    rewrite list_lookup_insert_eq by (by eapply lookup_lt_Some). split; intros (x&Hx&E); simplify_eq; eexists; (split; [done|congruence]).
  - intros j x [(->&->&_)|[_ Hj]]%list_lookup_insert_Some; [rewrite Hc; exact (ik_count _ _ _ _ Hok _ _ Hi)|by apply (ik_count _ _ _ _ Hok j)].
Qed.

(** The first entry of the free list goes to another chain. *)
Lemma chained_ok st L loose l i e e' q L1 q' :
  ic_ok st L loose (i :: l) -> inodes st !! i = Some e -> unchained q L loose i L1 ->
  (forall j x, inodes st !! j = Some x -> loose j = false -> here (e_dev e') (e_number e') x = false) ->
  let h := ihead (INOHASH (e_dev e') (e_number e')) in
  rings (q_next q') (q_prev q') (headers (mark i false loose)) (with_list L1 h (iaddr i :: L1 h)) ->
  0 < e_count e' < 4294967296 ->
  ic_ok (set_hash q' (set_freeq (unlink_head i (freeq st)) (set_inodes_ (<[i := e']> (inodes st)) st)))
    (with_list L1 h (iaddr i :: L1 h)) (mark i false loose) l.
Proof.
  intros Hok Hi U Hno h R' Hc. pose proof (ik_bound _ _ _ _ _ _ Hok Hi) as Hb. pose proof (INOHASH_head (e_dev e') (e_number e')) as Hh. fold h in Hh.
  assert (length (inodes st) = NINODE) as Hlen by apply Hok.
  assert (forall h' x, is_head h' -> x ∈ with_list L1 h (iaddr i :: L1 h) h' <-> h' = h /\ x = iaddr i \/ x ∈ L h' /\ x <> iaddr i) as Hw.
  { intros h' x Hh'. destruct (decide (h' = h)) as [->|Hne].
    - rewrite with_list_eq, elem_of_cons, (un_elem _ _ _ _ _ U h x Hh). naive_solver.
    - rewrite with_list_ne, (un_elem _ _ _ _ _ U h' x Hh') by done. naive_solver. }
  split; cbn [inodes hash freeq set_hash set_freeq set_inodes_].
  - by rewrite length_insert.
  - exact R'.
  - intros j Hj. rewrite with_list_ne; [by apply U|]. intros Ej. by apply (iaddr_not_head j); rewrite Ej.
  - intros h' x Hh'. rewrite Hw by done. intros [[-> ->]|[Hx Hne]]; [exists i; by rewrite mark_same|].
    destruct (ik_elem _ _ _ _ Hok h' x Hh' Hx) as (j&?&->&?). exists j. split_and!; [done|done|]. by rewrite mark_other by (by intros ->).
  - intros j x Hj Hm. apply Hw; [apply INOHASH_head|]. apply list_lookup_insert_Some in Hj as [(<-&<-&_)|[Hne Hj]]; [by left|].
    rewrite mark_other in Hm by done. right. split; [by apply (ik_chain _ _ _ _ Hok)|by intros ?%iaddr_inj].
  - assert (forall j x, j <> i -> inodes st !! j = Some x -> mark i false loose j = false -> e_dev e' = e_dev x -> e_number e' = e_number x -> False) as Hx.
    { intros j x Hne Hj Hm Ed En. rewrite mark_other in Hm by done. specialize (Hno j x Hj Hm). rewrite Ed, En in Hno.
      apply not_true_iff_false in Hno. apply Hno. by apply here_true. }
    intros j k x x' Hj Hk Hmj Hmk Ed En.
    apply list_lookup_insert_Some in Hj as [(<-&<-&_)|[Hnj Hj]], Hk as [(<-&<-&_)|[Hnk Hk]]; try done.
    + exfalso. eapply (Hx k); done.
    + exfalso. by eapply (Hx j); [..|symmetry|symmetry].
    + rewrite mark_other in Hmj, Hmk by done. by apply (ik_one _ _ _ _ Hok j k x x').
  - apply elems_unlink_head, Hok.
  - pose proof (el_nodup _ _ (ik_free _ _ _ _ Hok)) as [Nil _]%NoDup_cons.
    intros j. destruct (decide (j = i)) as [->|Hne].
    + rewrite list_lookup_insert_eq by lia. split; [done|]. intros (x&[= <-]&?). lia.
    + rewrite list_lookup_insert_ne by done. rewrite <- (ik_idle _ _ _ _ Hok). set_solver.
  - intros j x [(<-&<-&_)|[_ Hj]]%list_lookup_insert_Some; [lia|by apply (ik_count _ _ _ _ Hok j)].
Qed.

End Inv.

Lemma lookup_put (l : list ent) i e e' : l !! i = Some e -> <[i := e']> l !! i = Some e'.
Proof. intros Hi. apply list_lookup_insert_eq. by eapply lookup_lt_Some. Qed.
(** The next of several updates of one entry. *)
Ltac put_next Hi :=
  erewrite upd_ent_ok by (cbn [inodes set_inodes_ set_nextid set_bufs set_hash set_freeq]; eapply lookup_put; exact Hi);
  cbn [mbind ires_bind inodes set_inodes_ set_nextid set_bufs set_hash set_freeq]; rewrite ?list_insert_insert_eq.

Section Recycle.
Context {S : Type} `{BlockIO S}.
Implicit Types (st : icache S) (L : Z -> list Z) (loose : nat -> bool) (l : list nat).
Definition fresh (dev : Z) (k : nat) (ino : Z) (id : Z) (e : ent) : ent :=
  MkEnt (MkIncore (MkInode dev ILOCKED (i_addr (i_map (e_in e)))) ino (i_c (e_in e))) 1 id k.
Lemma recycle_ok st L loose l i e dev k ino :
  ic_ok st L loose (i :: l) -> inodes st !! i = Some e ->
  (forall j x, inodes st !! j = Some x -> loose j = false -> here dev ino x = false) ->
  exists st' L' id, recycle dev k ino i st = IOk st' /\ ic_ok st' L' (mark i false loose) l /\
    inodes st' = <[i := fresh dev k ino id e]> (inodes st) /\ mounts st' = mounts st /\ bufs st' = bufs st.
Proof.
  intros Hok Hi Hno. pose proof (ik_bound _ _ _ _ _ _ Hok Hi) as Hb.
  assert (e_count e = 0) as Hc.
  { destruct (proj1 (ik_idle _ _ _ _ Hok i) (list_elem_of_here _ _)) as (x&Hx&?). congruence. }
  destruct (remque_chain _ _ _ _ _ Hok Hb) as (q&L1&Eq&U).
  destruct (chain_in _ _ _ _ _ (ihead (INOHASH dev ino)) U (INOHASH_head dev ino)) as (q'&Eq'&R').
  unfold recycle, cacheinval. cbn [hash set_freeq]. rewrite Eq. cbn [of_res mbind ires_bind]. rewrite Eq'. cbn [of_res mbind ires_bind].
  rewrite (upd_ent_ok _ i e) by exact Hi. cbn [mbind ires_bind nextinodeid cinvals set_inodes_ set_hash set_freeq]. put_next Hi. put_next Hi. put_next Hi.
  cbn [e_count set_eflag set_in]. rewrite Hc. change (u32 (0 + 1)) with 1.
  set (id := u32 (nextinodeid st + 1)). eexists _, _, id. split; [done|].
  split; [|by split_and!].
  eapply ic_ok_same; [| | |eapply (chained_ok st L loose l i e (fresh dev k ino id e) q L1 q'); done]; done.
Qed.
End Recycle.

(** *** Start-up *)

Section Start.
Context {S : Type} `{BlockIO S}.
Implicit Types (st : icache S).

Definition self_linked (q : links) (h : Z) : Prop := q_next q !! h = Some h /\ q_prev q !! h = Some h.
Lemma self_linked_set q h k : k = h \/ self_linked q k -> self_linked (set_q_prev (set_q_next q h h) h h) k.
Proof.
  unfold self_linked. cbn. intros [->|[? ?]]; [by rewrite !lookup_insert_eq|].
  destruct (decide (k = h)) as [->|Hne]; [by rewrite !lookup_insert_eq|by rewrite !lookup_insert_ne].
Qed.
Lemma ihinit_heads_ok n q h : (exists k, INOHSZ - Z.of_nat n <= k < INOHSZ /\ h = ihead k) \/ self_linked q h -> self_linked (ihinit_heads n q) h.
Proof.
  revert q. induction n as [|n IH]; intros q; cbn [ihinit_heads]; [intros [(k&?&_)|Hh]; [lia|done]|].
  intros [(k&Hk&->)|Hh]; apply IH; [|right; apply self_linked_set; by right].
  destruct (decide (k = INOHSZ - Z.of_nat (Datatypes.S n))) as [->|Hne]; [right; apply self_linked_set; by left|]. left. exists k. split; [lia|done].
Qed.
(** The links and the free list after the inodes up to [ip]. *)
Record begun st st' (ip : nat) : Prop := {
  bg_self : forall h, is_head h \/ (exists i, (i <= ip)%nat /\ h = iaddr i) -> self_linked (hash st') h;
  bg_free : elems (wr_cell (Next ip) None (freeq st')) (seq 0 (Datatypes.S ip));
  bg_last : tq_last (freeq st') = Next ip;
  bg_same : inodes st' = inodes st /\ mounts st' = mounts st /\ bufs st' = bufs st }.
Lemma ihinit_inodes_ok n ip st st' : begun st st' ip ->
  let st'' := ihinit_inodes n ip st' in
  (forall h, is_head h \/ (exists i, (i <= ip + n)%nat /\ h = iaddr i) -> self_linked (hash st'') h) /\
  elems (freeq st'') (seq 0 (Datatypes.S (ip + n))) /\ inodes st'' = inodes st /\ mounts st'' = mounts st /\ bufs st'' = bufs st.
Proof.
  revert ip st'. induction n as [|n IH]; intros ip st' [B1 B2 B3 B4]; cbn [ihinit_inodes].
  { rewrite Nat.add_0_r. done. }
  cbv zeta. cbn [freeq self_link set_hash]. rewrite B3. replace (ip + Datatypes.S n)%nat with (Datatypes.S ip + n)%nat by lia. apply IH. split; cbn [hash freeq self_link set_hash set_freeq inodes mounts bufs].
  - intros h Hh. apply self_linked_set. destruct Hh as [Hh|(i&Hi&->)]; [right; apply B1; by left|].
    destruct (decide (i = Datatypes.S ip)) as [->|Hne]; [by left|]. right. apply B1. right. exists i. split; [lia|done].
  - rewrite seq_S. cbn [Nat.add]. pose proof (elems_append _ (Datatypes.S ip) _ B2) as E. rewrite elem_of_seq in E.
    specialize (E ltac:(lia)). pose proof (elems_head _ _ B2) as Hhd. cbn [seq hd_error] in Hhd. rewrite (append_late _ 0%nat) in E by done. exact E.
  - done.
  - done.
Qed.
Lemma ihinit_ok st : length (inodes st) = NINODE -> (forall i e, inodes st !! i = Some e -> e_count e = 0) ->
  ic_ok (ihinit st) (fun _ => []) (fun _ => true) (seq 0 NINODE) /\
  inodes (ihinit st) = inodes st /\ mounts (ihinit st) = mounts st /\ bufs (ihinit st) = bufs st.
Proof.
  intros Hlen Hz. unfold ihinit.
  match goal with |- context [ihinit_inodes _ 0%nat ?s] => destruct (ihinit_inodes_ok (NINODE - 1) 0 st s) as (A&B&C1&C2&C3) end.
  { split; cbn [hash freeq self_link set_hash set_freeq inodes mounts bufs]; try done.
    - intros h Hh. apply self_linked_set. destruct Hh as [(k&Hk&->)|(i&Hi&->)]; [|left; f_equal; lia].
      right. apply ihinit_heads_ok. left. exists k. split; [change (Z.of_nat (Z.to_nat INOHSZ)) with INOHSZ; lia|done].
    - split; [|by intros|by repeat constructor; set_solver]. cbn. by rewrite !lookup_partial_alter_eq. }
  revert A B C1 C2 C3. match goal with |- context [ihinit_inodes ?n 0%nat ?s] => generalize (ihinit_inodes n 0%nat s) end. intros st' A B C1 C2 C3.
  split; [|done]. split; rewrite ?C1; try done.
  - split; [|by intros ? ? ? ?%not_elem_of_nil|by intros ? ? ? ? ? ?%not_elem_of_nil].
    intros h Hh. split; [|apply NoDup_singleton]. destruct (A h) as [E1 E2]; [|by split].
    destruct Hh as [?|(i&_&Hi&->)]; [by left|]. right. exists i. split; [unfold NINODE in *; lia|done].
  - by intros h x _ ?%not_elem_of_nil.
  - intros i. rewrite elem_of_seq. split; [intros Hi|intros (e&Hi%lookup_lt_Some&_); lia].
    destruct (lookup_lt_is_Some_2 (inodes st) i) as [e He]; [lia|]. exists e. eauto.
  - intros i e Hi. rewrite (Hz i e Hi). lia.
Qed.
End Start.

(** ** The inodes on the disk *)

Section Disk.
Context {St : Type} `{BlockIO St} (used : Z -> Z -> Prop) `{!BlockIOSpec St used}.
Implicit Types (st : icache St) (s : St) (L : Z -> list Z) (loose : nat -> bool) (l : list nat).

Definition e_data (e : ent) : icommon * list Z := (i_c (e_in e), i_addr (i_map (e_in e))).
Definition disk_inode s (dev ino : Z) : icommon * list Z :=
  let dp := dinode_at ino (io_content s dev (itod ino)) in (load_icommon dp, load_addr dp).
Definition dirty (e : ent) : bool := flag_on (e_flag e) (IUPD + IACC + ICHG + IMOD).

(** The blocks of the i-lists of the mounted file systems hold 32-bit words. *)
Definition in_ilists (ms : list mount) (d b : Z) : Prop := exists m, m ∈ ms /\ m_dev m = d /\ 0 < b < fs_isize (m_filsys m).
Definition block_ok (d : list Z) : Prop := length d = BLKWORDS /\ Forall (fun x => 0 <= x < 4294967296) d.

(** What makes the cache transparent: an entry in a chain that is not marked
    as changed has the inode of the disk; one that nobody uses is not marked. *)
Record synced st loose : Prop := {
  sy_ok : io_ok (bufs st) [];
  sy_ilist : forall d b, in_ilists (mounts st) d b -> used d b /\ block_ok (io_content (bufs st) d b);
  sy_place : forall i e, inodes st !! i = Some e -> loose i = false ->
    (exists m, mounts st !! e_fs e = Some m /\ m_dev m = e_dev e /\ 0 < itod (e_number e) < fs_isize (m_filsys m)) /\ 0 < e_number e < 4294967281;
  sy_clean : forall i e, inodes st !! i = Some e -> loose i = false -> dirty e = false ->
    e_data e = disk_inode (bufs st) (e_dev e) (e_number e);
  sy_fits : forall i e, inodes st !! i = Some e -> loose i = false ->
    icommon_ok (i_c (e_in e)) /\ length (i_addr (i_map (e_in e))) = 7%nat /\ Forall in_s32 (i_addr (i_map (e_in e)));
  sy_idle : forall i e, inodes st !! i = Some e -> e_count e = 0 -> e_flag e = 0 }.

(** The inode [ino] of [dev] as the kernel sees it: the one in the table, or
    the one on the disk. *)
Definition cached st loose (d n : Z) (i : nat) (e : ent) : Prop :=
  inodes st !! i = Some e /\ loose i = false /\ e_dev e = d /\ e_number e = n.
Definition shows st loose (d n : Z) (x : icommon * list Z) : Prop :=
  (exists i e, cached st loose d n i e /\ x = e_data e) \/
  (forall i e, ~ cached st loose d n i e) /\ x = disk_inode (bufs st) d n.

(** An inode read from a block is one that fits its types. *)
Lemma div_65536 x : 0 <= x < 4294967296 -> 0 <= x / 65536 < 65536.
Proof. intros. split; [apply Z.div_pos; lia|apply Z.div_lt_upper_bound; lia]. Qed.
Lemma nth_word d i : Forall (fun x => 0 <= x < 4294967296) d -> 0 <= nth i d 0 < 4294967296.
Proof.
  intros Hd. destruct (nth_in_or_default i d 0) as [Hin|E]; [|rewrite E; lia]. rewrite Forall_forall in Hd. apply Hd. by apply list_elem_of_In.
Qed.
Lemma load_fits ino d : block_ok d ->
  icommon_ok (load_icommon (dinode_at ino d)) /\ length (load_addr (dinode_at ino d)) = 7%nat /\ Forall in_s32 (load_addr (dinode_at ino d)).
Proof.
  intros [Hl Hd]. set (dp := dinode_at ino d). pose proof (itoo_range ino) as Ho.
  assert (Forall (fun x => 0 <= x < 4294967296) dp) as Hw by (apply Forall_take, Forall_drop; done).
  assert (length dp = 16%nat) as Hlen.
  { unfold dp, dinode_at. rewrite length_take, length_drop, Hl. unfold DINODE_WORDS, BLKWORDS. lia. }
  split; [|split].
  - split; cbn [load_icommon ic_mode ic_nlink ic_uid ic_gid ic_size ic_flags ic_atime ic_mtime ic_ctime];
      first [apply s32_in | by apply nth_word | apply div_65536; by apply nth_word | apply Z.mod_pos_bound; lia].
  - unfold load_addr. rewrite length_map, length_take, length_drop, Hlen. done.
  - unfold load_addr. apply Forall_forall. intros x Hx. apply list_elem_of_In, in_map_iff in Hx as (y&<-&_). apply s32_in.
Qed.

Lemma disk_same s s' d n : io_content s' d (itod n) = io_content s d (itod n) -> disk_inode s' d n = disk_inode s d n.
Proof. intros E. unfold disk_inode. by rewrite E. Qed.
(** A change of the buffers that is not seen. *)
Lemma synced_same st loose s' :
  synced st loose -> io_ok s' [] -> (forall d b, used d b -> io_content s' d b = io_content (bufs st) d b) -> synced (set_bufs s' st) loose.
Proof.
  intros [H1 H2 H3 H4 H5 H6] Hok K. split; cbn [bufs inodes mounts set_bufs]; try done.
  - intros d b Hb. destruct (H2 d b Hb) as [Hu ?]. by rewrite K.
  - intros i e Hi Hlo Hd. rewrite (H4 i e Hi Hlo Hd). symmetry. apply disk_same, K.
    destruct (H3 i e Hi Hlo) as [(m&Hm&Ed&?) _]. apply H2. exists m. rewrite <- Ed. split_and!; [by eapply list_elem_of_lookup_2|done|lia..].
Qed.
Lemma shows_same st loose s' d n x :
  (forall d b, used d b -> io_content s' d b = io_content (bufs st) d b) -> used d (itod n) ->
  shows st loose d n x -> shows (set_bufs s' st) loose d n x.
Proof.
  intros K Hu [Hc|[Hn ->]]; [by left|]. right. split; [done|]. symmetry. by apply disk_same, K.
Qed.

Lemma lookup_put_other (l : list ent) i j e : j <> i -> <[i := e]> l !! j = l !! j.
Proof. intros. by apply list_lookup_insert_ne. Qed.

(** An entry nobody used is given to an inode that was not in the table, with
    what the disk has. *)
Definition loaded (dev : Z) (k : nat) (ino id : Z) s : ent :=
  MkEnt (MkIncore (MkInode dev ILOCKED (disk_inode s dev ino).2) ino (disk_inode s dev ino).1) 1 id k.
Lemma loaded_data dev k ino id s : e_data (loaded dev k ino id s) = disk_inode s dev ino.
Proof. done. Qed.
Section Load.
Context st st' loose (i : nat) (e0 : ent) (dev : Z) (k : nat) (ino id : Z) (m : mount).
Hypothesis Hs : synced st loose.
Hypothesis Hi : inodes st !! i = Some e0.
Hypothesis Hidle : e_count e0 = 0.
Hypothesis Hin : inodes st' = <[i := loaded dev k ino id (bufs st)]> (inodes st).
Hypothesis Hmo : mounts st' = mounts st.
Hypothesis Hok : io_ok (bufs st') [].
Hypothesis Hk : forall d b, used d b -> io_content (bufs st') d b = io_content (bufs st) d b.
Hypothesis Hm : mounts st !! k = Some m.
Hypothesis Hdev : m_dev m = dev.
Hypothesis Hino : 0 < itod ino < fs_isize (m_filsys m) /\ 0 < ino < 4294967281.
Hypothesis Hno : forall j x, ~ cached st loose dev ino j x.
Hypothesis Hone : forall d n a b x y, cached st loose d n a x -> cached st loose d n b y -> a = b.

Lemma load_used : used dev (itod ino).
Proof. apply (sy_ilist _ _ Hs). exists m. split_and!; [by eapply list_elem_of_lookup_2|done|apply Hino..]. Qed.
Lemma load_lookup j x : inodes st' !! j = Some x -> mark i false loose j = false ->
  j = i /\ x = loaded dev k ino id (bufs st) \/ j <> i /\ inodes st !! j = Some x /\ loose j = false.
Proof.
  rewrite Hin. intros Hj Hmk. destruct (decide (j = i)) as [->|Hne].
  - rewrite (lookup_put _ _ _ _ Hi) in Hj. injection Hj as <-. by left.
  - right. rewrite lookup_put_other in Hj by done. by rewrite mark_other in Hmk.
Qed.
Lemma load_synced : synced st' (mark i false loose).
Proof.
  pose proof load_used as Hu. split.
  - done.
  - rewrite Hmo. intros d b Hb. destruct (sy_ilist _ _ Hs d b Hb) as [? ?]. by rewrite Hk.
  - intros j x Hj Hmk. rewrite Hmo. destruct (load_lookup j x Hj Hmk) as [[-> ->]|(Hne&Hj'&Hlo)]; [|by apply (sy_place _ _ Hs j)].
    split; [exists m; by split_and!; try apply Hino|apply Hino].
  - intros j x Hj Hmk Hd. destruct (load_lookup j x Hj Hmk) as [[-> ->]|(Hne&Hj'&Hlo)].
    + rewrite loaded_data. symmetry. by apply disk_same, Hk.
    + rewrite (sy_clean _ _ Hs j x Hj' Hlo Hd). symmetry. apply disk_same, Hk. destruct (sy_place _ _ Hs j x Hj' Hlo) as [(m'&Hm'&Ed&?) _].
      apply (sy_ilist _ _ Hs). exists m'. rewrite <- Ed. split_and!; [by eapply list_elem_of_lookup_2|done|lia..].
  - intros j x Hj Hmk. destruct (load_lookup j x Hj Hmk) as [[-> ->]|(Hne&Hj'&Hlo)]; [|by apply (sy_fits _ _ Hs j)].
    apply load_fits. apply (sy_ilist _ _ Hs). exists m. split_and!; [by eapply list_elem_of_lookup_2|done|apply Hino..].
  - intros j x. rewrite Hin. intros [(<-&<-&_)|[_ Hj]]%list_lookup_insert_Some; [done|by apply (sy_idle _ _ Hs j)].
Qed.
Lemma load_shows d n x : used d (itod n) -> shows st loose d n x -> shows st' (mark i false loose) d n x.
Proof.
  intros Hu Hsh. pose proof load_used as Hu0. destruct (decide (d = dev /\ n = ino)) as [[-> ->]|Hne].
  - destruct Hsh as [(j&y&Hc&_)|[_ ->]]; [by destruct (Hno j y)|]. left. exists i, (loaded dev k ino id (bufs st)). split.
    + split_and!; try done; [rewrite Hin; by eapply lookup_put|by rewrite mark_same].
    + by rewrite loaded_data.
  - assert (forall j y, j <> i -> cached st loose d n j y <-> cached st' (mark i false loose) d n j y) as Hc.
    { intros j y Hj. unfold cached. by rewrite Hin, lookup_put_other, mark_other by done. }
    assert (forall y, ~ cached st' (mark i false loose) d n i y) as Hci.
    { intros y (Hy&_&Hd&Hn). rewrite Hin, (lookup_put _ _ _ _ Hi) in Hy. injection Hy as <-. apply Hne. done. }
    destruct Hsh as [(j&y&Hcy&->)|[Hn ->]].
    + destruct (decide (j = i)) as [->|Hji]; [|left; exists j, y; split; [by apply Hc|done]].
      right. pose proof Hcy as (Hy&Hlo&Hd&Hn). assert (y = e0) as -> by congruence. split.
      * intros j y Hcj. destruct (decide (j = i)) as [->|Hji]; [by apply (Hci y)|]. apply Hc in Hcj; [|done]. by apply Hji, (Hone d n j i y e0).
      * rewrite (disk_same (bufs st)) by (by apply Hk). rewrite (sy_clean _ _ Hs i e0 Hy Hlo); [by rewrite Hd, Hn|].
        unfold dirty. by rewrite (sy_idle _ _ Hs i e0 Hy Hidle).
    + right. split; [|symmetry; by apply disk_same, Hk]. intros j y Hcj. destruct (decide (j = i)) as [->|Hji]; [by apply (Hci y)|].
      by apply (Hn j y), Hc.
Qed.
End Load.

Lemma read_inode_ok now rab dev ino i e st L loose l k id e0 :
  ic_ok st L loose l -> io_ok (bufs st) [] -> used dev (itod ino) -> inodes st !! i = Some e -> e = fresh dev k ino id e0 ->
  exists s', read_inode now rab dev ino i st = IOk (set_inodes_ (<[i := loaded dev k ino id (bufs st)]> (inodes st)) (set_bufs s' st), Some i) /\
    ic_ok (set_inodes_ (<[i := loaded dev k ino id (bufs st)]> (inodes st)) (set_bufs s' st)) L loose l /\
    io_ok s' [] /\ forall d b, used d b -> io_content s' d b = io_content (bufs st) d b.
Proof.
  intros Hok Hio Hu Hi ->. unfold read_inode.
  destruct (io_bread_law (bufs st) [] dev (itod ino) Hio Hu) as (s1&bp&->&Hok1&_&Hda&K1); [apply not_elem_of_nil|simpl; unfold Bio.NBUF; lia|].
  cbn [of_opt mbind ires_bind]. destruct (io_clean_law s1 _ _ Hok1) as [Hb _]. cbn [h_bp] in Hb. rewrite Hb.
  rewrite (upd_ent_ok _ i (fresh dev k ino id e0)) by exact Hi. cbn [mbind ires_bind bufs set_inodes_ set_bufs].
  destruct (io_brelse_law s1 [] bp dev (itod ino) Hok1) as (s2&->&Hok2&K2). cbn [of_opt mbind ires_bind]. rewrite Hda.
  exists s2. split; [done|]. split; [|split; [done|]].
  - eapply ic_ok_same; [| | |eapply (ic_ok_upd st L loose l i _ (loaded dev k ino id (bufs st)) Hok Hi); done]; done.
  - intros d b Hub. transitivity (io_content s1 d b); [apply K2; auto|apply K1; auto].
Qed.

(** The cases of iget for an inode that is not mounted on. *)
Definition wanted (e : ent) : ent := set_eflag (flag_set (e_flag e) IWANT) e.
Lemma cached_one st L loose l d n a b x y : ic_ok st L loose l -> cached st loose d n a x -> cached st loose d n b y -> a = b.
Proof. intros Hok (?&?&?&?) (?&?&?&?). eapply (ik_one _ _ _ _ Hok a b x y); try done; congruence. Qed.
Lemma ifind_cached st L loose l dev ino : ic_ok st L loose l ->
  (exists i e, ifind dev ino st = IOk (Some i) /\ cached st loose dev ino i e) \/
  ifind dev ino st = IOk None /\ forall i e, ~ cached st loose dev ino i e.
Proof.
  intros Hok. destruct (ifind_ok st L loose l dev ino Hok) as ([i|]&->&Hr).
  - destruct Hr as (e&He&[Hd Hn]%here_true&Hlo). left. by exists i, e.
  - right. split; [done|]. intros i e (Hi&Hlo&Hd&Hn). assert (here dev ino e = true) as Hh by (by apply here_true).
    by rewrite (Hr i e Hi Hlo) in Hh.
Qed.

(** What iget does when the inode is in the table, or is not. *)
Inductive iget_out st L loose l (dev : Z) (k : nat) (ino : Z) : ires (icache St * option nat) -> Prop :=
  | GetLocked i e : cached st loose dev ino i e -> flag_on (e_flag e) ILOCKED = true ->
      iget_out st L loose l dev k ino (ISleep i (set_inodes_ (<[i := wanted e]> (inodes st)) st))
  | GetHit i e q l' : cached st loose dev ino i e -> flag_on (e_flag e) ILOCKED = false ->
      let st' := set_freeq q (set_inodes_ (<[i := locked (set_count (e_count e + 1) e)]> (inodes st)) st) in
      ic_ok st' L loose l' -> (forall j, j ∈ l' <-> j ∈ l /\ j <> i) ->
      iget_out st L loose l dev k ino (IOk (st', Some i))
  | GetFull : l = [] -> (forall i e, ~ cached st loose dev ino i e) ->
      iget_out st L loose l dev k ino (IOk (set_error ENFILE st, None))
  | GetLoad i l' L' id st' : l = i :: l' -> (forall j e, ~ cached st loose dev ino j e) ->
      ic_ok st' L' (mark i false loose) l' -> synced st' (mark i false loose) ->
      inodes st' = <[i := loaded dev k ino id (bufs st)]> (inodes st) -> mounts st' = mounts st ->
      (forall d n x, used d (itod n) -> shows st loose d n x -> shows st' (mark i false loose) d n x) ->
      iget_out st L loose l dev k ino (IOk (st', Some i)).

Lemma iget_loop_ok fuel now rab dev k ino st L loose l m :
  ic_ok st L loose l -> synced st loose -> mounts st !! k = Some m -> m_dev m = dev ->
  0 < itod ino < fs_isize (m_filsys m) /\ 0 < ino < 4294967281 ->
  (forall i e, cached st loose dev ino i e -> (flag_on (e_flag e) ILOCKED = false -> flag_on (e_flag e) IMOUNT = false) /\ e_count e < 4294967295) ->
  iget_out st L loose l dev k ino (iget_loop (Datatypes.S fuel) now rab dev k ino st).
Proof.
  intros Hok Hs Hm Hdev Hino Hnm. cbn [iget_loop].
  destruct (ifind_cached st L loose l dev ino Hok) as [(i&e&->&Hc)|[-> Hno]]; cbn [mbind ires_bind].
  - pose proof Hc as (Hi&_). rewrite (get_ent_ok _ _ _ Hi). cbn [mbind ires_bind]. destruct (Hnm i e Hc) as [Hmo Hcnt].
    destruct (flag_on (e_flag e) ILOCKED) eqn:El.
    + rewrite (upd_ent_ok _ _ _ _ Hi). cbn [mbind ires_bind]. by apply GetLocked.
    + rewrite Hmo by done. destruct (take_ref_ok st L loose l i e Hok Hi Hcnt) as (q&l'&->&Hok'&Hl). cbn [mbind ires_bind]. by eapply GetHit.
  - rewrite (elems_head _ _ (ik_free _ _ _ _ Hok)). destruct l as [|i l]; cbn [hd_error]; [by apply GetFull|].
    destruct (proj1 (ik_idle _ _ _ _ Hok i) (list_elem_of_here _ _)) as (e&Hi&Hc0). rewrite (get_ent_ok _ _ _ Hi). cbn [mbind ires_bind]. rewrite Hc0. cbn [Z.eqb negb].
    destruct (recycle_ok st L loose l i e dev k ino Hok Hi) as (st1&L'&id&->&Hok1&Hin1&Hmo1&Hb1).
    { intros j x Hj Hlo. destruct (here dev ino x) eqn:Eh; [|done]. apply here_true in Eh as [? ?]. by destruct (Hno j x). }
    cbn [mbind ires_bind]. assert (used dev (itod ino)) as Hu.
    { apply (sy_ilist _ _ Hs). exists m. split_and!; [by eapply list_elem_of_lookup_2|done|apply Hino..]. }
    destruct (read_inode_ok now rab dev ino i (fresh dev k ino id e) st1 L' (mark i false loose) l k id e) as (s'&->&Hok2&Hio&K);
      [done|rewrite Hb1; apply Hs|done|rewrite Hin1; by eapply lookup_put|done|]. rewrite Hb1 in *.
    set (st' := set_inodes_ _ (set_bufs s' st1)) in *.
    assert (inodes st' = <[i := loaded dev k ino id (bufs st)]> (inodes st)) as Hin'
      by (unfold st'; cbn [inodes set_inodes_]; by rewrite Hin1, list_insert_insert_eq).
    apply (GetLoad _ _ _ _ _ _ _ i l L' id st'); try done.
    + by eapply (load_synced st st' loose i e dev k ino id m); try done.
    + intros d n x Hud Hsh. eapply (load_shows st st' loose i e dev k ino id m); try done. intros d' n' a b x' y' Ha Hb. exact (cached_one _ _ _ _ _ _ _ _ _ _ Hok Ha Hb).
Qed.

(** An entry whose flags or count change in a way that hides nothing. *)
Lemma synced_entry st loose i e e' :
  synced st loose -> inodes st !! i = Some e -> e_dev e' = e_dev e -> e_number e' = e_number e -> e_fs e' = e_fs e -> e_data e' = e_data e ->
  dirty e' = dirty e -> (e_count e' = 0 -> e_flag e' = 0) ->
  synced (set_inodes_ (<[i := e']> (inodes st)) st) loose /\
  forall d n x, shows st loose d n x -> shows (set_inodes_ (<[i := e']> (inodes st)) st) loose d n x.
Proof.
  intros [H1 H2 H3 H4 H5 H6] Hi Ed En Ef Ex Edi Hfl.
  assert (forall j x, <[i := e']> (inodes st) !! j = Some x -> exists y, inodes st !! j = Some y /\ e_dev x = e_dev y /\
    e_number x = e_number y /\ e_fs x = e_fs y /\ e_data x = e_data y /\ dirty x = dirty y) as Hl.
  { intros j x [(<-&<-&_)|[_ Hj]]%list_lookup_insert_Some; [by exists e|by exists x]. }
  split; [split; cbn [bufs inodes mounts set_inodes_]; try done|].
  - intros j x (y&Hj&->&->&->&_&_)%Hl. by apply H3.
  - intros j x (y&Hj&->&->&_&->&->)%Hl. by apply H4.
  - intros j x (y&Hj&_&_&_&Ey&_)%Hl Hlo. destruct (H5 j y Hj Hlo) as (A&B&C). injection Ey as E1 E2. by rewrite E1, E2.
  - intros j x [(<-&<-&_)|[_ Hj]]%list_lookup_insert_Some; [done|by apply (H6 j)].
  - intros d n x [(j&y&(Hj&Hlo&Hd&Hn)&->)|[Hno ->]].
    + left. destruct (decide (j = i)) as [->|Hne].
      * assert (y = e) as -> by congruence. exists i, e'. split; [|done]. split_and!; [by eapply lookup_put|done|congruence|congruence].
      * exists j, y. split; [|done]. split_and!; try done. cbn. by rewrite lookup_put_other.
    + right. split; [|done]. intros j y ((z&Hj&Ez1&Ez2&_)%Hl&Hlo&Hd&Hn). apply (Hno j z). split_and!; congruence.
Qed.
Lemma shows_ext st st' loose d n x :
  inodes st' = inodes st -> bufs st' = bufs st -> shows st loose d n x -> shows st' loose d n x.
Proof. intros E1 E2. unfold shows, cached. by rewrite E1, E2. Qed.
Lemma synced_ext st st' loose : inodes st' = inodes st -> bufs st' = bufs st -> mounts st' = mounts st -> synced st loose -> synced st' loose.
Proof. intros E1 E2 E3 [H1 H2 H3 H4 H5 H6]. split; rewrite ?E1, ?E2, ?E3; done. Qed.
Lemma dirty_set e w : Z.land w (IUPD + IACC + ICHG + IMOD) = 0 -> dirty (set_eflag (flag_set (e_flag e) w) e) = dirty e.
Proof. intros Hw. apply (flag_on_set_other (e_flag e) w (IUPD + IACC + ICHG + IMOD) Hw). Qed.

(** The state after an operation, or at its sleep. *)
Definition result_state {A} (r : ires (icache St * A)) (st' : icache St) : Prop :=
  match r with IOk (s, _) => st' = s | ISleep _ s => st' = s | _ => False end.
(** The table is well formed and every inode is seen as before. *)
Definition transparent st loose st' : Prop := exists L' loose' l', ic_ok st' L' loose' l' /\ synced st' loose' /\
  forall d n x, used d (itod n) -> shows st loose d n x -> shows st' loose' d n x.
Lemma iget_out_transparent st L loose l dev k ino r st' :
  ic_ok st L loose l -> synced st loose -> (forall i e, cached st loose dev ino i e -> 0 <= e_count e) ->
  iget_out st L loose l dev k ino r -> result_state r st' -> transparent st loose st'.
Proof.
  intros Hok Hs Hcn Hr Hst. destruct Hr as [i e (Hi&Hlo&Hd&Hn) Hlk|i e q l' Hc Hlk st1 Hok1 Hl'|Hl Hno|i l' L' id st1 Hl Hno Hok1 Hs1 Hin Hmo Hsh];
    cbn [result_state] in Hst; subst st'.
  - destruct (synced_entry st loose i e (wanted e) Hs Hi) as [Hs' Hx]; try done.
    { by apply dirty_set. }
    { intros Hz. by rewrite (sy_idle _ _ Hs i e Hi Hz) in Hlk. }
    exists L, loose, l. split; [by eapply ic_ok_upd|]. split; [done|]. auto.
  - pose proof Hc as (Hi&Hlo&Hd&Hn). specialize (Hcn i e Hc).
    destruct (synced_entry st loose i e (locked (set_count (e_count e + 1) e)) Hs Hi) as [Hs' Hx]; try done.
    { by apply (dirty_set (set_count (e_count e + 1) e)). }
    { cbn. lia. }
    exists L, loose, l'. split; [done|]. split; [by eapply synced_ext; [..|exact Hs']|]. intros d n x _ Hsh. eapply shows_ext; [..|by apply Hx]; done.
  - exists L, loose, l. split; [by eapply ic_ok_same; [..|exact Hok]|]. split; [by eapply synced_ext; [..|exact Hs]|].
    intros d n x _ Hsh. by eapply shows_ext; [..|exact Hsh].
  - exists L', (mark i false loose), l'. done.
Qed.

(** Where iget ends for an inode: there, or at the root of the file system
    mounted on it. *)
Inductive leads_to st loose (dev : Z) (k : nat) (ino : Z) : Z -> nat -> Z -> Prop :=
  | LeadsHere : (forall i e, cached st loose dev ino i e -> flag_on (e_flag e) ILOCKED = false -> flag_on (e_flag e) IMOUNT = false) ->
      leads_to st loose dev k ino dev k ino
  | LeadsMounted i e k' m : cached st loose dev ino i e -> flag_on (e_flag e) ILOCKED = false -> flag_on (e_flag e) IMOUNT = true ->
      find_mount (mounts st) 0 i = Some (k', m) -> leads_to st loose dev k ino (m_dev m) k' ROOTINO.

(** (C8) iget.  An inode that is in the table is found: if it is locked the
    caller marks it wanted and sleeps; if not, the same entry gets one more
    reference and the lock, and leaves the free list.  One that is not in the
    table gets the entry that was longest on the free list, filled from the
    disk, and when no entry is free the error is ENFILE.  A mounted-on inode
    stands for the root of what is mounted there.  There is never a panic, no
    inode is in the table twice, and no inode is seen differently after the
    call, in the table or on the disk. *)
Theorem iget_spec now rab dev k ino st L loose l dev' k' ino' m :
  ic_ok st L loose l -> synced st loose -> leads_to st loose dev k ino dev' k' ino' ->
  mounts st !! k' = Some m -> m_dev m = dev' -> 0 < itod ino' < fs_isize (m_filsys m) -> 0 < ino' < 4294967281 ->
  (forall d i e, cached st loose d ROOTINO i e -> flag_on (e_flag e) IMOUNT = false) ->
  (forall i e, inodes st !! i = Some e -> e_count e < 4294967295) ->
  let r := iget now rab dev k ino st in
  iget_out st L loose l dev' k' ino' r /\ forall st', result_state r st' -> transparent st loose st'.
Proof.
  intros Hok Hs Hlead Hm Hdev Hit Hino Hroot Hcnt r.
  assert (forall fuel, (forall i e, cached st loose dev' ino' i e -> flag_on (e_flag e) ILOCKED = false -> flag_on (e_flag e) IMOUNT = false) ->
    iget_out st L loose l dev' k' ino' (iget_loop (Datatypes.S fuel) now rab dev' k' ino' st)) as Hget.
  { intros fuel Hnm. apply (iget_loop_ok fuel now rab dev' k' ino' st L loose l m); try done. intros i e Hc. split; [by apply (Hnm i)|].
    destruct Hc as (Hi&_). by eapply Hcnt. }
  assert (iget_out st L loose l dev' k' ino' r) as Hr.
  { destruct Hlead as [Hnm|i e k' m' Hc Hlk Hmo Hf]; [by apply Hget|]. unfold r, iget.
    assert (iget_loop 3 now rab dev k ino st = iget_loop 2 now rab (m_dev m') k' ROOTINO st) as ->.
    { cbn [iget_loop]. destruct (ifind_cached st L loose l dev ino Hok) as [(j&x&->&Hx)|[_ Hno]]; [|by destruct (Hno i e)].
      pose proof (cached_one _ _ _ _ _ _ _ _ _ _ Hok Hc Hx) as <-. destruct Hc as (Hi&_). cbn [mbind ires_bind].
      rewrite (get_ent_ok _ _ _ Hi). cbn [mbind ires_bind]. by rewrite Hlk, Hmo, Hf. }
    apply Hget. intros j x Hx _. by apply (Hroot (m_dev m') j). }
  split; [done|]. intros st' Hst. eapply iget_out_transparent; try done. intros i e (Hi&_). by apply (ik_count _ _ _ _ Hok i).
Qed.

(** *** Writing an inode *)

(** Two inodes are at two places. *)
Lemma inode_place n n' : 0 < n < 4294967281 -> 0 < n' < 4294967281 -> itod n = itod n' -> itoo n = itoo n' -> n = n'.
Proof.
  intros Hn Hn'. unfold itod, itoo, INOPB. rewrite (u32_small n), (u32_small n'), !u32_small by lia. intros H1 H2.
  pose proof (Z.div_mod (n + 16 - 1) 16 ltac:(lia)). pose proof (Z.div_mod (n' + 16 - 1) 16 ltac:(lia)). lia.
Qed.
(** The inode [n] of [dev] was written to the disk as [x], and nothing else of
    the i-lists has changed. *)
Record inode_put (ms : list mount) s s' (dev n : Z) (x : icommon * list Z) : Prop := {
  ip_ok : io_ok s' [];
  ip_block : forall d b, in_ilists ms d b -> block_ok (io_content s d b) -> block_ok (io_content s' d b);
  ip_self : disk_inode s' dev n = x;
  ip_other : forall d' n', in_ilists ms d' (itod n') -> 0 < n' < 4294967281 -> (d', n') <> (dev, n) -> disk_inode s' d' n' = disk_inode s d' n' }.
Lemma inode_put_trans ms s s1 s2 dev n x y : inode_put ms s s1 dev n x -> inode_put ms s1 s2 dev n y -> inode_put ms s s2 dev n y.
Proof.
  intros [A1 A2 A3 A4] [B1 B2 B3 B4]. split; [done|auto|done|]. intros d' n' H1 H2 H3. rewrite B4, A4; auto.
Qed.
Lemma words_ok m c dp : Forall (fun x => 0 <= x < 4294967296) dp -> Forall (fun x => 0 <= x < 4294967296) (dinode_words m c dp).
Proof.
  intros Hd. assert (forall z, 0 <= u32 z < 4294967296) as Hu by (intros z; apply Z.mod_pos_bound; lia).
  assert (forall z, 0 <= u16 z < 65536) as Hh by (intros z; apply Z.mod_pos_bound; lia).
  unfold dinode_words. apply Forall_app. split; [repeat (constructor; [apply Hu || (pose proof (Hh (ic_mode c)); pose proof (Hh (ic_nlink c)); lia)|]); constructor|].
  apply Forall_app. split; [apply Forall_forall; intros x Hx; apply list_elem_of_In, in_map_iff in Hx as (y&<-&_); apply Hu|].
  constructor; [by apply nth_word|]. repeat (constructor; [apply Hu|]). constructor.
Qed.
Lemma store_block_ok n m c d : length (i_addr m) = 7%nat -> block_ok d -> block_ok (store_dinode n m c d).
Proof.
  intros Hl [Hd Hw]. split; [by apply store_dinode_length|]. unfold store_dinode. apply Forall_app. split; [by apply Forall_take|].
  apply Forall_app. split; [|by apply Forall_drop]. apply words_ok. by apply Forall_take, Forall_drop.
Qed.
Lemma put_inode ms s s' dev n m c :
  io_ok s' [] -> in_ilists ms dev (itod n) -> (forall d b, in_ilists ms d b -> block_ok (io_content s d b)) -> 0 < n < 4294967281 ->
  icommon_ok c -> length (i_addr m) = 7%nat -> Forall in_s32 (i_addr m) ->
  io_content s' dev (itod n) = store_dinode n m c (io_content s dev (itod n)) ->
  (forall d b, in_ilists ms d b -> (d, b) <> (dev, itod n) -> io_content s' d b = io_content s d b) ->
  inode_put ms s s' dev n (c, i_addr m).
Proof.
  intros Hok Hil Hbl Hn Hc Hl Ha Hst Hoth. pose proof (Hbl _ _ Hil) as [Hlen _]. split.
  - done.
  - intros d b Hb Hbo. destruct (decide ((d, b) = (dev, itod n))) as [[= -> ->]|Hne]; [rewrite Hst; by apply store_block_ok|by rewrite Hoth].
  - unfold disk_inode. rewrite Hst, store_dinode_at by done. by destruct (load_dinode m c (dinode_at n (io_content s dev (itod n))) Hl Ha Hc) as [-> ->].
  - intros d' n' Hb Hn' Hne. destruct (decide ((d', itod n') = (dev, itod n))) as [[= -> Hbn]|Hneb]; [|by apply disk_same, Hoth].
    unfold disk_inode. rewrite Hbn, Hst. rewrite store_dinode_other; try done. intros Ho. apply Hne. f_equal. by apply inode_place.
Qed.

(** An entry and its inode on the disk change together. *)
Lemma synced_put st loose i e e' s' :
  synced st loose -> inodes st !! i = Some e -> loose i = false -> e_dev e' = e_dev e -> e_number e' = e_number e -> e_fs e' = e_fs e ->
  icommon_ok (i_c (e_in e')) /\ length (i_addr (i_map (e_in e'))) = 7%nat /\ Forall in_s32 (i_addr (i_map (e_in e'))) ->
  (e_count e' = 0 -> e_flag e' = 0) -> (forall j y, cached st loose (e_dev e) (e_number e) j y -> j = i) ->
  inode_put (mounts st) (bufs st) s' (e_dev e) (e_number e) (e_data e') ->
  synced (set_bufs s' (set_inodes_ (<[i := e']> (inodes st)) st)) loose /\
  (forall d n x, in_ilists (mounts st) d (itod n) -> 0 < n < 4294967281 -> (d, n) <> (e_dev e, e_number e) ->
     shows st loose d n x -> shows (set_bufs s' (set_inodes_ (<[i := e']> (inodes st)) st)) loose d n x) /\
  shows (set_bufs s' (set_inodes_ (<[i := e']> (inodes st)) st)) loose (e_dev e) (e_number e) (e_data e').
Proof.
  intros [H1 H2 H3 H4 H5 H6] Hi Hlo Ed En Ef Hfit Hfl Huni [P1 P2 P3 P4].
  assert (forall j x, <[i := e']> (inodes st) !! j = Some x -> j = i /\ x = e' \/ j <> i /\ inodes st !! j = Some x) as Hl.
  { intros j x [(<-&<-&_)|[? Hj]]%list_lookup_insert_Some; [by left|by right]. }
  assert (forall j x, inodes st !! j = Some x -> loose j = false -> in_ilists (mounts st) (e_dev x) (itod (e_number x))) as Hpl.
  { intros j x Hj Hlj. destruct (H3 j x Hj Hlj) as [(m&Hm&Edm&?) _]. exists m. rewrite <- Edm.
    split_and!; [by eapply list_elem_of_lookup_2|done|lia..]. }
  split; [split; cbn [bufs inodes mounts set_inodes_ set_bufs]|split].
  - done.
  - intros d b Hb. destruct (H2 d b Hb) as [? ?]. auto.
  - intros j x [[-> ->]|[Hne Hj]]%Hl Hlj; [rewrite Ed, En, Ef|]; by eapply H3.
  - intros j x [[-> ->]|[Hne Hj]]%Hl Hlj Hd; [by rewrite Ed, En, P3|]. rewrite (H4 j x Hj Hlj Hd). symmetry.
    apply P4; [by eapply Hpl|by apply (H3 j x)|]. intros [= E1 E2]. apply Hne. by eapply Huni.
  - intros j x [[-> ->]|[Hne Hj]]%Hl Hlj; [done|by apply (H5 j x)].
  - intros j x [[-> ->]|[Hne Hj]]%Hl; [done|by apply (H6 j x)].
  - intros d n x Hil Hn Hne [(j&y&(Hj&Hlj&Hd&Hnn)&->)|[Hno ->]].
    + assert (j <> i) as Hji by (intros ->; apply Hne; congruence). left. exists j, y. split; [|done]. split_and!; try done.
      cbn. by rewrite lookup_put_other.
    + right. split; [|symmetry; by apply P4]. intros j y ([[-> ->]|[Hji Hj]]%Hl&Hlj&Hd&Hnn); [apply Hne; congruence|by apply (Hno j y)].
  - left. exists i, e'. split; [|done]. split_and!; [by eapply lookup_put|done|done|done].
Qed.

(** *** Giving up a reference *)

(** Only the times differ. *)
Definition same_but_times (x y : icommon * list Z) : Prop :=
  y.2 = x.2 /\ ic_mode y.1 = ic_mode x.1 /\ ic_nlink y.1 = ic_nlink x.1 /\ ic_uid y.1 = ic_uid x.1 /\ ic_gid y.1 = ic_gid x.1 /\
  ic_size y.1 = ic_size x.1 /\ ic_flags y.1 = ic_flags x.1.
Definition i_data (ip : incore) : icommon * list Z := (i_c ip, i_addr (i_map ip)).
Definition fits (ip : incore) : Prop := icommon_ok (i_c ip) /\ length (i_addr (i_map ip)) = 7%nat /\ Forall in_s32 (i_addr (i_map ip)).
(** [ip'] is [ip] with other times and flags. *)
Record retimed (ip ip' : incore) : Prop := {
  rt_dev : i_dev (i_map ip') = i_dev (i_map ip);
  rt_number : i_number ip' = i_number ip;
  rt_data : same_but_times (i_data ip) (i_data ip');
  rt_want : forall w, Z.land (IUPD + IACC + ICHG + IMOD) w = 0 -> iflag_on ip' w = iflag_on ip w;
  rt_fits : fits ip -> fits ip' }.
Lemma land_sub_0 a b w : Z.land a b = b -> Z.land a w = 0 -> Z.land b w = 0.
Proof. intros <- Hw. by rewrite (Z.land_comm a b), <- Z.land_assoc, Hw, Z.land_0_r. Qed.
Lemma retimed_flag ip v : (forall w, Z.land (IUPD + IACC + ICHG + IMOD) w = 0 -> flag_on v w = iflag_on ip w) -> retimed ip (set_map (set_flag v (i_map ip)) ip).
Proof. by split. Qed.
Lemma retimed_trans a b c : retimed a b -> retimed b c -> retimed a c.
Proof.
  intros [A1 A2 (A3&A4&A5&A6&A7&A8&A9) AW A0] [B1 B2 (B3&B4&B5&B6&B7&B8&B9) BW B0]. split; [congruence|congruence| |intros w Hw; by rewrite BW, AW|auto].
  unfold same_but_times. split_and!; congruence.
Qed.
Lemma set_times_ok c now : in_s32 now -> icommon_ok c -> icommon_ok (set_atime now c) /\ icommon_ok (set_mtime now c) /\ icommon_ok (set_ctime now c).
Proof. intros Hn []. by split_and!; split. Qed.
Lemma retimed_times now ip g : in_s32 now -> (g = set_atime now \/ g = set_mtime now \/ g = set_ctime now) -> retimed ip (set_c (g (i_c ip)) ip).
Proof.
  intros Hn Hg. split; [done|done|by destruct Hg as [->|[->| ->]]|done|]. intros (H1&H2&H3). destruct (set_times_ok _ _ Hn H1) as (?&?&?).
  by destruct Hg as [->|[->| ->]].
Qed.
Lemma retimed_refl ip : retimed ip ip.
Proof. by split. Qed.
Lemma retimed_cond (b : bool) ip0 ip ip' : retimed ip0 ip -> retimed ip ip' -> retimed ip0 (if b then ip' else ip).
Proof. intros. destruct b; [by eapply retimed_trans|done]. Qed.
Lemma retimed_step now ip0 ip (b : bool) g : in_s32 now -> (g = set_atime now \/ g = set_mtime now \/ g = set_ctime now) ->
  retimed ip0 ip -> retimed ip0 (if b then set_c (g (i_c ip)) ip else ip).
Proof. intros Hn Hg Hr. apply retimed_cond; [done|]. by apply (retimed_times now). Qed.
Lemma touched_retimed ip now : in_s32 now -> retimed ip (touched ip now).
Proof.
  intros Hn. unfold touched. eapply retimed_trans; [|apply retimed_flag; intros w Hw; by apply flag_on_clr_other, (land_sub_0 (IUPD + IACC + ICHG + IMOD))].
  apply (retimed_step now ip _ _ (set_ctime now)); [done|auto|]. apply (retimed_step now ip _ _ (set_mtime now)); [done|auto|].
  apply (retimed_step now ip _ _ (set_atime now)); [done|auto|]. apply retimed_refl.
Qed.
Lemma itimes_retimed ip now : in_s32 now -> retimed ip (itimes now ip).
Proof.
  intros Hn. unfold itimes. destruct (iflag_on ip _); [|apply retimed_refl]. eapply retimed_trans; [|apply retimed_flag; intros w Hw; by apply flag_on_clr_other, (land_sub_0 (IUPD + IACC + ICHG + IMOD))].
  apply (retimed_step now ip _ _ (set_ctime now)); [done|auto|]. apply (retimed_step now ip _ _ (set_mtime now)); [done|auto|].
  apply (retimed_step now ip _ _ (set_atime now)); [done|auto|]. apply retimed_flag.
  intros w Hw. by apply flag_on_set_other, (land_sub_0 (IUPD + IACC + ICHG + IMOD)).
Qed.

(** iupdat on the inode of an entry. *)
Lemma updat_put ms m now ip s :
  io_ok s [] -> (forall d b, in_ilists ms d b -> used d b /\ block_ok (io_content s d b)) -> m ∈ ms -> m_dev m = i_dev (i_map ip) ->
  0 < itod (i_number ip) < fs_isize (m_filsys m) -> 0 < i_number ip < 4294967281 -> fs_ronly (m_filsys m) = 0 -> in_s32 now -> fits ip ->
  (iflag_on ip (IUPD + IACC + ICHG + IMOD) = false -> i_data ip = disk_inode s (i_dev (i_map ip)) (i_number ip)) ->
  exists ip' s', iupdat now now now false ip (m_filsys m) s = Some (ip', s') /\ retimed ip ip' /\
    inode_put ms s s' (i_dev (i_map ip)) (i_number ip) (i_data ip').
Proof.
  intros Hok Hbl Hm Hd Hit Hn Hr Hnow Hf Hcl. assert (in_ilists ms (i_dev (i_map ip)) (itod (i_number ip))) as Hil by (exists m; split_and!; [done|done|lia..]).
  destruct (iflag_on ip (IUPD + IACC + ICHG + IMOD)) eqn:Ed.
  - destruct (iupdat_ok used (i_dev (i_map ip)) now false ip (m_filsys m) s []) as (s'&E&Hok'&C&K); try done;
      [by apply Hbl|apply not_elem_of_nil|simpl; unfold Bio.NBUF; lia|].
    exists (touched ip now), s'. split; [done|]. pose proof (touched_retimed ip now Hnow) as Hrt. split; [done|].
    destruct (rt_fits _ _ Hrt Hf) as (F1&F2&F3). apply (put_inode ms s s' _ _ (i_map (touched ip now)) (i_c (touched ip now))); try done.
    + intros d b Hb. by apply Hbl.
    + intros d b Hb Hne. apply K; [by apply Hbl|done].
  - unfold iupdat. rewrite Ed. cbn [negb]. exists ip, s. split; [done|]. split; [apply retimed_refl|]. split; try done. symmetry. auto.
Qed.

(** The table after an entry was changed: everything else as it was. *)
Definition changed st (i : nat) (e' : ent) (s' : St) (q : tailq) (ws : list nat) : icache St :=
  MkIc (<[i := e']> (inodes st)) (hash st) q (nextinodeid st) (cinvals st) (mounts st) (u_error st) ws s'.
Definition unlocked (e : ent) : ent :=
  set_eflag (let f := flag_clr (e_flag e) ILOCKED in if flag_on f IWANT then flag_clr f IWANT else f) e.
Definition woken (i : nat) (e : ent) : list nat := if flag_on (e_flag e) IWANT then [i] else [].
Lemma unlocked_open e : flag_on (e_flag (unlocked e)) ILOCKED = false /\ flag_on (e_flag (unlocked e)) IWANT = false /\ dirty (unlocked e) = dirty e.
Proof.
  assert (forall f w n, Z.land IWANT n = 0 -> flag_on f n = w -> flag_on (if flag_on f IWANT then flag_clr f IWANT else f) n = w) as Hw.
  { intros f w n Hn Hf. destruct (flag_on f IWANT); [by rewrite flag_on_clr_other|done]. }
  split; [apply Hw; [done|apply flag_on_clr_same]|]. split.
  - cbn. destruct (flag_on (flag_clr (e_flag e) ILOCKED) IWANT) eqn:E; [apply flag_on_clr_same|done].
  - apply (Hw (flag_clr (e_flag e) ILOCKED)); [done|]. by apply flag_on_clr_other.
Qed.
Lemma iunlock_ok st i e : inodes st !! i = Some e ->
  iunlock i st = IOk (changed st i (unlocked e) (bufs st) (freeq st) (wakes st ++ woken i e)).
Proof.
  intros Hi. unfold iunlock. rewrite (upd_ent_ok _ _ e) by done. cbn [mbind ires_bind].
  erewrite get_ent_ok by (cbn; by eapply lookup_put). cbn [mbind ires_bind].
  assert (forall v, e_flag (set_eflag v e) = v) as -> by done. unfold unlocked, woken.
  rewrite (flag_on_clr_other (e_flag e) ILOCKED IWANT) by done. cbv zeta. destruct (flag_on (e_flag e) IWANT) eqn:Ew.
  - put_next Hi. done.
  - by rewrite app_nil_r.
Qed.

(** The last reference to an inode that has links. *)
Lemma irele_last_ok now rab st L loose l i e :
  ic_ok st L loose l -> synced st loose -> inodes st !! i = Some e -> loose i = false -> in_s32 now -> e_count e = 1 -> 0 < ic_nlink (i_c (e_in e)) ->
  (forall m, mounts st !! e_fs e = Some m -> fs_ronly (m_filsys m) = 0) ->
  exists e' s', irele_last now rab i st = IOk (changed st i e' s' (append i (freeq st)) (wakes st ++ woken i e)) /\
    e_count e' = 1 /\ e_id e' = e_id e /\ e_fs e' = e_fs e /\ e_flag e' = 0 /\ e_dev e' = e_dev e /\ e_number e' = e_number e /\
    same_but_times (e_data e) (e_data e') /\ fits (e_in e') /\ inode_put (mounts st) (bufs st) s' (e_dev e) (e_number e) (e_data e').
Proof.
  intros Hok Hs Hi Hlo Hnow Hc Hnl Hro. destruct (sy_place _ _ Hs i e Hi Hlo) as [(m&Hm&Hdm&Hit) Hn]. specialize (Hro m Hm).
  unfold irele_last. rewrite (upd_ent_ok _ _ e) by done. cbn [mbind ires_bind]. fold (locked e).
  erewrite get_ent_ok by (cbn; by eapply lookup_put). cbn [mbind ires_bind]. unfold get_mount, rd.
  assert (mounts (set_inodes_ (<[i := locked e]> (inodes st)) st) !! e_fs (locked e) = Some m) as -> by done. cbn [of_res mbind ires_bind].
  rewrite (proj2 (Z.leb_gt (ic_nlink (i_c (e_in (locked e)))) 0)) by done. cbn [andb mbind ires_bind].
  erewrite get_ent_ok by (cbn; by eapply lookup_put). cbn [mbind ires_bind mounts set_inodes_].
  assert (mounts st !! e_fs (locked e) = Some m) as -> by done. cbn [of_res mbind ires_bind].
  destruct (updat_put (mounts st) m now (e_in (locked e)) (bufs st)) as (ip&s'&E&Hr&Hput); try done.
  { apply Hs. }
  { apply (sy_ilist _ _ Hs). }
  { by eapply list_elem_of_lookup_2. }
  { apply (sy_fits _ _ Hs i e Hi Hlo). }
  { intros Hd. apply (sy_clean _ _ Hs i e Hi Hlo). rewrite <- Hd. symmetry. by apply dirty_set. }
  cbn [bufs set_inodes_]. rewrite E. cbn [of_opt mbind ires_bind]. put_next Hi.
  rewrite (iunlock_ok _ _ (set_in ip (locked e))) by (cbn; by eapply lookup_put). cbn [mbind ires_bind].
  erewrite upd_ent_ok by (cbn; eapply lookup_put, lookup_put; exact Hi). cbn [mbind ires_bind].
  assert (woken i (set_in ip (locked e)) = woken i e) as Hwk.
  { unfold woken, e_flag. cbn [e_in set_in]. fold (iflag_on ip IWANT). rewrite (rt_want _ _ Hr) by done.
    assert (iflag_on (e_in (locked e)) IWANT = flag_on (i_flag (i_map (e_in e))) IWANT) as -> by (by apply flag_on_set_other). done. }
  assert (fits (e_in (locked e))) as Hf by apply (sy_fits _ _ Hs i e Hi Hlo).
  exists (set_eflag 0 (unlocked (set_in ip (locked e)))), s'. split; [|split_and!; try exact Hput; try done; try apply Hr].
  - rewrite <- Hwk. unfold set_freeq, set_inodes_, changed. cbn. rewrite !list_insert_insert_eq. done.
  - exact Hf.
Qed.

(** An entry whose inode changes in the table and is marked so. *)
Lemma synced_dirty st loose i e e' :
  synced st loose -> inodes st !! i = Some e -> e_dev e' = e_dev e -> e_number e' = e_number e -> e_fs e' = e_fs e -> fits (e_in e') ->
  dirty e' = true -> 0 < e_count e' ->
  synced (set_inodes_ (<[i := e']> (inodes st)) st) loose /\
  forall d n x, (d, n) <> (e_dev e, e_number e) -> shows st loose d n x -> shows (set_inodes_ (<[i := e']> (inodes st)) st) loose d n x.
Proof.
  intros [H1 H2 H3 H4 H5 H6] Hi Ed En Ef Hfit Hdi Hcn.
  assert (forall j x, <[i := e']> (inodes st) !! j = Some x -> j = i /\ x = e' \/ j <> i /\ inodes st !! j = Some x) as Hl.
  { intros j x [(<-&<-&_)|[? Hj]]%list_lookup_insert_Some; [by left|by right]. }
  split; [split; cbn [bufs inodes mounts set_inodes_]; try done|].
  - intros j x [[-> ->]|[Hne Hj]]%Hl Hlj; [rewrite Ed, En, Ef|]; by eapply H3.
  - intros j x [[-> ->]|[Hne Hj]]%Hl Hlj Hd; [congruence|by apply (H4 j x)].
  - intros j x [[-> ->]|[Hne Hj]]%Hl Hlj; [done|by apply (H5 j x)].
  - intros j x [[-> ->]|[Hne Hj]]%Hl Hz; [lia|by apply (H6 j x)].
  - intros d n x Hne [(j&y&(Hj&Hlj&Hd&Hnn)&->)|[Hno ->]].
    + assert (j <> i) as Hji by (intros ->; apply Hne; congruence). left. exists j, y. split; [|done]. split_and!; try done.
      cbn. by rewrite lookup_put_other.
    + right. split; [|done]. intros j y ([[-> ->]|[Hji Hj]]%Hl&Hlj&Hd&Hnn); [apply Hne; congruence|by apply (Hno j y)].
Qed.
Lemma itimes_dirty now ip : iflag_on (itimes now ip) (IUPD + IACC + ICHG + IMOD) = true \/ itimes now ip = ip.
Proof.
  unfold itimes. destruct (iflag_on ip (IUPD + IACC + ICHG)); [left|by right]. unfold iflag_on, clr_iflag, or_iflag.
  assert (forall f, flag_on f IMOD = true -> flag_on (flag_clr f (IACC + IUPD + ICHG)) (IUPD + IACC + ICHG + IMOD) = true) as Hc.
  { intros f Hf. change (IUPD + IACC + ICHG + IMOD) with (Z.lor (IUPD + IACC + ICHG) IMOD). rewrite flag_on_or, (flag_on_clr_other f _ IMOD), Hf by done.
    apply orb_true_r. }
  assert (forall (b : bool) x c, i_flag (i_map (if b then set_c c x else x)) = i_flag (i_map x)) as Hf by (by intros []).
  apply Hc. rewrite !Hf. by apply flag_on_set_same.
Qed.

(** What giving up a reference to the entry [e] of [i] leaves. *)
Record gave_up st L loose l (i : nat) (e : ent) st' (e' : ent) : Prop := {
  gu_ent : inodes st' = <[i := e']> (inodes st);
  gu_count : e_count e' = e_count e - 1;
  gu_who : e_dev e' = e_dev e /\ e_number e' = e_number e;
  gu_lock : flag_on (e_flag e') ILOCKED = false;
  gu_data : same_but_times (e_data e) (e_data e');
  gu_table : ic_ok st' L loose (if e_count e =? 1 then l ++ [i] else l);
  gu_sync : synced st' loose;
  gu_last : e_count e = 1 -> e_flag e' = 0 /\ disk_inode (bufs st') (e_dev e) (e_number e) = e_data e';
  gu_other : forall d n x, in_ilists (mounts st) d (itod n) -> 0 < n < 4294967281 -> (d, n) <> (e_dev e, e_number e) ->
    shows st loose d n x -> shows st' loose d n x }.
Lemma irele_ok now rab st L loose l i e :
  ic_ok st L loose l -> synced st loose -> inodes st !! i = Some e -> loose i = false -> in_s32 now -> 0 < e_count e ->
  flag_on (e_flag e) ILOCKED = false -> (e_count e = 1 -> 0 < ic_nlink (i_c (e_in e))) ->
  (forall m, mounts st !! e_fs e = Some m -> fs_ronly (m_filsys m) = 0) ->
  exists st' e', irele now rab i st = IOk st' /\ gave_up st L loose l i e st' e' /\
    wakes st' = wakes st ++ (if e_count e =? 1 then woken i e else []).
Proof.
  intros Hok Hs Hi Hlo Hnow Hc Hlk Hnl Hro. pose proof (ik_count _ _ _ _ Hok i e Hi) as Hc0. unfold irele. rewrite (get_ent_ok _ _ _ Hi). cbn [mbind ires_bind].
  destruct (Z.eqb_spec (e_count e) 1) as [E1|Hne].
  - destruct (irele_last_ok now rab st L loose l i e) as (e1&s'&->&C1&I1&F1&FL&D1&N1&T1&Fit&Hput); auto. cbn [mbind ires_bind].
    rewrite (upd_ent_ok _ _ e1) by (cbn; by eapply lookup_put). cbn [changed inodes]. rewrite list_insert_insert_eq.
    set (e' := set_count (u32 (e_count e1 - 1)) e1). assert (e_count e' = 0) as Hc' by (unfold e'; by rewrite C1).
    destruct (synced_put st loose i e e' s') as (Hs'&Hoth&Hself); try done.
    { intros j y Hj. by apply (cached_one _ _ _ _ _ _ _ _ y e Hok Hj). }
    eexists _, e'. split; [done|]. split; [|by rewrite ?E1]. split; try done.
    + rewrite E1. exact Hc'.
    + change (e_flag e') with (e_flag e1). by rewrite FL.
    + rewrite E1, Z.eqb_refl. eapply ic_ok_same; [| | |by apply (idle_ok st L loose l i e e')]; done.
    + by eapply synced_ext; [..|exact Hs'].
    + intros _. split; [done|]. apply Hput.
  - rewrite Hlk. cbn [negb]. rewrite (upd_ent_ok _ _ e) by done. cbn [mbind ires_bind]. put_next Hi.
    pose proof (itimes_retimed (e_in e) now Hnow) as Hr. set (e1 := set_in (itimes now (e_in e)) e).
    change (e_count e1) with (e_count e). rewrite u32_small by lia.
    set (e' := set_count (e_count e - 1) e1).
    assert (synced (set_inodes_ (<[i := e']> (inodes st)) st) loose /\
      forall d n x, (d, n) <> (e_dev e, e_number e) -> shows st loose d n x -> shows (set_inodes_ (<[i := e']> (inodes st)) st) loose d n x) as [Hs' Hx].
    { destruct (itimes_dirty now (e_in e)) as [Hd|Hd].
      - apply (synced_dirty st loose i e e'); try done; [apply Hr|apply Hr|apply (rt_fits _ _ Hr), (sy_fits _ _ Hs i e Hi Hlo)|cbn; lia].
      - destruct (synced_entry st loose i e e' Hs Hi) as [? ?]; [unfold e', e1; rewrite Hd; done..|cbn; lia|]. split; auto. }
    eexists _, e'. split; [done|]. split; [|by rewrite app_nil_r].
    split; try done; try apply Hr; auto.
    + split; apply Hr.
    + by rewrite <- Hlk; apply (rt_want _ _ Hr).
    + rewrite (proj2 (Z.eqb_neq _ _) Hne). eapply ic_ok_same; [| | |apply (ic_ok_ref st L loose l l (freeq st) i e e' Hok Hi); try done]; try done.
      * apply Hr.
      * apply Hr.
      * cbn. lia.
      * apply Hok.
      * rewrite (ik_idle _ _ _ _ Hok). cbn. split; [intros (x&Hy&?); simplify_eq; lia|lia].
Qed.

(** (C20) iput of an inode that has links: the lock is released, those who
    waited for it are woken up, and there is one reference less.  When it was
    the last one the inode is on the disk as the table has it, it is not
    marked any more, and its entry is the last of the free list: the inode can
    still be found there.  Only the times of the inode may change, no other
    inode is seen differently, and the table stays well formed. *)
Theorem iput_spec now rab st L loose l i e :
  ic_ok st L loose l -> synced st loose -> inodes st !! i = Some e -> loose i = false -> in_s32 now -> 0 < e_count e ->
  (e_count e = 1 -> 0 < ic_nlink (i_c (e_in e))) ->
  (forall m, mounts st !! e_fs e = Some m -> fs_ronly (m_filsys m) = 0) ->
  exists st' e', iput now rab i st = IOk st' /\ gave_up st L loose l i e st' e' /\
    wakes st' = wakes st ++ woken i e.
Proof.
  intros Hok Hs Hi Hlo Hnow Hc Hnl Hro. unfold iput. rewrite (iunlock_ok _ _ _ Hi). cbn [mbind ires_bind].
  destruct (unlocked_open e) as (Hul&Huw&Hud). set (st1 := changed st i (unlocked e) (bufs st) (freeq st) (wakes st ++ woken i e)).
  destruct (synced_entry st loose i e (unlocked e) Hs Hi) as [Hs1 Hx1]; try done; [cbn; lia|].
  assert (ic_ok st1 L loose l) as Hok1 by (eapply ic_ok_same; [| | |by apply (ic_ok_upd st L loose l i e (unlocked e))]; done).
  assert (synced st1 loose) as Hs1' by (by eapply synced_ext; [..|exact Hs1]).
  destruct (irele_ok now rab st1 L loose l i (unlocked e)) as (st'&e'&->&[G1 G2 G3 G0 G4 G5 G6 G7 G8]&Hw); try done; [by eapply lookup_put|].
  exists st', e'. split; [done|]. split.
  - split; try done.
    + rewrite G1. cbn. by rewrite list_insert_insert_eq.
    + intros d n x A B C Hx. apply (G8 d n x A B C). eapply shows_ext; [..|exact (Hx1 d n x Hx)]; done.
  - rewrite Hw. assert (woken i (unlocked e) = []) as -> by (unfold woken; by rewrite Huw). cbn [wakes st1 changed]. by destruct (_ =? _); rewrite app_nil_r.
Qed.

(** *** Unmounting *)

(** An entry that nobody uses leaves the chains: its inode is the disk's. *)
Lemma synced_unhook st st' L loose l i e :
  ic_ok st L loose l -> synced st loose -> inodes st !! i = Some e -> e_count e = 0 ->
  inodes st' = inodes st -> mounts st' = mounts st -> bufs st' = bufs st ->
  synced st' (mark i true loose) /\ forall d n x, shows st loose d n x -> shows st' (mark i true loose) d n x.
Proof.
  intros Hok [H1 H2 H3 H4 H5 H6] Hi Hc E1 E2 E3.
  assert (forall j, mark i true loose j = false -> j <> i /\ loose j = false) as Hm.
  { intros j Hj. destruct (decide (j = i)) as [->|Hne]; [by rewrite mark_same in Hj|]. by rewrite mark_other in Hj. }
  split.
  - split; rewrite ?E1, ?E2, ?E3; try done; intros j x Hj [_ Hl]%Hm; [by eapply H3|by apply (H4 j)|by apply (H5 j)].
  - intros d n x. unfold shows, cached. rewrite E1, E3. intros [(j&y&(Hj&Hl&Hd&Hn)&->)|[Hno ->]].
    + destruct (decide (j = i)) as [->|Hne]; [right|left; exists j, y; rewrite mark_other by done; done].
      assert (y = e) as -> by congruence. split; [|rewrite <- Hd, <- Hn; apply (H4 i e Hi Hl); unfold dirty; by rewrite (H6 i e Hi Hc)].
      intros k z (Hk&[Hne Hlk]%Hm&Hdk&Hnk). apply Hne. eapply (ik_one _ _ _ _ Hok k i z e); try done; congruence.
    + right. split; [|done]. intros j y (Hj&[_ Hl]%Hm&Hd). by apply (Hno j y).
Qed.

(** What iflush returns over the entries [js]. *)
Definition flushed (dev open : Z) (ents : list ent) (loose : nat -> bool) (js : list nat) (r : option Z) : Prop :=
  match r with
  | None => exists i e, i ∈ js /\ ents !! i = Some e /\ e_dev e = dev /\ e_count e <> 0
  | Some n =>
      (forall i e, i ∈ js -> ents !! i = Some e -> e_dev e = dev -> e_count e = 0 /\ loose i = true) /\
      n = open + Z.of_nat (length (List.filter (fun i =>
        match ents !! i with Some e => negb (e_dev e =? dev) && open_blk dev e | None => false end) js))
  end.
Lemma flushed_cons dev open open' ents loose i e js r :
  ents !! i = Some e -> (e_dev e = dev -> e_count e = 0 /\ loose i = true) ->
  open' = (if negb (e_dev e =? dev) && open_blk dev e then open + 1 else open) ->
  flushed dev open' ents loose js r -> flushed dev open ents loose (i :: js) r.
Proof.
  intros Hi Hd -> Hr. destruct r as [n|]; cbn [flushed] in *.
  - destruct Hr as [H1 ->]. split; [|cbn [List.filter]; rewrite Hi; destruct (_ && _); cbn [length]; lia].
    intros j y [->|Hj]%elem_of_cons Hy Ey; [simplify_eq; auto|by apply (H1 j y)].
  - destruct Hr as (j&y&Hj&?). exists j, y. split; [set_solver|done].
Qed.
Lemma iflush_loop_ok js dev open st L loose l :
  ic_ok st L loose l -> synced st loose -> (forall i, i ∈ js -> (i < NINODE)%nat) ->
  exists st' r L' loose', iflush_loop js dev open st = IOk (st', r) /\ ic_ok st' L' loose' l /\ synced st' loose' /\
    inodes st' = inodes st /\ (forall d n x, shows st loose d n x -> shows st' loose' d n x) /\
    (forall i, loose i = true -> loose' i = true) /\ flushed dev open (inodes st) loose' js r.
Proof.
  revert open st L loose. induction js as [|i js IH]; intros open st L loose Hok Hs Hjs.
  { exists st, (Some open), L, loose. split_and!; try done. split; [by intros ? ? ?%not_elem_of_nil|cbn; lia]. }
  cbn [iflush_loop]. assert (i < NINODE)%nat as Hi by (apply Hjs; set_solver).
  assert (forall j, j ∈ js -> (j < NINODE)%nat) as Hjs' by (intros j ?; apply Hjs; set_solver).
  destruct (ik_lookup _ _ _ _ _ Hok Hi) as [e He]. rewrite (get_ent_ok _ _ _ He). cbn [mbind ires_bind].
  destruct (Z.eqb_spec (e_dev e) dev) as [Ed|Ed].
  - destruct (Z.eqb_spec (e_count e) 0) as [Ec|Ec]; cbn [negb].
    + destruct (remque_chain st L loose l i Hok Hi) as (q&L1&Eq&U). rewrite Eq. cbn [of_res mbind ires_bind].
      set (st1 := self_link i (set_hash q st)).
      assert (ic_ok st1 (with_list L1 (iaddr i) []) (mark i true loose) l) as Hok1.
      { eapply ic_ok_same; [| | |exact (self_ok st L loose l i q L1 e e Hok He Eq U eq_refl)]; try done.
        cbn. by rewrite list_insert_id. }
      destruct (synced_unhook st st1 L loose l i e) as [Hs1 Hx1]; try done.
      destruct (IH open st1 _ _ Hok1 Hs1 Hjs') as (st'&r&L'&loose'&->&Hok'&Hs'&Hin&Hx&Hl&Hr).
      exists st', r, L', loose'. split_and!; try done; [auto| |].
      * intros j Hj. apply Hl. destruct (decide (j = i)) as [->|Hne]; [by rewrite mark_same|by rewrite mark_other].
      * apply (flushed_cons _ _ open _ _ _ e); [done|intros _; split; [done|apply Hl, mark_same]|by rewrite Ed, Z.eqb_refl|done].
    + exists st, None, L, loose. split_and!; try done. exists i, e. split_and!; try done. set_solver.
  - destruct (IH (if open_blk dev e then open + 1 else open) st L loose Hok Hs Hjs') as (st'&r&L'&loose'&->&Hok'&Hs'&Hin&Hx&Hl&Hr).
    exists st', r, L', loose'. split_and!; try done.
    eapply (flushed_cons _ _ _ _ _ _ e); [done|done| |exact Hr]. by rewrite (proj2 (Z.eqb_neq _ _) Ed).
Qed.

(** iflush, for a file system that is being unmounted: when an inode of
    the device is in use it says so, and otherwise no inode of the device can
    be found in the table any more, and the number of open block device files
    that name the device is returned.  The free list and the inodes are left
    alone, the table stays well formed, and every inode is seen as before:
    what was in the table of an inode that nobody used is on the disk. *)
Theorem iflush_spec dev st L loose l :
  ic_ok st L loose l -> synced st loose ->
  exists st' r L' loose', iflush dev st = IOk (st', r) /\ inodes st' = inodes st /\
    flushed dev 0 (inodes st) loose' (seq 0 NINODE) r /\ ic_ok st' L' loose' l /\ synced st' loose' /\
    forall d n x, shows st loose d n x -> shows st' loose' d n x.
Proof.
  intros Hok Hs. destruct (iflush_loop_ok (seq 0 NINODE) dev 0 st L loose l Hok Hs) as (st'&r&L'&loose'&E&Hok'&Hs'&Hin&Hx&_&Hr).
  { intros i Hi%elem_of_seq. lia. }
  by exists st', r, L', loose'.
Qed.
End Disk.

(** ** A table at start-up *)

(** A file system with one block of inodes; number 2 is its root. *)
Definition ex_fs1 : fs :=
  MkFs 0 2 1000 0 1 (replicate NICFREE 0) 0 (replicate NICINOD 0) 0 0 0 0 0 0 0 (replicate 7 0) 0 0 0 0.
Definition ex_root : icommon := MkIcommon 16877 2 0 0 512 0 5 5 5.
Definition ex_idisk : gmap (Z * Z) (list Z) := {[ (0, 1) := store_dinode 2 ex_ip ex_root (replicate BLKWORDS 0) ]}.
Definition ex_ent : ent := MkEnt (MkIncore ex_ip 0 (MkIcommon 0 0 0 0 0 0 0 0 0)) 0 0 0.
Definition ex_raw (c : Bio.cache) : icache Bio.cache :=
  MkIc (replicate NINODE ex_ent) (Links ∅ ∅) (MkTq ∅ ∅ None Head) 0 0 [MkMount 0 ex_fs1 None] 0 [] c.
Definition ex_start (c : Bio.cache) : icache Bio.cache := ihinit (ex_raw c).
Lemma ex_start_ok : exists c, ic_ok (ex_start c) (fun _ => []) (fun _ => true) (seq 0 NINODE) /\
  @synced _ ex_io ex_fs_used ex_io_spec (ex_start c) (fun _ => true) /\ mounts (ex_start c) = [MkMount 0 ex_fs1 None] /\
  @disk_inode _ ex_io ex_fs_used ex_io_spec (bufs (ex_start c)) 0 2 = (ex_root, i_addr ex_ip).
Proof.
  destruct (ex_boot_on ex_idisk) as (c&Hc&Hd). exists c.
  assert (forall i e, replicate NINODE ex_ent !! i = Some e -> e = ex_ent) as Hr by (by intros i e [-> _]%lookup_replicate).
  destruct (ihinit_ok (ex_raw c)) as (Hok&E1&E2&E3).
  { by vm_compute. }
  { by intros i e ->%Hr. }
  unfold ex_start. revert Hok E1 E2 E3. generalize (ihinit (ex_raw c)). cbn [ex_raw inodes mounts bufs]. intros st Hok E1 E2 E3. split; [done|]. split; [|split; [done|]].
  - split; rewrite ?E1, ?E2, ?E3; try done.
    + intros d b (m&[->|[]%not_elem_of_nil]%elem_of_cons&<-&Hb). cbn [m_dev m_filsys ex_fs1 fs_isize] in *. assert (b = 1) as -> by lia.
      rewrite Hd. split; [done|]. apply (bool_decide_unpack _). by vm_compute.
    + by intros i e ->%Hr.
  - unfold disk_inode. rewrite E3, Hd. by vm_compute.
Qed.
Lemma iget_spec_witness : exists c,
  @iget_out _ ex_io ex_fs_used ex_io_spec (ex_start c) (fun _ => []) (fun _ => true) (seq 0 NINODE) 0 0%nat 2
    (@iget _ ex_io 7 0 0 0%nat 2 (ex_start c)).
Proof.
  destruct ex_start_ok as (c&Hok&Hs&Hm&_). exists c. revert Hok Hs Hm. generalize (ex_start c). intros st Hok Hs Hm.
  destruct (@iget_spec _ ex_io ex_fs_used ex_io_spec 7 0 0 0%nat 2 st (fun _ => []) (fun _ => true) (seq 0 NINODE) 0 0%nat 2 (MkMount 0 ex_fs1 None)) as [Hg _].
  - exact Hok.
  - exact Hs.
  - apply LeadsHere. by intros i e (_&[=]&_).
  - by rewrite Hm.
  - done.
  - by vm_compute.
  - by vm_compute.
  - by intros d i e (_&[=]&_).
  - intros i e Hi. assert (i ∈ seq 0 NINODE) as Hin by (apply elem_of_seq; pose proof (ik_bound _ _ _ _ _ _ Hok Hi); lia).
    apply (ik_idle _ _ _ _ Hok) in Hin as (e'&He'&E). assert (e' = e) as -> by congruence. lia.
  - exact Hg.
Defined.

(** The root is in the first entry after iget. *)
Lemma ex_root_got : exists st L loose l e, ic_ok st L loose l /\ @synced _ ex_io ex_fs_used ex_io_spec st loose /\ inodes st !! 0%nat = Some e /\
  loose 0%nat = false /\ e_count e = 1 /\ e_data e = (ex_root, i_addr ex_ip) /\ mounts st = [MkMount 0 ex_fs1 None] /\ e_dev e = 0.
Proof.
  destruct ex_start_ok as (c&Hok&Hs&Hm&Hr). revert Hok Hs Hm Hr. generalize (ex_start c). intros st Hok Hs Hm Hr.
  pose proof (@iget_loop_ok _ ex_io ex_fs_used ex_io_spec 0 7 0 0 0%nat 2 st (fun _ => []) (fun _ => true) (seq 0 NINODE) (MkMount 0 ex_fs1 None) Hok Hs) as Hg.
  destruct Hg as [i e (_&[=]&_) _|i e q l' (_&[=]&_)|[=]|i l' L' id st' Hl _ Hok' Hs' Hin Hm' _].
  - by rewrite Hm.
  - done.
  - by vm_compute.
  - by intros i e (_&[=]&_).
  - injection Hl as <- <-. exists st', L', (mark 0 false (fun _ => true)), (seq 1 23), (@loaded _ ex_io ex_fs_used ex_io_spec 0 0%nat 2 id (bufs st)).
    split_and!; try done; [|by rewrite Hm'].
    rewrite Hin. destruct (ik_lookup _ _ _ _ 0%nat Hok) as [e He]; [by vm_compute; lia|by eapply lookup_put].
Qed.
Lemma iput_spec_witness : exists st st' L loose l e e', @iput _ ex_io 7 0 0%nat st = IOk st' /\
  @gave_up _ ex_io ex_fs_used ex_io_spec st L loose l 0 e st' e' /\ e_count e' = 0.
Proof.
  destruct ex_root_got as (st&L&loose&l&e&Hok&Hs&Hi&Hlo&Hc&Hd&Hm&_). injection Hd as Hd1 Hd2.
  destruct (@iput_spec _ ex_io ex_fs_used ex_io_spec 7 0 st L loose l 0%nat e) as (st'&e'&E&G&_).
  - exact Hok.
  - exact Hs.
  - exact Hi.
  - exact Hlo.
  - by vm_compute.
  - lia.
  - intros _. by rewrite Hd1.
  - intros m Hmm. rewrite Hm in Hmm. by apply list_lookup_singleton_Some in Hmm as [_ <-].
  - exists st, st', L, loose, l, e, e'. split; [exact E|]. split; [exact G|]. rewrite (gu_count _ _ _ _ _ _ _ _ _ G). lia.
Defined.
(** The device cannot be unmounted while its root is in use. *)
Lemma iflush_spec_witness : exists st st', @iflush Bio.cache 0 st = IOk (st', None).
Proof.
  destruct ex_root_got as (st&L&loose&l&e&Hok&Hs&Hi&Hlo&Hc&Hd&Hm&Hdev).
  destruct (@iflush_spec _ ex_io ex_fs_used ex_io_spec 0 st L loose l Hok Hs) as (st'&r&L'&loose'&E&_&Hr&_).
  exists st, st'. destruct r as [n|]; [|exact E]. destruct Hr as [Hr _]. destruct (Hr 0%nat e) as [Hz _]; [|exact Hi|exact Hdev|lia].
  apply elem_of_seq. unfold NINODE. lia.
Defined.
End Icache.
