(* ===== verification/Prot.v ===== *)
(** Users, permissions and attributes of files (sys/kernel/kern_prot.c,
    kern_prot2.c and ufs_fio.c, chmod1 and chown1 of ufs_syscalls.c, the
    attributes utimes asks for): who a process is, what it may do to a file,
    and how it may become someone else. *)
From S2P Require Import Prelude Proc Mem Bio Bcache Blockio Alloc Bmap Dinode Trunc Itrunc Rwip Icache.
Import Mem Blockio Alloc Bmap Dinode Trunc Itrunc Rwip Icache.

Module Prot.

(** ** Data *)

Definition NGROUPS : nat := 16.
Definition NOGROUP : Z := 65535.
Definition EACCES : Z := 13.
Definition EBUSY : Z := 16.
Definition EISDIR : Z := 21.
Definition EINVAL : Z := 22.
Definition EROFS : Z := 30.
Definition IREAD : Z := 256.
Definition IWRITE : Z := 128.
Definition IEXEC : Z := 64.
Definition ISVTX : Z := 512.
Definition UF_SETTABLE : Z := 255.
Definition SF_SETTABLE : Z := 65280.
Definition SF_IMMUTABLE : Z := 512.
Definition SF_APPEND : Z := 1024.
Definition IMMUTABLE : Z := 514.
Definition VA_UTIMES_NULL : Z := 1.
(** VNOVAL as a signed and as an unsigned value. *)
Definition VNOVAL : Z := -1.
Definition VNOVAL_U : Z := 4294967295.

(** The identity of the running process in [struct user], with p_uid of its
    [struct proc], a short, and u.u_error; [u_groups] are NGROUPS words. *)
Record cred := MkCred {
  u_uid : Z; u_svuid : Z; u_ruid : Z; u_rgid : Z; u_svgid : Z; u_groups : list Z; p_uid : Z; u_error : Z }.
Implicit Types (u : cred).
Definition set_u_error (e : Z) u : cred :=
  MkCred (u_uid u) (u_svuid u) (u_ruid u) (u_rgid u) (u_svgid u) (u_groups u) (p_uid u) e.
Definition set_u_uid (v : Z) u : cred :=
  MkCred v (u_svuid u) (u_ruid u) (u_rgid u) (u_svgid u) (u_groups u) (p_uid u) (u_error u).
Definition set_u_groups (l : list Z) u : cred :=
  MkCred (u_uid u) (u_svuid u) (u_ruid u) (u_rgid u) (u_svgid u) l (p_uid u) (u_error u).

(** ** Changing one's identity *)

Definition suser u : bool * cred := if u_uid u =? 0 then (true, u) else (false, set_u_error EPERM u).

Definition setuid (uid : Z) u : cred :=
  let '(ok, u) := if negb (uid =? u_ruid u) then suser u else (true, u) in
  if negb ok then u else MkCred uid uid uid (u_rgid u) (u_svgid u) (u_groups u) (s16 uid) 0.
Definition seteuid (euid : Z) u : cred :=
  let '(ok, u) := if negb (euid =? u_ruid u) && negb (euid =? u_svuid u) then suser u else (true, u) in
  if negb ok then u else set_u_error 0 (set_u_uid euid u).
Definition setgid (gid : Z) u : cred :=
  let '(ok, u) := if negb (gid =? u_rgid u) then suser u else (true, u) in
  if negb ok then u else MkCred (u_uid u) (u_svuid u) (u_ruid u) gid gid (<[0%nat := gid]> (u_groups u)) (p_uid u) 0.
Definition setegid (egid : Z) u : cred :=
  let '(ok, u) := if negb (egid =? u_rgid u) && negb (egid =? u_svgid u) then suser u else (true, u) in
  if negb ok then u else set_u_error 0 (set_u_groups (<[0%nat := egid]> (u_groups u)) u).

(** The loop over the groups of groupmember and of access. *)
Fixpoint in_groups (gs : list Z) (gid : Z) : bool :=
  match gs with
  | [] => false
  | g :: gs => if g =? NOGROUP then false else if g =? gid then true else in_groups gs gid
  end.
Definition groupmember (gid : Z) u : bool := in_groups (u_groups u) gid.

(** A word of the caller's memory, and its four bytes. *)
Definition user_word (a : Z) (um : umem) : Z := word_of (fun i => ubyte um (a + i)) 0.
Definition word_bytes (x : Z) : list Z := [x mod 256; x / 256 mod 256; x / 65536 mod 256; x / 16777216 mod 256].

(** [for (gp = &u.u_groups[NGROUPS]; gp > u.u_groups; gp--)]: the number of
    groups up to the last one that is set. *)
Fixpoint ngroups (n : nat) (gs : list Z) : nat :=
  match n with
  | O => 0
  | S m => if negb (nth m gs NOGROUP =? NOGROUP) then n else ngroups m gs
  end.
(** The value is u.u_rval. *)
Definition getgroups (gidsetsize gidset : Z) (um : umem) u : umem * option Z * cred :=
  let n := ngroups NGROUPS (u_groups u) in
  if gidsetsize <? Z.of_nat n then (um, None, set_u_error EINVAL u)
  else
    let nbytes := Z.of_nat n * 4 in
    if baduaddr gidset || baduaddr (u32 (gidset + nbytes - 1)) then (um, None, set_u_error EFAULT u)
    else (user_write gidset (flat_map word_bytes (take n (u_groups u))) um, Some (Z.of_nat n), set_u_error 0 u).
Definition setgroups (gidsetsize gidset : Z) (um : umem) u : cred :=
  let '(ok, u) := suser u in
  if negb ok then u
  else if Z.of_nat NGROUPS <? gidsetsize then set_u_error EINVAL u
  else
    let nbytes := gidsetsize * 4 in
    if baduaddr gidset || baduaddr (u32 (gidset + nbytes - 1)) then set_u_error EFAULT u
    else
      let n := Z.to_nat gidsetsize in
      let got := map (fun i => user_word (gidset + 4 * Z.of_nat i) um) (seq 0 n) in
      set_u_error 0 (set_u_groups (got ++ replicate (NGROUPS - n) NOGROUP) u).

(** ** Permissions *)

(** access returns 0 when it grants the access. *)
Definition access (ip : incore) (f : fs) (mode : Z) u : Z * cred :=
  let denied := fun e => (1, set_u_error e u) in
  let m := mode in
  let fmt := Z.land (ic_mode (i_c ip)) IFMT in
  if (m =? IWRITE) && flag_on (ic_flags (i_c ip)) IMMUTABLE then denied EPERM
  else if (m =? IWRITE) && negb (fs_ronly f =? 0) && negb (fmt =? IFCHR) && negb (fmt =? IFBLK) then denied EROFS
  else if u_uid u =? 0 then (0, u)
  else
    let m := if negb (u_uid u =? ic_uid (i_c ip)) then
        let m := Z.shiftr m 3 in
        if in_groups (u_groups u) (ic_gid (i_c ip)) then m else Z.shiftr m 3
      else m in
    if negb (Z.land (ic_mode (i_c ip)) m =? 0) then (0, u) else denied EACCES.

(** saccess, the system call: access with the real ids.  [namei] finds the
    inode and its file system, as the running process may. *)
Definition R_OK : Z := 4.
Definition W_OK : Z := 2.
Definition X_OK : Z := 1.
Definition saccess (namei : cred -> option (incore * fs) * cred) (fmode : Z) u : cred :=
  let t_uid := u_uid u in
  let t_gid := nth 0 (u_groups u) 0 in
  let u := set_u_uid (u_ruid u) u in
  let u := set_u_groups (<[0%nat := u_rgid u]> (u_groups u)) u in
  let '(r, u) := namei u in
  let u := match r with
    | None => u
    | Some (ip, f) =>
        let try ok m k u := if flag_on fmode ok then let '(e, u) := access ip f m u in if e =? 0 then k u else u else k u in
        try R_OK IREAD (try W_OK IWRITE (try X_OK IEXEC (fun u => u))) u
    end in
  set_u_groups (<[0%nat := t_gid]> (u_groups u)) (set_u_uid t_uid u).

(** ** Process groups *)

Definition ESRCH : Z := 3.
(** [cur] is the running process; the result of getpgrp is u.u_rval. *)
Definition getpgrp (t : Proc.ptable) (cur : nat) (pid : Z) u : res (option Z * cred) :=
  c ← rd (Proc.procs t) cur;
  r ← Proc.pfind t (if pid =? 0 then Proc.p_pid c else pid);
  match r with
  | None => Ok (None, set_u_error ESRCH u)
  | Some i => p ← rd (Proc.procs t) i; Ok (Some (Proc.p_pgrp p), u)
  end.
Definition setpgrp (t : Proc.ptable) (cur : nat) (pid pgrp : Z) u : res (Proc.ptable * cred) :=
  c ← rd (Proc.procs t) cur;
  r ← Proc.pfind t (if pid =? 0 then Proc.p_pid c else pid);
  match r with
  | None => Ok (t, set_u_error ESRCH u)
  | Some i =>
      p ← rd (Proc.procs t) i;
      refused ← (if negb (u32 (Proc.p_uid p) =? u_uid u) && negb (u_uid u =? 0) then b ← Proc.inferior t cur i; Ok (negb b) else Ok false);
      if refused : bool then Ok (t, set_u_error EPERM u)
      else
        l ← wr (Proc.procs t) i (Proc.set_p_pgrp (s16 pgrp) p);
        Ok (Proc.PTable l (Proc.pidhash t) (Proc.freeproc t) (Proc.allproc t) (Proc.zombproc t), u)
  end.

(** ** Attributes *)

Record vattr := MkVattr {
  va_mode : Z; va_uid : Z; va_gid : Z; va_size : Z; va_atime : Z; va_mtime : Z; va_flags : Z; va_vaflags : Z }.
Definition VATTR_NULL : vattr := MkVattr VNOVAL_U VNOVAL_U VNOVAL_U VNOVAL VNOVAL VNOVAL VNOVAL_U VNOVAL_U.

Definition set_owner (uid gid : Z) (c : icommon) : icommon :=
  MkIcommon (ic_mode c) (ic_nlink c) uid gid (ic_size c) (ic_flags c) (ic_atime c) (ic_mtime c) (ic_ctime c).
Definition set_ic_flags (v : Z) (c : icommon) : icommon :=
  MkIcommon (ic_mode c) (ic_nlink c) (ic_uid c) (ic_gid c) (ic_size c) v (ic_atime c) (ic_mtime c) (ic_ctime c).

Definition chmod1 (mode : Z) (ip : incore) u : Z * incore * cred :=
  let '(ok, u) := if negb (u_uid u =? ic_uid (i_c ip)) then suser u else (true, u) in
  if negb ok then (u_error u, ip, u)
  else if negb (u_uid u =? 0) && (negb (Z.land (ic_mode (i_c ip)) IFMT =? IFDIR) && flag_on mode ISVTX) then (EFTYPE, ip, u)
  else if negb (u_uid u =? 0) && (negb (groupmember (ic_gid (i_c ip)) u) && flag_on mode ISGID) then (EPERM, ip, u)
  else
    let ip := set_c (set_mode (Z.lor (flag_clr (ic_mode (i_c ip)) 4095) (Z.land mode 4095)) (i_c ip)) ip in
    (0, or_iflag ICHG ip, u).

(** The arguments are unsigned here; -1 asks for no change. *)
Definition chown1 (uid gid : Z) (ip : incore) u : Z * incore * cred :=
  let uid := if uid =? VNOVAL_U then ic_uid (i_c ip) else uid in
  let gid := if gid =? VNOVAL_U then ic_gid (i_c ip) else gid in
  let '(ok, u) := if negb (u_uid u =? ic_uid (i_c ip)) || negb (uid =? ic_uid (i_c ip)) || negb (groupmember gid u)
    then suser u else (true, u) in
  if negb ok then (u_error u, ip, u)
  else
    let ouid := ic_uid (i_c ip) in
    let ogid := ic_gid (i_c ip) in
    let ip := set_c (set_owner uid gid (i_c ip)) ip in
    let ip := if negb (ouid =? uid) || negb (ogid =? gid) then or_iflag ICHG ip else ip in
    let drop b m ip := if b : bool then set_c (set_mode (flag_clr (ic_mode (i_c ip)) m) (i_c ip)) ip else ip in
    let ip := drop (negb (ouid =? uid) && negb (u_uid u =? 0)) ISUID ip in
    let ip := drop (negb (ogid =? gid) && negb (u_uid u =? 0)) ISGID ip in
    (0, ip, u).

Section Attr.
Context {S : Type} `{BlockIO S}.
Implicit Types (f : fs) (s : S) (ip : incore).

(** The state setattr works on, and a step of it: on to the next attribute, or
    the value that is returned; [None]: the I/O does not return. *)
Record at_st := MkAt { at_u : cred; at_ip : incore; at_f : fs; at_s : S }.
Implicit Types (a : at_st).
Definition set_at_u u a : at_st := MkAt u (at_ip a) (at_f a) (at_s a).
Definition set_at_ip ip a : at_st := MkAt (at_u a) ip (at_f a) (at_s a).
Inductive step := Next (a : at_st) | Done (e : Z) (a : at_st).
Definition then_step (r : option step) (k : at_st -> option step) : option step :=
  match r with Some (Next a) => k a | r => r end.

Definition setattr_flags (securelevel : Z) (vap : vattr) a : option step :=
  let go ip a :=
    let a := set_at_ip (or_iflag ICHG ip) a in
    if flag_on (va_flags vap) (Z.lor IMMUTABLE APPEND) then Some (Done 0 a) else Some (Next a) in
  if negb (va_flags vap =? VNOVAL_U) then
    let '(ok, u) := if negb (u_uid (at_u a) =? ic_uid (i_c (at_ip a))) then suser (at_u a) else (true, at_u a) in
    let a := set_at_u u a in
    let ip := at_ip a in
    if negb ok then Some (Done (u_error u) a)
    else if u_uid u =? 0 then
      if flag_on (ic_flags (i_c ip)) (Z.lor SF_IMMUTABLE SF_APPEND) && (0 <? securelevel) then Some (Done EPERM a)
      else go (set_c (set_ic_flags (va_flags vap) (i_c ip)) ip) a
    else
      if flag_on (ic_flags (i_c ip)) (Z.lor SF_IMMUTABLE SF_APPEND) then Some (Done EPERM a)
      else
        let fl := Z.land (ic_flags (i_c ip)) SF_SETTABLE in
        go (set_c (set_ic_flags (Z.lor fl (Z.land (va_flags vap) UF_SETTABLE)) (i_c ip)) ip) a
  else Some (Next a).
Definition setattr_owner (vap : vattr) a : option step :=
  if negb (va_uid vap =? VNOVAL_U) || negb (va_gid vap =? VNOVAL_U) then
    let '(error, ip, u) := chown1 (va_uid vap) (va_gid vap) (at_ip a) (at_u a) in
    let a := set_at_u u (set_at_ip ip a) in
    if negb (error =? 0) then Some (Done error a) else Some (Next a)
  else Some (Next a).
Definition setattr_size (now rablock : Z) (vap : vattr) a : option step :=
  if negb (va_size vap =? VNOVAL) then
    if Z.land (ic_mode (i_c (at_ip a))) IFMT =? IFDIR then Some (Done EISDIR a)
    else
      '(err, ip, f, s) ← itrunc now rablock (u_error (at_u a)) (u32 (va_size vap)) 0 (at_ip a) (at_f a) (at_s a);
      let a := MkAt (set_u_error err (at_u a)) ip f s in
      if negb (err =? 0) then Some (Done err a) else Some (Next a)
  else Some (Next a).
Definition setattr_times (now : Z) (vap : vattr) a : option step :=
  if negb (va_atime vap =? VNOVAL) || negb (va_mtime vap =? VNOVAL) then
    let ip := at_ip a in
    let '(ok, u) := if negb (u_uid (at_u a) =? ic_uid (i_c ip)) then suser (at_u a) else (true, at_u a) in
    let '(refused, u) := if negb ok then
        if negb (flag_on (va_vaflags vap) VA_UTIMES_NULL) then (true, u)
        else let '(r, u) := access ip (at_f a) IWRITE u in (negb (r =? 0), u)
      else (false, u) in
    let a := set_at_u u a in
    if refused then Some (Done (u_error u) a)
    else
      let ip := if negb (va_atime vap =? VNOVAL) && negb (flag_on (fs_flags (at_f a)) MNT_NOATIME) then or_iflag IACC ip else ip in
      let ip := if negb (va_mtime vap =? VNOVAL) then or_iflag (IUPD + ICHG) ip else ip in
      '(ip, s) ← iupdat now (va_atime vap) (va_mtime vap) true ip (at_f a) (at_s a);
      Some (Next (MkAt u ip (at_f a) s))
  else Some (Next a).
Definition setattr_mode (vap : vattr) a : option step :=
  if negb (va_mode vap =? VNOVAL_U) then
    let '(error, ip, u) := chmod1 (va_mode vap) (at_ip a) (at_u a) in
    Some (Done error (set_at_u u (set_at_ip ip a)))
  else Some (Done 0 a).

Definition ufs_setattr (now rablock securelevel : Z) (vap : vattr) a : option step :=
  if negb (fs_ronly (at_f a) =? 0) then Some (Done EROFS a)
  else
    then_step (setattr_flags securelevel vap a) (fun a =>
    if flag_on (ic_flags (i_c (at_ip a))) (Z.lor IMMUTABLE APPEND) then Some (Done EPERM a)
    else
      then_step (setattr_owner vap a) (fun a =>
      then_step (setattr_size now rablock vap a) (fun a =>
      then_step (setattr_times now vap a) (setattr_mode vap)))).

(** What utimes asks for: the times of the caller, or the present time. *)
Definition utimes_vattr (now : Z) (tv : option (Z * Z)) : vattr :=
  let v := VATTR_NULL in
  let '(ta, tm, fl) := match tv with
    | None => (now, now, Z.lor (va_vaflags v) VA_UTIMES_NULL)
    | Some (ta, tm) => (ta, tm, va_vaflags v)
    end in
  MkVattr (va_mode v) (va_uid v) (va_gid v) (va_size v) ta tm (va_flags v) fl.
End Attr.

Definition ufs_mountedon (ms : list mount) (dev : Z) : Z :=
  if existsb (fun m => negb (bool_decide (m_inodp m = None)) && (m_dev m =? dev)) ms then EBUSY else 0.

(** ** Becoming someone else *)

Inductive id_call := Setuid (uid : Z) | Seteuid (uid : Z) | Setgid (gid : Z) | Setegid (gid : Z) | Setgroups (size addr : Z) (um : umem).
Definition id_do (c : id_call) u : cred :=
  match c with
  | Setuid uid => setuid uid u
  | Seteuid uid => seteuid uid u
  | Setgid gid => setgid gid u
  | Setegid gid => setegid gid u
  | Setgroups size addr um => setgroups size addr um u
  end.
Definition id_calls (cs : list id_call) u : cred := fold_left (fun u c => id_do c u) cs u.

(** Who [u] can be without the super-user: [u'] is one of these. *)
Record confined u u' : Prop := {
  cf_ruid : u_ruid u' = u_ruid u;
  cf_svuid : u_svuid u' = u_svuid u \/ u_svuid u' = u_ruid u;
  cf_uid : u_uid u' = u_uid u \/ u_uid u' = u_ruid u \/ u_uid u' = u_svuid u;
  cf_puid : p_uid u' = p_uid u \/ p_uid u' = s16 (u_ruid u);
  cf_rgid : u_rgid u' = u_rgid u;
  cf_svgid : u_svgid u' = u_svgid u \/ u_svgid u' = u_rgid u;
  cf_gid : hd_error (u_groups u') = hd_error (u_groups u) \/ hd_error (u_groups u') = Some (u_rgid u) \/ hd_error (u_groups u') = Some (u_svgid u);
  cf_groups : tail (u_groups u') = tail (u_groups u) }.
Definition powerless u : Prop := u_uid u <> 0 /\ u_ruid u <> 0 /\ u_svuid u <> 0.

Lemma confined_refl u : confined u u.
Proof. split; auto. Qed.
Lemma confined_error e u u' : confined u u' -> confined u (set_u_error e u').
Proof. intros []. by split. Qed.
Lemma confined_powerless u u' : powerless u -> confined u u' -> powerless u'.
Proof. intros (H1&H2&H3) [E1 E2 E3 _ _ _ _ _]. unfold powerless. rewrite E1. destruct E2 as [->| ->], E3 as [->|[->| ->]]; done. Qed.
Lemma confined_trans u u1 u2 : confined u u1 -> confined u1 u2 -> confined u u2.
Proof.
  intros [A1 A2 A3 A4 A5 A6 A7 A8] [B1 B2 B3 B4 B5 B6 B7 B8]. rewrite A1 in *. rewrite A5 in *. split; try congruence.
  - destruct B2 as [->| ->]; auto.
  - destruct B3 as [->|[->| ->]]; auto. destruct A2 as [->| ->]; auto.
  - destruct B4 as [->| ->]; auto.
  - destruct B6 as [->| ->]; auto.
  - destruct B7 as [->|[->| ->]]; auto. destruct A6 as [->| ->]; auto.
Qed.
Lemma suser_powerless u : powerless u -> suser u = (false, set_u_error EPERM u).
Proof. intros (H&_). unfold suser. by rewrite (proj2 (Z.eqb_neq _ _) H). Qed.
Lemma insert_first (g : Z) gs : tail (<[0%nat := g]> gs) = tail gs /\ (hd_error (<[0%nat := g]> gs) = hd_error gs \/ hd_error (<[0%nat := g]> gs) = Some g).
Proof. destruct gs; simpl; auto. Qed.

Lemma id_do_confined c u : powerless u -> confined u (id_do c u).
Proof.
  intros Hp. pose proof (suser_powerless u Hp) as Hs. pose proof (confined_error EPERM u u (confined_refl u)) as He. destruct c as [uid|uid|gid|gid|size addr um]; cbn [id_do].
  - unfold setuid. destruct (Z.eqb_spec uid (u_ruid u)) as [->|_]; cbn [negb]; [|by rewrite Hs]. split; cbn; auto.
  - unfold seteuid. destruct (Z.eqb_spec uid (u_ruid u)) as [E1|_], (Z.eqb_spec uid (u_svuid u)) as [E2|_]; cbn [negb andb];
      [split; cbn; auto..|by rewrite Hs].
  - unfold setgid. destruct (Z.eqb_spec gid (u_rgid u)) as [->|_]; cbn [negb]; [|by rewrite Hs].
    destruct (insert_first (u_rgid u) (u_groups u)) as [E [E1|E1]]; split; cbn; rewrite ?E, ?E1; auto.
  - unfold setegid. destruct (insert_first gid (u_groups u)) as [E E1].
    destruct (Z.eqb_spec gid (u_rgid u)) as [E2|_], (Z.eqb_spec gid (u_svgid u)) as [E3|_]; cbn [negb andb];
      [destruct E1 as [E1|E1]; split; cbn; rewrite ?E, ?E1; auto; rewrite ?E2, ?E3; auto..|by rewrite Hs].
  - unfold setgroups. by rewrite Hs.
Qed.
Lemma id_calls_confined cs u : powerless u -> confined u (id_calls cs u).
Proof.
  revert u. induction cs as [|c cs IH]; intros u Hp; [apply confined_refl|]. pose proof (id_do_confined c u Hp) as Hc.
  apply (confined_trans u (id_do c u)); [done|]. apply IH. by eapply confined_powerless.
Qed.

(** (C23) A process that is not the super-user, and was not before, in none of
    its three user ids, never becomes it by any sequence of setuid, seteuid,
    setgid, setegid and setgroups: its user ids stay among those it had, its
    group among its real, effective and saved one, and its other groups as
    they are.  And the super-user who calls setuid gives everything up: after
    it all user ids are the new one whatever the process calls then. *)
Theorem ids_confined cs u :
  (powerless u -> confined u (id_calls cs u) /\ powerless (id_calls cs u)) /\
  (forall uid, u_uid u = 0 -> uid <> 0 ->
   let u' := id_calls cs (setuid uid u) in u_uid u' = uid /\ u_ruid u' = uid /\ u_svuid u' = uid /\ p_uid u' = s16 uid).
Proof.
  split.
  - intros Hp. pose proof (id_calls_confined cs u Hp). split; [done|]. by eapply confined_powerless.
  - intros uid H0 Hn u'. assert (setuid uid u = MkCred uid uid uid (u_rgid u) (u_svgid u) (u_groups u) (s16 uid) 0) as E.
    { unfold setuid, suser. rewrite H0. by destruct (uid =? u_ruid u). }
    assert (powerless (setuid uid u)) as Hp by (rewrite E; by split_and!).
    destruct (id_calls_confined cs _ Hp) as [C1 C2 C3 C4 _ _ _ _]. unfold u'. rewrite E in *. cbn in *. intuition.
Qed.
Lemma ids_confined_witness :
  powerless (id_calls [Seteuid 0; Setuid 0; Setegid 7] (MkCred 100 100 100 20 7 (20 :: replicate 15 NOGROUP) 100 0)) /\
  u_uid (id_calls [Seteuid 0; Setuid 0] (setuid 5 (MkCred 0 0 0 0 0 (replicate 16 NOGROUP) 0 0))) = 5.
Proof.
  split.
  - apply (proj1 (ids_confined [Seteuid 0; Setuid 0; Setegid 7] (MkCred 100 100 100 20 7 (20 :: replicate 15 NOGROUP) 100 0))). by split_and!.
  - apply (proj2 (ids_confined [Seteuid 0; Setuid 0] (MkCred 0 0 0 0 0 (replicate 16 NOGROUP) 0 0)) 5); done.
Defined.

(** ** Permissions *)

(** The class of users [u] is in for a file, as the number of the lowest bit
    of its permissions, and the list of its groups. *)
Fixpoint groups_of (gs : list Z) : list Z :=
  match gs with [] => [] | g :: gs => if g =? NOGROUP then [] else g :: groups_of gs end.
Definition class_of u (c : icommon) : Z :=
  if decide (u_uid u = ic_uid c) then 6 else if decide (ic_gid c ∈ groups_of (u_groups u)) then 3 else 0.
Definition perm_bit (mode : Z) : Z := if mode =? IREAD then 2 else if mode =? IWRITE then 1 else 0.
Definition may u (ip : incore) (mode : Z) : bool :=
  (u_uid u =? 0) || Z.testbit (ic_mode (i_c ip)) (class_of u (i_c ip) + perm_bit mode).
(** The reasons to refuse writing that no permission overrides. *)
Definition write_refused (ip : incore) (f : fs) : option Z :=
  let fmt := Z.land (ic_mode (i_c ip)) IFMT in
  if flag_on (ic_flags (i_c ip)) IMMUTABLE then Some EPERM
  else if negb (fs_ronly f =? 0) && negb ((fmt =? IFCHR) || (fmt =? IFBLK)) then Some EROFS
  else None.
Lemma in_groups_spec gs gid : in_groups gs gid = bool_decide (gid ∈ groups_of gs).
Proof.
  induction gs as [|g gs IH]; cbn [in_groups groups_of]; [by rewrite bool_decide_false by apply not_elem_of_nil|].
  destruct (g =? NOGROUP); [by rewrite bool_decide_false by apply not_elem_of_nil|]. rewrite IH.
  destruct (Z.eqb_spec g gid) as [->|Hne]; [by rewrite bool_decide_true by set_solver|]. apply bool_decide_ext. set_solver.
Qed.
Lemma land_bit w n : 0 <= n -> negb (Z.land w (2 ^ n) =? 0) = Z.testbit w n.
Proof.
  intros Hn. destruct (Z.testbit w n) eqn:E.
  - apply negb_true_iff, Z.eqb_neq. intros H0. assert (Z.testbit (Z.land w (2 ^ n)) n = true) as Ht
      by (by rewrite Z.land_spec, E, Z.pow2_bits_true). by rewrite H0, Z.bits_0 in Ht.
  - apply negb_false_iff, Z.eqb_eq, Z.bits_inj'. intros i Hi. rewrite Z.land_spec, Z.bits_0. destruct (decide (i = n)) as [->|Hne]; [by rewrite E|].
    rewrite Z.pow2_bits_false by done. apply andb_false_r.
Qed.

Lemma access_eq ip f mode u :
  mode = IREAD \/ mode = IWRITE \/ mode = IEXEC ->
  access ip f mode u =
    match (if mode =? IWRITE then write_refused ip f else None) with
    | Some e => (1, set_u_error e u)
    | None => if may u ip mode then (0, u) else (1, set_u_error EACCES u)
    end.
Proof.
  intros Hm. unfold access, write_refused, may. set (fmt := Z.land (ic_mode (i_c ip)) IFMT).
  assert ((if negb (Z.land (ic_mode (i_c ip)) (if negb (u_uid u =? ic_uid (i_c ip))
      then if in_groups (u_groups u) (ic_gid (i_c ip)) then Z.shiftr mode 3 else Z.shiftr (Z.shiftr mode 3) 3 else mode) =? 0)
    then (0, u) else (1, set_u_error EACCES u)) =
    if Z.testbit (ic_mode (i_c ip)) (class_of u (i_c ip) + perm_bit mode) then (0, u) else (1, set_u_error EACCES u)) as Hbit.
  { rewrite in_groups_spec. unfold class_of.
    destruct (Z.eqb_spec (u_uid u) (ic_uid (i_c ip))) as [E|E]; cbn [negb].
    - rewrite decide_True by done. rewrite <- land_bit; destruct Hm as [->|[->| ->]]; done.
    - rewrite decide_False by done. destruct (decide (ic_gid (i_c ip) ∈ groups_of (u_groups u))) as [Hg|Hg];
        [rewrite bool_decide_true by done|rewrite bool_decide_false by done]; rewrite <- land_bit; destruct Hm as [->|[->| ->]]; done. }
  destruct (u_uid u =? 0); destruct (mode =? IWRITE); cbn [andb orb]; rewrite ?Hbit; try done;
    destruct (flag_on _ IMMUTABLE); try done; destruct (fs_ronly f =? 0), (fmt =? IFCHR), (fmt =? IFBLK); cbn [negb andb orb]; done.
Qed.

(** (C28) access, for reading, writing or executing: writing is refused for
    everyone with EPERM on an immutable file and with EROFS on a read-only
    file system, devices excepted; the super-user gets what is left; anyone
    else is judged by exactly one of the owner's, the group's and the others'
    permissions, the first class the user is in, and gets EACCES when the bit
    is not set.  Nothing but u.u_error changes.  The text segments that the
    comment of the source excepts from writing are not looked at: a file that
    is executed is like any other. *)
Theorem access_spec ip f mode u :
  mode = IREAD \/ mode = IWRITE \/ mode = IEXEC ->
  access ip f mode u =
    match (if mode =? IWRITE then write_refused ip f else None) with
    | Some e => (1, set_u_error e u)
    | None => if may u ip mode then (0, u) else (1, set_u_error EACCES u)
    end.
Proof. apply access_eq. Qed.
Lemma access_spec_witness :
  access ex_oip ex_fs3 IWRITE (MkCred 5 5 5 20 20 (20 :: replicate 15 NOGROUP) 5 0) =
    (1, MkCred 5 5 5 20 20 (20 :: replicate 15 NOGROUP) 5 EACCES).
Proof. rewrite access_spec by auto. by vm_compute. Defined.

(** ** Attributes *)

(** What decides over the permissions of a file. *)
Definition same_rights (c c' : icommon) : Prop :=
  ic_mode c' = ic_mode c /\ ic_nlink c' = ic_nlink c /\ ic_uid c' = ic_uid c /\ ic_gid c' = ic_gid c /\ ic_flags c' = ic_flags c.
Lemma same_rights_trans a b c : same_rights a b -> same_rights b c -> same_rights a c.
Proof. intros (?&?&?&?&?) (?&?&?&?&?). unfold same_rights. split_and!; congruence. Qed.

Section Attr_ok.
Context {S : Type} `{BlockIO S}.
Implicit Types (f : fs) (s : S) (ip : incore) (a : @at_st S).

Lemma iupdat_rights now ta tm w ip f s ip' s' : iupdat now ta tm w ip f s = Some (ip', s') -> same_rights (i_c ip) (i_c ip').
Proof.
  unfold iupdat. assert (forall (b : bool) x g, same_rights (i_c x) (g (i_c x)) -> same_rights (i_c ip) (i_c x) ->
    same_rights (i_c ip) (i_c (if b then set_c (g (i_c x)) x else x))) as Hg by (intros [] x g ? ?; [by eapply same_rights_trans|done]).
  destruct (negb _); [by intros [= <- <-]|]. destruct (negb _); [by intros [= <- <-]|].
  destruct (io_bread _ _ _) as [[s1 bp]|]; [|done]. cbn [mbind option_bind]. destruct (io_berror s1 bp).
  - destruct (io_brelse bp s1) as [s2|]; [|done]. by intros [= <- <-].
  - cbv zeta. destruct (io_store _ _ _) as [s2|]; [|done]. cbn [mbind option_bind]. destruct (io_write _ _ _) as [s3|]; [|done].
    cbn [mbind option_bind]. intros [= <- <-]. cbn [clr_iflag set_map i_c]. by repeat (apply Hg; [done|]).
Qed.
Lemma itrunc_done_rights now err ip f s err' ip' f' s' : itrunc_done now err ip f s = Some (err', ip', f', s') -> same_rights (i_c ip) (i_c ip').
Proof.
  unfold itrunc_done. destruct (iupdat _ _ _ _ _ _ _) as [[ip1 s1]|] eqn:E; [|done]. cbn. intros [= <- <- <- <-]. by apply iupdat_rights in E.
Qed.
Lemma itrunc_cut_rights now fl err len ip f s err' ip' f' s' :
  itrunc_cut now fl err len ip f s = Some (err', ip', f', s') -> same_rights (i_c ip) (i_c ip').
Proof.
  unfold itrunc_cut. destruct (itrunc_indir _ _ _ _ _) as [[[[tip dn] f1] s1]|]; [|done]. cbn [mbind option_bind].
  destruct (if dn : bool then _ else _) as [[[tip1 f2] s2]|]; [|done]. cbn [mbind option_bind]. by intros E%itrunc_done_rights.
Qed.
Lemma itrunc_rights now rab err len fl ip f s err' ip' f' s' :
  itrunc now rab err len fl ip f s = Some (err', ip', f', s') -> same_rights (i_c ip) (i_c ip').
Proof.
  unfold itrunc. set (ip1 := if iflag_on ip IPIPE then _ else _). assert (same_rights (i_c ip) (i_c ip1)) as H1 by (unfold ip1; by destruct (iflag_on _ _)).
  intros E. eapply same_rights_trans; [exact H1|]. revert E. generalize ip1. clear. intros ip2. destruct (_ && _); [apply itrunc_done_rights|].
  destruct (_ <? len).
  - destruct (bmap _ _ _ _ _ _ _ _) as [bn ra e m f1 s1|]; [|done]. destruct (_ || _); [by intros [= <- <- <- <-]|]. by intros E%itrunc_done_rights.
  - destruct (negb _); [|apply itrunc_cut_rights]. destruct (bmap _ _ _ _ _ _ _ _) as [bn ra e m f1 s1|]; [|done].
    destruct (_ || _); [by intros [= <- <- <- <-]|]. destruct (io_bread _ _ _) as [[s2 bp]|]; [|done]. cbn [mbind option_bind].
    destruct (io_berror _ _); [destruct (io_brelse _ _); [by intros [= <- <- <- <-]|done]|].
    repeat (destruct (io_store _ _ _); [cbn [mbind option_bind]|done]); repeat (destruct (io_write _ _ _); [cbn [mbind option_bind]|done]).
    intros E. by apply itrunc_cut_rights in E.
Qed.

(** A stranger to the file: not its owner and not the super-user. *)
Definition stranger a : Prop := u_uid (at_u a) <> 0 /\ u_uid (at_u a) <> ic_uid (i_c (at_ip a)).
Definition st_of (r : step) : @at_st S := match r with Next a => a | Done _ a => a end.
(** What decides over permissions and who the caller is stay. *)
Definition held a a' : Prop := same_rights (i_c (at_ip a)) (i_c (at_ip a')) /\ u_uid (at_u a') = u_uid (at_u a).
(** A step of setattr refuses what is asked in [P], or returns another error. *)
Definition refuses (P : Prop) a (r : option step) : Prop :=
  match r with None => True | Some (Next a') => held a a' /\ ~ P | Some (Done e a') => held a a' /\ e <> 0 end.
Definition refused (P : Prop) a (r : option step) : Prop :=
  match r with None => True | Some x => held a (st_of x) /\ match x with Next _ => ~ P | Done e _ => P -> e <> 0 end end.
Lemma held_trans a b c : held a b -> held b c -> held a c.
Proof. intros [A1 A2] [B1 B2]. split; [by eapply same_rights_trans|congruence]. Qed.
Lemma refuses_then P Q a r k : stranger a -> refuses P a r -> (forall a', stranger a' -> refused Q a' (k a')) -> refused (P \/ Q) a (then_step r k).
Proof.
  intros Hs Hr Hk. destruct r as [[a1|e a1]|]; [|split; [apply Hr|intros _; apply Hr]|done]. destruct Hr as [Hh Hp]. cbn [then_step].
  assert (stranger a1) as Hs1 by (destruct Hh as [(_&_&E1&_) E2], Hs; split; congruence). specialize (Hk a1 Hs1).
  destruct (k a1) as [x|]; [|done]. destruct Hk as [Hh' Hq]. split; [by eapply held_trans|]. destruct x; tauto.
Qed.
Lemma refuses_next (P : Prop) a : ~ P -> refuses P a (Some (Next a)).
Proof. by repeat split. Qed.
Lemma stranger_suser a : stranger a -> (if negb (u_uid (at_u a) =? ic_uid (i_c (at_ip a))) then suser (at_u a) else (true, at_u a)) = (false, set_u_error EPERM (at_u a)).
Proof. intros [H1 H2]. rewrite (proj2 (Z.eqb_neq _ _) H2). unfold suser. by rewrite (proj2 (Z.eqb_neq _ _) H1). Qed.
Lemma flags_refused sl vap a : stranger a -> refuses (va_flags vap <> VNOVAL_U) a (setattr_flags sl vap a).
Proof.
  intros Hs. unfold setattr_flags. destruct (Z.eqb_spec (va_flags vap) VNOVAL_U); cbn [negb]; [by apply refuses_next; intros ?|].
  rewrite (stranger_suser a Hs). by repeat split.
Qed.
Lemma owner_refused vap a : stranger a -> refuses (va_uid vap <> VNOVAL_U \/ va_gid vap <> VNOVAL_U) a (setattr_owner vap a).
Proof.
  intros Hs. unfold setattr_owner. destruct (negb _ || negb _) eqn:E.
  - unfold chown1. rewrite (proj2 (Z.eqb_neq _ _) (proj2 Hs)). cbn [negb orb]. unfold suser. rewrite (proj2 (Z.eqb_neq _ _) (proj1 Hs)). by repeat split.
  - apply orb_false_iff in E as [E1%negb_false_iff%Z.eqb_eq E2%negb_false_iff%Z.eqb_eq]. apply refuses_next. tauto.
Qed.
Lemma size_refused now rab vap a : stranger a -> refuses False a (setattr_size now rab vap a).
Proof.
  intros Hs. unfold setattr_size. destruct (negb _); [|apply refuses_next; auto]. destruct (_ =? IFDIR); [by repeat split|].
  destruct (itrunc _ _ _ _ _ _ _ _) as [[[[err ip] f] s]|] eqn:E; [|done]. cbn [mbind option_bind]. apply itrunc_rights in E.
  destruct (Z.eqb_spec err 0); cbn [negb]; (split; [by split|auto]).
Qed.
Lemma times_refused now vap a : stranger a -> refuses False a (setattr_times now vap a).
Proof.
  intros Hs. unfold setattr_times. destruct (negb _ || negb _); [|apply refuses_next; auto]. rewrite (stranger_suser a Hs). cbn [negb].
  assert (exists r u, (if negb (flag_on (va_vaflags vap) VA_UTIMES_NULL) then (true, set_u_error EPERM (at_u a))
    else let '(r, u) := access (at_ip a) (at_f a) IWRITE (set_u_error EPERM (at_u a)) in (negb (r =? 0), u)) = (r, u) /\
    u_uid u = u_uid (at_u a) /\ (r = true -> u_error u <> 0)) as (r&u&->&Hu&Hr).
  { destruct (negb (flag_on _ _)); [by eexists _, _|]. rewrite access_eq by auto. cbn [Z.eqb].
    destruct (if _ =? _ then _ else _) as [e|] eqn:Ee.
    - eexists _, _. split; [done|]. split; [done|]. intros _. cbn. destruct (_ =? _); [|done]. unfold write_refused in Ee.
      destruct (flag_on _ _); [by injection Ee as <-|]. destruct (_ && _); [by injection Ee as <-|done].
    - destruct (may _ _ _); by eexists _, _. }
  destruct r; [split; [by split|auto]|].
  destruct (iupdat _ _ _ _ _ _ _) as [[ip s]|] eqn:E; [|done]. cbn [mbind option_bind]. apply iupdat_rights in E.
  split; [|auto]. split; [|done]. cbn. eapply same_rights_trans; [|exact E]. by repeat destruct (_ && _); repeat destruct (negb _).
Qed.
Lemma mode_refused vap a : stranger a -> refused (va_mode vap <> VNOVAL_U) a (setattr_mode vap a).
Proof.
  intros Hs. unfold setattr_mode. destruct (Z.eqb_spec (va_mode vap) VNOVAL_U); cbn [negb]; [by repeat split|].
  unfold chmod1. rewrite (stranger_suser a Hs). by repeat split.
Qed.

(** (C24) A user who neither owns a file nor is the super-user cannot change
    its mode, its owner, its group, its flags or its number of links through
    ufs_setattr, whatever is asked along with it (a new size, new times), and
    a request that asks for a new mode, owner, group or flags returns an
    error. *)
Theorem setattr_protects now rab sl vap a x :
  stranger a -> ufs_setattr now rab sl vap a = Some x ->
  held a (st_of x) /\
  (va_flags vap <> VNOVAL_U \/ va_uid vap <> VNOVAL_U \/ va_gid vap <> VNOVAL_U \/ va_mode vap <> VNOVAL_U ->
   exists e a', x = Done e a' /\ e <> 0).
Proof.
  intros Hs. unfold ufs_setattr. destruct (negb _); [intros [= <-]; split; [by repeat split|]; intros _; by eexists _, _|].
  match goal with |- ?r = _ -> _ => assert (refused (va_flags vap <> VNOVAL_U \/ ((va_uid vap <> VNOVAL_U \/ va_gid vap <> VNOVAL_U) \/ False \/ False \/ va_mode vap <> VNOVAL_U)) a r) as Hr end.
  { apply refuses_then; [done|by apply flags_refused|]. intros a1 Hs1.
    destruct (flag_on _ _); [split; [by repeat split|by intros _]|].
    apply refuses_then; [done|by apply owner_refused|]. intros a2 Hs2.
    apply refuses_then; [done|by apply size_refused|]. intros a3 Hs3.
    apply refuses_then; [done|by apply times_refused|]. intros a4 Hs4. by apply mode_refused. }
  intros E. rewrite E in Hr. destruct Hr as [Hh Hr]. split; [done|]. intros Hask. destruct x as [a'|e a']; [tauto|]. exists e, a'. split; [done|]. tauto.
Qed.

(** While the flags of a file say that it is immutable or append-only
    nothing but the flags can be changed by ufs_setattr, by the super-user
    either: a request that leaves the flags alone is refused with EPERM (with
    EROFS on a read-only file system) and changes nothing. *)
Theorem setattr_immutable now rab sl vap a :
  flag_on (ic_flags (i_c (at_ip a))) (Z.lor IMMUTABLE APPEND) = true -> va_flags vap = VNOVAL_U ->
  ufs_setattr now rab sl vap a = Some (Done (if fs_ronly (at_f a) =? 0 then EPERM else EROFS) a).
Proof.
  intros Hf Hv. unfold ufs_setattr. destruct (fs_ronly (at_f a) =? 0); [|done]. cbn [negb]. unfold setattr_flags. rewrite Hv, Z.eqb_refl. cbn [negb then_step].
  by rewrite Hf.
Qed.

(** (C34) The times a stranger may set with utimes: every one, when the
    permissions of the file allow writing, since the attributes utimes starts
    from have the bit VA_UTIMES_NULL set before it is looked at; otherwise
    the error is EACCES.  The times are marked and written out with the
    inode. *)
Theorem utimes_spec now rab sl a tv :
  stranger a -> fs_ronly (at_f a) = 0 -> flag_on (ic_flags (i_c (at_ip a))) (Z.lor IMMUTABLE APPEND) = false ->
  (forall ta tm, tv = Some (ta, tm) -> ta <> VNOVAL /\ tm <> VNOVAL) -> now <> VNOVAL ->
  let ta := match tv with Some (ta, _) => ta | None => now end in
  let tm := match tv with Some (_, tm) => tm | None => now end in
  let noatime := flag_on (fs_flags (at_f a)) MNT_NOATIME in
  let ip := or_iflag (IUPD + ICHG) (if noatime then at_ip a else or_iflag IACC (at_ip a)) in
  ufs_setattr now rab sl (utimes_vattr now tv) a =
    if may (at_u a) (at_ip a) IWRITE then
      '(ip, s) ← iupdat now ta tm true ip (at_f a) (at_s a);
      Some (Done 0 (MkAt (set_u_error EPERM (at_u a)) ip (at_f a) s))
    else Some (Done EACCES (set_at_u (set_u_error EACCES (at_u a)) a)).
Proof.
  intros Hs Hro Hfl Htv Hnow ta tm noatime ip. unfold ufs_setattr. rewrite Hro. cbn [Z.eqb negb].
  assert (ta <> VNOVAL /\ tm <> VNOVAL) as [Ha Hm] by (unfold ta, tm; destruct tv as [[]|]; [by apply Htv|done]).
  assert (utimes_vattr now tv = MkVattr VNOVAL_U VNOVAL_U VNOVAL_U VNOVAL ta tm VNOVAL_U VNOVAL_U) as -> by (unfold ta, tm; by destruct tv as [[]|]).
  set (v := MkVattr _ _ _ _ _ _ _ _). assert (setattr_flags sl v a = Some (Next a)) as -> by done. cbn [then_step]. rewrite Hfl.
  assert (setattr_owner v a = Some (Next a)) as -> by done. cbn [then_step]. assert (setattr_size now rab v a = Some (Next a)) as -> by done. cbn [then_step].
  unfold setattr_times. cbn [v va_atime va_mtime va_vaflags]. rewrite (proj2 (Z.eqb_neq _ _) Ha), (proj2 (Z.eqb_neq _ _) Hm). cbn [negb orb].
  rewrite (stranger_suser a Hs). cbn [negb]. assert (flag_on VNOVAL_U VA_UTIMES_NULL = true) as -> by done. cbn [negb].
  rewrite access_eq by auto. assert ((if IWRITE =? IWRITE then write_refused (at_ip a) (at_f a) else None) = None) as ->.
  { cbn [Z.eqb]. unfold write_refused. assert (flag_on (ic_flags (i_c (at_ip a))) IMMUTABLE = false) as ->.
    { apply flag_on_land in Hfl. apply flag_on_land. rewrite Z.land_lor_distr_r in Hfl. by apply Z.lor_eq_0_iff in Hfl as [? _]. }
    by rewrite Hro. }
  assert (may (set_u_error EPERM (at_u a)) (at_ip a) IWRITE = may (at_u a) (at_ip a) IWRITE) as -> by done.
  destruct (may _ _ _); [|done]. cbn [Z.eqb negb set_at_u at_f at_s andb]. fold noatime.
  assert ((if negb noatime then or_iflag IACC (at_ip a) else at_ip a) = (if noatime then at_ip a else or_iflag IACC (at_ip a))) as -> by (by destruct noatime).
  fold ip. destruct (iupdat _ _ _ _ _ _ _) as [[ip' s']|]; done.
Qed.
End Attr_ok.

(** User 5 and the file of [ex_oip], which belongs to user 0. *)
Definition ex_user : cred := MkCred 5 5 5 20 20 (20 :: replicate 15 NOGROUP) 5 0.
Definition ex_at (ip : incore) (s : Bio.cache) : @at_st Bio.cache := MkAt ex_user ip ex_fs3 s.
Definition ex_chmod : vattr := MkVattr 511 VNOVAL_U VNOVAL_U VNOVAL VNOVAL VNOVAL VNOVAL_U VNOVAL_U.
Lemma setattr_protects_witness : exists e a', @ufs_setattr _ ex_io 7 0 0 ex_chmod (ex_at ex_oip ex_cache) = Some (Done e a') /\ e <> 0.
Proof.
  assert (forall s, @ufs_setattr _ ex_io 7 0 0 ex_chmod (ex_at ex_oip s) = Some (Done EPERM (set_at_u (set_u_error EPERM ex_user) (ex_at ex_oip s)))) as E
    by (intros s; reflexivity).
  assert (forall s, stranger (ex_at ex_oip s)) as Hs by (by intros s; split).
  destruct (proj2 (@setattr_protects _ ex_io 7 0 0 ex_chmod (ex_at ex_oip ex_cache) _ (Hs _) (E _))) as (e&a'&Ex&He); [by do 3 right|].
  exists e, a'. split; [|exact He]. rewrite <- Ex. exact (E ex_cache).
Defined.
Definition ex_immutable : incore := set_c (set_ic_flags SF_IMMUTABLE (i_c ex_oip)) ex_oip.
Lemma setattr_immutable_witness :
  @ufs_setattr _ ex_io 7 0 0 ex_chmod (ex_at ex_immutable ex_cache) = Some (Done EPERM (ex_at ex_immutable ex_cache)).
Proof. exact (@setattr_immutable _ ex_io 7 0 0 ex_chmod (ex_at ex_immutable ex_cache) eq_refl eq_refl). Defined.
(** A file that everyone may write. *)
Definition ex_open : incore := set_c (set_mode 33206 (i_c ex_oip)) ex_oip.
Lemma utimes_spec_witness :
  @ufs_setattr _ ex_io 7 0 0 (utimes_vattr 7 (Some (1, 2))) (ex_at ex_open ex_cache) =
    '(ip, s) ← @iupdat _ ex_io 7 1 2 true (or_iflag (IUPD + ICHG) (or_iflag IACC ex_open)) ex_fs3 ex_cache;
    Some (Done 0 (MkAt (set_u_error EPERM ex_user) ip ex_fs3 s)).
Proof.
  generalize ex_cache. intros s. assert (stranger (ex_at ex_open s)) as Hs by (by split).
  assert (may ex_user ex_open IWRITE = true) as Em by reflexivity.
  assert (forall ta tm : Z, Some (1, 2) = Some (ta, tm) -> ta <> VNOVAL /\ tm <> VNOVAL) as Ht by (by intros ? ? [= <- <-]).
  pose proof (@utimes_spec _ ex_io 7 0 0 (ex_at ex_open s) (Some (1, 2)) Hs eq_refl eq_refl Ht ltac:(done)) as E.
  cbv zeta in E. cbn [ex_at at_u at_ip at_f at_s] in E. rewrite Em in E.
  assert (flag_on (fs_flags ex_fs3) MNT_NOATIME = false) as En by reflexivity. rewrite En in E. exact E.
Defined.
End Prot.
