(* ===== verification/Dir.v ===== *)
(** Directories (sys/include/dir.h, sys/kernel/ufs_namei.c): the search for a
    name in a directory, with the search for room for a new one, and the
    entering, removing and rewriting of entries.

    A directory is its size and the bytes of its blocks.  What bmap, bread and
    rdwri do between these and the disk is in the components of the block map
    and of reading and writing; the walk of namei along a path, and its cache
    of names, are not modelled. *)
From S2P Require Import Prelude.

Module Dir.

(** ** Data *)

Definition DIRBLKSIZ : Z := 1024.
Definition MAXNAMLEN : Z := 63.
Definition NAMEOFF : Z := 8.
(** [((sizeof (struct direct) - (MAXNAMLEN+1)) + namlen+1) + 3) &~ 3] *)
Definition DIRSIZ (namlen : Z) : Z := Z.land (NAMEOFF + namlen + 1 + 3) (Z.lnot 3).
Definition roundup (x y : Z) : Z := (x + (y - 1)) / y * y.
Definition blkoff (loc : Z) : Z := Z.land loc (DIRBLKSIZ - 1).
Definition lblkno (loc : Z) : Z := Z.shiftr (u32 loc) 10.

Definition len {A} (l : list A) : Z := Z.of_nat (length l).

(** [struct direct], with the 64 bytes of d_name. *)
Record direct := MkDirect { d_ino : Z; d_reclen : Z; d_namlen : Z; d_name : list Z }.
Definition le16 (v : Z) : list Z := [v mod 256; v / 256 mod 256].
Definition le32 (v : Z) : list Z := le16 (v mod 65536) ++ le16 (v / 65536).
Definition direct_bytes (d : direct) : list Z := le32 (d_ino d) ++ le16 (d_reclen d) ++ le16 (d_namlen d) ++ d_name d.
Definition set_ino (v : Z) (d : direct) : direct := MkDirect v (d_reclen d) (d_namlen d) (d_name d).
Definition set_reclen (v : Z) (d : direct) : direct := MkDirect (d_ino d) v (d_namlen d) (d_name d).

(** The directory: i_size, and the bytes of its blocks. *)
Record dir := MkDir { i_size : Z; data : list Z }.
Implicit Types (b : list Z) (d : dir) (o : Z).

(** ** Reading and writing a buffer *)

Definition rd8 b o : res Z := if o <? 0 then Fault else rd b (Z.to_nat o).
Definition rd16 b o : res Z := x ← rd8 b o; y ← rd8 b (o + 1); Ok (x + 256 * y).
Definition rd32 b o : res Z := x ← rd16 b o; y ← rd16 b (o + 2); Ok (x + 65536 * y).
Definition bytes_at b o (n : Z) : res (list Z) :=
  if (o <? 0) || (n <? 0) || (len b <? o + n) then Fault else Ok (take (Z.to_nat n) (drop (Z.to_nat o) b)).
Definition put_bytes o (x : list Z) b : res (list Z) :=
  if (o <? 0) || (len b <? o + len x) then Fault else Ok (take (Z.to_nat o) b ++ x ++ drop (Z.to_nat (o + len x)) b).
(** The fields of the entry at [o]. *)
Definition ep_ino b o : res Z := rd32 b o.
Definition ep_reclen b o : res Z := rd16 b (o + 4).
Definition ep_namlen b o : res Z := rd16 b (o + 6).

(** The block of the directory that holds the offset, or the error of a hole. *)
Definition blkatoff d (offset : Z) : option (list Z) :=
  let k := lblkno offset * DIRBLKSIZ in
  if k + DIRBLKSIZ <=? len (data d) then Some (take (Z.to_nat DIRBLKSIZ) (drop (Z.to_nat k) (data d))) else None.
(** bwrite of the buffer blkatoff gave. *)
Definition blkwrite d (offset : Z) b : dir :=
  let k := Z.to_nat (lblkno offset * DIRBLKSIZ) in
  MkDir (i_size d) (take k (data d) ++ b ++ drop (k + length b) (data d)).
(** rdwri (UIO_WRITE, ..., IO_UNIT|IO_SYNC, 0) of [x], which lies in one block;
    [e] is the error rwip comes to, as ENOSPC of bmap or EIO of the disk, or 0.
    A failed write leaves the directory as it was: rwip returns before it
    changes the size, or truncates the file again by IO_UNIT.  As the request
    is not done, rdwri returns EIO for every error.  New blocks are cleared
    first. *)
Definition EIO : Z := 5.
Definition dwrite (e offset : Z) (x : list Z) d : Z * dir :=
  if negb (e =? 0) then (EIO, d)
  else
    let fill := Z.to_nat (roundup (offset + len x) DIRBLKSIZ - len (data d)) in
    let old := data d ++ replicate fill 0 in
    (0, MkDir (Z.max (i_size d) (offset + len x)) (take (Z.to_nat offset) old ++ x ++ drop (Z.to_nat (offset + len x)) old)).

(** [for (i = 0; i < ep->d_namlen; i++) if (ep->d_name[i] == '\0') return (1);] *)
Fixpoint no_nul b o (n : nat) : res bool :=
  match n with O => Ok true | S n => c ← rd8 b o; if c =? 0 then Ok false else no_nul b (o + 1) n end.
Definition dirbadentry b (ep : Z) : res bool :=
  reclen ← ep_reclen b ep;
  namlen ← ep_namlen b ep;
  if negb (Z.land reclen 3 =? 0) || (DIRBLKSIZ - Z.land ep (DIRBLKSIZ - 1) <? reclen) || (reclen <? DIRSIZ namlen) || (MAXNAMLEN <? namlen)
  then Ok true
  else
    ok ← no_nul b (ep + NAMEOFF) (Z.to_nat namlen);
    if negb ok then Ok true
    else c ← rd8 b (ep + NAMEOFF + namlen); Ok (negb (c =? 0)).

(** ** Searching a directory *)

Inductive slot := NONE | COMPACT | FOUND.
Record srch := MkSrch {
  s_offset : Z; s_eoff : Z; s_bp : option (list Z); s_prevoff : Z;
  s_status : slot; s_slotoffset : Z; s_slotsize : Z; s_free : Z; s_useful : Z }.
(** The name is found at the offset of the state, with d_ino and d_reclen; or
    not; or a block cannot be read. *)
Inductive sres := SFound (s : srch) (ino reclen : Z) | SNone (s : srch) | SBad.

Section Search.
Context (dirchk : bool) d (dent : direct) (slotneeded : Z).

(** The test for room in the entry: a slot of its own, or to be made by
    compaction of the entries from slotoffset. *)
Definition slot_step (ino reclen namlen : Z) (s : srch) : srch :=
  match s_status s with
  | FOUND => s
  | st =>
      let size := if negb (ino =? 0) then reclen - DIRSIZ namlen else reclen in
      if 0 <? size then
        if slotneeded <=? size then
          MkSrch (s_offset s) (s_eoff s) (s_bp s) (s_prevoff s) FOUND (s_offset s) reclen (s_free s) (s_useful s)
        else match st with
        | NONE =>
            let free := s_free s + size in
            let so := if s_slotoffset s =? -1 then s_offset s else s_slotoffset s in
            if slotneeded <=? free then
              MkSrch (s_offset s) (s_eoff s) (s_bp s) (s_prevoff s) COMPACT so (s_offset s + reclen - so) free (s_useful s)
            else MkSrch (s_offset s) (s_eoff s) (s_bp s) (s_prevoff s) NONE so (s_slotsize s) free (s_useful s)
        | _ => s
        end
      else s
  end.
Definition same_name b (ep namlen : Z) : res bool :=
  if namlen =? d_namlen dent then
    x ← bytes_at b (ep + NAMEOFF) namlen;
    Ok (bool_decide (x = take (Z.to_nat namlen) (d_name dent)))
  else Ok false.
(** The start of a turn: at the start of a block it is read, and the room
    looked for begins anew. *)
Definition begin_turn (s : srch) : option srch :=
  let s1 := if blkoff (s_offset s) =? 0 then
              match blkatoff d (s_offset s) with
              | None => None
              | Some bp => Some (MkSrch (s_offset s) 0 (Some bp) (s_prevoff s) (s_status s) (s_slotoffset s) (s_slotsize s) (s_free s) (s_useful s))
              end
            else Some s in
  match s1 with
  | None => None
  | Some s =>
      Some (match s_status s with
            | NONE => if Z.land (s_eoff s) (DIRBLKSIZ - 1) =? 0 then
                        MkSrch (s_offset s) (s_eoff s) (s_bp s) (s_prevoff s) NONE (-1) (s_slotsize s) 0 (s_useful s)
                      else s
            | _ => s
            end)
  end.
Fixpoint searchloop (fuel : nat) (endsearch : Z) (s : srch) : res sres :=
  match fuel with
  | O => Fault
  | S fuel =>
      if s_offset s <? endsearch then
        match begin_turn s with
        | None => Ok SBad
        | Some s =>
            match s_bp s with
            | None => Fault
            | Some bp =>
                let ep := s_eoff s in
                reclen ← ep_reclen bp ep;
                bad ← (if reclen =? 0 then Ok true else if dirchk then dirbadentry bp ep else Ok false);
                if bad : bool then
                  let i := DIRBLKSIZ - Z.land (s_eoff s) (DIRBLKSIZ - 1) in
                  searchloop fuel endsearch
                    (MkSrch (s_offset s + i) (s_eoff s + i) (s_bp s) (s_prevoff s) (s_status s) (s_slotoffset s) (s_slotsize s) (s_free s) (s_useful s))
                else
                  ino ← ep_ino bp ep;
                  namlen ← ep_namlen bp ep;
                  let s := slot_step ino reclen namlen s in
                  hit ← (if negb (ino =? 0) then same_name bp ep namlen else Ok false);
                  if hit : bool then Ok (SFound s ino reclen)
                  else
                    let off := s_offset s + reclen in
                    searchloop fuel endsearch
                      (MkSrch off (s_eoff s + reclen) (s_bp s) (s_offset s) (s_status s) (s_slotoffset s) (s_slotsize s) (s_free s)
                         (if negb (ino =? 0) then off else s_useful s))
            end
        end
      else Ok (SNone s)
  end.
(** Each turn goes on by a byte at least. *)
Definition search_fuel : nat := S (Z.to_nat (roundup (i_size d) DIRBLKSIZ)).
(** The search from the offset [start], where the process left off at its last
    lookup, over the end of the directory to where it started; [create] for
    flag == CREATE at the end of the path. *)
Definition search (create : bool) (start : Z) : res sres :=
  let status := if create then NONE else FOUND in
  let s := MkSrch start (blkoff start) (if blkoff start =? 0 then None else blkatoff d start) 0 status (-1) 0 0 0 in
  if negb (blkoff start =? 0) && bool_decide (blkatoff d start = None) then Ok SBad
  else
    r ← searchloop search_fuel (roundup (i_size d) DIRBLKSIZ) s;
    match r with
    | SNone s =>
        if start =? 0 then Ok (SNone s)
        else searchloop search_fuel start (MkSrch 0 (s_eoff s) (s_bp s) (s_prevoff s) (s_status s) (s_slotoffset s) (s_slotsize s) (s_free s) (s_useful s))
    | r => Ok r
    end.
End Search.

(** Where the search starts: the process' last lookup left [nc_prevoffset], and
    [same] says that it was in this directory. *)
Definition search_start (lookup same : bool) (nc_prevoffset : Z) d : Z :=
  if negb lookup || negb same then 0 else if i_size d <? nc_prevoffset then 0 else nc_prevoffset.
Definition save_offset (s : srch) : Z := Z.land (s_offset s) (Z.lnot (DIRBLKSIZ - 1)).
(** At the entry found, i_size is made to reach it. *)
Definition fix_size (s : srch) (dent : direct) d : dir :=
  let e := s_eoff s + DIRSIZ (d_namlen dent) in
  if i_size d <? e then MkDir e (data d) else d.

(** ** What namei leaves for the change of the entry *)

Record nameidata := MkNd { ni_offset : Z; ni_count : Z; ni_endoff : Z; ni_dent : direct }.
(** The name is not there and is to be created. *)
Definition create_slot d (s : srch) (dent : direct) : nameidata :=
  match s_status s with
  | NONE => let off := roundup (i_size d) DIRBLKSIZ in MkNd off 0 (roundup off DIRBLKSIZ) dent
  | _ =>
      let useful := s_useful s in
      let useful := if useful <? s_slotoffset s + s_slotsize s then s_slotoffset s + s_slotsize s else useful in
      MkNd (s_slotoffset s) (u16 (s_slotsize s)) (roundup useful DIRBLKSIZ) dent
  end.
(** The name is there and is to be deleted. *)
Definition delete_slot (s : srch) (ino reclen : Z) (dent : direct) : nameidata :=
  let count := if Z.land (s_offset s) (DIRBLKSIZ - 1) =? 0 then 0 else u16 (s_offset s - s_prevoff s) in
  MkNd (s_offset s) count 0 (set_reclen reclen (set_ino ino dent)).

(** ** direnter *)

(** The compaction of the entries from [base] on: the buffer, the last entry,
    its size and the free space after it. *)
Fixpoint compact (fuel : nat) (base count : Z) b (ep dsize spacefree loc : Z) : res (list Z * Z * Z * Z) :=
  match fuel with
  | O => Fault
  | S fuel =>
      if loc <? count then
        let nep := base + loc in
        ino ← ep_ino b ep;
        '(b, ep, spacefree) ← (if negb (ino =? 0) then b ← put_bytes (ep + 4) (le16 (u16 dsize)) b; Ok (b, ep + dsize, spacefree)
                               else Ok (b, ep, s32 (spacefree + dsize)));
        namlen ← ep_namlen b nep;
        let dsize := DIRSIZ namlen in
        reclen ← ep_reclen b nep;
        let spacefree := s32 (spacefree + (reclen - dsize)) in
        let loc := loc + reclen in
        x ← bytes_at b nep dsize;
        b ← put_bytes ep x b;
        compact fuel base count b ep dsize spacefree loc
      else Ok (b, ep, dsize, spacefree)
  end.
(** The block with the new entry. *)
Definition enter_block (base count : Z) (dent : direct) b : res (list Z) :=
  let newentrysize := DIRSIZ (d_namlen dent) in
  namlen ← ep_namlen b base;
  reclen ← ep_reclen b base;
  let dsize := DIRSIZ namlen in
  '(b, ep, dsize, spacefree) ← compact (S (Z.to_nat count)) base count b base dsize (s32 (reclen - dsize)) reclen;
  ino ← ep_ino b ep;
  if ino =? 0 then
    if u32 (spacefree + dsize) <? u32 newentrysize then Panic "wdir: compact1"
    else put_bytes ep (take (Z.to_nat newentrysize) (direct_bytes (set_reclen (u16 (spacefree + dsize)) dent))) b
  else if spacefree <? newentrysize then Panic "wdir: compact2"
  else
    b ← put_bytes (ep + 4) (le16 (u16 dsize)) b;
    put_bytes (ep + dsize) (take (Z.to_nat newentrysize) (direct_bytes (set_reclen (u16 spacefree) dent))) b.
(** itrunc (dp, length, 0) *)
Definition dtrunc (length : Z) d : dir := MkDir length (take (Z.to_nat length) (data d)).
(** The value returned and the directory; [e] is the outcome of the write of a
    new block.  [None]: the block with the room cannot be read, and u.u_error is
    returned. *)
Definition direnter (e ino : Z) (nd : nameidata) d : res (option (Z * dir)) :=
  let dent := set_ino ino (ni_dent nd) in
  let newentrysize := DIRSIZ (d_namlen dent) in
  if ni_count nd =? 0 then
    if flag_on (ni_offset nd) (DIRBLKSIZ - 1) then Panic "wdir: newblk"
    else
      let '(error, d) := dwrite e (ni_offset nd) (take (Z.to_nat newentrysize) (direct_bytes (set_reclen DIRBLKSIZ dent))) d in
      Ok (Some (error, MkDir (roundup (i_size d) DIRBLKSIZ) (data d)))
  else
    let d := if i_size d <? ni_offset nd + ni_count nd then MkDir (ni_offset nd + ni_count nd) (data d) else d in
    match blkatoff d (ni_offset nd) with
    | None => Ok None
    | Some b =>
        b ← enter_block (blkoff (ni_offset nd)) (ni_count nd) dent b;
        let d := blkwrite d (ni_offset nd) b in
        Ok (Some (0, if negb (ni_endoff nd =? 0) && (ni_endoff nd <? i_size d) then dtrunc (ni_endoff nd) d else d))
    end.

(** ** dirremove, dirrewrite and dirempty *)

(** [None] is the result 0, the block cannot be read.  The error of the write
    of the first entry of a block is not looked at. *)
Definition dirremove (e : Z) (nd : nameidata) d : res (option dir) :=
  if ni_count nd =? 0 then
    let dent := set_ino 0 (ni_dent nd) in
    let '(_, d) := dwrite e (ni_offset nd) (take (Z.to_nat (DIRSIZ (d_namlen dent))) (direct_bytes dent)) d in
    Ok (Some d)
  else
    let off := ni_offset nd - ni_count nd in
    match blkatoff d off with
    | None => Ok None
    | Some b =>
        reclen ← ep_reclen b (blkoff off);
        b ← put_bytes (blkoff off + 4) (le16 (u16 (reclen + d_reclen (ni_dent nd)))) b;
        Ok (Some (blkwrite d off b))
    end.
(** u.u_error and the directory. *)
Definition dirrewrite (e ino : Z) (nd : nameidata) d : Z * dir :=
  let dent := set_ino ino (ni_dent nd) in
  dwrite e (ni_offset nd) (take (Z.to_nat (DIRSIZ (d_namlen dent))) (direct_bytes dent)) d.

Definition MINDIRSIZ : Z := 12.
Definition DOT : Z := 46.
Fixpoint dirempty_loop (fuel : nat) (parentino off : Z) d : res bool :=
  match fuel with
  | O => Fault
  | S fuel =>
      if off <? i_size d then
        if i_size d <? off + MINDIRSIZ then Ok false
        else
          dp ← bytes_at (data d) off MINDIRSIZ;
          reclen ← ep_reclen dp 0;
          if reclen =? 0 then Ok false
          else
            ino ← ep_ino dp 0;
            if ino =? 0 then dirempty_loop fuel parentino (off + reclen) d
            else
              namlen ← ep_namlen dp 0;
              if 2 <? namlen then Ok false
              else
                c0 ← rd8 dp 8;
                if negb (c0 =? DOT) then Ok false
                else if namlen =? 1 then dirempty_loop fuel parentino (off + reclen) d
                else
                  c1 ← rd8 dp 9;
                  if (c1 =? DOT) && (ino =? parentino) then dirempty_loop fuel parentino (off + reclen) d
                  else Ok false
      else Ok true
  end.
Definition dirempty (parentino : Z) d : res bool := dirempty_loop (S (Z.to_nat (i_size d))) parentino 0 d.
End Dir.
