(* ===== verification/Dirent.v ===== *)
(** The records of a directory block: a block is a sequence of entries that
    covers it, and entering a name into it compacts the entries of the slot
    namei found and adds the name behind them. *)
From S2P Require Import Prelude Dir.
Import Dir.

Module Dirent.
Implicit Types (b pre post sl junk : list Z).

(** ** Buffers in parts *)

Lemma len_app {A} (l1 l2 : list A) : len (l1 ++ l2) = len l1 + len l2.
Proof. unfold len. rewrite length_app. lia. Qed.
Lemma len_cons {A} (x : A) l : len (x :: l) = 1 + len l.
Proof. unfold len. simpl length. lia. Qed.
Lemma len_nonneg {A} (l : list A) : 0 <= len l.
Proof. unfold len. lia. Qed.
Lemma len_nil {A} : len (@nil A) = 0.
Proof. done. Qed.
Lemma rd8_at pre l (k : nat) : rd8 (pre ++ l) (len pre + Z.of_nat k) = rd l k.
Proof.
  unfold rd8, len. rewrite (proj2 (Z.ltb_ge _ _)) by lia. unfold rd. replace (Z.to_nat (Z.of_nat (length pre) + Z.of_nat k)) with (length pre + k)%nat by lia.
  by rewrite lookup_app_r, Nat.add_comm, Nat.add_sub by lia.
Qed.
Lemma bytes_at_mid pre x post : bytes_at (pre ++ x ++ post) (len pre) (len x) = Ok x.
Proof.
  unfold bytes_at. rewrite !len_app. pose proof (len_nonneg pre). pose proof (len_nonneg x). pose proof (len_nonneg post).
  rewrite (proj2 (Z.ltb_ge (len pre) 0)), (proj2 (Z.ltb_ge (len x) 0)), (proj2 (Z.ltb_ge _ (len pre + len x))) by lia. cbn [orb]. unfold len.
  rewrite !Nat2Z.id, drop_app_length, take_app_length. done.
Qed.
Lemma put_bytes_mid pre x x' post : len x' = len x -> put_bytes (len pre) x' (pre ++ x ++ post) = Ok (pre ++ x' ++ post).
Proof.
  intros Hx. unfold put_bytes. rewrite !len_app, Hx. pose proof (len_nonneg pre). pose proof (len_nonneg x). pose proof (len_nonneg post).
  rewrite (proj2 (Z.ltb_ge (len pre) 0)), (proj2 (Z.ltb_ge _ (len pre + len x))) by lia. cbn [orb]. unfold len. rewrite Nat2Z.id, take_app_length.
  replace (Z.to_nat (Z.of_nat (length pre) + Z.of_nat (length x))) with (length (pre ++ x)) by (rewrite length_app; lia). by rewrite (app_assoc pre x post), drop_app_length.
Qed.
Lemma split_len (l : list Z) (n : Z) : 0 <= n <= len l -> exists l1 l2, l = l1 ++ l2 /\ len l1 = n /\ len l2 = len l - n.
Proof.
  intros Hn. exists (take (Z.to_nat n) l), (drop (Z.to_nat n) l). unfold len in *. rewrite length_take, length_drop, take_drop. split; [done|lia].
Qed.

(** ** Records *)

Record entry := MkEntry { e_ino : Z; e_rec : Z; e_name : list Z }.
Definition set_rec (v : Z) (e : entry) : entry := MkEntry (e_ino e) v (e_name e).
Definition need (e : entry) : Z := DIRSIZ (len (e_name e)).
Definition used_entry (e : entry) : Prop := e_ino e <> 0.
#[export] Instance used_entry_dec e : Decision (used_entry e).
Proof. unfold used_entry. apply _. Defined.
Record name_ok (name : list Z) : Prop := { n_len : 1 <= len name <= MAXNAMLEN; n_chars : Forall (fun c => 0 < c < 256) name }.
Record ent_ok (e : entry) : Prop := {
  o_ino : 0 <= e_ino e < 4294967296;
  o_name : name_ok (e_name e);
  o_rec : need e <= e_rec e <= DIRBLKSIZ;
  o_mult : (4 | e_rec e) }.
(** The bytes of an entry, [sl] after the name. *)
Definition record (e : entry) sl : list Z := le32 (e_ino e) ++ le16 (e_rec e) ++ le16 (len (e_name e)) ++ e_name e ++ 0 :: sl.
Definition is_rec (e : entry) (r : list Z) : Prop := ent_ok e /\ exists sl, r = record e sl /\ len r = e_rec e.

Lemma DIRSIZ_eq n : 0 <= n -> DIRSIZ n = 4 * ((n + 12) / 4).
Proof.
  intros Hn. unfold DIRSIZ, NAMEOFF. replace (8 + n + 1 + 3) with (n + 12) by lia. rewrite <- Z.ldiff_land. change 3 with (Z.ones 2). rewrite Z.ldiff_ones_r by lia.
  rewrite Z.shiftl_mul_pow2, Z.shiftr_div_pow2 by lia. change (2 ^ 2) with 4. lia.
Qed.
Lemma DIRSIZ_bound n : 0 <= n -> n + 9 <= DIRSIZ n <= n + 12 /\ (4 | DIRSIZ n).
Proof. intros Hn. rewrite DIRSIZ_eq by done. split; [Z.to_euclidean_division_equations; lia|]. exists ((n + 12) / 4). lia. Qed.
Lemma need_bound e : name_ok (e_name e) -> 12 <= need e <= 76 /\ len (e_name e) + 9 <= need e /\ (4 | need e).
Proof.
  intros [[H1 H2] _]. unfold need. destruct (DIRSIZ_bound (len (e_name e))) as [H3 H4]; [lia|]. destruct H4 as [k H4]. unfold MAXNAMLEN in *.
  split; [lia|]. split; [lia|]. by exists k.
Qed.
Lemma record_len e sl : len (record e sl) = 9 + len (e_name e) + len sl.
Proof. unfold record. rewrite !len_app, len_cons. change (len (le32 (e_ino e))) with 4. change (len (le16 (e_rec e))) with 2. change (len (le16 (len (e_name e)))) with 2. lia. Qed.
Lemma le16_val v : 0 <= v < 65536 -> v mod 256 + 256 * (v / 256 mod 256) = v.
Proof. intros. Z.to_euclidean_division_equations; lia. Qed.
Lemma le32_val v : 0 <= v < 4294967296 ->
  v mod 65536 mod 256 + 256 * (v mod 65536 / 256 mod 256) + 65536 * (v / 65536 mod 256 + 256 * (v / 65536 / 256 mod 256)) = v.
Proof. intros. rewrite le16_val by (Z.to_euclidean_division_equations; lia). rewrite le16_val by (Z.to_euclidean_division_equations; lia). Z.to_euclidean_division_equations; lia. Qed.

(** Reading the fields of an entry in a buffer. *)
Section Fields.
Context pre (e : entry) sl post (v : Z).
Context (Hino : 0 <= e_ino e < 4294967296) (Hname : name_ok (e_name e)) (Hv : 0 <= v < 65536).
Let b := pre ++ record (set_rec v e) sl ++ post.
Lemma at_ino : ep_ino b (len pre) = Ok (e_ino e).
Proof.
  unfold ep_ino, rd32, rd16, b, record. rewrite <- Z.add_assoc. change (2 + 1) with (Z.of_nat 3). change 2 with (Z.of_nat 2). change 1 with (Z.of_nat 1).
  replace (len pre) with (len pre + Z.of_nat 0) at 1 by lia. rewrite !rd8_at. cbn [rd lookup list_lookup app le32 le16 set_rec e_ino mbind res_bind]. by rewrite le32_val.
Qed.
Lemma at_reclen : ep_reclen b (len pre) = Ok v.
Proof.
  unfold ep_reclen, rd16, b, record. rewrite <- Z.add_assoc. change (4 + 1) with (Z.of_nat 5). change 4 with (Z.of_nat 4).
  rewrite !rd8_at. cbn [rd lookup list_lookup app le32 le16 set_rec e_ino e_rec mbind res_bind]. by rewrite le16_val.
Qed.
Lemma at_namlen : ep_namlen b (len pre) = Ok (len (e_name e)).
Proof.
  unfold ep_namlen, rd16, b, record. rewrite <- Z.add_assoc. change (6 + 1) with (Z.of_nat 7). change 6 with (Z.of_nat 6).
  rewrite !rd8_at. cbn [rd lookup list_lookup app le32 le16 set_rec e_ino e_rec e_name mbind res_bind]. rewrite le16_val; [done|]. destruct Hname as [[? ?] _]. unfold MAXNAMLEN in *. lia.
Qed.
Lemma at_name : bytes_at b (len pre + NAMEOFF) (len (e_name e)) = Ok (e_name e).
Proof.
  unfold b, record. cbn [set_rec e_name e_ino e_rec]. set (hd := le32 (e_ino e) ++ le16 v ++ le16 (len (e_name e))). replace (pre ++ (le32 (e_ino e) ++ le16 v ++ le16 (len (e_name e)) ++ e_name e ++ 0 :: sl) ++ post)
    with ((pre ++ hd) ++ e_name e ++ 0 :: sl ++ post) by (unfold hd; by rewrite <- !app_assoc).
  replace (len pre + NAMEOFF) with (len (pre ++ hd)) by (rewrite len_app; done). apply bytes_at_mid.
Qed.
Lemma at_reclen_put (w : Z) : put_bytes (len pre + 4) (le16 w) b = Ok (pre ++ record (set_rec w e) sl ++ post).
Proof.
  unfold b, record. cbn [set_rec e_name e_ino e_rec]. set (tl := le16 (len (e_name e)) ++ e_name e ++ 0 :: sl).
  replace (pre ++ (le32 (e_ino e) ++ le16 v ++ tl) ++ post) with ((pre ++ le32 (e_ino e)) ++ le16 v ++ tl ++ post) by (by rewrite <- !app_assoc).
  replace (len pre + 4) with (len (pre ++ le32 (e_ino e))) by (rewrite len_app; done). rewrite put_bytes_mid by done. by rewrite <- !app_assoc.
Qed.
End Fields.

Definition sound (e : entry) : Prop := 0 <= e_ino e < 4294967296 /\ name_ok (e_name e).
Lemma ent_sound e : ent_ok e -> sound e.
Proof. by intros []. Qed.
Lemma set_rec_id e : set_rec (e_rec e) e = e.
Proof. by destruct e. Qed.
Lemma rec_small e : ent_ok e -> 12 <= e_rec e <= 1024.
Proof. intros [_ Hn Hr _]. pose proof (need_bound e Hn). unfold DIRBLKSIZ in *. lia. Qed.
Lemma need_rec e : ent_ok e -> need e <= e_rec e /\ 12 <= need e <= 76.
Proof. intros [_ Hn Hr _]. pose proof (need_bound e Hn). lia. Qed.

(** The same, for a buffer that is equal to such parts. *)
Section Parts.
Context b pre (e : entry) (v : Z) sl post (o : Z).
Context (Eb : b = pre ++ record (set_rec v e) sl ++ post) (Eo : o = len pre) (He : sound e) (Hv : 0 <= v < 65536).
Lemma get_ino : ep_ino b o = Ok (e_ino e).
Proof. subst. apply at_ino. apply He. Qed.
Lemma get_reclen : ep_reclen b o = Ok v.
Proof. subst. by apply at_reclen. Qed.
Lemma get_namlen : ep_namlen b o = Ok (len (e_name e)).
Proof. subst. apply at_namlen. apply He. Qed.
Lemma get_name : bytes_at b (o + NAMEOFF) (len (e_name e)) = Ok (e_name e).
Proof. subst. apply at_name. Qed.
Lemma put_reclen w : put_bytes (o + 4) (le16 w) b = Ok (pre ++ record (set_rec w e) sl ++ post).
Proof. subst. apply at_reclen_put. Qed.
End Parts.
Lemma get_bytes b pre x post o n : b = pre ++ x ++ post -> o = len pre -> n = len x -> bytes_at b o n = Ok x.
Proof. intros -> -> ->. apply bytes_at_mid. Qed.
Lemma put_part b pre x x' post o : b = pre ++ x ++ post -> o = len pre -> len x' = len x -> put_bytes o x' b = Ok (pre ++ x' ++ post).
Proof. intros -> ->. apply put_bytes_mid. Qed.

Ltac parts := rewrite <- ?app_assoc; cbn [app]; rewrite <- ?app_assoc; reflexivity.
Ltac lens := rewrite ?len_app; lia.
Ltac side := first [parts|lens|by apply ent_sound|done].

(** ** Compaction *)

Definition live (es : list entry) : list entry := filter used_entry es.
Definition trim (e : entry) : entry := set_rec (need e) e.
Fixpoint size (es : list entry) : Z := match es with [] => 0 | e :: es => e_rec e + size es end.
(** The room in an entry. *)
Definition spare (e : entry) : Z := if decide (used_entry e) then e_rec e - need e else e_rec e.
Fixpoint spares (es : list entry) : Z := match es with [] => 0 | e :: es => spare e + spares es end.
Lemma trim_rec e sl : ent_ok e -> len (record (set_rec (need e) e) sl) = need e -> is_rec (trim e) (record (set_rec (need e) e) sl).
Proof.
  intros [H1 H2 H3 H4] Hl. pose proof (need_bound e H2) as (?&?&?). split; [|by exists sl]. split; cbn; [done|done|unfold need; cbn; fold (need e); unfold DIRBLKSIZ; lia|done].
Qed.
Lemma fits r e : is_rec e r -> exists sl1 sl2, r = record (set_rec (e_rec e) e) sl1 ++ sl2 /\ len (record (set_rec (e_rec e) e) sl1) = need e /\ len sl2 = e_rec e - need e.
Proof.
  intros (He&sl&->&Hl). pose proof (need_rec e He). rewrite record_len in Hl. pose proof (need_bound e (o_name _ He)) as (?&?&_).
  destruct (split_len sl (need e - 9 - len (e_name e))) as (l1&l2&->&E1&E2); [pose proof (len_nonneg (e_name e)); lia|]. exists l1, l2. rewrite set_rec_id, record_len. rewrite len_app in *.
  split; [unfold record; parts|]. lia.
Qed.

Lemma compact_ok es : forall fuel rs pre T e v sl junk post loc count,
  Forall2 is_rec es rs -> ent_ok e -> 0 <= v < 65536 -> len (record (set_rec v e) sl) = need e ->
  loc = len T + need e + len junk -> count = loc + size es -> (length es < fuel)%nat -> count <= 1024 ->
  exists T' e' v' sl' junk' L ts, compact fuel (len pre) count (pre ++ T ++ record (set_rec v e) sl ++ junk ++ concat rs ++ post) (len pre + len T) (need e) (len junk) loc
      = Ok (pre ++ T' ++ record (set_rec v' e') sl' ++ junk' ++ post, len pre + len T', need e', len junk') /\
    ent_ok e' /\ 0 <= v' < 65536 /\ len (record (set_rec v' e') sl') = need e' /\ len T' + need e' + len junk' = count /\
    T' = T ++ concat ts /\ Forall2 is_rec (trim <$> L) ts /\ L ++ live [e'] = live (e :: es).
Proof.
  induction es as [|e1 es IH]; intros [|fuel] rs pre T e v sl junk post loc count HR He Hv Hl Eloc Ecount Hf Hc; simpl in Hf; try lia; cbn [compact].
  { inversion HR; subst. cbn [size]. rewrite (proj2 (Z.ltb_ge _ _)) by lia. exists T, e, v, sl, junk, [], []. cbn [concat app fmap list_fmap]. rewrite app_nil_r. split_and!; try done; try lia. }
  inversion HR as [|? r1 ? rs' H1 HR']; subst rs. cbn [size concat] in *. pose proof (proj1 H1) as He1. pose proof (rec_small e1 He1). pose proof (need_rec e1 He1).
  pose proof (need_rec e He). pose proof (len_nonneg T). pose proof (len_nonneg junk).
  assert (0 <= size es) as Hs by (clear -HR'; revert rs' HR'; induction es as [|e' es IHs]; intros rs' HR'; [done|]; inversion HR' as [|? ? ? ? [He' _]]; subst; pose proof (rec_small e' He'); cbn [size]; specialize (IHs _ ltac:(eassumption)); lia).
  rewrite (proj2 (Z.ltb_lt _ _)) by lia. destruct (fits r1 e1 H1) as (sl1&sl2&->&Hl1&Hl2).
  set (R1 := record (set_rec (e_rec e1) e1) sl1) in *. set (rest := concat rs' ++ post).
  replace (pre ++ T ++ record (set_rec v e) sl ++ junk ++ ((R1 ++ sl2) ++ concat rs') ++ post) with (pre ++ T ++ record (set_rec v e) sl ++ junk ++ R1 ++ sl2 ++ rest) by (unfold rest; parts).
  rewrite (get_ino _ (pre ++ T) e v sl (junk ++ R1 ++ sl2 ++ rest)) by side. cbn [mbind res_bind].
  assert (exists T1 junk1 b1, (if negb (e_ino e =? 0)
      then b ← put_bytes (len pre + len T + 4) (le16 (u16 (need e))) (pre ++ T ++ record (set_rec v e) sl ++ junk ++ R1 ++ sl2 ++ rest); Ok (b, len pre + len T + need e, len junk)
      else Ok (pre ++ T ++ record (set_rec v e) sl ++ junk ++ R1 ++ sl2 ++ rest, len pre + len T, s32 (len junk + need e))) = Ok (b1, len pre + len T1, len junk1) /\
    b1 = pre ++ T1 ++ junk1 ++ R1 ++ sl2 ++ rest /\ len T1 + len junk1 = len T + need e + len junk /\
    exists ts, T1 = T ++ concat ts /\ Forall2 is_rec (trim <$> live [e]) ts) as (T1&junk1&b1&->&->&Hlen1&ts1&ET1&HT1).
  { unfold live. destruct (Z.eqb_spec (e_ino e) 0) as [E0|E0]; cbn [negb].
    - exists T, (record (set_rec v e) sl ++ junk). eexists. rewrite len_app, Hl, s32_small by lia. replace (len junk + need e) with (need e + len junk) by lia. split; [reflexivity|]. split; [parts|]. split; [lia|].
      exists []. rewrite filter_cons_False by (unfold used_entry; lia). cbn. by rewrite app_nil_r.
    - rewrite (put_reclen _ (pre ++ T) e v sl (junk ++ R1 ++ sl2 ++ rest)) by side. cbn [mbind res_bind]. unfold u16. rewrite Z.mod_small by lia.
      exists (T ++ record (set_rec (need e) e) sl), junk. eexists. rewrite record_len in Hl. rewrite len_app, record_len. cbn [e_name set_rec] in *. replace (len pre + (len T + (9 + len (e_name e) + len sl))) with (len pre + len T + need e) by lia. split; [reflexivity|]. split; [parts|]. split; [lia|].
      exists [record (set_rec (need e) e) sl]. rewrite filter_cons_True by done. cbn. rewrite app_nil_r. split; [done|]. constructor; [|constructor]. apply trim_rec; [done|]. rewrite record_len. cbn. lia. }
  cbn [mbind res_bind]. pose proof (len_nonneg T1). pose proof (len_nonneg junk1).
  rewrite (get_namlen _ (pre ++ T1 ++ junk1) e1 (e_rec e1) sl1 (sl2 ++ rest)) by side. cbn [mbind res_bind].
  rewrite (get_reclen _ (pre ++ T1 ++ junk1) e1 (e_rec e1) sl1 (sl2 ++ rest)) by side. cbn [mbind res_bind]. fold (need e1).
  rewrite (get_bytes _ (pre ++ T1 ++ junk1) R1 (sl2 ++ rest)) by side. cbn [mbind res_bind].
  destruct (split_len (junk1 ++ R1 ++ sl2) (need e1)) as (old&junk2&Ex&Ex1&Ex2); [rewrite !len_app; lia|]. rewrite !len_app in Ex2.
  rewrite (put_part _ (pre ++ T1) old R1 (junk2 ++ rest)); [|rewrite <- !app_assoc; do 2 f_equal; rewrite (app_assoc old), <- Ex; parts|lens|lia]. cbn [mbind res_bind].
  rewrite s32_small by lia. replace (len junk1 + (e_rec e1 - need e1)) with (len junk2) by lia.
  replace ((pre ++ T1) ++ R1 ++ junk2 ++ rest) with (pre ++ T1 ++ R1 ++ junk2 ++ concat rs' ++ post) by (unfold rest; parts).
  destruct (IH fuel rs' pre T1 e1 (e_rec e1) sl1 junk2 post (loc + e_rec e1) count) as (T'&e'&v'&sl'&junk'&L&ts&E&A1&A2&A3&A4&A5&A6&A7); try done; try lia.
  fold R1 in E. rewrite E.
  exists T', e', v', sl', junk', (live [e] ++ L), (ts1 ++ ts). do 5 (split; [done|]). split; [|split].
  - rewrite A5, ET1, concat_app. by rewrite <- app_assoc.
  - rewrite fmap_app. by apply Forall2_app.
  - rewrite <- app_assoc, A7. unfold live. by rewrite <- filter_app.
Qed.

(** ** The new entry *)

Fixpoint needs (es : list entry) : Z := match es with [] => 0 | e :: es => need e + needs es end.
Lemma needs_app es es' : needs (es ++ es') = needs es + needs es'.
Proof. induction es as [|e es IH]; cbn [app needs]; lia. Qed.
Lemma spares_size es : spares es = size es - needs (live es).
Proof.
  unfold live. induction es as [|e es IH]; [done|]. cbn [spares size]. unfold spare. rewrite filter_cons. destruct (decide (used_entry e)); cbn [needs]; lia.
Qed.
Lemma size_app es es' : size (es ++ es') = size es + size es'.
Proof. induction es as [|e es IH]; cbn [app size]; lia. Qed.
Lemma recs_len es rs : Forall2 is_rec es rs -> len (concat rs) = size es.
Proof. induction 1 as [|e r es rs (_&sl&_&Hl) _ IH]; [done|]. cbn [concat size]. rewrite len_app. lia. Qed.
Lemma recs_size es rs : Forall2 is_rec es rs -> 0 <= size es /\ (4 | size es).
Proof.
  induction 1 as [|e r es rs (He&_) _ [IH1 IH2]]; cbn [size]; [split; [lia|apply Z.divide_0_r]|]. pose proof (rec_small e He). split; [lia|]. apply Z.divide_add_r; [apply He|done].
Qed.
Lemma trim_size L : size (trim <$> L) = needs L.
Proof. induction L as [|e L IH]; [done|]. rewrite fmap_cons. cbn [size needs]. rewrite IH. done. Qed.

(** [ni_dent] holds the name. *)
Record dent_ok (dent : direct) (name : list Z) : Prop := {
  dn_ino : 0 <= d_ino dent < 4294967296;
  dn_name : name_ok name;
  dn_len : d_namlen dent = len name;
  dn_bytes : exists tail, d_name dent = name ++ 0 :: tail;
  dn_size : len (d_name dent) = MAXNAMLEN + 1 }.
Lemma direct_record dent name (v : Z) :
  dent_ok dent name ->
  exists sl, take (Z.to_nat (DIRSIZ (d_namlen dent))) (direct_bytes (set_reclen v dent)) = record (MkEntry (d_ino dent) v name) sl /\
    len (record (MkEntry (d_ino dent) v name) sl) = DIRSIZ (len name).
Proof.
  intros [H1 H2 H3 (tail&H4) H5]. pose proof (need_bound (MkEntry 0 0 name) H2) as (Hb&Hb1&_). unfold need in *. cbn [e_name] in *.
  pose proof (DIRSIZ_eq (len name) (len_nonneg name)) as Hd. rewrite H4, len_app, len_cons in H5. unfold MAXNAMLEN in *. set (n := DIRSIZ (len name)) in *.
  assert (n <= len name + 12) by (unfold n; apply DIRSIZ_bound, len_nonneg). assert (n <= 72) by (destruct H2 as [[_ ?] _]; unfold MAXNAMLEN in *; Z.to_euclidean_division_equations; lia).
  destruct (split_len tail (n - 9 - len name)) as (t1&t2&->&E1&E2); [lia|]. exists t1. rewrite record_len. cbn [e_name]. split; [|lia].
  unfold direct_bytes, record, set_reclen. cbn [d_ino d_reclen d_namlen d_name e_ino e_rec e_name]. rewrite H3, H4. fold n.
  replace (le32 (d_ino dent) ++ le16 v ++ le16 (len name) ++ name ++ 0 :: t1 ++ t2) with ((le32 (d_ino dent) ++ le16 v ++ le16 (len name) ++ name ++ 0 :: t1) ++ t2) by parts.
  rewrite take_app_le; [|unfold len in *; rewrite !length_app; simpl; lia]. apply take_ge. unfold len in *. rewrite !length_app. simpl. lia.
Qed.
Lemma new_rec dent name (v : Z) sl junk :
  dent_ok dent name -> (4 | v) -> v <= DIRBLKSIZ -> len (record (MkEntry (d_ino dent) v name) sl) = DIRSIZ (len name) -> v = DIRSIZ (len name) + len junk ->
  is_rec (MkEntry (d_ino dent) v name) (record (MkEntry (d_ino dent) v name) sl ++ junk).
Proof.
  intros [H1 H2 H3 H4 H5] Hm Hv Hl Ev. pose proof (len_nonneg junk). split; [split; cbn; [done|done|unfold need; cbn; lia|done]|]. exists (sl ++ junk). split; [unfold record; parts|].
  rewrite len_app. cbn [e_rec]. lia.
Qed.

Lemma enter_block_ok pre post es rs dent name :
  Forall2 is_rec es rs -> es <> [] -> size es <= DIRBLKSIZ -> dent_ok dent name -> DIRSIZ (len name) <= spares es ->
  exists rs' v, enter_block (len pre) (size es) dent (pre ++ concat rs ++ post) = Ok (pre ++ concat rs' ++ post) /\
    Forall2 is_rec ((trim <$> live es) ++ [MkEntry (d_ino dent) v name]) rs' /\ size ((trim <$> live es) ++ [MkEntry (d_ino dent) v name]) = size es.
Proof.
  intros HR Hne Hsz Hd Hsp. destruct es as [|e es]; [done|]. inversion HR as [|? r ? rs1 H1 HR1]; subst. pose proof (proj1 H1) as He. pose proof (need_rec e He). pose proof (rec_small e He).
  destruct (fits r e H1) as (sl&junk&->&Hl&Hj). pose proof (recs_size _ _ HR1) as [Hs1 Hs4]. pose proof (dn_name _ _ Hd) as Hnm. pose proof (need_bound (MkEntry 0 0 name) Hnm) as (Hb&_&Hb4).
  unfold need in Hb, Hb4. cbn [e_name] in Hb, Hb4. rewrite spares_size in Hsp. unfold enter_block. cbn [concat size] in *. unfold DIRBLKSIZ in *.
  set (R := record (set_rec (e_rec e) e) sl) in *. replace (pre ++ ((R ++ junk) ++ concat rs1) ++ post) with (pre ++ [] ++ R ++ junk ++ concat rs1 ++ post) by parts.
  rewrite (get_namlen _ pre e (e_rec e) sl (junk ++ concat rs1 ++ post)) by side. cbn [mbind res_bind].
  rewrite (get_reclen _ pre e (e_rec e) sl (junk ++ concat rs1 ++ post)) by side. cbn [mbind res_bind]. fold (need e). rewrite s32_small by lia.
  assert (length es < S (Z.to_nat (e_rec e + size es)))%nat as Hf.
  { assert (Z.of_nat (length es) <= size es); [|lia]. clear -HR1. induction HR1 as [|e' r' es rs (He'&_) _ IH]; [done|]. pose proof (rec_small e' He'). cbn [size length]. lia. }
  destruct (compact_ok es (S (Z.to_nat (e_rec e + size es))) rs1 pre [] e (e_rec e) sl junk post (e_rec e) (e_rec e + size es)) as (T&e'&v'&sl'&junk'&L&ts&E&A1&A2&A3&A4&A5&A6&A7); try done; try lia.
  { rewrite len_nil. lia. }
  fold R in E. rewrite len_nil, Z.add_0_r, Hj in E. rewrite E. cbn [mbind res_bind]. cbn [app] in A5. subst T.
  rewrite (get_ino _ (pre ++ concat ts) e' v' sl' (junk' ++ post)) by side. cbn [mbind res_bind]. pose proof (recs_len _ _ A6) as HL. rewrite trim_size in HL.
  assert (needs (live (e :: es)) = needs L + needs (live [e'])) as HN by (by rewrite <- A7, needs_app). pose proof (need_rec e' A1). pose proof (len_nonneg junk').
  pose proof (len_nonneg (concat ts)). pose proof (recs_size _ _ A6) as [_ Hm]. rewrite trim_size in Hm. pose proof (o_mult _ He) as Hm1. unfold live in HN at 2.
  destruct (Z.eqb_spec (e_ino e') 0) as [E0|E0].
  - rewrite filter_cons_False in HN by (unfold used_entry; lia). cbn [filter list_filter needs] in HN. set (v := len junk' + need e').
    assert (v = e_rec e + size es - needs L) as Ev by (unfold v; lia). rewrite (dn_len _ _ Hd), !u32_small, (proj2 (Z.ltb_ge _ _)) by lia.
    unfold u16. rewrite Z.mod_small by lia. destruct (direct_record dent name v Hd) as (sln&Er&Hln). rewrite (dn_len _ _ Hd) in Er. rewrite Er.
    destruct (split_len (record (set_rec v' e') sl' ++ junk') (DIRSIZ (len name))) as (old&junk2&Ex&Ex1&Ex2); [rewrite len_app; lia|]. rewrite len_app in Ex2.
    rewrite (put_part _ (pre ++ concat ts) old _ (junk2 ++ post)); [|rewrite <- !app_assoc; do 2 f_equal; rewrite (app_assoc old), <- Ex; parts|lens|lia].
    exists (ts ++ [record (MkEntry (d_ino dent) v name) sln ++ junk2]), v. split; [rewrite concat_app; cbn [concat]; rewrite app_nil_r; f_equal; parts|].
    assert (live (e :: es) = L) as ->.
    { rewrite <- A7. unfold live. rewrite filter_cons_False by (unfold used_entry; lia). cbn. by rewrite app_nil_r. }
    split; [|rewrite size_app, trim_size; cbn [size e_rec]; lia]. apply Forall2_app; [done|]. constructor; [|constructor]. apply new_rec; try done; [|unfold DIRBLKSIZ; lia..].
    rewrite Ev. apply Z.divide_sub_r; [apply Z.divide_add_r; done|done].
  - rewrite filter_cons_True in HN by done. cbn [filter list_filter needs] in HN. set (v := len junk') in *.
    assert (v = e_rec e + size es - (needs L + need e')) as Ev by (unfold v; lia). rewrite (dn_len _ _ Hd), (proj2 (Z.ltb_ge _ _)) by lia.
    rewrite (put_reclen _ (pre ++ concat ts) e' v' sl' (junk' ++ post)) by side. cbn [mbind res_bind]. unfold u16. rewrite !Z.mod_small by lia.
    destruct (direct_record dent name v Hd) as (sln&Er&Hln). rewrite (dn_len _ _ Hd) in Er. rewrite Er.
    destruct (split_len junk' (DIRSIZ (len name))) as (old&junk2&Ex&Ex1&Ex2); [fold v; lia|]. rewrite record_len in A3. cbn [e_name set_rec] in A3.
    rewrite (put_part _ (pre ++ concat ts ++ record (set_rec (need e') e') sl') old _ (junk2 ++ post));
      [|rewrite Ex; parts|rewrite !len_app, record_len; cbn [e_name set_rec]; lia|lia].
    exists (ts ++ [record (set_rec (need e') e') sl'; record (MkEntry (d_ino dent) v name) sln ++ junk2]), v.
    split; [rewrite concat_app; cbn [concat]; rewrite app_nil_r; f_equal; parts|].
    assert (live (e :: es) = L ++ [e']) as -> by (rewrite <- A7; unfold live; by rewrite filter_cons_True).
    split; [|rewrite size_app, trim_size, needs_app; cbn [size needs e_rec]; lia]. rewrite fmap_app, <- app_assoc. apply Forall2_app; [done|]. cbn [fmap list_fmap app].
    constructor; [apply trim_rec; [done|rewrite record_len; cbn; lia]|]. constructor; [|constructor]. apply new_rec; try done; [|unfold DIRBLKSIZ; fold v in Ex2; lia..].
    rewrite Ev. apply Z.divide_sub_r; [apply Z.divide_add_r; done|apply Z.divide_add_r; [done|]]. apply need_bound, A1.
Qed.
End Dirent.
