(* ===== verification/Dirsys.v ===== *)
(** Directories as sets of names: the search finds the entry of a name, and
    the place for a new one; entering, removing and rewriting an entry change
    the set by that name and nothing else. *)
From S2P Require Import Prelude Dir Dirent.
Import Dir Dirent.

Module Dirsys.

(** ** Directories in blocks *)

Definition blk_ok (es : list entry) (b : list Z) : Prop := exists rs, b = concat rs /\ Forall2 is_rec es rs /\ size es = DIRBLKSIZ.
(** The entries of each block of the directory. *)
Record dir_ok (ess : list (list entry)) (d : dir) : Prop := {
  do_blocks : exists bs, data d = concat bs /\ Forall2 blk_ok ess bs;
  do_size : i_size d = DIRBLKSIZ * len ess;
  do_small : i_size d < 2147483648 }.
(** The offset of the block. *)
Definition at_blk (k : nat) : Z := DIRBLKSIZ * Z.of_nat k.

Lemma blk_len es b : blk_ok es b -> len b = DIRBLKSIZ.
Proof. intros (rs&->&HR&<-). by apply recs_len. Qed.
Lemma blocks_len ess bs : Forall2 blk_ok ess bs -> len (concat bs) = DIRBLKSIZ * len ess.
Proof. induction 1 as [|es b ess bs Hb _ IH]; [done|]. cbn [concat]. rewrite len_app, (blk_len _ _ Hb), IH, len_cons. unfold DIRBLKSIZ. lia. Qed.
Lemma blkoff_eq loc : blkoff loc = loc mod 1024.
Proof. unfold blkoff, DIRBLKSIZ. change (1024 - 1) with (Z.ones 10). by rewrite Z.land_ones. Qed.
Lemma lblkno_eq loc : 0 <= loc < 4294967296 -> lblkno loc = loc / 1024.
Proof. intros. unfold lblkno. rewrite u32_small, Z.shiftr_div_pow2 by lia. done. Qed.
Lemma roundup_mult n : roundup (DIRBLKSIZ * n) DIRBLKSIZ = DIRBLKSIZ * n.
Proof. unfold roundup, DIRBLKSIZ. Z.to_euclidean_division_equations; lia. Qed.
(** A block in the bytes of the directory. *)
Lemma blocks_split ess bs k es : Forall2 blk_ok ess bs -> ess !! k = Some es ->
  exists b1 b b2, bs !! k = Some b /\ concat bs = concat b1 ++ b ++ concat b2 /\ bs = b1 ++ b :: b2 /\ length b1 = k /\ blk_ok es b /\ len (concat b1) = at_blk k.
Proof.
  intros HB Hk. destruct (Forall2_lookup_l _ _ _ _ _ HB Hk) as (b&Hb&Hok). exists (take k bs), b, (drop (S k) bs). pose proof (lookup_lt_Some _ _ _ Hb) as Hlt.
  split; [done|]. assert (bs = take k bs ++ b :: drop (S k) bs) as E by (by rewrite take_drop_middle). split; [rewrite E at 1; by rewrite concat_app|]. split; [done|].
  split; [rewrite length_take; lia|]. split; [done|]. rewrite (blocks_len (take k ess)) by (by apply Forall2_take). unfold at_blk, len. rewrite length_take. apply Forall2_length in HB. f_equal. lia.
Qed.
Lemma blkatoff_at ess bs d k es o : data d = concat bs -> Forall2 blk_ok ess bs -> DIRBLKSIZ * len ess < 2147483648 -> ess !! k = Some es -> 0 <= o < DIRBLKSIZ ->
  exists b, bs !! k = Some b /\ blk_ok es b /\ blkatoff d (at_blk k + o) = Some b /\ blkoff (at_blk k + o) = o /\ lblkno (at_blk k + o) = Z.of_nat k.
Proof.
  intros Ed HB Hsm Hk Ho. destruct (blocks_split _ _ _ _ HB Hk) as (b1&b&b2&Hb&Ec&_&_&Hok&Hl). exists b. do 2 (split; [done|]).
  pose proof (lookup_lt_Some _ _ _ Hk) as Hlt. unfold DIRBLKSIZ, len in *. assert (lblkno (at_blk k + o) = Z.of_nat k) as Eb.
  { unfold at_blk, DIRBLKSIZ. rewrite lblkno_eq by lia. Z.to_euclidean_division_equations; lia. }
  split; [|split; [rewrite blkoff_eq; unfold at_blk, DIRBLKSIZ; Z.to_euclidean_division_equations; lia|done]].
  unfold blkatoff, DIRBLKSIZ. rewrite Eb, Ed, Ec. unfold len in *. rewrite !length_app. pose proof (blk_len _ _ Hok) as Hbl. unfold len, DIRBLKSIZ, at_blk in *.
  unfold DIRBLKSIZ in *. rewrite (proj2 (Z.leb_le _ _)) by lia. replace (Z.to_nat (Z.of_nat k * 1024)) with (length (concat b1)) by lia.
  rewrite drop_app_length, take_app_le by lia. by rewrite take_ge by lia.
Qed.

(** ** The search *)

Lemma no_nul_ok pre name post : Forall (fun c => 0 < c < 256) name -> no_nul (pre ++ name ++ post) (len pre) (length name) = Ok true.
Proof.
  revert pre. induction name as [|c name IH]; intros pre Hc; [done|]. apply Forall_cons_1 in Hc as [Hc1 Hc2]. cbn [no_nul length].
  replace (len pre) with (len pre + Z.of_nat 0) at 1 by lia. rewrite rd8_at. cbn [rd lookup list_lookup app mbind res_bind]. rewrite (proj2 (Z.eqb_neq _ _)) by lia.
  specialize (IH (pre ++ [c]) Hc2). rewrite <- app_assoc in IH. cbn [app] in *. rewrite len_app in IH. exact IH.
Qed.
Lemma good_entry b pre e sl post : b = pre ++ record e sl ++ post -> ent_ok e -> len pre + e_rec e <= DIRBLKSIZ -> dirbadentry b (len pre) = Ok false.
Proof.
  intros Eb He Hr. pose proof (rec_small e He) as Hs. pose proof (need_rec e He) as [Hn _]. pose proof (o_name _ He) as [[N1 N2] N3]. rewrite <- (set_rec_id e) in Eb. pose proof (len_nonneg pre). unfold DIRBLKSIZ in *.
  unfold dirbadentry. rewrite (get_reclen b pre e (e_rec e) sl post) by (done || lia || by apply ent_sound). cbn [mbind res_bind].
  rewrite (get_namlen b pre e (e_rec e) sl post) by (done || lia || by apply ent_sound). cbn [mbind res_bind]. destruct (o_mult _ He) as [q Hq].
  assert (Z.land (e_rec e) 3 = 0) as -> by (change 3 with (Z.ones 2); rewrite Z.land_ones, Hq by lia; apply Z.mod_mul; lia).
  assert (Z.land (len pre) (DIRBLKSIZ - 1) = len pre) as -> by (fold (blkoff (len pre)); rewrite blkoff_eq; apply Z.mod_small; lia).
  unfold DIRBLKSIZ. rewrite (proj2 (Z.ltb_ge _ (e_rec e))), (proj2 (Z.ltb_ge (e_rec e) _)), (proj2 (Z.ltb_ge MAXNAMLEN _)) by (done || lia). cbn [Z.eqb negb orb].
  rewrite set_rec_id in Eb. set (hd := le32 (e_ino e) ++ le16 (e_rec e) ++ le16 (len (e_name e))).
  assert (b = (pre ++ hd) ++ e_name e ++ 0 :: sl ++ post) as -> by (rewrite Eb; unfold hd, record; by rewrite <- !app_assoc).
  assert (len (pre ++ hd) = len pre + NAMEOFF) as <- by (rewrite len_app; done). replace (Z.to_nat (len (e_name e))) with (length (e_name e)) by (unfold len; lia). rewrite no_nul_ok by done. cbn [mbind res_bind negb].
  rewrite (app_assoc (pre ++ hd)). rewrite <- len_app. replace (len ((pre ++ hd) ++ e_name e)) with (len ((pre ++ hd) ++ e_name e) + Z.of_nat 0) by lia. by rewrite rd8_at.
Qed.

Definition hit (name : list Z) (e : entry) : Prop := used_entry e /\ e_name e = name.
#[export] Instance hit_dec name e : Decision (hit name e).
Proof. unfold hit. apply _. Defined.

Section Search.
Context (dirchk : bool) (d : dir) (dent : direct) (needed : Z) (name : list Z) (ess : list (list entry)) (bs : list (list Z)).
Context (Ed : data d = concat bs) (HB : Forall2 blk_ok ess bs) (Hsm : DIRBLKSIZ * len ess < 2147483648) (Hdent : dent_ok dent name).
Implicit Types (s : srch) (es : list entry).

(** The state of the search before the entry after [pre] in the block [k]. *)
Definition viewing (k : nat) (pre : list entry) s : Prop :=
  s_offset s = at_blk k + size pre /\ (pre <> [] -> s_bp s = bs !! k /\ s_eoff s = size pre).
(** With the block read, when it is the first entry. *)
Definition loaded (k : nat) (pre : list entry) s : srch :=
  match pre with
  | [] => match s_status s with
          | NONE => MkSrch (s_offset s) 0 (bs !! k) (s_prevoff s) NONE (-1) (s_slotsize s) 0 (s_useful s)
          | st => MkSrch (s_offset s) 0 (bs !! k) (s_prevoff s) st (s_slotoffset s) (s_slotsize s) (s_free s) (s_useful s)
          end
  | _ => s
  end.
Definition seen (k : nat) (pre : list entry) (e : entry) s : srch := slot_step needed (e_ino e) (e_rec e) (len (e_name e)) (loaded k pre s).
Definition passed (e : entry) s : srch :=
  MkSrch (s_offset s + e_rec e) (s_eoff s + e_rec e) (s_bp s) (s_offset s) (s_status s) (s_slotoffset s) (s_slotsize s) (s_free s)
    (if decide (used_entry e) then s_offset s + e_rec e else s_useful s).

Lemma slot_step_keeps ino reclen namlen s : let s' := slot_step needed ino reclen namlen s in
  s_offset s' = s_offset s /\ s_eoff s' = s_eoff s /\ s_bp s' = s_bp s /\ s_prevoff s' = s_prevoff s /\ s_useful s' = s_useful s.
Proof. unfold slot_step. repeat case_match; done. Qed.
Lemma loaded_keeps k pre s : viewing k pre s -> let s' := loaded k pre s in
  s_offset s' = s_offset s /\ s_eoff s' = size pre /\ s_bp s' = bs !! k /\ s_prevoff s' = s_prevoff s /\ s_useful s' = s_useful s /\ s_status s' = s_status s.
Proof. intros [H1 H2]. destruct pre as [|e pre]; [unfold loaded; destruct (s_status s); done|]. destruct H2 as [H2 H3]; [done|]. done. Qed.
Lemma sub_size es rs (pre post : list entry) : Forall2 is_rec es rs -> es = pre ++ post -> 0 <= size pre /\ 0 <= size post /\ size es = size pre + size post /\
  (pre <> [] -> 12 <= size pre) /\ (post <> [] -> 12 <= size post).
Proof.
  intros HR ->. apply Forall2_app_inv_l in HR as (r1&r2&R1&R2&_). pose proof (recs_size _ _ R1). pose proof (recs_size _ _ R2). rewrite size_app.
  split_and!; try lia; intros Hne; [destruct R1 as [|e r pre rs' (He&_) R1']|destruct R2 as [|e r post rs' (He&_) R2']]; try done; pose proof (rec_small e He);
    [pose proof (recs_size _ _ R1')|pose proof (recs_size _ _ R2')]; cbn [size]; lia.
Qed.
Lemma same_name_ok b pre e sl post : b = pre ++ record e sl ++ post -> ent_ok e ->
  same_name dent b (len pre) (len (e_name e)) = Ok (bool_decide (e_name e = name)).
Proof.
  intros Eb He. rewrite <- (set_rec_id e) in Eb. destruct Hdent as [_ _ Hl (tail&Ht) _]. unfold same_name. rewrite Hl.
  destruct (Z.eqb_spec (len (e_name e)) (len name)) as [E|E].
  - rewrite (get_name b pre e (e_rec e) sl post) by (done || by apply ent_sound). cbn [mbind res_bind]. rewrite Ht. unfold len in *.
    replace (Z.to_nat (Z.of_nat (length (e_name e)))) with (length name) by lia. by rewrite take_app_length.
  - by rewrite bool_decide_false by (intros E'; congruence).
Qed.
(** One turn of the loop. *)
Lemma turn k es pre e post fuel endsearch s :
  ess !! k = Some es -> es = pre ++ e :: post -> viewing k pre s -> at_blk (S k) <= endsearch ->
  searchloop dirchk d dent needed (S fuel) endsearch s =
  if decide (hit name e) then Ok (SFound (seen k pre e s) (e_ino e) (e_rec e)) else searchloop dirchk d dent needed fuel endsearch (passed e (seen k pre e s)).
Proof.
  intros Hk Ees Hv He. destruct (Forall2_lookup_l _ _ _ _ _ HB Hk) as (b&Hb&rs&Erb&HR&Hsz).
  pose proof (sub_size es rs pre (e :: post) HR Ees) as (P1&P2&P3&P4&P5). specialize (P5 ltac:(done)). unfold DIRBLKSIZ in *.
  assert (at_blk (S k) = at_blk k + 1024) as Ek by (unfold at_blk, DIRBLKSIZ; lia).
  destruct (blkatoff_at ess bs d k es (size pre) Ed HB Hsm Hk) as (b'&Hb'&_&Hbo&Hoff&_); [unfold DIRBLKSIZ; lia|]. assert (b' = b) as -> by congruence.
  assert (exists sl P Q, b = P ++ record e sl ++ Q /\ len P = size pre /\ ent_ok e /\ 0 <= size post) as (sl&P&Q&EbP&HlP&Hoke&Hpost).
  { rewrite Ees in HR. apply Forall2_app_inv_l in HR as (r1&r2&R1&R2&->). inversion R2 as [|? r ? r2' (Hoke&sl&Er&_) R2' E1 E2]; subst. exists sl, (concat r1), (concat r2').
    split; [by rewrite concat_app|]. split; [by apply recs_len|]. split; [done|]. apply (recs_size _ _ R2'). }
  pose proof (rec_small e Hoke) as Hrs. cbn [size] in P3. assert (EbP' := EbP). rewrite <- (set_rec_id e) in EbP'.
  assert (begin_turn d s = Some (loaded k pre s)) as Hload.
  { unfold begin_turn. rewrite (proj1 Hv), Hoff, Hbo. destruct Hv as [Hv1 Hv2]. destruct pre as [|e0 pre].
    - cbn [size] in *. cbn [Z.eqb loaded]. rewrite Hb, <- Hv1. cbn [s_status s_eoff]. by destruct (s_status s).
    - destruct Hv2 as [Hv2 Hv3]; [done|]. specialize (P4 ltac:(done)). rewrite (proj2 (Z.eqb_neq _ _)) by lia. cbn [loaded]. destruct (s_status s) eqn:Es; try done.
      rewrite Hv3. fold (blkoff (size (e0 :: pre))). rewrite blkoff_eq, Z.mod_small by lia. by rewrite (proj2 (Z.eqb_neq _ _)) by lia. }
  cbn [searchloop]. rewrite (proj1 Hv), (proj2 (Z.ltb_lt _ _)) by lia. rewrite Hload. destruct (loaded_keeps k pre s Hv) as (K1&K2&K3&_). rewrite K3, Hb, K2, <- HlP.
  rewrite (get_reclen b P e (e_rec e) sl Q) by (done || lia || by apply ent_sound). cbn [mbind res_bind]. rewrite (proj2 (Z.eqb_neq _ _)) by lia.
  assert ((if dirchk then dirbadentry b (len P) else Ok false) = Ok false) as -> by (destruct dirchk; [|done]; apply (good_entry b P e sl Q); [done|done|unfold DIRBLKSIZ; lia]).
  cbn [mbind res_bind]. rewrite (get_ino b P e (e_rec e) sl Q) by (done || lia || by apply ent_sound). cbn [mbind res_bind].
  rewrite (get_namlen b P e (e_rec e) sl Q) by (done || lia || by apply ent_sound). cbn [mbind res_bind]. fold (seen k pre e s).
  destruct (slot_step_keeps (e_ino e) (e_rec e) (len (e_name e)) (loaded k pre s)) as (L1&L2&L3&L4&L5). fold (seen k pre e s) in *.
  unfold hit, passed, used_entry. destruct (Z.eqb_spec (e_ino e) 0) as [E0|E0]; cbn [negb mbind res_bind].
  - rewrite decide_False by tauto. by rewrite decide_False by tauto.
  - rewrite (same_name_ok b P e sl Q) by done. cbn [mbind res_bind]. rewrite (decide_True (P := e_ino e <> 0)) by done. case_bool_decide; [by rewrite decide_True|by rewrite decide_False by tauto].
Qed.

(** *** What the search keeps *)

Context (create : bool) (Hneeded : create = true -> 0 < needed).
(** Whole entries of one block with enough room between them. *)
Definition room (off n : Z) : Prop := exists k es p r q, ess !! k = Some es /\ es = p ++ r ++ q /\ r <> [] /\ off = at_blk k + size p /\ n = size r /\ needed <= spares r.
(** No block before the [k]th has the room. *)
Definition cramped (k : nat) : Prop := forall j es, (j < k)%nat -> ess !! j = Some es -> spares es < needed.
Definition slot_inv (k : nat) (pre : list entry) s : Prop :=
  if create then
    match s_status s with
    | NONE => cramped k /\ (pre = [] \/ exists p r, pre = p ++ r /\ spares p = 0 /\ s_free s = spares r /\ s_free s < needed /\
        (r = [] /\ s_slotoffset s = -1 \/ r <> [] /\ s_slotoffset s = at_blk k + size p))
    | _ => room (s_slotoffset s) (s_slotsize s)
    end
  else s_status s = FOUND.
(** The end of what is used. *)
Definition useful_inv (k : nat) (pre : list entry) s : Prop := create = true ->
  (forall j es e, (j < k)%nat -> ess !! j = Some es -> e ∈ es -> used_entry e -> at_blk j < s_useful s) /\
  (forall e, e ∈ pre -> used_entry e -> at_blk k < s_useful s) /\ 0 <= s_useful s <= s_offset s.
Definition prev_inv (k : nat) (pre : list entry) s : Prop := forall p e, pre = p ++ [e] -> s_prevoff s = at_blk k + size p.
Record inv (k : nat) (pre : list entry) s : Prop := {
  v_view : viewing k pre s; v_slot : slot_inv k pre s; v_useful : useful_inv k pre s; v_prev : prev_inv k pre s }.

Lemma spares_app es es' : spares (es ++ es') = spares es + spares es'.
Proof. induction es as [|e es IH]; cbn [app spares]; lia. Qed.
Lemma spare_step e : spare e = if negb (e_ino e =? 0) then e_rec e - DIRSIZ (len (e_name e)) else e_rec e.
Proof. unfold spare, need, used_entry. case_decide; destruct (Z.eqb_spec (e_ino e) 0); cbn [negb]; done. Qed.
Lemma spare_nonneg e : ent_ok e -> 0 <= spare e.
Proof. intros He. pose proof (need_rec e He). pose proof (rec_small e He). unfold spare. case_decide; lia. Qed.
Lemma slot_next k es pre e post s : ess !! k = Some es -> es = pre ++ e :: post -> ent_ok e -> viewing k pre s ->
  slot_inv k pre s -> slot_inv k (pre ++ [e]) (seen k pre e s).
Proof.
  intros Hk Ees He Hv Hs. destruct (Forall2_lookup_l _ _ _ _ _ HB Hk) as (b&_&rs&_&HR&_). destruct (loaded_keeps k pre s Hv) as (K1&_&_&_&_&K6). unfold slot_inv in *. destruct create eqn:Ec; last first.
  { unfold seen, slot_step. rewrite K6, Hs. congruence. }
  unfold seen, slot_step. rewrite <- spare_step, K6, K1. destruct (s_status s) eqn:Est.
  - destruct Hs as [Hcr Hs].
    assert (exists p r, pre = p ++ r /\ spares p = 0 /\ s_free (loaded k pre s) = spares r /\ s_free (loaded k pre s) < needed /\
      (r = [] /\ s_slotoffset (loaded k pre s) = -1 \/ r <> [] /\ s_slotoffset (loaded k pre s) = at_blk k + size p)) as (p&r&Ep&Esp0&Ef&Hlt&Hso).
    { destruct pre as [|e0 pre]; [unfold loaded; rewrite Est; exists [], []; specialize (Hneeded eq_refl); split_and!; try done; by left|]. destruct Hs as [?|Hs]; [done|exact Hs]. }
    destruct (Z.ltb_spec 0 (spare e)) as [Hsp|Hsp].
    + destruct (Z.leb_spec needed (spare e)) as [Hn|Hn]; cbn [s_status s_slotoffset s_slotsize s_free].
      * exists k, es, pre, [e], post. split_and!; try done; [apply Hv|cbn; lia|cbn; lia].
      * set (so := if s_slotoffset (loaded k pre s) =? -1 then s_offset s else s_slotoffset (loaded k pre s)).
        assert (exists p' r', pre ++ [e] = p' ++ r' /\ r' <> [] /\ so = at_blk k + size p' /\ spares r' = s_free (loaded k pre s) + spare e /\ spares p' = 0) as (p'&r'&Ep'&Hne&Eso&Esp&Esp').
        { unfold so. destruct Hso as [[-> ->]|[Hr Eo]].
          - exists pre, [e]. rewrite Z.eqb_refl. split_and!; try done; [apply Hv|cbn [spares] in *; lia|rewrite Ep, spares_app; cbn; lia].
          - exists p, (r ++ [e]). pose proof (proj1 Hv). rewrite Eo. destruct (sub_size es rs p (r ++ e :: post) HR) as (?&_); [rewrite Ees, Ep; by rewrite <- app_assoc|]. assert (0 <= at_blk k) by (unfold at_blk, DIRBLKSIZ; lia).
            rewrite (proj2 (Z.eqb_neq _ _)) by lia. split_and!; [rewrite Ep; by rewrite <- app_assoc|by destruct r|done|rewrite spares_app; cbn [spares]; lia|done]. }
        destruct (Z.leb_spec needed (s_free (loaded k pre s) + spare e)) as [Hn2|Hn2]; cbn [s_status s_slotoffset s_slotsize s_free].
        -- exists k, es, p', r', post. split_and!; try done; [rewrite Ees, app_snoc, Ep'; by rewrite <- app_assoc| |lia].
           assert (size pre + e_rec e = size p' + size r') by (rewrite <- !size_app, <- Ep', size_app; cbn; lia). pose proof (proj1 Hv). lia.
        -- split; [done|]. right. exists p', r'. split; [done|]. split; [done|]. split; [lia|]. split; [done|]. by right.
    + pose proof (spare_nonneg e He). rewrite K6. split; [done|]. right. destruct Hso as [[-> Eo]|[Hr Eo]].
      * exists (pre ++ [e]), []. rewrite app_nil_r. split; [done|]. split; [rewrite Ep, app_nil_r, spares_app; cbn [spares]; lia|]. split; [done|]. split; [done|]. by left.
      * exists p, (r ++ [e]). split_and!; [rewrite Ep; by rewrite <- app_assoc|done|rewrite spares_app; cbn [spares]; lia|done|right; split; [by destruct r|done]].
  - assert (room (s_slotoffset (loaded k pre s)) (s_slotsize (loaded k pre s))) as Hr by (destruct pre; [unfold loaded; rewrite Est; done|done]).
    destruct (0 <? spare e); [|by rewrite K6]. destruct (Z.leb_spec needed (spare e)) as [Hn|]; [|by rewrite K6]. cbn [s_status s_slotoffset s_slotsize].
    exists k, es, pre, [e], post. split_and!; try done; [apply Hv|cbn; lia|cbn; lia].
  - rewrite K6. destruct pre; [unfold loaded; rewrite Est; done|done].
Qed.
Lemma inv_next k es pre e post s : ess !! k = Some es -> es = pre ++ e :: post -> ent_ok e -> inv k pre s -> inv k (pre ++ [e]) (passed e (seen k pre e s)).
Proof.
  intros Hk Ees He [Hv Hs Hu Hp]. destruct (loaded_keeps k pre s Hv) as (K1&K2&K3&K4&K5&K6). destruct (slot_step_keeps (e_ino e) (e_rec e) (len (e_name e)) (loaded k pre s)) as (L1&L2&L3&L4&L5).
  fold (seen k pre e s) in *. destruct (Forall2_lookup_l _ _ _ _ _ HB Hk) as (b&_&rs&_&HR&_). destruct (sub_size es rs pre (e :: post) HR Ees) as (P1&_). pose proof (rec_small e He).
  pose proof (proj1 Hv) as Ho. assert (0 <= at_blk k) by (unfold at_blk, DIRBLKSIZ; lia). split.
  - split; cbn; [rewrite size_app, L1, K1, Ho; cbn; lia|]. intros _. rewrite size_app, L3, K3, L2, K2. cbn. split; [done|lia].
  - exact (slot_next k es pre e post s Hk Ees He Hv Hs).
  - intros Hc. destruct (Hu Hc) as (U1&U2&U3). unfold passed. cbn [s_useful s_offset]. rewrite L5, K5, L1, K1, Ho. rewrite Ho in U3. case_decide as Hue; split_and!; try lia.
    + intros j es' e' Hj Hjs He' Hue'. unfold at_blk, DIRBLKSIZ in *. lia.
    + apply U1.
    + intros e' [He'| ->%list_elem_of_singleton]%elem_of_app Hue'; [by apply (U2 e')|done].
  - intros p e' E. apply app_inj_tail in E. destruct E as [Ep _]. rewrite <- Ep. cbn. by rewrite L1, K1.
Qed.
Lemma inv_block k es s : ess !! k = Some es -> inv k es s -> inv (S k) [] s.
Proof.
  intros Hk [Hv Hs Hu Hp]. destruct (Forall2_lookup_l _ _ _ _ _ HB Hk) as (b&_&rs&_&HR&Hsz). split.
  - split; [|done]. rewrite (proj1 Hv), Hsz. unfold at_blk, DIRBLKSIZ. cbn [size]. lia.
  - unfold slot_inv in *. destruct create eqn:Ec; [|done]. destruct (s_status s); [|done|done]. destruct Hs as [Hcr Hs]. split; [|by left]. intros j es' Hj Hjs.
    destruct (decide (j = k)) as [->|Hne]; [|apply (Hcr j es'); [lia|done]]. assert (es' = es) as -> by congruence.
    destruct Hs as [->|(p&r&->&E0&Ef&Hlt&_)]; [exact (Hneeded eq_refl)|]. rewrite spares_app. lia.
  - intros Hc. destruct (Hu Hc) as (U1&U2&U3). split_and!; [|set_solver|lia|lia]. intros j es' e Hj Hjs He Hue. destruct (decide (j = k)) as [->|Hne]; [|apply (U1 j es' e); try done; lia].
    assert (es' = es) as -> by congruence. by apply (U2 e).
  - intros p e E. by destruct p.
Qed.

(** The entry is found. *)
Definition found (r : sres) : Prop := exists k es p e q s, r = SFound s (e_ino e) (e_rec e) /\ ess !! k = Some es /\ es = p ++ e :: q /\ hit name e /\
  s_offset s = at_blk k + size p /\ s_eoff s = size p /\ prev_inv k p s.
Lemma scan_block k es endsearch : ess !! k = Some es -> at_blk (S k) <= endsearch -> forall post pre fuel s,
  es = pre ++ post -> inv k pre s -> endsearch - s_offset s < Z.of_nat fuel ->
  (exists r, searchloop dirchk d dent needed fuel endsearch s = Ok r /\ found r) \/
  Forall (fun e => ~ hit name e) post /\ exists fuel' s', searchloop dirchk d dent needed fuel endsearch s = searchloop dirchk d dent needed fuel' endsearch s' /\
    inv (S k) [] s' /\ endsearch - s_offset s' < Z.of_nat fuel'.
Proof.
  intros Hk He. destruct (Forall2_lookup_l _ _ _ _ _ HB Hk) as (b&_&rs&_&HR&Hsz). induction post as [|e post IH]; intros pre fuel s Ees Hi Hf.
  { rewrite app_nil_r in Ees. subst pre. right. split; [done|]. exists fuel, s. split; [done|]. split; [by eapply inv_block|done]. }
  assert (ent_ok e) as Hoke by (subst es; apply Forall2_app_inv_l in HR as (r1&r2&_&R2&_); inversion R2 as [|? ? ? ? [Ho _]]; by subst).
  destruct (sub_size es rs pre (e :: post) HR Ees) as (P1&P2&P3&_&P5). specialize (P5 ltac:(done)). pose proof (rec_small e Hoke). pose proof (v_view _ _ _ Hi) as Hv.
  assert (at_blk (S k) = at_blk k + DIRBLKSIZ) as Ek by (unfold at_blk; lia). destruct fuel as [|fuel]; [rewrite (proj1 Hv) in Hf; lia|].
  rewrite (turn k es pre e post fuel endsearch s Hk Ees Hv He). pose proof (inv_next k es pre e post s Hk Ees Hoke Hi) as Hi'. case_decide as Hh.
  - left. eexists. split; [done|]. exists k, es, pre, e, post, (seen k pre e s). destruct (loaded_keeps k pre s Hv) as (K1&K2&K3&K4&K5&K6).
    destruct (slot_step_keeps (e_ino e) (e_rec e) (len (e_name e)) (loaded k pre s)) as (L1&L2&L3&L4&L5). fold (seen k pre e s) in *. split_and!; try done.
    + rewrite L1, K1. apply Hv.
    + by rewrite L2, K2.
    + intros p e0 E. rewrite L4, K4. by apply (v_prev _ _ _ Hi p e0).
  - destruct (IH (pre ++ [e]) fuel (passed e (seen k pre e s))) as [?|(Hno&Hrest)]; [rewrite Ees; apply app_snoc|done| |by left|right; split; [by constructor|done]].
    pose proof (proj1 (v_view _ _ _ Hi')) as Ho'. rewrite Ho', size_app. rewrite (proj1 Hv) in Hf. cbn [size]. lia.
Qed.
Lemma scan_blocks m : (m <= length ess)%nat -> forall n k fuel s, (k + n = m)%nat -> inv k [] s -> at_blk m - s_offset s < Z.of_nat fuel ->
  exists r, searchloop dirchk d dent needed fuel (at_blk m) s = Ok r /\
    (found r \/ exists s', r = SNone s' /\ inv m [] s' /\ forall j es, (k <= j < m)%nat -> ess !! j = Some es -> Forall (fun e => ~ hit name e) es).
Proof.
  intros Hm. induction n as [|n IH]; intros k fuel s Hkn Hi Hf.
  - assert (k = m) as -> by lia. pose proof (proj1 (v_view _ _ _ Hi)) as Ho. cbn [size] in Ho. destruct fuel as [|fuel]; [lia|]. cbn [searchloop]. rewrite (proj2 (Z.ltb_ge _ _)) by lia.
    eexists. split; [done|]. right. exists s. split; [done|]. split; [done|]. intros j es ?. lia.
  - destruct (lookup_lt_is_Some_2 ess k) as [es Hk]; [lia|]. assert (at_blk (S k) <= at_blk m) as Hle by (unfold at_blk, DIRBLKSIZ; lia).
    destruct (scan_block k es (at_blk m) Hk Hle es [] fuel s eq_refl Hi Hf) as [(r&E&Hr)|(Hno&fuel'&s'&E&Hi'&Hf')]; [exists r; auto|].
    rewrite E. destruct (IH (S k) fuel' s') as (r&E'&Hr); [lia|done|done|]. exists r. split; [done|]. destruct Hr as [?|(s2&->&Hi2&Hn2)]; [by left|]. right. exists s2. split; [done|]. split; [done|].
    intros j es' Hj Hjs. destruct (decide (j = k)) as [->|Hne]; [assert (es' = es) as -> by congruence; done|]. apply (Hn2 j es'); [lia|done].
Qed.
End Search.

(** ** The names of a directory *)

Definition named (e : entry) : list Z * Z := (e_name e, e_ino e).
Definition names (ess : list (list entry)) : list (list Z * Z) := named <$> live (concat ess).
Lemma names_in ess name ino : (name, ino) ∈ names ess <-> exists k es e, ess !! k = Some es /\ e ∈ es /\ hit name e /\ e_ino e = ino.
Proof.
  unfold names, live, named, hit. rewrite list_elem_of_fmap. split.
  - intros (e&E&[Hu He]%list_elem_of_filter). injection E as -> ->. apply list_elem_of_In, in_concat in He as (es&Hes%list_elem_of_In&He%list_elem_of_In). apply list_elem_of_lookup in Hes as [k Hk]. exists k, es, e. done.
  - intros (k&es&e&Hk&He&[Hu <-]&<-). exists e. split; [done|]. apply list_elem_of_filter. split; [done|]. eapply elem_of_concat_2; [exact He|]. by eapply list_elem_of_lookup_2.
Qed.

(** The search from a block of the directory on. *)
Lemma search_ok dirchk d dent needed name ess create (k : nat) :
  dir_ok ess d -> dent_ok dent name -> (k <= length ess)%nat -> (create = true -> 0 < needed /\ k = 0%nat) ->
  exists r, search dirchk d dent needed create (at_blk k) = Ok r /\
    (found name ess r \/ exists s, r = SNone s /\ (forall ino, (name, ino) ∉ names ess) /\
       (create = true -> exists bs, data d = concat bs /\ Forall2 blk_ok ess bs /\ inv needed ess bs create (length ess) [] s)).
Proof.
  intros [(bs&Ed&HB) Hs Hsm] Hdent Hk Hc. assert (at_blk (length ess) = i_size d) as Em by (rewrite Hs; done). unfold search.
  assert (blkoff (at_blk k) = 0) as -> by (rewrite blkoff_eq; unfold at_blk, DIRBLKSIZ; Z.to_euclidean_division_equations; lia). cbn [Z.eqb negb andb].
  rewrite Hs, roundup_mult, <- Hs, <- Em. assert (DIRBLKSIZ * len ess < 2147483648) as Hsm' by lia. assert (create = true -> 0 < needed) as Hn by tauto.
  assert (search_fuel d = S (Z.to_nat (at_blk (length ess)))) as Ef by (unfold search_fuel; by rewrite Hs, roundup_mult, <- Hs, <- Em).
  assert (forall j, (j <= length ess)%nat -> 0 <= at_blk j <= at_blk (length ess)) as Hat by (intros; unfold at_blk, DIRBLKSIZ; lia).
  set (s0 := MkSrch _ _ _ _ _ _ _ _ _). assert (inv needed ess bs create k [] s0) as Hi.
  { split; [split; [cbn; lia|done]| | |by intros [|]].
    - unfold slot_inv. destruct create; [|done]. split; [|by left]. destruct (Hc eq_refl) as [_ ->]. intros j es Hj. lia.
    - intros Hcr. destruct (Hc Hcr) as [_ ->]. split_and!; [lia|set_solver|done|done]. }
  assert (forall ino, (forall j es, (j < length ess)%nat -> ess !! j = Some es -> Forall (fun e => ~ hit name e) es) -> (name, ino) ∉ names ess) as Hno.
  { intros ino Hall (j&es&e&Hj&He&Hh&_)%names_in. specialize (Hall j es (lookup_lt_Some _ _ _ Hj) Hj). rewrite Forall_forall in Hall. by apply (Hall e He). }
  destruct (scan_blocks dirchk d dent needed name ess bs Ed HB Hsm' Hdent create Hn (length ess) (le_n _) (length ess - k) k (search_fuel d) s0) as (r&->&Hr);
    [lia|done|rewrite Ef; cbn [s_offset s0]; pose proof (Hat k Hk); lia|]. cbn [mbind res_bind]. destruct Hr as [Hr|(s1&->&Hi1&Hn1)].
  { exists r. split; [|by left]. destruct Hr as (?&?&?&?&?&?&->&_). done. }
  destruct (Z.eqb_spec (at_blk k) 0) as [E0|E0].
  { assert (k = 0%nat) as -> by (unfold at_blk, DIRBLKSIZ in E0; lia). eexists. split; [done|]. right. exists s1. split; [done|]. split; [|intros _; by exists bs].
    intros ino. apply Hno. intros j es Hj. apply Hn1. lia. }
  set (s2 := MkSrch _ _ _ _ _ _ _ _ _). destruct create eqn:Ecr; [destruct (Hc eq_refl) as [_ ->]; done|].
  assert (inv needed ess bs false 0 [] s2) as Hi2 by (split; [split; [done|done]|exact (v_slot _ _ _ _ _ _ _ Hi1)|done|by intros [|]]).
  destruct (scan_blocks dirchk d dent needed name ess bs Ed HB Hsm' Hdent false Hn k Hk k 0 (search_fuel d) s2) as (r&->&Hr); [lia|done|rewrite Ef; cbn [s_offset s2]; pose proof (Hat k Hk); lia|].
  exists r. split; [done|]. destruct Hr as [?|(s3&->&_&Hn3)]; [by left|]. right. exists s3. split; [done|]. split; [|done].
  intros ino. apply Hno. intros j es Hj Hjs. destruct (decide (j < k)%nat); [apply (Hn3 j); [lia|done]|apply (Hn1 j); [lia|done]].
Qed.

(** ** Changing a block *)

Lemma Forall2_put {A B} (R : A -> B -> Prop) l l' (l1 l2 : list B) k x y y' : Forall2 R l l' -> l' = l1 ++ y :: l2 -> length l1 = k -> R x y' -> Forall2 R (<[k := x]> l) (l1 ++ y' :: l2).
Proof. intros HR -> <- Hx. replace (l1 ++ y' :: l2) with (<[length l1 := y']> (l1 ++ y :: l2)) by (by rewrite insert_app_r_alt, Nat.sub_diag by lia). by apply Forall2_insert. Qed.
Lemma dir_put ess d k es es' b' o :
  dir_ok ess d -> ess !! k = Some es -> blk_ok es' b' -> 0 <= o < DIRBLKSIZ -> dir_ok (<[k := es']> ess) (blkwrite d (at_blk k + o) b').
Proof.
  intros [(bs&Ed&HB) Hs Hsm] Hk Hb' Ho. destruct (blkatoff_at ess bs d k es o Ed HB) as (b0&Hb0&_&_&_&Hlb); [lia|done|done|].
  destruct (blocks_split _ _ _ _ HB Hk) as (b1&b&b2&Hb&Ec&Eb&Hl1&Hok&Hl). split; [|cbn; rewrite Hs; unfold len; by rewrite length_insert|done].
  exists (b1 ++ b' :: b2). split; [|by eapply Forall2_put]. cbn [data blkwrite]. rewrite Hlb, Ed, Ec, concat_app. cbn [concat]. pose proof (blk_len _ _ Hok) as L1. pose proof (blk_len _ _ Hb') as L2.
  unfold len, at_blk, DIRBLKSIZ in *. replace (Z.to_nat (Z.of_nat k * 1024)) with (length (concat b1)) by lia. rewrite take_app_length. do 2 f_equal.
  replace (length (concat b1) + length b')%nat with (length (concat b1 ++ b)) by (rewrite length_app; lia). by rewrite app_assoc, drop_app_length.
Qed.
Lemma names_put ess k es es' : ess !! k = Some es -> exists N1 N2, names ess = N1 ++ (named <$> live es) ++ N2 /\ names (<[k := es']> ess) = N1 ++ (named <$> live es') ++ N2.
Proof.
  intros Hk. exists (names (take k ess)), (names (drop (S k) ess)). unfold names, live. rewrite <- (take_drop_middle _ _ _ Hk) at 1. rewrite concat_app. cbn [concat].
  rewrite !filter_app, !fmap_app. split; [done|]. rewrite insert_take_drop by (by eapply lookup_lt_Some). rewrite concat_app. cbn [concat]. by rewrite !filter_app, !fmap_app.
Qed.
(** A write of less than a record at the start of a record. *)
Lemma dwrite_rec ess d k es p e q r P Q x :
  dir_ok ess d -> ess !! k = Some es -> es = p ++ e :: q -> blkatoff d (at_blk k + size p) = Some (P ++ r ++ Q) -> len P = size p -> size p + len r + len Q = DIRBLKSIZ -> len x <= len r -> 12 <= len x ->
  dwrite 0 (at_blk k + size p) x d = (0, blkwrite d (at_blk k + size p) (P ++ (x ++ drop (length x) r) ++ Q)).
Proof.
  intros [(bs&Ed&HB) Hs Hsm] Hk Ees Hbo HlP Hl Hx Hx12. pose proof (len_nonneg P). pose proof (len_nonneg Q).
  assert (0 <= size p < DIRBLKSIZ) as Hp by (unfold DIRBLKSIZ in *; lia).
  destruct (blkatoff_at ess bs d k es (size p) Ed HB) as (b0&Hb0&Hbk&Hbo'&_&Hlb); [lia|done|done|]. assert (b0 = P ++ r ++ Q) as -> by congruence.
  destruct (blocks_split _ _ _ _ HB Hk) as (b1&b&b2&Hb&Ec&Eb&Hl1&Hok&Hlb1). assert (b = P ++ r ++ Q) as -> by congruence.
  pose proof (lookup_lt_Some _ _ _ Hk). pose proof (blocks_len _ _ HB) as Hlen. unfold dwrite, blkwrite. cbn [Z.eqb negb]. rewrite Hlb, Ed.
  assert (roundup (at_blk k + size p + len x) DIRBLKSIZ = at_blk (S k)) as -> by (unfold roundup, at_blk, DIRBLKSIZ in *; Z.to_euclidean_division_equations; lia).
  assert (Z.to_nat (at_blk (S k) - len (concat bs)) = 0%nat) as -> by (rewrite Hlen; unfold at_blk, DIRBLKSIZ, len; lia). cbn [replicate]. rewrite app_nil_r.
  f_equal. f_equal; [rewrite Hs; unfold at_blk, DIRBLKSIZ, len in *; lia|]. rewrite Ec. unfold at_blk, DIRBLKSIZ, len in *.
  replace (Z.to_nat (1024 * Z.of_nat k + size p)) with (length (concat b1 ++ P)) by (rewrite length_app; lia).
  replace (Z.to_nat (Z.of_nat k * 1024)) with (length (concat b1)) by lia. rewrite take_app_length.
  replace (concat b1 ++ (P ++ r ++ Q) ++ concat b2) with ((concat b1 ++ P) ++ r ++ Q ++ concat b2) by (by rewrite <- !app_assoc). rewrite take_app_length, <- !app_assoc. do 3 f_equal.
  replace (concat b1 ++ P ++ r ++ Q ++ concat b2) with ((concat b1 ++ P ++ r ++ Q) ++ concat b2) at 2 by (by rewrite <- !app_assoc).
  replace (length (concat b1) + length (P ++ x ++ drop (length x) r ++ Q))%nat with (length (concat b1 ++ P ++ r ++ Q)) by (rewrite !length_app, length_drop; lia). rewrite drop_app_length.
  replace (concat b1 ++ P ++ r ++ Q ++ concat b2) with ((concat b1 ++ P) ++ r ++ Q ++ concat b2) by (by rewrite <- !app_assoc).
  replace (Z.to_nat (1024 * Z.of_nat k + size p + Z.of_nat (length x))) with (length (concat b1 ++ P) + length x)%nat by (rewrite length_app; lia).
  rewrite <- drop_drop, drop_app_length, drop_app_le by lia. done.
Qed.
(** An entry of a block, with its bytes. *)
Lemma block_entry es b p e q : blk_ok es b -> es = p ++ e :: q ->
  exists r1 r r2, b = concat r1 ++ r ++ concat r2 /\ Forall2 is_rec p r1 /\ is_rec e r /\ Forall2 is_rec q r2 /\ len (concat r1) = size p /\ len r = e_rec e /\ len (concat r2) = size q /\
    size p + e_rec e + size q = DIRBLKSIZ.
Proof.
  intros (rs&->&HR&Hsz) ->. apply Forall2_app_inv_l in HR as (r1&r2&R1&R2&->). inversion R2 as [|? r ? r2' Hr R2' E1 E2]; subst. exists r1, r, r2'.
  rewrite concat_app, size_app in *. cbn [concat size] in *. split; [done|]. do 3 (split; [done|]). split; [by apply recs_len|]. split; [by destruct Hr as (_&sl&_&?)|]. split; [by apply recs_len|lia].
Qed.
Lemma block_of (r1 r2 : list (list Z)) r p e q : Forall2 is_rec p r1 -> is_rec e r -> Forall2 is_rec q r2 -> size p + e_rec e + size q = DIRBLKSIZ ->
  blk_ok (p ++ e :: q) (concat r1 ++ r ++ concat r2).
Proof. intros R1 R R2 Hsz. exists (r1 ++ r :: r2). rewrite concat_app. split; [done|]. split; [apply Forall2_app; [done|by constructor]|]. rewrite size_app. cbn [size]. lia. Qed.

(** The entry gets another inode, by a write of [struct direct]. *)
Lemma rewrite_entry ess d k es p e q dent (ino : Z) :
  dir_ok ess d -> ess !! k = Some es -> es = p ++ e :: q -> dent_ok dent (e_name e) -> d_reclen dent = e_rec e -> d_ino dent = ino ->
  dir_ok (<[k := p ++ MkEntry ino (e_rec e) (e_name e) :: q]> ess)
    (dwrite 0 (at_blk k + size p) (take (Z.to_nat (DIRSIZ (d_namlen dent))) (direct_bytes dent)) d).2.
Proof.
  intros Hd Hk Ees Hdent Hrl <-. pose proof Hd as [(bs&Ed&HB) Hs Hsm]. destruct (Forall2_lookup_l _ _ _ _ _ HB Hk) as (b&Hb&Hok).
  destruct (block_entry es b p e q Hok Ees) as (r1&r&r2&->&R1&Hr&R2&L1&Lr&L2&Hsz). pose proof (proj1 Hr) as He. pose proof (need_rec e He). pose proof (recs_size _ _ R1) as [? _]. pose proof (recs_size _ _ R2) as [? _]. pose proof (rec_small e He).
  destruct (blkatoff_at ess bs d k es (size p) Ed HB) as (b0&Hb0&_&Hbo&_); [lia|done|unfold DIRBLKSIZ in *; lia|]. assert (b0 = concat r1 ++ r ++ concat r2) as -> by congruence.
  destruct (direct_record dent (e_name e) (e_rec e) Hdent) as (sl&Er&Hl). replace (set_reclen (e_rec e) dent) with dent in Er by (destruct dent; cbn in *; by subst). rewrite Er.
  fold (need e) in Hl. set (x := record _ sl) in *. rewrite (dwrite_rec ess d k es p e q r (concat r1) (concat r2) x Hd Hk Ees Hbo L1) by lia. cbn [snd].
  apply (dir_put ess d k es _ _ _ Hd Hk); [|unfold DIRBLKSIZ in *; lia]. apply block_of; [done| |done|exact Hsz].
  split; [split; [apply Hdent|apply He|apply He|apply He]|]. exists (sl ++ drop (length x) r). split; [unfold x, record; by rewrite <- !app_assoc|].
  unfold len in *. rewrite length_app, length_drop. cbn [e_rec]. lia.
Qed.

Lemma dent_ok_set dent name (ino reclen : Z) : dent_ok dent name -> 0 <= ino < 4294967296 -> dent_ok (set_reclen reclen (set_ino ino dent)) name.
Proof. intros [] Hi. by split. Qed.
Lemma live_cons_used e es : used_entry e -> live (e :: es) = e :: live es.
Proof. intros. unfold live. by rewrite filter_cons_True. Qed.
Lemma live_app es es' : live (es ++ es') = live es ++ live es'.
Proof. unfold live. apply filter_app. Qed.
(** The space of an entry goes to the one before it. *)
Lemma merge_entry ess d k es p e0 e q :
  dir_ok ess d -> ess !! k = Some es -> es = p ++ e0 :: e :: q ->
  exists b b', blkatoff d (at_blk k + size p) = Some b /\ blkoff (at_blk k + size p) = size p /\ ep_reclen b (size p) = Ok (e_rec e0) /\
    put_bytes (size p + 4) (le16 (e_rec e0 + e_rec e)) b = Ok b' /\
    dir_ok (<[k := p ++ set_rec (e_rec e0 + e_rec e) e0 :: q]> ess) (blkwrite d (at_blk k + size p) b').
Proof.
  intros Hd Hk Ees. pose proof Hd as [(bs&Ed&HB) Hs Hsm]. destruct (Forall2_lookup_l _ _ _ _ _ HB Hk) as (b&Hb&Hok).
  destruct (block_entry es b p e0 (e :: q) Hok Ees) as (r1&r0&r2&->&R1&Hr0&R2&L1&Lr0&L2&Hsz). inversion R2 as [|? r ? r2' Hr R2' E1 E2]; subst r2.
  pose proof (recs_size _ _ R1) as [? _]. pose proof (recs_size _ _ R2') as [? _]. destruct Hr0 as (He0&sl0&->&_). destruct Hr as (He&sl&Er&Lr). pose proof (rec_small e He). pose proof (rec_small e0 He0).
  cbn [size] in *. unfold DIRBLKSIZ in *. destruct (blkatoff_at ess bs d k es (size p) Ed HB) as (b0&Hb0&_&Hbo&Hof&_); [unfold DIRBLKSIZ; lia|done|unfold DIRBLKSIZ; lia|].
  set (b := concat r1 ++ record e0 sl0 ++ concat (r :: r2')) in *. assert (b0 = b) as -> by congruence.
  assert (b = concat r1 ++ record (set_rec (e_rec e0) e0) sl0 ++ concat (r :: r2')) as Eb by (by rewrite set_rec_id). set (w := e_rec e0 + e_rec e).
  exists b, (concat r1 ++ record (set_rec w e0) sl0 ++ concat (r :: r2')). do 2 (split; [done|]).
  split; [eapply get_reclen; [exact Eb|done|lia]|]. split; [eapply put_reclen; [exact Eb|done]|].
  apply (dir_put ess d k es _ _ _ Hd Hk); [|unfold DIRBLKSIZ; lia]. cbn [concat]. rewrite (app_assoc _ r). apply block_of; [done| |done|cbn [e_rec set_rec]; unfold DIRBLKSIZ, w; lia].
  split; [|exists (sl0 ++ r); split; [unfold record; by rewrite <- !app_assoc|rewrite len_app, record_len in *; cbn [e_rec e_name set_rec]; unfold w; lia]].
  destruct He0 as [O1 O2 O3 O4]. split; cbn; [done|done|unfold need in *; cbn; unfold DIRBLKSIZ, w in *; lia|]. apply Z.divide_add_r; [done|apply He].
Qed.

Lemma merged_names p e0 e q (w : Z) : used_entry e -> named <$> live (p ++ e0 :: e :: q) ≡ₚ named e :: (named <$> live (p ++ set_rec w e0 :: q)).
Proof.
  intros Hu. assert (p ++ e0 :: e :: q ≡ₚ e :: p ++ e0 :: q) as E by (change (p ++ [e0] ++ e :: q ≡ₚ e :: p ++ [e0] ++ q); rewrite !app_assoc; symmetry; apply Permutation_middle). unfold live. rewrite E, filter_cons_True, fmap_cons by done. apply Permutation_cons; [done|].
  rewrite !filter_app, !fmap_app. destruct (decide (used_entry e0)); [by rewrite !filter_cons_True|by rewrite !filter_cons_False].
Qed.

(** ** Entering a name *)

(** What follows the last entry in use is cut off. *)
Lemma dir_cut ess d (m : nat) : dir_ok ess d -> (m <= length ess)%nat -> (forall j es e, (m <= j)%nat -> ess !! j = Some es -> e ∈ es -> ~ used_entry e) ->
  dir_ok (take m ess) (dtrunc (at_blk m) d) /\ names (take m ess) = names ess.
Proof.
  intros [(bs&Ed&HB) Hs Hsm] Hm Hno. split.
  - split; cbn; [|unfold len, at_blk; rewrite length_take; f_equal; lia|unfold len, at_blk, DIRBLKSIZ in *; lia]. exists (take m bs). split; [|by apply Forall2_take].
    pose proof (blocks_len (take m ess) (take m bs)) as Hl. rewrite Ed. rewrite <- (take_drop m bs) at 1. rewrite concat_app.
    replace (Z.to_nat (at_blk m)) with (length (concat (take m bs))); [apply take_app_length|]. specialize (Hl ltac:(by apply Forall2_take)). unfold len, at_blk, DIRBLKSIZ in *. rewrite length_take in Hl. lia.
  - unfold names. rewrite <- (take_drop m ess) at 2. rewrite concat_app, live_app, fmap_app. assert (live (concat (drop m ess)) = []) as ->; [|by rewrite app_nil_r].
    unfold live. apply elem_of_nil_inv. intros e [Hu He']%list_elem_of_filter. revert He' Hu. intros (es&Hes%list_elem_of_In&He%list_elem_of_In)%list_elem_of_In%in_concat Hu. apply list_elem_of_lookup in Hes as [j Hj]. rewrite lookup_drop in Hj. apply (Hno (m + j)%nat es e); [lia|done|done|done].
Qed.
(** A new block at the end. *)
Lemma dir_append ess d dent name : dir_ok ess d -> dent_ok dent name -> i_size d + DIRBLKSIZ < 2147483648 ->
  let d' := (dwrite 0 (at_blk (length ess)) (take (Z.to_nat (DIRSIZ (d_namlen dent))) (direct_bytes (set_reclen DIRBLKSIZ dent))) d).2 in
  dir_ok (ess ++ [[MkEntry (d_ino dent) DIRBLKSIZ name]]) (MkDir (roundup (i_size d') DIRBLKSIZ) (data d')).
Proof.
  intros [(bs&Ed&HB) Hs Hsm] Hdent Hroom d'. unfold d'. clear d'. destruct (direct_record dent name DIRBLKSIZ Hdent) as (sl&->&Hl). set (x := record _ sl) in *.
  pose proof (need_bound (MkEntry 0 0 name) (dn_name _ _ Hdent)) as (Hb&_). unfold need in Hb. cbn [e_name] in Hb. pose proof (blocks_len _ _ HB) as Hlen.
  assert (roundup (at_blk (length ess) + len x) DIRBLKSIZ = at_blk (S (length ess))) as Er by (unfold roundup, at_blk, DIRBLKSIZ in *; Z.to_euclidean_division_equations; lia).
  assert (Z.max (i_size d) (at_blk (length ess) + len x) = at_blk (length ess) + len x) as Em by (rewrite Hs; unfold at_blk, len in *; lia).
  unfold dwrite. cbn [Z.eqb negb snd i_size data]. rewrite Em, !Er. split; cbn [i_size data]; [|unfold len, at_blk; rewrite length_app; cbn; f_equal; lia|rewrite Hs in Hroom; unfold len, at_blk, DIRBLKSIZ in *; lia].
  set (junk := replicate (Z.to_nat (DIRBLKSIZ - len x)) 0). exists (bs ++ [x ++ junk]). split.
  - rewrite Ed, concat_app. cbn [concat]. rewrite app_nil_r. unfold len, at_blk, DIRBLKSIZ in *. replace (Z.to_nat (1024 * Z.of_nat (length ess))) with (length (concat bs)) by lia. rewrite take_app_length. do 2 f_equal.
    replace (Z.to_nat (1024 * Z.of_nat (length ess) + Z.of_nat (length x))) with (length (concat bs) + length x)%nat by lia. rewrite <- drop_drop, drop_app_length, drop_replicate. unfold junk. f_equal. lia.
  - apply Forall2_app; [done|]. constructor; [|constructor]. exists [x ++ junk]. cbn [concat size e_rec]. rewrite app_nil_r. split; [done|]. split; [|done]. constructor; [|constructor].
    apply new_rec; [done|by exists 256|done|done|]. unfold junk, len. rewrite length_replicate. unfold len, DIRBLKSIZ in *. lia.
Qed.
(** A slot of the block is compacted. *)
Lemma dir_enter_slot ess d k es p r q dent name : dir_ok ess d -> ess !! k = Some es -> es = p ++ r ++ q -> r <> [] -> dent_ok dent name -> DIRSIZ (len name) <= spares r ->
  exists b b' es' v, blkatoff d (at_blk k + size p) = Some b /\ enter_block (blkoff (at_blk k + size p)) (size r) dent b = Ok b' /\
    es' = p ++ ((trim <$> live r) ++ [MkEntry (d_ino dent) v name]) ++ q /\ dir_ok (<[k := es']> ess) (blkwrite d (at_blk k + size p) b').
Proof.
  intros Hd Hk Ees Hne Hdent Hsp. pose proof Hd as [(bs&Ed&HB) Hs Hsm]. destruct (Forall2_lookup_l _ _ _ _ _ HB Hk) as (b&Hb&rs&Eb&HR&Hsz).
  destruct (sub_size es rs p (r ++ q) HR Ees) as (P1&P2&P3&_). rewrite Ees in HR. apply Forall2_app_inv_l in HR as (r1&r2'&R1&R2&->). apply Forall2_app_inv_l in R2 as (r2&r3&R2&R3&->).
  pose proof (recs_size _ _ R3) as [? _]. destruct (sub_size r r2 [] r R2 eq_refl) as (_&_&_&_&P5). specialize (P5 Hne). rewrite size_app in P3. rewrite Hsz in P3.
  destruct (blkatoff_at ess bs d k es (size p) Ed HB) as (b0&Hb0&_&Hbo&Hof&_); [lia|done|lia|]. assert (b0 = b) as -> by congruence.
  rewrite !concat_app in Eb. destruct (enter_block_ok (concat r1) (concat r3) r r2 dent name R2 Hne) as (rs'&v&Een&HR'&Hsz'); [lia|done|done|]. rewrite (recs_len _ _ R1), <- Eb in Een.
  eexists b, _, _, v. split; [done|]. rewrite Hof. split; [exact Een|]. split; [done|]. apply (dir_put ess d k es _ _ _ Hd Hk); [|lia].
  exists (r1 ++ rs' ++ r3). rewrite !concat_app. split; [done|]. split; [apply Forall2_app; [done|]; by apply Forall2_app|]. rewrite !size_app. rewrite size_app in Hsz'. lia.
Qed.

Lemma trim_live r : live (trim <$> live r) = trim <$> live r.
Proof. unfold live. induction r as [|e r IH]; [done|]. rewrite filter_cons. case_decide; [|done]. rewrite fmap_cons, filter_cons_True by done. by rewrite IH. Qed.
Lemma slot_names p r q e : used_entry e -> named <$> live (p ++ ((trim <$> live r) ++ [e]) ++ q) ≡ₚ named e :: (named <$> live (p ++ r ++ q)).
Proof.
  intros Hu. rewrite !live_app, trim_live, (live_cons_used e []) by done. rewrite !fmap_app, <- list_fmap_compose. change (named ∘ trim) with named. rewrite <- app_assoc. cbn [app fmap list_fmap].
  rewrite (app_assoc _ _ (named e :: _)), <- Permutation_middle. by rewrite <- app_assoc.
Qed.

(** A new block, or the error of its write. *)
Lemma direnter_new ess d dent name (e ino : Z) : dir_ok ess d -> dent_ok (set_ino ino dent) name -> ino <> 0 -> i_size d + DIRBLKSIZ < 2147483648 ->
  let nd := MkNd (at_blk (length ess)) 0 (at_blk (length ess)) dent in
  if decide (e = 0) then exists d' ess', direnter e ino nd d = Ok (Some (0, d')) /\ dir_ok ess' d' /\ names ess' ≡ₚ (name, ino) :: names ess
  else direnter e ino nd d = Ok (Some (EIO, d)).
Proof.
  intros Hd Hdent Hino Hroom nd. unfold nd, direnter. cbn [ni_count ni_offset ni_dent Z.eqb].
  assert (flag_on (at_blk (length ess)) (DIRBLKSIZ - 1) = false) as -> by (unfold flag_on; fold (blkoff (at_blk (length ess))); rewrite blkoff_eq; unfold at_blk, DIRBLKSIZ; rewrite Z.mul_comm, Z.mod_mul by lia; done).
  pose proof (dir_append ess d (set_ino ino dent) name Hd Hdent Hroom) as Ha. cbv zeta in Ha. case_decide as He.
  - subst e. set (x := take _ _) in *. assert (exists d1, dwrite 0 (at_blk (length ess)) x d = (0, d1)) as [d1 E] by (eexists; done). rewrite E in Ha |- *.
    eexists _, _. split; [done|]. split; [exact Ha|]. unfold names. rewrite concat_app, live_app, fmap_app. cbn [concat app]. rewrite live_cons_used by done.
    cbn. by rewrite Permutation_app_comm.
  - unfold dwrite. rewrite (proj2 (Z.eqb_neq e 0)) by done. cbn [negb]. rewrite (do_size _ _ Hd), roundup_mult, <- (do_size _ _ Hd). by destruct d.
Qed.
Lemma direnter_room ess d dent name (e ino off n useful : Z) :
  dir_ok ess d -> dent_ok (set_ino ino dent) name -> ino <> 0 -> room (DIRSIZ (len name)) ess off n -> 0 <= useful <= i_size d ->
  (forall j es e, ess !! j = Some es -> e ∈ es -> used_entry e -> at_blk j < useful) ->
  exists d' ess', direnter e ino (MkNd off (u16 n) (roundup (if useful <? off + n then off + n else useful) DIRBLKSIZ) dent) d = Ok (Some (0, d')) /\ dir_ok ess' d' /\ names ess' ≡ₚ (name, ino) :: names ess.
Proof.
  intros Hd Hdent Hino (k&es&p&r&q&Hk&Ees&Hne&->&->&Hsp) Huse Hlast. destruct (dir_enter_slot ess d k es p r q _ name Hd Hk Ees Hne Hdent Hsp) as (b&b'&es'&v&Hbo&Hen&Ees'&Hd').
  pose proof Hd as [(bs&Ed&HB) Hs Hsm]. destruct (Forall2_lookup_l _ _ _ _ _ HB Hk) as (b0&_&rs&_&HR&Hsz). pose proof (lookup_lt_Some _ _ _ Hk) as Hlt.
  assert (0 <= size p /\ 12 <= size r /\ size p + size r <= 1024) as (P1&P2&P3).
  { destruct (sub_size es rs p (r ++ q) HR Ees) as (?&_&?&_). rewrite Ees in HR. apply Forall2_app_inv_l in HR as (r1&r2'&_&R2&->). apply Forall2_app_inv_l in R2 as (r2&r3&R2&R3&->).
    pose proof (recs_size _ _ R3) as [? _]. destruct (sub_size r r2 [] r R2 eq_refl) as (_&_&_&_&P5). specialize (P5 Hne). rewrite size_app in *. unfold DIRBLKSIZ in *. lia. }
  unfold direnter. cbn [ni_count ni_offset ni_endoff ni_dent]. unfold u16. rewrite (Z.mod_small (size r)), (proj2 (Z.eqb_neq (size r) 0)) by lia. rewrite (proj2 (Z.ltb_ge (i_size d) _)) by (rewrite Hs; unfold at_blk, DIRBLKSIZ, len; lia).
  rewrite Hbo, Hen. cbn [mbind res_bind]. set (d1 := blkwrite _ _ b') in *. change (i_size d1) with (i_size d). set (u := if useful <? _ then _ else useful).
  assert (useful <= u /\ at_blk k < u <= i_size d) as (U1&U2) by (unfold u; rewrite Hs in *; unfold at_blk, DIRBLKSIZ, len in *; destruct (Z.ltb_spec useful (1024 * Z.of_nat k + size p + size r)); lia).
  assert (exists m, roundup u DIRBLKSIZ = at_blk m /\ (k < m <= length ess)%nat /\ u <= at_blk m) as (m&->&Hm&Hum).
  { exists (Z.to_nat ((u + 1023) / 1024)). rewrite Hs in *. unfold roundup, at_blk, DIRBLKSIZ, len in *. Z.to_euclidean_division_equations; lia. }
  assert (names (<[k := es']> ess) ≡ₚ (name, ino) :: names ess) as HN.
  { destruct (names_put ess k es es' Hk) as (N1&N2&->&->). rewrite Ees', slot_names, <- Ees by done. cbn [app]. by rewrite <- Permutation_middle. }
  destruct (negb (at_blk m =? 0) && (at_blk m <? i_size d)); [|by eexists _, _].
  destruct (dir_cut (<[k := es']> ess) d1 m Hd') as [Hd2 HN2]; [rewrite length_insert; lia| |eexists _, _; split; [done|]; split; [exact Hd2|by rewrite HN2]].
  intros j es2 e1 Hj Hjs He Hue. rewrite list_lookup_insert_ne in Hjs by lia. pose proof (Hlast j es2 e1 Hjs He Hue). unfold at_blk, DIRBLKSIZ in *. lia.
Qed.

Lemma found_at ess d j es p e q : dir_ok ess d -> ess !! j = Some es -> es = p ++ e :: q -> 0 <= size p < DIRBLKSIZ /\ size p + need e <= i_size d /\ ent_ok e.
Proof.
  intros [(bs&Ed&HB) Hs _] Hj Ees. destruct (Forall2_lookup_l _ _ _ _ _ HB Hj) as (b&Hb&Hok). destruct (block_entry es b p e q Hok Ees) as (r1&r&r2&_&R1&Hr&R2&_&_&_&Hsz).
  pose proof (need_rec e (proj1 Hr)). pose proof (recs_size _ _ R1) as [? _]. pose proof (recs_size _ _ R2) as [? _]. pose proof (lookup_lt_Some _ _ _ Hj). split; [lia|]. split; [|apply Hr]. rewrite Hs. unfold DIRBLKSIZ, len in *. lia.
Qed.

(** ** An empty directory *)

Definition dots (parentino : Z) (n : list Z * Z) : Prop := n.1 = [DOT] \/ n.1 = [DOT; DOT] /\ n.2 = parentino.
#[export] Instance dots_dec parentino n : Decision (dots parentino n).
Proof. unfold dots. apply _. Defined.
Lemma all_records ess bs : Forall2 blk_ok ess bs -> exists rs, concat bs = concat rs /\ Forall2 is_rec (concat ess) rs.
Proof.
  induction 1 as [|es b ess bs (r1&->&R1&_) _ (r2&E&R2)]; [by exists []|]. exists (r1 ++ r2). cbn [concat]. rewrite concat_app, E. split; [done|by apply Forall2_app].
Qed.
(** The part of an entry that dirempty reads. *)
Definition head (e : entry) (c0 c1 c2 c3 : Z) : list Z := le32 (e_ino e) ++ le16 (e_rec e) ++ le16 (len (e_name e)) ++ [c0; c1; c2; c3].
Lemma head_fields e c0 c1 c2 c3 : ent_ok e -> let dp := head e c0 c1 c2 c3 in
  ep_reclen dp 0 = Ok (e_rec e) /\ ep_ino dp 0 = Ok (e_ino e) /\ ep_namlen dp 0 = Ok (len (e_name e)) /\ rd8 dp 8 = Ok c0 /\ rd8 dp 9 = Ok c1.
Proof.
  intros He dp. pose proof (rec_small e He). pose proof (n_len _ (o_name _ He)). unfold MAXNAMLEN in *. split_and!; try done.
  - change (Ok (e_rec e mod 256 + 256 * (e_rec e / 256 mod 256)) = Ok (e_rec e)). f_equal. apply le16_val. lia.
  - set (v := e_ino e). change (Ok (v mod 65536 mod 256 + 256 * (v mod 65536 / 256 mod 256) + 65536 * (v / 65536 mod 256 + 256 * (v / 65536 / 256 mod 256))) = Ok v).
    f_equal. apply le32_val, (o_ino _ He).
  - change (Ok (len (e_name e) mod 256 + 256 * (len (e_name e) / 256 mod 256)) = Ok (len (e_name e))). f_equal. apply le16_val. lia.
Qed.
Lemma rec_head e r : is_rec e r -> exists c0 c1 c2 c3 t t', r = head e c0 c1 c2 c3 ++ t /\ e_name e ++ 0 :: t' = c0 :: c1 :: c2 :: c3 :: t.
Proof.
  intros (He&sl&->&Hl). pose proof (rec_small e He). rewrite record_len in Hl.
  assert (4 <= length (e_name e ++ 0%Z :: sl))%nat as Hn by (rewrite length_app; unfold len in Hl; simpl; lia).
  destruct (e_name e ++ 0 :: sl) as [|c0 [|c1 [|c2 [|c3 t]]]] eqn:En; cbn [length] in Hn; try lia. exists c0, c1, c2, c3, t, sl. split; [|done].
  unfold record, head. rewrite En. by rewrite <- !app_assoc.
Qed.
Lemma dirempty_loop_ok parentino d es : forall rs P fuel,
  data d = P ++ concat rs -> Forall2 is_rec es rs -> i_size d = len P + size es -> size es < Z.of_nat fuel ->
  dirempty_loop fuel parentino (len P) d = Ok (bool_decide (Forall (dots parentino) (named <$> live es))).
Proof.
  induction es as [|e es IH]; intros rs P [|fuel] Ed HR Hs Hf; try (pose proof (recs_size _ _ HR) as [? _]; lia); cbn [dirempty_loop].
  { cbn [size] in Hs. by rewrite (proj2 (Z.ltb_ge _ _)) by lia. }
  inversion HR as [|? r ? rs' Hr HR']; subst rs. pose proof (proj1 Hr) as He. pose proof (rec_small e He). pose proof (recs_size _ _ HR') as [? _]. cbn [size concat] in *.
  assert (len r = e_rec e) as Lr by (destruct Hr as (_&?&_&?); done). destruct (rec_head e r Hr) as (c0&c1&c2&c3&t&t'&Er&En). destruct (head_fields e c0 c1 c2 c3 He) as (F1&F2&F3&F4&F5).
  assert (len (head e c0 c1 c2 c3) = MINDIRSIZ) as Lh by done. unfold MINDIRSIZ in *. rewrite (proj2 (Z.ltb_lt _ _)), (proj2 (Z.ltb_ge _ _)) by lia.
  rewrite (get_bytes (data d) P (head e c0 c1 c2 c3) (t ++ concat rs')) by (done || (rewrite Ed, Er; by rewrite <- !app_assoc)). cbn [mbind res_bind].
  rewrite F1. cbn [mbind res_bind]. rewrite (proj2 (Z.eqb_neq _ _)) by lia. rewrite F2. cbn [mbind res_bind].
  assert (dirempty_loop fuel parentino (len P + e_rec e) d = Ok (bool_decide (Forall (dots parentino) (named <$> live es)))) as IH'.
  { rewrite <- Lr, <- len_app. apply (IH rs'); [rewrite Ed; by rewrite <- app_assoc|done|rewrite len_app; lia|lia]. }
  destruct (Z.eqb_spec (e_ino e) 0) as [E0|E0]; [unfold live; rewrite filter_cons_False by (unfold used_entry; lia); exact IH'|].
  rewrite live_cons_used, fmap_cons by done. rewrite F3. cbn [mbind res_bind]. clear IH.
  assert (forall b : bool, (e_name e = [DOT] \/ e_name e = [DOT; DOT] /\ e_ino e = parentino <-> b = true) ->
    bool_decide (Forall (dots parentino) (named e :: (named <$> live es))) = b && bool_decide (Forall (dots parentino) (named <$> live es))) as Hdots.
  { intros b Hb. apply eq_true_iff_eq. rewrite andb_true_iff, !bool_decide_eq_true, Forall_cons, <- Hb. done. }
  pose proof (n_len _ (o_name _ He)) as [Hn _]. unfold len in *.
  destruct (e_name e) as [|a [|a1 [|a2 n]]] eqn:Ee; cbn [length] in *; [lia| | |].
  - injection En as <- _. cbn [Z.ltb Z.compare Z.of_nat]. rewrite F4. cbn [mbind res_bind]. rewrite (Hdots (a =? DOT)). 2: { rewrite Z.eqb_eq. split; [intros [?|[? _]]; congruence|intros ->; by left]. }
    destruct (a =? DOT); cbn [negb andb]; [exact IH'|done].
  - injection En as <- <- _. cbn [Z.ltb Z.compare Z.of_nat]. rewrite F4. cbn [mbind res_bind]. rewrite (Hdots ((a =? DOT) && ((a1 =? DOT) && (e_ino e =? parentino)))).
    2: { rewrite !andb_true_iff, !Z.eqb_eq. split; [intros [?|[? ?]]; [congruence|]; split_and!; congruence|intros (->&->&?); by right]. }
    destruct (a =? DOT); cbn [negb andb]; [|done]. rewrite (proj2 (Z.eqb_neq _ 1)) by done. rewrite F5. cbn [mbind res_bind]. destruct ((a1 =? DOT) && (e_ino e =? parentino)); [exact IH'|done].
  - rewrite (proj2 (Z.ltb_lt _ _)) by lia. rewrite (Hdots false); [done|]. split; [intros [?|[? _]]; congruence|done].
Qed.

(** (C26) The search for a name ends, from the start of whatever block the last
    lookup remembered, also when the directory has got shorter since; it finds
    the name with its inode if the directory has it, and reports that it is not
    there only if no block has it.  The size of the directory is left as it is,
    and the offset remembered for the next lookup is again the start of a block
    of the directory.  The complete checks of entries (dirchk) make no
    difference in a sound directory. *)
Theorem dir_lookup_spec ess d dent name dirchk lookup same (k : nat) :
  dir_ok ess d -> dent_ok dent name ->
  exists r, search dirchk d dent 0 false (search_start lookup same (at_blk k) d) = Ok r /\
    match r with
    | SFound s ino _ => (name, ino) ∈ names ess /\ fix_size s dent d = d /\ exists j, (j < length ess)%nat /\ save_offset s = at_blk j
    | SNone _ => forall ino, (name, ino) ∉ names ess
    | SBad => False
    end.
Proof.
  intros Hd Hdent. assert (exists k', (k' <= length ess)%nat /\ search_start lookup same (at_blk k) d = at_blk k') as (k'&Hk&->).
  { unfold search_start. destruct (negb lookup || negb same); [exists 0%nat; split; [lia|done]|]. destruct (Z.ltb_spec (i_size d) (at_blk k)) as [|Hle]; [exists 0%nat; split; [lia|done]|].
    exists k. split; [|done]. rewrite (do_size _ _ Hd) in Hle. unfold at_blk, DIRBLKSIZ, len in Hle. lia. }
  destruct (search_ok dirchk d dent 0 name ess false k' Hd Hdent Hk) as (r&E&Hr); [done|]. exists r. split; [done|].
  destruct Hr as [(j&es&p&e&q&s&->&Hj&Ees&Hh&Ho&Heo&_)|(s&->&Hn&_)]; [|done]. destruct (found_at ess d j es p e q Hd Hj Ees) as (P1&P2&P3).
  split; [apply names_in; exists j, es, e; split_and!; try done; set_solver|]. split.
  - unfold fix_size. destruct Hh as [_ <-]. rewrite (dn_len _ _ Hdent), Heo. fold (need e). by rewrite (proj2 (Z.ltb_ge _ _)) by lia.
  - exists j. split; [by eapply lookup_lt_Some|]. unfold save_offset. rewrite Ho. change (DIRBLKSIZ - 1) with (Z.ones 10). rewrite <- Z.ldiff_land, Z.ldiff_ones_r, Z.shiftl_mul_pow2, Z.shiftr_div_pow2 by lia.
    change (2 ^ 10) with 1024. unfold at_blk, DIRBLKSIZ in *. Z.to_euclidean_division_equations; lia.
Qed.

(** The only write that can fail is that of the first entry of a block. *)
Lemma dirremove_error e nd d d' : dirremove 0 nd d = Ok (Some d') ->
  dirremove e nd d = Ok (Some d') \/ e <> 0 /\ dirremove e nd d = Ok (Some d).
Proof.
  unfold dirremove, dwrite. destruct (ni_count nd =? 0); [|by left]. destruct (Z.eqb_spec e 0); [by left|]. intros _. right. done.
Qed.

(** (C25) A name of the directory that is looked up and removed is gone, and
    every other name stays with its inode: the first entry of a block is
    marked free, the space of another goes to the entry before it.  If the
    write of the first entry of a block fails, dirremove says that it has
    removed the name all the same, and the directory is as it was. *)
Theorem dir_remove_spec ess d dent name dirchk ino0 :
  dir_ok ess d -> dent_ok dent name -> (name, ino0) ∈ names ess ->
  exists s ino reclen d' ess', search dirchk d dent 0 false 0 = Ok (SFound s ino reclen) /\ dirremove 0 (delete_slot s ino reclen dent) d = Ok (Some d') /\
    dir_ok ess' d' /\ names ess ≡ₚ (name, ino) :: names ess' /\
    forall e, dirremove e (delete_slot s ino reclen dent) d = Ok (Some d') \/ e <> 0 /\ dirremove e (delete_slot s ino reclen dent) d = Ok (Some d).
Proof.
  cut (dir_ok ess d -> dent_ok dent name -> (name, ino0) ∈ names ess ->
    exists s ino reclen d' ess', search dirchk d dent 0 false 0 = Ok (SFound s ino reclen) /\ dirremove 0 (delete_slot s ino reclen dent) d = Ok (Some d') /\
      dir_ok ess' d' /\ names ess ≡ₚ (name, ino) :: names ess').
  { intros H H1 H2 H3. destruct (H H1 H2 H3) as (s&ino&reclen&d'&ess'&?&E&?&?). exists s, ino, reclen, d', ess'. split_and!; try done. intros e. by apply dirremove_error. }
  intros Hd Hdent Hin. destruct (search_ok dirchk d dent 0 name ess false 0 Hd Hdent) as (r&E&Hr); [lia|done|].
  destruct Hr as [(k&es&p&e&q&s&->&Hk&Ees&[Hu En]&Ho&_&Hp)|(s&->&Hn&_)]; [|by destruct (Hn ino0)]. pose proof Hd as [(bs&Ed&HB) Hs Hsm].
  destruct (Forall2_lookup_l _ _ _ _ _ HB Hk) as (b&Hb&Hok). destruct (block_entry es b p e q Hok Ees) as (r1&r&r2&_&R1&Hr&R2&_&_&_&Hsz). pose proof (proj1 Hr) as He. pose proof (rec_small e He).
  pose proof (recs_size _ _ R1) as [? _]. pose proof (recs_size _ _ R2) as [? _]. unfold DIRBLKSIZ in *. pose proof (lookup_lt_Some _ _ _ Hk) as Hlt.
  exists s, (e_ino e), (e_rec e). unfold dirremove, delete_slot. fold (blkoff (s_offset s)). assert (blkoff (s_offset s) = size p) as -> by (rewrite Ho, blkoff_eq; unfold at_blk, DIRBLKSIZ; Z.to_euclidean_division_equations; lia).
  rewrite Ho. destruct p as [|e0 p _] using rev_ind.
  - cbn [size Z.eqb ni_count ni_offset ni_dent]. set (dent' := set_ino 0 _). eexists _, (<[k := [] ++ MkEntry 0 (e_rec e) (e_name e) :: q]> ess). split; [exact E|]. split; [done|].
    split; [apply (rewrite_entry ess d k es [] e q dent' 0); try done; rewrite En; by apply (dent_ok_set dent name 0 (e_rec e))|].
    destruct (names_put ess k es ([] ++ MkEntry 0 (e_rec e) (e_name e) :: q) Hk) as (N1&N2&->&->). rewrite Ees. cbn [app]. rewrite live_cons_used by done. unfold live at 2. rewrite filter_cons_False by (unfold used_entry; cbn; lia).
    rewrite fmap_cons. cbn [app]. rewrite <- Permutation_middle. unfold named at 1. by rewrite En.
  - rewrite size_app in *. cbn [size] in *. apply Forall2_app_inv_l in R1 as (r1a&r1b&R1a&R1b&_). inversion R1b as [|? r0 ? ? Hr0 _]; subst. pose proof (rec_small e0 (proj1 Hr0)). pose proof (recs_size _ _ R1a) as [? _].
    rewrite (proj2 (Z.eqb_neq (size p + (e_rec e0 + 0)) 0)) by lia. rewrite (Hp p e0 eq_refl). cbn [ni_count ni_offset ni_dent d_reclen set_reclen]. replace (at_blk k + (size p + (e_rec e0 + 0)) - (at_blk k + size p)) with (e_rec e0) by lia.
    unfold u16. rewrite (Z.mod_small (e_rec e0)), (proj2 (Z.eqb_neq _ _)) by lia. replace (at_blk k + (size p + (e_rec e0 + 0)) - e_rec e0) with (at_blk k + size p) by lia.
    destruct (merge_entry ess d k ((p ++ [e0]) ++ e :: q) p e0 e q Hd Hk) as (b1&b2&->&->&Erl&Eput&Hd'); [by rewrite <- app_assoc|]. rewrite Erl. cbn [mbind res_bind]. rewrite Z.mod_small by lia. rewrite Eput. cbn [mbind res_bind].
    eexists _, _. split; [exact E|]. split; [done|]. split; [exact Hd'|]. destruct (names_put ess k _ (p ++ set_rec (e_rec e0 + e_rec e) e0 :: q) Hk) as (N1&N2&->&->).
    rewrite <- app_assoc. cbn [app]. rewrite (merged_names p e0 e q (e_rec e0 + e_rec e) Hu). cbn [app]. by rewrite <- Permutation_middle.
Qed.

(** (C16) A name that the directory does not have is entered: the search with
    CREATE finds no entry of that name and a place for it, direnter returns 0,
    and the directory then has that name with its inode and the names it had.
    Where no block has room a block is added; otherwise the entries of the slot
    are compacted, and the blocks with no entry in use at the end are cut
    off.  If the write of a new block fails with the error [e], as for want of
    space, direnter returns EIO and the directory is as it was; that can happen
    only if no block has room for the entry. *)
Theorem dir_create_spec ess d dent name dirchk (e ino : Z) :
  dir_ok ess d -> dent_ok dent name -> (forall i, (name, i) ∉ names ess) -> 0 < ino < 4294967296 -> i_size d + DIRBLKSIZ < 2147483648 ->
  exists s error d' ess', search dirchk d dent (DIRSIZ (d_namlen dent)) true 0 = Ok (SNone s) /\
    direnter e ino (create_slot d s dent) d = Ok (Some (error, d')) /\ dir_ok ess' d' /\
    (error = 0 /\ names ess' ≡ₚ (name, ino) :: names ess \/
     error = EIO /\ d' = d /\ ess' = ess /\ e <> 0 /\ forall k es, ess !! k = Some es -> spares es < DIRSIZ (len name)).
Proof.
  intros Hd Hdent Hnew Hino Hroom. pose proof (need_bound (MkEntry 0 0 name) (dn_name _ _ Hdent)) as (Hb&_). unfold need in Hb. cbn [e_name] in Hb. pose proof (dn_len _ _ Hdent) as Hdl.
  destruct (search_ok dirchk d dent (DIRSIZ (d_namlen dent)) name ess true 0 Hd Hdent) as (r&E&Hr); [lia|rewrite Hdl; lia|].
  destruct Hr as [(k&es&p&e0&q&s&->&Hk&Ees&Hh&_)|(s&->&_&(bs&Ed&HB&[Hv Hs Hu _]))]; [|done|].
  { destruct (Hnew (e_ino e0)). apply names_in. exists k, es, e0. split_and!; try done. set_solver. }
  assert (dent_ok (set_ino ino dent) name) as Hdent' by (destruct Hdent; split; try done; cbn; lia).
  destruct (Hu eq_refl) as (U1&_&U3). rewrite (proj1 Hv) in U3. cbn [size] in U3. rewrite Z.add_0_r in U3. assert (0 <= s_useful s <= DIRBLKSIZ * len ess) as Hend by exact U3.
  assert (forall j es e, ess !! j = Some es -> e ∈ es -> used_entry e -> at_blk j < s_useful s) as Hlast by (intros j es e0 Hj; apply U1; [by eapply lookup_lt_Some|done]).
  exists s. rewrite Hdl in Hs. unfold slot_inv in Hs.
  assert (forall d' ess', direnter e ino (create_slot d s dent) d = Ok (Some (0, d')) /\ dir_ok ess' d' /\ names ess' ≡ₚ (name, ino) :: names ess ->
    exists error d' ess', search dirchk d dent (DIRSIZ (d_namlen dent)) true 0 = Ok (SNone s) /\ direnter e ino (create_slot d s dent) d = Ok (Some (error, d')) /\ dir_ok ess' d' /\
      (error = 0 /\ names ess' ≡ₚ (name, ino) :: names ess \/ error = EIO /\ d' = d /\ ess' = ess /\ e <> 0 /\ forall k es, ess !! k = Some es -> spares es < DIRSIZ (len name))) as Hfin.
  { intros d' ess' (?&?&?). exists 0, d', ess'. split; [exact E|]. auto. }
  destruct (s_status s) eqn:Est.
  { pose proof (direnter_new ess d dent name e ino Hd Hdent' ltac:(lia) Hroom) as Hn. cbv zeta in Hn.
    replace (MkNd _ 0 _ dent) with (create_slot d s dent) in Hn by (unfold create_slot; rewrite Est, (do_size _ _ Hd), !roundup_mult; done).
    case_decide; [destruct Hn as (d'&ess'&?); by apply (Hfin d' ess')|]. exists EIO, d, ess. split; [exact E|]. split_and!; try done. right. split_and!; try done.
    intros k es Hk. apply (proj1 Hs k es); [by eapply lookup_lt_Some|done]. }
  all: destruct (direnter_room ess d dent name e ino _ _ (s_useful s) Hd Hdent' ltac:(lia) Hs) as (d'&ess'&Hn); [rewrite (do_size _ _ Hd); exact Hend|exact Hlast|];
    apply (Hfin d' ess'); unfold create_slot; rewrite Est; exact Hn.
Qed.

(** (C32) dirempty ends, and says that the directory is empty exactly when it
    has no names but dot, and dot-dot with the inode of the parent. *)
Theorem dirempty_spec ess d parentino :
  dir_ok ess d -> dirempty parentino d = Ok (bool_decide (Forall (dots parentino) (names ess))).
Proof.
  intros [(bs&Ed&HB) Hs _]. destruct (all_records _ _ HB) as (rs&E&HR). pose proof (recs_len _ _ HR) as Hl. rewrite <- E, (blocks_len _ _ HB), <- Hs in Hl.
  apply (dirempty_loop_ok parentino d (concat ess) rs [] _); [by rewrite Ed|done|done|]. lia.
Qed.

(** The entry of a name is given another inode, as rename does. *)
Lemma dir_rewrite_ok ess d dent name dirchk (ino0 ino : Z) :
  dir_ok ess d -> dent_ok dent name -> (name, ino0) ∈ names ess -> 0 < ino < 4294967296 ->
  exists s ino1 reclen ess' N, search dirchk d dent 0 false 0 = Ok (SFound s ino1 reclen) /\
    dir_ok ess' (dirrewrite 0 ino (delete_slot s ino1 reclen dent) d).2 /\ names ess ≡ₚ (name, ino1) :: N /\ names ess' ≡ₚ (name, ino) :: N.
Proof.
  intros Hd Hdent Hin Hino. destruct (search_ok dirchk d dent 0 name ess false 0 Hd Hdent) as (r&E&Hr); [lia|done|].
  destruct Hr as [(k&es&p&e&q&s&->&Hk&Ees&[Hu En]&Ho&_)|(s&->&Hn&_)]; [|by destruct (Hn ino0)]. set (e' := MkEntry ino (e_rec e) (e_name e)).
  destruct (names_put ess k es (p ++ e' :: q) Hk) as (N1&N2&EN&EN'). exists s, (e_ino e), (e_rec e), (<[k := p ++ e' :: q]> ess), (N1 ++ (named <$> live (p ++ q)) ++ N2).
  assert (forall x, used_entry x -> N1 ++ (named <$> live (p ++ x :: q)) ++ N2 ≡ₚ named x :: N1 ++ (named <$> live (p ++ q)) ++ N2) as Hx.
  { intros x Hx. rewrite !live_app, (live_cons_used x), !fmap_app, fmap_cons by done. rewrite <- !app_assoc. cbn [app]. rewrite !(app_assoc N1), <- Permutation_middle. done. }
  split; [exact E|]. split; [|split; [rewrite EN, Ees, Hx by done; unfold named at 1; by rewrite En|rewrite EN', Hx by (unfold used_entry; cbn; lia); unfold named at 1, e'; cbn; by rewrite En]].
  unfold dirrewrite, delete_slot. cbn [ni_offset ni_dent]. rewrite Ho. apply (rewrite_entry ess d k es p e q _ ino); try done. rewrite En. destruct Hdent; split; try done. cbn. lia.
Qed.

(** ** A directory with one file *)

Definition zeros (n : nat) : list Z := replicate n 0.
Definition sample_entries : list (entry * nat) := [(MkEntry 2 12 [DOT], 2%nat); (MkEntry 2 12 [DOT; DOT], 1%nat); (MkEntry 7 1000 [97], 990%nat)].
Definition sample_ess : list (list entry) := [sample_entries.*1].
Definition sample : dir := MkDir 1024 (concat ((fun x => record x.1 (zeros x.2)) <$> sample_entries)).
Definition sample_dent (c : Z) : direct := MkDirect 0 0 1 (c :: zeros 63).
Lemma sample_ok : dir_ok sample_ess sample.
Proof.
  split; [|done|done]. exists [data sample]. split; [vm_compute; reflexivity|]. constructor; [|constructor]. exists ((fun x => record x.1 (zeros x.2)) <$> sample_entries). split; [done|]. split; [|done].
  repeat constructor; cbn; try lia; try (by eexists; split; [done|]); try (exists 3; lia); try (exists 250; lia); try done.
Qed.
Lemma sample_dent_ok c : 0 < c < 256 -> dent_ok (sample_dent c) [c].
Proof. intros. repeat split; cbn; try lia; try done; [by constructor|by exists (zeros 62)]. Qed.
Lemma dir_lookup_witness : exists r, search true sample (sample_dent 97) 0 false (search_start true true (at_blk 5) sample) = Ok r /\
    match r with
    | SFound s ino _ => ([97], ino) ∈ names sample_ess /\ fix_size s (sample_dent 97) sample = sample /\ exists j, (j < length sample_ess)%nat /\ save_offset s = at_blk j
    | SNone _ => forall ino, ([97], ino) ∉ names sample_ess
    | SBad => False
    end.
Proof. apply (dir_lookup_spec sample_ess sample (sample_dent 97) [97] true true true 5 sample_ok). apply sample_dent_ok. lia. Defined.
Lemma dir_create_witness : exists s d' ess', search false sample (sample_dent 98) (DIRSIZ (d_namlen (sample_dent 98))) true 0 = Ok (SNone s) /\
  direnter 28 9 (create_slot sample s (sample_dent 98)) sample = Ok (Some (0, d')) /\ dir_ok ess' d' /\ names ess' ≡ₚ ([98], 9) :: names sample_ess.
Proof.
  destruct (dir_create_spec sample_ess sample (sample_dent 98) [98] false 28 9 sample_ok) as (s&error&d'&ess'&E1&E2&H1&H2); [apply sample_dent_ok; lia| |lia|done|].
  - intros i Hi. change (names sample_ess) with [([DOT], 2); ([DOT; DOT], 2); ([97], 7)] in Hi. set_solver.
  - destruct H2 as [[-> H2]|(_&_&_&_&Hn)]; [exists s, d', ess'; split_and!; assumption|]. specialize (Hn 0%nat _ eq_refl). vm_compute in Hn. discriminate Hn.
Defined.
(** A block without room: a new name needs a new block, and without space for
    it the name is not entered. *)
Definition full_entries : list (entry * nat) :=
  [(MkEntry 2 12 [DOT], 2%nat); (MkEntry 2 12 [DOT; DOT], 1%nat)] ++ replicate 61 (MkEntry 7 16 (replicate 7 97), 0%nat) ++ [(MkEntry 7 24 (replicate 12 97), 3%nat)].
Definition full : dir := MkDir 1024 (concat ((fun x => record x.1 (zeros x.2)) <$> full_entries)).
Definition enter_full (e : Z) : option (Z * Z) :=
  match search true full (sample_dent 98) (DIRSIZ 1) true 0 with
  | Ok (SNone s) => match direnter e 9 (create_slot full s (sample_dent 98)) full with Ok (Some (error, d')) => Some (error, i_size d') | _ => None end
  | _ => None
  end.
Example enter_full_runs : enter_full 0 = Some (0, 2048) /\ enter_full 28 = Some (EIO, 1024).
Proof. vm_compute. done. Qed.
Lemma dir_remove_witness : exists s ino reclen d' ess', search false sample (sample_dent 97) 0 false 0 = Ok (SFound s ino reclen) /\
  dirremove 0 (delete_slot s ino reclen (sample_dent 97)) sample = Ok (Some d') /\ dir_ok ess' d' /\ names sample_ess ≡ₚ ([97], ino) :: names ess'.
Proof.
  destruct (dir_remove_spec sample_ess sample (sample_dent 97) [97] false 7 sample_ok) as (s&ino&reclen&d'&ess'&?&?&?&?&_); [apply sample_dent_ok; lia| |exists s, ino, reclen, d', ess'; split_and!; assumption].
  change (names sample_ess) with [([DOT], 2); ([DOT; DOT], 2); ([97], 7)]. set_solver.
Defined.
Lemma dirempty_witness : dirempty 2 sample = Ok (bool_decide (Forall (dots 2) (names sample_ess))).
Proof. apply (dirempty_spec sample_ess sample 2 sample_ok). Defined.
Lemma dirempty_sample : dirempty 2 sample = Ok false.
Proof. vm_compute. reflexivity. Qed.
End Dirsys.
