(* ===== verification/Descrip.v ===== *)
(** File descriptors (sys/kernel/kern_descrip.c, sys/include/file.h): the
    descriptor tables of the processes, the table of open files, the advisory
    locks of flock (ino_lock and ino_unlock of sys/kernel/sys_inode.c), and
    the parts of open, pipe, fork, exec and exit that work on descriptors.

    A file pointer is an index into the table file, an inode pointer is a
    number; [None] is NULL.  The inode layer below is the class [InodeLayer]. *)
From S2P Require Import Prelude Proc.

Module Descrip.

Definition NOFILE : Z := 30.
Definition NFILE : nat := 24.
Definition UF_EXCLOSE : Z := 1.
Definition DTYPE_INODE : Z := 1.
Definition DTYPE_SOCKET : Z := 2.
Definition DTYPE_PIPE : Z := 3.

Definition FREAD : Z := 1.
Definition FWRITE : Z := 2.
Definition FNONBLOCK : Z := 4.
Definition FAPPEND : Z := 8.
Definition FSHLOCK : Z := 16.
Definition FEXLOCK : Z := 32.
Definition FASYNC : Z := 64.
Definition FFSYNC : Z := 128.
Definition FMASK : Z := FREAD + FWRITE + FAPPEND + FASYNC + FFSYNC + FNONBLOCK.
Definition FCNTLFLAGS : Z := FAPPEND + FASYNC + FFSYNC + FNONBLOCK.
Definition FFLAGS (oflags : Z) : Z := s32 (oflags + 1).
Definition OFLAGS (fflags : Z) : Z := s32 (fflags - 1).

Definition LOCK_SH : Z := 1.
Definition LOCK_EX : Z := 2.
Definition LOCK_NB : Z := 4.
Definition LOCK_UN : Z := 8.
Definition ISHLOCK : Z := 128.
Definition IEXLOCK : Z := 256.
Definition ILWAIT : Z := 512.
Definition PLOCK : Z := 35.
Definition PCATCH : Z := 256.

Definition ESRCH : Z := 3.
Definition ENXIO : Z := 6.
Definition EBADF : Z := 9.
Definition EACCES : Z := 13.
Definition ENODEV : Z := 19.
Definition EINVAL : Z := 22.
Definition ENFILE : Z := 23.
Definition EMFILE : Z := 24.
Definition EWOULDBLOCK : Z := 35.
Definition EOPNOTSUPP : Z := 45.

Definition FIONBIO : Z := 2147772000.
Definition FIOASYNC : Z := 2147771999.
Definition TIOCGPGRP : Z := 1074033783.
Definition TIOCSPGRP : Z := 2147775606.

Definition F_DUPFD : Z := 0.
Definition F_GETFD : Z := 1.
Definition F_SETFD : Z := 2.
Definition F_GETFL : Z := 3.
Definition F_SETFL : Z := 4.
Definition F_GETOWN : Z := 5.
Definition F_SETOWN : Z := 6.

(** [struct file]; f_data is the inode of the file. *)
Record file := MkFile {
  f_flag : Z; f_type : Z; f_count : Z; f_msgcount : Z; f_data : option nat; f_offset : Z }.
Definition set_f_flag (x : Z) (f : file) : file :=
  MkFile x (f_type f) (f_count f) (f_msgcount f) (f_data f) (f_offset f).
Definition set_f_type (x : Z) (f : file) : file :=
  MkFile (f_flag f) x (f_count f) (f_msgcount f) (f_data f) (f_offset f).
Definition set_f_count (x : Z) (f : file) : file :=
  MkFile (f_flag f) (f_type f) x (f_msgcount f) (f_data f) (f_offset f).
Definition set_f_data (x : option nat) (f : file) : file :=
  MkFile (f_flag f) (f_type f) (f_count f) (f_msgcount f) x (f_offset f).
Definition set_f_offset (x : Z) (f : file) : file :=
  MkFile (f_flag f) (f_type f) (f_count f) (f_msgcount f) (f_data f) x.

(** The fields of an inode that the advisory locks use; of i_flag the bits
    ISHLOCK, IEXLOCK and ILWAIT. *)
Record ilocks := MkIlocks { i_flag : Z; i_shlockc : Z; i_exlockc : Z }.
Definition unlocked : ilocks := MkIlocks 0 0 0.

(** The fields of [struct user] for descriptors and system calls; u_rval2 is
    the second result of pipe, in the register $v1 of the frame. *)
Record user := MkUser {
  u_ofile : list (option nat); u_pofile : list Z; u_lastfile : Z;
  u_rval : Z; u_rval2 : Z; u_error : Z; u_dupfd : Z }.
Definition set_u_ofile (x : list (option nat)) (u : user) : user :=
  MkUser x (u_pofile u) (u_lastfile u) (u_rval u) (u_rval2 u) (u_error u) (u_dupfd u).
Definition set_u_pofile (x : list Z) (u : user) : user :=
  MkUser (u_ofile u) x (u_lastfile u) (u_rval u) (u_rval2 u) (u_error u) (u_dupfd u).
Definition set_u_lastfile (x : Z) (u : user) : user :=
  MkUser (u_ofile u) (u_pofile u) x (u_rval u) (u_rval2 u) (u_error u) (u_dupfd u).
Definition set_u_rval (x : Z) (u : user) : user :=
  MkUser (u_ofile u) (u_pofile u) (u_lastfile u) x (u_rval2 u) (u_error u) (u_dupfd u).
Definition set_u_rval2 (x : Z) (u : user) : user :=
  MkUser (u_ofile u) (u_pofile u) (u_lastfile u) (u_rval u) x (u_error u) (u_dupfd u).
Definition set_u_error (x : Z) (u : user) : user :=
  MkUser (u_ofile u) (u_pofile u) (u_lastfile u) (u_rval u) (u_rval2 u) x (u_dupfd u).
Definition set_u_dupfd (x : Z) (u : user) : user :=
  MkUser (u_ofile u) (u_pofile u) (u_lastfile u) (u_rval u) (u_rval2 u) (u_error u) x.

(** The data argument of an ioctl: a word of the caller, or u.u_rval itself. *)
Inductive dptr := DWord (v : Z) | DRval.

(** The inode layer, as the descriptors use it; [W] is its state (inodes,
    buffers, devices).  vn_open gives the error, the inode and u.u_dupfd,
    which the open routine of /dev/fd sets; pipe_inode is the start of pipe:
    the choice of the file system and ialloc. *)
Class InodeLayer (W : Type) := {
  irele : nat -> W -> W;
  iput : nat -> W -> W;
  closei : list file -> nat -> Z -> W -> W * Z;
  pipe_close : nat -> W -> W * Z;
  ino_ioctl : list file -> nat -> Z -> dptr -> Z -> W -> W * Z * (dptr * Z);
  vn_open : Z -> Z -> string -> Z -> W -> W * (Z * nat * Z);
  pipe_inode : W -> W * (Z * option nat);
  pipe_init : nat -> W -> W }.

(** The kernel: the tables the processes share.  k_woken lists the inodes
    whose lock waiters were woken. *)
Record kern (W : Type) := MkKern {
  k_file : list file; k_lastf : option nat;
  k_inode : gmap nat ilocks; k_woken : list nat; k_world : W }.
Arguments MkKern {W} _ _ _ _ _.
Arguments k_file {W} _.
Arguments k_lastf {W} _.
Arguments k_inode {W} _.
Arguments k_woken {W} _.
Arguments k_world {W} _.

(** ino_lock either returns an error number or sleeps at a priority. *)
Inductive lockres := LDone (err : Z) | LSleep (pri : Z).

Section Ops.
Context {W : Type} `{InodeLayer W}.
Implicit Types (u : user) (k : kern W).

(** ** Code on the user structure of the process and the kernel tables *)

Definition st : Type := user * kern W.
Definition M (A : Type) : Type := st -> res (A * st).
#[export] Instance M_ret : MRet M := fun A a s => Ok (a, s).
#[export] Instance M_bind : MBind M := fun A B f m s => '(a, s') ← m s; f a s'.

Definition fault {A} : M A := fun _ => Fault.
Definition getu {A} (f : user -> A) : M A := fun s => Ok (f s.1, s).
Definition modu (f : user -> user) : M () := fun s => Ok ((), (f s.1, s.2)).
Definition getk {A} (f : kern W -> A) : M A := fun s => Ok (f s.2, s).
Definition modk (f : kern W -> kern W) : M () := fun s => Ok ((), (s.1, f s.2)).

Definition set_k_file (x : list file) k : kern W :=
  MkKern x (k_lastf k) (k_inode k) (k_woken k) (k_world k).
Definition set_k_lastf (x : option nat) k : kern W :=
  MkKern (k_file k) x (k_inode k) (k_woken k) (k_world k).
Definition set_k_inode (x : gmap nat ilocks) k : kern W :=
  MkKern (k_file k) (k_lastf k) x (k_woken k) (k_world k).
Definition set_k_woken (x : list nat) k : kern W :=
  MkKern (k_file k) (k_lastf k) (k_inode k) x (k_world k).
Definition set_k_world (x : W) k : kern W :=
  MkKern (k_file k) (k_lastf k) (k_inode k) (k_woken k) x.

(** [u.u_ofile[i]], [u.u_pofile[i]], [*fp] and the assignments to them. *)
Definition rd_ofile (i : Z) : M (option nat) := fun s =>
  if i <? 0 then Fault else x ← rd (u_ofile s.1) (Z.to_nat i); Ok (x, s).
Definition wr_ofile (i : Z) (x : option nat) : M () := fun s =>
  if i <? 0 then Fault
  else l ← wr (u_ofile s.1) (Z.to_nat i) x; Ok ((), (set_u_ofile l s.1, s.2)).
Definition rd_pofile (i : Z) : M Z := fun s =>
  if i <? 0 then Fault else x ← rd (u_pofile s.1) (Z.to_nat i); Ok (x, s).
Definition wr_pofile (i : Z) (x : Z) : M () := fun s =>
  if i <? 0 then Fault
  else l ← wr (u_pofile s.1) (Z.to_nat i) (s8 x); Ok ((), (set_u_pofile l s.1, s.2)).
Definition rd_file (fp : nat) : M file := fun s =>
  f ← rd (k_file s.2) fp; Ok (f, s).
Definition upd_file (fp : nat) (g : file -> file) : M () := fun s =>
  f ← rd (k_file s.2) fp; l ← wr (k_file s.2) fp (g f); Ok ((), (s.1, set_k_file l s.2)).
Definition rd_inode (ip : nat) : M ilocks := getk (fun k => default unlocked (k_inode k !! ip)).
Definition upd_inode (ip : nat) (g : ilocks -> ilocks) : M () :=
  modk (fun k => set_k_inode (<[ip := g (default unlocked (k_inode k !! ip))]> (k_inode k)) k).
Definition wakeup_locks (ip : nat) : M () := modk (fun k => set_k_woken (ip :: k_woken k) k).
Definition inode_call {A} (c : W -> W * A) : M A := fun s =>
  let '(w, a) := c (k_world s.2) in Ok (a, (s.1, set_k_world w s.2)).

(** ** Descriptors *)

(** [for (; i < NOFILE; i++) if (u.u_ofile[i] == NULL) ...] *)
Fixpoint ufalloc_loop (n : nat) (i : Z) : M Z :=
  match n with
  | O => modu (set_u_error EMFILE);; mret (-1)
  | S n =>
      x ← rd_ofile i;
      match x with
      | None =>
          modu (set_u_rval i);;
          wr_pofile i 0;;
          modu (fun u => if u_lastfile u <? i then set_u_lastfile i u else u);;
          mret i
      | Some _ => ufalloc_loop n (i + 1)
      end
  end.
Definition ufalloc (i : Z) : M Z := ufalloc_loop (Z.to_nat (NOFILE - i)) i.

Definition getdtablesize : M () := modu (set_u_rval NOFILE).

Definition dupit (fd : Z) (fp : nat) (flags : Z) : M () :=
  wr_ofile fd (Some fp);;
  wr_pofile fd flags;;
  upd_file fp (fun f => set_f_count (u32 (f_count f + 1)) f);;
  modu (fun u => if u_lastfile u <? fd then set_u_lastfile fd u else u).

(** getf, and the macro GETF, which is the same test; [(unsigned)f >= NOFILE]
    is true of a negative [f] too. *)
Definition getf (f : Z) : M (option nat) :=
  if (f <? 0) || (NOFILE <=? f) then modu (set_u_error EBADF);; mret None
  else
    x ← rd_ofile f;
    match x with
    | None => modu (set_u_error EBADF);; mret None
    | Some fp => mret (Some fp)
    end.
Definition GETF (fd : Z) (body : nat -> M ()) : M () :=
  x ← getf fd;
  match x with None => mret () | Some fp => body fp end.

(** ** Advisory locks *)

(** The two halves of ino_unlock; [flags] is i_flag at its start. *)
Definition unlock_shared (fp ip : nat) (flags : Z) : M () :=
  upd_inode ip (fun n => MkIlocks (i_flag n) (u16 (i_shlockc n - 1)) (i_exlockc n));;
  n ← rd_inode ip;
  (if i_shlockc n =? 0 then
     upd_inode ip (fun n => MkIlocks (flag_clr (i_flag n) ISHLOCK) (i_shlockc n) (i_exlockc n));;
     if flag_on flags ILWAIT then wakeup_locks ip else mret ()
   else mret ());;
  upd_file fp (fun f => set_f_flag (flag_clr (f_flag f) FSHLOCK) f).
Definition unlock_exclusive (fp ip : nat) (flags : Z) : M () :=
  upd_inode ip (fun n => MkIlocks (i_flag n) (i_shlockc n) (u16 (i_exlockc n - 1)));;
  n ← rd_inode ip;
  (if i_exlockc n =? 0 then
     upd_inode ip (fun n => MkIlocks (flag_clr (i_flag n) (IEXLOCK + ILWAIT)) (i_shlockc n) (i_exlockc n));;
     if flag_on flags ILWAIT then wakeup_locks ip else mret ()
   else mret ());;
  upd_file fp (fun f => set_f_flag (flag_clr (f_flag f) FEXLOCK) f).
Definition ino_unlock (fp : nat) (kind : Z) : M () :=
  f ← rd_file fp;
  let kind := Z.land kind (f_flag f) in
  match f_data f with
  | None => mret ()
  | Some ip =>
      if kind =? 0 then mret ()
      else
        n ← rd_inode ip;
        (if flag_on kind FSHLOCK then unlock_shared fp ip (i_flag n) else mret ());;
        (if flag_on kind FEXLOCK then unlock_exclusive fp ip (i_flag n) else mret ())
  end.

(** ino_lock from its start, or from the return of tsleep, up to its return
    or to tsleep. *)
Fixpoint ino_lock_loop (fuel : nat) (fp ip : nat) (cmd : Z) : M lockres :=
  match fuel with
  | O => fault
  | S fuel =>
      let priority := if flag_on cmd LOCK_EX then PLOCK else PLOCK + 4 in
      n ← rd_inode ip;
      f ← rd_file fp;
      if flag_on (i_flag n) IEXLOCK then
        if flag_on (f_flag f) FEXLOCK then
          ino_unlock fp FEXLOCK;; ino_lock_loop fuel fp ip cmd
        else if flag_on cmd LOCK_NB then mret (LDone EWOULDBLOCK)
        else
          upd_inode ip (fun n => MkIlocks (flag_set (i_flag n) ILWAIT) (i_shlockc n) (i_exlockc n));;
          mret (LSleep (Z.lor priority PCATCH))
      else if flag_on cmd LOCK_EX && flag_on (i_flag n) ISHLOCK then
        if flag_on (f_flag f) FSHLOCK then
          ino_unlock fp FSHLOCK;; ino_lock_loop fuel fp ip cmd
        else if flag_on cmd LOCK_NB then mret (LDone EWOULDBLOCK)
        else
          upd_inode ip (fun n => MkIlocks (flag_set (i_flag n) ILWAIT) (i_shlockc n) (i_exlockc n));;
          mret (LSleep (Z.lor PLOCK PCATCH))
      else
        (if flag_on cmd LOCK_EX then
           upd_inode ip (fun n => MkIlocks (flag_set (i_flag n) IEXLOCK) (i_shlockc n) (u16 (i_exlockc n + 1)));;
           upd_file fp (fun f => set_f_flag (flag_set (f_flag f) FEXLOCK) f)
         else mret ());;
        let cmd := if flag_on cmd LOCK_EX then flag_clr cmd LOCK_SH else cmd in
        f ← rd_file fp;
        (if flag_on cmd LOCK_SH && negb (flag_on (f_flag f) FSHLOCK) then
           upd_inode ip (fun n => MkIlocks (flag_set (i_flag n) ISHLOCK) (u16 (i_shlockc n + 1)) (i_exlockc n));;
           upd_file fp (fun f => set_f_flag (flag_set (f_flag f) FSHLOCK) f)
         else mret ());;
        mret (LDone 0)
  end.
Definition ino_lock (fp : nat) (cmd : Z) : M lockres :=
  f ← rd_file fp;
  match f_data f with
  | None => fault
  | Some ip => ino_lock_loop 3 fp ip cmd
  end.

(** ** Closing *)

Definition vn_closefile (fp : nat) : M Z :=
  f ← rd_file fp;
  match f_data f with
  | None => fault
  | Some ip =>
      upd_file fp (set_f_data None);;
      inode_call (fun w => (irele ip w, ()));;
      fs ← getk k_file;
      inode_call (closei fs ip (f_flag f))
  end.

(** The call of fo_close through Fops[fp->f_type]. *)
Definition fo_close (fp : nat) : M Z :=
  f ← rd_file fp;
  if f_type f =? DTYPE_INODE then vn_closefile fp
  else if f_type f =? DTYPE_SOCKET then mret EOPNOTSUPP
  else if f_type f =? DTYPE_PIPE then
    match f_data f with None => fault | Some ip => inode_call (pipe_close ip) end
  else fault.

Definition closef (fp : option nat) : M Z :=
  match fp with
  | None => mret 0
  | Some fp =>
      f ← rd_file fp;
      if 1 <? f_count f then upd_file fp (fun f => set_f_count (f_count f - 1) f);; mret 0
      else
        (if flag_on (f_flag f) (FSHLOCK + FEXLOCK) && (f_type f =? DTYPE_INODE)
         then ino_unlock fp (FSHLOCK + FEXLOCK) else mret ());;
        error ← fo_close fp;
        upd_file fp (set_f_count 0);;
        mret error
  end.

(** [while (u.u_lastfile >= 0 && u.u_ofile[u.u_lastfile] == NULL) u.u_lastfile--;] *)
Fixpoint trim_lastfile (fuel : nat) : M () :=
  match fuel with
  | O => fault
  | S fuel =>
      l ← getu u_lastfile;
      if l <? 0 then mret ()
      else
        x ← rd_ofile l;
        match x with
        | Some _ => mret ()
        | None => modu (set_u_lastfile (l - 1));; trim_lastfile fuel
        end
  end.

Definition close (i : Z) : M () :=
  GETF i (fun fp =>
    wr_ofile i None;;
    trim_lastfile (S (Z.to_nat NOFILE));;
    error ← closef (Some fp);
    modu (set_u_error error)).

(** ** Duplicates *)

Definition dup2 (i j : Z) : M () :=
  GETF i (fun fp =>
    if (j <? 0) || (NOFILE <=? j) then modu (set_u_error EBADF)
    else
      modu (set_u_rval j);;
      if i =? j then mret ()
      else
        x ← rd_ofile j;
        (match x with None => mret 0 | Some fq => closef (Some fq) end);;
        fl ← rd_pofile i;
        dupit j fp (flag_clr fl UF_EXCLOSE)).

(** [j] is the second word of the arguments. *)
Definition dup (i j : Z) : M () :=
  if flag_on i (Z.lnot 63) then dup2 (Z.land i 63) j
  else
    GETF i (fun fp =>
      j ← ufalloc 0;
      if j <? 0 then mret ()
      else
        fl ← rd_pofile i;
        dupit j fp (flag_clr fl UF_EXCLOSE)).

(** ** fcntl *)

(** The call of fo_ioctl through Fops[fp->f_type], with the word behind value. *)
Definition fioctl (fp : nat) (cmd : Z) (value : dptr) : M (Z * dptr) :=
  f ← rd_file fp;
  if (f_type f =? DTYPE_INODE) || (f_type f =? DTYPE_PIPE) then
    fs ← getk k_file;
    rv ← getu u_rval;
    r ← inode_call (fun w => let '(w, e, dr) := ino_ioctl fs fp cmd value rv w in (w, (e, dr)));
    modu (set_u_rval r.2.2);;
    mret (r.1, r.2.1)
  else if f_type f =? DTYPE_SOCKET then mret (EOPNOTSUPP, value)
  else fault.

Definition fset (fp : nat) (bit value : Z) : M Z :=
  upd_file fp (fun f => set_f_flag (if value =? 0 then flag_clr (f_flag f) bit else flag_set (f_flag f) bit) f);;
  r ← fioctl fp (if bit =? FNONBLOCK then FIONBIO else FIOASYNC) (DWord value);
  mret r.1.

(** fgetown with valuep = &u.u_rval, the only call of fcntl. *)
Definition fgetown (fp : nat) : M Z :=
  r ← fioctl fp TIOCGPGRP DRval;
  modu (fun u => set_u_rval (s32 (- u_rval u)) u);;
  mret r.1.

Definition fsetown (pt : Proc.ptable) (fp : nat) (value : Z) : M Z :=
  if 0 <? value then
    p ← (fun s => x ← Proc.pfind pt value; Ok (x, s) : res (option nat * st));
    match p with
    | None => mret ESRCH
    | Some p =>
        q ← (fun s => x ← rd (Proc.procs pt) p; Ok (x, s) : res (Proc.proc * st));
        r ← fioctl fp TIOCSPGRP (DWord (Proc.p_pgrp q)); mret r.1
    end
  else r ← fioctl fp TIOCSPGRP (DWord (s32 (- value))); mret r.1.

Definition fcntl (pt : Proc.ptable) (fdes cmd arg : Z) : M () :=
  GETF fdes (fun fp =>
    if cmd =? F_DUPFD then
      if (arg <? 0) || (NOFILE <=? arg) then modu (set_u_error EINVAL)
      else
        i ← ufalloc arg;
        if i <? 0 then mret ()
        else fl ← rd_pofile fdes; dupit i fp (flag_clr fl UF_EXCLOSE)
    else if cmd =? F_GETFD then
      fl ← rd_pofile fdes; modu (set_u_rval (Z.land fl 1))
    else if cmd =? F_SETFD then
      fl ← rd_pofile fdes; wr_pofile fdes (Z.lor (flag_clr fl 1) (Z.land arg 1))
    else if cmd =? F_GETFL then
      f ← rd_file fp; modu (set_u_rval (OFLAGS (f_flag f)))
    else if cmd =? F_SETFL then
      upd_file fp (fun f => set_f_flag (flag_clr (f_flag f) FCNTLFLAGS) f);;
      upd_file fp (fun f => set_f_flag (flag_set (f_flag f) (Z.land (FFLAGS arg) FCNTLFLAGS)) f);;
      f ← rd_file fp;
      e ← fset fp FNONBLOCK (Z.land (f_flag f) FNONBLOCK);
      modu (set_u_error e);;
      if negb (e =? 0) then mret ()
      else
        f ← rd_file fp;
        e ← fset fp FASYNC (Z.land (f_flag f) FASYNC);
        modu (set_u_error e);;
        if negb (e =? 0) then fset fp FNONBLOCK 0;; mret () else mret ()
    else if cmd =? F_GETOWN then
      e ← fgetown fp; modu (set_u_error e)
    else if cmd =? F_SETOWN then
      e ← fsetown pt fp arg; modu (set_u_error e)
    else modu (set_u_error EINVAL)).

(** ** Allocation of an open file *)

(** The first free entry among [n] entries from [i] on. *)
Fixpoint free_file (n i : nat) : M (option nat) :=
  match n with
  | O => mret None
  | S n => f ← rd_file i; if f_count f =? 0 then mret (Some i) else free_file n (S i)
  end.

Definition falloc : M (option nat) :=
  i ← ufalloc 0;
  if i <? 0 then mret None
  else
    modk (fun k => if k_lastf k is None then set_k_lastf (Some 0%nat) k else k);;
    l ← getk (fun k => default 0%nat (k_lastf k));
    x ← free_file (NFILE - l) l;
    y ← (match x with Some fp => mret (Some fp) | None => free_file l 0 end);
    match y with
    | None => modu (set_u_error ENFILE);; mret None
    | Some fp =>
        wr_ofile i (Some fp);;
        upd_file fp (fun f => set_f_offset 0 (set_f_data None (set_f_count 1 f)));;
        modk (set_k_lastf (Some (S fp)));;
        mret (Some fp)
    end.

(** ** flock *)

Definition flock (fd how : Z) : M lockres :=
  x ← getf fd;
  match x with
  | None => mret (LDone 0)
  | Some fp =>
      f ← rd_file fp;
      if negb (f_type f =? DTYPE_INODE) then modu (set_u_error EOPNOTSUPP);; mret (LDone 0)
      else if flag_on how LOCK_UN then ino_unlock fp (FSHLOCK + FEXLOCK);; mret (LDone 0)
      else if negb (flag_on how (LOCK_SH + LOCK_EX)) then mret (LDone 0)
      else
        let how := if flag_on how LOCK_EX then flag_clr how LOCK_SH else how in
        if flag_on (f_flag f) FEXLOCK && flag_on how LOCK_EX then mret (LDone 0)
        else if flag_on (f_flag f) FSHLOCK && flag_on how LOCK_SH then mret (LDone 0)
        else
          r ← ino_lock fp how;
          (match r with LDone e => modu (set_u_error e) | LSleep _ => mret () end);;
          mret r
  end.

(** ** /dev/fd and open *)

Definition minor (x : Z) : Z := Z.land x 255.
Definition fdopen (dev : Z) : M Z := modu (set_u_dupfd (minor dev));; mret ENODEV.

Definition dupfdopen (indx dfd mode error : Z) : M Z :=
  fp ← rd_ofile indx;
  if NOFILE <=? dfd then mret EBADF
  else
    wfp ← rd_ofile dfd;
    match wfp with
    | None => mret EBADF
    | Some w =>
        if decide (fp = wfp) then mret EBADF
        else if error =? ENODEV then
          f ← rd_file w;
          if negb (Z.lor (Z.land mode (FREAD + FWRITE)) (f_flag f) =? f_flag f) then mret EACCES
          else
            wr_ofile indx (Some w);;
            fl ← rd_pofile dfd;
            wr_pofile indx fl;;
            upd_file w (fun f => set_f_count (u32 (f_count f + 1)) f);;
            modu (fun u => if u_lastfile u <? indx then set_u_lastfile indx u else u);;
            mret 0
        else mret error
    end.

(** The end of copen once ino_lock has returned. *)
Definition copen_locked (fp : nat) (indx error : Z) : M Z :=
  (if negb (error =? 0) then closef (Some fp);; wr_ofile indx None else mret ());;
  mret error.

(** copen up to its return, or to the sleep of ino_lock.  The error of
    dupfdopen is assigned after the comparison with 0. *)
Definition copen (mode cmode : Z) (fname : string) : M (Z + (nat * Z * Z)) :=
  x ← falloc;
  match x with
  | None => e ← getu u_error; mret (inl e)
  | Some fp =>
      let flags := FFLAGS mode in
      upd_file fp (set_f_flag (Z.land flags FMASK));;
      upd_file fp (set_f_type DTYPE_INODE);;
      let cmode := Z.land cmode 32255 in
      indx ← getu u_rval;
      modu (set_u_dupfd (- indx - 1));;
      dfd ← getu u_dupfd;
      r ← inode_call (vn_open flags cmode fname dfd);
      let '(error, ip, dupfd) := r in
      modu (set_u_dupfd dupfd);;
      if negb (error =? 0) then
        upd_file fp (set_f_count 0);;
        if ((error =? ENODEV) || (error =? ENXIO)) && (0 <=? dupfd) then
          e ← dupfdopen indx dupfd flags error;
          let error := if e =? 0 then 1 else 0 in
          if negb (error =? 0) then modu (set_u_rval indx);; mret (inl 0)
          else wr_ofile indx None;; mret (inl error)
        else wr_ofile indx None;; mret (inl error)
      else
        modu (set_u_dupfd 0);;
        upd_file fp (set_f_data (Some ip));;
        if flag_on flags (FEXLOCK + FSHLOCK) then
          let type := if flag_on flags FEXLOCK then LOCK_EX else LOCK_SH in
          let type := if flag_on flags FNONBLOCK then Z.lor type LOCK_NB else type in
          r ← ino_lock fp type;
          match r with
          | LDone e => e ← copen_locked fp indx e; mret (inl e)
          | LSleep _ => mret (inr (fp, indx, type))
          end
        else mret (inl 0)
  end.

Definition open_done (r : Z + (nat * Z * Z)) : M () :=
  match r with inl e => modu (set_u_error e) | inr _ => mret () end.
Definition open (fname : string) (mode crtmode : Z) : M (Z + (nat * Z * Z)) :=
  r ← copen mode crtmode fname;
  open_done r;;
  mret r.

(** ** pipe *)

Definition pipe : M () :=
  r ← inode_call pipe_inode;
  match r with
  | (err, None) => modu (set_u_error err)
  | (_, Some ip) =>
      x ← falloc;
      match x with
      | None => inode_call (fun w => (iput ip w, ()))
      | Some rf =>
          r ← getu u_rval;
          y ← falloc;
          match y with
          | None =>
              upd_file rf (set_f_count 0);;
              wr_ofile r None;;
              inode_call (fun w => (iput ip w, ()))
          | Some wf =>
              modu (fun u => set_u_rval2 (u_rval u) u);;
              modu (set_u_rval r);;
              upd_file wf (set_f_flag FWRITE);;
              upd_file rf (set_f_flag FREAD);;
              upd_file wf (set_f_type DTYPE_PIPE);;
              upd_file rf (set_f_type DTYPE_PIPE);;
              upd_file wf (set_f_data (Some ip));;
              upd_file rf (set_f_data (Some ip));;
              inode_call (fun w => (pipe_init ip w, ()))
          end
      end
  end.

(** ** fork, exec and exit *)

(** [for (n = 0; n <= u.u_lastfile; n++)] in newproc. *)
Fixpoint newproc_files (c : nat) (n : Z) : M () :=
  match c with
  | O => mret ()
  | S c =>
      x ← rd_ofile n;
      (match x with
       | None => mret ()
       | Some fp => upd_file fp (fun f => set_f_count (u32 (f_count f + 1)) f)
       end);;
      newproc_files c (n + 1)
  end.
Definition newproc_share : M () :=
  l ← getu u_lastfile; newproc_files (Z.to_nat (l + 1)) 0.

(** [for (i = 0; i <= u.u_lastfile; i++)] in exit. *)
Fixpoint exit_files (c : nat) (i : Z) : M () :=
  match c with
  | O => mret ()
  | S c =>
      f ← rd_ofile i;
      wr_ofile i None;;
      wr_pofile i 0;;
      closef f;;
      exit_files c (i + 1)
  end.
Definition exit_close : M () :=
  l ← getu u_lastfile; exit_files (Z.to_nat (l + 1)) 0.

(** [for (cp = u.u_pofile, cc = 0; cc <= u.u_lastfile; cc++, cp++)] in execve. *)
Fixpoint exec_files (c : nat) (cc : Z) : M () :=
  match c with
  | O => mret ()
  | S c =>
      fl ← rd_pofile cc;
      (if flag_on fl UF_EXCLOSE then
         f ← rd_ofile cc;
         closef f;;
         wr_ofile cc None;;
         wr_pofile cc 0
       else mret ());;
      exec_files c (cc + 1)
  end.
Definition exec_close : M () :=
  l ← getu u_lastfile;
  exec_files (Z.to_nat (l + 1)) 0;;
  trim_lastfile (S (Z.to_nat NOFILE)).

(** ** Processes

    A process that sleeps in ino_lock is a waiter: its process, the file, the
    inode, the command, and for open the descriptor.  wakeup moves the waiters
    of the inode to the ready ones, which go on in ino_lock in any order. *)
Record waiter := MkWaiter {
  w_proc : nat; w_fp : nat; w_ip : nat; w_cmd : Z; w_open : option Z }.
Record sys := MkSys {
  sy_user : list (option user); sy_kern : kern W;
  sy_wait : list waiter; sy_ready : list waiter }.

Inductive event :=
  | EDup (p : nat) (i j : Z) | EDup2 (p : nat) (i j : Z)
  | EFcntl (p : nat) (pt : Proc.ptable) (fd cmd arg : Z)
  | EClose (p : nat) (fd : Z) | EFlock (p : nat) (fd how : Z)
  | EOpen (p : nat) (fname : string) (mode crtmode : Z) | EPipe (p : nat)
  | EFork (p q : nat) | EExec (p : nat) | EExit (p : nat)
  | EResume (n : nat) | EInterrupt (n : nat) (err : Z).

(** The process is alive and does not sleep. *)
Definition asleep (y : sys) (p : nat) : bool :=
  existsb (fun w => w_proc w =? p)%nat (sy_wait y ++ sy_ready y).
Definition running (y : sys) (p : nat) : option user :=
  match sy_user y !! p with
  | Some (Some u) => if asleep y p then None else Some u
  | _ => None
  end.

(** After a call of process [p]: its user structure and the tables are stored
    back, a new waiter [w] is added, and the waiters of the woken inodes
    become ready. *)
Definition settle (y : sys) (p : nat) (u : option user) (k : kern W) (w : list waiter) : sys :=
  let woken := fun w => bool_decide (w_ip w ∈ k_woken k) in
  MkSys (<[p := u]> (sy_user y)) (set_k_woken [] k)
    (w ++ List.filter (fun w => negb (woken w)) (sy_wait y))
    (List.filter woken (sy_wait y) ++ sy_ready y).

Definition call {A} (y : sys) (p : nat) (m : M A) (k : A -> user -> kern W -> sys) : res sys :=
  match running y p with
  | None => Ok y
  | Some u => '(a, (u, kn)) ← m (set_u_error 0 u, sy_kern y); Ok (k a u kn)
  end.
Definition call0 (y : sys) (p : nat) (m : M ()) : res sys :=
  call y p m (fun _ u kn => settle y p (Some u) kn []).

(** The return of ino_lock to flock or to copen and open. *)
Definition lock_return (w : waiter) (e : Z) : M () :=
  match w_open w with
  | None => modu (set_u_error e)
  | Some indx => e ← copen_locked (w_fp w) indx e; modu (set_u_error e)
  end.

(** A waiter [w] goes on, with the result of tsleep. *)
Definition resume (y : sys) (w : waiter) (err : Z) : res sys :=
  match sy_user y !! w_proc w with
  | Some (Some u) =>
      if negb (err =? 0) then
        '(_, (u, kn)) ← lock_return w err (u, sy_kern y);
        Ok (settle y (w_proc w) (Some u) kn [])
      else
        '(r, s) ← ino_lock_loop 3 (w_fp w) (w_ip w) (w_cmd w) (u, sy_kern y);
        match r with
        | LSleep _ => Ok (settle y (w_proc w) (Some s.1) s.2 [w])
        | LDone e => '(_, (u, kn)) ← lock_return w e s; Ok (settle y (w_proc w) (Some u) kn [])
        end
  | _ => Ok y
  end.

Definition step (e : event) (y : sys) : res sys :=
  match e with
  | EDup p i j => call0 y p (dup i j)
  | EDup2 p i j => call0 y p (dup2 i j)
  | EFcntl p pt fd cmd arg => call0 y p (fcntl pt fd cmd arg)
  | EClose p fd => call0 y p (close fd)
  | EPipe p => call0 y p pipe
  | EExec p => call0 y p exec_close
  | EExit p => call y p exit_close (fun _ _ kn => settle y p None kn [])
  | EFlock p fd how =>
      call y p (r ← flock fd how; x ← (match r with LSleep _ => rd_ofile fd | LDone _ => mret None end); mret (r, x)) (fun r u kn =>
        match r with
        | (LSleep _, Some fp) =>
            match k_file kn !! fp with
            | Some (MkFile _ _ _ _ (Some ip) _) =>
                settle y p (Some u) kn
                  [MkWaiter p fp ip (if flag_on how LOCK_EX then flag_clr how LOCK_SH else how) None]
            | _ => settle y p (Some u) kn []
            end
        | _ => settle y p (Some u) kn []
        end)
  | EOpen p fname mode crtmode =>
      call y p (open fname mode crtmode) (fun r u kn =>
        match r with
        | inr (fp, indx, type) =>
            match k_file kn !! fp with
            | Some (MkFile _ _ _ _ (Some ip) _) =>
                settle y p (Some u) kn [MkWaiter p fp ip type (Some indx)]
            | _ => settle y p (Some u) kn []
            end
        | _ => settle y p (Some u) kn []
        end)
  | EFork p q =>
      match sy_user y !! q with
      | Some None =>
          call y p newproc_share (fun _ u kn =>
            let y' := settle y p (Some u) kn [] in
            MkSys (<[q := Some u]> (sy_user y')) (sy_kern y') (sy_wait y') (sy_ready y'))
      | _ => Ok y
      end
  | EResume n =>
      match sy_ready y !! n with
      | Some w => resume (MkSys (sy_user y) (sy_kern y) (sy_wait y) (delete n (sy_ready y))) w 0
      | None => Ok y
      end
  | EInterrupt n err =>
      match sy_wait y !! n with
      | Some w => if err =? 0 then Ok y
                  else resume (MkSys (sy_user y) (sy_kern y) (delete n (sy_wait y)) (sy_ready y)) w err
      | None => Ok y
      end
  end.

Fixpoint run (es : list event) (y : sys) : res sys :=
  match es with
  | [] => Ok y
  | e :: es => y ← step e y; run es y
  end.

(** The state after start-up: process 0 alone, no file open. *)
Definition no_file : file := MkFile 0 0 0 0 None 0.
Definition user0 : user :=
  MkUser (replicate (Z.to_nat NOFILE) None) (replicate (Z.to_nat NOFILE) 0) (-1) 0 0 0 0.
Definition sys0 (w : W) : sys :=
  MkSys (Some user0 :: replicate (Proc.NPROC - 1) None)
    (MkKern (replicate NFILE no_file) None ∅ [] w) [] [].
End Ops.

End Descrip.
