(* ===== verification/Fileinv.v ===== *)
(** The invariant of the tables of Descrip.v, a weakest precondition for its
    code, and the advisory locks: the lock counts of an inode are the numbers
    of files that hold a lock on it, an exclusive lock is alone, and a wakeup
    is sent when the last lock goes that others wait for. *)
From S2P Require Import Prelude Proc Descrip.
Import Descrip.

Module Fileinv.

(** ** Counting in tables *)

Lemma filter_insert_length {A} (P : A -> Prop) `{forall x, Decision (P x)} (l : list A) i x y :
  l !! i = Some x ->
  (length (filter P (<[i := y]> l)) + (if decide (P x) then 1 else 0) =
   length (filter P l) + (if decide (P y) then 1 else 0))%nat.
Proof.
  intros Hi. rewrite (insert_take_drop l i y) by (by eapply lookup_lt_Some).
  rewrite <- (take_drop_middle l i x Hi) at 3.
  rewrite !filter_app, !length_app, !filter_cons.
  repeat case_decide; simpl; lia.
Qed.

(** The descriptors of a table that point at file [i]. *)
Definition nrefs (i : nat) (l : list (option nat)) : nat := length (filter (fun x => x = Some i) l).
Definition is_ref (i : nat) (x : option nat) : nat := if decide (x = Some i) then 1 else 0.
Lemma nrefs_insert i l j x y :
  l !! j = Some x -> (nrefs i (<[j := y]> l) + is_ref i x = nrefs i l + is_ref i y)%nat.
Proof. intros Hj. exact (filter_insert_length (fun x => x = Some i) l j x y Hj). Qed.
Lemma nrefs_pos i l j : l !! j = Some (Some i) -> (0 < nrefs i l)%nat.
Proof.
  intros Hj. pose proof (nrefs_insert i l j (Some i) None Hj) as E.
  unfold is_ref in E. rewrite decide_True, decide_False in E by done. lia.
Qed.
Lemma nrefs_le i l : (nrefs i l <= length l)%nat.
Proof. apply length_filter. Qed.

(** The files that hold a lock of kind [m] on the inode [ip]. *)
Definition holds (m : Z) (ip : nat) (f : file) : Prop := f_data f = Some ip /\ flag_on (f_flag f) m = true.
#[export] Instance holds_dec m ip f : Decision (holds m ip f).
Proof. unfold holds. apply _. Defined.
Definition holders (m : Z) (ip : nat) (fs : list file) : nat := length (filter (holds m ip) fs).
Definition is_holder (m : Z) (ip : nat) (f : file) : nat := if decide (holds m ip f) then 1 else 0.
Lemma holders_insert m ip fs i f f' :
  fs !! i = Some f -> (holders m ip (<[i := f']> fs) + is_holder m ip f = holders m ip fs + is_holder m ip f')%nat.
Proof. intros Hi. exact (filter_insert_length (holds m ip) fs i f f' Hi). Qed.
Lemma holders_same m ip fs i f f' :
  fs !! i = Some f -> is_holder m ip f' = is_holder m ip f -> holders m ip (<[i := f']> fs) = holders m ip fs.
Proof. intros Hi E. pose proof (holders_insert m ip fs i f f' Hi). lia. Qed.
Lemma holders_pos m ip fs i f : fs !! i = Some f -> holds m ip f -> (0 < holders m ip fs)%nat.
Proof.
  intros Hi Hf. pose proof (holders_insert m ip fs i f (set_f_data None f) Hi) as E.
  unfold is_holder in E. rewrite decide_True, decide_False in E by (done || by intros [??]). lia.
Qed.
Lemma holders_le m ip fs : (holders m ip fs <= length fs)%nat.
Proof. apply length_filter. Qed.

(** ** Weakest preconditions of the code *)
Section Wp.
Context {W : Type} `{InodeLayer W}.
Implicit Types (s : st (W := W)) (u : user) (k : kern W).

Definition wp {A} (m : M A) (Q : A -> st (W := W) -> Prop) s : Prop :=
  exists a s', m s = Ok (a, s') /\ Q a s'.

Lemma wp_mono {A} (m : M A) (Q Q' : A -> st -> Prop) s :
  wp m Q s -> (forall a s', Q a s' -> Q' a s') -> wp m Q' s.
Proof. intros (a&s'&E&HQ) HH. exists a, s'. auto. Qed.
Lemma wp_ret {A} (a : A) (Q : A -> st -> Prop) s : Q a s -> wp (mret a) Q s.
Proof. intros HQ. by exists a, s. Qed.
Lemma wp_bind {A B} (m : M A) (f : A -> M B) (Q : B -> st -> Prop) s :
  wp m (fun a => wp (f a) Q) s -> wp (m ≫= f) Q s.
Proof.
  intros (a&s'&E&b&s''&E'&HQ). exists b, s''. split; [|done].
  unfold mbind, M_bind. rewrite E. done.
Qed.
Lemma wp_getu {A} (f : user -> A) (Q : A -> st -> Prop) s : Q (f s.1) s -> wp (getu f) Q s.
Proof. intros HQ. by exists (f s.1), s. Qed.
Lemma wp_getk {A} (f : kern W -> A) (Q : A -> st -> Prop) s : Q (f s.2) s -> wp (getk f) Q s.
Proof. intros HQ. by exists (f s.2), s. Qed.
Lemma wp_modu f (Q : () -> st -> Prop) u k : Q () (f u, k) -> wp (modu f) Q (u, k).
Proof. intros HQ. by exists (), (f u, k). Qed.
Lemma wp_modk f (Q : () -> st -> Prop) u k : Q () (u, f k) -> wp (modk f) Q (u, k).
Proof. intros HQ. by exists (), (u, f k). Qed.
Lemma wp_rd_ofile i x (Q : option nat -> st -> Prop) u k :
  0 <= i -> u_ofile u !! Z.to_nat i = Some x -> Q x (u, k) -> wp (rd_ofile i) Q (u, k).
Proof.
  intros Hi Hx HQ. exists x, (u, k). split; [|done]. unfold rd_ofile.
  destruct (Z.ltb_spec i 0); [lia|]. simpl. by rewrite (rd_Some _ _ _ Hx).
Qed.
Lemma wp_wr_ofile i x (Q : () -> st -> Prop) u k :
  0 <= i < Z.of_nat (length (u_ofile u)) ->
  Q () (set_u_ofile (<[Z.to_nat i := x]> (u_ofile u)) u, k) -> wp (wr_ofile i x) Q (u, k).
Proof.
  intros Hi HQ. eexists _, _. split; [|exact HQ]. unfold wr_ofile.
  destruct (Z.ltb_spec i 0); [lia|]. simpl. by rewrite wr_lt by lia.
Qed.
Lemma wp_rd_pofile i x (Q : Z -> st -> Prop) u k :
  0 <= i -> u_pofile u !! Z.to_nat i = Some x -> Q x (u, k) -> wp (rd_pofile i) Q (u, k).
Proof.
  intros Hi Hx HQ. exists x, (u, k). split; [|done]. unfold rd_pofile.
  destruct (Z.ltb_spec i 0); [lia|]. simpl. by rewrite (rd_Some _ _ _ Hx).
Qed.
Lemma wp_wr_pofile i x (Q : () -> st -> Prop) u k :
  0 <= i < Z.of_nat (length (u_pofile u)) ->
  Q () (set_u_pofile (<[Z.to_nat i := s8 x]> (u_pofile u)) u, k) -> wp (wr_pofile i x) Q (u, k).
Proof.
  intros Hi HQ. eexists _, _. split; [|exact HQ]. unfold wr_pofile.
  destruct (Z.ltb_spec i 0); [lia|]. simpl. by rewrite wr_lt by lia.
Qed.
Lemma wp_rd_file fp f (Q : file -> st -> Prop) u k :
  k_file k !! fp = Some f -> Q f (u, k) -> wp (rd_file fp) Q (u, k).
Proof. intros Hf HQ. exists f, (u, k). split; [|done]. unfold rd_file. simpl. by rewrite (rd_Some _ _ _ Hf). Qed.
Lemma wp_upd_file fp g f (Q : () -> st -> Prop) u k :
  k_file k !! fp = Some f -> Q () (u, set_k_file (<[fp := g f]> (k_file k)) k) -> wp (upd_file fp g) Q (u, k).
Proof.
  intros Hf HQ. eexists _, _. split; [|exact HQ]. unfold upd_file. simpl.
  rewrite (rd_Some _ _ _ Hf). simpl. by rewrite (wr_Some _ _ _ _ Hf).
Qed.
Lemma wp_inode_call {A} (c : W -> W * A) (Q : A -> st -> Prop) u k :
  Q (c (k_world k)).2 (u, set_k_world (c (k_world k)).1 k) -> wp (inode_call c) Q (u, k).
Proof.
  intros HQ. eexists _, _. split; [|exact HQ]. unfold inode_call. simpl. by destruct (c (k_world k)).
Qed.
End Wp.

(** ** The invariant *)

Definition lock_bits (f : file) : bool := flag_on (f_flag f) (FSHLOCK + FEXLOCK).

(** A file that is open has a type that can be closed and an inode, and only
    an open file of type DTYPE_INODE holds locks. *)
Definition file_open (f : file) : Prop :=
  0 < f_count f -> (f_type f = DTYPE_INODE \/ f_type f = DTYPE_PIPE) /\ is_Some (f_data f).
Definition file_locks (f : file) : Prop := lock_bits f = true -> 0 < f_count f /\ f_type f = DTYPE_INODE.

(** The table of files: the count of file [i] is [R i]; the files of [X] are
    being opened. *)
Definition files_ok (X : list nat) (R : nat -> Z) (fs : list file) : Prop :=
  length fs = NFILE /\
  forall i f, fs !! i = Some f -> f_count f = R i /\ file_locks f /\ (file_open f \/ i ∈ X).

(** The locks of an inode: the counts are the numbers of files that hold a
    lock, the bits say whether there are any, and an exclusive lock is alone. *)
Definition inode_ok (fs : list file) (ip : nat) (n : ilocks) : Prop :=
  i_shlockc n = Z.of_nat (holders FSHLOCK ip fs) /\
  i_exlockc n = Z.of_nat (holders FEXLOCK ip fs) /\
  (flag_on (i_flag n) ISHLOCK = true <-> 0 < i_shlockc n) /\
  (flag_on (i_flag n) IEXLOCK = true <-> 0 < i_exlockc n) /\
  i_exlockc n <= 1 /\ (0 < i_exlockc n -> i_shlockc n = 0).
Definition inode_of {W} (k : kern W) (ip : nat) : ilocks := default unlocked (k_inode k !! ip).
Definition locks_ok {W} (k : kern W) : Prop := forall ip, inode_ok (k_file k) ip (inode_of k ip).

(** From [k0] to [k]: the inodes that had waiters and are not among the woken
    keep their bits, and the files of [P] keep their inode and type. *)
Definition keeps {W} (P : nat -> Prop) (k0 k : kern W) : Prop :=
  (forall ip, ip ∈ k_woken k0 -> ip ∈ k_woken k) /\
  (forall ip b, (ip ∉ k_woken k) -> b ∈ [ILWAIT; IEXLOCK; ISHLOCK] ->
    flag_on (i_flag (inode_of k0 ip)) ILWAIT = true ->
    flag_on (i_flag (inode_of k0 ip)) b = true -> flag_on (i_flag (inode_of k ip)) b = true) /\
  (forall fp f0, P fp -> k_file k0 !! fp = Some f0 ->
    exists f, k_file k !! fp = Some f /\ f_data f = f_data f0 /\ f_type f = f_type f0).

Definition user_ok (u : user) : Prop :=
  length (u_ofile u) = Z.to_nat NOFILE /\ length (u_pofile u) = Z.to_nat NOFILE /\
  (forall j i, u_ofile u !! j = Some (Some i) -> (i < NFILE)%nat /\ Z.of_nat j <= u_lastfile u) /\
  -1 <= u_lastfile u < NOFILE.

Definition kern_ok {W} (X : list nat) (R : nat -> Z) (k : kern W) : Prop :=
  files_ok X R (k_file k) /\ locks_ok k /\ (forall l, k_lastf k = Some l -> (l <= NFILE)%nat).

Lemma keeps_refl {W} P (k : kern W) : keeps P k k.
Proof. split_and!; eauto. Qed.
Lemma keeps_trans {W} P (k0 k1 k2 : kern W) : keeps P k0 k1 -> keeps P k1 k2 -> keeps P k0 k2.
Proof.
  intros (Hw&Hb&Hf) (Hw'&Hb'&Hf'). split_and!.
  - auto.
  - intros ip b Hn Hbb Hl Hb0. assert (ip ∉ k_woken k1) by eauto.
    apply Hb'; [done|done| |]; apply Hb; auto. apply list_elem_of_here.
  - intros fp f0 HP H0. destruct (Hf fp f0 HP H0) as (f1&H1&E1&E2).
    destruct (Hf' fp f1 HP H1) as (f2&H2&E3&E4). exists f2. split_and!; congruence.
Qed.

(** ** Updates of the tables *)
Section Updates.
Context {W : Type}.
Implicit Types (k : kern W) (f : file) (fp ip : nat).

Lemma lock_bits_off f :
  lock_bits f = false <-> flag_on (f_flag f) FSHLOCK = false /\ flag_on (f_flag f) FEXLOCK = false.
Proof.
  unfold lock_bits. rewrite !flag_on_land. change (FSHLOCK + FEXLOCK) with (Z.lor FSHLOCK FEXLOCK).
  rewrite Z.land_lor_distr_r, Z.lor_eq_0_iff. done.
Qed.
Lemma lock_bits_on f m : m ∈ [FSHLOCK; FEXLOCK] -> flag_on (f_flag f) m = true -> lock_bits f = true.
Proof.
  intros Hm Hf. destruct (lock_bits f) eqn:E; [done|]. apply lock_bits_off in E as [E1 E2].
  repeat (apply elem_of_cons in Hm as [->|Hm]); congruence || by apply elem_of_nil in Hm.
Qed.

Definition same_locks f f' : Prop :=
  (f_data f' = f_data f /\ flag_on (f_flag f') FSHLOCK = flag_on (f_flag f) FSHLOCK /\
   flag_on (f_flag f') FEXLOCK = flag_on (f_flag f) FEXLOCK) \/
  (lock_bits f = false /\ lock_bits f' = false).
Lemma same_locks_holder f f' m ip :
  same_locks f f' -> m ∈ [FSHLOCK; FEXLOCK] -> is_holder m ip f' = is_holder m ip f.
Proof.
  intros Hs Hm. unfold is_holder, holds.
  destruct Hs as [(E1&E2&E3)|[[E1 E2]%lock_bits_off [E3 E4]%lock_bits_off]];
    repeat (apply elem_of_cons in Hm as [->|Hm]); try by apply elem_of_nil in Hm.
  all: repeat case_decide; naive_solver congruence.
Qed.

Lemma locks_ok_same k k' fp f f' :
  locks_ok k -> k_file k !! fp = Some f -> same_locks f f' ->
  k_file k' = <[fp := f']> (k_file k) -> (forall ip, inode_of k' ip = inode_of k ip) -> locks_ok k'.
Proof.
  intros Hl Hf Hs Hk Hi ip. rewrite Hk, Hi. destruct (Hl ip) as (E1&E2&Hr). unfold inode_ok.
  rewrite !(holders_same _ _ _ _ _ _ Hf) by (apply same_locks_holder; [done|set_solver]). done.
Qed.
Lemma locks_ok_change k k' fp f f' ip n :
  locks_ok k -> k_file k !! fp = Some f -> f_data f = Some ip -> f_data f' = Some ip ->
  k_file k' = <[fp := f']> (k_file k) ->
  (forall i, inode_of k' i = if decide (i = ip) then n else inode_of k i) ->
  inode_ok (<[fp := f']> (k_file k)) ip n -> locks_ok k'.
Proof.
  intros Hl Hf Hd Hd' Hk Hi Hn i. rewrite Hk, Hi. case_decide as E; [by subst|].
  destruct (Hl i) as (E1&E2&Hr). unfold inode_ok.
  rewrite !(holders_same _ _ _ _ _ _ Hf); [done|..].
  all: unfold is_holder; repeat case_decide; unfold holds in *; naive_solver congruence.
Qed.

Lemma files_ok_insert X X' R R' fs fp f f' :
  files_ok X R fs -> fs !! fp = Some f -> f_count f' = R' fp -> (forall i, i <> fp -> R' i = R i) ->
  file_locks f' -> (file_open f' \/ fp ∈ X') -> (forall i, i ∈ X -> i <> fp -> i ∈ X') ->
  files_ok X' R' (<[fp := f']> fs).
Proof.
  intros [Hlen Hfs] Hf Hc HR Hlk Ho HX. split; [by rewrite length_insert|].
  intros i g. destruct (decide (i = fp)) as [->|Hi].
  - rewrite list_lookup_insert_eq by (by eapply lookup_lt_Some). intros [= <-]. auto.
  - rewrite list_lookup_insert_ne by done. intros Hg. destruct (Hfs i g Hg) as (E1&E2&E3).
    rewrite HR by done. naive_solver.
Qed.
Lemma files_ok_weaken X X' R R' fs :
  files_ok X R fs -> (forall i, R' i = R i) -> (forall i, i ∈ X -> i ∈ X') -> files_ok X' R' fs.
Proof.
  intros [Hlen Hfs] HR HX. split; [done|]. intros i f Hf. destruct (Hfs i f Hf) as (E1&E2&E3).
  rewrite HR. naive_solver.
Qed.
Lemma kern_ok_R X R R' k : kern_ok X R k -> (forall i, R' i = R i) -> kern_ok X R' k.
Proof. intros (H1&H2&H3) HR. split; [|done]. by eapply files_ok_weaken. Qed.

Lemma keeps_file P k0 k k' fp f f' :
  keeps P k0 k -> k_file k !! fp = Some f -> (P fp -> f_data f' = f_data f /\ f_type f' = f_type f) ->
  k_file k' = <[fp := f']> (k_file k) -> k_inode k' = k_inode k -> k_woken k' = k_woken k -> keeps P k0 k'.
Proof.
  intros (H1&H2&H3) Hf HP Ek Ei Ew. unfold keeps, inode_of in *. rewrite Ei, Ew, Ek.
  split_and!; [done|done|]. intros g f0 Hg Hg0. destruct (H3 g f0 Hg Hg0) as (f1&Hf1&E1&E2).
  destruct (decide (g = fp)) as [->|].
  - simplify_eq. exists f'. rewrite list_lookup_insert_eq by (by eapply lookup_lt_Some).
    destruct (HP Hg). split_and!; congruence.
  - exists f1. by rewrite list_lookup_insert_ne.
Qed.

(** The change of one file, of its count, its flags other than the locks, or,
    for a file without locks, of its inode and type. *)
Lemma kern_upd_ok P k0 X X' R R' k fp f f' :
  kern_ok X R k -> keeps P k0 k -> k_file k !! fp = Some f ->
  f_count f' = R' fp -> (forall i, i <> fp -> R' i = R i) ->
  file_locks f' -> (file_open f' \/ fp ∈ X') -> (forall i, i ∈ X -> i <> fp -> i ∈ X') ->
  same_locks f f' -> (P fp -> f_data f' = f_data f /\ f_type f' = f_type f) ->
  kern_ok X' R' (set_k_file (<[fp := f']> (k_file k)) k) /\
  keeps P k0 (set_k_file (<[fp := f']> (k_file k)) k).
Proof.
  intros (Hfs&Hl&Hla) Hk Hf Hc HR Hlk Ho HX Hs HP. split; [split_and!|].
  - by eapply files_ok_insert.
  - by eapply locks_ok_same.
  - done.
  - by eapply keeps_file.
Qed.

(** The change of the lock of a file and of the locks of its inode. *)
Lemma kern_lock_ok P k0 X R k k' fp f g ip n :
  kern_ok X R k -> keeps P k0 k -> k_file k !! fp = Some f -> f_data f = Some ip ->
  k_file k' = <[fp := set_f_flag g f]> (k_file k) -> k_lastf k' = k_lastf k ->
  (forall i, inode_of k' i = if decide (i = ip) then n else inode_of k i) ->
  (0 < f_count f /\ f_type f = DTYPE_INODE) -> inode_ok (<[fp := set_f_flag g f]> (k_file k)) ip n ->
  (forall i, i ∈ k_woken k -> i ∈ k_woken k') ->
  (ip ∈ k_woken k' \/ flag_on (i_flag (inode_of k ip)) ILWAIT = false \/
   forall b, b ∈ [ILWAIT; IEXLOCK; ISHLOCK] -> flag_on (i_flag (inode_of k ip)) b = true -> flag_on (i_flag n) b = true) ->
  kern_ok X R k' /\ keeps P k0 k'.
Proof.
  intros (Hfs&Hl&Hla) Hk Hf Hd Ek El Ei Hc Hn Hw Hb. split; [split_and!|].
  - rewrite Ek. destruct Hfs as [Hlen Hfs]. destruct (Hfs fp f Hf) as (E1&E2&E3).
    eapply files_ok_insert; [by split|done|done|done|by intros _|done|done].
  - by apply (locks_ok_change k k' fp f (set_f_flag g f) ip n).
  - by rewrite El.
  - eapply keeps_trans; [done|]. split_and!; [done|..].
    + intros i b Hnw Hbb Hlw Hbo. rewrite Ei. case_decide as E; [subst i|done].
      destruct Hb as [Hb|[Hb|Hb]]; [done|congruence|by apply Hb].
    + intros q f0 _ Hq. rewrite Ek. destruct (decide (q = fp)) as [->|].
      * simplify_eq. eexists. by rewrite list_lookup_insert_eq by (by eapply lookup_lt_Some).
      * exists f0. by rewrite list_lookup_insert_ne.
Qed.
End Updates.

(** [k'] is [k] with the locks [n] for the inode [ip]. *)
Definition inode_set {W} (k : kern W) (ip : nat) (n : ilocks) (k' : kern W) : Prop :=
  k_file k' = k_file k /\ k_lastf k' = k_lastf k /\ k_woken k' = k_woken k /\ k_world k' = k_world k /\
  forall i, inode_of k' i = if decide (i = ip) then n else inode_of k i.
Lemma inode_set_set {W} (k k1 k2 : kern W) ip n1 n2 :
  inode_set k ip n1 k1 -> inode_set k1 ip n2 k2 -> inode_set k ip n2 k2.
Proof.
  intros (E1&E2&E3&E4&E5) (F1&F2&F3&F4&F5). split_and!; try congruence.
  intros i. rewrite F5, E5. by case_decide.
Qed.
Lemma inode_set_woken {W} (k k1 : kern W) ip n :
  inode_set k ip n k1 -> inode_set k ip n (set_k_woken (k_woken k) k1).
Proof. intros (F1&F2&F3&F4&F5). by split_and!. Qed.
Lemma wp_rd_inode {W} ip (Q : ilocks -> st (W := W) -> Prop) u k :
  Q (inode_of k ip) (u, k) -> wp (rd_inode ip) Q (u, k).
Proof. intros HQ. by apply wp_getk. Qed.
Lemma wp_upd_inode {W} ip g (Q : () -> st (W := W) -> Prop) u k :
  (forall k', inode_set k ip (g (inode_of k ip)) k' -> Q () (u, k')) -> wp (upd_inode ip g) Q (u, k).
Proof.
  intros HQ. apply wp_modk, HQ. split_and!; try done. intros i. unfold inode_of. simpl.
  case_decide as E; [subst; by rewrite lookup_insert_eq|by rewrite lookup_insert_ne].
Qed.

Ltac wp_step :=
  lazymatch goal with
  | |- wp (mret _) _ _ => apply wp_ret
  | |- wp (rd_inode _) _ _ => apply wp_rd_inode
  | |- wp (upd_inode _ _) _ _ =>
      let k' := fresh "k" in let Hs := fresh "Hs" in apply wp_upd_inode; intros k' Hs
  | _ => first
        [ apply wp_getu | apply wp_getk | apply wp_modu | apply wp_modk
        | apply wp_inode_call
        | eapply wp_rd_file; [eassumption|]
        | eapply wp_upd_file; [eassumption|] ]
  end.
Ltac wp_run := repeat (first [apply wp_bind; wp_step | wp_step]; cbn [fst snd]).

(** ** Advisory locks *)
Section Locks.
Context {W : Type} `{InodeLayer W}.
Implicit Types (u : user) (k : kern W) (f : file) (fp ip : nat).

Lemma holder_flag m ip f g :
  f_data f = Some ip -> is_holder m ip (set_f_flag g f) = if flag_on g m then 1%nat else 0%nat.
Proof.
  intros Hd. unfold is_holder. destruct (flag_on g m) eqn:E; case_decide as Hh; try done.
  - destruct Hh. by split.
  - destruct Hh as [_ Hh]. simpl in Hh. congruence.
Qed.
Lemma holders_flag m ip fs fp f g :
  fs !! fp = Some f -> f_data f = Some ip ->
  Z.of_nat (holders m ip (<[fp := set_f_flag g f]> fs)) =
  Z.of_nat (holders m ip fs) + (if flag_on g m then 1 else 0) - (if flag_on (f_flag f) m then 1 else 0).
Proof.
  intros Hf Hd. pose proof (holders_insert m ip fs fp f (set_f_flag g f) Hf) as E.
  rewrite (holder_flag m ip f g Hd) in E.
  assert (is_holder m ip f = if flag_on (f_flag f) m then 1%nat else 0%nat) as E'.
  { rewrite <- (holder_flag m ip f (f_flag f) Hd). by destruct f. }
  rewrite E' in E. repeat case_match; lia.
Qed.

(** The state after the lock flags of the file [f] became [g]. *)
Definition lock_post P k0 X R u k fp f g (s' : st (W := W)) : Prop :=
  exists k', s' = (u, k') /\ kern_ok X R k' /\ keeps P k0 k' /\
    k_file k' = <[fp := set_f_flag g f]> (k_file k).

(** The last step of locking and unlocking, the change of the file, when
    [k1] already has the new locks [n] of the inode. *)
Lemma lock_file_ok P k0 X R u k k1 fp f ip n g :
  kern_ok X R k -> keeps P k0 k -> k_file k !! fp = Some f -> f_data f = Some ip ->
  0 < f_count f /\ f_type f = DTYPE_INODE ->
  inode_set k ip n (set_k_woken (k_woken k) k1) -> (forall i, i ∈ k_woken k -> i ∈ k_woken k1) ->
  inode_ok (<[fp := set_f_flag (g (f_flag f)) f]> (k_file k)) ip n ->
  (ip ∈ k_woken k1 \/ flag_on (i_flag (inode_of k ip)) ILWAIT = false \/
   forall b, b ∈ [ILWAIT; IEXLOCK; ISHLOCK] -> flag_on (i_flag (inode_of k ip)) b = true -> flag_on (i_flag n) b = true) ->
  wp (upd_file fp (fun f => set_f_flag (g (f_flag f)) f))
    (fun _ => lock_post P k0 X R u k fp f (g (f_flag f))) (u, k1).
Proof.
  intros Hk Hkeep Hf Hd Hc (F1&F2&_&F4&F5) Hw Hn Hb. simpl in F1, F2, F4.
  eapply wp_upd_file; [by rewrite F1|]. rewrite F1. eexists. split; [done|].
  destruct (kern_lock_ok P k0 X R k (set_k_file (<[fp := set_f_flag (g (f_flag f)) f]> (k_file k)) k1)
    fp f (g (f_flag f)) ip n) as [R1 R2]; done.
Qed.

(** What a file with a lock says of its inode. *)
Lemma locked_file X R k fp f ip m :
  kern_ok X R k -> k_file k !! fp = Some f -> f_data f = Some ip -> m ∈ [FSHLOCK; FEXLOCK] ->
  flag_on (f_flag f) m = true ->
  (0 < f_count f /\ f_type f = DTYPE_INODE) /\ 0 < Z.of_nat (holders m ip (k_file k)) <= 24.
Proof.
  intros ([Hlen Hfs]&_&_) Hf Hd Hm Hon. destruct (Hfs fp f Hf) as (_&Hlk&_). split.
  - apply Hlk. by apply lock_bits_on with m.
  - pose proof (holders_pos m ip _ _ _ Hf (conj Hd Hon)).
    pose proof (holders_le m ip (k_file k)) as Hle. unfold NFILE in Hlen. lia.
Qed.

Lemma unlock_shared_ok P k0 X R u k fp f ip :
  kern_ok X R k -> keeps P k0 k -> k_file k !! fp = Some f -> f_data f = Some ip ->
  flag_on (f_flag f) FSHLOCK = true ->
  wp (unlock_shared fp ip (i_flag (inode_of k ip)))
    (fun _ => lock_post P k0 X R u k fp f (flag_clr (f_flag f) FSHLOCK)) (u, k).
Proof.
  intros Hk Hkeep Hf Hd Hm. pose proof Hk as (_&Hl&_). destruct (Hl ip) as (E1&E2&E3&E4&E5&E6).
  destruct (locked_file _ _ _ _ _ _ FSHLOCK Hk Hf Hd ltac:(set_solver) Hm) as [Hc Hpos].
  rewrite <- E1 in Hpos.
  pose proof (holders_flag FSHLOCK ip _ _ _ (flag_clr (f_flag f) FSHLOCK) Hf Hd) as G1.
  pose proof (holders_flag FEXLOCK ip _ _ _ (flag_clr (f_flag f) FSHLOCK) Hf Hd) as G2.
  rewrite flag_on_clr_same, Hm in G1. rewrite flag_on_clr_other in G2 by done.
  unfold unlock_shared. wp_run. pose proof Hs as (F1&F2&F3&F4&F5).
  rewrite F5, decide_True by done. cbn [i_shlockc]. unfold u16. rewrite Z.mod_small by lia.
  apply wp_bind. case_if.
  - wp_run. rewrite F5, decide_True in Hs0 by done. cbn [i_flag i_shlockc i_exlockc] in Hs0.
    pose proof (inode_set_woken _ _ _ _ (inode_set_set _ _ _ _ _ _ Hs Hs0)) as Hset.
    unfold u16 in Hset. rewrite Z.mod_small in Hset by lia.
    pose proof Hs0 as (_&_&F3'&_).
    assert (inode_ok (<[fp := set_f_flag (flag_clr (f_flag f) FSHLOCK) f]> (k_file k)) ip
      (MkIlocks (flag_clr (i_flag (inode_of k ip)) ISHLOCK) (i_shlockc (inode_of k ip) - 1) (i_exlockc (inode_of k ip)))) as Hok.
    { unfold inode_ok. cbn [i_flag i_shlockc i_exlockc]. rewrite flag_on_clr_same, flag_on_clr_other by done.
      split_and!; try lia; try done. }
    case_if; wp_run;
      (eapply (lock_file_ok _ _ _ _ _ _ _ _ _ _ _ (fun x => flag_clr x FSHLOCK) Hk Hkeep Hf Hd Hc);
       [exact Hset|intros i Hi|exact Hok|]).
    + simpl. rewrite F3', F3. by apply list_elem_of_further.
    + left. apply list_elem_of_here.
    + by rewrite F3', F3.
    + right. by left.
  - pose proof (inode_set_woken _ _ _ _ Hs) as Hset. unfold u16 in Hset. rewrite Z.mod_small in Hset by lia.
    wp_run. eapply (lock_file_ok _ _ _ _ _ _ _ _ _ _ _ (fun x => flag_clr x FSHLOCK) Hk Hkeep Hf Hd Hc);
      [exact Hset|intros i Hi; by rewrite F3| |by right; right].
    unfold inode_ok. cbn [i_flag i_shlockc i_exlockc]. split_and!; try lia; try done. naive_solver lia.
Qed.

Lemma unlock_exclusive_ok P k0 X R u k fp f ip :
  kern_ok X R k -> keeps P k0 k -> k_file k !! fp = Some f -> f_data f = Some ip ->
  flag_on (f_flag f) FEXLOCK = true ->
  wp (unlock_exclusive fp ip (i_flag (inode_of k ip)))
    (fun _ => lock_post P k0 X R u k fp f (flag_clr (f_flag f) FEXLOCK)) (u, k).
Proof.
  intros Hk Hkeep Hf Hd Hm. pose proof Hk as (_&Hl&_). destruct (Hl ip) as (E1&E2&E3&E4&E5&E6).
  destruct (locked_file _ _ _ _ _ _ FEXLOCK Hk Hf Hd ltac:(set_solver) Hm) as [Hc Hpos].
  rewrite <- E2 in Hpos.
  pose proof (holders_flag FSHLOCK ip _ _ _ (flag_clr (f_flag f) FEXLOCK) Hf Hd) as G1.
  pose proof (holders_flag FEXLOCK ip _ _ _ (flag_clr (f_flag f) FEXLOCK) Hf Hd) as G2.
  rewrite flag_on_clr_same, Hm in G2. rewrite flag_on_clr_other in G1 by done.
  unfold unlock_exclusive. wp_run. pose proof Hs as (F1&F2&F3&F4&F5).
  rewrite F5, decide_True by done. cbn [i_exlockc]. unfold u16. rewrite Z.mod_small by lia.
  replace (i_exlockc (inode_of k ip) - 1) with 0 by lia. rewrite Z.eqb_refl. apply wp_bind.
  wp_run. rewrite F5, decide_True in Hs0 by done. cbn [i_flag i_shlockc i_exlockc] in Hs0.
  pose proof (inode_set_woken _ _ _ _ (inode_set_set _ _ _ _ _ _ Hs Hs0)) as Hset.
  unfold u16 in Hset. rewrite Z.mod_small in Hset by lia.
  pose proof Hs0 as (_&_&F3'&_).
  assert (inode_ok (<[fp := set_f_flag (flag_clr (f_flag f) FEXLOCK) f]> (k_file k)) ip
    (MkIlocks (flag_clr (i_flag (inode_of k ip)) (IEXLOCK + ILWAIT)) (i_shlockc (inode_of k ip)) (i_exlockc (inode_of k ip) - 1))) as Hok.
  { unfold inode_ok. cbn [i_flag i_shlockc i_exlockc]. rewrite (flag_on_clr_other _ _ ISHLOCK) by done.
    replace (flag_on (flag_clr (i_flag (inode_of k ip)) (IEXLOCK + ILWAIT)) IEXLOCK) with false
      by (symmetry; apply flag_on_clr_sub; done).
    split_and!; try lia; try done. }
  case_if; wp_run;
    (eapply (lock_file_ok _ _ _ _ _ _ _ _ _ _ _ (fun x => flag_clr x FEXLOCK) Hk Hkeep Hf Hd Hc);
     [exact Hset|intros i Hi|exact Hok|]).
  - simpl. rewrite F3', F3. by apply list_elem_of_further.
  - left. apply list_elem_of_here.
  - by rewrite F3', F3.
  - right. by left.
Qed.

(** A file holds at most one of the two locks. *)
Lemma one_lock X R k fp f ip :
  kern_ok X R k -> k_file k !! fp = Some f -> f_data f = Some ip ->
  flag_on (f_flag f) FSHLOCK = true -> flag_on (f_flag f) FEXLOCK = true -> False.
Proof.
  intros Hk Hf Hd H1 H2. pose proof Hk as (_&Hl&_). destruct (Hl ip) as (E1&E2&_&_&_&E6).
  destruct (locked_file _ _ _ _ _ _ FSHLOCK Hk Hf Hd ltac:(set_solver) H1).
  destruct (locked_file _ _ _ _ _ _ FEXLOCK Hk Hf Hd ltac:(set_solver) H2). lia.
Qed.

Lemma ino_unlock_ok P k0 X R u k fp f ip m :
  kern_ok X R k -> keeps P k0 k -> k_file k !! fp = Some f -> f_data f = Some ip ->
  m ∈ [FSHLOCK; FEXLOCK; FSHLOCK + FEXLOCK] ->
  wp (ino_unlock fp m) (fun _ s' => exists g, lock_post P k0 X R u k fp f g s' /\
    (g = f_flag f \/ g = flag_clr (f_flag f) FSHLOCK \/ g = flag_clr (f_flag f) FEXLOCK) /\
    flag_on g m = false) (u, k).
Proof.
  intros Hk Hkeep Hf Hd Hm. unfold ino_unlock. apply wp_bind. wp_step. cbn beta zeta. rewrite Hd.
  assert (forall b, b ∈ [FSHLOCK; FEXLOCK] -> flag_on (Z.land m (f_flag f)) b = true -> flag_on (f_flag f) b = true) as Hsub.
  { intros b Hb. destruct (decide (Z.land m b = 0)) as [E|E].
    - by rewrite (flag_on_mask_0 _ _ _ E).
    - rewrite flag_on_mask; [done|]. set_unfold. naive_solver. }
  case_if.
  { apply wp_ret. exists (f_flag f). split_and!; [|by left|].
    - exists k. split_and!; try done. symmetry. destruct f. by apply list_insert_id.
    - apply flag_on_land. by rewrite Z.land_comm. }
  apply wp_bind. wp_step. apply wp_bind.
  destruct (flag_on (Z.land m (f_flag f)) FSHLOCK) eqn:E1.
  - assert (flag_on (f_flag f) FEXLOCK = false) as Ex.
    { apply not_true_iff_false. intros Ex. eapply (one_lock X R k fp f ip); try done. apply Hsub; [set_solver|done]. }
    eapply wp_mono; [apply (unlock_shared_ok P k0 X R u k fp f ip); try done; apply Hsub; [set_solver|done]|].
    intros [] s' Hs'. 
    assert (flag_on (Z.land m (f_flag f)) FEXLOCK = false) as ->.
    { apply not_true_iff_false. intros E2%Hsub; [congruence|set_solver]. }
    apply wp_ret. exists (flag_clr (f_flag f) FSHLOCK). split_and!; [done|by right; left|].
    set_unfold. destruct Hm as [->|[->|[->|[]]]]; [apply flag_on_clr_same|by rewrite flag_on_clr_other|].
    apply (lock_bits_off (set_f_flag (flag_clr (f_flag f) FSHLOCK) f)). cbn [f_flag set_f_flag].
      by rewrite flag_on_clr_same, flag_on_clr_other.
  - apply wp_ret. destruct (flag_on (Z.land m (f_flag f)) FEXLOCK) eqn:E2.
    + assert (flag_on (f_flag f) FEXLOCK = true) as Ex by (apply Hsub; [set_solver|done]).
      assert (flag_on (f_flag f) FSHLOCK = false) as Esh.
      { apply not_true_iff_false. intros Esh. by eapply (one_lock X R k fp f ip). }
      eapply wp_mono; [by apply (unlock_exclusive_ok P k0 X R u k fp f ip)|].
      intros [] s' Hs'. exists (flag_clr (f_flag f) FEXLOCK). split_and!; [done|by right; right|].
      set_unfold. destruct Hm as [->|[->|[->|[]]]]; [by rewrite flag_on_clr_other|apply flag_on_clr_same|].
      apply (lock_bits_off (set_f_flag (flag_clr (f_flag f) FEXLOCK) f)). cbn [f_flag set_f_flag].
      by rewrite flag_on_clr_same, flag_on_clr_other.
    + apply wp_ret. exists (f_flag f). split_and!; [|by left|].
      * exists k. split_and!; try done. symmetry. destruct f. by apply list_insert_id.
      * set_unfold. destruct Hm as [->|[->|[->|[]]]].
        -- by rewrite flag_on_mask in E1.
        -- by rewrite flag_on_mask in E2.
        -- apply (lock_bits_off f). by rewrite flag_on_mask in E1, E2.
Qed.

(** What an attempt to lock comes to. *)
Definition lock_result (cmd : Z) (ip : nat) k' (g : Z) (r : lockres) : Prop :=
  match r with
  | LSleep _ =>
      flag_on cmd LOCK_NB = false /\
      flag_on (i_flag (inode_of k' ip)) ILWAIT = true /\
      (flag_on (i_flag (inode_of k' ip)) IEXLOCK = true /\ flag_on g FEXLOCK = false \/
       (flag_on cmd LOCK_EX = true /\ flag_on (i_flag (inode_of k' ip)) ISHLOCK = true) /\ flag_on g FSHLOCK = false)
  | LDone e =>
      (e = EWOULDBLOCK /\ flag_on cmd LOCK_NB = true) \/
      (e = 0 /\ (flag_on cmd LOCK_EX = true -> flag_on g FEXLOCK = true) /\
       (flag_on cmd LOCK_EX = false -> flag_on cmd LOCK_SH = true -> flag_on g FSHLOCK = true))
  end.
Definition lock_done P k0 X R u k fp f ip cmd (r : lockres) (s' : st (W := W)) : Prop :=
  exists g k', s' = (u, k') /\ kern_ok X R k' /\ keeps P k0 k' /\
    k_file k' = <[fp := set_f_flag g f]> (k_file k) /\ lock_result cmd ip k' g r.

Lemma same_file_insert k fp f : k_file k !! fp = Some f -> k_file k = <[fp := set_f_flag (f_flag f) f]> (k_file k).
Proof. intros Hf. symmetry. destruct f. by apply list_insert_id. Qed.

(** Going to sleep: ILWAIT is set. *)
Lemma lock_sleep_ok P k0 X R u k fp f ip cmd pri :
  kern_ok X R k -> keeps P k0 k -> k_file k !! fp = Some f -> f_data f = Some ip ->
  0 < f_count f /\ f_type f = DTYPE_INODE -> flag_on cmd LOCK_NB = false ->
  (flag_on (i_flag (inode_of k ip)) IEXLOCK = true /\ flag_on (f_flag f) FEXLOCK = false \/
   (flag_on cmd LOCK_EX = true /\ flag_on (i_flag (inode_of k ip)) ISHLOCK = true) /\ flag_on (f_flag f) FSHLOCK = false) ->
  wp (upd_inode ip (fun n => MkIlocks (flag_set (i_flag n) ILWAIT) (i_shlockc n) (i_exlockc n));;
      mret (LSleep pri)) (lock_done P k0 X R u k fp f ip cmd) (u, k).
Proof.
  intros Hk Hkeep Hf Hd Hc Hnb Hb. wp_run. pose proof Hs as (F1&F2&F3&F4&F5).
  pose proof Hk as (_&Hl&_).
  destruct (kern_lock_ok P k0 X R k k1 fp f (f_flag f) ip
    (MkIlocks (flag_set (i_flag (inode_of k ip)) ILWAIT) (i_shlockc (inode_of k ip)) (i_exlockc (inode_of k ip)))) as [R1 R2]; try done.
  - by rewrite F1, <- same_file_insert.
  - rewrite <- same_file_insert by done. destruct (Hl ip) as (E1&E2&E3&E4&E5&E6).
    unfold inode_ok. cbn [i_flag i_shlockc i_exlockc]. by rewrite !flag_on_set_other.
  - by rewrite F3.
  - right. right. intros b Hbb Hon. cbn [i_flag]. set_unfold in Hbb.
    destruct Hbb as [->|[->|[->|[]]]]; [by apply flag_on_set_same|by rewrite flag_on_set_other|by rewrite flag_on_set_other].
  - exists (f_flag f), k1. split_and!; try done; [by rewrite F1, <- same_file_insert|].
    simpl. rewrite F5, decide_True by done. cbn [i_flag].
    by rewrite flag_on_set_same, !flag_on_set_other.
Qed.

(** Taking a lock that is free. *)
Lemma lock_bit_ok P k0 X R u k fp f ip m bit (sh : bool) :
  kern_ok X R k -> keeps P k0 k -> k_file k !! fp = Some f -> f_data f = Some ip ->
  0 < f_count f /\ f_type f = DTYPE_INODE -> flag_on (f_flag f) m = false ->
  (m, bit, sh) = (FSHLOCK, ISHLOCK, true) \/
  (m, bit, sh) = (FEXLOCK, IEXLOCK, false) /\ flag_on (i_flag (inode_of k ip)) ISHLOCK = false ->
  flag_on (i_flag (inode_of k ip)) IEXLOCK = false ->
  wp (upd_inode ip (fun n => MkIlocks (flag_set (i_flag n) bit)
        (if sh then u16 (i_shlockc n + 1) else i_shlockc n) (if sh then i_exlockc n else u16 (i_exlockc n + 1)));;
      upd_file fp (fun f => set_f_flag (flag_set (f_flag f) m) f))
    (fun _ => lock_post P k0 X R u k fp f (flag_set (f_flag f) m)) (u, k).
Proof.
  intros Hk Hkeep Hf Hd Hc Hm Hcase Hfree. pose proof Hk as (Hfs&Hl&_). destruct (Hl ip) as (E1&E2&E3&E4&E5&E6).
  pose proof (holders_le FSHLOCK ip (k_file k)) as Hle. destruct Hfs as [Hlen _]. unfold NFILE in Hlen.
  assert (i_exlockc (inode_of k ip) = 0) as Ex0.
  { apply not_true_iff_false in Hfree. rewrite E4 in Hfree. lia. }
  pose proof (holders_flag FSHLOCK ip _ _ _ (flag_set (f_flag f) m) Hf Hd) as G1.
  pose proof (holders_flag FEXLOCK ip _ _ _ (flag_set (f_flag f) m) Hf Hd) as G2.
  apply wp_bind. wp_step. pose proof Hs as (F1&F2&F3&F4&F5).
  eapply (lock_file_ok _ _ _ _ _ _ _ _ _ _ _ (fun x => flag_set x m) Hk Hkeep Hf Hd Hc);
    [exact (inode_set_woken _ _ _ _ Hs)|intros i Hi; by rewrite F3| |].
  - unfold inode_ok, u16. destruct Hcase as [[= -> -> ->]|[[= -> -> ->] Hsh]]; cbn [i_flag i_shlockc i_exlockc].
    + rewrite flag_on_set_same, Hm in G1 by done. rewrite flag_on_set_other in G2 by done.
      rewrite Z.mod_small by lia. rewrite flag_on_set_same, flag_on_set_other by done.
      split_and!; try lia; try done.
    + rewrite flag_on_set_same, Hm in G2 by done. rewrite flag_on_set_other in G1 by done.
      rewrite Z.mod_small by lia. rewrite flag_on_set_same, flag_on_set_other by done.
      apply not_true_iff_false in Hsh. rewrite E3 in Hsh.
      split_and!; try lia; try done.
  - right. right. intros b Hb Hon. cbn [i_flag]. destruct (decide (b = bit)) as [->|].
    + apply flag_on_set_same. by destruct Hcase as [[= -> -> ->]|[[= -> -> ->] _]].
    + rewrite flag_on_set_other; [done|]. set_unfold in Hb.
      destruct Hcase as [[= -> -> ->]|[[= -> -> ->] _]]; destruct Hb as [->|[->|[->|[]]]]; done.
Qed.

Lemma lookup_insert_file k fp f g : k_file k !! fp = Some f -> <[fp := g]> (k_file k) !! fp = Some g.
Proof. intros Hf. apply list_lookup_insert_eq. by eapply lookup_lt_Some. Qed.

(** An attempt to lock when the file itself holds no lock in the way. *)
Lemma lock_pass_ok P k0 X R u k fp f ip cmd fuel :
  kern_ok X R k -> keeps P k0 k -> k_file k !! fp = Some f -> f_data f = Some ip ->
  0 < f_count f /\ f_type f = DTYPE_INODE ->
  (flag_on (f_flag f) FEXLOCK = false \/ flag_on (i_flag (inode_of k ip)) IEXLOCK = false) ->
  (flag_on (f_flag f) FSHLOCK = false \/ flag_on cmd LOCK_EX && flag_on (i_flag (inode_of k ip)) ISHLOCK = false) ->
  wp (ino_lock_loop (S fuel) fp ip cmd) (lock_done P k0 X R u k fp f ip cmd) (u, k).
Proof.
  intros Hk Hkeep Hf Hd Hc Hex Hsh.
  assert (forall e, e = EWOULDBLOCK -> flag_on cmd LOCK_NB = true ->
    wp (mret (LDone e)) (lock_done P k0 X R u k fp f ip cmd) (u, k)) as Hnb.
  { intros e -> Hb. apply wp_ret. exists (f_flag f), k. split_and!; try done; [by apply same_file_insert|by left]. }
  cbn [ino_lock_loop]. apply wp_bind. wp_step. apply wp_bind. wp_step. cbn beta zeta.
  destruct (flag_on (i_flag (inode_of k ip)) IEXLOCK) eqn:E1.
  { destruct Hex as [Hex|]; [|done]. rewrite Hex. case_if; [by apply Hnb|]. apply lock_sleep_ok; auto. }
  destruct (flag_on cmd LOCK_EX && flag_on (i_flag (inode_of k ip)) ISHLOCK) eqn:E2.
  { destruct Hsh as [Hsh|]; [|done]. rewrite Hsh. case_if; [by apply Hnb|]. apply lock_sleep_ok; auto. }
  pose proof Hk as (_&Hl&_). destruct (Hl ip) as (L1&L2&L3&L4&L5&L6).
  assert (flag_on (f_flag f) FEXLOCK = false) as Efx.
  { apply not_true_iff_false. intros Efx. apply not_true_iff_false in E1. rewrite L4 in E1.
    destruct (locked_file _ _ _ _ _ _ FEXLOCK Hk Hf Hd ltac:(set_solver) Efx). lia. }
  apply wp_bind. destruct (flag_on cmd LOCK_EX) eqn:E3.
  - eapply wp_mono; [apply (lock_bit_ok P k0 X R u k fp f ip FEXLOCK IEXLOCK false); auto|].
    intros [] s' (k'&->&Hk'&Hkeep'&Ek').
    apply wp_bind. eapply wp_rd_file; [by rewrite Ek', (lookup_insert_file _ _ _ _ Hf)|].
    rewrite flag_on_clr_same. simpl andb. wp_run. exists (flag_set (f_flag f) FEXLOCK), k'.
    split_and!; try done. right. rewrite E3. split_and!; [done| |done]. intros _. by apply flag_on_set_same.
  - apply wp_ret. apply wp_bind. wp_step. apply wp_bind.
    destruct (flag_on cmd LOCK_SH && negb (flag_on (f_flag f) FSHLOCK)) eqn:E4; bool_to_prop.
    + eapply wp_mono; [apply (lock_bit_ok P k0 X R u k fp f ip FSHLOCK ISHLOCK true); auto|].
      intros [] s' (k'&->&Hk'&Hkeep'&Ek'). wp_run. exists (flag_set (f_flag f) FSHLOCK), k'.
      split_and!; try done. right. rewrite E3. split_and!; [done|done|]. intros _ _. by apply flag_on_set_same.
    + wp_run. exists (f_flag f), k. split_and!; try done; [by apply same_file_insert|]. right. rewrite E3.
      split_and!; [done|done|]. intros _ Esh. rewrite Esh in E4. simpl in E4. by apply negb_false_iff.
Qed.

Lemma ino_lock_loop_ok P k0 X R u k fp f ip cmd :
  kern_ok X R k -> keeps P k0 k -> k_file k !! fp = Some f -> f_data f = Some ip ->
  0 < f_count f /\ f_type f = DTYPE_INODE ->
  wp (ino_lock_loop 3 fp ip cmd) (lock_done P k0 X R u k fp f ip cmd) (u, k).
Proof.
  intros Hk Hkeep Hf Hd Hc.
  assert (forall m, m ∈ [FSHLOCK; FEXLOCK] -> flag_on (f_flag f) m = true ->
    wp (ino_unlock fp m;; ino_lock_loop 2 fp ip cmd) (lock_done P k0 X R u k fp f ip cmd) (u, k)) as Hown.
  { intros m Hm Hon. apply wp_bind. eapply wp_mono; [apply (ino_unlock_ok P k0 X R u k fp f ip m); try done; set_solver|].
    intros [] s' (g&(k'&->&Hk'&Hkeep'&Ek')&Hg&Hgm).
    assert (flag_on g FSHLOCK = false /\ flag_on g FEXLOCK = false) as [G1 G2].
    { destruct (flag_on (f_flag f) FSHLOCK) eqn:F1, (flag_on (f_flag f) FEXLOCK) eqn:F2;
        [by destruct (one_lock _ _ _ _ _ _ Hk Hf Hd F1 F2)|..]; set_unfold in Hm;
        destruct Hm as [->|[->|[]]]; try congruence; split; try done;
        destruct Hg as [->|[->| ->]]; rewrite ?flag_on_clr_same, ?flag_on_clr_other by done; done. }
    eapply wp_mono; [apply (lock_pass_ok P k0 X R u k' fp (set_f_flag g f)); try done; [|by left|by left]|].
    - by rewrite Ek', (lookup_insert_file _ _ _ _ Hf).
    - intros r s'' (g'&k''&->&Hk''&Hkeep''&Ek''&Hr). exists g', k''. split_and!; try done.
      rewrite Ek'', Ek', list_insert_insert_eq. done. }
  destruct (decide (flag_on (f_flag f) FEXLOCK = true /\ flag_on (i_flag (inode_of k ip)) IEXLOCK = true)) as [[E1 E2]|E1].
  { cbn [ino_lock_loop]. apply wp_bind. wp_step. apply wp_bind. wp_step. cbn beta zeta. rewrite E1, E2.
    apply Hown; [set_solver|done]. }
  destruct (decide (flag_on (f_flag f) FSHLOCK = true /\ flag_on cmd LOCK_EX && flag_on (i_flag (inode_of k ip)) ISHLOCK = true)) as [[E2 E3]|E2].
  { cbn [ino_lock_loop]. apply wp_bind. wp_step. apply wp_bind. wp_step. cbn beta zeta. rewrite E2, E3.
    destruct (flag_on (i_flag (inode_of k ip)) IEXLOCK) eqn:E4; [|apply Hown; [set_solver|done]].
    exfalso. pose proof Hk as (_&Hl&_). destruct (Hl ip) as (L1&L2&L3&L4&L5&L6). apply andb_true_iff in E3 as [_ E3].
    apply L3 in E3. apply L4 in E4. lia. }
  apply lock_pass_ok; try done.
  - destruct (flag_on (f_flag f) FEXLOCK), (flag_on (i_flag (inode_of k ip)) IEXLOCK); naive_solver.
  - destruct (flag_on (f_flag f) FSHLOCK), (flag_on cmd LOCK_EX && flag_on (i_flag (inode_of k ip)) ISHLOCK); naive_solver.
Qed.
End Locks.

End Fileinv.
