(* ===== verification/Fdesc.v ===== *)
(** What the operations on descriptors of Descrip.v keep: the reference count
    of every open file is the number of descriptors that point at it, the
    high-water mark bounds the open descriptors, and a process waits for a
    lock only while the lock it waits for is taken. *)
From S2P Require Import Prelude Proc Descrip Fileinv.
Import Descrip Fileinv.

Module Fdesc.

(** ** Reference counts *)
Section Desc.
Context {W : Type} `{InodeLayer W}.
Implicit Types (u : user) (k : kern W) (f : file) (fp ip : nat).

Definition delta (fp i : nat) : Z := if decide (i = fp) then 1 else 0.

Lemma kern_lookup X R k fp : kern_ok X R k -> (fp < NFILE)%nat -> exists f, k_file k !! fp = Some f.
Proof. intros ([Hlen _]&_&_) Hfp. apply lookup_lt_is_Some_2. by rewrite Hlen. Qed.
Lemma kern_world X R P k0 k w : kern_ok X R k -> keeps P k0 k -> kern_ok X R (set_k_world w k) /\ keeps P k0 (set_k_world w k).
Proof. done. Qed.

(** The count of a file goes up or down by one. *)
Lemma count_ok P k0 X R R' k fp f c :
  kern_ok X R k -> keeps P k0 k -> k_file k !! fp = Some f -> c = R' fp -> (forall i, i <> fp -> R' i = R i) ->
  0 < c -> 0 < f_count f ->
  kern_ok X R' (set_k_file (<[fp := set_f_count c f]> (k_file k)) k) /\
  keeps P k0 (set_k_file (<[fp := set_f_count c f]> (k_file k)) k).
Proof.
  intros Hk Hkeep Hf Hc HR Hpos Hpos'. destruct Hk as ([Hlen Hfs]&Hk'). destruct (Hfs fp f Hf) as (E1&E2&E3).
  apply (kern_upd_ok P k0 X X R R' k fp f (set_f_count c f)); try done.
  - intros Hb. split; [done|]. by apply E2.
  - destruct E3 as [E3|E3]; [left|by right]. intros _. by apply E3.
  - by left.
Qed.

(** The last reference to a file goes away. *)
Lemma fo_close_ok P k0 R u k fp f :
  kern_ok [] R k -> keeps P k0 k -> k_file k !! fp = Some f -> 0 < f_count f -> lock_bits f = false -> ~ P fp ->
  wp (fo_close fp) (fun _ s' => exists k', s' = (u, k') /\ kern_ok [fp] R k' /\ keeps P k0 k' /\
    exists d, k_file k' = <[fp := set_f_data d f]> (k_file k)) (u, k).
Proof.
  intros Hk Hkeep Hf Hpos Hlk HP. pose proof Hk as ([Hlen Hfs]&_). destruct (Hfs fp f Hf) as (E1&E2&[E3|E3]); [|set_solver].
  destruct (E3 Hpos) as (Ht&ip&Hd). unfold fo_close. apply wp_bind. wp_step.
  destruct Ht as [-> | ->]; cbn.
  - unfold vn_closefile. apply wp_bind. wp_step. rewrite Hd.
    destruct (kern_upd_ok P k0 [] [fp] R R k fp f (set_f_data None f)) as [R1 R2]; try done.
    + right. set_solver.
    + set_solver.
    + by right.
    + wp_run.
      eexists. split; [done|]. split_and!; [exact R1|exact R2|]. by exists None.
  - rewrite Hd. wp_run. eexists. split; [done|]. split_and!; [|exact Hkeep|].
    + destruct Hk as (?&?&?). split_and!; [|done|done]. eapply files_ok_weaken; [done..|set_solver].
    + exists (Some ip). simpl. symmetry. destruct f; simpl in *; subst. by apply list_insert_id.
Qed.

Lemma closef_ok P k0 R u k fp :
  kern_ok [] (fun i => R i + delta fp i) k -> keeps P k0 k -> (fp < NFILE)%nat ->
  0 <= R fp -> (P fp -> 0 < R fp) ->
  wp (closef (Some fp)) (fun _ s' => exists k', s' = (u, k') /\ kern_ok [] R k' /\ keeps P k0 k') (u, k).
Proof.
  intros Hk Hkeep Hfp HR HP. destruct (kern_lookup _ _ _ _ Hk Hfp) as [f Hf].
  pose proof Hk as ([Hlen Hfs]&_). destruct (Hfs fp f Hf) as (E1&E2&[E3|E3]); [|set_solver].
  unfold delta in E1. rewrite decide_True in E1 by done.
  unfold closef. apply wp_bind. wp_step. case_if.
  - wp_run. eexists. split; [done|]. eapply (count_ok P k0 _ _ R); try done; try lia.
    intros i Hi. unfold delta. rewrite decide_False by done. lia.
  - assert (~ P fp) as HnP by (intros HPf; specialize (HP HPf); lia).
    destruct (E3 ltac:(lia)) as (Ht&ip&Hd).
    assert (forall f' k', kern_ok [] (fun i => R i + delta fp i) k' -> keeps P k0 k' -> k_file k' !! fp = Some f' ->
      0 < f_count f' -> lock_bits f' = false ->
      wp (error ← fo_close fp; upd_file fp (set_f_count 0);; mret error)
        (fun _ s' => exists k', s' = (u, k') /\ kern_ok [] R k' /\ keeps P k0 k') (u, k')) as Hlast.
    { intros f' k' Hk' Hkeep' Hf' Hpos Hlk. apply wp_bind.
      eapply wp_mono; [by apply (fo_close_ok P k0 (fun i => R i + delta fp i) u k' fp f')|].
      intros e s' (k2&->&Hk2&Hkeep2&d&E2k). apply wp_bind.
      assert (k_file k2 !! fp = Some (set_f_data d f')) as Hf2.
      { rewrite E2k. by apply (lookup_insert_file k' fp f'). }
      eapply wp_upd_file; [exact Hf2|]. wp_run. eexists. split; [done|].
      eapply (kern_upd_ok P k0 [fp] []); [exact Hk2|exact Hkeep2|exact Hf2|..]; try done.
      - simpl. lia.
      - intros i Hi. unfold delta. rewrite decide_False by done. lia.
      - intros Hb. exfalso. unfold lock_bits in *. simpl in Hb. congruence.
      - left. intros Hc. simpl in Hc. lia.
      - set_solver. 
      - by right. }
    apply wp_bind. destruct (lock_bits f) eqn:Hlb; unfold lock_bits in Hlb; rewrite Hlb; simpl andb.
    + destruct (E2 Hlb) as [Hpos Hty]. rewrite Hty. cbn [Z.eqb DTYPE_INODE Pos.eqb].
      eapply wp_mono; [eapply (ino_unlock_ok P k0 _ _ u k fp f ip); [done..|set_solver]|].
      intros [] s' (g&(k'&->&Hk'&Hkeep'&Ek')&_&Hg). 
      apply (Hlast (set_f_flag g f)); try done. rewrite Ek'. by apply (lookup_insert_file k fp f).
    + apply wp_ret. apply (Hlast f); try done. lia.
Qed.

(** ** Descriptor tables *)

Lemma getf_ok u k fd (Q : option nat -> st (W := W) -> Prop) :
  user_ok u ->
  Q None (set_u_error EBADF u, k) ->
  (forall fp, 0 <= fd < NOFILE -> u_ofile u !! Z.to_nat fd = Some (Some fp) -> Q (Some fp) (u, k)) ->
  wp (getf fd) Q (u, k).
Proof.
  intros (Hlen&_) Hn Hs. unfold getf. destruct ((fd <? 0) || (NOFILE <=? fd)) eqn:E.
  - by wp_run.
  - bool_to_prop. destruct (lookup_lt_is_Some_2 (u_ofile u) (Z.to_nat fd)) as [x Hx]; [lia|].
    apply wp_bind. eapply wp_rd_ofile; [lia|exact Hx|]. destruct x as [fp|]; wp_run; [by apply Hs|done].
Qed.
Lemma GETF_ok u k fd body (Q : () -> st (W := W) -> Prop) :
  user_ok u -> Q () (set_u_error EBADF u, k) ->
  (forall fp, 0 <= fd < NOFILE -> u_ofile u !! Z.to_nat fd = Some (Some fp) -> wp (body fp) Q (u, k)) ->
  wp (GETF fd body) Q (u, k).
Proof.
  intros Hu Hn Hs. unfold GETF. apply wp_bind. apply getf_ok; [done|by apply wp_ret|]. intros fp Hfd Hfp. by apply Hs.
Qed.

(** The new descriptor of ufalloc: the lowest free one from [i] on. *)
Definition fd_taken u (r : Z) : user :=
  let u := set_u_pofile (<[Z.to_nat r := 0]> (u_pofile u)) (set_u_rval r u) in
  if u_lastfile u <? r then set_u_lastfile r u else u.
Definition lowest_free u (i r : Z) : Prop :=
  i <= r < NOFILE /\ u_ofile u !! Z.to_nat r = Some None /\
  forall j, i <= j < r -> exists fp, u_ofile u !! Z.to_nat j = Some (Some fp).
Definition none_free u (i : Z) : Prop :=
  forall j, i <= j < NOFILE -> exists fp, u_ofile u !! Z.to_nat j = Some (Some fp).

Lemma ufalloc_ok u k i (Q : Z -> st (W := W) -> Prop) :
  user_ok u -> 0 <= i ->
  (none_free u i -> Q (-1) (set_u_error EMFILE u, k)) ->
  (forall r, lowest_free u i r -> Q r (fd_taken u r, k)) ->
  wp (ufalloc i) Q (u, k).
Proof.
  intros (Hlen&Hplen&_) Hi Hfull Hfree. unfold ufalloc.
  assert (forall n j, i <= j -> n = Z.to_nat (NOFILE - j) ->
    (forall a, i <= a < j -> exists fp, u_ofile u !! Z.to_nat a = Some (Some fp)) ->
    wp (ufalloc_loop n j) Q (u, k)) as Hgen; [|by apply (Hgen _ i); [lia| |lia]].
  induction n as [|n IH]; intros j Hj Hn Hall; cbn [ufalloc_loop].
  - wp_run. apply Hfull. intros a Ha. apply Hall. lia.
  - destruct (lookup_lt_is_Some_2 (u_ofile u) (Z.to_nat j)) as [x Hx]; [lia|].
    apply wp_bind. eapply wp_rd_ofile; [lia|exact Hx|]. destruct x as [fp|].
    + apply IH; [lia|lia|]. intros a Ha. destruct (decide (a = j)) as [->|]; [eauto|]. apply Hall. lia.
    + wp_run. apply wp_bind. apply wp_wr_pofile; [simpl; lia|]. wp_run. apply (Hfree j). split_and!; [lia|lia|done..].
Qed.

(** user_ok depends on the table and the high-water mark only. *)
Lemma user_ok_same u u' :
  user_ok u -> u_ofile u' = u_ofile u -> u_lastfile u' = u_lastfile u -> length (u_pofile u') = length (u_pofile u) ->
  user_ok u'.
Proof. intros (H1&H2&H3&H4) E1 E2 E3. unfold user_ok. by rewrite E1, E2, E3. Qed.
Lemma user_ok_fd u u' fd x :
  user_ok u -> 0 <= fd < NOFILE -> (forall i, x = Some i -> (i < NFILE)%nat) ->
  u_ofile u' = <[Z.to_nat fd := x]> (u_ofile u) ->
  u_lastfile u' = (if u_lastfile u <? fd then fd else u_lastfile u) -> length (u_pofile u') = length (u_pofile u) ->
  user_ok u'.
Proof.
  intros (H1&H2&H3&H4) Hfd Hx E1 E2 E3. unfold user_ok. rewrite E1, E2, E3, length_insert.
  split_and!; [done|done| |case_if; lia|case_if; lia].
  intros j i. destruct (decide (j = Z.to_nat fd)) as [->|Hj].
  - rewrite list_lookup_insert_eq by lia. intros [= ->]. split; [by apply Hx|]. case_if; lia.
  - rewrite list_lookup_insert_ne by done. intros Hl. destruct (H3 j i Hl). split; [done|]. case_if; lia.
Qed.
Lemma fd_taken_ok u r : user_ok u -> 0 <= r < NOFILE -> user_ok (fd_taken u r) /\ u_ofile (fd_taken u r) = u_ofile u.
Proof.
  intros Hu Hr. unfold fd_taken. cbn [u_lastfile set_u_pofile set_u_rval]. split; [|by case_if].
  destruct (lookup_lt_is_Some_2 (u_ofile u) (Z.to_nat r)) as [x Hx]; [destruct Hu as (->&_); lia|].
  apply (user_ok_fd u _ r x); [done|done| | |by case_if|].
  - intros i ->. destruct Hu as (_&_&Hu&_). by destruct (Hu _ _ Hx).
  - rewrite (list_insert_id _ _ _ Hx). by case_if.
  - case_if; simpl; by rewrite length_insert.
Qed.

Lemma fd_taken_last u r : r <= u_lastfile (fd_taken u r).
Proof. unfold fd_taken. cbn [u_lastfile set_u_pofile set_u_rval]. destruct (Z.ltb_spec (u_lastfile u) r); simpl; lia. Qed.

(** ** The operations *)
Section Inv.
Context (P : nat -> Prop) (k0 : kern W) (oth : nat -> Z).
Context (Hoth : forall i, 0 <= oth i <= 1000) (HP : forall fp, P fp -> 0 < oth fp).

(** The references to file [i] from the table [l] and from other processes. *)
Definition refs (l : list (option nat)) (i : nat) : Z := Z.of_nat (nrefs i l) + oth i.
Definition invx (X : list nat) (s : st (W := W)) : Prop :=
  user_ok s.1 /\ kern_ok X (refs (u_ofile s.1)) s.2 /\ keeps P k0 s.2.
Definition inv : st (W := W) -> Prop := invx [].

Lemma refs_clear l j fp i : l !! j = Some (Some fp) -> refs (<[j := None]> l) i + delta fp i = refs l i.
Proof.
  intros Hj. pose proof (nrefs_insert i l j (Some fp) None Hj) as E. unfold refs, delta, is_ref in *.
  repeat case_decide; simplify_eq; lia.
Qed.
Lemma refs_set l j x fp i : l !! j = Some x -> refs (<[j := Some fp]> l) i = refs (<[j := None]> l) i + delta fp i.
Proof.
  intros Hj. rewrite <- (refs_clear (<[j := Some fp]> l) j fp); [by rewrite list_insert_insert_eq|].
  apply list_lookup_insert_eq. by eapply lookup_lt_Some.
Qed.
Lemma refs_pos l j fp : l !! j = Some (Some fp) -> 0 < refs l fp.
Proof. intros Hj. apply nrefs_pos in Hj. pose proof (Hoth fp). unfold refs. lia. Qed.
Lemma refs_bound u i : user_ok u -> 0 <= refs (u_ofile u) i <= 1030.
Proof.
  intros (Hlen&_). pose proof (nrefs_le i (u_ofile u)). pose proof (Hoth i).
  change (Z.to_nat NOFILE) with 30%nat in Hlen. unfold refs. lia.
Qed.
Lemma inv_user_same u u' X k :
  invx X (u, k) -> u_ofile u' = u_ofile u -> u_lastfile u' = u_lastfile u -> length (u_pofile u') = length (u_pofile u) ->
  invx X (u', k).
Proof.
  intros (H1&H2&H3) E1 E2 E3. split_and!; [by apply (user_ok_same u)| |done]. simpl. by rewrite E1.
Qed.

Definition dup_user u (fd : Z) (fp : nat) (fl : Z) : user :=
  let u := set_u_pofile (<[Z.to_nat fd := s8 fl]> (u_pofile u)) (set_u_ofile (<[Z.to_nat fd := Some fp]> (u_ofile u)) u) in
  if u_lastfile u <? fd then set_u_lastfile fd u else u.
Lemma dup_user_ok u fd fp fl :
  user_ok u -> 0 <= fd < NOFILE -> (fp < NFILE)%nat ->
  user_ok (dup_user u fd fp fl) /\ u_ofile (dup_user u fd fp fl) = <[Z.to_nat fd := Some fp]> (u_ofile u).
Proof.
  intros Hu Hfd Hfp. unfold dup_user. cbn [u_lastfile set_u_pofile set_u_ofile]. split; [|by case_if].
  apply (user_ok_fd u _ fd (Some fp)); [done|done|by intros i [= <-]|by case_if|by case_if|].
  case_if; simpl; by rewrite length_insert.
Qed.

(** A descriptor more for the file [fp], in an entry [fd] that counts no more. *)
Lemma dup_state_ok u k fd fp fl f :
  user_ok u -> 0 <= fd < NOFILE -> kern_ok [] (refs (<[Z.to_nat fd := None]> (u_ofile u))) k -> keeps P k0 k ->
  k_file k !! fp = Some f -> 0 < f_count f ->
  u32 (f_count f + 1) = f_count f + 1 /\
  inv (dup_user u fd fp fl, set_k_file (<[fp := set_f_count (f_count f + 1) f]> (k_file k)) k).
Proof.
  intros Hu Hfd Hk Hkeep Hf Hpos. pose proof Hu as (Hlen&Hplen&_).
  pose proof Hk as ([Hflen Hfs]&_). destruct (Hfs fp f Hf) as (E1&_).
  assert (fp < NFILE)%nat as Hfp by (rewrite <- Hflen; by eapply lookup_lt_Some).
  destruct (dup_user_ok u fd fp fl Hu Hfd Hfp) as [Hu' Eo].
  destruct (lookup_lt_is_Some_2 (u_ofile u) (Z.to_nat fd)) as [x Hx]; [lia|].
  pose proof (nrefs_le fp (<[Z.to_nat fd := None]> (u_ofile u))) as Hle. rewrite length_insert, Hlen in Hle.
  pose proof (Hoth fp). unfold refs in E1. change (Z.to_nat NOFILE) with 30%nat in Hle.
  split; [apply u32_small; lia|].
  destruct (count_ok P k0 [] _ (refs (<[Z.to_nat fd := Some fp]> (u_ofile u))) k fp f (f_count f + 1) Hk Hkeep Hf) as [R1 R2];
    try done; try lia.
  { rewrite (refs_set _ _ _ _ _ Hx). unfold delta, refs. rewrite decide_True by done. lia. }
  { intros i Hi. rewrite (refs_set _ _ _ _ _ Hx). unfold delta. rewrite decide_False by done. lia. }
  split_and!; [exact Hu'| |exact R2]. cbn [fst snd]. rewrite Eo. exact R1.
Qed.
Lemma dupit_ok u k fd fp fl f (Q : () -> st (W := W) -> Prop) :
  user_ok u -> 0 <= fd < NOFILE -> kern_ok [] (refs (<[Z.to_nat fd := None]> (u_ofile u))) k -> keeps P k0 k ->
  k_file k !! fp = Some f -> 0 < f_count f ->
  (forall s', s' = (dup_user u fd fp fl, set_k_file (<[fp := set_f_count (f_count f + 1) f]> (k_file k)) k) ->
     inv s' -> Q () s') ->
  wp (dupit fd fp fl) Q (u, k).
Proof.
  intros Hu Hfd Hk Hkeep Hf Hpos HQ. pose proof Hu as (Hlen&Hplen&_).
  destruct (dup_state_ok u k fd fp fl f) as [E Hinv]; try done.
  unfold dupit. apply wp_bind, wp_wr_ofile; [lia|]. apply wp_bind, wp_wr_pofile; [simpl; lia|].
  wp_run. rewrite E. by apply HQ.
Qed.

(** [l] is the highest open descriptor, -1 when there is none. *)
Definition highest (o : list (option nat)) (l : Z) : Prop :=
  -1 <= l < NOFILE /\ (forall j i, o !! j = Some (Some i) -> Z.of_nat j <= l) /\
  (0 <= l -> exists i, o !! Z.to_nat l = Some (Some i)).

Lemma trim_lastfile_ok u k (Q : () -> st (W := W) -> Prop) :
  user_ok u -> (forall l, highest (u_ofile u) l -> user_ok (set_u_lastfile l u) -> Q () (set_u_lastfile l u, k)) ->
  wp (trim_lastfile (S (Z.to_nat NOFILE))) Q (u, k).
Proof.
  intros Hu HQ.
  assert (forall n l, -1 <= l < Z.of_nat n - 1 -> user_ok (set_u_lastfile l u) ->
    wp (trim_lastfile n) Q (set_u_lastfile l u, k)) as Hgen.
  { induction n as [|n IH]; intros l Hl Hul; [lia|]. pose proof Hul as (Hlen&Hpl&Ho&Hb). cbn [u_ofile u_lastfile set_u_lastfile u_pofile] in *.
    cbn [trim_lastfile]. apply wp_bind, wp_getu. cbn [fst u_lastfile set_u_lastfile]. case_if.
    - wp_run. apply HQ; [|done]. split_and!; [lia|lia| |lia]. intros j i Hj. by destruct (Ho j i Hj).
    - destruct (lookup_lt_is_Some_2 (u_ofile u) (Z.to_nat l)) as [x Hx]; [lia|].
      apply wp_bind. eapply wp_rd_ofile; [lia|exact Hx|]. destruct x as [fp|].
      + wp_run. apply HQ; [|done]. split_and!; [lia|lia| |eauto]. intros j i Hj. by destruct (Ho j i Hj).
      + wp_run. apply IH; [lia|]. split_and!; cbn [u_ofile u_lastfile set_u_lastfile u_pofile]; try done; [|lia|lia].
        intros j i Hj. destruct (Ho j i Hj). split; [done|]. destruct (decide (Z.of_nat j = l)) as [<-|]; [|lia].
        rewrite Nat2Z.id in Hx. congruence. }
  pose proof Hu as (_&_&_&Hb). replace u with (set_u_lastfile (u_lastfile u) u) at 1 by by destruct u.
  apply Hgen; [unfold NOFILE in *; lia|by destruct u].
Qed.

(** A descriptor is taken out of the table, and its reference given up. *)
Lemma clear_fd_ok u fd fp :
  user_ok u -> 0 <= fd -> u_ofile u !! Z.to_nat fd = Some (Some fp) ->
  user_ok (set_u_ofile (<[Z.to_nat fd := None]> (u_ofile u)) u).
Proof.
  intros Hu Hfd Hx. pose proof Hu as (_&_&Ho&Hb). destruct (Ho _ _ Hx).
  apply (user_ok_fd u _ fd None); try done; [lia|]. simpl. case_if; lia.
Qed.
Lemma drop_ref_ok u k l j fp :
  kern_ok [] (refs l) k -> keeps P k0 k -> l !! j = Some (Some fp) -> (fp < NFILE)%nat ->
  wp (closef (Some fp)) (fun _ s' => exists k', s' = (u, k') /\ kern_ok [] (refs (<[j := None]> l)) k' /\ keeps P k0 k') (u, k).
Proof.
  intros Hk Hkeep Hj Hfp. apply closef_ok; try done.
  - eapply kern_ok_R; [exact Hk|]. intros i. by apply refs_clear.
  - pose proof (Hoth fp). unfold refs. lia.
  - intros HPf%HP. unfold refs. lia.
Qed.

Lemma close_ok u k fd :
  inv (u, k) -> wp (close fd) (fun _ s' => inv s') (u, k).
Proof.
  intros (Hu&Hk&Hkeep). cbn [fst snd] in *. unfold close. apply GETF_ok; [done|by apply (inv_user_same u)|].
  intros fp Hfd Hx. pose proof Hu as (Hlen&_&Ho&_). destruct (Ho _ _ Hx) as [Hfp _].
  apply wp_bind, wp_wr_ofile; [lia|]. apply wp_bind. apply trim_lastfile_ok; [by eapply clear_fd_ok; [|lia|]|].
  intros l _ Hu'. apply wp_bind. eapply wp_mono; [by apply (drop_ref_ok _ k (u_ofile u) (Z.to_nat fd))|].
  intros e s' (k'&->&Hk'&Hkeep'). wp_run. split_and!; [|exact Hk'|done].
  by apply (user_ok_same _ _ Hu').
Qed.

Lemma dup2_ok u k i j : inv (u, k) -> wp (dup2 i j) (fun _ s' => inv s') (u, k).
Proof.
  intros Hinv. pose proof Hinv as (Hu&Hk&Hkeep). cbn [fst snd] in *. unfold dup2.
  apply GETF_ok; [done|by apply (inv_user_same u)|]. intros fp Hi Hx. pose proof Hu as (Hlen&Hplen&Ho&_).
  case_if; [by wp_run; apply (inv_user_same u)|]. bool_to_prop.
  apply wp_bind, wp_modu. case_if; [by wp_run; apply (inv_user_same u)|].
  destruct (lookup_lt_is_Some_2 (u_ofile u) (Z.to_nat j)) as [y Hy]; [lia|].
  apply wp_bind. eapply wp_rd_ofile; [lia|exact Hy|]. apply wp_bind.
  assert (Z.to_nat j <> Z.to_nat i) as Hij by lia.
  assert (forall k', kern_ok [] (refs (<[Z.to_nat j := None]> (u_ofile u))) k' -> keeps P k0 k' ->
    wp (fl ← rd_pofile i; dupit j fp (flag_clr fl UF_EXCLOSE)) (fun _ s' => inv s') (set_u_rval j u, k')) as Hdup.
  { intros k' Hk' Hkeep'. destruct (lookup_lt_is_Some_2 (u_pofile u) (Z.to_nat i)) as [fl Hfl]; [lia|].
    apply wp_bind. eapply wp_rd_pofile; [lia|exact Hfl|]. destruct (Ho _ _ Hx) as [Hfp _].
    destruct (kern_lookup _ _ _ _ Hk' Hfp) as [f Hf]. pose proof Hk' as ([_ Hfs]&_). destruct (Hfs _ _ Hf) as (E1&_).
    apply (dupit_ok _ k' j fp _ f); [by apply (user_ok_same u)|lia|done|done|done| |done].
    rewrite E1. apply (refs_pos _ (Z.to_nat i)). by rewrite list_lookup_insert_ne. }
  destruct y as [fq|].
  - destruct (Ho _ _ Hy) as [Hfq _]. eapply wp_mono; [by apply (drop_ref_ok _ k (u_ofile u) (Z.to_nat j))|].
    intros e s' (k'&->&Hk'&Hkeep'). by apply Hdup.
  - apply wp_ret. apply Hdup; [|done]. by rewrite (list_insert_id _ _ _ Hy).
Qed.

(** dup and F_DUPFD: a new descriptor for the file of [fd], from [i] on. *)
Lemma dup_from_ok u k fd fp i :
  inv (u, k) -> 0 <= fd -> u_ofile u !! Z.to_nat fd = Some (Some fp) -> 0 <= i ->
  wp (j ← ufalloc i; if j <? 0 then mret () else fl ← rd_pofile fd; dupit j fp (flag_clr fl UF_EXCLOSE))
    (fun _ s' => inv s') (u, k).
Proof.
  intros Hinv Hfd Hx Hi. pose proof Hinv as (Hu&Hk&Hkeep). cbn [fst snd] in *. pose proof Hu as (Hlen&Hplen&Ho&_).
  apply wp_bind. apply ufalloc_ok; [done|done|..].
  - intros _. wp_run. by apply (inv_user_same u).
  - intros r (Hr&Hfree&_). destruct (fd_taken_ok u r Hu ltac:(lia)) as [Hu' Eo].
    case_if; [lia|]. destruct Hu' as (_&Hpl'&Hu'').
    destruct (lookup_lt_is_Some_2 (u_pofile (fd_taken u r)) (Z.to_nat fd)) as [fl Hfl].
    { rewrite Hpl'. destruct (Ho _ _ Hx). destruct Hu as (_&_&_&?). lia. }
    apply wp_bind. eapply wp_rd_pofile; [lia|exact Hfl|]. destruct (Ho _ _ Hx) as [Hfp _].
    destruct (kern_lookup _ _ _ _ Hk Hfp) as [f Hf]. pose proof Hk as ([_ Hfs]&_). destruct (Hfs _ _ Hf) as (E1&_).
    apply (dupit_ok _ k r fp _ f); [by apply fd_taken_ok; [|lia]|lia| |done|done| |done].
    + rewrite Eo, (list_insert_id _ _ _ Hfree). done.
    + rewrite E1. by apply (refs_pos _ (Z.to_nat fd)).
Qed.
Lemma dup_ok u k i j : inv (u, k) -> wp (dup i j) (fun _ s' => inv s') (u, k).
Proof.
  intros Hinv. unfold dup. case_if; [by apply dup2_ok|]. apply GETF_ok; [apply Hinv|by apply (inv_user_same u)|].
  intros fp Hi Hx. by apply dup_from_ok; [|lia| |].
Qed.

(** ** fcntl *)

Lemma flag_upd_ok u k fp f g :
  inv (u, k) -> k_file k !! fp = Some f ->
  flag_on g FSHLOCK = flag_on (f_flag f) FSHLOCK -> flag_on g FEXLOCK = flag_on (f_flag f) FEXLOCK ->
  inv (u, set_k_file (<[fp := set_f_flag g f]> (k_file k)) k).
Proof.
  intros (Hu&Hk&Hkeep) Hf E1 E2. cbn [fst snd] in *. pose proof Hk as ([_ Hfs]&_). destruct (Hfs fp f Hf) as (F1&F2&F3).
  destruct (kern_upd_ok P k0 [] [] (refs (u_ofile u)) (refs (u_ofile u)) k fp f (set_f_flag g f)); try done.
  - intros Hb. apply F2. destruct (lock_bits f) eqn:Eb; [done|]. apply lock_bits_off in Eb as [B1 B2].
    assert (lock_bits (set_f_flag g f) = false); [|congruence].
    apply lock_bits_off. cbn [f_flag set_f_flag]. by rewrite E1, E2.
  - by left.
Qed.

Definition typed k fp : Prop := exists f, k_file k !! fp = Some f /\ (f_type f = DTYPE_INODE \/ f_type f = DTYPE_PIPE).
Lemma fd_typed u k fd fp :
  inv (u, k) -> u_ofile u !! fd = Some (Some fp) -> exists f, k_file k !! fp = Some f /\ 0 < f_count f /\
    (f_type f = DTYPE_INODE \/ f_type f = DTYPE_PIPE) /\ is_Some (f_data f).
Proof.
  intros (Hu&Hk&_) Hx. cbn [fst snd] in *. destruct Hu as (_&_&Ho&_). destruct (Ho _ _ Hx) as [Hfp _].
  destruct (kern_lookup _ _ _ _ Hk Hfp) as [f Hf]. destruct Hk as ([_ Hfs]&_). destruct (Hfs _ _ Hf) as (E1&_&[E3|E3]); [|set_solver].
  pose proof (refs_pos _ _ _ Hx). destruct (E3 ltac:(lia)). exists f. split_and!; try done. lia.
Qed.
Lemma fioctl_ok u k fp cmd v (Q : Z * dptr -> st (W := W) -> Prop) :
  inv (u, k) -> typed k fp -> (forall r rv w, inv (set_u_rval rv u, set_k_world w k) -> Q r (set_u_rval rv u, set_k_world w k)) ->
  wp (fioctl fp cmd v) Q (u, k).
Proof.
  intros Hinv (f&Hf&Ht) HQ. unfold fioctl. apply wp_bind. wp_step.
  assert ((f_type f =? DTYPE_INODE) || (f_type f =? DTYPE_PIPE) = true) as -> by (by destruct Ht as [-> | ->]).
  wp_run. apply HQ. by apply (inv_user_same u).
Qed.
Lemma fset_ok u k fp bit v (Q : Z -> st (W := W) -> Prop) :
  inv (u, k) -> typed k fp -> bit ∈ [FNONBLOCK; FASYNC] -> 
  (forall r u' k', inv (u', k') -> u_ofile u' = u_ofile u -> typed k' fp -> Q r (u', k')) ->
  wp (fset fp bit v) Q (u, k).
Proof.
  intros Hinv (f&Hf&Ht) Hb HQ. unfold fset. apply wp_bind. eapply wp_upd_file; [exact Hf|].
  set (g := if v =? 0 then _ else _).
  assert (inv (u, set_k_file (<[fp := set_f_flag g f]> (k_file k)) k)) as Hinv'.
  { apply flag_upd_ok; try done; unfold g; set_unfold in Hb; destruct Hb as [->|[->|[]]]; case_if;
      rewrite ?flag_on_set_other, ?flag_on_clr_other by done; done. }
  assert (typed (set_k_file (<[fp := set_f_flag g f]> (k_file k)) k) fp) as Ht'.
  { eexists. split; [by apply (lookup_insert_file k fp f)|done]. }
  apply wp_bind. apply fioctl_ok; [done|done|]. intros r rv w Hw. apply wp_ret. by apply HQ.
Qed.

Lemma fcntl_ok pt u k fd cmd arg :
  inv (u, k) -> (exists live, Proc.hash_wf pt live) ->
  wp (fcntl pt fd cmd arg) (fun _ s' => inv s') (u, k).
Proof.
  intros Hinv [live Hpt]. unfold fcntl. apply GETF_ok; [apply Hinv|by apply (inv_user_same u)|]. intros fp Hfd Hx.
  destruct (fd_typed u k _ fp Hinv Hx) as (f&Hf&Hpos&Ht&_). assert (typed k fp) as Hty by (by exists f).
  assert (forall e v, wp (r ← fioctl fp e v; mret r.1) (fun _ s' => inv s') (u, k)) as Hio.
  { intros e v. apply wp_bind, fioctl_ok; [done|done|]. intros. by apply wp_ret. }
  assert (length (u_pofile u) = Z.to_nat NOFILE) as Hpl by apply Hinv.
  destruct (lookup_lt_is_Some_2 (u_pofile u) (Z.to_nat fd)) as [fl Hfl]; [lia|].
  case_if.
  { case_if; [wp_run; by apply (inv_user_same u)|]. bool_to_prop. by apply dup_from_ok; [|lia|..]. }
  case_if. { apply wp_bind. eapply wp_rd_pofile; [lia|done|]. wp_run. by apply (inv_user_same u). }
  case_if.
  { apply wp_bind. eapply wp_rd_pofile; [lia|done|]. apply wp_wr_pofile; [lia|].
    apply (inv_user_same u); [done|done|done|]. simpl. by rewrite length_insert. }
  case_if. { wp_run. by apply (inv_user_same u). }
  case_if.
  { apply wp_bind. eapply wp_upd_file; [exact Hf|]. apply wp_bind. eapply wp_upd_file; [by apply (lookup_insert_file k fp f)|].
    cbn [k_file set_k_file]. rewrite list_insert_insert_eq. cbn [f_flag set_f_flag].
    set (g := flag_set _ _).
    change (set_f_flag g (set_f_flag _ f)) with (set_f_flag g f).
    match goal with |- wp _ _ (u, ?k1) => assert (inv (u, k1)) as Hinv'; [|assert (typed k1 fp) as Hty'] end.
    { apply (flag_upd_ok u k fp f g); [done|done| |]; unfold g; rewrite flag_on_set_other, flag_on_clr_other by
        (done || (rewrite <- Z.land_assoc; apply Z.land_0_r)); done. }
    { eexists. split; [by apply (lookup_insert_file k fp f)|done]. }
    apply wp_bind. eapply wp_rd_file; [by apply (lookup_insert_file k fp f)|]. 
    apply wp_bind. apply fset_ok; [done|done|set_solver|]. intros e u' k' Hi' Eo' Ht'. apply wp_bind, wp_modu.
    case_if; [wp_run; by apply (inv_user_same u')|]. destruct Ht' as (f'&Hf'&Ht').
    apply wp_bind. wp_step. apply wp_bind. apply fset_ok; [by apply (inv_user_same u')|by exists f'|set_solver|].
    intros e2 u2 k2 Hi2 Eo2 Ht2. apply wp_bind, wp_modu. case_if; [|wp_run; by apply (inv_user_same u2)].
    apply wp_bind. apply fset_ok; [by apply (inv_user_same u2)|done|set_solver|]. intros. by wp_run. }
  case_if.
  { apply wp_bind. unfold fgetown. apply wp_bind, fioctl_ok; [done|done|]. intros r rv w Hw. wp_run. by apply (inv_user_same (set_u_rval rv u)). }
  case_if.
  { apply wp_bind. eapply wp_mono with (Q := fun _ s' => inv s'); [|intros e [u' k'] Hi'; wp_run; by apply (inv_user_same u')].
    unfold fsetown. case_if; [|apply Hio]. destruct (Proc.pfind_live pt live arg Hpt) as (r&Er&Hr).
    apply wp_bind. exists r, (u, k). rewrite Er. split; [done|].
    destruct r as [p|]; [|by apply wp_ret]. destruct Hr as (_&q&Hq&_). apply wp_bind. exists q, (u, k).
    rewrite (rd_Some _ _ _ Hq). split; [done|]. apply Hio. }
  wp_run. by apply (inv_user_same u).
Qed.

(** ** Open files *)

Lemma free_file_ok u k n i (Q : option nat -> st (W := W) -> Prop) :
  length (k_file k) = NFILE -> (i + n <= NFILE)%nat ->
  ((forall j f, (i <= j < i + n)%nat -> k_file k !! j = Some f -> f_count f <> 0) -> Q None (u, k)) ->
  (forall j f, (i <= j < i + n)%nat -> k_file k !! j = Some f -> f_count f = 0 -> Q (Some j) (u, k)) ->
  wp (free_file n i) Q (u, k).
Proof.
  intros Hlen. revert i. induction n as [|n IH]; intros i Hin Hnone Hsome; cbn [free_file].
  - wp_run. apply Hnone. lia.
  - destruct (lookup_lt_is_Some_2 (k_file k) i) as [f Hf]; [lia|]. apply wp_bind. wp_step. case_if.
    + wp_run. eapply Hsome; [|done|done]. lia.
    + apply IH; [lia| |].
      * intros Hall. apply Hnone. intros j g Hj Hg. destruct (decide (j = i)) as [->|]; [by simplify_eq|]. eapply Hall; [|done]. lia.
      * intros j g Hj Hg. eapply Hsome; [|done]. lia.
Qed.

(** A new file for the descriptor [r]. *)
Definition new_fd u (r : Z) fp : user := set_u_ofile (<[Z.to_nat r := Some fp]> (u_ofile u)) (fd_taken u r).
Definition new_file f : file := set_f_offset 0 (set_f_data None (set_f_count 1 f)).

Lemma falloc_ok X u k (Q : option nat -> st (W := W) -> Prop) :
  invx X (u, k) ->
  (none_free u 0 -> invx X (set_u_error EMFILE u, k) -> Q None (set_u_error EMFILE u, k)) ->
  (forall r k1, lowest_free u 0 r -> (forall i f, k_file k !! i = Some f -> f_count f <> 0) -> k_file k1 = k_file k ->
     invx X (set_u_error ENFILE (fd_taken u r), k1) -> Q None (set_u_error ENFILE (fd_taken u r), k1)) ->
  (forall r fp f k1, lowest_free u 0 r -> k_file k !! fp = Some f -> f_count f = 0 -> lock_bits f = false -> ~ P fp ->
     user_ok (new_fd u r fp) -> k_file k1 = <[fp := new_file f]> (k_file k) -> k_inode k1 = k_inode k ->
     k_world k1 = k_world k ->
     kern_ok (fp :: X) (refs (u_ofile (new_fd u r fp))) k1 -> keeps P k0 k1 -> Q (Some fp) (new_fd u r fp, k1)) ->
  wp falloc Q (u, k).
Proof.
  intros Hinv Hm Hn Hs. pose proof Hinv as (Hu&Hk&Hkeep). cbn [fst snd] in *. unfold falloc. apply wp_bind.
  apply ufalloc_ok; [done|lia|intros Hnf; case_if; [|lia]; wp_run; by apply Hm, (inv_user_same u)|].
  intros r Hr. pose proof Hr as ((Hr0&Hr1)&Hfree&_). destruct (fd_taken_ok u r Hu ltac:(lia)) as [Hu' Eo].
  case_if; [lia|]. apply wp_bind, wp_modk.
  set (k1 := if k_lastf k is None then _ else k).
  assert (invx X (u, k1)) as Hinv1. { unfold k1. destruct (k_lastf k); [done|]. split_and!; try done. destruct Hk as (?&?&?). split_and!; try done. intros l [= <-]. lia. }
  assert (k_file k1 = k_file k /\ k_inode k1 = k_inode k /\ k_world k1 = k_world k) as (E1&E2&E3) by (unfold k1; by destruct (k_lastf k)).
  assert (exists l, k_lastf k1 = Some l /\ (l <= NFILE)%nat) as (l&El&Hl).
  { unfold k1. destruct (k_lastf k) as [l|] eqn:El; [|exists 0%nat; split; [done|lia]]. exists l. split; [done|]. by apply Hk. }
  clearbody k1. apply wp_bind, wp_getk. cbn [snd]. rewrite El. change (default 0%nat (Some l)) with l.
  pose proof Hinv1 as (_&Hk1&Hkeep1). cbn [fst snd] in *. pose proof Hk1 as ([Hlen Hfs]&Hlk1&Hla1).
  assert (forall fp f, k_file k1 !! fp = Some f -> f_count f = 0 ->
    wp (wr_ofile r (Some fp);; upd_file fp (fun f => set_f_offset 0 (set_f_data None (set_f_count 1 f)));;
        modk (set_k_lastf (Some (S fp)));; mret (Some fp)) Q (fd_taken u r, k1)) as Hslot.
  { intros fp f Hf Hc. destruct (Hfs fp f Hf) as (F1&F2&_).
    assert (fp < NFILE)%nat as Hfp by (rewrite <- Hlen; by eapply lookup_lt_Some).
    assert (lock_bits f = false) as Hlb. { destruct (lock_bits f) eqn:Hlb; [|done]. destruct (F2 Hlb). lia. }
    assert (~ P fp) as HnP. { intros HPf%HP. unfold refs in F1. lia. }
    assert (user_ok (new_fd u r fp)) as Hun.
    { apply (user_ok_fd (fd_taken u r) _ r (Some fp)); [done|lia|by intros ? [= <-]| |  |done]; unfold new_fd; rewrite ?Eo; try done.
      simpl. destruct (Z.ltb_spec (u_lastfile (fd_taken u r)) r) as [Hlt|]; [|done].
      pose proof (fd_taken_last u r). lia. }
    destruct (lookup_lt_is_Some_2 (u_ofile u) (Z.to_nat r)) as [x Hx]; [destruct Hu as (->&_); lia|].
    destruct (kern_upd_ok P k0 X (fp :: X) (refs (u_ofile u)) (refs (u_ofile (new_fd u r fp))) k1 fp f (new_file f)) as [R1 R2]; try done.
    - simpl. rewrite (refs_set _ _ _ _ _ Hx), (list_insert_id _ _ _ Hfree). unfold delta. rewrite decide_True by done. lia.
    - intros i Hi. simpl. rewrite (refs_set _ _ _ _ _ Hx), (list_insert_id _ _ _ Hfree). unfold delta. rewrite decide_False by done. lia.
    - intros Hb. unfold lock_bits in *. simpl in Hb. congruence.
    - right. set_solver.
    - set_solver.
    - by right.
    - apply wp_bind, wp_wr_ofile; [rewrite Eo; destruct Hu as (->&_); lia|]. rewrite Eo. wp_run.
      apply (Hs r fp f); try done; simpl; try congruence; [by rewrite E1|].
      destruct R1 as (?&?&_). split_and!; try done.
      intros l' [= <-]. lia. }
  apply wp_bind. apply free_file_ok; [done|lia| |].
  - intros Hn1. apply wp_bind. apply free_file_ok; [done|lia| |].
    + intros Hn2. wp_run. apply Hn; [done| |done|by apply (inv_user_same (fd_taken u r)); [split_and!; [..|done]; simpl; rewrite ?Eo|..]].
      intros i f Hf. rewrite <- E1 in Hf. pose proof (lookup_lt_Some _ _ _ Hf). destruct (decide (i < l)%nat); [eapply Hn2|eapply Hn1]; [|done| |done]; lia.
    + intros j f _ Hf Hc. by apply (Hslot j f).
  - intros j f _ Hf Hc. wp_run. by apply (Hslot j f).
Qed.

(** A change of a file that is being opened, and the end of its opening. *)
Lemma fresh_upd_ok X X' R k fp f f' :
  kern_ok X R k -> keeps P k0 k -> k_file k !! fp = Some f -> ~ P fp -> lock_bits f = false -> lock_bits f' = false ->
  f_count f' = f_count f -> (file_open f' \/ fp ∈ X') -> (forall i, i ∈ X -> i <> fp -> i ∈ X') ->
  kern_ok X' R (set_k_file (<[fp := f']> (k_file k)) k) /\ keeps P k0 (set_k_file (<[fp := f']> (k_file k)) k).
Proof.
  intros Hk Hkeep Hf HnP H1 H2 Hc Ho HX. pose proof Hk as ([_ Hfs]&_). destruct (Hfs fp f Hf) as (E1&_).
  apply (kern_upd_ok P k0 X X' R R k fp f f'); try done.
  - congruence.
  - intros Hb. congruence.
  - by right.
Qed.
(** A file that could not be opened is given back. *)
Lemma undo_file_ok X X' l j k fp f :
  kern_ok X (refs l) k -> keeps P k0 k -> k_file k !! fp = Some f -> ~ P fp -> lock_bits f = false ->
  l !! j = Some (Some fp) -> f_count f = 1 -> (forall i, i ∈ X -> i <> fp -> i ∈ X') ->
  kern_ok X' (refs (<[j := None]> l)) (set_k_file (<[fp := set_f_count 0 f]> (k_file k)) k) /\
  keeps P k0 (set_k_file (<[fp := set_f_count 0 f]> (k_file k)) k).
Proof.
  intros Hk Hkeep Hf HnP H1 Hj Hc HX. pose proof Hk as ([_ Hfs]&_). destruct (Hfs fp f Hf) as (E1&_).
  apply (kern_upd_ok P k0 X X' (refs l) _ k fp f (set_f_count 0 f)); try done.
  - simpl. pose proof (refs_clear l j fp fp Hj) as E. unfold delta in E. rewrite decide_True in E by done. lia.
  - intros i Hi. pose proof (refs_clear l j fp i Hj) as E. unfold delta in E. rewrite decide_False in E by done. lia.
  - intros Hb. unfold lock_bits in *. simpl in Hb. congruence.
  - left. intros Hp. simpl in Hp. lia.
  - by right.
Qed.

(** The lock of [ip] that [cmd] asks for is taken, and a waiter is announced. *)
Definition blocked k ip (cmd : Z) : Prop :=
  flag_on (i_flag (inode_of k ip)) ILWAIT = true /\
  (flag_on (i_flag (inode_of k ip)) IEXLOCK = true \/
   flag_on cmd LOCK_EX = true /\ flag_on (i_flag (inode_of k ip)) ISHLOCK = true).
(** A request for a lock that waits: one of the two locks, and not LOCK_NB. *)
Definition lock_cmd (cmd : Z) : Prop :=
  (flag_on cmd LOCK_EX = true \/ flag_on cmd LOCK_SH = true) /\ flag_on cmd LOCK_NB = false.
Definition sleeps_on k fp ip cmd : Prop :=
  (exists f, k_file k !! fp = Some f /\ f_data f = Some ip /\ f_type f = DTYPE_INODE) /\ blocked k ip cmd /\ lock_cmd cmd.

Lemma lock_done_inv u k fp f ip cmd r s' :
  user_ok u -> k_file k !! fp = Some f -> f_data f = Some ip -> f_type f = DTYPE_INODE ->
  flag_on cmd LOCK_EX = true \/ flag_on cmd LOCK_SH = true ->
  lock_done P k0 [] (refs (u_ofile u)) u k fp f ip cmd r s' ->
  inv s' /\ s'.1 = u /\ forall pri, r = LSleep pri -> sleeps_on s'.2 fp ip cmd.
Proof.
  intros Hu Hf Hd Ht Hcmd (g&k'&->&Hk'&Hkeep'&Ek'&Hr). split_and!; try done. intros pri ->. destruct Hr as (Hnb&Hlw&Hr).
  split; [|split; [split; [done|naive_solver]|done]]. exists (set_f_flag g f). cbn [snd]. rewrite Ek'. split_and!; try done. by apply (lookup_insert_file k fp f).
Qed.

Lemma flock_ok u k fd how :
  inv (u, k) ->
  wp (flock fd how) (fun r s' => inv s' /\ u_ofile s'.1 = u_ofile u /\ forall pri, r = LSleep pri ->
    0 <= fd < NOFILE /\ exists fp ip, u_ofile u !! Z.to_nat fd = Some (Some fp) /\
      sleeps_on s'.2 fp ip (if flag_on how LOCK_EX then flag_clr how LOCK_SH else how)) (u, k).
Proof.
  intros Hinv. unfold flock. apply wp_bind. apply getf_ok; [apply Hinv|wp_run; split_and!; try done; by apply (inv_user_same u)|].
  intros fp Hfd Hx. destruct (fd_typed u k _ fp Hinv Hx) as (f&Hf&Hpos&Ht&ip&Hd).
  apply wp_bind. wp_step. case_if; [wp_run; split_and!; try done; by apply (inv_user_same u)|].
  pose proof Hinv as (Hu&Hk&Hkeep). cbn [fst snd] in *.
  case_if.
  { apply wp_bind. eapply wp_mono; [eapply (ino_unlock_ok P k0 _ _ u k fp f ip); [done..|set_solver]|].
    intros [] s' (g&(k'&->&Hk'&Hkeep'&_)&_). by wp_run. }
  case_if; [by wp_run|]. cbn beta zeta. set (cmd := if flag_on how LOCK_EX then _ else _).
  assert (flag_on cmd LOCK_EX = true \/ flag_on cmd LOCK_SH = true) as Hcmd.
  { unfold cmd. destruct (flag_on how LOCK_EX) eqn:Ex; [left; by rewrite flag_on_clr_other|right].
    destruct (flag_on how LOCK_SH) eqn:Es; [done|]. exfalso. apply flag_on_land in Ex, Es.
    assert (flag_on how (LOCK_SH + LOCK_EX) = false); [|congruence]. apply flag_on_land.
    change (LOCK_SH + LOCK_EX) with (Z.lor LOCK_SH LOCK_EX). by rewrite Z.land_lor_distr_r, Es, Ex. }
  case_if; [by wp_run|]. case_if; [by wp_run|].
  apply wp_bind. unfold ino_lock. apply wp_bind. wp_step. rewrite Hd.
  eapply wp_mono; [by apply (ino_lock_loop_ok P k0 [] (refs (u_ofile u)) u k fp f ip)|].
  intros r [u' k'] Hdone. apply lock_done_inv in Hdone as (Hi'&Eu&Hr); try done. simpl in Eu; subst u'. apply wp_bind.
  destruct r as [e|pri]; wp_run; (split_and!; [try done; by apply (inv_user_same u)|done|]); intros pri' [= ->].
  split; [done|]. exists fp, ip. split; [done|]. by eapply Hr.
Qed.

Lemma copen_locked_ok u k fp indx e :
  inv (u, k) -> 0 <= indx -> u_ofile u !! Z.to_nat indx = Some (Some fp) ->
  wp (copen_locked fp indx e) (fun _ s' => inv s') (u, k).
Proof.
  intros Hinv Hi Hx. pose proof Hinv as (Hu&Hk&Hkeep). cbn [fst snd] in *. unfold copen_locked. apply wp_bind.
  case_if; [|by wp_run]. pose proof Hu as (Hlen&_&Ho&_). destruct (Ho _ _ Hx) as [Hfp _].
  apply wp_bind. eapply wp_mono; [by apply (drop_ref_ok u k (u_ofile u) (Z.to_nat indx))|].
  intros e' s' (k'&->&Hk'&Hkeep'). apply wp_wr_ofile; [apply lookup_lt_Some in Hx; lia|]. wp_run. split_and!; [|done|done].
  by eapply clear_fd_ok.
Qed.

(** ** open *)

(** dupfdopen when the entry [indx] counts no more: an error changes nothing. *)
Lemma dupfdopen_ok u k indx dfd mode error fp :
  user_ok u -> 0 <= indx -> u_ofile u !! Z.to_nat indx = Some (Some fp) -> 0 <= dfd -> error <> 0 ->
  kern_ok [] (refs (<[Z.to_nat indx := None]> (u_ofile u))) k -> keeps P k0 k ->
  wp (dupfdopen indx dfd mode error)
    (fun e s' => if e =? 0 then inv s' else s' = (u, k)) (u, k).
Proof.
  intros Hu Hi Hx Hd He Hk Hkeep. pose proof Hu as (Hlen&Hplen&Ho&Hlast). unfold dupfdopen.
  apply wp_bind. eapply wp_rd_ofile; [done|done|]. case_if; [by wp_run|].
  destruct (lookup_lt_is_Some_2 (u_ofile u) (Z.to_nat dfd)) as [y Hy]; [lia|].
  apply wp_bind. eapply wp_rd_ofile; [done|done|]. destruct y as [w|]; [|by wp_run].
  case_decide as Ew; [by wp_run|]. case_if; [|wp_run; by destruct (Z.eqb_spec error 0)].
  destruct (Ho _ _ Hy) as [Hw _]. destruct (kern_lookup _ _ _ _ Hk Hw) as [f Hf]. pose proof Hk as ([_ Hfs]&_).
  destruct (Hfs _ _ Hf) as (F1&_). destruct (Ho _ _ Hx) as [_ Hb].
  assert (Z.to_nat indx <> Z.to_nat dfd) as Hne by (intros E'; rewrite E' in Hx; congruence).
  apply wp_bind. wp_step. case_if; [by wp_run|].
  destruct (lookup_lt_is_Some_2 (u_pofile u) (Z.to_nat dfd)) as [fl Hfl]; [lia|].
  destruct (dup_state_ok u k indx w fl f) as [Ec Hinv]; try done; [lia|rewrite F1; apply (refs_pos _ (Z.to_nat dfd)); by rewrite list_lookup_insert_ne|].
  apply wp_bind, wp_wr_ofile; [lia|]. apply wp_bind. eapply wp_rd_pofile; [done|done|].
  apply wp_bind, wp_wr_pofile; [simpl; lia|]. wp_run. rewrite Ec. exact Hinv.
Qed.

(** What open comes to: the invariant, and for a sleep the waiter. *)
Definition open_post (r : Z + (nat * Z * Z)) (s' : st (W := W)) : Prop :=
  inv s' /\ match r with
  | inl _ => True
  | inr (fp, indx, type) =>
      0 <= indx /\ u_ofile s'.1 !! Z.to_nat indx = Some (Some fp) /\ exists ip, sleeps_on s'.2 fp ip type
  end.

Lemma copen_ok u k mode cmode fname :
  inv (u, k) -> wp (copen mode cmode fname) open_post (u, k).
Proof.
  intros Hinv. unfold copen. apply wp_bind. apply (falloc_ok []); [done|by intros; wp_run|by intros; wp_run|].
  intros r fp f k1 Hr Hf Hc Hlb HnP Hun Ek1 _ _ Hk1 Hkeep1.
  assert (u_ofile (new_fd u r fp) !! Z.to_nat r = Some (Some fp)) as Hx.
  { destruct Hr as (_&Hr&_). apply list_lookup_insert_eq. by eapply lookup_lt_Some. }
  assert (0 <= r) as Hr0 by (destruct Hr; lia).
  assert (k_file k1 !! fp = Some (new_file f)) as Hf1 by (rewrite Ek1; by apply (lookup_insert_file k fp f)).
  set (flags := FFLAGS mode). set (f2 := set_f_type DTYPE_INODE (set_f_flag (Z.land flags FMASK) (new_file f))).
  assert (lock_bits f2 = false) as Hlb2.
  { apply lock_bits_off. cbn [f2 f_flag set_f_type set_f_flag]. rewrite (Z.land_comm flags). by rewrite !flag_on_mask_0. }
  destruct (fresh_upd_ok [fp] [fp] _ k1 fp (new_file f) f2 Hk1 Hkeep1 Hf1) as [Hk2 Hkeep2]; try done; [right; set_solver|].
  apply wp_bind. eapply wp_upd_file; [exact Hf1|]. apply wp_bind. eapply wp_upd_file; [by apply (lookup_insert_file k1 fp (new_file f))|].
  cbn [k_file set_k_file]. rewrite list_insert_insert_eq.
  change (set_f_type DTYPE_INODE (set_f_flag (Z.land (FFLAGS mode) FMASK) (new_file f))) with f2.
  set (k2 := set_k_file (<[fp := f2]> (k_file k1)) k1) in *.
  change (set_k_file _ (set_k_file _ k1)) with k2.
  assert (k_file k2 !! fp = Some f2) as Hf2 by (by apply (lookup_insert_file k1 fp (new_file f))).
  apply wp_bind, wp_getu. assert (u_rval (new_fd u r fp) = r) as Erv by (unfold new_fd, fd_taken; simpl; by case_if).
  cbn [fst]. rewrite Erv. apply wp_bind, wp_modu. apply wp_bind, wp_getu. apply wp_bind, wp_inode_call.
  destruct (vn_open _ _ _ _ _) as [w [[error ip] dupfd]]. cbn [fst snd]. apply wp_bind, wp_modu.
  clearbody k2. assert (forall d, user_ok (set_u_dupfd d (new_fd u r fp))) as Hud by (intros d; by apply (user_ok_same _ _ Hun)).
  case_if; bool_to_prop.
  - destruct (undo_file_ok [fp] [] _ (Z.to_nat r) k2 fp f2 Hk2 Hkeep2 Hf2) as [Hk3 Hkeep3]; try done; [set_solver|].
    assert (forall e, wp (wr_ofile r None;; mret (inl e)) open_post
      (set_u_dupfd dupfd (new_fd u r fp), set_k_world w (set_k_file (<[fp := set_f_count 0 f2]> (k_file k2)) k2))) as Hbad.
    { intros e. apply wp_bind, wp_wr_ofile; [apply lookup_lt_Some in Hx; simpl in *; lia|]. wp_run.
      split; [|done]. split_and!; [by apply (clear_fd_ok (set_u_dupfd dupfd (new_fd u r fp)) r fp)|exact Hk3|exact Hkeep3]. }
    apply wp_bind. eapply wp_upd_file; [exact Hf2|]. case_if; bool_to_prop; [|by apply Hbad].
    apply wp_bind. eapply wp_mono.
    { apply (dupfdopen_ok _ (set_k_world w (set_k_file (<[fp := set_f_count 0 f2]> (k_file k2)) k2)) r dupfd flags error fp); try done. }
    intros e s' Hs'. cbn beta in Hs'. destruct (Z.eqb_spec e 0) as [->|He]; cbn [negb Z.eqb Pos.eqb].
    + destruct s' as [u' k']. wp_run. split; [|done]. by apply (inv_user_same u').
    + rewrite Hs'. by apply Hbad.
  - assert (forall w, inv (set_u_dupfd 0 (new_fd u r fp), set_k_world w (set_k_file (<[fp := set_f_data (Some ip) f2]> (k_file k2)) k2))) as Hopen.
    { intros w'. destruct (fresh_upd_ok [fp] [] _ k2 fp f2 (set_f_data (Some ip) f2) Hk2 Hkeep2 Hf2) as [Hk3 Hkeep3]; try done.
      - left. intros _. split; [by left|by eexists].
      - set_solver. }
    apply wp_bind, wp_modu. apply wp_bind. eapply wp_upd_file; [exact Hf2|]. cbn beta zeta.
    change (set_k_file _ (set_k_world w k2)) with (set_k_world w (set_k_file (<[fp := set_f_data (Some ip) f2]> (k_file k2)) k2)).
    set (k3 := set_k_world w _) in *.
    change (set_u_dupfd 0 (set_u_dupfd _ _)) with (set_u_dupfd 0 (new_fd u r fp)). set (u3 := set_u_dupfd 0 (new_fd u r fp)) in *.
    assert (k_file k3 !! fp = Some (set_f_data (Some ip) f2)) as Hf3 by (by apply (lookup_insert_file k2 fp f2)).
    pose proof (Hopen w) as Hinv3. fold k3 in Hinv3. clear Hopen. pose proof Hinv3 as (Hu3&Hk3&Hkeep3).
    case_if; [|by wp_run]. set (type := if flag_on flags FNONBLOCK then _ else _). apply wp_bind. unfold ino_lock. apply wp_bind. wp_step.
    cbn [f_data set_f_data].
    eapply wp_mono; [apply (ino_lock_loop_ok P k0 [] (refs (u_ofile u3)) u3 k3 fp (set_f_data (Some ip) f2) ip type); try done|].
    assert (flag_on type LOCK_EX = true \/ flag_on type LOCK_SH = true) as Hcmd.
    { unfold type. destruct (flag_on flags FEXLOCK), (flag_on flags FNONBLOCK); (by left) || by right. }
    intros lr [u' k'] Hdone. apply lock_done_inv in Hdone as (Hi'&Eu&Hlr); try done. simpl in Eu. subst u'. destruct lr as [e|pri].
    + apply wp_bind. eapply wp_mono; [by apply (copen_locked_ok u3 k' fp r e)|]. intros e' s' Hs'. by wp_run.
    + wp_run. split; [done|]. split_and!; [done|done|]. exists ip. by eapply Hlr.
Qed.
Lemma open_ok u k fname mode cmode :
  inv (u, k) -> wp (open fname mode cmode) open_post (u, k).
Proof.
  intros Hinv. unfold open. apply wp_bind. eapply wp_mono; [by apply copen_ok|]. intros r [u' k'] [Hi Hr].
  apply wp_bind. unfold open_done. destruct r as [e|[[fp indx] type]]; wp_run; split; try done.
Qed.

(** ** pipe *)

Lemma fresh_step X X' u k fp f g fq fqf (Q : () -> st (W := W) -> Prop) :
  invx X (u, k) -> k_file k !! fp = Some f -> k_file k !! fq = Some fqf -> fp <> fq -> ~ P fp ->
  lock_bits f = false -> lock_bits (g f) = false -> f_count (g f) = f_count f ->
  (file_open (g f) \/ fp ∈ X') -> (forall i, i ∈ X -> i <> fp -> i ∈ X') ->
  (forall k', invx X' (u, k') -> k_file k' !! fp = Some (g f) -> k_file k' !! fq = Some fqf -> Q () (u, k')) ->
  wp (upd_file fp g) Q (u, k).
Proof.
  intros (Hu&Hk&Hkeep) Hf Hq Hne HnP L1 L2 Hc Ho HX HQ. eapply wp_upd_file; [exact Hf|].
  destruct (fresh_upd_ok X X' _ k fp f (g f) Hk Hkeep Hf) as [R1 R2]; try done.
  apply HQ; [by split_and!|by apply (lookup_insert_file k fp f)|]. simpl. by rewrite list_lookup_insert_ne.
Qed.

Ltac fresh_run q X' :=
  apply wp_bind; eapply (fresh_step _ X' _ _ _ _ _ q);
  [eassumption|eassumption|eassumption|done|done|done|done|done
  |first [left; intros _; split; [by right|by eexists] | right; set_solver]|set_solver|];
  let k' := fresh "k" in let Hi := fresh "Hi" in let Hp := fresh "Hp" in let Hq := fresh "Hq" in intros k' Hi Hp Hq.

Lemma pipe_ok u k : inv (u, k) -> wp pipe (fun _ s' => inv s') (u, k).
Proof.
  intros Hinv. unfold pipe. apply wp_bind, wp_inode_call. destruct (pipe_inode (k_world k)) as [w [err [ip|]]]; cbn [fst snd].
  2:{ wp_run. by apply (inv_user_same u). }
  apply wp_bind. apply (falloc_ok []); [done|intros _ Hi; by wp_run|intros r k1 _ _ _ Hi; by wp_run|].
  intros r rf f k1 Hr Hf Hc Hlb HnP Hu1 Ek1 _ _ Hk1 Hkeep1. cbn [k_file set_k_world] in *.
  assert (u_ofile (new_fd u r rf) !! Z.to_nat r = Some (Some rf)) as Hx.
  { destruct Hr as (_&Hr&_). apply list_lookup_insert_eq. by eapply lookup_lt_Some. }
  assert (0 <= r) as Hr0 by (destruct Hr; lia).
  assert (u_rval (new_fd u r rf) = r) as Erv by (unfold new_fd, fd_taken; simpl; by case_if).
  assert (k_file k1 !! rf = Some (new_file f)) as Hf1 by (rewrite Ek1; by apply (lookup_insert_file k rf f)).
  apply wp_bind, wp_getu. cbn [fst]. rewrite Erv. set (u1 := new_fd u r rf) in *. clearbody u1. apply wp_bind.
  assert (forall u' k', user_ok u' -> u_ofile u' = u_ofile u1 -> kern_ok [rf] (refs (u_ofile u1)) k' -> keeps P k0 k' ->
    k_file k' !! rf = Some (new_file f) ->
    wp (upd_file rf (set_f_count 0);; wr_ofile r None;; inode_call (fun w => (iput ip w, ()))) (fun _ s' => inv s') (u', k')) as Hbad.
  { intros u' k' Hu' Eo Hk' Hkeep' Hf'. apply wp_bind. eapply wp_upd_file; [exact Hf'|].
    destruct (undo_file_ok [rf] [] _ (Z.to_nat r) k' rf (new_file f) Hk' Hkeep' Hf') as [Hk3 Hkeep3]; try done; [set_solver|].
    apply wp_bind, wp_wr_ofile; [rewrite Eo; apply lookup_lt_Some in Hx; lia|]. wp_run.
    split_and!; [by apply (clear_fd_ok u' r rf); [|lia|rewrite Eo]|simpl; rewrite Eo; exact Hk3|exact Hkeep3]. }
  apply (falloc_ok [rf]); [by split_and!|intros _ (Hi1&Hi2&Hi3); by apply Hbad|..].
  { intros r2 k2 Hr2 _ Ek2 (Hi1&Hi2&Hi3). pose proof (fd_taken_ok u1 r2 Hu1) as Hft. destruct Hr2 as ((?&?)&_).
    destruct Hft as [_ Eo]; [lia|]. apply Hbad; try done; [cbn [fst snd u_ofile set_u_error] in Hi2; by rewrite Eo in Hi2|].
    by rewrite Ek2. }
  intros r2 wf g k2 Hr2 Hg Hgc Hgl HnP2 Hu2 Ek2 _ _ Hk2 Hkeep2.
  assert (wf <> rf) as Hne by (intros ->; rewrite Hg in Hf1; simplify_eq; by rewrite Hgc in *).
  assert (invx [wf; rf] (set_u_rval r (set_u_rval2 (u_rval (new_fd u1 r2 wf)) (new_fd u1 r2 wf)), k2)) as Hi2.
  { apply (inv_user_same (new_fd u1 r2 wf)); [by split_and!|done..]. }
  assert (k_file k2 !! wf = Some (new_file g)) as Hw2 by (rewrite Ek2; by apply (lookup_insert_file k1 wf g)).
  assert (k_file k2 !! rf = Some (new_file f)) as Hr2' by (rewrite Ek2; by rewrite list_lookup_insert_ne).
  apply wp_bind, wp_modu. apply wp_bind, wp_modu.
  fresh_run rf [wf; rf]. fresh_run wf [wf; rf]. fresh_run rf [wf; rf]. fresh_run wf [wf; rf].
  fresh_run rf [rf]. fresh_run wf (@nil nat).
  by wp_run.
Qed.

(** ** fork, exec and exit *)

Lemma nrefs_take_S i l n x : l !! n = Some x -> nrefs i (take (S n) l) = (nrefs i (take n l) + is_ref i x)%nat.
Proof.
  intros Hn. rewrite (take_S_r l n x Hn). unfold nrefs, is_ref. rewrite filter_app, length_app. f_equal.
  rewrite filter_cons, filter_nil. by case_decide.
Qed.
Lemma nrefs_take_le i l n : (nrefs i (take n l) <= nrefs i l)%nat.
Proof. rewrite <- (take_drop n l) at 2. unfold nrefs. rewrite filter_app, length_app. lia. Qed.
Lemma nrefs_take_all u i : user_ok u -> nrefs i (take (Z.to_nat (u_lastfile u + 1)) (u_ofile u)) = nrefs i (u_ofile u).
Proof.
  intros (_&_&Ho&Hb). set (n := Z.to_nat (u_lastfile u + 1)). rewrite <- (take_drop n (u_ofile u)) at 2. unfold nrefs. rewrite filter_app, length_app.
  assert (filter (fun x => x = Some i) (drop n (u_ofile u)) = []) as ->; [|simpl; lia].
  destruct (filter _ _) as [|x r] eqn:E; [done|]. assert (x ∈ x :: r) as Hx by apply list_elem_of_here.
  rewrite <- E in Hx. apply list_elem_of_filter in Hx as [-> Hx].
  apply list_elem_of_lookup_1 in Hx as [j Hj]. rewrite lookup_drop in Hj. destruct (Ho _ _ Hj). unfold n in *. lia.
Qed.

(** newproc counts the descriptors a second time, for the child. *)
Lemma newproc_share_ok u k :
  inv (u, k) ->
  wp newproc_share (fun _ s' => s'.1 = u /\
    kern_ok [] (fun i => refs (u_ofile u) i + Z.of_nat (nrefs i (u_ofile u))) s'.2 /\ keeps P k0 s'.2) (u, k).
Proof.
  intros (Hu&Hk&Hkeep). cbn [fst snd] in *. pose proof Hu as (Hlen&_&Ho&Hb). unfold newproc_share. apply wp_bind, wp_getu. cbn [fst].
  assert (forall c n k, (n + c = Z.to_nat (u_lastfile u + 1))%nat ->
    kern_ok [] (fun i => refs (u_ofile u) i + Z.of_nat (nrefs i (take n (u_ofile u)))) k -> keeps P k0 k ->
    wp (newproc_files c (Z.of_nat n)) (fun _ s' => s'.1 = u /\
      kern_ok [] (fun i => refs (u_ofile u) i + Z.of_nat (nrefs i (u_ofile u))) s'.2 /\ keeps P k0 s'.2) (u, k)) as Hgen.
  { induction c as [|c IH]; intros n k1 Hn Hk1 Hkeep1; cbn [newproc_files].
    - wp_run. split_and!; try done. eapply kern_ok_R; [exact Hk1|]. intros i. cbn beta.
      by rewrite Nat.add_0_r in Hn; rewrite Hn, (nrefs_take_all u i Hu).
    - destruct (lookup_lt_is_Some_2 (u_ofile u) n) as [x Hx]; [lia|]. apply wp_bind.
      eapply wp_rd_ofile; [lia|by rewrite Nat2Z.id|]. apply wp_bind. replace (Z.of_nat n + 1) with (Z.of_nat (S n)) by lia.
      destruct x as [fp|].
      + destruct (Ho _ _ Hx) as [Hfp _]. destruct (kern_lookup _ _ _ _ Hk1 Hfp) as [f Hf].
        pose proof Hk1 as ([_ Hfs]&_). destruct (Hfs _ _ Hf) as (F1&_). cbn beta in F1.
        pose proof (refs_pos _ _ _ Hx). pose proof (refs_bound u fp Hu). pose proof (nrefs_take_le fp (u_ofile u) n).
        pose proof (nrefs_le fp (u_ofile u)) as Hle. rewrite Hlen in Hle. change (Z.to_nat NOFILE) with 30%nat in Hle.
        eapply wp_upd_file; [exact Hf|]. rewrite u32_small by lia.
        destruct (count_ok P k0 [] _ (fun i => refs (u_ofile u) i + Z.of_nat (nrefs i (take (S n) (u_ofile u)))) k1 fp f (f_count f + 1) Hk1 Hkeep1 Hf)
          as [R1 R2]; try lia.
        * rewrite (nrefs_take_S _ _ _ _ Hx). unfold is_ref. rewrite decide_True by done. lia.
        * intros i Hi. rewrite (nrefs_take_S _ _ _ _ Hx). unfold is_ref. rewrite decide_False by (by intros [= ->]). lia.
        * apply IH; [lia|done|done].
      + apply wp_ret. apply IH; [lia| |done]. eapply kern_ok_R; [exact Hk1|]. intros i. cbn beta.
        rewrite (nrefs_take_S _ _ _ _ Hx). unfold is_ref. rewrite decide_False by done. lia. }
  apply (Hgen _ 0%nat); [lia| |done]. eapply kern_ok_R; [exact Hk|]. intros i. cbn beta. change (nrefs i (take 0 (u_ofile u))) with 0%nat. lia.
Qed.

(** One descriptor of the process is closed, whatever it is. *)
Lemma exit_step_ok u k fd x :
  inv (u, k) -> 0 <= fd -> u_ofile u !! Z.to_nat fd = Some x ->
  exists u', user_ok u' /\ u_lastfile u' = u_lastfile u /\ u_ofile u' = <[Z.to_nat fd := None]> (u_ofile u) /\
    u' = set_u_pofile (<[Z.to_nat fd := 0]> (u_pofile u)) (set_u_ofile (<[Z.to_nat fd := None]> (u_ofile u)) u) /\
    wp (closef x) (fun _ s' => inv s' /\ s'.1 = u') (u', k) /\
    wp (closef x) (fun _ s' => s'.1 = u /\ inv (u', s'.2)) (u, k).
Proof.
  intros (Hu&Hk&Hkeep) Hfd Hx. cbn [fst snd] in *. eexists. split; [|split; [|split; [|split; [reflexivity|]]]]; [|done|done|].
  - destruct x as [fp|].
    + apply (user_ok_same _ _ (clear_fd_ok u fd fp Hu Hfd Hx)); try done. simpl. by rewrite length_insert.
    + apply (user_ok_same u); [done|simpl; by rewrite (list_insert_id _ _ _ Hx)|done|]. simpl. by rewrite length_insert.
  - set (u' := set_u_pofile _ _).
    assert (user_ok u') as Hu'.
    { destruct x as [fp|].
      + apply (user_ok_same _ _ (clear_fd_ok u fd fp Hu Hfd Hx)); try done. simpl. by rewrite length_insert.
      + apply (user_ok_same u); [done|simpl; by rewrite (list_insert_id _ _ _ Hx)|done|]. simpl. by rewrite length_insert. }
    destruct x as [fp|].
    + assert (fp < NFILE)%nat as Hfp by (destruct Hu as (_&_&Ho&_); by destruct (Ho _ _ Hx)).
      split; (eapply wp_mono; [by apply (drop_ref_ok _ k (u_ofile u) (Z.to_nat fd))|]); intros e s' (k'&->&Hk'&Hkeep'); by split_and!.
    + assert (u_ofile u' = u_ofile u) as Eo by (simpl; by rewrite (list_insert_id _ _ _ Hx)).
      assert (inv (u', k)) as Hi'. { split_and!; [done| |done]. cbn [fst snd]. by rewrite Eo. }
      split; by apply wp_ret.
Qed.

Lemma exit_close_ok u k :
  inv (u, k) -> wp exit_close (fun _ s' => inv s' /\ forall j i, u_ofile s'.1 !! j <> Some (Some i)) (u, k).
Proof.
  intros Hinv. unfold exit_close. apply wp_bind, wp_getu. cbn [fst].
  assert (forall c n u k, (n + c = Z.to_nat (u_lastfile u + 1))%nat -> inv (u, k) ->
    (forall j i, (j < n)%nat -> u_ofile u !! j <> Some (Some i)) ->
    wp (exit_files c (Z.of_nat n)) (fun _ s' => inv s' /\ forall j i, u_ofile s'.1 !! j <> Some (Some i)) (u, k)) as Hgen.
  { clear u k Hinv. induction c as [|c IH]; intros n u k Hn Hinv Hclr; cbn [exit_files].
    - wp_run. split; [done|]. intros j i Hj. pose proof Hinv as ((_&_&Ho&_)&_). destruct (Ho j i Hj). cbn [fst] in *. eapply Hclr; [|done]. lia.
    - pose proof Hinv as ((Hlen&Hpl&Ho&Hb)&_). cbn [fst] in *.
      destruct (lookup_lt_is_Some_2 (u_ofile u) n) as [x Hx]; [lia|]. apply wp_bind.
      eapply wp_rd_ofile; [lia|by rewrite Nat2Z.id|]. apply wp_bind, wp_wr_ofile; [lia|]. apply wp_bind, wp_wr_pofile; [simpl; lia|].
      destruct (exit_step_ok u k (Z.of_nat n) x Hinv) as (u'&Hu'&El&Eo&Eu&Hwp&_); [lia|by rewrite Nat2Z.id|].
      apply wp_bind. change (s8 0) with 0. cbn [u_pofile set_u_ofile]. rewrite <- Eu.
      eapply wp_mono; [exact Hwp|]. intros e [u1 k1] [Hi1 E1]. cbn [fst] in E1. subst u1.
      replace (Z.of_nat n + 1) with (Z.of_nat (S n)) by lia. apply IH; [rewrite El; lia|done|].
      intros j i Hj. rewrite Eo, Nat2Z.id. destruct (decide (j = n)) as [->|]; [by rewrite list_lookup_insert_eq by lia|].
      rewrite list_lookup_insert_ne by done. apply Hclr. lia. }
  apply (Hgen _ 0%nat); [lia|done|lia].
Qed.

Lemma exec_close_ok u k : inv (u, k) -> wp exec_close (fun _ s' => inv s') (u, k).
Proof.
  intros Hinv. unfold exec_close. apply wp_bind, wp_getu. cbn [fst]. apply wp_bind.
  assert (forall c n u k, (n + c <= Z.to_nat NOFILE)%nat -> inv (u, k) -> wp (exec_files c (Z.of_nat n)) (fun _ s' => inv s') (u, k)) as Hgen.
  { clear u k Hinv. induction c as [|c IH]; intros n u k Hn Hinv; cbn [exec_files]; [by wp_run|].
    pose proof Hinv as ((Hlen&Hpl&_)&_). cbn [fst] in *. replace (Z.of_nat n + 1) with (Z.of_nat (S n)) by lia.
    destruct (lookup_lt_is_Some_2 (u_ofile u) n) as [x Hx]; [lia|]. destruct (lookup_lt_is_Some_2 (u_pofile u) n) as [fl Hfl]; [lia|].
    apply wp_bind. eapply wp_rd_pofile; [lia|by rewrite Nat2Z.id|]. apply wp_bind. case_if; [|apply wp_ret; apply IH; [lia|done]].
    apply wp_bind. eapply wp_rd_ofile; [lia|by rewrite Nat2Z.id|]. apply wp_bind.
    destruct (exit_step_ok u k (Z.of_nat n) x Hinv) as (u'&_&_&_&Eu&_&Hwp); [lia|by rewrite Nat2Z.id|].
    eapply wp_mono; [exact Hwp|]. intros e [u1 k1] [E1 Hi1]. cbn [fst snd] in *. subst u1.
    apply wp_bind, wp_wr_ofile; [lia|]. apply wp_wr_pofile; [simpl; lia|]. change (s8 0) with 0. cbn [u_pofile set_u_ofile].
    rewrite <- Eu. apply IH; [lia|done]. }
  pose proof Hinv as ((_&_&_&Hb)&_). cbn [fst] in Hb.
  eapply wp_mono; [apply (Hgen _ 0%nat); [lia|done]|]. intros [] [u' k'] (Hu'&Hk'&Hkeep'). apply trim_lastfile_ok; [done|].
  intros l _ Hul. by split_and!.
Qed.
End Inv.

(** ** What dup, close and open do *)

Lemma dup_small i : 0 <= i < NOFILE -> flag_on i (Z.lnot 63) = false.
Proof.
  intros Hi. apply flag_on_land. change 63 with (Z.ones 6). rewrite <- Z.ldiff_land, Z.ldiff_ones_r by lia.
  rewrite Z.shiftr_div_pow2 by lia. unfold NOFILE in Hi. by rewrite Z.div_small by lia.
Qed.

Lemma flag_on_s8_clr w : flag_on (s8 (flag_clr w UF_EXCLOSE)) UF_EXCLOSE = false.
Proof.
  pose proof (flag_on_clr_same w UF_EXCLOSE) as E. apply flag_on_land in E. apply flag_on_land.
  unfold UF_EXCLOSE in *. change 1 with (Z.ones 1) in E |- * at 2. rewrite Z.land_ones in E |- * by lia.
  change (Z.ones 1) with 1 in E. set (z := flag_clr w 1) in *. unfold s8. change (2 ^ 1) with 2 in *. change (2 ^ 7) with 128. change (2 ^ 8) with 256.
  Z.div_mod_to_equations. lia.
Qed.

Lemma dup_run u k i j fp f :
  user_ok u -> 0 <= i < NOFILE -> u_ofile u !! Z.to_nat i = Some (Some fp) ->
  k_file k !! fp = Some f -> 0 <= f_count f < 4294967295 ->
  (none_free u 0 /\ dup i j (u, k) = Ok ((), (set_u_error EMFILE u, k))) \/
  exists r fl, lowest_free u 0 r /\ u_pofile u !! Z.to_nat i = Some fl /\
    dup i j (u, k) = Ok ((), (dup_user (fd_taken u r) r fp (flag_clr fl UF_EXCLOSE),
      set_k_file (<[fp := set_f_count (f_count f + 1) f]> (k_file k)) k)).
Proof.
  intros Hu Hi Hx Hf Hc. unfold dup. rewrite (dup_small i Hi). pose proof Hu as (Hlen&Hplen&_).
  destruct (lookup_lt_is_Some_2 (u_pofile u) (Z.to_nat i)) as [fl Hfl]; [lia|].
  assert (wp (GETF i (fun fp => j ← ufalloc 0; if j <? 0 then mret () else fl ← rd_pofile i; dupit j fp (flag_clr fl UF_EXCLOSE)))
    (fun _ s' => (none_free u 0 /\ s' = (set_u_error EMFILE u, k)) \/ exists r, lowest_free u 0 r /\
      s' = (dup_user (fd_taken u r) r fp (flag_clr fl UF_EXCLOSE), set_k_file (<[fp := set_f_count (f_count f + 1) f]> (k_file k)) k)) (u, k)) as Hwp.
  { unfold GETF, getf. replace ((i <? 0) || (NOFILE <=? i)) with false by (symmetry; apply orb_false_iff; lia).
    apply wp_bind, wp_bind. eapply wp_rd_ofile; [lia|exact Hx|]. apply wp_ret. cbn beta iota. apply wp_bind. apply ufalloc_ok; [done|lia|..].
    - intros Hn. case_if; [|lia]. wp_run. by left.
    - intros r Hr. pose proof Hr as (Hr1&Hr2&_). case_if; [lia|].
      destruct (fd_taken_ok u r Hu Hr1) as [(Hl1&Hl2&_) Eo].
      assert (Z.to_nat r <> Z.to_nat i) as Hne by (intros E'; rewrite E' in Hr2; congruence).
      apply wp_bind. eapply (wp_rd_pofile i fl); [lia| |].
      + unfold fd_taken. case_if; simpl; by rewrite list_lookup_insert_ne.
      + unfold dupit. apply wp_bind, wp_wr_ofile; [lia|]. apply wp_bind, wp_wr_pofile; [simpl; lia|].
        wp_run. rewrite u32_small by lia. right. by exists r. }
  destruct Hwp as ([]&s'&E&[[Hn ->]|(r&Hr&->)]); [by left|right]. by exists r, fl.
Qed.

(** dup of an open descriptor takes the lowest free descriptor and points
    it at the same file structure, whose reference count grows by one; the
    close-on-exec flag is not copied, the other descriptors stay as they were,
    u_lastfile covers the new one, and with no descriptor free dup changes
    nothing but the error, EMFILE. *)
Theorem dup_spec u k i j fp f :
  user_ok u -> 0 <= i < NOFILE -> u_ofile u !! Z.to_nat i = Some (Some fp) ->
  k_file k !! fp = Some f -> 0 <= f_count f < 4294967295 ->
  (none_free u 0 /\ dup i j (u, k) = Ok ((), (set_u_error EMFILE u, k))) \/
  exists r u', lowest_free u 0 r /\
    dup i j (u, k) = Ok ((), (u', set_k_file (<[fp := set_f_count (f_count f + 1) f]> (k_file k)) k)) /\
    u_rval u' = r /\ u_error u' = u_error u /\ u_lastfile u' = Z.max (u_lastfile u) r /\
    u_ofile u' = <[Z.to_nat r := Some fp]> (u_ofile u) /\
    exists fl, u_pofile u' = <[Z.to_nat r := fl]> (u_pofile u) /\ flag_on fl UF_EXCLOSE = false.
Proof.
  intros Hu Hi Hx Hf Hc. destruct (dup_run u k i j fp f) as [?|(r&fl&Hr&Hfl&E)]; try done; [by left|right].
  exists r. eexists. split; [done|]. split; [exact E|]. unfold dup_user, fd_taken.
  cbn [u_lastfile set_u_pofile set_u_rval]. destruct (Z.ltb_spec (u_lastfile u) r) as [Hl|Hl].
  - cbn. rewrite Z.ltb_irrefl. cbn. rewrite list_insert_insert_eq, Z.max_r by lia. split_and!; try done. eexists. split; [done|].
    apply flag_on_s8_clr.
  - cbn. replace (u_lastfile u <? r) with false by lia. cbn. rewrite list_insert_insert_eq, Z.max_l by lia. split_and!; try done.
    eexists. split; [done|]. apply flag_on_s8_clr.
Qed.

(** close of a descriptor of an open file without locks clears the entry
    and lowers u_lastfile to the highest open descriptor.  While other
    descriptors refer to the file it only lowers the count; the last one
    releases the inode and calls closei, once, with the file no longer naming
    the inode, returns its error in u_error and frees the file structure. *)
Theorem close_spec u k fd fp f ip :
  user_ok u -> 0 <= fd -> u_ofile u !! Z.to_nat fd = Some (Some fp) -> k_file k !! fp = Some f ->
  f_type f = DTYPE_INODE -> f_data f = Some ip -> lock_bits f = false ->
  exists l, highest (<[Z.to_nat fd := None]> (u_ofile u)) l /\
    let u' := set_u_lastfile l (set_u_ofile (<[Z.to_nat fd := None]> (u_ofile u)) u) in
    let c := closei (<[fp := set_f_data None f]> (k_file k)) ip (f_flag f) (irele ip (k_world k)) in
    (1 < f_count f ->
      close fd (u, k) = Ok ((), (set_u_error 0 u', set_k_file (<[fp := set_f_count (f_count f - 1) f]> (k_file k)) k))) /\
    (f_count f = 1 ->
      close fd (u, k) = Ok ((), (set_u_error c.2 u',
        set_k_world c.1 (set_k_file (<[fp := set_f_count 0 (set_f_data None f)]> (k_file k)) k)))).
Proof.
  intros Hu Hfd Hx Hf Ht Hd Hlb. pose proof Hu as (Hlen&_&Ho&Hb). destruct (Ho _ _ Hx) as [Hfp Hl].
  assert (forall Q : () -> st (W := W) -> Prop,
    (forall l, highest (<[Z.to_nat fd := None]> (u_ofile u)) l ->
       wp (error ← closef (Some fp); modu (set_u_error error)) Q
         (set_u_lastfile l (set_u_ofile (<[Z.to_nat fd := None]> (u_ofile u)) u), k)) ->
    wp (close fd) Q (u, k)) as Hclose.
  { intros Q HQ. unfold close, GETF, getf. replace ((fd <? 0) || (NOFILE <=? fd)) with false by (symmetry; apply orb_false_iff; lia).
    apply wp_bind, wp_bind. eapply wp_rd_ofile; [lia|exact Hx|]. apply wp_ret. cbn beta iota.
    apply wp_bind, wp_wr_ofile; [lia|]. apply wp_bind. apply trim_lastfile_ok; [by eapply clear_fd_ok|]. intros l Hh _. by apply HQ. }
  destruct (Hclose (fun _ s' => exists l, highest (<[Z.to_nat fd := None]> (u_ofile u)) l /\
    let u' := set_u_lastfile l (set_u_ofile (<[Z.to_nat fd := None]> (u_ofile u)) u) in
    let c := closei (<[fp := set_f_data None f]> (k_file k)) ip (f_flag f) (irele ip (k_world k)) in
    (1 < f_count f -> s' = (set_u_error 0 u', set_k_file (<[fp := set_f_count (f_count f - 1) f]> (k_file k)) k)) /\
    (f_count f = 1 -> s' = (set_u_error c.2 u',
        set_k_world c.1 (set_k_file (<[fp := set_f_count 0 (set_f_data None f)]> (k_file k)) k))))) as ([]&s'&E&l&Hh&H1&H2).
  { intros l Hh. apply wp_bind. unfold closef. apply wp_bind. wp_step. unfold lock_bits in Hlb.
    case_if.
    - wp_run. exists l. split_and!; [done|done|lia].
    - rewrite Hlb. cbn [andb]. apply wp_bind, wp_ret. apply wp_bind. unfold fo_close. apply wp_bind. wp_step.
      rewrite Ht. cbn [Z.eqb DTYPE_INODE Pos.eqb]. unfold vn_closefile. apply wp_bind. wp_step. rewrite Hd.
      wp_run. apply wp_bind. eapply wp_upd_file; [by apply (lookup_insert_file k fp f)|]. wp_run.
      exists l. split_and!; [done|lia|]. intros _. cbn [k_file set_k_file set_k_world].
      rewrite list_insert_insert_eq. by destruct (closei _ _ _ _). }
  exists l. split; [done|]. cbn zeta. split; intros Hc; rewrite E; [by rewrite H1|by rewrite H2].
Qed.

(** (C39) open of /dev/fd/N with a descriptor N that is not open returns no
    error: the result of dupfdopen is compared with 0 before it is assigned to
    error, so its EBADF becomes 0.  The caller gets the descriptor r that
    falloc chose, and r is not open. *)
Theorem open_devfd_closed u k u1 k1 fp mode cmode fname w ip dfd :
  falloc (u, k) = Ok (Some fp, (u1, k1)) -> (fp < length (k_file k1))%nat ->
  length (u_ofile u1) = Z.to_nat NOFILE -> 0 <= u_rval u1 < NOFILE ->
  vn_open (FFLAGS mode) (Z.land cmode 32255) fname (- u_rval u1 - 1) (k_world k1) = (w, (ENODEV, ip, dfd)) ->
  0 <= dfd -> (NOFILE <= dfd \/ u_ofile u1 !! Z.to_nat dfd = Some None) ->
  exists s', copen mode cmode fname (u, k) = Ok (inl 0, s') /\ u_rval s'.1 = u_rval u1 /\
    u_ofile s'.1 !! Z.to_nat (u_rval u1) = Some None.
Proof.
  intros Hfa Hfp Hlen Hr Hvn Hd Hnone. destruct (lookup_lt_is_Some_2 _ _ Hfp) as [f Hf].
  assert (wp (copen mode cmode fname) (fun r s' => r = inl 0 /\ u_rval s'.1 = u_rval u1 /\
    u_ofile s'.1 !! Z.to_nat (u_rval u1) = Some None) (u, k)) as (r&s'&E&->&H1&H2); [|by exists s'].
  unfold copen. apply wp_bind. exists (Some fp), (u1, k1). split; [done|].
  apply wp_bind. eapply wp_upd_file; [exact Hf|]. apply wp_bind. eapply wp_upd_file; [by apply (lookup_insert_file k1 fp f)|].
  apply wp_bind, wp_getu. apply wp_bind, wp_modu. apply wp_bind, wp_getu. apply wp_bind, wp_inode_call.
  cbn [fst snd k_world set_k_file u_dupfd set_u_dupfd]. rewrite Hvn. cbn [fst snd]. apply wp_bind, wp_modu.
  cbn [negb Z.eqb ENODEV Pos.eqb ENXIO andb orb]. apply wp_bind.
  eapply wp_upd_file; [cbn [k_file set_k_file set_k_world]; rewrite list_insert_insert_eq; by apply (lookup_insert_file k1 fp f)|].
  destruct (Z.leb_spec 0 dfd); [|lia]. apply wp_bind.
  destruct (lookup_lt_is_Some_2 (u_ofile u1) (Z.to_nat (u_rval u1))) as [x Hx]; [lia|].
  eapply wp_mono with (Q := fun e s' => e = EBADF /\ s'.1 = set_u_dupfd dfd (set_u_dupfd (- u_rval u1 - 1) u1)).
  - unfold dupfdopen. apply wp_bind. eapply wp_rd_ofile; [lia|exact Hx|]. case_if; [by wp_run|].
    destruct Hnone as [?|Hnone]; [lia|]. apply wp_bind. eapply wp_rd_ofile; [lia|exact Hnone|]. cbn beta iota. by apply wp_ret.
  - intros e [u2 k2] [-> E2]. cbn [fst] in E2. subst u2. cbn [Z.eqb EBADF negb Pos.eqb].
    apply wp_bind, wp_wr_ofile; [simpl; lia|]. wp_run. split_and!; try done. simpl. apply list_lookup_insert_eq. lia.
Qed.
End Desc.

(** ** A small inode layer, to run the code

    Its state counts the releases of inodes; every file has inode 7, except
    that the name "fd9" is the device /dev/fd/9. *)
Definition one_inode : InodeLayer nat := {|
  irele _ n := S n; iput _ n := S n;
  closei _ _ _ n := (n, 0); pipe_close _ n := (S n, 0);
  ino_ioctl _ _ _ d rv n := (n, 0, (d, rv));
  vn_open _ _ name d n := if String.eqb name "fd9" then (n, (ENODEV, 0%nat, 9)) else (n, (0, 7%nat, d));
  pipe_inode n := (n, (0, Some 8%nat)); pipe_init _ n := n |}.

Definition kern1 : kern nat :=
  MkKern (MkFile 3 DTYPE_INODE 1 0 (Some 7%nat) 0 :: replicate 23 no_file) None ∅ [] 0%nat.
Definition user1 : user := set_u_lastfile 0 (set_u_ofile (Some 0%nat :: replicate 29 None) user0).
Lemma user1_ok : user_ok user1.
Proof.
  split_and!; [done|done| |done|done]. intros [|j] i Hj; [injection Hj as <-; unfold NFILE; simpl; lia|].
  apply lookup_replicate in Hj as [? _]. done.
Qed.

Lemma dup_spec_witness :
  (none_free user1 0 /\ dup (H := one_inode) 0 0 (user1, kern1) = Ok ((), (set_u_error EMFILE user1, kern1))) \/
  exists r u', lowest_free user1 0 r /\
    dup (H := one_inode) 0 0 (user1, kern1) =
      Ok ((), (u', set_k_file (<[0%nat := set_f_count 2 (MkFile 3 DTYPE_INODE 1 0 (Some 7%nat) 0)]> (k_file kern1)) kern1)) /\
    u_rval u' = r /\ u_error u' = u_error user1 /\ u_lastfile u' = Z.max (u_lastfile user1) r /\
    u_ofile u' = <[Z.to_nat r := Some 0%nat]> (u_ofile user1) /\
    exists fl, u_pofile u' = <[Z.to_nat r := fl]> (u_pofile user1) /\ flag_on fl UF_EXCLOSE = false.
Proof.
  apply (dup_spec user1 kern1 0 0 0 (MkFile 3 DTYPE_INODE 1 0 (Some 7%nat) 0) user1_ok); [vm_compute; split; [discriminate|reflexivity]|reflexivity|reflexivity|].
  simpl. lia.
Defined.

Lemma close_spec_witness :
  exists l, highest (<[0%nat := None]> (u_ofile user1)) l /\
    let u' := set_u_lastfile l (set_u_ofile (<[0%nat := None]> (u_ofile user1)) user1) in
    let f := MkFile 3 DTYPE_INODE 1 0 (Some 7%nat) 0 in
    let c := (1%nat, 0) in
    (1 < f_count f -> close (H := one_inode) 0 (user1, kern1) =
      Ok ((), (set_u_error 0 u', set_k_file (<[0%nat := set_f_count (f_count f - 1) f]> (k_file kern1)) kern1))) /\
    (f_count f = 1 -> close (H := one_inode) 0 (user1, kern1) =
      Ok ((), (set_u_error c.2 u', set_k_world c.1 (set_k_file (<[0%nat := set_f_count 0 (set_f_data None f)]> (k_file kern1)) kern1)))).
Proof.
  apply (close_spec (H := one_inode) user1 kern1 0 0 (MkFile 3 DTYPE_INODE 1 0 (Some 7%nat) 0) 7 user1_ok); try reflexivity.
Defined.

Lemma open_devfd_closed_witness :
  exists s', copen (H := one_inode) 0 0 "fd9" (user1, kern1) = Ok (inl 0, s') /\ u_rval s'.1 = 1 /\
    u_ofile s'.1 !! 1%nat = Some None.
Proof.
  apply (open_devfd_closed (H := one_inode) user1 kern1 (new_fd user1 1 1)
      (set_k_lastf (Some 2%nat) (set_k_file (<[1%nat := new_file no_file]> (k_file kern1)) kern1)) 1 0 0 "fd9" 0%nat 0%nat 9);
    [vm_compute; reflexivity|vm_compute; lia|reflexivity|vm_compute; split; [discriminate|reflexivity]|reflexivity|lia|right; reflexivity].
Defined.

End Fdesc.
