(* ===== verification/Fsys.v ===== *)
(** The processes together: from start-up on, any sequence of system calls on
    descriptors, forks, execs and exits, with processes that sleep for a lock
    and are woken or interrupted in any order, runs without a fault and keeps
    the tables consistent. *)
From S2P Require Import Prelude Proc Descrip Fileinv Fdesc.
Import Descrip Fileinv Fdesc.

Module Fsys.

(** The descriptors of all processes that point at file [i]. *)
Definition urefs (x : option user) (i : nat) : Z :=
  match x with Some u => Z.of_nat (nrefs i (u_ofile u)) | None => 0 end.
Fixpoint total (us : list (option user)) (i : nat) : Z :=
  match us with [] => 0 | x :: us => urefs x i + total us i end.

Lemma total_insert us p x y i : us !! p = Some x -> total (<[p := y]> us) i = total us i - urefs x i + urefs y i.
Proof.
  revert p. induction us as [|z us IH]; intros [|p]; simpl; [done|done| |].
  - intros [= ->]. lia.
  - intros Hp. rewrite (IH p Hp). lia.
Qed.
Lemma urefs_bound x i : (forall u, x = Some u -> user_ok u) -> 0 <= urefs x i <= 30.
Proof.
  intros Hu. destruct x as [u|]; [|simpl; lia]. destruct (Hu u eq_refl) as (Hlen&_).
  change (Z.to_nat NOFILE) with 30%nat in Hlen. pose proof (nrefs_le i (u_ofile u)). simpl. lia.
Qed.
Lemma total_bound us i : (forall p u, us !! p = Some (Some u) -> user_ok u) -> 0 <= total us i <= 30 * Z.of_nat (length us).
Proof.
  induction us as [|x us IH]; intros Hu; simpl; [lia|].
  pose proof (urefs_bound x i) as Hx. specialize (IH (fun p => Hu (S p))).
  specialize (Hx (fun u E => Hu 0%nat u (f_equal Some E))). lia.
Qed.
Lemma total_pos us p u j i :
  (forall p u, us !! p = Some (Some u) -> user_ok u) ->
  us !! p = Some (Some u) -> u_ofile u !! j = Some (Some i) -> 0 < total us i.
Proof.
  intros Hu Hp Hj. pose proof (total_insert us p (Some u) None i Hp) as E. simpl in E.
  assert (0 <= total (<[p := None]> us) i).
  { apply total_bound. intros q v. destruct (decide (q = p)) as [->|].
    - rewrite list_lookup_insert_eq by (by eapply lookup_lt_Some). done.
    - rewrite list_lookup_insert_ne by done. apply Hu. }
  pose proof (nrefs_pos i _ j Hj). lia.
Qed.

Section Sys.
Context {W : Type} `{InodeLayer W}.
Implicit Types (y : sys (W := W)) (u : user) (k : kern W) (w : waiter).

(** A waiter: its process keeps the descriptor, and the file its inode. *)
Definition waiter_ok (us : list (option user)) k w : Prop :=
  lock_cmd (w_cmd w) /\
  (exists f, k_file k !! w_fp w = Some f /\ f_data f = Some (w_ip w) /\ f_type f = DTYPE_INODE) /\
  exists u fd, us !! w_proc w = Some (Some u) /\ 0 <= fd /\ u_ofile u !! Z.to_nat fd = Some (Some (w_fp w)) /\
    (forall indx, w_open w = Some indx -> indx = fd).

Definition users_ok (us : list (option user)) : Prop :=
  length us = Proc.NPROC /\ forall p u, us !! p = Some (Some u) -> user_ok u.

(** The invariant of the system: the counts are the numbers of descriptors,
    the tables are well formed, and who waits is blocked. *)
Definition sys_ok y : Prop :=
  users_ok (sy_user y) /\ kern_ok [] (total (sy_user y)) (sy_kern y) /\ k_woken (sy_kern y) = [] /\
  NoDup (w_proc <$> sy_wait y ++ sy_ready y) /\
  (forall w, w ∈ sy_wait y ++ sy_ready y -> waiter_ok (sy_user y) (sy_kern y) w) /\
  (forall w, w ∈ sy_wait y -> blocked (sy_kern y) (w_ip w) (w_cmd w)).

(** What the other processes than [p] hold. *)
Definition others y p : nat -> Z := total (<[p := None]> (sy_user y)).
Definition pinned y p (fp : nat) : Prop := 0 < others y p fp.

Lemma others_ok y p : users_ok (sy_user y) -> forall i, 0 <= others y p i <= 1000.
Proof.
  intros [Hlen Hu] i. unfold others. pose proof (total_bound (<[p := None]> (sy_user y)) i) as Hb.
  rewrite length_insert, Hlen in Hb. unfold Proc.NPROC in Hb.
  destruct Hb as [? ?]; [|lia]. intros q v. destruct (decide (q = p)) as [->|].
  - destruct (decide (p < length (sy_user y))%nat); [by rewrite list_lookup_insert_eq|].
    rewrite list_insert_ge by lia. apply Hu.
  - rewrite list_lookup_insert_ne by done. apply Hu.
Qed.

Lemma pinned_ok y p : forall fp, pinned y p fp -> 0 < others y p fp.
Proof. done. Qed.

(** The state of a process that runs satisfies the invariant of its calls. *)
Lemma sys_inv y p u :
  sys_ok y -> sy_user y !! p = Some (Some u) ->
  inv (pinned y p) (sy_kern y) (others y p) (u, sy_kern y).
Proof.
  intros (Hu&Hk&_) Hp. split_and!; [by eapply Hu| |apply keeps_refl]. cbn [fst snd].
  eapply kern_ok_R; [exact Hk|]. intros i. unfold refs, others. rewrite (total_insert _ _ _ None _ Hp). simpl. lia.
Qed.

Lemma lookup_alter_other (us : list (option user)) p x q : q <> p -> <[p := x]> us !! q = us !! q.
Proof. intros Hq. by rewrite list_lookup_insert_ne. Qed.

Lemma elem_of_lfilter {A} (b : A -> bool) (l : list A) x : x ∈ List.filter b l <-> x ∈ l /\ b x = true.
Proof. rewrite !list_elem_of_In. apply filter_In. Qed.

(** The waiters of other processes after a call of [p]. *)
Lemma waiter_kept y p us k w :
  sys_ok y -> w ∈ sy_wait y ++ sy_ready y -> w_proc w <> p -> us !! w_proc w = sy_user y !! w_proc w ->
  keeps (pinned y p) (sy_kern y) k -> waiter_ok us k w.
Proof.
  intros (Hu&_&_&_&Hw&_) Hin Hne Eus (_&_&Hf). destruct (Hw w Hin) as (Hlc&(f&Hf0&Hd&Ht)&v&fd&Hv&Hfd&Ho&Hi). split; [done|split].
  - destruct (Hf (w_fp w) f) as (f'&Hf'&E1&E2); [|done|].
    + unfold pinned, others. eapply (total_pos _ (w_proc w)); [|by rewrite lookup_alter_other|done].
      intros q v'. destruct (decide (q = p)) as [->|].
      * destruct (decide (p < length (sy_user y))%nat); [by rewrite list_lookup_insert_eq|].
        rewrite list_insert_ge by lia. apply Hu.
      * rewrite lookup_alter_other by done. apply Hu.
    + exists f'. split_and!; congruence.
  - exists v, fd. by rewrite Eus.
Qed.
Lemma blocked_kept y p k w :
  sys_ok y -> w ∈ sy_wait y -> keeps (pinned y p) (sy_kern y) k -> (w_ip w ∉ k_woken k) -> blocked k (w_ip w) (w_cmd w).
Proof.
  intros (_&_&_&_&_&Hb) Hin (_&Hk&_) Hn. destruct (Hb w Hin) as [Hl Hc].
  assert (forall b, b ∈ [ILWAIT; IEXLOCK; ISHLOCK] -> flag_on (i_flag (inode_of (sy_kern y) (w_ip w))) b = true ->
    flag_on (i_flag (inode_of k (w_ip w))) b = true) as Hkb by (intros b Hb' Hon; by apply (Hk _ b Hn Hb')).
  split; [apply Hkb; [set_solver|done]|]. destruct Hc as [Hc|[Hc1 Hc2]]; [left|right; split; [done|]]; apply Hkb; try done; set_solver.
Qed.

(** The waiters are sorted again after a call of [p] has left the users [us]
    and the tables [k]. *)
Lemma settle_users_ok y p us k ws :
  sys_ok y -> users_ok us -> kern_ok [] (total us) k -> keeps (pinned y p) (sy_kern y) k ->
  (forall w, w ∈ sy_wait y ++ sy_ready y -> w_proc w <> p /\ us !! w_proc w = sy_user y !! w_proc w) ->
  (ws = [] \/ exists w, ws = [w] /\ w_proc w = p /\ waiter_ok us k w /\ blocked k (w_ip w) (w_cmd w)) ->
  let y' := settle y p None k ws in
  sys_ok (MkSys us (sy_kern y') (sy_wait y') (sy_ready y')).
Proof.
  intros Hok Hu Hk Hkeep Hnp Hws. pose proof Hok as (_&_&_&Hnd&_&_).
  set (wk := fun w => bool_decide (w_ip w ∈ k_woken k)).
  assert (Permutation (sy_wait y) (List.filter (fun w => negb (wk w)) (sy_wait y) ++ List.filter wk (sy_wait y))) as Hperm.
  { clear. generalize (sy_wait y). intros l. induction l as [|a l IH]; simpl; [done|]. destruct (wk a); simpl.
    - rewrite <- Permutation_middle. by constructor.
    - by constructor. }
  split_and!; cbn [settle sy_user sy_kern sy_wait sy_ready]; [exact Hu|exact Hk|done|..].
  - change (NoDup (w_proc <$> (ws ++ List.filter (fun w => negb (wk w)) (sy_wait y)) ++ List.filter wk (sy_wait y) ++ sy_ready y)).
    assert (NoDup (w_proc <$> (List.filter (fun w => negb (wk w)) (sy_wait y) ++ List.filter wk (sy_wait y) ++ sy_ready y))) as Hnd'.
    { rewrite app_assoc, <- Hperm. done. }
    destruct Hws as [->|(w&->&Hw&_)]; [by rewrite <- app_assoc|]. rewrite <- app_assoc. simpl. apply NoDup_cons. split; [|done].
    intros (w'&E&Hin)%list_elem_of_fmap. destruct (Hnp w') as [Hne _]; [|congruence]. rewrite app_assoc, <- Hperm in Hin. done.
  - intros w Hin. change (waiter_ok us k w).
    assert (w ∈ ws \/ w ∈ sy_wait y ++ sy_ready y) as [Hin'|Hin'].
    { rewrite !elem_of_app, !elem_of_lfilter in Hin. rewrite elem_of_app. naive_solver. }
    + destruct Hws as [->|(w'&->&_&Hw&_)]; [by apply elem_of_nil in Hin'|]. by apply list_elem_of_singleton in Hin' as ->.
    + destruct (Hnp w Hin'). by apply (waiter_kept y p).
  - intros w Hin. change (blocked k (w_ip w) (w_cmd w)). rewrite elem_of_app, elem_of_lfilter in Hin.
    destruct Hin as [Hin|[Hin Hb]].
    + destruct Hws as [->|(w'&->&_&_&Hw)]; [by apply elem_of_nil in Hin|]. by apply list_elem_of_singleton in Hin as ->.
    + apply (blocked_kept y p k w); try done. unfold wk in Hb. apply negb_true_iff in Hb. by apply bool_decide_eq_false in Hb.
Qed.

Lemma users_ok_insert us p x : users_ok us -> (forall u, x = Some u -> user_ok u) -> users_ok (<[p := x]> us).
Proof.
  intros [Hlen Hu] Hx. split; [by rewrite length_insert|]. intros q v. destruct (decide (q = p)) as [->|].
  - destruct (decide (p < length us)%nat).
    + rewrite list_lookup_insert_eq by done. intros [= ->]. by apply Hx.
    + rewrite list_insert_ge by lia. apply Hu.
  - rewrite lookup_alter_other by done. apply Hu.
Qed.

(** A call of [p] has left the process in [u] and the tables in [k]. *)
Lemma settle_ok y p u0 u k x ws :
  sys_ok y -> sy_user y !! p = Some (Some u0) ->
  (forall w, w ∈ sy_wait y ++ sy_ready y -> w_proc w <> p) ->
  inv (pinned y p) (sy_kern y) (others y p) (u, k) ->
  x = Some u \/ (x = None /\ forall j i, u_ofile u !! j <> Some (Some i)) ->
  (ws = [] \/ exists w, ws = [w] /\ w_proc w = p /\ waiter_ok (<[p := x]> (sy_user y)) k w /\ blocked k (w_ip w) (w_cmd w)) ->
  sys_ok (settle y p x k ws).
Proof.
  intros Hok Hp Hnp (Hu&Hk&Hkeep) Hx Hws. cbn [fst snd] in *. pose proof Hok as (Hus&_).
  apply (settle_users_ok y p (<[p := x]> (sy_user y)) k ws); try done.
  - apply users_ok_insert; [done|]. intros v ->. by destruct Hx as [[= ->]|[? _]].
  - eapply kern_ok_R; [exact Hk|]. intros i. unfold refs, others.
    rewrite !(total_insert _ _ _ _ _ Hp). simpl. destruct Hx as [-> |[-> Hnone]]; simpl; [lia|].
    assert (nrefs i (u_ofile u) = 0)%nat as ->; [|lia]. unfold nrefs.
    destruct (filter _ _) as [|z r] eqn:E; [done|]. assert (z ∈ z :: r) as Hz by apply list_elem_of_here.
    rewrite <- E in Hz. apply list_elem_of_filter in Hz as [-> [j Hj]%list_elem_of_lookup_1]. by destruct (Hnone j i).
  - intros w Hin. specialize (Hnp w Hin). by rewrite lookup_alter_other.
Qed.

(** ** The steps *)

Lemma running_Some y p u :
  running y p = Some u -> sy_user y !! p = Some (Some u) /\ forall w, w ∈ sy_wait y ++ sy_ready y -> w_proc w <> p.
Proof.
  unfold running. intros Hr. destruct (sy_user y !! p) as [[v|]|] eqn:E; try done.
  destruct (asleep y p) eqn:Ea; [done|]. injection Hr as ->. split; [done|].
  intros w Hin <-. unfold asleep in Ea. apply not_true_iff_false in Ea. apply Ea. apply existsb_exists.
  exists w. split; [by apply list_elem_of_In|]. apply Nat.eqb_refl.
Qed.

(** A call: its precondition is the invariant, and what it leaves is settled. *)
Lemma call_ok {A} y p (m : M A) (Q : user -> A -> st (W := W) -> Prop) kont :
  sys_ok y ->
  (forall u, inv (pinned y p) (sy_kern y) (others y p) (u, sy_kern y) -> wp m (Q u) (u, sy_kern y)) ->
  (forall u0 a u k, sy_user y !! p = Some (Some u0) -> (forall w, w ∈ sy_wait y ++ sy_ready y -> w_proc w <> p) ->
     Q (set_u_error 0 u0) a (u, k) -> sys_ok (kont a u k)) ->
  exists y', call y p m kont = Ok y' /\ sys_ok y'.
Proof.
  intros Hok Hm Hk. unfold call. destruct (running y p) as [u|] eqn:Hr; [|by exists y].
  apply running_Some in Hr as [Hp Hnp]. pose proof (sys_inv y p u Hok Hp) as Hi.
  destruct (Hm (set_u_error 0 u)) as (a&[u' k']&->&HQ); [by apply (inv_user_same _ _ _ u)|].
  exists (kont a u' k'). split; [done|]. by apply (Hk u).
Qed.
Lemma call0_ok y p (m : M ()) :
  sys_ok y ->
  (forall u, inv (pinned y p) (sy_kern y) (others y p) (u, sy_kern y) ->
     wp m (fun _ s' => inv (pinned y p) (sy_kern y) (others y p) s') (u, sy_kern y)) ->
  exists y', call0 y p m = Ok y' /\ sys_ok y'.
Proof.
  intros Hok Hm. unfold call0. apply (call_ok y p m (fun _ _ s' => inv (pinned y p) (sy_kern y) (others y p) s')); [done|exact Hm|].
  intros u0 a u k Hp Hnp Hi. apply (settle_ok y p u0 u k (Some u) []); auto.
Qed.

(** The end of a wait, with an error or for another attempt. *)
Lemma lock_return_ok y w e u k :
  users_ok (sy_user y) -> inv (pinned y (w_proc w)) (sy_kern y) (others y (w_proc w)) (u, k) ->
  (exists fd, 0 <= fd /\ u_ofile u !! Z.to_nat fd = Some (Some (w_fp w)) /\ forall indx, w_open w = Some indx -> indx = fd) ->
  wp (lock_return w e) (fun _ s' => inv (pinned y (w_proc w)) (sy_kern y) (others y (w_proc w)) s') (u, k).
Proof.
  intros Hus Hi (fd&Hfd&Ho&Hx). unfold lock_return. destruct (w_open w) as [indx|].
  - rewrite (Hx indx eq_refl). apply wp_bind. eapply wp_mono.
    + by apply (copen_locked_ok (pinned y (w_proc w)) (sy_kern y) (others y (w_proc w)) (others_ok y (w_proc w) Hus) (pinned_ok y (w_proc w))).
    + intros e' [u' k'] Hi'. wp_run. by apply (inv_user_same _ _ _ u').
  - wp_run. by apply (inv_user_same _ _ _ u).
Qed.

Lemma resume_ok y w err :
  sys_ok y -> waiter_ok (sy_user y) (sy_kern y) w -> (forall w', w' ∈ sy_wait y ++ sy_ready y -> w_proc w' <> w_proc w) ->
  exists y', resume y w err = Ok y' /\ sys_ok y'.
Proof.
  intros Hok (Hlc&(f&Hf&Hd&Ht)&u&fd&Hu&Hfd&Ho&Hx) Hnp. unfold resume. rewrite Hu.
  pose proof (sys_inv y _ u Hok Hu) as Hi. pose proof Hok as (Hus&_).
  assert (forall e u1 k1, inv (pinned y (w_proc w)) (sy_kern y) (others y (w_proc w)) (u1, k1) -> u_ofile u1 = u_ofile u ->
    exists y', ('(_, (u, kn)) ← lock_return w e (u1, k1); Ok (settle y (w_proc w) (Some u) kn [])) = Ok y' /\ sys_ok y') as Hret.
  { intros e u1 k1 Hi1 E1. destruct (lock_return_ok y w e u1 k1) as ([]&[u2 k2]&->&Hi2); [done|done| |].
    - exists fd. by rewrite E1.
    - eexists. split; [done|]. eapply settle_ok; eauto. }
  case_if; [by apply Hret|].
  pose proof Hi as (Huok&Hk&Hkeep). cbn [fst snd] in *.
  assert (0 < f_count f) as Hpos.
  { destruct Hk as ([_ Hfs]&_). destruct (Hfs _ _ Hf) as (->&_). by apply (refs_pos _ (others_ok y _ Hus) _ (Z.to_nat fd)). }
  destruct (ino_lock_loop_ok (pinned y (w_proc w)) (sy_kern y) [] (refs (others y (w_proc w)) (u_ofile u)) u (sy_kern y) (w_fp w) f (w_ip w) (w_cmd w))
    as (r&[u1 k1]&->&Hr); try done.
  apply lock_done_inv in Hr as (Hi1&Eu&Hsl); try done; [|by apply others_ok|exact (proj1 Hlc)]. cbn [fst snd] in *. subst u1.
  destruct r as [e|pri]; [by apply Hret|]. eexists. split; [done|]. eapply settle_ok; eauto.
  right. exists w. destruct (Hsl pri eq_refl) as (Hfile&Hbl&_). split_and!; try done. split; [done|]. split; [done|].
  exists u, fd. rewrite list_lookup_insert_eq by (by eapply lookup_lt_Some). done.
Qed.

(** The events: fcntl needs a well formed table of processes for pfind. *)
Definition event_ok (e : event) : Prop :=
  match e with EFcntl _ pt _ _ _ => exists live, Proc.hash_wf pt live | _ => True end.

Lemma fork_ok y p q : sys_ok y -> exists y', step (EFork p q) y = Ok y' /\ sys_ok y'.
Proof.
  intros Hok. pose proof Hok as (Hus&_). cbn [step]. destruct (sy_user y !! q) as [[v|]|] eqn:Hq; [by exists y| |by exists y].
  eapply call_ok; [done|intros u; by apply (newproc_share_ok (pinned y p) (sy_kern y) (others y p) (others_ok y p Hus))|].
  cbn beta. intros u0 _ u k Hp Hnp (Eu&Hk&Hkeep). cbn [fst snd] in *. subst u.
  assert (q <> p) as Hqp by congruence. set (u := set_u_error 0 u0) in *.
  assert (user_ok u) as Hu by (apply (user_ok_same u0); [by eapply Hus|done..]).
  apply (settle_users_ok y p (<[q := Some u]> (<[p := Some u]> (sy_user y))) k []); try done; [..|by left].
  - apply users_ok_insert; [apply users_ok_insert; [done|]|]; by intros ? [= <-].
  - eapply kern_ok_R; [exact Hk|]. intros i. unfold refs, others.
    rewrite (total_insert _ q None _ _); [|by rewrite lookup_alter_other].
    rewrite !(total_insert _ _ _ _ _ Hp). simpl. lia.
  - intros w Hin. split; [by apply Hnp|]. pose proof (Hnp w Hin). destruct Hok as (_&_&_&_&Hw&_).
    destruct (Hw w Hin) as (_&_&v&fd&Hv&_). rewrite !lookup_alter_other; [done|done|]. intros E. rewrite E in Hv. congruence.
Qed.

Lemma flock_step_ok y p fd how : sys_ok y -> exists y', step (EFlock p fd how) y = Ok y' /\ sys_ok y'.
Proof.
  intros Hok. pose proof Hok as (Hus&_). cbn [step]. set (cmd := if flag_on how LOCK_EX then _ else _).
  apply (call_ok y p _ (fun u (r : lockres * option nat) s' => inv (pinned y p) (sy_kern y) (others y p) s' /\
    forall pri x, r = (LSleep pri, x) -> exists fp ip, x = Some fp /\ 0 <= fd /\
      u_ofile s'.1 !! Z.to_nat fd = Some (Some fp) /\ sleeps_on s'.2 fp ip cmd)); [done|..].
  - intros u Hi. apply wp_bind. eapply wp_mono; [by apply (flock_ok (pinned y p) (sy_kern y) (others y p) (others_ok y p Hus) (pinned_ok y p))|].
    intros r [u' k'] (Hi'&Eo&Hs). cbn [fst snd] in *. apply wp_bind. destruct r as [e|pri]; [by wp_run|].
    destruct (Hs pri eq_refl) as (Hfd&fp&ip&Hx&Hsl). eapply wp_rd_ofile; [lia|by rewrite Eo|]. wp_run. split; [done|].
    intros pri' x [= -> <-]. exists fp, ip. rewrite Eo. split_and!; try done. lia.
  - intros u0 [r x] u k Hp Hnp [Hi Hs]. cbn [fst snd] in *.
    destruct r as [e|pri]; [by eapply (settle_ok y p u0 u k (Some u) []); auto|].
    destruct (Hs pri x eq_refl) as (fp&ip&->&Hfd&Hx&(f&Hf&Hd&Ht)&Hbl&Hlc). rewrite Hf. destruct f as [fl ty ct mc d off]. simpl in Hd, Ht. subst d.
    apply (settle_ok y p u0 u k (Some u)); auto. right. eexists. split; [done|]. split_and!; [done| |done]. split; [done|]. split; [by eexists|].
    exists u, fd. rewrite list_lookup_insert_eq by (by eapply lookup_lt_Some). done.
Qed.
Lemma open_step_ok y p fname mode cr : sys_ok y -> exists y', step (EOpen p fname mode cr) y = Ok y' /\ sys_ok y'.
Proof.
  intros Hok. pose proof Hok as (Hus&_). cbn [step].
  apply (call_ok y p _ (fun _ => open_post (pinned y p) (sy_kern y) (others y p))); [done|..].
  - intros u. by apply (open_ok (pinned y p) (sy_kern y) (others y p) (others_ok y p Hus) (pinned_ok y p)).
  - intros u0 r u k Hp Hnp [Hi Hr]. cbn [fst snd] in *.
    destruct r as [e|[[fp indx] type]]; [by eapply (settle_ok y p u0 u k (Some u) []); auto|].
    destruct Hr as (Hi0&Hx&ip&(f&Hf&Hd&Ht)&Hbl&Hlc). rewrite Hf. destruct f as [fl ty ct mc d off]. simpl in Hd, Ht. subst d.
    apply (settle_ok y p u0 u k (Some u)); auto. right. eexists. split; [done|]. split_and!; [done| |done]. split; [done|]. split; [by eexists|].
    exists u, indx. rewrite list_lookup_insert_eq by (by eapply lookup_lt_Some). split_and!; try done. by intros ? [= <-].
Qed.

(** The system without a waiter that goes on. *)
Lemma resume_rest_ok y w wait ready err :
  sys_ok y -> sy_wait y ++ sy_ready y ≡ₚ w :: wait ++ ready -> (forall w', w' ∈ wait -> w' ∈ sy_wait y) ->
  exists y', resume (MkSys (sy_user y) (sy_kern y) wait ready) w err = Ok y' /\ sys_ok y'.
Proof.
  intros (Hus&Hk&Hwk&Hnd&Hw&Hbl) Hperm Hsub. rewrite Hperm in Hnd. simpl in Hnd. apply NoDup_cons in Hnd as [Hn Hnd].
  apply resume_ok; cbn [sy_user sy_kern sy_wait sy_ready].
  - split_and!; try done; cbn [sy_user sy_kern sy_wait sy_ready]; [|by auto].
    intros w' Hin. apply Hw. rewrite Hperm. by apply list_elem_of_further.
  - apply Hw. rewrite Hperm. apply list_elem_of_here.
  - intros w' Hin E. apply Hn. rewrite <- E. by apply list_elem_of_fmap_2.
Qed.

Lemma step_ok y e : sys_ok y -> event_ok e -> exists y', step e y = Ok y' /\ sys_ok y'.
Proof.
  intros Hok He. pose proof Hok as (Hus&_&_&Hnd&Hw&Hbl).
  pose proof (fun p => others_ok y p Hus) as Ho. pose proof (fun p => pinned_ok y p) as Hpin.
  destruct e as [p i j|p i j|p pt fd cmd arg|p fd|p fd how|p fname mode cr|p|p q|p|p|n|n err]; cbn [step].
  - apply call0_ok; [done|]. intros u. by apply dup_ok.
  - apply call0_ok; [done|]. intros u. by apply dup2_ok.
  - apply call0_ok; [done|]. intros u Hi. by apply fcntl_ok.
  - apply call0_ok; [done|]. intros u. by apply close_ok.
  - by apply flock_step_ok.
  - by apply open_step_ok.
  - apply call0_ok; [done|]. intros u. by apply pipe_ok.
  - by apply fork_ok.
  - apply call0_ok; [done|]. intros u. by apply exec_close_ok.
  - eapply (call_ok y p _ (fun _ _ s' => inv (pinned y p) (sy_kern y) (others y p) s' /\ forall j i, u_ofile s'.1 !! j <> Some (Some i)));
      [done|intros u; by apply exit_close_ok|].
    intros u0 a u k Hp Hnp [Hi Hnone]. apply (settle_ok y p u0 u k None []); auto.
  - destruct (sy_ready y !! n) as [w|] eqn:Hn; [|by exists y]. apply resume_rest_ok; [done| |done].
    rewrite (delete_Permutation (sy_ready y) n w Hn) at 1. symmetry. apply Permutation_middle.
  - destruct (sy_wait y !! n) as [w|] eqn:Hn; [|by exists y]. case_if; [by exists y|].
    apply resume_rest_ok; [done| |].
    + rewrite (delete_Permutation (sy_wait y) n w Hn) at 1. done.
    + intros w' Hin. rewrite (delete_Permutation (sy_wait y) n w Hn). by apply list_elem_of_further.
Qed.

Lemma sys0_ok (w : W) : sys_ok (sys0 w).
Proof.
  assert (forall i, total (sy_user (sys0 w)) i = 0) as Ht by done.
  assert (user_ok user0) as Hu.
  { split_and!; [done|done| |done|done]. intros j i Hj. apply lookup_replicate in Hj as [? _]. done. }
  split_and!; cbn [sy_user sy_kern sy_wait sy_ready sys0].
  - split; [done|]. intros [|p] u Hp; [by injection Hp as <-|]. apply lookup_replicate in Hp as [? _]. done.
  - split_and!; [|intros ip; split_and!; try done; split; lia|done]. split; [done|]. intros i f Hf.
    cbn [k_file] in Hf. apply lookup_replicate in Hf as [-> _]. split_and!; [by rewrite Ht|done|].
    left. intros Hc. simpl in Hc. lia.
  - done.
  - constructor.
  - intros w' Hw. by apply elem_of_nil in Hw.
  - intros w' Hw. by apply elem_of_nil in Hw.
Qed.

Lemma run_ok y es : sys_ok y -> Forall event_ok es -> exists y', run es y = Ok y' /\ sys_ok y'.
Proof.
  intros Hok Hes. revert y Hok. induction Hes as [|e es He _ IH]; intros y Hok; simpl; [by exists y|].
  destruct (step_ok y e Hok He) as (y'&->&Hok'). by apply IH.
Qed.
Lemma run_sys0_ok (w : W) es y : Forall event_ok es -> run es (sys0 w) = Ok y -> sys_ok y.
Proof. intros Hes Hr. destruct (run_ok _ _ (sys0_ok w) Hes) as (y'&E&Hok). congruence. Qed.

(** (C3) From start-up on, every sequence of system calls on descriptors by
    any of the processes (dup, dup2, fcntl, close, flock, open, pipe, and the
    sharing and closing of fork, exec and exit, with waits for locks) runs
    without a fault, and then the reference count of every file structure is
    the number of descriptors of all processes that point at it; a descriptor
    points at an open file, and is at most the high-water mark u_lastfile. *)
Theorem descriptors_consistent (w : W) es :
  Forall event_ok es ->
  exists y, run es (sys0 w) = Ok y /\
    (forall i f, k_file (sy_kern y) !! i = Some f -> f_count f = total (sy_user y) i) /\
    forall p u fd i, sy_user y !! p = Some (Some u) -> u_ofile u !! fd = Some (Some i) ->
      Z.of_nat fd <= u_lastfile u < NOFILE /\
      exists f, k_file (sy_kern y) !! i = Some f /\ 0 < f_count f /\ is_Some (f_data f).
Proof.
  intros Hes. destruct (run_ok _ _ (sys0_ok w) Hes) as (y&Hr&Hok). exists y. split; [done|].
  pose proof Hok as ([_ Hus]&([Hlen Hfs]&_)&_). split; [intros i f Hf; by destruct (Hfs i f Hf)|].
  intros p u fd i Hp Hfd. pose proof (Hus p u Hp) as (_&_&Ho&Hb). destruct (Ho _ _ Hfd) as [Hi Hl]. split; [lia|].
  destruct (fd_typed (pinned y p) (sy_kern y) (others y p) (others_ok y p (proj1 Hok)) (pinned_ok y p) u (sy_kern y) fd i) as (f&Hf&Hc&_&Hd);
    [by apply sys_inv|done|]. by exists f.
Qed.

(** (C17) Advisory locks exclude each other: in every state that a sequence of
    calls from start-up leads to, at most one open file holds an exclusive
    lock on an inode, and then no file holds a shared one; the lock counts in
    the inode are the numbers of the files that hold the locks. *)
Theorem locks_exclude (w : W) es y ip :
  Forall event_ok es -> run es (sys0 w) = Ok y ->
  (holders FEXLOCK ip (k_file (sy_kern y)) <= 1)%nat /\
  (holders FEXLOCK ip (k_file (sy_kern y)) = 1%nat -> holders FSHLOCK ip (k_file (sy_kern y)) = 0%nat) /\
  i_exlockc (inode_of (sy_kern y) ip) = Z.of_nat (holders FEXLOCK ip (k_file (sy_kern y))) /\
  i_shlockc (inode_of (sy_kern y) ip) = Z.of_nat (holders FSHLOCK ip (k_file (sy_kern y))).
Proof.
  intros Hes Hr. destruct (run_sys0_ok w es y Hes Hr) as (_&(_&Hl&_)&_). destruct (Hl ip) as (E1&E2&_&_&E5&E6).
  split_and!; try done; lia.
Qed.

(** (C38) The tables keep their types: after any sequence of calls from start-up
    the table of files has NFILE entries and the tables of every process
    NOFILE, every descriptor is NULL or points into the table of files,
    u_lastfile is between -1 and NOFILE-1, the reference counts are within 0
    and 300 and so fit u_int, and the lock counts fit u_short. *)
Theorem tables_typed (w : W) es y :
  Forall event_ok es -> run es (sys0 w) = Ok y ->
  length (k_file (sy_kern y)) = NFILE /\ length (sy_user y) = Proc.NPROC /\
  (forall p u, sy_user y !! p = Some (Some u) ->
    length (u_ofile u) = 30%nat /\ length (u_pofile u) = 30%nat /\ -1 <= u_lastfile u < 30 /\
    forall i, Some i ∈ u_ofile u -> (i < NFILE)%nat) /\
  (forall i f, k_file (sy_kern y) !! i = Some f -> 0 <= f_count f <= 300) /\
  (forall ip, 0 <= i_shlockc (inode_of (sy_kern y) ip) <= 24 /\ 0 <= i_exlockc (inode_of (sy_kern y) ip) <= 1).
Proof.
  intros Hes Hr. destruct (run_sys0_ok w es y Hes Hr) as ([Hl Hu]&([Hlen Hfs]&Hlk&_)&_). split_and!; [done|done|..].
  - intros p u Hp. destruct (Hu p u Hp) as (E1&E2&E3&E4). split_and!; [done|done|lia|unfold NOFILE in E4; lia|].
    intros i [j Hj]%list_elem_of_lookup_1. by destruct (E3 j i Hj).
  - intros i f Hf. destruct (Hfs i f Hf) as (->&_). pose proof (total_bound (sy_user y) i Hu) as Hb. rewrite Hl in Hb. unfold Proc.NPROC in Hb. lia.
  - intros ip. destruct (Hlk ip) as (E1&E2&_&_&E5&_). pose proof (holders_le FSHLOCK ip (k_file (sy_kern y))).
    rewrite Hlen in *. unfold NFILE in *. lia.
Qed.

(** A file whose lock is in the way of [cmd] on the inode [ip]. *)
Definition in_the_way (cmd : Z) (ip : nat) (f : file) : Prop :=
  holds FEXLOCK ip f \/ flag_on cmd LOCK_EX = true /\ holds FSHLOCK ip f.

Lemma holder_exists m ip fs : (0 < holders m ip fs)%nat -> exists i f, fs !! i = Some f /\ holds m ip f.
Proof.
  unfold holders. intros Hh. destruct (filter (holds m ip) fs) as [|f r] eqn:E; [simpl in Hh; lia|].
  assert (f ∈ f :: r) as Hf by apply list_elem_of_here. rewrite <- E in Hf.
  apply list_elem_of_filter in Hf as [Hf [i Hi]%list_elem_of_lookup_1]. eauto.
Qed.

(** A process that goes on when no other file is in the way gets the lock. *)
Lemma resume_gets y n w :
  sys_ok y -> sy_ready y !! n = Some w ->
  (forall i f, i <> w_fp w -> k_file (sy_kern y) !! i = Some f -> ~ in_the_way (w_cmd w) (w_ip w) f) ->
  exists y' f, step (EResume n) y = Ok y' /\ asleep y' (w_proc w) = false /\
    k_file (sy_kern y') !! w_fp w = Some f /\ holds (if flag_on (w_cmd w) LOCK_EX then FEXLOCK else FSHLOCK) (w_ip w) f.
Proof.
  intros Hok Hn Hfree. pose proof Hok as (Hus&_&_&Hnd&Hw&_). cbn [step]. rewrite Hn.
  assert (sy_wait y ++ sy_ready y ≡ₚ w :: sy_wait y ++ delete n (sy_ready y)) as Hperm.
  { rewrite (delete_Permutation (sy_ready y) n w Hn) at 1. symmetry. apply Permutation_middle. }
  destruct (Hw w) as (Hlc&(f&Hf&Hd&Ht)&u&fd&Hu&Hfd&Ho&Hx); [rewrite Hperm; apply list_elem_of_here|].
  rewrite Hperm in Hnd. apply NoDup_cons in Hnd as [Hnw _].
  pose proof (sys_inv y _ u Hok Hu) as (Huok&Hk&Hkeep). cbn [fst snd] in *.
  assert (0 < f_count f) as Hpos.
  { destruct Hk as ([_ Hfs]&_). destruct (Hfs _ _ Hf) as (->&_). by apply (refs_pos _ (others_ok y _ Hus) _ (Z.to_nat fd)). }
  unfold resume. cbn [sy_user sy_kern]. rewrite Hu. cbn [negb Z.eqb].
  destruct (ino_lock_loop_ok (pinned y (w_proc w)) (sy_kern y) [] (refs (others y (w_proc w)) (u_ofile u)) u (sy_kern y) (w_fp w) f (w_ip w) (w_cmd w))
    as (r&[u1 k1]&->&g&k'&[= -> ->]&Hk1&_&Ek1&Hr); try done.
  assert (forall m i f', k_file k' !! i = Some f' -> holds m (w_ip w) f' -> flag_on g m = false -> i <> w_fp w /\ k_file (sy_kern y) !! i = Some f') as Hother.
  { intros m i f' Hi' Hh Hg. rewrite Ek1 in Hi'. destruct (decide (i = w_fp w)) as [->|Hne].
    - rewrite (lookup_insert_file (sy_kern y) _ f) in Hi' by done. injection Hi' as <-. destruct Hh as [_ Hh]. simpl in Hh. congruence.
    - by rewrite list_lookup_insert_ne in Hi'. }
  pose proof Hk1 as (_&Hl1&_). destruct (Hl1 (w_ip w)) as (E1&E2&E3&E4&_).
  destruct r as [e|pri].
  - destruct Hr as [[_ Hnb]|(->&Hex&Hsh)]; [destruct Hlc; congruence|]. cbn [mbind res_bind].
    assert (lock_return w 0 (u, k') = Ok ((), (set_u_error 0 u, k'))) as ->
      by (unfold lock_return, copen_locked; by destruct (w_open w)).
    eexists _, (set_f_flag g f). split; [done|]. split_and!.
    + unfold asleep. apply not_true_iff_false. intros (w'&Hin&E)%existsb_exists. apply Nat.eqb_eq in E.
      apply Hnw. rewrite <- E. apply list_elem_of_fmap_2. apply list_elem_of_In in Hin. simpl in Hin.
      rewrite !elem_of_app, !elem_of_lfilter in Hin. rewrite elem_of_app. naive_solver.
    + simpl. rewrite Ek1. by apply (lookup_insert_file (sy_kern y) _ f).
    + split; [done|]. simpl. destruct (flag_on (w_cmd w) LOCK_EX) eqn:Ec; [by apply Hex|]. apply Hsh; [done|].
      destruct Hlc as [[Hc|Hc] _]; [congruence|done].
  - exfalso. destruct Hr as (_&_&[[Hi Hg]|[[Hc Hi] Hg]]).
    + apply E4 in Hi. destruct (holder_exists FEXLOCK (w_ip w) (k_file k')) as (i&f'&Hf'&Hh); [lia|].
      destruct (Hother _ _ _ Hf' Hh Hg) as [Hne Hy]. eapply Hfree; [done|done|]. by left.
    + apply E3 in Hi. destruct (holder_exists FSHLOCK (w_ip w) (k_file k')) as (i&f'&Hf'&Hh); [lia|].
      destruct (Hother _ _ _ Hf' Hh Hg) as [Hne Hy]. eapply Hfree; [done|done|]. by right.
Qed.

(** (C18) Waits for locks end: in every state that a sequence of calls from
    start-up leads to, a process sleeps for a lock only while some open file
    holds a lock that is in the way, so no wakeup is lost; and a process that
    was woken and goes on when no other file is in the way gets the lock. *)
Theorem lock_waits_end (w0 : W) es y :
  Forall event_ok es -> run es (sys0 w0) = Ok y ->
  (forall w, w ∈ sy_wait y -> exists i f, k_file (sy_kern y) !! i = Some f /\ in_the_way (w_cmd w) (w_ip w) f) /\
  (forall n w, sy_ready y !! n = Some w ->
    (forall i f, i <> w_fp w -> k_file (sy_kern y) !! i = Some f -> ~ in_the_way (w_cmd w) (w_ip w) f) ->
    exists y' f, step (EResume n) y = Ok y' /\ asleep y' (w_proc w) = false /\
      k_file (sy_kern y') !! w_fp w = Some f /\
      holds (if flag_on (w_cmd w) LOCK_EX then FEXLOCK else FSHLOCK) (w_ip w) f).
Proof.
  intros Hes Hr. pose proof (run_sys0_ok w0 es y Hes Hr) as Hok. split; [|intros n w; by apply resume_gets].
  intros w Hin. destruct Hok as (_&(_&Hl&_)&_&_&_&Hb). destruct (Hb w Hin) as [_ Hc]. destruct (Hl (w_ip w)) as (E1&E2&E3&E4&_).
  destruct Hc as [Hc|[Hc1 Hc2]].
  - apply E4 in Hc. destruct (holder_exists FEXLOCK (w_ip w) (k_file (sy_kern y))) as (i&f&Hf&Hh); [lia|].
    exists i, f. split; [done|by left].
  - apply E3 in Hc2. destruct (holder_exists FSHLOCK (w_ip w) (k_file (sy_kern y))) as (i&f&Hf&Hh); [lia|].
    exists i, f. split; [done|by right].
Qed.
End Sys.

(** Process 0 opens a file with an exclusive lock and forks process 1, which
    closes its copy and waits for the lock; the close of process 0 wakes it. *)
Definition lock_story : list event :=
  [EOpen 0 "f" 33 0; EFork 0 1; EClose 1 0; EOpen 1 "f" 33 0; EClose 0 0].

Lemma lock_story_ok : Forall event_ok lock_story.
Proof. repeat constructor. Qed.

Lemma descriptors_consistent_witness :
  exists y, run (H := one_inode) lock_story (sys0 0%nat) = Ok y /\
    (forall i f, k_file (sy_kern y) !! i = Some f -> f_count f = total (sy_user y) i) /\
    forall p u fd i, sy_user y !! p = Some (Some u) -> u_ofile u !! fd = Some (Some i) ->
      Z.of_nat fd <= u_lastfile u < NOFILE /\
      exists f, k_file (sy_kern y) !! i = Some f /\ 0 < f_count f /\ is_Some (f_data f).
Proof. exact (descriptors_consistent (H := one_inode) 0%nat lock_story lock_story_ok). Defined.

(** The state after a list of events that runs. *)
Definition final (es : list event) : sys :=
  match run (H := one_inode) es (sys0 0%nat) with Ok y => y | _ => sys0 0%nat end.

Lemma locks_exclude_witness :
  let y := final (take 4 lock_story) in
  (holders FEXLOCK 7 (k_file (sy_kern y)) <= 1)%nat /\
  (holders FEXLOCK 7 (k_file (sy_kern y)) = 1%nat -> holders FSHLOCK 7 (k_file (sy_kern y)) = 0%nat) /\
  i_exlockc (inode_of (sy_kern y) 7) = Z.of_nat (holders FEXLOCK 7 (k_file (sy_kern y))) /\
  i_shlockc (inode_of (sy_kern y) 7) = Z.of_nat (holders FSHLOCK 7 (k_file (sy_kern y))).
Proof.
  apply (locks_exclude (H := one_inode) 0%nat (take 4 lock_story)); [repeat constructor|vm_compute; reflexivity].
Defined.

Lemma tables_typed_witness :
  let y := final lock_story in
  length (k_file (sy_kern y)) = NFILE /\ length (sy_user y) = Proc.NPROC /\
  (forall p u, sy_user y !! p = Some (Some u) ->
    length (u_ofile u) = 30%nat /\ length (u_pofile u) = 30%nat /\ -1 <= u_lastfile u < 30 /\
    forall i, Some i ∈ u_ofile u -> (i < NFILE)%nat) /\
  (forall i f, k_file (sy_kern y) !! i = Some f -> 0 <= f_count f <= 300) /\
  (forall ip, 0 <= i_shlockc (inode_of (sy_kern y) ip) <= 24 /\ 0 <= i_exlockc (inode_of (sy_kern y) ip) <= 1).
Proof.
  apply (tables_typed (H := one_inode) 0%nat lock_story); [repeat constructor|vm_compute; reflexivity].
Defined.

Lemma lock_waits_end_witness :
  let y := final (take 4 lock_story) in
  (forall w, w ∈ sy_wait y -> exists i f, k_file (sy_kern y) !! i = Some f /\ in_the_way (w_cmd w) (w_ip w) f) /\
  (forall n w, sy_ready y !! n = Some w ->
    (forall i f, i <> w_fp w -> k_file (sy_kern y) !! i = Some f -> ~ in_the_way (w_cmd w) (w_ip w) f) ->
    exists y' f, step (H := one_inode) (EResume n) y = Ok y' /\ asleep y' (w_proc w) = false /\
      k_file (sy_kern y') !! w_fp w = Some f /\
      holds (if flag_on (w_cmd w) LOCK_EX then FEXLOCK else FSHLOCK) (w_ip w) f).
Proof.
  apply (lock_waits_end (H := one_inode) 0%nat (take 4 lock_story)); [repeat constructor|vm_compute; reflexivity].
Defined.

(** The story runs as told: process 1 waits, is woken, and gets the lock. *)
Example lock_story_runs :
  map w_proc (sy_wait (final (take 4 lock_story))) = [1%nat] /\
  map w_proc (sy_ready (final lock_story)) = [1%nat] /\
  holders FEXLOCK 7 (k_file (sy_kern (final (lock_story ++ [EResume 0])))) = 1%nat.
Proof. vm_compute. done. Qed.

End Fsys.
