(* ===== verification/Sched.v ===== *)
(** The scheduler's queues (sys/kernel/kern_synch.c): the run queue qs, the
    sixteen sleep queues slpque, and the operations that move a process
    between them: wakeup, setrun, unsleep, setrq, remrq, the search of swtch,
    and the priority decay of updatepri.

    A process is an index into the process table.  The queues are threaded
    through p_link, so one process is on at most one queue at a time. *)
From S2P Require Import Prelude Proc.
Import Proc.

Module Sched.

Definition SQSIZE : Z := 16.
(** [((int)x >> 5) & (SQSIZE - 1)] *)
Definition HASH (x : Z) : nat := Z.to_nat (Z.land (Z.shiftr (s32 x) 5) (SQSIZE - 1)).

(** The process table with the scheduler's variables. *)
Record sched := MkSched {
  tab : list proc;
  qs : option nat;
  slpque : list (option nat);
  runrun : Z; curpri : Z;
  runin : Z; runout : Z; noproc : Z }.

Definition set_tab (v : list proc) (s : sched) : sched :=
  MkSched v (qs s) (slpque s) (runrun s) (curpri s) (runin s) (runout s) (noproc s).
Definition set_qs (v : option nat) (s : sched) : sched :=
  MkSched (tab s) v (slpque s) (runrun s) (curpri s) (runin s) (runout s) (noproc s).
Definition set_slpque (v : list (option nat)) (s : sched) : sched :=
  MkSched (tab s) (qs s) v (runrun s) (curpri s) (runin s) (runout s) (noproc s).
Definition set_runrun (v : Z) (s : sched) : sched :=
  MkSched (tab s) (qs s) (slpque s) v (curpri s) (runin s) (runout s) (noproc s).
Definition set_curpri (v : Z) (s : sched) : sched :=
  MkSched (tab s) (qs s) (slpque s) (runrun s) v (runin s) (runout s) (noproc s).
Definition set_runin (v : Z) (s : sched) : sched :=
  MkSched (tab s) (qs s) (slpque s) (runrun s) (curpri s) v (runout s) (noproc s).
Definition set_runout (v : Z) (s : sched) : sched :=
  MkSched (tab s) (qs s) (slpque s) (runrun s) (curpri s) (runin s) v (noproc s).
Definition set_noproc (v : Z) (s : sched) : sched :=
  MkSched (tab s) (qs s) (slpque s) (runrun s) (curpri s) (runin s) (runout s) v.

(** [p->f = v] on the entry [i]. *)
Definition upd (i : nat) (f : proc -> proc) (s : sched) : res sched :=
  p ← rd (tab s) i;
  l ← wr (tab s) i (f p);
  Ok (set_tab l s).

(** What a [struct proc **] into a sleep queue points to: the head of the
    queue or the p_link of an entry. *)
Inductive linkp := SlpHead (h : nat) | ProcLink (i : nat).
Definition ld_link (s : sched) (q : linkp) : res (option nat) :=
  match q with
  | SlpHead h => rd (slpque s) h
  | ProcLink i => p ← rd (tab s) i; Ok (p_link p)
  end.
Definition st_link (s : sched) (q : linkp) (v : option nat) : res sched :=
  match q with
  | SlpHead h => l ← wr (slpque s) h v; Ok (set_slpque l s)
  | ProcLink i => upd i (set_p_link v) s
  end.

(** [while (a && --p->p_slptime) a = (SCHMAG * a);] where [SCHMAG * a] expands
    to [8/10 * a]; the loop body leaves 0 in [a]. *)
Fixpoint updatepri_loop (fuel : nat) (a slptime : Z) : res (Z * Z) :=
  match fuel with
  | O => Fault
  | S fuel =>
      if a =? 0 then Ok (a, slptime)
      else
        let slptime := s8 (slptime - 1) in
        if slptime =? 0 then Ok (a, slptime)
        else updatepri_loop fuel (Z.quot 8 10 * a) slptime
  end.
Definition updatepri (i : nat) (s : sched) : res sched :=
  p ← rd (tab s) i;
  let a := cpu_byte p in
  '(a, slptime) ← updatepri_loop 3 a (s8 (p_slptime p - 1));
  let a := if a <? 0 then 0 else a in
  let a := if 255 <? a then 255 else a in
  let '(p, rr, _) := setpri (curpri s) (runrun s) (set_p_cpu (s8 a) (set_p_slptime slptime p)) in
  l ← wr (tab s) i p;
  Ok (set_runrun rr (set_tab l s)).

(** Put the process into the run queue. *)
Definition setrq (i : nat) (s : sched) : res sched :=
  s ← upd i (set_p_link (qs s)) s;
  Ok (set_qs (Some i) s).

(** [for (q = qs; q; q = q->p_link) if (q->p_link == p) ... panic("remrq");] *)
Fixpoint remrq_loop (fuel : nat) (q : option nat) (i : nat) (s : sched) : res sched :=
  match fuel with
  | O => Fault
  | S fuel =>
      match q with
      | None => Panic "remrq"
      | Some j =>
          pj ← rd (tab s) j;
          if decide (p_link pj = Some i) then
            p ← rd (tab s) i;
            upd j (set_p_link (p_link p)) s
          else remrq_loop fuel (p_link pj) i s
      end
  end.
Definition remrq (i : nat) (s : sched) : res sched :=
  if decide (qs s = Some i) then
    p ← rd (tab s) i;
    Ok (set_qs (p_link p) s)
  else remrq_loop (S (length (tab s))) (qs s) i s.

(** [while ( *hp != p) hp = &( *hp)->p_link;] *)
Fixpoint unsleep_find (fuel : nat) (hp : linkp) (i : nat) (s : sched) : res linkp :=
  match fuel with
  | O => Fault
  | S fuel =>
      v ← ld_link s hp;
      if decide (v = Some i) then Ok hp
      else match v with
           | Some j => unsleep_find fuel (ProcLink j) i s
           | None => Fault
           end
  end.
Definition unsleep (i : nat) (s : sched) : res sched :=
  p ← rd (tab s) i;
  if negb (p_wchan p =? 0) then
    hp ← unsleep_find (S (length (tab s))) (SlpHead (HASH (p_wchan p))) i s;
    s ← st_link s hp (p_link p);
    upd i (set_p_wchan 0) s
  else Ok s.

(** The inline expansion of setrun(p) in wakeup, up to [runrun++]. *)
Definition wakeup_run (i : nat) (p : proc) (s : sched) : res sched :=
  s ← (if 1 <? p_slptime p then updatepri i s else Ok s);
  s ← upd i (set_p_slptime 0) s;
  s ← upd i (set_p_stat SRUN) s;
  s ← (if flag_on (p_flag p) SLOAD then setrq i s else Ok s);
  Ok (set_runrun (runrun s + 1) s).

Section Channels.
(** The addresses of the kernel variables that are slept on. *)
Context (addr_runout : Z).

(** The loop of wakeup from the link [q]; the test on [runout] calls wakeup
    again, and [goto restart] starts from the head of the queue. *)
Fixpoint wakeup_loop (fuel : nat) (chan : Z) (q : linkp) (s : sched) : res sched :=
  match fuel with
  | O => Fault
  | S fuel =>
      v ← ld_link s q;
      match v with
      | None => Ok s
      | Some i =>
          p ← rd (tab s) i;
          if negb (p_stat p =? SSLEEP) && negb (p_stat p =? SSTOP) then Panic "wakeup"
          else if p_wchan p =? chan then
            s ← upd i (set_p_wchan 0) s;
            s ← st_link s q (p_link p);
            if p_stat p =? SSLEEP then
              s ← wakeup_run i p s;
              s ← (if negb (flag_on (p_flag p) SLOAD) && negb (runout s =? 0) then
                     wakeup_loop fuel addr_runout (SlpHead (HASH addr_runout)) (set_runout 0 s)
                   else Ok s);
              wakeup_loop fuel chan (SlpHead (HASH chan)) s
            else
              s ← upd i (set_p_slptime 0) s;
              wakeup_loop fuel chan q s
          else wakeup_loop fuel chan (ProcLink i) s
      end
  end.
Definition wakeup_fuel (s : sched) : nat := S (length (tab s) + length (tab s) * S (length (tab s))).
Definition wakeup (chan : Z) (s : sched) : res sched :=
  wakeup_loop (wakeup_fuel s) chan (SlpHead (HASH chan)) s.

(** Set the process running. *)
Definition setrun (i : nat) (s : sched) : res sched :=
  p ← rd (tab s) i;
  s ← (if (p_stat p =? SSTOP) || (p_stat p =? SSLEEP) then unsleep i s
       else if p_stat p =? SIDL then Ok s
       else Panic "setrun");
  s ← (if 1 <? p_slptime p then updatepri i s else Ok s);
  s ← upd i (set_p_stat SRUN) s;
  s ← (if flag_on (p_flag p) SLOAD then setrq i s else Ok s);
  p ← rd (tab s) i;
  let s := if p_pri p <? curpri s then set_runrun (runrun s + 1) s else s in
  if negb (flag_on (p_flag p) SLOAD) && negb (runout s =? 0)
  then wakeup addr_runout (set_runout 0 s)
  else Ok s.
End Channels.

(** [for (p = qs; p; p = p->p_link)] of swtch: the best process, its
    predecessor and its priority. *)
Fixpoint swtch_scan (fuel : nat) (s : sched) (p q pp pq : option nat) (n : Z)
    : res (option nat * option nat * Z) :=
  match fuel with
  | O => Fault
  | S fuel =>
      match p with
      | None => Ok (pp, pq, n)
      | Some i =>
          e ← rd (tab s) i;
          if flag_on (p_flag e) SLOAD && (p_pri e <? n)
          then swtch_scan fuel s (p_link e) p p q (p_pri e)
          else swtch_scan fuel s (p_link e) p pp pq n
      end
  end.
(** One turn of the search in swtch, from the label loop on: the process to
    resume, with whether it resumes at the swap save area; [None] is idle(),
    after which the search starts again. *)
Definition swtch (s : sched) : res (sched * option (nat * bool)) :=
  let s := set_runrun 0 (set_noproc 0 s) in
  '(pp, pq, n) ← swtch_scan (S (length (tab s))) s (qs s) None None None 128;
  match pp with
  | None => Ok (s, None)
  | Some i =>
      p ← rd (tab s) i;
      s ← match pq with
          | Some j => upd j (set_p_link (p_link p)) s
          | None => Ok (set_qs (p_link p) s)
          end;
      let s := set_curpri n s in
      s ← upd i (fun p => set_p_flag (flag_clr (p_flag p) SSWAP) p) s;
      Ok (s, Some (i, flag_on (p_flag p) SSWAP))
  end.

(** ** The invariant of the queues

    [rq] is the run queue and [sq h] the sleep queue of hash value [h].  The
    sleep queues hold exactly the processes with a wait channel, each asleep
    or stopped; the run queue holds runnable processes, and every runnable
    process in memory is on it, but those of [off], which are running or about
    to enter it. *)
Record queues (s : sched) (off rq : list nat) (sq : nat -> list nat) : Prop := {
  q_len : length (slpque s) = Z.to_nat SQSIZE;
  q_run : chain p_link (tab s) (qs s) rq;
  q_run_nd : NoDup rq;
  q_run_in : forall i, i ∈ rq -> exists p, tab s !! i = Some p /\ p_stat p = SRUN /\ p_wchan p = 0;
  q_slp : forall h hd, slpque s !! h = Some hd -> chain p_link (tab s) hd (sq h);
  q_slp_nd : forall h, NoDup (sq h);
  q_slp_in : forall h i, (h < Z.to_nat SQSIZE)%nat ->
    (i ∈ sq h <-> exists p, tab s !! i = Some p /\ p_wchan p <> 0 /\ HASH (p_wchan p) = h);
  q_slp_stat : forall i p, tab s !! i = Some p -> p_wchan p <> 0 -> p_stat p = SSLEEP \/ p_stat p = SSTOP;
  q_ready : forall i p, tab s !! i = Some p -> p_stat p = SRUN -> flag_on (p_flag p) SLOAD = true ->
    i ∈ rq \/ i ∈ off;
  q_off : forall i, i ∈ off ->
    (i ∉ rq) /\ exists p, tab s !! i = Some p /\ p_stat p = SRUN /\ p_wchan p = 0 }.

Lemma HASH_lt x : (HASH x < Z.to_nat SQSIZE)%nat.
Proof.
  unfold HASH, SQSIZE. change (16 - 1) with (Z.ones 4). rewrite Z.land_ones by lia.
  pose proof (Z.mod_pos_bound (Z.shiftr (s32 x) 5) (2 ^ 4)). change (2 ^ 4) with 16 in *. lia.
Qed.

Lemma upd_ok i f s p : tab s !! i = Some p -> upd i f s = Ok (set_tab (<[i := f p]> (tab s)) s).
Proof. intros H. unfold upd. rewrite (rd_Some _ _ _ H). cbn [mbind res_bind]. by rewrite (wr_Some _ _ _ _ H). Qed.

(** The priority decay: it changes p_cpu, p_slptime and p_pri only, and does
    not depend on the scheduler's variables. *)
Definition decayed (p : proc) : proc :=
  let a := cpu_byte p in
  let slp := s8 (p_slptime p - 1) in
  let slp' := if a =? 0 then slp else s8 (slp - 1) in
  let a' := if (a =? 0) || (slp' =? 0) then a else 0 in
  (setpri 0 0 (set_p_cpu (s8 a') (set_p_slptime slp' p))).1.1.

Lemma cpu_byte_bound p : 0 <= cpu_byte p < 256.
Proof.
  unfold cpu_byte. change 255 with (Z.ones 8). rewrite Z.land_ones by lia.
  pose proof (Z.mod_pos_bound (p_cpu p) (2 ^ 8)). lia.
Qed.
Lemma updatepri_loop_ok a slp :
  let slp' := if a =? 0 then slp else s8 (slp - 1) in
  updatepri_loop 3 a slp = Ok (if (a =? 0) || (slp' =? 0) then a else 0, slp').
Proof.
  cbn [updatepri_loop]. destruct (Z.eqb_spec a 0) as [->|Ha]; [done|]. cbn [orb].
  destruct (s8 (slp - 1) =? 0) eqn:E; [done|].
  change (Z.quot 8 10) with 0. rewrite Z.mul_0_l. done.
Qed.
Lemma updatepri_ok i s p :
  tab s !! i = Some p ->
  exists rr, runrun s <= rr /\ updatepri i s = Ok (set_runrun rr (set_tab (<[i := decayed p]> (tab s)) s)).
Proof.
  intros H. unfold updatepri. rewrite (rd_Some _ _ _ H). cbn [mbind res_bind].
  rewrite updatepri_loop_ok. cbn [mbind res_bind]. unfold decayed.
  pose proof (cpu_byte_bound p) as Hb.
  set (slp' := if cpu_byte p =? 0 then _ else _).
  set (a' := if (cpu_byte p =? 0) || (slp' =? 0) then cpu_byte p else 0).
  assert (0 <= a' < 256) by (unfold a'; case_match; lia).
  destruct (Z.ltb_spec a' 0); [lia|]. destruct (Z.ltb_spec 255 a'); [lia|].
  unfold setpri. cbn [fst]. rewrite (wr_Some _ _ _ _ H). cbn [mbind res_bind].
  eexists. split; [|done]. case_match; lia.
Qed.

(** Two entries that differ at most in p_link. *)
Definition link_eq (p p' : proc) : Prop := set_p_link None p = set_p_link None p'.
#[export] Instance link_eq_equiv : Equivalence link_eq.
Proof. split; unfold link_eq; congruence. Qed.
Lemma link_eq_set v p : link_eq (set_p_link v p) p.
Proof. done. Qed.
Lemma link_eq_fields p p' :
  link_eq p p' -> p_stat p = p_stat p' /\ p_wchan p = p_wchan p' /\ p_flag p = p_flag p' /\
    p_slptime p = p_slptime p' /\ p_pri p = p_pri p'.
Proof. unfold link_eq. destruct p, p'. cbn. intros [=]. by subst. Qed.

Lemma queues_vars s s' off rq sq :
  tab s' = tab s -> qs s' = qs s -> slpque s' = slpque s -> queues s off rq sq -> queues s' off rq sq.
Proof. intros E1 E2 E3 [H1 H2 H3 H4 H5 H6 H7 H8 H9 H10]. split; rewrite ?E1, ?E2, ?E3; done. Qed.

(** Changing an entry in place. *)
Lemma queues_update s off off' rq sq i p p' :
  queues s off rq sq -> tab s !! i = Some p -> p_link p' = p_link p -> p_wchan p' = p_wchan p ->
  (i ∈ rq -> p_stat p' = SRUN) -> (p_wchan p <> 0 -> p_stat p' = SSLEEP \/ p_stat p' = SSTOP) ->
  (forall x, x <> i -> x ∈ off <-> x ∈ off') -> (p_stat p' = SRUN -> flag_on (p_flag p') SLOAD = true -> i ∈ rq \/ i ∈ off') ->
  (i ∈ off' -> (i ∉ rq) /\ p_stat p' = SRUN /\ p_wchan p' = 0) ->
  queues (set_tab (<[i := p']> (tab s)) s) off' rq sq.
Proof.
  intros [H1 H2 H3 H4 H5 H6 H7 H8 H9 H10] Hi El Ew Hrun Hslp Hoff Hrdy Hin.
  pose proof (lookup_lt_Some _ _ _ Hi) as Hlt.
  split; cbn [tab qs slpque set_tab]; try done.
  - by eapply chain_same.
  - intros x Hx. destruct (decide (i = x)) as [<-|Hne].
    + exists p'. rewrite list_lookup_insert_eq by done. destruct (H4 _ Hx) as (p0&E&_&Hw). simplify_eq.
      split; [done|]. split; [auto|congruence].
    + rewrite list_lookup_insert_ne by done. auto.
  - intros h hd Hh. eapply chain_same; [done..|]. by apply H5.
  - intros h x Hh. rewrite H7 by done. destruct (decide (i = x)) as [<-|Hne].
    + rewrite list_lookup_insert_eq by done. split.
      * intros (p0&E&?&?). simplify_eq. exists p'. by rewrite Ew.
      * intros (p0&[= <-]&?&?). exists p. by rewrite <- Ew.
    + by rewrite list_lookup_insert_ne by done.
  - intros x q. destruct (decide (i = x)) as [<-|Hne].
    + rewrite list_lookup_insert_eq by done. intros [= <-]. rewrite Ew. auto.
    + rewrite list_lookup_insert_ne by done. apply H8.
  - intros x q. destruct (decide (i = x)) as [<-|Hne].
    + rewrite list_lookup_insert_eq by done. intros [= <-]. auto.
    + rewrite list_lookup_insert_ne by done. intros. destruct (H9 x q); [done..|by left|]. right. apply Hoff; auto.
  - intros x Hx. destruct (decide (i = x)) as [<-|Hne].
    + rewrite list_lookup_insert_eq by done. destruct (Hin Hx) as (?&?&?). eauto.
    + rewrite list_lookup_insert_ne by done. apply H10. apply Hoff; auto.
Qed.

(** The entry [i] of a sleep queue is taken out of it: the link [q] that leads
    to it skips it, and it has no channel. *)
Definition prev_link (h : nat) (pre : list nat) : linkp :=
  match last pre with None => SlpHead h | Some j => ProcLink j end.
Definition without (sq : nat -> list nat) (h : nat) (l : list nat) : nat -> list nat :=
  fun k => if decide (k = h) then l else sq k.
Definition unlinked (h : nat) (pre : list nat) (i : nat) (p : proc) (s : sched) : sched :=
  match last pre with
  | None => set_slpque (<[h := p_link p]> (slpque s)) (set_tab (<[i := set_p_wchan 0 p]> (tab s)) s)
  | Some j => set_tab (alter (set_p_link (p_link p)) j (<[i := set_p_wchan 0 p]> (tab s))) s
  end.

Lemma unlinked_same h pre i p s x :
  x <> i -> option_Forall2 link_eq (tab s !! x) (tab (unlinked h pre i p s) !! x).
Proof.
  intros Hx. unfold unlinked. destruct (last pre) as [j|]; cbn [tab set_tab set_slpque].
  - destruct (decide (x = j)) as [->|].
    + rewrite list_lookup_alter_eq, list_lookup_insert_ne by done. destruct (tab s !! j); by constructor.
    + rewrite list_lookup_alter_ne, list_lookup_insert_ne by done. destruct (tab s !! x); by constructor.
  - rewrite list_lookup_insert_ne by done. destruct (tab s !! x); by constructor.
Qed.
Lemma last_in {A} (l : list A) x : last l = Some x -> x ∈ l.
Proof. intros (l'&->)%last_Some. set_solver. Qed.
Lemma unlinked_self h pre i p s :
  tab s !! i = Some p -> i ∉ pre -> tab (unlinked h pre i p s) !! i = Some (set_p_wchan 0 p).
Proof.
  intros Hi Hpre. unfold unlinked. pose proof (lookup_lt_Some _ _ _ Hi).
  destruct (last pre) as [j|] eqn:E; cbn [tab set_tab set_slpque].
  - apply last_in in E. rewrite list_lookup_alter_ne by set_solver. by rewrite list_lookup_insert_eq.
  - by rewrite list_lookup_insert_eq.
Qed.
(** An entry off the queue is not touched. *)
Lemma unlinked_other h pre i p s x :
  x <> i -> x ∉ pre -> tab (unlinked h pre i p s) !! x = tab s !! x.
Proof.
  intros Hx Hpre. unfold unlinked. destruct (last pre) as [j|] eqn:E; cbn [tab set_tab set_slpque].
  - apply last_in in E. rewrite list_lookup_alter_ne by set_solver. by rewrite list_lookup_insert_ne.
  - by rewrite list_lookup_insert_ne.
Qed.
Lemma unlinked_slpque h pre i p s k : k <> h -> slpque (unlinked h pre i p s) !! k = slpque s !! k.
Proof.
  intros Hk. unfold unlinked. destruct (last pre); [done|]. cbn [slpque set_slpque set_tab].
  by rewrite list_lookup_insert_ne.
Qed.

Lemma alter_as_insert {A} (f : A -> A) (m : list A) j e : m !! j = Some e -> alter f j m = <[j := f e]> m.
Proof.
  revert j. induction m as [|x m IH]; intros [|j] H; simplify_eq/=; [done|]. f_equal. by apply IH.
Qed.
Lemma unlinked_chain h pre i p suf s hd hd' :
  chain p_link (tab s) hd (pre ++ i :: suf) -> NoDup (pre ++ i :: suf) -> tab s !! i = Some p ->
  slpque s !! h = Some hd -> slpque (unlinked h pre i p s) !! h = Some hd' ->
  chain p_link (tab (unlinked h pre i p s)) hd' (pre ++ suf).
Proof.
  intros Hc Hnd Hi Hh Hh'. apply NoDup_app in Hnd as (Hn1&Hn12&[Hi2 Hn2]%NoDup_cons).
  assert (i ∉ pre) as Hip by (intros Hp; apply (Hn12 i Hp), list_elem_of_here).
  pose proof Hc as Hc0. apply chain_split in Hc as (h2&(->&e&Hie&Hsuf)&Hl). simplify_eq.
  unfold unlinked in *. destruct pre as [|j pre _] using rev_ind.
  - cbn in *. rewrite list_lookup_insert_eq in Hh' by (by eapply lookup_lt_Some). simplify_eq.
    by apply chain_insert.
  - rewrite last_snoc in *. cbn [slpque tab set_tab] in *. simplify_eq. destruct Hl as (ej&Hj&_).
    assert (j <> i) by set_solver.
    rewrite alter_as_insert with (e := ej) by (by rewrite list_lookup_insert_ne).
    rewrite <- app_assoc. simpl. rewrite <- app_assoc in Hc0. simpl in Hc0.
    rewrite list_insert_insert_ne by done.
    apply chain_insert; [set_solver|]. eapply chain_redirect; [exact Hc0|done|exact Hj|done|].
    intros Hjs. apply (Hn12 j); set_solver.
Qed.

(** Facts on the members of the queues. *)
Section Members.
Context {s : sched} {off rq : list nat} {sq : nat -> list nat} (Hq : queues s off rq sq).

Lemma slept_not_run i p : tab s !! i = Some p -> p_wchan p <> 0 -> i ∉ rq.
Proof. intros Hi Hw H. destruct (q_run_in _ _ _ _ Hq _ H) as (p'&E&_&Hw'). by simplify_eq. Qed.
Lemma slept_entry h i :
  (h < Z.to_nat SQSIZE)%nat -> i ∈ sq h ->
  exists p, tab s !! i = Some p /\ p_wchan p <> 0 /\ HASH (p_wchan p) = h /\ (p_stat p = SSLEEP \/ p_stat p = SSTOP).
Proof.
  intros Hh Hi. apply (q_slp_in _ _ _ _ Hq) in Hi as (p&?&?&?); [|done]. exists p. split_and!; try done.
  by eapply q_slp_stat.
Qed.
Lemma slept_hash h h' i :
  (h < Z.to_nat SQSIZE)%nat -> (h' < Z.to_nat SQSIZE)%nat -> i ∈ sq h -> i ∈ sq h' -> h = h'.
Proof.
  intros Hh Hh' Hi Hi'. destruct (slept_entry _ _ Hh Hi) as (p&E&_&<-&_).
  destruct (slept_entry _ _ Hh' Hi') as (p'&E'&_&<-&_). by simplify_eq.
Qed.
Lemma slept_not_run' h i : (h < Z.to_nat SQSIZE)%nat -> i ∈ sq h -> i ∉ rq.
Proof. intros Hh Hi. destruct (slept_entry _ _ Hh Hi) as (p&?&?&_). by eapply slept_not_run. Qed.
Lemma sleep_head h : (h < Z.to_nat SQSIZE)%nat -> exists hd, slpque s !! h = Some hd.
Proof. intros. apply lookup_lt_is_Some_2. by rewrite (q_len _ _ _ _ Hq). Qed.
Lemma slept_bound h l :
  l ⊆+ sq h -> (h < Z.to_nat SQSIZE)%nat -> (length l <= length (tab s))%nat.
Proof.
  intros Hl Hh. destruct (sleep_head _ Hh) as [hd Hd]. pose proof (q_slp _ _ _ _ Hq _ _ Hd) as Hc.
  pose proof (chain_length _ _ _ _ Hc (q_slp_nd _ _ _ _ Hq h)). apply submseteq_length in Hl. lia.
Qed.
End Members.

Lemma queues_unlink s off rq sq h pre i suf p :
  queues s off rq sq -> (h < Z.to_nat SQSIZE)%nat -> sq h = pre ++ i :: suf -> tab s !! i = Some p ->
  queues (unlinked h pre i p s) off rq (without sq h (pre ++ suf)).
Proof.
  intros Hq Hh Hsq Hi. pose proof (q_slp_nd _ _ _ _ Hq h) as Hnd. rewrite Hsq in Hnd.
  assert (i ∈ sq h) as Hih by (rewrite Hsq; set_solver).
  destruct (slept_entry Hq h i Hh Hih) as (p0&E&Hw&Hhw&Hst). simplify_eq.
  pose proof Hnd as (Hn1&Hn12&[Hi2 Hn2]%NoDup_cons)%NoDup_app.
  assert (i ∉ pre) as Hip by (intros Hp; apply (Hn12 i Hp), list_elem_of_here).
  assert (forall x, x ∈ pre -> x ∈ sq (HASH (p_wchan p))) as Hpre by (intros; rewrite Hsq; set_solver).
  set (h := HASH (p_wchan p)) in *. set (s' := unlinked h pre i p s).
  assert (tab s' !! i = Some (set_p_wchan 0 p)) as Hi' by (by apply unlinked_self).
  assert (forall x q, x <> i -> tab s' !! x = Some q -> exists q0, tab s !! x = Some q0 /\ link_eq q0 q) as Hback.
  { intros x q Hx Hq'. pose proof (unlinked_same h pre i p s x Hx) as H. fold s' in H. rewrite Hq' in H.
    inversion H; subst. eauto. }
  assert (forall x q, x <> i -> tab s !! x = Some q -> exists q0, tab s' !! x = Some q0 /\ link_eq q q0) as Hfwd.
  { intros x q Hx Hq'. pose proof (unlinked_same h pre i p s x Hx) as H. fold s' in H. rewrite Hq' in H.
    inversion H; subst. eauto. }
  split.
  - rewrite <- (q_len _ _ _ _ Hq). unfold s', unlinked. destruct (last pre); [done|]. apply length_insert.
  - assert (qs s' = qs s) as -> by (unfold s', unlinked; by destruct (last pre)).
    eapply chain_frame; [|exact (q_run _ _ _ _ Hq)]. intros x Hx. apply unlinked_other.
    + intros ->. by eapply slept_not_run.
    + intros Hp. by eapply (slept_not_run' Hq h x Hh (Hpre x Hp)).
  - apply Hq.
  - intros x Hx. assert (x <> i) by (intros ->; by eapply slept_not_run).
    destruct (q_run_in _ _ _ _ Hq _ Hx) as (q&Hxq&Hst'&Hw'). destruct (Hfwd x q) as (q0&Hq0&El); [done..|].
    apply link_eq_fields in El as (E1&E2&_). exists q0. split; [done|]. by rewrite <- E1, <- E2.
  - intros k hd Hk. unfold without. case_decide as Hkh.
    + subst k. destruct (sleep_head Hq h Hh) as [hd0 Hd0]. eapply unlinked_chain; try done.
      pose proof (q_slp _ _ _ _ Hq _ _ Hd0) as Hc. by rewrite Hsq in Hc.
    + unfold s' in Hk. rewrite unlinked_slpque in Hk by done. eapply chain_frame; [|by apply (q_slp _ _ _ _ Hq)].
      assert (k < Z.to_nat SQSIZE)%nat as Hkl by (rewrite <- (q_len _ _ _ _ Hq); by eapply lookup_lt_Some).
      intros x Hx. apply unlinked_other.
      * intros ->. by apply Hkh, (slept_hash Hq k h i).
      * intros Hp. by apply Hkh, (slept_hash Hq k h x Hkl Hh Hx), Hpre.
  - intros k. unfold without. case_decide; [|apply Hq]. apply NoDup_app. split_and!; [done| |done].
    intros x Hx Hs. apply (Hn12 x Hx). set_solver.
  - intros k x Hk. destruct (decide (x = i)) as [->|Hx].
    + rewrite Hi'. unfold without. split.
      * case_decide; [set_solver|]. intros Hk'. pose proof (slept_hash Hq k h i Hk Hh Hk' Hih). done.
      * intros (?&[= <-]&?&_). done.
    + trans (x ∈ sq k).
      { unfold without. case_decide; [|done]. subst k. rewrite Hsq. set_solver. }
      rewrite (q_slp_in _ _ _ _ Hq) by done. split.
      * intros (q&Hxq&Hw'&Hh'). destruct (Hfwd x q) as (q0&Hq0&El); [done..|].
        apply link_eq_fields in El as (_&E2&_). exists q0. by rewrite <- E2.
      * intros (q&Hxq&Hw'&Hh'). destruct (Hback x q) as (q0&Hq0&El); [done..|].
        apply link_eq_fields in El as (_&E2&_). exists q0. by rewrite E2.
  - intros x q Hx Hwx. destruct (decide (x = i)) as [->|Hxi]; [rewrite Hi' in Hx; by simplify_eq|].
    destruct (Hback x q) as (q0&Hq0&El); [done..|]. apply link_eq_fields in El as (E1&E2&_).
    rewrite <- E1. eapply q_slp_stat; [done..|congruence].
  - intros x q Hx Hr Hl. destruct (decide (x = i)) as [->|Hxi].
    + rewrite Hi' in Hx. injection Hx as <-. cbn in Hr. destruct Hst as [E1|E1]; rewrite E1 in Hr; discriminate.
    + destruct (Hback x q) as (q0&Hq0&El); [done..|]. apply link_eq_fields in El as (E1&E2&E3&_).
      eapply q_ready; [done..|congruence|congruence].
  - intros x Hx. destruct (q_off _ _ _ _ Hq x Hx) as (Hnx&q&Hxq&Hs&Hwx). split; [done|].
    assert (x <> i) as Hxi by (intros ->; simplify_eq).
    destruct (Hfwd x q) as (q0&Hq0&(E1&E2&_)%link_eq_fields); [done..|]. exists q0. by rewrite <- E1, <- E2.
Qed.

Lemma queues_setrq s off rq sq i p :
  queues s (i :: off) rq sq -> tab s !! i = Some p -> p_stat p = SRUN -> p_wchan p = 0 -> i ∉ rq -> i ∉ off ->
  exists s', setrq i s = Ok s' /\ s' = set_qs (Some i) (set_tab (<[i := set_p_link (qs s) p]> (tab s)) s) /\
    queues s' off (i :: rq) sq.
Proof.
  intros Hq Hi Hr Hw Hni Hno. unfold setrq. rewrite (upd_ok _ _ _ _ Hi). cbn [mbind res_bind].
  eexists. split; [done|]. split; [done|]. pose proof (lookup_lt_Some _ _ _ Hi).
  destruct Hq as [H1 H2 H3 H4 H5 H6 H7 H8 H9 H10].
  assert (forall h, (h < Z.to_nat SQSIZE)%nat -> i ∉ sq h) as Hsq.
  { intros h Hh Hin. apply H7 in Hin as (p'&?&?&?); [|done]. by simplify_eq. }
  split; cbn [tab qs slpque set_tab set_qs].
  - done.
  - split; [done|]. eexists. rewrite list_lookup_insert_eq by done. split; [done|]. by apply chain_insert.
  - by apply NoDup_cons.
  - intros x Hx. destruct (decide (i = x)) as [<-|Hne].
    + rewrite list_lookup_insert_eq by done. by eexists.
    + rewrite list_lookup_insert_ne by done. apply H4. set_solver.
  - intros h hd Hh. apply chain_insert; [|by apply H5]. apply Hsq. rewrite <- H1. by eapply lookup_lt_Some.
  - done.
  - intros h x Hh. rewrite H7 by done. destruct (decide (i = x)) as [<-|Hne].
    + rewrite list_lookup_insert_eq by done. split; intros (p0&?&?&?); simplify_eq/=.
    + by rewrite list_lookup_insert_ne by done.
  - intros x q. destruct (decide (i = x)) as [<-|Hne].
    + rewrite list_lookup_insert_eq by done. by intros [= <-].
    + rewrite list_lookup_insert_ne by done. apply H8.
  - intros x q. destruct (decide (i = x)) as [<-|Hne].
    + intros. left. apply list_elem_of_here.
    + rewrite list_lookup_insert_ne by done. intros Hx Hr' Hl. destruct (H9 x q Hx Hr' Hl); set_solver.
  - intros x Hx. assert (x <> i) by (intros ->; done). rewrite list_lookup_insert_ne by done.
    destruct (H10 x) as [? ?]; [by apply list_elem_of_further|]. split; [|done]. by rewrite not_elem_of_cons.
Qed.

(** Processes with a channel, counted. *)
Definition wchans (s : sched) : list Z := p_wchan <$> tab s.
Definition nz (ws : list Z) : nat := length (filter (fun w => w <> 0) ws).
Lemma nz_clear ws i w : ws !! i = Some w -> w <> 0 -> S (nz (<[i := 0]> ws)) = nz ws.
Proof.
  intros Hi Hw. unfold nz. rewrite insert_take_drop by (by eapply lookup_lt_Some).
  rewrite <- (take_drop_middle ws i w Hi) at 3. rewrite !filter_app, !length_app.
  rewrite filter_cons_False by (by intros []). rewrite filter_cons_True by done. simpl. lia.
Qed.
Lemma nz_length ws : (nz ws <= length ws)%nat.
Proof. apply length_filter. Qed.
Lemma nz_bound l : forall ws, NoDup l -> (forall i, i ∈ l -> exists w, ws !! i = Some w /\ w <> 0) -> (length l <= nz ws)%nat.
Proof.
  induction l as [|i l IH]; intros ws Hnd Hin; simpl; [lia|]. apply NoDup_cons in Hnd as [Hi Hnd].
  destruct (Hin i) as (w&Hw&H0); [apply list_elem_of_here|]. rewrite <- (nz_clear ws i w Hw H0).
  apply le_n_S, IH; [done|]. intros j Hj. rewrite list_lookup_insert_ne by set_solver. apply Hin. set_solver.
Qed.
Lemma slept_nz s off rq sq h :
  queues s off rq sq -> (h < Z.to_nat SQSIZE)%nat -> (length (sq h) <= nz (wchans s))%nat.
Proof.
  intros Hq Hh. apply nz_bound; [apply Hq|]. intros i Hi. destruct (slept_entry Hq h i Hh Hi) as (p&E&Hw&_).
  exists (p_wchan p). unfold wchans. rewrite list_lookup_fmap, E. done.
Qed.

Lemma wchans_same s i p p' :
  tab s !! i = Some p -> p_wchan p' = p_wchan p -> p_wchan <$> <[i := p']> (tab s) = wchans s.
Proof.
  intros Hi E. rewrite list_fmap_insert. apply list_insert_id. unfold wchans. by rewrite list_lookup_fmap, Hi, E.
Qed.
Lemma wchans_unlinked h pre i p s :
  wchans (unlinked h pre i p s) = <[i := 0]> (wchans s).
Proof.
  unfold wchans, unlinked. destruct (last pre) as [j|]; cbn [tab set_tab set_slpque]; [|apply list_fmap_insert].
  change (<[i := 0]> (p_wchan <$> tab s)) with (<[i := p_wchan (set_p_wchan 0 p)]> (p_wchan <$> tab s)).
  rewrite <- list_fmap_insert. apply list_eq. intros x. rewrite !list_lookup_fmap.
  destruct (decide (x = j)) as [->|]; [|by rewrite list_lookup_alter_ne].
  rewrite list_lookup_alter_eq. by destruct (_ !! j).
Qed.

Lemma ld_prev_link s off rq sq h pre suf :
  queues s off rq sq -> (h < Z.to_nat SQSIZE)%nat -> sq h = pre ++ suf ->
  ld_link s (prev_link h pre) = Ok (head suf).
Proof.
  intros Hq Hh E. destruct (sleep_head Hq h Hh) as [hd Hd]. pose proof (q_slp _ _ _ _ Hq _ _ Hd) as Hc.
  rewrite E in Hc. apply chain_split in Hc as (h2&Hc2&Hl). apply chain_head in Hc2 as ->.
  unfold prev_link, ld_link. destruct (last pre) as [j|].
  - destruct Hl as (e&Hj&<-). by rewrite (rd_Some _ _ _ Hj).
  - subst hd. by rewrite (rd_Some _ _ _ Hd).
Qed.

Lemma unlink_ok s off rq sq h pre i suf p :
  queues s off rq sq -> (h < Z.to_nat SQSIZE)%nat -> sq h = pre ++ i :: suf -> tab s !! i = Some p ->
  (s ← upd i (set_p_wchan 0) s; st_link s (prev_link h pre) (p_link p)) = Ok (unlinked h pre i p s) /\
  (s ← st_link s (prev_link h pre) (p_link p); upd i (set_p_wchan 0) s) = Ok (unlinked h pre i p s).
Proof.
  intros Hq Hh E Hi. pose proof (q_slp_nd _ _ _ _ Hq h) as Hnd. rewrite E in Hnd.
  apply NoDup_app in Hnd as (_&Hn12&_). destruct (sleep_head Hq h Hh) as [hd Hd].
  rewrite (upd_ok _ _ _ _ Hi). cbn [mbind res_bind]. unfold prev_link, unlinked. destruct (last pre) as [j|] eqn:Ej.
  - apply last_in in Ej. assert (j <> i) by (intros ->; apply (Hn12 i Ej), list_elem_of_here).
    assert (j ∈ sq h) as Hj by (rewrite E; set_solver). destruct (slept_entry Hq h j Hh Hj) as (pj&Hpj&_).
    cbn [st_link]. rewrite (upd_ok j _ s pj) by done. cbn [mbind res_bind].
    rewrite (upd_ok j _ _ pj) by (cbn; by rewrite list_lookup_insert_ne).
    rewrite (upd_ok i _ _ p) by (cbn; by rewrite list_lookup_insert_ne).
    rewrite (alter_as_insert _ _ j pj) by (by rewrite list_lookup_insert_ne). cbn [tab set_tab].
    split; [done|]. rewrite list_insert_insert_ne by done. done.
  - cbn [st_link]. cbn [slpque set_tab]. rewrite (wr_Some _ _ _ _ Hd). cbn [mbind res_bind]. split; [done|].
    rewrite (upd_ok i _ _ p) by done. done.
Qed.

(** What waking does to a process. *)
Definition woke (p : proc) : proc :=
  let p0 := set_p_wchan 0 p in
  if p_stat p =? SSLEEP
  then set_p_stat SRUN (set_p_slptime 0 (if 1 <? p_slptime p then decayed p0 else p0))
  else set_p_slptime 0 p0.
Lemma link_eq_as_set p p' : link_eq p p' -> p' = set_p_link (p_link p') p.
Proof. unfold link_eq. destruct p, p'. cbn. intros [=]. by subst. Qed.
#[export] Instance woke_proper : Proper (link_eq ==> link_eq) woke.
Proof.
  intros p p' E. rewrite (link_eq_as_set p p' E). unfold woke. cbn [p_stat p_slptime set_p_link].
  repeat case_match; done.
Qed.
Lemma woke_fields p :
  p_link (woke p) = p_link p /\ p_wchan (woke p) = 0 /\ p_flag (woke p) = p_flag p /\
  p_slptime (woke p) = 0 /\ p_stat (woke p) = (if p_stat p =? SSLEEP then SRUN else p_stat p).
Proof. unfold woke. destruct (p_stat p =? SSLEEP) eqn:E; [|done]. case_match; done. Qed.

Section Wakeup.
(** The address of the kernel variable runout. *)
Context (addr_runout : Z) (Hrunout : addr_runout <> 0).

(** [effect chan s s']: of the processes, those waiting for [chan] may have
    been woken, and those waiting for memory when runout was cleared. *)
Definition effect (chan : Z) (s s' : sched) : Prop :=
  curpri s' = curpri s /\ runin s' = runin s /\ noproc s' = noproc s /\
  (runout s' = runout s \/ runout s' = 0) /\
  forall x, option_Forall2 (fun p p' => link_eq p p' \/
    p_wchan p <> 0 /\ (p_wchan p = chan \/ runout s <> 0 /\ runout s' = 0 /\ p_wchan p = addr_runout) /\
    link_eq (woke p) p') (tab s !! x) (tab s' !! x).

Lemma effect_refl chan s s' :
  tab s' = tab s -> curpri s' = curpri s -> runin s' = runin s -> noproc s' = noproc s ->
  runout s' = runout s \/ runout s' = 0 -> effect chan s s'.
Proof.
  intros Et ????. split_and!; try done. intros x. rewrite Et. destruct (tab s !! x); constructor. by left.
Qed.
Lemma effect_trans chan s1 s2 s3 : effect chan s1 s2 -> effect chan s2 s3 -> effect chan s1 s3.
Proof.
  intros (A1&A2&A3&A4&A5) (B1&B2&B3&B4&B5). split_and!; try congruence.
  { destruct A4 as [E|E], B4 as [E'|E']; rewrite ?E', ?E; auto. }
  intros x. specialize (A5 x). specialize (B5 x).
  destruct (tab s1 !! x) as [p1|], (tab s2 !! x) as [p2|]; inversion A5 as [? ? A|]; subst;
    destruct (tab s3 !! x) as [p3|]; inversion B5 as [? ? B|]; subst; constructor.
  - destruct A as [A|(Aw&Ac&A)].
    + destruct B as [B|(Bw&Bc&B)]; [left; by trans p2|]. right.
      pose proof (link_eq_fields _ _ A) as (_&Ew&_). rewrite Ew. split; [done|]. split.
      * destruct Bc as [?|(R1&R2&?)]; [by left|]. right. split_and!; [|done|done]. destruct A4; congruence.
      * by rewrite A.
    + right. split; [done|]. split.
      * destruct Ac as [?|(R1&R2&?)]; [by left|]. right. split_and!; try done. destruct B4; congruence.
      * destruct B as [B|(Bw&_)]; [by trans p2|]. exfalso. apply Bw.
        apply link_eq_fields in A as (_&<-&_). apply woke_fields.
Qed.
Lemma effect_runout chan s s' :
  runout s <> 0 -> effect addr_runout (set_runout 0 s) s' -> effect chan s s'.
Proof.
  intros Hr (A1&A2&A3&A4&A5). cbn in *. assert (runout s' = 0) as R by (destruct A4; done).
  split_and!; try done; [by right|]. intros x. specialize (A5 x).
  destruct (tab s !! x); inversion A5 as [? ? A|]; subst; constructor.
  destruct A as [A|(Aw&Ac&A)]; [by left|]. right. split; [done|]. split; [|done]. right.
  split_and!; [done..|]. by destruct Ac as [->|(?&_)].
Qed.

(** The inline expansion makes the unlinked process runnable. *)
Lemma wakeup_run_ok s off rq sq h pre i suf p :
  queues s off rq sq -> (h < Z.to_nat SQSIZE)%nat -> sq h = pre ++ i :: suf -> tab s !! i = Some p ->
  p_stat p = SSLEEP ->
  exists s' rq', wakeup_run i p (unlinked h pre i p s) = Ok s' /\ queues s' off rq' (without sq h (pre ++ suf)) /\
    effect (p_wchan p) s s' /\ runout s' = runout s /\ wchans s' = <[i := 0]> (wchans s).
Proof.
  intros Hq Hh E Hi Hst. pose proof (queues_unlink _ _ _ _ _ _ _ _ _ Hq Hh E Hi) as Hq1.
  assert (i ∈ sq h) as Hih by (rewrite E; set_solver).
  destruct (slept_entry Hq h i Hh Hih) as (p0&E0&Hw&_&_). simplify_eq.
  pose proof (q_slp_nd _ _ _ _ Hq h) as Hnd. rewrite E in Hnd. apply NoDup_app in Hnd as (_&Hn12&_).
  assert (i ∉ pre) as Hip by (intros Hp; apply (Hn12 i Hp), list_elem_of_here).
  pose proof (slept_not_run' Hq h i Hh Hih) as Hnr.
  pose proof (unlinked_self h pre i p s Hi Hip) as Hi1.
  pose proof (unlinked_same h pre i p s) as Hsame. pose proof (wchans_unlinked h pre i p s) as Hws.
  assert (curpri (unlinked h pre i p s) = curpri s /\ runin (unlinked h pre i p s) = runin s /\
    noproc (unlinked h pre i p s) = noproc s /\ runout (unlinked h pre i p s) = runout s) as (U1&U2&U3&U4)
    by (unfold unlinked; by destruct (last pre)).
  set (s1 := unlinked h pre i p s) in *. pose proof (woke_fields p) as (W1&W2&W3&W4&W5).
  (* the updates of the entry amount to one *)
  assert (exists rr, forall k : sched -> res sched, (s ← (if 1 <? p_slptime p then updatepri i s1 else Ok s1);
      s ← upd i (set_p_slptime 0) s; s ← upd i (set_p_stat SRUN) s; k s) =
      k (set_runrun rr (set_tab (<[i := woke p]> (tab s1)) s1))) as [rr Hrr].
  { unfold woke. rewrite Hst. cbn [Z.eqb SSLEEP Pos.eqb]. pose proof (lookup_lt_Some _ _ _ Hi1). case_if.
    - destruct (updatepri_ok i s1 _ Hi1) as (rr&_&->). exists rr. intros k. cbn [mbind res_bind].
      generalize (decayed (set_p_wchan 0 p)). intros d.
      erewrite upd_ok by (cbn; by rewrite list_lookup_insert_eq). cbn [mbind res_bind tab set_tab set_runrun].
      erewrite upd_ok by (cbn; rewrite list_lookup_insert_eq; [done|by rewrite length_insert]).
      cbn [tab set_tab set_runrun]. by rewrite !list_insert_insert_eq.
    - exists (runrun s1). intros k. cbn [mbind res_bind]. erewrite upd_ok by done. cbn [mbind res_bind tab set_tab].
      erewrite upd_ok by (cbn; by rewrite list_lookup_insert_eq). cbn [tab set_tab]. rewrite list_insert_insert_eq.
      by destruct s1. }
  unfold wakeup_run. rewrite Hrr.
  assert (forall s', curpri s' = curpri s1 -> runin s' = runin s1 -> noproc s' = noproc s1 -> runout s' = runout s1 ->
    (exists v, tab s' = <[i := set_p_link v (woke p)]> (tab s1)) ->
    effect (p_wchan p) s s' /\ runout s' = runout s /\ wchans s' = <[i := 0]> (wchans s)) as Heff.
  { intros s' F1 F2 F3 F4 [v F5]. split_and!; [|congruence|].
    - split_and!; [congruence..|left; congruence|]. intros x. rewrite F5. destruct (decide (x = i)) as [->|Hx].
      + rewrite Hi, list_lookup_insert_eq by (by eapply lookup_lt_Some). constructor. right. split; [done|].
        split; [by left|done].
      + rewrite list_lookup_insert_ne by done. specialize (Hsame x Hx).
        destruct (tab s !! x); inversion Hsame; subst; constructor. by left.
    - unfold wchans. rewrite F5. erewrite wchans_same by (by rewrite ?W2). done. }
  assert (set_p_link (p_link p) (woke p) = woke p) as Hlk by (rewrite <- W1; by destruct (woke p)).
  assert (i ∉ off) as Hno.
  { intros Hx. destruct (q_off _ _ _ _ Hq i Hx) as (_&q&?&_&?). by simplify_eq. }
  assert (forall off', (forall x, x <> i -> x ∈ off <-> x ∈ off') -> (flag_on (p_flag p) SLOAD = true -> i ∈ off') ->
    queues (set_runrun rr (set_tab (<[i := woke p]> (tab s1)) s1)) off' rq (without sq h (pre ++ suf))) as Hup.
  { intros off' Ho Hl. apply (queues_vars (set_tab (<[i := woke p]> (tab s1)) s1)); [done..|].
    apply (queues_update s1 off off' _ _ i (set_p_wchan 0 p)).
    - exact Hq1.
    - exact Hi1.
    - exact W1.
    - rewrite W2. done.
    - intros Hr. by destruct (Hnr Hr).
    - intros []. done.
    - exact Ho.
    - intros _ Hl'. right. apply Hl. by rewrite <- W3.
    - intros _. rewrite W5, Hst. done. }
  destruct (flag_on (p_flag p) SLOAD) eqn:Hld.
  - assert (queues (set_runrun rr (set_tab (<[i := woke p]> (tab s1)) s1)) (i :: off) rq (without sq h (pre ++ suf))) as Hq2
      by (apply Hup; [intros x Hx; rewrite elem_of_cons; tauto|by left]).
    destruct (queues_setrq _ _ _ _ i (woke p) Hq2) as (s3&->&->&Hq3).
    + cbn. apply list_lookup_insert_eq. by eapply lookup_lt_Some.
    + by rewrite W5, Hst.
    + exact W2.
    + exact Hnr.
    + exact Hno.
    + cbn [mbind res_bind]. eexists _, (i :: rq). split; [done|].
      split; [eapply queues_vars; [| | |exact Hq3]; reflexivity|].
      apply Heff; try reflexivity. exists (qs s1). cbn. by rewrite list_insert_insert_eq.
  - cbn [mbind res_bind]. eexists _, rq. split; [done|]. split.
    + eapply queues_vars; [| | |apply (Hup off); done]; reflexivity.
    + apply Heff; try reflexivity. exists (p_link p). cbn. by rewrite Hlk.
Qed.
(** No process waits for [chan]. *)
Definition nobody (chan : Z) (s : sched) : Prop := forall x p, tab s !! x = Some p -> p_wchan p <> chan.

(** Taking a stopped process off its queue. *)
Lemma wakeup_stopped_ok s off rq sq h pre i suf p :
  queues s off rq sq -> (h < Z.to_nat SQSIZE)%nat -> sq h = pre ++ i :: suf -> tab s !! i = Some p ->
  p_stat p = SSTOP ->
  exists s', upd i (set_p_slptime 0) (unlinked h pre i p s) = Ok s' /\
    queues s' off rq (without sq h (pre ++ suf)) /\ effect (p_wchan p) s s' /\
    runout s' = runout s /\ wchans s' = <[i := 0]> (wchans s).
Proof.
  intros Hq Hh E Hi Hst. pose proof (queues_unlink _ _ _ _ _ _ _ _ _ Hq Hh E Hi) as Hq1.
  assert (i ∈ sq h) as Hih by (rewrite E; set_solver).
  destruct (slept_entry Hq h i Hh Hih) as (p0&E0&Hw&_&_). simplify_eq.
  pose proof (q_slp_nd _ _ _ _ Hq h) as Hnd. rewrite E in Hnd. apply NoDup_app in Hnd as (_&Hn12&_).
  assert (i ∉ pre) as Hip by (intros Hp; apply (Hn12 i Hp), list_elem_of_here).
  pose proof (slept_not_run' Hq h i Hh Hih) as Hnr.
  pose proof (unlinked_self h pre i p s Hi Hip) as Hi1.
  pose proof (unlinked_same h pre i p s) as Hsame. pose proof (wchans_unlinked h pre i p s) as Hws.
  assert (woke p = set_p_slptime 0 (set_p_wchan 0 p)) as Hwk by (unfold woke; by rewrite Hst).
  rewrite (upd_ok _ _ _ _ Hi1). eexists. split; [done|]. split; [|split_and!].
  - apply (queues_update _ off off _ _ i (set_p_wchan 0 p)); try done.
    + cbn. rewrite Hst. discriminate.
    + intros Ho. destruct (q_off _ _ _ _ Hq i Ho) as (_&q&?&_&?). by simplify_eq.
  - assert (forall f : sched -> Z, (forall a b, f (set_slpque a b) = f b) -> (forall a b, f (set_tab a b) = f b) ->
      f (set_tab (<[i:=set_p_slptime 0 (set_p_wchan 0 p)]> (tab (unlinked h pre i p s))) (unlinked h pre i p s)) = f s) as Hf.
    { intros f F1 F2. rewrite F2. unfold unlinked. destruct (last pre); by rewrite ?F1, ?F2. }
    split_and!; [by apply Hf..|left; by apply Hf|]. intros x. cbn [tab set_tab].
    destruct (decide (x = i)) as [->|Hx].
    + rewrite Hi, list_lookup_insert_eq by (by eapply lookup_lt_Some). constructor. right. rewrite Hwk. split_and!; [done|by left|done].
    + rewrite list_lookup_insert_ne by done. specialize (Hsame x Hx).
      destruct (tab s !! x); inversion Hsame; subst; constructor. by left.
  - unfold unlinked. by destruct (last pre).
  - unfold wchans. cbn [tab set_tab]. erewrite wchans_same by done. done.
Qed.

(** Fuel: the rest of the queue, and a whole queue for every process that is
    woken. *)
Definition enough (s : sched) (suf : list nat) : nat :=
  length suf + nz (wchans s) * S (nz (wchans s)).
Lemma enough_less s s' suf suf' i w fuel :
  wchans s !! i = Some w -> w <> 0 -> (length suf' <= nz (wchans s'))%nat ->
  (nz (wchans s') <= nz (<[i := 0%Z]> (wchans s)))%nat ->
  (enough s suf < S fuel)%nat -> (enough s' suf' < fuel)%nat.
Proof. intros Hi Hw Hs E. unfold enough. pose proof (nz_clear _ _ _ Hi Hw). nia. Qed.

Lemma wakeup_loop_ok fuel : forall s chan off rq sq pre suf,
  queues s off rq sq -> sq (HASH chan) = pre ++ suf ->
  (forall x p, x ∈ pre -> tab s !! x = Some p -> p_wchan p <> chan) -> (enough s suf < fuel)%nat -> chan <> 0 ->
  exists s' rq' sq', wakeup_loop addr_runout fuel chan (prev_link (HASH chan) pre) s = Ok s' /\
    queues s' off rq' sq' /\ effect chan s s' /\ nobody chan s' /\ (nz (wchans s') <= nz (wchans s))%nat.
Proof.
  induction fuel as [|fuel IH]; intros s chan off rq sq pre suf Hq E Hpre Hf Hc; [lia|].
  pose proof (HASH_lt chan) as Hh. cbn [wakeup_loop].
  rewrite (ld_prev_link _ _ _ _ _ _ _ Hq Hh E). cbn [mbind res_bind].
  destruct suf as [|i suf]; cbn [head].
  { exists s, rq, sq. split; [done|]. split; [done|]. split; [apply effect_refl; auto|]. split; [|done].
    intros x p Hx Hw. rewrite app_nil_r in E. apply (Hpre x p); [|done|done]. rewrite <- E.
    apply (q_slp_in _ _ _ _ Hq); [done|]. exists p. rewrite Hw. done. }
  assert (i ∈ sq (HASH chan)) as Hih by (rewrite E; set_solver).
  destruct (slept_entry Hq _ i Hh Hih) as (p&Hi&Hw&_&Hst).
  assert (wchans s !! i = Some (p_wchan p)) as Hwi by (unfold wchans; by rewrite list_lookup_fmap, Hi).
  rewrite (rd_Some _ _ _ Hi). cbn [mbind res_bind].
  replace (negb (p_stat p =? SSLEEP) && negb (p_stat p =? SSTOP)) with false by (destruct Hst as [->| ->]; done).
  destruct (Z.eqb_spec (p_wchan p) chan) as [<-|Hne]; last first.
  { assert (ProcLink i = prev_link (HASH chan) (pre ++ [i])) as -> by (unfold prev_link; by rewrite last_snoc).
    apply (IH s chan off rq sq (pre ++ [i]) suf); [done|by rewrite <- app_assoc| | |done].
    - intros x q [Hx| ->%list_elem_of_singleton]%elem_of_app Hxq; [by eapply Hpre|by simplify_eq].
    - unfold enough in *. simpl length in Hf. lia. }
  destruct (unlink_ok _ _ _ _ _ _ _ _ _ Hq Hh E Hi) as [Hun _].
  rewrite <- res_bind_assoc, Hun. cbn [mbind res_bind].
  destruct Hst as [Hst|Hst]; rewrite Hst; cbn [Z.eqb SSLEEP SSTOP Pos.eqb].
  - destruct (wakeup_run_ok _ _ _ _ _ _ _ _ _ Hq Hh E Hi Hst) as (s1&rq1&->&Hq1&He1&Hro&Hws).
    cbn [mbind res_bind].
    assert (exists s2 rq2 sq2, (if negb (flag_on (p_flag p) SLOAD) && negb (runout s1 =? 0) then
        wakeup_loop addr_runout fuel addr_runout (SlpHead (HASH addr_runout)) (set_runout 0 s1) else Ok s1) = Ok s2 /\
        queues s2 off rq2 sq2 /\ effect (p_wchan p) s1 s2 /\ (nz (wchans s2) <= nz (wchans s1))%nat)
      as (s2&rq2&sq2&->&Hq2&He2&Hn2).
    { case_if; [|exists s1, rq1, (without sq (HASH (p_wchan p)) (pre ++ suf)); split_and!; try done; apply effect_refl; auto].
      destruct (IH (set_runout 0 s1) addr_runout off rq1 (without sq (HASH (p_wchan p)) (pre ++ suf)) []
        (without sq (HASH (p_wchan p)) (pre ++ suf) (HASH addr_runout))) as (s2&rq2&sq2&E2&Hq2&He2&_&Hn2).
      - by apply (queues_vars s1).
      - done.
      - intros x ? Hx. by apply elem_of_nil in Hx.
      - eapply (enough_less s); [exact Hwi|done| |by rewrite <- Hws|exact Hf].
        apply (slept_nz _ off rq1); [by apply (queues_vars s1)|apply HASH_lt].
      - done.
      - exists s2, rq2, sq2. split_and!; [done|done| |done]. by apply effect_runout. }
    cbn [mbind res_bind].
    destruct (IH s2 (p_wchan p) off rq2 sq2 [] (sq2 (HASH (p_wchan p)))) as (s3&rq3&sq3&E3&Hq3&He3&Hno&Hn3).
    + done.
    + done.
    + intros x ? Hx. by apply elem_of_nil in Hx.
    + eapply (enough_less s); [exact Hwi|done| |by rewrite <- Hws|exact Hf]. by eapply slept_nz.
    + done.
    + exists s3, rq3, sq3. split_and!; [done|done| |done|].
      * eapply effect_trans; [done|]. by eapply effect_trans.
      * pose proof (nz_clear _ _ _ Hwi Hw). rewrite Hws in Hn2. lia.
  - destruct (wakeup_stopped_ok _ _ _ _ _ _ _ _ _ Hq Hh E Hi Hst) as (s1&->&Hq1&He1&Hro&Hws).
    cbn [mbind res_bind].
    destruct (IH s1 (p_wchan p) off rq (without sq (HASH (p_wchan p)) (pre ++ suf)) pre suf)
      as (s3&rq3&sq3&E3&Hq3&He3&Hno&Hn3).
    + done.
    + unfold without. by rewrite decide_True.
    + intros x q Hx Hxq. destruct He1 as (_&_&_&_&Hx1). specialize (Hx1 x). rewrite Hxq in Hx1.
      inversion Hx1 as [p0 ? Hx2 Hp0|]; subst. symmetry in Hp0. pose proof (Hpre x p0 Hx Hp0) as Hp.
      destruct Hx2 as [El|(_&_&El)]; apply link_eq_fields in El as (_&<-&_); [done|].
      pose proof (woke_fields p0) as (_&->&_). done.
    + eapply (enough_less s); [exact Hwi|done| |by rewrite Hws|exact Hf].
      trans (length (pre ++ suf)); [rewrite length_app; lia|].
      pose proof (slept_nz _ _ _ _ (HASH (p_wchan p)) Hq1 Hh) as Hb. unfold without in Hb.
      by rewrite decide_True in Hb.
    + done.
    + exists s3, rq3, sq3. split_and!; [done|done|by eapply effect_trans|done|].
      pose proof (nz_clear _ _ _ Hwi Hw). rewrite Hws in Hn3. lia.
Qed.
End Wakeup.

(** Taking a process off the run queue. *)
Definition run_unlinked (pre : list nat) (p : proc) (s : sched) : sched :=
  match last pre with
  | None => set_qs (p_link p) s
  | Some j => set_tab (alter (set_p_link (p_link p)) j (tab s)) s
  end.
Lemma run_unlinked_same pre p s x :
  option_Forall2 link_eq (tab s !! x) (tab (run_unlinked pre p s) !! x).
Proof.
  unfold run_unlinked. destruct (last pre) as [j|]; cbn [tab set_tab set_qs];
    [|destruct (tab s !! x); by constructor].
  destruct (decide (x = j)) as [->|].
  - rewrite list_lookup_alter_eq. destruct (tab s !! j); by constructor.
  - rewrite list_lookup_alter_ne by done. destruct (tab s !! x); by constructor.
Qed.
Lemma run_unlinked_other pre p s x : x ∉ pre -> tab (run_unlinked pre p s) !! x = tab s !! x.
Proof.
  intros Hx. unfold run_unlinked. destruct (last pre) as [j|] eqn:E; [|done]. apply last_in in E.
  cbn [tab set_tab]. by rewrite list_lookup_alter_ne by set_solver.
Qed.

Lemma queues_unrun s off pre i suf sq p :
  queues s off (pre ++ i :: suf) sq -> tab s !! i = Some p ->
  queues (run_unlinked pre p s) (i :: off) (pre ++ suf) sq.
Proof.
  intros Hq Hi. pose proof (run_unlinked_same pre p s) as Hsame. set (s' := run_unlinked pre p s) in *.
  assert (forall x q, tab s' !! x = Some q -> exists q0, tab s !! x = Some q0 /\ link_eq q0 q) as Hback.
  { intros x q Hx. specialize (Hsame x). rewrite Hx in Hsame. inversion Hsame; subst. eauto. }
  assert (forall x q, tab s !! x = Some q -> exists q0, tab s' !! x = Some q0 /\ link_eq q q0) as Hfwd.
  { intros x q Hx. specialize (Hsame x). rewrite Hx in Hsame. inversion Hsame; subst. eauto. }
  pose proof (q_run_nd _ _ _ _ Hq) as Hnd. apply NoDup_app in Hnd as (Hn1&Hn12&[Hi2 Hn2]%NoDup_cons).
  split.
  - unfold s', run_unlinked. destruct (last pre); apply Hq.
  - pose proof (q_run _ _ _ _ Hq) as Hc. pose proof Hc as Hc0.
    apply chain_split in Hc as (h2&(->&e&Hie&Hsuf)&Hl). simplify_eq.
    unfold s', run_unlinked. destruct pre as [|j pre _] using rev_ind; [done|].
    rewrite last_snoc in *. cbn [tab qs set_tab]. destruct Hl as (ej&Hj&_).
    rewrite (alter_as_insert _ _ _ _ Hj). rewrite <- app_assoc in Hc0 |- *.
    eapply chain_redirect; [exact Hc0|done|exact Hj|done|]. intros Hjs. apply (Hn12 j); set_solver.
  - apply NoDup_app. split_and!; [done| |done]. intros x Hx Hs. apply (Hn12 x Hx). set_solver.
  - intros x Hx. destruct (q_run_in _ _ _ _ Hq x) as (q&Hxq&?&?); [set_solver|].
    destruct (Hfwd _ _ Hxq) as (q0&Hq0&(E1&E2&_)%link_eq_fields). exists q0. by rewrite <- E1, <- E2.
  - assert (slpque s' = slpque s) as -> by (unfold s', run_unlinked; by destruct (last pre)).
    intros h hd Hh. eapply chain_frame; [|by apply (q_slp _ _ _ _ Hq)]. intros x Hx.
    apply run_unlinked_other. intros Hp.
    apply (slept_not_run' Hq h x); [|done|set_solver]. rewrite <- (q_len _ _ _ _ Hq). by eapply lookup_lt_Some.
  - apply Hq.
  - intros h x Hh. rewrite (q_slp_in _ _ _ _ Hq) by done. split.
    + intros (q&Hxq&?&?). destruct (Hfwd _ _ Hxq) as (q0&Hq0&(_&E2&_)%link_eq_fields). exists q0. by rewrite <- E2.
    + intros (q&Hxq&?&?). destruct (Hback _ _ Hxq) as (q0&Hq0&(_&E2&_)%link_eq_fields). exists q0. by rewrite E2.
  - intros x q Hx Hw. destruct (Hback _ _ Hx) as (q0&Hq0&(E1&E2&_)%link_eq_fields). rewrite <- E1.
    eapply q_slp_stat; [done..|congruence].
  - intros x q Hx Hr Hl. destruct (Hback _ _ Hx) as (q0&Hq0&(E1&E2&E3&_)%link_eq_fields).
    destruct (q_ready _ _ _ _ Hq x q0); [done|congruence|congruence|set_solver|set_solver].
  - intros x [->|Hx]%elem_of_cons.
    + split; [rewrite elem_of_app; intros [H|H]; [by apply (Hn12 i H), list_elem_of_here|done]|].
      destruct (q_run_in _ _ _ _ Hq i) as (q&Hxq&?&?); [set_solver|].
      destruct (Hfwd _ _ Hxq) as (q0&Hq0&(E1&E2&_)%link_eq_fields). exists q0. by rewrite <- E1, <- E2.
    + destruct (q_off _ _ _ _ Hq x Hx) as (Hnx&q&Hxq&?&?). split; [set_solver|].
      destruct (Hfwd _ _ Hxq) as (q0&Hq0&(E1&E2&_)%link_eq_fields). exists q0. by rewrite <- E1, <- E2.
Qed.

Lemma run_entry s off rq sq i :
  queues s off rq sq -> i ∈ rq -> exists p, tab s !! i = Some p /\ p_stat p = SRUN /\ p_wchan p = 0.
Proof. intros Hq. apply Hq. Qed.
Lemma run_bound s off rq sq : queues s off rq sq -> (length rq <= length (tab s))%nat.
Proof. intros Hq. eapply chain_length; apply Hq. Qed.

Lemma remrq_loop_ok s off rq sq i p pre j l suf : forall fuel,
  queues s off rq sq -> rq = pre ++ j :: l ++ i :: suf -> tab s !! i = Some p -> (length l < fuel)%nat ->
  remrq_loop fuel (Some j) i s = Ok (run_unlinked (pre ++ j :: l) p s).
Proof.
  revert pre j. induction l as [|k l IH]; intros pre j [|fuel] Hq E Hi Hf; simpl in Hf; try lia; cbn [remrq_loop].
  - pose proof (q_run _ _ _ _ Hq) as Hc. rewrite E in Hc. apply chain_split in Hc as (h2&(->&ej&Hj&Ei&_)&_).
    rewrite (rd_Some _ _ _ Hj). cbn [mbind res_bind]. rewrite decide_True by done.
    rewrite (rd_Some _ _ _ Hi). cbn [mbind res_bind]. rewrite (upd_ok _ _ _ _ Hj).
    unfold run_unlinked. rewrite last_snoc. by rewrite (alter_as_insert _ _ _ _ Hj).
  - pose proof (q_run _ _ _ _ Hq) as Hc. rewrite E in Hc. apply chain_split in Hc as (h2&(->&ej&Hj&Ek&_)&_).
    rewrite (rd_Some _ _ _ Hj). cbn [mbind res_bind]. rewrite Ek. rewrite decide_False; last first.
    { intros [= ->]. pose proof (q_run_nd _ _ _ _ Hq) as Hnd. rewrite E in Hnd.
      apply NoDup_app in Hnd as (_&_&[_ [Hn _]%NoDup_cons]%NoDup_cons). set_solver. }
    rewrite (IH (pre ++ [j]) k fuel); [|done|by rewrite E, <- app_assoc|done|lia].
    by rewrite <- app_assoc.
Qed.
Lemma remrq_loop_absent s off rq sq i : forall fuel pre suf,
  queues s off rq sq -> rq = pre ++ suf -> i ∉ rq -> (length suf < fuel)%nat ->
  remrq_loop fuel (head suf) i s = Panic "remrq".
Proof.
  induction fuel as [|fuel IH]; intros pre suf Hq E Hi Hf; [lia|]. destruct suf as [|j suf]; [done|].
  cbn [remrq_loop head]. pose proof (q_run _ _ _ _ Hq) as Hc. rewrite E in Hc.
  apply chain_split in Hc as (h2&(->&ej&Hj&Hc)&_). rewrite (rd_Some _ _ _ Hj). cbn [mbind res_bind].
  apply chain_head in Hc. rewrite Hc. rewrite decide_False; last first.
  { intros Hd. destruct suf as [|k suf]; [done|]. injection Hd as ->. set_solver. }
  apply (IH (pre ++ [j])); [done|by rewrite E, <- app_assoc|done|simpl in Hf; lia].
Qed.

Lemma remrq_ok s off rq sq i :
  queues s off rq sq ->
  (forall pre suf, rq = pre ++ i :: suf -> exists s', remrq i s = Ok s' /\ queues s' (i :: off) (pre ++ suf) sq) /\
  (i ∉ rq -> remrq i s = Panic "remrq").
Proof.
  intros Hq. pose proof (run_bound _ _ _ _ Hq) as Hb. pose proof (chain_head _ _ _ _ (q_run _ _ _ _ Hq)) as Hhd.
  unfold remrq. split.
  - intros pre suf ->. destruct (run_entry _ _ _ _ i Hq) as (p&Hi&_); [set_solver|].
    pose proof (queues_unrun _ _ _ _ _ _ _ Hq Hi) as Hq'. destruct pre as [|j pre].
    + rewrite decide_True by done. rewrite (rd_Some _ _ _ Hi). cbn [mbind res_bind]. by eexists.
    + rewrite decide_False; last first.
      { rewrite Hhd. intros [= ->]. pose proof (q_run_nd _ _ _ _ Hq) as [Hn _]%NoDup_cons. set_solver. }
      rewrite Hhd. cbn [head app]. rewrite (remrq_loop_ok s off ((j :: pre) ++ i :: suf) sq i p [] j pre suf); [by eexists|done..|].
      rewrite length_app in Hb. simpl in Hb. lia.
  - intros Hi. rewrite decide_False by (rewrite Hhd; destruct rq; [done|]; intros [= ->]; set_solver).
    rewrite Hhd. by apply (remrq_loop_absent s off rq sq i _ []); [| | |lia].
Qed.

Lemma unsleep_find_ok s off rq sq h i pre0 pre suf : forall fuel,
  queues s off rq sq -> (h < Z.to_nat SQSIZE)%nat -> sq h = pre0 ++ pre ++ i :: suf -> (length pre < fuel)%nat ->
  unsleep_find fuel (prev_link h pre0) i s = Ok (prev_link h (pre0 ++ pre)).
Proof.
  revert pre0. induction pre as [|j pre IH]; intros pre0 [|fuel] Hq Hh E Hf; simpl in Hf; try lia; cbn [unsleep_find];
    rewrite (ld_prev_link _ _ _ _ _ _ _ Hq Hh E); cbn [mbind res_bind head app].
  - by rewrite decide_True, app_nil_r by done.
  - rewrite decide_False; last first.
    { intros [= ->]. pose proof (q_slp_nd _ _ _ _ Hq h) as Hnd. rewrite E in Hnd.
      apply NoDup_app in Hnd as (_&_&[Hn _]%NoDup_cons). set_solver. }
    assert (ProcLink j = prev_link h (pre0 ++ [j])) as -> by (unfold prev_link; by rewrite last_snoc).
    rewrite IH; [by rewrite <- app_assoc|done|done|by rewrite E, <- app_assoc|lia].
Qed.

(** unsleep takes a sleeping process off its queue and leaves the others. *)
Lemma unsleep_ok s off rq sq i p :
  queues s off rq sq -> tab s !! i = Some p ->
  exists s' sq', unsleep i s = Ok s' /\ queues s' off rq sq' /\ tab s' !! i = Some (set_p_wchan 0 p) /\
    (forall x, x <> i -> option_Forall2 link_eq (tab s !! x) (tab s' !! x)) /\
    curpri s' = curpri s /\ runin s' = runin s /\ noproc s' = noproc s /\ runout s' = runout s /\
    runrun s' = runrun s /\ length (tab s') = length (tab s).
Proof.
  intros Hq Hi. unfold unsleep. rewrite (rd_Some _ _ _ Hi). cbn [mbind res_bind].
  destruct (Z.eqb_spec (p_wchan p) 0) as [Hw|Hw]; cbn [negb].
  { exists s, sq. split_and!; try done. by rewrite Hi, <- Hw; destruct p. }
  pose proof (HASH_lt (p_wchan p)) as Hh.
  assert (i ∈ sq (HASH (p_wchan p))) as Hih by (apply (q_slp_in _ _ _ _ Hq); eauto).
  apply list_elem_of_split in Hih as (pre&suf&E). set (h := HASH (p_wchan p)) in *.
  pose proof (q_slp_nd _ _ _ _ Hq h) as Hnd. rewrite E in Hnd. apply NoDup_app in Hnd as (_&Hn12&_).
  assert (i ∉ pre) as Hip by (intros Hp; apply (Hn12 i Hp), list_elem_of_here).
  change (SlpHead h) with (prev_link h []). rewrite (unsleep_find_ok s off rq sq h i [] pre suf); [|done..|].
  2:{ pose proof (slept_bound Hq h (sq h) ltac:(done) Hh) as Hb. rewrite E, length_app in Hb. simpl in Hb. lia. }
  cbn [mbind res_bind app]. destruct (unlink_ok _ _ _ _ _ _ _ _ _ Hq Hh E Hi) as [_ ->].
  exists (unlinked h pre i p s), (without sq h (pre ++ suf)). split; [done|].
  split; [by apply queues_unlink|]. split; [by apply unlinked_self|]. split; [by apply unlinked_same|].
  unfold unlinked. destruct (last pre); cbn; rewrite ?length_alter, ?length_insert; done.
Qed.

Section Run.
(** The address of the kernel variable runout. *)
Context (addr_runout : Z) (Hrunout : addr_runout <> 0).

Lemma wakeup_ok chan s off rq sq :
  queues s off rq sq -> chan <> 0 ->
  exists s' rq' sq', wakeup addr_runout chan s = Ok s' /\ queues s' off rq' sq' /\
    effect addr_runout chan s s' /\ nobody chan s'.
Proof.
  intros Hq Hc. pose proof (HASH_lt chan) as Hh.
  destruct (wakeup_loop_ok addr_runout Hrunout (wakeup_fuel s) s chan off rq sq [] (sq (HASH chan)) Hq)
    as (s'&rq'&sq'&E&Hq'&He&Hn&_); [done| | |done|].
  - intros x ? Hx. by apply elem_of_nil in Hx.
  - unfold enough, wakeup_fuel. pose proof (slept_nz _ _ _ _ _ Hq Hh). pose proof (nz_length (wchans s)) as Hz.
    unfold wchans in Hz at 2. rewrite length_fmap in Hz. nia.
  - exists s', rq', sq'. split_and!; try done.
Qed.

(** What setrun makes of a process. *)
Definition ready (p : proc) : proc :=
  set_p_stat SRUN (if 1 <? p_slptime p then decayed (set_p_wchan 0 p) else set_p_wchan 0 p).
Lemma ready_fields p :
  p_link (ready p) = p_link p /\ p_wchan (ready p) = 0 /\ p_flag (ready p) = p_flag p /\ p_stat (ready p) = SRUN.
Proof. unfold ready. case_match; done. Qed.

(** The part of setrun after the switch on p_stat, up to setrq. *)
Lemma setrun_enqueue s off rq sq i p p1 (k : sched -> res sched) :
  queues s off rq sq -> tab s !! i = Some p1 -> p1 = set_p_wchan 0 p -> i ∉ rq -> i ∉ off ->
  exists s' rq',
    (s ← (if 1 <? p_slptime p then updatepri i s else Ok s);
     s ← upd i (set_p_stat SRUN) s;
     s ← (if flag_on (p_flag p) SLOAD then setrq i s else Ok s); k s) = k s' /\
    queues s' off rq' sq /\ (flag_on (p_flag p) SLOAD = true -> i ∈ rq') /\
    (exists v, tab s' = <[i := set_p_link v (ready p)]> (tab s)) /\
    curpri s' = curpri s /\ runin s' = runin s /\ noproc s' = noproc s /\ runout s' = runout s.
Proof.
  intros Hq Hi -> Hnr Hno. pose proof (lookup_lt_Some _ _ _ Hi) as Hlt. pose proof (ready_fields p) as (W1&W2&W3&W4).
  assert (exists rr, forall k : sched -> res sched, (s ← (if 1 <? p_slptime p then updatepri i s else Ok s);
      s ← upd i (set_p_stat SRUN) s; k s) = k (set_runrun rr (set_tab (<[i := ready p]> (tab s)) s))) as [rr Hrr].
  { unfold ready. case_if.
    - destruct (updatepri_ok i s _ Hi) as (rr&_&->). exists rr. intros k'. cbn [mbind res_bind].
      generalize (decayed (set_p_wchan 0 p)). intros d.
      erewrite upd_ok by (cbn; by rewrite list_lookup_insert_eq). cbn [mbind res_bind tab set_tab set_runrun].
      by rewrite !list_insert_insert_eq.
    - exists (runrun s). intros k'. cbn [mbind res_bind]. erewrite upd_ok by done. by destruct s. }
  rewrite Hrr. assert (forall off', (forall x, x <> i -> x ∈ off <-> x ∈ off') -> (flag_on (p_flag p) SLOAD = true -> i ∈ off') ->
    queues (set_runrun rr (set_tab (<[i := ready p]> (tab s)) s)) off' rq sq) as Hup.
  { intros off' Ho Hl. apply (queues_vars (set_tab (<[i := ready p]> (tab s)) s)); [done..|].
    apply (queues_update s off off' _ _ i (set_p_wchan 0 p)).
    - exact Hq.
    - exact Hi.
    - exact W1.
    - rewrite W2. done.
    - intros Hr. by destruct (Hnr Hr).
    - intros []. done.
    - exact Ho.
    - intros _ Hl'. right. apply Hl. by rewrite <- W3.
    - intros _. done. }
  destruct (flag_on (p_flag p) SLOAD) eqn:Hld.
  - destruct (queues_setrq _ _ _ _ i (ready p) (Hup (i :: off) ltac:(intros x Hx; rewrite elem_of_cons; tauto) ltac:(by left))) as (s3&->&->&Hq3);
      [cbn; by apply list_lookup_insert_eq|done..|].
    cbn [mbind res_bind]. eexists _, (i :: rq). split; [done|]. split; [done|].
    split; [intros _; apply list_elem_of_here|]. split; [|done]. exists (qs s). cbn. by rewrite list_insert_insert_eq.
  - cbn [mbind res_bind]. eexists _, rq. split; [done|]. split; [by apply Hup|]. split; [done|].
    split; [|done]. exists (p_link p). cbn. rewrite <- W1. by destruct (ready p).
Qed.

(** setrun on a sleeping, stopped or new process. *)
Lemma setrun_ok s off rq sq i p :
  queues s off rq sq -> tab s !! i = Some p -> p_stat p = SSLEEP \/ p_stat p = SSTOP \/ p_stat p = SIDL ->
  exists s' rq' sq', setrun addr_runout i s = Ok s' /\ queues s' off rq' sq' /\
    (exists p', tab s' !! i = Some p' /\ link_eq (ready p) p') /\
    (flag_on (p_flag p) SLOAD = true -> i ∈ rq') /\
    forall x, x <> i -> option_Forall2 (fun q q' =>
      link_eq q q' \/ p_wchan q = addr_runout /\ link_eq (woke q) q') (tab s !! x) (tab s' !! x).
Proof.
  intros Hq Hi Hst. unfold setrun. rewrite (rd_Some _ _ _ Hi). cbn [mbind res_bind].
  assert (i ∉ rq) as Hnr.
  { intros Hr. destruct (q_run_in _ _ _ _ Hq _ Hr) as (p0&E&Es&_). simplify_eq. rewrite Es in Hst.
    by destruct Hst as [?|[?|?]]. }
  assert (i ∉ off) as Hno.
  { intros Hx. destruct (q_off _ _ _ _ Hq i Hx) as (_&p0&E&Es&_). simplify_eq. rewrite Es in Hst.
    by destruct Hst as [?|[?|?]]. }
  assert (exists s1 sq1, (if (p_stat p =? SSTOP) || (p_stat p =? SSLEEP) then unsleep i s
       else if p_stat p =? SIDL then Ok s else Panic "setrun") = Ok s1 /\ queues s1 off rq sq1 /\
       tab s1 !! i = Some (set_p_wchan 0 p) /\
       (forall x, x <> i -> option_Forall2 link_eq (tab s !! x) (tab s1 !! x))) as (s1&sq1&->&Hq1&Hi1&Hsame).
  { destruct (unsleep_ok _ _ _ _ _ _ Hq Hi) as (s1&sq1&E1&?&?&?&_).
    destruct Hst as [Hst|[Hst|Hst]]; rewrite Hst; cbn [Z.eqb SSLEEP SSTOP SIDL Pos.eqb orb]; [eauto 10..|].
    exists s, sq. split_and!; try done.
    assert (p_wchan p = 0) as Hw.
    { destruct (Z.eq_dec (p_wchan p) 0) as [|Hw]; [done|]. destruct (q_slp_stat _ _ _ _ Hq _ _ Hi Hw) as [E|E];
        rewrite E in Hst; done. }
    by rewrite Hi, <- Hw; destruct p. }
  cbn [mbind res_bind].
  edestruct (setrun_enqueue s1 off rq sq1 i p) as (s2&rq2&->&Hq2&Hin&[v Ht]&_&_&_&Ero); [done..|].
  assert (tab s2 !! i = Some (set_p_link v (ready p))) as Hi2
    by (rewrite Ht; apply list_lookup_insert_eq; by eapply lookup_lt_Some).
  assert (forall x, x <> i -> option_Forall2 link_eq (tab s !! x) (tab s2 !! x)) as Hsame2.
  { intros x Hx. rewrite Ht, list_lookup_insert_ne by done. by apply Hsame. }
  rewrite (rd_Some _ _ _ Hi2). cbn [mbind res_bind]. set (s3 := if _ <? _ then _ else s2).
  assert (tab s3 = tab s2 /\ queues s3 off rq2 sq1 /\ runout s3 = runout s2) as (Et&Hq3&Er).
  { unfold s3. destruct (_ <? _); [|done]. split_and!; [done| |done]. by apply (queues_vars s2). }
  cbn [p_flag set_p_link]. pose proof (ready_fields p) as (W1&W2&W3&W4). rewrite W3.
  destruct (negb (flag_on (p_flag p) SLOAD) && negb (runout s3 =? 0)) eqn:Ec; bool_to_prop.
  - destruct (wakeup_ok addr_runout (set_runout 0 s3) off rq2 sq1) as (s4&rq4&sq4&->&Hq4&He&_);
      [by apply (queues_vars s3)|done|].
    exists s4, rq4, sq4. split; [done|]. split; [done|]. destruct He as (_&_&_&_&He). cbn [tab set_runout runout] in He.
    rewrite Et in He. split; [|split; [congruence|]].
    + specialize (He i). rewrite Hi2 in He. inversion He as [? p' Hp'|]; subst. exists p'. split; [done|].
      destruct Hp' as [Hp'|(Hp'&_)]; [by rewrite <- Hp'|]. by destruct Hp'.
    + intros x Hx. specialize (Hsame2 x Hx). specialize (He x).
      destruct (tab s !! x), (tab s2 !! x); inversion Hsame2 as [? ? El|]; subst;
        destruct (tab s4 !! x); inversion He as [? ? Eq|]; subst; constructor.
      destruct Eq as [Eq|(_&Ec'&Eq)]; [left; by etrans|]. right. split; [|etrans; [by apply woke_proper|done]].
      pose proof (link_eq_fields _ _ El) as (_&->&_). by destruct Ec' as [|(?&_)].
  - exists s3, rq2, sq1. split; [done|]. split; [done|]. rewrite Et. split; [by eexists|].
    split; [auto|]. intros x Hx. specialize (Hsame2 x Hx).
    destruct (tab s !! x), (tab s2 !! x); inversion Hsame2; subst; constructor. by left.
Qed.
End Run.

(** ** The search of swtch *)

(** [loaded_pri s j n]: the process [j] is in memory and has priority [n]. *)
Definition loaded_pri (s : sched) (j : nat) (n : Z) : Prop :=
  exists p, tab s !! j = Some p /\ flag_on (p_flag p) SLOAD = true /\ p_pri p = n.
(** [i], at its place in [l], is the process swtch chooses from [l]: the
    lowest p_pri of those in memory, and the first of them. *)
Definition chosen (s : sched) (l : list nat) (pp pq : option nat) (n : Z) : Prop :=
  match pp with
  | None => n = 128 /\ forall j m, j ∈ l -> loaded_pri s j m -> 128 <= m
  | Some i => exists l1 l2, l = l1 ++ i :: l2 /\ pq = last l1 /\ loaded_pri s i n /\ n < 128 /\
      (forall j m, j ∈ l1 -> loaded_pri s j m -> n < m) /\ (forall j m, j ∈ l2 -> loaded_pri s j m -> n <= m)
  end.

Lemma chosen_keep s l pp pq n j :
  chosen s l pp pq n -> (forall m, loaded_pri s j m -> n <= m) -> chosen s (l ++ [j]) pp pq n.
Proof.
  intros Hc Hj. destruct pp as [i|]; simpl in *.
  - destruct Hc as (l1&l2&->&?&?&?&?&H2). exists l1, (l2 ++ [j]). rewrite <- app_assoc. split_and!; try done.
    intros k m [Hk| ->%list_elem_of_singleton]%elem_of_app; [by apply H2|by apply Hj].
  - destruct Hc as [-> Hc]. split; [done|]. intros k m [Hk| ->%list_elem_of_singleton]%elem_of_app; [by apply Hc|by apply Hj].
Qed.
Lemma chosen_take s l pp pq n j m :
  chosen s l pp pq n -> loaded_pri s j m -> m < n -> chosen s (l ++ [j]) (Some j) (last l) m.
Proof.
  intros Hc Hj Hm. exists l, []. split; [done|]. split; [done|]. split; [done|]. destruct pp as [i|]; simpl in Hc.
  - destruct Hc as (l1&l2&->&?&Hi&?&H1&H2). split; [lia|]. split; [|set_solver].
    intros k m' [Hk|[->|Hk]%elem_of_cons]%elem_of_app Hkm.
    + specialize (H1 _ _ Hk Hkm). lia.
    + destruct Hi as (p&?&?&?), Hkm as (p'&?&?&?). simplify_eq. lia.
    + specialize (H2 _ _ Hk Hkm). lia.
  - destruct Hc as [-> Hc]. split; [lia|]. split; [|set_solver]. intros k m' Hk Hkm. specialize (Hc _ _ Hk Hkm). lia.
Qed.

Lemma swtch_scan_ok s suf : forall fuel pre h pp pq n,
  chain p_link (tab s) h suf -> (length suf < fuel)%nat -> chosen s pre pp pq n ->
  exists pp' pq' n', swtch_scan fuel s h (last pre) pp pq n = Ok (pp', pq', n') /\ chosen s (pre ++ suf) pp' pq' n'.
Proof.
  induction suf as [|j suf IH]; intros [|fuel] pre h pp pq n Hc Hf Hch; simpl in Hf; try lia; cbn [swtch_scan].
  - simpl in Hc. subst h. rewrite app_nil_r. eauto.
  - destruct Hc as (->&e&Hj&Hc). rewrite (rd_Some _ _ _ Hj). cbn [mbind res_bind].
    rewrite (app_snoc pre suf j). specialize (IH fuel (pre ++ [j]) (p_link e)). rewrite last_snoc in IH.
    destruct (flag_on (p_flag e) SLOAD && (p_pri e <? n)) eqn:E; bool_to_prop.
    + apply IH; [done|lia|]. eapply chosen_take; [done| |done]. by exists e.
    + apply IH; [done|lia|]. apply chosen_keep; [done|]. intros m (p&?&Hl&<-). simplify_eq.
      rewrite Hl in E. by apply Z.ltb_ge.
Qed.

(** (C30) One turn of swtch takes off the run queue the first of the processes
    in memory with the best (lowest) priority, leaves the rest of the queue in
    order, makes its priority the current one, and reports the saved context
    to resume; it finds no process only if none on the queue is in memory. *)
Theorem swtch_spec s off rq sq :
  queues s off rq sq -> Forall (fun p => p_pri p < 128) (tab s) ->
  exists s' r, swtch s = Ok (s', r) /\ runrun s' = 0 /\ noproc s' = 0 /\
    match r with
    | None => queues s' off rq sq /\ forall j m, j ∈ rq -> ~ loaded_pri s j m
    | Some (i, swapped) => exists l1 l2 p, rq = l1 ++ i :: l2 /\ queues s' (i :: off) (l1 ++ l2) sq /\
        tab s !! i = Some p /\ flag_on (p_flag p) SLOAD = true /\ swapped = flag_on (p_flag p) SSWAP /\
        curpri s' = p_pri p /\
        (forall j m, j ∈ l1 -> loaded_pri s j m -> p_pri p < m) /\ (forall j m, j ∈ l2 -> loaded_pri s j m -> p_pri p <= m) /\
        exists p', tab s' !! i = Some p' /\ flag_on (p_flag p') SSWAP = false /\ flag_on (p_flag p') SLOAD = true
    end.
Proof.
  intros Hq Hpri. unfold swtch. set (s0 := set_runrun 0 (set_noproc 0 s)).
  assert (queues s0 off rq sq) as Hq0 by (by apply (queues_vars s)).
  destruct (swtch_scan_ok s0 rq (S (length (tab s0))) [] (qs s0) None None 128) as (pp&pq&n&Es&Hch).
  { apply Hq0. } { pose proof (run_bound _ _ _ _ Hq0). lia. } { split; [done|]. set_solver. }
  change (last (@nil nat)) with (@None nat) in Es. rewrite Es.
  cbn [mbind res_bind]. rewrite app_nil_l in Hch. destruct pp as [i|]; last first.
  { eexists _, None. split; [done|]. split; [done|]. split; [done|]. split; [done|]. intros j m Hj Hm.
    destruct Hch as [_ Hch]. specialize (Hch j m Hj Hm). destruct Hm as (p&Hp&_&<-).
    rewrite Forall_lookup in Hpri. specialize (Hpri _ _ Hp). lia. }
  destruct Hch as (l1&l2&->&->&(p&Hi&Hld&<-)&Hlt&H1&H2).
  assert (i ∉ l1) as Hi1.
  { pose proof (q_run_nd _ _ _ _ Hq0) as (_&H&_)%NoDup_app. intros Hx. apply (H i Hx). set_solver. }
  pose proof (queues_unrun _ _ _ _ _ _ _ Hq0 Hi) as Hq1.
  rewrite (rd_Some _ _ _ Hi). cbn [mbind res_bind].
  assert (match last l1 with Some j => upd j (set_p_link (p_link p)) s0 | None => Ok (set_qs (p_link p) s0) end =
    Ok (run_unlinked l1 p s0)) as ->.
  { unfold run_unlinked. destruct (last l1) as [j|] eqn:Ej; [|done]. apply last_in in Ej.
    destruct (run_entry _ _ _ _ j Hq0) as (pj&Hj&_); [set_solver|]. rewrite (upd_ok _ _ _ _ Hj).
    by rewrite (alter_as_insert _ _ _ _ Hj). }
  cbn [mbind res_bind]. set (s1 := run_unlinked l1 p s0) in *.
  assert (tab s1 !! i = Some p) as Hi' by (unfold s1; by rewrite run_unlinked_other).
  rewrite (upd_ok i _ (set_curpri (p_pri p) s1) p) by done. cbn [mbind res_bind].
  eexists _, (Some (i, _)). split; [done|].
  split; [unfold s1, run_unlinked; by destruct (last l1)|]. split; [unfold s1, run_unlinked; by destruct (last l1)|].
  exists l1, l2, p. split_and!; try done.
  - apply (queues_vars (set_tab (<[i := set_p_flag (flag_clr (p_flag p) SSWAP) p]> (tab s1)) s1)); [done..|].
    destruct (run_entry _ _ _ _ i Hq0) as (p0&E0&Hst&Hw); [set_solver|]. assert (p0 = p) as -> by congruence.
    eapply (queues_update s1 (i :: off)); [exact Hq1|exact Hi'|done|done|done| |done| |].
    + cbn. rewrite Hw. done.
    + intros _ _. right. apply list_elem_of_here.
    + intros Hx. split; [by apply (q_off _ _ _ _ Hq1)|done].
  - eexists. split; [cbn; apply list_lookup_insert_eq; by eapply lookup_lt_Some|].
    cbn. autorewrite with kflags. done.
Qed.

(** (C19) wakeup never panics on well-formed queues and always ends.  Every
    process waiting for the channel stops waiting: the sleeping ones become
    runnable, with their priority decayed for the time they slept, and enter
    the run queue if they are in memory; the stopped ones stay stopped.  No
    other process changes, but those waiting for a process to swap out when
    the wakeup made a process outside memory runnable.  The queues stay well
    formed. *)
Theorem wakeup_spec addr_runout chan s off rq sq :
  addr_runout <> 0 -> chan <> 0 -> queues s off rq sq ->
  exists s' rq' sq', wakeup addr_runout chan s = Ok s' /\ queues s' off rq' sq' /\
    forall x p, tab s !! x = Some p -> exists p', tab s' !! x = Some p' /\
      (p_wchan p = chan -> link_eq (woke p) p' /\
         (p_stat p = SSLEEP -> flag_on (p_flag p) SLOAD = true -> x ∈ rq')) /\
      (p_wchan p <> chan -> link_eq p p' \/
         runout s <> 0 /\ runout s' = 0 /\ p_wchan p = addr_runout /\ link_eq (woke p) p').
Proof.
  intros Hro Hc Hq. destruct (wakeup_ok _ Hro chan s off rq sq Hq Hc) as (s'&rq'&sq'&E&Hq'&(_&_&_&_&He)&Hno).
  exists s', rq', sq'. split; [done|]. split; [done|]. intros x p Hx. specialize (He x). rewrite Hx in He.
  inversion He as [? p' Hp Hn Hx'|]; subst. symmetry in Hx'. exists p'. split; [done|]. split.
  - intros Hw. assert (link_eq (woke p) p') as El.
    { destruct Hp as [(_&E2&_)%link_eq_fields|(_&_&?)]; [|done]. destruct (Hno _ _ Hx'). congruence. }
    split; [done|]. intros Hst Hl.
    assert (x ∉ off) as Hoff.
    { intros Ho. destruct (q_off _ _ _ _ Hq x Ho) as (_&q&?&Es&_). simplify_eq. rewrite Es in Hst. done. }
    pose proof (link_eq_fields _ _ El) as (E1&_&E3&_). pose proof (woke_fields p) as (_&_&W3&_&W5).
    rewrite Hst in W5. destruct (q_ready _ _ _ _ Hq' x p' Hx'); [by rewrite <- E1, W5|by rewrite <- E3, W3|done|done].
  - intros Hw. destruct Hp as [?|(_&[?|(?&?&?)]&?)]; [by left|done|]. right. done.
Qed.

(** setrun makes a sleeping, stopped or new process runnable, off its
    sleep queue and on the run queue if it is in memory, and panics for a
    process in any other state; the queues stay well formed. *)
Theorem setrun_spec addr_runout s off rq sq i p :
  addr_runout <> 0 -> queues s off rq sq -> tab s !! i = Some p ->
  if decide (p_stat p = SSLEEP \/ p_stat p = SSTOP \/ p_stat p = SIDL) then
    exists s' rq' sq' p', setrun addr_runout i s = Ok s' /\ queues s' off rq' sq' /\
      tab s' !! i = Some p' /\ link_eq (ready p) p' /\ p_stat p' = SRUN /\ p_wchan p' = 0 /\
      (flag_on (p_flag p) SLOAD = true -> i ∈ rq')
  else setrun addr_runout i s = Panic "setrun".
Proof.
  intros Hro Hq Hi. case_decide as Hst.
  - destruct (setrun_ok _ Hro s off rq sq i p Hq Hi Hst) as (s'&rq'&sq'&E&Hq'&(p'&Hi'&El)&Hin&_).
    exists s', rq', sq', p'. pose proof (link_eq_fields _ _ El) as (E1&E2&_).
    pose proof (ready_fields p) as (_&W2&_&W4). split_and!; try done. by rewrite <- E2.
  - unfold setrun. rewrite (rd_Some _ _ _ Hi). cbn [mbind res_bind].
    destruct (Z.eqb_spec (p_stat p) SSTOP); [tauto|]. destruct (Z.eqb_spec (p_stat p) SSLEEP); [tauto|].
    destruct (Z.eqb_spec (p_stat p) SIDL); [tauto|]. done.
Qed.

(** A table with process 0 running, 1 asleep on channel 32 and 2 runnable. *)
Definition proc_at (st wchan pri : Z) : proc :=
  set_p_pri pri (set_p_stat st (set_p_wchan wchan (set_p_flag SLOAD inhabitant))).
Definition sched1 : sched :=
  MkSched [proc_at SRUN 0 50; proc_at SSLEEP 32 20; proc_at SRUN 0 60] (Some 2%nat)
    (<[1%nat := Some 1%nat]> (replicate 16 None)) 0 50 0 0 0.
Definition sleepers1 (h : nat) : list nat := if decide (h = 1%nat) then [1%nat] else [].
Lemma sched1_queues : queues sched1 [0%nat] [2%nat] sleepers1.
Proof.
  split.
  - done.
  - split; [done|]. eexists. split; done.
  - apply NoDup_singleton.
  - intros i ->%list_elem_of_singleton. eexists. split; done.
  - intros h hd Hh. unfold sleepers1. case_decide as E.
    + subst h. injection Hh as <-. split; [done|]. eexists. split; done.
    + cbn [slpque sched1] in Hh. rewrite list_lookup_insert_ne in Hh by done.
      apply lookup_replicate in Hh as [-> _]. done.
  - intros h. unfold sleepers1. case_decide; [apply NoDup_singleton|apply NoDup_nil_2].
  - intros h i Hh. unfold sleepers1. split.
    + case_decide; [|set_solver]. subst. intros ->%list_elem_of_singleton. eexists. split; done.
    + intros (p&Hp&Hw&<-). destruct i as [|[|[|i]]]; try done; injection Hp as <-; try done.
      rewrite decide_True by done. apply list_elem_of_here.
  - intros i p Hp Hw. destruct i as [|[|[|i]]]; try done; injection Hp as <-; try done. by left.
  - intros i p Hp Hst _. destruct i as [|[|[|i]]]; try done; injection Hp as <-; try done;
      [right|left]; apply list_elem_of_here.
  - intros i ->%list_elem_of_singleton. split; [set_solver|]. eexists. done.
Qed.
Lemma swtch_spec_witness :
  exists s' r, swtch sched1 = Ok (s', r) /\ runrun s' = 0 /\ noproc s' = 0 /\
    match r with
    | None => queues s' [0%nat] [2%nat] sleepers1 /\ forall j m, j ∈ [2%nat] -> ~ loaded_pri sched1 j m
    | Some (i, swapped) => exists l1 l2 p, [2%nat] = l1 ++ i :: l2 /\ queues s' (i :: [0%nat]) (l1 ++ l2) sleepers1 /\
        tab sched1 !! i = Some p /\ flag_on (p_flag p) SLOAD = true /\ swapped = flag_on (p_flag p) SSWAP /\
        curpri s' = p_pri p /\
        (forall j m, j ∈ l1 -> loaded_pri sched1 j m -> p_pri p < m) /\
        (forall j m, j ∈ l2 -> loaded_pri sched1 j m -> p_pri p <= m) /\
        exists p', tab s' !! i = Some p' /\ flag_on (p_flag p') SSWAP = false /\ flag_on (p_flag p') SLOAD = true
    end.
Proof. apply (swtch_spec sched1); [exact sched1_queues|]. repeat constructor. Defined.
Lemma wakeup_spec_witness :
  exists s' rq' sq', wakeup 4096 32 sched1 = Ok s' /\ queues s' [0%nat] rq' sq' /\
    forall x p, tab sched1 !! x = Some p -> exists p', tab s' !! x = Some p' /\
      (p_wchan p = 32 -> link_eq (woke p) p' /\
         (p_stat p = SSLEEP -> flag_on (p_flag p) SLOAD = true -> x ∈ rq')) /\
      (p_wchan p <> 32 -> link_eq p p' \/
         runout sched1 <> 0 /\ runout s' = 0 /\ p_wchan p = 4096 /\ link_eq (woke p) p').
Proof. apply (wakeup_spec 4096 32 sched1 [0%nat] [2%nat] sleepers1); [done|done|exact sched1_queues]. Defined.
Lemma setrun_spec_witness :
  exists s' rq' sq' p', setrun 4096 1 sched1 = Ok s' /\ queues s' [0%nat] rq' sq' /\
      tab s' !! 1%nat = Some p' /\ link_eq (ready (proc_at SSLEEP 32 20)) p' /\ p_stat p' = SRUN /\ p_wchan p' = 0 /\
      (flag_on (p_flag (proc_at SSLEEP 32 20)) SLOAD = true -> 1%nat ∈ rq').
Proof.
  exact (setrun_spec 4096 sched1 [0%nat] [2%nat] sleepers1 1 (proc_at SSLEEP 32 20)
    ltac:(done) sched1_queues eq_refl).
Defined.

(** The decay of updatepri, which wakeup and setrun apply to a process
    that slept for two seconds or more: after exactly two seconds the usage
    counter is unchanged, after more it is 0, because the factor SCHMAG is the
    integer quotient 8/10. *)
Theorem updatepri_spec i s p :
  tab s !! i = Some p -> 2 <= p_slptime p <= 127 ->
  exists s' p', updatepri i s = Ok s' /\ tab s' !! i = Some p' /\
    cpu_byte p' = (if p_slptime p =? 2 then cpu_byte p else 0) /\
    p_pri p' = s8 (Z.min 127 (cpu_byte p' / 16 + (PUSER + p_nice p))).
Proof.
  intros Hi Hs. destruct (updatepri_ok i s p Hi) as (rr&_&->). eexists _, (decayed p). split; [done|].
  split; [cbn; apply list_lookup_insert_eq; by eapply lookup_lt_Some|].
  pose proof (cpu_byte_bound p) as Hb. unfold decayed. rewrite (s8_small (p_slptime p - 1)) by lia.
  set (slp' := if cpu_byte p =? 0 then _ else _). set (a' := if _ || _ then _ else 0).
  assert (a' = if p_slptime p =? 2 then cpu_byte p else 0) as Ea.
  { unfold a', slp'. destruct (Z.eqb_spec (cpu_byte p) 0) as [->|Hne]; [cbn; by destruct (p_slptime p =? 2)|]. cbn [orb].
    rewrite s8_small by lia. destruct (Z.eqb_spec (p_slptime p) 2), (Z.eqb_spec (p_slptime p - 1 - 1) 0); lia. }
  assert (0 <= a' < 256) as Ha by (rewrite Ea; case_match; lia).
  assert (cpu_byte (setpri 0 0 (set_p_cpu (s8 a') (set_p_slptime slp' p))).1.1 = a') as Ec.
  { unfold setpri, cpu_byte. cbn [fst p_cpu set_p_cpu set_p_pri]. change 255 with (Z.ones 8).
    rewrite Z.land_ones by lia. unfold s8. Z.to_euclidean_division_equations; lia. }
  split; [congruence|]. rewrite Ec. unfold setpri. cbn [fst p_pri set_p_pri].
  replace (cpu_byte (set_p_cpu (s8 a') (set_p_slptime slp' p))) with a' by (symmetry; exact Ec).
  cbn [p_nice set_p_cpu set_p_slptime]. f_equal. rewrite Z.quot_div_nonneg by lia.
  case_if; lia.
Qed.
Lemma updatepri_spec_witness :
  exists s' p', updatepri 0 (set_tab [set_p_slptime 5 (set_p_cpu 100 inhabitant)] sched1) = Ok s' /\
    tab s' !! 0%nat = Some p' /\ cpu_byte p' = 0 /\ p_pri p' = s8 (Z.min 127 (cpu_byte p' / 16 + (PUSER + 0))).
Proof.
  exact (updatepri_spec 0 (set_tab [set_p_slptime 5 (set_p_cpu 100 inhabitant)] sched1)
    (set_p_slptime 5 (set_p_cpu 100 inhabitant)) eq_refl ltac:(done)).
Defined.
End Sched.
