(* ===== verification/Sig.v ===== *)
(** Signals (sys/kernel/kern_sig.c, sys/kernel/kern_sig2.c): posting a signal
    to a process, the choice and the delivery of a pending signal, kill and
    killpg, and the system calls on signal actions and masks.

    A process is an index into the process table of the scheduler state. *)
From S2P Require Import Prelude Proc Sched Mem.
Import Proc Sched.

Module Sig.

(** ** Signal numbers, masks and properties *)

Definition NSIG : Z := 32.
Definition SIGKILL : Z := 9.
Definition SIGALRM : Z := 14.
Definition SIGSTOP : Z := 17.
Definition SIGTSTP : Z := 18.
Definition SIGCONT : Z := 19.
Definition SIGCHLD : Z := 20.
Definition SIGTTIN : Z := 21.
Definition SIGTTOU : Z := 22.
Definition SIG_DFL : Z := 0.
Definition SIG_IGN : Z := 1.
Definition SIG_CATCH : Z := 2.
Definition SIG_HOLD : Z := 3.

(** [(1L << ((m)-1))]; words of signals are kept as unsigned 32-bit values. *)
Definition sigmask (m : Z) : Z := Z.shiftl 1 (m - 1).

Definition SA_KILL : Z := 1.
Definition SA_CORE : Z := 2.
Definition SA_STOP : Z := 4.
Definition SA_TTYSTOP : Z := 8.
Definition SA_IGNORE : Z := 16.
Definition SA_CONT : Z := 32.

Definition sigprop_table : list Z :=
  [0; SA_KILL; SA_KILL;
   Z.lor SA_KILL SA_CORE; Z.lor SA_KILL SA_CORE; Z.lor SA_KILL SA_CORE; Z.lor SA_KILL SA_CORE;
   Z.lor SA_KILL SA_CORE; Z.lor SA_KILL SA_CORE;
   SA_KILL;
   Z.lor SA_KILL SA_CORE; Z.lor SA_KILL SA_CORE; Z.lor SA_KILL SA_CORE;
   SA_KILL; SA_KILL; SA_KILL;
   SA_IGNORE;
   SA_STOP; Z.lor SA_STOP SA_TTYSTOP;
   Z.lor SA_IGNORE SA_CONT;
   SA_IGNORE;
   Z.lor SA_STOP SA_TTYSTOP; Z.lor SA_STOP SA_TTYSTOP;
   SA_IGNORE;
   SA_KILL; SA_KILL; SA_KILL; SA_KILL;
   SA_IGNORE; SA_IGNORE;
   SA_KILL; SA_KILL; 0].
Definition sigprop (sig : Z) : Z := nth (Z.to_nat sig) sigprop_table 0.

Definition contsigmask : Z := sigmask SIGCONT.
Definition stopsigmask : Z :=
  Z.lor (Z.lor (Z.lor (sigmask SIGSTOP) (sigmask SIGTSTP)) (sigmask SIGTTIN)) (sigmask SIGTTOU).
Definition sigcantmask : Z := Z.lor (sigmask SIGKILL) (sigmask SIGSTOP).

Definition SVFORK : Z := 256.
Definition EPERM : Z := 1.
Definition ESRCH : Z := 3.
Definition EINTR : Z := 4.
Definition ENOMEM : Z := 12.
Definition EINVAL : Z := 22.

(** ** psignal *)

(** What psignal does with the process once the signal is recorded. *)
Inductive sigdo := DoOut | DoRun | DoStop | DoUnsleep.

(** The first part of psignal, up to the test for a held signal: the changed
    process and the action; [None] when the signal is ignored, no action when
    it is discarded.  [of_init] tells whether the parent is process 1. *)
Definition psignal_post (of_init : bool) (sig : Z) (p : proc) : option (proc * option Z) :=
  let mask := sigmask sig in
  let prop := sigprop sig in
  if negb (flag_on (p_flag p) P_TRACED) && flag_on (p_sigignore p) mask then None
  else
    let action :=
      if flag_on (p_flag p) P_TRACED then SIG_DFL
      else if flag_on (p_sigmask p) mask then SIG_HOLD
      else if flag_on (p_sigcatch p) mask then SIG_CATCH
      else SIG_DFL in
    let p := if (NZERO <? p_nice p) && (action =? SIG_DFL) && flag_on prop SA_KILL
               && negb (flag_on (p_flag p) P_TRACED)
             then set_p_nice NZERO p else p in
    let p := if flag_on prop SA_CONT then set_p_sig (flag_clr (p_sig p) stopsigmask) p else p in
    if flag_on prop SA_STOP && (flag_on prop SA_TTYSTOP && of_init && (action =? SIG_DFL))
    then Some (p, None)
    else
      let p := if flag_on prop SA_STOP then set_p_sig (flag_clr (p_sig p) contsigmask) p else p in
      Some (set_p_sig (flag_set (p_sig p) mask) p, Some action).

(** The switch on p_stat: what follows, with the signal kept or taken back. *)
Definition psignal_switch (sig action : Z) (p : proc) : proc * sigdo :=
  let mask := sigmask sig in
  let prop := sigprop sig in
  let taken := set_p_sig (flag_clr (p_sig p) mask) p in
  if (action =? SIG_HOLD) && (negb (flag_on prop SA_CONT) || negb (p_stat p =? SSTOP)) then (p, DoOut)
  else if p_stat p =? SSLEEP then
    if negb (flag_on (p_flag p) P_SINTR) then (p, DoOut)
    else if flag_on (p_flag p) P_TRACED then (p, DoRun)
    else if flag_on prop SA_CONT && (action =? SIG_DFL) then (taken, DoOut)
    else if flag_on prop SA_STOP then
      if negb (action =? SIG_DFL) then (p, DoRun)
      else if flag_on (p_flag p) SVFORK then (p, DoOut)
      else (set_p_ptracesig (s8 sig) taken, DoStop)
    else (p, DoRun)
  else if p_stat p =? SSTOP then
    if flag_on (p_flag p) P_TRACED then (p, DoOut)
    else if sig =? SIGKILL then (p, DoRun)
    else if flag_on prop SA_CONT then
      let p := if action =? SIG_DFL then taken else p in
      if (action =? SIG_CATCH) || (p_wchan p =? 0) then (p, DoRun)
      else (set_p_stat SSLEEP p, DoOut)
    else if flag_on prop SA_STOP then (taken, DoOut)
    else if negb (p_wchan p =? 0) && flag_on (p_flag p) P_SINTR then (p, DoUnsleep)
    else (p, DoOut)
  else (p, DoOut).

(** [if (p->p_pri > PUSER) p->p_pri = PUSER;] *)
Definition raise_pri (p : proc) : proc := if PUSER <? p_pri p then set_p_pri PUSER p else p.

Section Addresses.
(** The addresses of runout and of the entries of the process table, which
    processes sleep on. *)
Context (addr_runout : Z) (addr_proc : nat -> Z).

(** Put the process into the stopped state and wake its parent up. *)
Definition stop (i : nat) (s : sched) : res sched :=
  s ← upd i (set_p_stat SSTOP) s;
  s ← upd i (fun p => set_p_flag (flag_clr (p_flag p) P_WAITED) p) s;
  p ← rd (tab s) i;
  match p_pptr p with
  | Some j => wakeup addr_runout (addr_proc j) s
  | None => wakeup addr_runout 0 s
  end.

(** The signal to the parent of a stopping process is SIGCHLD, which stops
    nobody: two levels are enough. *)
Fixpoint psignal_rec (fuel : nat) (i : nat) (sig : Z) (s : sched) : res sched :=
  match fuel with
  | O => Fault
  | S fuel =>
      p ← rd (tab s) i;
      match psignal_post (bool_decide (p_pptr p = Some 1%nat)) sig p with
      | None => Ok s
      | Some (p, None) => upd i (fun _ => p) s
      | Some (p, Some action) =>
          let '(p, todo) := psignal_switch sig action p in
          s ← upd i (fun _ => p) s;
          match todo with
          | DoOut => Ok s
          | DoRun => s ← upd i raise_pri s; setrun addr_runout i s
          | DoStop =>
              match p_pptr p with
              | None => Fault
              | Some j =>
                  pp ← rd (tab s) j;
                  s ← (if negb (flag_on (p_flag pp) P_NOCLDSTOP) then psignal_rec fuel j SIGCHLD s else Ok s);
                  stop i s
              end
          | DoUnsleep => unsleep i s
          end
      end
  end.
Definition psignal (i : nat) (sig : Z) (s : sched) : res sched := psignal_rec 2 i sig s.

(** [for (p = allproc; p != NULL; p = p->p_nxt)] *)
Fixpoint gsignal_loop (fuel : nat) (p : option nat) (pgrp sig : Z) (s : sched) : res sched :=
  match fuel with
  | O => Fault
  | S fuel =>
      match p with
      | None => Ok s
      | Some i =>
          q ← rd (tab s) i;
          s ← (if p_pgrp q =? pgrp then psignal i sig s else Ok s);
          q ← rd (tab s) i;
          gsignal_loop fuel (p_nxt q) pgrp sig s
      end
  end.
Definition gsignal (allproc : option nat) (pgrp sig : Z) (s : sched) : res sched :=
  if pgrp =? 0 then Ok s else gsignal_loop (S (length (tab s))) allproc pgrp sig s.

(** ** kill and killpg

    [cur] is u.u_procp, [ruid] u.u_ruid, [truid q] the real uid fill_from_u
    finds in the user area of [q]; [inf q] is inferior(q). *)
Section Kill.
Context (cur : nat) (ruid : Z) (truid : nat -> Z) (inf : nat -> res bool) (allproc : option nat).

Definition cansignal (q : nat) (signum : Z) (s : sched) : res bool :=
  curp ← rd (tab s) cur;
  qp ← rd (tab s) q;
  if (p_uid curp =? 0) || (ruid =? truid q) || (u32 (p_uid curp) =? truid q) || (ruid =? u32 (p_uid qp))
     || (p_uid curp =? p_uid qp)
  then Ok true
  else if signum =? SIGCONT then inf q else Ok false.

Fixpoint killpg1_loop (fuel : nat) (p : option nat) (signo pgrp : Z) (all : bool) (f error : Z) (s : sched)
    : res (sched * Z) :=
  match fuel with
  | O => Fault
  | S fuel =>
      match p with
      | None => Ok (s, if negb (error =? 0) then error else if f =? 0 then ESRCH else 0)
      | Some i =>
          q ← rd (tab s) i;
          if (negb (p_pgrp q =? pgrp) && negb all) || (p_ppid q =? 0) || flag_on (p_flag q) SSYS
             || (all && (i =? cur)%nat)
          then killpg1_loop fuel (p_nxt q) signo pgrp all f error s
          else
            ok ← cansignal i signo s;
            if negb ok then killpg1_loop fuel (p_nxt q) signo pgrp all f (if negb all then EPERM else error) s
            else
              s ← (if negb (signo =? 0) then psignal i signo s else Ok s);
              q ← rd (tab s) i;
              killpg1_loop fuel (p_nxt q) signo pgrp all (f + 1) error s
      end
  end.
Definition killpg1 (signo pgrp : Z) (all : bool) (s : sched) : res (sched * Z) :=
  curp ← rd (tab s) cur;
  let pgrp' := if negb all && (pgrp =? 0) then p_pgrp curp else pgrp in
  if negb all && (pgrp =? 0) && (pgrp' =? 0) then Ok (s, ESRCH)
  else killpg1_loop (S (length (tab s))) allproc signo pgrp' all 0 0 s.

(** The calls return u.u_error; [find pid] is pfind(pid). *)
Definition kill (find : Z -> res (option nat)) (pid signo : Z) (s : sched) : res (sched * Z) :=
  if (signo <? 0) || (NSIG <=? signo) then Ok (s, EINVAL)
  else if 0 <? pid then
    p ← find pid;
    match p with
    | None => Ok (s, ESRCH)
    | Some i =>
        ok ← cansignal i signo s;
        if negb ok then Ok (s, EPERM)
        else if negb (signo =? 0) then s ← psignal i signo s; Ok (s, 0)
        else Ok (s, 0)
    end
  else if pid =? -1 then killpg1 signo 0 true s
  else if pid =? 0 then killpg1 signo 0 false s
  else killpg1 signo (s32 (- pid)) false s.
Definition killpg (pgrp signo : Z) (s : sched) : res (sched * Z) :=
  if (signo <? 0) || (NSIG <=? signo) then Ok (s, EINVAL) else killpg1 signo pgrp false s.
End Kill.
End Addresses.

(** ** Taking a signal *)

(** The signal part of the user area of the current process. *)
Record usig := MkUsig {
  u_signal : list Z; u_sigmask : list Z;
  u_sigonstack : Z; u_sigintr : Z; u_oldmask : Z; u_psflags : Z;
  ss_base : Z; ss_size : Z; ss_flags : Z; u_sigtramp : Z }.
Definition SAS_OLDMASK : Z := 1.
Definition SAS_ALTSTACK : Z := 2.

(** How issignal leaves the loop: it returns a number, or gives up the
    processor in swtch(), stopped by a default action or for its tracer. *)
Inductive isres := SigRet (sig : Z) | SigStopped (mask : Z) | SigTraced.

Section Issignal.
Context (addr_runout : Z) (addr_proc : nat -> Z).

(** The switch on u.u_signal[sig]: the result, or [None] to take the signal
    away and look again. *)
Definition issignal_switch (us : usig) (i : nat) (sig : Z) (s : sched) : res (sched * option isres) :=
  p ← rd (tab s) i;
  act ← rd (u_signal us) (Z.to_nat sig);
  let prop := sigprop sig in
  if act =? SIG_DFL then
    if p_pid p <=? 1 then Ok (s, None)
    else if flag_on prop SA_STOP then
      if flag_on (p_flag p) P_TRACED || (bool_decide (p_pptr p = Some 1%nat) && flag_on prop SA_TTYSTOP)
      then Ok (s, None)
      else
        s ← upd i (set_p_ptracesig (s8 sig)) s;
        match p_pptr p with
        | None => Fault
        | Some j =>
            pp ← rd (tab s) j;
            s ← (if negb (flag_on (p_flag pp) P_NOCLDSTOP) then psignal addr_runout addr_proc j SIGCHLD s else Ok s);
            s ← stop addr_runout addr_proc i s;
            Ok (s, Some (SigStopped (sigmask sig)))
        end
    else if flag_on prop SA_IGNORE then Ok (s, None)
    else Ok (s, Some (SigRet sig))
  else if act =? SIG_IGN then Ok (s, None)
  else Ok (s, Some (SigRet sig)).

(** One turn of the loop: [None] is another turn. *)
Definition issignal_turn (us : usig) (i : nat) (s : sched) : res (sched * option isres) :=
  p ← rd (tab s) i;
  let mask := Z.land (p_sig p) (Z.lnot (p_sigmask p)) in
  let mask := if flag_on (p_flag p) SVFORK then flag_clr mask stopsigmask else mask in
  if mask =? 0 then Ok (s, Some (SigRet 0))
  else
    let sig := Mem.ffs mask in
    let mask := sigmask sig in
    let take (s : sched) := upd i (fun p => set_p_sig (flag_clr (p_sig p) mask) p) s in
    if flag_on mask (p_sigignore p) && negb (flag_on (p_flag p) P_TRACED) then
      s ← take s; Ok (s, None)
    else if flag_on (p_flag p) P_TRACED && negb (flag_on (p_flag p) SVFORK) then
      s ← take s;
      s ← upd i (set_p_ptracesig (s8 sig)) s;
      match p_pptr p with
      | None => Fault
      | Some j =>
          s ← psignal addr_runout addr_proc j SIGCHLD s;
          s ← stop addr_runout addr_proc i s;
          Ok (s, Some SigTraced)
      end
    else
      '(s, r) ← issignal_switch us i sig s;
      match r with
      | Some r => Ok (s, Some r)
      | None => s ← take s; Ok (s, None)
      end.

(** Every turn but the last takes a pending signal away: 33 are enough. *)
Fixpoint issignal_loop (fuel : nat) (us : usig) (i : nat) (s : sched) : res (sched * isres) :=
  match fuel with
  | O => Fault
  | S fuel =>
      '(s, r) ← issignal_turn us i s;
      match r with
      | Some r => Ok (s, r)
      | None => issignal_loop fuel us i s
      end
  end.
Definition issignal (us : usig) (i : nat) (s : sched) : res (sched * isres) := issignal_loop 33 us i s.
(** After the process is continued: the stop signal is taken away. *)
Definition issignal_resume (us : usig) (i : nat) (mask : Z) (s : sched) : res (sched * isres) :=
  s ← upd i (fun p => set_p_sig (flag_clr (p_sig p) mask) p) s;
  issignal us i s.
(** After the tracer released the process, with the value of procxmt(). *)
Definition issignal_traced (us : usig) (i : nat) (xmt : bool) (s : sched) : res (sched * isres) :=
  p ← rd (tab s) i;
  if negb xmt && flag_on (p_flag p) P_TRACED then
    s ← stop addr_runout addr_proc i s; Ok (s, SigTraced)
  else
    let sig := p_ptracesig p in
    if sig =? 0 then issignal us i s
    else
      let mask := sigmask sig in
      s ← upd i (fun p => set_p_sig (flag_set (p_sig p) mask) p) s;
      if flag_on (p_sigmask p) mask then issignal us i s
      else if negb (flag_on (p_flag p) P_TRACED) then issignal us i s
      else
        '(s, r) ← issignal_switch us i sig s;
        match r with
        | Some r => Ok (s, r)
        | None =>
            s ← upd i (fun p => set_p_sig (flag_clr (p_sig p) mask) p) s;
            issignal us i s
        end.

(** The macro CURSIG. *)
Definition CURSIG (us : usig) (i : nat) (s : sched) : res (sched * isres) :=
  p ← rd (tab s) i;
  if (p_sig p =? 0) || (negb (flag_on (p_flag p) P_TRACED) && (Z.land (p_sig p) (Z.lnot (p_sigmask p)) =? 0))
  then Ok (s, SigRet 0)
  else issignal us i s.
End Issignal.

(** postsig: what follows, a call of the handler with the mask to restore, or
    exit with the status; [core] is the result of core(). *)
Inductive posted := Sendsig (action sig returnmask : Z) | Exit (status : Z).
Definition postsig (core : bool) (sig : Z) (us : usig) (p : proc) : res (usig * proc * posted) :=
  let mask := sigmask sig in
  let p := set_p_sig (flag_clr (p_sig p) mask) p in
  action ← rd (u_signal us) (Z.to_nat sig);
  if negb (action =? SIG_DFL) then
    let '(us', returnmask) :=
      if flag_on (u_psflags us) SAS_OLDMASK
      then (MkUsig (u_signal us) (u_sigmask us) (u_sigonstack us) (u_sigintr us) (u_oldmask us)
              (flag_clr (u_psflags us) SAS_OLDMASK) (ss_base us) (ss_size us) (ss_flags us) (u_sigtramp us),
            u_oldmask us)
      else (us, p_sigmask p) in
    m ← rd (u_sigmask us) (Z.to_nat sig);
    Ok (us', set_p_sigmask (Z.lor (p_sigmask p) (Z.lor m mask)) p, Sendsig action sig returnmask)
  else
    let sig := if flag_on (sigprop sig) SA_CORE && core then Z.lor sig 128 else sig in
    Ok (us, p, Exit sig).

(** ** The system calls of kern_sig2.c

    An argument that points to data to copy in is [None] when it is NULL,
    else the error of copyin or the data; one that points to a place to copy
    out to is [None] when NULL, else the error of copyout. *)
Record sigaction_t := Sigaction { sa_handler : Z; sa_mask : Z; sa_flags : Z }.
Definition SA_ONSTACK : Z := 1.
Definition SA_RESTART : Z := 2.
Definition SA_DISABLE : Z := 4.
Definition SA_NOCLDSTOP : Z := 8.

(** The words p_sigignore and p_sigcatch for the new handler. *)
Definition setsigvec_words (signum handler : Z) (p : proc) : proc :=
  let bit := sigmask signum in
  if (handler =? SIG_IGN) || (flag_on (sigprop signum) SA_IGNORE && (handler =? SIG_DFL)) then
    let p := set_p_sig (flag_clr (p_sig p) bit) p in
    let p := if negb (signum =? SIGCONT) then set_p_sigignore (flag_set (p_sigignore p) bit) p else p in
    set_p_sigcatch (flag_clr (p_sigcatch p) bit) p
  else
    let p := set_p_sigignore (flag_clr (p_sigignore p) bit) p in
    if handler =? SIG_DFL then set_p_sigcatch (flag_clr (p_sigcatch p) bit) p
    else set_p_sigcatch (flag_set (p_sigcatch p) bit) p.
Definition setsigvec (signum : Z) (sa : sigaction_t) (us : usig) (p : proc) : res (usig * proc) :=
  let bit := sigmask signum in
  sigs ← wr (u_signal us) (Z.to_nat signum) (sa_handler sa);
  masks ← wr (u_sigmask us) (Z.to_nat signum) (flag_clr (sa_mask sa) sigcantmask);
  let intr := if negb (flag_on (sa_flags sa) SA_RESTART) then flag_set (u_sigintr us) bit
              else flag_clr (u_sigintr us) bit in
  let onstack := if flag_on (sa_flags sa) SA_ONSTACK then flag_set (u_sigonstack us) bit
                 else flag_clr (u_sigonstack us) bit in
  let us := MkUsig sigs masks onstack intr (u_oldmask us) (u_psflags us) (ss_base us) (ss_size us)
              (ss_flags us) (u_sigtramp us) in
  let p := if signum =? SIGCHLD then
             if flag_on (sa_flags sa) SA_NOCLDSTOP then set_p_flag (flag_set (p_flag p) P_NOCLDSTOP) p
             else set_p_flag (flag_clr (p_flag p) P_NOCLDSTOP) p
           else p in
  Ok (us, setsigvec_words signum (sa_handler sa) p).

(** sigaction: the state, the old action copied out and u.u_error. *)
Definition sigaction (signum : Z) (nsa : option (Z + sigaction_t)) (osa : option Z) (sigtramp : Z)
    (us : usig) (p : proc) : res (usig * proc * option sigaction_t * Z) :=
  let us := MkUsig (u_signal us) (u_sigmask us) (u_sigonstack us) (u_sigintr us) (u_oldmask us)
              (u_psflags us) (ss_base us) (ss_size us) (ss_flags us) sigtramp in
  if (signum <=? 0) || (NSIG <=? signum) then Ok (us, p, None, EINVAL)
  else if (match nsa with Some _ => true | None => false end) && ((signum =? SIGKILL) || (signum =? SIGSTOP))
  then Ok (us, p, None, EINVAL)
  else
    h ← rd (u_signal us) (Z.to_nat signum);
    m ← rd (u_sigmask us) (Z.to_nat signum);
    let bit := sigmask signum in
    let old := Sigaction h m
      (Z.lor (Z.lor (if flag_on (u_sigonstack us) bit then SA_ONSTACK else 0)
                    (if negb (flag_on (u_sigintr us) bit) then SA_RESTART else 0))
             (if flag_on (p_flag p) P_NOCLDSTOP then SA_NOCLDSTOP else 0)) in
    let '(out, error) := match osa with
                         | None => (None, 0)
                         | Some e => (if e =? 0 then Some old else None, e)
                         end in
    if negb (error =? 0) then Ok (us, p, out, error)
    else match nsa with
         | None => Ok (us, p, out, 0)
         | Some (inl e) => Ok (us, p, out, e)
         | Some (inr sa) => '(us, p) ← setsigvec signum sa us p; Ok (us, p, out, 0)
         end.

Definition SIG_BLOCK : Z := 1.
Definition SIG_UNBLOCK : Z := 2.
Definition SIG_SETMASK : Z := 3.
(** sigprocmask: the process, the old mask copied out and u.u_error. *)
Definition sigprocmask (how : Z) (set : option (Z + Z)) (oset : option Z) (p : proc) : proc * option Z * Z :=
  let oldmask := p_sigmask p in
  let '(p, error) :=
    match set with
    | None => (p, 0)
    | Some (inl e) => (p, e)
    | Some (inr newmask) =>
        if how =? SIG_BLOCK then (set_p_sigmask (Z.lor (p_sigmask p) (flag_clr newmask sigcantmask)) p, 0)
        else if how =? SIG_UNBLOCK then (set_p_sigmask (flag_clr (p_sigmask p) newmask) p, 0)
        else if how =? SIG_SETMASK then (set_p_sigmask (flag_clr newmask sigcantmask) p, 0)
        else (p, EINVAL)
    end in
  match oset with
  | Some e => if error =? 0 then (p, if e =? 0 then Some oldmask else None, e) else (p, None, error)
  | None => (p, None, error)
  end.

Definition sigpending (set : option Z) (p : proc) : option Z * Z :=
  match set with
  | Some e => (if e =? 0 then Some (p_sig p) else None, e)
  | None => (None, EINVAL)
  end.

(** sigsuspend up to its sleep; it always returns EINTR. *)
Definition sigsuspend (set : option (Z + Z)) (us : usig) (p : proc) : usig * proc :=
  let nmask := match set with Some (inr m) => m | _ => 0 end in
  (MkUsig (u_signal us) (u_sigmask us) (u_sigonstack us) (u_sigintr us) (p_sigmask p)
     (flag_set (u_psflags us) SAS_OLDMASK) (ss_base us) (ss_size us) (ss_flags us) (u_sigtramp us),
   set_p_sigmask (flag_clr nmask sigcantmask) p).

Definition MINSIGSTKSZ : Z := 128.
Record sigaltstack_t := Sigaltstack { st_base : Z; st_size : Z; st_flags : Z }.
Definition set_stack (ps : Z) (st : sigaltstack_t) (us : usig) : usig :=
  MkUsig (u_signal us) (u_sigmask us) (u_sigonstack us) (u_sigintr us) (u_oldmask us) ps
    (st_base st) (st_size st) (st_flags st) (u_sigtramp us).
Definition get_stack (us : usig) : sigaltstack_t := Sigaltstack (ss_base us) (ss_size us) (ss_flags us).

Definition sigaltstack (nss : option (Z + sigaltstack_t)) (oss : option Z) (us : usig)
    : usig * option sigaltstack_t * Z :=
  let us := if negb (flag_on (u_psflags us) SAS_ALTSTACK)
            then set_stack (u_psflags us)
                   (Sigaltstack (ss_base us) (ss_size us) (flag_set (ss_flags us) SA_DISABLE)) us
            else us in
  let '(out, error) := match oss with
                       | None => (None, 0)
                       | Some e => (if e =? 0 then Some (get_stack us) else None, e)
                       end in
  if negb (error =? 0) then (us, out, error)
  else match nss with
       | None => (us, out, 0)
       | Some (inl e) => (us, out, e)
       | Some (inr ss) =>
           if flag_on (st_flags ss) SA_DISABLE then
             if flag_on (ss_flags us) SA_ONSTACK then (us, out, EINVAL)
             else (set_stack (flag_clr (u_psflags us) SAS_ALTSTACK)
                     (Sigaltstack (ss_base us) (ss_size us) (st_flags ss)) us, out, 0)
           else if st_size ss <? MINSIGSTKSZ then (us, out, ENOMEM)
           else (set_stack (flag_set (u_psflags us) SAS_ALTSTACK) ss us, out, 0)
       end.
(** sigstack: the new stack is a pair of the pointer and the flag. *)
Definition sigstack (nss : option (Z + Z * Z)) (oss : option Z) (us : usig) : usig * option (Z * Z) * Z :=
  let '(out, error) := match oss with
                       | None => (None, 0)
                       | Some e => (if e =? 0 then Some (ss_base us, Z.land (ss_flags us) SA_ONSTACK) else None, e)
                       end in
  if negb (error =? 0) then (us, out, error)
  else match nss with
       | None => (us, out, 0)
       | Some (inl e) => (us, out, e)
       | Some (inr (sp, onstack)) =>
           (set_stack (flag_set (u_psflags us) SAS_ALTSTACK)
              (Sigaltstack sp 0 (Z.lor (ss_flags us) (Z.land onstack SA_ONSTACK))) us, out, 0)
       end.

(** fatalsig, and siginit for the process table entry it is given. *)
Definition fatalsig (addr_runout : Z) (addr_proc : nat -> Z) (signum : Z) (us : usig) (i : nat) (s : sched)
    : res (usig * sched) :=
  sigs ← wr (u_signal us) (Z.to_nat signum) SIG_DFL;
  let mask := sigmask signum in
  s ← upd i (fun p => set_p_sigmask (flag_clr (p_sigmask p) mask)
                        (set_p_sigcatch (flag_clr (p_sigcatch p) mask)
                           (set_p_sigignore (flag_clr (p_sigignore p) mask) p))) s;
  s ← psignal addr_runout addr_proc i signum s;
  Ok (MkUsig sigs (u_sigmask us) (u_sigonstack us) (u_sigintr us) (u_oldmask us) (u_psflags us)
        (ss_base us) (ss_size us) (ss_flags us) (u_sigtramp us), s).
Fixpoint siginit_loop (n : nat) (p : proc) : proc :=
  match n with
  | O => p
  | S n' =>
      let p := siginit_loop n' p in
      let i := Z.of_nat n' in
      if flag_on (sigprop i) SA_IGNORE && negb (i =? SIGCONT)
      then set_p_sigignore (flag_set (p_sigignore p) (sigmask i)) p else p
  end.
Definition siginit (p : proc) : proc := siginit_loop (Z.to_nat NSIG) p.

(** ** What psignal does to the process *)

Definition signalled (sig : Z) (p : proc) : proc :=
  match psignal_post (bool_decide (p_pptr p = Some 1%nat)) sig p with
  | None => p
  | Some (p1, None) => p1
  | Some (p1, Some action) =>
      let '(p2, todo) := psignal_switch sig action p1 in
      match todo with
      | DoOut => p2
      | DoRun => ready (raise_pri p2)
      | DoStop => set_p_flag (flag_clr (p_flag p2) P_WAITED) (set_p_stat SSTOP p2)
      | DoUnsleep => set_p_wchan 0 p2
      end
  end.
Definition stops (sig : Z) (p : proc) : bool :=
  match psignal_post (bool_decide (p_pptr p = Some 1%nat)) sig p with
  | Some (p1, Some action) => match (psignal_switch sig action p1).2 with DoStop => true | _ => false end
  | _ => false
  end.

(** The fields psignal does not write before it acts. *)
Definition keeps (p p' : proc) : Prop :=
  p_link p' = p_link p /\ p_wchan p' = p_wchan p /\ p_flag p' = p_flag p /\ p_pptr p' = p_pptr p /\
  p_pid p' = p_pid p /\ p_sigmask p' = p_sigmask p /\ p_slptime p' = p_slptime p.
Lemma post_keeps b sig p p1 a :
  psignal_post b sig p = Some (p1, a) -> keeps p p1 /\ p_stat p1 = p_stat p.
Proof.
  unfold psignal_post. case_if; [done|]. repeat case_match; intros [=]; subst; done.
Qed.
Lemma switch_keeps sig a p p2 todo :
  psignal_switch sig a p = (p2, todo) ->
  keeps p p2 /\
  (p_stat p2 = p_stat p \/ todo = DoOut /\ p_stat p = SSTOP /\ p_stat p2 = SSLEEP /\ p_wchan p <> 0) /\
  (todo = DoRun -> p_stat p = SSLEEP \/ p_stat p = SSTOP) /\
  (todo = DoStop -> p_stat p = SSLEEP /\ flag_on (p_flag p) P_SINTR = true /\ flag_on (sigprop sig) SA_STOP = true) /\
  (todo = DoUnsleep -> p_wchan p <> 0).
Proof.
  unfold psignal_switch. repeat case_match; intros [=]; subst; bool_to_prop;
    (split; [done|]); split_and!; intros; try discriminate; first [by left|by right; split_and!|idtac]; auto.
Qed.

Lemma keeps_comp p1 p2 p3 : keeps p1 p2 -> keeps p2 p3 -> keeps p1 p3.
Proof. unfold keeps. intros (?&?&?&?&?&?&?) (?&?&?&?&?&?&?). split_and!; congruence. Qed.

(** Writing an entry back with such fields changed. *)
Lemma queues_keeps s off rq sq i p p' :
  queues s off rq sq -> tab s !! i = Some p -> keeps p p' ->
  p_stat p' = p_stat p \/ p_stat p = SSTOP /\ p_stat p' = SSLEEP ->
  queues (set_tab (<[i := p']> (tab s)) s) off rq sq.
Proof.
  intros Hq Hi (E1&E2&E3&_) Hst. eapply queues_update; [done|exact Hi|done|done| | |done| |].
  - intros Hr. destruct (q_run_in _ _ _ _ Hq _ Hr) as (p0&?&Es&_). simplify_eq.
    destruct Hst as [->|[H _]]; [done|]. rewrite H in Es. done.
  - intros Hw. destruct Hst as [->|[_ ->]]; [by eapply q_slp_stat|by left].
  - intros Hr Hl. destruct Hst as [Est|[_ Est]]; [|rewrite Est in Hr; done]. rewrite Est in Hr. rewrite E3 in Hl.
    by eapply q_ready.
  - intros Hx. destruct (q_off _ _ _ _ Hq _ Hx) as (?&p0&?&Es&Ew). simplify_eq. rewrite E2. split_and!; [done| |done].
    destruct Hst as [->|[Hs _]]; [done|]. rewrite Hs in Es. done.
Qed.

Lemma raise_pri_fields p :
  p_link (raise_pri p) = p_link p /\ p_wchan (raise_pri p) = p_wchan p /\ p_flag (raise_pri p) = p_flag p /\
  p_stat (raise_pri p) = p_stat p /\ p_slptime (raise_pri p) = p_slptime p.
Proof. unfold raise_pri. by case_match. Qed.

(** Entries that are not signalled: unchanged, or woken from waiting for
    memory. *)
Definition bystander (addr_runout : Z) (q q' : proc) : Prop :=
  link_eq q q' \/ p_wchan q = addr_runout /\ link_eq (woke q) q'.

Section Psignal.
Context (addr_runout : Z) (addr_proc : nat -> Z).
Context (Hrunout : addr_runout <> 0) (Hproc : forall j, addr_proc j <> 0).

(** psignal on a process it does not stop. *)
Lemma psignal_nostop s off rq sq i p sig fuel :
  queues s off rq sq -> tab s !! i = Some p -> stops sig p = false ->
  exists s' rq' sq' p', psignal_rec addr_runout addr_proc (S fuel) i sig s = Ok s' /\ queues s' off rq' sq' /\
    tab s' !! i = Some p' /\ link_eq (signalled sig p) p' /\
    forall x, x <> i -> option_Forall2 (bystander addr_runout) (tab s !! x) (tab s' !! x).
Proof.
  intros Hq Hi Hns. cbn [psignal_rec]. rewrite (rd_Some _ _ _ Hi). cbn [mbind res_bind]. unfold stops in Hns. unfold signalled.
  pose proof (lookup_lt_Some _ _ _ Hi) as Hlt.
  assert (forall s', (forall x, x <> i -> tab s' !! x = tab s !! x) ->
    forall x, x <> i -> option_Forall2 (bystander addr_runout) (tab s !! x) (tab s' !! x)) as Hby.
  { intros s' H x Hx. rewrite H by done. destruct (tab s !! x); constructor. by left. }
  destruct (psignal_post _ sig p) as [[p1 [a|]]|] eqn:Ep.
  - pose proof (post_keeps _ _ _ _ _ Ep) as [K1 S1]. destruct (psignal_switch sig a p1) as [p2 todo] eqn:Es.
    pose proof (switch_keeps _ _ _ _ _ Es) as (K2&S2&R2&_&U2). pose proof (keeps_comp _ _ _ K1 K2) as K.
    rewrite (upd_ok _ _ _ _ Hi). cbn [mbind res_bind].
    assert (queues (set_tab (<[i := p2]> (tab s)) s) off rq sq) as Hq2.
    { eapply queues_keeps; [done..|]. rewrite S1 in S2. destruct S2 as [->|(_&?&?&_)]; auto. }
    assert (tab (set_tab (<[i := p2]> (tab s)) s) !! i = Some p2) as Hi2 by (by apply list_lookup_insert_eq).
    cbn [snd] in Hns. destruct todo; [..|done|].
    + eexists _, rq, sq, p2. split_and!; try done. apply Hby. intros x Hx. cbn. by rewrite list_lookup_insert_ne.
    + rewrite (upd_ok _ _ _ _ Hi2). cbn [mbind res_bind]. cbn [tab set_tab]. rewrite list_insert_insert_eq.
      pose proof (raise_pri_fields p2) as (P1&P2&P3&P4&P5). set (s2 := set_tab _ _).
      assert (tab s2 !! i = Some (raise_pri p2)) as Hi3 by (by apply list_lookup_insert_eq).
      assert (p_stat p2 = SSLEEP \/ p_stat p2 = SSTOP) as Hst2.
      { destruct S2 as [->|(?&_)]; [|done]. by apply R2. }
      destruct (setrun_ok addr_runout Hrunout s2 off rq sq i (raise_pri p2)) as (s'&rq'&sq'&E&Hq'&(p'&Hi'&El)&_&Hx).
      * unfold s2. apply (queues_vars (set_tab (<[i := raise_pri p2]> (tab (set_tab (<[i := p2]> (tab s)) s)))
          (set_tab (<[i := p2]> (tab s)) s))); [cbn; by rewrite list_insert_insert_eq|done|done|].
        eapply queues_update; [exact Hq2|exact Hi2|done|done| | |done| |].
        -- intros Hr. destruct (q_run_in _ _ _ _ Hq2 _ Hr) as (p0&Hp0&E0&_). rewrite Hi2 in Hp0. injection Hp0 as <-. congruence.
        -- intros _. by rewrite P4.
        -- rewrite P4. intros Hr. destruct Hst2 as [E2|E2]; rewrite E2 in Hr; done.
        -- intros Hx. destruct (q_off _ _ _ _ Hq2 _ Hx) as (_&p0&Hp0&E0&_). rewrite Hi2 in Hp0. injection Hp0 as <-.
           destruct Hst2 as [E2|E2]; rewrite E2 in E0; done.
      * done.
      * rewrite P4. tauto.
      * exists s', rq', sq', p'. split_and!; try done. intros x Hne. specialize (Hx x Hne).
        unfold s2 in Hx. cbn [tab set_tab] in Hx. by rewrite list_lookup_insert_ne in Hx.
    + destruct (unsleep_ok _ _ _ _ i p2 Hq2 Hi2) as (s'&sq'&->&Hq'&Hi'&Hx&_).
      eexists _, rq, sq', _. split; [done|]. split; [done|]. split; [done|]. split; [done|]. intros x Hne.
      specialize (Hx x Hne). cbn [tab set_tab] in Hx. rewrite list_lookup_insert_ne in Hx by done.
      destruct (tab s !! x); inversion Hx; subst; constructor. by left.
  - pose proof (post_keeps _ _ _ _ _ Ep) as [K1 S1]. rewrite (upd_ok _ _ _ _ Hi).
    eexists _, rq, sq, p1. split; [done|]. split; [eapply queues_keeps; [done..|by left]|].
    split; [by apply list_lookup_insert_eq|]. split; [done|]. apply Hby. intros x Hx. cbn. by rewrite list_lookup_insert_ne.
  - exists s, rq, sq, p. split_and!; try done. by apply Hby.
Qed.

Lemma SIGCHLD_nostop p : stops SIGCHLD p = false.
Proof.
  unfold stops. destruct (psignal_post _ _ p) as [[p1 [a|]]|]; try done.
  destruct (psignal_switch SIGCHLD a p1) as [p2 todo] eqn:Es.
  pose proof (switch_keeps _ _ _ _ _ Es) as (_&_&_&D&_). cbn. destruct todo; try done.
  destruct D as (_&_&H); [done|]. vm_compute in H. done.
Qed.
(** stop on a process that is not on the run queue and does not wait for its
    parent. *)
Lemma stop_ok s off rq sq i p j :
  queues s off rq sq -> tab s !! i = Some p -> i ∉ rq -> p_pptr p = Some j -> p_wchan p <> addr_proc j ->
  p_wchan p <> addr_runout ->
  exists s' rq' sq' p', stop addr_runout addr_proc i s = Ok s' /\ queues s' (filter (fun x => x <> i) off) rq' sq' /\
    tab s' !! i = Some p' /\ link_eq (set_p_flag (flag_clr (p_flag p) P_WAITED) (set_p_stat SSTOP p)) p'.
Proof.
  intros Hq Hi Hnr Hpp Hw Hwr. unfold stop. pose proof (lookup_lt_Some _ _ _ Hi) as Hlt.
  rewrite (upd_ok _ _ _ _ Hi). cbn [mbind res_bind].
  erewrite upd_ok by (by apply list_lookup_insert_eq). cbn [mbind res_bind tab set_tab].
  rewrite list_insert_insert_eq. set (p1 := set_p_flag _ _). set (s1 := set_tab _ _).
  assert (tab s1 !! i = Some p1) as Hi1 by (by apply list_lookup_insert_eq).
  change (<[i:=p1]> (tab s)) with (tab s1). rewrite (rd_Some _ _ _ Hi1). cbn [mbind res_bind].
  change (p_pptr p1) with (p_pptr p). rewrite Hpp.
  assert (queues s1 (filter (fun x => x <> i) off) rq sq) as Hq1.
  { change s1 with (set_tab (<[i := p1]> (tab s)) s).
    eapply queues_update; [exact Hq|exact Hi|done|done|done|intros; by right| |done|].
    - intros x Hx. rewrite list_elem_of_filter. tauto.
    - intros [? _]%list_elem_of_filter. done. }
  destruct (wakeup_ok addr_runout Hrunout (addr_proc j) s1 _ rq sq Hq1 (Hproc j)) as (s'&rq'&sq'&->&Hq'&He&_).
  destruct He as (_&_&_&_&He). specialize (He i). rewrite Hi1 in He. inversion He as [? p' Hp|]; subst.
  exists s', rq', sq', p'. split; [done|]. split; [done|]. split; [done|].
  destruct Hp as [Hp|(_&[Hc|(_&_&Hc)]&_)]; [done| |]; exfalso; [by apply Hw|by apply Hwr].
Qed.

Lemma psignal_ok s off rq sq i p j sig :
  queues s off rq sq -> tab s !! i = Some p -> p_pptr p = Some j -> j <> i -> is_Some (tab s !! j) ->
  p_wchan p <> addr_proc j -> (p_wchan p = addr_runout -> flag_on (p_flag p) P_SINTR = false) ->
  exists s' rq' sq' p', psignal addr_runout addr_proc i sig s = Ok s' /\ queues s' off rq' sq' /\
    tab s' !! i = Some p' /\ link_eq (signalled sig p) p'.
Proof.
  intros Hq Hi Hpp Hji [pj Hj] Hwp Hwr. unfold psignal. destruct (stops sig p) eqn:Hs; last first.
  { destruct (psignal_nostop s off rq sq i p sig 1 Hq Hi Hs) as (s'&rq'&sq'&p'&?&?&?&?&_). eauto 10. }
  unfold stops in Hs. unfold signalled.
  destruct (psignal_post _ sig p) as [[p1 [a|]]|] eqn:Ep; [|done|done].
  pose proof (post_keeps _ _ _ _ _ Ep) as [K1 S1]. destruct (psignal_switch sig a p1) as [p2 todo] eqn:Es.
  pose proof (switch_keeps _ _ _ _ _ Es) as (K2&S2&_&D2&_). pose proof (keeps_comp _ _ _ K1 K2) as K.
  cbn [snd] in Hs. destruct todo; try done. destruct (D2 eq_refl) as (St&Hsi&_).
  destruct S2 as [S2|(?&_)]; [|done]. pose proof (lookup_lt_Some _ _ _ Hi) as Hlt.
  assert (exists f1, 1%nat = f1) as [f1 Ef1] by eauto. rewrite Ef1. cbn [psignal_rec]. rewrite (rd_Some _ _ _ Hi). cbn [mbind res_bind]. rewrite Ep, Es.
  rewrite (upd_ok _ _ _ _ Hi). cbn [mbind res_bind]. set (s2 := set_tab _ _).
  destruct K as (K_link&K_wchan&K_flag&K_pptr&_). rewrite K_pptr, Hpp.
  assert (tab s2 !! i = Some p2) as Hi2 by (by apply list_lookup_insert_eq).
  assert (tab s2 !! j = Some pj) as Hj2 by (cbn; by rewrite list_lookup_insert_ne).
  rewrite (rd_Some _ _ _ Hj2). cbn [mbind res_bind].
  assert (queues s2 off rq sq) as Hq2.
  { eapply queues_keeps; [done|done|by eapply keeps_comp|]. left. congruence. }
  assert (p_wchan p <> addr_runout) as Hnr.
  { intros E. specialize (Hwr E). destruct K1 as (_&_&F1&_). congruence. }
  assert (exists s3 rq3 sq3 p3, (if negb (flag_on (p_flag pj) P_NOCLDSTOP)
      then psignal_rec addr_runout addr_proc f1 j SIGCHLD s2 else Ok s2) = Ok s3 /\ queues s3 off rq3 sq3 /\
      tab s3 !! i = Some p3 /\ link_eq p2 p3) as (s3&rq3&sq3&p3&->&Hq3&Hi3&El3).
  { subst f1. case_if; [|eexists s2, rq, sq, p2; split_and!; done].
    destruct (psignal_nostop s2 off rq sq j pj SIGCHLD 0 Hq2 Hj2 (SIGCHLD_nostop pj))
      as (s3&rq3&sq3&_&?&?&_&_&Hx). specialize (Hx i (not_eq_sym Hji)). rewrite Hi2 in Hx.
    inversion Hx as [? p3 Hb|]; subst. exists s3, rq3, sq3, p3. split_and!; try done.
    destruct Hb as [?|[Hc _]]; [done|]. congruence. }
  cbn [mbind res_bind]. pose proof (link_eq_fields _ _ El3) as (F1&F2&F3&_).
  assert (p_pptr p3 = Some j) as Hp3 by (rewrite (link_eq_as_set _ _ El3); cbn; congruence).
  destruct (stop_ok s3 off rq3 sq3 i p3 j Hq3 Hi3) as (s'&rq'&sq'&p'&E&Hq'&Hi'&El'); [|done|congruence|congruence|].
  { intros Hr. destruct (q_run_in _ _ _ _ Hq3 _ Hr) as (p0&?&Er&_). simplify_eq. rewrite <- F1, S2, St in Er. done. }
  rewrite list_filter_all in Hq'; last first.
  { apply Forall_forall. intros x Hx ->. destruct (q_off _ _ _ _ Hq3 _ Hx) as (_&p0&?&Er&_). simplify_eq.
    rewrite <- F1, S2, St in Er. done. }
  exists s', rq', sq', p'. split_and!; try done. etrans; [|exact El'].
  rewrite (link_eq_as_set _ _ El3). done.
Qed.
End Psignal.

(** ** Signal words by bits *)

Definition has (w sig : Z) : bool := Z.testbit w (sig - 1).
Lemma has_sigmask sig t : 1 <= sig -> 1 <= t -> has (sigmask sig) t = (sig =? t).
Proof.
  intros. unfold has, sigmask. rewrite Z.shiftl_1_l, Z.pow2_bits_eqb by lia.
  destruct (Z.eqb_spec (sig - 1) (t - 1)), (Z.eqb_spec sig t); lia.
Qed.
Lemma has_set w m t : 1 <= t -> has (flag_set w m) t = has w t || has m t.
Proof. intros. apply Z.lor_spec. Qed.
Lemma has_clr w m t : 1 <= t -> has (flag_clr w m) t = has w t && negb (has m t).
Proof. intros. unfold has, flag_clr. rewrite Z.land_spec, Z.lnot_spec by lia. done. Qed.
Lemma has_cant t : 1 <= t < NSIG -> has sigcantmask t = (t =? SIGKILL) || (t =? SIGSTOP).
Proof.
  intros. unfold has, sigcantmask. rewrite Z.lor_spec. pose proof (has_sigmask SIGKILL t) as H1.
  pose proof (has_sigmask SIGSTOP t) as H2. unfold has in *. unfold SIGKILL, SIGSTOP in *.
  rewrite H1, H2, (Z.eqb_sym 9), (Z.eqb_sym 17) by lia. done.
Qed.
Lemma flag_on_sigmask w sig : 1 <= sig -> flag_on w (sigmask sig) = has w sig.
Proof.
  intros Hs. unfold flag_on, has. assert (forall n, 0 <= n -> Z.testbit (sigmask sig) n = (sig - 1 =? n)) as Hb.
  { intros n Hn. unfold sigmask. rewrite Z.shiftl_1_l, Z.pow2_bits_eqb by lia. done. }
  destruct (Z.testbit w (sig - 1)) eqn:E.
  - apply negb_true_iff, Z.eqb_neq. intros H0.
    assert (Z.testbit (Z.land w (sigmask sig)) (sig - 1) = true) as Ht
      by (rewrite Z.land_spec, E, Hb by lia; cbn; lia). rewrite H0, Z.bits_0 in Ht. done.
  - apply negb_false_iff, Z.eqb_eq, Z.bits_inj'. intros n Hn. rewrite Z.land_spec, Hb, Z.bits_0 by done.
    destruct (Z.eqb_spec (sig - 1) n) as [<-|]; [by rewrite E|apply andb_false_r].
Qed.

(** ** Actions and masks of a process

    [sig_inv]: SIGKILL and SIGSTOP are never blocked, caught or ignored, and
    the words psignal looks at agree with the table of actions. *)
Definition valid (sig : Z) : Prop := 1 <= sig < NSIG.
Definition uncatchable (sig : Z) : Prop := sig = SIGKILL \/ sig = SIGSTOP.
Definition ignored_by (act sig : Z) : bool :=
  ((act =? SIG_IGN) || (flag_on (sigprop sig) SA_IGNORE && (act =? SIG_DFL))) && negb (sig =? SIGCONT).
Record sig_inv (us : usig) (p : proc) : Prop := {
  si_len : length (u_signal us) = Z.to_nat NSIG /\ length (u_sigmask us) = Z.to_nat NSIG;
  si_cant : forall sig, uncatchable sig ->
    has (p_sigmask p) sig = false /\ has (u_oldmask us) sig = false /\
    u_signal us !! Z.to_nat sig = Some SIG_DFL /\
    forall t m, u_sigmask us !! t = Some m -> has m sig = false;
  si_catch : forall sig act, valid sig -> u_signal us !! Z.to_nat sig = Some act ->
    has (p_sigcatch p) sig = negb (act =? SIG_DFL) && negb (act =? SIG_IGN);
  si_ignore : forall sig act, valid sig -> u_signal us !! Z.to_nat sig = Some act ->
    has (p_sigignore p) sig = ignored_by act sig }.

Lemma uncatchable_valid sig : uncatchable sig -> valid sig.
Proof. unfold uncatchable, valid, SIGKILL, SIGSTOP, NSIG. lia. Qed.
Lemma sigprop_cant sig : uncatchable sig -> flag_on (sigprop sig) SA_IGNORE = false.
Proof. intros [->| ->]; done. Qed.

Definition caught (h : Z) : bool := negb (h =? SIG_DFL) && negb (h =? SIG_IGN).
Lemma words_catch signum h p t :
  1 <= signum -> 1 <= t ->
  has (p_sigcatch (setsigvec_words signum h p)) t = if t =? signum then caught h else has (p_sigcatch p) t.
Proof.
  intros Hs Ht. pose proof (has_sigmask signum t Hs Ht) as Hb. rewrite Z.eqb_sym in Hb.
  unfold setsigvec_words, caught. destruct (Z.eqb_spec h SIG_IGN) as [->|Hi]; cbn [orb].
  - destruct (negb (signum =? SIGCONT)); cbn [p_sigcatch set_p_sigcatch set_p_sigignore set_p_sig];
      rewrite has_clr, Hb by done; destruct (t =? signum); by rewrite ?andb_false_r, ?andb_true_r.
  - destruct (Z.eqb_spec h SIG_DFL) as [->|Hd].
    + destruct (flag_on _ _); cbn [andb]; [destruct (negb (signum =? SIGCONT))|];
        cbn [p_sigcatch set_p_sigcatch set_p_sigignore set_p_sig];
        rewrite has_clr, Hb by done; destruct (t =? signum); by rewrite ?andb_false_r, ?andb_true_r.
    + rewrite andb_false_r. cbn [p_sigcatch set_p_sigcatch set_p_sigignore set_p_sig].
      rewrite has_set, Hb by done. destruct (t =? signum); by rewrite ?orb_true_r, ?orb_false_r.
Qed.
Lemma words_ignore signum h p t :
  1 <= signum -> 1 <= t -> has (p_sigignore p) SIGCONT = false ->
  has (p_sigignore (setsigvec_words signum h p)) t = if t =? signum then ignored_by h signum else has (p_sigignore p) t.
Proof.
  intros Hs Ht Hc. pose proof (has_sigmask signum t Hs Ht) as Hb. rewrite Z.eqb_sym in Hb.
  unfold setsigvec_words, ignored_by.
  destruct ((h =? SIG_IGN) || (flag_on (sigprop signum) SA_IGNORE && (h =? SIG_DFL))).
  - destruct (Z.eqb_spec signum SIGCONT) as [->|]; cbn [negb andb p_sigignore set_p_sigcatch set_p_sigignore set_p_sig].
    + destruct (Z.eqb_spec t SIGCONT) as [->|]; done.
    + rewrite has_set, Hb by done. destruct (t =? signum); by rewrite ?orb_true_r, ?orb_false_r.
  - destruct (h =? SIG_DFL); cbn [andb p_sigignore set_p_sigcatch set_p_sigignore set_p_sig];
      rewrite has_clr, Hb by done; destruct (t =? signum); by rewrite ?andb_false_r, ?andb_true_r.
Qed.
Lemma words_mask signum h p : p_sigmask (setsigvec_words signum h p) = p_sigmask p.
Proof. unfold setsigvec_words. by repeat case_match. Qed.

Lemma sig_inv_cont us p : sig_inv us p -> has (p_sigignore p) SIGCONT = false.
Proof.
  intros [[L1 _] _ _ Hg]. destruct (lookup_lt_is_Some_2 (u_signal us) (Z.to_nat SIGCONT)) as [a Ha].
  { rewrite L1. unfold SIGCONT, NSIG. lia. }
  rewrite (Hg SIGCONT a); [|done|done]. unfold ignored_by. apply andb_false_r.
Qed.

Lemma setsigvec_inv signum sa us p :
  valid signum -> ~ uncatchable signum -> sig_inv us p ->
  exists us' p', setsigvec signum sa us p = Ok (us', p') /\ sig_inv us' p' /\
    u_signal us' = <[Z.to_nat signum := sa_handler sa]> (u_signal us).
Proof.
  intros Hv Hu Hinv. pose proof (sig_inv_cont _ _ Hinv) as Hcont. destruct Hinv as [[L1 L2] Hc Hk Hg].
  pose proof Hv as Hv'. unfold valid, NSIG in Hv'. unfold setsigvec.
  rewrite (wr_lt (u_signal us)) by (rewrite L1; unfold NSIG; lia). cbn [mbind res_bind].
  rewrite (wr_lt (u_sigmask us)) by (rewrite L2; unfold NSIG; lia). cbn [mbind res_bind].
  eexists _, _. split; [done|]. split; [|done]. cbn [u_signal u_sigmask u_oldmask].
  set (p1 := if signum =? SIGCHLD then _ else p).
  assert (p_sigmask p1 = p_sigmask p /\ p_sigcatch p1 = p_sigcatch p /\ p_sigignore p1 = p_sigignore p) as (M1&C1&I1)
    by (unfold p1; by repeat case_match).
  split; cbn [u_signal u_sigmask u_oldmask].
  - by rewrite !length_insert.
  - intros sg Hs. destruct (Hc sg Hs) as (H1&H2&H3&H4). rewrite words_mask, M1. split_and!; try done.
    + rewrite list_lookup_insert_ne; [done|]. intros E. apply Hu.
      assert (signum = sg) as ->; [|done]. apply uncatchable_valid in Hs. unfold valid, NSIG in Hs. lia.
    + intros t m. rewrite list_lookup_insert. case_decide; [|apply H4]. intros [= <-].
      pose proof (uncatchable_valid _ Hs) as Hv2. unfold valid, NSIG in Hv2.
      rewrite has_clr, has_cant by (unfold NSIG; lia).
      destruct Hs as [->| ->]; cbn; by rewrite ?andb_false_r.
  - intros sg act Hs Ha. unfold valid, NSIG in Hs. rewrite words_catch by lia. destruct (Z.eqb_spec sg signum) as [->|Hne].
    + rewrite list_lookup_insert_eq in Ha by (rewrite L1; unfold NSIG; lia). injection Ha as <-. done.
    + rewrite list_lookup_insert_ne in Ha by lia. rewrite C1. by apply Hk.
  - intros sg act Hs Ha. unfold valid, NSIG in Hs. rewrite words_ignore by (try lia; by rewrite I1).
    destruct (Z.eqb_spec sg signum) as [->|Hne].
    + rewrite list_lookup_insert_eq in Ha by (rewrite L1; unfold NSIG; lia). injection Ha as <-. done.
    + rewrite list_lookup_insert_ne in Ha by lia. rewrite I1. by apply Hg.
Qed.

(** The calls that change actions and masks, and the delivery of a signal. *)
Inductive sigcall :=
  | CallAction (signum : Z) (nsa : option (Z + sigaction_t)) (osa : option Z) (tramp : Z)
  | CallProcmask (how : Z) (set : option (Z + Z)) (oset : option Z)
  | CallSuspend (set : option (Z + Z))
  | CallAltstack (nss : option (Z + sigaltstack_t)) (oss : option Z)
  | CallStack (nss : option (Z + Z * Z)) (oss : option Z)
  | CallPost (core : bool) (sig : Z).
Definition do_call (c : sigcall) (us : usig) (p : proc) : res (usig * proc) :=
  match c with
  | CallAction signum nsa osa tramp => '(us, p, _, _) ← sigaction signum nsa osa tramp us p; Ok (us, p)
  | CallProcmask how set oset => Ok (us, (sigprocmask how set oset p).1.1)
  | CallSuspend set => Ok (sigsuspend set us p)
  | CallAltstack nss oss => Ok ((sigaltstack nss oss us).1.1, p)
  | CallStack nss oss => Ok ((sigstack nss oss us).1.1, p)
  | CallPost core sig => '(us, p, _) ← postsig core sig us p; Ok (us, p)
  end.
Fixpoint do_calls (cs : list sigcall) (us : usig) (p : proc) : res (usig * proc) :=
  match cs with
  | [] => Ok (us, p)
  | c :: cs => '(us, p) ← do_call c us p; do_calls cs us p
  end.
Definition call_ok (c : sigcall) : Prop := match c with CallPost _ sig => valid sig | _ => True end.

(** The invariant depends on these fields only. *)
Lemma sig_inv_ext us us' p p' :
  sig_inv us p -> u_signal us' = u_signal us -> u_sigmask us' = u_sigmask us ->
  p_sigcatch p' = p_sigcatch p -> p_sigignore p' = p_sigignore p ->
  (forall sg, uncatchable sg -> has (p_sigmask p') sg = false /\ has (u_oldmask us') sg = false) -> sig_inv us' p'.
Proof.
  intros [L Hc Hk Hg] E1 E2 E3 E4 Hm. split; rewrite ?E1, ?E2, ?E3, ?E4; try done.
  intros sg Hs. destruct (Hm sg Hs). destruct (Hc sg Hs) as (_&_&?&?). done.
Qed.
Lemma has_cant_clr w sg : uncatchable sg -> has (flag_clr w sigcantmask) sg = false.
Proof.
  intros Hs. pose proof (uncatchable_valid _ Hs) as Hv. unfold valid in Hv. rewrite has_clr, has_cant by lia.
  destruct Hs as [->| ->]; cbn; by rewrite andb_false_r.
Qed.

Lemma sigprocmask_inv how set oset us p : sig_inv us p -> sig_inv us (sigprocmask how set oset p).1.1.
Proof.
  intros Hinv. pose proof (si_cant _ _ Hinv) as Hc. unfold sigprocmask.
  set (r := match set with None => _ | Some _ => _ end).
  assert (sig_inv us r.1) as Hr; last by (destruct r as [p' e]; destruct oset; repeat case_match; exact Hr).
  unfold r. destruct set as [[e|m]|]; [done| |done]. repeat case_match; [..|done]; cbn [fst];
    (eapply sig_inv_ext; [exact Hinv|done..|]); intros sg Hs; destruct (Hc sg Hs) as (Hx1&Hx2&_);
    (split; [|done]); cbn [p_sigmask set_p_sigmask].
  - change (has (flag_set (p_sigmask p) (flag_clr m sigcantmask)) sg = false).
    rewrite has_set, Hx1, has_cant_clr by (try done; by apply uncatchable_valid). done.
  - rewrite has_clr, Hx1 by (by apply uncatchable_valid). done.
  - by apply has_cant_clr.
Qed.

Lemma postsig_inv core sg us p :
  valid sg -> sig_inv us p -> exists us' p' r, postsig core sg us p = Ok (us', p', r) /\ sig_inv us' p'.
Proof.
  intros Hv Hinv. pose proof Hinv as [[L1 L2] Hc _ _]. unfold postsig. unfold valid, NSIG in *.
  destruct (lookup_lt_is_Some_2 (u_signal us) (Z.to_nat sg)) as [act Ha]; [lia|].
  destruct (lookup_lt_is_Some_2 (u_sigmask us) (Z.to_nat sg)) as [m Hm]; [lia|].
  rewrite (rd_Some _ _ _ Ha). cbn [mbind res_bind]. destruct (Z.eqb_spec act SIG_DFL) as [->|Hd]; cbn [negb].
  { eexists us, _, _. split; [done|]. eapply sig_inv_ext; [exact Hinv|done..|]. intros t Ht.
    destruct (Hc t Ht) as (H1&H2&_). done. }
  rewrite (rd_Some _ _ _ Hm). set (usr := if flag_on _ _ then _ else _).
  assert (u_signal usr.1 = u_signal us /\ u_sigmask usr.1 = u_sigmask us /\ u_oldmask usr.1 = u_oldmask us) as (E1&E2&E3)
    by (unfold usr; by case_match).
  destruct usr as [us' rm]. cbn [mbind res_bind fst] in *. eexists us', _, _. split; [done|].
  eapply sig_inv_ext; [exact Hinv|done..|]. intros t Ht. destruct (Hc t Ht) as (H1&H2&H3&H4).
  split; [|by rewrite E3]. cbn [p_sigmask set_p_sigmask set_p_sig].
  pose proof (uncatchable_valid _ Ht) as Hv'. unfold valid in Hv'.
  unfold has in *. rewrite !Z.lor_spec, H1, (H4 _ _ Hm). cbn [orb].
  pose proof (has_sigmask sg t ltac:(lia) ltac:(lia)) as Hs. unfold has in Hs. rewrite Hs.
  apply Z.eqb_neq. intros ->. congruence.
Qed.

Lemma do_call_inv c us p : call_ok c -> sig_inv us p -> exists us' p', do_call c us p = Ok (us', p') /\ sig_inv us' p'.
Proof.
  intros Hok Hinv. destruct c as [signum nsa osa tr|how set oset|set|nss oss|nss oss|core sg]; cbn [do_call].
  - unfold sigaction. set (us1 := MkUsig _ _ _ _ _ _ _ _ _ _).
    assert (sig_inv us1 p) as H1.
    { eapply sig_inv_ext; [exact Hinv|done..|]. intros t Ht. destruct (si_cant _ _ Hinv t Ht) as (?&?&_). done. }
    destruct ((signum <=? 0) || (NSIG <=? signum)) eqn:Ev; [cbn [mbind res_bind]; eauto|].
    destruct (_ && ((signum =? SIGKILL) || (signum =? SIGSTOP))) eqn:Eu; [cbn [mbind res_bind]; eauto|].
    bool_to_prop. assert (valid signum) as Hv by (unfold valid; lia). pose proof (si_len _ _ H1) as [L1 L2].
    unfold valid, NSIG in *.
    destruct (lookup_lt_is_Some_2 (u_signal us1) (Z.to_nat signum)) as [act Ha]; [lia|].
    destruct (lookup_lt_is_Some_2 (u_sigmask us1) (Z.to_nat signum)) as [m Hm]; [lia|].
    rewrite (rd_Some _ _ _ Ha). cbn [mbind res_bind]. rewrite (rd_Some _ _ _ Hm). cbn [mbind res_bind].
    set (oe := match osa with None => _ | Some _ => _ end). destruct oe as [out err].
    destruct (negb (err =? 0)); [cbn [mbind res_bind]; eauto|]. destruct nsa as [[e|sa]|]; cbn [mbind res_bind]; [eauto| |eauto].
    destruct (setsigvec_inv signum sa us1 p) as (us'&p'&->&Hinv'&_); [done| |done|cbn [mbind res_bind]; eauto].
    cbn [andb] in Eu. bool_to_prop. intros [->| ->]; lia.
  - eexists _, _. split; [done|]. by apply sigprocmask_inv.
  - eexists _, _. split; [done|]. eapply sig_inv_ext; [exact Hinv|done..|]. intros t Ht.
    destruct (si_cant _ _ Hinv t Ht) as (?&?&_). split; [by apply has_cant_clr|done].
  - eexists _, _. split; [done|]. pose proof (si_cant _ _ Hinv) as Hc. eapply sig_inv_ext; [exact Hinv|..|];
      [..|intros t Ht; destruct (Hc t Ht) as (?&?&_); (split; [done|])]; unfold sigaltstack; repeat case_match; done.
  - eexists _, _. split; [done|]. pose proof (si_cant _ _ Hinv) as Hc. eapply sig_inv_ext; [exact Hinv|..|];
      [..|intros t Ht; destruct (Hc t Ht) as (?&?&_); (split; [done|])]; unfold sigstack; repeat case_match; done.
  - destruct (postsig_inv core sg us p Hok Hinv) as (us'&p'&r&->&?). cbn [mbind res_bind]. eauto.
Qed.

(** Process 0 after siginit, with every action the default. *)
Definition usig0 : usig := MkUsig (replicate 32 0) (replicate 32 0) 0 0 0 0 0 0 0 0.
Lemma siginit_inv : sig_inv usig0 (siginit inhabitant).
Proof.
  assert (forall sg act, valid sg -> u_signal usig0 !! Z.to_nat sg = Some act -> act = 0) as H0.
  { intros sg act _ H. by apply lookup_replicate in H as [-> _]. }
  assert (Forall (fun sg => has (p_sigcatch (siginit inhabitant)) sg = false /\
    has (p_sigignore (siginit inhabitant)) sg = ignored_by 0 sg) (seqZ 1 31)) as Hall by (vm_compute; repeat constructor).
  rewrite Forall_forall in Hall.
  assert (forall sg, valid sg -> sg ∈ seqZ 1 31) as Hin by (intros sg [? ?]; apply elem_of_seqZ; unfold NSIG in *; lia).
  split.
  - done.
  - intros sg [->| ->]; (split_and!; [done..|]); intros t m H; by apply lookup_replicate in H as [-> _].
  - intros sg act Hv Ha. rewrite (H0 _ _ Hv Ha). by apply Hall, Hin.
  - intros sg act Hv Ha. rewrite (H0 _ _ Hv Ha). by apply Hall, Hin.
Qed.

Lemma do_calls_inv cs : forall us p, Forall call_ok cs -> sig_inv us p ->
  exists us' p', do_calls cs us p = Ok (us', p') /\ sig_inv us' p'.
Proof.
  induction cs as [|c cs IH]; intros us p Hok Hinv; cbn [do_calls]; [eauto|].
  apply Forall_cons_1 in Hok as [Hc Hok]. destruct (do_call_inv c us p Hc Hinv) as (us1&p1&->&H1).
  cbn [mbind res_bind]. by apply IH.
Qed.

(** (C29) Whatever a process does with sigaction, sigprocmask, sigsuspend and
    the signal stacks, and whatever signals it takes, SIGKILL and SIGSTOP stay
    unblocked, uncaught and unignored, and the words psignal looks at agree
    with the table of actions. *)
Theorem sig_calls_safe cs :
  Forall call_ok cs ->
  exists us p, do_calls cs usig0 (siginit inhabitant) = Ok (us, p) /\ sig_inv us p /\
    forall sg, sg = SIGKILL \/ sg = SIGSTOP ->
      has (p_sigmask p) sg = false /\ has (p_sigcatch p) sg = false /\ has (p_sigignore p) sg = false.
Proof.
  intros Hok. destruct (do_calls_inv cs _ _ Hok siginit_inv) as (us&p&E&Hinv). exists us, p.
  split; [done|]. split; [done|]. intros sg Hs. pose proof (uncatchable_valid _ Hs) as Hv.
  destruct (si_cant _ _ Hinv sg Hs) as (?&_&Ha&_). split; [done|].
  rewrite (si_catch _ _ Hinv _ _ Hv Ha), (si_ignore _ _ Hinv _ _ Hv Ha). split; [done|].
  unfold ignored_by. by rewrite (sigprop_cant _ Hs).
Qed.
Lemma sig_calls_safe_witness :
  exists us p, do_calls [CallAction 2 (Some (inr (Sigaction 4096 (-1) 0))) None 0; CallProcmask 3 (Some (inr (-1))) None;
      CallPost false 2] usig0 (siginit inhabitant) = Ok (us, p) /\ sig_inv us p /\
    forall sg, sg = SIGKILL \/ sg = SIGSTOP ->
      has (p_sigmask p) sg = false /\ has (p_sigcatch p) sg = false /\ has (p_sigignore p) sg = false.
Proof. apply sig_calls_safe. repeat constructor; vm_compute; (done || by intros). Defined.

(** ** Posting a signal *)

(** A process waiting for neither its parent nor memory, or not interruptibly. *)
Definition sleeps_ok (addr_runout : Z) (addr_proc : nat -> Z) (j : nat) (p : proc) : Prop :=
  p_wchan p <> addr_proc j /\ (p_wchan p = addr_runout -> flag_on (p_flag p) P_SINTR = false).

(** *** The rules of signals

    What a process makes of a signal: it ignores, holds or catches it, or
    leaves it to the default; a traced process leaves all to its tracer. *)
Inductive disposition := Ignores | Holds | Catches | Default.
#[export] Instance disposition_dec : EqDecision disposition.
Proof. solve_decision. Defined.
Definition traced (p : proc) : bool := flag_on (p_flag p) P_TRACED.
Definition disposes (p : proc) (sig : Z) : disposition :=
  if traced p then Default else if has (p_sigignore p) sig then Ignores else if has (p_sigmask p) sig then Holds
  else if has (p_sigcatch p) sig then Catches else Default.
Definition tty_signal (sig : Z) : bool := bool_decide (sig ∈ [SIGTSTP; SIGTTIN; SIGTTOU]).
Definition stop_signal (sig : Z) : bool := (sig =? SIGSTOP) || tty_signal sig.
(** The signals whose default does not end a process: SIGURG, SIGCHLD, SIGIO,
    SIGWINCH, SIGINFO, SIGCONT and the stop signals. *)
Definition deadly (sig : Z) : bool := negb (stop_signal sig || bool_decide (sig ∈ [16; SIGCONT; SIGCHLD; 23; 28; 29])).
Definition asleep (p : proc) : bool := (p_stat p =? SSLEEP) && flag_on (p_flag p) P_SINTR.
Definition stopped (p : proc) : bool := p_stat p =? SSTOP.

(** What becomes of the process: the signal is forgotten; it is pending; it has
    had its effect; the process runs, stops, goes on sleeping, or leaves its
    sleep queue and stays stopped. *)
Inductive fate := Forgotten | Pending | Spent | Runs | Stops | SleepsOn | Roused.
Definition fate_of (sig : Z) (p : proc) : fate :=
  match disposes p sig with
  | Ignores => Forgotten
  | Holds => if stopped p && (sig =? SIGCONT) then if p_wchan p =? 0 then Runs else SleepsOn else Pending
  | Catches =>
      if asleep p then Runs
      else if stopped p then
        if (sig =? SIGKILL) || (sig =? SIGCONT) then Runs
        else if stop_signal sig then Spent
        else if negb (p_wchan p =? 0) && flag_on (p_flag p) P_SINTR then Roused else Pending
      else Pending
  | Default =>
      if tty_signal sig && bool_decide (p_pptr p = Some 1%nat) then Forgotten
      else if traced p then if asleep p then Runs else Pending
      else if asleep p then
        if sig =? SIGCONT then Spent
        else if stop_signal sig then if flag_on (p_flag p) SVFORK then Pending else Stops
        else Runs
      else if stopped p then
        if sig =? SIGKILL then Runs
        else if sig =? SIGCONT then if p_wchan p =? 0 then Runs else SleepsOn
        else if stop_signal sig then Spent
        else if negb (p_wchan p =? 0) && flag_on (p_flag p) P_SINTR then Roused else Pending
      else Pending
  end.
(** Whether the signal stays pending. *)
Definition stays (sig : Z) (p : proc) : bool :=
  match fate_of sig p with
  | Spent | Stops => false
  | Runs | SleepsOn => negb ((sig =? SIGCONT) && stopped p && negb (traced p) && bool_decide (disposes p sig = Default))
  | _ => true
  end.
(** The process after a signal with that fate, which stays pending or not. *)
Record affected (sig : Z) (p : proc) (f : fate) (stay : bool) (p' : proc) : Prop := {
  af_sig : forall t, valid t -> has (p_sig p') t =
    if t =? sig then stay
    else has (p_sig p) t && negb ((sig =? SIGCONT) && stop_signal t) && negb (stop_signal sig && (t =? SIGCONT));
  af_stat : p_stat p' = match f with Runs => SRUN | Stops => SSTOP | SleepsOn => SSLEEP | _ => p_stat p end;
  af_wchan : p_wchan p' = match f with Runs | Roused => 0 | _ => p_wchan p end;
  af_flag : p_flag p' = match f with Stops => flag_clr (p_flag p) P_WAITED | _ => p_flag p end;
  af_ptracesig : p_ptracesig p' = match f with Stops => sig | _ => p_ptracesig p end;
  af_nice : p_nice p' = if deadly sig && bool_decide (disposes p sig = Default) && negb (traced p)
                        then Z.min (p_nice p) NZERO else p_nice p;
  af_pri : (f <> Runs -> p_pri p' = p_pri p) /\
           (f = Runs -> p_slptime p <= 1 -> p_pri p' = Z.min (p_pri p) PUSER);
  af_rest : p_pid p' = p_pid p /\ p_ppid p' = p_ppid p /\ p_pptr p' = p_pptr p /\ p_uid p' = p_uid p /\
    p_pgrp p' = p_pgrp p /\ p_sigmask p' = p_sigmask p /\ p_sigignore p' = p_sigignore p /\
    p_sigcatch p' = p_sigcatch p }.
Definition signal_effect (sig : Z) (p p' : proc) : Prop :=
  match fate_of sig p with
  | Forgotten => link_eq p p'
  | f => affected sig p f (stays sig p) p'
  end.

Lemma by_number (P : Z -> bool) : forallb P (seqZ 1 31) = true -> forall sig, valid sig -> P sig = true.
Proof. intros H sig Hs. rewrite forallb_forall in H. apply H, list_elem_of_In, elem_of_seqZ. unfold valid, NSIG in Hs. lia. Qed.
Lemma prop_bits sig : valid sig ->
  flag_on (sigprop sig) SA_CONT = (sig =? SIGCONT) /\ flag_on (sigprop sig) SA_STOP = stop_signal sig /\
  flag_on (sigprop sig) SA_TTYSTOP = tty_signal sig /\ flag_on (sigprop sig) SA_KILL = deadly sig /\ has stopsigmask sig = stop_signal sig.
Proof.
  intros Hs. set (P := fun sig => eqb (flag_on (sigprop sig) SA_CONT) (sig =? SIGCONT) && eqb (flag_on (sigprop sig) SA_STOP) (stop_signal sig) &&
    eqb (flag_on (sigprop sig) SA_TTYSTOP) (tty_signal sig) && eqb (flag_on (sigprop sig) SA_KILL) (deadly sig) && eqb (has stopsigmask sig) (stop_signal sig)).
  pose proof (by_number P ltac:(vm_compute; reflexivity) sig Hs) as H. unfold P in H. rewrite !andb_true_iff, !eqb_true_iff in H. tauto.
Qed.
(** The kinds of signals exclude each other. *)
Lemma kinds sig : (tty_signal sig = true -> stop_signal sig = true) /\ (sig = SIGCONT -> stop_signal sig = false /\ deadly sig = false) /\ (sig = SIGKILL -> stop_signal sig = false) /\
  (stop_signal sig = true -> deadly sig = false).
Proof.
  split; [unfold stop_signal; intros ->; apply orb_true_r|]. split; [by intros ->|]. split; [by intros ->|]. unfold deadly. by intros ->.
Qed.
(** The process with the signal recorded. *)
Definition act (d : disposition) : Z := match d with Holds => SIG_HOLD | Catches => SIG_CATCH | _ => SIG_DFL end.
Record recorded (sig : Z) (p p1 : proc) : Prop := {
  rc_eq : exists w v, p1 = set_p_sig w (set_p_nice v p);
  rc_sig : forall t, valid t -> has (p_sig p1) t =
    if t =? sig then true
    else has (p_sig p) t && negb ((sig =? SIGCONT) && stop_signal t) && negb (stop_signal sig && (t =? SIGCONT));
  rc_nice : p_nice p1 = if deadly sig && bool_decide (disposes p sig = Default) && negb (traced p)
                        then Z.min (p_nice p) NZERO else p_nice p }.
Lemma post_action sig p : valid sig ->
  (if flag_on (p_flag p) P_TRACED then SIG_DFL else if flag_on (p_sigmask p) (sigmask sig) then SIG_HOLD
   else if flag_on (p_sigcatch p) (sigmask sig) then SIG_CATCH else SIG_DFL) = act (disposes p sig) \/ disposes p sig = Ignores.
Proof.
  intros Hs. rewrite !flag_on_sigmask by (unfold valid in Hs; lia). unfold disposes, traced.
  destruct (flag_on _ _), (has (p_sigignore p) sig), (has (p_sigmask p) sig), (has (p_sigcatch p) sig); auto.
Qed.
Lemma act_default d : (act d =? SIG_DFL) = bool_decide (d = Default \/ d = Ignores).
Proof. by destruct d. Qed.
(** The words of a recorded signal. *)
Lemma record_word sig w t : valid sig -> valid t ->
  has (flag_set (let w1 := if sig =? SIGCONT then flag_clr w stopsigmask else w in
                 if stop_signal sig then flag_clr w1 contsigmask else w1) (sigmask sig)) t =
  if t =? sig then true
  else has w t && negb ((sig =? SIGCONT) && stop_signal t) && negb (stop_signal sig && (t =? SIGCONT)).
Proof.
  intros Hs Ht. destruct (prop_bits t Ht) as (_&_&_&_&B). assert (1 <= t) as H1 by (unfold valid in Ht; lia).
  rewrite has_set, has_sigmask, (Z.eqb_sym sig t) by (unfold valid in Hs; lia).
  destruct (t =? sig); [apply orb_true_r|]. rewrite orb_false_r. cbn zeta.
  assert (has contsigmask t = (t =? SIGCONT)) as Hc by (unfold contsigmask; rewrite has_sigmask, Z.eqb_sym by (done || lia); done).
  destruct (sig =? SIGCONT), (stop_signal sig); rewrite ?has_clr, ?B, ?Hc by done; cbn [andb negb]; by rewrite ?andb_true_r.
Qed.
Lemma post_spec b sig p : valid sig ->
  match disposes p sig with
  | Ignores => psignal_post b sig p = None
  | d => if tty_signal sig && b && bool_decide (d = Default) then psignal_post b sig p = Some (p, None)
         else exists p1, psignal_post b sig p = Some (p1, Some (act d)) /\ recorded sig p p1
  end.
Proof.
  intros Hs. destruct (prop_bits sig Hs) as (B1&B2&B3&B4&B5). destruct (kinds sig) as (K1&K2&K3&K4).
  unfold psignal_post. rewrite B1, B2, B3, B4.
  destruct (decide (disposes p sig = Ignores)) as [Ei|Hni].
  { rewrite Ei. rewrite flag_on_sigmask by (unfold valid in Hs; lia). unfold disposes, traced in Ei.
    destruct (flag_on (p_flag p) P_TRACED); [done|]. destruct (has (p_sigignore p) sig); [done|]. by repeat case_match. }
  destruct (post_action sig p Hs) as [->|?]; [|done].
  assert (negb (flag_on (p_flag p) P_TRACED) && flag_on (p_sigignore p) (sigmask sig) = false) as ->.
  { rewrite flag_on_sigmask by (unfold valid in Hs; lia). unfold disposes, traced in Hni.
    destruct (flag_on (p_flag p) P_TRACED); [done|]. by destruct (has (p_sigignore p) sig). }
  rewrite act_default. fold (traced p). set (d := disposes p sig) in *.
  set (p0 := if (NZERO <? p_nice p) && _ && _ && _ then _ else p).
  assert (exists v, p0 = set_p_nice v p /\ v = if deadly sig && bool_decide (d = Default) && negb (traced p) then Z.min (p_nice p) NZERO else p_nice p) as (v&E0&Ev).
  { exists (p_nice p0). unfold p0. rewrite (bool_decide_ext (d = Default \/ d = Ignores) (d = Default)) by tauto.
    destruct (deadly sig), (bool_decide (d = Default)), (traced p), (Z.ltb_spec NZERO (p_nice p)); cbn; (split; [by destruct p|lia]). }
  rewrite E0.
  assert (forall b', b' = tty_signal sig && b && bool_decide (d = Default) ->
    stop_signal sig && (tty_signal sig && b && bool_decide (d = Default \/ d = Ignores)) = b') as Hg.
  { intros b' ->. rewrite (bool_decide_ext (d = Default \/ d = Ignores) (d = Default)) by tauto.
    destruct (tty_signal sig); [by rewrite K1|by rewrite andb_false_r]. }
  rewrite (Hg _ eq_refl). assert (set_p_nice (p_nice p) p = p) as Hp by (by destruct p).
  destruct (tty_signal sig && b && bool_decide (d = Default)) eqn:Et.
  - rewrite !andb_true_iff, bool_decide_eq_true in Et. destruct Et as [[Et Eb] Ed]. pose proof (K1 Et) as Est.
    rewrite (K4 Est) in Ev. cbn in Ev. subst v. rewrite Hp. destruct (Z.eqb_spec sig SIGCONT) as [Ec|_]; [destruct (K2 Ec); congruence|].
    by rewrite Ed, Et, Eb.
  - set (p1 := set_p_sig _ _).
    assert (recorded sig p p1) as Hr.
    { split.
      - unfold p1. destruct (sig =? SIGCONT), (stop_signal sig); (eexists _, v; reflexivity).
      - intros t Ht. rewrite <- (record_word sig (p_sig p) t Hs Ht). unfold p1. by destruct (sig =? SIGCONT), (stop_signal sig).
      - fold d. rewrite <- Ev. unfold p1. by destruct (sig =? SIGCONT), (stop_signal sig). }
    destruct d; try done; rewrite ?Et; eauto.
Qed.

(** ** From the recorded signal to each fate *)
Lemma runs_fields q : let q' := ready (raise_pri q) in
  p_stat q' = SRUN /\ p_wchan q' = 0 /\ p_sig q' = p_sig q /\ p_flag q' = p_flag q /\ p_ptracesig q' = p_ptracesig q /\
  p_nice q' = p_nice q /\ (p_slptime q <= 1 -> p_pri q' = Z.min (p_pri q) PUSER) /\
  p_pid q' = p_pid q /\ p_ppid q' = p_ppid q /\ p_pptr q' = p_pptr q /\ p_uid q' = p_uid q /\
  p_pgrp q' = p_pgrp q /\ p_sigmask q' = p_sigmask q /\ p_sigignore q' = p_sigignore q /\ p_sigcatch q' = p_sigcatch q.
Proof.
  cbn zeta. unfold ready, raise_pri.
  destruct (Z.ltb_spec PUSER (p_pri q)); cbn [p_slptime set_p_pri]; destruct (Z.ltb_spec 1 (p_slptime q)); cbn; split_and!; try done; lia.
Qed.
Definition take_back (sig : Z) (p1 : proc) : proc := set_p_sig (flag_clr (p_sig p1) (sigmask sig)) p1.
Section Fates.
Context (sig : Z) (p p1 : proc) (Hs : valid sig) (Hr : recorded sig p p1).
Definition kept (stay : bool) : proc := if stay then p1 else take_back sig p1.
(** The same with the signal taken back. *)
Lemma kept_eq stay : exists w v, kept stay = set_p_sig w (set_p_nice v p) /\ v = p_nice p1.
Proof. destruct (rc_eq _ _ _ Hr) as (w&v&E). unfold kept, take_back. rewrite E. destruct stay; eauto. Qed.
Lemma kept_sig stay t : valid t -> has (p_sig (kept stay)) t =
  if t =? sig then stay
  else has (p_sig p) t && negb ((sig =? SIGCONT) && stop_signal t) && negb (stop_signal sig && (t =? SIGCONT)).
Proof.
  intros Ht. destruct stay; cbn [kept]; [by apply (rc_sig _ _ _ Hr)|]. unfold take_back. cbn [p_sig set_p_sig].
  rewrite has_clr, has_sigmask, (rc_sig _ _ _ Hr t Ht), (Z.eqb_sym sig t) by (unfold valid in *; lia).
  destruct (t =? sig); [done|]. by rewrite andb_true_r.
Qed.
Ltac fate stay := destruct (kept_eq stay) as (w&v&Ek&->); pose proof (kept_sig stay) as Hsig;
  pose proof (rc_nice _ _ _ Hr) as Hn; rewrite Ek in Hsig |- *.
Ltac fated Hn := split; first [exact Hn|done|idtac].
Lemma fate_stays stay f : f = Pending \/ f = Spent -> affected sig p f stay (kept stay).
Proof. intros Hf. fate stay. destruct Hf; subst f; fated Hn. Qed.
Lemma fate_roused : affected sig p Roused true (set_p_wchan 0 (kept true)).
Proof. fate true. fated Hn. Qed.
Lemma fate_sleeps stay : affected sig p SleepsOn stay (set_p_stat SSLEEP (kept stay)).
Proof. fate stay. fated Hn. Qed.
Lemma fate_runs stay : affected sig p Runs stay (ready (raise_pri (kept stay))).
Proof.
  destruct (runs_fields (kept stay)) as (R1&R2&R3&R4&R5&R6&R7&R8). fate stay. rewrite Ek in R1, R2, R3, R4, R5, R6, R7, R8.
  split; rewrite ?R1, ?R2, ?R3, ?R4, ?R5, ?R6; done || exact Hn.
Qed.
Lemma fate_stops : affected sig p Stops false
  (set_p_flag (flag_clr (p_flag (set_p_ptracesig (s8 sig) (kept false))) P_WAITED) (set_p_stat SSTOP (set_p_ptracesig (s8 sig) (kept false)))).
Proof.
  fate false. rewrite s8_small by (unfold valid, NSIG in Hs; lia). fated Hn. Qed.

(** The switch of psignal gives the process its fate. *)
Definition outcome (r : proc * sigdo) : proc :=
  match r.2 with
  | DoOut => r.1
  | DoRun => ready (raise_pri r.1)
  | DoStop => set_p_flag (flag_clr (p_flag r.1) P_WAITED) (set_p_stat SSTOP r.1)
  | DoUnsleep => set_p_wchan 0 r.1
  end.
Lemma switch_fate f stay : fate_of sig p = f -> stays sig p = stay -> f <> Forgotten -> disposes p sig <> Ignores ->
  affected sig p f stay (outcome (psignal_switch sig (act (disposes p sig)) p1)).
Proof.
  intros Ef Es Hnf Hni. destruct (prop_bits sig Hs) as (B1&B2&B3&B4&B5). destruct (kinds sig) as (K1&K2&K3&K4).
  assert (p_stat p1 = p_stat p /\ p_flag p1 = p_flag p /\ p_wchan p1 = p_wchan p) as (E1&E2&E3)
    by (destruct (rc_eq _ _ _ Hr) as (w&v&->); done).
  unfold psignal_switch. rewrite B1, B2, E1, E2. fold (take_back sig p1). fold (traced p) (stopped p).
  unfold stays in Es. rewrite Ef in Es. unfold fate_of, asleep in Ef.
  assert ((p_stat p =? SSLEEP) && stopped p = false) as X1.
  { unfold stopped. destruct (Z.eqb_spec (p_stat p) SSLEEP) as [->|_]; done. }
  assert ((sig =? SIGCONT) && stop_signal sig = false /\ (sig =? SIGKILL) && stop_signal sig = false /\ (sig =? SIGKILL) && (sig =? SIGCONT) = false) as (X2&X3&X4).
  { destruct (Z.eqb_spec sig SIGCONT) as [Ec|_]; [rewrite Ec; done|]. destruct (Z.eqb_spec sig SIGKILL) as [Ec|_]; [rewrite Ec; done|]. done. }
  assert (traced p && bool_decide (disposes p sig <> Default) = false) as X5.
  { destruct (traced p) eqn:Et; [|done]. unfold disposes. by rewrite Et. }
  destruct (disposes p sig); [done|..]; destruct (traced p); try done; destruct (stopped p), (p_stat p =? SSLEEP); try done;
    destruct (sig =? SIGCONT), (stop_signal sig); try done; destruct (sig =? SIGKILL); try done; cbn in Ef, Es |- *.
  all: destruct (p_wchan p =? 0) eqn:Ew, (flag_on (p_flag p) P_SINTR); cbn in Ef, Es |- *.
  all: try change (p_wchan (take_back sig p1)) with (p_wchan p1); rewrite ?E3, ?Ew; cbn in Ef, Es |- *.
  all: try destruct (tty_signal sig && _); cbn in Ef; try (subst f; done).
  all: try destruct (flag_on (p_flag p) SVFORK); cbn in Ef, Es |- *; subst f stay; cbn.
  all: first [exact (fate_stays true Pending (or_introl eq_refl))|exact (fate_stays false Spent (or_intror eq_refl))
    |exact fate_roused|exact (fate_sleeps true)|exact (fate_sleeps false)|exact (fate_runs true)|exact (fate_runs false)|exact fate_stops].
Qed.
End Fates.
Lemma signalled_effect sig p : valid sig -> signal_effect sig p (signalled sig p).
Proof.
  intros Hs. pose proof (post_spec (bool_decide (p_pptr p = Some 1%nat)) sig p Hs) as Hpost. unfold signal_effect.
  destruct (decide (disposes p sig = Ignores)) as [Ei|Hni].
  { unfold fate_of, signalled. rewrite Ei in *. by rewrite Hpost. }
  assert (fate_of sig p = Forgotten /\ signalled sig p = p \/ fate_of sig p <> Forgotten /\
    affected sig p (fate_of sig p) (stays sig p) (signalled sig p)) as [[-> ->]|[Hnf Ha]]; [|done|by destruct (fate_of sig p)].
  set (b := bool_decide _) in *.
  assert (fate_of sig p = Forgotten <-> tty_signal sig && b && bool_decide (disposes p sig = Default) = true) as Hf.
  { unfold fate_of. fold b. destruct (disposes p sig); [done|..]; rewrite ?andb_false_r, ?andb_true_r;
      repeat (case_match; try done). }
  destruct (tty_signal sig && b && bool_decide (disposes p sig = Default)) eqn:Eb.
  - left. split; [by apply Hf|]. unfold signalled. fold b. destruct (disposes p sig); [done|..]; cbn zeta in Hpost; rewrite Eb in Hpost; by rewrite Hpost.
  - right. assert (fate_of sig p <> Forgotten) as Hnf by (rewrite Hf; done). split; [done|].
    assert (exists p1, psignal_post b sig p = Some (p1, Some (act (disposes p sig))) /\ recorded sig p p1) as (p1&E&Hr)
      by (destruct (disposes p sig); [done|..]; cbn zeta in Hpost; by rewrite Eb in Hpost).
    replace (signalled sig p) with (outcome (psignal_switch sig (act (disposes p sig)) p1)); [by apply switch_fate|].
    unfold signalled. fold b. rewrite E. by destruct (psignal_switch _ _ p1) as [p2 []].
Qed.
#[export] Instance signal_effect_proper sig p : Proper (link_eq ==> impl) (signal_effect sig p).
Proof.
  intros q q' E. unfold signal_effect. destruct (fate_of sig p); [by intros ->|..]; rewrite (link_eq_as_set _ _ E); intros [];
    by split.
Qed.


(** Process 1 of the table asleep interruptibly, a child of process 0. *)
Definition sleeper : proc :=
  set_p_pptr (Some 0%nat) (set_p_flag (Z.lor SLOAD P_SINTR) (proc_at SSLEEP 32 20)).
Definition sched_sig : sched := set_tab (<[1%nat := sleeper]> (tab sched1)) sched1.
Lemma sched_sig_queues : queues sched_sig [0%nat] [2%nat] sleepers1.
Proof.
  eapply queues_update; [exact sched1_queues|reflexivity|done|done| | |done| |]; [|by left|done|];
    intros ?%list_elem_of_singleton; done.
Qed.

Lemma ready_sig p : p_sig (ready p) = p_sig p.
Proof. unfold ready. by case_match. Qed.
Lemma raise_pri_sig p : p_sig (raise_pri p) = p_sig p.
Proof. unfold raise_pri. by case_match. Qed.
Lemma link_eq_sig p p' : link_eq p p' -> p_sig p' = p_sig p.
Proof. intros E. rewrite (link_eq_as_set _ _ E). done. Qed.

Lemma signalled_kill p :
  flag_on (p_flag p) P_TRACED = false -> has (p_sigignore p) SIGKILL = false ->
  has (p_sigmask p) SIGKILL = false -> has (p_sigcatch p) SIGKILL = false ->
  has (p_sig (signalled SIGKILL p)) SIGKILL = true /\
  (p_stat p = SSTOP \/ p_stat p = SSLEEP /\ flag_on (p_flag p) P_SINTR = true -> p_stat (signalled SIGKILL p) = SRUN).
Proof.
  intros Ht Hi Hm Hc. unfold signalled, psignal_post. rewrite Ht, !flag_on_sigmask, Hi, Hm, Hc by done.
  cbn [negb andb]. change (flag_on (sigprop SIGKILL) SA_CONT) with false. change (flag_on (sigprop SIGKILL) SA_STOP) with false.
  change (flag_on (sigprop SIGKILL) SA_KILL) with true. cbn [andb]. change (SIG_DFL =? SIG_DFL) with true.
  set (p0 := if (_ : bool) then (_ : proc) else p).
  assert (p_stat p0 = p_stat p /\ p_flag p0 = p_flag p /\ p_sig p0 = p_sig p) as (E1&E2&E3) by (unfold p0; by case_match).
  set (p1 := set_p_sig _ p0). unfold psignal_switch. change (SIG_DFL =? SIG_HOLD) with false. cbn [andb].
  change (p_stat p1) with (p_stat p0). change (p_flag p1) with (p_flag p0). rewrite E1, E2, Ht.
  change (flag_on (sigprop SIGKILL) SA_CONT) with false. change (flag_on (sigprop SIGKILL) SA_STOP) with false.
  change (SIGKILL =? SIGKILL) with true.
  assert (has (p_sig p1) SIGKILL = true) as Hs.
  { cbn [p1 p_sig set_p_sig]. rewrite has_set by done. by rewrite has_sigmask, orb_true_r. }
  assert (has (p_sig (ready (raise_pri p1))) SIGKILL = true) as Hs' by (by rewrite ready_sig, raise_pri_sig).
  destruct (Z.eqb_spec (p_stat p) SSLEEP) as [El|El].
  - destruct (flag_on (p_flag p) P_SINTR) eqn:Esi; cbn [negb andb].
    + split; [done|]. intros _. apply ready_fields.
    + split; [done|]. intros [E|[_ E]]; [|done]. rewrite E in El. done.
  - destruct (Z.eqb_spec (p_stat p) SSTOP) as [Eo|Eo].
    + split; [done|]. intros _. apply ready_fields.
    + split; [done|]. intros [E|[E _]]; done.
Qed.

Lemma signalled_cont p :
  flag_on (p_flag p) P_TRACED = false -> has (p_sigignore p) SIGCONT = false -> p_stat p = SSTOP ->
  p_stat (signalled SIGCONT p) =
    (if (has (p_sigcatch p) SIGCONT && negb (has (p_sigmask p) SIGCONT)) || (p_wchan p =? 0) then SRUN else SSLEEP) /\
  forall t, t = SIGSTOP \/ t = SIGTSTP \/ t = SIGTTIN \/ t = SIGTTOU -> has (p_sig (signalled SIGCONT p)) t = false.
Proof.
  intros Ht Hi Hst. unfold signalled, psignal_post. rewrite Ht, !flag_on_sigmask, Hi by done. cbn [negb andb].
  change (flag_on (sigprop SIGCONT) SA_CONT) with true. change (flag_on (sigprop SIGCONT) SA_STOP) with false.
  change (flag_on (sigprop SIGCONT) SA_KILL) with false. rewrite ?andb_false_r. cbn [andb].
  set (act := if has (p_sigmask p) SIGCONT then _ else _). set (p1 := set_p_sig _ (set_p_sig _ p)).
  assert (forall t, t = SIGSTOP \/ t = SIGTSTP \/ t = SIGTTIN \/ t = SIGTTOU -> has (p_sig p1) t = false) as H1.
  { intros t Hs. cbn [p1 p_sig set_p_sig].
    rewrite has_set, has_clr by (unfold SIGSTOP, SIGTSTP, SIGTTIN, SIGTTOU in *; lia).
    destruct Hs as [->|[->|[->| ->]]]; cbn; by rewrite ?andb_false_r. }
  assert (forall t, t = SIGSTOP \/ t = SIGTSTP \/ t = SIGTTIN \/ t = SIGTTOU ->
    has (p_sig (set_p_sig (flag_clr (p_sig p1) (sigmask SIGCONT)) p1)) t = false) as H2.
  { intros t Hs. cbn [p_sig set_p_sig]. rewrite has_clr by (unfold SIGSTOP, SIGTSTP, SIGTTIN, SIGTTOU in *; lia).
    by rewrite (H1 t Hs). }
  unfold psignal_switch. change (flag_on (sigprop SIGCONT) SA_CONT) with true. change (p_stat p1) with (p_stat p).
  change (p_flag p1) with (p_flag p). rewrite Hst, Ht. change (SSTOP =? SSTOP) with true. change (SSTOP =? SSLEEP) with false.
  cbn [negb orb]. rewrite andb_false_r. change (SIGCONT =? SIGKILL) with false.
  assert ((act =? SIG_CATCH) = has (p_sigcatch p) SIGCONT && negb (has (p_sigmask p) SIGCONT)) as Ea.
  { unfold act. destruct (has (p_sigmask p) SIGCONT), (has (p_sigcatch p) SIGCONT); done. }
  rewrite Ea. set (p2 := if act =? SIG_DFL then _ else p1).
  assert (p_wchan p2 = p_wchan p) as Ew by (unfold p2; by case_match). rewrite Ew.
  assert (forall t, t = SIGSTOP \/ t = SIGTSTP \/ t = SIGTTIN \/ t = SIGTTOU -> has (p_sig p2) t = false) as H3
    by (unfold p2; case_match; [exact H2|exact H1]).
  destruct (_ || _).
  - split; [apply ready_fields|]. intros t Hs. rewrite ready_sig, raise_pri_sig. by apply H3.
  - split; [done|]. intros t Hs. by apply (H3 t).
Qed.

(** (C35) A process that no call can protect gets its SIGKILL: the signal is
    pending, and a stopped or interruptibly sleeping process runs, on the run
    queue if it is in memory.  SIGCONT ends every stop: the process runs if it
    catches the signal or waits for nothing, else it sleeps on, and no stop
    signal stays pending. *)
Theorem kill_cont_spec addr_runout addr_proc s off rq sq i p j us :
  addr_runout <> 0 -> (forall j, addr_proc j <> 0) -> queues s off rq sq ->
  tab s !! i = Some p -> p_pptr p = Some j -> j <> i -> is_Some (tab s !! j) ->
  sleeps_ok addr_runout addr_proc j p -> sig_inv us p -> flag_on (p_flag p) P_TRACED = false ->
  (exists s' rq' sq' p', psignal addr_runout addr_proc i SIGKILL s = Ok s' /\ queues s' off rq' sq' /\
    tab s' !! i = Some p' /\ has (p_sig p') SIGKILL = true /\
    (p_stat p = SSTOP \/ p_stat p = SSLEEP /\ flag_on (p_flag p) P_SINTR = true ->
     p_stat p' = SRUN /\ (flag_on (p_flag p') SLOAD = true -> i ∈ rq'))) /\
  (p_stat p = SSTOP ->
   exists s' rq' sq' p', psignal addr_runout addr_proc i SIGCONT s = Ok s' /\ queues s' off rq' sq' /\
    tab s' !! i = Some p' /\
    p_stat p' = (if (has (p_sigcatch p) SIGCONT && negb (has (p_sigmask p) SIGCONT)) || (p_wchan p =? 0) then SRUN else SSLEEP) /\
    forall t, t = SIGSTOP \/ t = SIGTSTP \/ t = SIGTTIN \/ t = SIGTTOU -> has (p_sig p') t = false).
Proof.
  intros Hro Hpr Hq Hi Hp Hji Hj [Hw1 Hw2] Hinv Htr. split.
  - destruct (psignal_ok addr_runout addr_proc Hro Hpr s off rq sq i p j SIGKILL Hq Hi Hp Hji Hj Hw1 Hw2)
      as (s'&rq'&sq'&p'&E&Hq'&Hi'&El).
    assert (uncatchable SIGKILL) as Hu by (by left). pose proof (uncatchable_valid _ Hu) as Hv.
    destruct (si_cant _ _ Hinv SIGKILL Hu) as (Hm&_&Ha&_).
    destruct (signalled_kill p Htr) as [Hs Hst].
    { by rewrite (si_ignore _ _ Hinv _ _ Hv Ha). } { done. } { by rewrite (si_catch _ _ Hinv _ _ Hv Ha). }
    exists s', rq', sq', p'. split_and!; try done; [by rewrite (link_eq_sig _ _ El)|].
    intros Hc. specialize (Hst Hc). pose proof (link_eq_fields _ _ El) as (E1&_). rewrite E1 in Hst. split; [done|].
    intros Hl. destruct (q_ready _ _ _ _ Hq' i p' Hi' Hst Hl) as [|Ho]; [done|].
    destruct (q_off _ _ _ _ Hq i Ho) as (_&p0&?&Es&_). simplify_eq. rewrite Es in Hc. by destruct Hc as [?|[? _]].
  - intros Hst. destruct (psignal_ok addr_runout addr_proc Hro Hpr s off rq sq i p j SIGCONT Hq Hi Hp Hji Hj Hw1 Hw2)
      as (s'&rq'&sq'&p'&E&Hq'&Hi'&El).
    destruct (signalled_cont p Htr (sig_inv_cont _ _ Hinv) Hst) as [H1 H2].
    exists s', rq', sq', p'. pose proof (link_eq_fields _ _ El) as (E1&_). split_and!; try done; [congruence|].
    intros t Hs. rewrite (link_eq_sig _ _ El). by apply H2.
Qed.

Lemma siginit_words :
  p_sigignore (siginit inhabitant) = 407404544 /\ p_sigcatch (siginit inhabitant) = 0.
Proof. vm_compute. done. Qed.
Definition sched_sig2 : sched := set_tab (<[1%nat := set_p_sigignore 407404544 sleeper]> (tab sched1)) sched1.
Lemma kill_cont_spec_witness :
  exists s' rq' sq' p', psignal 4096 (fun j => 8192 + Z.of_nat j) 1 SIGKILL sched_sig2 = Ok s' /\
    queues s' [0%nat] rq' sq' /\ tab s' !! 1%nat = Some p' /\ has (p_sig p') SIGKILL = true /\
    (SSLEEP = SSTOP \/ SSLEEP = SSLEEP /\ true = true ->
     p_stat p' = SRUN /\ (flag_on (p_flag p') SLOAD = true -> 1%nat ∈ rq')).
Proof.
  apply (kill_cont_spec 4096 (fun j => 8192 + Z.of_nat j) sched_sig2 [0%nat] [2%nat] sleepers1 1
    (set_p_sigignore 407404544 sleeper) 0%nat usig0).
  - done.
  - lia.
  - eapply queues_update; [exact sched1_queues|reflexivity|done|done| | |done| |]; [|by left|done|];
      intros ?%list_elem_of_singleton; done.
  - reflexivity.
  - reflexivity.
  - done.
  - by eexists.
  - split; done.
  - destruct siginit_words as [E1 E2]. eapply sig_inv_ext; [exact siginit_inv|reflexivity|reflexivity| | |].
    + by rewrite E2.
    + by rewrite E1.
    + intros sg [->| ->]; done.
  - done.
Defined.

(** ** Choosing a pending signal *)

(** The signals of [1..31] pending for a process. *)
Definition pending (p : proc) : list Z := filter (fun t => has (p_sig p) t = true) (seqZ 1 31).
Lemma pending_clr p sg :
  valid sg -> has (p_sig p) sg = true ->
  (length (pending (set_p_sig (flag_clr (p_sig p) (sigmask sg)) p)) < length (pending p))%nat.
Proof.
  intros Hv Hs. unfold pending. cbn [p_sig set_p_sig]. assert (sg ∈ seqZ 1 31) as Hin
    by (apply elem_of_seqZ; unfold valid, NSIG in *; lia).
  unfold valid in Hv. assert (forall l, Forall (fun t => 1 <= t) l ->
    (length (filter (fun t => has (flag_clr (p_sig p) (sigmask sg)) t = true) l) <=
     length (filter (fun t => has (p_sig p) t = true) l))%nat) as Hle.
  { induction 1 as [|t l Ht _ IH]; [done|]. rewrite !filter_cons. rewrite has_clr by done.
    destruct (has (p_sig p) t); cbn [andb]; repeat case_decide; simpl; try done; lia. }
  assert (Forall (fun t => 1 <= t) (seqZ 1 31)) as Hpos by (apply Forall_forall; intros t ?%elem_of_seqZ; lia).
  apply list_elem_of_split in Hin as (l1&l2&E). rewrite E in *. apply Forall_app in Hpos as [P1 [_ P2]%Forall_cons_1].
  rewrite !filter_app, !length_app. pose proof (Hle l1 P1). pose proof (Hle l2 P2).
  rewrite (filter_cons_True (fun t => has (p_sig p) t = true) sg) by done. rewrite filter_cons_False; [simpl; lia|].
  rewrite has_clr, has_sigmask, Z.eqb_refl, andb_false_r by lia. done.
Qed.
Lemma pending_bound p : (length (pending p) <= 31)%nat.
Proof. unfold pending. etrans; [apply length_filter|]. done. Qed.

(** The signals issignal looks at. *)
Definition deliverable (p : proc) : Z :=
  let mask := Z.land (p_sig p) (Z.lnot (p_sigmask p)) in
  if flag_on (p_flag p) SVFORK then flag_clr mask stopsigmask else mask.
Definition small (p : proc) : Prop := 0 <= p_sig p < 2 ^ 31.

Lemma land_small a b : 0 <= a < 2 ^ 31 -> 0 <= Z.land a b < 2 ^ 31.
Proof.
  intros Ha. assert (0 <= Z.land a b) as H0 by (apply Z.land_nonneg; lia). split; [done|].
  destruct (Z.eq_dec (Z.land a b) 0) as [->|Hne]; [lia|]. apply Z.log2_lt_pow2; [lia|].
  destruct (Z.lt_ge_cases (Z.log2 (Z.land a b)) 31) as [|Hge]; [done|]. exfalso.
  pose proof (Z.bit_log2 (Z.land a b) ltac:(lia)) as Hb. rewrite Z.land_spec in Hb. apply andb_true_iff in Hb as [Hb _].
  rewrite Z.bits_above_log2 in Hb; [done|lia|]. destruct (Z.eq_dec a 0) as [->|]; [rewrite Z.land_0_l in Hge; cbn in Hge; lia|].
  assert (Z.log2 a < 31) by (apply Z.log2_lt_pow2; lia). lia.
Qed.
Lemma deliverable_small p : small p -> 0 <= deliverable p < 2 ^ 31.
Proof.
  intros Hs. unfold deliverable. case_match; unfold flag_clr; repeat apply land_small; done.
Qed.
Lemma deliverable_has p t : 1 <= t -> has (deliverable p) t = true -> has (p_sig p) t = true /\ has (p_sigmask p) t = false.
Proof.
  intros Ht. unfold deliverable, has, flag_clr.
  case_match; rewrite !Z.land_spec, ?Z.lnot_spec by lia; intros Hb; bool_to_prop; done.
Qed.
Lemma deliverable_pick p :
  small p -> deliverable p <> 0 ->
  let sg := Mem.Mem.ffs (deliverable p) in
  valid sg /\ has (p_sig p) sg = true /\ has (p_sigmask p) sg = false /\ has (deliverable p) sg = true /\
  forall t, 1 <= t < sg -> has (deliverable p) t = false.
Proof.
  intros Hs Hne sg. pose proof (deliverable_small p Hs) as Hd.
  destruct (Mem.Mem.ffs_ok (deliverable p)) as (H1&H2&H3); [lia|]. fold sg in H1, H2, H3.
  destruct (deliverable_has p sg) as [? ?]; [lia|done|]. split_and!; try done; [|].
  - unfold valid, NSIG. split; [lia|]. destruct (Z.eq_dec sg 32) as [E|]; [|lia]. exfalso.
    rewrite E in H2. rewrite Z.bits_above_log2 in H2; [done|lia|].
    apply Z.log2_lt_pow2; [lia|]. lia.
  - intros t Ht. apply H3. lia.
Qed.

Section Choice.
Context (addr_runout : Z) (addr_proc : nat -> Z).
Context (Hrunout : addr_runout <> 0) (Hproc : forall j, addr_proc j <> 0).
Context (s : sched) (off rq : list nat) (sq : nat -> list nat) (Hq : queues s off rq sq).
Context (us : usig) (i j : nat) (p : proc).
Context (Hi : tab s !! i = Some p) (Hinv : sig_inv us p) (Hoff : i ∈ off).
Context (Hp : p_pptr p = Some j) (Hji : j <> i) (Hj : is_Some (tab s !! j)).
Context (Htr : flag_on (p_flag p) P_TRACED = false).

(** The state with the pending signals [w]. *)
Definition with_sig (w : Z) : sched := set_tab (<[i := set_p_sig w p]> (tab s)) s.

Lemma with_sig_at w : tab (with_sig w) !! i = Some (set_p_sig w p).
Proof. apply list_lookup_insert_eq. by eapply lookup_lt_Some. Qed.
Lemma with_sig_queues w : queues (with_sig w) off rq sq.
Proof. eapply queues_keeps; [done|done|done|by left]. Qed.
Lemma with_sig_upd w f :
  upd i (fun p => set_p_sig (f (p_sig p)) p) (with_sig w) = Ok (with_sig (f w)).
Proof.
  rewrite (upd_ok _ _ _ _ (with_sig_at w)). unfold with_sig. cbn [tab set_tab p_sig set_p_sig].
  rewrite list_insert_insert_eq. done.
Qed.

(** Signals whose default action neither stops nor is to ignore. *)
Definition fatal (sg : Z) : bool := negb (flag_on (sigprop sg) SA_STOP) && negb (flag_on (sigprop sg) SA_IGNORE).
(** What issignal can end with. *)
Definition sig_result (r : isres) (p' : proc) : Prop :=
  match r with
  | SigRet sg =>
      if sg =? 0 then deliverable p' = 0
      else has (deliverable p') sg = true /\ (forall t, 1 <= t < sg -> has (deliverable p') t = false) /\
        exists act, u_signal us !! Z.to_nat sg = Some act /\
          (caught act = true \/ act = SIG_DFL /\ fatal sg = true /\ 1 < p_pid p)
  | SigStopped mask => p_stat p' = SSTOP /\
      exists sg, mask = sigmask sg /\ flag_on (sigprop sg) SA_STOP = true /\ u_signal us !! Z.to_nat sg = Some SIG_DFL
  | SigTraced => False
  end.

(** Stopping by default action, with the signal to the parent. *)
Lemma default_stop w sg :
  exists s' rq' sq' p',
    (s ← upd i (set_p_ptracesig (s8 sg)) (with_sig w);
     pp ← rd (tab s) j;
     s ← (if negb (flag_on (p_flag pp) P_NOCLDSTOP) then psignal addr_runout addr_proc j SIGCHLD s else Ok s);
     s ← stop addr_runout addr_proc i s;
     Ok (s, Some (SigStopped (sigmask sg)))) = Ok (s', Some (SigStopped (sigmask sg))) /\
    queues s' (filter (fun x => x <> i) off) rq' sq' /\ tab s' !! i = Some p' /\ p_stat p' = SSTOP.
Proof.
  assert (p_wchan p = 0) as Hw by (destruct (q_off _ _ _ _ Hq i Hoff) as (_&p0&?&_&?); congruence).
  rewrite (upd_ok _ _ _ _ (with_sig_at w)). cbn [mbind res_bind]. set (s1 := set_tab _ _).
  assert (tab s1 !! i = Some (set_p_ptracesig (s8 sg) (set_p_sig w p))) as Hi1.
  { apply list_lookup_insert_eq. eapply lookup_lt_Some, with_sig_at. }
  destruct Hj as [pj Hpj]. assert (tab s1 !! j = Some pj) as Hj1 by (cbn; rewrite !list_lookup_insert_ne by done; done).
  assert (queues s1 off rq sq) as Hq1.
  { eapply queues_keeps; [apply (with_sig_queues w)|apply with_sig_at|done|by left]. }
  rewrite (rd_Some _ _ _ Hj1). cbn [mbind res_bind].
  assert (exists s2 rq2 sq2 p2, (if negb (flag_on (p_flag pj) P_NOCLDSTOP) then psignal addr_runout addr_proc j SIGCHLD s1
      else Ok s1) = Ok s2 /\ queues s2 off rq2 sq2 /\ tab s2 !! i = Some p2 /\
      link_eq (set_p_ptracesig (s8 sg) (set_p_sig w p)) p2) as (s2&rq2&sq2&p2&->&Hq2&Hi2&El).
  { case_if; [|exists s1, rq, sq; eexists; split_and!; done].
    destruct (psignal_nostop addr_runout addr_proc Hrunout s1 off rq sq j pj SIGCHLD 1 Hq1 Hj1 (SIGCHLD_nostop pj))
      as (s2&rq2&sq2&_&?&Hq2&_&_&Hx). specialize (Hx i (not_eq_sym Hji)). rewrite Hi1 in Hx.
    inversion Hx as [? p2 Hb|]; subst. exists s2, rq2, sq2, p2. split_and!; try done.
    destruct Hb as [?|[Hc _]]; [done|]. cbn in Hc. congruence. }
  cbn [mbind res_bind]. pose proof (link_eq_fields _ _ El) as (F1&F2&_).
  destruct (stop_ok addr_runout addr_proc Hrunout Hproc s2 off rq2 sq2 i p2 j Hq2 Hi2) as (s'&rq'&sq'&p'&->&Hq'&Hi'&El').
  - by apply (q_off _ _ _ _ Hq2).
  - rewrite (link_eq_as_set _ _ El). done.
  - rewrite <- F2. cbn. rewrite Hw. intros E. by apply (Hproc j).
  - rewrite <- F2. cbn. rewrite Hw. done.
  - cbn [mbind res_bind]. exists s', rq', sq', p'. split_and!; try done.
    pose proof (link_eq_fields _ _ El') as (<-&_). done.
Qed.
(** The turn takes the signal away. *)
Ltac drop_signal :=
  right; eexists; (split; [eassumption|]); (split; [eassumption|]); cbn [mbind res_bind];
  match goal with |- context [upd i _ (with_sig ?w)] => rewrite (with_sig_upd w (fun v => flag_clr v (sigmask _))) end;
  reflexivity.

(** One turn: done with a result, or a pending signal is taken away. *)
Lemma issignal_turn_ok w :
  0 <= w < 2 ^ 31 ->
  (exists s' r off' rq' sq' p', issignal_turn addr_runout addr_proc us i (with_sig w) = Ok (s', Some r) /\
     queues s' off' rq' sq' /\ tab s' !! i = Some p' /\ sig_result r p') \/
  exists sg, valid sg /\ has w sg = true /\
    issignal_turn addr_runout addr_proc us i (with_sig w) = Ok (with_sig (flag_clr w (sigmask sg)), None).
Proof.
  intros Hsm. pose proof (with_sig_at w) as Hiw. pose proof (with_sig_queues w) as Hqw. unfold issignal_turn.
  rewrite (rd_Some _ _ _ Hiw). cbn [mbind res_bind]. fold (deliverable (set_p_sig w p)).
  destruct (Z.eqb_spec (deliverable (set_p_sig w p)) 0) as [E0|E0].
  { left. eexists _, (SigRet 0), off, rq, sq, _. split; [done|]. done. }
  destruct (deliverable_pick (set_p_sig w p)) as (Hv&Hs&Hm&Hd&Hlow); [done|done|].
  set (sg := Mem.Mem.ffs _) in *. cbn [p_sig set_p_sig p_sigmask p_sigignore p_flag p_pptr] in *. rewrite Htr. cbn [negb andb].
  rewrite (with_sig_upd w (fun v => flag_clr v (sigmask sg))). cbn [mbind res_bind].
  rewrite andb_true_r. destruct (flag_on (sigmask sg) (p_sigignore p)); [right; exists sg; done|].
  unfold issignal_switch. rewrite (rd_Some _ _ _ Hiw). cbn [mbind res_bind].
  destruct (lookup_lt_is_Some_2 (u_signal us) (Z.to_nat sg)) as [act Ha].
  { destruct (si_len _ _ Hinv) as [-> _]. unfold valid in Hv. lia. }
  rewrite (rd_Some _ _ _ Ha). cbn [mbind res_bind p_pid p_flag p_pptr set_p_sig]. rewrite Htr, Hp. cbn [orb].
  assert (sg <> 0) as Hsg0 by (unfold valid in Hv; lia). apply Z.eqb_neq in Hsg0.
  destruct (Z.eqb_spec act SIG_DFL) as [->|Hdfl].
  - destruct (Z.leb_spec (p_pid p) 1) as [Hpid|Hpid]; [drop_signal|].
    destruct (flag_on (sigprop sg) SA_STOP) eqn:Estop.
    + destruct (_ && _); [drop_signal|]. left.
      destruct (default_stop w sg) as (s'&rq'&sq'&p'&E&Hq'&Hi'&Hst).
      exists s', (SigStopped (sigmask sg)), (filter (fun x => x <> i) off), rq', sq', p'. split; [|split; [done|split; [done|split; [done|by exists sg]]]].
      rewrite E. done.
    + destruct (flag_on (sigprop sg) SA_IGNORE) eqn:Eign; [drop_signal|]. left.
      eexists _, (SigRet sg), off, rq, sq, _. split; [cbn [mbind res_bind]; reflexivity|]. split; [done|]. split; [done|]. unfold sig_result. rewrite Hsg0.
      split; [done|]. split; [done|]. exists SIG_DFL. split; [done|]. right. unfold fatal. by rewrite Estop, Eign.
  - destruct (Z.eqb_spec act SIG_IGN) as [->|Hign]; [drop_signal|]. left.
    eexists _, (SigRet sg), off, rq, sq, _. split; [cbn [mbind res_bind]; reflexivity|]. split; [done|]. split; [done|]. unfold sig_result. rewrite Hsg0.
    split; [done|]. split; [done|]. exists act. split; [done|]. left. unfold caught.
    apply Z.eqb_neq in Hdfl, Hign. by rewrite Hdfl, Hign.
Qed.

Lemma issignal_loop_ok fuel : forall w,
  0 <= w < 2 ^ 31 -> (length (pending (set_p_sig w p)) < fuel)%nat ->
  exists s' r off' rq' sq' p', issignal_loop addr_runout addr_proc fuel us i (with_sig w) = Ok (s', r) /\
    queues s' off' rq' sq' /\ tab s' !! i = Some p' /\ sig_result r p'.
Proof.
  induction fuel as [|fuel IH]; intros w Hw Hf; [lia|]. cbn [issignal_loop].
  destruct (issignal_turn_ok w Hw) as [(s'&r&off'&rq'&sq'&p'&->&?&?&?)|(sg&Hv&Hs&->)]; cbn [mbind res_bind].
  - eauto 10.
  - apply IH; [by apply land_small|]. pose proof (pending_clr (set_p_sig w p) sg Hv Hs) as Hlt.
    cbn [p_sig set_p_sig] in Hlt. change (set_p_sig (flag_clr w (sigmask sg)) (set_p_sig w p))
      with (set_p_sig (flag_clr w (sigmask sg)) p) in Hlt. lia.
Qed.
End Choice.

(** For a running process that is not traced, issignal always ends.  It
    returns 0 only when no deliverable signal is pending; else it returns the
    lowest-numbered deliverable signal, one that is caught or kills by
    default, after dropping those that are ignored; or it stops the process
    for a stop signal with its default action. *)
Theorem issignal_spec addr_runout addr_proc s off rq sq us i j p :
  addr_runout <> 0 -> (forall j, addr_proc j <> 0) -> queues s off rq sq -> tab s !! i = Some p -> sig_inv us p ->
  i ∈ off -> p_pptr p = Some j -> j <> i -> is_Some (tab s !! j) ->
  flag_on (p_flag p) P_TRACED = false -> 0 <= p_sig p < 2 ^ 31 ->
  exists s' r off' rq' sq' p', issignal addr_runout addr_proc us i s = Ok (s', r) /\
    queues s' off' rq' sq' /\ tab s' !! i = Some p' /\ sig_result us p r p'.
Proof.
  intros Hro Hpr Hq Hi Hinv Hoff Hp Hji Hj Htr Hs. unfold issignal.
  destruct (issignal_loop_ok addr_runout addr_proc Hro Hpr s off rq sq Hq us i j p Hi Hinv Hoff Hp Hji Hj Htr 33 (p_sig p) Hs)
    as (s'&r&off'&rq'&sq'&p'&E&?&?&?).
  { pose proof (pending_bound (set_p_sig (p_sig p) p)). lia. }
  assert (with_sig s i p (p_sig p) = s) as Hs0.
  { unfold with_sig. replace (set_p_sig (p_sig p) p) with p by (by destruct p). rewrite list_insert_id by done. by destruct s. }
  rewrite Hs0 in E. eauto 10.
Qed.
Definition sched_sig3 : sched :=
  set_tab (<[0%nat := set_p_sig (sigmask 2 + sigmask 28) (set_p_pid 7 (set_p_pptr (Some 2%nat)
    (set_p_sigignore 407404544 (proc_at SRUN 0 50))))]> (tab sched1)) sched1.
Lemma issignal_spec_witness :
  exists s' r off' rq' sq' p', issignal 4096 (fun j => 8192 + Z.of_nat j) usig0 0 sched_sig3 = Ok (s', r) /\
    queues s' off' rq' sq' /\ tab s' !! 0%nat = Some p' /\
    sig_result usig0 (set_p_sig (sigmask 2 + sigmask 28) (set_p_pid 7 (set_p_pptr (Some 2%nat)
      (set_p_sigignore 407404544 (proc_at SRUN 0 50))))) r p'.
Proof.
  eapply (issignal_spec 4096 (fun j => 8192 + Z.of_nat j) sched_sig3 [0%nat] [2%nat] sleepers1 usig0 0 2).
  - done.
  - lia.
  - eapply queues_update; [exact sched1_queues|reflexivity|done|done| | |done| |].
    + intros ?%list_elem_of_singleton. done.
    + intros []. done.
    + intros _ _. right. apply list_elem_of_here.
    + intros _. split; [|done]. intros ?%list_elem_of_singleton. done.
  - reflexivity.
  - destruct siginit_words as [E1 E2]. eapply sig_inv_ext; [exact siginit_inv|reflexivity|reflexivity| | |].
    + by rewrite E2.
    + by rewrite E1.
    + intros sg [->| ->]; done.
  - apply list_elem_of_here.
  - reflexivity.
  - done.
  - by eexists.
  - done.
  - done.
Defined.

End Sig.
