(* ===== verification/Fork.v ===== *)
(** How processes come and go (newproc and fork1 of sys/kernel/kern_fork.c,
    exit and wait1 of sys/kernel/kern_exit.c): the choice of a process id, and
    the lists every entry of the process table is on.

    Of newproc the part on the process table is modelled, up to the reference
    counts of the open files, which are in the component of descriptors, and
    the copy of the image.  Of exit the part after the files are closed, up to
    the switch to another process. *)
From S2P Require Import Prelude Proc Sched Mem Sig.
Import Proc Sched.

Module Fork.

(** ** Data *)

Definition MAXUPRC : Z := 20.
Definition MAXPID : Z := 30000.
Definition SIGHUP : Z := 1.
Definition ECHILD : Z := 10.
Definition EAGAIN : Z := 11.
Definition WNOHANG : Z := 1.
Definition WUNTRACED : Z := 2.
Definition WSTOPPED : Z := 127.
Definition WAIT_ANY : Z := -1.
Definition WAIT_MYPGRP : Z := 0.

(** The process table with the scheduler's queues, the lists of free, living
    and dead processes, the hash table of process ids, and what newproc
    remembers of the ids. *)
Record pstate := MkPs {
  ps : sched; hashes : list (option nat);
  free : option nat; all : option nat; zomb : option nat;
  mpid : Z; pidchecked : Z }.
Implicit Types (st : pstate).
Definition set_ps (s : sched) st : pstate := MkPs s (hashes st) (free st) (all st) (zomb st) (mpid st) (pidchecked st).
Definition set_hashes (v : list (option nat)) st : pstate := MkPs (ps st) v (free st) (all st) (zomb st) (mpid st) (pidchecked st).
Definition set_free (v : option nat) st : pstate := MkPs (ps st) (hashes st) v (all st) (zomb st) (mpid st) (pidchecked st).
Definition set_all (v : option nat) st : pstate := MkPs (ps st) (hashes st) (free st) v (zomb st) (mpid st) (pidchecked st).
Definition set_zomb (v : option nat) st : pstate := MkPs (ps st) (hashes st) (free st) (all st) v (mpid st) (pidchecked st).
Definition set_pids (m c : Z) st : pstate := MkPs (ps st) (hashes st) (free st) (all st) (zomb st) m c.
Definition procs_of st : list proc := tab (ps st).
Definition table_of st : ptable := PTable (procs_of st) (hashes st) (free st) (all st) (zomb st).
Definition upd_proc (i : nat) (g : proc -> proc) st : res pstate := s ← upd i g (ps st); Ok (set_ps s st).
Definition get_proc st (i : nat) : res proc := rd (procs_of st) i.

(** ** A new process id *)

(** The loop over one list: [true] for [goto retry]. *)
Fixpoint scan (fuel : nat) (l : list proc) (child : option nat) (m c : Z) : res (bool * Z * Z) :=
  match fuel with
  | O => Fault
  | S fuel =>
      match child with
      | None => Ok (false, m, c)
      | Some i =>
          q ← rd l i;
          let hit := (p_pid q =? m) || (p_pgrp q =? m) in
          let m := if hit then m + 1 else m in
          if hit && (c <=? m) then Ok (true, m, c)
          else
            let c := if (m <? p_pid q) && (p_pid q <? c) then p_pid q else c in
            let c := if (m <? p_pgrp q) && (p_pgrp q <? c) then p_pgrp q else c in
            scan fuel l (p_nxt q) m c
      end
  end.
(** From [retry] on. *)
Fixpoint pick_pid (fuel : nat) st (m c : Z) : res (Z * Z) :=
  match fuel with
  | O => Fault
  | S fuel =>
      let '(m, c) := if MAXPID <=? m then (100, 0) else (m, c) in
      if c <=? m then
        let n := S (length (procs_of st)) in
        '(again, m, c) ← scan n (procs_of st) (all st) m MAXPID;
        if again : bool then pick_pid fuel st m c
        else
          '(again, m, c) ← scan n (procs_of st) (zomb st) m c;
          if again : bool then pick_pid fuel st m c else Ok (m, c)
      else Ok (m, c)
  end.
(** Each turn but two passes an id or a group of the table. *)
Definition pick_fuel st : nat := 4 * length (procs_of st) + 3.

(** ** newproc *)

(** A process goes to the head of allproc or of zombproc; allproc is never
    NULL, and newproc does not look. *)
Definition head_of (onto : prevlink) st : option nat := match onto with PrevZomb => zomb st | _ => all st end.
Definition set_head (onto : prevlink) (v : option nat) st : pstate := match onto with PrevZomb => set_zomb v st | _ => set_all v st end.
Definition push (onto : prevlink) (i : nat) st : res pstate :=
  let h := head_of onto st in
  st ← upd_proc i (set_p_nxt h) st;
  st ← match h, onto with
       | None, PrevZomb => Ok st
       | None, _ => Fault
       | Some a, _ => upd_proc a (set_p_prev (PrevNxt i)) st
       end;
  st ← upd_proc i (set_p_prev onto) st;
  Ok (set_head onto (Some i) st).

(** The fields of the new entry, from those of the parent. *)
Definition born (parent : nat) (pp : proc) (pid : Z) (c : proc) : proc :=
  let c := set_rt_value 0 (set_p_stat SIDL c) in
  let c := set_p_uid (p_uid pp) (set_p_flag SLOAD c) in
  let c := set_p_nice (p_nice pp) (set_p_pgrp (p_pgrp pp) c) in
  let c := set_p_ppid (p_pid pp) (set_p_pid pid c) in
  let c := set_p_cpu 0 (set_p_time 0 (set_p_pptr (Some parent) c)) in
  let c := set_p_sigignore (p_sigignore pp) (set_p_sigcatch (p_sigcatch pp) (set_p_sigmask (p_sigmask pp) c)) in
  set_p_slptime 0 (set_p_wchan 0 c).
(** The new process and its entry in the table, in its hash chain and at the
    head of allproc. *)
Definition newproc (cur : nat) st : res (nat * pstate) :=
  '(m, c) ← pick_pid (pick_fuel st) st (mpid st + 1) (pidchecked st);
  let st := set_pids m c st in
  match free st with
  | None => Panic "no procs"
  | Some child =>
      q ← get_proc st child;
      let st := set_free (p_nxt q) st in
      pp ← get_proc st cur;
      st ← upd_proc child (born cur pp m) st;
      h ← rd (hashes st) (PIDHASH m);
      st ← upd_proc child (set_p_hash h) st;
      l ← wr (hashes st) (PIDHASH m) (Some child);
      let st := set_hashes l st in
      st ← push PrevAll child st;
      Ok (child, st)
  end.

(** [for (p1 = allproc; p1; p1 = p1->p_nxt) if (p1->p_uid == u.u_uid) a++;] *)
Fixpoint count_uid (fuel : nat) (l : list proc) (p : option nat) (uid a : Z) : res Z :=
  match fuel with
  | O => Fault
  | S fuel =>
      match p with
      | None => Ok a
      | Some i => q ← rd l i; count_uid fuel l (p_nxt q) uid (if u32 (p_uid q) =? uid then a + 1 else a)
      end
  end.
(** [inl]: the error; [inr]: the new process, whose id the parent returns. *)
Definition fork1 (uid : Z) (cur : nat) st : res (Z + nat * pstate) :=
  let n := S (length (procs_of st)) in
  a ← (if negb (uid =? 0) then
         a ← count_uid n (procs_of st) (all st) uid 0;
         count_uid n (procs_of st) (zomb st) uid a
       else Ok 0);
  refused ← (match free st with
             | None => Ok true
             | Some p2 =>
                 q ← get_proc st p2;
                 Ok (negb (uid =? 0) && (bool_decide (p_nxt q = None) || (MAXUPRC <? a)))
             end);
  if refused : bool then Ok (inl EAGAIN)
  else r ← newproc cur st; Ok (inr r).

(** ** exit *)

(** The store through p_prev: into the list the process is on. *)
Definition st_prev (l : prevlink) (v : option nat) st : res pstate :=
  match l with
  | PrevAll => Ok (set_all v st)
  | PrevZomb => Ok (set_zomb v st)
  | PrevNxt i => upd_proc i (set_p_nxt v) st
  end.
(** The process leaves its list. *)
Definition off_list (i : nat) st : res pstate :=
  p ← get_proc st i;
  st ← st_prev (p_prev p) (p_nxt p) st;
  p ← get_proc st i;
  match p_nxt p with
  | None => Ok st
  | Some n => upd_proc n (set_p_prev (p_prev p)) st
  end.
(** What [pp] points to: the head of a hash chain or the p_hash of an entry. *)
Inductive hashp := HashHead (h : nat) | HashOf (i : nat).
Definition ld_hash (q : hashp) st : res (option nat) :=
  match q with HashHead h => rd (hashes st) h | HashOf i => p ← get_proc st i; Ok (p_hash p) end.
Definition st_hash (q : hashp) (v : option nat) st : res pstate :=
  match q with
  | HashHead h => l ← wr (hashes st) h v; Ok (set_hashes l st)
  | HashOf i => upd_proc i (set_p_hash v) st
  end.
Fixpoint unhash (fuel : nat) (pp : hashp) (i : nat) st : res pstate :=
  match fuel with
  | O => Fault
  | S fuel =>
      v ← ld_hash pp st;
      match v with
      | None => Panic "exit"
      | Some j =>
          if (j =? i)%nat then p ← get_proc st i; st_hash pp (p_hash p) st
          else unhash fuel (HashOf j) i st
      end
  end.

Section Addresses.
Context (addr_runout : Z) (addr_proc : nat -> Z) (addr_runin : Z).
Definition sig_to (i : nat) (sig : Z) st : res pstate := s ← Sig.psignal addr_runout addr_proc i sig (ps st); Ok (set_ps s st).
Definition wake (chan : Z) st : res pstate := s ← wakeup addr_runout chan (ps st); Ok (set_ps s st).

(** A child of the process is given to process 1. *)
Definition orphan (q : nat) st : res pstate :=
  st ← upd_proc q (fun p => set_p_ppid 1 (set_p_pptr (Some 1%nat) p)) st;
  st ← wake (addr_proc 1) st;
  p ← get_proc st q;
  if flag_on (p_flag p) P_TRACED then
    st ← upd_proc q (fun p => set_p_flag (flag_clr (p_flag p) P_TRACED) p) st;
    sig_to q Sig.SIGKILL st
  else if p_stat p =? SSTOP then
    st ← sig_to q SIGHUP st;
    sig_to q Sig.SIGCONT st
  else Ok st.
Fixpoint orphans (fuel : nat) (cur : nat) (q : option nat) st : res pstate :=
  match fuel with
  | O => Fault
  | S fuel =>
      match q with
      | None => Ok st
      | Some i =>
          p ← get_proc st i;
          st ← (if bool_decide (p_pptr p = Some cur) then orphan i st else Ok st);
          p ← get_proc st i;
          orphans fuel cur (p_nxt p) st
      end
  end.

(** What the exit status and the resource usage of [struct p_dead] overwrite:
    of the fields of a living process only p_pgrp is read again, and it is the
    lower half of ru_msgsnd then. *)
Definition dead (rv msgsnd : Z) (p : proc) : proc := set_p_pgrp (s16 msgsnd) (set_p_xstat rv p).

(** From allproc to zombproc, and out of the hash chain. *)
Definition to_zomb (cur : nat) (rv msgsnd : Z) st : res pstate :=
  st ← off_list cur st;
  st ← push PrevZomb cur st;
  st ← upd_proc cur (set_p_stat SZOMB) st;
  let st := set_ps (set_noproc 1 (ps st)) st in
  p ← get_proc st cur;
  st ← unhash (S (length (procs_of st))) (HashHead (PIDHASH (p_pid p))) cur st;
  upd_proc cur (dead rv msgsnd) st.

(** The process [cur] ends with the status [rv]; [msgsnd] is ru_msgsnd of the
    sum of u.u_ru and u.u_cru. *)
Definition exit (cur : nat) (rv msgsnd : Z) st : res pstate :=
  st ← upd_proc cur (fun p => set_p_sig 0 (set_p_sigignore (-1) (set_p_flag (flag_clr (p_flag p) P_TRACED) p))) st;
  p ← get_proc st cur;
  if p_pid p =? 1 then Panic "init died"
  else
    st ← to_zomb cur rv msgsnd st;
    let n := S (length (procs_of st)) in
    st ← orphans n cur (all st) st;
    st ← orphans n cur (zomb st) st;
    p ← get_proc st cur;
    match p_pptr p with
    | None => Fault
    | Some pp =>
        st ← sig_to pp Sig.SIGCHLD st;
        st ← wake (addr_proc pp) st;
        wake addr_runin st
    end.
End Addresses.

(** ** wait1 *)

(** The arguments of wait4, and the ways out: a process with its status, an
    error, or a sleep after which it starts again. *)
Record wargs := MkWargs { w_pid : Z; w_status : Z; w_options : Z; w_rusage : Z }.
Inductive wres :=
  | WFound (pid : Z) (status : option Z) (st : pstate)
  | WError (e : Z) (st : pstate)
  | WSleep (st : pstate).
(** copyout of [n] bytes to [a], or nothing when the pointer is NULL. *)
Definition out_error (a n : Z) : Z :=
  if a =? 0 then 0 else if Mem.baduaddr a || Mem.baduaddr (u32 (a + n - 1)) then Mem.EFAULT else 0.
Definition RUSAGE_SIZE : Z := 72.
Definition wanted (cur : nat) (pid : Z) (p : proc) : bool :=
  bool_decide (p_pptr p = Some cur) && ((pid =? WAIT_ANY) || (p_pid p =? pid) || (p_pgrp p =? - pid)).
Definition buried (p : proc) : proc :=
  let p := set_p_ppid 0 (set_p_pid 0 (set_p_stat 0 (set_p_xstat 0 p))) in p.
Definition emptied (p : proc) : proc :=
  let p := set_p_sigcatch 0 (set_p_sig 0 (set_p_pptr None p)) in
  set_p_wchan 0 (set_p_flag 0 (set_p_pgrp 0 (set_p_sigmask 0 (set_p_sigignore 0 p)))).
(** The entry of a dead child goes to the free list. *)
Definition reap (i : nat) st : res pstate :=
  st ← upd_proc i buried st;
  st ← off_list i st;
  st ← upd_proc i (set_p_nxt (free st)) st;
  upd_proc i emptied (set_free (Some i) st).
Fixpoint wait_zomb (fuel : nat) (cur : nat) (a : wargs) (p : option nat) st : res (option wres) :=
  match fuel with
  | O => Fault
  | S fuel =>
      match p with
      | None => Ok None
      | Some i =>
          q ← get_proc st i;
          if wanted cur (w_pid a) q then
            let e := out_error (w_status a) 4 in
            if negb (e =? 0) then Ok (Some (WError e st))
            else
              let e := out_error (w_rusage a) RUSAGE_SIZE in
              if negb (e =? 0) then Ok (Some (WError e st))
              else st ← reap i st; Ok (Some (WFound (p_pid q) (Some (p_xstat q)) st))
          else wait_zomb fuel cur a (p_nxt q) st
      end
  end.
Fixpoint wait_all (fuel : nat) (cur : nat) (a : wargs) (p : option nat) (nfound : Z) st : res (Z + wres) :=
  match fuel with
  | O => Fault
  | S fuel =>
      match p with
      | None => Ok (inl nfound)
      | Some i =>
          q ← get_proc st i;
          if wanted cur (w_pid a) q then
            if (p_stat q =? SSTOP) && negb (flag_on (p_flag q) P_WAITED)
               && (flag_on (p_flag q) P_TRACED || flag_on (w_options a) WUNTRACED) then
              st ← upd_proc i (fun p => set_p_flag (flag_set (p_flag p) P_WAITED) p) st;
              let e := out_error (w_status a) 4 in
              if negb (e =? 0) then Ok (inr (WError e st))
              else Ok (inr (WFound (p_pid q) (if w_status a =? 0 then None else Some (Z.lor (Z.shiftl (p_ptracesig q) 8) WSTOPPED)) st))
            else wait_all fuel cur a (p_nxt q) (nfound + 1) st
          else wait_all fuel cur a (p_nxt q) nfound st
      end
  end.
(** One turn of the loop of wait1 for the process [cur]. *)
Definition wait1 (cur : nat) (a : wargs) st : res wres :=
  c ← get_proc st cur;
  let a := if w_pid a =? WAIT_MYPGRP then MkWargs (- p_pgrp c) (w_status a) (w_options a) (w_rusage a) else a in
  let n := S (length (procs_of st)) in
  r ← wait_zomb n cur a (zomb st) st;
  match r with
  | Some r => Ok r
  | None =>
      r ← wait_all n cur a (all st) 0 st;
      match r with
      | inr r => Ok r
      | inl nfound =>
          if nfound =? 0 then Ok (WError ECHILD st)
          else if flag_on (w_options a) WNOHANG then Ok (WFound 0 None st)
          else Ok (WSleep st)
      end
  end.

(** ** Process ids *)

Section Pids.
Context (l : list proc).
Implicit Types (js : list nat) (U : list Z).

(** The ids and groups of the processes [js]. *)
Definition taken js : list Z := flat_map (fun j => match l !! j with Some p => [p_pid p; p_pgrp p] | None => [] end) js.
Lemma taken_in js j p : j ∈ js -> l !! j = Some p -> p_pid p ∈ taken js /\ p_pgrp p ∈ taken js.
Proof.
  intros Hj Hp. unfold taken. split; apply list_elem_of_In, in_flat_map; exists j; rewrite Hp; (split; [by apply list_elem_of_In|simpl; auto]).
Qed.
Lemma taken_cons i js x : x ∈ taken js -> x ∈ taken (i :: js).
Proof. intros Hx. unfold taken. cbn. apply elem_of_app. by right. Qed.
Lemma taken_app js js' : taken (js ++ js') = taken js ++ taken js'.
Proof. apply flat_map_app. Qed.
Lemma taken_length js : (length (taken js) <= 2 * length js)%nat.
Proof. induction js as [|j js IH]; [done|]. unfold taken in *. cbn. rewrite length_app. destruct (l !! j); simpl; lia. Qed.

(** The id is not among those the loop has passed: below the id it tries, or
    not below the one it has noted. *)
Definition clear (m c z : Z) : Prop := z < m \/ c <= z.
Lemma scan_ok js : forall fuel h m c,
  chain p_nxt l h js -> (length js < fuel)%nat -> m < c ->
  exists b m' c', scan fuel l h m c = Ok (b, m', c') /\ m <= m' /\ c' <= c /\ (forall x, m <= x < m' -> x ∈ taken js) /\
    if b : bool then m < m' /\ c' <= m' else m' < c' /\ forall j p, j ∈ js -> l !! j = Some p -> p_pid p <> p_pgrp p + 1 -> clear m' c' (p_pid p).
Proof.
  induction js as [|i js IH]; intros [|fuel] h m c Hc Hf Hmc; simpl in Hf; try lia; cbn [scan].
  { simpl in Hc. subst h. exists false, m, c. split_and!; try done; try lia. intros j p Hj. by apply not_elem_of_nil in Hj. }
  destruct Hc as (->&q&Hi&Hc). unfold rd. rewrite Hi. cbn [mbind res_bind].
  destruct (taken_in (i :: js) i q (list_elem_of_here _ _) Hi) as [T1 T2].
  set (hit := (p_pid q =? m) || (p_pgrp q =? m)). set (m1 := if hit then m + 1 else m). cbv zeta.
  assert (m <= m1 /\ forall x, m <= x < m1 -> x ∈ taken (i :: js)) as [Hm1 Ht1].
  { unfold m1, hit. destruct (Z.eqb_spec (p_pid q) m) as [E|E], (Z.eqb_spec (p_pgrp q) m) as [E'|E']; cbn [orb]; (split; [lia|]);
      intros x Hx; try lia; replace x with m by lia; congruence. }
  destruct (hit && (c <=? m1)) eqn:Er.
  { apply andb_true_iff in Er as [Eh Ec%Z.leb_le]. assert (m1 = m + 1) as E1 by (unfold m1; by rewrite Eh).
    exists true, m1, c. split_and!; try done; lia. }
  assert (m1 < c) as Hm1c by (unfold m1 in *; destruct hit; [apply Z.leb_gt; by rewrite andb_true_l in Er|done]).
  set (c1 := if (m1 <? p_pid q) && (p_pid q <? c) then p_pid q else c). set (c2 := if (m1 <? p_pgrp q) && (p_pgrp q <? c1) then p_pgrp q else c1).
  assert (m1 < c2 /\ c2 <= c /\ (m1 < p_pid q -> c2 <= p_pid q)) as (Hc1&Hc2&Hc3).
  { assert (m1 < c1 /\ c1 <= c /\ (m1 < p_pid q -> c1 <= p_pid q)) by
      (unfold c1; destruct (Z.ltb_spec m1 (p_pid q)), (Z.ltb_spec (p_pid q) c); cbn [andb]; lia).
    unfold c2. destruct (Z.ltb_spec m1 (p_pgrp q)), (Z.ltb_spec (p_pgrp q) c1); cbn [andb]; lia. }
  destruct (IH fuel (p_nxt q) m1 c2 Hc) as (b&m'&c'&->&A1&A2&A3&A4); [lia|done|].
  exists b, m', c'. split; [done|]. split; [lia|]. split; [lia|]. split.
  { intros x Hx. destruct (decide (x < m1)); [apply Ht1; lia|apply taken_cons, A3; lia]. }
  destruct b; [lia|]. destruct A4 as [A4 A5]. split; [done|]. intros j p [->|Hj]%elem_of_cons Hp Hna; [|by apply (A5 j)].
  assert (p = q) as -> by congruence. unfold clear. destruct (decide (m1 < p_pid q)); [right; lia|]. left.
  assert (p_pid q <> m1); [|lia]. unfold m1, hit. destruct (Z.eqb_spec (p_pid q) m), (Z.eqb_spec (p_pgrp q) m); cbn [orb]; lia.
Qed.

(** How many of [U] are not below [m]. *)
Definition above U (m : Z) : nat := length (List.filter (fun x => m <=? x) U).
Lemma above_step U m : m ∈ U -> (above U (m + 1) < above U m)%nat.
Proof.
  assert (forall V, (above V (m + 1) <= above V m)%nat) as Hle.
  { induction V as [|x V IH]; [done|]. unfold above in *. cbn. destruct (Z.leb_spec (m + 1) x), (Z.leb_spec m x); simpl; lia. }
  induction U as [|x U IH]; [by intros ?%not_elem_of_nil|]. intros [->|Hm]%elem_of_cons.
  - specialize (Hle U). unfold above in *. cbn. destruct (Z.leb_spec (x + 1) x), (Z.leb_spec x x); simpl; lia.
  - specialize (IH Hm). unfold above in *. cbn. destruct (Z.leb_spec (m + 1) x), (Z.leb_spec m x); simpl; lia.
Qed.
Lemma above_drop U m m' : m <= m' -> (forall x, m <= x < m' -> x ∈ U) -> Z.of_nat (above U m') + (m' - m) <= Z.of_nat (above U m).
Proof.
  intros Hm Hu. assert (exists k, m' = m + Z.of_nat k) as [k ->] by (exists (Z.to_nat (m' - m)); lia). clear Hm. induction k as [|k IH]; [replace (m + Z.of_nat 0) with m by lia; lia|].
  assert (m + Z.of_nat k ∈ U) as Hin by (apply Hu; lia). pose proof (above_step U _ Hin). specialize (IH ltac:(intros x Hx; apply Hu; lia)).
  replace (m + Z.of_nat (S k)) with (m + Z.of_nat k + 1) by lia. lia.
Qed.
Lemma above_length U m : (above U m <= length U)%nat.
Proof. induction U as [|x U IH]; [done|]. unfold above in *. cbn. destruct (m <=? x); simpl; lia. Qed.
End Pids.

Section Pick.
Context st (la lz : list nat).
Context (Hall : chain p_nxt (procs_of st) (all st) la) (Hzomb : chain p_nxt (procs_of st) (zomb st) lz).
Context (Hnd : NoDup (la ++ lz)).
Let l := procs_of st.
Let U := taken l (la ++ lz).

Definition known (m c z : Z) : Prop := m < c -> clear m c z.
(** What pick_pid comes to: no process has the id, and the ids up to the one
    noted are free. *)
Definition picked (m c m' c' : Z) : Prop := 0 < m' < MAXPID /\ m' < c' <= MAXPID /\
  forall j p, j ∈ la ++ lz -> l !! j = Some p -> p_pid p <> p_pgrp p + 1 -> known m c (p_pid p) -> clear m' c' (p_pid p).
(** One pass over the two lists. *)
Lemma pass_ok m : 0 < m < MAXPID ->
  exists b1 m1 c1, scan (S (length l)) l (all st) m MAXPID = Ok (b1, m1, c1) /\ m <= m1 /\ (forall x, m <= x < m1 -> x ∈ U) /\
    if b1 : bool then m < m1 /\ c1 <= m1 else
    exists b2 m2 c2, scan (S (length l)) l (zomb st) m1 c1 = Ok (b2, m2, c2) /\ m <= m2 /\ (forall x, m <= x < m2 -> x ∈ U) /\
      if b2 : bool then m < m2 /\ c2 <= m2 else forall c, picked m c m2 c2.
Proof.
  intros Hm. pose proof (submseteq_length la (la ++ lz)). apply NoDup_app in Hnd as (Nda&_&Ndz).
  pose proof (chain_length _ _ _ _ Hall Nda) as La. pose proof (chain_length _ _ _ _ Hzomb Ndz) as Lz.
  destruct (scan_ok l la (S (length l)) (all st) m MAXPID Hall) as (b1&m1&c1&->&A1&A2&A3&A4); [unfold l; lia|lia|].
  assert (forall x, m <= x < m1 -> x ∈ U) as A5 by (intros x Hx; unfold U; rewrite taken_app; apply elem_of_app; left; auto).
  exists b1, m1, c1. split_and!; try done. destruct b1; [done|]. destruct A4 as [A4 A6].
  destruct (scan_ok l lz (S (length l)) (zomb st) m1 c1 Hzomb) as (b2&m2&c2&->&B1&B2&B3&B4); [unfold l; lia|done|].
  exists b2, m2, c2. split; [done|]. split; [lia|].
  assert (forall x, m <= x < m2 -> x ∈ U) as B5.
  { intros x Hx. destruct (decide (x < m1)); [apply A5; lia|]. unfold U. rewrite taken_app. apply elem_of_app. right. apply B3. lia. }
  split; [done|]. destruct b2; [lia|]. destruct B4 as [B4 B6]. intros c. split; [lia|]. split; [lia|].
  intros j p [Hj|Hj]%elem_of_app Hp Hna _; [|by apply (B6 j)]. destruct (A6 j p Hj Hp Hna); unfold clear; lia.
Qed.
Lemma pick_skip fuel m c : 0 < m < MAXPID -> c <= MAXPID -> m < c -> pick_pid (S fuel) st m c = Ok (m, c) /\ picked m c m c.
Proof.
  intros Hm Hc Hmc. cbn [pick_pid]. rewrite (proj2 (Z.leb_gt MAXPID m)), (proj2 (Z.leb_gt c m)) by lia. split; [done|]. split; [done|]. split; [lia|].
  intros j p _ _ _ Hk. by apply Hk.
Qed.
Lemma pick_turn fuel m c : 0 < m < MAXPID -> c <= m ->
  (exists m' c', pick_pid (S fuel) st m c = Ok (m', c') /\ picked m c m' c') \/
  exists m' c', m < m' /\ (forall x, m <= x < m' -> x ∈ U) /\ c' <= m' /\ pick_pid (S fuel) st m c = pick_pid fuel st m' c'.
Proof.
  intros Hm Hc. cbn [pick_pid]. rewrite (proj2 (Z.leb_gt MAXPID m)), (proj2 (Z.leb_le c m)) by lia. fold l.
  destruct (pass_ok m Hm) as (b1&m1&c1&->&A1&A2&A3). cbn [mbind res_bind]. destruct b1; [right; exists m1, c1; tauto|].
  destruct A3 as (b2&m2&c2&->&B1&B2&B3). cbn [mbind res_bind]. destruct b2; [right; exists m2, c2; tauto|].
  left. exists m2, c2. auto.
Qed.
(** The first id that is tried does not matter once it was set back. *)
Lemma picked_weaken m c m' c' m1 c1 : c <= m -> picked m c m' c' -> picked m1 c1 m' c'.
Proof. intros Hc (P1&P2&P3). split_and!; try done; try lia. intros j p Hj Hp Hna _. apply (P3 j p Hj Hp Hna). intros ?. lia. Qed.
Lemma pick_low fuel : forall m c, 0 < m -> c <= m -> (above U m < fuel)%nat -> m + Z.of_nat (above U m) < MAXPID ->
  exists m' c', pick_pid fuel st m c = Ok (m', c') /\ picked m c m' c'.
Proof.
  induction fuel as [|fuel IH]; intros m c Hm Hc Hf Hu; [lia|].
  destruct (pick_turn fuel m c) as [?|(m'&c'&Hlt&Hin&Hc'&->)]; [lia|done|done|].
  pose proof (above_drop U m m' ltac:(lia) Hin). destruct (IH m' c') as (m2&c2&->&P); [lia..|].
  exists m2, c2. split; [done|]. exact (picked_weaken _ _ _ _ _ _ Hc' P).
Qed.
Lemma pick_any fuel : forall m c, 0 < m -> c <= m -> (above U m + length U + 1 < fuel)%nat -> 100 + Z.of_nat (length U) < MAXPID ->
  exists m' c', pick_pid fuel st m c = Ok (m', c') /\ picked m c m' c'.
Proof.
  induction fuel as [|fuel IH]; intros m c Hm Hc Hf Hu; [lia|]. destruct (decide (MAXPID <= m)) as [Hge|Hlt].
  - assert (pick_pid (S fuel) st m c = pick_pid (S fuel) st 100 0) as ->.
    { cbn [pick_pid]. rewrite (proj2 (Z.leb_le MAXPID m)) by done. done. }
    pose proof (above_length U 100). destruct (pick_low (S fuel) 100 0) as (m'&c'&E&P); [lia..|]. exists m', c'. split; [done|]. by apply (picked_weaken 100 0).
  - destruct (pick_turn fuel m c) as [?|(m'&c'&Hlt'&Hin&Hc'&->)]; [lia|done|done|].
    pose proof (above_drop U m m' ltac:(lia) Hin). destruct (IH m' c') as (m2&c2&->&P); [lia..|].
    exists m2, c2. split; [done|]. exact (picked_weaken _ _ _ _ _ _ Hc' P).
Qed.
Lemma pick_pid_ok m c : 0 < m -> c <= MAXPID -> length l = NPROC ->
  exists m' c', pick_pid (pick_fuel st) st m c = Ok (m', c') /\ picked m c m' c'.
Proof.
  intros Hm Hc Hl. assert (length U <= 2 * length l)%nat as HU.
  { unfold U. pose proof (taken_length l (la ++ lz)). assert (length (la ++ lz) <= length l)%nat; [|lia].
    rewrite <- (length_seq (length l) 0). apply submseteq_length, NoDup_submseteq; [done|]. intros j Hj. apply elem_of_seq.
    assert (is_Some (l !! j)) as [p Hp%lookup_lt_Some]; [|lia]. apply elem_of_app in Hj as [Hj|Hj]; [exact (chain_lookup _ _ _ _ _ Hall Hj)|exact (chain_lookup _ _ _ _ _ Hzomb Hj)]. }
  pose proof (above_length U m). unfold pick_fuel. fold l. rewrite Hl in *. unfold NPROC in *.
  destruct (decide (c <= m)) as [Hcm|Hcm]; [apply pick_any; unfold MAXPID; lia|].
  exists m, c. apply (pick_skip 42 m c); lia.
Qed.
End Pick.
End Fork.
