(* ===== verification/Plist.v ===== *)
(** The lists of processes: every entry of the table is on exactly one of
    freeproc, allproc and zombproc, the living processes are in the hash
    chains of their ids, and newproc, exit and wait1 keep it so. *)
From S2P Require Import Prelude Proc Sched Mem Sig Fork.
Import Proc Sched Fork.

Module Plist.
Implicit Types (l : list proc) (js : list nat) (st : pstate).

(** ** Tables that agree in some fields *)

(** Entry by entry, the two tables are in the relation. *)
Definition tabs (R : proc -> proc -> Prop) l l' : Prop := forall x, option_Forall2 R (l !! x) (l' !! x).
Lemma tabs_refl (R : proc -> proc -> Prop) l : (forall p, R p p) -> tabs R l l.
Proof. intros HR x. destruct (l !! x); constructor; auto. Qed.
Lemma tabs_trans (R : proc -> proc -> Prop) l l1 l2 : (forall a b c, R a b -> R b c -> R a c) -> tabs R l l1 -> tabs R l1 l2 -> tabs R l l2.
Proof. intros HR H1 H2 x. specialize (H1 x). specialize (H2 x). inversion H1 as [a b Hab E1 E2|E1 E2]; rewrite <- E2 in H2; inversion H2; subst; constructor; eauto. Qed.
Lemma tabs_impl (R R' : proc -> proc -> Prop) l l' : (forall a b, R a b -> R' a b) -> tabs R l l' -> tabs R' l l'.
Proof. intros HR H x. specialize (H x). inversion H; constructor; auto. Qed.
Lemma tabs_insert (R : proc -> proc -> Prop) l i p p' : (forall a, R a a) -> l !! i = Some p -> R p p' -> tabs R l (<[i := p']> l).
Proof.
  intros HR Hi Hp x. destruct (decide (x = i)) as [->|Hne]; [rewrite list_lookup_insert_eq by (by eapply lookup_lt_Some); rewrite Hi; by constructor|].
  rewrite list_lookup_insert_ne by done. destruct (l !! x); constructor; auto.
Qed.
Lemma tabs_fwd R l l' x p : tabs R l l' -> l !! x = Some p -> exists p', l' !! x = Some p' /\ R p p'.
Proof. intros H Hx. specialize (H x). rewrite Hx in H. inversion H; subst. eauto. Qed.
Lemma tabs_bwd R l l' x p' : tabs R l l' -> l' !! x = Some p' -> exists p, l !! x = Some p /\ R p p'.
Proof. intros H Hx. specialize (H x). rewrite Hx in H. inversion H; subst. eauto. Qed.
Lemma tabs_length R l l' : tabs R l l' -> length l' = length l.
Proof.
  intros H. destruct (decide (length l' < length l)%nat) as [Hlt|].
  { destruct (lookup_lt_is_Some_2 l (length l') Hlt) as [p Hp]. destruct (tabs_fwd _ _ _ _ _ H Hp) as (p'&Hp'%lookup_lt_Some&_). lia. }
  destruct (decide (length l < length l')%nat) as [Hlt|]; [|lia].
  destruct (lookup_lt_is_Some_2 l' (length l) Hlt) as [p Hp]. destruct (tabs_bwd _ _ _ _ _ H Hp) as (p'&Hp'%lookup_lt_Some&_). lia.
Qed.
Lemma chain_tabs (next : proc -> option nat) l l' h js :
  (forall j p, j ∈ js -> l !! j = Some p -> exists p', l' !! j = Some p' /\ next p' = next p) -> chain next l h js -> chain next l' h js.
Proof.
  revert h. induction js as [|i js IH]; intros h Hl; simpl; [done|]. intros (->&p&Hi&Hc). split; [done|].
  destruct (Hl i p (list_elem_of_here _ _) Hi) as (p'&Hi'&E). exists p'. split; [done|]. rewrite E. apply IH; [|done].
  intros j q Hj. apply Hl. by apply list_elem_of_further.
Qed.

(** ** Lists through p_nxt and p_prev *)

(** p_prev of each entry points to where the list names it. *)
Fixpoint prevs l (from : prevlink) js : Prop :=
  match js with [] => True | i :: js => (exists p, l !! i = Some p /\ p_prev p = from) /\ prevs l (PrevNxt i) js end.
Record listed l (onto : prevlink) (h : option nat) js : Prop := {
  li_chain : chain p_nxt l h js;
  li_prevs : prevs l onto js;
  li_nodup : NoDup js }.
(** The list can be told from the entries before it: the place that names the
    entry after [js]. *)
Fixpoint from_of (onto : prevlink) js : prevlink := match js with [] => onto | i :: js => from_of (PrevNxt i) js end.
Lemma prevs_app l onto js js' : prevs l onto (js ++ js') <-> prevs l onto js /\ prevs l (from_of onto js) js'.
Proof. revert onto. induction js as [|i js IH]; intros onto; simpl; [tauto|]. rewrite IH. tauto. Qed.
Lemma from_of_last onto js : from_of onto js = match last js with None => onto | Some i => PrevNxt i end.
Proof. revert onto. induction js as [|i js IH]; intros onto; [done|]. cbn [from_of]. rewrite IH, last_cons. by destruct (last js). Qed.
Lemma prevs_tabs l l' onto js :
  (forall j p, j ∈ js -> l !! j = Some p -> exists p', l' !! j = Some p' /\ p_prev p' = p_prev p) -> prevs l onto js -> prevs l' onto js.
Proof.
  revert onto. induction js as [|i js IH]; intros onto Hl; simpl; [done|]. intros ((p&Hi&E)&Hp). split.
  - destruct (Hl i p (list_elem_of_here _ _) Hi) as (p'&?&?). exists p'. split; [done|congruence].
  - apply IH; [|done]. intros j q Hj. apply Hl. by apply list_elem_of_further.
Qed.
Lemma listed_tabs l l' onto h js :
  (forall j p, j ∈ js -> l !! j = Some p -> exists p', l' !! j = Some p' /\ p_nxt p' = p_nxt p /\ p_prev p' = p_prev p) ->
  listed l onto h js -> listed l' onto h js.
Proof.
  intros Hl [H1 H2 H3]. split; [|eapply prevs_tabs; [|done]|done]; [eapply chain_tabs; [|done]|]; intros j p Hj Hp; destruct (Hl j p Hj Hp) as (p'&?&?&?); eauto.
Qed.

(** Entries that differ at most in p_nxt and p_prev. *)
Definition nbr (p p' : proc) : Prop := set_p_nxt None (set_p_prev PrevAll p) = set_p_nxt None (set_p_prev PrevAll p').
Lemma nbr_refl p : nbr p p.
Proof. done. Qed.
Lemma nbr_trans a b c : nbr a b -> nbr b c -> nbr a c.
Proof. unfold nbr. congruence. Qed.
Lemma nbr_nxt v p : nbr p (set_p_nxt v p).
Proof. done. Qed.
Lemma nbr_prev v p : nbr p (set_p_prev v p).
Proof. done. Qed.

(** The state with another table, and with another list head too. *)
Definition on l st : pstate := set_ps (set_tab l (ps st)) st.
Definition relisted (onto : prevlink) (l' : list proc) (h : option nat) st : pstate := set_head onto h (on l' st).
Lemma on_id st : on (procs_of st) st = st.
Proof. by destruct st as [[] ? ? ? ? ? ?]. Qed.
Lemma upd_on l i g st p : l !! i = Some p -> upd_proc i g (on l st) = Ok (on (<[i := g p]> l) st).
Proof. intros Hi. unfold upd_proc. by rewrite (upd_ok _ _ _ p) by exact Hi. Qed.
Lemma upd_proc_ok i g st p : procs_of st !! i = Some p -> upd_proc i g st = Ok (on (<[i := g p]> (procs_of st)) st).
Proof. intros Hi. rewrite <- (on_id st) at 1. by apply upd_on. Qed.
Lemma get_proc_ok i st p : procs_of st !! i = Some p -> get_proc st i = Ok p.
Proof. intros Hi. unfold get_proc. by rewrite (rd_Some _ _ _ Hi). Qed.
Lemma put l i p p' : l !! i = Some p -> <[i := p']> l !! i = Some p'.
Proof. intros Hi. apply list_lookup_insert_eq. by eapply lookup_lt_Some. Qed.
Lemma put_ne l i j p : j <> i -> <[i := p]> l !! j = l !! j.
Proof. intros. by apply list_lookup_insert_ne. Qed.

Lemma push_ok st onto i js p :
  listed (procs_of st) onto (head_of onto st) js -> procs_of st !! i = Some p -> i ∉ js -> onto = PrevZomb \/ onto = PrevAll /\ js <> [] ->
  exists l', push onto i st = Ok (relisted onto l' (Some i) st) /\ listed l' onto (Some i) (i :: js) /\
    tabs nbr (procs_of st) l' /\ forall x, x ∉ i :: js -> l' !! x = procs_of st !! x.
Proof.
  intros [Hc Hp Hnd] Hi Hni Hon. unfold push. set (h := head_of onto st) in *. set (l := procs_of st) in *.
  rewrite (upd_proc_ok i _ st p Hi). cbn [mbind res_bind]. fold l. destruct js as [|a js].
  - simpl in Hc. destruct Hon as [->|[_ []]]; [|done]. rewrite Hc. cbn [mbind res_bind].
    rewrite (upd_on _ i _ st (set_p_nxt None p)) by (by eapply put). cbn [mbind res_bind]. rewrite list_insert_insert_eq.
    eexists. split; [done|]. split; [|split; [by apply (tabs_insert nbr l i p)|]].
    + split; [|simpl|apply NoDup_singleton].
      * split; [done|]. eexists. split; [by eapply put|done].
      * split; [|done]. eexists. split; [by eapply put|done].
    + intros x Hx. apply put_ne. set_solver.
  - destruct Hc as (Ea&q&Ha&Hc). rewrite Ea. assert (i <> a) as Hia by (intros ->; set_solver). assert (i ∉ js) as Hij by set_solver.
    pose proof Hnd as [Haj Hnd']%NoDup_cons. destruct Hp as ((q'&Hq'&Eq')&Hp). assert (q' = q) as -> by congruence.
    rewrite (upd_on _ a _ st q) by (by rewrite put_ne). cbn [mbind res_bind].
    rewrite (upd_on _ i _ st (set_p_nxt (Some a) p)) by (rewrite put_ne by done; by eapply put). cbn [mbind res_bind].
    set (l' := <[i := _]> (<[a := _]> (<[i := _]> l))). exists l'. split; [done|].
    assert (l' !! i = Some (set_p_prev onto (set_p_nxt (Some a) p))) as Li by (unfold l'; eapply put; rewrite put_ne by done; by eapply put).
    assert (l' !! a = Some (set_p_prev (PrevNxt i) q)) as La by (unfold l'; rewrite put_ne by done; eapply put; by rewrite put_ne).
    assert (forall x, x <> i -> x <> a -> l' !! x = l !! x) as Lx by (intros x ? ?; unfold l'; by rewrite !put_ne).
    split; [|split].
    + split; [|simpl|by apply NoDup_cons].
      * split; [done|]. eexists. split; [exact Li|]. split; [done|]. eexists. split; [exact La|]. cbn.
        eapply chain_frame; [|exact Hc]. intros j Hj. apply Lx; set_solver.
      * split; [by eexists|]. split; [by eexists|]. eapply prevs_tabs; [|exact Hp]. intros j r Hj Hr. exists r. rewrite Lx by set_solver. done.
    + intros x. destruct (decide (x = i)) as [->|]; [rewrite Li; unfold l in *; rewrite Hi; by constructor|].
      destruct (decide (x = a)) as [->|]; [rewrite La, Ha; by constructor|]. rewrite Lx by done. destruct (l !! x); by constructor.
    + intros x Hx. apply Lx; set_solver.
Qed.
Lemma st_prev_ok st onto (i : nat) (l1 l2 : list nat) p :
  onto = PrevAll \/ onto = PrevZomb -> listed (procs_of st) onto (head_of onto st) (l1 ++ i :: l2) -> procs_of st !! i = Some p ->
  exists l' h', st_prev (p_prev p) (p_nxt p) st = Ok (relisted onto l' h' st) /\ chain p_nxt l' h' (l1 ++ l2) /\ l' !! i = Some p /\
    tabs (fun a b => nbr a b /\ p_prev b = p_prev a) (procs_of st) l' /\ forall x, x ∉ l1 -> l' !! x = procs_of st !! x.
Proof.
  intros Hon [Hc Hp Hnd] Hi. set (l := procs_of st) in *. apply prevs_app in Hp as [Hp1 ((p'&Hi'&E)&Hp2)]. assert (p' = p) as -> by congruence.
  rewrite E, from_of_last. destruct l1 as [|k l1 _] using rev_ind.
  - cbn [last app] in *. destruct Hc as (Eh&p'&Hp'&Hc). assert (p' = p) as -> by congruence. exists l, (p_nxt p).
    split; [destruct Hon as [->| ->]; cbn [st_prev]; unfold relisted, l; by rewrite on_id|]. split; [done|]. split; [done|]. split; [by apply tabs_refl|done].
  - rewrite last_snoc. assert (is_Some (l !! k)) as [q Hk] by (apply (chain_lookup _ _ _ _ k Hc); set_solver).
    assert (k <> i /\ k ∉ l1 /\ k ∉ l2 /\ i ∉ l1 /\ i ∉ l2) as (Hki&Hk1&Hk2&Hi1&Hi2).
    { rewrite <- app_assoc in Hnd. apply NoDup_app in Hnd as (_&N1&N2). apply NoDup_cons in N2 as [N2 N3]. apply NoDup_cons in N3 as [N3 _]. set_solver. }
    cbn [st_prev]. rewrite (upd_proc_ok k _ st q Hk). fold l. exists (<[k := set_p_nxt (p_nxt p) q]> l), (head_of onto st).
    split; [destruct Hon as [->| ->]; done|]. rewrite <- !app_assoc in *. cbn [app] in *.
    assert (chain p_nxt l (p_nxt p) l2) as Hc2.
    { destruct (chain_split _ _ _ (l1 ++ [k]) (i :: l2) ltac:(rewrite <- app_assoc; exact Hc)) as (h2&(->&p'&Hp'&Hc2)&_). congruence. }
    split; [|split; [by rewrite put_ne|split; [by apply (tabs_insert _ l k q)|]]].
    + eapply (chain_redirect p_nxt l _ l1 k (i :: l2) l2 q); [exact Hc| |done|done|done].
      apply NoDup_app in Hnd as (N0&N1&_). apply NoDup_app. split; [done|]. split; [set_solver|apply NoDup_singleton].
    + intros x Hx. apply put_ne. set_solver.
Qed.
Lemma off_list_ok st onto (i : nat) (l1 l2 : list nat) p :
  onto = PrevAll \/ onto = PrevZomb -> listed (procs_of st) onto (head_of onto st) (l1 ++ i :: l2) -> procs_of st !! i = Some p ->
  exists l' h', off_list i st = Ok (relisted onto l' h' st) /\ listed l' onto h' (l1 ++ l2) /\ l' !! i = Some p /\
    tabs nbr (procs_of st) l' /\ forall x, x ∉ l1 ++ l2 -> l' !! x = procs_of st !! x.
Proof.
  intros Hon HL Hi. unfold off_list. rewrite (get_proc_ok _ _ _ Hi). cbn [mbind res_bind].
  destruct (st_prev_ok st onto i l1 l2 p Hon HL Hi) as (l'&h'&->&Hc&Hi'&HT&Hx). cbn [mbind res_bind].
  assert (procs_of (relisted onto l' h' st) = l') as Ep by (destruct Hon as [->| ->]; done).
  rewrite (get_proc_ok _ _ p) by (by rewrite Ep). cbn [mbind res_bind].
  destruct HL as [Hc0 Hp0 Hnd]. set (l := procs_of st) in *. apply prevs_app in Hp0 as [Hp1 ((p'&Hp'&E)&Hp2)]. assert (p' = p) as -> by congruence.
  pose proof Hnd as (N1&N2&[N3 N4]%NoDup_cons)%NoDup_app.
  assert (NoDup (l1 ++ l2)) as Nd by (apply NoDup_app; split_and!; [done|set_solver|done]).
  assert (tabs nbr l l') as HT1 by (eapply tabs_impl; [|exact HT]; by intros a b [? _]).
  assert (forall on' js, (forall j, j ∈ js -> j ∈ l1 ++ l2) -> prevs l on' js -> prevs l' on' js) as Hpr.
  { intros on' js _. apply prevs_tabs. intros j q _ Hq. destruct (tabs_fwd _ _ _ _ _ HT Hq) as (q'&?&_&?). eauto. }
  assert (chain p_nxt l (p_nxt p) l2) as Hc2.
  { destruct (chain_split _ _ _ l1 (i :: l2) Hc0) as (h2&(->&p'&Hp''&Hc2)&_). congruence. }
  pose proof (chain_head _ _ _ _ Hc2) as Eh. rewrite Eh. destruct l2 as [|n l2]; cbn [head].
  - exists l', h'. split; [done|]. rewrite app_nil_r in *. split; [split; [done|apply (Hpr onto l1); [set_solver|done]|done]|]. split_and!; done.
  - assert (is_Some (l' !! n)) as [q Hn] by (apply (chain_lookup _ _ _ _ n Hc); set_solver).
    assert (upd_proc n (set_p_prev (p_prev p)) (relisted onto l' h' st) = Ok (relisted onto (<[n := set_p_prev (p_prev p) q]> l') h' st)) as ->.
    { rewrite (upd_proc_ok n _ _ q) by (by rewrite Ep). rewrite Ep. destruct Hon as [->| ->]; done. }
    assert (n <> i) as Hni by set_solver. assert (n ∉ l1) as Hn1 by set_solver. apply NoDup_cons in N4 as [Hn2 _].
    exists (<[n := set_p_prev (p_prev p) q]> l'), h'. split; [done|]. split; [split; [by eapply chain_same| |done]|].
    + apply prevs_app. split.
      * eapply prevs_tabs; [|apply (Hpr onto l1); [set_solver|exact Hp1]]. intros j r Hj Hr. exists r. rewrite put_ne by set_solver. done.
      * split; [eexists; split; [by eapply put|by rewrite <- E]|]. destruct Hp2 as [_ Hp2].
        eapply prevs_tabs; [|apply (Hpr (PrevNxt n) l2); [set_solver|exact Hp2]]. intros j r Hj Hr. exists r. rewrite put_ne by set_solver. done.
    + split; [by rewrite put_ne|]. split.
      * eapply (tabs_trans nbr); [exact nbr_trans|exact HT1|]. by apply (tabs_insert nbr l' n q).
      * intros x Hx1. rewrite put_ne by set_solver. apply Hx. set_solver.
Qed.

(** ** The hash chains of process ids *)

Lemma hash_same t t' live :
  pidhash t' = pidhash t ->
  (forall j, j ∈ live -> exists p p', procs t !! j = Some p /\ procs t' !! j = Some p' /\ p_hash p' = p_hash p /\ p_pid p' = p_pid p) ->
  hash_wf t live -> hash_wf t' live.
Proof.
  intros E Hl (H1&H2&H3). split; [by rewrite E|]. split; [done|]. intros h Hh. destruct (H3 h Hh) as (js&Hc&Hnd&Hin). exists js.
  rewrite E. split; [|split; [done|]].
  - eapply chain_tabs; [|exact Hc]. intros j p Hj Hp. apply Hin in Hj as [Hj _]. destruct (Hl j Hj) as (p0&p'&?&?&?&_). exists p'. split; congruence.
  - intros j. rewrite Hin. split; intros (Hj&q&Hq&Hh'); (split; [done|]); destruct (Hl j Hj) as (p0&p'&?&?&_&?); [exists p'|exists p0]; split; congruence.
Qed.
Lemma hash_cons t t' live c p' h0 :
  let h := PIDHASH (p_pid p') in
  hash_wf t live -> c ∉ live -> pidhash t !! h = Some h0 -> pidhash t' = <[h := Some c]> (pidhash t) -> procs t' !! c = Some p' -> p_hash p' = h0 ->
  (forall j, j ∈ live -> exists p p', procs t !! j = Some p /\ procs t' !! j = Some p' /\ p_hash p' = p_hash p /\ p_pid p' = p_pid p) ->
  hash_wf t' (c :: live).
Proof.
  intros h Hw Hc Hh0 E Hp Eh Hl. assert (hash_wf (PTable (procs t') (pidhash t) None None None) live) as (H1&H2&H3) by (apply (hash_same t); [done|exact Hl|done]).
  cbn [pidhash procs] in *. split; [by rewrite E, length_insert|]. split; [by apply NoDup_cons|]. intros k Hk. destruct (H3 k Hk) as (js&Hch&Hnd&Hin).
  assert (c ∉ js) as Hcj by (intros [? _]%Hin; done). destruct (decide (k = h)) as [->|Hne].
  - exists (c :: js). rewrite E, list_lookup_total_insert_eq by (by eapply lookup_lt_Some). rewrite (list_lookup_total_correct _ _ _ Hh0) in Hch. split; [|split; [by apply NoDup_cons|]].
    + split; [done|]. exists p'. split; [done|]. congruence.
    + intros i. rewrite !elem_of_cons, Hin. split; [intros [->|[? ?]]; [split; [by left|by exists p']|auto]|]. intros [[->|?] (q&?&?)]; [by left|]. right. split; [done|]. by exists q.
  - exists js. rewrite E, list_lookup_total_insert_ne by done. split; [done|]. split; [done|]. intros i. rewrite elem_of_cons, Hin. split; [intros [? ?]; auto|].
    intros [[->|?] (q&Hq&?)]; [|split; [done|by exists q]]. destruct Hne. unfold h. congruence.
Qed.

(** Entries that differ at most in p_hash. *)
Definition hbr (p p' : proc) : Prop := set_p_hash None p = set_p_hash None p'.
Definition hash_ptr (h : nat) (pre : list nat) : hashp := match last pre with None => HashHead h | Some j => HashOf j end.
Lemma hash_ptr_ld st h pre suf :
  chain p_hash (procs_of st) (hashes st !!! h) (pre ++ suf) -> (h < length (hashes st))%nat -> ld_hash (hash_ptr h pre) st = Ok (head suf).
Proof.
  intros (h2&Hc%chain_head&Hl)%chain_split Hh. unfold hash_ptr. destruct (last pre) as [j|]; cbn [ld_hash].
  - destruct Hl as (e&He&<-). rewrite (get_proc_ok _ _ _ He). cbn [mbind res_bind]. by rewrite Hc.
  - destruct (lookup_lt_is_Some_2 _ _ Hh) as [v Hv]. rewrite (rd_Some _ _ _ Hv). rewrite (list_lookup_total_correct _ _ _ Hv) in Hl. congruence.
Qed.
Lemma unhash_find st h i p (suf post : list nat) : forall fuel pre,
  chain p_hash (procs_of st) (hashes st !!! h) (pre ++ suf ++ i :: post) -> (h < length (hashes st))%nat -> i ∉ suf -> procs_of st !! i = Some p ->
  (length suf < fuel)%nat -> unhash fuel (hash_ptr h pre) i st = st_hash (hash_ptr h (pre ++ suf)) (p_hash p) st.
Proof.
  induction suf as [|j suf IH]; intros [|fuel] pre Hc Hh Hi Hp Hf; simpl in Hf; try lia; cbn [unhash]; rewrite (hash_ptr_ld _ _ _ _ Hc Hh); cbn [mbind res_bind head app].
  - rewrite Nat.eqb_refl, (get_proc_ok _ _ _ Hp), app_nil_r. done.
  - destruct (Nat.eqb_spec j i) as [->|Hne]; [destruct Hi; apply list_elem_of_here|].
    specialize (IH fuel (pre ++ [j])). unfold hash_ptr in IH at 1. rewrite last_snoc, <- !app_assoc in IH. apply IH; [done|done| |done|lia]. set_solver.
Qed.
Lemma hash_ptr_st st h pre i suf p :
  chain p_hash (procs_of st) (hashes st !!! h) (pre ++ i :: suf) -> NoDup (pre ++ i :: suf) -> (h < length (hashes st))%nat -> procs_of st !! i = Some p ->
  exists l' hs', st_hash (hash_ptr h pre) (p_hash p) st = Ok (set_hashes hs' (on l' st)) /\ chain p_hash l' (hs' !!! h) (pre ++ suf) /\
    length hs' = length (hashes st) /\ (forall k, k <> h -> hs' !!! k = hashes st !!! k) /\ tabs hbr (procs_of st) l' /\ forall x, x ∉ pre -> l' !! x = procs_of st !! x.
Proof.
  intros Hc Hnd Hh Hi. set (l := procs_of st) in *. assert (chain p_hash l (p_hash p) suf) as Hs.
  { destruct (chain_split _ _ _ pre (i :: suf) Hc) as (h2&(->&p'&Hp'&Hc2)&_). congruence. }
  destruct pre as [|k pre _] using rev_ind.
  - unfold hash_ptr. cbn [last st_hash]. destruct (lookup_lt_is_Some_2 _ _ Hh) as [v Hv]. rewrite (wr_Some _ _ _ _ Hv). cbn [mbind res_bind].
    exists l, (<[h := p_hash p]> (hashes st)). split; [unfold l; by rewrite on_id|]. cbn [app]. rewrite list_lookup_total_insert_eq by done. split; [done|].
    split; [apply length_insert|]. split; [intros k Hk; by rewrite list_lookup_total_insert_ne|]. split; [by apply tabs_refl|done].
  - unfold hash_ptr. rewrite last_snoc. cbn [st_hash]. assert (is_Some (l !! k)) as [q Hk] by (apply (chain_lookup _ _ _ _ k Hc); set_solver).
    rewrite (upd_proc_ok k _ st q Hk). fold l. exists (<[k := set_p_hash (p_hash p) q]> l), (hashes st). split; [by destruct st|].
    rewrite <- !app_assoc in *. cbn [app] in *. pose proof Hnd as (N1&N2&N3)%NoDup_app. apply NoDup_cons in N3 as [N3 N4].
    split; [|split; [done|split; [done|split; [by apply (tabs_insert hbr l k q)|]]]].
    + eapply (chain_redirect p_hash l _ pre k (i :: suf) suf q); [exact Hc| |done|done|set_solver]. apply NoDup_app. split_and!; [done|set_solver|apply NoDup_singleton].
    + intros x Hx. apply put_ne. set_solver.
Qed.
Lemma unhash_ok st live i p :
  hash_wf (table_of st) live -> i ∈ live -> procs_of st !! i = Some p ->
  exists l' hs', unhash (S (length (procs_of st))) (HashHead (PIDHASH (p_pid p))) i st = Ok (set_hashes hs' (on l' st)) /\
    hash_wf (PTable l' hs' None None None) (filter (fun x => x <> i) live) /\ tabs hbr (procs_of st) l' /\ forall x, x ∉ live -> l' !! x = procs_of st !! x.
Proof.
  intros (Hl&Hnd&Hch) Hi Hp. set (h := PIDHASH (p_pid p)). pose proof (PIDHASH_lt (p_pid p)) as Hlt. fold h in Hlt. cbn [table_of pidhash procs] in *.
  assert (h < length (hashes st))%nat as Hh by (rewrite Hl; exact Hlt).
  destruct (Hch h Hlt) as (js&Hc&Hjn&Hin). assert (i ∈ js) as (pre&suf&->)%list_elem_of_split by (apply Hin; split; [done|by exists p]).
  pose proof (chain_length _ _ _ _ Hc Hjn) as Hlen. rewrite length_app in Hlen. simpl in Hlen. pose proof Hjn as (N1&N2&N3)%NoDup_app.
  apply NoDup_cons in N3 as [N3 N4]. assert (i ∉ pre) as Hip by (intros Hx; eapply N2; [exact Hx|apply list_elem_of_here]).
  change (HashHead h) with (hash_ptr h []). rewrite (unhash_find st h i p pre suf) by (done || lia). cbn [app].
  destruct (hash_ptr_st st h pre i suf p Hc Hjn Hh Hp) as (l'&hs'&->&Hc'&Hl'&Hk&HT&Hx). exists l', hs'. split; [done|]. split; [|split; [done|]]; last first.
  { intros x Hxl. apply Hx. intros Hxp. destruct Hxl. apply (Hin x). set_solver. }
  assert (forall x (k : nat), (exists q, l' !! x = Some q /\ PIDHASH (p_pid q) = k) <-> exists q, procs_of st !! x = Some q /\ PIDHASH (p_pid q) = k) as Heq.
  { intros x k. split; intros (q&Hq&E).
    - destruct (tabs_bwd _ _ _ _ _ HT Hq) as (q0&?&Hb). exists q0. split; [done|]. apply (f_equal p_pid) in Hb. cbn in Hb. congruence.
    - destruct (tabs_fwd _ _ _ _ _ HT Hq) as (q0&?&Hb). exists q0. split; [done|]. apply (f_equal p_pid) in Hb. cbn in Hb. congruence. }
  split; [cbn; by rewrite Hl'|]. split; [by apply NoDup_filter|]. intros k Hk16. cbn [pidhash procs]. destruct (decide (k = h)) as [->|Hne].
  - exists (pre ++ suf). split; [done|]. split; [apply NoDup_app; split_and!; [done|set_solver|done]|]. intros x. rewrite Heq, list_elem_of_filter.
    specialize (Hin x). rewrite elem_of_app, elem_of_cons in Hin. rewrite elem_of_app. assert (x = i -> x ∉ pre /\ x ∉ suf) by (by intros ->). tauto.
  - destruct (Hch k Hk16) as (ks&Hkc&Hkn&Hkin). exists ks. rewrite Hk by done. split; [|split; [done|]].
    + eapply chain_frame; [|exact Hkc]. intros x Hxk. apply Hx. intros Hxp. apply Hkin in Hxk as (_&q&Hq&Eq).
      assert (x ∈ pre ++ i :: suf) as (_&q'&Hq'&Eq')%Hin by set_solver. congruence.
    + intros x. rewrite Heq, list_elem_of_filter, Hkin. split; [|tauto]. intros (Hxl&q&Hq&Eq). split_and!; [|done|by exists q].
      intros ->. destruct Hne. unfold h. congruence.
Qed.
End Plist.
