(* ===== verification/Life.v ===== *)
(** The life of a process: every entry of the process table is on exactly one
    of the lists freeproc, allproc and zombproc, the living processes are in
    the hash chains of their ids, and newproc, exit and wait1 keep it so. *)
From S2P Require Import Prelude Proc Sched Mem Sig Fork Plist.
Import Proc Sched Fork Plist.

Module Life.
Implicit Types (l : list proc) (js : list nat) (st : pstate).

(** ** What signals and wakeups leave alone *)

Definition alive (p : proc) : Prop := p_stat p <> 0 /\ p_stat p <> SZOMB.
(** The fields that tell who and where a process is. *)
Definition ident (p : proc) := (p_nxt p, p_prev p, p_hash p, p_pid p, p_ppid p, p_pptr p, p_pgrp p, p_uid p, p_xstat p).
Definition kept (p p' : proc) : Prop :=
  ident p' = ident p /\ (p_stat p' = p_stat p \/ alive p /\ alive p') /\ (p_wchan p' = p_wchan p \/ p_wchan p' = 0).
Lemma kept_refl p : kept p p.
Proof. split_and!; auto. Qed.
Lemma kept_trans a b c : kept a b -> kept b c -> kept a c.
Proof. intros (E1&S1&W1) (E2&S2&W2). split_and!; [congruence| |destruct W2 as [->|]; auto]. unfold alive in *. destruct S1 as [S1|[? ?]], S2 as [S2|[? ?]]; rewrite ?S1, ?S2 in *; tauto. Qed.
Lemma kept_link a b : link_eq a b -> kept a b.
Proof. intros E. rewrite (link_eq_as_set _ _ E). split_and!; auto. Qed.
Lemma kept_woke p : kept p (woke p).
Proof.
  unfold woke, decayed, setpri. split_and!.
  - repeat case_match; done.
  - destruct (Z.eqb_spec (p_stat p) SSLEEP) as [E|]; [|by left]. right. split; [unfold alive; by rewrite E|]. case_match; done.
  - right. repeat case_match; done.
Qed.
Lemma kept_ready p : alive p -> kept p (ready p).
Proof. intros Ha. unfold ready, decayed, setpri. split_and!; [|right; split; [done|]|right]; repeat case_match; done. Qed.
Lemma kept_post b sig p p1 a : Sig.psignal_post b sig p = Some (p1, a) -> kept p p1.
Proof. unfold Sig.psignal_post. case_if; [done|]. repeat case_match; intros [=]; subst; split_and!; auto. Qed.
Lemma kept_switch sig a p p2 todo : Sig.psignal_switch sig a p = (p2, todo) -> kept p p2.
Proof.
  intros E. split_and!.
  - revert E. unfold Sig.psignal_switch. repeat case_match; intros [=]; by subst.
  - apply Sig.switch_keeps in E as (_&[->|(_&E1&E2&_)]&_); [by left|]. right. unfold alive. by rewrite E1, E2.
  - apply Sig.switch_keeps in E as ((_&->&_)&_). by left.
Qed.
Lemma kept_signalled sig p : Sig.stops sig p = false -> kept p (Sig.signalled sig p).
Proof.
  unfold Sig.stops, Sig.signalled. destruct (Sig.psignal_post _ sig p) as [[p1 [a|]]|] eqn:Ep; [|intros _; by eapply kept_post|intros; apply kept_refl].
  destruct (Sig.psignal_switch sig a p1) as [p2 todo] eqn:Es. pose proof (kept_post _ _ _ _ _ Ep) as K1. pose proof (kept_switch _ _ _ _ _ Es) as K2.
  pose proof (kept_trans _ _ _ K1 K2) as K. apply Sig.switch_keeps in Es as (_&S2&R2&_). cbn [snd]. destruct todo; intros Hst; try done.
  - apply (kept_trans _ p2); [done|]. assert (alive p2) as Ha by (destruct S2 as [E|(E&_)]; [|done]; unfold alive; rewrite E; destruct R2 as [->| ->]; done).
    apply (kept_trans _ (Sig.raise_pri p2)); [|apply kept_ready]; unfold Sig.raise_pri; case_match; first [exact Ha|split_and!; by auto].
  - apply (kept_trans _ p2); [done|]. split_and!; auto.
Qed.
Lemma nostop sig p : flag_on (Sig.sigprop sig) Sig.SA_STOP = false -> Sig.stops sig p = false.
Proof.
  intros Hs. unfold Sig.stops. destruct (Sig.psignal_post _ _ p) as [[p1 [a|]]|]; try done.
  destruct (Sig.psignal_switch sig a p1) as [p2 todo] eqn:Es. apply Sig.switch_keeps in Es as (_&_&_&D&_). cbn [snd].
  destruct todo; try done. destruct D as (_&_&D); [done|]. congruence.
Qed.

(** ** The scheduler's queues under changes of the table *)

Definition quiet (p p' : proc) : Prop := p_link p' = p_link p /\ p_wchan p' = p_wchan p /\
  (p_stat p' = p_stat p /\ flag_on (p_flag p') SLOAD = flag_on (p_flag p) SLOAD \/ p_wchan p = 0 /\ p_stat p <> SRUN /\ p_stat p' <> SRUN).
Lemma quiet_refl p : quiet p p.
Proof. split_and!; auto. Qed.
Lemma quiet_trans a b c : quiet a b -> quiet b c -> quiet a c.
Proof.
  intros (L1&W1&S1) (L2&W2&S2). split_and!; [congruence..|]. destruct S1 as [[S1 F1]|(?&?&?)], S2 as [[S2 F2]|(?&?&?)].
  - left. split; congruence.
  - right. split_and!; congruence.
  - right. split_and!; congruence.
  - right. split_and!; congruence.
Qed.
Lemma quiet_nbr p p' : nbr p p' -> quiet p p'.
Proof. unfold nbr. destruct p, p'. cbn. intros [=]; subst. split_and!; auto. Qed.
Lemma queues_quiet s s' off rq sq :
  tabs quiet (tab s) (tab s') -> qs s' = qs s -> slpque s' = slpque s -> queues s off rq sq -> queues s' off rq sq.
Proof.
  intros HT E1 E2 [H1 H2 H3 H4 H5 H6 H7 H8 H9 H10].
  assert (forall h ls, chain p_link (tab s) h ls -> chain p_link (tab s') h ls) as HC.
  { intros h ls. apply chain_tabs. intros j p _ Hj. destruct (tabs_fwd _ _ _ _ _ HT Hj) as (p'&?&?&_). eauto. }
  assert (forall i p, tab s !! i = Some p -> p_stat p = SRUN -> exists p', tab s' !! i = Some p' /\ p_stat p' = SRUN /\ p_wchan p' = p_wchan p) as HR.
  { intros i p Hi Hs. destruct (tabs_fwd _ _ _ _ _ HT Hi) as (p'&?&_&?&[[? _]|(_&?&_)]); [|done]. exists p'. split_and!; congruence. }
  split; rewrite ?E1, ?E2; auto.
  - intros i Hi. destruct (H4 i Hi) as (p&Hp&Hs&Hw). destruct (HR i p Hp Hs) as (p'&?&?&?). exists p'. split_and!; congruence.
  - intros h i Hh. rewrite H7 by done. split; intros (p&Hp&Hw&Hh').
    + destruct (tabs_fwd _ _ _ _ _ HT Hp) as (p'&?&_&Ew&_). exists p'. by rewrite Ew.
    + destruct (tabs_bwd _ _ _ _ _ HT Hp) as (p'&?&_&Ew&_). exists p'. by rewrite <- Ew.
  - intros i p' Hp' Hw. destruct (tabs_bwd _ _ _ _ _ HT Hp') as (p&Hp&_&Ew&[[Es _]|(?&_)]); [|congruence].
    rewrite Es. apply (H8 i p Hp). congruence.
  - intros i p' Hp' Hs Hf. destruct (tabs_bwd _ _ _ _ _ HT Hp') as (p&Hp&_&_&[[Es Ef]|(_&_&?)]); [|done]. apply (H9 i p Hp); congruence.
  - intros i Hi. destruct (H10 i Hi) as (?&p&Hp&Hs&Hw). split; [done|]. destruct (HR i p Hp Hs) as (p'&?&?&?). exists p'. split_and!; congruence.
Qed.

Section Signals.
Context (addr_runout : Z) (addr_proc : nat -> Z).
Context (Hrunout : addr_runout <> 0) (Hproc : forall j, addr_proc j <> 0).

Lemma wake_ok chan st off rq sq :
  queues (ps st) off rq sq -> chan <> 0 ->
  exists s' rq' sq', wake addr_runout chan st = Ok (set_ps s' st) /\ queues s' off rq' sq' /\ tabs kept (procs_of st) (tab s') /\ nobody chan s'.
Proof.
  intros Hq Hc. unfold wake. destruct (wakeup_ok addr_runout Hrunout chan (ps st) off rq sq Hq Hc) as (s'&rq'&sq'&->&Hq'&He&Hn).
  cbn [mbind res_bind]. exists s', rq', sq'. split_and!; try done. destruct He as (_&_&_&_&He). intros x. specialize (He x).
  unfold procs_of. inversion He as [p p' Hp|]; constructor. destruct Hp as [Hp|(_&_&Hp)]; [by apply kept_link|].
  eapply kept_trans; [apply kept_woke|by apply kept_link].
Qed.
Lemma sig_to_ok i sig st off rq sq :
  queues (ps st) off rq sq -> is_Some (procs_of st !! i) -> flag_on (Sig.sigprop sig) Sig.SA_STOP = false ->
  exists s' rq' sq', sig_to addr_runout addr_proc i sig st = Ok (set_ps s' st) /\ queues s' off rq' sq' /\ tabs kept (procs_of st) (tab s').
Proof.
  intros Hq [p Hi] Hs. unfold sig_to, Sig.psignal. pose proof (nostop sig p Hs) as Hns.
  destruct (Sig.psignal_nostop addr_runout addr_proc Hrunout (ps st) off rq sq i p sig 1 Hq Hi Hns) as (s'&rq'&sq'&p'&->&Hq'&Hi'&Hl&Hx).
  cbn [mbind res_bind]. exists s', rq', sq'. split_and!; try done. intros x. destruct (decide (x = i)) as [->|Hne].
  - rewrite Hi, Hi'. constructor. eapply kept_trans; [by apply kept_signalled|by apply kept_link].
  - specialize (Hx x Hne). unfold procs_of. inversion Hx as [q q' Hb|]; constructor. destruct Hb as [Hb|[_ Hb]]; [by apply kept_link|].
    eapply kept_trans; [apply kept_woke|by apply kept_link].
Qed.

(** ** Children of an exiting process *)

Definition tabx (R : nat -> proc -> proc -> Prop) l l' : Prop := forall x, option_Forall2 (R x) (l !! x) (l' !! x).
Lemma tabx_trans (R1 R2 R3 : nat -> proc -> proc -> Prop) l l1 l2 :
  (forall x a b c, R1 x a b -> R2 x b c -> R3 x a c) -> tabx R1 l l1 -> tabx R2 l1 l2 -> tabx R3 l l2.
Proof. intros HR H1 H2 x. specialize (H1 x). specialize (H2 x). inversion H1 as [a b Hab E1 E2|E1 E2]; rewrite <- E2 in H2; inversion H2; subst; constructor; eauto. Qed.
Lemma tabx_fwd R l l' x p : tabx R l l' -> l !! x = Some p -> exists p', l' !! x = Some p' /\ R x p p'.
Proof. intros H Hx. specialize (H x). rewrite Hx in H. inversion H; subst. eauto. Qed.
Lemma tabx_bwd R l l' x p' : tabx R l l' -> l' !! x = Some p' -> exists p, l !! x = Some p /\ R x p p'.
Proof. intros H Hx. specialize (H x). rewrite Hx in H. inversion H; subst. eauto. Qed.

(** The child of [cur] gets process 1 for its parent. *)
Definition adopt (cur : nat) (p : proc) : proc :=
  if decide (p_pptr p = Some cur) then set_p_ppid 1 (set_p_pptr (Some 1%nat) p) else p.
Definition adopted (cur : nat) js (x : nat) (p : proc) : proc := if decide (x ∈ js) then adopt cur p else p.
Lemma kept_adopt cur a b : kept a b -> kept (adopt cur a) (adopt cur b).
Proof.
  intros (E&S&W). unfold ident in E. injection E as E1 E2 E3 E4 E5 E6 E7 E8 E9. unfold adopt. rewrite E6.
  case_decide; (split_and!; [|done|done]); unfold ident; cbn; congruence.
Qed.
Lemma adopt_nxt cur p : p_nxt (adopt cur p) = p_nxt p.
Proof. unfold adopt. by case_decide. Qed.
Lemma kept_nxt p p' : kept p p' -> p_nxt p' = p_nxt p.
Proof. by intros ([=]&_). Qed.
Definition orphaned (cur : nat) js l l' : Prop := tabx (fun x p p' => kept (adopted cur js x p) p') l l'.
Lemma orphaned_kept cur js l l1 l2 : orphaned cur js l l1 -> tabs kept l1 l2 -> orphaned cur js l l2.
Proof. apply tabx_trans. intros x a b c. apply kept_trans. Qed.

Lemma orphan_ok cur i p st off rq sq :
  queues (ps st) off rq sq -> procs_of st !! i = Some p -> p_pptr p = Some cur ->
  exists s' rq' sq', orphan addr_runout addr_proc i st = Ok (set_ps s' st) /\ queues s' off rq' sq' /\ orphaned cur [i] (procs_of st) (tab s').
Proof.
  intros Hq Hi Hp. unfold orphan. rewrite (upd_proc_ok _ _ _ _ Hi). cbn [mbind res_bind]. set (p0 := set_p_ppid 1 _). set (st0 := on _ st).
  assert (orphaned cur [i] (procs_of st) (procs_of st0)) as O0.
  { intros x. unfold adopted. destruct (decide (x = i)) as [->|Hne].
    - cbn. rewrite (put _ _ _ p0 Hi), Hi. constructor. rewrite decide_True by apply list_elem_of_here. unfold adopt. rewrite decide_True by done. apply kept_refl.
    - cbn. rewrite put_ne by done. destruct (procs_of st !! x); constructor. rewrite decide_False by set_solver. apply kept_refl. }
  assert (queues (ps st0) off rq sq) as Hq0.
  { eapply (queues_quiet (ps st)); [|done|done|exact Hq]. apply (tabs_insert quiet _ i p); [exact quiet_refl|done|]. split_and!; auto. }
  destruct (wake_ok (addr_proc 1) st0 off rq sq Hq0 (Hproc 1)) as (s1&rq1&sq1&->&Hq1&K1&_). cbn [mbind res_bind].
  pose proof (orphaned_kept _ _ _ _ _ O0 K1) as O1.
  destruct (tabx_fwd _ _ _ i p O1 Hi) as (p1&Hi1&_). rewrite (get_proc_ok i (set_ps s1 st0) p1) by done. cbn [mbind res_bind].
  destruct (flag_on (p_flag p1) P_TRACED).
  - rewrite (upd_proc_ok i _ (set_ps s1 st0) p1) by done. cbn [mbind res_bind]. set (st2 := on _ _).
    assert (queues (ps st2) off rq1 sq1) as Hq2.
    { eapply (queues_quiet s1); [|done|done|exact Hq1]. apply (tabs_insert quiet _ i p1); [exact quiet_refl|done|]. split_and!; auto. left. split; [done|].
      cbn. autorewrite with kflags. done. }
    assert (tabs kept (tab s1) (procs_of st2)) as K2 by (apply (tabs_insert kept _ i p1); [exact kept_refl|done|split_and!; auto]).
    destruct (sig_to_ok i Sig.SIGKILL st2 off rq1 sq1 Hq2) as (s3&rq3&sq3&->&Hq3&K3); [by eexists; eapply put|done|].
    exists s3, rq3, sq3. split_and!; try done. eapply orphaned_kept; [|exact K3]. by eapply orphaned_kept.
  - destruct (p_stat p1 =? SSTOP); [|by exists s1, rq1, sq1].
    destruct (sig_to_ok i SIGHUP (set_ps s1 st0) off rq1 sq1 Hq1) as (s2&rq2&sq2&->&Hq2&K2); [by eexists|done|]. cbn [mbind res_bind].
    destruct (tabs_fwd _ _ _ _ _ K2 Hi1) as (p2&Hi2&_).
    destruct (sig_to_ok i Sig.SIGCONT (set_ps s2 (set_ps s1 st0)) off rq2 sq2 Hq2) as (s3&rq3&sq3&->&Hq3&K3); [by eexists|done|].
    exists s3, rq3, sq3. split_and!; try done. eapply orphaned_kept; [|exact K3]. by eapply orphaned_kept.
Qed.

Lemma orphans_ok cur js : forall fuel h st off rq sq,
  queues (ps st) off rq sq -> chain p_nxt (procs_of st) h js -> NoDup js -> (length js < fuel)%nat ->
  exists s' rq' sq', orphans addr_runout addr_proc fuel cur h st = Ok (set_ps s' st) /\ queues s' off rq' sq' /\ orphaned cur js (procs_of st) (tab s').
Proof.
  induction js as [|i js IH]; intros [|fuel] h st off rq sq Hq Hc Hnd Hf; simpl in Hf; try lia; cbn [orphans].
  { simpl in Hc. subst h. exists (ps st), rq, sq. split_and!; [by destruct st|done|]. intros x. unfold procs_of. destruct (tab (ps st) !! x); constructor. apply kept_refl. }
  destruct Hc as (->&p&Hi&Hc). apply NoDup_cons in Hnd as [Hni Hnd]. rewrite (get_proc_ok _ _ _ Hi). cbn [mbind res_bind].
  assert (exists s1 rq1 sq1, (if bool_decide (p_pptr p = Some cur) then orphan addr_runout addr_proc i st else Ok st) = Ok (set_ps s1 st) /\
    queues s1 off rq1 sq1 /\ orphaned cur [i] (procs_of st) (tab s1)) as (s1&rq1&sq1&->&Hq1&O1).
  { case_bool_decide as Hp; [by eapply orphan_ok|]. exists (ps st), rq, sq. split_and!; [by destruct st|done|]. intros x. unfold procs_of.
    destruct (decide (x = i)) as [->|Hne]; [unfold procs_of in Hi; rewrite Hi; constructor|destruct (tab (ps st) !! x); constructor; unfold adopted; rewrite decide_False by set_solver; apply kept_refl].
    unfold adopted, adopt. rewrite decide_True by apply list_elem_of_here. rewrite decide_False by done. apply kept_refl. }
  cbn [mbind res_bind]. assert (forall x a b, kept (adopted cur [i] x a) b -> p_nxt b = p_nxt a) as Hnx.
  { intros x a b ->%kept_nxt. unfold adopted. case_decide; [apply adopt_nxt|done]. }
  destruct (tabx_fwd _ _ _ i p O1 Hi) as (p1&Hi1&Hk1). rewrite (get_proc_ok i (set_ps s1 st) p1) by done. cbn [mbind res_bind].
  destruct (IH fuel (p_nxt p1) (set_ps s1 st) off rq1 sq1 Hq1) as (s2&rq2&sq2&->&Hq2&O2); [|done|lia|].
  { rewrite (Hnx _ _ _ Hk1). eapply chain_tabs; [|exact Hc]. intros j q _ Hj. destruct (tabx_fwd _ _ _ j q O1 Hj) as (q'&?&?). eauto. }
  exists s2, rq2, sq2. split_and!; try done. eapply tabx_trans; [|exact O1|exact O2]. intros x a b c. unfold adopted. cbn beta.
  destruct (decide (x ∈ js)) as [Hx|Hx].
  - rewrite decide_False by (intros ->%list_elem_of_singleton; done). rewrite decide_True by (by apply list_elem_of_further).
    intros Hab Hbc. eapply kept_trans; [by apply kept_adopt|done].
  - intros Hab Hbc. destruct (decide (x ∈ [i])) as [->%list_elem_of_singleton|Hxi].
    + rewrite decide_True by apply list_elem_of_here. by eapply kept_trans.
    + rewrite decide_False by set_solver. by eapply kept_trans.
Qed.
End Signals.

(** ** The three lists *)

(** The entries on the free list, the living and the dead processes: each
    entry is on one list, the living ones but process 0 are in the hash
    chains. *)
Record lists st (F A Z : list nat) : Prop := {
  ls_len : length (procs_of st) = NPROC;
  ls_free : chain p_nxt (procs_of st) (free st) F;
  ls_all : listed (procs_of st) PrevAll (all st) A;
  ls_zomb : listed (procs_of st) PrevZomb (zomb st) Z;
  ls_part : F ++ A ++ Z ≡ₚ seq 0 NPROC;
  ls_zero : 0%nat ∈ A;
  ls_hash : hash_wf (table_of st) (filter (fun x => x <> 0%nat) A);
  ls_idle : forall i p, i ∈ F -> procs_of st !! i = Some p -> p_stat p = 0 /\ p_wchan p = 0;
  ls_alive : forall i p, i ∈ A -> procs_of st !! i = Some p -> alive p;
  ls_dead : forall i p, i ∈ Z -> procs_of st !! i = Some p -> p_stat p = SZOMB }.
(** And the parent of every process but process 0 is alive. *)
Record plists st (F A Z : list nat) : Prop := {
  pl_lists : lists st F A Z;
  pl_parent : forall i p, i ∈ A ++ Z -> i <> 0%nat -> procs_of st !! i = Some p -> exists j, p_pptr p = Some j /\ j ∈ A /\ j <> i }.

Section Parts.
Context {st : pstate} {F A Z : list nat} (HL : lists st F A Z).
Lemma part_nodup : NoDup (F ++ A ++ Z).
Proof. rewrite (ls_part _ _ _ _ HL). apply NoDup_seq. Qed.
Lemma part_nodup_az : NoDup (A ++ Z).
Proof. pose proof part_nodup as (_&_&?)%NoDup_app. done. Qed.
Lemma part_entry i : i ∈ F ++ A ++ Z -> is_Some (procs_of st !! i).
Proof. intros Hi. rewrite (ls_part _ _ _ _ HL), elem_of_seq in Hi. apply lookup_lt_is_Some_2. rewrite (ls_len _ _ _ _ HL). lia. Qed.
Lemma part_split i : i ∈ F ++ A ++ Z ->
  i ∈ F /\ i ∉ A /\ i ∉ Z \/ i ∉ F /\ i ∈ A /\ i ∉ Z \/ i ∉ F /\ i ∉ A /\ i ∈ Z.
Proof. intros Hi. pose proof part_nodup as (_&N1&(_&N2&_)%NoDup_app)%NoDup_app. specialize (N1 i). specialize (N2 i). rewrite !elem_of_app in *. tauto. Qed.
End Parts.

(** ** newproc *)

Lemma nbr_fields p p' : nbr p p' ->
  p_stat p' = p_stat p /\ p_wchan p' = p_wchan p /\ p_hash p' = p_hash p /\ p_pid p' = p_pid p /\ p_pptr p' = p_pptr p /\ p_pgrp p' = p_pgrp p.
Proof.
  intros E. pose proof (f_equal p_stat E). pose proof (f_equal p_wchan E). pose proof (f_equal p_hash E). pose proof (f_equal p_pid E).
  pose proof (f_equal p_pptr E). pose proof (f_equal p_pgrp E). cbn in *. split_and!; congruence.
Qed.
(** The entry newproc makes of the free entry [q]. *)
Definition child_of (cur : nat) (pp : proc) (pid : Z) (h : option nat) (q : proc) : proc := set_p_hash h (born cur pp pid q).
Lemma newproc_run st F A Z c cur pp :
  lists st (c :: F) A Z -> cur ∈ A -> procs_of st !! cur = Some pp -> 0 <= mpid st -> pidchecked st <= MAXPID ->
  exists m k h q l', newproc cur st = Ok (c, relisted PrevAll l' (Some c) (set_hashes (<[PIDHASH m := Some c]> (hashes st)) (set_free (p_nxt q) (set_pids m k st)))) /\
    picked st A Z (mpid st + 1) (pidchecked st) m k /\ procs_of st !! c = Some q /\ hashes st !! PIDHASH m = Some h /\
    listed l' PrevAll (Some c) (c :: A) /\ tabs nbr (<[c := child_of cur pp m h q]> (procs_of st)) l' /\ forall x, x ∉ c :: A -> l' !! x = procs_of st !! x.
Proof.
  intros HL Hcur Hpp Hm Hk. pose proof (part_nodup HL) as Hnd. pose proof (ls_all _ _ _ _ HL) as HA. pose proof (ls_free _ _ _ _ HL) as HF.
  unfold newproc. destruct (pick_pid_ok st A Z) with (m := mpid st + 1) (c := pidchecked st) as (m&k&->&HP); [apply HA|apply (ls_zomb _ _ _ _ HL)|apply (part_nodup_az HL)|lia|done|apply (ls_len _ _ _ _ HL)|].
  cbn [mbind res_bind]. destruct HF as (Ef&q&Hq&HF). cbn [free set_pids]. rewrite Ef.
  set (st0 := set_pids m k st). rewrite (get_proc_ok c st0 q Hq). cbn [mbind res_bind]. set (st1 := set_free (p_nxt q) st0).
  rewrite (get_proc_ok cur st1 pp Hpp). cbn [mbind res_bind]. rewrite (upd_proc_ok c _ st1 q) by exact Hq. cbn [mbind res_bind].
  change (hashes (on _ st1)) with (hashes st). destruct (ls_hash _ _ _ _ HL) as (Hlen&_). cbn [table_of pidhash] in Hlen.
  destruct (lookup_lt_is_Some_2 (hashes st) (PIDHASH m)) as [h Hh]; [rewrite Hlen; apply PIDHASH_lt|].
  rewrite (rd_Some _ _ _ Hh). cbn [mbind res_bind]. rewrite (upd_on _ c _ st1 (born cur pp m q)) by (eapply put; exact Hq). cbn [mbind res_bind].
  rewrite list_insert_insert_eq. change (hashes (on _ st1)) with (hashes st). rewrite (wr_Some _ _ _ _ Hh). cbn [mbind res_bind].
  fold (child_of cur pp m h q). change (procs_of st1) with (procs_of st). set (l1 := <[c := _]> (procs_of st)). set (st2 := set_hashes _ (on l1 st1)).
  assert (c ∉ A) as HcA by (destruct (part_split HL c) as [(_&?&_)|[[Hn _]|[Hn _]]]; [set_solver|done|set_solver..]).
  destruct (push_ok st2 PrevAll c A (child_of cur pp m h q)) as (l'&->&HA'&HT&Hx).
  { eapply listed_tabs; [|exact HA]. intros j p Hj Hp. exists p. change (procs_of st2) with l1. unfold l1. rewrite put_ne by (intros ->; done). done. }
  { change (procs_of st2) with l1. unfold l1. eapply put. exact Hq. } { done. } { right. split; [done|]. intros ->. by apply not_elem_of_nil in Hcur. }
  exists m, k, h, q, l'. split; [done|]. split_and!; try done. intros x Hx'. rewrite Hx by done. change (procs_of st2) with l1. unfold l1. apply put_ne. set_solver.
Qed.

(** ** From the living to the dead *)

Lemma filter_ne (i : nat) (l1 l2 : list nat) : NoDup (l1 ++ i :: l2) -> filter (fun x => x <> i) (l1 ++ i :: l2) = l1 ++ l2.
Proof.
  intros (_&N2&[N3 _]%NoDup_cons)%NoDup_app. rewrite filter_app, filter_cons_False by (intros H; by apply H).
  rewrite !list_filter_all; [done|apply Forall_forall; intros x Hx ->; done|apply Forall_forall; intros x Hx ->]. eapply N2; [exact Hx|apply list_elem_of_here].
Qed.
Lemma filter_ne_comm (i j : nat) (ls : list nat) : filter (fun x => x <> i) (filter (fun x => x <> j) ls) = filter (fun x => x <> j) (filter (fun x => x <> i) ls).
Proof. induction ls as [|x ls IH]; [done|]. rewrite !filter_cons. destruct (decide (x <> j)), (decide (x <> i)); rewrite ?filter_cons; repeat case_decide; try done; congruence. Qed.

(** Entries that differ at most in the links of the lists. *)
Definition moved (p p' : proc) : Prop := set_p_nxt None (set_p_prev PrevAll (set_p_hash None p)) = set_p_nxt None (set_p_prev PrevAll (set_p_hash None p')).
Lemma moved_tr a b c : moved a b -> moved b c -> moved a c.
Proof. unfold moved. congruence. Qed.
Lemma moved_nbr a b : nbr a b -> moved a b.
Proof. intros E. exact (f_equal (set_p_hash None) E). Qed.
Lemma moved_hbr a b : hbr a b -> moved a b.
Proof. intros E. exact (f_equal (fun p => set_p_nxt None (set_p_prev PrevAll p)) E). Qed.
Lemma moved_fields p p' : moved p p' ->
  p_stat p' = p_stat p /\ p_wchan p' = p_wchan p /\ p_pid p' = p_pid p /\ p_pptr p' = p_pptr p /\ p_pgrp p' = p_pgrp p /\ p_ppid p' = p_ppid p /\ p_xstat p' = p_xstat p.
Proof.
  intros E. pose proof (f_equal p_stat E). pose proof (f_equal p_wchan E). pose proof (f_equal p_pid E). pose proof (f_equal p_xstat E).
  pose proof (f_equal p_pptr E). pose proof (f_equal p_pgrp E). pose proof (f_equal p_ppid E). cbn in *. split_and!; congruence.
Qed.
Lemma moved_quiet p p' : moved p p' -> quiet p p'.
Proof. intros E. pose proof (f_equal p_stat E). pose proof (f_equal p_wchan E). pose proof (f_equal p_link E). pose proof (f_equal p_flag E). cbn in *. split_and!; [done..|left; split; congruence]. Qed.

Lemma to_zomb_ok st F A Z cur p rv msgsnd :
  lists st F A Z -> cur ∈ A -> cur <> 0%nat -> procs_of st !! cur = Some p ->
  exists st' p', to_zomb cur rv msgsnd st = Ok st' /\ lists st' F (filter (fun x => x <> cur) A) (cur :: Z) /\
    qs (ps st') = qs (ps st) /\ slpque (ps st') = slpque (ps st) /\ mpid st' = mpid st /\ pidchecked st' = pidchecked st /\
    procs_of st' !! cur = Some p' /\ moved (dead rv msgsnd (set_p_stat SZOMB p)) p' /\
    forall x, x <> cur -> option_Forall2 moved (procs_of st !! x) (procs_of st' !! x).
Proof.
  intros HL Hcur Hc0 Hp. pose proof Hcur as (l1&l2&EA)%list_elem_of_split. pose proof (li_nodup _ _ _ _ (ls_all _ _ _ _ HL)) as NA.
  rewrite EA in NA. rewrite EA, filter_ne by done. pose proof (part_split HL) as HS.
  assert (cur ∉ Z /\ cur ∉ F) as [HcZ HcF] by (destruct (HS cur) as [(_&?&_)|[(?&_&?)|(_&?&_)]]; [set_solver|done..]).
  unfold to_zomb. destruct (off_list_ok st PrevAll cur l1 l2 p) as (la&h&->&HA&Ha&Ta&Xa); [by left|rewrite <- EA; apply (ls_all _ _ _ _ HL)|done|]. cbn [mbind res_bind].
  set (st1 := relisted PrevAll la h st).
  destruct (push_ok st1 PrevZomb cur Z p) as (lb&->&HZ&Tb&Xb); [|exact Ha|done|by left|].
  { eapply listed_tabs; [|exact (ls_zomb _ _ _ _ HL)]. intros j q Hj Hq. exists q. change (procs_of st1) with la. rewrite Xa; [done|].
    destruct (HS j) as [(_&_&?)|[(_&_&?)|(_&Hn&_)]]; [set_solver|done..|]. rewrite EA in Hn. set_solver. }
  cbn [mbind res_bind]. set (st2 := relisted PrevZomb lb (Some cur) st1). change (procs_of st1) with la in *.
  destruct (tabs_fwd _ _ _ _ _ Tb Ha) as (pb&Hb&Nb). rewrite (upd_proc_ok cur _ st2 pb) by exact Hb. cbn [mbind res_bind].
  change (procs_of st2) with lb. set (pc := set_p_stat SZOMB pb). set (lc := <[cur := pc]> lb). set (st3 := set_ps _ _).
  assert (lc !! cur = Some pc) as Hc by (unfold lc; by eapply put). rewrite (get_proc_ok cur st3 pc) by exact Hc. cbn [mbind res_bind].
  assert (tabs nbr (procs_of st) lb) as T1 by (eapply (tabs_trans nbr); [exact nbr_trans|exact Ta|exact Tb]).
  assert (hash_wf (table_of st3) (filter (fun x => x <> 0%nat) A)) as Hw.
  { apply (hash_same (table_of st)); [done| |apply (ls_hash _ _ _ _ HL)]. intros j [_ Hj]%list_elem_of_filter.
    destruct (part_entry HL j) as [q Hq]; [set_solver|]. destruct (tabs_fwd _ _ _ _ _ T1 Hq) as (q'&Hq'&(_&_&?&?&_)%nbr_fields). change (procs (table_of st3)) with lc.
    destruct (decide (j = cur)) as [->|Hne]; [exists q, pc; assert (q' = pb) as -> by congruence; done|]. exists q, q'. unfold lc. by rewrite put_ne. }
  destruct (unhash_ok st3 _ cur pc Hw) as (ld&hs&->&Hh&Td&Xd); [by apply list_elem_of_filter|exact Hc|]. cbn [mbind res_bind].
  change (procs_of st3) with lc in *. destruct (tabs_fwd _ _ _ _ _ Td Hc) as (pd&Hd&Nd). set (st4 := set_hashes hs (on ld st3)).
  rewrite (upd_proc_ok cur _ st4 pd) by exact Hd. change (procs_of st4) with ld. set (pe := dead rv msgsnd pd). set (le := <[cur := pe]> ld). set (st5 := on le st4).
  exists st5, pe. split; [done|]. change (procs_of st5) with le. assert (le !! cur = Some pe) as He by (unfold le; by eapply put).
  assert (forall x, x <> cur -> option_Forall2 moved (procs_of st !! x) (le !! x)) as HM.
  { intros x Hx. unfold le. rewrite put_ne by done. specialize (T1 x). specialize (Td x). unfold lc in Td. rewrite put_ne in Td by done.
    inversion T1 as [a b Hab E1 E2|E1 E2]; rewrite <- E2 in Td; inversion Td; subst; constructor. eapply moved_tr; [by apply moved_nbr|by apply moved_hbr]. }
  assert (moved (dead rv msgsnd (set_p_stat SZOMB p)) pe) as Mc.
  { apply (f_equal (fun q => dead rv msgsnd (set_p_stat SZOMB q))) in Nb. apply (f_equal (dead rv msgsnd)) in Nd.
    apply (moved_tr _ (dead rv msgsnd pc)); [exact (moved_nbr (dead rv msgsnd (set_p_stat SZOMB p)) (dead rv msgsnd pc) Nb)|exact (moved_hbr (dead rv msgsnd pc) pe Nd)]. }
  split; [|split_and!; done].
  assert (forall x, x ∈ F -> le !! x = procs_of st !! x) as HF.
  { intros x Hx. destruct (HS x) as [(_&HnA&HnZ)|[[? _]|[? _]]]; [set_solver| |done..]. assert (x <> cur) as Hxc by (by intros ->).
    unfold le. rewrite put_ne, Xd by (done || by intros [_ ?]%list_elem_of_filter). unfold lc. rewrite put_ne, Xb, Xa by (done || set_solver). done. }
  assert (forall x q, x <> cur -> lb !! x = Some q -> exists q', le !! x = Some q' /\ p_nxt q' = p_nxt q /\ p_prev q' = p_prev q) as HN.
  { intros x q Hx Hq. unfold le. rewrite put_ne by done. destruct (tabs_fwd hbr lc ld x q Td) as (q'&?&E); [unfold lc; by rewrite put_ne|].
    exists q'. split; [done|]. split; [exact (eq_sym (f_equal p_nxt E))|exact (eq_sym (f_equal p_prev E))]. }
  assert (forall x q', x <> cur -> le !! x = Some q' -> exists q, procs_of st !! x = Some q /\ moved q q') as HB.
  { intros x q' Hx Hq'. specialize (HM x Hx). rewrite Hq' in HM. inversion HM; eauto. }
  split.
  - change (procs_of st5) with le. unfold le. rewrite length_insert, (tabs_length _ _ _ Td). unfold lc. rewrite length_insert, (tabs_length _ _ _ T1). apply (ls_len _ _ _ _ HL).
  - eapply chain_frame; [exact HF|apply (ls_free _ _ _ _ HL)].
  - change (procs_of st5) with le. eapply listed_tabs; [|exact HA]. intros j q Hj Hq. assert (j <> cur) as Hjc.
    { intros ->. pose proof NA as (_&N2&[N3 _]%NoDup_cons)%NoDup_app. apply elem_of_app in Hj as [Hj|Hj]; [|done]. eapply N2; [exact Hj|apply list_elem_of_here]. }
    apply HN; [done|]. rewrite Xb; [done|]. destruct (HS j) as [(_&Hn&_)|[(_&_&?)|(_&Hn&_)]]; rewrite ?EA in *; set_solver.
  - change (procs_of st5) with le. eapply listed_tabs; [|exact HZ]. intros j q Hj Hq. destruct (decide (j = cur)) as [->|Hjc]; [|by apply HN].
    exists pe. split; [done|]. assert (q = pb) as -> by congruence. split; [exact (eq_sym (f_equal p_nxt Nd))|exact (eq_sym (f_equal p_prev Nd))].
  - rewrite <- (ls_part _ _ _ _ HL), EA. apply Permutation_app_head. rewrite <- Permutation_middle, <- app_assoc, <- app_assoc. cbn. by rewrite Permutation_middle.
  - pose proof (ls_zero _ _ _ _ HL) as H0. rewrite EA in H0. set_solver.
  - rewrite <- (filter_ne cur l1 l2 NA), <- EA, filter_ne_comm. eapply hash_same; [| |exact Hh]; [done|]. intros j [Hjc [_ Hj]%list_elem_of_filter]%list_elem_of_filter.
    destruct (part_entry HL j) as [q Hq]; [set_solver|]. specialize (HM j Hjc). rewrite Hq in HM. inversion HM as [q0 q' Hm0 E0 Hq'|]; subst.
    exists q', q'. change (procs (table_of st5)) with le. cbn [procs]. split_and!; try done. symmetry in Hq'. unfold le in Hq'. by rewrite put_ne in Hq'.
  - intros j q Hj Hq. change (procs_of st5) with le in Hq. rewrite HF in Hq by done. by apply (ls_idle _ _ _ _ HL j).
  - intros j q' Hj Hq'. assert (j <> cur) as Hjc.
    { intros ->. pose proof NA as (_&N2&[N3 _]%NoDup_cons)%NoDup_app. apply elem_of_app in Hj as [Hj|Hj]; [|done]. eapply N2; [exact Hj|apply list_elem_of_here]. }
    destruct (HB j q' Hjc Hq') as (q&Hq&(E&_)%moved_fields). unfold alive. rewrite E. apply (ls_alive _ _ _ _ HL j q); [rewrite EA; set_solver|done].
  - intros j q' Hj Hq'. destruct (decide (j = cur)) as [->|Hjc]; [assert (q' = pe) as -> by (change (procs_of st5) with le in Hq'; congruence); exact (eq_sym (f_equal p_stat Nd))|].
    destruct (HB j q' Hjc Hq') as (q&Hq&(E&_)%moved_fields). rewrite E. apply (ls_dead _ _ _ _ HL j q); [set_solver|done].
Qed.

(** ** exit *)

(** Entries at the same place in the lists. *)
Definition place (p : proc) := (p_nxt p, p_prev p, p_hash p, p_pid p).
Definition placed (p p' : proc) : Prop :=
  place p' = place p /\ (p_stat p' = p_stat p \/ alive p /\ alive p') /\ (p_wchan p = 0 -> p_wchan p' = 0).
Lemma kept_placed p p' : kept p p' -> placed p p'.
Proof. intros (E&S&W). split_and!; [|done|destruct W as [->|]; auto]. unfold ident in E. injection E as E1 E2 E3 E4 E5 E6 E7 E8 E9. unfold place. congruence. Qed.
Lemma lists_placed st st' F A Z :
  tabs placed (procs_of st) (procs_of st') -> free st' = free st -> all st' = all st -> zomb st' = zomb st -> hashes st' = hashes st ->
  lists st F A Z -> lists st' F A Z.
Proof.
  intros HT Ef Ea Ez Eh HL. assert (forall x p, procs_of st !! x = Some p -> exists p', procs_of st' !! x = Some p' /\ place p' = place p) as HP.
  { intros x p Hp. destruct (tabs_fwd _ _ _ _ _ HT Hp) as (p'&?&?&_). eauto. }
  assert (forall x p', procs_of st' !! x = Some p' -> exists p, procs_of st !! x = Some p /\ placed p p') as HB by (intros x p' Hp'; by eapply tabs_bwd).
  split; rewrite ?Ef, ?Ea, ?Ez.
  - rewrite (tabs_length _ _ _ HT). apply (ls_len _ _ _ _ HL).
  - eapply chain_tabs; [|apply (ls_free _ _ _ _ HL)]. intros j p _ Hp. destruct (HP j p Hp) as (p'&?&[= ? ? ? ?]). eauto.
  - eapply listed_tabs; [|apply (ls_all _ _ _ _ HL)]. intros j p _ Hp. destruct (HP j p Hp) as (p'&?&[= ? ? ? ?]). eauto.
  - eapply listed_tabs; [|apply (ls_zomb _ _ _ _ HL)]. intros j p _ Hp. destruct (HP j p Hp) as (p'&?&[= ? ? ? ?]). eauto.
  - apply (ls_part _ _ _ _ HL).
  - apply (ls_zero _ _ _ _ HL).
  - apply (hash_same (table_of st)); [done| |apply (ls_hash _ _ _ _ HL)]. intros j [_ Hj]%list_elem_of_filter.
    destruct (part_entry HL j) as [q Hq]; [set_solver|]. destruct (HP j q Hq) as (q'&?&[= ? ? ? ?]). exists q, q'. done.
  - intros j p' Hj Hp'. destruct (HB j p' Hp') as (p&Hp&_&S&W). destruct (ls_idle _ _ _ _ HL j p Hj Hp) as [E1 E2]. split; [|auto].
    destruct S as [->|[[? _] _]]; done.
  - intros j p' Hj Hp'. destruct (HB j p' Hp') as (p&Hp&_&S&_). pose proof (ls_alive _ _ _ _ HL j p Hj Hp) as Ha. destruct S as [S|[_ ?]]; [unfold alive; by rewrite S|done].
  - intros j p' Hj Hp'. destruct (HB j p' Hp') as (p&Hp&_&S&_). pose proof (ls_dead _ _ _ _ HL j p Hj Hp) as Hd. destruct S as [->|[[_ ?] _]]; done.
Qed.
Lemma lists_insert st F A Z i p p' :
  procs_of st !! i = Some p -> placed p p' -> lists st F A Z -> lists (on (<[i := p']> (procs_of st)) st) F A Z.
Proof. intros Hi Hp. apply lists_placed; try done. apply (tabs_insert placed _ i p); [intros q; split_and!; auto|done|done]. Qed.
Lemma adopted_placed cur js x p p' : kept (adopted cur js x p) p' -> placed p p'.
Proof. intros H%kept_placed. unfold adopted, adopt in H. repeat case_decide; exact H. Qed.

Section Exit.
Context (addr_runout : Z) (addr_proc : nat -> Z) (addr_runin : Z).
Context (Hrunout : addr_runout <> 0) (Hproc : forall j, addr_proc j <> 0) (Hrunin : addr_runin <> 0).

(** The loops over the living and the dead. *)
Lemma orphans_both cur st F A Z off rq sq :
  lists st F A Z -> queues (ps st) off rq sq ->
  exists s1 s' rq' sq', orphans addr_runout addr_proc (S (length (procs_of st))) cur (all st) st = Ok (set_ps s1 st) /\
    orphans addr_runout addr_proc (S (length (procs_of st))) cur (zomb st) (set_ps s1 st) = Ok (set_ps s' st) /\
    queues s' off rq' sq' /\ orphaned cur (A ++ Z) (procs_of st) (tab s').
Proof.
  intros HL Hq. destruct (ls_all _ _ _ _ HL) as [CA _ NA]. destruct (ls_zomb _ _ _ _ HL) as [CZ _ NZ].
  pose proof (chain_length _ _ _ _ CA NA). pose proof (chain_length _ _ _ _ CZ NZ). pose proof (part_nodup_az HL) as (_&Nd&_)%NoDup_app.
  destruct (orphans_ok addr_runout addr_proc Hrunout Hproc cur A (S (length (procs_of st))) (all st) st off rq sq Hq CA NA) as (s1&rq1&sq1&E1&Hq1&O1); [lia|].
  destruct (orphans_ok addr_runout addr_proc Hrunout Hproc cur Z (S (length (procs_of st))) (zomb st) (set_ps s1 st) off rq1 sq1 Hq1)
    as (s2&rq2&sq2&E2&Hq2&O2); [|done|lia|].
  { eapply chain_tabs; [|exact CZ]. intros j p _ Hp. destruct (tabx_fwd _ _ _ j p O1 Hp) as (p'&?&Hk%adopted_placed). destruct Hk as ([= ? ? ? ?]&_). eauto. }
  exists s1, s2, rq2, sq2. split_and!; try done. eapply tabx_trans; [|exact O1|exact O2]. intros x a b c. unfold adopted. cbn beta. specialize (Nd x).
  intros Hab Hbc. destruct (decide (x ∈ A)), (decide (x ∈ Z)); try tauto.
  - rewrite decide_True by set_solver. by eapply kept_trans.
  - rewrite decide_True by set_solver. eapply kept_trans; [by apply kept_adopt|done].
  - rewrite decide_False by set_solver. by eapply kept_trans.
Qed.

(** The last steps of exit: the signal to the parent and the two wakeups. *)
Lemma exit_tell j st off rq sq :
  queues (ps st) off rq sq -> is_Some (procs_of st !! j) ->
  exists s' rq' sq', (st ← sig_to addr_runout addr_proc j Sig.SIGCHLD st; st ← wake addr_runout (addr_proc j) st; wake addr_runout addr_runin st) = Ok (set_ps s' st) /\
    queues s' off rq' sq' /\ tabs kept (procs_of st) (tab s') /\ nobody (addr_proc j) s'.
Proof.
  intros Hq Hj. destruct (sig_to_ok addr_runout addr_proc Hrunout j Sig.SIGCHLD st off rq sq Hq Hj) as (s1&rq1&sq1&->&Hq1&K1); [done|]. cbn [mbind res_bind].
  destruct (wake_ok addr_runout Hrunout (addr_proc j) (set_ps s1 st) off rq1 sq1 Hq1 (Hproc j)) as (s2&rq2&sq2&->&Hq2&K2&N2). cbn [mbind res_bind].
  destruct (wake_ok addr_runout Hrunout addr_runin (set_ps s2 (set_ps s1 st)) off rq2 sq2 Hq2 Hrunin) as (s3&rq3&sq3&->&Hq3&K3&_).
  exists s3, rq3, sq3. split; [done|]. split; [done|]. split.
  - eapply (tabs_trans kept); [exact kept_trans| |exact K3]. eapply (tabs_trans kept); [exact kept_trans|exact K1|exact K2].
  - intros x p Hp. destruct (tabs_bwd _ _ _ _ _ K3 Hp) as (q&Hq'&_&_&W). destruct W as [->|E]; [by apply (N2 x)|]. rewrite E. intros E'. by apply (Hproc j).
Qed.

(** Process 1 is alive, and a child of process 0. *)
Definition booted st (A : list nat) : Prop :=
  1%nat ∈ A /\ exists p1, procs_of st !! 1%nat = Some p1 /\ p_pid p1 = 1 /\ p_pptr p1 = Some 0%nat.
(** What becomes of another process when [cur] exits. *)
Definition survives (cur : nat) (q q' : proc) : Prop :=
  p_pid q' = p_pid q /\ (p_pptr q = Some cur -> p_pptr q' = Some 1%nat /\ p_ppid q' = 1) /\
  (p_pptr q <> Some cur -> p_pptr q' = p_pptr q /\ p_ppid q' = p_ppid q).
Definition same_ids (q q' : proc) : Prop := p_pid q' = p_pid q /\ p_pptr q' = p_pptr q /\ p_ppid q' = p_ppid q.
Lemma moved_ids q q' : moved q q' -> same_ids q q'.
Proof. intros (_&_&E1&E2&_&E3&_)%moved_fields. done. Qed.
Lemma adopted_survives cur js x q q1 q' : x ∈ js -> same_ids q q1 -> kept (adopted cur js x q1) q' -> survives cur q q'.
Proof.
  intros Hx (E1&E2&E3) (E&_). unfold ident in E. injection E as _ _ _ E4 E5 E6 _ _ _. unfold adopted in *. rewrite decide_True in * by done.
  unfold survives. rewrite E4, E5, E6. unfold adopt. rewrite E2. case_decide; cbn; split_and!; done.
Qed.
Lemma exit_queues st off rq sq cur p p' st' :
  queues (ps st) off rq sq -> cur ∈ off -> procs_of st !! cur = Some p -> procs_of st' !! cur = Some p' -> qs (ps st') = qs (ps st) -> slpque (ps st') = slpque (ps st) ->
  p_link p' = p_link p -> p_wchan p' = p_wchan p -> p_stat p' = SZOMB -> (forall x, x <> cur -> option_Forall2 quiet (procs_of st !! x) (procs_of st' !! x)) ->
  queues (ps st') (filter (fun x => x <> cur) off) rq sq.
Proof.
  intros Hq Ho Hp Hp' E1 E2 El Ew Es Hx. destruct (q_off _ _ _ _ Hq _ Ho) as (Hr&p0&Hp0&_&Hw). assert (p0 = p) as -> by (unfold procs_of in Hp; congruence).
  apply (queues_quiet (set_tab (<[cur := p']> (tab (ps st))) (ps st))); [|done|done|].
  - intros x. cbn [tab set_tab]. destruct (decide (x = cur)) as [->|Hne].
    + rewrite (put _ _ _ p' Hp0). unfold procs_of in Hp'. rewrite Hp'. constructor. apply quiet_refl.
    + rewrite put_ne by done. by apply Hx.
  - eapply queues_update; [exact Hq|exact Hp0|done|done| | | | |].
    + intros ?. done.
    + intros ?. congruence.
    + intros x Hne. rewrite list_elem_of_filter. tauto.
    + intros E. rewrite Es in E. done.
    + intros [? _]%list_elem_of_filter. done.
Qed.

(** The parents after an exit. *)
Lemma exit_parents st F A Z cur p st' :
  plists st F A Z -> booted st A -> procs_of st !! cur = Some p -> p_pid p <> 1 -> cur <> 0%nat ->
  (forall x q', x ∈ A ++ Z -> procs_of st' !! x = Some q' -> exists q, procs_of st !! x = Some q /\ survives cur q q') ->
  forall x q', x ∈ A ++ Z -> x <> 0%nat -> procs_of st' !! x = Some q' -> exists j, p_pptr q' = Some j /\ j ∈ filter (fun y => y <> cur) A /\ j <> x.
Proof.
  intros [HL HP] (B1&p1&Hp1&Ep1&Epp) Hp Hpid Hc0 HB x q' Hx Hx0 Hq'. destruct (HB x q' Hx Hq') as (q&Hq&_&S1&S2).
  assert (1%nat <> cur) as H1c by (intros <-; congruence). destruct (HP x q Hx Hx0 Hq) as (j&Ej&Hj&Hjx). destruct (decide (j = cur)) as [->|Hjc].
  - exists 1%nat. destruct (S1 Ej) as [-> _]. split_and!; [done|by apply list_elem_of_filter|]. intros <-.
    assert (q = p1) as -> by congruence. congruence.
  - exists j. destruct S2 as [-> _]; [congruence|]. split_and!; [done|by apply list_elem_of_filter|done].
Qed.

(** The state exit comes to. *)
Lemma exit_run st F A Z off rq sq cur p rv msgsnd :
  plists st F A Z -> queues (ps st) off rq sq -> cur ∈ A -> cur ∈ off -> cur <> 0%nat -> procs_of st !! cur = Some p -> p_pid p <> 1 ->
  exists st1 p1 s' rq' sq' j, exit addr_runout addr_proc addr_runin cur rv msgsnd st = Ok (set_ps s' st1) /\
    lists st1 F (filter (fun x => x <> cur) A) (cur :: Z) /\ queues s' (filter (fun x => x <> cur) off) rq' sq' /\
    procs_of st1 !! cur = Some p1 /\ p_xstat p1 = rv /\ same_ids p p1 /\
    (forall x, x <> cur -> option_Forall2 moved (procs_of st !! x) (procs_of st1 !! x)) /\
    orphaned cur (filter (fun x => x <> cur) A ++ cur :: Z) (procs_of st1) (tab s') /\ p_pptr p = Some j /\ nobody (addr_proc j) s'.
Proof.
  intros HPL Hq Hcur Hoff Hc0 Hp Hpid. pose proof (pl_lists _ _ _ _ HPL) as HL. unfold exit. rewrite (upd_proc_ok _ _ _ _ Hp). cbn [mbind res_bind].
  set (p0 := set_p_sig 0 _). set (st0 := on _ st). assert (procs_of st0 !! cur = Some p0) as Hp0 by (by eapply put).
  rewrite (get_proc_ok cur st0 p0 Hp0). cbn [mbind res_bind]. change (p_pid p0) with (p_pid p). rewrite (proj2 (Z.eqb_neq _ _) Hpid).
  assert (lists st0 F A Z) as HL0 by (eapply lists_insert; [done| |done]; split_and!; auto).
  assert (queues (ps st0) off rq sq) as Hq0.
  { eapply (queues_quiet (ps st)); [|done|done|exact Hq]. apply (tabs_insert quiet _ cur p); [exact quiet_refl|done|].
    split_and!; [done..|left; split; [done|]]. cbn. autorewrite with kflags. done. }
  destruct (to_zomb_ok st0 F A Z cur p0 rv msgsnd HL0 Hcur Hc0 Hp0) as (st5&p5&->&L5&Q1&Q2&_&_&H5&M5&Mx). cbn [mbind res_bind].
  pose proof (moved_fields _ _ M5) as (F1&F2&_&_&_&_&_).
  assert (queues (ps st5) (filter (fun x => x <> cur) off) rq sq) as Hq5.
  { eapply (exit_queues st0); [exact Hq0|done|exact Hp0|exact H5|done|done|exact (eq_sym (f_equal p_link M5))|done|done|].
    intros x Hx. specialize (Mx x Hx). inversion Mx; constructor. by apply moved_quiet. }
  destruct (orphans_both cur st5 F _ _ _ _ _ L5 Hq5) as (s6&s7&rq7&sq7&->&E7&Hq7&O7). cbn [mbind res_bind]. change (zomb (set_ps s6 st5)) with (zomb st5).
  rewrite E7. cbn [mbind res_bind]. set (js := filter (fun x => x <> cur) A ++ cur :: Z) in *. assert (cur ∈ js) as Hcj by set_solver.
  destruct (tabx_fwd _ _ _ _ _ O7 H5) as (p7&Hp7&K7). rewrite (get_proc_ok cur (set_ps s7 st5) p7) by exact Hp7. cbn [mbind res_bind].
  destruct (pl_parent _ _ _ _ HPL cur p) as (j&Ej&Hj&Hjc); [set_solver|done|done|].
  pose proof (adopted_survives _ _ _ _ _ _ Hcj (moved_ids _ _ M5) K7) as (_&_&S7). destruct S7 as [E7' _]; [cbn; congruence|]. cbn [p_pptr dead set_p_stat set_p_pgrp set_p_xstat] in E7'.
  change (p_pptr p0) with (p_pptr p) in E7'. rewrite E7', Ej.
  destruct (exit_tell j (set_ps s7 st5) _ _ _ Hq7) as (s8&rq8&sq8&->&Hq8&K8&N8).
  { destruct (part_entry L5 j) as [q Hq']; [|destruct (tabx_fwd _ _ _ _ _ O7 Hq') as (q'&?&_); by eexists]. rewrite !elem_of_app, list_elem_of_filter. tauto. }
  exists st5, p5, s8, rq8, sq8, j. split; [done|]. split; [done|]. split; [done|]. split; [done|].
  split; [exact (eq_sym (f_equal p_xstat M5))|]. split; [|split; [|split; [by eapply orphaned_kept|done]]].
  - exact (moved_ids _ _ M5).
  - intros x Hx. specialize (Mx x Hx). unfold st0 in Mx. change (procs_of (on ?l st)) with l in Mx. by rewrite put_ne in Mx.
Qed.
(** (C10) The exit of a process other than 0 panics for process 1 and
    otherwise ends: the process leaves the living and its hash chain and heads
    the list of the dead with its status, its children, alive or dead, are
    handed over to process 1 and to nobody else, whoever waits for its parent
    is woken, and the lists, the hash chains and the queues of the scheduler
    stay well formed. *)
Theorem exit_spec st F A Z off rq sq cur p rv msgsnd :
  plists st F A Z -> booted st A -> queues (ps st) off rq sq -> cur ∈ A -> cur ∈ off -> cur <> 0%nat -> procs_of st !! cur = Some p ->
  if p_pid p =? 1 then exit addr_runout addr_proc addr_runin cur rv msgsnd st = Panic "init died"
  else exists st' rq' sq' p' j, exit addr_runout addr_proc addr_runin cur rv msgsnd st = Ok st' /\
    plists st' F (filter (fun x => x <> cur) A) (cur :: Z) /\ booted st' (filter (fun x => x <> cur) A) /\
    queues (ps st') (filter (fun x => x <> cur) off) rq' sq' /\
    procs_of st' !! cur = Some p' /\ p_xstat p' = rv /\ p_pid p' = p_pid p /\ p_pptr p = Some j /\ p_pptr p' = Some j /\ nobody (addr_proc j) (ps st') /\
    forall x q, x ∈ A ++ Z -> x <> cur -> procs_of st !! x = Some q -> exists q', procs_of st' !! x = Some q' /\ survives cur q q'.
Proof.
  intros HPL HB Hq Hcur Hoff Hc0 Hp. destruct (Z.eqb_spec (p_pid p) 1) as [Hpid|Hpid].
  { unfold exit. rewrite (upd_proc_ok _ _ _ _ Hp). cbn [mbind res_bind]. erewrite get_proc_ok by (eapply put; exact Hp). cbn [mbind res_bind p_pid set_p_sig set_p_sigignore set_p_flag].
    by rewrite Hpid. }
  destruct (exit_run st F A Z off rq sq cur p rv msgsnd HPL Hq Hcur Hoff Hc0 Hp Hpid) as (st1&p1&s'&rq'&sq'&j&->&L1&Hq'&Hp1&Ex&Mc&Mx&O&Ej&Hn).
  set (js := filter _ A ++ _) in *. assert (forall x, x ∈ js <-> x ∈ A ++ Z) as Hjs.
  { intros x. unfold js. rewrite !elem_of_app, elem_of_cons, list_elem_of_filter. destruct (decide (x = cur)) as [->|]; tauto. }
  assert (lists (set_ps s' st1) F (filter (fun x => x <> cur) A) (cur :: Z)) as L'.
  { eapply (lists_placed st1); [|done..|exact L1]. change (procs_of (set_ps s' st1)) with (tab s'). intros x. specialize (O x). inversion O; constructor. by eapply adopted_placed. }
  assert (forall x q', x ∈ A ++ Z -> tab s' !! x = Some q' -> exists q, procs_of st !! x = Some q /\ survives cur q q') as HS.
  { intros x q' Hx Hq0. destruct (tabx_bwd _ _ _ _ _ O Hq0) as (q1&Hq1&Hk). apply Hjs in Hx. destruct (decide (x = cur)) as [->|Hxc].
    - exists p. split; [done|]. assert (q1 = p1) as -> by congruence. by eapply adopted_survives.
    - specialize (Mx x Hxc). rewrite Hq1 in Mx. inversion Mx as [q q2 Hm E1 E2|]; subst. exists q. split; [done|]. eapply adopted_survives; [exact Hx|by apply moved_ids|done]. }
  assert (forall x q, x ∈ A ++ Z -> procs_of st !! x = Some q -> exists q', tab s' !! x = Some q' /\ survives cur q q') as HF.
  { intros x q Hx Hq0. destruct (part_entry L' x) as [q' Hq1]; [apply elem_of_app; right; by apply Hjs|]. change (procs_of _) with (tab s') in Hq1.
    destruct (HS x q' Hx Hq1) as (q0&?&?). exists q'. assert (q0 = q) as -> by congruence. done. }
  destruct (HF cur p) as (p'&Hp'&S1&_&S2); [set_solver|done|]. destruct (pl_parent _ _ _ _ HPL cur p) as (j'&Ej'&_&Hjc); [set_solver|done|done|]. assert (j' = j) as -> by congruence.
  destruct S2 as [S2 _]; [congruence|]. exists (set_ps s' st1), rq', sq', p', j. split; [done|]. split; [|split; [|split; [done|split; [done|split; [|split; [done|split; [done|split; [congruence|split; [done|]]]]]]]]].
  - split; [done|]. intros x q' Hx Hx0 Hq0. apply (exit_parents st F A Z cur p (set_ps s' st1) HPL HB Hp Hpid Hc0 HS x q'); [|done|done]. by apply (proj1 (Hjs x)).
  - destruct HB as (B1&p1'&H1&H2&H3). assert (1%nat <> cur) as H1c by (intros <-; congruence). split; [by apply list_elem_of_filter|].
    destruct (HF 1%nat p1') as (q'&Hq0&T1&_&T2); [set_solver|done|]. exists q'. destruct T2 as [T2 _]; [congruence|]. split_and!; [done|congruence..].
  - destruct (tabx_bwd _ _ _ _ _ O Hp') as (q1&Hq1&[E _]). assert (q1 = p1) as -> by congruence. unfold ident in E. injection E as _ _ _ _ _ _ _ _ E. rewrite E, <- Ex.
    unfold adopted, adopt. by repeat case_decide.
  - intros x q Hx _ Hq0. by apply HF.
Qed.
End Exit.
End Life.
