(* ===== verification/Birth.v ===== *)
(** fork and wait: newproc and fork1 make a living process of a free entry,
    wait1 a free entry of a dead child, and both keep the lists of Life. *)
From S2P Require Import Prelude Proc Sched Mem Sig Fork Plist Life.
Import Proc Sched Fork Plist Life.

Module Birth.
Implicit Types (l : list proc) (js : list nat) (st : pstate).

(** ** newproc *)

(** The ids in use allow newproc to find a new one: none is the number of the
    group of its process plus one, and those below the one noted in pidchecked
    have been looked at. *)
Definition numbered st js : Prop := forall j p, j ∈ js -> procs_of st !! j = Some p -> p_pid p <> p_pgrp p + 1 /\ known (mpid st + 1) (pidchecked st) (p_pid p).
(** What the new process has from its parent. *)
Definition inherits (cur : nat) (pp p' : proc) : Prop :=
  p_stat p' = SIDL /\ p_flag p' = SLOAD /\ p_pptr p' = Some cur /\ p_ppid p' = p_pid pp /\ p_pgrp p' = p_pgrp pp /\ p_uid p' = p_uid pp /\ p_nice p' = p_nice pp /\
  p_sigmask p' = p_sigmask pp /\ p_sigcatch p' = p_sigcatch pp /\ p_sigignore p' = p_sigignore pp /\ p_wchan p' = 0.
Lemma child_inherits cur pp m h q p' : nbr (child_of cur pp m h q) p' -> inherits cur pp p' /\ p_pid p' = m /\ p_hash p' = h /\ p_link p' = p_link q.
Proof.
  intros E. unfold inherits. split_and!;
  [exact (eq_sym (f_equal p_stat E))|exact (eq_sym (f_equal p_flag E))|exact (eq_sym (f_equal p_pptr E))|exact (eq_sym (f_equal p_ppid E))|exact (eq_sym (f_equal p_pgrp E))
  |exact (eq_sym (f_equal p_uid E))|exact (eq_sym (f_equal p_nice E))|exact (eq_sym (f_equal p_sigmask E))|exact (eq_sym (f_equal p_sigcatch E))|exact (eq_sym (f_equal p_sigignore E))
  |exact (eq_sym (f_equal p_wchan E))|exact (eq_sym (f_equal p_pid E))|exact (eq_sym (f_equal p_hash E))|exact (eq_sym (f_equal p_link E))].
Qed.

Section Newproc.
Context st (m k : Z) (F A Z : list nat) (c cur : nat) (pp q : proc) (h : option nat) (l' : list proc).
Context (HPL : plists st (c :: F) A Z) (Hcur : cur ∈ A).
Context (Hq : procs_of st !! c = Some q) (Hh : hashes st !! PIDHASH m = Some h).
Context (HA' : listed l' PrevAll (Some c) (c :: A)) (HT : tabs nbr (<[c := child_of cur pp m h q]> (procs_of st)) l').
Context (Hx : forall x, x ∉ c :: A -> l' !! x = procs_of st !! x).
Let HL := pl_lists _ _ _ _ HPL.
Let st' := relisted PrevAll l' (Some c) (set_hashes (<[PIDHASH m := Some c]> (hashes st)) (set_free (p_nxt q) (set_pids m k st))).

Lemma new_part : c ∉ A /\ c ∉ Z /\ c ∉ F /\ (forall x, x ∈ F -> x ∉ c :: A) /\ (forall x, x ∈ Z -> x ∉ c :: A).
Proof.
  pose proof (part_nodup HL) as N. cbn [app] in N. apply NoDup_cons in N as [N1 N2]. rewrite !elem_of_app in N1.
  apply NoDup_app in N2 as (_&N2&(_&N3&_)%NoDup_app). split_and!; try tauto.
  - intros x H1 [->|H2]%elem_of_cons; [tauto|]. apply (N2 x H1). set_solver.
  - intros x H1 [->|H2]%elem_of_cons; [tauto|]. by apply (N3 x H2).
Qed.
Lemma new_child : exists p', l' !! c = Some p' /\ inherits cur pp p' /\ p_pid p' = m /\ p_hash p' = h /\ p_link p' = p_link q.
Proof. destruct (tabs_fwd _ _ _ _ _ HT (put _ _ _ _ Hq)) as (p'&Hp'&Hn). exists p'. split; [done|]. by apply child_inherits. Qed.
Lemma new_others x : x <> c -> option_Forall2 nbr (procs_of st !! x) (l' !! x).
Proof. intros Hne. specialize (HT x). by rewrite put_ne in HT. Qed.
Lemma new_back x p' : x <> c -> l' !! x = Some p' -> exists p, procs_of st !! x = Some p /\ nbr p p'.
Proof. intros Hne Hp'. pose proof (new_others x Hne) as H. rewrite Hp' in H. inversion H; eauto. Qed.
Lemma new_lists : lists st' F (c :: A) Z.
Proof.
  destruct new_part as (NA&NZ&NF&HF&HZ). destruct new_child as (p'&Hp'&(Es&_)&Epid&Eh&_). pose proof (ls_zero _ _ _ _ HL) as H0.
  assert (c <> 0%nat) as Hc0 by (intros ->; done). split; change (procs_of st') with l'.
  - rewrite (tabs_length _ _ _ HT), length_insert. apply (ls_len _ _ _ _ HL).
  - destruct (ls_free _ _ _ _ HL) as (_&q'&Hq'&Hc). assert (q' = q) as -> by congruence. eapply chain_frame; [|exact Hc]. intros x ?. apply Hx. auto.
  - exact HA'.
  - eapply listed_tabs; [|apply (ls_zomb _ _ _ _ HL)]. intros j p Hj Hp. exists p. rewrite Hx by auto. done.
  - rewrite <- (ls_part _ _ _ _ HL). symmetry. apply Permutation_middle.
  - by apply list_elem_of_further.
  - rewrite filter_cons_True by done. apply (hash_cons (table_of st) (table_of st') _ c p' h); try done.
    + apply (ls_hash _ _ _ _ HL).
    + by intros [_ ?]%list_elem_of_filter.
    + by rewrite Epid.
    + by rewrite Epid.
    + intros j [_ Hj]%list_elem_of_filter. destruct (part_entry HL j) as [p Hp]; [set_solver|]. assert (j <> c) as Hjc by (by intros ->).
      pose proof (new_others j Hjc) as Ho. rewrite Hp in Ho. inversion Ho as [p0 p1 (_&_&?&?&_)%nbr_fields E0 E1|]; subst. exists p, p1. done.
  - intros x p Hi Hp. rewrite Hx in Hp by auto. apply (ls_idle _ _ _ _ HL x); [set_solver|done].
  - intros x p Hi Hp. destruct (decide (x = c)) as [->|Hne]; [assert (p = p') as -> by congruence; unfold alive; by rewrite Es|].
    destruct (new_back x p Hne Hp) as (p0&Hp0&(E&_)%nbr_fields). unfold alive. rewrite E. apply (ls_alive _ _ _ _ HL x); [set_solver|done].
  - intros x p Hi Hp. rewrite Hx in Hp by auto. by apply (ls_dead _ _ _ _ HL x).
Qed.
Lemma new_plists : plists st' F (c :: A) Z.
Proof.
  split; [exact new_lists|]. intros x p Hi H0 Hp. change (procs_of st') with l' in Hp. destruct new_part as (NA&_). destruct (decide (x = c)) as [->|Hne].
  - destruct new_child as (p'&Hp'&(_&_&Ep&_)&_). exists cur. split_and!; [congruence|set_solver|by intros ->].
  - destruct (new_back x p Hne Hp) as (p0&Hp0&(_&_&_&_&E&_)%nbr_fields). destruct (pl_parent _ _ _ _ HPL x p0) as (j&Ej&Hj&Hjx); [set_solver|done|done|].
    exists j. split_and!; [congruence|set_solver|done].
Qed.
Lemma new_queues off rq sq : queues (ps st) off rq sq -> queues (ps st') off rq sq.
Proof.
  intros HQ. apply (queues_quiet (ps st)); [|done|done|done]. change (tab (ps st')) with l'. intros x. destruct (decide (x = c)) as [->|Hne].
  - destruct new_child as (p'&Hp'&(Es&_&_&_&_&_&_&_&_&_&Ew)&_&_&El). unfold procs_of in Hq. rewrite Hq, Hp'. constructor.
    destruct (ls_idle _ _ _ _ HL c q) as [E1 E2]; [set_solver|done|]. split_and!; [done|congruence|]. right. rewrite E1, E2, Es. done.
  - pose proof (new_others x Hne) as Ho. unfold procs_of in Ho. inversion Ho; constructor. by apply quiet_nbr.
Qed.
End Newproc.

(** What newproc has done when the child [c] is made of a free entry. *)
Record created st st' (F A Z : list nat) (c cur : nat) (pp : proc) : Prop := {
  cr_plists : plists st' F (c :: A) Z;
  cr_booted : booted st A -> booted st' (c :: A);
  cr_child : exists p', procs_of st' !! c = Some p' /\ inherits cur pp p' /\ p_pid p' = mpid st';
  cr_ids : 0 < mpid st' < MAXPID /\ pidchecked st' <= MAXPID;
  cr_fresh : numbered st (A ++ Z) ->
    (forall j p, j ∈ A ++ Z -> procs_of st !! j = Some p -> p_pid p <> mpid st') /\
    (forall j p, j ∈ c :: A ++ Z -> procs_of st' !! j = Some p -> known (mpid st' + 1) (pidchecked st') (p_pid p)) /\
    pfind (table_of st') (mpid st') = Ok (Some c);
  cr_others : forall x, x <> c -> option_Forall2 nbr (procs_of st !! x) (procs_of st' !! x) }.

Lemma new_fresh st st' F A Z c m0 c0 :
  lists st' F (c :: A) Z -> picked st A Z m0 c0 (mpid st') (pidchecked st') ->
  (forall j p, j ∈ A ++ Z -> procs_of st !! j = Some p -> p_pid p <> p_pgrp p + 1 /\ known m0 c0 (p_pid p)) ->
  (forall x, x <> c -> option_Forall2 nbr (procs_of st !! x) (procs_of st' !! x)) -> c ∉ A -> c <> 0%nat ->
  (exists p', procs_of st' !! c = Some p' /\ p_pid p' = mpid st') ->
  (forall j p, j ∈ A ++ Z -> procs_of st !! j = Some p -> p_pid p <> mpid st') /\
  (forall j p, j ∈ c :: A ++ Z -> procs_of st' !! j = Some p -> known (mpid st' + 1) (pidchecked st') (p_pid p)) /\
  pfind (table_of st') (mpid st') = Ok (Some c).
Proof.
  intros HL' (P1&P2&P3) HN Ho HcA Hc0 (p'&Hp'&Ep).
  assert (forall j p, j ∈ A ++ Z -> procs_of st !! j = Some p -> clear (mpid st') (pidchecked st') (p_pid p)) as HC by (intros j p Hj Hp; destruct (HN j p Hj Hp); by apply (P3 j p)).
  assert (forall j p, j ∈ A ++ Z -> procs_of st !! j = Some p -> p_pid p <> mpid st') as HD by (intros j p Hj Hp; destruct (HC j p Hj Hp); lia).
  assert (forall j q', j <> c -> procs_of st' !! j = Some q' -> exists q, procs_of st !! j = Some q /\ p_pid q' = p_pid q) as HB.
  { intros j q' Hj Hq'. specialize (Ho j Hj). rewrite Hq' in Ho. inversion Ho as [q q0 (_&_&_&?&_)%nbr_fields E1 E2|]; subst. eauto. }
  split; [done|]. split.
  - intros j q' Hj Hq' Hlt. destruct (decide (j = c)) as [->|Hne]; [assert (q' = p') as -> by congruence; left; lia|].
    destruct (HB j q' Hne Hq') as (q&Hq&->). destruct (HC j q) as [?|?]; [set_solver|done|left; lia|by right].
  - destruct (pfind_live _ _ (mpid st') (ls_hash _ _ _ _ HL')) as (r&->&Hr). destruct r as [i|].
    + destruct Hr as ([_ Hi]%list_elem_of_filter&q&Hq&Eq). destruct (decide (i = c)) as [->|Hne]; [done|]. destruct (HB i q Hne Hq) as (q0&Hq0&E0).
      destruct (HD i q0); [set_solver|done|congruence].
    + destruct (Hr c p'); [|done|done]. apply list_elem_of_filter. split; [done|apply list_elem_of_here].
Qed.
Lemma newproc_ok st F A Z c cur pp :
  plists st (c :: F) A Z -> cur ∈ A -> procs_of st !! cur = Some pp -> 0 <= mpid st -> pidchecked st <= MAXPID ->
  exists st', newproc cur st = Ok (c, st') /\ created st st' F A Z c cur pp /\
    forall off rq sq, queues (ps st) off rq sq -> queues (ps st') off rq sq.
Proof.
  intros HPL Hcur Hpp Hm Hk. destruct (newproc_run st F A Z c cur pp (pl_lists _ _ _ _ HPL) Hcur Hpp Hm Hk) as (m&k&h&q&l'&->&HP&Hq&Hh&HA'&HT&Hx).
  set (st' := relisted _ _ _ _). exists st'. split; [done|].
  assert (plists st' F (c :: A) Z) as HPL' by (unfold st'; eapply new_plists; eassumption).
  assert (c ∉ A) as NA by (edestruct new_part as (?&_); eassumption).
  assert (exists p', l' !! c = Some p' /\ inherits cur pp p' /\ p_pid p' = m /\ p_hash p' = h /\ p_link p' = p_link q) as (p'&Hp'&Hi&Ep&_) by (eapply new_child; eassumption).
  assert (forall x, x <> c -> option_Forall2 nbr (procs_of st !! x) (procs_of st' !! x)) as Ho by (eapply new_others; eassumption).
  assert (c <> 0%nat) as Hc0 by (intros ->; apply NA, (ls_zero _ _ _ _ (pl_lists _ _ _ _ HPL))).
  split; [|intros off rq sq; eapply new_queues; eassumption]. split.
  - done.
  - intros (B1&p1&Hp1&E1&E2). split; [by apply list_elem_of_further|]. assert (1%nat <> c) as H1 by (by intros <-). specialize (Ho 1%nat H1). rewrite Hp1 in Ho.
    inversion Ho as [q0 q1 (_&_&_&?&?&_)%nbr_fields E3 E4|]; subst. exists q1. split_and!; [done|congruence..].
  - by exists p'.
  - destruct HP as (?&?&_). change (mpid st') with m. change (pidchecked st') with k. lia.
  - intros HN. eapply (new_fresh st st' F A Z c (mpid st + 1) (pidchecked st)); [apply (pl_lists _ _ _ _ HPL')|exact HP|exact HN|exact Ho|done|done|by exists p'].
  - exact Ho.
Qed.

(** ** fork1 *)

(** How many of the processes belong to the user. *)
Definition owned l (uid : Z) js : nat := length (List.filter (fun j => match l !! j with Some p => u32 (p_uid p) =? uid | None => false end) js).
Lemma count_uid_ok l uid js : forall fuel h a, chain p_nxt l h js -> (length js < fuel)%nat -> count_uid fuel l h uid a = Ok (a + Z.of_nat (owned l uid js)).
Proof.
  induction js as [|i js IH]; intros [|fuel] h a Hc Hf; simpl in Hf; try lia; cbn [count_uid].
  - simpl in Hc. subst h. f_equal. cbn. lia.
  - destruct Hc as (->&p&Hi&Hc). rewrite (rd_Some _ _ _ Hi). cbn [mbind res_bind]. rewrite IH by (done || lia). f_equal. unfold owned. cbn [List.filter]. rewrite Hi.
    destruct (u32 (p_uid p) =? uid); cbn [length]; lia.
Qed.
Lemma owned_app l uid js js' : owned l uid (js ++ js') = (owned l uid js + owned l uid js')%nat.
Proof. unfold owned. by rewrite List.filter_app, length_app. Qed.
(** When fork is refused: the table is full, or for an ordinary user one entry
    is left or the user has more than MAXUPRC processes. *)
Definition refused st (uid : Z) (F js : list nat) : bool :=
  bool_decide (F = []) || negb (uid =? 0) && (bool_decide (length F = 1%nat) || (MAXUPRC <? Z.of_nat (owned (procs_of st) uid js))).
(** (C9) fork is refused with EAGAIN, and changes nothing, exactly when the
    table is full or, for a user other than 0, when one entry is left or the
    user has more than MAXUPRC processes; otherwise it ends, and the first
    free entry becomes a living process, at the head of allproc and in its
    hash chain, with the parent's group, user and signal state.  Its id is in
    (0, MAXPID); if no process has the id after the one of its group, no
    living or dead process has it and pfind finds the child by it. *)
Theorem fork1_spec st F A Z off rq sq cur pp uid :
  plists st F A Z -> queues (ps st) off rq sq -> cur ∈ A -> procs_of st !! cur = Some pp -> 0 <= mpid st -> pidchecked st <= MAXPID ->
  if refused st uid F (A ++ Z) then fork1 uid cur st = Ok (inl EAGAIN)
  else exists c F' st', F = c :: F' /\ fork1 uid cur st = Ok (inr (c, st')) /\ created st st' F' A Z c cur pp /\ queues (ps st') off rq sq.
Proof.
  intros HPL HQ Hcur Hpp Hm Hk. pose proof (pl_lists _ _ _ _ HPL) as HL. destruct (ls_all _ _ _ _ HL) as [CA _ NA]. destruct (ls_zomb _ _ _ _ HL) as [CZ _ NZ].
  pose proof (chain_length _ _ _ _ CA NA). pose proof (chain_length _ _ _ _ CZ NZ). unfold fork1.
  assert (exists a, (if negb (uid =? 0) then a ← count_uid (S (length (procs_of st))) (procs_of st) (all st) uid 0;
      count_uid (S (length (procs_of st))) (procs_of st) (zomb st) uid a else Ok 0) = Ok a /\
    negb (uid =? 0) && (MAXUPRC <? a) = negb (uid =? 0) && (MAXUPRC <? Z.of_nat (owned (procs_of st) uid (A ++ Z)))) as (a&->&Ea).
  { destruct (uid =? 0); cbn [negb andb]; [by exists 0|]. rewrite (count_uid_ok _ _ A) by (done || lia). cbn [mbind res_bind]. rewrite (count_uid_ok _ _ Z) by (done || lia).
    eexists. split; [done|]. rewrite owned_app. f_equal. lia. }
  cbn [mbind res_bind]. pose proof (ls_free _ _ _ _ HL) as HF. unfold refused. destruct F as [|c F]; [simpl in HF; by rewrite HF|]. destruct HF as (Ef&q&Hq&HF). rewrite Ef.
  rewrite (get_proc_ok _ _ _ Hq). cbn [mbind res_bind]. assert (bool_decide (p_nxt q = None) = bool_decide (length (c :: F) = 1%nat)) as ->.
  { apply bool_decide_ext. rewrite (chain_head _ _ _ _ HF). destruct F; [tauto|]. split; [done|simpl; lia]. }
  rewrite (bool_decide_false (c :: F = [])) by done. cbn [orb]. replace (negb (uid =? 0) && (bool_decide (length (c :: F) = 1%nat) || (MAXUPRC <? a))) with
    (negb (uid =? 0) && (bool_decide (length (c :: F) = 1%nat) || (MAXUPRC <? Z.of_nat (owned (procs_of st) uid (A ++ Z))))) by (destruct (negb (uid =? 0)); cbn [andb] in *; by rewrite ?Ea).
  case_if; [done|].
  destruct (newproc_ok st F A Z c cur pp HPL Hcur Hpp Hm Hk) as (st'&->&HC&HQ'). exists c, F, st'. split_and!; [done..|by apply HQ'].
Qed.

(** ** wait1 *)

Lemma reap_ok st F A (z1 z2 : list nat) i q :
  lists st F A (z1 ++ i :: z2) -> procs_of st !! i = Some q ->
  exists st' q', reap i st = Ok st' /\ lists st' (i :: F) A (z1 ++ z2) /\ qs (ps st') = qs (ps st) /\ slpque (ps st') = slpque (ps st) /\
    mpid st' = mpid st /\ pidchecked st' = pidchecked st /\ procs_of st' !! i = Some q' /\ p_stat q' = 0 /\ p_wchan q' = 0 /\ p_link q' = p_link q /\
    forall x, x <> i -> option_Forall2 nbr (procs_of st !! x) (procs_of st' !! x).
Proof.
  intros HL Hi. pose proof (part_split HL) as HS. assert (i ∉ F /\ i ∉ A) as [HiF HiA] by (destruct (HS i) as [(_&_&H)|[(_&_&H)|(?&?&_)]]; [set_solver|set_solver..|done]).
  destruct (ls_zomb _ _ _ _ HL) as [_ _ NZ]. pose proof NZ as (_&Z1&[Z2 _]%NoDup_cons)%NoDup_app.
  assert (i ∉ z1) as Hi1 by (intros Hx; eapply Z1; [exact Hx|apply list_elem_of_here]).
  unfold reap. rewrite (upd_proc_ok _ _ _ _ Hi). cbn [mbind res_bind]. set (st1 := on _ st). assert (procs_of st1 !! i = Some (buried q)) as Hi1' by (by eapply put).
  destruct (off_list_ok st1 PrevZomb i z1 z2 (buried q)) as (lb&h&->&HZ&Hb&Tb&Xb); [by right| |done|].
  { eapply listed_tabs; [|apply (ls_zomb _ _ _ _ HL)]. intros j p Hj Hp. unfold st1. change (procs_of (on ?l st)) with l.
    destruct (decide (j = i)) as [->|Hne]; [rewrite (put _ _ _ _ Hi); assert (p = q) as -> by congruence; by eexists|rewrite put_ne by done; by exists p]. }
  cbn [mbind res_bind]. set (st2 := relisted PrevZomb lb h st1). rewrite (upd_proc_ok i _ st2 (buried q)) by exact Hb. cbn [mbind res_bind].
  change (procs_of st2) with lb. change (free st2) with (free st). set (st3 := set_free _ _).
  rewrite (upd_proc_ok i _ st3 (set_p_nxt (free st) (buried q))) by (change (procs_of st3) with (<[i := set_p_nxt (free st) (buried q)]> lb); by eapply put).
  change (procs_of st3) with (<[i := set_p_nxt (free st) (buried q)]> lb). rewrite list_insert_insert_eq. set (qe := emptied _). set (le := <[i := qe]> lb). set (st' := on le st3).
  exists st', qe. split; [done|]. assert (le !! i = Some qe) as He by (unfold le; by eapply put). change (procs_of st') with le.
  assert (forall x, x <> i -> option_Forall2 nbr (procs_of st !! x) (le !! x)) as HN.
  { intros x Hx. unfold le. rewrite put_ne by done. specialize (Tb x). unfold st1 in Tb. change (procs_of (on ?l st)) with l in Tb. by rewrite put_ne in Tb. }
  assert (forall x, x ∉ i :: z1 ++ z2 -> le !! x = procs_of st !! x) as HX.
  { intros x Hx. unfold le. rewrite put_ne, Xb by set_solver. unfold st1. change (procs_of (on ?l st)) with l. apply put_ne. set_solver. }
  assert (forall x, x ∈ F \/ x ∈ A -> x ∉ i :: z1 ++ z2) as HD.
  { intros x Hx. destruct (HS x) as [(_&_&H)|[(_&_&H)|(?&?&_)]]; [set_solver|set_solver..|tauto]. }
  split; [|split_and!; done]. split; change (procs_of st') with le.
  - unfold le. rewrite length_insert, (tabs_length _ _ _ Tb). unfold st1. change (procs_of (on ?l st)) with l. rewrite length_insert. apply (ls_len _ _ _ _ HL).
  - split; [done|]. exists qe. split; [done|]. eapply chain_frame; [|apply (ls_free _ _ _ _ HL)]. intros x Hx. apply HX. auto.
  - eapply listed_tabs; [|apply (ls_all _ _ _ _ HL)]. intros j p Hj Hp. exists p. rewrite HX by auto. done.
  - eapply listed_tabs; [|exact HZ]. intros j p Hj Hp. exists p. unfold le. rewrite put_ne by set_solver. done.
  - rewrite <- (ls_part _ _ _ _ HL). cbn. rewrite !Permutation_middle. by rewrite <- (Permutation_middle z1), <- (Permutation_middle A).
  - apply (ls_zero _ _ _ _ HL).
  - apply (hash_same (table_of st)); [done| |apply (ls_hash _ _ _ _ HL)]. intros j [_ Hj]%list_elem_of_filter.
    destruct (part_entry HL j) as [p Hp]; [set_solver|]. exists p, p. change (procs (table_of st')) with le. rewrite HX by auto. done.
  - intros j p [->|Hj]%elem_of_cons Hp; [assert (p = qe) as -> by congruence; done|]. rewrite HX in Hp by auto. by apply (ls_idle _ _ _ _ HL j).
  - intros j p Hj Hp. rewrite HX in Hp by auto. by apply (ls_alive _ _ _ _ HL j).
  - intros j p Hj Hp. assert (j <> i) as Hne by set_solver. specialize (HN j Hne). rewrite Hp in HN. inversion HN as [p0 p1 (E&_)%nbr_fields E1 E2|]; subst.
    rewrite E. apply (ls_dead _ _ _ _ HL j p0); [set_solver|done].
Qed.

(** The children that are asked for, and those that stopped and were not
    reported yet. *)
Definition asked l (cur : nat) (a : wargs) (i : nat) : bool := match l !! i with Some p => wanted cur (w_pid a) p | None => false end.
Definition halted l (cur : nat) (a : wargs) (i : nat) : bool :=
  match l !! i with
  | Some p => wanted cur (w_pid a) p && ((p_stat p =? SSTOP) && negb (flag_on (p_flag p) P_WAITED) && (flag_on (p_flag p) P_TRACED || flag_on (w_options a) WUNTRACED))
  | None => false
  end.
Definition unwritable (x n : Z) : bool := negb (out_error x n =? 0).
Lemma out_error_unwritable x n : out_error x n = if unwritable x n then Mem.EFAULT else 0.
Proof. unfold unwritable, out_error. repeat case_match; done. Qed.
Definition reported (p : proc) : proc := set_p_flag (flag_set (p_flag p) P_WAITED) p.
Definition stop_status (a : wargs) (q : proc) : option Z := if w_status a =? 0 then None else Some (Z.lor (Z.shiftl (p_ptracesig q) 8) WSTOPPED).

Lemma wait_zomb_run st cur a js : forall fuel h, chain p_nxt (procs_of st) h js -> (length js < fuel)%nat ->
  wait_zomb fuel cur a h st =
  match List.find (asked (procs_of st) cur a) js with
  | None => Ok None
  | Some i => q ← get_proc st i;
      if unwritable (w_status a) 4 || unwritable (w_rusage a) RUSAGE_SIZE then Ok (Some (WError Mem.EFAULT st))
      else st' ← reap i st; Ok (Some (WFound (p_pid q) (Some (p_xstat q)) st'))
  end.
Proof.
  induction js as [|i js IH]; intros [|fuel] h Hc Hf; simpl in Hf; try lia; cbn [wait_zomb List.find].
  - simpl in Hc. by subst h.
  - destruct Hc as (->&p&Hi&Hc). rewrite (get_proc_ok _ _ _ Hi). cbn [mbind res_bind]. unfold asked at 1. rewrite Hi. destruct (wanted cur (w_pid a) p); [|apply IH; [done|lia]].
    rewrite (get_proc_ok _ _ _ Hi). cbn [mbind res_bind]. rewrite !out_error_unwritable. destruct (unwritable (w_status a) 4), (unwritable (w_rusage a) RUSAGE_SIZE); done.
Qed.
Lemma wait_all_run st cur a js : forall fuel h n, chain p_nxt (procs_of st) h js -> (length js < fuel)%nat ->
  wait_all fuel cur a h n st =
  match List.find (halted (procs_of st) cur a) js with
  | None => Ok (inl (n + Z.of_nat (length (List.filter (asked (procs_of st) cur a) js))))
  | Some i => q ← get_proc st i; st' ← upd_proc i reported st;
      Ok (inr (if unwritable (w_status a) 4 then WError Mem.EFAULT st' else WFound (p_pid q) (stop_status a q) st'))
  end.
Proof.
  induction js as [|i js IH]; intros [|fuel] h n Hc Hf; simpl in Hf; try lia; cbn [wait_all List.find List.filter].
  - simpl in Hc. subst h. f_equal. f_equal. simpl. lia.
  - destruct Hc as (->&p&Hi&Hc). rewrite (get_proc_ok _ _ _ Hi). cbn [mbind res_bind]. unfold halted at 1, asked at 1. rewrite Hi. destruct (wanted cur (w_pid a) p); cbn [andb].
    + destruct (_ && _ && _); cbn [length].
      * rewrite (get_proc_ok _ _ _ Hi). cbn [mbind res_bind]. rewrite (upd_proc_ok i _ st p Hi). cbn [mbind res_bind]. rewrite (upd_proc_ok i _ st p Hi). cbn [mbind res_bind].
        rewrite out_error_unwritable. destruct (unwritable (w_status a) 4); done.
      * rewrite IH by (done || lia). case_match; [done|]. f_equal. f_equal. lia.
    + apply IH; [done|lia].
Qed.
(** The arguments with the caller's own group for pid 0. *)
Definition own_group (c : proc) (a : wargs) : wargs := if w_pid a =? WAIT_MYPGRP then MkWargs (- p_pgrp c) (w_status a) (w_options a) (w_rusage a) else a.

Lemma reap_plists st F A Z off rq sq i q :
  plists st F A Z -> queues (ps st) off rq sq -> i ∈ Z -> procs_of st !! i = Some q ->
  exists st', reap i st = Ok st' /\ plists st' (i :: F) A (filter (fun x => x <> i) Z) /\ queues (ps st') off rq sq /\
    (booted st A -> booted st' A) /\ forall x, x <> i -> option_Forall2 nbr (procs_of st !! x) (procs_of st' !! x).
Proof.
  intros [HL HP] HQ Hi Hq. pose proof Hi as (z1&z2&EZ)%list_elem_of_split. destruct (ls_zomb _ _ _ _ HL) as [_ _ NZ]. rewrite EZ in NZ.
  assert (p_wchan q = 0) as Hw.
  { destruct (Z.eq_dec (p_wchan q) 0) as [|Hne]; [done|]. pose proof (ls_dead _ _ _ _ HL i q Hi Hq) as Es. destruct (q_slp_stat _ _ _ _ HQ i q Hq Hne) as [E|E]; rewrite Es in E; done. }
  assert (i ∉ A) as HiA by (destruct (part_split HL i) as [(_&_&H)|[(_&_&H)|(_&?&_)]]; [set_solver|done..]).
  pose proof (ls_dead _ _ _ _ HL i q Hi Hq) as Es. rewrite EZ in HL. destruct (reap_ok st F A z1 z2 i q HL Hq) as (st'&q'&->&HL'&Q1&Q2&_&_&Hq'&S1&W1&K1&HN).
  rewrite EZ, filter_ne by done. exists st'. split; [done|].
  assert (forall x p', x <> i -> procs_of st' !! x = Some p' -> exists p, procs_of st !! x = Some p /\ nbr p p') as HB.
  { intros x p' Hx Hp'. specialize (HN x Hx). rewrite Hp' in HN. inversion HN; eauto. }
  split; [split; [done|]|split; [|split; [|done]]].
  - intros x p' Hx Hx0 Hp'. assert (x <> i) as Hxi by (intros ->; apply NoDup_app in NZ as (_&N2&[N3 _]%NoDup_cons); specialize (N2 i); set_solver).
    destruct (HB x p' Hxi Hp') as (p&Hp&(_&_&_&_&->&_)%nbr_fields). apply (HP x p); [|done|done]. rewrite EZ. set_solver.
  - apply (queues_quiet (ps st)); [|done|done|done]. intros x. destruct (decide (x = i)) as [->|Hne].
    + unfold procs_of in Hq, Hq'. rewrite Hq, Hq'. constructor. split_and!; [done|congruence|]. right. by rewrite Es, S1, Hw.
    + specialize (HN x Hne). unfold procs_of in HN. inversion HN; constructor. by apply quiet_nbr.
  - intros (B1&p1&Hp1&E1&E2). split; [done|]. assert (1%nat <> i) as H1 by (by intros <-). specialize (HN 1%nat H1). rewrite Hp1 in HN.
    inversion HN as [q0 q1 (_&_&_&?&?&_)%nbr_fields E3 E4|]; subst. exists q1. split_and!; [done|congruence..].
Qed.

(** A turn of wait1 by the code's own tests. *)
Lemma wait1_run st F A Z off rq sq cur c a :
  plists st F A Z -> queues (ps st) off rq sq -> procs_of st !! cur = Some c ->
  let a' := own_group c a in
  match List.find (asked (procs_of st) cur a') Z with
  | Some i =>
      if unwritable (w_status a) 4 || unwritable (w_rusage a) RUSAGE_SIZE then wait1 cur a st = Ok (WError Mem.EFAULT st)
      else exists q st', procs_of st !! i = Some q /\ wait1 cur a st = Ok (WFound (p_pid q) (Some (p_xstat q)) st') /\
        plists st' (i :: F) A (filter (fun x => x <> i) Z) /\ queues (ps st') off rq sq /\ (booted st A -> booted st' A) /\
        forall x, x <> i -> option_Forall2 nbr (procs_of st !! x) (procs_of st' !! x)
  | None =>
      match List.find (halted (procs_of st) cur a') A with
      | Some i => exists q, procs_of st !! i = Some q /\
          let st' := on (<[i := reported q]> (procs_of st)) st in
          wait1 cur a st = Ok (if unwritable (w_status a) 4 then WError Mem.EFAULT st' else WFound (p_pid q) (stop_status a q) st') /\
          plists st' F A Z /\ queues (ps st') off rq sq
      | None => wait1 cur a st = Ok (if List.existsb (asked (procs_of st) cur a') A then if flag_on (w_options a) WNOHANG then WFound 0 None st else WSleep st
                                     else WError ECHILD st)
      end
  end.
Proof.
  intros HPL HQ Hcur a'. pose proof (pl_lists _ _ _ _ HPL) as HL. destruct (ls_all _ _ _ _ HL) as [CA _ NA]. destruct (ls_zomb _ _ _ _ HL) as [CZ _ NZ].
  pose proof (chain_length _ _ _ _ CA NA). pose proof (chain_length _ _ _ _ CZ NZ). unfold wait1. rewrite (get_proc_ok _ _ _ Hcur). cbn [mbind res_bind].
  fold (own_group c a). fold a'. assert (w_status a' = w_status a /\ w_rusage a' = w_rusage a /\ w_options a' = w_options a) as (Es&Er&Eo) by (unfold a', own_group; by case_match).
  rewrite (wait_zomb_run st cur a' Z) by (done || lia). rewrite Es, Er. destruct (List.find (asked (procs_of st) cur a') Z) as [i|] eqn:Ef.
  { apply List.find_some in Ef as [Hi%list_elem_of_In _]. destruct (part_entry HL i) as [q Hq]; [set_solver|]. rewrite (get_proc_ok _ _ _ Hq). cbn [mbind res_bind].
    case_if; [done|]. destruct (reap_plists st F A Z off rq sq i q HPL HQ Hi Hq) as (st'&->&?&?&?&?). exists q, st'. done. }
  cbn [mbind res_bind]. rewrite (wait_all_run st cur a' A) by (done || lia). destruct (List.find (halted (procs_of st) cur a') A) as [i|] eqn:Eh.
  - apply List.find_some in Eh as [Hi%list_elem_of_In _]. destruct (part_entry HL i) as [q Hq]; [set_solver|]. rewrite (get_proc_ok _ _ _ Hq), (upd_proc_ok _ _ _ _ Hq). cbn [mbind res_bind].
    exists q. split; [done|]. rewrite Es. unfold stop_status. rewrite Es. split; [done|]. split.
    + split; [eapply lists_insert; [done| |done]; split_and!; auto|]. intros x p Hx Hx0 Hp. change (procs_of _) with (<[i := reported q]> (procs_of st)) in Hp.
      destruct (decide (x = i)) as [->|Hne]; [rewrite (put _ _ _ _ Hq) in Hp; injection Hp as <-; by apply (pl_parent _ _ _ _ HPL i q)|].
      rewrite put_ne in Hp by done. by apply (pl_parent _ _ _ _ HPL x p).
    + eapply (queues_quiet (ps st)); [|done|done|exact HQ]. apply (tabs_insert quiet _ i q); [exact quiet_refl|done|].
      split_and!; [done..|left; split; [done|]]. cbn. autorewrite with kflags. done.
  - cbn [mbind res_bind]. rewrite Eo, Z.add_0_l. assert (forall js, (Z.of_nat (length (List.filter (asked (procs_of st) cur a') js)) =? 0) = negb (List.existsb (asked (procs_of st) cur a') js)) as ->.
    { intros js. destruct (List.existsb _ js) eqn:Ee; cbn [negb].
      - apply List.existsb_exists in Ee as (x&Hx&Ha). apply Z.eqb_neq. pose proof (proj2 (List.filter_In (asked (procs_of st) cur a') x js) (conj Hx Ha)) as Hi. destruct (List.filter _ _); [done|]. simpl. lia.
      - apply Z.eqb_eq. replace (List.filter (asked (procs_of st) cur a') js) with (@nil nat); [done|]. induction js as [|y js IH]; [done|]. cbn in *. apply orb_false_iff in Ee as [-> Ee]. auto. }
    destruct (List.existsb _ A); cbn [negb]; [|done]. case_if; done.
Qed.

(** *** The children a caller asks for

    [pid] as wait4 documents it: -1 asks for every child, 0 for those in the
    caller's group, a positive number for the child with that id, another
    negative one for the group of its opposite.  As the code writes the
    caller's group as a negative number first, 0 asks for every child when the
    group is 1. *)
Definition asks_for (c : proc) (pid : Z) (p : proc) : Prop :=
  if decide (pid = 0) then p_pgrp c = 1 \/ p_pgrp p = p_pgrp c \/ p_pid p = - p_pgrp c
  else pid = -1 \/ p_pid p = pid \/ p_pgrp p = - pid.
Definition child_asked (cur : nat) (c : proc) (pid : Z) (p : proc) : Prop := p_pptr p = Some cur /\ asks_for c pid p.
(** A stopped child to report: its tracer or the option asks for it, once. *)
Definition child_stopped (cur : nat) (c : proc) (pid options : Z) (p : proc) : Prop :=
  child_asked cur c pid p /\ p_stat p = SSTOP /\ flag_on (p_flag p) P_WAITED = false /\
  (flag_on (p_flag p) P_TRACED = true \/ flag_on options WUNTRACED = true).
#[export] Instance child_asked_dec cur c pid p : Decision (child_asked cur c pid p).
Proof. unfold child_asked, asks_for. destruct (decide (pid = 0)); apply _. Defined.
#[export] Instance child_stopped_dec cur c pid options p : Decision (child_stopped cur c pid options p).
Proof. apply _. Defined.
(** The entry [i] of the table is such a process. *)
Definition entry_is (P : proc -> Prop) `{forall p, Decision (P p)} l (i : nat) : bool :=
  match l !! i with Some p => bool_decide (P p) | None => false end.
(** A place given to copy out to, the first or last byte of which is outside
    of user memory. *)
Definition user_byte (x : Z) : Prop :=
  Mem.USER_FLASH_START <= x < Mem.USER_FLASH_END \/ Mem.USER_DATA_START <= x < Mem.USER_DATA_END.
Definition bad_place (x n : Z) : Prop := x <> 0 /\ (~ user_byte x \/ ~ user_byte (u32 (x + n - 1))).

Lemma wanted_asked cur c a p : wanted cur (w_pid (own_group c a)) p = bool_decide (child_asked cur c (w_pid a) p).
Proof.
  apply eq_true_iff_eq. rewrite bool_decide_eq_true. unfold wanted, child_asked, asks_for, own_group. change WAIT_MYPGRP with 0. change WAIT_ANY with (-1).
  rewrite andb_true_iff, bool_decide_eq_true. apply and_iff_compat_l. destruct (Z.eqb_spec (w_pid a) 0), (decide (w_pid a = 0)); try done; cbn [w_pid]; lia.
Qed.
Lemma asked_entry l cur c a i : asked l cur (own_group c a) i = entry_is (child_asked cur c (w_pid a)) l i.
Proof. unfold asked, entry_is. destruct (l !! i); [|done]. apply wanted_asked. Qed.
Lemma halted_entry l cur c a i : halted l cur (own_group c a) i = entry_is (child_stopped cur c (w_pid a) (w_options a)) l i.
Proof.
  unfold halted, entry_is. destruct (l !! i) as [p|]; [|done]. rewrite wanted_asked. apply eq_true_iff_eq.
  replace (w_options (own_group c a)) with (w_options a) by (unfold own_group; by case_match).
  unfold child_stopped. rewrite !andb_true_iff, orb_true_iff, negb_true_iff, Z.eqb_eq, !bool_decide_eq_true. tauto.
Qed.
Lemma unwritable_bad x n : unwritable x n = true <-> bad_place x n.
Proof.
  unfold unwritable, out_error, bad_place, user_byte. rewrite negb_true_iff, Z.eqb_neq. rewrite <- !Mem.baduaddr_spec, !not_false_iff_true.
  destruct (Z.eqb_spec x 0); [tauto|]. destruct (Mem.baduaddr x), (Mem.baduaddr (u32 (x + n - 1))); cbn; unfold Mem.EFAULT; intuition congruence.
Qed.
Lemma find_ext {T} (f g : T -> bool) (js : list T) : (forall x, f x = g x) -> List.find f js = List.find g js.
Proof. intros E. induction js as [|x js IH]; [done|]. cbn. by rewrite E, IH. Qed.
Lemma existsb_ext {T} (f g : T -> bool) (js : list T) : (forall x, f x = g x) -> List.existsb f js = List.existsb g js.
Proof. intros E. induction js as [|x js IH]; [done|]. cbn. by rewrite E, IH. Qed.
Lemma find_entry P `{forall p, Decision (P p)} l js i :
  List.find (entry_is P l) js = Some i -> exists q, l !! i = Some q /\ P q.
Proof.
  intros [_ E]%List.find_some. unfold entry_is in E. destruct (l !! i) as [q|]; [|done]. apply bool_decide_eq_true in E. eauto.
Qed.

(** (C21) A turn of wait1 always ends.  If a child that is asked for is dead,
    the first one of the list of the dead is taken: with a bad address the
    call fails with EFAULT and nothing has changed, else its id and status are
    returned and its entry goes to the free list.  Else the first stopped child
    that is to be reported is, and marked.  Else the call fails with ECHILD
    when no living child is asked for, returns 0 under WNOHANG, and sleeps
    otherwise, and nothing has changed.  A process of another parent is never
    taken or reported.  The lists, the hash chains and the queues of the
    scheduler stay well formed. *)
Theorem wait1_spec st F A Z off rq sq cur c a :
  plists st F A Z -> queues (ps st) off rq sq -> procs_of st !! cur = Some c ->
  match List.find (entry_is (child_asked cur c (w_pid a)) (procs_of st)) Z with
  | Some i => exists q, procs_of st !! i = Some q /\ child_asked cur c (w_pid a) q /\
      (bad_place (w_status a) 4 \/ bad_place (w_rusage a) RUSAGE_SIZE -> wait1 cur a st = Ok (WError Mem.EFAULT st)) /\
      (~ bad_place (w_status a) 4 -> ~ bad_place (w_rusage a) RUSAGE_SIZE ->
       exists st', wait1 cur a st = Ok (WFound (p_pid q) (Some (p_xstat q)) st') /\
        plists st' (i :: F) A (filter (fun x => x <> i) Z) /\ queues (ps st') off rq sq /\ (booted st A -> booted st' A) /\
        forall x, x <> i -> option_Forall2 nbr (procs_of st !! x) (procs_of st' !! x))
  | None =>
      match List.find (entry_is (child_stopped cur c (w_pid a) (w_options a)) (procs_of st)) A with
      | Some i => exists q, procs_of st !! i = Some q /\ child_stopped cur c (w_pid a) (w_options a) q /\
          let st' := on (<[i := reported q]> (procs_of st)) st in
          (bad_place (w_status a) 4 -> wait1 cur a st = Ok (WError Mem.EFAULT st')) /\
          (~ bad_place (w_status a) 4 -> wait1 cur a st = Ok (WFound (p_pid q) (stop_status a q) st')) /\
          plists st' F A Z /\ queues (ps st') off rq sq
      | None => wait1 cur a st =
          Ok (if List.existsb (entry_is (child_asked cur c (w_pid a)) (procs_of st)) A
              then if flag_on (w_options a) WNOHANG then WFound 0 None st else WSleep st
              else WError ECHILD st)
      end
  end.
Proof.
  intros HPL HQ Hcur. pose proof (wait1_run st F A Z off rq sq cur c a HPL HQ Hcur) as H. cbv zeta in H.
  rewrite !(find_ext (asked (procs_of st) cur (own_group c a)) (entry_is (child_asked cur c (w_pid a)) (procs_of st))) in H by (intros; apply asked_entry).
  rewrite (find_ext (halted (procs_of st) cur (own_group c a)) (entry_is (child_stopped cur c (w_pid a) (w_options a)) (procs_of st))) in H by (intros; apply halted_entry).
  rewrite (existsb_ext (asked (procs_of st) cur (own_group c a)) (entry_is (child_asked cur c (w_pid a)) (procs_of st))) in H by (intros; apply asked_entry).
  destruct (List.find _ Z) as [i|] eqn:Ez.
  { destruct (find_entry _ _ _ _ Ez) as (q&Hq&Ha). exists q. split; [done|]. split; [done|]. rewrite <- !unwritable_bad.
    destruct (unwritable (w_status a) 4), (unwritable (w_rusage a) RUSAGE_SIZE); cbn [orb] in H; (split; [by intros [?|?]|]); try done.
    intros _ _. destruct H as (q'&st'&Hq'&?). simplify_eq. eauto. }
  destruct (List.find _ A) as [i|] eqn:Ea; [|done]. destruct (find_entry _ _ _ _ Ea) as (q&Hq&Hs). destruct H as (q'&Hq'&E&H1&H2). assert (q' = q) as -> by congruence.
  exists q. split; [done|]. split; [done|]. cbv zeta. rewrite <- !unwritable_bad. destruct (unwritable (w_status a) 4); split_and!; done.
Qed.

(** ** The first processes *)

(** The table at boot: process 0 runs, the others are free; then process 1,
    its child 2, and the child of that. *)
Definition boot0 : pstate :=
  let p0 := set_p_flag (Z.lor SLOAD SSYS) (set_p_stat SRUN inhabitant) in
  MkPs (MkSched (p0 :: ((fun n => set_p_nxt (if (n =? 9)%nat then None else Some (S n)) inhabitant) <$> seq 1 9)) None (replicate 16 None) 0 0 0 0 0)
    (replicate 16 None) (Some 1%nat) (Some 0%nat) None 0 0.
Definition or_else {X} (r : res (nat * X)) (d : X) : X := match r with Ok (_, x) => x | _ => d end.
Definition boot1 : pstate := or_else (newproc 0 boot0) boot0.
Definition boot2 : pstate := or_else (newproc 1 boot1) boot1.
(** The process 2 runs. *)
Definition run2 : pstate := match upd_proc 2 (set_p_stat SRUN) boot2 with Ok st => st | _ => boot2 end.
(** It has exited, with the status 3. *)
Definition dead2 : pstate := match to_zomb 2 3 0 run2 with Ok st => st | _ => run2 end.

Lemma boot0_plists : plists boot0 (seq 1 9) [0%nat] [].
Proof.
  split.
  - split; try done.
    + vm_compute. repeat (split; [done|]; eexists; split; [done|]). done.
    + split; [|simpl; split; [by eexists|done]|apply NoDup_singleton]. split; [done|]. by eexists.
    + split; [done|done|apply NoDup_nil_2].
    + change (seq 0 NPROC) with ([0%nat] ++ seq 1 9). rewrite app_nil_r. apply Permutation_app_comm.
    + apply list_elem_of_here.
    + split; [done|]. split; [apply NoDup_nil_2|]. intros h Hh. exists []. split; [|split; [apply NoDup_nil_2|set_solver]].
      change (pidhash (table_of boot0)) with (replicate 16 (@None nat)). by rewrite lookup_total_replicate_2.
    + intros i p Hi%elem_of_seq Hp. assert (exists n, i = S n) as [n ->] by (exists (pred i); lia). change (procs_of boot0 !! S n) with (((fun n => set_p_nxt (if (n =? 9)%nat then None else Some (S n)) inhabitant) <$> seq 1 9) !! n) in Hp.
      apply list_lookup_fmap_Some in Hp as (m&->&_). done.
    + intros i p ->%list_elem_of_singleton [= <-]. done.
    + set_solver.
  - intros i p Hi Hn. rewrite app_nil_r in Hi. by apply list_elem_of_singleton in Hi.
Qed.
Lemma boot0_queues : queues (ps boot0) [0%nat] [] (fun _ => []).
Proof.
  assert (forall i p, tab (ps boot0) !! i = Some p -> p_wchan p = 0 /\ (p_stat p = SRUN -> i = 0%nat)) as HW.
  { intros i p Hp. do 10 (destruct i as [|i]; [injection Hp as <-; done|]). done. }
  split.
  - done.
  - done.
  - apply NoDup_nil_2.
  - set_solver.
  - intros h hd Hh. apply lookup_replicate in Hh as [-> _]. done.
  - intros h. apply NoDup_nil_2.
  - intros h i _. split; [set_solver|]. intros (p&Hp&Hw&_). destruct (HW i p Hp). done.
  - intros i p Hp Hw. destruct (HW i p Hp). done.
  - intros i p Hp Hs _. destruct (HW i p Hp) as [_ ->]; [right; apply list_elem_of_here|done].
  - intros i ->%list_elem_of_singleton. split; [set_solver|]. by eexists.
Qed.
Lemma boot1_ok : plists boot1 (seq 2 8) [1%nat; 0%nat] [] /\ booted boot1 [1%nat; 0%nat] /\ queues (ps boot1) [0%nat] [] (fun _ => []).
Proof.
  destruct (newproc_ok boot0 (seq 2 8) [0%nat] [] 1 0 (set_p_flag (Z.lor SLOAD SSYS) (set_p_stat SRUN inhabitant)))
    as (st'&E&HC&HQ); [exact boot0_plists|apply list_elem_of_here|done|done|done|].
  unfold boot1. rewrite E. cbn [or_else]. split; [apply HC|]. split; [|apply HQ, boot0_queues]. split; [apply list_elem_of_here|].
  destruct (cr_child _ _ _ _ _ _ _ _ HC) as (p'&Hp'&(_&_&Hpp&_)&Hpid). exists p'. split; [done|]. split; [|done]. rewrite Hpid.
  assert (match newproc 0 boot0 with Ok (_, st) => mpid st | _ => 0 end = 1) as Em by (vm_compute; reflexivity). by rewrite E in Em.
Qed.
Lemma boot2_ok : plists boot2 (seq 3 7) [2%nat; 1%nat; 0%nat] [] /\ booted boot2 [2%nat; 1%nat; 0%nat] /\ queues (ps boot2) [0%nat] [] (fun _ => []).
Proof.
  destruct boot1_ok as (H1&H2&H3). destruct H2 as (H2&p1&Hp1&H2').
  destruct (newproc_ok boot1 (seq 3 7) [1%nat; 0%nat] [] 2 1 p1) as (st'&E&HC&HQ); [exact H1|apply list_elem_of_here|done|by vm_compute|by vm_compute|].
  unfold boot2. rewrite E. cbn [or_else]. split; [apply HC|]. split; [|by apply HQ]. apply HC. split; [done|]. by exists p1.
Qed.
(** Changing an entry in place, with its parent. *)
Lemma plists_insert st F A Z i p p' :
  procs_of st !! i = Some p -> placed p p' -> p_pptr p' = p_pptr p -> plists st F A Z -> plists (on (<[i := p']> (procs_of st)) st) F A Z.
Proof.
  intros Hi Hp Epp [HL HP]. split; [by eapply lists_insert|]. intros x q Hx Hx0 Hq. change (procs_of _) with (<[i := p']> (procs_of st)) in Hq.
  destruct (decide (x = i)) as [->|Hne]; [rewrite (put _ _ _ _ Hi) in Hq; injection Hq as <-; rewrite Epp; by apply (HP i p)|]. rewrite put_ne in Hq by done. by apply (HP x q).
Qed.
Lemma start_ok st F A Z off rq sq i p :
  plists st F A Z -> booted st A -> queues (ps st) off rq sq -> procs_of st !! i = Some p -> p_stat p = SIDL -> p_wchan p = 0 -> i ∉ off -> i <> 1%nat ->
  let st' := on (<[i := set_p_stat SRUN p]> (procs_of st)) st in
  upd_proc i (set_p_stat SRUN) st = Ok st' /\ procs_of st' !! i = Some (set_p_stat SRUN p) /\ plists st' F A Z /\ booted st' A /\ queues (ps st') (i :: off) rq sq.
Proof.
  intros H1 (H2&p1&Hp1&E1&E2) H3 Hp Es Ew Ho Hi1 st'. split; [by apply upd_proc_ok|]. split; [by eapply put|]. split; [|split].
  - apply (plists_insert _ _ _ _ _ p); [done| |done|done]. split_and!; [done|right|done]. unfold alive. rewrite Es. done.
  - split; [done|]. exists p1. split; [|done]. change (procs_of st') with (<[i := set_p_stat SRUN p]> (procs_of st)). by rewrite put_ne.
  - assert (i ∉ rq) as Hr by (intros Hr; destruct (q_run_in _ _ _ _ H3 _ Hr) as (p0&Hp0&Er&_); unfold procs_of in Hp; rewrite Hp in Hp0; injection Hp0 as <-; rewrite Es in Er; done).
    eapply (queues_update (ps st) off); [exact H3|exact Hp|done|done|done| | | |].
    + intros ?. done.
    + intros x Hx. set_solver.
    + intros _ _. right. apply list_elem_of_here.
    + intros _. split_and!; [done|done|exact Ew].
Qed.
Lemma run2_ok : exists p2, procs_of run2 !! 2%nat = Some p2 /\ plists run2 (seq 3 7) [2%nat; 1%nat; 0%nat] [] /\ booted run2 [2%nat; 1%nat; 0%nat] /\
  queues (ps run2) [2%nat; 0%nat] [] (fun _ => []) /\ p_pid p2 = 2 /\ p_pptr p2 = Some 1%nat.
Proof.
  assert (match procs_of boot2 !! 2%nat with Some p => (p_stat p, p_pid p, p_pptr p, p_wchan p) | None => (0, 0, None, 0) end = (SIDL, 2, Some 1%nat, 0)) as Ep by (vm_compute; reflexivity).
  unfold run2. destruct boot2_ok as (H1&H2&H3). revert H1 H2 H3 Ep. generalize boot2. intros st H1 H2 H3 Ep. destruct (procs_of st !! 2%nat) as [p|] eqn:Hp; [|done].
  injection Ep as P1 P2 P3 P4. destruct (start_ok st _ _ _ _ _ _ 2 p H1 H2 H3 Hp P1 P4) as (->&Hp'&?&?&?); [set_solver|done|]. exists (set_p_stat SRUN p). split_and!; done.
Qed.
Lemma dead2_ok : plists dead2 (seq 3 7) [1%nat; 0%nat] [2%nat] /\ queues (ps dead2) [0%nat] [] (fun _ => []).
Proof.
  unfold dead2. destruct run2_ok as (p2&Hp2&H1&H2&H3&P1&P2). revert Hp2 H1 H2 H3. generalize run2. intros st Hp2 H1 H2 H3. destruct (to_zomb_ok st (seq 3 7) [2%nat; 1%nat; 0%nat] [] 2 p2 3 0) as (st'&p'&E&HL&Q1&Q2&_&_&Hp'&M&Hx);
    [apply H1|apply list_elem_of_here|done|done|].
  pose proof (moved_fields _ _ M) as (S1&W1&_&_). rewrite E. split; [split; [exact HL|]|].
  - intros x q Hi Hx0 Hq. destruct (decide (x = 2%nat)) as [->|Hne].
    + assert (q = p') as -> by congruence. pose proof (moved_ids _ _ M) as (_&Ei&_). exists 1%nat. split_and!; [rewrite Ei; exact P2|set_solver|done].
    + specialize (Hx x Hne). rewrite Hq in Hx. inversion Hx as [q0 q1 (_&Ei&_)%moved_ids E1 E2|]; subst. destruct H2 as (_&p1&Hp1&_&Epp).
      assert (x = 1%nat) as -> by set_solver. exists 0%nat. split_and!; [congruence|set_solver|done].
  - change [0%nat] with (filter (fun x => x <> 2%nat) [2%nat; 0%nat]). eapply (exit_queues st [2%nat; 0%nat]); [exact H3|apply list_elem_of_here|exact Hp2|exact Hp'|done|done|exact (eq_sym (f_equal p_link M))|done|done|].
    intros x Hne. specialize (Hx x Hne). inversion Hx; constructor. by apply moved_quiet.
Qed.

Lemma fork1_spec_witness : exists p1 c F' st', procs_of boot1 !! 1%nat = Some p1 /\ seq 2 8 = c :: F' /\ fork1 5 1 boot1 = Ok (inr (c, st')) /\
  created boot1 st' F' [1%nat; 0%nat] [] c 1 p1 /\ queues (ps st') [0%nat] [] (fun _ => []).
Proof.
  assert (refused boot1 5 (seq 2 8) ([1%nat; 0%nat] ++ []) = false) as Hr by (vm_compute; reflexivity).
  assert (0 <= mpid boot1 /\ pidchecked boot1 <= MAXPID) as [Hm Hk] by (vm_compute; split; discriminate).
  destruct boot1_ok as (H1&(H2&p1&Hp1&H2')&H3). revert Hr Hm Hk H1 H2' Hp1 H3. generalize boot1. intros st Hr Hm Hk H1 _ Hp1 H3.
  pose proof (fork1_spec st (seq 2 8) [1%nat; 0%nat] [] [0%nat] [] (fun _ => []) 1 p1 5 H1 H3 (list_elem_of_here _ _) Hp1 Hm Hk) as H.
  rewrite Hr in H. destruct H as (c&F'&st'&?). exists p1, c, F', st'. split; [exact Hp1|assumption].
Defined.
Lemma exit_spec_witness : exists p2 st' rq' sq' p' j, exit 4096 (fun j => 8192 + Z.of_nat j) 4100 2 3 0 run2 = Ok st' /\
  plists st' (seq 3 7) [1%nat; 0%nat] [2%nat] /\ booted st' [1%nat; 0%nat] /\ queues (ps st') [0%nat] rq' sq' /\
  procs_of st' !! 2%nat = Some p' /\ p_xstat p' = 3 /\ p_pid p' = p_pid p2 /\ p_pptr p2 = Some j /\ p_pptr p' = Some j /\ nobody (8192 + Z.of_nat j) (ps st') /\
  forall x q, x ∈ [2%nat; 1%nat; 0%nat] ++ [] -> x <> 2%nat -> procs_of run2 !! x = Some q -> exists q', procs_of st' !! x = Some q' /\ survives 2 q q'.
Proof.
  destruct run2_ok as (p2&Hp2&H1&H2&H3&P1&P2). revert Hp2 H1 H2 H3. generalize run2. intros st Hp2 H1 H2 H3.
  pose proof (exit_spec 4096 (fun j => 8192 + Z.of_nat j) 4100 ltac:(done) ltac:(intros; cbv beta; lia) ltac:(done) st (seq 3 7) [2%nat; 1%nat; 0%nat] [] [2%nat; 0%nat] [] (fun _ => []) 2 p2 3 0
    H1 H2 H3 (list_elem_of_here _ _) (list_elem_of_here _ _) ltac:(done) Hp2) as H.
  rewrite P1 in H. destruct H as (st'&rq'&sq'&p'&j&H). rewrite <- P1 in H. exists p2, st', rq', sq', p', j. exact H.
Defined.
Lemma wait1_spec_witness : exists q st', procs_of dead2 !! 2%nat = Some q /\ p_pptr q = Some 1%nat /\
  wait1 1 (MkWargs WAIT_ANY 0 0 0) dead2 = Ok (WFound (p_pid q) (Some (p_xstat q)) st') /\
  plists st' (2%nat :: seq 3 7) [1%nat; 0%nat] [] /\ queues (ps st') [0%nat] [] (fun _ => []).
Proof.
  assert (exists c, procs_of dead2 !! 1%nat = Some c /\ List.find (entry_is (child_asked 1 c WAIT_ANY) (procs_of dead2)) [2%nat] = Some 2%nat) as (c&Hc&Hf)
    by (eexists; split; vm_compute; reflexivity).
  destruct dead2_ok as (H1&H2). revert Hf Hc H1 H2. generalize dead2. intros st Hf Hc H1 H2.
  pose proof (wait1_spec st (seq 3 7) [1%nat; 0%nat] [2%nat] [0%nat] [] (fun _ => []) 1 c (MkWargs WAIT_ANY 0 0 0) H1 H2 Hc) as H.
  cbn [w_pid w_status w_rusage] in H. rewrite Hf in H. destruct H as (q&Hq&[Hp _]&_&H).
  assert (forall n, ~ bad_place 0 n) as Hb by (intros n [? _]; done). destruct (H (Hb _) (Hb _)) as (st'&?&?&?&_). exists q, st'. split_and!; assumption.
Defined.

(** ** Ids that are given twice *)

(** Process 2, with the id 105, leads the group 105, and its child 3, with the
    id 106, is in the group, when the ids have come round to 104 again. *)
Definition next_id (m : Z) st : pstate := set_pids m 0 st.
Definition in_group (i : nat) (g : Z) st : pstate := match upd_proc i (set_p_pgrp g) st with Ok st => st | _ => st end.
Definition forked (cur : nat) st : pstate := or_else (newproc cur st) st.
Definition pair3 : pstate := next_id 104 (forked 2 (in_group 2 105 (forked 1 (next_id 104 boot1)))).
Lemma next_id_ok m st F A Z : plists st F A Z -> plists (next_id m st) F A Z.
Proof. intros [[] HP]. split; [split|]; done. Qed.
Lemma in_group_ok i g st F A Z : plists st F A Z -> i ∈ A -> plists (in_group i g st) F A Z.
Proof.
  intros HP Hi. destruct (part_entry (pl_lists _ _ _ _ HP) i) as [p Hp]; [set_solver|]. unfold in_group. rewrite (upd_proc_ok _ _ _ _ Hp).
  apply (plists_insert _ _ _ _ _ p); [done| |done|done]. split_and!; auto.
Qed.
Lemma forked_ok cur st c F A Z : plists st (c :: F) A Z -> cur ∈ A -> 0 <= mpid st -> pidchecked st <= MAXPID -> plists (forked cur st) F (c :: A) Z.
Proof.
  intros HP Hc Hm Hk. destruct (part_entry (pl_lists _ _ _ _ HP) cur) as [pp Hpp]; [set_solver|].
  destruct (newproc_ok st F A Z c cur pp HP Hc Hpp Hm Hk) as (st'&E&HC&_). unfold forked. rewrite E. apply HC.
Qed.
Lemma pair3_ok : plists pair3 (seq 4 6) [3%nat; 2%nat; 1%nat; 0%nat] [].
Proof.
  apply next_id_ok, forked_ok; [|apply list_elem_of_here|vm_compute; discriminate..].
  apply in_group_ok; [|apply list_elem_of_here]. apply forked_ok; [|apply list_elem_of_here|vm_compute; discriminate..]. apply next_id_ok, boot1_ok.
Qed.
(** newproc can give the id of a living process once more: it leaves an
    id when it is the group of a process, and does not look at the process
    again with the next one.  With well-formed lists, a process whose id
    follows its group loses its id to a new one. *)
Lemma newproc_id_taken : exists c st' p q, plists pair3 (seq 4 6) [3%nat; 2%nat; 1%nat; 0%nat] [] /\
  newproc 1 pair3 = Ok (c, st') /\ procs_of st' !! c = Some p /\ procs_of st' !! 3%nat = Some q /\ c <> 3%nat /\ p_pid p = p_pid q /\ p_pid q = p_pgrp q + 1.
Proof.
  assert (match newproc 1 pair3 with
          | Ok (c, st') => match procs_of st' !! c, procs_of st' !! 3%nat with Some p, Some q => (c, p_pid p, p_pid q, p_pgrp q) | _, _ => (0%nat, 0, 0, 0) end
          | _ => (0%nat, 0, 0, 0) end = (4%nat, 106, 106, 105)) as E by (vm_compute; reflexivity).
  pose proof pair3_ok as HP. revert E HP. generalize pair3. intros st E HP. destruct (newproc 1 st) as [[c st']| |] eqn:En; [|done..].
  destruct (procs_of st' !! c) as [p|] eqn:Ep; [|done]. destruct (procs_of st' !! 3%nat) as [q|] eqn:Eq; [|done]. injection E as -> E1 E2 E3.
  exists 4%nat, st', p, q. split_and!; try done; congruence || lia.
Qed.
End Birth.
