(* ===== verification/Sleep.v ===== *)
(** Sleeping (sys/kernel/kern_synch.c): tsleep, its timeout endtsleep, the
    interruptible sleep, and schedcpu, the recomputation of the priorities
    once a second.

    tsleep gives up the processor in the middle; it is modelled in two parts,
    up to the call of swtch() and from the label resume on. *)
From S2P Require Import Prelude Proc Sched Mem Sig Clock.
Import Proc Sched Sig.

Module Sleep.

Definition PCATCH : Z := 256.
Definition PRIMASK : Z := 255.
Definition EWOULDBLOCK : Z := 35.
Definition ERESTART : Z := -1.

(** The scheduler and the callout table. *)
Record kern := Kern { ks : sched; kc : Clock.callst }.

(** How the first part of tsleep ends: it returns, it jumps to resume, it is
    asleep in swtch(), or CURSIG gave up the processor. *)
Inductive slept :=
  | TsReturn (r : Z)
  | TsResume (catch : bool) (sig : Z)
  | TsAsleep (catch : bool)
  | TsStopped (r : isres).

Section Tsleep.
(** Link-time addresses: the kernel variables slept on, the entries of the
    process table and the function endtsleep. *)
Context (addr_runin addr_runout addr_lbolt : Z) (addr_proc : nat -> Z) (addr_endtsleep addr_schedcpu : Z).

Abbreviation wakeup := (Sched.wakeup addr_runout).
Abbreviation setrun := (Sched.setrun addr_runout).

Definition endtsleep (i : nat) (s : sched) : res sched :=
  p ← rd (tab s) i;
  if negb (p_wchan p =? 0) then
    s ← (if p_stat p =? SSLEEP then setrun i s else unsleep i s);
    upd i (fun p => set_p_flag (flag_set (p_flag p) P_TIMEOUT) p) s
  else Ok s.

(** [p->p_stat = SSLEEP; ... swtch();] *)
Definition tsleep_block (i : nat) (catch : bool) (k : kern) : res (kern * slept) :=
  s ← upd i (set_p_stat SSLEEP) (ks k);
  s ← (if negb (i =? 0)%nat then wakeup addr_runin s else Ok s);
  Ok (Kern s (kc k), TsAsleep catch).
(** After CURSIG returned [sig]. *)
Definition tsleep_checked (i : nat) (sig : Z) (k : kern) : res (kern * slept) :=
  p ← rd (tab (ks k)) i;
  if negb (sig =? 0) then
    s ← (if negb (p_wchan p =? 0) then unsleep i (ks k) else Ok (ks k));
    s ← upd i (set_p_stat SRUN) s;
    Ok (Kern s (kc k), TsResume true sig)
  else if p_wchan p =? 0 then Ok (k, TsResume false 0)
  else tsleep_block i true k.
(** The call of CURSIG and what follows; a process stopped there goes on with
    [tsleep_checked] when CURSIG returns. *)
Definition tsleep_cursig (us : usig) (i : nat) (k : kern) : res (kern * slept) :=
  '(s, r) ← CURSIG addr_runout addr_proc us i (ks k);
  let k := Kern s (kc k) in
  match r with
  | SigRet sig => tsleep_checked i sig k
  | r => Ok (k, TsStopped r)
  end.

(** Entering the sleep queue of [ident]. *)
Definition tsleep_enqueue (i : nat) (ident priority : Z) (s : sched) : res sched :=
  s ← upd i (fun p => set_p_pri (s8 (Z.land priority PRIMASK)) (set_p_slptime 0 (set_p_wchan ident p))) s;
  h ← rd (slpque s) (HASH ident);
  s ← upd i (set_p_link h) s;
  l ← wr (slpque s) (HASH ident) (Some i);
  Ok (set_slpque l s).

Definition tsleep (panicked : bool) (us : usig) (i : nat) (ident priority timo : Z) (k : kern) : res (kern * slept) :=
  let catch := flag_on priority PCATCH in
  if panicked then Ok (k, TsReturn 0)
  else
    s ← tsleep_enqueue i ident priority (ks k);
    c ← (if negb (timo =? 0) then Clock.timeout (kc k) addr_endtsleep (addr_proc i) timo else Ok (kc k));
    if catch then
      s ← upd i (fun p => set_p_flag (flag_set (p_flag p) P_SINTR) p) s;
      tsleep_cursig us i (Kern s c)
    else tsleep_block i false (Kern s c).

(** From the label resume on: the value returned, or how the last CURSIG gave
    up the processor. *)
Definition tsleep_resume (us : usig) (i : nat) (timo : Z) (catch : bool) (sig : Z) (k : kern)
    : res (kern * (Z + isres)) :=
  s ← upd i (fun p => set_p_flag (flag_clr (p_flag p) P_SINTR) p) (ks k);
  p ← rd (tab s) i;
  let intr (sig : Z) := if flag_on (u_sigintr us) (sigmask sig) then EINTR else ERESTART in
  let finish (s : sched) (c : Clock.callst) :=
    if catch then
      if negb (sig =? 0) then Ok (Kern s c, inl (intr sig))
      else
        '(s, r) ← CURSIG addr_runout addr_proc us i s;
        Ok (Kern s c, match r with
                      | SigRet sig => inl (if negb (sig =? 0) then intr sig else 0)
                      | r => inr r
                      end)
    else Ok (Kern s c, inl 0) in
  if flag_on (p_flag p) P_TIMEOUT then
    s ← upd i (fun p => set_p_flag (flag_clr (p_flag p) P_TIMEOUT) p) s;
    if sig =? 0 then Ok (Kern s (kc k), inl EWOULDBLOCK) else finish s (kc k)
  else if negb (timo =? 0) then
    c ← Clock.untimeout (kc k) addr_endtsleep (addr_proc i);
    finish s c
  else finish s (kc k).

(** sleep: the priority it passes to tsleep, and whether it leaves the system
    call by longjmp given the value tsleep returned. *)
Definition sleep_priority (pri : Z) : Z := if PZERO <? pri then Z.lor pri PCATCH else pri.
Definition sleep_longjmp (pri error : Z) : bool :=
  negb (negb (flag_on (sleep_priority pri) PCATCH) || (error =? 0)).

(** ** schedcpu *)

(** The body of the loop for one process, but the alarm signal; the flag tells
    whether the real-time timer ran out. *)
Definition schedcpu_timer (p : proc) : proc * bool :=
  let p := if negb (p_time p =? 127) then set_p_time (s8 (p_time p + 1)) p else p in
  if rt_value p =? 0 then (p, false)
  else
    let p := set_rt_value (rt_value p - 1) p in
    (p, rt_value p =? 0).
(** [a = (p->p_cpu & 0377) * SCHMAG + p->p_nice], where [x * SCHMAG] is
    [x * 8/10]. *)
Definition decay_cpu (p : proc) : proc :=
  let a := Z.quot (cpu_byte p * 8) 10 + p_nice p in
  let a := if a <? 0 then 0 else a in
  let a := if 255 <? a then 255 else a in
  set_p_cpu (s8 a) p.
Definition schedcpu_proc (i : nat) (s : sched) : res sched :=
  p ← rd (tab s) i;
  let '(p, alarm) := schedcpu_timer p in
  s ← upd i (fun _ => p) s;
  s ← (if alarm then
         s ← psignal addr_runout addr_proc i SIGALRM s;
         upd i (fun p => set_rt_value (rt_interval p) p) s
       else Ok s);
  s ← upd i (fun p => if ((p_stat p =? SSLEEP) || (p_stat p =? SSTOP)) && negb (p_slptime p =? 127)
                      then set_p_slptime (s8 (p_slptime p + 1)) p else p) s;
  p ← rd (tab s) i;
  if 1 <? p_slptime p then Ok s
  else
    let p := decay_cpu p in
    s ← upd i (fun _ => p) s;
    if PUSER <=? p_pri p then
      let '(p, rr, _) := setpri (curpri s) (runrun s) p in
      s ← upd i (fun _ => p) s;
      Ok (set_runrun rr s)
    else Ok s.
Fixpoint schedcpu_loop (fuel : nat) (p : option nat) (s : sched) : res sched :=
  match fuel with
  | O => Fault
  | S fuel =>
      match p with
      | None => Ok s
      | Some i =>
          s ← schedcpu_proc i s;
          q ← rd (tab s) i;
          schedcpu_loop fuel (p_nxt q) s
      end
  end.
(** vmmeter() only keeps statistics and is left out. *)
Definition schedcpu (allproc : option nat) (k : kern) : res kern :=
  s ← wakeup addr_lbolt (ks k);
  s ← schedcpu_loop (S (length (tab s))) allproc s;
  s ← (if negb (runin s =? 0) then wakeup addr_runin (set_runin 0 s) else Ok s);
  let s := set_runrun (runrun s + 1) s in
  c ← Clock.timeout (kc k) addr_schedcpu 0 Clock.hz;
  Ok (Kern s c).
End Tsleep.

(** ** Entering a sleep queue *)

Lemma queues_sleep s off rq sq i p p' hd :
  queues s off rq sq -> i ∈ off -> tab s !! i = Some p -> slpque s !! HASH (p_wchan p') = Some hd ->
  p_wchan p' <> 0 -> p_stat p' = SSLEEP -> p_link p' = hd ->
  queues (set_slpque (<[HASH (p_wchan p') := Some i]> (slpque s)) (set_tab (<[i := p']> (tab s)) s))
    (filter (fun x => x <> i) off) rq (without sq (HASH (p_wchan p')) (i :: sq (HASH (p_wchan p')))).
Proof.
  intros Hq Ho Hi Hd Hw Hst Hl. destruct (q_off _ _ _ _ Hq i Ho) as (Hnr&p0&E&Hr&Hw0). simplify_eq.
  pose proof (lookup_lt_Some _ _ _ Hi) as Hlt. pose proof (HASH_lt (p_wchan p')) as Hh.
  destruct Hq as [H1 H2 H3 H4 H5 H6 H7 H8 H9 H10].
  assert (forall h, (h < Z.to_nat SQSIZE)%nat -> i ∉ sq h) as Hns.
  { intros h Hlh Hin. apply H7 in Hin as (q&?&?&_); [|done]. by simplify_eq. }
  split; cbn [tab qs slpque set_tab set_slpque].
  - by rewrite length_insert.
  - by apply chain_insert.
  - done.
  - intros x Hx. rewrite list_lookup_insert_ne by (intros ->; done). by apply H4.
  - intros h hd Hhd. unfold without. case_decide as Eh.
    + subst h. rewrite list_lookup_insert_eq in Hhd by (by rewrite H1). injection Hhd as <-. split; [done|].
      exists p'. rewrite list_lookup_insert_eq by done. split; [done|]. apply chain_insert; [by apply Hns|]. by apply H5.
    + rewrite list_lookup_insert_ne in Hhd by done. apply chain_insert; [|by apply H5]. apply Hns. rewrite <- H1.
      by eapply lookup_lt_Some.
  - intros h. unfold without. case_decide; [|done]. subst. apply NoDup_cons. split; [by apply Hns|done].
  - intros h x Hlh. unfold without. destruct (decide (x = i)) as [->|Hx].
    + rewrite list_lookup_insert_eq by done. split.
      * case_decide; [intros _; by exists p'|]. intros Hin. by apply Hns in Hin.
      * intros (q&[= <-]&_&<-). rewrite decide_True by done. apply list_elem_of_here.
    + rewrite list_lookup_insert_ne by done. rewrite <- H7 by done. case_decide as Eh; [subst h; set_solver|done].
  - intros x q. destruct (decide (x = i)) as [->|Hx].
    + rewrite list_lookup_insert_eq by done. intros [= <-] _. by left.
    + rewrite list_lookup_insert_ne by done. apply H8.
  - intros x q. destruct (decide (x = i)) as [->|Hx].
    + rewrite list_lookup_insert_eq by done. intros [= <-] Hr'. rewrite Hst in Hr'. done.
    + rewrite list_lookup_insert_ne by done. intros ???. destruct (H9 x q) as [|Hin]; [done..|by left|]. right.
      apply list_elem_of_filter. done.
  - intros x [Hx Hin]%list_elem_of_filter. rewrite list_lookup_insert_ne by done. by apply H10.
Qed.

Section Specs.
Context (addr_runin addr_runout : Z) (addr_proc : nat -> Z) (addr_endtsleep : Z).
Context (Hrunin : addr_runin <> 0) (Hrunout : addr_runout <> 0).

(** The entry of a process asleep on [ident]. *)
Definition asleep (ident priority : Z) (flags : Z) (p : proc) : proc :=
  set_p_stat SSLEEP (set_p_flag flags
    (set_p_pri (s8 (Z.land priority PRIMASK)) (set_p_slptime 0 (set_p_wchan ident p)))).

(** Setting the state of an enqueued process to asleep, and the wakeup of the
    swapper. *)
Lemma tsleep_asleep s off rq sq i p ident priority flags hd s1 c catch :
  queues s off rq sq -> i ∈ off -> tab s !! i = Some p -> ident <> 0 -> (i <> 0%nat -> ident <> addr_runin) ->
  ident <> addr_runout ->
  slpque s !! HASH ident = Some hd ->
  s1 = set_slpque (<[HASH ident := Some i]> (slpque s)) (set_tab (<[i := set_p_link hd (set_p_flag flags
    (set_p_pri (s8 (Z.land priority PRIMASK)) (set_p_slptime 0 (set_p_wchan ident p))))]> (tab s)) s) ->
  exists s' rq' sq' p', tsleep_block addr_runin addr_runout i catch (Kern s1 c) = Ok (Kern s' c, TsAsleep catch) /\
    queues s' (filter (fun x => x <> i) off) rq' sq' /\ tab s' !! i = Some p' /\
    link_eq (asleep ident priority flags p) p'.
Proof.
  intros Hq Ho Hi Hid Hne Hro Hd ->. pose proof (lookup_lt_Some _ _ _ Hi) as Hlt. unfold tsleep_block. cbn [ks kc].
  set (p1 := set_p_link hd _). erewrite (upd_ok i _ _ p1) by (cbn; by apply list_lookup_insert_eq).
  cbn [mbind res_bind tab set_tab set_slpque]. rewrite list_insert_insert_eq.
  pose proof (queues_sleep s off rq sq i p (set_p_stat SSLEEP p1) hd Hq Ho Hi) as Hqs. cbn [p_wchan p1 set_p_stat] in Hqs.
  specialize (Hqs Hd Hid eq_refl eq_refl). set (s2 := set_slpque _ _) in Hqs.
  match goal with |- context [wakeup _ _ ?x] => change x with s2 end.
  assert (tab s2 !! i = Some (set_p_stat SSLEEP p1)) as Hi2 by (by apply list_lookup_insert_eq).
  destruct (Nat.eqb_spec i 0) as [Ei|Ei]; cbn [negb].
  { exists s2. eexists _, _, _. split; [done|]. split; [done|]. split; [done|]. done. }
  destruct (wakeup_ok addr_runout Hrunout addr_runin s2 _ rq _ Hqs Hrunin) as (s3&rq3&sq3&->&Hq3&He&_).
  destruct He as (_&_&_&_&He). specialize (He i). rewrite Hi2 in He. inversion He as [? p' Hp|]; subst.
  cbn [mbind res_bind]. exists s3, rq3, sq3, p'. split; [done|]. split; [done|]. split; [done|].
  destruct Hp as [Hp|(_&[Hc|(_&_&Hc)]&_)]; [by rewrite <- Hp| |]; cbn in Hc; exfalso; [by apply Hne|by apply Hro].
Qed.

Lemma tsleep_enqueue_ok s off rq sq i p ident priority :
  queues s off rq sq -> tab s !! i = Some p ->
  exists hd, slpque s !! HASH ident = Some hd /\ tsleep_enqueue i ident priority s =
    Ok (set_slpque (<[HASH ident := Some i]> (slpque s)) (set_tab (<[i := set_p_link hd
      (set_p_pri (s8 (Z.land priority PRIMASK)) (set_p_slptime 0 (set_p_wchan ident p)))]> (tab s)) s)).
Proof.
  intros Hq Hi. destruct (sleep_head Hq (HASH ident) (HASH_lt ident)) as [hd Hd]. exists hd. split; [done|].
  pose proof (lookup_lt_Some _ _ _ Hi). unfold tsleep_enqueue. rewrite (upd_ok _ _ _ _ Hi). cbn [mbind res_bind slpque set_tab].
  rewrite (rd_Some _ _ _ Hd). cbn [mbind res_bind]. erewrite upd_ok by (cbn; by apply list_lookup_insert_eq).
  cbn [mbind res_bind slpque set_tab tab]. rewrite (wr_Some _ _ _ _ Hd). cbn [mbind res_bind]. by rewrite list_insert_insert_eq.
Qed.
End Specs.

Lemma asleep_fields ident priority flags p :
  p_stat (asleep ident priority flags p) = SSLEEP /\ p_wchan (asleep ident priority flags p) = ident /\
  p_flag (asleep ident priority flags p) = flags.
Proof. done. Qed.

(** The first part of tsleep when it goes to sleep. *)
Lemma tsleep_ok addr_runin addr_runout addr_proc addr_endtsleep us s off rq sq i p ident priority timo c c1 :
  addr_runin <> 0 -> addr_runout <> 0 -> queues s off rq sq -> i ∈ off -> tab s !! i = Some p -> ident <> 0 ->
  (i <> 0%nat -> ident <> addr_runin) -> ident <> addr_runout ->
  (flag_on priority PCATCH = true -> p_sig p = 0) ->
  (if timo =? 0 then Ok c else Clock.timeout c addr_endtsleep (addr_proc i) timo) = Ok c1 ->
  exists s1 rq1 sq1 p1 flags,
    tsleep addr_runin addr_runout addr_proc addr_endtsleep false us i ident priority timo (Kern s c) =
      Ok (Kern s1 c1, TsAsleep (flag_on priority PCATCH)) /\
    queues s1 (filter (fun x => x <> i) off) rq1 sq1 /\ tab s1 !! i = Some p1 /\
    link_eq (asleep ident priority flags p) p1 /\
    flags = (if flag_on priority PCATCH then flag_set (p_flag p) P_SINTR else p_flag p).
Proof.
  intros Hri Hro Hq Ho Hi Hid Hne Hnr Hsig Htm. unfold tsleep. cbn [ks kc].
  destruct (tsleep_enqueue_ok s off rq sq i p ident priority Hq Hi) as (hd&Hd&->). cbn [mbind res_bind].
  assert ((if negb (timo =? 0) then Clock.timeout c addr_endtsleep (addr_proc i) timo else Ok c) = Ok c1) as ->
    by (by destruct (timo =? 0)).
  pose proof (lookup_lt_Some _ _ _ Hi) as Hlt. cbn [mbind res_bind]. destruct (flag_on priority PCATCH).
  - erewrite upd_ok by (cbn; by apply list_lookup_insert_eq). cbn [mbind res_bind tab set_tab set_slpque].
    rewrite list_insert_insert_eq. unfold tsleep_cursig, CURSIG. cbn [ks kc].
    match goal with |- context [rd (tab ?x) i] => set (s0 := x) end.
    assert (tab s0 !! i = Some (set_p_flag (flag_set (p_flag p) P_SINTR) (set_p_link hd
      (set_p_pri (s8 (Z.land priority PRIMASK)) (set_p_slptime 0 (set_p_wchan ident p)))))) as Hi0
      by (by apply list_lookup_insert_eq).
    rewrite (rd_Some _ _ _ Hi0). cbn [mbind res_bind p_sig set_p_flag set_p_link set_p_pri set_p_slptime set_p_wchan].
    rewrite Hsig by done. cbn [Z.eqb orb mbind res_bind]. unfold tsleep_checked. cbn [ks].
    rewrite (rd_Some _ _ _ Hi0). cbn [mbind res_bind Z.eqb negb p_wchan set_p_flag set_p_link set_p_pri set_p_slptime set_p_wchan].
    destruct (Z.eqb_spec ident 0); [done|].
    destruct (tsleep_asleep addr_runin addr_runout Hri Hro s off rq sq i p ident priority
      (flag_set (p_flag p) P_SINTR) hd s0 c1 true Hq Ho Hi Hid Hne Hnr Hd eq_refl) as (s1&rq1&sq1&p1&->&?&?&?).
    exists s1, rq1, sq1, p1, (flag_set (p_flag p) P_SINTR). done.
  - match goal with |- context [Kern ?x c1] => set (s0 := x) end.
    assert (forall q, set_p_flag (p_flag q) q = q) as Hid' by (by intros []).
    destruct (tsleep_asleep addr_runin addr_runout Hri Hro s off rq sq i p ident priority
      (p_flag p) hd s0 c1 false Hq Ho Hi Hid Hne Hnr Hd) as (s1&rq1&sq1&p1&->&?&?&?).
    { unfold s0. change (p_flag p) with (p_flag (set_p_pri (s8 (Z.land priority PRIMASK))
        (set_p_slptime 0 (set_p_wchan ident p)))). by rewrite Hid'. }
    exists s1, rq1, sq1, p1, (p_flag p). done.
Qed.

(** (C27) No wakeup is lost.  A running process that calls tsleep with no signal
    pending ends up asleep on its channel, off the run queue, with the queues
    well formed.  From there a wakeup of the channel makes it runnable, on the
    run queue if it is in memory; so does the timeout, which also marks it,
    and then tsleep returns EWOULDBLOCK. *)
Theorem tsleep_wakeup_spec addr_runin addr_runout addr_proc addr_endtsleep us s off rq sq i p ident priority timo c c1 :
  addr_runin <> 0 -> addr_runout <> 0 -> queues s off rq sq -> i ∈ off -> tab s !! i = Some p -> ident <> 0 ->
  (i <> 0%nat -> ident <> addr_runin) -> ident <> addr_runout ->
  (flag_on priority PCATCH = true -> p_sig p = 0) ->
  (if timo =? 0 then Ok c else Clock.timeout c addr_endtsleep (addr_proc i) timo) = Ok c1 ->
  exists s1 rq1 sq1 p1,
    tsleep addr_runin addr_runout addr_proc addr_endtsleep false us i ident priority timo (Kern s c) =
      Ok (Kern s1 c1, TsAsleep (flag_on priority PCATCH)) /\
    queues s1 (filter (fun x => x <> i) off) rq1 sq1 /\ tab s1 !! i = Some p1 /\ p_stat p1 = SSLEEP /\ p_wchan p1 = ident /\
    (exists s2 rq2 sq2 p2, wakeup addr_runout ident s1 = Ok s2 /\ queues s2 (filter (fun x => x <> i) off) rq2 sq2 /\
       tab s2 !! i = Some p2 /\ p_stat p2 = SRUN /\ p_wchan p2 = 0 /\
       (flag_on (p_flag p) SLOAD = true -> i ∈ rq2)) /\
    (exists s2 rq2 sq2 p2, endtsleep addr_runout i s1 = Ok s2 /\ queues s2 (filter (fun x => x <> i) off) rq2 sq2 /\
       tab s2 !! i = Some p2 /\ p_stat p2 = SRUN /\ p_wchan p2 = 0 /\ (flag_on (p_flag p) SLOAD = true -> i ∈ rq2) /\
       exists k3, tsleep_resume addr_runout addr_proc addr_endtsleep us i timo (flag_on priority PCATCH) 0 (Kern s2 c1) =
         Ok (k3, inl EWOULDBLOCK)).
Proof.
  intros Hri Hro Hq Ho Hi Hid Hne Hnr Hsig Htm.
  destruct (tsleep_ok addr_runin addr_runout addr_proc addr_endtsleep us s off rq sq i p ident priority timo c c1
    Hri Hro Hq Ho Hi Hid Hne Hnr Hsig Htm) as (s1&rq1&sq1&p1&fl&->&Hq1&Hi1&El&Ef).
  pose proof (link_eq_fields _ _ El) as (E1&E2&E3&_).
  destruct (asleep_fields ident priority fl p) as (A1&A2&A3). rewrite A1 in E1. rewrite A2 in E2. rewrite A3 in E3.
  assert (flag_on (p_flag p1) SLOAD = flag_on (p_flag p) SLOAD) as Eld.
  { rewrite <- E3, Ef. destruct (flag_on priority PCATCH); [|done]. by rewrite flag_on_set_other. }
  exists s1, rq1, sq1, p1. split; [done|]. split; [done|]. split; [done|]. split; [done|]. split; [done|]. split.
  - destruct (wakeup_ok addr_runout Hro ident s1 _ rq1 sq1 Hq1 Hid) as (s2&rq2&sq2&->&Hq2&He&Hno).
    destruct He as (_&_&_&_&He). specialize (He i). rewrite Hi1 in He. inversion He as [? p2 Hp Hn Hi2|]; subst. symmetry in Hi2.
    assert (link_eq (woke p1) p2) as Elw.
    { destruct Hp as [(_&F2&_)%link_eq_fields|(_&_&?)]; [|done]. destruct (Hno _ _ Hi2). congruence. }
    pose proof (link_eq_fields _ _ Elw) as (F1&F2&F3&_). pose proof (woke_fields p1) as (_&W2&W3&_&W5).
    rewrite <- E1 in W5. cbn in W5. exists s2, rq2, sq2, p2. split; [done|]. split; [done|]. split; [done|].
    split; [congruence|]. split; [congruence|]. intros Hl.
    destruct (q_ready _ _ _ _ Hq2 i p2) as [|[? _]%list_elem_of_filter]; [done|congruence| |done|done].
    by rewrite <- F3, W3, Eld.
  - unfold endtsleep. rewrite (rd_Some _ _ _ Hi1). cbn [mbind res_bind]. rewrite <- E2. destruct (Z.eqb_spec ident 0); [done|].
    rewrite <- E1. cbn [negb Z.eqb SSLEEP Pos.eqb].
    destruct (setrun_ok addr_runout Hro s1 _ rq1 sq1 i p1 Hq1 Hi1) as (s2&rq2&sq2&->&Hq2&(p2&Hi2&El2)&Hin&_); [by left|].
    cbn [mbind res_bind]. rewrite (upd_ok _ _ _ _ Hi2). pose proof (link_eq_fields _ _ El2) as (F1&F2&F3&_).
    pose proof (ready_fields p1) as (_&W2&W3&W4). set (p3 := set_p_flag _ p2). set (s3 := set_tab _ s2).
    assert (tab s3 !! i = Some p3) as Hi3 by (apply list_lookup_insert_eq; by eapply lookup_lt_Some).
    exists s3, rq2, sq2, p3. split; [done|]. split.
    { eapply queues_update; [exact Hq2|exact Hi2|done|done| | |done| |].
      - intros _. change (p_stat p3) with (p_stat p2). congruence.
      - intros Hw. exfalso. apply Hw. congruence.
      - intros _ Hl. left. apply Hin. rewrite Eld.
        rewrite <- Hl. unfold p3. cbn [p_flag set_p_flag]. rewrite flag_on_set_other by done. rewrite <- F3, W3. done.
      - intros [? _]%list_elem_of_filter. done. }
    split; [done|]. change (p_stat p3) with (p_stat p2). change (p_wchan p3) with (p_wchan p2).
    split; [congruence|]. split; [congruence|]. split; [rewrite <- Eld; exact Hin|].
    unfold tsleep_resume. cbn [ks kc]. rewrite (upd_ok _ _ _ _ Hi3). cbn [mbind res_bind].
    pose proof (lookup_lt_Some _ _ _ Hi3) as Hlt3.
    rewrite (rd_Some _ _ (set_p_flag (flag_clr (p_flag p3) P_SINTR) p3)) by (cbn; by apply list_lookup_insert_eq).
    cbn [mbind res_bind]. cbn [p_flag set_p_flag p3]. autorewrite with kflags.
    erewrite upd_ok by (cbn; by apply list_lookup_insert_eq). cbn [mbind res_bind]. by eexists.
Qed.

Lemma tsleep_wakeup_spec_witness :
  exists s1 rq1 sq1 p1,
    tsleep 1024 4096 (fun j => 8192 + Z.of_nat j) 512 false usig0 0 64 (Z.lor 30 PCATCH) 5 (Kern sched1 Clock.coutinit) =
      Ok (Kern s1 (match Clock.timeout Clock.coutinit 512 8192 5 with Ok c => c | _ => Clock.coutinit end), TsAsleep true) /\
    queues s1 (filter (fun x => x <> 0%nat) [0%nat]) rq1 sq1 /\ tab s1 !! 0%nat = Some p1 /\ p_stat p1 = SSLEEP /\ p_wchan p1 = 64.
Proof.
  destruct (tsleep_wakeup_spec 1024 4096 (fun j => 8192 + Z.of_nat j) 512 usig0 sched1 [0%nat] [2%nat] sleepers1 0
    (proc_at SRUN 0 50) 64 (Z.lor 30 PCATCH) 5 Clock.coutinit
    (match Clock.timeout Clock.coutinit 512 8192 5 with Ok c => c | _ => Clock.coutinit end))
    as (s1&rq1&sq1&p1&E&H1&H2&H3&H4&_).
  - done.
  - done.
  - exact sched1_queues.
  - apply list_elem_of_here.
  - reflexivity.
  - done.
  - done.
  - done.
  - intros _. reflexivity.
  - reflexivity.
  - exists s1, rq1, sq1, p1. split_and!; done.
Defined.

Lemma s8_cpu_byte a q : 0 <= a < 256 -> cpu_byte (set_p_cpu (s8 a) q) = a.
Proof.
  intros Ha. unfold cpu_byte. cbn [p_cpu set_p_cpu]. change 255 with (Z.ones 8). rewrite Z.land_ones by lia.
  unfold s8. Z.to_euclidean_division_equations; lia.
Qed.
Lemma decay_cpu_byte p :
  cpu_byte (decay_cpu p) = Z.min 255 (Z.max 0 (cpu_byte p * 8 / 10 + p_nice p)).
Proof.
  unfold decay_cpu. pose proof (cpu_byte_bound p) as Hb. rewrite Z.quot_div_nonneg by lia.
  set (a := cpu_byte p * 8 / 10 + p_nice p). rewrite s8_cpu_byte; repeat case_match; bool_to_prop; lia.
Qed.

(** The turn of schedcpu for a process without a pending alarm: the sleep
    and residence times go up to 127 and stop there; a process that has slept
    for more than a second keeps its usage and priority; for the others the
    usage decays to eight tenths plus the nice value, within 0 and 255, and a
    user-level priority is recomputed from it. *)
Theorem schedcpu_proc_spec addr_runout addr_proc i s p :
  tab s !! i = Some p -> rt_value p = 0 -> 0 <= p_slptime p <= 127 -> 0 <= p_time p <= 127 -> -20 <= p_nice p <= 20 ->
  exists s' p', schedcpu_proc addr_runout addr_proc i s = Ok s' /\ tab s' !! i = Some p' /\
    (forall x, x <> i -> tab s' !! x = tab s !! x) /\ qs s' = qs s /\ slpque s' = slpque s /\
    p_stat p' = p_stat p /\ p_link p' = p_link p /\ p_wchan p' = p_wchan p /\
    p_time p' = Z.min 127 (p_time p + 1) /\
    p_slptime p' = (if (p_stat p =? SSLEEP) || (p_stat p =? SSTOP) then Z.min 127 (p_slptime p + 1) else p_slptime p) /\
    (1 < p_slptime p' -> p_cpu p' = p_cpu p /\ p_pri p' = p_pri p) /\
    (p_slptime p' <= 1 -> cpu_byte p' = Z.min 255 (Z.max 0 (cpu_byte p * 8 / 10 + p_nice p)) /\
       p_pri p' = if PUSER <=? p_pri p then Z.min 127 (cpu_byte p' / 16 + (PUSER + p_nice p)) else p_pri p).
Proof.
  intros Hi Hrt Hslp Htm Hnice. unfold schedcpu_proc. rewrite (rd_Some _ _ _ Hi). cbn [mbind res_bind].
  pose proof (lookup_lt_Some _ _ _ Hi) as Hlt.
  set (p1 := set_p_time (Z.min 127 (p_time p + 1)) p).
  assert (schedcpu_timer p = (p1, false)) as ->.
  { unfold schedcpu_timer, p1. destruct (Z.eqb_spec (p_time p) 127) as [E|E]; cbn [negb].
    - rewrite Hrt, E. cbn [Z.eqb]. f_equal. destruct p; cbn in *. by subst.
    - cbn [rt_value set_p_time]. rewrite Hrt. cbn [Z.eqb]. rewrite s8_small by lia. f_equal. f_equal. lia. }
  rewrite (upd_ok _ _ _ _ Hi). cbn [mbind res_bind].
  erewrite upd_ok by (cbn; by apply list_lookup_insert_eq). cbn [mbind res_bind tab set_tab]. rewrite list_insert_insert_eq.
  set (p2 := if _ && _ then _ else p1).
  assert (p_slptime p2 = (if (p_stat p =? SSLEEP) || (p_stat p =? SSTOP) then Z.min 127 (p_slptime p + 1) else p_slptime p) /\
    p_cpu p2 = p_cpu p /\ p_pri p2 = p_pri p /\ p_nice p2 = p_nice p /\ p_time p2 = p_time p1 /\ p_stat p2 = p_stat p /\
    p_link p2 = p_link p /\ p_wchan p2 = p_wchan p) as (P1&P2&P3&P4&P5&P6&P7&P8).
  { unfold p2. cbn [p_stat p_slptime set_p_time p1]. destruct (_ || _); cbn [andb]; [|done].
    destruct (Z.eqb_spec (p_slptime p) 127) as [E|E]; cbn [negb]; (split; [|done]);
      cbn [p_slptime set_p_slptime p1 set_p_time]; [lia|]. rewrite s8_small by lia. lia. }
  rewrite (rd_Some _ _ p2) by (cbn; by apply list_lookup_insert_eq). cbn [mbind res_bind].
  destruct (Z.ltb_spec 1 (p_slptime p2)) as [Hs|Hs].
  { eexists _, p2. split; [done|]. split; [cbn; by apply list_lookup_insert_eq|].
    split; [intros x Hx; cbn; by rewrite list_lookup_insert_ne|].
    split_and!; try done. intros. exfalso. lia. }
  assert (cpu_byte (decay_cpu p2) = Z.min 255 (Z.max 0 (cpu_byte p * 8 / 10 + p_nice p))) as Hc.
  { rewrite decay_cpu_byte. unfold cpu_byte. by rewrite P2, P4. }
  erewrite upd_ok by (cbn; by apply list_lookup_insert_eq). cbn [mbind res_bind tab set_tab]. rewrite list_insert_insert_eq.
  change (p_pri (decay_cpu p2)) with (p_pri p2). rewrite P3. destruct (PUSER <=? p_pri p).
  - unfold setpri. rewrite Hc. change (p_nice (decay_cpu p2)) with (p_nice p2). rewrite P4.
    pose proof (cpu_byte_bound p). set (a := Z.min 255 _) in *.
    assert (0 <= a <= 255) as Ha by (unfold a; lia). rewrite Z.quot_div_nonneg by lia.
    erewrite upd_ok by (cbn; by apply list_lookup_insert_eq). cbn [mbind res_bind tab set_tab]. rewrite list_insert_insert_eq.
    eexists _, _. split; [done|]. split; [cbn; by apply list_lookup_insert_eq|].
    split; [intros x Hx; cbn; by rewrite list_lookup_insert_ne|].
    split_and!; try done; [intros Hs'; exfalso; change (1 < p_slptime p2) in Hs'; lia|].
    intros _. change (cpu_byte (set_p_pri ?x ?y)) with (cpu_byte y). rewrite Hc. split; [done|].
    cbn [p_pri set_p_pri]. assert (0 <= a / 16 <= 15) as Ha16 by (Z.to_euclidean_division_equations; lia).
    unfold PUSER in *. destruct (Z.ltb_spec 127 (a / 16 + (50 + p_nice p))); rewrite s8_small by lia; lia.
  - eexists _, (decay_cpu p2). split; [done|]. split; [cbn; by apply list_lookup_insert_eq|].
    split; [intros x Hx; cbn; by rewrite list_lookup_insert_ne|].
    split_and!; try done. intros Hs'. exfalso. change (1 < p_slptime p2) in Hs'. lia.
Qed.
Lemma schedcpu_proc_spec_witness :
  exists s' p', schedcpu_proc 4096 (fun j => 8192 + Z.of_nat j) 0
      (set_tab [set_p_cpu 100 (proc_at SRUN 0 60)] sched1) = Ok s' /\ tab s' !! 0%nat = Some p' /\
    cpu_byte p' = 80 /\ p_pri p' = 55.
Proof.
  destruct (schedcpu_proc_spec 4096 (fun j => 8192 + Z.of_nat j) 0 (set_tab [set_p_cpu 100 (proc_at SRUN 0 60)] sched1)
    (set_p_cpu 100 (proc_at SRUN 0 60))) as (s'&p'&E&Hi&_&_&_&_&_&_&_&Hs&_&Hc).
  - reflexivity.
  - reflexivity.
  - vm_compute. split; by intros.
  - vm_compute. split; by intros.
  - vm_compute. split; by intros.
  - exists s', p'. split; [exact E|]. split; [exact Hi|]. assert (p_slptime p' <= 1) as Hle by (rewrite Hs; vm_compute; by intros).
    destruct (Hc Hle) as [C1 C2]. rewrite C1 in C2. split; [exact C1|exact C2].
Defined.

End Sleep.
