(* ===== verification/Log.v ===== *)
(** The log of kernel messages (sys/kernel/subr_log.c, sys/include/msgbuf.h): a
    ring of bytes that the kernel writes and the device /dev/klog reads.

    There is one device (NLOG is 1), and the model is its state; splhigh makes
    each function one step, but for the sleep of logread, where it is cut. *)
From S2P Require Import Prelude Itrunc Rwip Dir Dirent.
Import Itrunc Rwip.

Module Log.

(** ** Data *)

Definition NLOG : Z := 1.
Definition LOG_OPEN : Z := 1.
Definition LOG_ASYNC : Z := 4.
Definition LOG_RDWAIT : Z := 8.
Definition MSG_MAGIC : Z := 405601.
Definition MSG_BSIZE : Z := 2048.
Definition ENODEV : Z := 19.
Definition EBUSY : Z := 16.
Definition EWOULDBLOCK : Z := 35.
Definition IO_NDELAY : Z := 16.
Definition FREAD : Z := 1.
Definition SIGIO : Z := 23.
Definition FIONREAD : Z := 1074030177.
Definition FIONBIO : Z := 2147772000.
Definition FIOASYNC : Z := 2147771999.
Definition TIOCSPGRP : Z := 2147775606.
Definition TIOCGPGRP : Z := 1074033783.

Record msgbuf := MkMsgbuf { msg_magic : Z; msg_bufx : Z; msg_bufr : Z; msg_bufc : list Z }.
Record logsoftc := MkSoftc { sc_state : Z; sc_selp : option nat; sc_pgid : Z; sc_overrun : Z }.
Record klog := MkKlog { mp : msgbuf; lp : logsoftc }.
Implicit Types (l : klog) (m : msgbuf) (p : logsoftc).

Definition set_bufx (v : Z) m : msgbuf := MkMsgbuf (msg_magic m) v (msg_bufr m) (msg_bufc m).
Definition set_bufr (v : Z) m : msgbuf := MkMsgbuf (msg_magic m) (msg_bufx m) v (msg_bufc m).
Definition set_state (v : Z) p : logsoftc := MkSoftc v (sc_selp p) (sc_pgid p) (sc_overrun p).

(** ** Opening and closing *)

Definition loginit m : msgbuf := MkMsgbuf MSG_MAGIC 0 0 (msg_bufc m).
Definition logisopen l : bool := flag_on (sc_state (lp l)) LOG_OPEN.
(** The address of the array msg_bufc, which is tested for 0, never is. *)
Definition logopen (unit p_pid : Z) l : Z * klog :=
  if NLOG <=? unit then (ENODEV, l)
  else if logisopen l then (EBUSY, l)
  else (0, MkKlog (mp l) (MkSoftc (flag_set (sc_state (lp l)) LOG_OPEN) (sc_selp (lp l)) p_pid 0)).
Definition logclose l : Z * klog := (0, MkKlog (mp l) (set_state 0 (lp l))).

(** ** Reading *)

(** [None] for a fault of uiomove; [bcopy (&mp->msg_bufc[mp->msg_bufr], buf, l)]
    fills a buffer of words. *)
Fixpoint logread_loop (fuel : nat) m (u : uio) (um : umem) : res (msgbuf * uio * umem) :=
  match fuel with
  | O => Fault
  | S fuel =>
      if uio_resid u =? 0 then Ok (m, u, um)
      else
        let n := msg_bufx m - msg_bufr m in
        if n =? 0 then Ok (m, u, um)
        else if (n <? 0) && (MSG_BSIZE - msg_bufr m =? 0) then logread_loop fuel (set_bufr 0 m) u um
        else
          let n := if n <? 0 then MSG_BSIZE - msg_bufr m else n in
          let n := Z.min n (uio_resid u) in
          let n := Z.min n 128 in
          bs ← Dir.bytes_at (msg_bufc m) (msg_bufr m) n;
          match uiomove (Rwip.put_bytes 0 bs []) 0 n u um with
          | None => Fault
          | Some (_, u, um) => logread_loop fuel (set_bufr (msg_bufr m + n) m) u um
          end
  end.
(** The read sleeps on the message buffer, and starts over when it is woken; or
    it returns the error and the request. *)
Inductive rdres := RSleep | RDone (error : Z) (u : uio) (um : umem).
Definition logread (flag : Z) (u : uio) (um : umem) l : res (rdres * klog) :=
  if msg_bufr (mp l) =? msg_bufx (mp l) then
    if flag_on flag IO_NDELAY then Ok (RDone EWOULDBLOCK u um, l)
    else Ok (RSleep, MkKlog (mp l) (set_state (flag_set (sc_state (lp l)) LOG_RDWAIT) (lp l)))
  else
    let p := set_state (flag_clr (sc_state (lp l)) LOG_RDWAIT) (lp l) in
    '(m, u, um) ← logread_loop (Z.to_nat (uio_resid u) + 3) (mp l) u um;
    Ok (RDone 0 u um, MkKlog m p).
Definition logselect (rw : Z) (procp : nat) l : Z * klog :=
  if rw =? FREAD then
    if negb (msg_bufr (mp l) =? msg_bufx (mp l)) then (1, l)
    else (0, MkKlog (mp l) (MkSoftc (sc_state (lp l)) (Some procp) (sc_pgid (lp l)) (sc_overrun (lp l))))
  else (0, l).

(** ** Wakeups and controls *)

Inductive event := Selwakeup (p : nat) | Gsignal (pgrp sig : Z) | Psignal (p : nat) (sig : Z) | Wakeup.
Definition logwakeup (pfind : Z -> option nat) l : list event * klog :=
  if negb (logisopen l) then ([], l)
  else
    let p := lp l in
    let sel := match sc_selp p with Some q => [Selwakeup q] | None => [] end in
    let sig := if flag_on (sc_state p) LOG_ASYNC && negb (msg_bufx (mp l) =? msg_bufr (mp l)) then
                 if sc_pgid p <? 0 then [Gsignal (- sc_pgid p) SIGIO]
                 else match pfind (sc_pgid p) with Some q => [Psignal q SIGIO] | None => [] end
               else [] in
    let wait := flag_on (sc_state p) LOG_RDWAIT in
    (sel ++ sig ++ (if wait then [Wakeup] else []),
     MkKlog (mp l) (MkSoftc (if wait then flag_clr (sc_state p) LOG_RDWAIT else sc_state p) None (sc_pgid p) (sc_overrun p))).
(** The word at [data] goes in and comes out. *)
Definition logioctl (com data : Z) l : Z * Z * klog :=
  let p := lp l in
  if com =? FIONREAD then
    let n := msg_bufx (mp l) - msg_bufr (mp l) in
    (0, if n <? 0 then n + MSG_BSIZE else n, l)
  else if com =? FIONBIO then (0, data, l)
  else if com =? FIOASYNC then
    (0, data, MkKlog (mp l) (set_state (if negb (data =? 0) then flag_set (sc_state p) LOG_ASYNC else flag_clr (sc_state p) LOG_ASYNC) p))
  else if com =? TIOCSPGRP then (0, data, MkKlog (mp l) (MkSoftc (sc_state p) (sc_selp p) data (sc_overrun p)))
  else if com =? TIOCGPGRP then (0, sc_pgid p, l)
  else (-1, data, l).

(** ** Writing *)

Fixpoint logwrt_loop (fuel : nat) (buf : list Z) l : res klog :=
  match fuel with
  | O => Fault
  | S fuel =>
      match buf with
      | [] => Ok l
      | _ =>
          let len := Dir.len buf in
          let m := mp l in
          let infront := MSG_BSIZE - msg_bufx m in
          let '(m, infront) := if infront <=? 0 then (set_bufx 0 m, MSG_BSIZE - msg_bufr m) else (m, infront) in
          let n := msg_bufr m - msg_bufx m in
          let '(writer, infront) := if n <? 0 then (MSG_BSIZE - msg_bufx m + msg_bufr m, infront)
                                    else if n =? 0 then (MSG_BSIZE, infront) else (n, n) in
          if writer <? len then
            let p := lp l in
            logwrt_loop fuel buf (MkKlog (set_bufx (msg_bufr m) m) (MkSoftc (sc_state p) (sc_selp p) (sc_pgid p) (s32 (sc_overrun p + 1))))
          else
            let infront := if len <? infront then len else infront in
            c ← Dir.put_bytes (msg_bufx m) (take (Z.to_nat infront) buf) (msg_bufc m);
            logwrt_loop fuel (drop (Z.to_nat infront) buf)
              (MkKlog (MkMsgbuf (msg_magic m) (msg_bufx m + infront) (msg_bufr m) c) (lp l))
      end
  end.
(** A turn to start over, two for the parts of the message, one to end. *)
Definition logwrt (buf : list Z) l : res (Z * klog) :=
  if negb (msg_magic (mp l) =? MSG_MAGIC) || (MSG_BSIZE <? Dir.len buf) then Ok (-1, l)
  else l ← logwrt_loop 4 buf l; Ok (0, l).

(** ** What is in the ring *)

Definition sub (a b : Z) (c : list Z) : list Z := take (Z.to_nat (b - a)) (drop (Z.to_nat a) c).
(** The bytes to be read, in order. *)
Definition pend (r x : Z) (c : list Z) : list Z :=
  if r =? x then [] else if r <? x then sub r x c else sub r MSG_BSIZE c ++ sub 0 x c.
Definition pending l : list Z := pend (msg_bufr (mp l)) (msg_bufx (mp l)) (msg_bufc (mp l)).
Definition byte (b : Z) : Prop := 0 <= b < 256.
Record log_ok l : Prop := {
  lk_magic : msg_magic (mp l) = MSG_MAGIC;
  lk_r : 0 <= msg_bufr (mp l) <= MSG_BSIZE;
  lk_x : 0 <= msg_bufx (mp l) <= MSG_BSIZE;
  lk_first : msg_bufx (mp l) = 0 -> msg_bufr (mp l) = 0;
  lk_size : Dir.len (msg_bufc (mp l)) = MSG_BSIZE;
  lk_bytes : Forall byte (msg_bufc (mp l)) }.

Lemma sub_len a b c : 0 <= a <= b -> b <= Dir.len c -> Dir.len (sub a b c) = b - a.
Proof. intros. unfold sub, Dir.len in *. rewrite length_take, length_drop. lia. Qed.
Lemma sub_nil a c : sub a a c = [].
Proof. unfold sub. rewrite Z.sub_diag. done. Qed.
Lemma sub_app a b d c : 0 <= a <= b -> b <= d -> sub a d c = sub a b c ++ sub b d c.
Proof.
  intros. unfold sub. replace (Z.to_nat (d - a)) with (Z.to_nat (b - a) + Z.to_nat (d - b))%nat by lia. rewrite <- take_take_drop, drop_drop. do 3 f_equal. lia.
Qed.
Lemma sub_byte a b c : Forall byte c -> Forall byte (sub a b c).
Proof. intros. by apply Forall_take, Forall_drop. Qed.
(** The ring with [w] at [x]. *)
Definition put (x : Z) (w c : list Z) : list Z := take (Z.to_nat x) c ++ w ++ drop (Z.to_nat (x + Dir.len w)) c.
Lemma put_ok x w c : 0 <= x -> x + Dir.len w <= Dir.len c -> Dir.put_bytes x w c = Ok (put x w c) /\ Dir.len (put x w c) = Dir.len c.
Proof.
  intros. unfold Dir.put_bytes. rewrite (proj2 (Z.ltb_ge _ _)), (proj2 (Z.ltb_ge _ _)) by lia. split; [done|]. unfold put, Dir.len in *. rewrite !length_app, length_take, length_drop. lia.
Qed.
Lemma put_byte x w c : Forall byte w -> Forall byte c -> Forall byte (put x w c).
Proof. intros. apply Forall_app. split; [by apply Forall_take|]. apply Forall_app. split; [done|by apply Forall_drop]. Qed.
Section Put.
Context (x : Z) (w c : list Z) (Hx : 0 <= x) (Hc : x + Dir.len w <= Dir.len c).
Lemma put_at : sub x (x + Dir.len w) (put x w c) = w.
Proof.
  unfold sub, put, Dir.len in *. rewrite drop_app_length' by (rewrite length_take; lia). apply take_app_length'. lia.
Qed.
Lemma put_before a b : 0 <= a <= b -> b <= x -> sub a b (put x w c) = sub a b c.
Proof.
  intros. unfold sub, put, Dir.len in *. rewrite !take_drop_commute, take_app_le by (rewrite length_take; lia). rewrite take_take. do 2 f_equal. lia.
Qed.
Lemma put_after a b : x + Dir.len w <= a -> sub a b (put x w c) = sub a b c.
Proof.
  intros. unfold sub, put, Dir.len in *. rewrite app_assoc, drop_app_ge by (rewrite length_app, length_take; lia). rewrite drop_drop, length_app, length_take. do 2 f_equal. lia.
Qed.
Lemma put_to a : 0 <= a <= x -> sub a (x + Dir.len w) (put x w c) = sub a x c ++ w.
Proof. intros. rewrite (sub_app a x) by (unfold Dir.len; lia). by rewrite put_before, put_at by lia. Qed.
End Put.

(** ** Writing a message *)

Section Write.
Context (r : Z) (p : logsoftc) (Hr : 0 <= r <= MSG_BSIZE).
Definition at_ring (x : Z) (c : list Z) : klog := MkKlog (MkMsgbuf MSG_MAGIC x r c) p.
(** Where the message goes, and what fits there. *)
Definition start (x : Z) : Z := if MSG_BSIZE - x <=? 0 then 0 else x.
Definition room (x0 : Z) : Z := if r <=? x0 then MSG_BSIZE - x0 + r else r - x0.
Definition front (x0 : Z) : Z := if r <=? x0 then MSG_BSIZE - x0 else r - x0.
(** A ring that is full to its end is taken for empty. *)
Definition held (x : Z) (c : list Z) : list Z := if (r =? 0) && (x =? MSG_BSIZE) then [] else pend r x c.
Definition after (x : Z) (c buf : list Z) : list Z :=
  if negb (r =? 0) && (Dir.len (held x c) + Dir.len buf =? MSG_BSIZE) then [] else held x c ++ buf.

Lemma wrt_turn x c buf fuel : 0 <= x <= MSG_BSIZE -> Dir.len c = MSG_BSIZE -> buf <> [] -> Dir.len buf <= room (start x) ->
  let x0 := start x in let n := Z.min (front x0) (Dir.len buf) in
  logwrt_loop (S fuel) buf (at_ring x c) = logwrt_loop fuel (drop (Z.to_nat n) buf) (at_ring (x0 + n) (put x0 (take (Z.to_nat n) buf) c)).
Proof.
  intros Hx Hc Hne Hroom x0 n. assert (n = Z.min (front x0) (Dir.len buf)) as En by done. clearbody n. assert (0 < Dir.len buf) as Hl by (destruct buf; [done|]; rewrite Dirent.len_cons; pose proof (Dirent.len_nonneg buf); lia).
  assert (0 <= x0 /\ x0 < MSG_BSIZE) as [H0 H1] by (unfold x0, start, MSG_BSIZE in *; destruct (Z.leb_spec (2048 - x) 0); lia).
  assert (Dir.len (take (Z.to_nat n) buf) = n) as Hn by (rewrite En; unfold front, MSG_BSIZE, Dir.len in *; rewrite length_take; destruct (r <=? x0) eqn:?; lia).
  assert (x0 + n <= MSG_BSIZE) as Hfit by (rewrite En; unfold front, MSG_BSIZE in *; destruct (Z.leb_spec r x0); lia).
  destruct (put_ok x0 (take (Z.to_nat n) buf) c H0) as [Hput _]; [lia|]. cbn [logwrt_loop]. destruct buf as [|b0 buf0] eqn:Ebuf; [done|]. rewrite <- Ebuf in *. cbn [mp at_ring msg_bufx msg_bufr].
  assert ((if MSG_BSIZE - x <=? 0 then (set_bufx 0 (MkMsgbuf MSG_MAGIC x r c), MSG_BSIZE - r) else (MkMsgbuf MSG_MAGIC x r c, MSG_BSIZE - x)) =
    (MkMsgbuf MSG_MAGIC x0 r c, if MSG_BSIZE - x <=? 0 then MSG_BSIZE - r else MSG_BSIZE - x)) as -> by (unfold x0, start; by destruct (MSG_BSIZE - x <=? 0)).
  set (inf := if MSG_BSIZE - x <=? 0 then _ else _). cbn [msg_bufx msg_bufr msg_bufc].
  assert ((if r - x0 <? 0 then (MSG_BSIZE - x0 + r, inf) else if r - x0 =? 0 then (MSG_BSIZE, inf) else (r - x0, r - x0)) = (room x0, front x0)) as ->.
  { unfold room, front, inf, x0, start, MSG_BSIZE in *. repeat case_match; f_equal; lia. }
  rewrite (proj2 (Z.ltb_ge _ _)) by done. replace (if Dir.len buf <? front x0 then Dir.len buf else front x0) with n by (rewrite En; destruct (Z.ltb_spec (Dir.len buf) (front x0)); lia).
  rewrite Hput. reflexivity.
Qed.
Definition written (x : Z) (c buf : list Z) (l' : klog) : Prop :=
  exists x' c', l' = at_ring x' c' /\ 0 < x' <= MSG_BSIZE /\ Dir.len c' = MSG_BSIZE /\ (Forall byte c -> Forall byte buf -> Forall byte c') /\ pend r x' c' = after x c buf.
Lemma len_pos (buf : list Z) : buf <> [] -> 0 < Dir.len buf.
Proof. destruct buf; [done|]. intros _. rewrite Dirent.len_cons. pose proof (Dirent.len_nonneg buf). lia. Qed.
Lemma take_all (buf : list Z) n : n = Dir.len buf -> take (Z.to_nat n) buf = buf /\ drop (Z.to_nat n) buf = [].
Proof. intros ->. unfold Dir.len. rewrite Nat2Z.id. split; [by apply take_ge|by apply drop_ge]. Qed.
Lemma pend_below x c : x < r -> pend r x c = sub r MSG_BSIZE c ++ sub 0 x c.
Proof. intros. unfold pend. rewrite (proj2 (Z.eqb_neq _ _)), (proj2 (Z.ltb_ge _ _)) by lia. done. Qed.
Lemma pend_above x c : r <= x -> pend r x c = sub r x c.
Proof. intros. unfold pend. destruct (Z.eqb_spec r x) as [->|]; [by rewrite sub_nil|]. by rewrite (proj2 (Z.ltb_lt _ _)) by lia. Qed.
(** The message goes before the reader. *)
Lemma wrt_below x c buf fuel : 0 <= x <= MSG_BSIZE -> Dir.len c = MSG_BSIZE -> buf <> [] -> start x < r -> Dir.len buf <= room (start x) ->
  exists l', logwrt_loop (S (S fuel)) buf (at_ring x c) = Ok l' /\ written x c buf l'.
Proof.
  intros Hx Hc Hne Hlow Hroom. pose proof (len_pos buf Hne) as Hl. rewrite wrt_turn by done. set (x0 := start x) in *.
  assert (0 <= x0 /\ x0 = if MSG_BSIZE - x <=? 0 then 0 else x) as [H0 E0] by (split; [unfold x0, start, MSG_BSIZE in *; destruct (2048 - x <=? 0); lia|done]). clearbody x0.
  unfold room, front in *. rewrite (proj2 (Z.leb_gt _ _)) in * by lia. destruct (take_all buf (Z.min (r - x0) (Dir.len buf))) as [-> ->]; [lia|].
  replace (Z.min (r - x0) (Dir.len buf)) with (Dir.len buf) by lia. eexists. split; [done|]. exists (x0 + Dir.len buf), (put x0 buf c). destruct (put_ok x0 buf c H0) as [_ Hpl]; [lia|].
  split; [done|]. split; [lia|]. split; [lia|]. split; [intros; by apply put_byte|].
  assert (held x c = sub r MSG_BSIZE c ++ sub 0 x0 c) as Eh.
  { unfold held. rewrite (proj2 (Z.eqb_neq r 0)) by lia. cbn [andb]. unfold MSG_BSIZE in *. destruct (Z.leb_spec (2048 - x) 0); subst x0; [|by apply pend_below].
    assert (x = 2048) as -> by lia. rewrite sub_nil, app_nil_r. apply pend_above. lia. }
  unfold after. rewrite Eh, (proj2 (Z.eqb_neq r 0)), Dirent.len_app, !sub_len by lia. cbn [negb andb]. destruct (Z.eqb_spec (MSG_BSIZE - r + (x0 - 0) + Dir.len buf) MSG_BSIZE) as [E|E].
  - replace (x0 + Dir.len buf) with r by lia. unfold pend. by rewrite Z.eqb_refl.
  - rewrite pend_below, put_to, put_after by lia. by rewrite <- app_assoc.
Qed.
(** The message goes behind what is there, and on at the start of the ring. *)
Lemma wrt_above x c buf fuel : 0 <= x <= MSG_BSIZE -> Dir.len c = MSG_BSIZE -> buf <> [] -> r <= start x -> Dir.len buf <= room (start x) ->
  exists l', logwrt_loop (S (S (S fuel))) buf (at_ring x c) = Ok l' /\ written x c buf l'.
Proof.
  intros Hx Hc Hne Hlow Hroom. pose proof (len_pos buf Hne) as Hl. rewrite wrt_turn by done. set (x0 := start x) in *.
  assert (0 <= x0 < MSG_BSIZE /\ x0 = if MSG_BSIZE - x <=? 0 then 0 else x) as [H0 E0] by (split; [unfold x0, start, MSG_BSIZE in *; destruct (Z.leb_spec (2048 - x) 0); lia|done]). clearbody x0.
  unfold room, front in *. rewrite (proj2 (Z.leb_le _ _)) in * by lia. set (n := Z.min (MSG_BSIZE - x0) (Dir.len buf)). assert (Dir.len (take (Z.to_nat n) buf) = n) as Hn by (unfold n, Dir.len in *; rewrite length_take; lia).
  assert (held x c = sub r x0 c /\ (MSG_BSIZE - x0 < Dir.len buf -> x = x0 /\ 0 < r)) as [Eh Hx0].
  { unfold held. unfold MSG_BSIZE in *. destruct (Z.leb_spec (2048 - x) 0); subst x0; [|split; [rewrite (proj2 (Z.eqb_neq x 2048)), andb_false_r by lia; by apply pend_above|lia]].
    assert (r = 0 /\ x = 2048) as [-> ->] by lia. rewrite !Z.eqb_refl, sub_nil. split; [done|lia]. }
  assert (x0 + Dir.len (take (Z.to_nat n) buf) <= Dir.len c) as Hfit by lia.
  destruct (put_ok x0 (take (Z.to_nat n) buf) c) as [_ Hpl]; [lia|done|]. assert (sub r (x0 + Dir.len (take (Z.to_nat n) buf)) (put x0 (take (Z.to_nat n) buf) c) = sub r x0 c ++ take (Z.to_nat n) buf) as Hto by (apply put_to; lia). rewrite Hn in Hto.
  destruct (Z.ltb_spec (MSG_BSIZE - x0) (Dir.len buf)) as [Hlong|Hshort].
  - destruct (Hx0 Hlong) as [-> Hr0]. assert (n = MSG_BSIZE - x0) as En by lia. assert (Dir.len (drop (Z.to_nat n) buf) = Dir.len buf - n) as Hd by (unfold Dir.len in *; rewrite length_drop; lia).
    replace (x0 + n) with MSG_BSIZE in * by lia.
    destruct (wrt_below MSG_BSIZE (put x0 (take (Z.to_nat n) buf) c) (drop (Z.to_nat n) buf) fuel) as (l'&E&x'&c'&El&W1&W2&W3&W4); [lia|lia|intros E; rewrite E, Dirent.len_nil in Hd; lia|done|change (start MSG_BSIZE) with 0; unfold room; rewrite (proj2 (Z.leb_gt _ _)) by lia; lia|].
    exists l'. split; [done|]. exists x', c'. split; [done|]. split; [done|]. split; [done|]. split; [intros B1 B2; apply W3; [apply put_byte; [by apply Forall_take|done]|by apply Forall_drop]|].
    rewrite W4. unfold after. assert (held MSG_BSIZE (put x0 (take (Z.to_nat n) buf) c) = sub r x0 c ++ take (Z.to_nat n) buf) as ->.
    { unfold held. rewrite (proj2 (Z.eqb_neq r 0)) by lia. cbn [andb]. rewrite pend_above by lia. done. }
    rewrite Eh, Dirent.len_app, Hn, Hd. replace (Dir.len (sub r x0 c) + n + (Dir.len buf - n)) with (Dir.len (sub r x0 c) + Dir.len buf) by lia. rewrite <- app_assoc, take_drop. done.
  - assert (n = Dir.len buf) as En by lia. destruct (take_all buf n En) as [Et Ed]. rewrite Et, Ed in *. eexists. split; [done|]. exists (x0 + n), (put x0 buf c). split; [done|]. split; [lia|]. split; [lia|].
    split; [intros; by apply put_byte|]. rewrite pend_above, Hto by lia. unfold after. rewrite Eh, sub_len by lia.
    destruct (Z.eqb_spec r 0); [done|]. cbn [negb andb]. by rewrite (proj2 (Z.eqb_neq _ _)) by lia.
Qed.
Lemma wrt_fit x c buf fuel : 0 <= x <= MSG_BSIZE -> Dir.len c = MSG_BSIZE -> buf <> [] -> Dir.len buf <= room (start x) ->
  exists l', logwrt_loop (S (S (S fuel))) buf (at_ring x c) = Ok l' /\ written x c buf l'.
Proof. intros. destruct (decide (r <= start x)); [by apply wrt_above|apply wrt_below; done || lia]. Qed.
End Write.

Lemma pend_len r x c : 0 <= r <= MSG_BSIZE -> 0 <= x <= MSG_BSIZE -> Dir.len c = MSG_BSIZE -> Dir.len (pend r x c) = if r <=? x then x - r else MSG_BSIZE - r + x.
Proof.
  intros Hr Hx Hc. destruct (Z.leb_spec r x); [rewrite pend_above, sub_len; lia|]. rewrite pend_below, Dirent.len_app, !sub_len by lia. lia.
Qed.
Definition bump p : logsoftc := MkSoftc (sc_state p) (sc_selp p) (sc_pgid p) (s32 (sc_overrun p + 1)).
(** A message that does not fit: the writer goes back to the reader. *)
Lemma wrt_again r p x c buf fuel : 0 <= r <= MSG_BSIZE -> 0 <= x <= MSG_BSIZE -> room r (start x) < Dir.len buf ->
  logwrt_loop (S fuel) buf (at_ring r p x c) = logwrt_loop fuel buf (at_ring r (bump p) r c).
Proof.
  intros Hr Hx Hb. cbn [logwrt_loop]. destruct buf as [|b0 buf0] eqn:Ebuf; [exfalso; rewrite Dirent.len_nil in Hb; unfold room, start, MSG_BSIZE in *; repeat case_match; lia|]. rewrite <- Ebuf in *. cbn [mp at_ring msg_bufx msg_bufr].
  unfold start in Hb. destruct (MSG_BSIZE - x <=? 0) eqn:Ex; cbn [set_bufx msg_bufx msg_bufr msg_bufc msg_magic];
    (destruct (r - _ <? 0) eqn:E1; [|destruct (r - _ =? 0) eqn:E2]); unfold room in Hb; destruct (r <=? _) eqn:E3 in Hb; rewrite (proj2 (Z.ltb_lt _ _)) by (unfold MSG_BSIZE in *; lia); done.
Qed.
Lemma room_len r x c : 0 <= r <= MSG_BSIZE -> 0 <= x <= MSG_BSIZE -> Dir.len c = MSG_BSIZE ->
  room r (start x) = if (r =? 0) && (x =? MSG_BSIZE) then MSG_BSIZE else MSG_BSIZE - Dir.len (pend r x c).
Proof. intros Hr Hx Hc. rewrite pend_len by done. unfold room, start, MSG_BSIZE in *. repeat case_match; lia. Qed.

(** ** Reading *)

Lemma buf_bytes bs : Forall byte bs -> Dir.len bs <= 1024 -> map (byte_at (Rwip.put_bytes 0 bs [])) (seqZ 0 (Dir.len bs)) = bs.
Proof.
  intros Hb Hl. apply list_eq. intros i. change (map (byte_at (Rwip.put_bytes 0 bs [])) (seqZ 0 (Dir.len bs))) with (byte_at (Rwip.put_bytes 0 bs []) <$> seqZ 0 (Dir.len bs)). rewrite list_lookup_fmap. unfold Dir.len in *.
  destruct (decide (i < length bs)%nat) as [Hi|Hi]; [|rewrite lookup_seqZ_ge, lookup_ge_None_2 by lia; done].
  rewrite lookup_seqZ_lt by lia. cbn [fmap option_fmap option_map]. rewrite put_bytes_at by (done || lia). unfold with_bytes. destruct (lookup_lt_is_Some_2 bs i Hi) as [b Hbi]. rewrite Hbi. f_equal.
  rewrite (proj2 (Z.leb_le _ _)), (proj2 (Z.ltb_lt _ _)) by lia. cbn [andb]. replace (Z.to_nat (0 + Z.of_nat i - 0)) with i by lia. by apply nth_lookup_Some with (d := 0) in Hbi.
Qed.
Definition ring (x r : Z) (c : list Z) : msgbuf := MkMsgbuf MSG_MAGIC x r c.
Lemma scatter_two a bs1 bs2 (n k : nat) um : length (take n a) = length bs1 -> scatter (take k (drop n a)) bs2 (scatter (take n a) bs1 um) = scatter (take (n + k) a) (bs1 ++ bs2) um.
Proof. intros Hl. rewrite <- take_take_drop. by rewrite scatter_app. Qed.

Lemma logread_loop_ok x c fuel : forall r u um, 0 <= r <= MSG_BSIZE -> 0 <= x <= MSG_BSIZE -> Dir.len c = MSG_BSIZE -> Forall byte c -> uio_ok u -> uio_rw u = UIO_READ ->
  uio_resid u + (if x <? r then 1 else 0) < Z.of_nat fuel ->
  let k := Z.min (uio_resid u) (Dir.len (pend r x c)) in
  exists r' u', logread_loop fuel (ring x r c) u um = Ok (ring x r' c, u', scatter (take (Z.to_nat k) (uaddrs u)) (take (Z.to_nat k) (pend r x c)) um) /\
    moved k u u' /\ 0 <= r' <= MSG_BSIZE /\ pend r' x c = drop (Z.to_nat k) (pend r x c).
Proof.
  induction fuel as [|fuel IH]; intros r u um Hr Hx Hc Hb Hu Hrw Hf k.
  { pose proof (uk_resid _ Hu). destruct (x <? r); lia. }
  pose proof (uk_resid _ Hu) as Hres. pose proof (Dirent.len_nonneg (pend r x c)) as Hp0. cbn [logread_loop ring msg_bufx msg_bufr msg_bufc].
  assert (k = 0 -> exists r' u', Ok (ring x r c, u, um) = Ok (ring x r' c, u', scatter (take (Z.to_nat k) (uaddrs u)) (take (Z.to_nat k) (pend r x c)) um) /\
    moved k u u' /\ 0 <= r' <= MSG_BSIZE /\ pend r' x c = drop (Z.to_nat k) (pend r x c)) as Hstop by (intros ->; exists r, u; split; [done|]; split; [by apply moved_0|done]).
  destruct (Z.eqb_spec (uio_resid u) 0) as [|Hnz]; [apply Hstop; lia|]. destruct (Z.eqb_spec (x - r) 0) as [E|E].
  { apply Hstop. unfold k, pend. rewrite (proj2 (Z.eqb_eq r x)), Dirent.len_nil by lia. lia. }
  destruct (Z.ltb_spec (x - r) 0) as [Hlt|Hge], (Z.eqb_spec (MSG_BSIZE - r) 0) as [Ee|Ee]; cbn [andb].
  { assert (r = MSG_BSIZE) as -> by lia. assert (pend MSG_BSIZE x c = pend 0 x c) as Ep by (rewrite pend_below, (pend_above 0), sub_nil by lia; done). unfold k. rewrite Ep. apply IH; try done.
    rewrite (proj2 (Z.ltb_lt _ _)) in Hf by lia. rewrite (proj2 (Z.ltb_ge _ _)) by lia. lia. }
  all: set (n := Z.min _ 128); assert (0 < n <= uio_resid u /\ n <= 128 /\ r + n <= (if x <? r then MSG_BSIZE else x)) as (Hn1&Hn2&Hn3)
    by (unfold n; first [rewrite (proj2 (Z.ltb_lt x r)) by lia|rewrite (proj2 (Z.ltb_ge x r)) by lia]; lia); clearbody n.
  all: assert (pend r x c = sub r (r + n) c ++ pend (r + n) x c /\ (if x <? r + n then 1 else 0) <= (if x <? r then 1 else 0)) as [Ep Hs]
    by (first [rewrite (proj2 (Z.ltb_lt x r)) in * by lia; rewrite (proj2 (Z.ltb_lt x (r + n))), !pend_below, (sub_app r (r + n)) by lia; rewrite <- app_assoc; done
              |rewrite (proj2 (Z.ltb_ge x r)) in * by lia; rewrite (proj2 (Z.ltb_ge x (r + n))), !pend_above by lia; rewrite (sub_app r (r + n)) by lia; done]).
  all: assert (r + n <= MSG_BSIZE) as Hn4 by (destruct (x <? r); lia); pose proof (sub_len r (r + n) c ltac:(lia) ltac:(lia)) as Hsl.
  all: assert (Dir.bytes_at c r n = Ok (sub r (r + n) c)) as -> by (unfold Dir.bytes_at; rewrite (proj2 (Z.ltb_ge r 0)), (proj2 (Z.ltb_ge n 0)), (proj2 (Z.ltb_ge _ (r + n))) by lia; cbn [orb]; unfold sub; do 3 f_equal; lia).
  all: cbn [mbind res_bind]; destruct (uiomove_ok (Rwip.put_bytes 0 (sub r (r + n) c) []) 0 n u um Hu) as (d1&u1&um1&->&M&D); [lia|lia|lia|].
  all: rewrite Hrw in D; destruct D as [_ ->]; replace (Z.min n (uio_resid u)) with n in * by lia; pose proof (mv_resid _ _ _ M Hu) as Hr1.
  all: pose proof (buf_bytes (sub r (r + n) c) (sub_byte _ _ _ Hb) ltac:(lia)) as Ebs; replace (Dir.len (sub r (r + n) c)) with n in Ebs by lia; rewrite Ebs.
  all: destruct (IH (r + n) u1 (scatter (take (Z.to_nat n) (uaddrs u)) (sub r (r + n) c) um)) as (r'&u'&E'&M'&Hr'&Hp'); [lia|done|done|done|apply M|by rewrite (mv_dir _ _ _ M)|lia|].
  all: change (set_bufr (r + n) (ring x r c)) with (ring x (r + n) c); rewrite E'; exists r', u'; set (k' := Z.min (uio_resid u1) (Dir.len (pend (r + n) x c))) in *; assert (k = n + k') as Ek by (unfold k, k'; rewrite Ep, Dirent.len_app; lia).
  all: assert (0 <= k') as Hk' by (unfold k'; pose proof (Dirent.len_nonneg (pend (r + n) x c)); pose proof (uk_resid _ (mv_ok _ _ _ M)); lia).
  all: rewrite (mv_addrs _ _ _ M), scatter_two by (rewrite length_take; unfold Dir.len in *; lia); replace (Z.to_nat n + Z.to_nat k')%nat with (Z.to_nat k) by lia.
  all: rewrite Ep; replace (Z.to_nat k) with (length (sub r (r + n) c) + Z.to_nat k')%nat by (unfold Dir.len in *; lia); rewrite take_app_add, drop_app_add.
  all: split; [done|]; split; [rewrite Ek; by apply (uio_moved_trans n k' u u1)|]; split; [done|exact Hp'].
Qed.
(** (C36) The log keeps the messages in order: a message goes behind what is not
    yet read if it fits, and otherwise takes its place, which is counted unless
    the ring is full to its end.  But a message that makes the ring exactly
    full is lost with all that was there, unless the reader is at the start of
    the ring. *)
Theorem logwrt_spec l buf :
  log_ok l -> Forall byte buf -> buf <> [] -> Dir.len buf <= MSG_BSIZE ->
  let r := msg_bufr (mp l) in
  let fits := Dir.len (pending l) + Dir.len buf <=? MSG_BSIZE in
  let old := if fits then pending l else [] in
  exists l', logwrt buf l = Ok (0, l') /\ log_ok l' /\ msg_bufr (mp l') = r /\
    pending l' = (if negb (r =? 0) && (Dir.len old + Dir.len buf =? MSG_BSIZE) then [] else old ++ buf) /\
    lp l' = if fits || (r =? 0) && (msg_bufx (mp l) =? MSG_BSIZE) then lp l else bump (lp l).
Proof.
  intros [H1 H2 H3 H4 H5 H6] Hb Hne Hlen r fits old. destruct l as [[g x r0 c] p]. unfold pending in *. cbn [mp lp msg_magic msg_bufx msg_bufr msg_bufc] in *. subst g r. rename r0 into r.
  pose proof (len_pos buf Hne) as Hl. unfold logwrt. cbn [mp msg_magic]. rewrite Z.eqb_refl, (proj2 (Z.ltb_ge _ _)) by done. cbn [negb orb]. change (MkKlog (MkMsgbuf MSG_MAGIC x r c) p) with (at_ring r p x c).
  pose proof (room_len r x c H2 H3 H5) as Hroom. pose proof (pend_len r x c H2 H3 H5) as Hpl.
  assert (forall p' x1, 0 <= x1 <= MSG_BSIZE -> forall l', written r p' x1 c buf l' -> held r x1 c = old -> log_ok l' /\ msg_bufr (mp l') = r /\ pending l' = (if negb (r =? 0) && (Dir.len old + Dir.len buf =? MSG_BSIZE) then [] else old ++ buf) /\ lp l' = p') as Hdone.
  { intros p' x1 Hx1 l' (x'&c'&->&W1&W2&W3&W4) Eo. split; [split; cbn; try done; [lia|lia|by apply W3]|]. split; [done|]. split; [|done]. unfold pending. cbn [mp at_ring msg_bufr msg_bufx msg_bufc]. rewrite W4. unfold after. by rewrite Eo. }
  destruct (Z.leb_spec (Dir.len buf) (room r (start x))) as [Hfit|Hfit].
  - destruct (wrt_fit r p H2 x c buf 1 H3 H5 Hne Hfit) as (l'&->&W). exists l'. split; [done|].
    assert (held r x c = old /\ (fits || (r =? 0) && (x =? MSG_BSIZE)) = true) as [Eo ->]; [|by apply (Hdone p x)].
    unfold held, old, fits. destruct ((r =? 0) && (x =? MSG_BSIZE)) eqn:Efull.
    + assert (r = 0 /\ x = MSG_BSIZE) as [-> ->] by lia. rewrite Hpl. unfold MSG_BSIZE in *. cbn [Z.leb Z.compare]. rewrite (proj2 (Z.leb_gt _ _)) by lia. by rewrite orb_true_r.
    + by rewrite (proj2 (Z.leb_le _ _)) by lia.
  - rewrite (wrt_again r p x c buf 3 H2 H3 Hfit). assert (((r =? 0) && (x =? MSG_BSIZE)) = false) as Ef by (destruct ((r =? 0) && (x =? MSG_BSIZE)); [lia|done]). rewrite Ef in *.
    destruct (wrt_fit r (bump p) H2 r c buf 0) as (l'&->&W); [done|done|done|rewrite (room_len r r c) by done; rewrite pend_len, Z.leb_refl by done; destruct ((r =? 0) && (r =? MSG_BSIZE)); lia|]. exists l'. split; [done|].
    assert (fits = false) as Efit by (unfold fits; apply Z.leb_gt; lia). rewrite Efit. apply (Hdone (bump p) r); [done|done|].
    unfold held, old. rewrite Efit. unfold pend. rewrite Z.eqb_refl. by destruct ((r =? 0) && (r =? MSG_BSIZE)).
Qed.

Lemma pending_nil l : log_ok l -> pending l = [] <-> msg_bufr (mp l) = msg_bufx (mp l).
Proof.
  intros [H1 H2 H3 H4 H5 H6]. split; [|intros E; unfold pending, pend; by rewrite E, Z.eqb_refl]. intros E. assert (Dir.len (pending l) = 0) as Hl by (by rewrite E). unfold pending in Hl. rewrite pend_len in Hl by done. destruct (Z.leb_spec (msg_bufr (mp l)) (msg_bufx (mp l))); lia.
Qed.
(** The number that FIONREAD gives. *)
Lemma fionread_ok l data : log_ok l -> logioctl FIONREAD data l = (0, Dir.len (pending l), l).
Proof.
  intros [H1 H2 H3 H4 H5 H6]. unfold logioctl, pending. rewrite Z.eqb_refl, pend_len by done. f_equal. f_equal. destruct (Z.leb_spec (msg_bufr (mp l)) (msg_bufx (mp l))), (Z.ltb_spec (msg_bufx (mp l) - msg_bufr (mp l)) 0); lia.
Qed.

(** (C37) A read of the log returns, with the oldest bytes that are not read, as
    many as asked for or as there are, in the caller's memory, and leaves the
    rest.  If there are none, it reports so or sleeps, as asked; the reader
    that sleeps is woken by the next logwakeup on the open device. *)
Theorem logread_spec l flag u um pfind :
  log_ok l -> uio_ok u -> uio_rw u = UIO_READ ->
  exists rd l', logread flag u um l = Ok (rd, l') /\ log_ok l' /\
    match rd with
    | RSleep => pending l = [] /\ flag_on flag IO_NDELAY = false /\ mp l' = mp l /\ (logisopen l' = true -> Wakeup ∈ (logwakeup pfind l').1)
    | RDone e u' um' =>
        let k := Z.min (uio_resid u) (Dir.len (pending l)) in
        e = (if decide (pending l = []) then EWOULDBLOCK else 0) /\ moved k u u' /\
        um' = scatter (take (Z.to_nat k) (uaddrs u)) (take (Z.to_nat k) (pending l)) um /\ pending l' = drop (Z.to_nat k) (pending l)
    end.
Proof.
  intros Hl Hu Hrw. pose proof (pending_nil l Hl) as Hnil. unfold logread. destruct (Z.eqb_spec (msg_bufr (mp l)) (msg_bufx (mp l))) as [E|E].
  - pose proof (proj2 Hnil E) as En. pose proof (uk_resid _ Hu). destruct (flag_on flag IO_NDELAY); eexists _, _; (split; [done|]).
    + split; [done|]. rewrite En, decide_True, Dirent.len_nil by done. rewrite Z.min_r by lia. split; [done|]. split; [by apply moved_0|done].
    + split; [destruct Hl; by split|]. split; [done|]. split; [done|]. split; [done|]. intros Ho. unfold logwakeup. rewrite Ho. cbn [negb fst lp sc_state set_state]. rewrite flag_on_set_same by done. set_solver.
  - pose proof Hl as [H1 H2 H3 H4 H5 H6]. destruct l as [[g x r c] p]. unfold pending in *. cbn [mp lp msg_magic msg_bufx msg_bufr msg_bufc] in *. subst g. rewrite decide_False by tauto.
    destruct (logread_loop_ok x c (Z.to_nat (uio_resid u) + 3) r u um) as (r'&u'&Er&M&Hr'&Hp'); try done; [pose proof (uk_resid _ Hu); destruct (x <? r); lia|]. change (MkMsgbuf MSG_MAGIC x r c) with (ring x r c). rewrite Er. cbn [mbind res_bind].
    eexists _, _. split; [done|]. split; [|done]. split; cbn; try done. intros ->. specialize (H4 eq_refl). lia.
Qed.

(** ** Witnesses *)

Definition ex_log : klog := MkKlog (MkMsgbuf MSG_MAGIC 2 2046 (replicate 2048 65)) (MkSoftc LOG_OPEN None 0 0).
Lemma ex_log_ok : log_ok ex_log.
Proof. split; try done. by apply Forall_replicate. Qed.
Lemma logwrt_witness : exists l', logwrt [97; 98] ex_log = Ok (0, l') /\ pending l' = [65; 65; 65; 65; 97; 98].
Proof.
  destruct (logwrt_spec ex_log [97; 98] ex_log_ok) as (l'&E&_&_&Hp&_); [by repeat constructor|done|by vm_compute|]. exists l'. split; [exact E|]. rewrite Hp. vm_compute. reflexivity.
Defined.
(** A message that fills the ring takes all the others with it. *)
Lemma logwrt_full : exists l', logwrt (replicate 2044 97) ex_log = Ok (0, l') /\ pending l' = [].
Proof. eexists. split; [vm_compute; reflexivity|]. vm_compute. reflexivity. Qed.
Definition ex_rd : uio := MkUio [MkIovec 4096 3] 1 0 3 UIO_READ.
Lemma ex_rd_ok : uio_ok ex_rd.
Proof. split; [repeat constructor; done|done|done|done]. Qed.
Lemma logread_witness : exists rd l', logread 0 ex_rd ∅ ex_log = Ok (rd, l') /\ log_ok l'.
Proof. destruct (logread_spec ex_log 0 ex_rd ∅ (fun _ => None) ex_log_ok ex_rd_ok eq_refl) as (rd&l'&E&H&_). exists rd, l'. split; [exact E|exact H]. Defined.
End Log.
